(* ===== verification/_CoqProject ===== *)
-Q . S2P
Prelude.v
FlowControl.v
FlowSystem.v
Core.v
Text.v
SlidingWindow.v
PlanStore.v
Stores.v
InFlight.v
PlanCharge.v
Rebalance.v
Float64.v
KvIndex.v
Policy.v
Messages.v
Router.v
LbRing.v
LbGateway.v
LbProxy.v
Json.v
ModelTable.v
PlanTable.v
Config.v
Deployments.v
ConfigSync.v
Transcoder.v
Chat.v
Anthropic.v
Sse.v
AnthropicProvider.v
AnthropicStream.v
ChatStream.v
Gemini.v
Auth.v
Access.v
AgentStats.v
Endpoints.v
Dashboard.v
DashKeys.v
DashImport.v
DashQuota.v
DashUsage.v
DashLists.v
AdminModels.v
Stats.v
DashLogs.v
PromptLog.v
PromptFiles.v
LogWriter.v
Requests.v
Fusion.v
FusionRoute.v
RequestLife.v
