(* ===== verification/Prelude.v ===== *)
(** * BooMGateway: verification library, root file

    BooMGateway is a gateway for language-model APIs.  A request is authenticated, its
    model name is resolved, it is admitted against the plan of its key (and team), it
    is routed to one of the deployments of its model, waits in that deployment's
    admission queue, is sent to the provider, and what it used is settled at the end.
    In front of several gateways stands a layer-7 load balancer (misc/LB).  This
    library models the logic of both in Rocq: data as the source has it, one definition
    per operation with its error branches, and theorems about the operations, their
    compositions and their interleavings.  This file is the prelude: machine integers,
    tactics, list lemmas, and the reachability of a step relation.

    ** Files and the code they model

    Paths are below [src/boom-gateway] unless they start with [misc].

    Shared:
    - [Core]: [boom-core/src/types.rs] and [error.rs], the shared types and the error
      classes; [Text]: the string functions of the standard library that the code uses;
      [Float64]: [f64] arithmetic; [Json]: [serde_json] values and derived parsers.

    Admission and accounting:
    - [FlowControl]: [boom-flowcontrol/src/lib.rs], the admission queue of a deployment,
      operation by operation; [FlowSystem]: its futures, guards, dispatcher and
      reconfiguration as a step relation.
    - [SlidingWindow]: [boom-limiter/src/sliding_window.rs], window counters and quotas;
      [PlanStore]: [boom-limiter/src/concurrency.rs], plans, schedules, assignments and
      concurrency counters; [PlanTable]: the tables of the same file; [PlanCharge]: the
      admission path and the settlement of [boom-main/src/routes.rs].
    - [LogWriter]: [boom-main/src/request_log.rs], from the entries to the table.

    Routing:
    - [Stores] and [ModelTable]: [boom-routing/src/deployment_store.rs] and
      [alias_store.rs], in memory and in the database; [InFlight]: [inflight.rs];
      [Rebalance]: [rebalance.rs] and [request_rate.rs]; [KvIndex]:
      [boom-kvindex/src/backend/token_prefix.rs]; [Policy]: [boom-routing/src/policy/];
      [Messages]: the chat messages of [types.rs] and [boom-core/src/normalize.rs];
      [Router]: [router.rs] and [hybrid_router.rs].

    Wire formats:
    - [Chat]: the chat API of [boom-core/src/types.rs], [boom-provider/src/openai.rs] and
      [azure.rs]; [Anthropic] and [Transcoder]: [boom-core/src/anthropic.rs], the messages
      and the stream; [Sse]: the reader of events that the providers share;
      [AnthropicProvider] and [Gemini]: [boom-provider/src/anthropic.rs] and [gemini.rs];
      [ChatStream]: the forwarding of chunks in [routes.rs]; [AnthropicStream]: provider and
      transcoder behind each other.

    Requests:
    - [Auth]: [boom-auth/src/key_auth.rs] and [boom-main/src/extractor.rs]; [Access]: which
      models a key may use, with [boom-ctxaware/src/classifier.rs]; [AgentStats]:
      [boom-ctxaware/src/stats.rs]; [Endpoints]: error replies, [rewrite.rs], the handlers
      under [/admin] and the readiness check.
    - [Requests]: the handlers of [boom-main/src/routes.rs] for chat completions and
      messages, cut where they await; [Fusion]: [boom-fusion/src], the composite models;
      [FusionRoute]: [boom-routing/src/fusion.rs], their calls; [RequestLife]: the step
      relation over all live requests, the running gateway.
    - [PromptLog] and [PromptFiles]: [boom-core/src/debug_store.rs] and [boom-promptlog/src].

    Dashboard ([boom-dashboard/src]):
    - [Dashboard]: [auth.rs] and [state.rs], logins and sessions; of [handlers_admin.rs] and
      [handlers_user.rs], [DashKeys]: keys, teams and assignments; [DashImport]:
      [import_keys]; [DashQuota]: the resets; [DashUsage]: the pages of usage; [DashLists]:
      the lists of keys and teams; [DashLogs]: the lists of requests, with
      [boom-audit/src/reader.rs], and of what is running; [AdminModels]: models, aliases and
      sections, with [boom-main/src/admin_command.rs]; [Stats]: the charts, with
      [stats_timeseries.rs].

    Configuration:
    - [Config]: [boom-config/src/lib.rs] and [workflow.rs]; [Deployments]: the provider
      factory of [boom-provider], [boom-main/src/health_monitor.rs] and the part of
      [admin_command.rs] it uses; [ConfigSync]: [boom-main/src/state.rs], what a reload
      builds and writes, and the persist of the tables into the configuration file.

    Load balancer:
    - [LbRing], [LbGateway], [LbProxy]: [misc/LB/src].

    Each file holds a Module of its name (some hold a second one for a part of their own)
    and opens with a comment on its own correspondence.

    ** How the parts meet

    The policies read the load through the class [DeploymentQueueInfo], which the
    admission queue implements, and the prefix index through [KvIndexBackend]; the
    router knows the policies by [SchedulePolicy] and its laws [PolicyLaws], and the
    classifier by [ClassificationStrategy]; [PlanCharge] uses the limiter and the plan
    store directly, as the handlers do.  [Requests] puts the identity of [Auth], the access
    check, the charge, the router, the queue and the log on one [Server] state;
    [FusionRoute] lets the workflows of [Fusion] call back into it, and [RequestLife]
    interleaves the parts with the queue of [FlowSystem].  The entries that [Requests]
    writes are what [LogWriter] stores and [Stats] draws.

    [ConfigSync] composes [Config], [Deployments], [Stores], [ModelTable], [PlanStore] and
    [FlowControl] into a world that [AdminModels] edits.  [DashKeys] writes the table that
    [Auth] reads and the tables of [PlanTable]; [DashImport], [DashQuota] and [DashLists]
    use the same tables, over the limiter of [SlidingWindow], and [DashUsage] shows the
    state on which [PlanCharge] decides.

    ** What the theorems show

    - The running gateway: on every path, clients that leave included, guards are dropped
      once, a request writes one log entry, and the log agrees with the quotas.
    - Admission: no slot or context leaks, limits hold in every reachable state, the
      dispatcher leaves no grantable request, and the two races that admit above a limit.
    - Limits and plans: a window never counts more than its limit through peek and
      commit, a charge is accounted once and released, a snapshot restores, schedules and
      shorthands mean what they say, the admission decision equals its specification, and
      what a restart recovers of the tables.
    - Wire formats: how the packets of the network are cut does not matter, the streams
      that leave are well formed and complete, an answer and a stream of an Anthropic
      upstream arrive at an Anthropic client as they were sent.
    - Composite models: the answer is the aggregator's over the panel, and usage is summed.
    - Prefix index: look-ups equal a reference on the recorded prefixes, capacity holds.
    - Routing: what is selected is registered, policies keep their balance and choose the
      best score.
    - Keys and logins: a created key authenticates as what was asked for, only the master
      key or an administrator's session manages, guesses of a password are bounded.
    - Dashboard: an import answers for each of its rows, what a reset resets, edits of
      models are kept by the next start, charts count the log, pages have every row once,
      and a usage page that shows room means that the request is admitted.
    - Logs: every entry is stored, dropped and counted, or still under way; the lines of
      the prompt log are kept in their order.
    - Configuration: what loads is typed and valid, edits are framed, masking hides
      secrets, entries survive the tables exactly when they fit them, and what a persist
      loses (marks of the monitor, hidden aliases, an unloadable file).
    - Health: a deployment goes offline at the threshold, and leaves its model.
    - Load balancer: no phase panics, filters are exact, failover visits every backend,
      adding a backend moves keys only onto it.

    ** Conventions, bounds and fuel

    - The gateway is built in release mode: unsigned arithmetic wraps, and is written
      with [wrap32] and [wrap64]; a panic is [None].
    - A [DashMap] or [HashMap] is a finite map; where its order shows, the order is an
      argument.  A clock is an argument of the operation that reads it.  SQL statements
      are functions of tables given as lists, or their outcome is an argument.
    - Third-party code is a class or a parameter: decimals ([DecimalOps]), the LRU cache
      of the prefix index, the xxhash function, networks of addresses ([IpNetOps]),
      [str::to_lowercase], the parsers and formatters of addresses.  [f64] is the
      [SpecFloat] of the Standard Library.  Laws that are assumed of them are named
      hypotheses of a Section, with a concrete instance in the witnesses.
    - Fuel is the length of what is walked: a string or a list for the stripping
      functions, the number of nodes for the walk that removes a branch of the index.
      The lemmas beside them show that it suffices.
    - The [try_lock] of the prefix index is taken to succeed, and its operations run one
      at a time; [sort_unstable] and [binary_search] are fixed on equal hashes.
    - A struct that serde would also read from a sequence is refused by the parsers here.

    ** Not modelled

    The text of YAML and JSON (the libraries parse and print it) and the substitution of
    environment references in it; HTTP, sockets, threads, timers; the static files of the
    dashboard; hooks, which are calls into loaded libraries; the migrations; the
    configuration manifest; the calls to Bedrock; the start of the process and the parsing
    of its arguments; the test tools.  The manifest
    of the components says which parts are complete and why a part is left out. *)

From stdpp Require Export base tactics option list list_numbers gmap sets strings sorting.
From Stdlib Require Export ZArith Lia.
#[global] Open Scope Z_scope.
#[global] Set Default Goal Selector "!".

(** ** Notations *)

Declare Scope gateway_scope.
Delimit Scope gateway_scope with gw.
#[global] Open Scope gateway_scope.

(** ** Machine integers

    The gateway is built in release mode, without [overflow-checks]: the Rust
    operators [+], [-], [*] on unsigned integers wrap.  A value of a [w]-bit
    unsigned type is a [Z] in [0, 2^w). *)

Definition u32_max : Z := 2 ^ 32 - 1.
Definition u64_max : Z := 2 ^ 64 - 1.
Definition wrap32 (z : Z) : Z := z mod 2 ^ 32.
Definition wrap64 (z : Z) : Z := z mod 2 ^ 64.
Definition is_u32 (z : Z) : Prop := 0 <= z < 2 ^ 32.
Definition is_u64 (z : Z) : Prop := 0 <= z < 2 ^ 64.
Definition is_i64 (z : Z) : Prop := - 2 ^ 63 <= z < 2 ^ 63.

Definition u32_add (a b : Z) : Z := wrap32 (a + b).
Definition u32_sub (a b : Z) : Z := wrap32 (a - b).
Definition u32_mul (a b : Z) : Z := wrap32 (a * b).
Definition u64_add (a b : Z) : Z := wrap64 (a + b).
Definition u64_sub (a b : Z) : Z := wrap64 (a - b).
Definition u64_mul (a b : Z) : Z := wrap64 (a * b).
(** [saturating_sub] and [saturating_add] of [u64]. *)
Definition sat_sub (a b : Z) : Z := Z.max 0 (a - b).
Definition sat_add (a b : Z) : Z := Z.min u64_max (a + b).

(** [as i64] and [as u64] casts: two's complement reinterpretation. *)
Definition as_i64 (z : Z) : Z := let m := wrap64 z in if m <? 2 ^ 63 then m else m - 2 ^ 64.
Definition as_u64 (z : Z) : Z := wrap64 z.
Definition i64_add (a b : Z) : Z := as_i64 (a + b).
Definition i64_neg (a : Z) : Z := as_i64 (- a).

Infix "+u" := u64_add (at level 50, left associativity) : gateway_scope.
Infix "-u" := u64_sub (at level 50, left associativity) : gateway_scope.
Infix "*u" := u64_mul (at level 40, left associativity) : gateway_scope.
Infix "-sat" := sat_sub (at level 50, left associativity) : gateway_scope.
Infix "+sat" := sat_add (at level 50, left associativity) : gateway_scope.

Create HintDb width.

Lemma wrap64_small z : is_u64 z -> wrap64 z = z.
Proof. intros H. apply Z.mod_small. exact H. Qed.
Lemma wrap32_small z : is_u32 z -> wrap32 z = z.
Proof. intros H. apply Z.mod_small. exact H. Qed.
Lemma wrap64_u64 z : is_u64 (wrap64 z).
Proof. apply Z.mod_pos_bound. lia. Qed.
Lemma u64_add_small a b : 0 <= a -> 0 <= b -> a + b < 2 ^ 64 -> a +u b = a + b.
Proof. intros. apply wrap64_small. unfold is_u64. lia. Qed.
Lemma u32_add_small a b : 0 <= a -> 0 <= b -> a + b < 2 ^ 32 -> u32_add a b = a + b.
Proof. intros. apply wrap32_small. unfold is_u32. lia. Qed.
Lemma u64_sub_small a b : 0 <= b <= a -> a < 2 ^ 64 -> a -u b = a - b.
Proof. intros. apply wrap64_small. unfold is_u64. lia. Qed.
Lemma u64_mul_small a b : 0 <= a * b < 2 ^ 64 -> a *u b = a * b.
Proof. intros. apply wrap64_small. exact H. Qed.
Lemma as_i64_small z : 0 <= z < 2 ^ 63 -> as_i64 z = z.
Proof.
  intros H. unfold as_i64. rewrite wrap64_small by (unfold is_u64; lia).
  destruct (Z.ltb_spec z (2 ^ 63)); lia.
Qed.
Lemma as_i64_range z : is_i64 (as_i64 z).
Proof.
  unfold as_i64, is_i64. pose proof (wrap64_u64 z) as H. unfold is_u64 in H.
  destruct (Z.ltb_spec (wrap64 z) (2 ^ 63)); lia.
Qed.
Lemma as_i64_id z : is_i64 z -> as_i64 z = z.
Proof.
  intros H. unfold is_i64 in H. destruct (decide (0 <= z)) as [Hp | Hn].
  { apply as_i64_small. lia. }
  unfold as_i64, wrap64. rewrite <- (Z.mod_add z 1 (2 ^ 64)) by lia.
  rewrite Z.mod_small by lia.
  destruct (Z.ltb_spec (z + 1 * 2 ^ 64) (2 ^ 63)); lia.
Qed.
#[export] Hint Resolve wrap64_u64 as_i64_range : width.

(** ** Tactics *)

(** Split the booleans of the hypotheses and the goal into propositions. *)
Ltac bool_simpl :=
  repeat match goal with
  | H : _ && _ = true |- _ => apply andb_true_iff in H as [? ?]
  | H : _ || _ = false |- _ => apply orb_false_iff in H as [? ?]
  | H : negb _ = true |- _ => apply negb_true_iff in H
  | H : negb _ = false |- _ => apply negb_false_iff in H
  | H : (_ =? _)%Z = true |- _ => apply Z.eqb_eq in H
  | H : (_ =? _)%Z = false |- _ => apply Z.eqb_neq in H
  | H : (_ <? _)%Z = true |- _ => apply Z.ltb_lt in H
  | H : (_ <? _)%Z = false |- _ => apply Z.ltb_ge in H
  | H : (_ <=? _)%Z = true |- _ => apply Z.leb_le in H
  | H : (_ <=? _)%Z = false |- _ => apply Z.leb_gt in H
  | H : bool_decide _ = true |- _ => apply bool_decide_eq_true_1 in H
  | H : bool_decide _ = false |- _ => apply bool_decide_eq_false_1 in H
  end.

(** Case on every boolean test of the goal. *)
Ltac case_tests :=
  repeat (case_match || case_decide); bool_simpl; simplify_eq/=.

(** ** Lists *)

Section lists.
Context {A : Type}.
Implicit Types l k : list A.

(** Sum of a measure over a list. *)
Definition zsum (f : A -> Z) (l : list A) : Z := foldr (fun x acc => f x + acc) 0 l.

Lemma zsum_app f l k : zsum f (l ++ k) = zsum f l + zsum f k.
Proof. unfold zsum. induction l; simpl; lia. Qed.
Lemma zsum_nonneg f l : (forall x, x ∈ l -> 0 <= f x) -> 0 <= zsum f l.
Proof.
  induction l as [| a l IH]; simpl; intros H; [done |].
  pose proof (H a ltac:(left)). pose proof (IH ltac:(intros; apply H; by right)).
  change (0 <= f a + zsum f l). lia.
Qed.
Lemma zsum_cons f x l : zsum f (x :: l) = f x + zsum f l.
Proof. done. Qed.
Lemma zsum_elem f l x : (forall x, x ∈ l -> 0 <= f x) -> x ∈ l -> f x <= zsum f l.
Proof.
  intros Hp Hx. induction l as [| y l IH]; [by apply elem_of_nil in Hx |]. rewrite zsum_cons.
  pose proof (Hp y ltac:(left)). pose proof (zsum_nonneg f l (fun z Hz => Hp z ltac:(by right))).
  apply elem_of_cons in Hx as [-> | Hx]; [lia |]. specialize (IH (fun z Hz => Hp z ltac:(by right)) Hx). lia.
Qed.
Lemma zsum_perm f l k : l ≡ₚ k -> zsum f l = zsum f k.
Proof. induction 1; rewrite ?zsum_cons in *; lia. Qed.
Lemma zsum_ext f g l : (forall x, x ∈ l -> f x = g x) -> zsum f l = zsum g l.
Proof.
  induction l as [| a l IH]; intros H; [done |]. rewrite !zsum_cons, IH.
  { by rewrite (H a ltac:(left)). }
  intros; apply H; by right.
Qed.

(** [Vec::retain]. *)
Definition retain (P : A -> bool) (l : list A) : list A := base.filter (fun x => P x = true) l.

Lemma elem_of_retain P l x : x ∈ retain P l <-> P x = true /\ x ∈ l.
Proof. unfold retain. by rewrite list_elem_of_filter. Qed.
Lemma retain_cons P x l : retain P (x :: l) = if P x then x :: retain P l else retain P l.
Proof. unfold retain. rewrite filter_cons. destruct (P x); by case_decide. Qed.

Lemma retain_app P l k : retain P (l ++ k) = retain P l ++ retain P k.
Proof. unfold retain. apply filter_app. Qed.
Lemma retain_all P l : (forall x, x ∈ l -> P x = true) -> retain P l = l.
Proof.
  induction l as [| x l IH]; intros H; [done |]. rewrite retain_cons, H by (by left). f_equal. apply IH. intros y Hy. apply H. by right.
Qed.
Lemma retain_none P l : (forall x, x ∈ l -> P x = false) -> retain P l = [].
Proof.
  induction l as [| x l IH]; intros H; [done |]. rewrite retain_cons, H by (by left). apply IH. intros y Hy. apply H. by right.
Qed.
Lemma retain_comm P Q l : retain P (retain Q l) = retain Q (retain P l).
Proof. unfold retain. rewrite !list_filter_filter. apply list_filter_iff. naive_solver. Qed.
Lemma retain_perm P l k : l ≡ₚ k -> retain P l ≡ₚ retain P k.
Proof. intros H. unfold retain. by rewrite H. Qed.
Lemma retain_length P l : (length (retain P l) <= length l)%nat.
Proof. apply length_filter. Qed.

(** Boolean membership of [Vec::contains] and [Iterator::any]. *)
Lemma existsb_elem (P : A -> bool) l : existsb P l = true <-> exists x, x ∈ l /\ P x = true.
Proof. rewrite existsb_exists. setoid_rewrite list_elem_of_In. done. Qed.
End lists.

Lemma zsum_fmap {A B} (g : A -> B) (f : B -> Z) (l : list A) : zsum f (g <$> l) = zsum (fun x => f (g x)) l.
Proof. induction l as [| x l IH]; [done |]. rewrite fmap_cons, !zsum_cons. by rewrite IH. Qed.
Lemma zsum_bind {A B} (g : A -> list B) (f : B -> Z) (l : list A) : zsum f (l ≫= g) = zsum (fun x => zsum f (g x)) l.
Proof. induction l as [| x l IH]; [done |]. rewrite bind_cons, zsum_app, zsum_cons. lia. Qed.
Lemma zsum_retain {A} (f : A -> Z) P (l : list A) : zsum f (retain P l) = zsum (fun x => if P x then f x else 0) l.
Proof. induction l as [| x l IH]; [done |]. rewrite retain_cons, zsum_cons. destruct (P x); rewrite ?zsum_cons; lia. Qed.
Lemma retain_bind {A B} P (g : A -> list B) (l : list A) : retain P (l ≫= g) = l ≫= fun x => retain P (g x).
Proof. induction l as [| x l IH]; [done |]. rewrite !bind_cons, retain_app. by f_equal. Qed.

#[global] Arguments zsum : simpl never.
#[global] Arguments retain : simpl never.

#[export] Instance zsum_proper {A} (f : A -> Z) : Proper ((≡ₚ) ==> (=)) (zsum f).
Proof. intros l k H. by apply zsum_perm. Qed.

(** A duplicate-free image tells the elements apart. *)
Lemma NoDup_fmap_elem {A B} (f : A -> B) (l : list A) x y :
  NoDup (f <$> l) -> x ∈ l -> y ∈ l -> f x = f y -> x = y.
Proof.
  intros Hnd Hx Hy E. apply list_elem_of_lookup in Hx as [i Hi], Hy as [j Hj].
  assert (i = j) as ->; [| congruence].
  eapply (NoDup_lookup (f <$> l)); [done | |]; rewrite list_lookup_fmap.
  - rewrite Hi. simpl. reflexivity.
  - rewrite Hj. simpl. congruence.
Qed.

Lemma list_find_delete_sublist {A} (P : A -> Prop) `{forall x, Decision (P x)} (l : list A) i x :
  list_find P l = Some (i, x) -> delete i l `sublist_of` l.
Proof. intros _. apply sublist_delete. Qed.

(** ** Executions: reflexive-transitive closures and invariants *)

Section executions.
Context {S : Type} (step : S -> S -> Prop).

(** The states an execution can reach from [init]. *)
Definition reachable (init : S) (s : S) : Prop := rtc step init s.

Lemma reachable_invariant (I : S -> Prop) init :
  I init -> (forall s s', I s -> step s s' -> I s') -> forall s, reachable init s -> I s.
Proof.
  intros H0 Hs s Hr. revert H0. induction Hr as [| x y z Hxy _ IH]; [done |].
  intros Hx. apply IH. eauto.
Qed.
End executions.
