(* ===== verification/FlowControl.v ===== *)
(** * FlowControl: the per-deployment admission queue (boom-flowcontrol)

    Models [boom-gateway/boom-flowcontrol/src/lib.rs]: the slot with its VIP and
    normal queues, the greedy dispatcher, [acquire] with its grant, timeout and
    cancellation paths, the RAII guards, the reverse index by key and the
    read-only dashboard queries.  A [tokio::sync::oneshot] channel is a channel
    number: a queue entry holds [Some c] while it owns the sender, and the
    parameter [alive] tells whether the receiver of [c] still exists, which is
    what [Sender::send] reports. *)

From S2P Require Import Prelude.

Module FlowControl.

(** ** Data *)

Record FlowControlConfig := mkFlowControlConfig { cfg_max_inflight : Z; cfg_max_context : Z }.

Record QueuedRequest := mkQueuedRequest {
  rq_id : Z;
  context_chars : Z;
  key_alias : option string;
  model : option string;
  enqueued_at : Z;
  dispatched_at : option Z;
  dispatched : bool;
  grant : option Z;
}.

Record SlotInner := mkSlotInner {
  max_inflight : Z;
  max_context : Z;
  vip_queue : list QueuedRequest;
  normal_queue : list QueuedRequest;
  next_id : Z;
}.

Record KeyRequestRef := mkKeyRequestRef { kr_deployment_id : string; kr_request_id : Z }.

#[export] Instance KeyRequestRef_eq_dec : EqDecision KeyRequestRef.
Proof. solve_decision. Defined.

Inductive FlowControlError :=
| Timeout (deployment_id : string) (waiters : Z)
| NoSlot
| ContextExceeded (deployment_id : string) (context_chars max_context : Z).

Record FlowController := mkFlowController {
  slots : gmap string SlotInner;
  key_index : gmap string (list KeyRequestRef);
}.

Definition queue_of (inner : SlotInner) (is_vip : bool) : list QueuedRequest :=
  if is_vip then vip_queue inner else normal_queue inner.

Definition set_queue (inner : SlotInner) (is_vip : bool) (q : list QueuedRequest) : SlotInner :=
  if is_vip
  then mkSlotInner (max_inflight inner) (max_context inner) q (normal_queue inner) (next_id inner)
  else mkSlotInner (max_inflight inner) (max_context inner) (vip_queue inner) q (next_id inner).

(** [vip_queue.iter().chain(normal_queue.iter())] *)
Definition all_requests (inner : SlotInner) : list QueuedRequest :=
  vip_queue inner ++ normal_queue inner.

(** ** The slot *)

Definition inflight_stats (inner : SlotInner) : Z * Z :=
  foldl (fun '(cnt, ctx) r => (u32_add cnt 1, ctx +u context_chars r)) (0, 0)
        (retain dispatched (all_requests inner)).

Definition mark_dispatched (now : Z) (r : QueuedRequest) : QueuedRequest :=
  mkQueuedRequest (rq_id r) (context_chars r) (key_alias r) (model r) (enqueued_at r)
                  (Some now) true None.

Section dispatcher.
(** Receivers that still exist, and the instant of the dispatch. *)
Context (alive : Z -> bool) (now : Z).

(** The [while] loop of [try_dispatch_fitting], from the current index on:
    the remaining queue and the channel that was notified, if any. *)
Fixpoint scan_queue (max_ctx used_ctx : Z) (q : list QueuedRequest)
  : list QueuedRequest * option Z :=
  match q with
  | [] => ([], None)
  | req :: rest =>
    let skip := let '(rest', g) := scan_queue max_ctx used_ctx rest in (req :: rest', g) in
    if dispatched req then skip
    else match grant req with
    | None => scan_queue max_ctx used_ctx rest
    | Some c =>
      if (0 <? max_ctx) && (max_ctx <? used_ctx +u context_chars req) then skip
      else if alive c then (mark_dispatched now req :: rest, Some c)
      else scan_queue max_ctx used_ctx rest
    end
  end.

Definition try_dispatch_fitting (inner : SlotInner) (used_ctx : Z) (vip : bool)
  : SlotInner * option Z :=
  let '(q, g) := scan_queue (max_context inner) used_ctx (queue_of inner vip) in
  (set_queue inner vip q, g).

(** The [loop] of [dispatch]; [fuel] bounds its turns.  Returns the channels
    notified, in order. *)
Fixpoint dispatch_loop (fuel : nat) (inner : SlotInner) : SlotInner * list Z :=
  match fuel with
  | O => (inner, [])
  | S fuel =>
    let '(inflight, used_ctx) := inflight_stats inner in
    if (0 <? max_inflight inner) && (max_inflight inner <=? inflight) then (inner, [])
    else
      let '(inner1, g1) := try_dispatch_fitting inner used_ctx true in
      match g1 with
      | Some c => let '(inner', gs) := dispatch_loop fuel inner1 in (inner', c :: gs)
      | None =>
        let '(inner2, g2) := try_dispatch_fitting inner1 used_ctx false in
        match g2 with
        | Some c => let '(inner', gs) := dispatch_loop fuel inner2 in (inner', c :: gs)
        | None => (inner2, [])
        end
      end
  end.

(** Every turn but the last dispatches one waiting request. *)
Definition dispatch (inner : SlotInner) : SlotInner * list Z :=
  dispatch_loop (S (length (all_requests inner))) inner.

(** [position] + [remove] + [dispatch], the body shared by the two [Drop]s. *)
Definition release (inner : SlotInner) (is_vip : bool) (request_id : Z) : SlotInner * list Z :=
  match list_find (fun r => rq_id r = request_id) (queue_of inner is_vip) with
  | Some (idx, _) => dispatch (set_queue inner is_vip (delete idx (queue_of inner is_vip)))
  | None => (inner, [])
  end.
End dispatcher.

(** Number of waiting entries in front of [request_id]: the two [for] loops. *)
Fixpoint waiting_before (request_id : Z) (q : list QueuedRequest) : Z :=
  match q with
  | [] => 0
  | req :: rest =>
    if rq_id req =? request_id then 0
    else (if dispatched req then 0 else 1) + waiting_before request_id rest
  end.

Definition waiting_count (q : list QueuedRequest) : Z :=
  Z.of_nat (length (retain (fun r => negb (dispatched r)) q)).

Definition position_for (inner : SlotInner) (request_id : Z) (is_vip : bool) : Z :=
  if is_vip then waiting_before request_id (vip_queue inner)
  else waiting_count (vip_queue inner) + waiting_before request_id (normal_queue inner).

(** ** The controller *)

Definition new_controller : FlowController := mkFlowController ∅ ∅.

Definition set_slots (fc : FlowController) (m : gmap string SlotInner) : FlowController :=
  mkFlowController m (key_index fc).
Definition set_key_index (fc : FlowController) (m : gmap string (list KeyRequestRef)) : FlowController :=
  mkFlowController (slots fc) m.

Definition ensure_slot (fc : FlowController) (deployment_id : string) (config : FlowControlConfig)
  : FlowController :=
  if (cfg_max_inflight config =? 0) && (cfg_max_context config =? 0)
  then set_slots fc (delete deployment_id (slots fc))
  else
    let inner' := match slots fc !! deployment_id with
    | None => mkSlotInner (cfg_max_inflight config) (cfg_max_context config) [] [] 0
    | Some inner => mkSlotInner (cfg_max_inflight config) (cfg_max_context config)
                                (vip_queue inner) (normal_queue inner) (next_id inner)
    end in
    set_slots fc (<[deployment_id := inner']> (slots fc)).

Definition remove_slot (fc : FlowController) (deployment_id : string) : FlowController :=
  set_slots fc (delete deployment_id (slots fc)).

Definition retain_slots (fc : FlowController) (active_ids : list string) : FlowController :=
  set_slots fc (base.filter (fun kv => kv.1 ∈ active_ids) (slots fc)).

Definition remove_key_ref (index : gmap string (list KeyRequestRef))
    (key_hash deployment_id : string) (request_id : Z) : gmap string (list KeyRequestRef) :=
  match index !! key_hash with
  | None => index
  | Some refs =>
    let refs' := retain (fun r => negb (bool_decide (kr_deployment_id r = deployment_id)
                                        && (kr_request_id r =? request_id))) refs in
    if (length refs' =? length refs)%nat then index
    else match refs' with
    | [] => delete key_hash index
    | _ => <[key_hash := refs']> index
    end
  end.

Definition remove_key_ref_opt (fc : FlowController) (key_hash : option string)
    (deployment_id : string) (request_id : Z) : FlowController :=
  match key_hash with
  | Some kh => set_key_index fc (remove_key_ref (key_index fc) kh deployment_id request_id)
  | None => fc
  end.

(** [next_id += 1] and [push_back] on the queue of the request. *)
Definition push_request (inner : SlotInner) (is_vip : bool) (req : QueuedRequest) : SlotInner :=
  let inner1 := mkSlotInner (max_inflight inner) (max_context inner) (vip_queue inner)
                            (normal_queue inner) (next_id inner +u 1) in
  set_queue inner1 is_vip (queue_of inner1 is_vip ++ [req]).

(** The part of [acquire] that runs before the first [await]: enqueue, dispatch
    and index.  [chan] is the fresh oneshot channel.  On success: the request id
    and the channels the dispatcher notified. *)
Definition acquire_enqueue (alive : Z -> bool) (now chan : Z) (fc : FlowController)
    (deployment_id : string) (context_chars : Z) (is_vip : bool)
    (key_alias key_hash model : option string)
  : FlowController * (FlowControlError + (Z * list Z)) :=
  match slots fc !! deployment_id with
  | None => (fc, inl NoSlot)
  | Some inner =>
    if (0 <? max_context inner) && (max_context inner <? context_chars)
    then (fc, inl (ContextExceeded deployment_id context_chars (max_context inner)))
    else
      let request_id := next_id inner in
      let req := mkQueuedRequest request_id context_chars key_alias model now None false (Some chan) in
      let '(inner', gs) := dispatch alive now (push_request inner is_vip req) in
      let fc1 := set_slots fc (<[deployment_id := inner']> (slots fc)) in
      let fc2 := match key_hash with
      | Some kh => set_key_index fc1 (<[kh := default [] (key_index fc1 !! kh)
                                              ++ [mkKeyRequestRef deployment_id request_id]]>
                                      (key_index fc1))
      | None => fc1
      end in
      (fc2, inr (request_id, gs))
  end.

Definition total_waiters_for (fc : FlowController) (deployment_id : string) : Z :=
  match slots fc !! deployment_id with
  | Some inner => waiting_count (all_requests inner)
  | None => 0
  end.

(** The timeout arm of [acquire]: [inr tt] means that a guard is returned. *)
Definition acquire_timeout (fc : FlowController) (deployment_id : string) (request_id : Z)
    (is_vip : bool) (key_hash : option string) : FlowController * (FlowControlError + unit) :=
  let '(fc1, already_dispatched) :=
    match slots fc !! deployment_id with
    | Some inner =>
      let queue := queue_of inner is_vip in
      match list_find (fun r => rq_id r = request_id) queue with
      | Some (idx, r) =>
        if dispatched r then (fc, true)
        else (set_slots fc (<[deployment_id := set_queue inner is_vip (delete idx queue)]> (slots fc)), false)
      | None => (fc, true)
      end
    | None => (fc, false)
    end in
  if (already_dispatched : bool) then (fc1, inr tt)
  else
    let fc2 := remove_key_ref_opt fc1 key_hash deployment_id request_id in
    (fc2, inl (Timeout deployment_id (total_waiters_for fc2 deployment_id))).

(** [AcquireCleanup::drop] with [consumed = false]: without a slot it returns
    before it touches the key index. *)
Definition cleanup_drop (alive : Z -> bool) (now : Z) (fc : FlowController)
    (deployment_id : string) (request_id : Z) (is_vip : bool) (key_hash : option string)
  : FlowController * list Z :=
  match slots fc !! deployment_id with
  | None => (fc, [])
  | Some inner =>
    let '(inner', gs) := release alive now inner is_vip request_id in
    (remove_key_ref_opt (set_slots fc (<[deployment_id := inner']> (slots fc)))
                        key_hash deployment_id request_id, gs)
  end.

(** [FlowControlGuard::drop]: the index entry goes even without a slot. *)
Definition guard_drop (alive : Z -> bool) (now : Z) (fc : FlowController)
    (deployment_id : string) (request_id : Z) (is_vip : bool) (key_hash : option string)
  : FlowController * list Z :=
  let '(fc1, gs) :=
    match slots fc !! deployment_id with
    | Some inner =>
      let '(inner', gs) := release alive now inner is_vip request_id in
      (set_slots fc (<[deployment_id := inner']> (slots fc)), gs)
    | None => (fc, [])
    end in
  (remove_key_ref_opt fc1 key_hash deployment_id request_id, gs).

(** One iteration of [periodic_dispatch]: the slots are locked one by one. *)
Definition dispatch_slot (alive : Z -> bool) (now : Z) (fc : FlowController) (deployment_id : string)
  : FlowController * list Z :=
  match slots fc !! deployment_id with
  | Some inner =>
    let '(inner', gs) := dispatch alive now inner in
    (set_slots fc (<[deployment_id := inner']> (slots fc)), gs)
  | None => (fc, [])
  end.

Definition periodic_dispatch (alive : Z -> bool) (now : Z) (fc : FlowController)
  : FlowController * list Z :=
  foldl (fun '(fc, gs) d => let '(fc', gs') := dispatch_slot alive now fc d in (fc', gs ++ gs'))
        (fc, []) (map_to_list (slots fc)).*1.

(** ** Read-only queries *)

Record FlowControlStat := mkFlowControlStat {
  st_deployment_id : string;
  current_inflight : Z;
  current_context : Z;
  waiters : Z;
  vip_waiters : Z;
  st_max_inflight : Z;
  st_max_context : Z;
}.

Definition get_stats (fc : FlowController) : list FlowControlStat :=
  (fun '(d, inner) =>
     let '(inflight, context) := inflight_stats inner in
     mkFlowControlStat d inflight context (waiting_count (normal_queue inner))
       (waiting_count (vip_queue inner)) (max_inflight inner) (max_context inner))
  <$> map_to_list (slots fc).

(** [(key_alias, is_vip)] of every waiting request of every slot. *)
Definition get_queued_waiters (fc : FlowController) : list (string * list (option string * bool)) :=
  (fun '(d, inner) =>
     (d, ((fun r => (key_alias r, true)) <$> retain (fun r => negb (dispatched r)) (vip_queue inner))
         ++ ((fun r => (key_alias r, false)) <$> retain (fun r => negb (dispatched r)) (normal_queue inner))))
  <$> map_to_list (slots fc).

Definition dispatched_aliases (is_vip : bool) (q : list QueuedRequest) : list (string * bool) :=
  omap (fun r => (fun a => (a, is_vip)) <$> key_alias r) (retain dispatched q).

Definition get_dispatched_keys (fc : FlowController) : list (string * list (string * bool)) :=
  (fun '(d, inner) =>
     (d, dispatched_aliases true (vip_queue inner) ++ dispatched_aliases false (normal_queue inner)))
  <$> map_to_list (slots fc).

Inductive UserRequestStage :=
| WaitingStage (ahead : Z)
| Processing (parallel_count processing_time : Z).

Record UserRequestStatus := mkUserRequestStatus {
  us_model : string;
  us_deployment_id : string;
  status : UserRequestStage;
  wait_time : Z;
  us_is_vip : bool;
}.

(** Durations are kept as integers: the [as_secs_f64] conversion is display only. *)
Definition build_user_status (now : Z) (req : QueuedRequest) (deployment_id : string)
    (is_vip : bool) (inflight : Z) (inner : SlotInner) : UserRequestStatus :=
  let stage :=
    if dispatched req
    then Processing inflight (from_option (fun t => now - t) 0 (dispatched_at req))
    else WaitingStage (position_for inner (rq_id req) is_vip) in
  mkUserRequestStatus (default "" (model req)) deployment_id stage (now - enqueued_at req) is_vip.

(** One reference of the index: its status, or [None] when it is stale. *)
Definition lookup_ref (now : Z) (fc : FlowController) (kr : KeyRequestRef) : option UserRequestStatus :=
  match slots fc !! kr_deployment_id kr with
  | None => None
  | Some inner =>
    let is_it := fun r => rq_id r = kr_request_id kr in
    match list_find is_it (all_requests inner) with
    | Some (_, req) =>
      Some (build_user_status now req (kr_deployment_id kr)
              (existsb (fun r => rq_id r =? kr_request_id kr) (vip_queue inner))
              (inflight_stats inner).1 inner)
    | None => None
    end
  end.

Definition get_key_request_status (now : Z) (fc : FlowController) (key_hash : string)
  : FlowController * list UserRequestStatus :=
  match key_index fc !! key_hash with
  | None => (fc, [])
  | Some refs =>
    let results := omap (lookup_ref now fc) refs in
    let stale_refs := retain (fun kr => bool_decide (lookup_ref now fc kr = None)) refs in
    match stale_refs with
    | [] => (fc, results)
    | _ =>
      let entries := retain (fun r => negb (bool_decide (r ∈ stale_refs))) refs in
      let index' := match entries with
      | [] => delete key_hash (key_index fc)
      | _ => <[key_hash := entries]> (key_index fc)
      end in
      (set_key_index fc index', results)
    end
  end.

(** [impl DeploymentQueueInfo for FlowController] *)
Definition total_load (fc : FlowController) (deployment_id : string) : Z :=
  match slots fc !! deployment_id with
  | Some inner => Z.of_nat (length (vip_queue inner)) +u Z.of_nat (length (normal_queue inner))
  | None => 0
  end.

Definition max_capacity (fc : FlowController) (deployment_id : string) : Z :=
  match slots fc !! deployment_id with
  | Some inner => max_inflight inner
  | None => 0
  end.

(** ** Lemmas: the scan of one queue *)

(** Reference definitions the lemmas speak about: in-flight requests counted
    and summed without wrap-around. *)
Definition inflight_count (q : list QueuedRequest) : Z := Z.of_nat (length (retain dispatched q)).
Definition context_sum (q : list QueuedRequest) : Z := zsum context_chars (retain dispatched q).

(** No counter of the slot is near its width: fewer than 2^32 requests, context
    sizes of the whole queue (in flight or not) below 2^64. *)
Definition queue_small (q : list QueuedRequest) : Prop :=
  Z.of_nat (length q) < 2 ^ 32
  /\ (forall r, r ∈ q -> 0 <= context_chars r)
  /\ zsum context_chars q < 2 ^ 64.

(** A waiting request that this dispatcher could send now. *)
Definition fits (max_ctx used_ctx : Z) (r : QueuedRequest) : Prop :=
  max_ctx <= 0 \/ used_ctx +u context_chars r <= max_ctx.

Lemma inflight_count_app q1 q2 : inflight_count (q1 ++ q2) = inflight_count q1 + inflight_count q2.
Proof. unfold inflight_count. rewrite retain_app, length_app. lia. Qed.
Lemma context_sum_app q1 q2 : context_sum (q1 ++ q2) = context_sum q1 + context_sum q2.
Proof. unfold context_sum. by rewrite retain_app, zsum_app. Qed.
Lemma inflight_count_cons r q :
  inflight_count (r :: q) = (if dispatched r then 1 else 0) + inflight_count q.
Proof. unfold inflight_count. rewrite retain_cons. destruct (dispatched r); rewrite ?length_cons; lia. Qed.
Lemma context_sum_cons r q :
  context_sum (r :: q) = (if dispatched r then context_chars r else 0) + context_sum q.
Proof. unfold context_sum. rewrite retain_cons. destruct (dispatched r); rewrite ?zsum_cons; lia. Qed.
Lemma inflight_count_nonneg q : 0 <= inflight_count q.
Proof. unfold inflight_count. lia. Qed.

Section scan_facts.
Context (alive : Z -> bool) (now max_ctx used_ctx : Z).
Notation scan := (scan_queue alive now max_ctx used_ctx).

(** What one scan may do to a queue [q], giving [q'] and the grant [g]. *)
Inductive scan_spec : list QueuedRequest -> list QueuedRequest -> option Z -> Prop :=
| scan_end : scan_spec [] [] None
| scan_keep r q q' g :
    scan_spec q q' g ->
    dispatched r = true \/ (is_Some (grant r) /\ ~ fits max_ctx used_ctx r) ->
    scan_spec (r :: q) (r :: q') g
| scan_purge r q q' g :
    scan_spec q q' g -> dispatched r = false ->
    (forall c, grant r = Some c -> alive c = false) ->
    scan_spec (r :: q) q' g
| scan_send r q c :
    dispatched r = false -> grant r = Some c -> alive c = true -> fits max_ctx used_ctx r ->
    scan_spec (r :: q) (mark_dispatched now r :: q) (Some c).

Lemma scan_queue_spec q : scan_spec q (scan q).1 (scan q).2.
Proof.
  induction q as [| r q IH]; simpl; [constructor |].
  destruct (scan q) as [q' g] eqn:E; simpl in *.
  destruct (dispatched r) eqn:Hd; simpl; [by constructor; auto |].
  destruct (grant r) as [c |] eqn:Hg; simpl.
  2: { apply scan_purge; [done | done |]. intros c Hc. congruence. }
  destruct ((0 <? max_ctx) && (max_ctx <? used_ctx +u context_chars r)) eqn:Hf; simpl.
  { bool_simpl. constructor; [done |]. right. split; [rewrite Hg; eauto |]. unfold fits. lia. }
  destruct (alive c) eqn:Ha; simpl.
  - apply scan_send; try done. unfold fits. apply andb_false_iff in Hf as [Hf | Hf]; bool_simpl; lia.
  - apply scan_purge; [done | done |]. intros c' Hc'. congruence.
Qed.

Lemma scan_ids_sublist q q' g : scan_spec q q' g -> (rq_id <$> q') `sublist_of` (rq_id <$> q).
Proof. induction 1; simpl; by constructor. Qed.

Lemma scan_length q q' g : scan_spec q q' g -> (length q' <= length q)%nat.
Proof. induction 1; simpl; lia. Qed.

Lemma scan_elem q q' g r' :
  scan_spec q q' g -> r' ∈ q' ->
  r' ∈ q \/ exists r c, r ∈ q /\ dispatched r = false /\ grant r = Some c /\ g = Some c
                        /\ alive c = true /\ r' = mark_dispatched now r.
Proof.
  intros H. revert r'. induction H; intros r' Hr'.
  - set_solver.
  - apply elem_of_cons in Hr' as [-> | Hr']; [left; left |].
    destruct (IHscan_spec _ Hr') as [? | (r0 & c & ? & ?)]; [left; by right |].
    right. exists r0, c. split; [by right | done].
  - destruct (IHscan_spec _ Hr') as [? | (r0 & c & ? & ?)]; [left; by right |].
    right. exists r0, c. split; [by right | done].
  - apply elem_of_cons in Hr' as [-> | Hr']; [| left; by right].
    right. exists r, c. split_and!; auto. left.
Qed.

(** Entries that are in flight, or wait with a live receiver, survive a scan. *)
Lemma scan_survives q q' g r :
  scan_spec q q' g -> r ∈ q ->
  dispatched r = true \/ (exists c, grant r = Some c /\ alive c = true) ->
  r ∈ q' \/ (dispatched r = false /\ grant r = g /\ is_Some g /\ mark_dispatched now r ∈ q').
Proof.
  intros H. induction H; intros Hr Hor.
  - set_solver.
  - apply elem_of_cons in Hr as [-> | Hr]; [left; left |].
    destruct (IHscan_spec Hr Hor) as [? | (? & ? & ? & ?)]; [left; by right |].
    right. split_and!; auto. by right.
  - apply elem_of_cons in Hr as [-> | Hr]; [| auto].
    exfalso. destruct Hor as [? | (c & ? & ?)]; [congruence |].
    specialize (H1 _ H2). congruence.
  - apply elem_of_cons in Hr as [-> | Hr]; [| left; by right].
    right. split_and!; eauto. left.
Qed.

Lemma scan_inflight q q' g :
  scan_spec q q' g ->
  inflight_count q' = inflight_count q + (if g then 1 else 0).
Proof.
  induction 1; rewrite ?inflight_count_cons; simpl; repeat case_match; try congruence; lia.
Qed.

Lemma scan_context q q' g :
  scan_spec q q' g ->
  context_sum q' = context_sum q
  \/ (is_Some g /\ exists r, r ∈ q /\ dispatched r = false /\ fits max_ctx used_ctx r
      /\ context_sum q' = context_sum q + context_chars r).
Proof.
  induction 1; rewrite ?context_sum_cons; simpl.
  - by left.
  - destruct IHscan_spec as [-> | (? & r0 & ? & ? & ? & ->)]; [by left |].
    right. split; [done |]. exists r0. split_and!; auto; [by right | lia].
  - rewrite H0. destruct IHscan_spec as [-> | (? & r0 & ? & ? & ? & ->)]; [by left |].
    right. split; [done |]. exists r0. split_and!; auto. by right.
  - right. split; [eauto |]. exists r. rewrite H. split_and!; auto; [left | lia].
Qed.

Lemma scan_context_le q q' g :
  scan_spec q q' g -> (forall r, r ∈ q -> 0 <= context_chars r) ->
  (forall r, r ∈ q' -> 0 <= context_chars r) /\ zsum context_chars q' <= zsum context_chars q.
Proof.
  intros H. induction H; intros Hp; rewrite ?zsum_cons; simpl.
  - split; [done | lia].
  - destruct IHscan_spec as [? ?]; [intros; apply Hp; by right |].
    pose proof (Hp r ltac:(left)). split; [| lia].
    intros r' [-> | ?]%elem_of_cons; auto.
  - destruct IHscan_spec as [? ?]; [intros; apply Hp; by right |].
    pose proof (Hp r ltac:(left)). split; [auto | lia].
  - pose proof (Hp r ltac:(left)). split; [| lia].
    intros r' [-> | ?]%elem_of_cons; [done |]. apply Hp. by right.
Qed.

(** When nothing was sent, whatever still waits does not fit. *)
Lemma scan_none q q' g r :
  scan_spec q q' g -> g = None -> r ∈ q' -> dispatched r = false -> ~ fits max_ctx used_ctx r.
Proof.
  intros H. induction H; intros Hg Hr Hd; try done.
  - set_solver.
  - apply elem_of_cons in Hr as [-> | Hr]; [| auto]. destruct H0 as [? | [? ?]]; [congruence | done].
  - auto.
Qed.

Lemma scan_none_sublist q q' g : scan_spec q q' g -> g = None -> q' `sublist_of` q.
Proof. induction 1; intros; try done; by constructor; auto. Qed.

Lemma scan_waiting q q' g :
  scan_spec q q' g ->
  (length (retain (fun r => negb (dispatched r)) q') + (if g then 1 else 0)
   <= length (retain (fun r => negb (dispatched r)) q))%nat.
Proof.
  induction 1; rewrite ?retain_cons; simpl; try destruct (dispatched r) eqn:?; simpl in *;
    repeat case_match; simplify_eq/=; lia.
Qed.
End scan_facts.

(** ** Lemmas: the dispatcher *)

Lemma queue_small_app_perm q q' : q ≡ₚ q' -> queue_small q -> queue_small q'.
Proof.
  intros Hp (? & Hc & ?). unfold queue_small. split_and!.
  - by rewrite <- Hp.
  - intros r. rewrite <- Hp. apply Hc.
  - by rewrite <- Hp.
Qed.

Lemma context_sum_bounds q :
  (forall r, r ∈ q -> 0 <= context_chars r) -> 0 <= context_sum q <= zsum context_chars q.
Proof.
  intros Hp. induction q as [| r q IH]; [done |].
  destruct IH as [? ?]; [intros; apply Hp; by right |].
  pose proof (Hp r ltac:(left)). rewrite context_sum_cons, zsum_cons.
  destruct (dispatched r); lia.
Qed.

Lemma stats_fold l a b :
  0 <= a -> 0 <= b -> (forall r, r ∈ l -> 0 <= context_chars r) ->
  a + Z.of_nat (length l) < 2 ^ 32 -> b + zsum context_chars l < 2 ^ 64 ->
  foldl (fun '(cnt, ctx) r => (u32_add cnt 1, ctx +u context_chars r)) (a, b) l
  = (a + Z.of_nat (length l), b + zsum context_chars l).
Proof.
  revert a b. induction l as [| r l IH]; intros a b Ha Hb Hp H1 H2; simpl in *.
  { f_equal; unfold zsum; simpl; lia. }
  rewrite zsum_cons in *. pose proof (Hp r ltac:(left)) as Hr.
  assert (0 <= zsum context_chars l) by (apply zsum_nonneg; intros; apply Hp; by right).
  rewrite u32_add_small, u64_add_small by lia.
  rewrite IH; [f_equal; lia | lia | lia | intros; apply Hp; by right | lia | lia].
Qed.

Lemma inflight_stats_small inner :
  queue_small (all_requests inner) ->
  inflight_stats inner = (inflight_count (all_requests inner), context_sum (all_requests inner)).
Proof.
  intros (Hlen & Hp & Hctx). unfold inflight_stats.
  pose proof (context_sum_bounds _ Hp) as Hb. unfold context_sum in Hb.
  assert (length (retain dispatched (all_requests inner)) <= length (all_requests inner))%nat
    by (apply length_filter).
  rewrite stats_fold; try lia; [done |].
  intros r [_ Hr]%elem_of_retain. auto.
Qed.

Lemma set_queue_queue inner v q : queue_of (set_queue inner v q) v = q.
Proof. by destruct v. Qed.
Lemma set_queue_other inner v v' q : v <> v' -> queue_of (set_queue inner v q) v' = queue_of inner v'.
Proof. by destruct v, v'. Qed.
Lemma set_queue_config inner v q :
  max_inflight (set_queue inner v q) = max_inflight inner
  /\ max_context (set_queue inner v q) = max_context inner
  /\ next_id (set_queue inner v q) = next_id inner.
Proof. by destruct v. Qed.
Lemma all_requests_perm inner v :
  all_requests inner ≡ₚ queue_of inner v ++ queue_of inner (negb v).
Proof. unfold all_requests. destruct v; simpl; [done |]. by rewrite (Permutation_app_comm (vip_queue _)). Qed.
Lemma elem_of_all_requests inner r :
  r ∈ all_requests inner <-> exists v, r ∈ queue_of inner v.
Proof.
  unfold all_requests. rewrite elem_of_app. split.
  - intros [? | ?]; [by exists true | by exists false].
  - intros [[] ?]; auto.
Qed.

Definition below_capacity (inner : SlotInner) : Prop :=
  max_inflight inner <= 0 \/ (inflight_stats inner).1 < max_inflight inner.

Section dispatch_facts.
Context (alive : Z -> bool) (now : Z).

(** The runs of [dispatch], without the fuel. *)
Inductive dispatch_spec : SlotInner -> SlotInner -> list Z -> Prop :=
| dsp_full inner :
    0 < max_inflight inner <= (inflight_stats inner).1 -> dispatch_spec inner inner []
| dsp_idle inner q1 q2 :
    below_capacity inner ->
    scan_spec alive now (max_context inner) (inflight_stats inner).2 (queue_of inner true) q1 None ->
    scan_spec alive now (max_context inner) (inflight_stats inner).2 (queue_of inner false) q2 None ->
    dispatch_spec inner (set_queue (set_queue inner true q1) false q2) []
| dsp_vip inner q1 c inner' gs :
    below_capacity inner ->
    scan_spec alive now (max_context inner) (inflight_stats inner).2 (queue_of inner true) q1 (Some c) ->
    dispatch_spec (set_queue inner true q1) inner' gs ->
    dispatch_spec inner inner' (c :: gs)
| dsp_normal inner q1 q2 c inner' gs :
    below_capacity inner ->
    scan_spec alive now (max_context inner) (inflight_stats inner).2 (queue_of inner true) q1 None ->
    scan_spec alive now (max_context inner) (inflight_stats inner).2 (queue_of inner false) q2 (Some c) ->
    dispatch_spec (set_queue (set_queue inner true q1) false q2) inner' gs ->
    dispatch_spec inner inner' (c :: gs).

Definition waiting_total (inner : SlotInner) : nat :=
  length (retain (fun r => negb (dispatched r)) (all_requests inner)).

Lemma dispatch_loop_spec fuel inner :
  (waiting_total inner < fuel)%nat ->
  dispatch_spec inner (dispatch_loop alive now fuel inner).1 (dispatch_loop alive now fuel inner).2.
Proof.
  revert inner. induction fuel as [| fuel IH]; intros inner Hf; [lia |]. simpl.
  destruct (inflight_stats inner) as [inflight used] eqn:Es.
  destruct ((0 <? max_inflight inner) && (max_inflight inner <=? inflight)) eqn:Ecap; simpl.
  { bool_simpl. apply dsp_full. rewrite Es. simpl. lia. }
  assert (below_capacity inner) as Hbc.
  { unfold below_capacity. rewrite Es. simpl. apply andb_false_iff in Ecap as [?|?]; bool_simpl; lia. }
  unfold try_dispatch_fitting.
  pose proof (scan_queue_spec alive now (max_context inner) used (queue_of inner true)) as H1.
  destruct (scan_queue _ _ _ _ (queue_of inner true)) as [q1 g1]; simpl in H1.
  pose proof (scan_waiting _ _ _ _ _ _ _ H1) as Hw1.
  destruct g1 as [c |].
  { specialize (IH (set_queue inner true q1)).
    destruct (dispatch_loop _ _ fuel _) as [i' gs]; simpl in *.
    eapply dsp_vip; rewrite ?Es; [done | exact H1 |]. apply IH.
    unfold waiting_total, all_requests in *. simpl in *. rewrite retain_app, length_app in *. lia. }
  pose proof (scan_queue_spec alive now (max_context inner) used (queue_of inner false)) as H2.
  simpl. destruct (scan_queue _ _ _ _ (normal_queue inner)) as [q2 g2] eqn:E2; simpl in *.
  rewrite E2 in H2. simpl in H2.
  pose proof (scan_waiting _ _ _ _ _ _ _ H2) as Hw2.
  destruct g2 as [c |].
  { specialize (IH (set_queue (set_queue inner true q1) false q2)).
    simpl in IH. destruct (dispatch_loop _ _ fuel _) as [i' gs]; simpl in *.
    eapply dsp_normal; rewrite ?Es; [done | exact H1 | exact H2 |]. apply IH.
    unfold waiting_total, all_requests in *. simpl in *. rewrite retain_app, length_app in *. lia. }
  eapply (dsp_idle inner q1 q2); rewrite ?Es; done.
Qed.

Lemma dispatch_is_spec inner :
  dispatch_spec inner (dispatch alive now inner).1 (dispatch alive now inner).2.
Proof.
  apply dispatch_loop_spec. unfold waiting_total.
  pose proof (length_filter (fun r => negb (dispatched r) = true) (all_requests inner)).
  unfold retain. lia.
Qed.

Lemma dispatch_config inner inner' gs :
  dispatch_spec inner inner' gs ->
  max_inflight inner' = max_inflight inner /\ max_context inner' = max_context inner
  /\ next_id inner' = next_id inner.
Proof. induction 1; simpl in *; intuition congruence. Qed.

Lemma dispatch_ids inner inner' gs v :
  dispatch_spec inner inner' gs ->
  (rq_id <$> queue_of inner' v) `sublist_of` (rq_id <$> queue_of inner v).
Proof.
  induction 1 as [| ? ? ? _ H1 H2 | ? ? ? ? ? _ H1 _ IH | ? ? ? ? ? ? _ H1 H2 _ IH];
    [done | | etrans; [exact IH |] ..]; destruct v; simpl in *;
    eauto using scan_ids_sublist.
Qed.

(** Where an entry of the final queue comes from. *)
Definition sent_from (q : list QueuedRequest) (gs : list Z) (r' : QueuedRequest) : Prop :=
  exists r c, r ∈ q /\ dispatched r = false /\ grant r = Some c /\ c ∈ gs /\ alive c = true
              /\ r' = mark_dispatched now r.

Lemma scan_step_elem m u q q' g r' gs :
  scan_spec alive now m u q q' g -> r' ∈ q' \/ sent_from q' gs r' ->
  r' ∈ q \/ sent_from q (match g with Some c => c :: gs | None => gs end) r'.
Proof.
  intros Hs [Hr | (r & c & Hr & Hd & Hg & Hin & Ha & ->)].
  - destruct (scan_elem _ _ _ _ _ _ _ _ Hs Hr) as [? | (r & c & ? & ? & ? & -> & ? & ->)]; [by left |].
    right. exists r, c. split_and!; auto. left.
  - destruct (scan_elem _ _ _ _ _ _ _ _ Hs Hr) as [? | (r0 & c0 & ? & ? & ? & -> & ? & ->)]; [| done].
    right. exists r, c. split_and!; auto. destruct g; [by right | done].
Qed.

Lemma dispatch_elem inner inner' gs v r' :
  dispatch_spec inner inner' gs -> r' ∈ queue_of inner' v ->
  r' ∈ queue_of inner v \/ sent_from (queue_of inner v) gs r'.
Proof.
  intros H. induction H as [| ? ? ? _ H1 H2 | ? ? ? ? ? _ H1 _ IH | ? ? ? ? ? ? _ H1 H2 _ IH]; intros Hr.
  - by left.
  - destruct v; simpl in *; [eapply (scan_step_elem _ _ _ _ _ _ []) in H1 |
      eapply (scan_step_elem _ _ _ _ _ _ []) in H2]; eauto.
  - apply IH in Hr. destruct v; simpl in *; [by eapply scan_step_elem in H1 |].
    destruct Hr as [? | (r & c0 & ? & ? & ? & ? & ? & ->)]; [by left |]. right.
    exists r, c0. split_and!; auto. by right.
  - apply IH in Hr. destruct v; simpl in *; [| by eapply scan_step_elem in H2].
    eapply scan_step_elem in H1; [| exact Hr].
    destruct H1 as [? | (r & c0 & ? & ? & ? & ? & ? & ->)]; [by left |]. right.
    exists r, c0. split_and!; auto. by right.
Qed.

(** In-flight entries, and waiting ones whose client is still there, stay. *)
Lemma dispatch_survives inner inner' gs v r :
  dispatch_spec inner inner' gs -> r ∈ queue_of inner v ->
  dispatched r = true \/ (exists c, grant r = Some c /\ alive c = true) ->
  r ∈ queue_of inner' v
  \/ (dispatched r = false /\ (exists c, grant r = Some c /\ c ∈ gs) /\ mark_dispatched now r ∈ queue_of inner' v).
Proof.
  intros H. revert r. induction H as [| ? q1 q2 _ H1 H2 | ? q1 ? ? ? _ H1 _ IH | ? q1 q2 ? ? ? _ H1 H2 _ IH];
    intros r Hr Hor.
  - by left.
  - destruct v; simpl in *.
    + destruct (scan_survives _ _ _ _ _ _ _ _ H1 Hr Hor) as [? | (? & ? & [? [=]] & ?)]; by left.
    + destruct (scan_survives _ _ _ _ _ _ _ _ H2 Hr Hor) as [? | (? & ? & [? [=]] & ?)]; by left.
  - destruct v; simpl in *.
    + destruct (scan_survives _ _ _ _ _ _ _ _ H1 Hr Hor) as [Hr1 | (? & ? & ? & Hr1)].
      * destruct (IH _ Hr1 Hor) as [? | (? & (c0 & ? & ?) & ?)]; [by left | right].
        split_and!; auto. exists c0. split; [done | by right].
      * destruct (IH _ Hr1 ltac:(by left)) as [? | (? & _)]; [right | done].
        split_and!; auto. exists c. split; [done | left].
    + destruct (IH _ Hr Hor) as [? | (? & (c0 & ? & ?) & ?)]; [by left | right].
      split_and!; auto. exists c0. split; [done | by right].
  - assert (forall r, r ∈ queue_of inner v -> dispatched r = true \/ (exists c, grant r = Some c /\ alive c = true) ->
      r ∈ queue_of (set_queue (set_queue inner true q1) false q2) v
      \/ (dispatched r = false /\ grant r = Some c
          /\ mark_dispatched now r ∈ queue_of (set_queue (set_queue inner true q1) false q2) v)) as Hs.
    { intros r0 Hr0 Hor0. destruct v; simpl in *.
      - destruct (scan_survives _ _ _ _ _ _ _ _ H1 Hr0 Hor0) as [? | (? & ? & [? [=]] & ?)]; by left.
      - destruct (scan_survives _ _ _ _ _ _ _ _ H2 Hr0 Hor0) as [? | (? & ? & ? & ?)]; [by left | by right]. }
    destruct (Hs _ Hr Hor) as [Hr1 | (? & ? & Hr1)].
    + destruct (IH _ Hr1 Hor) as [? | (? & (c0 & ? & ?) & ?)]; [by left | right].
      split_and!; auto. exists c0. split; [done | by right].
    + destruct (IH _ Hr1 ltac:(by left)) as [? | (? & _)]; [right | done].
      split_and!; auto. exists c. split; [done | left].
Qed.

(** Every notified channel is that of a request that was waiting. *)
Lemma scan_grant m u q q' c :
  scan_spec alive now m u q q' (Some c) ->
  exists r, r ∈ q /\ dispatched r = false /\ grant r = Some c /\ alive c = true
            /\ mark_dispatched now r ∈ q'.
Proof.
  intros H. remember (Some c) as g eqn:Eg. induction H; simplify_eq.
  - destruct (IHscan_spec eq_refl) as (r0 & ? & ? & ? & ? & ?).
    exists r0. split_and!; auto; by right.
  - destruct (IHscan_spec eq_refl) as (r0 & ? & ? & ? & ? & ?).
    exists r0. split_and!; auto. by right.
  - exists r. split_and!; auto; left.
Qed.

(** The request that a successful scan sends, and the new context sum. *)
Lemma scan_sent m u q q' c :
  scan_spec alive now m u q q' (Some c) ->
  exists r, r ∈ q /\ dispatched r = false /\ fits m u r
            /\ context_sum q' = context_sum q + context_chars r.
Proof.
  intros H. remember (Some c) as g eqn:Eg. induction H; simplify_eq; rewrite ?context_sum_cons; simpl.
  - destruct (IHscan_spec eq_refl) as (r0 & ? & ? & ? & ->).
    exists r0. split_and!; auto; [by right | lia].
  - destruct (IHscan_spec eq_refl) as (r0 & ? & ? & ? & ->).
    exists r0. split_and!; auto; [by right |]. rewrite H0. lia.
  - exists r. rewrite H. split_and!; auto; [left | lia].
Qed.

Lemma inflight_count_perm q q' : q ≡ₚ q' -> inflight_count q = inflight_count q'.
Proof. intros H. unfold inflight_count, retain. by rewrite H. Qed.
Lemma context_sum_perm q q' : q ≡ₚ q' -> context_sum q = context_sum q'.
Proof. intros H. unfold context_sum, retain. by rewrite H. Qed.
Lemma all_requests_set_perm inner v q :
  all_requests (set_queue inner v q) ≡ₚ q ++ queue_of inner (negb v).
Proof. rewrite (all_requests_perm _ v). by destruct v. Qed.

(** A waiting entry's context fits in 64 bits on top of what is in flight. *)
Lemma waiting_context_small q r :
  queue_small q -> r ∈ q -> dispatched r = false -> context_sum q + context_chars r < 2 ^ 64.
Proof.
  intros (_ & Hp & Hz) Hr Hd. apply elem_of_Permutation in Hr as [k Hk].
  rewrite (context_sum_perm _ _ Hk), context_sum_cons, Hd.
  assert (zsum context_chars q = context_chars r + zsum context_chars k) as E
    by (rewrite Hk; apply zsum_cons).
  assert (forall r', r' ∈ k -> 0 <= context_chars r') as Hpk.
  { intros r' Hr'. apply Hp. rewrite Hk. by right. }
  pose proof (context_sum_bounds _ Hpk). lia.
Qed.

(** The scan of one queue of the slot: at most one more entry is in flight, and
    it fits the context budget. *)
Lemma scan_turn inner v q g :
  queue_small (all_requests inner) ->
  scan_spec alive now (max_context inner) (context_sum (all_requests inner)) (queue_of inner v) q g ->
  queue_small (all_requests (set_queue inner v q))
  /\ inflight_count (all_requests (set_queue inner v q))
     = inflight_count (all_requests inner) + (if g then 1 else 0)
  /\ (g = None -> context_sum (all_requests (set_queue inner v q)) = context_sum (all_requests inner))
  /\ context_sum (all_requests inner) <= context_sum (all_requests (set_queue inner v q))
  /\ (is_Some g -> max_context inner <= 0
                   \/ context_sum (all_requests (set_queue inner v q)) <= max_context inner).
Proof.
  intros Hsm Hs. set (U := context_sum (all_requests inner)) in *.
  pose proof (all_requests_set_perm inner v q) as Hp'.
  pose proof (all_requests_perm inner v) as Hp.
  assert (forall r, r ∈ queue_of inner v -> r ∈ all_requests inner) as Hin.
  { intros r Hr. apply elem_of_all_requests; eauto. }
  pose proof Hsm as (_ & Hpos & _).
  destruct (scan_context_le _ _ _ _ _ _ _ Hs ltac:(auto)) as [Hq Hz].
  pose proof (scan_length _ _ _ _ _ _ _ Hs) as Hl.
  rewrite (inflight_count_perm _ _ Hp'), (inflight_count_perm _ _ Hp), (context_sum_perm _ _ Hp').
  assert (U = context_sum (queue_of inner v) + context_sum (queue_of inner (negb v))) as HU
    by (unfold U; by rewrite (context_sum_perm _ _ Hp), context_sum_app).
  rewrite !inflight_count_app, !context_sum_app, (scan_inflight _ _ _ _ _ _ _ Hs).
  split_and!; [ | lia | ..].
  - apply (queue_small_app_perm (q ++ queue_of inner (negb v))); [by symmetry |].
    apply (queue_small_app_perm _ _ Hp) in Hsm as (Hlen & Hpos' & Hsum).
    rewrite length_app in Hlen. rewrite zsum_app in Hsum. split_and!.
    + rewrite length_app. lia.
    + intros r. rewrite elem_of_app. intros [? | ?]; [auto |]. apply Hpos'. set_solver.
    + rewrite zsum_app. lia.
  - intros ->. destruct (scan_context _ _ _ _ _ _ _ Hs) as [-> | [[? [=]] _]]; lia.
  - destruct (scan_context _ _ _ _ _ _ _ Hs) as [-> | (_ & r & Hr & _ & _ & ->)]; [lia |].
    apply Hin, Hpos in Hr. lia.
  - intros [c ->]. destruct (scan_grant _ _ _ _ _ Hs) as (r0 & Hr0 & Hd0 & Hg0 & _).
    destruct (scan_sent _ _ _ _ _ Hs) as (r & Hr & Hd & [? | Hf] & ->); [by left | right].
    pose proof (waiting_context_small _ r Hsm ltac:(auto) Hd). fold U in H.
    rewrite u64_add_small in Hf; [lia | | by auto | done].
    pose proof (context_sum_bounds _ Hpos). lia.
Qed.

(** One turn of the loop that sends a normal request: the VIP scan first. *)
Lemma normal_turn inner q1 q2 c :
  queue_small (all_requests inner) ->
  scan_spec alive now (max_context inner) (context_sum (all_requests inner)) (queue_of inner true) q1 None ->
  scan_spec alive now (max_context inner) (context_sum (all_requests inner)) (queue_of inner false) q2 c ->
  let inner' := set_queue (set_queue inner true q1) false q2 in
  queue_small (all_requests inner')
  /\ inflight_count (all_requests inner') = inflight_count (all_requests inner) + (if c then 1 else 0)
  /\ (c = None -> context_sum (all_requests inner') = context_sum (all_requests inner))
  /\ context_sum (all_requests inner) <= context_sum (all_requests inner')
  /\ (is_Some c -> max_context inner <= 0 \/ context_sum (all_requests inner') <= max_context inner).
Proof.
  intros Hsm H1 H2 inner'.
  destruct (scan_turn _ true _ _ Hsm H1) as (Hsm1 & Hi1 & Hc1 & _ & _).
  specialize (Hc1 eq_refl).
  destruct (scan_turn (set_queue inner true q1) false q2 c Hsm1) as (? & Hi2 & Hc2 & ? & ?).
  { by rewrite Hc1. }
  unfold inner'. simpl in *. rewrite Hc1 in *. split_and!; auto; lia.
Qed.

(** The two counters after a call of [dispatch]. *)
Lemma dispatch_counters inner inner' gs :
  dispatch_spec inner inner' gs -> queue_small (all_requests inner) ->
  queue_small (all_requests inner')
  /\ inflight_count (all_requests inner') = inflight_count (all_requests inner) + Z.of_nat (length gs)
  /\ (0 < max_inflight inner ->
      inflight_count (all_requests inner') <= Z.max (inflight_count (all_requests inner)) (max_inflight inner))
  /\ context_sum (all_requests inner) <= context_sum (all_requests inner')
  /\ (0 < max_context inner ->
      context_sum (all_requests inner') <= Z.max (context_sum (all_requests inner)) (max_context inner)).
Proof.
  induction 1 as [inner Hf | inner q1 q2 Hb H1 H2 | inner q1 c inner' gs Hb H1 Hd IH | inner q1 q2 c inner' gs Hb H1 H2 Hd IH];
    intros Hsm; unfold below_capacity in *; rewrite (inflight_stats_small _ Hsm) in *; simpl in *.
  - split_and!; auto; lia.
  - destruct (normal_turn _ _ _ _ Hsm H1 H2) as (? & Hi & Hc & ? & _).
    specialize (Hc eq_refl). simpl in *. split_and!; auto; lia.
  - destruct (scan_turn _ true _ _ Hsm H1) as (Hsm1 & Hi1 & _ & ? & Hc1).
    specialize (Hc1 ltac:(eauto)). simpl in *.
    destruct (IH Hsm1) as (? & -> & Hi & ? & Hc). rewrite Hi1 in *. split_and!; auto; lia.
  - destruct (normal_turn _ _ _ _ Hsm H1 H2) as (Hsm1 & Hi1 & _ & ? & Hc1).
    specialize (Hc1 ltac:(eauto)). simpl in *.
    destruct (IH Hsm1) as (? & Hi' & Hi & ? & Hc). rewrite Hi', Hi1 in *. split_and!; auto; lia.
Qed.

(** The loop stops only at capacity, or when no waiting request fits. *)
Definition saturated (inner : SlotInner) : Prop :=
  0 < max_inflight inner <= inflight_count (all_requests inner)
  \/ forall r, r ∈ all_requests inner -> dispatched r = false ->
       ~ fits (max_context inner) (context_sum (all_requests inner)) r.

Lemma dispatch_saturated inner inner' gs :
  dispatch_spec inner inner' gs -> queue_small (all_requests inner) -> saturated inner'.
Proof.
  induction 1 as [inner Hf | inner q1 q2 Hb H1 H2 | inner q1 c inner' gs Hb H1 Hd IH | inner q1 q2 c inner' gs Hb H1 H2 Hd IH];
    intros Hsm; rewrite ?(inflight_stats_small _ Hsm) in *; cbn [fst snd] in *.
  - left. lia.
  - right. destruct (normal_turn _ _ _ _ Hsm H1 H2) as (_ & _ & Hc & _ & _).
    rewrite (Hc eq_refl). intros r Hr Hdr. apply elem_of_app in Hr as [Hr | Hr].
    + eapply (scan_none _ _ _ _ _ _ _ _ H1); eauto.
    + eapply (scan_none _ _ _ _ _ _ _ _ H2); eauto.
  - apply IH. by destruct (scan_turn _ true _ _ Hsm H1).
  - apply IH. by destruct (normal_turn _ _ _ _ Hsm H1 H2).
Qed.

(** Priority: if a normal request was sent, every VIP request that still waits
    is one the remaining context budget cannot hold. *)
Lemma dispatch_priority inner inner' gs n r :
  dispatch_spec inner inner' gs -> queue_small (all_requests inner) ->
  n ∈ vip_queue inner' -> dispatched n = false ->
  r ∈ normal_queue inner' -> dispatched r = true -> r ∉ normal_queue inner ->
  ~ (max_context inner' <= 0 \/ context_sum (all_requests inner') + context_chars n <= max_context inner').
Proof.
  intros H Hsm Hn Hdn Hr Hdr Hnew.
  pose proof (dispatch_config _ _ _ H) as (_ & Hmc & _).
  induction H as [inner Hf | inner q1 q2 Hb H1 H2 | inner q1 c inner' gs Hb H1 Hd IH | inner q1 q2 c inner' gs Hb H1 H2 Hd IH];
    rewrite (inflight_stats_small _ Hsm) in *; simpl in *.
  - done.
  - destruct (scan_elem _ _ _ _ _ _ _ _ H2 Hr) as [? | (? & ? & _ & _ & _ & [=] & _)]. done.
  - destruct (scan_turn _ true _ _ Hsm H1) as (Hsm1 & _). by apply IH.
  - destruct (normal_turn _ _ _ _ Hsm H1 H2) as (Hsm1 & _ & _ & Hle & _).
    destruct (dispatch_counters _ _ _ Hd Hsm1) as (_ & _ & _ & Hle' & _).
    destruct (dispatch_elem _ _ _ true n Hd Hn) as [Hn1 | (? & ? & ? & ? & ? & ? & ? & ->)]; [simpl in Hn1 | done].
    pose proof (scan_none _ _ _ _ _ _ _ _ H1 eq_refl Hn1 Hdn) as Hfit.
    assert (n ∈ all_requests inner) as Hna.
    { apply elem_of_all_requests. exists true.
      by destruct (scan_elem _ _ _ _ _ _ _ _ H1 Hn1) as [? | (? & ? & _ & _ & _ & [=] & _)]. }
    pose proof (waiting_context_small _ n Hsm Hna Hdn).
    destruct Hsm as (_ & Hpos & _). pose proof (context_sum_bounds _ Hpos). pose proof (Hpos _ Hna).
    unfold fits in Hfit. rewrite u64_add_small in Hfit; simpl in *; lia.
Qed.
End dispatch_facts.

(** Entries of a slot are told apart by their id. *)
Definition ids_unique (inner : SlotInner) : Prop := NoDup (rq_id <$> all_requests inner).

Lemma find_by_id_unique (q : list QueuedRequest) rid idx r :
  NoDup (rq_id <$> q) -> list_find (fun r => rq_id r = rid) q = Some (idx, r) ->
  forall r', r' ∈ q -> rq_id r' = rid <-> r' = r.
Proof.
  intros Hnd (Hl & Hid & _)%list_find_Some r' Hr'. split; [| by intros ->].
  intros Hid'. apply (NoDup_fmap_elem rq_id q); auto; [| congruence].
  by eapply list_elem_of_lookup_2.
Qed.

Lemma delete_by_id (q : list QueuedRequest) rid idx r r' :
  NoDup (rq_id <$> q) -> list_find (fun r => rq_id r = rid) q = Some (idx, r) ->
  r' ∈ delete idx q <-> r' ∈ q /\ rq_id r' <> rid.
Proof.
  intros Hnd Hf. pose proof (find_by_id_unique _ _ _ _ Hnd Hf) as Hu.
  pose proof Hf as (Hl & Hid & _)%list_find_Some.
  assert (q ≡ₚ r :: delete idx q) as Hp by (by apply delete_Permutation).
  assert (r ∉ delete idx q) as Hnin.
  { intros Hin. rewrite Hp in Hnd. simpl in Hnd. apply NoDup_cons in Hnd as [Hn _].
    apply Hn. apply list_elem_of_fmap. eauto. }
  split.
  - intros Hr'. assert (r' ∈ q) as Hq by (rewrite Hp; by right). split; [done |].
    intros E. apply Hu in E; [| done]. congruence.
  - intros [Hq Hne]. rewrite Hp in Hq. apply elem_of_cons in Hq as [-> | ?]; [congruence | done].
Qed.

(** ** Properties of the dispatcher *)

(** [dispatch] admits no more than the slot's limits.  As [inflight_stats]
    reports them, neither the number nor the context of the requests in flight
    ends above its limit, unless it was above before; nothing in flight is lost,
    and the number grows by one per channel notified. *)
Theorem dispatch_respects_limits alive now inner inner' gs :
  queue_small (all_requests inner) -> dispatch alive now inner = (inner', gs) ->
  (inflight_stats inner').1 = (inflight_stats inner).1 + Z.of_nat (length gs)
  /\ (inflight_stats inner).2 <= (inflight_stats inner').2
  /\ (0 < max_inflight inner ->
      (inflight_stats inner').1 <= Z.max (inflight_stats inner).1 (max_inflight inner))
  /\ (0 < max_context inner ->
      (inflight_stats inner').2 <= Z.max (inflight_stats inner).2 (max_context inner)).
Proof.
  intros Hsm E. pose proof (dispatch_is_spec alive now inner) as Hd. rewrite E in Hd; cbn [fst snd] in Hd.
  destruct (dispatch_counters _ _ _ _ _ Hd Hsm) as (Hsm' & ? & ? & ? & ?).
  rewrite (inflight_stats_small _ Hsm), (inflight_stats_small _ Hsm'). done.
Qed.

(** C10: [dispatch] is work conserving.  It stops only when the slot is full or no
    waiting request fits the remaining context budget: no admissible request is
    left behind, and the fuel of the model's loop is never the reason to stop. *)
Theorem dispatch_work_conserving alive now inner inner' gs :
  queue_small (all_requests inner) -> dispatch alive now inner = (inner', gs) ->
  0 < max_inflight inner' <= (inflight_stats inner').1
  \/ forall r, r ∈ all_requests inner' -> dispatched r = false ->
       0 < max_context inner' < (inflight_stats inner').2 + context_chars r.
Proof.
  intros Hsm E. pose proof (dispatch_is_spec alive now inner) as Hd. rewrite E in Hd; cbn [fst snd] in Hd.
  destruct (dispatch_counters _ _ _ _ _ Hd Hsm) as (Hsm' & _).
  rewrite (inflight_stats_small _ Hsm'). simpl.
  destruct (dispatch_saturated _ _ _ _ _ Hd Hsm) as [? | Hall]; [by left | right].
  intros r Hr Hdr. specialize (Hall r Hr Hdr). unfold fits in Hall.
  pose proof (waiting_context_small _ r Hsm' Hr Hdr). pose proof Hsm' as (_ & Hpos & _).
  pose proof (context_sum_bounds _ Hpos). pose proof (Hpos _ Hr).
  rewrite u64_add_small in Hall; lia.
Qed.

(** VIP first.  When [dispatch] has sent a request of the normal queue, every
    VIP request that is still waiting is one the context budget cannot hold. *)
Theorem dispatch_vip_first alive now inner inner' gs n r :
  queue_small (all_requests inner) -> dispatch alive now inner = (inner', gs) ->
  r ∈ normal_queue inner' -> dispatched r = true -> r ∉ normal_queue inner ->
  n ∈ vip_queue inner' -> dispatched n = false ->
  0 < max_context inner' < (inflight_stats inner').2 + context_chars n.
Proof.
  intros Hsm E Hr Hdr Hnew Hn Hdn. pose proof (dispatch_is_spec alive now inner) as Hd. rewrite E in Hd; cbn [fst snd] in Hd.
  destruct (dispatch_counters _ _ _ _ _ Hd Hsm) as (Hsm' & _).
  rewrite (inflight_stats_small _ Hsm'). simpl.
  pose proof (dispatch_priority _ _ _ _ _ _ _ Hd Hsm Hn Hdn Hr Hdr Hnew). lia.
Qed.

(** A queued request can outlive its chance.  [acquire] only enqueues what
    fits an empty slot, but [ensure_slot] may lower [max_context] afterwards: a
    waiting request above the new limit stays queued through every dispatch, even
    on an idle slot. *)
Theorem shrunk_context_starves alive now inner inner' gs v r c :
  queue_small (all_requests inner) -> dispatch alive now inner = (inner', gs) ->
  (inflight_stats inner).2 <= max_context inner ->
  r ∈ queue_of inner v -> dispatched r = false -> grant r = Some c -> alive c = true ->
  0 < max_context inner < context_chars r ->
  r ∈ queue_of inner' v.
Proof.
  intros Hsm E Hle Hr Hdr Hg Ha Hbig. pose proof (dispatch_is_spec alive now inner) as Hd. rewrite E in Hd; cbn [fst snd] in Hd.
  destruct (dispatch_counters _ _ _ _ _ Hd Hsm) as (Hsm' & _ & _ & _ & Hc).
  rewrite (inflight_stats_small _ Hsm) in Hle. simpl in Hle.
  destruct (dispatch_survives _ _ _ _ _ _ _ Hd Hr) as [? | (_ & _ & Hm)]; [right; eauto | done |].
  exfalso. assert (mark_dispatched now r ∈ all_requests inner') as Hm' by (apply elem_of_all_requests; eauto).
  assert (context_chars r <= context_sum (all_requests inner')).
  { apply (zsum_elem context_chars _ (mark_dispatched now r)); [| by apply elem_of_retain].
    intros r' [_ Hr']%elem_of_retain. by apply Hsm'. }
  lia.
Qed.

(** *** Witnesses *)

Definition waiting_req (id ctx chan : Z) : QueuedRequest :=
  mkQueuedRequest id ctx None None 0 None false (Some chan).

(** Two VIP requests, one too large for the budget left by the other, and one
    normal request: VIP 0 and normal 2 are sent, VIP 1 waits. *)
Definition busy_slot : SlotInner :=
  mkSlotInner 3 100 [waiting_req 0 60 10; waiting_req 1 80 11] [waiting_req 2 30 12; waiting_req 3 20 13] 4.

Lemma busy_slot_small : queue_small (all_requests busy_slot).
Proof.
  split_and!; [by vm_compute | | by vm_compute].
  intros r Hr. repeat (apply elem_of_cons in Hr as [-> | Hr]; [by vm_compute |]). by apply elem_of_nil in Hr.
Qed.

Lemma dispatch_respects_limits_witness :
  (inflight_stats (dispatch (fun _ => true) 5 busy_slot).1).1 <= 3.
Proof.
  pose proof (dispatch_respects_limits (fun _ => true) 5 busy_slot _ _ busy_slot_small eq_refl) as (_ & _ & H & _).
  exact (H eq_refl).
Defined.

Lemma dispatch_work_conserving_witness :
  let inner' := (dispatch (fun _ => true) 5 busy_slot).1 in
  0 < max_inflight inner' <= (inflight_stats inner').1
  \/ forall r, r ∈ all_requests inner' -> dispatched r = false ->
       0 < max_context inner' < (inflight_stats inner').2 + context_chars r.
Proof. exact (dispatch_work_conserving (fun _ => true) 5 busy_slot _ _ busy_slot_small eq_refl). Defined.

Lemma dispatch_vip_first_witness : 0 < 100 < 90 + context_chars (waiting_req 1 80 11).
Proof.
  refine (dispatch_vip_first (fun _ => true) 5 busy_slot _ _ (waiting_req 1 80 11)
            (mark_dispatched 5 (waiting_req 2 30 12)) busy_slot_small eq_refl _ _ _ _ _);
    try reflexivity; vm_compute.
  - apply elem_of_cons; by left.
  - intros H. repeat (apply elem_of_cons in H as [? | H]; [discriminate |]). by apply elem_of_nil in H.
  - apply elem_of_cons. right. apply elem_of_cons. by left.
Defined.

(** The slot after its limit went down from at least 80 to 50. *)
Definition shrunk_slot : SlotInner := mkSlotInner 3 50 [] [waiting_req 1 80 11] 4.

Lemma shrunk_context_starves_witness :
  waiting_req 1 80 11 ∈ queue_of (dispatch (fun _ => true) 5 shrunk_slot).1 false.
Proof.
  eapply (shrunk_context_starves (fun _ => true) 5 shrunk_slot _ _ false _ 11); try reflexivity.
  - split_and!; [by vm_compute | | by vm_compute].
    intros r Hr. apply elem_of_cons in Hr as [-> | Hr]; [by vm_compute |]. by apply elem_of_nil in Hr.
  - by vm_compute.
  - apply elem_of_cons. by left.
  - by vm_compute.
Defined.

End FlowControl.
