(* ===== verification/FlowSystem.v ===== *)
(** * FlowSystem: the admission queue under concurrency

    The interleavings of [acquire] futures, guards, the periodic dispatcher and
    the reconfiguration calls of boom-flowcontrol, as a step relation over the
    controller of [FlowControl] plus the live futures and guards.  The atomic
    steps are the critical sections of the source (the slot mutex) and the
    points where a future is resumed or dropped. *)

From S2P Require Import Prelude FlowControl.
Import FlowControl.

Module FlowSystem.

(** ** States *)

(** Where an [acquire] future is suspended.  [TimedOut]: the timer fired, the
    receiver is dropped, the slot is not locked yet.  [Cancelled]: the client is
    gone, the receiver is dropped, [AcquireCleanup::drop] has not run yet. *)
Inductive FutState := Waiting | Granted | TimedOut | Cancelled.

#[export] Instance FutState_eq_dec : EqDecision FutState.
Proof. solve_decision. Defined.

Record AcquireFut := mkAcquireFut {
  af_deployment : string;
  af_request : Z;
  af_vip : bool;
  af_key_hash : option string;
  af_chan : Z;
  af_state : FutState;
}.

Record Guard := mkGuard {
  g_deployment : string;
  g_request : Z;
  g_vip : bool;
  g_key_hash : option string;
}.

Record Sys := mkSys {
  controller : FlowController;
  futs : list AcquireFut;
  guards : list Guard;
  next_chan : Z;
}.

Definition set_state (st : FutState) (f : AcquireFut) : AcquireFut :=
  mkAcquireFut (af_deployment f) (af_request f) (af_vip f) (af_key_hash f) (af_chan f) st.

Definition guard_of (f : AcquireFut) : Guard :=
  mkGuard (af_deployment f) (af_request f) (af_vip f) (af_key_hash f).

(** The receiver of channel [c] still exists. *)
Definition rx_alive (fs : list AcquireFut) (c : Z) : bool :=
  existsb (fun f => (af_chan f =? c) && bool_decide (af_state f = Waiting \/ af_state f = Granted)) fs.

(** The value sent on a channel wakes its future. *)
Definition wake (gs : list Z) (f : AcquireFut) : AcquireFut :=
  if bool_decide (af_chan f ∈ gs) then set_state Granted f else f.

Definition init_sys : Sys := mkSys new_controller [] [] 0.

(** The widths of the counters are not reached by the new request. *)
Definition width_ok (fc : FlowController) (d : string) (ctx : Z) : Prop :=
  0 <= ctx /\ forall inner, slots fc !! d = Some inner ->
    Z.of_nat (length (all_requests inner)) + 1 < 2 ^ 32
    /\ zsum context_chars (all_requests inner) + ctx < 2 ^ 64
    /\ next_id inner + 1 < 2 ^ 64.

(** ** Steps of the running gateway

    [atomic] selects what happens between the timer of [acquire] and its lock:
    [false] is the source (two steps), [true] the variant without the gap. *)
Inductive run_step (atomic : bool) : Sys -> Sys -> Prop :=
| rs_enqueue s d ctx vip alias key mdl now fc' rid gs :
    width_ok (controller s) d ctx ->
    acquire_enqueue (fun c => (c =? next_chan s) || rx_alive (futs s) c) now (next_chan s)
      (controller s) d ctx vip alias key mdl = (fc', inr (rid, gs)) ->
    run_step atomic s
      (mkSys fc' (wake gs <$> futs s ++ [mkAcquireFut d rid vip key (next_chan s) Waiting])
             (guards s) (next_chan s + 1))
| rs_granted s l1 f l2 :
    futs s = l1 ++ f :: l2 -> af_state f = Granted ->
    run_step atomic s (mkSys (controller s) (l1 ++ l2) (guard_of f :: guards s) (next_chan s))
| rs_sender_dropped s l1 f l2 :
    futs s = l1 ++ f :: l2 -> af_state f = Waiting ->
    (forall d inner r, slots (controller s) !! d = Some inner -> r ∈ all_requests inner ->
       grant r <> Some (af_chan f)) ->
    run_step atomic s (mkSys (controller s) (l1 ++ l2) (guards s) (next_chan s))
| rs_timeout_fire s l1 f l2 :
    atomic = false -> futs s = l1 ++ f :: l2 -> af_state f = Waiting ->
    run_step atomic s (mkSys (controller s) (l1 ++ set_state TimedOut f :: l2) (guards s) (next_chan s))
| rs_timeout s l1 f l2 fc' res :
    futs s = l1 ++ f :: l2 -> af_state f = (if atomic then Waiting else TimedOut) ->
    acquire_timeout (controller s) (af_deployment f) (af_request f) (af_vip f) (af_key_hash f) = (fc', res) ->
    run_step atomic s
      (mkSys fc' (l1 ++ l2) (match res with inr _ => [guard_of f] | inl _ => [] end ++ guards s) (next_chan s))
| rs_cancel s l1 f l2 :
    futs s = l1 ++ f :: l2 -> af_state f = Waiting \/ af_state f = Granted ->
    run_step atomic s (mkSys (controller s) (l1 ++ set_state Cancelled f :: l2) (guards s) (next_chan s))
| rs_cleanup s l1 f l2 now fc' gs :
    futs s = l1 ++ f :: l2 -> af_state f = Cancelled ->
    cleanup_drop (rx_alive (l1 ++ l2)) now (controller s) (af_deployment f) (af_request f)
      (af_vip f) (af_key_hash f) = (fc', gs) ->
    run_step atomic s (mkSys fc' (wake gs <$> l1 ++ l2) (guards s) (next_chan s))
| rs_guard_drop s l1 g l2 now fc' gs :
    guards s = l1 ++ g :: l2 ->
    guard_drop (rx_alive (futs s)) now (controller s) (g_deployment g) (g_request g)
      (g_vip g) (g_key_hash g) = (fc', gs) ->
    run_step atomic s (mkSys fc' (wake gs <$> futs s) (l1 ++ l2) (next_chan s))
| rs_periodic s d now fc' gs :
    dispatch_slot (rx_alive (futs s)) now (controller s) d = (fc', gs) ->
    run_step atomic s (mkSys fc' (wake gs <$> futs s) (guards s) (next_chan s)).

(** Configuration calls: startup, reload and the admin API. *)
Inductive admin_step : Sys -> Sys -> Prop :=
| as_ensure s d cfg :
    admin_step s (mkSys (ensure_slot (controller s) d cfg) (futs s) (guards s) (next_chan s))
| as_remove s d :
    admin_step s (mkSys (remove_slot (controller s) d) (futs s) (guards s) (next_chan s))
| as_retain s ids :
    admin_step s (mkSys (retain_slots (controller s) ids) (futs s) (guards s) (next_chan s)).

Definition any_step (s s' : Sys) : Prop := run_step false s s' \/ admin_step s s'.

(** ** Ownership: every queue entry belongs to a live future or guard *)

Definition fut_key (f : AcquireFut) : string * Z * bool := (af_deployment f, af_request f, af_vip f).
Definition guard_key (g : Guard) : string * Z * bool := (g_deployment g, g_request g, g_vip g).

Definition waiting_owner (fs : list AcquireFut) (k : string * Z * bool) (c : Z) : Prop :=
  exists f, f ∈ fs /\ fut_key f = k /\ af_chan f = c /\ af_state f <> Granted.

Definition sent_owner (fs : list AcquireFut) (gds : list Guard) (k : string * Z * bool) : Prop :=
  (exists f, f ∈ fs /\ fut_key f = k /\ (af_state f = Granted \/ af_state f = Cancelled))
  \/ (exists g, g ∈ gds /\ guard_key g = k).

Definition entry_ok (fs : list AcquireFut) (gds : list Guard) (d : string) (v : bool) (r : QueuedRequest) : Prop :=
  if dispatched r then sent_owner fs gds (d, rq_id r, v)
  else exists c, grant r = Some c /\ waiting_owner fs (d, rq_id r, v) c.

(** What does not depend on the owners: distinct ids below [next_id], widths. *)
Definition slot_wf (inner : SlotInner) : Prop :=
  ids_unique inner /\ (forall r, r ∈ all_requests inner -> 0 <= rq_id r < next_id inner)
  /\ queue_small (all_requests inner) /\ 0 <= next_id inner.

Definition slot_owned (fs : list AcquireFut) (gds : list Guard) (d : string) (inner : SlotInner) : Prop :=
  forall v r, r ∈ queue_of inner v -> entry_ok fs gds d v r.

Definition futs_wf (fs : list AcquireFut) (nc : Z) : Prop :=
  NoDup (af_chan <$> fs) /\ forall f, f ∈ fs -> af_chan f < nc.

Record Owned (s : Sys) : Prop := {
  owned_futs : futs_wf (futs s) (next_chan s);
  owned_wf : map_Forall (fun _ => slot_wf) (slots (controller s));
  owned_slots : map_Forall (slot_owned (futs s) (guards s)) (slots (controller s));
}.

(** ** Lemmas *)

Implicit Types (fs : list AcquireFut) (gds : list Guard) (gs : list Z).

Lemma chan_unique fs nc f f' :
  futs_wf fs nc -> f ∈ fs -> f' ∈ fs -> af_chan f = af_chan f' -> f = f'.
Proof.
  intros [Hnd _] Hf Hf' E. by eapply (NoDup_fmap_elem af_chan fs).
Qed.

Lemma rx_alive_spec fs c :
  rx_alive fs c = true <->
  exists f, f ∈ fs /\ af_chan f = c /\ (af_state f = Waiting \/ af_state f = Granted).
Proof.
  unfold rx_alive. rewrite existsb_elem. split.
  - intros (f & ? & ?). bool_simpl. eauto.
  - intros (f & ? & <- & ?). exists f. split; [done |]. rewrite Z.eqb_refl. by apply bool_decide_eq_true_2.
Qed.

Lemma wake_chan gs fs : af_chan <$> (wake gs <$> fs) = af_chan <$> fs.
Proof.
  rewrite <- list_fmap_compose. apply list_fmap_ext. intros _ f _. simpl.
  unfold wake. by case_bool_decide.
Qed.
Lemma wake_wf gs fs nc : futs_wf fs nc -> futs_wf (wake gs <$> fs) nc.
Proof.
  intros [Hnd Hc]. split; [by rewrite wake_chan |].
  intros f (f0 & -> & Hf0)%list_elem_of_fmap. unfold wake. case_bool_decide; simpl; auto.
Qed.
Lemma wake_key gs f : fut_key (wake gs f) = fut_key f.
Proof. unfold wake. by case_bool_decide. Qed.
Lemma wake_elem gs fs f : f ∈ fs -> wake gs f ∈ wake gs <$> fs.
Proof. intros. apply list_elem_of_fmap. eauto. Qed.

Lemma slot_wf_sublist inner inner' :
  slot_wf inner -> next_id inner' = next_id inner ->
  (rq_id <$> all_requests inner') `sublist_of` (rq_id <$> all_requests inner) ->
  queue_small (all_requests inner') -> slot_wf inner'.
Proof.
  intros (Hu & Hlt & _ & ?) Hn Hs Hq. unfold slot_wf, ids_unique. rewrite Hn. split_and!; auto.
  - by eapply sublist_NoDup.
  - intros r Hr. assert (rq_id r ∈ rq_id <$> all_requests inner) as Hin.
    { eapply elem_of_sublist; [| exact Hs]. apply list_elem_of_fmap. eauto. }
    apply list_elem_of_fmap in Hin as (r0 & -> & ?). auto.
Qed.
Lemma dispatch_wf alive now inner inner' gs :
  dispatch_spec alive now inner inner' gs -> slot_wf inner -> slot_wf inner'.
Proof.
  intros Hd Hwf. pose proof Hwf as (_ & _ & Hsm & _).
  destruct (dispatch_config _ _ _ _ _ Hd) as (_ & _ & Hn).
  destruct (dispatch_counters _ _ _ _ _ Hd Hsm) as (? & _).
  eapply slot_wf_sublist; eauto.
  unfold all_requests. rewrite !fmap_app.
  apply sublist_app; [by eapply (dispatch_ids _ _ _ _ _ true) | by eapply (dispatch_ids _ _ _ _ _ false)].
Qed.

Lemma unique_in_slot inner v r r' :
  slot_wf inner -> r ∈ queue_of inner v -> r' ∈ queue_of inner v -> rq_id r = rq_id r' -> r = r'.
Proof.
  intros (Hu & _) Hr Hr' E.
  apply (NoDup_fmap_elem rq_id (all_requests inner)); auto; apply elem_of_all_requests; eauto.
Qed.

(** Every channel the dispatcher notified: its entry, before and after. *)
Lemma dispatch_grants alive now inner inner' gs c :
  dispatch_spec alive now inner inner' gs -> c ∈ gs ->
  exists v r, r ∈ queue_of inner v /\ dispatched r = false /\ grant r = Some c /\ alive c = true
              /\ mark_dispatched now r ∈ queue_of inner' v.
Proof.
  induction 1 as [| | inner q1 c1 inner' gs Hb H1 Hd IH | inner q1 q2 c1 inner' gs Hb H1 H2 Hd IH];
    intros Hc; [set_solver | set_solver | |].
  - apply elem_of_cons in Hc as [-> | Hc].
    + destruct (scan_grant _ _ _ _ _ _ _ H1) as (r & ? & ? & ? & ? & Hm). exists true, r. split_and!; auto.
      destruct (dispatch_survives _ _ _ _ _ true _ Hd Hm ltac:(by left)) as [? | [? _]]; done.
    + destruct (IH Hc) as (v & r & Hr & Hd0 & ? & ? & ?). exists v, r. split_and!; auto.
      destruct v; simpl in *; [| done].
      destruct (scan_elem _ _ _ _ _ _ _ _ H1 Hr) as [? | (? & ? & ? & ? & ? & ? & ? & ->)]; done.
  - apply elem_of_cons in Hc as [-> | Hc].
    + destruct (scan_grant _ _ _ _ _ _ _ H2) as (r & ? & ? & ? & ? & Hm). exists false, r. split_and!; auto.
      destruct (dispatch_survives _ _ _ _ _ false _ Hd Hm ltac:(by left)) as [? | [? _]]; done.
    + destruct (IH Hc) as (v & r & Hr & Hd0 & ? & ? & ?). exists v, r. split_and!; auto.
      destruct v; simpl in *.
      * destruct (scan_elem _ _ _ _ _ _ _ _ H1 Hr) as [? | (? & ? & ? & ? & ? & ? & ? & ->)]; done.
      * destruct (scan_elem _ _ _ _ _ _ _ _ H2 Hr) as [? | (? & ? & ? & ? & ? & ? & ? & ->)]; done.
Qed.

Section owned_dispatch.
Context (fs : list AcquireFut) (gds : list Guard) (nc : Z) (alive : Z -> bool) (now : Z) (d : string).
Context (Hfs : futs_wf fs nc) (Halive : forall c, alive c = true -> rx_alive fs c = true).

(** The future behind a notified channel was waiting for this deployment. *)
Lemma granted_fut inner inner' gs c :
  slot_wf inner -> slot_owned fs gds d inner -> dispatch_spec alive now inner inner' gs -> c ∈ gs ->
  exists f v r, f ∈ fs /\ af_chan f = c /\ fut_key f = (d, rq_id r, v) /\ r ∈ queue_of inner v
    /\ af_state f = Waiting /\ mark_dispatched now r ∈ queue_of inner' v.
Proof.
  intros Hwf Ho Hd Hc. destruct (dispatch_grants _ _ _ _ _ _ Hd Hc) as (v & r & Hr & Hdr & Hg & Ha & Hm).
  specialize (Ho v r Hr). unfold entry_ok in Ho. rewrite Hdr in Ho.
  destruct Ho as (c' & Hg' & f & Hf & Hk & Hch & Hst). simplify_eq.
  apply Halive, rx_alive_spec in Ha as (f' & Hf' & E & Hst').
  assert (f' = f) as -> by (eapply chan_unique; eauto).
  exists f, v, r. split_and!; auto. destruct Hst'; congruence.
Qed.

Lemma dispatch_owned inner inner' gs :
  slot_wf inner -> slot_owned fs gds d inner -> dispatch_spec alive now inner inner' gs ->
  slot_owned (wake gs <$> fs) gds d inner'.
Proof.
  intros Hwf Ho Hd v r' Hr'. pose proof (dispatch_wf _ _ _ _ _ Hd Hwf) as Hwf'.
  destruct (dispatch_elem _ _ _ _ _ _ _ Hd Hr') as [Hr | (r & c & Hr & Hdr & Hg & Hc & Ha & ->)].
  - pose proof (Ho v r' Hr) as He. unfold entry_ok in *. destruct (dispatched r') eqn:Hd'.
    + destruct He as [(f & Hf & Hk & Hst) | ?]; [left | by right].
      exists (wake gs f). split_and!; [by apply wake_elem | by rewrite wake_key |].
      unfold wake. case_bool_decide; simpl; auto.
    + destruct He as (c & Hg & f & Hf & Hk & Hch & Hst). exists c. split; [done |].
      destruct (decide (c ∈ gs)) as [Hc |].
      { destruct (granted_fut _ _ _ _ Hwf Ho Hd Hc) as (f' & v' & r0 & Hf' & E & Hk' & _ & _ & Hm).
        assert (f' = f) as -> by (eapply chan_unique; eauto; congruence).
        rewrite Hk in Hk'. simplify_eq.
        by assert (r' = mark_dispatched now r0) as -> by (by eapply unique_in_slot). }
      exists (wake gs f). split_and!; [by apply wake_elem | by rewrite wake_key | |].
      * unfold wake. by case_bool_decide.
      * unfold wake. rewrite bool_decide_eq_false_2; [done |]. by rewrite Hch.
  - specialize (Ho v r Hr). unfold entry_ok in *. rewrite Hdr in Ho. simpl.
    destruct Ho as (c' & Hg' & f & Hf & Hk & Hch & Hst). simplify_eq.
    left. exists (wake gs f). split_and!; [by apply wake_elem | by rewrite wake_key |].
    left. unfold wake. by rewrite bool_decide_eq_true_2.
Qed.

Lemma dispatch_owned_other inner inner' gs d' other :
  slot_wf inner -> slot_owned fs gds d inner -> dispatch_spec alive now inner inner' gs ->
  d' <> d -> slot_owned fs gds d' other -> slot_owned (wake gs <$> fs) gds d' other.
Proof.
  intros Hwf Ho Hd Hne Ho' v r Hr. specialize (Ho' v r Hr). unfold entry_ok in *.
  destruct (dispatched r).
  - destruct Ho' as [(f & Hf & Hk & Hst) | ?]; [left | by right].
    exists (wake gs f). split_and!; [by apply wake_elem | by rewrite wake_key |].
    unfold wake. case_bool_decide; simpl; auto.
  - destruct Ho' as (c & Hg & f & Hf & Hk & Hch & Hst). exists c. split; [done |].
    exists (wake gs f). split_and!; [by apply wake_elem | by rewrite wake_key | |].
    + unfold wake. by case_bool_decide.
    + unfold wake. rewrite bool_decide_eq_false_2; [done |]. intros Hc.
      destruct (granted_fut _ _ _ _ Hwf Ho Hd Hc) as (f' & v' & r0 & Hf' & E & Hk' & _).
      assert (f' = f) as -> by (eapply chan_unique; eauto). congruence.
Qed.

(** The slot table after a critical section that ends with [dispatch]. *)
Lemma insert_dispatch (m : gmap string SlotInner) inner inner' gs :
  map_Forall (fun _ => slot_wf) m ->
  (forall d' other, m !! d' = Some other -> d' <> d -> slot_owned fs gds d' other) ->
  slot_wf inner -> slot_owned fs gds d inner -> dispatch_spec alive now inner inner' gs ->
  map_Forall (fun _ => slot_wf) (<[d := inner']> m)
  /\ map_Forall (slot_owned (wake gs <$> fs) gds) (<[d := inner']> m).
Proof.
  intros Hm Ho Hwf Howned Hd. split; intros d' other; destruct (decide (d' = d)) as [-> | Hne];
    rewrite ?lookup_insert_eq, ?lookup_insert_ne by done; intros Hl; simplify_eq.
  - by eapply dispatch_wf.
  - by apply Hm in Hl.
  - by eapply dispatch_owned.
  - eapply dispatch_owned_other; eauto.
Qed.
End owned_dispatch.

(** Owners may change as long as each entry keeps one. *)
Lemma slot_owned_mono fs gds fs' gds' d inner :
  slot_owned fs gds d inner ->
  (forall v r, r ∈ queue_of inner v -> dispatched r = false -> forall c,
     waiting_owner fs (d, rq_id r, v) c -> grant r = Some c -> waiting_owner fs' (d, rq_id r, v) c) ->
  (forall v r, r ∈ queue_of inner v -> dispatched r = true ->
     sent_owner fs gds (d, rq_id r, v) -> sent_owner fs' gds' (d, rq_id r, v)) ->
  slot_owned fs' gds' d inner.
Proof.
  intros Ho Hw Hs v r Hr. pose proof (Ho v r Hr) as He. unfold entry_ok in *.
  destruct (dispatched r) eqn:Hd; [by eauto |]. destruct He as (c & Hg & ?). eauto.
Qed.

(** The owner with key [k] may go when no entry of the slot has this key. *)
Lemma slot_owned_drop fs gds fs' gds' k d inner :
  slot_owned fs gds d inner ->
  (forall f, f ∈ fs -> fut_key f <> k -> f ∈ fs') ->
  (forall g, g ∈ gds -> guard_key g <> k -> g ∈ gds') ->
  (forall v r, r ∈ queue_of inner v -> (d, rq_id r, v) <> k) ->
  slot_owned fs' gds' d inner.
Proof.
  intros Ho Hf Hg Hk. eapply slot_owned_mono; [exact Ho | |].
  - intros v r Hr Hd c (f & ? & E & ? & ?) _. exists f. split_and!; auto.
    apply Hf; [done |]. rewrite E. eauto.
  - intros v r Hr Hd [(f & ? & E & ?) | (g & ? & E)]; [left; exists f | right; exists g]; split_and!; auto.
    + apply Hf; [done |]. rewrite E. eauto.
    + apply Hg; [done |]. rewrite E. eauto.
Qed.

(** Removing entries from a queue. *)
Lemma slot_owned_incl fs gds d inner inner' :
  slot_owned fs gds d inner -> (forall v r, r ∈ queue_of inner' v -> r ∈ queue_of inner v) ->
  slot_owned fs gds d inner'.
Proof. intros Ho Hi v r Hr. apply Ho, Hi, Hr. Qed.

Definition remove_at (inner : SlotInner) (v : bool) (idx : nat) : SlotInner :=
  set_queue inner v (delete idx (queue_of inner v)).

Lemma queue_small_sublist q q' :
  q' `sublist_of` q -> queue_small q -> queue_small q'.
Proof.
  intros Hs (Hl & Hp & Hz). pose proof (sublist_length _ _ Hs). unfold queue_small. split_and!; [lia | |].
  - intros r Hr. apply Hp. by eapply elem_of_sublist.
  - assert (forall l k : list QueuedRequest, l `sublist_of` k -> (forall r, r ∈ k -> 0 <= context_chars r) ->
      zsum context_chars l <= zsum context_chars k) as Hm; [| pose proof (Hm _ _ Hs Hp); lia].
    clear. induction 1; intros Hp; rewrite ?zsum_cons; [done | |].
    + pose proof (IHsublist ltac:(intros; apply Hp; by right)). lia.
    + pose proof (IHsublist ltac:(intros; apply Hp; by right)). pose proof (Hp x ltac:(left)). lia.
Qed.

Lemma remove_at_sublist inner v idx : all_requests (remove_at inner v idx) `sublist_of` all_requests inner.
Proof.
  unfold remove_at, all_requests. destruct v; simpl; apply sublist_app; try done; apply sublist_delete.
Qed.

Lemma remove_at_wf inner v idx : slot_wf inner -> slot_wf (remove_at inner v idx).
Proof.
  intros Hwf. pose proof (remove_at_sublist inner v idx) as Hs. pose proof Hwf as (_ & _ & Hsm & _).
  eapply slot_wf_sublist; [exact Hwf | by destruct v | by apply fmap_sublist |].
  by eapply queue_small_sublist.
Qed.

Lemma queue_ids_NoDup inner v : slot_wf inner -> NoDup (rq_id <$> queue_of inner v).
Proof.
  intros (Hu & _). unfold ids_unique in Hu. rewrite (all_requests_perm inner v), fmap_app in Hu.
  by apply NoDup_app in Hu as [? _].
Qed.

(** The entry found by id is the only one with its key; it is the one removed. *)
Lemma remove_at_keys inner v rid idx r0 v' r :
  slot_wf inner -> list_find (fun r => rq_id r = rid) (queue_of inner v) = Some (idx, r0) ->
  r ∈ queue_of (remove_at inner v idx) v' ->
  r ∈ queue_of inner v' /\ (v' = v -> rq_id r <> rid).
Proof.
  intros Hwf Hf Hr. unfold remove_at in Hr. destruct (decide (v = v')) as [<- | Hne].
  - rewrite set_queue_queue in Hr.
    apply (delete_by_id _ _ _ _ _ (queue_ids_NoDup _ _ Hwf) Hf) in Hr as [? ?]. done.
  - rewrite set_queue_other in Hr by done. split; [done |]. intros ->. done.
Qed.

(** The two outcomes of [release]. *)
Lemma release_cases alive now inner v rid inner' gs :
  release alive now inner v rid = (inner', gs) ->
  (inner' = inner /\ gs = [] /\ forall r, r ∈ queue_of inner v -> rq_id r <> rid)
  \/ exists idx r0, list_find (fun r => rq_id r = rid) (queue_of inner v) = Some (idx, r0)
      /\ dispatch_spec alive now (remove_at inner v idx) inner' gs.
Proof.
  unfold release. destruct (list_find _ _) as [[idx r0] |] eqn:E; intros H.
  - right. exists idx, r0. split; [done |].
    pose proof (dispatch_is_spec alive now (remove_at inner v idx)) as Hd. unfold remove_at in *. by rewrite H in Hd.
  - left. simplify_eq. split_and!; auto. intros r Hr. apply list_find_None in E.
    rewrite Forall_forall in E. auto.
Qed.

Lemma wake_nil fs : wake [] <$> fs = fs.
Proof. rewrite <- (list_fmap_id fs) at 2. apply list_fmap_ext. intros _ f _. unfold wake. by rewrite bool_decide_eq_false_2 by set_solver. Qed.

Lemma dispatch_spec_nil_owned fs gds d inner : slot_owned fs gds d inner -> slot_owned (wake [] <$> fs) gds d inner.
Proof. by rewrite wake_nil. Qed.

(** A future or guard with key [(d, rid, v)] releases its entry: the table is
    owned by those that remain. *)
Lemma release_owned fs gds fs' gds' nc alive now d rid v (m : gmap string SlotInner) inner inner' gs :
  futs_wf fs' nc -> (forall c, alive c = true -> rx_alive fs' c = true) ->
  (forall f, f ∈ fs -> fut_key f <> (d, rid, v) -> f ∈ fs') ->
  (forall g, g ∈ gds -> guard_key g <> (d, rid, v) -> g ∈ gds') ->
  map_Forall (fun _ => slot_wf) m -> map_Forall (slot_owned fs gds) m ->
  m !! d = Some inner -> release alive now inner v rid = (inner', gs) ->
  map_Forall (fun _ => slot_wf) (<[d := inner']> m)
  /\ map_Forall (slot_owned (wake gs <$> fs') gds') (<[d := inner']> m).
Proof.
  intros Hfs Hal Hf Hg Hwf Ho Hl Hrel.
  assert (forall d' other, m !! d' = Some other -> d' <> d -> slot_owned fs' gds' d' other) as Hother.
  { intros d' other Hl' Hne. eapply (slot_owned_drop _ _ _ _ (d, rid, v)); eauto. congruence. }
  destruct (release_cases _ _ _ _ _ _ _ Hrel) as [(-> & -> & Hno) | (idx & r0 & Hfind & Hd)].
  - rewrite insert_id by done. split; [done |]. rewrite wake_nil. intros d' other Hl'.
    destruct (decide (d' = d)) as [-> |]; [| by eauto]. simplify_eq.
    eapply (slot_owned_drop _ _ _ _ (d, rid, v)); [by apply Ho | done | done |].
    intros v' r Hr [=]. subst v'. by eapply Hno.
  - eapply insert_dispatch; [done | done | done | done | by apply remove_at_wf, (Hwf _ _ Hl) | | done].
    eapply (slot_owned_drop _ _ _ _ (d, rid, v)); [| done | done |].
    + eapply slot_owned_incl; [by apply Ho |]. intros v' r Hr.
      by eapply remove_at_keys in Hr as [? _]; [| by apply (Hwf _ _ Hl) |].
    + intros v' r Hr [= E1 E2]. eapply remove_at_keys in Hr as [_ Hne]; [| by apply (Hwf _ _ Hl) | done].
      by apply Hne.
Qed.

Lemma push_request_perm inner v req :
  all_requests (push_request inner v req) ≡ₚ req :: all_requests inner.
Proof.
  unfold push_request, all_requests. destruct v; simpl.
  - rewrite <- app_assoc. simpl. by rewrite <- Permutation_middle.
  - rewrite app_assoc. by rewrite Permutation_app_comm.
Qed.

Lemma push_request_elem inner v req v' r :
  r ∈ queue_of (push_request inner v req) v' <-> r ∈ queue_of inner v' \/ (r = req /\ v' = v).
Proof. unfold push_request. destruct v, v'; simpl; set_solver. Qed.

Lemma push_request_wf inner v req :
  slot_wf inner -> rq_id req = next_id inner -> 0 <= context_chars req ->
  Z.of_nat (length (all_requests inner)) + 1 < 2 ^ 32 ->
  zsum context_chars (all_requests inner) + context_chars req < 2 ^ 64 ->
  next_id inner + 1 < 2 ^ 64 ->
  slot_wf (push_request inner v req).
Proof.
  intros (Hu & Hlt & (Hl & Hp & Hz) & Hn) Hid Hc Hlen Hsum Hnext.
  assert (next_id (push_request inner v req) = next_id inner + 1) as Hnid.
  { unfold push_request. destruct v; simpl; apply u64_add_small; lia. }
  pose proof (push_request_perm inner v req) as Hperm.
  unfold slot_wf, ids_unique. rewrite Hnid. split_and!.
  - rewrite Hperm. simpl. apply NoDup_cons. split; [| done].
    intros (r & E & Hr)%list_elem_of_fmap. apply Hlt in Hr. lia.
  - intros r Hr. rewrite Hperm in Hr. apply elem_of_cons in Hr as [-> | Hr]; [lia |].
    apply Hlt in Hr. lia.
  - apply (queue_small_app_perm (req :: all_requests inner)); [by symmetry |].
    split_and!; [rewrite length_cons; lia | | rewrite zsum_cons; lia].
    intros r [-> | ?]%elem_of_cons; auto.
  - lia.
Qed.

(** Futures only change their number, their state or are woken. *)
Lemma futs_wf_app l1 f l2 nc : futs_wf (l1 ++ f :: l2) nc -> futs_wf (l1 ++ l2) nc.
Proof.
  intros [Hnd Hc]. split.
  - rewrite fmap_app in *. eapply sublist_NoDup; [exact Hnd |].
    apply sublist_app; [done |]. by constructor.
  - intros f' Hf'. apply Hc. set_solver.
Qed.
Lemma futs_wf_state l1 f l2 nc st : futs_wf (l1 ++ f :: l2) nc -> futs_wf (l1 ++ set_state st f :: l2) nc.
Proof.
  intros [Hnd Hc]. split; [by rewrite fmap_app in * |].
  intros f' Hf'. apply elem_of_app in Hf' as [? | [-> | ?]%elem_of_cons]; [| apply (Hc f) |]; set_solver.
Qed.

Lemma rx_alive_snoc fs d rid v key c c' :
  (c' =? c) || rx_alive fs c' = true -> rx_alive (fs ++ [mkAcquireFut d rid v key c Waiting]) c' = true.
Proof.
  intros H. apply rx_alive_spec. apply orb_true_iff in H as [E | H].
  - bool_simpl. subst. eexists. split; [apply elem_of_app; right; left |]. simpl. auto.
  - apply rx_alive_spec in H as (f & ? & ?). exists f. split; [set_solver | done].
Qed.

Lemma acquire_enqueue_inv alive now chan fc d ctx vip alias key mdl fc' rid gs :
  acquire_enqueue alive now chan fc d ctx vip alias key mdl = (fc', inr (rid, gs)) ->
  exists inner inner', slots fc !! d = Some inner /\ rid = next_id inner
    /\ slots fc' = <[d := inner']> (slots fc)
    /\ dispatch_spec alive now
         (push_request inner vip (mkQueuedRequest rid ctx alias mdl now None false (Some chan))) inner' gs.
Proof.
  unfold acquire_enqueue. destruct (slots fc !! d) as [inner |] eqn:El; [| done].
  destruct ((0 <? max_context inner) && (max_context inner <? ctx)); [done |].
  destruct (dispatch _ _ _) as [inner' gs'] eqn:Ed. intros H. exists inner, inner'.
  pose proof (dispatch_is_spec alive now (push_request inner vip
    (mkQueuedRequest (next_id inner) ctx alias mdl now None false (Some chan)))) as Hd.
  rewrite Ed in Hd. destruct key; simplify_eq/=; done.
Qed.

Lemma enqueue_owned s d ctx vip alias key mdl now fc' rid gs :
  Owned s -> width_ok (controller s) d ctx ->
  acquire_enqueue (fun c => (c =? next_chan s) || rx_alive (futs s) c) now (next_chan s)
      (controller s) d ctx vip alias key mdl = (fc', inr (rid, gs)) ->
  Owned (mkSys fc' (wake gs <$> futs s ++ [mkAcquireFut d rid vip key (next_chan s) Waiting])
             (guards s) (next_chan s + 1)).
Proof.
  intros [Hfs Hwf Ho] [Hc Hw] H.
  apply acquire_enqueue_inv in H as (inner & inner' & Hl & -> & Hsl & Hd).
  specialize (Hw _ Hl) as (Hlen & Hsum & Hnid).
  set (nf := mkAcquireFut d (next_id inner) vip key (next_chan s) Waiting) in *.
  assert (futs_wf (futs s ++ [nf]) (next_chan s + 1)) as Hfs'.
  { destruct Hfs as [Hnd Hlt]. split.
    - rewrite fmap_app. apply NoDup_app. split_and!; [done | | apply NoDup_singleton].
      intros c (f & -> & Hf)%list_elem_of_fmap [E | ?]%elem_of_cons; [| set_solver].
      apply Hlt in Hf. simpl in E. lia.
    - intros f [Hf | ->%list_elem_of_singleton]%elem_of_app; [apply Hlt in Hf; lia | simpl; lia]. }
  assert (forall d' other, slots (controller s) !! d' = Some other ->
    slot_owned (futs s ++ [nf]) (guards s) d' other) as Ho'.
  { intros d' other Hl'. eapply slot_owned_mono; [by apply Ho | |].
    - intros v r Hr Hdr c (f & ? & ?) _. exists f. split; [set_solver | done].
    - intros v r Hr Hdr [(f & ? & ?) | ?]; [left; exists f; split; [set_solver | done] | by right]. }
  assert (map_Forall (fun _ => slot_wf) (slots fc')
    /\ map_Forall (slot_owned (wake gs <$> futs s ++ [nf]) (guards s)) (slots fc')) as [? ?].
  { rewrite Hsl. eapply insert_dispatch; [exact Hfs' | | exact Hwf | eauto | | | exact Hd].
    - apply rx_alive_snoc.
    - apply push_request_wf; simpl; auto. by apply (Hwf _ _ Hl).
    - intros v r [Hr | [-> ->]]%push_request_elem; [by apply (Ho' d inner) |].
      unfold entry_ok. simpl. exists (next_chan s). split; [done |].
      exists nf. split_and!; try done. set_solver. }
  split; simpl; auto using wake_wf.
Qed.

(** [remove_key_ref] leaves the slots alone. *)
Lemma remove_key_ref_opt_slots fc key d rid : slots (remove_key_ref_opt fc key d rid) = slots fc.
Proof. by destruct key. Qed.

Lemma cleanup_drop_inv alive now fc d rid v key fc' gs :
  cleanup_drop alive now fc d rid v key = (fc', gs) ->
  (slots fc !! d = None /\ fc' = fc /\ gs = [])
  \/ exists inner inner', slots fc !! d = Some inner /\ release alive now inner v rid = (inner', gs)
      /\ slots fc' = <[d := inner']> (slots fc).
Proof.
  unfold cleanup_drop. destruct (slots fc !! d) as [inner |]; [| by left; simplify_eq].
  destruct (release _ _ _ _ _) as [inner' gs'] eqn:E. intros. simplify_eq. right.
  exists inner, inner'. by rewrite remove_key_ref_opt_slots.
Qed.

Lemma guard_drop_inv alive now fc d rid v key fc' gs :
  guard_drop alive now fc d rid v key = (fc', gs) ->
  (slots fc !! d = None /\ slots fc' = slots fc /\ gs = [])
  \/ exists inner inner', slots fc !! d = Some inner /\ release alive now inner v rid = (inner', gs)
      /\ slots fc' = <[d := inner']> (slots fc).
Proof.
  unfold guard_drop. destruct (slots fc !! d) as [inner |].
  - destruct (release _ _ _ _ _) as [inner' gs'] eqn:E. intros. simplify_eq. right.
    exists inner, inner'. by rewrite remove_key_ref_opt_slots.
  - intros. simplify_eq. left. by rewrite remove_key_ref_opt_slots.
Qed.

Lemma acquire_timeout_inv fc d rid v key fc' res :
  acquire_timeout fc d rid v key = (fc', res) ->
  match res with
  | inr _ => fc' = fc /\ exists inner, slots fc !! d = Some inner /\
      forall r, r ∈ queue_of inner v -> rq_id r = rid -> NoDup (rq_id <$> queue_of inner v) -> dispatched r = true
  | inl _ => (slots fc !! d = None /\ slots fc' = slots fc)
      \/ exists inner idx r, slots fc !! d = Some inner /\ dispatched r = false
         /\ list_find (fun r => rq_id r = rid) (queue_of inner v) = Some (idx, r)
         /\ slots fc' = <[d := remove_at inner v idx]> (slots fc)
  end.
Proof.
  unfold acquire_timeout. destruct (slots fc !! d) as [inner |] eqn:El.
  2: { intros. simplify_eq. left. by rewrite remove_key_ref_opt_slots. }
  destruct (list_find _ _) as [[idx r] |] eqn:Ef; [destruct (dispatched r) eqn:Hd |]; intros; simplify_eq.
  - split; [done |]. exists inner. split; [done |]. intros r' Hr' Hid Hnd.
    by apply (find_by_id_unique _ _ _ _ Hnd Ef _ Hr') in Hid as ->.
  - right. exists inner, idx, r. by rewrite remove_key_ref_opt_slots.
  - split; [done |]. exists inner. split; [done |]. intros r' Hr' Hid _.
    apply list_find_None in Ef. rewrite Forall_forall in Ef. by apply Ef in Hr'.
Qed.

Lemma Owned_mono s fs' gds' :
  Owned s -> futs_wf fs' (next_chan s) ->
  (forall d inner v r, slots (controller s) !! d = Some inner -> r ∈ queue_of inner v ->
     dispatched r = false -> forall c, waiting_owner (futs s) (d, rq_id r, v) c -> grant r = Some c ->
     waiting_owner fs' (d, rq_id r, v) c) ->
  (forall k, sent_owner (futs s) (guards s) k -> sent_owner fs' gds' k) ->
  Owned (mkSys (controller s) fs' gds' (next_chan s)).
Proof.
  intros [Hfs Hwf Ho] Hfs' Hw Hs. split; simpl; auto.
  intros d inner Hl. eapply slot_owned_mono; [by apply Ho | |]; eauto.
Qed.

Lemma elem_of_mid {A} (x f : A) l1 l2 : x ∈ l1 ++ f :: l2 <-> x = f \/ x ∈ l1 ++ l2.
Proof. rewrite !elem_of_app, elem_of_cons. tauto. Qed.

Lemma granted_owned s l1 f l2 :
  Owned s -> futs s = l1 ++ f :: l2 -> af_state f = Granted ->
  Owned (mkSys (controller s) (l1 ++ l2) (guard_of f :: guards s) (next_chan s)).
Proof.
  intros HO Hf Hst. pose proof (owned_futs _ HO) as Hfs. rewrite Hf in Hfs.
  apply Owned_mono; [done | by eapply futs_wf_app | |]; rewrite Hf.
  - intros d inner v r _ _ _ c (f' & [-> | ?]%elem_of_mid & ? & ? & ?) _; [done |]. by exists f'.
  - intros k [(f' & [-> | ?]%elem_of_mid & <- & Hs) | (g & ? & ?)].
    + right. exists (guard_of f). split; [left | done].
    + left. eauto.
    + right. exists g. split; [by right | done].
Qed.

Lemma state_owned s l1 f l2 st :
  Owned s -> futs s = l1 ++ f :: l2 -> af_state f = Waiting \/ (af_state f = Granted /\ st = Cancelled) ->
  st = Cancelled \/ st = TimedOut ->
  Owned (mkSys (controller s) (l1 ++ set_state st f :: l2) (guards s) (next_chan s)).
Proof.
  intros HO Hf Hst Hst'. pose proof (owned_futs _ HO) as Hfs. rewrite Hf in Hfs.
  apply Owned_mono; [done | by apply futs_wf_state | |]; rewrite Hf.
  - intros d inner v r _ _ _ c (f' & [-> | ?]%elem_of_mid & Hk & ? & Hn) _.
    + exists (set_state st f). split_and!; [apply elem_of_mid; by left | done | done |].
      simpl. destruct Hst'; congruence.
    + exists f'. split_and!; auto. apply elem_of_mid. by right.
  - intros k [(f' & [-> | ?]%elem_of_mid & Hk & Hs) | ?]; [| | by right]; left.
    + exists (set_state st f). split_and!; [apply elem_of_mid; by left | done |].
      simpl. destruct Hst as [E | [E ->]]; [| by right]. destruct Hs; congruence.
    + exists f'. split_and!; auto. apply elem_of_mid. by right.
Qed.

Lemma sender_dropped_owned s l1 f l2 :
  Owned s -> futs s = l1 ++ f :: l2 -> af_state f = Waiting ->
  (forall d inner r, slots (controller s) !! d = Some inner -> r ∈ all_requests inner -> grant r <> Some (af_chan f)) ->
  Owned (mkSys (controller s) (l1 ++ l2) (guards s) (next_chan s)).
Proof.
  intros HO Hf Hst Hno. pose proof (owned_futs _ HO) as Hfs. rewrite Hf in Hfs.
  apply Owned_mono; [done | by eapply futs_wf_app | |]; rewrite Hf.
  - intros d inner v r Hl Hr _ c (f' & [-> | ?]%elem_of_mid & Hk & <- & Hn) Hg.
    + exfalso. eapply Hno; [done | | done]. apply elem_of_all_requests. eauto.
    + by exists f'.
  - intros k [(f' & [-> | ?]%elem_of_mid & Hk & Hs) | ?]; [| | by right].
    + destruct Hs; congruence.
    + left. by exists f'.
Qed.

Lemma drop_fut_incl l1 f l2 k :
  fut_key f = k -> forall f', f' ∈ l1 ++ f :: l2 -> fut_key f' <> k -> f' ∈ l1 ++ l2.
Proof. intros <- f' [-> | ?]%elem_of_mid ?; done. Qed.

Lemma timeout_owned s l1 f l2 fc' res :
  Owned s -> futs s = l1 ++ f :: l2 -> af_state f = Waiting \/ af_state f = TimedOut ->
  acquire_timeout (controller s) (af_deployment f) (af_request f) (af_vip f) (af_key_hash f) = (fc', res) ->
  Owned (mkSys fc' (l1 ++ l2) (match res with inr _ => [guard_of f] | inl _ => [] end ++ guards s) (next_chan s)).
Proof.
  intros HO Hf Hst H. pose proof HO as [Hfs Hwf Ho]. rewrite Hf in Hfs.
  apply acquire_timeout_inv in H. destruct res as [e | u]; simpl.
  - assert (forall d' other, slots (controller s) !! d' = Some other ->
      (forall v r, r ∈ queue_of other v -> (d', rq_id r, v) <> fut_key f) ->
      slot_owned (l1 ++ l2) (guards s) d' other) as Hdrop.
    { intros d' other Hl Hk. eapply (slot_owned_drop _ _ _ _ (fut_key f)); [by apply Ho | | done | done].
      rewrite Hf. by apply drop_fut_incl. }
    destruct H as [[Hn E] | (inner & idx & r & Hl & Hd & Hfind & E)]; split; simpl; rewrite ?E; try done;
      try (by eapply futs_wf_app).
    + intros d' other Hl. apply Hdrop; [done |]. intros v r _ [=]. congruence.
    + intros d' other Hl'. destruct (decide (d' = af_deployment f)) as [-> | Hne];
        rewrite ?lookup_insert_eq, ?lookup_insert_ne in Hl' by done; simplify_eq; [| by apply (Hwf _ _ Hl')].
      apply remove_at_wf, (Hwf _ _ Hl).
    + intros d' other Hl'. destruct (decide (d' = af_deployment f)) as [-> | Hne];
        rewrite ?lookup_insert_eq, ?lookup_insert_ne in Hl' by done; simplify_eq.
      * eapply (slot_owned_drop (futs s) (guards s) _ _ (fut_key f)); [| | done |].
        -- eapply slot_owned_incl; [by apply Ho |]. intros v' r' Hr'.
           by eapply remove_at_keys in Hr' as [? _]; [| by apply (Hwf _ _ Hl) |].
        -- rewrite Hf. by apply drop_fut_incl.
        -- intros v' r' Hr' [= E1 E2].
           eapply remove_at_keys in Hr' as [_ Hne]; [| by apply (Hwf _ _ Hl) | done]. by apply Hne.
      * apply Hdrop; [done |]. intros v r' _ [=]. congruence.
  - destruct H as [-> (inner & Hl & Hdisp)].
    apply Owned_mono; [done | by eapply futs_wf_app | |]; rewrite Hf.
    + intros d' other v r Hl' Hr Hd c (f' & [-> | ?]%elem_of_mid & Hk & <- & Hn) Hg; [| by exists f'].
      exfalso. injection Hk as <- Hid <-. simplify_eq.
      rewrite (Hdisp r Hr) in Hd; [done | done | by apply queue_ids_NoDup, (Hwf _ _ Hl)].
    + intros k [(f' & [-> | ?]%elem_of_mid & Hk & Hs) | (g & ? & ?)].
      * destruct Hs, Hst; congruence.
      * left. eauto.
      * right. exists g. split; [by right | done].
Qed.

Lemma cleanup_owned s l1 f l2 now fc' gs :
  Owned s -> futs s = l1 ++ f :: l2 ->
  cleanup_drop (rx_alive (l1 ++ l2)) now (controller s) (af_deployment f) (af_request f)
      (af_vip f) (af_key_hash f) = (fc', gs) ->
  Owned (mkSys fc' (wake gs <$> l1 ++ l2) (guards s) (next_chan s)).
Proof.
  intros HO Hf H. pose proof HO as [Hfs Hwf Ho]. rewrite Hf in Hfs. apply futs_wf_app in Hfs.
  apply cleanup_drop_inv in H as [(Hn & -> & ->) | (inner & inner' & Hl & Hr & E)].
  - rewrite wake_nil. split; simpl; auto. intros d' other Hl.
    eapply (slot_owned_drop _ _ _ _ (fut_key f)); [by apply Ho | rewrite Hf; by apply drop_fut_incl | done |].
    intros v r _ [=]. congruence.
  - edestruct (release_owned (futs s) (guards s) (l1 ++ l2) (guards s)) as [? ?];
      [exact Hfs | by intros c Hc | rewrite Hf; by apply drop_fut_incl | done | exact Hwf | exact Ho | exact Hl | exact Hr |].
    split; simpl; rewrite ?E; auto using wake_wf.
Qed.

Lemma guard_drop_owned s l1 g l2 now fc' gs :
  Owned s -> guards s = l1 ++ g :: l2 ->
  guard_drop (rx_alive (futs s)) now (controller s) (g_deployment g) (g_request g)
      (g_vip g) (g_key_hash g) = (fc', gs) ->
  Owned (mkSys fc' (wake gs <$> futs s) (l1 ++ l2) (next_chan s)).
Proof.
  intros HO Hg H. pose proof HO as [Hfs Hwf Ho].
  assert (forall g', g' ∈ guards s -> guard_key g' <> guard_key g -> g' ∈ l1 ++ l2) as Hincl.
  { rewrite Hg. intros g' [-> | ?]%elem_of_mid ?; done. }
  apply guard_drop_inv in H as [(Hn & E & ->) | (inner & inner' & Hl & Hr & E)].
  - rewrite wake_nil. split; simpl; rewrite ?E; auto. intros d' other Hl.
    eapply (slot_owned_drop _ _ _ _ (guard_key g)); [by apply Ho | done | done |].
    intros v r _ [=]. congruence.
  - edestruct (release_owned (futs s) (guards s) (futs s) (l1 ++ l2)) as [? ?];
      [exact Hfs | by intros c Hc | done | exact Hincl | exact Hwf | exact Ho | exact Hl | exact Hr |].
    split; simpl; rewrite ?E; auto using wake_wf.
Qed.

Lemma periodic_owned s d now fc' gs :
  Owned s -> dispatch_slot (rx_alive (futs s)) now (controller s) d = (fc', gs) ->
  Owned (mkSys fc' (wake gs <$> futs s) (guards s) (next_chan s)).
Proof.
  intros HO H. pose proof HO as [Hfs Hwf Ho]. unfold dispatch_slot in H.
  destruct (slots (controller s) !! d) as [inner |] eqn:Hl; [| by simplify_eq; rewrite wake_nil; destruct s].
  pose proof (dispatch_is_spec (rx_alive (futs s)) now inner) as Hd.
  destruct (dispatch _ _ _) as [inner' gs'] eqn:Ed. simplify_eq/=.
  edestruct (insert_dispatch (futs s) (guards s) (next_chan s) (rx_alive (futs s)) now d) as [? ?];
    [done | by intros c Hc | exact Hwf | by intros d' other Hl' _; apply Ho | by apply (Hwf _ _ Hl) | by apply Ho | exact Hd |].
  split; simpl; auto using wake_wf.
Qed.

Lemma admin_owned s s' : Owned s -> admin_step s s' -> Owned s'.
Proof.
  intros [Hfs Hwf Ho] H. destruct H as [s d cfg | s d | s ids]; split; simpl; try done.
  - unfold ensure_slot. destruct (_ && _); simpl; [by apply map_Forall_delete |].
    intros d' inner. destruct (decide (d' = d)) as [-> | Hne];
      rewrite ?lookup_insert_eq, ?lookup_insert_ne by done; intros; simplify_eq; [| by apply (Hwf d')].
    destruct (slots (controller s) !! d) as [i |] eqn:Hl; [exact (Hwf _ _ Hl) |].
    split_and!; try done; [constructor | set_solver | split_and!; [done | set_solver | done]].
  - unfold ensure_slot. destruct (_ && _); simpl; [by apply map_Forall_delete |].
    intros d' inner. destruct (decide (d' = d)) as [-> | Hne];
      rewrite ?lookup_insert_eq, ?lookup_insert_ne by done; intros; simplify_eq; [| by apply Ho].
    destruct (slots (controller s) !! d) as [i |] eqn:Hl; [exact (Ho _ _ Hl) |].
    intros [] r Hr; simpl in Hr; set_solver.
  - by apply map_Forall_delete.
  - by apply map_Forall_delete.
  - intros d' inner [Hl _]%map_lookup_filter_Some. by apply (Hwf d').
  - intros d' inner [Hl _]%map_lookup_filter_Some. by apply Ho.
Qed.

Lemma run_owned atomic s s' : Owned s -> run_step atomic s s' -> Owned s'.
Proof.
  intros HO H. destruct H.
  - eapply enqueue_owned; eauto.
  - by eapply granted_owned.
  - by eapply sender_dropped_owned.
  - eapply state_owned; eauto.
  - eapply timeout_owned; eauto. destruct atomic; auto.
  - eapply state_owned; eauto. tauto.
  - by eapply cleanup_owned.
  - by eapply guard_drop_owned.
  - by eapply periodic_owned.
Qed.

Lemma init_owned : Owned init_sys.
Proof. split; simpl; [split; [constructor | set_solver] | done | done]. Qed.

Lemma reachable_owned s : reachable any_step init_sys s -> Owned s.
Proof.
  apply reachable_invariant; [apply init_owned |].
  intros ? ? ? [? | ?]; [by eapply run_owned | by eapply admin_owned].
Qed.

(** ** The limits of a slot *)

Definition within_limits (inner : SlotInner) : Prop :=
  (0 < max_inflight inner -> inflight_count (all_requests inner) <= max_inflight inner)
  /\ (0 < max_context inner -> context_sum (all_requests inner) <= max_context inner).

Lemma dispatch_within alive now inner inner' gs :
  dispatch_spec alive now inner inner' gs -> slot_wf inner -> within_limits inner -> within_limits inner'.
Proof.
  intros Hd (_ & _ & Hsm & _) [Hi Hc]. destruct (dispatch_counters _ _ _ _ _ Hd Hsm) as (_ & _ & Hi' & _ & Hc').
  destruct (dispatch_config _ _ _ _ _ Hd) as (E1 & E2 & _). unfold within_limits. rewrite E1, E2. lia.
Qed.

Lemma counters_sublist q q' :
  q' `sublist_of` q -> (forall r, r ∈ q -> 0 <= context_chars r) ->
  inflight_count q' <= inflight_count q /\ context_sum q' <= context_sum q.
Proof.
  induction 1 as [| r q' q Hs IH | r q' q Hs IH]; intros Hp; [done | |];
    destruct IH as [? ?]; try (intros; apply Hp; by right); rewrite ?inflight_count_cons, ?context_sum_cons.
  - lia.
  - pose proof (Hp r ltac:(left)). destruct (dispatched r); lia.
Qed.

Lemma remove_at_within inner v idx : slot_wf inner -> within_limits inner -> within_limits (remove_at inner v idx).
Proof.
  intros (_ & _ & (_ & Hp & _) & _) [Hi Hc].
  destruct (counters_sublist _ _ (remove_at_sublist inner v idx) Hp) as [? ?].
  destruct (set_queue_config inner v (delete idx (queue_of inner v))) as (E1 & E2 & _).
  unfold within_limits, remove_at in *. rewrite E1, E2. lia.
Qed.

Lemma push_request_within inner v req :
  dispatched req = false -> within_limits inner -> within_limits (push_request inner v req).
Proof.
  intros Hd [Hi Hc]. pose proof (push_request_perm inner v req) as Hp.
  unfold within_limits. rewrite (inflight_count_perm _ _ Hp), (context_sum_perm _ _ Hp).
  rewrite inflight_count_cons, context_sum_cons, Hd.
  assert (max_inflight (push_request inner v req) = max_inflight inner
    /\ max_context (push_request inner v req) = max_context inner) as [-> ->] by (by destruct v).
  lia.
Qed.

Lemma release_within alive now inner v rid inner' gs :
  release alive now inner v rid = (inner', gs) -> slot_wf inner -> within_limits inner -> within_limits inner'.
Proof.
  intros Hr Hwf Hw. destruct (release_cases _ _ _ _ _ _ _ Hr) as [(-> & _) | (idx & r0 & _ & Hd)]; [done |].
  eapply dispatch_within; [exact Hd | by apply remove_at_wf | by apply remove_at_within].
Qed.

Definition Within (s : Sys) : Prop := map_Forall (fun _ => within_limits) (slots (controller s)).

(** Every critical section replaces at most one slot by one within its limits. *)
Lemma run_within atomic s s' : Owned s -> Within s -> run_step atomic s s' -> Within s'.
Proof.
  intros [_ Hwf _] HW H. unfold Within in *. destruct H; simpl; try done.
  - apply acquire_enqueue_inv in H0 as (inner & inner' & Hl & -> & -> & Hd).
    destruct H as [Hc Hw]. specialize (Hw _ Hl) as (? & ? & ?).
    apply map_Forall_insert_2; [| done]. eapply dispatch_within; [exact Hd | |].
    + apply push_request_wf; simpl; auto. by apply (Hwf _ _ Hl).
    + apply push_request_within; [done | by apply (HW _ _ Hl)].
  - apply acquire_timeout_inv in H1. destruct res as [e | u]; [| by destruct H1 as [-> _]].
    destruct H1 as [[_ ->] | (inner & idx & r & Hl & _ & _ & ->)]; [done |].
    apply map_Forall_insert_2; [| done]. apply remove_at_within; [by apply (Hwf _ _ Hl) | by apply (HW _ _ Hl)].
  - apply cleanup_drop_inv in H1 as [(_ & -> & _) | (inner & inner' & Hl & Hr & ->)]; [done |].
    apply map_Forall_insert_2; [| done]. eapply release_within; [exact Hr | by apply (Hwf _ _ Hl) | by apply (HW _ _ Hl)].
  - apply guard_drop_inv in H0 as [(_ & -> & _) | (inner & inner' & Hl & Hr & ->)]; [done |].
    apply map_Forall_insert_2; [| done]. eapply release_within; [exact Hr | by apply (Hwf _ _ Hl) | by apply (HW _ _ Hl)].
  - unfold dispatch_slot in H. destruct (slots (controller s) !! d) as [inner |] eqn:Hl; [| by simplify_eq].
    pose proof (dispatch_is_spec (rx_alive (futs s)) now inner) as Hd.
    destruct (dispatch _ _ _) as [inner' gs'] eqn:Ed. simplify_eq/=.
    apply map_Forall_insert_2; [| done]. eapply dispatch_within; [exact Hd | by apply (Hwf _ _ Hl) | by apply (HW _ _ Hl)].
Qed.

(** A configured gateway before its first request: empty queues. *)
Definition Configured (s : Sys) : Prop :=
  futs s = [] /\ guards s = [] /\ map_Forall (fun _ inner => all_requests inner = []) (slots (controller s)).

Lemma configured_reachable s : reachable admin_step init_sys s -> Configured s.
Proof.
  apply reachable_invariant; [done |]. clear. intros s s' (Hf & Hg & He) H.
  destruct H as [s d cfg | s d | s ids]; (split; [done | split; [done |]]); simpl.
  - unfold ensure_slot. destruct (_ && _); simpl; [by apply map_Forall_delete |].
    apply map_Forall_insert_2; [| done].
    destruct (slots (controller s) !! d) as [i |] eqn:Hl; [exact (He _ _ Hl) | done].
  - by apply map_Forall_delete.
  - intros d' inner [Hl _]%map_lookup_filter_Some. by apply (He d').
Qed.

Lemma admin_reachable_owned s : reachable admin_step init_sys s -> Owned s.
Proof. apply reachable_invariant; [apply init_owned | apply admin_owned]. Qed.

Lemma configured_within s : Configured s -> Within s.
Proof.
  intros (_ & _ & He) d inner Hl. unfold within_limits. rewrite (He _ _ Hl).
  assert (inflight_count [] = 0 /\ context_sum [] = 0) as [-> ->] by done. lia.
Qed.

(** ** Without the gap: every admitted request holds its entry *)

Definition fut_id (f : AcquireFut) : string * Z := (af_deployment f, af_request f).
Definition guard_id (g : Guard) : string * Z := (g_deployment g, g_request g).

Definition fut_held (m : gmap string SlotInner) (f : AcquireFut) : Prop :=
  af_state f <> TimedOut
  /\ (af_state f = Cancelled \/ exists inner r, m !! af_deployment f = Some inner
        /\ r ∈ queue_of inner (af_vip f) /\ rq_id r = af_request f
        /\ (if dispatched r then af_state f = Granted
            else af_state f = Waiting /\ grant r = Some (af_chan f))).

Definition guard_held (m : gmap string SlotInner) (g : Guard) : Prop :=
  exists inner r, m !! g_deployment g = Some inner /\ r ∈ queue_of inner (g_vip g)
    /\ rq_id r = g_request g /\ dispatched r = true.

Record Held (s : Sys) : Prop := {
  held_owned : Owned s;
  held_futs : forall f, f ∈ futs s -> fut_held (slots (controller s)) f;
  held_guards : forall g, g ∈ guards s -> guard_held (slots (controller s)) g;
  held_keys : NoDup ((fut_id <$> futs s) ++ (guard_id <$> guards s));
  held_ids : forall d i inner, (d, i) ∈ (fut_id <$> futs s) ++ (guard_id <$> guards s) ->
    slots (controller s) !! d = Some inner -> i < next_id inner;
}.

Section held_dispatch.
Context (fs : list AcquireFut) (gds : list Guard) (nc : Z) (alive : Z -> bool) (now : Z) (d : string).
Context (m : gmap string SlotInner) (inner inner' : SlotInner) (gs : list Z).
Context (Hfs : futs_wf fs nc) (Halive : forall c, alive c = rx_alive fs c).
Context (Hwf : slot_wf inner) (Ho : slot_owned fs gds d inner).
Context (Hd : dispatch_spec alive now inner inner' gs).

Lemma alive_rx c : alive c = true -> rx_alive fs c = true.
Proof. by rewrite Halive. Qed.

(** A future that was notified waited for this very slot. *)
Lemma woken f : f ∈ fs -> af_chan f ∈ gs ->
  af_deployment f = d /\ af_state f = Waiting
  /\ exists r, r ∈ queue_of inner (af_vip f) /\ rq_id r = af_request f
      /\ mark_dispatched now r ∈ queue_of inner' (af_vip f).
Proof.
  intros Hf Hc.
  destruct (granted_fut fs gds nc alive now d Hfs alive_rx _ _ _ _ Hwf Ho Hd Hc)
    as (f' & v & r & Hf' & E & [= E1 E2 E3] & ? & ? & ?).
  assert (f' = f) as -> by (eapply chan_unique; eauto). subst. split_and!; auto. exists r. auto.
Qed.

Lemma fut_held_dispatch f :
  f ∈ fs -> fut_held (<[d := inner]> m) f -> fut_held (<[d := inner']> m) (wake gs f).
Proof.
  intros Hf [Hnt Hh]. unfold wake. case_bool_decide as Hc.
  - destruct (woken f Hf Hc) as (Ed & Hst & r & Hr & Hid & Hm). split; [done | right]. simpl.
    exists inner', (mark_dispatched now r). rewrite Ed, lookup_insert_eq. split_and!; done.
  - split; [done |]. destruct Hh as [? | (i & r & Hl & Hr & Hid & Hst)]; [by left | right].
    destruct (decide (af_deployment f = d)) as [Ed | Hne].
    2: { exists i, r. by rewrite lookup_insert_ne in * by done. }
    exists inner', r. rewrite Ed, lookup_insert_eq in *. simplify_eq. split_and!; auto.
    assert (dispatched r = true \/ exists c, grant r = Some c /\ alive c = true) as Hor.
    { destruct (dispatched r); [by left | right]. destruct Hst as [? ?]. exists (af_chan f).
      split; [done |]. rewrite Halive. apply rx_alive_spec. eauto. }
    destruct (dispatch_survives _ _ _ _ _ _ _ Hd Hr Hor) as [? | (Hd0 & (c & Hg & Hin) & _)]; [done |].
    rewrite Hd0 in Hst. destruct Hst as [_ Hg']. congruence.
Qed.

Lemma guard_held_dispatch g :
  guard_held (<[d := inner]> m) g -> guard_held (<[d := inner']> m) g.
Proof.
  intros (i & r & Hl & Hr & Hid & Hdr). destruct (decide (g_deployment g = d)) as [Ed | Hne].
  2: { exists i, r. by rewrite lookup_insert_ne in * by done. }
  exists inner', r. rewrite Ed, lookup_insert_eq in *. simplify_eq. split_and!; auto.
  destruct (dispatch_survives _ _ _ _ _ _ _ Hd Hr ltac:(by left)) as [? | (? & _)]; [done | congruence].
Qed.
End held_dispatch.

(** Removing the entry of one request leaves the other requests' entries. *)
Lemma remove_at_elem inner v rid idx r0 v' r :
  slot_wf inner -> list_find (fun r => rq_id r = rid) (queue_of inner v) = Some (idx, r0) ->
  r ∈ queue_of inner v' -> (v' = v -> rq_id r <> rid) -> r ∈ queue_of (remove_at inner v idx) v'.
Proof.
  intros Hwf Hf Hr Hne. unfold remove_at. destruct (decide (v = v')) as [<- | Hv].
  - rewrite set_queue_queue. apply (delete_by_id _ _ _ _ _ (queue_ids_NoDup _ _ Hwf) Hf). auto.
  - by rewrite set_queue_other.
Qed.

Section held_remove.
Context (m : gmap string SlotInner) (d : string) (v : bool) (rid : Z) (idx : nat).
Context (inner : SlotInner) (r0 : QueuedRequest).
Context (Hl : m !! d = Some inner) (Hwf : slot_wf inner).
Context (Hfind : list_find (fun r => rq_id r = rid) (queue_of inner v) = Some (idx, r0)).

Lemma fut_held_remove f :
  fut_held m f -> fut_id f <> (d, rid) -> fut_held (<[d := remove_at inner v idx]> m) f.
Proof.
  intros [? [? | (i & r & Hl' & Hr & Hid & Hst)]] Hne; split; auto. right.
  destruct (decide (af_deployment f = d)) as [Ed | Hned].
  - exists (remove_at inner v idx), r. rewrite Ed, lookup_insert_eq in *. simplify_eq. split_and!; auto.
    eapply remove_at_elem; eauto. intros _ E. apply Hne. unfold fut_id. congruence.
  - exists i, r. by rewrite lookup_insert_ne.
Qed.

Lemma guard_held_remove g :
  guard_held m g -> guard_id g <> (d, rid) -> guard_held (<[d := remove_at inner v idx]> m) g.
Proof.
  intros (i & r & Hl' & Hr & Hid & Hst) Hne.
  destruct (decide (g_deployment g = d)) as [Ed | Hned].
  - exists (remove_at inner v idx), r. rewrite Ed, lookup_insert_eq in *. simplify_eq. split_and!; auto.
    eapply remove_at_elem; eauto. intros _ E. apply Hne. unfold guard_id. congruence.
  - exists i, r. by rewrite lookup_insert_ne.
Qed.
End held_remove.

Lemma fut_id_wake gs fs : fut_id <$> (wake gs <$> fs) = fut_id <$> fs.
Proof.
  rewrite <- list_fmap_compose. apply list_fmap_ext. intros _ f _. simpl. unfold wake. by case_bool_decide.
Qed.

(** Only the keys matter for [held_keys] and [held_ids]. *)
Lemma held_intro s :
  Owned s ->
  (forall f, f ∈ futs s -> fut_held (slots (controller s)) f) ->
  (forall g, g ∈ guards s -> guard_held (slots (controller s)) g) ->
  forall keys (m : gmap string SlotInner),
    NoDup keys ->
    (forall d i inner, (d, i) ∈ keys -> m !! d = Some inner -> i < next_id inner) ->
    (fut_id <$> futs s) ++ (guard_id <$> guards s) `sublist_of` keys \/ (fut_id <$> futs s) ++ (guard_id <$> guards s) ≡ₚ keys ->
    (forall d inner', slots (controller s) !! d = Some inner' ->
       exists inner, m !! d = Some inner /\ next_id inner <= next_id inner') ->
    Held s.
Proof.
  intros HO Hf Hg keys m Hnd Hids Hsub Hn. split; auto.
  - destruct Hsub as [Hs | Hp]; [by eapply sublist_NoDup | by rewrite Hp].
  - intros d i inner' Hin Hl. destruct (Hn _ _ Hl) as (inner & Hl' & ?).
    assert ((d, i) ∈ keys) as Hk.
    { destruct Hsub as [Hs | Hp]; [by eapply elem_of_sublist | by rewrite <- Hp]. }
    specialize (Hids _ _ _ Hk Hl'). lia.
Qed.

Lemma keys_drop_fut l1 f l2 gds :
  (fut_id <$> l1 ++ l2) ++ (guard_id <$> gds) `sublist_of` (fut_id <$> l1 ++ f :: l2) ++ (guard_id <$> gds).
Proof.
  apply sublist_app; [| done]. apply fmap_sublist. apply sublist_app; [done |]. by constructor.
Qed.

Lemma keys_move_fut l1 f l2 gds :
  (fut_id <$> l1 ++ l2) ++ (guard_id <$> guard_of f :: gds) ≡ₚ (fut_id <$> l1 ++ f :: l2) ++ (guard_id <$> gds).
Proof.
  rewrite !fmap_app. simpl. rewrite <- !app_assoc.
  change (guard_id (guard_of f)) with (fut_id f). simpl.
  rewrite <- !Permutation_middle. done.
Qed.

(** The key of a mid-list element is unlike the others'. *)
Lemma keys_mid_fut l1 f l2 gds :
  NoDup ((fut_id <$> l1 ++ f :: l2) ++ (guard_id <$> gds)) ->
  (forall f', f' ∈ l1 ++ l2 -> fut_id f' <> fut_id f) /\ (forall g, g ∈ gds -> guard_id g <> fut_id f).
Proof.
  intros Hnd. rewrite <- keys_move_fut in Hnd.
  rewrite Permutation_app_comm in Hnd. simpl in Hnd. apply NoDup_cons in Hnd as [Hn _].
  change (guard_id (guard_of f)) with (fut_id f) in Hn. split.
  - intros f' Hf' E. apply Hn. rewrite <- E. apply elem_of_app. right. apply list_elem_of_fmap. eauto.
  - intros g Hg E. apply Hn. rewrite <- E. apply elem_of_app. left. apply list_elem_of_fmap. eauto.
Qed.

Lemma keys_mid_guard fs l1 g l2 :
  NoDup ((fut_id <$> fs) ++ (guard_id <$> l1 ++ g :: l2)) ->
  (forall f, f ∈ fs -> fut_id f <> guard_id g) /\ (forall g', g' ∈ l1 ++ l2 -> guard_id g' <> guard_id g).
Proof.
  rewrite fmap_app. simpl. rewrite <- Permutation_middle, <- Permutation_middle.
  intros [Hn _]%NoDup_cons. split.
  - intros f Hf E. apply Hn. rewrite <- E. apply elem_of_app. left. apply list_elem_of_fmap. eauto.
  - intros g' Hg E. apply Hn. rewrite <- E, <- fmap_app. apply elem_of_app. right. apply list_elem_of_fmap. eauto.
Qed.

Lemma next_id_insert (m : gmap string SlotInner) d inner inner' :
  m !! d = Some inner -> next_id inner <= next_id inner' ->
  forall d0 i0, <[d := inner']> m !! d0 = Some i0 -> exists i, m !! d0 = Some i /\ next_id i <= next_id i0.
Proof.
  intros Hl Hn d0 i0. destruct (decide (d0 = d)) as [-> | Hne];
    rewrite ?lookup_insert_eq, ?lookup_insert_ne by done; intros; simplify_eq; eauto.
  exists i0. split; [done | lia].
Qed.

(** [release] by an owner whose key is [(d, rid)] and that is gone from the lists. *)
Lemma release_held fs gds nc alive now (m : gmap string SlotInner) d v rid inner inner' gs :
  futs_wf fs nc -> (forall c, alive c = rx_alive fs c) ->
  slot_wf inner -> m !! d = Some inner ->
  release alive now inner v rid = (inner', gs) ->
  (forall idx r0, list_find (fun r => rq_id r = rid) (queue_of inner v) = Some (idx, r0) ->
     slot_owned fs gds d (remove_at inner v idx)) ->
  (forall f, f ∈ fs -> fut_held m f /\ fut_id f <> (d, rid)) ->
  (forall g, g ∈ gds -> guard_held m g /\ guard_id g <> (d, rid)) ->
  next_id inner' = next_id inner
  /\ (forall f, f ∈ wake gs <$> fs -> fut_held (<[d := inner']> m) f)
  /\ (forall g, g ∈ gds -> guard_held (<[d := inner']> m) g).
Proof.
  intros Hfs Hal Hwf Hl Hr Ho Hf Hg.
  destruct (release_cases _ _ _ _ _ _ _ Hr) as [(-> & -> & _) | (idx & r0 & Hfind & Hd)].
  - rewrite insert_id, wake_nil by done. split_and!; [done | intros; by apply Hf | intros; by apply Hg].
  - pose proof (remove_at_wf inner v idx Hwf) as Hwf'.
    split_and!.
    + destruct (dispatch_config _ _ _ _ _ Hd) as (_ & _ & ->). by destruct v.
    + intros f (f0 & -> & Hf0)%list_elem_of_fmap.
      eapply fut_held_dispatch; eauto.
      destruct (Hf _ Hf0). by eapply fut_held_remove.
    + intros g Hg0. eapply (guard_held_dispatch fs gds); eauto.
      destruct (Hg _ Hg0). by eapply guard_held_remove.
Qed.


(** Enqueuing keeps what the other requests hold. *)
Section held_push.
Context (m : gmap string SlotInner) (d : string) (inner : SlotInner) (v : bool) (req : QueuedRequest).
Context (Hl : m !! d = Some inner).

Lemma fut_held_push f : fut_held m f -> fut_held (<[d := push_request inner v req]> m) f.
Proof.
  intros [? [? | (i & r & Hl' & Hr & Hid & Hst)]]; split; auto. right.
  destruct (decide (af_deployment f = d)) as [Ed | Hne].
  - exists (push_request inner v req), r. rewrite Ed, lookup_insert_eq in *. simplify_eq.
    split_and!; try done; apply push_request_elem; by left.
  - exists i, r. by rewrite lookup_insert_ne.
Qed.
Lemma guard_held_push g : guard_held m g -> guard_held (<[d := push_request inner v req]> m) g.
Proof.
  intros (i & r & Hl' & Hr & Hid & Hst). destruct (decide (g_deployment g = d)) as [Ed | Hne].
  - exists (push_request inner v req), r. rewrite Ed, lookup_insert_eq in *. simplify_eq.
    split_and!; try done; apply push_request_elem; by left.
  - exists i, r. by rewrite lookup_insert_ne.
Qed.
Lemma push_held c rid key :
  rq_id req = rid -> grant req = Some c -> dispatched req = false ->
  fut_held (<[d := push_request inner v req]> m) (mkAcquireFut d rid v key c Waiting).
Proof.
  intros Hid Hg Hd. split; [done |]. right. exists (push_request inner v req), req.
  simpl. rewrite lookup_insert_eq, Hd. split_and!; try done. apply push_request_elem. by right.
Qed.
End held_push.

Lemma slot_owned_push fs gds d inner v req key c :
  slot_owned fs gds d inner -> grant req = Some c -> dispatched req = false ->
  slot_owned (fs ++ [mkAcquireFut d (rq_id req) v key c Waiting]) gds d (push_request inner v req).
Proof.
  intros Ho Hg Hd v' r [Hr | [-> ->]]%push_request_elem.
  - eapply slot_owned_mono; [exact Ho | | | done].
    + intros ? ? ? ? ? (f & ? & ?) _. exists f. split; [set_solver | done].
    + intros ? ? ? ? [(f & ? & ?) | ?]; [left; exists f; split; [set_solver | done] | by right].
  - unfold entry_ok. rewrite Hd. exists c. split; [done |].
    eexists. split_and!; [apply elem_of_app; right; by left | done..].
Qed.

Lemma futs_wf_snoc fs d rid v key nc :
  futs_wf fs nc -> futs_wf (fs ++ [mkAcquireFut d rid v key nc Waiting]) (nc + 1).
Proof.
  intros [Hnd Hlt]. split.
  - rewrite fmap_app. apply NoDup_app. split_and!; [done | | apply NoDup_singleton].
    intros c (f & -> & Hf)%list_elem_of_fmap [E | ?]%elem_of_cons; [| set_solver].
    apply Hlt in Hf. simpl in E. lia.
  - intros f [Hf | ->%list_elem_of_singleton]%elem_of_app; [apply Hlt in Hf; lia | simpl; lia].
Qed.

Lemma rx_alive_snoc_eq fs d rid v key c c' :
  (c' =? c) || rx_alive fs c' = rx_alive (fs ++ [mkAcquireFut d rid v key c Waiting]) c'.
Proof.
  unfold rx_alive. rewrite existsb_app. simpl. rewrite (Z.eqb_sym c').
  destruct (c =? c'); simpl; [by rewrite orb_true_r | by rewrite orb_false_r].
Qed.

Lemma push_request_next inner v req :
  0 <= next_id inner -> next_id inner + 1 < 2 ^ 64 -> next_id (push_request inner v req) = next_id inner + 1.
Proof. intros. destruct v; simpl; apply u64_add_small; lia. Qed.

(** A key issued by [next_id] is new. *)
Lemma fresh_key (keys : list (string * Z)) (m : gmap string SlotInner) d inner inner' :
  NoDup keys -> (forall d i inner, (d, i) ∈ keys -> m !! d = Some inner -> i < next_id inner) ->
  m !! d = Some inner -> next_id inner' = next_id inner + 1 ->
  NoDup ((d, next_id inner) :: keys)
  /\ (forall d0 i i0, (d0, i) ∈ (d, next_id inner) :: keys -> <[d := inner']> m !! d0 = Some i0 -> i < next_id i0).
Proof.
  intros Hnd Hids Hl Hn. split.
  - apply NoDup_cons. split; [| done]. intros Hin. specialize (Hids _ _ _ Hin Hl). lia.
  - intros d0 i i0 Hin Hl0. destruct (decide (d0 = d)) as [-> | Hne].
    + rewrite lookup_insert_eq in Hl0. simplify_eq.
      apply elem_of_cons in Hin as [[= ->] | Hk]; [lia |]. specialize (Hids _ _ _ Hk Hl). lia.
    + rewrite lookup_insert_ne in Hl0 by done. apply elem_of_cons in Hin as [[= ->] | Hk]; [done | by eapply Hids].
Qed.

Lemma enqueue_held s d ctx vip alias key mdl now fc' rid gs :
  Held s -> width_ok (controller s) d ctx ->
  acquire_enqueue (fun c => (c =? next_chan s) || rx_alive (futs s) c) now (next_chan s)
      (controller s) d ctx vip alias key mdl = (fc', inr (rid, gs)) ->
  Held (mkSys fc' (wake gs <$> futs s ++ [mkAcquireFut d rid vip key (next_chan s) Waiting])
             (guards s) (next_chan s + 1)).
Proof.
  intros HH Hw H. pose proof (enqueue_owned _ _ _ _ _ _ _ _ _ _ _ (held_owned _ HH) Hw H) as HO'.
  pose proof HH as [[Hfs Hwf Ho] Hf Hg Hkeys Hids].
  apply acquire_enqueue_inv in H as (inner & inner' & Hl & -> & Hsl & Hd).
  destruct Hw as [Hc Hw]. specialize (Hw _ Hl) as (Hlen & Hsum & Hnid).
  set (req := mkQueuedRequest _ _ _ _ _ _ _ _) in *.
  pose proof (Hwf _ _ Hl) as Hwfi. pose proof Hwfi as (_ & _ & _ & Hn0).
  assert (slot_wf (push_request inner vip req)) as Hwf2 by (apply push_request_wf; simpl; auto).
  pose proof (futs_wf_snoc _ d (next_id inner) vip key _ Hfs) as Hfs2.
  pose proof (rx_alive_snoc_eq (futs s) d (next_id inner) vip key (next_chan s)) as Hal.
  assert (slot_owned (futs s ++ [mkAcquireFut d (next_id inner) vip key (next_chan s) Waiting]) (guards s) d
    (push_request inner vip req)) as Ho2 by (apply (slot_owned_push _ _ _ _ _ req); auto; by apply Ho).
  assert (next_id inner' = next_id inner + 1) as Hnid'.
  { destruct (dispatch_config _ _ _ _ _ Hd) as (_ & _ & ->). by apply push_request_next. }
  destruct (fresh_key _ _ _ _ inner' Hkeys Hids Hl Hnid') as [Hk1 Hk2].
  assert ((fut_id <$> (wake gs <$> futs s ++ [mkAcquireFut d (next_id inner) vip key (next_chan s) Waiting])) ++ (guard_id <$> guards s)
    ≡ₚ (d, next_id inner) :: (fut_id <$> futs s) ++ (guard_id <$> guards s)) as Hperm.
  { rewrite fut_id_wake, fmap_app, <- app_assoc. simpl. by rewrite <- Permutation_middle. }
  split; cbn [controller futs guards next_chan]; rewrite ?Hsl; [done | | | by rewrite Hperm |].
  - intros f (f0 & -> & Hf0)%list_elem_of_fmap. eapply fut_held_dispatch; [exact Hfs2 | exact Hal | exact Hwf2 | exact Ho2 | exact Hd | exact Hf0 |].
    apply elem_of_app in Hf0 as [Hf0 | ->%list_elem_of_singleton]; [by apply fut_held_push; auto | by apply push_held].
  - intros g Hg0. eapply guard_held_dispatch; [exact Hwf2 | exact Ho2 | exact Hd |]. by apply guard_held_push; auto.
  - intros d0 i i0 Hin. rewrite Hperm in Hin. by apply Hk2.
Qed.

Lemma next_id_same (m : gmap string SlotInner) d i' :
  m !! d = Some i' -> exists i, m !! d = Some i /\ next_id i <= next_id i'.
Proof. intros. exists i'. split; [done | lia]. Qed.

(** Removing the entry of an owner that goes away. *)
Lemma remove_at_owned fs gds fs' gds' d v rid inner idx r0 :
  slot_wf inner -> slot_owned fs gds d inner ->
  (forall f, f ∈ fs -> fut_key f <> (d, rid, v) -> f ∈ fs') ->
  (forall g, g ∈ gds -> guard_key g <> (d, rid, v) -> g ∈ gds') ->
  list_find (fun r => rq_id r = rid) (queue_of inner v) = Some (idx, r0) ->
  slot_owned fs' gds' d (remove_at inner v idx).
Proof.
  intros Hwf Ho Hf Hg Hfind. eapply (slot_owned_drop _ _ _ _ (d, rid, v)); [| done | done |].
  - eapply slot_owned_incl; [done |]. intros v' r Hr. by eapply remove_at_keys in Hr as [? _].
  - intros v' r Hr [= E1 E2]. eapply remove_at_keys in Hr as [_ Hne]; [| done | done]. by apply Hne.
Qed.

Lemma granted_held s l1 f l2 :
  Held s -> futs s = l1 ++ f :: l2 -> af_state f = Granted ->
  Held (mkSys (controller s) (l1 ++ l2) (guard_of f :: guards s) (next_chan s)).
Proof.
  intros HH Hf Hst. pose proof HH as [HO Hfh Hgh Hkeys Hids].
  eapply held_intro; [eapply granted_owned; eauto | | | exact Hkeys | exact Hids | | simpl; apply next_id_same].
  - simpl. intros f' Hf'. apply Hfh. rewrite Hf. apply elem_of_mid. by right.
  - simpl. intros g [-> | Hg]%elem_of_cons; [| by apply Hgh].
    destruct (Hfh f) as [_ [Hc | (i & r & Hl & Hr & Hid & Hd)]]; [rewrite Hf; apply elem_of_mid; by left | congruence |].
    exists i, r. split_and!; try done. destruct (dispatched r); [done |]. destruct Hd. congruence.
  - right. simpl. rewrite Hf. apply keys_move_fut.
Qed.

Lemma sender_dropped_held s l1 f l2 :
  Held s -> futs s = l1 ++ f :: l2 -> af_state f = Waiting ->
  (forall d inner r, slots (controller s) !! d = Some inner -> r ∈ all_requests inner -> grant r <> Some (af_chan f)) ->
  False.
Proof.
  intros [_ Hfh _ _ _] Hf Hst Hno.
  destruct (Hfh f) as [_ [Hc | (i & r & Hl & Hr & Hid & Hd)]]; [rewrite Hf; apply elem_of_mid; by left | congruence |].
  destruct (dispatched r); [congruence |]. eapply Hno; [done | | apply Hd]. apply elem_of_all_requests. eauto.
Qed.

Lemma timeout_held s l1 f l2 fc' res :
  Held s -> futs s = l1 ++ f :: l2 -> af_state f = Waiting ->
  acquire_timeout (controller s) (af_deployment f) (af_request f) (af_vip f) (af_key_hash f) = (fc', res) ->
  Held (mkSys fc' (l1 ++ l2) (match res with inr _ => [guard_of f] | inl _ => [] end ++ guards s) (next_chan s)).
Proof.
  intros HH Hf Hst H. pose proof HH as [HO Hfh Hgh Hkeys Hids].
  pose proof (timeout_owned _ _ _ _ _ _ HO Hf (or_introl Hst) H) as HO'.
  apply acquire_timeout_inv in H.
  destruct (Hfh f) as [_ [Hc | (i & r & Hl & Hr & Hid & Hd)]]; [rewrite Hf; apply elem_of_mid; by left | congruence |].
  assert (dispatched r = false) as Hdr by (destruct (dispatched r); [congruence | done]).
  pose proof (owned_wf _ HO _ _ Hl) as Hwf. rewrite Hf in Hkeys.
  pose proof (keys_mid_fut _ _ _ _ Hkeys) as [Hkf Hkg].
  destruct res as [e | u]; simpl in *.
  2: { destruct H as [_ (i' & Hl' & Hall)]. simplify_eq.
       pose proof (Hall r Hr Hid (queue_ids_NoDup _ _ Hwf)). congruence. }
  destruct H as [[Hn _] | (i' & idx & r' & Hl' & _ & Hfind & E)]; [congruence |]. simplify_eq.
  eapply held_intro; [exact HO' | | | exact Hkeys | rewrite <- Hf; exact Hids | left; simpl; apply keys_drop_fut |];
    simpl; rewrite E.
  - intros f' Hf'. eapply fut_held_remove; eauto.
    apply Hfh. rewrite Hf. apply elem_of_mid. by right.
  - intros g Hg. eapply guard_held_remove; eauto.
  - eapply next_id_insert; [done |]. unfold remove_at. by destruct (af_vip f).
Qed.

Lemma cancel_held s l1 f l2 :
  Held s -> futs s = l1 ++ f :: l2 -> af_state f = Waiting \/ af_state f = Granted ->
  Held (mkSys (controller s) (l1 ++ set_state Cancelled f :: l2) (guards s) (next_chan s)).
Proof.
  intros HH Hf Hst. pose proof HH as [HO Hfh Hgh Hkeys Hids].
  eapply held_intro; [eapply state_owned; eauto; tauto | | done | exact Hkeys | exact Hids | | simpl; apply next_id_same].
  - simpl. intros f' [-> | Hf']%elem_of_mid; [split; [done | by left] |]. apply Hfh. rewrite Hf. apply elem_of_mid. by right.
  - left. simpl. rewrite Hf, !fmap_app. done.
Qed.

Lemma cleanup_held s l1 f l2 now fc' gs :
  Held s -> futs s = l1 ++ f :: l2 -> af_state f = Cancelled ->
  cleanup_drop (rx_alive (l1 ++ l2)) now (controller s) (af_deployment f) (af_request f)
      (af_vip f) (af_key_hash f) = (fc', gs) ->
  Held (mkSys fc' (wake gs <$> l1 ++ l2) (guards s) (next_chan s)).
Proof.
  intros HH Hf Hst H. pose proof HH as [HO Hfh Hgh Hkeys Hids].
  pose proof (cleanup_owned _ _ _ _ _ _ _ HO Hf H) as HO'. rewrite Hf in Hkeys.
  pose proof (keys_mid_fut _ _ _ _ Hkeys) as [Hkf Hkg]. pose proof HO as [Hfs Hwf Ho].
  assert (forall f', f' ∈ l1 ++ l2 -> f' ∈ futs s) as Hin by (intros; rewrite Hf; apply elem_of_mid; by right).
  apply cleanup_drop_inv in H as [(Hn & -> & ->) | (inner & inner' & Hl & Hr & E)].
  - rewrite wake_nil in *. eapply held_intro; [exact HO' | | done | exact Hkeys | rewrite <- Hf; exact Hids | left; apply keys_drop_fut | simpl; apply next_id_same].
    simpl. auto.
  - edestruct (release_held (l1 ++ l2) (guards s) (next_chan s)) as (Hnx & Hf' & Hg');
      [rewrite Hf in Hfs; by eapply futs_wf_app | done | by apply (Hwf _ _ Hl) | exact Hl | exact Hr | | | |].
    + intros idx r0 Hfind. eapply (remove_at_owned (futs s) (guards s)); [by apply (Hwf _ _ Hl) | by apply Ho | | done | done].
      rewrite Hf. by apply drop_fut_incl.
    + intros f' Hf'. split; [by apply Hfh, Hin | by apply Hkf].
    + intros g Hg. split; [by apply Hgh | by apply Hkg].
    + eapply held_intro; [exact HO' | simpl; by rewrite E | simpl; by rewrite E | exact Hkeys | rewrite <- Hf; exact Hids | |]; simpl.
      * left. rewrite fut_id_wake. apply keys_drop_fut.
      * rewrite E. apply (next_id_insert _ _ inner); [done | lia].
Qed.

Lemma guard_drop_held s l1 g l2 now fc' gs :
  Held s -> guards s = l1 ++ g :: l2 ->
  guard_drop (rx_alive (futs s)) now (controller s) (g_deployment g) (g_request g)
      (g_vip g) (g_key_hash g) = (fc', gs) ->
  Held (mkSys fc' (wake gs <$> futs s) (l1 ++ l2) (next_chan s)).
Proof.
  intros HH Hg H. pose proof HH as [HO Hfh Hgh Hkeys Hids].
  pose proof (guard_drop_owned _ _ _ _ _ _ _ HO Hg H) as HO'. rewrite Hg in Hkeys.
  pose proof (keys_mid_guard _ _ _ _ Hkeys) as [Hkf Hkg]. pose proof HO as [Hfs Hwf Ho].
  assert (forall g', g' ∈ l1 ++ l2 -> g' ∈ guards s) as Hin by (intros; rewrite Hg; apply elem_of_mid; by right).
  assert ((fut_id <$> futs s) ++ (guard_id <$> l1 ++ l2) `sublist_of` (fut_id <$> futs s) ++ (guard_id <$> l1 ++ g :: l2)) as Hsub.
  { apply sublist_app; [done |]. apply fmap_sublist, sublist_app; [done |]. by constructor. }
  apply guard_drop_inv in H as [(Hn & E & ->) | (inner & inner' & Hl & Hr & E)].
  - rewrite wake_nil in *. eapply held_intro;
      [exact HO' | simpl; by rewrite E | simpl; rewrite E; auto | exact Hkeys | rewrite <- Hg; exact Hids | by left | simpl; rewrite E; apply next_id_same].
  - edestruct (release_held (futs s) (l1 ++ l2) (next_chan s)) as (Hnx & Hf' & Hg');
      [exact Hfs | done | by apply (Hwf _ _ Hl) | exact Hl | exact Hr | | | |].
    + intros idx r0 Hfind. eapply (remove_at_owned (futs s) (guards s)); [by apply (Hwf _ _ Hl) | by apply Ho | done | | done].
      rewrite Hg. intros g' [-> | ?]%elem_of_mid ?; done.
    + intros f' Hf'. split; [by apply Hfh | by apply Hkf].
    + intros g' Hg'. split; [by apply Hgh, Hin | by apply Hkg].
    + eapply held_intro; [exact HO' | simpl; by rewrite E | simpl; by rewrite E | exact Hkeys | rewrite <- Hg; exact Hids | |]; simpl.
      * left. by rewrite fut_id_wake.
      * rewrite E. apply (next_id_insert _ _ inner); [done | lia].
Qed.

Lemma periodic_held s d now fc' gs :
  Held s -> dispatch_slot (rx_alive (futs s)) now (controller s) d = (fc', gs) ->
  Held (mkSys fc' (wake gs <$> futs s) (guards s) (next_chan s)).
Proof.
  intros HH H. pose proof HH as [HO Hfh Hgh Hkeys Hids].
  pose proof (periodic_owned _ _ _ _ _ HO H) as HO'. pose proof HO as [Hfs Hwf Ho]. unfold dispatch_slot in H.
  destruct (slots (controller s) !! d) as [inner |] eqn:Hl; [| by simplify_eq; rewrite wake_nil in *; destruct s].
  pose proof (dispatch_is_spec (rx_alive (futs s)) now inner) as Hd.
  destruct (dispatch _ _ _) as [inner' gs'] eqn:Ed. simplify_eq/=.
  pose proof (insert_id _ _ _ Hl) as Ei.
  eapply held_intro; [exact HO' | | | exact Hkeys | exact Hids | left; simpl; by rewrite fut_id_wake |]; simpl.
  - intros f (f0 & -> & Hf0)%list_elem_of_fmap. eapply fut_held_dispatch;
      [exact Hfs | done | by apply (Hwf _ _ Hl) | by apply Ho | exact Hd | exact Hf0 | rewrite Ei; auto].
  - intros g Hg. eapply guard_held_dispatch; [by apply (Hwf _ _ Hl) | by apply Ho | exact Hd | rewrite Ei; auto].
  - destruct (dispatch_config _ _ _ _ _ Hd) as (_ & _ & Hn). apply (next_id_insert _ _ inner); [done | lia].
Qed.

Lemma run_held s s' : Held s -> run_step true s s' -> Held s'.
Proof.
  intros HO H. destruct H.
  - eapply enqueue_held; eauto.
  - by eapply granted_held.
  - by exfalso; eapply sender_dropped_held.
  - done.
  - by eapply timeout_held.
  - by eapply cancel_held.
  - by eapply cleanup_held.
  - by eapply guard_drop_held.
  - by eapply periodic_held.
Qed.

Definition guards_of (d : string) (gds : list Guard) : list Guard :=
  retain (fun g => bool_decide (g_deployment g = d)) gds.

Lemma guards_of_elem d gds g : g ∈ guards_of d gds <-> g_deployment g = d /\ g ∈ gds.
Proof. unfold guards_of. by rewrite elem_of_retain, bool_decide_eq_true. Qed.

(** The guards of a deployment hold distinct dispatched entries of its slot. *)
Lemma guards_counted gds (m : gmap string SlotInner) d inner :
  m !! d = Some inner -> NoDup (guard_id <$> gds) -> (forall g, g ∈ gds -> guard_held m g) ->
  Z.of_nat (length (guards_of d gds)) <= inflight_count (all_requests inner).
Proof.
  intros Hl Hnd Hh. unfold inflight_count.
  assert (NoDup (guard_id <$> guards_of d gds)) as Hn.
  { eapply sublist_NoDup; [exact Hnd |]. apply fmap_sublist, sublist_filter. }
  assert (guard_id <$> guards_of d gds = pair d <$> (g_request <$> guards_of d gds)) as E.
  { rewrite <- list_fmap_compose. apply list_fmap_ext. intros i g Hg%list_elem_of_lookup_2.
    apply guards_of_elem in Hg as [<- _]. done. }
  rewrite E in Hn. apply NoDup_fmap_1 in Hn.
  assert ((g_request <$> guards_of d gds) ⊆+ (rq_id <$> retain dispatched (all_requests inner))) as Hs.
  { apply NoDup_submseteq; [done |]. intros i (g & -> & [Ed Hg]%guards_of_elem)%list_elem_of_fmap.
    destruct (Hh _ Hg) as (inner' & r & Hl' & Hr & <- & Hd). rewrite Ed in Hl'. simplify_eq.
    apply list_elem_of_fmap. exists r. split; [done |]. apply elem_of_retain. split; [done |].
    apply elem_of_all_requests. eauto. }
  apply submseteq_length in Hs. rewrite !length_fmap in Hs. lia.
Qed.

Lemma configured_held s : reachable admin_step init_sys s -> Held s.
Proof.
  intros Hr. pose proof (configured_reachable _ Hr) as (Hf & Hg & _).
  split; rewrite ?Hf, ?Hg; [by apply admin_reachable_owned | set_solver | set_solver | constructor |].
  intros d i inner Hin. simpl in Hin. set_solver.
Qed.

Lemma reachable_held_within s0 s :
  reachable admin_step init_sys s0 -> reachable (run_step true) s0 s -> Held s /\ Within s.
Proof.
  intros H0. apply (reachable_invariant _ (fun s => Held s /\ Within s)).
  - split; [by apply configured_held | by apply configured_within, configured_reachable].
  - intros ? ? [HH ?] ?. split; [by eapply run_held | by eapply run_within; [apply HH | |]].
Qed.

(** ** Properties *)

(** C5: no leak. In every state the gateway can reach, whatever the interleaving
    of requests, grants, timeouts, disconnections and reconfigurations, every
    entry of every queue belongs to a live [acquire] future or a live guard:
    once no request is in progress, all the queues are empty and the in-flight
    counters are zero. *)
Theorem no_slot_leak s :
  reachable any_step init_sys s ->
  (forall d inner v r, slots (controller s) !! d = Some inner -> r ∈ queue_of inner v ->
     (exists f, f ∈ futs s /\ fut_key f = (d, rq_id r, v)) \/ (exists g, g ∈ guards s /\ guard_key g = (d, rq_id r, v)))
  /\ (futs s = [] -> guards s = [] ->
      forall d inner, slots (controller s) !! d = Some inner ->
        all_requests inner = [] /\ inflight_stats inner = (0, 0)).
Proof.
  intros [_ _ Ho]%reachable_owned.
  assert (forall d inner v r, slots (controller s) !! d = Some inner -> r ∈ queue_of inner v ->
     (exists f, f ∈ futs s /\ fut_key f = (d, rq_id r, v)) \/ (exists g, g ∈ guards s /\ guard_key g = (d, rq_id r, v))) as Hown.
  { intros d inner v r Hl Hr. pose proof (Ho _ _ Hl _ _ Hr) as He. unfold entry_ok in He.
    destruct (dispatched r).
    - destruct He as [(f & ? & ? & _) | ?]; eauto.
    - destruct He as (c & _ & f & ? & ? & _). eauto. }
  split; [done |]. intros Hf Hg d inner Hl.
  assert (all_requests inner = []) as E.
  { apply elem_of_nil_inv. intros r (v & Hr)%elem_of_all_requests.
    destruct (Hown _ _ _ _ Hl Hr) as [(f & Hin & _) | (g & Hin & _)]; [rewrite Hf in Hin | rewrite Hg in Hin]; set_solver. }
  split; [done |]. unfold inflight_stats. by rewrite E.
Qed.

(** C6: the limits hold.  From any configuration, in every state a run of the
    gateway reaches (no reconfiguration during the run), a slot never has more
    than [max_inflight] dispatched requests, nor more than [max_context] context
    characters in flight, as [inflight_stats] reports them. *)
Theorem limits_respected s0 s d inner :
  reachable admin_step init_sys s0 -> reachable (run_step false) s0 s ->
  slots (controller s) !! d = Some inner ->
  (0 < max_inflight inner -> (inflight_stats inner).1 <= max_inflight inner)
  /\ (0 < max_context inner -> (inflight_stats inner).2 <= max_context inner).
Proof.
  intros H0 Hr Hl.
  assert (Owned s /\ Within s) as [HO HW].
  { revert Hr. apply (reachable_invariant _ (fun s => Owned s /\ Within s)).
    - split; [by apply admin_reachable_owned | by apply configured_within, configured_reachable].
    - intros ? ? [? ?] ?. split; [by eapply run_owned | by eapply run_within]. }
  pose proof (owned_wf _ HO _ _ Hl) as (_ & _ & Hsm & _). rewrite (inflight_stats_small _ Hsm).
  exact (HW _ _ Hl).
Qed.

(** With the timer and the lock of [acquire] in one step, admission is exact.
    In every run from a configured gateway, the callers holding a guard of a
    deployment number at most its [max_inflight], every guard holds its own
    dispatched entry, and no [acquire] fails with a dropped sender. *)
Theorem atomic_admission s0 s d inner :
  reachable admin_step init_sys s0 -> reachable (run_step true) s0 s ->
  slots (controller s) !! d = Some inner ->
  (0 < max_inflight inner -> Z.of_nat (length (guards_of d (guards s))) <= max_inflight inner)
  /\ Z.of_nat (length (guards_of d (guards s))) <= inflight_count (all_requests inner)
  /\ (forall f, f ∈ futs s -> af_state f = Waiting ->
        exists inner r, slots (controller s) !! af_deployment f = Some inner
          /\ r ∈ queue_of inner (af_vip f) /\ grant r = Some (af_chan f) /\ dispatched r = false).
Proof.
  intros H0 Hr Hl. destruct (reachable_held_within _ _ H0 Hr) as [[HO Hfh Hgh Hkeys _] HW].
  assert (Z.of_nat (length (guards_of d (guards s))) <= inflight_count (all_requests inner)) as Hc.
  { eapply guards_counted; [done | | done]. by apply NoDup_app in Hkeys as (_ & _ & ?). }
  split_and!; [| done |].
  - intros Hm. destruct (HW _ _ Hl) as [Hi _]. specialize (Hi Hm). lia.
  - intros f Hf Hst. destruct (Hfh f Hf) as [_ [? | (i & r & ? & ? & _ & Hs)]]; [congruence |].
    exists i, r. destruct (dispatched r); [congruence |]. tauto.
Qed.

(** *** Two executions that admit more than the limit *)

Ltac width_check :=
  split; [lia | let i := fresh "i" in let H := fresh "H" in
    intros i H; vm_compute in H; injection H as <-; vm_compute; split_and!; done].

(** C16: the timeout race.  Between the timer of [acquire] (which drops the
    receiver) and its lock, the dispatcher may fail to send to the timed-out
    request and remove it; [acquire] then finds no entry, takes this for "already
    dispatched" and returns a guard.  From a slot with [max_inflight = 1] a run
    reaches a state with two admitted requests for the deployment. *)
Theorem timeout_race_over_admission :
  exists s0 s inner, reachable admin_step init_sys s0 /\ reachable (run_step false) s0 s
    /\ slots (controller s) !! "d" = Some inner /\ max_inflight inner = 1
    /\ length (guards_of "d" (guards s)) = 2%nat.
Proof.
  eexists _, _, _. split.
  { eapply rtc_l; [apply (as_ensure _ "d" (mkFlowControlConfig 1 0)) | apply rtc_refl]. }
  split.
  { eapply rtc_l; [eapply (rs_enqueue _ _ "d" 10 false None None None 0); [width_check | vm_compute; reflexivity] | cbn].
    eapply rtc_l; [eapply (rs_granted _ _ [] _ []); reflexivity | cbn].
    eapply rtc_l; [eapply (rs_enqueue _ _ "d" 10 false None None None 0); [width_check | vm_compute; reflexivity] | cbn].
    eapply rtc_l; [eapply (rs_timeout_fire _ _ [] _ []); reflexivity | cbn].
    eapply rtc_l; [eapply (rs_guard_drop _ _ [] _ [] 0); [reflexivity | vm_compute; reflexivity] | cbn].
    eapply rtc_l; [eapply (rs_enqueue _ _ "d" 10 false None None None 0); [width_check | vm_compute; reflexivity] | cbn].
    eapply rtc_l; [eapply (rs_granted _ _ [_] _ []); reflexivity | cbn].
    eapply rtc_l; [eapply (rs_timeout _ _ [] _ []); [reflexivity | reflexivity | vm_compute; reflexivity] | cbn].
    apply rtc_refl. }
  vm_compute. done.
Qed.

(** A slot that is removed and re-created restarts its request ids, so the
    guard of a request of the old slot removes an entry of the new one.  With
    [remove_slot] and [ensure_slot] between two requests of a deployment with
    [max_inflight = 1], a run (even without the timeout gap) reaches two admitted
    requests. *)
Theorem recreated_slot_over_admission :
  exists s inner, reachable (fun s s' => run_step true s s' \/ admin_step s s') init_sys s
    /\ slots (controller s) !! "d" = Some inner /\ max_inflight inner = 1
    /\ length (guards_of "d" (guards s)) = 2%nat.
Proof.
  eexists _, _. split.
  { eapply rtc_l; [right; apply (as_ensure _ "d" (mkFlowControlConfig 1 0)) | cbn].
    eapply rtc_l; [left; eapply (rs_enqueue _ _ "d" 10 false None None None 0); [width_check | vm_compute; reflexivity] | cbn].
    eapply rtc_l; [left; eapply (rs_granted _ _ [] _ []); reflexivity | cbn].
    eapply rtc_l; [right; apply (as_remove _ "d") | cbn].
    eapply rtc_l; [right; apply (as_ensure _ "d" (mkFlowControlConfig 1 0)) | cbn].
    eapply rtc_l; [left; eapply (rs_enqueue _ _ "d" 10 false None None None 0); [width_check | vm_compute; reflexivity] | cbn].
    eapply rtc_l; [left; eapply (rs_granted _ _ [] _ []); reflexivity | cbn].
    eapply rtc_l; [left; eapply (rs_guard_drop _ _ [_] _ [] 0); [reflexivity | vm_compute; reflexivity] | cbn].
    eapply rtc_l; [left; eapply (rs_enqueue _ _ "d" 10 false None None None 0); [width_check | vm_compute; reflexivity] | cbn].
    eapply rtc_l; [left; eapply (rs_granted _ _ [] _ []); reflexivity | cbn].
    apply rtc_refl. }
  vm_compute. done.
Qed.

(** *** Witnesses: a gateway with one deployment and one request in flight *)

Definition demo_configured : Sys := mkSys (ensure_slot new_controller "d" (mkFlowControlConfig 1 0)) [] [] 0.
Definition demo_running : Sys :=
  let '(fc', _) := acquire_enqueue (fun c => (c =? 0) || rx_alive [] c) 0 0 (controller demo_configured)
                     "d" 10 false None None None in
  mkSys fc' (wake [0] <$> [mkAcquireFut "d" 0 false None 0 Waiting]) [] 1.
Definition demo_slot : SlotInner :=
  mkSlotInner 1 0 [] [mkQueuedRequest 0 10 None None 0 (Some 0) true None] 1.

Lemma demo_configure : reachable admin_step init_sys demo_configured.
Proof. eapply rtc_l; [apply (as_ensure _ "d" (mkFlowControlConfig 1 0)) | apply rtc_refl]. Qed.

Lemma demo_run atomic : reachable (run_step atomic) demo_configured demo_running.
Proof.
  eapply rtc_l; [| apply rtc_refl].
  eapply (rs_enqueue atomic demo_configured "d" 10 false None None None 0 _ 0 [0]); [width_check | vm_compute; reflexivity].
Qed.

Lemma demo_any : reachable any_step init_sys demo_running.
Proof.
  eapply rtc_l; [right; apply (as_ensure _ "d" (mkFlowControlConfig 1 0)) |].
  eapply rtc_l; [left | apply rtc_refl].
  eapply (rs_enqueue false demo_configured "d" 10 false None None None 0 _ 0 [0]); [width_check | vm_compute; reflexivity].
Qed.

Lemma no_slot_leak_witness :
  (exists f, f ∈ futs demo_running /\ fut_key f = ("d", 0, false))
  \/ (exists g, g ∈ guards demo_running /\ guard_key g = ("d", 0, false)).
Proof.
  refine (proj1 (no_slot_leak demo_running demo_any) "d" demo_slot false
    (mkQueuedRequest 0 10 None None 0 (Some 0) true None) _ _); [vm_compute; reflexivity |].
  apply elem_of_cons; by left.
Defined.

Lemma limits_respected_witness : (inflight_stats demo_slot).1 <= 1.
Proof.
  refine (proj1 (limits_respected demo_configured demo_running "d" demo_slot demo_configure (demo_run false) _) _);
    vm_compute; reflexivity.
Defined.

Lemma atomic_admission_witness : Z.of_nat (length (guards_of "d" (guards demo_running))) <= 1.
Proof.
  refine (proj1 (atomic_admission demo_configured demo_running "d" demo_slot demo_configure (demo_run true) _) _);
    vm_compute; reflexivity.
Defined.

End FlowSystem.
