(* ===== verification/Core.v ===== *)
(** * Core: the shared vocabulary (boom-core)

    Models the types of [boom-gateway/boom-core/src/types.rs] that the limiter,
    the scheduler and the authenticator exchange, and the error type of
    [boom-core/src/error.rs] with its classifications.  [rust_decimal::Decimal] is
    a third-party type: its operations are the class [DecimalOps]. *)

From S2P Require Import Prelude.
From stdpp Require Import pretty.
#[global] Open Scope Z_scope.

(** ** Decimals (rust_decimal) *)

(** What the gateway uses of [Decimal]: arithmetic, comparison with zero, and the
    conversions from and to [u64]. *)
Class DecimalOps (D : Type) := {
  dec_zero : D;
  dec_is_zero : D -> bool;
  dec_add : D -> D -> D;
  dec_mul : D -> D -> D;
  dec_div : D -> D -> D;
  dec_from_u64 : Z -> D;
  dec_to_u64 : D -> option Z;
  dec_show : D -> string;
}.

(** [Decimal] kept as whole numbers: an instance for the examples. *)
Definition whole_decimal : DecimalOps Z := {|
  dec_zero := 0;
  dec_is_zero := Z.eqb 0;
  dec_add := Z.add;
  dec_mul := Z.mul;
  dec_div := Z.div;
  dec_from_u64 := fun z => z;
  dec_to_u64 := fun z => if (0 <=? z) && (z <? 2 ^ 64) then Some z else None;
  dec_show := fun z => pretty z;
|}.

Module Core.

(** ** Rate-limit types *)

Inductive PlanType := PlanKey | PlanTeam.

#[export] Instance PlanType_eq_dec : EqDecision PlanType.
Proof. solve_decision. Defined.

Record RateLimitKey := mkRateLimitKey { key_hash : string; rl_model : string }.

#[export] Instance RateLimitKey_eq_dec : EqDecision RateLimitKey.
Proof. solve_decision. Defined.

Inductive LimitDimension := Counts | Tokens | Costs.

#[export] Instance LimitDimension_eq_dec : EqDecision LimitDimension.
Proof. solve_decision. Defined.

(** [reset_at] is in seconds since the epoch. *)
Record RateLimitDecision := mkRateLimitDecision {
  allowed : bool;
  remaining : Z;
  limit : Z;
  reset_at : Z;
  retry_after_secs : option Z;
  rejected_window_secs : option Z;
  rejected_kind : option LimitDimension;
}.

Record WindowLimit {D : Type} := mkWindowLimit {
  wl_counts : option Z;
  wl_tokens : option Z;
  wl_costs : option D;
  window_secs : Z;
}.
#[global] Arguments WindowLimit : clear implicits.
#[global] Arguments mkWindowLimit {D}.

Definition is_none {A} (o : option A) : bool := match o with None => true | Some _ => false end.

Definition is_empty {D} (w : WindowLimit D) : bool :=
  is_none (wl_counts w) && is_none (wl_tokens w) && is_none (wl_costs w).

Definition default_window {D} : WindowLimit D := mkWindowLimit None None None 60.

(** ** Providers *)

(** What the router asks a [dyn Provider] for. *)
Record Provider := mkProvider {
  p_name : string;
  p_deployment_id : option string;
  p_kv_worker_id : option string;
}.

#[export] Instance Provider_eq_dec : EqDecision Provider.
Proof. solve_decision. Defined.

(** ** Errors *)

Inductive GatewayError :=
| AuthError (msg : string)
| RateLimitExceeded (retry_after : option Z) (message limit_type : string)
    (scope scope_id plan_name : option string)
| ConcurrencyExceeded (limit : Z) (message : string)
| ModelNotFound (m : string)
| ProviderError (msg : string)
| BudgetExceeded
| ConfigError (msg : string)
| KeyExpired
| KeyBlocked
| ModelNotAllowed (m : string)
| UpstreamTimeout
| UpstreamError (status : Z) (message : string)
| NotSupported (msg : string)
| UnsupportedMode (msg : string)
| FlowControlQueueTimeout (deployment_id : string) (waiters : Z) (message : string)
| InternalError (msg : string).

Definition status_code (e : GatewayError) : Z :=
  match e with
  | AuthError _ => 401
  | RateLimitExceeded _ _ _ _ _ _ | ConcurrencyExceeded _ _ => 429
  | ModelNotFound _ => 404
  | ProviderError _ => 502
  | BudgetExceeded => 402
  | ConfigError _ => 500
  | KeyExpired => 401
  | KeyBlocked => 403
  | ModelNotAllowed _ => 403
  | UpstreamTimeout => 504
  | UpstreamError _ _ => 502
  | NotSupported _ => 404
  | UnsupportedMode _ => 400
  | FlowControlQueueTimeout _ _ _ => 503
  | InternalError _ => 500
  end.

Definition should_log_to_db (e : GatewayError) : bool :=
  match e with
  | RateLimitExceeded _ _ _ _ _ _ | ConcurrencyExceeded _ _ | BudgetExceeded
  | FlowControlQueueTimeout _ _ _ => false
  | _ => true
  end.

Definition should_dedup_log (e : GatewayError) : bool :=
  match e with
  | RateLimitExceeded _ _ _ _ _ _ | ConcurrencyExceeded _ _ | BudgetExceeded
  | FlowControlQueueTimeout _ _ _ | ModelNotFound _ | ModelNotAllowed _ | KeyExpired | KeyBlocked => true
  | _ => false
  end.

Definition is_deployment_failure (e : GatewayError) : bool :=
  match e with
  | ProviderError _ => true
  | UpstreamError status _ => (status =? 401) || (status =? 403)
  | _ => false
  end.

Definition error_type (e : GatewayError) : string :=
  match e with
  | AuthError _ => "authentication_error"
  | RateLimitExceeded _ _ limit_type _ _ _ => limit_type
  | ConcurrencyExceeded _ _ => "concurrency_exceeded"
  | ModelNotFound _ => "model_not_found"
  | BudgetExceeded => "budget_exceeded"
  | KeyExpired => "key_expired"
  | KeyBlocked => "key_blocked"
  | ModelNotAllowed _ => "model_not_allowed"
  | UpstreamTimeout => "timeout"
  | UpstreamError _ _ => "upstream_error"
  | NotSupported _ => "not_supported"
  | UnsupportedMode _ => "unsupported_mode_error"
  | ProviderError _ => "provider_error"
  | FlowControlQueueTimeout _ _ _ => "flow_control_timeout"
  | ConfigError _ | InternalError _ => "internal_error"
  end.

(** ** Properties of the error classification *)

(** Errors are classified consistently.  Whatever stays out of the log
    database is deduplicated; what is deduplicated is a client error (4xx) or a
    queue timeout (503); a deployment failure is an upstream error (502), always
    logged in full. *)
Theorem error_classes e :
  (should_log_to_db e = false -> should_dedup_log e = true)
  /\ (should_dedup_log e = true -> 400 <= status_code e < 500 \/ status_code e = 503)
  /\ (is_deployment_failure e = true ->
      status_code e = 502 /\ should_log_to_db e = true /\ should_dedup_log e = false).
Proof. destruct e; simpl; split_and!; intros; try discriminate; auto; lia. Qed.

End Core.
