(* ===== verification/Text.v ===== *)
(** * Text: the string operations of the Rust standard library that the gateway uses

    [str::starts_with], [strip_prefix], [split_once], [rsplit_once], [contains], [trim]
    (Unicode white space, in UTF-8), [u64]'s [Display] and [FromStr], ASCII case folding,
    and their laws: what the composite keys of the limiter, the schedule parser and the
    parsers of the configuration rely on. *)

From S2P Require Import Prelude.
From stdpp Require Export pretty.
From Stdlib Require Export Ascii.

#[local] Open Scope string_scope.
#[global] Open Scope Z_scope.

(** ** Prefixes *)

Fixpoint strip_prefix (p s : string) : option string :=
  match p, s with
  | EmptyString, _ => Some s
  | String a p', String b s' => if Ascii.eqb a b then strip_prefix p' s' else None
  | String _ _, EmptyString => None
  end.

Definition starts_with (p s : string) : bool :=
  match strip_prefix p s with Some _ => true | None => false end.

Lemma append_cons a s t : String a s +:+ t = String a (s +:+ t).
Proof. done. Qed.
Lemma append_nil t : "" +:+ t = t.
Proof. done. Qed.

Lemma append_nil_r s : s +:+ "" = s.
Proof. induction s as [| a s IH]; [done |]. by rewrite append_cons, IH. Qed.
Lemma length_append s t : String.length (s +:+ t) = (String.length s + String.length t)%nat.
Proof. induction s as [| a s IH]; [done |]. rewrite append_cons. cbn. by rewrite IH. Qed.

Lemma append_assoc s1 s2 s3 : (s1 +:+ s2) +:+ s3 = s1 +:+ (s2 +:+ s3).
Proof. induction s1 as [| a s1 IH]; [done |]. by rewrite !append_cons, IH. Qed.

Lemma strip_prefix_app p s : strip_prefix p (p +:+ s) = Some s.
Proof. induction p as [| a p IH]; [done |]. rewrite append_cons. simpl. by rewrite Ascii.eqb_refl. Qed.

Lemma strip_prefix_spec p s t : strip_prefix p s = Some t <-> s = p +:+ t.
Proof.
  split; [| intros ->; apply strip_prefix_app].
  revert s. induction p as [| a p IH]; intros [| b s]; simpl; intros H; simplify_eq; try done.
  destruct (Ascii.eqb_spec a b) as [-> |]; [| done]. rewrite append_cons. f_equal. by apply IH.
Qed.

Lemma starts_with_spec p s : starts_with p s = true <-> exists t, s = p +:+ t.
Proof.
  unfold starts_with. destruct (strip_prefix p s) as [t |] eqn:E.
  - apply strip_prefix_spec in E. split; eauto.
  - split; [done |]. intros [t H]. apply strip_prefix_spec in H. congruence.
Qed.

(** ** Splitting at a character *)

Fixpoint split_once (c : ascii) (s : string) : option (string * string) :=
  match s with
  | EmptyString => None
  | String a s' =>
    if Ascii.eqb a c then Some (EmptyString, s')
    else match split_once c s' with Some (l, r) => Some (String a l, r) | None => None end
  end.

Fixpoint rsplit_once (c : ascii) (s : string) : option (string * string) :=
  match s with
  | EmptyString => None
  | String a s' =>
    match rsplit_once c s' with
    | Some (l, r) => Some (String a l, r)
    | None => if Ascii.eqb a c then Some (EmptyString, s') else None
    end
  end.

(** [s.split(c).next()]: what precedes the first [c]. *)
Definition split_first (c : ascii) (s : string) : string :=
  match split_once c s with Some (l, _) => l | None => s end.

Fixpoint has_char (c : ascii) (s : string) : bool :=
  match s with EmptyString => false | String a s' => Ascii.eqb a c || has_char c s' end.

Lemma split_once_app c l r : has_char c l = false -> split_once c (l +:+ String c r) = Some (l, r).
Proof.
  induction l as [| a l IH]; rewrite ?append_cons; simpl.
  - by rewrite Ascii.eqb_refl.
  - intros [Ha Hl]%orb_false_iff. by rewrite Ha, IH.
Qed.

Lemma rsplit_once_none c s : has_char c s = false -> rsplit_once c s = None.
Proof.
  induction s as [| a s IH]; simpl; [done |]. intros [Ha Hs]%orb_false_iff. by rewrite IH, Ha.
Qed.

Lemma rsplit_once_app c l r : has_char c r = false -> rsplit_once c (l +:+ String c r) = Some (l, r).
Proof.
  intros Hr. induction l as [| a l IH]; rewrite ?append_cons; simpl.
  - by rewrite rsplit_once_none, Ascii.eqb_refl.
  - by rewrite IH.
Qed.

Lemma app_split_inj c l r l' r' :
  has_char c l = false -> has_char c l' = false -> l +:+ String c r = l' +:+ String c r' -> l = l' /\ r = r'.
Proof.
  intros H1 H2 E. pose proof (split_once_app c l r H1) as E1. rewrite E, split_once_app in E1 by done. by simplify_eq.
Qed.

Lemma app_rsplit_inj c l r l' r' :
  has_char c r = false -> has_char c r' = false -> l +:+ String c r = l' +:+ String c r' -> l = l' /\ r = r'.
Proof.
  intros H1 H2 E. pose proof (rsplit_once_app c l r H1) as E1. rewrite E, rsplit_once_app in E1 by done. by simplify_eq.
Qed.

(** ** Decimal numerals *)

(** [format!("{}", n)] for [n : u64]. *)
Definition show (n : Z) : string := pretty (Z.to_N n).

Definition digit_value (a : ascii) : option Z :=
  let v := Z.of_N (N_of_ascii a) - 48 in if (0 <=? v) && (v <=? 9) then Some v else None.

(** [str::parse] for an unsigned type of maximum [max]: an optional [+], then
    decimal digits, no overflow. *)
Fixpoint parse_digits (max acc : Z) (s : string) : option Z :=
  match s with
  | EmptyString => Some acc
  | String a s' =>
    match digit_value a with
    | Some d => if acc * 10 + d <=? max then parse_digits max (acc * 10 + d) s' else None
    | None => None
    end
  end.

Definition parse_uint (max : Z) (s : string) : option Z :=
  match s with
  | EmptyString => None
  | String "+" EmptyString => None
  | String "+" s' => parse_digits max 0 s'
  | _ => parse_digits max 0 s
  end.

Definition parse_u64 : string -> option Z := parse_uint u64_max.
Definition parse_u32 : string -> option Z := parse_uint u32_max.

(** [str::trim]: the characters of the Unicode property White_Space, as UTF-8. *)
Definition utf8 (l : list Z) : string := foldr (fun b s => String (ascii_of_N (Z.to_N b)) s) "" l.

Definition white_space : list string :=
  ((fun b => utf8 [b]) <$> [9; 10; 11; 12; 13; 32])
  ++ [utf8 [194; 133]; utf8 [194; 160]; utf8 [225; 154; 128]]
  ++ ((fun b => utf8 [226; 128; b]) <$> seqZ 128 11)
  ++ [utf8 [226; 128; 168]; utf8 [226; 128; 169]; utf8 [226; 128; 175]; utf8 [226; 129; 159]; utf8 [227; 128; 128]].

Fixpoint rev_onto (s acc : string) : string :=
  match s with EmptyString => acc | String a s' => rev_onto s' (String a acc) end.
Definition string_rev (s : string) : string := rev_onto s "".

(** Drops occurrences of the given characters from the front; each is at least one
    byte, so the length of the string is enough fuel. *)
Fixpoint strip_all (chars : list string) (fuel : nat) (s : string) : string :=
  match fuel with
  | O => s
  | S n => match head (omap (fun p => strip_prefix p s) chars) with Some s' => strip_all chars n s' | None => s end
  end.

Definition trim_start (s : string) : string := strip_all white_space (String.length s) s.
Definition trim_end (s : string) : string := string_rev (strip_all (string_rev <$> white_space) (String.length s) (string_rev s)).
Definition trim (s : string) : string := trim_end (trim_start s).

(** ASCII case. *)
Definition ascii_lower (a : ascii) : ascii :=
  let n := N_of_ascii a in if ((65 <=? n) && (n <=? 90))%N then ascii_of_N (n + 32) else a.
Fixpoint to_ascii_lowercase (s : string) : string :=
  match s with String a s' => String (ascii_lower a) (to_ascii_lowercase s') | EmptyString => "" end.
Definition eq_ignore_ascii_case (a b : string) : bool := bool_decide (to_ascii_lowercase a = to_ascii_lowercase b).

(** [str::contains] *)
Fixpoint str_contains (needle s : string) : bool :=
  starts_with needle s || match s with EmptyString => false | String _ s' => str_contains needle s' end.

Lemma str_contains_spec needle s : str_contains needle s = true <-> exists l r, s = l +:+ needle +:+ r.
Proof.
  induction s as [| a s IH]; cbn [str_contains]; rewrite orb_true_iff, starts_with_spec.
  - split; [intros [[t E] | ?]; [exists "", t; by rewrite append_nil | done] |]. intros (l & r & E). left.
    destruct l as [| b l]; [exists r; by rewrite append_nil in E | by rewrite append_cons in E].
  - rewrite IH. split.
    + intros [[t E] | (l & r & ->)]; [exists "", t; by rewrite append_nil | exists (String a l), r; by rewrite append_cons].
    + intros (l & r & E). destruct l as [| b l]; [left; exists r; by rewrite append_nil in E |].
      rewrite append_cons in E. injection E as <- ->. right. eauto.
Qed.

Lemma digit_value_char x : (x < 10)%N -> digit_value (pretty_N_char x) = Some (Z.of_N x).
Proof.
  intros H. assert (x = 0 \/ x = 1 \/ x = 2 \/ x = 3 \/ x = 4 \/ x = 5 \/ x = 6 \/ x = 7 \/ x = 8 \/ x = 9)%N
    as Hx by lia. destruct_or!; by subst.
Qed.

Lemma parse_digits_go max x s :
  Z.of_N x <= max -> parse_digits max 0 (pretty_N_go x s) = parse_digits max (Z.of_N x) s.
Proof.
  revert s. induction (N.lt_wf_0 x) as [x _ IH]. intros s Hx.
  assert (x = 0 \/ 0 < x)%N as [-> | Hp] by lia; [by rewrite pretty_N_go_0 |].
  pose proof (N.Div0.div_mod x 10) as Hdm. pose proof (N.mod_lt x 10 ltac:(done)) as Hm.
  assert (x `div` 10 < x)%N as Hlt by (by apply N.div_lt).
  rewrite pretty_N_go_step by done. rewrite IH by lia.
  simpl. rewrite digit_value_char by done.
  replace (Z.of_N (x `div` 10) * 10 + Z.of_N (x `mod` 10)) with (Z.of_N x) by lia.
  destruct (Z.leb_spec (Z.of_N x) max); [done | lia].
Qed.

Lemma has_char_go c x s :
  digit_value c = None -> has_char c s = false -> has_char c (pretty_N_go x s) = false.
Proof.
  intros Hc. revert s. induction (N.lt_wf_0 x) as [x _ IH]. intros s Hs.
  assert (x = 0 \/ 0 < x)%N as [-> | Hp] by lia; [by rewrite pretty_N_go_0 |].
  rewrite pretty_N_go_step by done. apply IH; [by apply N.div_lt |]. simpl. rewrite Hs, orb_false_r.
  destruct (Ascii.eqb_spec (pretty_N_char (x `mod` 10)) c) as [<- |]; [| done].
  rewrite digit_value_char in Hc by (by apply N.mod_lt). done.
Qed.

Lemma show_no_char c n : digit_value c = None -> has_char c (show n) = false.
Proof.
  intros Hc. unfold show, pretty, pretty_N. case_decide; [| by apply has_char_go].
  cbn [has_char]. rewrite orb_false_r. destruct (Ascii.eqb_spec "0"%char c) as [<- |]; [discriminate Hc | done].
Qed.

Lemma show_no_colon n : has_char ":" (show n) = false.
Proof. by apply show_no_char. Qed.

Lemma show_inj n m : 0 <= n -> 0 <= m -> show n = show m -> n = m.
Proof. intros ? ? E. pose proof (pretty_N_inj (Z.to_N n) (Z.to_N m) E). lia. Qed.

(** Printing and parsing round-trip. *)
Lemma parse_uint_show max n : 0 <= n <= max -> parse_uint max (show n) = Some n.
Proof.
  intros [Hn Hlt]. assert (parse_digits max 0 (show n) = Some n /\ show n <> EmptyString) as [Hp Hne].
  { unfold show, pretty, pretty_N. case_decide as E.
    { assert (n = 0) as -> by lia. split; [| done]. change (parse_digits max 0 "0") with (if 0 <=? max then Some 0 else None). destruct (Z.leb_spec 0 max); [done | lia]. }
    rewrite parse_digits_go by lia. simpl. split; [f_equal; lia |].
    intros Ee. pose proof (parse_digits_go max (Z.to_N n) "" ltac:(lia)) as Hq.
    rewrite Ee in Hq. simpl in Hq. simplify_eq. lia. }
  unfold parse_uint. destruct (show n) as [| a s] eqn:E; [done |].
  assert (a <> "+"%char) as Ha.
  { intros ->. by simpl in Hp. }
  destruct a as [[] [] [] [] [] [] [] []]; try done.
Qed.

Lemma parse_show n : is_u64 n -> parse_u64 (show n) = Some n.
Proof. intros [? ?]. apply parse_uint_show. unfold u64_max. lia. Qed.

(** ** Reversal and trimming *)

Lemma has_char_app c s t : has_char c (s +:+ t) = has_char c s || has_char c t.
Proof. induction s as [| a s IH]; [done |]. rewrite append_cons. cbn [has_char]. by rewrite IH, orb_assoc. Qed.

Lemma rev_onto_app s acc : rev_onto s acc = string_rev s +:+ acc.
Proof.
  unfold string_rev. revert acc. induction s as [| a s IH]; intros acc; [done |]. cbn [rev_onto]. rewrite IH, (IH (String a "")), append_assoc. done.
Qed.
Lemma string_rev_app s t : string_rev (s +:+ t) = string_rev t +:+ string_rev s.
Proof.
  induction s as [| a s IH]; [by rewrite append_nil, append_nil_r |]. rewrite append_cons. unfold string_rev at 1 3. cbn [rev_onto].
  by rewrite !rev_onto_app, IH, append_assoc.
Qed.
Lemma string_rev_rev s : string_rev (string_rev s) = s.
Proof. induction s as [| a s IH]; [done |]. unfold string_rev at 2. cbn [rev_onto]. by rewrite rev_onto_app, string_rev_app, IH. Qed.

(** ** Splitting and suffixes *)

(** [s.split(c)] *)
Fixpoint split_on (c : ascii) (s : string) : list string :=
  match s with
  | EmptyString => [""]
  | String a s' =>
    if Ascii.eqb a c then "" :: split_on c s'
    else match split_on c s' with p :: ps => String a p :: ps | [] => [String a ""] end
  end.

Definition strip_suffix (suf s : string) : option string := string_rev <$> strip_prefix (string_rev suf) (string_rev s).
Definition ends_with (suf s : string) : bool := match strip_suffix suf s with Some _ => true | None => false end.

Lemma split_on_nonempty c s : split_on c s <> [].
Proof. destruct s as [| a s]; cbn; [done |]. destruct (Ascii.eqb a c); [done |]. by destruct (split_on c s). Qed.

Lemma strip_suffix_app s t : strip_suffix t (s +:+ t) = Some s.
Proof. unfold strip_suffix. rewrite string_rev_app, strip_prefix_app. simpl. by rewrite string_rev_rev. Qed.

(** A text that ends in a character that is not white space. *)
Lemma trim_end_solid s t :
  (forall x, head (omap (fun p => strip_prefix p (string_rev t +:+ x)) (string_rev <$> white_space)) = None) -> trim_end (s +:+ t) = s +:+ t.
Proof.
  intros Ht. unfold trim_end. rewrite string_rev_app. destruct (String.length (s +:+ t)); cbn [strip_all]; [| rewrite Ht];
    by rewrite string_rev_app, !string_rev_rev.
Qed.
