(* ===== verification/SlidingWindow.v ===== *)
(** * SlidingWindow: the rate limiter and quota store (boom-limiter)

    Models [boom-gateway/boom-limiter/src/sliding_window.rs]: the window counters
    with their three dimensions, the peek / commit / settle phases, the cumulative
    counters, the dashboard listings, clearing, snapshot and restore, and the
    in-memory part of the reset operations.  A [DashMap] is a finite map; each
    operation reads the clock once ([now]) and, where the code reads it again under
    the entry lock, a second time ([t]).  Seconds, tokens and micro-dollars are
    [u64] values.  SQL statements are external: an operation that runs them takes
    their outcome as an argument. *)

From S2P Require Import Prelude Core Text.

Module SlidingWindow.
Import Core.

(** ** Data *)

Inductive QuotaScope :=
| ScopeKey (key_hash : string)
| ScopeTeam (team_id : string).

#[export] Instance QuotaScope_eq_dec : EqDecision QuotaScope.
Proof. solve_decision. Defined.

Inductive CumulativeKind :=
| TotalInputTokens | TotalOutputTokens | TotalCost
| TotalRegularInputCost | TotalCachedInputCost | TotalOutputCost.

#[export] Instance CumulativeKind_eq_dec : EqDecision CumulativeKind.
Proof. solve_decision. Defined.

Definition all_kinds : list CumulativeKind :=
  [TotalInputTokens; TotalOutputTokens; TotalCost; TotalRegularInputCost; TotalCachedInputCost; TotalOutputCost].

Definition suffix (k : CumulativeKind) : string :=
  match k with
  | TotalInputTokens => "tin"
  | TotalOutputTokens => "tout"
  | TotalCost => "tcost"
  | TotalRegularInputCost => "cric"
  | TotalCachedInputCost => "ccic"
  | TotalOutputCost => "coc"
  end.

Inductive WindowKind := WkTokens | WkCostMicros.

Record WindowInfo := mkWindowInfo {
  wi_kind : WindowKind;
  wi_model : string;
  wi_window_secs : Z;
  wi_count : Z;
  wi_elapsed_secs : Z;
  wi_remaining_secs : Z;
}.

(** [CumulativeSnapshot] and [TeamRecomputeResult]: the six counters. *)
Record CumulativeSnapshot := mkCumulativeSnapshot {
  input_tokens : Z;
  output_tokens : Z;
  total_cost_micros : Z;
  regular_input_cost_micros : Z;
  cached_input_cost_micros : Z;
  output_cost_micros : Z;
}.

Record WindowUsage := mkWindowUsage {
  wu_cache_key : string;
  wu_counts : Z;
  wu_tokens : Z;
  wu_costs_micros : Z;
  wu_window_secs : Z;
  wu_elapsed_secs : Z;
}.

Record WindowCounter := mkWindowCounter {
  counts : Z;
  tokens : Z;
  costs_micros : Z;
  window_start : Z;
  wc_window_secs : Z;
}.

Record SlidingWindowLimiter := mkSlidingWindowLimiter {
  windows : gmap string WindowCounter;
  cumulative : gmap string Z;
  dirty_windows : gset string;
  dirty_cumulative : gset string;
}.

Definition new_limiter : SlidingWindowLimiter := mkSlidingWindowLimiter ∅ ∅ ∅ ∅.

Definition set_windows (l : SlidingWindowLimiter) (m : gmap string WindowCounter) : SlidingWindowLimiter :=
  mkSlidingWindowLimiter m (cumulative l) (dirty_windows l) (dirty_cumulative l).

Definition set_cumulative (l : SlidingWindowLimiter) (m : gmap string Z) : SlidingWindowLimiter :=
  mkSlidingWindowLimiter (windows l) m (dirty_windows l) (dirty_cumulative l).

Definition mark_dirty_window (l : SlidingWindowLimiter) (key : string) : SlidingWindowLimiter :=
  mkSlidingWindowLimiter (windows l) (cumulative l) ({[key]} ∪ dirty_windows l) (dirty_cumulative l).

Definition mark_dirty_cumulative (l : SlidingWindowLimiter) (key : string) : SlidingWindowLimiter :=
  mkSlidingWindowLimiter (windows l) (cumulative l) (dirty_windows l) ({[key]} ∪ dirty_cumulative l).

Definition cumulative_cache_key (scope : QuotaScope) (kind : CumulativeKind) : string :=
  match scope with
  | ScopeKey key_hash => "kc:" +:+ key_hash +:+ ":" +:+ suffix kind
  | ScopeTeam team_id => "tc:" +:+ team_id +:+ ":" +:+ suffix kind
  end.

Definition cache_key (key : RateLimitKey) (secs : Z) : string :=
  key_hash key +:+ ":" +:+ rl_model key +:+ ":" +:+ show secs.

(** ** Decimal and micros *)

Section limiter.
Context {D : Type} `{DecimalOps D}.

Definition decimal_to_micros (d : D) : Z :=
  default 0 (dec_to_u64 (dec_mul d (dec_from_u64 1000000))).

Definition micros_to_decimal (micros : Z) : D :=
  dec_div (dec_from_u64 micros) (dec_from_u64 1000000).

(** ** Phase 1: peek *)

Definition elapsed (now : Z) (c : WindowCounter) : Z := now -sat window_start c.

Definition expired (now : Z) (c : WindowCounter) : bool := wc_window_secs c <=? elapsed now c.

(** Counts, tokens and costs of the current window; an expired window counts zero. *)
Definition current_usage (now : Z) (l : SlidingWindowLimiter) (win_key : string) : Z * Z * Z :=
  match windows l !! win_key with
  | Some c => if expired now c then (0, 0, 0) else (counts c, tokens c, costs_micros c)
  | None => (0, 0, 0)
  end.

Definition reject (now : Z) (l : SlidingWindowLimiter) (win_key : string) (secs lim : Z)
    (kind : LimitDimension) : RateLimitDecision :=
  let el := match windows l !! win_key with Some c => elapsed now c | None => 0 end in
  let retry_after := secs -sat el in
  mkRateLimitDecision false 0 lim (now + retry_after) (Some retry_after) (Some secs) (Some kind).

(** The three checks of one [WindowLimit], in the order of the code. *)
Definition check_window (now : Z) (l : SlidingWindowLimiter) (key : RateLimitKey) (weight : Z)
    (w : WindowLimit D) : option RateLimitDecision :=
  let win_key := cache_key key (window_secs w) in
  let '(cur_counts, cur_tokens, cur_costs) := current_usage now l win_key in
  let costs_check :=
    match wl_costs w with
    | Some lim =>
      let limit_micros := decimal_to_micros lim in
      if limit_micros <=? cur_costs then Some (reject now l win_key (window_secs w) limit_micros Costs) else None
    | None => None
    end in
  let tokens_check :=
    match wl_tokens w with
    | Some lim => if lim <=? cur_tokens then Some (reject now l win_key (window_secs w) lim Tokens) else costs_check
    | None => costs_check
    end in
  match wl_counts w with
  | Some lim =>
    if lim <? cur_counts +u weight then Some (reject now l win_key (window_secs w) lim Counts) else tokens_check
  | None => tokens_check
  end.

Fixpoint first_rejection (now : Z) (l : SlidingWindowLimiter) (key : RateLimitKey) (weight : Z)
    (ws : list (WindowLimit D)) : option RateLimitDecision :=
  match ws with
  | [] => None
  | w :: ws' =>
    match check_window now l key weight w with
    | Some d => Some d
    | None => first_rejection now l key weight ws'
    end
  end.

(** [filter_map(..).min_by_key(secs)]: the first of the shortest windows that
    limit counts. *)
Fixpoint min_by_secs (best : option (Z * Z)) (ws : list (WindowLimit D)) : option (Z * Z) :=
  match ws with
  | [] => best
  | w :: ws' =>
    match wl_counts w with
    | Some lim =>
      match best with
      | Some (s, _) => min_by_secs (if window_secs w <? s then Some (window_secs w, lim) else best) ws'
      | None => min_by_secs (Some (window_secs w, lim)) ws'
      end
    | None => min_by_secs best ws'
    end
  end.

Definition allow (now rem : Z) : RateLimitDecision :=
  mkRateLimitDecision true rem 0 (now + 60) None None None.

Definition peek_only (now : Z) (l : SlidingWindowLimiter) (key : RateLimitKey)
    (ws : list (WindowLimit D)) (weight : Z) : RateLimitDecision :=
  match first_rejection now l key weight ws with
  | Some d => d
  | None =>
    allow now match min_by_secs None ws with
              | Some (secs, lim) =>
                let '(cur, _, _) := current_usage now l (cache_key key secs) in (lim -sat cur) -sat weight
              | None => u64_max
              end
  end.

(** ** Phase 2: commit counts *)

Definition bump_counts (l : SlidingWindowLimiter) (ck : string) (secs weight now t : Z)
  : SlidingWindowLimiter :=
  let c' := match windows l !! ck with
  | Some c =>
    if expired t c then mkWindowCounter weight 0 0 t (wc_window_secs c)
    else mkWindowCounter (counts c +u weight) (tokens c) (costs_micros c) (window_start c) (wc_window_secs c)
  | None => mkWindowCounter weight 0 0 now secs
  end in
  mark_dirty_window (set_windows l (<[ck := c']> (windows l))) ck.

(** [Vec::contains] / [push]: the distinct window lengths, in order. *)
Definition push_new (acc : list Z) (secs : Z) : list Z :=
  if bool_decide (secs ∈ acc) then acc else acc ++ [secs].

Definition secs_to_commit (ws : list (WindowLimit D)) : list Z :=
  foldl (fun acc w => if is_none (wl_counts w) then acc else push_new acc (window_secs w)) [] ws.

Definition commit_counts (now t : Z) (l : SlidingWindowLimiter) (key : RateLimitKey)
    (ws : list (WindowLimit D)) (weight : Z) : SlidingWindowLimiter * RateLimitDecision :=
  let l' := foldl (fun l secs => bump_counts l (cache_key key secs) secs weight now t) l (secs_to_commit ws) in
  (l', allow now match min_by_secs None ws with
                 | Some (secs, lim) =>
                   match windows l' !! cache_key key secs with Some c => lim -sat counts c | None => lim end
                 | None => u64_max
                 end).

(** ** Phase 3: settle usage *)

Definition bump_tokens_and_cost (l : SlidingWindowLimiter) (ck : string) (secs toks costs now t : Z)
  : SlidingWindowLimiter :=
  if (toks =? 0) && (costs =? 0) then l
  else
    let c' := match windows l !! ck with
    | Some c =>
      if expired t c then mkWindowCounter 0 toks costs t (wc_window_secs c)
      else mkWindowCounter (counts c) (tokens c +u toks) (costs_micros c +u costs) (window_start c) (wc_window_secs c)
    | None => mkWindowCounter 0 toks costs now secs
    end in
    mark_dirty_window (set_windows l (<[ck := c']> (windows l))) ck.

Definition peek_cumulative (l : SlidingWindowLimiter) (scope : QuotaScope) (kind : CumulativeKind) : Z :=
  match cumulative l !! cumulative_cache_key scope kind with Some v => Z.max v 0 | None => 0 end.

Definition add_cumulative (l : SlidingWindowLimiter) (scope : QuotaScope) (kind : CumulativeKind) (delta : Z)
  : SlidingWindowLimiter :=
  if delta =? 0 then l
  else
    let key := cumulative_cache_key scope kind in
    mark_dirty_cumulative
      (set_cumulative l (<[key := i64_add (default 0 (cumulative l !! key)) (as_i64 delta)]> (cumulative l))) key.

Definition overwrite_cumulative (l : SlidingWindowLimiter) (scope : QuotaScope) (kind : CumulativeKind) (value : Z)
  : SlidingWindowLimiter :=
  let key := cumulative_cache_key scope kind in
  mark_dirty_cumulative (set_cumulative l (<[key := as_i64 value]> (cumulative l))) key.

Definition settle_secs (ws : list (WindowLimit D)) : list Z :=
  foldl (fun acc w => push_new acc (window_secs w)) [] ws.

Definition settle_usage (now t : Z) (l : SlidingWindowLimiter) (key : RateLimitKey) (scope : QuotaScope)
    (ws : list (WindowLimit D)) (in_tok out_tok regular_cost cached_cost output_cost : Z)
  : SlidingWindowLimiter :=
  let total_tokens := in_tok +sat out_tok in
  let total_cost := (regular_cost +sat cached_cost) +sat output_cost in
  let l1 := foldl (fun l secs => bump_tokens_and_cost l (cache_key key secs) secs total_tokens total_cost now t)
                  l (settle_secs ws) in
  let l2 := add_cumulative l1 scope TotalInputTokens in_tok in
  let l3 := add_cumulative l2 scope TotalOutputTokens out_tok in
  let l4 := add_cumulative l3 scope TotalCost total_cost in
  let l5 := add_cumulative l4 scope TotalRegularInputCost regular_cost in
  let l6 := add_cumulative l5 scope TotalCachedInputCost cached_cost in
  add_cumulative l6 scope TotalOutputCost output_cost.

(** ** Cumulative: reset *)

Definition reset_one_local (l : SlidingWindowLimiter) (scope : QuotaScope) (kind : CumulativeKind)
  : SlidingWindowLimiter * Z :=
  let key := cumulative_cache_key scope kind in
  match cumulative l !! key with
  | Some v => (mark_dirty_cumulative (set_cumulative l (<[key := 0]> (cumulative l))) key, Z.max v 0)
  | None => (mark_dirty_cumulative l key, 0)
  end.

Definition reset_cumulative_local (l : SlidingWindowLimiter) (scope : QuotaScope)
  : SlidingWindowLimiter * CumulativeSnapshot :=
  let '(l, a) := reset_one_local l scope TotalInputTokens in
  let '(l, b) := reset_one_local l scope TotalOutputTokens in
  let '(l, c) := reset_one_local l scope TotalCost in
  let '(l, d) := reset_one_local l scope TotalRegularInputCost in
  let '(l, e) := reset_one_local l scope TotalCachedInputCost in
  let '(l, f) := reset_one_local l scope TotalOutputCost in
  (l, mkCumulativeSnapshot a b c d e f).

(** ** Dashboard listings *)

Definition usage_of (now : Z) (ck : string) (c : WindowCounter) : WindowUsage :=
  mkWindowUsage ck (counts c) (tokens c) (costs_micros c) (wc_window_secs c) (elapsed now c).

Definition get_usage (now : Z) (l : SlidingWindowLimiter) (ck : string) : option WindowUsage :=
  usage_of now ck <$> windows l !! ck.

Definition get_usage_for_key (now : Z) (l : SlidingWindowLimiter) (kh : string) : list WindowUsage :=
  (fun '(ck, c) => usage_of now ck c)
    <$> retain (fun kv => starts_with (kh +:+ ":") kv.1) (map_to_list (windows l)).

Definition get_all_key_usage (now : Z) (l : SlidingWindowLimiter) : gmap string (Z * Z) :=
  foldl (fun (result : gmap string (Z * Z)) '(ck, c) =>
    let kh := split_first ":" ck in
    if starts_with "__team__" kh then result
    else
      let rem := wc_window_secs c -sat elapsed now c in
      let '(total, max_rem) := default (0, 0) (result !! kh) in
      <[kh := (total +u counts c, Z.max max_rem rem)]> result)
  ∅ (map_to_list (windows l)).

(** What one entry contributes to [scan_windows]. *)
Definition scan_entry (now : Z) (prefix : string) (ck : string) (c : WindowCounter) : list WindowInfo :=
  match strip_prefix prefix ck with
  | None => []
  | Some tail =>
    if expired now c then []
    else match rsplit_once ":" tail with
    | None => []
    | Some (mdl, secs_str) =>
      match parse_u64 secs_str with
      | None => []
      | Some secs =>
        let rem := wc_window_secs c -sat elapsed now c in
        (if 0 <? tokens c then [mkWindowInfo WkTokens mdl secs (tokens c) (elapsed now c) rem] else [])
        ++ (if 0 <? costs_micros c then [mkWindowInfo WkCostMicros mdl secs (costs_micros c) (elapsed now c) rem] else [])
      end
    end
  end.

Definition scan_windows (now : Z) (l : SlidingWindowLimiter) (prefix : string) : list WindowInfo :=
  map_to_list (windows l) ≫= fun kv => scan_entry now prefix kv.1 kv.2.

Definition peek_key_windows (now : Z) (l : SlidingWindowLimiter) (kh : string) : list WindowInfo :=
  scan_windows now l (kh +:+ ":").

Definition peek_team_windows (now : Z) (l : SlidingWindowLimiter) (team_id : string) : list WindowInfo :=
  scan_windows now l (("__team__" +:+ team_id) +:+ ":").

(** ** Clearing *)

Definition clear_windows (l : SlidingWindowLimiter) (key : RateLimitKey) (secs_list : list Z)
  : SlidingWindowLimiter :=
  foldl (fun l secs =>
    let ck := cache_key key secs in
    match windows l !! ck with
    | Some _ => mark_dirty_window (set_windows l (delete ck (windows l))) ck
    | None => l
    end) l secs_list.

Definition clear_for_key (l : SlidingWindowLimiter) (kh : string) : SlidingWindowLimiter * Z :=
  let keep := base.filter (fun kv : string * WindowCounter => starts_with (kh +:+ ":") kv.1 = false) (windows l) in
  (set_windows l keep, Z.of_nat (size (windows l)) - Z.of_nat (size keep)).

Definition clear_all (l : SlidingWindowLimiter) : SlidingWindowLimiter * Z :=
  (mkSlidingWindowLimiter ∅ ∅ ∅ ∅, Z.of_nat (size (windows l))).

(** ** Snapshot, restore, expiry *)

(** [WindowSnapshot] is the key with the five fields of the counter. *)
Definition snapshot (now : Z) (l : SlidingWindowLimiter) : list (string * WindowCounter) :=
  retain (fun kv => negb (expired now kv.2)) (map_to_list (windows l)).

Definition restore_counter (now : Z) (l : SlidingWindowLimiter) (ck : string) (c : WindowCounter)
  : SlidingWindowLimiter :=
  if expired now c then l else set_windows l (<[ck := c]> (windows l)).

Definition restore_cumulative (l : SlidingWindowLimiter) (ck : string) (v : Z) : SlidingWindowLimiter :=
  set_cumulative l (<[ck := v]> (cumulative l)).

(** [restore_counters_from_db]: the rows of the two [SELECT]s, or [None] when a
    query fails (logged, then skipped); the columns are [i64], cast to [u64]. *)
Definition restore_counters_from_db (now : Z) (l : SlidingWindowLimiter)
    (window_rows : option (list (string * (Z * option Z * option Z * Z * Z))))
    (cumulative_rows : option (list (string * Z))) : SlidingWindowLimiter :=
  let l1 := foldl (fun l '(ck, (c, tok, cst, ws, secs)) =>
      restore_counter now l ck
        (mkWindowCounter (as_u64 c) (as_u64 (default 0 tok)) (as_u64 (default 0 cst)) (as_u64 ws) (as_u64 secs)))
    l (default [] window_rows) in
  foldl (fun l '(ck, v) => restore_cumulative l ck v) l1 (default [] cumulative_rows).

Definition cleanup_expired (now : Z) (l : SlidingWindowLimiter) : SlidingWindowLimiter * Z :=
  let keep := base.filter (fun kv : string * WindowCounter => expired now kv.2 = false) (windows l) in
  (set_windows l keep, Z.of_nat (size (windows l)) - Z.of_nat (size keep)).

(** ** Sync and reset operations (in-memory part) *)

Definition row_of (c : WindowCounter) : Z * option Z * option Z * Z * Z :=
  (as_i64 (counts c), Some (as_i64 (tokens c)), Some (as_i64 (costs_micros c)),
   as_i64 (window_start c), as_i64 (wc_window_secs c)).

(** [sync_counters_to_db] when every statement succeeds: the rows upserted in the
    two tables.  The dirty cumulative set is taken, the window set cleared. *)
Definition sync_counters_to_db (now : Z) (l : SlidingWindowLimiter)
  : SlidingWindowLimiter * list (string * (Z * option Z * option Z * Z * Z)) * list (string * Z) :=
  let window_rows := (fun kv => (kv.1, row_of kv.2)) <$> snapshot now l in
  let cumulative_rows := (fun ck => (ck, default 0 (cumulative l !! ck))) <$> elements (dirty_cumulative l) in
  (mkSlidingWindowLimiter (windows l) (cumulative l) ∅ ∅, window_rows, cumulative_rows).

Definition add_cumulative_signed (l : SlidingWindowLimiter) (scope : QuotaScope) (kind : CumulativeKind) (delta : Z)
  : SlidingWindowLimiter :=
  if delta =? 0 then l
  else
    let key := cumulative_cache_key scope kind in
    mark_dirty_cumulative
      (set_cumulative l (<[key := i64_add (default 0 (cumulative l !! key)) delta]> (cumulative l))) key.

(** [del_ok]: whether the first, then the second [DELETE] succeeds.  The memory is
    changed before the statements run, and an error returns early. *)
Definition clear_key_all (l : SlidingWindowLimiter) (kh : string) (del_ok1 del_ok2 : bool)
  : SlidingWindowLimiter * option CumulativeSnapshot :=
  let '(l1, prev) := reset_cumulative_local l (ScopeKey kh) in
  let '(l2, _) := clear_for_key l1 kh in
  (l2, if del_ok1 && del_ok2 then Some prev else None).

Definition clear_key_cumulative_db (l : SlidingWindowLimiter) (kh : string) (team_id : option string)
    (del_ok : bool) : SlidingWindowLimiter * option CumulativeSnapshot :=
  let '(l1, prev) := reset_cumulative_local l (ScopeKey kh) in
  if negb del_ok then (l1, None)
  else match team_id with
  | None => (l1, Some prev)
  | Some tid =>
    let sub l k v := add_cumulative_signed l (ScopeTeam tid) k (i64_neg (as_i64 v)) in
    let l2 := sub l1 TotalInputTokens (input_tokens prev) in
    let l3 := sub l2 TotalOutputTokens (output_tokens prev) in
    let l4 := sub l3 TotalCost (total_cost_micros prev) in
    let l5 := sub l4 TotalRegularInputCost (regular_input_cost_micros prev) in
    let l6 := sub l5 TotalCachedInputCost (cached_input_cost_micros prev) in
    (sub l6 TotalOutputCost (output_cost_micros prev), Some prev)
  end.

Definition clear_key_windows_db (l : SlidingWindowLimiter) (kh : string) (del_ok : bool)
  : SlidingWindowLimiter * option Z :=
  let '(l1, removed) := clear_for_key l kh in (l1, if del_ok then Some removed else None).

(** The members' resets, each with the outcome of its statements; the first failure
    returns early. *)
Fixpoint clear_members (l : SlidingWindowLimiter) (members : list (string * (bool * bool)))
  : SlidingWindowLimiter * bool :=
  match members with
  | [] => (l, true)
  | (kh, (ok1, ok2)) :: rest =>
    match clear_key_all l kh ok1 ok2 with
    | (l', Some _) => clear_members l' rest
    | (l', None) => (l', false)
    end
  end.

Definition reset_team_all (l : SlidingWindowLimiter) (team_id : string)
    (del_ok1 del_ok2 : bool) (members : list (string * (bool * bool))) : SlidingWindowLimiter * bool :=
  if del_ok1 && del_ok2 then
    let '(l1, _) := reset_cumulative_local l (ScopeTeam team_id) in
    let '(l2, _) := clear_for_key l1 ("__team__" +:+ team_id) in
    clear_members l2 members
  else (l, false).

Fixpoint clear_members_cumulative (l : SlidingWindowLimiter) (members : list (string * bool))
  : SlidingWindowLimiter * bool :=
  match members with
  | [] => (l, true)
  | (kh, ok) :: rest =>
    match clear_key_cumulative_db l kh None ok with
    | (l', Some _) => clear_members_cumulative l' rest
    | (l', None) => (l', false)
    end
  end.

Definition clear_team_cumulative_db (l : SlidingWindowLimiter) (team_id : string) (del_ok : bool)
    (members : list (string * bool)) : SlidingWindowLimiter * bool :=
  if del_ok then
    let '(l1, _) := reset_cumulative_local l (ScopeTeam team_id) in clear_members_cumulative l1 members
  else (l, false).

Fixpoint clear_members_windows (l : SlidingWindowLimiter) (removed : Z) (members : list (string * bool))
  : SlidingWindowLimiter * option Z :=
  match members with
  | [] => (l, Some removed)
  | (kh, ok) :: rest =>
    match clear_key_windows_db l kh ok with
    | (l', Some r) => clear_members_windows l' (removed + r) rest
    | (l', None) => (l', None)
    end
  end.

Definition clear_team_windows_db (l : SlidingWindowLimiter) (team_id : string) (del_ok : bool)
    (members : list (string * bool)) : SlidingWindowLimiter * option Z :=
  if del_ok then
    let '(l1, removed) := clear_for_key l ("__team__" +:+ team_id) in clear_members_windows l1 removed members
  else (l, None).

(** [ends_with(":tin")] and so on: the kind a row of the key table counts for. *)
Definition row_kind (ck : string) : option CumulativeKind :=
  match rsplit_once ":" ck with
  | Some (_, s) => list_find (fun k => suffix k = s) all_kinds ≫= fun r => Some r.2
  | None => None
  end.

(** [recompute_team_cumulative] given the rows of its [SELECT]. *)
Definition sum_rows (rows : list (string * Z)) (k : CumulativeKind) : Z :=
  foldl (fun acc '(ck, v) => if bool_decide (row_kind ck = Some k) then acc +sat as_u64 (Z.max v 0) else acc) 0 rows.

Definition recompute_team_cumulative (l : SlidingWindowLimiter) (team_id : string) (rows : list (string * Z))
  : SlidingWindowLimiter * CumulativeSnapshot :=
  let s := sum_rows rows in
  (foldl (fun l k => overwrite_cumulative l (ScopeTeam team_id) k (s k)) l all_kinds,
   mkCumulativeSnapshot (s TotalInputTokens) (s TotalOutputTokens) (s TotalCost)
     (s TotalRegularInputCost) (s TotalCachedInputCost) (s TotalOutputCost)).

(** ** The requests of a key at work

    The three phases of a request as the handlers of [boom-main] run them: the check when
    it arrives, the count when its provider has answered, the usage when it is known.  In
    between other requests are checked, counted and settled. *)

(** The weights of the requests that are checked and not counted yet; the counted ones
    with their times, newest first; and the time. *)
Record Traffic := mkTraffic { tr_limiter : SlidingWindowLimiter; in_flight : list Z; counted : list (Z * Z); clock : Z }.
Definition no_traffic (now : Z) : Traffic := mkTraffic new_limiter [] [] now.

Section traffic.
Context (key : RateLimitKey) (scope : QuotaScope) (ws : list (WindowLimit D)) (n : nat) (max_weight : Z).

(** At most [n] requests are between their check and their count, of at most [max_weight]. *)
Inductive traffic_step (tr : Traffic) : Traffic -> Prop :=
| ts_check now weight :
    clock tr <= now -> 0 <= weight <= max_weight -> allowed (peek_only now (tr_limiter tr) key ws weight) = true -> (length (in_flight tr) < n)%nat ->
    traffic_step tr (mkTraffic (tr_limiter tr) (weight :: in_flight tr) (counted tr) now)
| ts_commit now l1 weight l2 :
    clock tr <= now -> in_flight tr = l1 ++ weight :: l2 ->
    traffic_step tr (mkTraffic (commit_counts now now (tr_limiter tr) key ws weight).1 (l1 ++ l2) ((now, weight) :: counted tr) now)
| ts_drop l1 weight l2 :
    in_flight tr = l1 ++ weight :: l2 -> traffic_step tr (mkTraffic (tr_limiter tr) (l1 ++ l2) (counted tr) (clock tr))
| ts_settle now in_tok out_tok regular_cost cached_cost output_cost :
    clock tr <= now ->
    traffic_step tr (mkTraffic (settle_usage now now (tr_limiter tr) key scope ws in_tok out_tok regular_cost cached_cost output_cost) (in_flight tr) (counted tr) now).
End traffic.

(** Weight counted at a time in [a, b). *)
Definition admitted_between (a b : Z) (log : list (Z * Z)) : Z :=
  zsum snd (retain (fun e => (a <=? e.1) && (e.1 <? b)) log).

(** ** Lemmas: keys *)

Lemma cache_key_alt key s :
  cache_key key s = (key_hash key +:+ String ":" (rl_model key)) +:+ String ":" (show s).
Proof. unfold cache_key. rewrite append_assoc, append_cons. done. Qed.

Lemma cache_key_secs key s1 s2 : 0 <= s1 -> 0 <= s2 -> cache_key key s1 = cache_key key s2 -> s1 = s2.
Proof.
  rewrite !cache_key_alt. intros ? ? [_ E]%app_rsplit_inj; [by apply show_inj | apply show_no_colon | apply show_no_colon].
Qed.

(** ** Lemmas: the counters under a sequence of bumps *)

Lemma push_new_elem acc s s' : s' ∈ push_new acc s <-> s' ∈ acc \/ s' = s.
Proof. unfold push_new. case_bool_decide; set_solver. Qed.

Lemma push_new_NoDup acc s : NoDup acc -> NoDup (push_new acc s).
Proof.
  unfold push_new. case_bool_decide; [done |]. intros ?. apply NoDup_app. split_and!; [done | | apply NoDup_singleton].
  set_solver.
Qed.

Lemma settle_secs_spec (ws : list (WindowLimit D)) :
  NoDup (settle_secs ws) /\ forall s, s ∈ settle_secs ws <-> exists w, w ∈ ws /\ window_secs w = s.
Proof.
  unfold settle_secs. assert (forall acc, NoDup acc ->
    NoDup (foldl (fun acc w => push_new acc (window_secs w)) acc ws)
    /\ forall s, s ∈ foldl (fun acc w => push_new acc (window_secs w)) acc ws
         <-> s ∈ acc \/ exists w, w ∈ ws /\ window_secs w = s) as Hg.
  { induction ws as [| w ws IH]; intros acc Hnd; simpl; [split; [done |]; set_solver |].
    destruct (IH (push_new acc (window_secs w)) (push_new_NoDup _ _ Hnd)) as [? Hin]. split; [done |].
    intros s. rewrite Hin, push_new_elem. set_solver. }
  destruct (Hg [] ltac:(constructor)) as [? Hin]. split; [done |]. set_solver.
Qed.

Lemma secs_to_commit_spec (ws : list (WindowLimit D)) :
  NoDup (secs_to_commit ws)
  /\ forall s, s ∈ secs_to_commit ws <-> exists w, w ∈ ws /\ window_secs w = s /\ wl_counts w <> None.
Proof.
  unfold secs_to_commit. set (f := fun acc (w : WindowLimit D) => if is_none (wl_counts w) then acc else push_new acc (window_secs w)).
  assert (forall acc, NoDup acc -> NoDup (foldl f acc ws)
    /\ forall s, s ∈ foldl f acc ws <-> s ∈ acc \/ exists w, w ∈ ws /\ window_secs w = s /\ wl_counts w <> None) as Hg.
  { induction ws as [| w ws IH]; intros acc Hnd; simpl; [split; [done |]; set_solver |].
    destruct (IH (f acc w)) as [? Hin]; [unfold f; destruct (is_none _); auto using push_new_NoDup |].
    split; [done |]. intros s. rewrite Hin. unfold f.
    destruct (wl_counts w) eqn:E; simpl; rewrite ?push_new_elem; set_solver. }
  destruct (Hg [] ltac:(constructor)) as [? Hin]. split; [done |]. set_solver.
Qed.

(** An update of one window per length leaves each window to its own update. *)
Section bumps.
Context (key : RateLimitKey) (bump : SlidingWindowLimiter -> Z -> SlidingWindowLimiter).
Context (upd : Z -> option WindowCounter -> option WindowCounter).
Context (bump_here : forall l s, windows (bump l s) !! cache_key key s = upd s (windows l !! cache_key key s)).
Context (bump_other : forall l s k, k <> cache_key key s -> windows (bump l s) !! k = windows l !! k).

Lemma foldl_bump_lookup secs l s :
  NoDup secs -> (forall s', s' ∈ secs -> 0 <= s') -> 0 <= s ->
  windows (foldl bump l secs) !! cache_key key s =
    if bool_decide (s ∈ secs) then upd s (windows l !! cache_key key s) else windows l !! cache_key key s.
Proof.
  intros Hnd Hpos Hs. revert l. induction secs as [| s' secs IH]; intros l; [done |]. simpl.
  apply NoDup_cons in Hnd as [Hn Hnd]. rewrite IH; [| done | set_solver].
  destruct (decide (s' = s)) as [-> | Hne].
  - rewrite (bool_decide_eq_false_2 (s ∈ secs)), bool_decide_eq_true_2 by set_solver. apply bump_here.
  - assert (cache_key key s <> cache_key key s') as Hk.
    { intros E. apply Hne. symmetry. apply (cache_key_secs key); auto. apply Hpos. by left. }
    rewrite bump_other by done. do 2 case_bool_decide; try done; set_solver.
Qed.
End bumps.

Definition bumped_counts (secs weight now t : Z) (o : option WindowCounter) : option WindowCounter :=
  Some match o with
  | Some c =>
    if expired t c then mkWindowCounter weight 0 0 t (wc_window_secs c)
    else mkWindowCounter (counts c +u weight) (tokens c) (costs_micros c) (window_start c) (wc_window_secs c)
  | None => mkWindowCounter weight 0 0 now secs
  end.

Definition bumped_usage (secs toks costs now t : Z) (o : option WindowCounter) : option WindowCounter :=
  if (toks =? 0) && (costs =? 0) then o
  else Some match o with
  | Some c =>
    if expired t c then mkWindowCounter 0 toks costs t (wc_window_secs c)
    else mkWindowCounter (counts c) (tokens c +u toks) (costs_micros c +u costs) (window_start c) (wc_window_secs c)
  | None => mkWindowCounter 0 toks costs now secs
  end.

Lemma commit_counts_lookup now t l key (ws : list (WindowLimit D)) weight s :
  (forall w, w ∈ ws -> 0 <= window_secs w) -> 0 <= s ->
  windows (commit_counts now t l key ws weight).1 !! cache_key key s =
    if bool_decide (s ∈ secs_to_commit ws) then bumped_counts s weight now t (windows l !! cache_key key s)
    else windows l !! cache_key key s.
Proof.
  intros Hpos Hs. destruct (secs_to_commit_spec ws) as [Hnd Hin]. unfold commit_counts. simpl.
  apply (foldl_bump_lookup key (fun l secs => bump_counts l (cache_key key secs) secs weight now t)
           (fun s => bumped_counts s weight now t)); auto.
  - intros l' s'. simpl. by rewrite lookup_insert_eq.
  - intros l' s' k Hk. simpl. by rewrite lookup_insert_ne.
  - intros s' (w & ? & <- & _)%Hin. auto.
Qed.

Lemma add_cumulative_windows l scope k delta : windows (add_cumulative l scope k delta) = windows l.
Proof. unfold add_cumulative. by destruct (delta =? 0). Qed.

Lemma settle_usage_lookup now t l key scope (ws : list (WindowLimit D)) a b c d e s :
  (forall w, w ∈ ws -> 0 <= window_secs w) -> 0 <= s ->
  windows (settle_usage now t l key scope ws a b c d e) !! cache_key key s =
    if bool_decide (s ∈ settle_secs ws)
    then bumped_usage s (a +sat b) ((c +sat d) +sat e) now t (windows l !! cache_key key s)
    else windows l !! cache_key key s.
Proof.
  intros Hpos Hs. destruct (settle_secs_spec ws) as [Hnd Hin].
  unfold settle_usage. rewrite !add_cumulative_windows.
  apply (foldl_bump_lookup key
    (fun l secs => bump_tokens_and_cost l (cache_key key secs) secs (a +sat b) ((c +sat d) +sat e) now t)
    (fun s => bumped_usage s (a +sat b) ((c +sat d) +sat e) now t)); auto.
  - intros l' s'. unfold bump_tokens_and_cost, bumped_usage. destruct (_ && _); [done |]. simpl. by rewrite lookup_insert_eq.
  - intros l' s' k Hk. unfold bump_tokens_and_cost. destruct (_ && _); [done |]. simpl. by rewrite lookup_insert_ne.
  - intros s' (w & ? & <-)%Hin. auto.
Qed.

(** ** The fixed-window guarantee *)

Lemma admitted_cons a b t w log :
  admitted_between a b ((t, w) :: log) = (if (a <=? t) && (t <? b) then w else 0) + admitted_between a b log.
Proof. unfold admitted_between. rewrite retain_cons. simpl. destruct (_ && _); [by rewrite zsum_cons | done]. Qed.

Definition nonneg_log (log : list (Z * Z)) : Prop := forall e, e ∈ log -> 0 <= e.2.

Lemma admitted_nonneg a b log : nonneg_log log -> 0 <= admitted_between a b log.
Proof. intros Hp. apply zsum_nonneg. intros e [_ He]%elem_of_retain. by apply Hp. Qed.

(** Splitting an interval, restricting it to where the events are. *)
Lemma admitted_split a m b log :
  a <= m <= b -> admitted_between a b log = admitted_between a m log + admitted_between m b log.
Proof.
  intros Hm. induction log as [| [t w] log IH]; [done |]. rewrite !admitted_cons, IH.
  destruct (Z.leb_spec a t), (Z.ltb_spec t b), (Z.ltb_spec t m), (Z.leb_spec m t); simpl; lia.
Qed.

Lemma admitted_mono a b a' b' log :
  nonneg_log log -> a' <= a -> b <= b' -> admitted_between a b log <= admitted_between a' b' log.
Proof.
  intros Hp ? ?. induction log as [| [t w] log IH]; [done |]. rewrite !admitted_cons.
  assert (0 <= w) by (apply (Hp (t, w)); by left). specialize (IH ltac:(intros e ?; apply Hp; by right)).
  destruct (Z.leb_spec a t), (Z.ltb_spec t b), (Z.leb_spec a' t), (Z.ltb_spec t b'); simpl; lia.
Qed.

Lemma admitted_none a b log :
  (forall e, e ∈ log -> a <= e.1 < b -> False) -> admitted_between a b log = 0.
Proof.
  induction log as [| [t w] log IH]; intros Hn; [done |]. rewrite admitted_cons, IH by (intros e ?; apply Hn; by right).
  destruct (Z.leb_spec a t), (Z.ltb_spec t b); simpl; try lia. exfalso. apply (Hn (t, w)); [by left | simpl; lia].
Qed.

Lemma admitted_cap a b last log :
  nonneg_log log -> (forall e, e ∈ log -> e.1 <= last) ->
  admitted_between a b log <= admitted_between a (last + 1) log.
Proof.
  intros Hp Hl. induction log as [| [t w] log IH]; [done |]. rewrite !admitted_cons.
  assert (0 <= w) by (apply (Hp (t, w)); by left). assert (t <= last) by (apply (Hl (t, w)); by left).
  specialize (IH ltac:(intros e ?; apply Hp; by right) ltac:(intros e ?; apply Hl; by right)).
  destruct (Z.leb_spec a t), (Z.ltb_spec t b), (Z.ltb_spec t (last + 1)); simpl; lia.
Qed.

(** What the counter of a window of length [secs] with limit [lim] says of the
    events admitted so far; [last] is the time of the last operation. *)
Record window_inv (secs lim last : Z) (o : option WindowCounter) (log : list (Z * Z)) : Prop := {
  wi_log : nonneg_log log /\ forall e, e ∈ log -> e.1 <= last;
  wi_counter : match o with
    | None => log = []
    | Some c => wc_window_secs c = secs /\ window_start c <= last
        /\ counts c = admitted_between (window_start c) (last + 1) log /\ counts c <= lim
        /\ (forall e, e ∈ log -> window_start c <= e.1 -> e.1 < window_start c + secs)
        /\ admitted_between (window_start c - secs) (window_start c) log <= lim
        /\ (forall a, a + secs <= window_start c -> admitted_between a (a + secs) log <= 2 * lim)
    end;
}.

Section window_guarantee.
Context (secs lim : Z) (Hsecs : 0 < secs) (Hlim : 0 <= lim).

(** Every interval of the window's length sees at most twice the limit. *)
Lemma window_inv_bound last o log a :
  window_inv secs lim last o log -> admitted_between a (a + secs) log <= 2 * lim.
Proof.
  intros [[Hp Hlast] Hc]. destruct o as [c |]; [| subst; change (admitted_between a (a + secs) []) with 0; lia].
  destruct Hc as (_ & Hst & Hcnt & Hle & Hend & Hprev & Hold).
  destruct (decide (a + secs <= window_start c)) as [? | Hgt]; [auto |].
  assert (admitted_between (Z.max a (window_start c)) (a + secs) log <= lim) as Hcur.
  { transitivity (admitted_between (window_start c) (last + 1) log); [| lia].
    etransitivity; [apply (admitted_cap _ _ last); auto |]. apply admitted_mono; [done | lia | lia]. }
  destruct (decide (a <= window_start c)).
  - rewrite (admitted_split _ (window_start c)) by lia. rewrite Z.max_r in Hcur by lia.
    pose proof (admitted_mono a (window_start c) (window_start c - secs) (window_start c) log Hp ltac:(lia) ltac:(lia)). lia.
  - rewrite Z.max_l in Hcur by lia. lia.
Qed.

(** Time passes. *)
Lemma window_inv_later last last' o log :
  last <= last' -> window_inv secs lim last o log -> window_inv secs lim last' o log.
Proof.
  intros Hle [[Hp Hlast] Hc]. split; [split; [done |]; intros e He; specialize (Hlast e He); lia |].
  destruct o as [c |]; [| done]. destruct Hc as (? & ? & Hcnt & ? & ? & ? & ?). split_and!; auto; [lia |].
  rewrite (admitted_split _ (last + 1)) by lia.
  rewrite (admitted_none (last + 1)); [lia |]. intros e He ?. specialize (Hlast e He). lia.
Qed.

(** A window that starts at [now] with [w] admitted at once. *)
Lemma window_inv_fresh now o log w toks costs :
  window_inv secs lim now o log -> 0 <= w <= lim ->
  (match o with Some c => window_start c + secs <= now | None => True end) ->
  window_inv secs lim now (Some (mkWindowCounter w toks costs now secs)) ((now, w) :: log).
Proof.
  intros HI Hw Hold. pose proof (window_inv_bound _ _ _ (now - secs) HI) as Hb. destruct HI as [[Hp Hlast] Hc].
  assert (forall e, e ∈ log -> e.1 < now) as Hbefore.
  { destruct o as [c |]; [| by subst; set_solver]. destruct Hc as (_ & _ & _ & _ & Hend & _).
    intros e He. specialize (Hend e He). destruct (decide (window_start c <= e.1)); lia. }
  assert (nonneg_log ((now, w) :: log)) as Hp' by (intros e [-> | ?]%elem_of_cons; [simpl; lia | auto]).
  split; [split; [done |]; intros e [-> | ?]%elem_of_cons; [simpl; lia | auto] |]. simpl.
  assert (forall a b, b <= now -> admitted_between a b ((now, w) :: log) = admitted_between a b log) as Hdrop.
  { intros a b Hb'. rewrite admitted_cons. destruct (Z.ltb_spec now b); [lia |]. by rewrite andb_false_r. }
  split_and!; [done | lia | | lia | | |].
  - rewrite admitted_cons, (admitted_none now) by (intros e He ?; specialize (Hbefore e He); lia).
    destruct (Z.leb_spec now now), (Z.ltb_spec now (now + 1)); simpl; lia.
  - intros e [-> | He]%elem_of_cons ?; [simpl; lia |]. specialize (Hbefore e He). lia.
  - rewrite Hdrop by lia. destruct o as [c |]; [| subst; change (admitted_between (now - secs) now []) with 0; lia].
    destruct Hc as (_ & Hst & Hcnt & Hle & Hend & _ & _).
    transitivity (admitted_between (window_start c) (now + 1) log); [apply admitted_mono; [done | lia | lia] | lia].
  - intros a Ha. rewrite Hdrop by lia. apply (window_inv_bound now o). by split.
Qed.

(** The window that is open at [now] takes [w] more. *)
Lemma window_inv_more now c log w toks costs :
  window_inv secs lim now (Some c) log -> 0 <= w -> counts c + w <= lim -> now < window_start c + secs ->
  window_inv secs lim now (Some (mkWindowCounter (counts c + w) toks costs (window_start c) (wc_window_secs c)))
    ((now, w) :: log).
Proof.
  intros [[Hp Hlast] (Hs & Hst & Hcnt & Hle & Hend & Hprev & Hold)] Hw Hfit Hopen.
  split; [split; intros e [-> | ?]%elem_of_cons; simpl; auto; lia |]. simpl.
  assert (forall a b, b <= now -> admitted_between a b ((now, w) :: log) = admitted_between a b log) as Hdrop.
  { intros a b Hb'. rewrite admitted_cons. destruct (Z.ltb_spec now b); [lia |]. by rewrite andb_false_r. }
  split_and!; auto.
  - rewrite admitted_cons. destruct (Z.leb_spec (window_start c) now), (Z.ltb_spec now (now + 1)); simpl; lia.
  - intros e [-> | ?]%elem_of_cons ?; simpl; auto; lia.
  - by rewrite Hdrop by lia.
  - intros a Ha. rewrite Hdrop by lia. auto.
Qed.

(** Same log, counter moved by a settlement: [window_inv_fresh] and
    [window_inv_more] with a weight of zero, without the event. *)
Lemma window_inv_drop_zero now o log :
  window_inv secs lim now o ((now, 0) :: log) -> o <> None -> window_inv secs lim now o log.
Proof.
  intros [[Hp Hlast] Hc] Ho. split; [split; [intros e ?; apply Hp; by right | intros e ?; apply Hlast; by right] |].
  destruct o as [c |]; [| done]. destruct Hc as (? & ? & Hcnt & ? & Hend & Hprev & Hold).
  assert (forall a b, admitted_between a b ((now, 0) :: log) = admitted_between a b log) as E.
  { intros a b. rewrite admitted_cons. by destruct (_ && _). }
  rewrite E in Hcnt, Hprev. setoid_rewrite E in Hold. split_and!; auto. intros e ?. apply Hend. by right.
Qed.
End window_guarantee.

#[local] Arguments commit_counts : simpl never.
#[local] Arguments settle_usage : simpl never.
#[local] Arguments peek_only : simpl never.

(** ** Lemmas: the decision of a peek *)

(** The request fits every dimension of the window [w]. *)
Definition window_fits (now : Z) (l : SlidingWindowLimiter) (key : RateLimitKey) (weight : Z) (w : WindowLimit D) : Prop :=
  let '(cur_counts, cur_tokens, cur_costs) := current_usage now l (cache_key key (window_secs w)) in
  (forall lim, wl_counts w = Some lim -> cur_counts +u weight <= lim)
  /\ (forall lim, wl_tokens w = Some lim -> cur_tokens < lim)
  /\ (forall lim, wl_costs w = Some lim -> cur_costs < decimal_to_micros lim).

Lemma check_window_none now l key weight w :
  check_window now l key weight w = None <-> window_fits now l key weight w.
Proof.
  unfold check_window, window_fits. destruct (current_usage _ _ _) as [[c t] m].
  destruct (wl_counts w) as [lc |], (wl_tokens w) as [lt |], (wl_costs w) as [lm |]; simpl;
    repeat match goal with
    | |- context [?a <? ?b] => destruct (Z.ltb_spec a b)
    | |- context [?a <=? ?b] => destruct (Z.leb_spec a b)
    end; split; intros Hx; try discriminate Hx; try done; split_and?; intros; simplify_eq; try lia;
    try (destruct Hx as (Hc & Ht & Hm); first [specialize (Hc _ eq_refl) | specialize (Ht _ eq_refl) | specialize (Hm _ eq_refl)]; lia).
  all: destruct Hx as (Hc & Ht & Hm); try (specialize (Ht _ eq_refl); lia); try (specialize (Hm _ eq_refl); lia).
Qed.

Lemma check_window_reject now l key weight w d : check_window now l key weight w = Some d -> allowed d = false.
Proof.
  unfold check_window. destruct (current_usage _ _ _) as [[c t] m]. intros. repeat case_match; by simplify_eq.
Qed.

Lemma first_rejection_none now l key weight ws :
  first_rejection now l key weight ws = None <-> forall w, w ∈ ws -> window_fits now l key weight w.
Proof.
  induction ws as [| w ws IH]; simpl; [set_solver |]. setoid_rewrite elem_of_cons.
  destruct (check_window now l key weight w) as [d |] eqn:E.
  - split; [done |]. intros Hall. assert (window_fits now l key weight w) as Hf by (apply Hall; by left).
    apply check_window_none in Hf. congruence.
  - apply check_window_none in E. rewrite IH. naive_solver.
Qed.

Lemma first_rejection_reject now l key weight ws d :
  first_rejection now l key weight ws = Some d -> allowed d = false.
Proof.
  induction ws as [| w ws IH]; simpl; [done |].
  destruct (check_window now l key weight w) eqn:E; [| done]. intros. simplify_eq. by eapply check_window_reject.
Qed.

Lemma peek_allowed now l key ws weight :
  allowed (peek_only now l key ws weight) = true <-> forall w, w ∈ ws -> window_fits now l key weight w.
Proof.
  rewrite <- first_rejection_none. unfold peek_only. destruct (first_rejection _ _ _ _ _) as [d |] eqn:E; [| done].
  apply first_rejection_reject in E. split; congruence.
Qed.

Section guarantee.
Context (key : RateLimitKey) (scope : QuotaScope) (ws : list (WindowLimit D)) (w0 : WindowLimit D) (lim : Z) (n : nat) (max_weight : Z).
Context (Hw0 : w0 ∈ ws) (Hlim : wl_counts w0 = Some lim) (Hpos : 0 < window_secs w0).
Context (Hsecs : forall w, w ∈ ws -> 0 <= window_secs w).
Context (Hn : (1 <= n)%nat) (Hl : 0 <= lim) (Hm : 0 <= max_weight) (Hrange : lim + Z.of_nat n * max_weight < 2 ^ 63).

(** The limit, and what the other requests in flight may add to it. *)
Definition overrun : Z := lim + Z.of_nat (n - 1) * max_weight.

Record traffic_inv (tr : Traffic) : Prop := {
  tv_window : window_inv (window_secs w0) overrun (clock tr) (windows (tr_limiter tr) !! cache_key key (window_secs w0)) (counted tr);
  tv_length : (length (in_flight tr) <= n)%nat;
  tv_weights : forall w, w ∈ in_flight tr -> 0 <= w <= max_weight /\ w <= lim;
  tv_room : match windows (tr_limiter tr) !! cache_key key (window_secs w0) with
            | Some c => clock tr < window_start c + window_secs w0 -> counts c + zsum id (in_flight tr) <= overrun
            | None => True
            end;
}.

Lemma overrun_bounds : lim <= overrun < 2 ^ 63.
Proof. unfold overrun. nia. Qed.

Lemma weights_sum l : (forall w, w ∈ l -> 0 <= w <= max_weight /\ w <= lim) -> 0 <= zsum id l <= Z.of_nat (length l) * max_weight.
Proof.
  induction l as [| w l IH]; intros Hw; [done |]. rewrite zsum_cons. cbn [length id]. specialize (IH ltac:(intros v ?; apply Hw; by right)).
  destruct (Hw w ltac:(by left)). lia.
Qed.
(** What is in flight fits an empty window. *)
Lemma weights_fit l : (length l <= n)%nat -> (forall w, w ∈ l -> 0 <= w <= max_weight /\ w <= lim) -> 0 <= zsum id l <= overrun.
Proof.
  intros Hlen Hw. unfold overrun. destruct l as [| w l]; [change (zsum id []) with 0; nia |]. rewrite zsum_cons. cbn [length id] in *.
  pose proof (weights_sum l ltac:(intros v ?; apply Hw; by right)). destruct (Hw w ltac:(by left)). nia.
Qed.

Lemma check_inv tr now weight : traffic_inv tr -> clock tr <= now -> 0 <= weight <= max_weight ->
  allowed (peek_only now (tr_limiter tr) key ws weight) = true -> (length (in_flight tr) < n)%nat ->
  traffic_inv (mkTraffic (tr_limiter tr) (weight :: in_flight tr) (counted tr) now).
Proof.
  intros [HI Hlen Hws Hroom] Hnow Hwt Ha Hlt. pose proof overrun_bounds as Hb. apply (window_inv_later _ _ _ _ _ _ Hnow) in HI.
  apply peek_allowed with (w := w0) in Ha as Hf; [| done]. unfold window_fits, current_usage in Hf.
  assert (weight < 2 ^ 63) as Hws63 by nia. pose proof (weights_sum _ Hws) as Hsum.
  assert (zsum id (in_flight tr) <= Z.of_nat (n - 1) * max_weight) as Hless by (etransitivity; [apply Hsum | apply Z.mul_le_mono_nonneg_r; lia]).
  destruct (windows (tr_limiter tr) !! cache_key key (window_secs w0)) as [c |] eqn:E.
  2:{ destruct Hf as [Hc _]. specialize (Hc _ Hlim). rewrite u64_add_small in Hc by lia.
      split; cbn [tr_limiter in_flight counted clock length]; rewrite ?E; try done. intros w [-> | Hw]%elem_of_cons; [lia | by apply Hws]. }
  pose proof HI as [_ (Es & Hst & Hcnt & Hle & _)]. assert (0 <= counts c) by (rewrite Hcnt; apply admitted_nonneg; apply HI).
  unfold expired, elapsed, sat_sub in Hf. rewrite Es in Hf.
  destruct (Z.leb_spec (window_secs w0) (Z.max 0 (now - window_start c))) as [Hex | Hopen]; destruct Hf as [Hc _]; specialize (Hc _ Hlim); rewrite u64_add_small in Hc by lia.
  - split; cbn [tr_limiter in_flight counted clock length]; rewrite ?E; try done; [intros w [-> | Hw]%elem_of_cons; [lia | by apply Hws] | lia].
  - split; cbn [tr_limiter in_flight counted clock length]; rewrite ?E; try done; [intros w [-> | Hw]%elem_of_cons; [lia | by apply Hws] |].
    intros _. rewrite zsum_cons. cbn [id]. unfold overrun; lia.
Qed.

Lemma elem_of_removed {A} (l1 l2 : list A) x y : y ∈ l1 ++ l2 -> y ∈ l1 ++ x :: l2.
Proof. rewrite !elem_of_app, elem_of_cons. tauto. Qed.

Lemma commit_inv tr now l1 weight l2 : traffic_inv tr -> clock tr <= now -> in_flight tr = l1 ++ weight :: l2 ->
  traffic_inv (mkTraffic (commit_counts now now (tr_limiter tr) key ws weight).1 (l1 ++ l2) ((now, weight) :: counted tr) now).
Proof.
  intros [HI Hlen Hws Hroom] Hnow El. pose proof overrun_bounds as Hb. apply (window_inv_later _ _ _ _ _ _ Hnow) in HI. rewrite El in *.
  pose proof (weights_fit _ Hlen Hws) as Hfit. destruct (Hws weight) as [Hw1 Hw2]; [apply elem_of_app; right; by left |].
  assert (zsum id (l1 ++ weight :: l2) = weight + zsum id (l1 ++ l2)) as Ez by (rewrite !zsum_app, zsum_cons; cbn [id]; lia).
  pose proof (weights_sum (l1 ++ l2) ltac:(intros v ?; by apply Hws, elem_of_removed)) as [Hrest _].
  rewrite length_app in Hlen. cbn [length] in Hlen.
  assert (window_secs w0 ∈ secs_to_commit ws) as Hin.
  { apply secs_to_commit_spec. exists w0. split_and!; [done | done | congruence]. }
  assert (windows (commit_counts now now (tr_limiter tr) key ws weight).1 !! cache_key key (window_secs w0)
    = bumped_counts (window_secs w0) weight now now (windows (tr_limiter tr) !! cache_key key (window_secs w0))) as E1
    by (by rewrite commit_counts_lookup, bool_decide_eq_true_2 by (done || lia)).
  assert (0 <= overrun) as Hov by lia.
  split; cbn [tr_limiter in_flight counted clock]; rewrite ?E1; [| rewrite length_app; lia | intros v ?; by apply Hws, elem_of_removed |].
  - destruct (windows (tr_limiter tr) !! cache_key key (window_secs w0)) as [c |] eqn:E; unfold bumped_counts.
    2:{ apply (window_inv_fresh _ overrun Hpos Hov now None); [exact HI | lia | done]. }
    pose proof HI as [_ (Es & Hst & Hcnt & Hle & _)]. assert (0 <= counts c) by (rewrite Hcnt; apply admitted_nonneg; apply HI).
    unfold expired, elapsed, sat_sub. rewrite Es.
    destruct (Z.leb_spec (window_secs w0) (Z.max 0 (now - window_start c))) as [Hex | Hopen].
    + apply (window_inv_fresh _ overrun Hpos Hov now (Some c)); [done | lia | lia].
    + rewrite u64_add_small by lia. rewrite <- Es at 2. apply window_inv_more; [by auto | lia | | lia]. specialize (Hroom ltac:(lia)). lia.
  - destruct (windows (tr_limiter tr) !! cache_key key (window_secs w0)) as [c |] eqn:E; unfold bumped_counts; [| cbn [counts window_start]; lia].
    pose proof HI as [_ (Es & Hst & Hcnt & Hle & _)]. assert (0 <= counts c) by (rewrite Hcnt; apply admitted_nonneg; apply HI).
    unfold expired, elapsed, sat_sub. rewrite Es. destruct (Z.leb_spec (window_secs w0) (Z.max 0 (now - window_start c))); cbn [counts window_start]; [lia |].
    intros _. rewrite u64_add_small by lia. specialize (Hroom ltac:(lia)). lia.
Qed.

Lemma settle_inv tr now a b c d e : traffic_inv tr -> clock tr <= now ->
  traffic_inv (mkTraffic (settle_usage now now (tr_limiter tr) key scope ws a b c d e) (in_flight tr) (counted tr) now).
Proof.
  intros [HI Hlen Hws Hroom] Hnow. pose proof overrun_bounds as Hb. apply (window_inv_later _ _ _ _ _ _ Hnow) in HI.
  pose proof (weights_fit _ Hlen Hws) as Hfit. assert (0 <= overrun) as Hov by lia.
  assert (window_secs w0 ∈ settle_secs ws) as Hin by (apply settle_secs_spec; eauto).
  assert (windows (settle_usage now now (tr_limiter tr) key scope ws a b c d e) !! cache_key key (window_secs w0)
    = bumped_usage (window_secs w0) (a +sat b) ((c +sat d) +sat e) now now (windows (tr_limiter tr) !! cache_key key (window_secs w0))) as E1
    by (by rewrite settle_usage_lookup, bool_decide_eq_true_2 by (done || lia)).
  split; cbn [tr_limiter in_flight counted clock]; rewrite ?E1; [| done | done |]; unfold bumped_usage; destruct (_ && _).
  - done.
  - destruct (windows (tr_limiter tr) !! cache_key key (window_secs w0)) as [x |] eqn:E.
    2: { apply window_inv_drop_zero; [| done]. apply (window_inv_fresh _ overrun Hpos Hov now None); [done | lia | done]. }
    pose proof HI as [_ (Es & Hst & Hcnt & Hle & _)]. unfold expired, elapsed, sat_sub. rewrite Es.
    apply window_inv_drop_zero; [| by destruct (_ <=? _)].
    destruct (Z.leb_spec (window_secs w0) (Z.max 0 (now - window_start x))) as [Hex | Hopen].
    + apply (window_inv_fresh _ overrun Hpos Hov now (Some x)); [done | lia | lia].
    + rewrite <- Es at 2. rewrite <- (Z.add_0_r (counts x)). apply window_inv_more; [by auto | lia | lia | lia].
  - destruct (windows (tr_limiter tr) !! cache_key key (window_secs w0)) as [x |]; [| done]. intros ?. apply Hroom. lia.
  - destruct (windows (tr_limiter tr) !! cache_key key (window_secs w0)) as [x |]; [| cbn; lia].
    destruct (expired now x); cbn [counts window_start]; [lia |]. intros ?. apply Hroom. lia.
Qed.

Lemma traffic_step_inv tr tr' : traffic_inv tr -> traffic_step key scope ws n max_weight tr tr' -> traffic_inv tr'.
Proof.
  intros HI [now weight ? ? ? ? | now l1 weight l2 ? ? | l1 weight l2 El | now a b c d e ?]; [by apply check_inv | by apply commit_inv | | by apply settle_inv].
  destruct HI as [HI Hlen Hws Hroom]. rewrite El in *. rewrite length_app in Hlen. cbn [length] in Hlen.
  split; cbn [tr_limiter in_flight counted clock]; [done | rewrite length_app; lia | intros v ?; by apply Hws, elem_of_removed |].
  destruct (windows (tr_limiter tr) !! _); [| done]. intros Ho. specialize (Hroom Ho). rewrite zsum_app, zsum_cons in Hroom. rewrite zsum_app. cbn [id] in Hroom.
  destruct (Hws weight) as [? _]; [apply elem_of_app; right; by left |]. lia.
Qed.
End guarantee.

(** ** Lemmas: cumulative counters *)

Definition counter (l : SlidingWindowLimiter) (scope : QuotaScope) (k : CumulativeKind) : Z :=
  default 0 (cumulative l !! cumulative_cache_key scope k).

Lemma suffix_no_colon k : has_char ":" (suffix k) = false.
Proof. by destruct k. Qed.

Lemma cumulative_cache_key_alt scope k :
  cumulative_cache_key scope k =
    match scope with ScopeKey i => String "k" (String "c" (String ":" i)) | ScopeTeam i => String "t" (String "c" (String ":" i)) end
    +:+ String ":" (suffix k).
Proof. by destruct scope. Qed.

Lemma cumulative_cache_key_inj s1 k1 s2 k2 :
  cumulative_cache_key s1 k1 = cumulative_cache_key s2 k2 -> s1 = s2 /\ k1 = k2.
Proof.
  rewrite !cumulative_cache_key_alt. intros [E1 E2]%app_rsplit_inj; [| apply suffix_no_colon..].
  split; [destruct s1, s2; congruence | by destruct k1, k2].
Qed.

Definition i64_room (l : SlidingWindowLimiter) (scope : QuotaScope) (k : CumulativeKind) (delta : Z) : Prop :=
  is_i64 (counter l scope k) /\ is_i64 (counter l scope k + delta).

Lemma counter_add_signed l scope k delta scope' k' :
  i64_room l scope k delta ->
  counter (add_cumulative_signed l scope k delta) scope' k' =
    counter l scope' k' + (if bool_decide (scope' = scope /\ k' = k) then delta else 0).
Proof.
  intros [_ Hr]. unfold add_cumulative_signed, counter in *. destruct (Z.eqb_spec delta 0) as [-> |]; simpl.
  { by case_bool_decide; rewrite Z.add_0_r. }
  case_bool_decide as Hd.
  - destruct Hd as [-> ->]. rewrite lookup_insert_eq. simpl. by apply as_i64_id.
  - rewrite lookup_insert_ne; [lia |]. intros E%cumulative_cache_key_inj. naive_solver.
Qed.

Lemma add_cumulative_is_signed l scope k delta :
  0 <= delta < 2 ^ 63 -> add_cumulative l scope k delta = add_cumulative_signed l scope k delta.
Proof. intros. unfold add_cumulative, add_cumulative_signed. destruct (delta =? 0); [done |]. by rewrite as_i64_small. Qed.

Lemma counter_add l scope k delta scope' k' :
  0 <= delta < 2 ^ 62 -> - 2 ^ 62 <= counter l scope k < 2 ^ 62 ->
  counter (add_cumulative l scope k delta) scope' k' =
    counter l scope' k' + (if bool_decide (scope' = scope /\ k' = k) then delta else 0).
Proof.
  intros ? ?. rewrite add_cumulative_is_signed by lia. apply counter_add_signed. unfold i64_room, is_i64. lia.
Qed.

Lemma counter_bumps l key toks costs now t secs scope k :
  counter (foldl (fun l s => bump_tokens_and_cost l (cache_key key s) s toks costs now t) l secs) scope k = counter l scope k.
Proof.
  revert l. induction secs as [| s secs IH]; intros l; [done |]. simpl. rewrite IH.
  unfold bump_tokens_and_cost. by destruct (_ && _).
Qed.

(** The amount that a settlement adds to each counter. *)
Definition settled_amount (in_tok out_tok regular_cost cached_cost output_cost : Z) (k : CumulativeKind) : Z :=
  match k with
  | TotalInputTokens => in_tok
  | TotalOutputTokens => out_tok
  | TotalCost => (regular_cost +sat cached_cost) +sat output_cost
  | TotalRegularInputCost => regular_cost
  | TotalCachedInputCost => cached_cost
  | TotalOutputCost => output_cost
  end.

Lemma counter_signed_all l scope (amount : CumulativeKind -> Z) ks scope' k' :
  NoDup ks -> (forall k, i64_room l scope k (amount k)) ->
  counter (foldl (fun l k => add_cumulative_signed l scope k (amount k)) l ks) scope' k' =
    counter l scope' k' + (if bool_decide (scope' = scope /\ k' ∈ ks) then amount k' else 0).
Proof.
  intros Hnd Hr. revert scope' k'. induction ks as [| k ks IH] using rev_ind; intros scope' k'.
  { simpl. rewrite bool_decide_eq_false_2 by set_solver. lia. }
  apply NoDup_app in Hnd as (Hnd & Hdis & _). rewrite foldl_app. simpl.
  assert (k ∉ ks) as Hk by (intros ?; eapply Hdis; set_solver).
  rewrite counter_add_signed.
  - rewrite IH by done. pose proof (elem_of_app ks [k] k') as Hin. rewrite list_elem_of_singleton in Hin.
    destruct (decide (scope' = scope)) as [<- |], (decide (k' = k)) as [<- |], (decide (k' ∈ ks));
      repeat case_bool_decide; try lia; naive_solver.
  - unfold i64_room. rewrite IH by done. rewrite bool_decide_eq_false_2 by naive_solver. rewrite Z.add_0_r. apply Hr.
Qed.

(** ** Lemmas: reset, snapshot, expiry *)

Lemma expired_later now now' c : now <= now' -> expired now c = true -> expired now' c = true.
Proof. unfold expired, elapsed, sat_sub. rewrite !Z.leb_le. lia. Qed.

Lemma reset_one_spec l scope k :
  (reset_one_local l scope k).2 = Z.max (counter l scope k) 0
  /\ windows (reset_one_local l scope k).1 = windows l
  /\ forall scope' k', counter (reset_one_local l scope k).1 scope' k' =
       if bool_decide (scope' = scope /\ k' = k) then 0 else counter l scope' k'.
Proof.
  unfold reset_one_local, counter. destruct (cumulative l !! cumulative_cache_key scope k) as [v |] eqn:E; simpl;
    (split; [done | split; [done |]]); intros scope' k'; case_bool_decide as Hd.
  - destruct Hd as [-> ->]. by rewrite lookup_insert_eq.
  - rewrite lookup_insert_ne; [done |]. intros Ek%cumulative_cache_key_inj. naive_solver.
  - destruct Hd as [-> ->]. by rewrite E.
  - done.
Qed.

(** The field of a snapshot for each kind. *)
Definition snap_field (s : CumulativeSnapshot) (k : CumulativeKind) : Z :=
  match k with
  | TotalInputTokens => input_tokens s
  | TotalOutputTokens => output_tokens s
  | TotalCost => total_cost_micros s
  | TotalRegularInputCost => regular_input_cost_micros s
  | TotalCachedInputCost => cached_input_cost_micros s
  | TotalOutputCost => output_cost_micros s
  end.

Lemma reset_cumulative_spec l scope l' s :
  reset_cumulative_local l scope = (l', s) ->
  windows l' = windows l /\ (forall k, snap_field s k = Z.max (counter l scope k) 0)
  /\ forall scope' k', counter l' scope' k' = if bool_decide (scope' = scope) then 0 else counter l scope' k'.
Proof.
  unfold reset_cumulative_local. intros E. repeat (case_match; simplify_eq).
  repeat match goal with
  | E : reset_one_local ?l ?sc ?k = (_, _) |- _ =>
    let H1 := fresh in let H2 := fresh in let H3 := fresh in
    pose proof (reset_one_spec l sc k) as (H1 & H2 & H3); rewrite E in H1, H2, H3; cbn [fst snd] in *; clear E
  end.
  split; [congruence |]. split.
  - intros []; simpl; subst; repeat match goal with
      | H : forall _ _, counter ?x _ _ = _ |- context [counter ?x _ _] => rewrite H end;
      repeat (rewrite bool_decide_eq_false_2 by naive_solver); done.
  - intros scope' k'. repeat match goal with
      | H : forall _ _, counter ?x _ _ = _ |- context [counter ?x _ _] => rewrite H end.
    destruct (decide (scope' = scope)) as [-> | Hne].
    + rewrite (bool_decide_eq_true_2 (scope = scope)) by done. destruct k'; repeat case_bool_decide; naive_solver.
    + by repeat (rewrite bool_decide_eq_false_2 by naive_solver).
Qed.

(** The counters after a settlement: six signed additions. *)
Lemma settle_counter now t l key scope ws a b c d e scope' k' :
  let amount := settled_amount a b c d e in
  (forall k, 0 <= amount k < 2 ^ 62) -> (forall k, - 2 ^ 62 <= counter l scope k < 2 ^ 62) ->
  counter (settle_usage now t l key scope ws a b c d e) scope' k' =
    counter l scope' k' + (if bool_decide (scope' = scope) then amount k' else 0).
Proof.
  intros amount Ha Hc. unfold settle_usage.
  set (l1 := foldl _ l (settle_secs ws)).
  assert (forall s k, counter l1 s k = counter l s k) as E1 by (intros; apply counter_bumps).
  assert (forall l k, add_cumulative l scope k (amount k) = add_cumulative_signed l scope k (amount k)) as Es.
  { intros. apply add_cumulative_is_signed. specialize (Ha k). lia. }
  change (counter (foldl (fun l k => add_cumulative l scope k (amount k)) l1 all_kinds) scope' k' =
    counter l scope' k' + (if bool_decide (scope' = scope) then amount k' else 0)).
  unfold all_kinds at 1. cbn [foldl]. rewrite !Es.
  change (counter (foldl (fun l k => add_cumulative_signed l scope k (amount k)) l1 all_kinds) scope' k' =
    counter l scope' k' + (if bool_decide (scope' = scope) then amount k' else 0)).
  rewrite counter_signed_all, E1.
  - assert (k' ∈ all_kinds) by (destruct k'; set_solver). repeat case_bool_decide; try lia; naive_solver.
  - unfold all_kinds. repeat (apply NoDup_cons; split; [set_solver |]). constructor.
  - intros k. unfold i64_room, is_i64. rewrite E1. specialize (Ha k). specialize (Hc k). lia.
Qed.

Lemma restore_all now rows (l : SlidingWindowLimiter) ck :
  NoDup rows.*1 ->
  windows (foldl (fun l kc => restore_counter now l kc.1 kc.2) l rows) !! ck =
    match list_to_map (M := gmap string WindowCounter) rows !! ck with
    | Some c => if expired now c then windows l !! ck else Some c
    | None => windows l !! ck
    end.
Proof.
  revert l. induction rows as [| [k c] rows IH]; intros l Hnd; simpl; [done |].
  apply NoDup_cons in Hnd as [Hn Hnd]. rewrite IH by done. unfold restore_counter.
  destruct (decide (ck = k)) as [-> | Hne].
  - rewrite lookup_insert_eq. rewrite (not_elem_of_list_to_map_1 rows k) by done.
    destruct (expired now c); [done |]. simpl. by rewrite lookup_insert_eq.
  - rewrite lookup_insert_ne by done. destruct (expired now c); [done |]. simpl. by rewrite lookup_insert_ne.
Qed.

Lemma restore_all_cumulative rows (l : SlidingWindowLimiter) :
  windows (foldl (fun l '(ck, v) => restore_cumulative l ck v) l rows) = windows l
  /\ forall ck v, NoDup rows.*1 -> (ck, v) ∈ rows ->
       cumulative (foldl (fun l '(ck, v) => restore_cumulative l ck v) l rows) !! ck = Some v.
Proof.
  split.
  - revert l. induction rows as [| [k c] rows IH]; intros l; simpl; [done |]. by rewrite IH.
  - intros ck v. induction rows as [| [k w] rows IH] using rev_ind; intros Hnd Hin; [set_solver |].
    rewrite foldl_app. simpl. rewrite fmap_app in Hnd. apply NoDup_app in Hnd as (Hnd & Hdis & _).
    apply elem_of_app in Hin as [Hin | [= -> ->]%list_elem_of_singleton]; [| by rewrite lookup_insert_eq].
    rewrite lookup_insert_ne; [auto |]. intros ->. apply (Hdis ck); [| set_solver].
    apply list_elem_of_fmap. by exists (ck, v).
Qed.

Lemma row_roundtrip c :
  0 <= counts c < 2 ^ 63 /\ 0 <= tokens c < 2 ^ 63 /\ 0 <= costs_micros c < 2 ^ 63
  /\ 0 <= window_start c < 2 ^ 63 /\ 0 <= wc_window_secs c < 2 ^ 63 ->
  let '(a, b, d, ws, secs) := row_of c in
  mkWindowCounter (as_u64 a) (as_u64 (default 0 b)) (as_u64 (default 0 d)) (as_u64 ws) (as_u64 secs) = c.
Proof.
  intros (? & ? & ? & ? & ?). unfold row_of. simpl. unfold as_u64.
  rewrite !as_i64_small by lia. rewrite !wrap64_small by (unfold is_u64; lia). by destruct c.
Qed.

End limiter.

(** ** Properties *)

Section properties.
Context {D : Type} `{DecimalOps D}.

(** C17: how far a limit is enforced.  Requests of one key are checked when they arrive and
    counted when their provider has answered, in any order and with settlements in
    between, against windows one of which allows [lim] per [secs] seconds; at most [n] are
    between the two at a time, each of at most [max_weight].  Whatever the other windows and
    dimensions, the counter of the window is the weight counted since its start, at most
    [lim] and [n - 1] times [max_weight]; and no interval of [secs] seconds, wherever it
    starts, sees more than twice that.  For requests one at a time the bound is the limit.
    The windows are not cleared meanwhile. *)
Theorem window_limit_enforced key scope (ws : list (WindowLimit D)) w0 lim n max_weight now tr a :
  w0 ∈ ws -> wl_counts w0 = Some lim -> 0 < window_secs w0 -> (forall w, w ∈ ws -> 0 <= window_secs w) ->
  (1 <= n)%nat -> 0 <= lim -> 0 <= max_weight -> lim + Z.of_nat n * max_weight < 2 ^ 63 ->
  rtc (traffic_step key scope ws n max_weight) (no_traffic now) tr ->
  let bound := lim + Z.of_nat (n - 1) * max_weight in
  (forall c, windows (tr_limiter tr) !! cache_key key (window_secs w0) = Some c ->
     counts c <= bound /\ forall b, clock tr < b -> admitted_between (window_start c) b (counted tr) = counts c)
  /\ admitted_between a (a + window_secs w0) (counted tr) <= 2 * bound.
Proof.
  intros Hw0 Hlim Hpos Hsecs Hn Hl Hm Hr Hrun bound.
  assert (traffic_inv key w0 lim n max_weight tr) as [HI _ _ _].
  { revert Hrun. apply (reachable_invariant _ (traffic_inv key w0 lim n max_weight)); [| intros; by eapply traffic_step_inv].
    split; cbn; [split; [split; intros e He; set_solver | done] | lia | intros w Hw; set_solver | done]. }
  pose proof (overrun_bounds lim n max_weight Hn Hl Hm Hr) as Hb. split; [| by eapply window_inv_bound; [lia.. | exact HI]].
  intros c Hc. rewrite Hc in HI. destruct HI as [[Hp Hlast] (_ & Hst & Hcnt & Hle & _)]. split; [done |]. intros b Hb'.
  rewrite Hcnt, (admitted_split _ (clock tr + 1) b), (admitted_none (clock tr + 1) b); [lia | | lia]. intros e He ?. specialize (Hlast e He). lia.
Qed.

(** The peek decides exactly.  A request is allowed iff it fits every
    configured dimension of every window: its weight fits the counts, and the
    tokens and the cost already settled are below their limits; an expired window
    counts as empty.  The peek changes nothing. *)
Theorem peek_only_exact now l key (ws : list (WindowLimit D)) weight :
  allowed (peek_only now l key ws weight) = true <->
  forall w, w ∈ ws ->
    let '(cur_counts, cur_tokens, cur_costs) := current_usage now l (cache_key key (window_secs w)) in
    (forall lim, wl_counts w = Some lim -> cur_counts +u weight <= lim)
    /\ (forall lim, wl_tokens w = Some lim -> cur_tokens < lim)
    /\ (forall lim, wl_costs w = Some lim -> cur_costs < decimal_to_micros lim).
Proof. apply peek_allowed. Qed.

(** Settlement accounts exactly.  Each of the six permanent counters of the
    scope grows by its own amount, the total cost by the sum of the three costs,
    and no counter of another key or team moves. *)
Theorem settle_usage_accounts now t l key scope (ws : list (WindowLimit D)) a b c d e scope' k' :
  (forall k, 0 <= settled_amount a b c d e k < 2 ^ 62) ->
  (forall k, - 2 ^ 62 <= counter l scope k < 2 ^ 62) ->
  counter (settle_usage now t l key scope ws a b c d e) scope' k' =
    if bool_decide (scope' = scope) then counter l scope' k' + settled_amount a b c d e k' else counter l scope' k'.
Proof. intros Ha Hc. rewrite settle_counter by done. case_bool_decide; lia. Qed.

(** Expiry is invisible.  Dropping the expired windows changes no later
    decision, for any key, any limits and any weight. *)
Theorem cleanup_expired_invisible now now' l key (ws : list (WindowLimit D)) weight :
  now <= now' ->
  allowed (peek_only now' (cleanup_expired now l).1 key ws weight) = allowed (peek_only now' l key ws weight).
Proof.
  intros Hle. assert (forall k, current_usage now' (cleanup_expired now l).1 k = current_usage now' l k) as E.
  { intros k. unfold current_usage, cleanup_expired. simpl. destruct (windows l !! k) as [c |] eqn:El.
    - destruct (expired now c) eqn:Ex.
      + rewrite (expired_later _ _ _ Hle Ex). rewrite map_lookup_filter_None_2; [done |].
        right. intros c' Hc'. simplify_eq. simpl. congruence.
      + by rewrite (map_lookup_filter_Some_2 _ _ _ c).
    - rewrite map_lookup_filter_None_2 by (by left). done. }
  apply eq_true_iff_eq. rewrite !peek_allowed. unfold window_fits. setoid_rewrite E. done.
Qed.
End properties.

(** C21: persistence round-trips.  Writing the limiter to the database and
    restoring it into an empty one, later, gives back exactly the windows that
    have not expired since, and every permanent counter touched since the last
    write. *)
Theorem sync_restore_roundtrip now now' l :
  now <= now' ->
  (forall ck c, windows l !! ck = Some c ->
     0 <= counts c < 2 ^ 63 /\ 0 <= tokens c < 2 ^ 63 /\ 0 <= costs_micros c < 2 ^ 63
     /\ 0 <= window_start c < 2 ^ 63 /\ 0 <= wc_window_secs c < 2 ^ 63) ->
  let '(_, window_rows, cumulative_rows) := sync_counters_to_db now l in
  let l' := restore_counters_from_db now' new_limiter (Some window_rows) (Some cumulative_rows) in
  (forall ck, windows l' !! ck =
     match windows l !! ck with Some c => if expired now' c then None else Some c | None => None end)
  /\ (forall ck, ck ∈ dirty_cumulative l -> cumulative l' !! ck = Some (default 0 (cumulative l !! ck))).
Proof.
  intros Hle Hsmall. unfold sync_counters_to_db, restore_counters_from_db. simpl.
  set (rows := snapshot now l).
  assert (forall kc, kc ∈ rows <-> windows l !! kc.1 = Some kc.2 /\ expired now kc.2 = false) as Hrows.
  { intros [k c]. unfold rows, snapshot. rewrite elem_of_retain, elem_of_map_to_list, negb_true_iff. naive_solver. }
  assert (NoDup rows.*1) as Hnd.
  { eapply sublist_NoDup; [apply (NoDup_fst_map_to_list (windows l)) |]. apply fmap_sublist, sublist_filter. }
  assert (foldl (fun l '(ck, (c, tok, cst, ws, secs)) =>
      restore_counter now' l ck
        (mkWindowCounter (as_u64 c) (as_u64 (default 0 tok)) (as_u64 (default 0 cst)) (as_u64 ws) (as_u64 secs)))
      new_limiter ((fun kv => (kv.1, row_of kv.2)) <$> rows)
    = foldl (fun l kc => restore_counter now' l kc.1 kc.2) new_limiter rows) as ->.
  { assert (forall kc, kc ∈ rows -> windows l !! kc.1 = Some kc.2) as Hin by (intros; by apply Hrows).
    clear Hrows Hnd. generalize new_limiter. induction rows as [| [k c] rows IH]; intros l0; [done |]. simpl.
    rewrite IH by set_solver. f_equal. pose proof (row_roundtrip c (Hsmall k c (Hin (k, c) ltac:(left)))) as E.
    unfold row_of in *. simpl in *. by rewrite E. }
  split.
  - intros ck. rewrite (proj1 (restore_all_cumulative _ _)), restore_all by done. simpl. rewrite lookup_empty.
    destruct (list_to_map rows !! ck) as [c |] eqn:E.
    + apply elem_of_list_to_map_2, Hrows in E as [El Hex]. simpl in El. rewrite El.
      done.
    + apply not_elem_of_list_to_map_2 in E. destruct (windows l !! ck) as [c |] eqn:El; [| done].
      destruct (expired now c) eqn:Ex.
      * by rewrite (expired_later _ _ _ Hle Ex).
      * exfalso. apply E, list_elem_of_fmap. exists (ck, c). split; [done |]. by apply Hrows.
  - intros ck Hck. apply restore_all_cumulative.
    + rewrite <- list_fmap_compose. simpl. rewrite list_fmap_id. apply NoDup_elements.
    + apply list_elem_of_fmap. exists ck. split; [done |]. by apply elem_of_elements.
Qed.

(** Sum of the members' counters. *)
Definition members_total (l : SlidingWindowLimiter) (members : list string) (k : CumulativeKind) : Z :=
  zsum (fun kh => counter l (ScopeKey kh) k) members.

(** The counters after [clear_key_cumulative_db]: the key's go to zero, the
    team's go down by as much when the statement succeeds. *)
Lemma clear_key_cumulative_counter l kh tid ok k scope :
  (forall k, 0 <= counter l (ScopeKey kh) k < 2 ^ 62) -> (forall k, 0 <= counter l (ScopeTeam tid) k < 2 ^ 62) ->
  counter (clear_key_cumulative_db l kh (Some tid) ok).1 scope k =
    if bool_decide (scope = ScopeKey kh) then 0
    else if bool_decide (scope = ScopeTeam tid) then
      counter l scope k - (if ok then counter l (ScopeKey kh) k else 0)
    else counter l scope k.
Proof.
  intros Hk Ht. unfold clear_key_cumulative_db.
  destruct (reset_cumulative_local l (ScopeKey kh)) as [l1 prev] eqn:E.
  apply reset_cumulative_spec in E as (_ & Hsnap & Hc). destruct ok; simpl.
  2: { rewrite Hc. repeat case_bool_decide; try lia; done. }
  assert (forall k, snap_field prev k = counter l (ScopeKey kh) k) as Hs by (intros k'; rewrite Hsnap; specialize (Hk k'); lia).
  set (amount := fun k => i64_neg (as_i64 (snap_field prev k))).
  assert (forall k, amount k = - counter l (ScopeKey kh) k) as Ha.
  { intros k'. unfold amount, i64_neg. rewrite Hs. specialize (Hk k'). rewrite (as_i64_small (counter _ _ _)) by lia. apply as_i64_id. unfold is_i64. lia. }
  change (counter (foldl (fun l k => add_cumulative_signed l (ScopeTeam tid) k (amount k)) l1 all_kinds) scope k = 
    if bool_decide (scope = ScopeKey kh) then 0
    else if bool_decide (scope = ScopeTeam tid) then counter l scope k - counter l (ScopeKey kh) k else counter l scope k).
  rewrite counter_signed_all, Hc, Ha.
  - assert (k ∈ all_kinds) by (destruct k; set_solver). destruct scope; repeat case_bool_decide; try lia; naive_solver.
  - unfold all_kinds. repeat (apply NoDup_cons; split; [set_solver |]). constructor.
  - intros k'. unfold i64_room, is_i64. rewrite Hc, Ha, bool_decide_eq_false_2 by done.
    specialize (Hk k'). specialize (Ht k'). lia.
Qed.

Lemma zsum_update {A} `{EqDecision A} (f g : A -> Z) (xs : list A) x :
  NoDup xs -> x ∈ xs -> (forall y, y <> x -> g y = f y) -> zsum g xs = zsum f xs - f x + g x.
Proof.
  intros Hnd Hin Hg. apply elem_of_Permutation in Hin as [ys Hp]. rewrite Hp in *. apply NoDup_cons in Hnd as [Hx _].
  rewrite !zsum_cons. assert (zsum g ys = zsum f ys) as ->; [| lia].
  apply zsum_ext. intros y Hy. apply Hg. intros ->. done.
Qed.

(** The team rollup.  Clearing one member's permanent counters keeps the team's
    counters equal to the sum of its members' when the database statement
    succeeds; when it fails, the member is already at zero but the team still
    counts what it had. *)
Theorem team_rollup l kh tid members ok k :
  NoDup members -> kh ∈ members ->
  (forall k, 0 <= counter l (ScopeKey kh) k < 2 ^ 62) -> (forall k, 0 <= counter l (ScopeTeam tid) k < 2 ^ 62) ->
  counter l (ScopeTeam tid) k = members_total l members k ->
  let l' := (clear_key_cumulative_db l kh (Some tid) ok).1 in
  counter l' (ScopeKey kh) k = 0
  /\ counter l' (ScopeTeam tid) k = members_total l' members k + (if ok then 0 else counter l (ScopeKey kh) k).
Proof.
  intros Hnd Hin Hk Ht Heq l'. unfold l', members_total in *.
  rewrite (zsum_update (fun kh => counter l (ScopeKey kh) k)
    (fun kh0 => counter (clear_key_cumulative_db l kh (Some tid) ok).1 (ScopeKey kh0) k) members kh Hnd Hin).
  2: { intros y Hy. rewrite clear_key_cumulative_counter by done. by rewrite !bool_decide_eq_false_2 by congruence. }
  rewrite !clear_key_cumulative_counter by done.
  rewrite (bool_decide_eq_true_2 (ScopeKey kh = ScopeKey kh)) by done.
  rewrite (bool_decide_eq_false_2 (ScopeTeam tid = ScopeKey kh)) by done.
  rewrite (bool_decide_eq_true_2 (ScopeTeam tid = ScopeTeam tid)) by done. destruct ok; split; lia.
Qed.

(** The dashboard finds what was charged.  A running window of a key is listed
    by [peek_key_windows] under the model and the length it was stored with, even
    when the model name contains colons, with its tokens and its cost. *)
Theorem peek_key_windows_complete now l key secs c :
  windows l !! cache_key key secs = Some c -> expired now c = false -> is_u64 secs ->
  let info k n := mkWindowInfo k (rl_model key) secs n (elapsed now c) (wc_window_secs c -sat elapsed now c) in
  (0 < tokens c -> info WkTokens (tokens c) ∈ peek_key_windows now l (key_hash key))
  /\ (0 < costs_micros c -> info WkCostMicros (costs_micros c) ∈ peek_key_windows now l (key_hash key)).
Proof.
  intros Hl Hex Hs info. unfold peek_key_windows, scan_windows.
  assert (scan_entry now (key_hash key +:+ ":") (cache_key key secs) c =
    ((if 0 <? tokens c then [info WkTokens (tokens c)] else [])
     ++ (if 0 <? costs_micros c then [info WkCostMicros (costs_micros c)] else []))%list) as E.
  { unfold scan_entry, cache_key. rewrite <- (append_assoc (key_hash key) ":"), strip_prefix_app, Hex.
    rewrite append_cons, append_nil, rsplit_once_app by apply show_no_colon. by rewrite parse_show by done. }
  assert ((cache_key key secs, c) ∈ map_to_list (windows l)) as Hm by (by apply elem_of_map_to_list).
  split; intros Hp; apply list_elem_of_bind; exists (cache_key key secs, c); (split; [| done]); simpl; rewrite E;
    rewrite (proj2 (Z.ltb_lt _ _) Hp); set_solver.
Qed.

(** *** Witnesses *)

Definition demo_key : RateLimitKey := mkRateLimitKey "4f2a" "gpt:4".
Definition demo_windows : list (WindowLimit Z) := [mkWindowLimit (Some 2) (Some 100) (Some 5) 60].
#[local] Existing Instance whole_decimal.

(** One request after the other. *)
Definition served (tr : Traffic) (now : Z) : Traffic :=
  mkTraffic (commit_counts now now (tr_limiter tr) demo_key demo_windows 1).1 (in_flight tr) ((now, 1) :: counted tr) now.
Lemma served_steps n tr now : (length (in_flight tr) < n)%nat -> clock tr <= now -> allowed (peek_only now (tr_limiter tr) demo_key demo_windows 1) = true ->
  rtc (traffic_step demo_key (ScopeKey "4f2a") demo_windows n 1) tr (served tr now).
Proof.
  intros Hl Hc Ha. eapply rtc_l; [by apply (ts_check _ _ _ _ _ tr now 1) |]. apply rtc_once.
  by apply (ts_commit _ _ _ _ _ (mkTraffic (tr_limiter tr) (1 :: in_flight tr) (counted tr) now) now [] 1 (in_flight tr)).
Qed.
(** Two requests just before and two just after the end of a window. *)
Definition burst : Traffic :=
  let tr := mkTraffic (settle_usage 0 0 new_limiter demo_key (ScopeKey "4f2a") demo_windows 1 0 0 0 0) [] [] 0 in served (served (served (served tr 59) 59) 60) 60.
Lemma burst_reached n : (1 <= n)%nat -> rtc (traffic_step demo_key (ScopeKey "4f2a") demo_windows n 1) (no_traffic 0) burst.
Proof.
  intros Hn. eapply rtc_l; [by apply (ts_settle _ _ _ _ _ (no_traffic 0) 0 1 0 0 0 0) |]. unfold burst.
  do 4 (etransitivity; [| apply served_steps; [exact Hn | by vm_compute | by vm_compute]]). reflexivity.
Qed.

Lemma window_limit_enforced_witness : admitted_between 1 61 (counted burst) <= 4.
Proof.
  refine (proj2 (window_limit_enforced demo_key (ScopeKey "4f2a") demo_windows (mkWindowLimit (Some 2) (Some 100) (Some 5) 60) 2 1 1 0 burst 1 _ eq_refl eq_refl _ _ _ _ _ (burst_reached 1 _))).
  - apply elem_of_cons. by left.
  - unfold demo_windows. intros w Hw2. apply list_elem_of_singleton in Hw2. subst w. vm_compute. discriminate.
  - lia.
  - lia.
  - lia.
  - lia.
  - lia.
Defined.

(** The bound [2 * lim] is reached.  With a limit of 2 per 60 seconds, four
    requests, one after the other, are admitted within two seconds across the end of a
    window: the windows are fixed, not sliding. *)
Theorem window_burst_doubles :
  rtc (traffic_step demo_key (ScopeKey "4f2a") demo_windows 1 1) (no_traffic 0) burst /\ admitted_between 59 61 (counted burst) = 4.
Proof. split; [by apply burst_reached | vm_compute; reflexivity]. Qed.

Definition demo_limiter : SlidingWindowLimiter :=
  settle_usage 1000 1000 new_limiter demo_key (ScopeKey "4f2a") demo_windows 7 3 0 0 2.

Lemma settle_usage_accounts_witness :
  counter (settle_usage 1001 1001 demo_limiter demo_key (ScopeKey "4f2a") demo_windows 5 4 3 2 1) (ScopeKey "4f2a") TotalCost = 8.
Proof.
  rewrite (settle_usage_accounts 1001 1001 demo_limiter demo_key (ScopeKey "4f2a") demo_windows 5 4 3 2 1); [reflexivity | |];
    intros []; vm_compute; split; (reflexivity || discriminate).
Defined.

Lemma cleanup_expired_invisible_witness :
  allowed (peek_only 1061 (cleanup_expired 1060 demo_limiter).1 demo_key demo_windows 1)
  = allowed (peek_only 1061 demo_limiter demo_key demo_windows 1).
Proof. apply cleanup_expired_invisible. lia. Defined.

Lemma sync_restore_roundtrip_witness :
  let '(_, rows, crows) := sync_counters_to_db 1010 demo_limiter in
  cumulative (restore_counters_from_db 1020 new_limiter (Some rows) (Some crows)) !! "kc:4f2a:tin" = Some 7.
Proof.
  pose proof (sync_restore_roundtrip 1010 1020 demo_limiter ltac:(lia)) as Hs.
  assert (forall ck c, windows demo_limiter !! ck = Some c ->
     0 <= counts c < 2 ^ 63 /\ 0 <= tokens c < 2 ^ 63 /\ 0 <= costs_micros c < 2 ^ 63
     /\ 0 <= window_start c < 2 ^ 63 /\ 0 <= wc_window_secs c < 2 ^ 63) as Hsm.
  { intros ck c Hc. change (windows demo_limiter) with
      (<[cache_key demo_key 60 := mkWindowCounter 0 10 2 1000 60]> (∅ : gmap string WindowCounter)) in Hc.
    apply lookup_insert_Some in Hc as [[_ <-] | [_ Hc]]; [vm_compute; split_and!; (reflexivity || discriminate) |].
    by rewrite lookup_empty in Hc. }
  exact (proj2 (Hs Hsm) "kc:4f2a:tin" ltac:(apply (bool_decide_unpack _); vm_compute; exact I)).
Defined.

Definition demo_team : SlidingWindowLimiter :=
  settle_usage 1000 1000 demo_limiter demo_key (ScopeTeam "t1") demo_windows 7 3 0 0 2.

Lemma team_rollup_witness :
  counter (clear_key_cumulative_db demo_team "4f2a" (Some "t1") true).1 (ScopeTeam "t1") TotalOutputCost = 0.
Proof.
  refine (eq_trans (proj2 (team_rollup demo_team "4f2a" "t1" ["4f2a"] true TotalOutputCost _ _ _ _ _)) _);
    [apply NoDup_singleton | apply elem_of_cons; by left | intros []; vm_compute; split; (reflexivity || discriminate)
    | intros []; vm_compute; split; (reflexivity || discriminate) | reflexivity | reflexivity].
Defined.

Lemma peek_key_windows_complete_witness :
  mkWindowInfo WkTokens "gpt:4" 60 10 5 55 ∈ peek_key_windows 1005 demo_limiter "4f2a".
Proof.
  refine (proj1 (peek_key_windows_complete 1005 demo_limiter demo_key 60 (mkWindowCounter 0 10 2 1000 60) _ _ _) _);
    [reflexivity | reflexivity | split; vm_compute; (reflexivity || discriminate) | reflexivity].
Defined.

End SlidingWindow.
