(* ===== verification/PlanStore.v ===== *)
(** * PlanStore: rate-limit plans, schedules, assignments, concurrency (boom-limiter)

    Models [boom-gateway/boom-limiter/src/concurrency.rs]: the plan with its
    time-based schedule and its effective limits, the in-memory plan and
    assignment store with its database write-through, and the concurrency counters
    with their RAII guards as a transition system over shared atomic cells.  The
    wall clock is an argument: seconds since the epoch.  The rows of the
    tables with their JSON are in [PlanTable]. *)

From S2P Require Import Prelude Core Text.

Module PlanStore.
Import Core.

Section plans.
Context {D : Type} `{DecimalOps D}.

(** ** Data *)

Record ScheduleSlot := mkScheduleSlot {
  hours : string;
  slot_concurrency_limit : option Z;
  slot_rpm_limit : option Z;
  slot_tpm_limit : option Z;
  slot_window_limits : list (WindowLimit D);
}.

Record RateLimitPlan := mkRateLimitPlan {
  name : string;
  plan_type : PlanType;
  member_plan : option string;
  concurrency_limit : option Z;
  rpm_limit : option Z;
  tpm_limit : option Z;
  window_limits : list (WindowLimit D);
  total_token_limit : option Z;
  total_cost_limit : option D;
  schedule : list ScheduleSlot;
}.

(** ** Hours *)

(** ["H:MM"] in minutes, in [u32] arithmetic. *)
Definition parse_hm (s : string) : option Z :=
  '(h, m) ← split_once ":" s;
  h' ← parse_u32 h;
  m' ← parse_u32 m;
  Some (u32_add (u32_mul h' 60) m').

Definition parse_hours (s : string) : option (Z * Z) :=
  '(a, b) ← split_once "-" s;
  a' ← parse_hm (trim a);
  b' ← parse_hm (trim b);
  Some (a', b').

Definition expand_range (start stop : Z) : list (Z * Z) :=
  if start <? stop then [(start, stop)]
  else if start =? stop then [(0, 1440)]
  else [(start, 1440); (0, stop)].

(** Minute of the day at UTC+8. *)
Definition minute_of_day (epoch : Z) : Z := ((epoch + 8 * 3600) `mod` 86400) `div` 60.

Definition slot_active_at (minute : Z) (s : ScheduleSlot) : bool :=
  match parse_hours (hours s) with
  | None => false
  | Some (start_min, end_min) =>
    if start_min <=? end_min then (start_min <=? minute) && (minute <? end_min)
    else (start_min <=? minute) || (minute <? end_min)
  end.

Definition is_active_now (epoch : Z) (s : ScheduleSlot) : bool := slot_active_at (minute_of_day epoch) s.

(** ** Effective limits *)

Definition has_60s_counts (ws : list (WindowLimit D)) : bool :=
  existsb (fun w => (window_secs w =? 60) && negb (is_none (wl_counts w))) ws.
Definition has_60s_tokens (ws : list (WindowLimit D)) : bool :=
  existsb (fun w => (window_secs w =? 60) && negb (is_none (wl_tokens w))) ws.

Definition merge_shorthand (ws : list (WindowLimit D)) (rpm tpm : option Z) : list (WindowLimit D) :=
  let has_counts := has_60s_counts ws in
  let has_tokens := has_60s_tokens ws in
  let need_new_60s := (negb (is_none rpm) && negb has_counts) || (negb (is_none tpm) && negb has_tokens) in
  if negb need_new_60s then ws
  else
    let '(ws1, idx) := match list_find (fun w => window_secs w = 60) ws with
    | Some (i, _) => (ws, i)
    | None => (ws ++ [mkWindowLimit None None None 60], length ws)
    end in
    let ws2 := if has_counts then ws1
               else alter (fun w => mkWindowLimit rpm (wl_tokens w) (wl_costs w) (window_secs w)) idx ws1 in
    if has_tokens then ws2
    else alter (fun w => mkWindowLimit (wl_counts w) tpm (wl_costs w) (window_secs w)) idx ws2.

Definition secs_of (ws : list (WindowLimit D)) : list Z := window_secs <$> ws.

Definition option_or {A} (a b : option A) : option A := match a with Some _ => a | None => b end.

(** The loop over [schedule]: the first active slot wins. *)
Definition effective_limits (epoch : Z) (p : RateLimitPlan)
  : option Z * list (WindowLimit D) * list Z :=
  match list_find (fun s => is_active_now epoch s = true) (schedule p) with
  | Some (_, slot) =>
    let ws := if decide (slot_window_limits slot = []) then window_limits p else slot_window_limits slot in
    let merged := merge_shorthand ws (option_or (slot_rpm_limit slot) (rpm_limit p))
                                     (option_or (slot_tpm_limit slot) (tpm_limit p)) in
    let active_secs := secs_of merged in
    (option_or (slot_concurrency_limit slot) (concurrency_limit p), merged,
     retain (fun s => negb (bool_decide (s ∈ active_secs))) (secs_of (window_limits p)))
  | None =>
    let base_secs := secs_of (window_limits p) in
    (concurrency_limit p, merge_shorthand (window_limits p) (rpm_limit p) (tpm_limit p),
     retain (fun s => negb (bool_decide (s ∈ base_secs)))
            (secs_of (schedule p ≫= slot_window_limits)))
  end.

(** ** Schedule validation *)

Definition ranges_overlap (a b : Z * Z) : bool := Z.max a.1 b.1 <? Z.min a.2 b.2.

Definition hours_overlap (a b : Z * Z) : bool :=
  existsb (fun ra => existsb (ranges_overlap ra) (expand_range b.1 b.2)) (expand_range a.1 a.2).

(** [(index, start, end)] of the slots whose hours parse. *)
Definition parsed_ranges (slots : list ScheduleSlot) : list (nat * (Z * Z)) :=
  omap (fun ix : nat * ScheduleSlot => (pair ix.1) <$> parse_hours (hours ix.2)) (imap pair slots).

(** The two nested index loops: the first conflicting pair. *)
Fixpoint first_conflict (rs : list (nat * (Z * Z))) : option (nat * nat) :=
  match rs with
  | [] => None
  | (i, a) :: rest =>
    match list_find (fun jb => hours_overlap a jb.2 = true) rest with
    | Some (_, (j, _)) => Some (i, j)
    | None => first_conflict rest
    end
  end.

Definition validate_schedule_overlap (p : RateLimitPlan) : string + unit :=
  match first_conflict (parsed_ranges (schedule p)) with
  | Some (i, j) => inl ("schedule slots " +:+ show (Z.of_nat i + 1) +:+ " and " +:+ show (Z.of_nat j + 1) +:+ " overlap in time")
  | None => inr tt
  end.

(** ** The store *)

Record PlanStore := mkPlanStore {
  plans : gmap string RateLimitPlan;
  key_assignments : gmap string (option string);
  team_assignments : gmap string string;
  default_plan_name : option string;
  default_team_plan_name : option string;
}.

Definition new_store : PlanStore := mkPlanStore ∅ ∅ ∅ None None.

Definition set_plans (s : PlanStore) m := mkPlanStore m (key_assignments s) (team_assignments s) (default_plan_name s) (default_team_plan_name s).
Definition set_keys (s : PlanStore) m := mkPlanStore (plans s) m (team_assignments s) (default_plan_name s) (default_team_plan_name s).
Definition set_teams (s : PlanStore) m := mkPlanStore (plans s) (key_assignments s) m (default_plan_name s) (default_team_plan_name s).

Definition set_default_plan (s : PlanStore) (n : option string) : PlanStore :=
  mkPlanStore (plans s) (key_assignments s) (team_assignments s) n (default_team_plan_name s).
Definition set_default_team_plan (s : PlanStore) (n : option string) : PlanStore :=
  mkPlanStore (plans s) (key_assignments s) (team_assignments s) (default_plan_name s) n.

Definition get_default_plan (s : PlanStore) : option RateLimitPlan :=
  n ← default_plan_name s; plans s !! n.
Definition get_default_team_plan (s : PlanStore) : option RateLimitPlan :=
  n ← default_team_plan_name s; plans s !! n.

Definition get_plan_name_explicit (s : PlanStore) (kh : string) : option (option string) := key_assignments s !! kh.

Definition get_plan_name (s : PlanStore) (kh : string) : option string :=
  match get_plan_name_explicit s kh with Some (Some n) => Some n | _ => None end.

Definition resolve_plan (s : PlanStore) (kh : string) : option RateLimitPlan :=
  choice ← key_assignments s !! kh; plan_name ← choice; plans s !! plan_name.

Definition get_team_plan_name (s : PlanStore) (tid : string) : option string := team_assignments s !! tid.

Definition get_team_plan_name_effective (s : PlanStore) (tid : string) : option string :=
  option_or (get_team_plan_name s tid) (default_team_plan_name s).

Definition resolve_team_plan (s : PlanStore) (tid : string) : option RateLimitPlan :=
  match n ← team_assignments s !! tid; plans s !! n with
  | Some p => Some p
  | None => get_default_team_plan s
  end.

Definition upsert_plan (s : PlanStore) (p : RateLimitPlan) : PlanStore := set_plans s (<[name p := p]> (plans s)).

Definition get_plan (s : PlanStore) (n : string) : option RateLimitPlan := plans s !! n.

Definition delete_plan (s : PlanStore) (n : string) : PlanStore * bool :=
  (mkPlanStore (delete n (plans s))
     (base.filter (fun kv => kv.2 <> Some n) (key_assignments s))
     (base.filter (fun kv => kv.2 <> n) (team_assignments s))
     (default_plan_name s) (default_team_plan_name s),
   negb (is_none (plans s !! n))).

Definition validate_plan_for_key (s : PlanStore) (n kh : string) : string + unit :=
  match plans s !! n with
  | None => inl ("Plan '" +:+ n +:+ "' not found")
  | Some p =>
    if decide (plan_type p = PlanTeam)
    then inl ("Plan '" +:+ n +:+ "' is type=team, cannot be assigned to key '" +:+ kh +:+ "'. Use a type=key plan or default_plan.")
    else inr tt
  end.

Definition validate_plan_for_team (s : PlanStore) (n tid : string) : string + unit :=
  match plans s !! n with
  | None => inl ("Plan '" +:+ n +:+ "' not found")
  | Some p =>
    if decide (plan_type p = PlanKey)
    then inl ("Plan '" +:+ n +:+ "' is type=key, cannot be assigned to team '" +:+ tid +:+ "'. Use a type=team plan.")
    else inr tt
  end.

Definition apply_key_assignment (s : PlanStore) (kh n : string) : PlanStore :=
  set_keys s (<[kh := Some n]> (key_assignments s)).
Definition apply_team_assignment (s : PlanStore) (tid n : string) : PlanStore :=
  set_teams s (<[tid := n]> (team_assignments s)).

Definition assign_key (s : PlanStore) (kh n : string) : PlanStore * (string + unit) :=
  match validate_plan_for_key s n kh with
  | inl e => (s, inl e)
  | inr _ => (apply_key_assignment s kh n, inr tt)
  end.

Definition assign_team (s : PlanStore) (tid n : string) : PlanStore * (string + unit) :=
  match validate_plan_for_team s n tid with
  | inl e => (s, inl e)
  | inr _ => (apply_team_assignment s tid n, inr tt)
  end.

Definition assign_key_no_plan (s : PlanStore) (kh : string) : PlanStore :=
  set_keys s (<[kh := None]> (key_assignments s)).

Definition unassign_key (s : PlanStore) (kh : string) : PlanStore * bool :=
  (set_keys s (delete kh (key_assignments s)), negb (is_none (key_assignments s !! kh))).
Definition unassign_team (s : PlanStore) (tid : string) : PlanStore * bool :=
  (set_teams s (delete tid (team_assignments s)), negb (is_none (team_assignments s !! tid))).

Definition restore_assignment (s : PlanStore) (kh : string) (n : option string) : PlanStore :=
  set_keys s (<[kh := n]> (key_assignments s)).
Definition restore_team_assignment (s : PlanStore) (tid n : string) : PlanStore :=
  set_teams s (<[tid := n]> (team_assignments s)).

Definition snapshot_assignments (s : PlanStore) : list (string * option string) := map_to_list (key_assignments s).
Definition snapshot_team_assignments (s : PlanStore) : list (string * string) := map_to_list (team_assignments s).

Definition clear_plans (s : PlanStore) : PlanStore :=
  mkPlanStore ∅ (key_assignments s) (team_assignments s) None None.

Definition plan_exists (s : PlanStore) (n : string) : bool := negb (is_none (plans s !! n)).

Definition cleanup_assignments (s : PlanStore) : PlanStore :=
  mkPlanStore (plans s)
    (base.filter (fun kv => match kv.2 with None => true | Some n => plan_exists s n end = true) (key_assignments s))
    (base.filter (fun kv => plan_exists s kv.2 = true) (team_assignments s))
    (default_plan_name s) (default_team_plan_name s).

(** *** Write-through to the database

    A statement's outcome is [Some rows_affected], or [None] when it fails. *)

(** UPDATE, then INSERT, then UPDATE again: whether the row was written. *)
Definition upsert_outcome (update : option Z) (insert_ok : bool) (retry : option Z) : string + unit :=
  match update with
  | None => inl "DB error"
  | Some n =>
    if (n =? 0) && negb insert_ok then match retry with None => inl "DB error" | Some _ => inr tt end
    else inr tt
  end.

Definition assign_key_db (s : PlanStore) (kh n : string) (update : option Z) (insert_ok : bool) (retry : option Z)
  : PlanStore * (string + unit) :=
  match validate_plan_for_key s n kh with
  | inl e => (s, inl e)
  | inr _ =>
    match upsert_outcome update insert_ok retry with
    | inl e => (s, inl e)
    | inr _ => (apply_key_assignment s kh n, inr tt)
    end
  end.

Definition assign_team_db (s : PlanStore) (tid n : string) (update : option Z) (insert_ok : bool) (retry : option Z)
  : PlanStore * (string + unit) :=
  match validate_plan_for_team s n tid with
  | inl e => (s, inl e)
  | inr _ =>
    match upsert_outcome update insert_ok retry with
    | inl e => (s, inl e)
    | inr _ => (apply_team_assignment s tid n, inr tt)
    end
  end.

(** Unlike [assign_key_db], a retry that affects no row is an error here. *)
Definition assign_key_no_plan_db (s : PlanStore) (kh : string) (update : option Z) (insert_ok : bool) (retry : option Z)
  : PlanStore * (string + unit) :=
  match update with
  | None => (s, inl "DB error")
  | Some n =>
    if (n =? 0) && negb insert_ok then
      match retry with
      | None => (s, inl "DB error")
      | Some r => if r =? 0 then (s, inl "Failed to persist 'no plan' assignment") else (assign_key_no_plan s kh, inr tt)
      end
    else (assign_key_no_plan s kh, inr tt)
  end.

Definition unassign_key_db (s : PlanStore) (kh : string) (deleted : option Z) : PlanStore * (string + bool) :=
  match deleted with
  | None => (s, inl "DB error")
  | Some n => if 0 <? n then ((unassign_key s kh).1, inr true) else (s, inr false)
  end.

Definition unassign_team_db (s : PlanStore) (tid : string) (deleted : option Z) : PlanStore * (string + bool) :=
  match deleted with
  | None => (s, inl "DB error")
  | Some n => if 0 <? n then ((unassign_team s tid).1, inr true) else (s, inr false)
  end.

Definition delete_plan_db (s : PlanStore) (n : string) (deleted : option Z) : PlanStore * (string + bool) :=
  match deleted with
  | None => (s, inl "DB error")
  | Some r => if 0 <? r then ((delete_plan s n).1, inr true) else (s, inr false)
  end.

Definition upsert_plan_db (s : PlanStore) (p : RateLimitPlan) (db_ok : bool) : PlanStore * (string + unit) :=
  if db_ok then (upsert_plan s p, inr tt) else (s, inl "DB error").

Definition restore_assignments_from_db (s : PlanStore) (rows : option (list (string * option string))) : PlanStore :=
  foldl (fun s '(kh, n) => restore_assignment s kh n) s (default [] rows).
Definition restore_team_assignments_from_db (s : PlanStore) (rows : option (list (string * string))) : PlanStore :=
  foldl (fun s '(tid, n) => restore_team_assignment s tid n) s (default [] rows).

(** ** Lemmas: shorthand limits *)

(** The request-count and token limits of a window list, as (dimension, seconds,
    limit), and its cost limits. *)
Definition rate_entries (ws : list (WindowLimit D)) : list (LimitDimension * Z * Z) :=
  ws ≫= fun w => (match wl_counts w with Some l => [(Counts, window_secs w, l)] | None => [] end)
             ++ (match wl_tokens w with Some l => [(Tokens, window_secs w, l)] | None => [] end).
Definition cost_entries (ws : list (WindowLimit D)) : list (Z * D) :=
  omap (fun w => pair (window_secs w) <$> wl_costs w) ws.

Definition shorthand (dim : LimitDimension) (covered : bool) (o : option Z) : list (LimitDimension * Z * Z) :=
  match o with Some l => if covered then [] else [(dim, 60, l)] | None => [] end.

Lemma has_60s_counts_false ws w : has_60s_counts ws = false -> w ∈ ws -> window_secs w = 60 -> wl_counts w = None.
Proof.
  intros Hf Hw Hs. destruct (wl_counts w) eqn:E; [| done]. exfalso. apply not_true_iff_false in Hf. apply Hf.
  apply existsb_elem. exists w. split; [done |]. by rewrite Hs, E.
Qed.
Lemma has_60s_tokens_false ws w : has_60s_tokens ws = false -> w ∈ ws -> window_secs w = 60 -> wl_tokens w = None.
Proof.
  intros Hf Hw Hs. destruct (wl_tokens w) eqn:E; [| done]. exfalso. apply not_true_iff_false in Hf. apply Hf.
  apply existsb_elem. exists w. split; [done |]. by rewrite Hs, E.
Qed.

(** [merge_shorthand] fills in the first 60 s entry. *)
Lemma merge_shape ws rpm tpm :
  (merge_shorthand ws rpm tpm = ws /\ shorthand Counts (has_60s_counts ws) rpm = []
   /\ shorthand Tokens (has_60s_tokens ws) tpm = []) \/
  exists l1 w l2, (ws = l1 ++ w :: l2 \/ (ws = l1 /\ w = mkWindowLimit None None None 60 /\ l2 = []))
    /\ window_secs w = 60
    /\ merge_shorthand ws rpm tpm =
        l1 ++ mkWindowLimit (if has_60s_counts ws then wl_counts w else rpm)
                (if has_60s_tokens ws then wl_tokens w else tpm) (wl_costs w) (window_secs w) :: l2.
Proof.
  unfold merge_shorthand. destruct (negb (_ || _)) eqn:En; [left | right].
  { apply negb_true_iff, orb_false_iff in En as [E1 E2]. split; [done |].
    destruct rpm, tpm, (has_60s_counts ws), (has_60s_tokens ws); done. }
  assert (forall f (l1 l2 : list (WindowLimit D)) w, alter f (length l1) (l1 ++ w :: l2) = l1 ++ f w :: l2) as Ha.
  { intros f l1 l2 w. rewrite <- (Nat.add_0_r (length l1)), alter_app_r. done. }
  destruct (list_find _ ws) as [[i w] |] eqn:E.
  - apply list_find_Some in E as (Hl & Hw & _). apply list_elem_of_split_length in Hl as (l1 & l2 & -> & ->).
    exists l1, w, l2. split; [by left |]. split; [done |].
    destruct (has_60s_counts _), (has_60s_tokens _); rewrite ?Ha; by destruct w.
  - exists ws, (mkWindowLimit None None None 60), []. split; [by right |]. split; [done |].
    destruct (has_60s_counts _), (has_60s_tokens _); rewrite ?Ha; done.
Qed.

Lemma rate_entries_app l1 l2 : rate_entries (l1 ++ l2) = rate_entries l1 ++ rate_entries l2.
Proof. apply bind_app. Qed.
Lemma rate_entries_cons w l : rate_entries (w :: l) =
  (match wl_counts w with Some l => [(Counts, window_secs w, l)] | None => [] end)
  ++ (match wl_tokens w with Some l => [(Tokens, window_secs w, l)] | None => [] end) ++ rate_entries l.
Proof. unfold rate_entries. simpl. by rewrite app_assoc. Qed.

Lemma merge_rate_entries ws rpm tpm :
  rate_entries (merge_shorthand ws rpm tpm) ≡ₚ
    rate_entries ws ++ shorthand Counts (has_60s_counts ws) rpm ++ shorthand Tokens (has_60s_tokens ws) tpm.
Proof.
  destruct (merge_shape ws rpm tpm) as [(-> & -> & ->) | (l1 & w & l2 & Hws & Hs & ->)]; [by rewrite !app_nil_r |].
  assert (has_60s_counts ws = false -> wl_counts w = None) as Hc.
  { intros Hf. destruct Hws as [-> | (-> & -> & ->)]; [| done]. eapply has_60s_counts_false; [done | set_solver | done]. }
  assert (has_60s_tokens ws = false -> wl_tokens w = None) as Ht.
  { intros Hf. destruct Hws as [-> | (-> & -> & ->)]; [| done]. eapply has_60s_tokens_false; [done | set_solver | done]. }
  assert (rate_entries ws = rate_entries l1 ++
    (match wl_counts w with Some l => [(Counts, 60, l)] | None => [] end)
    ++ (match wl_tokens w with Some l => [(Tokens, 60, l)] | None => [] end) ++ rate_entries l2) as Ews.
  { destruct Hws as [-> | (-> & -> & ->)]; [by rewrite rate_entries_app, rate_entries_cons, Hs |].
    simpl. by rewrite !app_nil_r. }
  rewrite Ews, rate_entries_app, rate_entries_cons. simpl. rewrite Hs.
  destruct (has_60s_counts ws), (has_60s_tokens ws); try rewrite (Hc eq_refl); try rewrite (Ht eq_refl);
    destruct rpm, tpm; simpl; rewrite ?app_nil_r; repeat case_match; simpl; rewrite ?app_nil_r; solve_Permutation.
Qed.

Lemma merge_cost_entries ws rpm tpm : cost_entries (merge_shorthand ws rpm tpm) = cost_entries ws.
Proof.
  destruct (merge_shape ws rpm tpm) as [(-> & _) | (l1 & w & l2 & Hws & Hs & ->)]; [done |].
  unfold cost_entries. rewrite omap_app. simpl.
  destruct Hws as [-> | (-> & -> & ->)]; [by rewrite omap_app | simpl; by rewrite app_nil_r].
Qed.

(** ** Lemmas: the schedule *)

Lemma active_in_ranges m s a b :
  0 <= m < 1440 -> parse_hours (hours s) = Some (a, b) -> slot_active_at m s = true ->
  exists r, r ∈ expand_range a b /\ r.1 <= m < r.2.
Proof.
  intros Hm Hp Ha. unfold slot_active_at in Ha. rewrite Hp in Ha. unfold expand_range.
  destruct (Z.leb_spec a b).
  - bool_simpl. destruct (Z.ltb_spec a b); [| lia]. exists (a, b). split; [set_solver | simpl; lia].
  - destruct (Z.ltb_spec a b), (Z.eqb_spec a b); try lia.
    apply orb_true_iff in Ha as [Ha | Ha]; bool_simpl.
    + exists (a, 1440). split; [set_solver | simpl; lia].
    + exists (0, b). split; [set_solver | simpl; lia].
Qed.

Lemma hours_overlap_spec x y :
  hours_overlap x y = true <-> exists ra rb, ra ∈ expand_range x.1 x.2 /\ rb ∈ expand_range y.1 y.2
    /\ Z.max ra.1 rb.1 < Z.min ra.2 rb.2.
Proof.
  unfold hours_overlap, ranges_overlap. rewrite existsb_elem. setoid_rewrite existsb_elem. setoid_rewrite Z.ltb_lt. naive_solver.
Qed.

Lemma hours_overlap_sym x y : hours_overlap x y = true -> hours_overlap y x = true.
Proof. rewrite !hours_overlap_spec. intros (ra & rb & ? & ? & ?). exists rb, ra. split_and!; auto. lia. Qed.

Lemma first_conflict_none rs x y :
  first_conflict rs = None -> x ∈ rs -> y ∈ rs -> x.1 <> y.1 -> hours_overlap x.2 y.2 = false.
Proof.
  induction rs as [| [i a] rest IH]; simpl; [set_solver |].
  destruct (list_find _ rest) as [[? []] |] eqn:E; [done |]. intros Hn Hx Hy Hne.
  apply list_find_None in E. rewrite Forall_forall in E.
  apply not_true_iff_false. intros Ho.
  apply elem_of_cons in Hx as [-> | Hx], Hy as [-> | Hy]; [done | by apply (E y) | | ].
  - apply (E x Hx). by apply hours_overlap_sym.
  - rewrite IH in Ho; done.
Qed.

Lemma parsed_ranges_elem slots i s ab :
  slots !! i = Some s -> parse_hours (hours s) = Some ab -> (i, ab) ∈ parsed_ranges slots.
Proof.
  intros Hl Hp. unfold parsed_ranges. apply list_elem_of_omap. exists (i, s). split; [| simpl; by rewrite Hp].
  by apply (elem_of_lookup_imap_2 pair).
Qed.

End plans.
#[global] Arguments ScheduleSlot : clear implicits.
#[global] Arguments RateLimitPlan : clear implicits.
#[global] Arguments PlanStore : clear implicits.

(** ** Properties of plans *)

Section plan_properties.
Context {D : Type} `{DecimalOps D}.

(** The 60-second shorthands are merged once.  The effective windows carry
    exactly the configured request and token limits, plus [rpm_limit] (resp.
    [tpm_limit]) as a 60 s limit when no 60 s entry limits requests (resp.
    tokens); cost limits are untouched.  No limit is lost or counted twice. *)
Theorem merge_shorthand_exact (ws : list (WindowLimit D)) rpm tpm :
  rate_entries (merge_shorthand ws rpm tpm) ≡ₚ
    rate_entries ws ++ shorthand Counts (has_60s_counts ws) rpm ++ shorthand Tokens (has_60s_tokens ws) tpm
  /\ cost_entries (merge_shorthand ws rpm tpm) = cost_entries ws.
Proof. split; [apply merge_rate_entries | apply merge_cost_entries]. Qed.

(** An accepted schedule is unambiguous.  When [validate_schedule_overlap]
    accepts a plan, no minute of the day has two active slots, so "the first active
    slot" of [effective_limits] is the only one. *)
Theorem schedule_unambiguous (p : RateLimitPlan D) m i j s s' :
  validate_schedule_overlap p = inr tt -> 0 <= m < 1440 ->
  schedule p !! i = Some s -> schedule p !! j = Some s' ->
  slot_active_at m s = true -> slot_active_at m s' = true -> i = j.
Proof.
  intros Hv Hm Hi Hj Hs Hs'. unfold validate_schedule_overlap in Hv.
  destruct (first_conflict _) as [[]|] eqn:E; [done |].
  destruct (parse_hours (hours s)) as [[a b] |] eqn:Ep; [| by unfold slot_active_at in Hs; rewrite Ep in Hs].
  destruct (parse_hours (hours s')) as [[a' b'] |] eqn:Ep'; [| by unfold slot_active_at in Hs'; rewrite Ep' in Hs'].
  destruct (active_in_ranges _ _ _ _ Hm Ep Hs) as (r & Hr & ?).
  destruct (active_in_ranges _ _ _ _ Hm Ep' Hs') as (r' & Hr' & ?).
  destruct (decide (i = j)) as [| Hne]; [done |]. exfalso.
  pose proof (first_conflict_none _ _ _ E (parsed_ranges_elem _ _ _ _ Hi Ep) (parsed_ranges_elem _ _ _ _ Hj Ep') Hne) as Ho.
  apply not_true_iff_false in Ho. apply Ho, hours_overlap_spec. exists r, r'. split_and!; [done | done | lia].
Qed.

(** Which windows are cleared.  While a slot is active, no window that limits
    requests is in the list to clear.  But when none is, a plan whose only 60 s limit is the
    [rpm_limit] shorthand has its 60 s window in both lists as soon as one of its
    slots uses a 60 s window. *)
Theorem effective_limits_stale (p : RateLimitPlan D) epoch :
  let '(_, active, stale) := effective_limits epoch p in
  (existsb (is_active_now epoch) (schedule p) = true -> forall s, s ∈ stale -> s ∉ secs_of active)
  /\ (existsb (is_active_now epoch) (schedule p) = false -> is_none (rpm_limit p) = false ->
      60 ∉ secs_of (window_limits p) -> 60 ∈ secs_of (schedule p ≫= slot_window_limits) ->
      60 ∈ stale /\ 60 ∈ secs_of active).
Proof.
  unfold effective_limits. destruct (list_find _ (schedule p)) as [[i slot] |] eqn:E.
  - apply list_find_Some in E as (Hl & Ha & _). split.
    + intros _ s [Hs _]%elem_of_retain. by bool_simpl.
    + intros Hno. exfalso. apply not_true_iff_false in Hno. apply Hno, existsb_elem. exists slot.
      split; [by eapply list_elem_of_lookup_2 | done].
  - apply list_find_None in E. rewrite Forall_forall in E. split.
    + intros (s & Hs & Ha)%existsb_elem. by destruct (E s Hs).
    + intros _ Hr Hb Hsl. split; [apply elem_of_retain; split; [| done]; by rewrite bool_decide_eq_false_2 |].
      assert (has_60s_counts (window_limits p) = false) as Hc.
      { apply not_true_iff_false. intros (w & Hw & Hx)%existsb_elem. bool_simpl. apply Hb.
        apply list_elem_of_fmap. by exists w. }
      destruct (rpm_limit p) as [r |] eqn:Er; [| done].
      pose proof (merge_rate_entries (window_limits p) (Some r) (tpm_limit p)) as Hp. rewrite Hc in Hp.
      assert ((Counts, 60, r) ∈ rate_entries (merge_shorthand (window_limits p) (Some r) (tpm_limit p))) as Hin.
      { rewrite Hp. apply elem_of_app. right. apply elem_of_app. left. by left. }
      apply list_elem_of_bind in Hin as (w & Hin & Hw). apply list_elem_of_fmap. exists w. split; [| done].
      destruct (wl_counts w), (wl_tokens w); set_solver.
Qed.

(** Assigning a key is all or nothing.  [assign_key_db] changes memory exactly
    when the plan exists, is a key plan, and the database row was written; on any
    error the store is unchanged.  Afterwards the key has that explicit choice and
    every other key its own. *)
Theorem assign_key_db_atomic (s s' : PlanStore D) kh n update insert_ok retry res :
  assign_key_db s kh n update insert_ok retry = (s', res) ->
  match res with
  | inl _ => s' = s
  | inr _ => (exists p, plans s !! n = Some p /\ plan_type p = PlanKey)
      /\ upsert_outcome update insert_ok retry = inr tt
      /\ get_plan_name_explicit s' kh = Some (Some n)
      /\ (forall kh', kh' <> kh -> get_plan_name_explicit s' kh' = get_plan_name_explicit s kh')
      /\ plans s' = plans s /\ team_assignments s' = team_assignments s
  end.
Proof.
  unfold assign_key_db, validate_plan_for_key. destruct (plans s !! n) as [p |] eqn:Ep; [| by intros; simplify_eq].
  destruct (decide (plan_type p = PlanTeam)) as [| Hk]; [by intros; simplify_eq |].
  destruct (upsert_outcome update insert_ok retry) as [| []] eqn:Eo; intros; simplify_eq; [done |].
  split_and!; auto.
  - exists p. split; [done |]. by destruct (plan_type p).
  - unfold get_plan_name_explicit. simpl. by rewrite lookup_insert_eq.
  - intros kh' Hne. unfold get_plan_name_explicit. simpl. by rewrite lookup_insert_ne.
Qed.

(** Deleting a plan leaves no trace of it.  No key or team refers to it any
    more, nobody resolves to it, every other assignment stays, and a key that
    opted out of plans stays opted out. *)
Theorem delete_plan_clean (s : PlanStore D) n :
  let s' := (delete_plan s n).1 in
  (forall kh, get_plan_name s' kh <> Some n) /\ (forall tid, get_team_plan_name s' tid <> Some n)
  /\ get_plan s' n = None
  /\ (forall kh c, get_plan_name_explicit s kh = Some c -> c <> Some n -> get_plan_name_explicit s' kh = Some c)
  /\ (forall kh, get_plan_name_explicit s kh = Some None -> get_plan_name_explicit s' kh = Some None)
  /\ (forall kh p, resolve_plan s' kh = Some p -> resolve_plan s kh = Some p).
Proof.
  intros s'. unfold s', delete_plan, get_plan_name, get_plan_name_explicit, get_team_plan_name, get_plan, resolve_plan. simpl.
  assert (forall kh c, base.filter (fun kv : string * option string => kv.2 <> Some n) (key_assignments s) !! kh = Some c ->
    key_assignments s !! kh = Some c /\ c <> Some n) as Hf.
  { intros kh c Hc. by apply map_lookup_filter_Some in Hc. }
  split_and!.
  - intros kh. destruct (_ !! kh) as [[x |] |] eqn:E; [| done | done]. apply Hf in E as [_ Hne]. congruence.
  - intros tid Hc. apply map_lookup_filter_Some in Hc as [_ Hne]. by apply Hne.
  - apply lookup_delete_eq.
  - intros kh c Hc Hne. by apply map_lookup_filter_Some.
  - intros kh Hc. by apply map_lookup_filter_Some.
  - intros kh p Hp. destruct (base.filter _ _ !! kh) as [c |] eqn:E; [| done]. apply Hf in E as [-> Hne]. simpl in *.
    destruct c as [m |]; [| done]. simpl in *. rewrite lookup_delete_ne in Hp by congruence. done.
Qed.

End plan_properties.

(** *** Witnesses *)

Definition day_slot (h : string) (ws : list (WindowLimit Z)) : ScheduleSlot Z := mkScheduleSlot h None None None ws.
Definition demo_plan (slots : list (ScheduleSlot Z)) : RateLimitPlan Z :=
  mkRateLimitPlan "gold" PlanKey None (Some 2) (Some 5) None [] None None slots.
Definition minute_window : WindowLimit Z := mkWindowLimit (Some 100) None None 60.

#[local] Existing Instance whole_decimal.

Lemma schedule_unambiguous_witness : ~ slot_active_at 1320 (day_slot "9:00-21:00" []) = true.
Proof.
  intros Ha. pose (p := demo_plan [day_slot "9:00-21:00" []; day_slot " 21:00 -9:00" []]).
  assert (0 <= 1320 < 1440) as Hm by lia.
  pose proof (schedule_unambiguous p 1320 0 1 (day_slot "9:00-21:00" []) (day_slot " 21:00 -9:00" [])
    eq_refl Hm eq_refl eq_refl Ha eq_refl) as E. discriminate E.
Defined.

Definition demo_store : PlanStore Z := upsert_plan new_store (demo_plan []).

Lemma assign_key_db_atomic_witness :
  get_plan_name_explicit (assign_key_db demo_store "k1" "gold" (Some 0) true None).1 "k1" = Some (Some "gold").
Proof.
  exact (proj1 (proj2 (proj2 (assign_key_db_atomic demo_store _ "k1" "gold" (Some 0) true None (inr tt) eq_refl)))).
Defined.

(** A slot whose start and end coincide is never active, although
    [expand_range] counts it as the whole day: the plan below is rejected because
    its first slot is said to cover every minute, yet that slot applies at none. *)
Theorem same_hour_slot_never_active :
  (exists e, validate_schedule_overlap (demo_plan [day_slot "9:00-9:00" []; day_slot "1:00-2:00" []]) = inl e)
  /\ expand_range 540 540 = [(0, 1440)]
  /\ forall epoch, is_active_now epoch (day_slot "9:00-9:00" []) = false.
Proof.
  split; [by eexists |]. split; [done |]. intros epoch. unfold is_active_now, slot_active_at.
  change (parse_hours (hours (day_slot "9:00-9:00" []))) with (Some (540, 540)). cbv beta iota.
  change (540 <=? 540) with true. cbv iota.
  destruct (Z.leb_spec 540 (minute_of_day epoch)), (Z.ltb_spec (minute_of_day epoch) 540); (done || lia).
Qed.

(** ** Concurrency counters *)

Section concurrency.

(** A [DashMap<String, Arc<AtomicU32>>]: the map holds cells, the cells are shared
    with the guards.  [next_cell] is the next allocation. *)
Record Counters := mkCounters {
  entries : gmap string Z;
  cells : gmap Z Z;
  next_cell : Z;
}.

Definition new_counters : Counters := mkCounters ∅ ∅ 0.

Definition load (c : Counters) (cell : Z) : Z := default 0 (cells c !! cell).
Definition store (c : Counters) (cell v : Z) : Counters := mkCounters (entries c) (<[cell := v]> (cells c)) (next_cell c).

(** [fetch_add(1)] and [fetch_sub(1)]: the new memory and the previous value. *)
Definition fetch_add (c : Counters) (cell : Z) : Counters * Z :=
  (store c cell (u32_add (load c cell) 1), load c cell).
Definition fetch_sub (c : Counters) (cell : Z) : Counters := store c cell (u32_sub (load c cell) 1).

(** [entry(id).or_insert_with(..)] *)
Definition entry_or_insert (c : Counters) (id : string) : Counters * Z :=
  match entries c !! id with
  | Some cell => (c, cell)
  | None => (mkCounters (<[id := next_cell c]> (entries c)) (<[next_cell c := 0]> (cells c)) (next_cell c + 1), next_cell c)
  end.

(** The first half of [try_acquire_inner], up to the comparison: [Some cell] when
    the slot is granted, and the cell to give back otherwise. *)
Definition try_acquire_begin (c : Counters) (id : string) (limit : Z) : Counters * (Z + Z) :=
  let '(c1, cell) := entry_or_insert c id in
  let '(c2, prev) := fetch_add c1 cell in
  (c2, if limit <=? prev then inl cell else inr cell).

Definition try_acquire_inner (c : Counters) (id : string) (limit : Z) : Counters * option Z :=
  match try_acquire_begin c id limit with
  | (c1, inl cell) => (fetch_sub c1 cell, None)
  | (c1, inr cell) => (c1, Some cell)
  end.

Definition get_concurrency (c : Counters) (id : string) : Z :=
  match entries c !! id with Some cell => load c cell | None => 0 end.

(** [cleanup_concurrency]: one entry of the [retain], then the whole table. *)
Definition cleanup_entry (c : Counters) (id : string) : Counters :=
  match entries c !! id with
  | Some cell => if 0 <? load c cell then c else mkCounters (delete id (entries c)) (cells c) (next_cell c)
  | None => c
  end.
Definition cleanup_concurrency (c : Counters) : Counters := foldl cleanup_entry c (map_to_list (entries c)).*1.

(** The running gateway: the counters, the live guards with the id they were
    acquired for, and the refused acquisitions that still have to give back their
    increment.  A refused acquisition holds the lock of its id's entry. *)
Record ConcSys := mkConcSys {
  counters : Counters;
  conc_guards : list (string * Z);
  refused : list (string * Z);
}.

Inductive conc_step (limit_of : string -> Z) : ConcSys -> ConcSys -> Prop :=
| cs_begin s id c' out :
    id ∉ (refused s).*1 -> Z.of_nat (length (conc_guards s)) + 1 < 2 ^ 32 ->
    try_acquire_begin (counters s) id (limit_of id) = (c', out) ->
    conc_step limit_of s
      (match out with
       | inl cell => mkConcSys c' (conc_guards s) ((id, cell) :: refused s)
       | inr cell => mkConcSys c' ((id, cell) :: conc_guards s) (refused s)
       end)
| cs_give_back s l1 id cell l2 :
    refused s = l1 ++ (id, cell) :: l2 ->
    conc_step limit_of s (mkConcSys (fetch_sub (counters s) cell) (conc_guards s) (l1 ++ l2))
| cs_drop s l1 id cell l2 :
    conc_guards s = l1 ++ (id, cell) :: l2 ->
    conc_step limit_of s (mkConcSys (fetch_sub (counters s) cell) (l1 ++ l2) (refused s))
| cs_cleanup s id :
    id ∉ (refused s).*1 ->
    conc_step limit_of s (mkConcSys (cleanup_entry (counters s) id) (conc_guards s) (refused s)).

Definition init_conc : ConcSys := mkConcSys new_counters [] [].

Definition count_id (id : string) (l : list (string * Z)) : Z :=
  Z.of_nat (length (retain (fun g => bool_decide (g.1 = id)) l)).

Record ConcInv (s : ConcSys) : Prop := {
  ci_cells : forall g, g ∈ conc_guards s ++ refused s -> entries (counters s) !! g.1 = Some g.2;
  ci_inj : forall id1 id2 cell, entries (counters s) !! id1 = Some cell -> entries (counters s) !! id2 = Some cell -> id1 = id2;
  ci_fresh : forall id cell, entries (counters s) !! id = Some cell -> cell < next_cell (counters s);
  ci_value : forall id cell, entries (counters s) !! id = Some cell ->
    load (counters s) cell = count_id id (conc_guards s) + count_id id (refused s);
  ci_one : NoDup (refused s).*1;
  ci_small : Z.of_nat (length (conc_guards s)) < 2 ^ 32;
}.

Lemma count_id_cons id g l : count_id id (g :: l) = (if bool_decide (g.1 = id) then 1 else 0) + count_id id l.
Proof. unfold count_id. rewrite retain_cons. case_bool_decide; simpl; lia. Qed.
Lemma count_id_mid id l1 g l2 :
  count_id id (l1 ++ g :: l2) = (if bool_decide (g.1 = id) then 1 else 0) + count_id id (l1 ++ l2).
Proof. unfold count_id, retain. rewrite !filter_app, filter_cons. repeat case_decide; repeat case_bool_decide; try done; rewrite !length_app; simpl; lia. Qed.
Lemma count_id_nonneg id l : 0 <= count_id id l.
Proof. unfold count_id. lia. Qed.
Lemma count_id_zero id l : id ∉ l.*1 -> count_id id l = 0.
Proof.
  induction l as [| g l IH]; [done |]. simpl. intros Hn. rewrite count_id_cons, IH by set_solver.
  rewrite bool_decide_eq_false_2 by set_solver. lia.
Qed.
Lemma count_id_le id l : count_id id l <= Z.of_nat (length l).
Proof. unfold count_id, retain. pose proof (length_filter (fun g : string * Z => bool_decide (g.1 = id) = true) l). lia. Qed.

Lemma load_store c cell v cell' : load (store c cell v) cell' = if bool_decide (cell' = cell) then v else load c cell'.
Proof.
  unfold load, store. simpl. case_bool_decide as E; [by rewrite E, lookup_insert_eq | by rewrite lookup_insert_ne].
Qed.

Lemma count_id_refused id (r : list (string * Z)) : NoDup r.*1 -> count_id id r <= 1.
Proof.
  induction r as [| g r IH]; simpl; [done |]. intros [Hn Hnd]%NoDup_cons. rewrite count_id_cons.
  case_bool_decide as E; [| specialize (IH Hnd); lia]. subst id. rewrite count_id_zero by done. lia.
Qed.

Lemma inv_entry s id c1 cell :
  ConcInv s -> entry_or_insert (counters s) id = (c1, cell) ->
  ConcInv (mkConcSys c1 (conc_guards s) (refused s)) /\ entries c1 !! id = Some cell.
Proof.
  intros [Hc Hi Hf Hv Ho Hs] E. unfold entry_or_insert in E.
  destruct (entries (counters s) !! id) as [cell0 |] eqn:El; simplify_eq; [by destruct s |].
  assert (forall g, g ∈ conc_guards s ++ refused s -> g.1 <> id) as Hno.
  { intros g Hg Eg. apply Hc in Hg. rewrite Eg in Hg. congruence. }
  split; [| simpl; by rewrite lookup_insert_eq]. split; simpl; auto.
  - intros g Hg. rewrite lookup_insert_ne by (symmetry; auto). auto.
  - intros id1 id2 cell. destruct (decide (id1 = id)) as [-> |], (decide (id2 = id)) as [-> |];
      rewrite ?lookup_insert_eq, ?lookup_insert_ne by done; intros; simplify_eq; eauto; exfalso.
    + by eapply Z.lt_irrefl, (Hf id2).
    + by eapply Z.lt_irrefl, (Hf id1).
  - intros id' cell. destruct (decide (id' = id)) as [-> |]; rewrite ?lookup_insert_eq, ?lookup_insert_ne by done;
      intros; simplify_eq; [lia |]. assert (cell < next_cell (counters s)) by eauto. lia.
  - intros id' cell. unfold load. simpl. destruct (decide (id' = id)) as [-> |];
      rewrite ?lookup_insert_eq, ?lookup_insert_ne by done; intros Hl; simplify_eq; simpl.
    + rewrite lookup_insert_eq. simpl. rewrite !count_id_zero; [done | |];
        intros (g & Eg & Hg)%list_elem_of_fmap; apply (Hno g); set_solver.
    + pose proof (Hf _ _ Hl). rewrite lookup_insert_ne by lia. by apply Hv.
Qed.

(** The counter of [id] changes together with its owners. *)
Lemma inv_set s id cell v g' r' :
  ConcInv s -> entries (counters s) !! id = Some cell ->
  (forall g, g ∈ g' ++ r' -> g = (id, cell) \/ g ∈ conc_guards s ++ refused s) ->
  (forall id', id' <> id -> count_id id' g' = count_id id' (conc_guards s) /\ count_id id' r' = count_id id' (refused s)) ->
  v = count_id id g' + count_id id r' -> NoDup r'.*1 -> Z.of_nat (length g') < 2 ^ 32 ->
  ConcInv (mkConcSys (store (counters s) cell v) g' r').
Proof.
  intros [Hc Hi Hf Hv Ho Hs] Hl Hg Hcnt Hval Hnd Hlen. split; simpl; auto.
  - intros g [-> | Hin]%Hg; [done | by apply Hc].
  - intros id' cell' Hl'. rewrite load_store. case_bool_decide as E.
    + subst cell'. rewrite (Hi _ _ _ Hl' Hl). done.
    + assert (id' <> id) as Hne by congruence. destruct (Hcnt _ Hne) as [-> ->]. by apply Hv.
Qed.

Lemma inv_init : ConcInv init_conc.
Proof. split; simpl; try done; intros; try set_solver; constructor. Qed.

Lemma inv_begin s id c' out limit :
  ConcInv s -> id ∉ (refused s).*1 -> Z.of_nat (length (conc_guards s)) + 1 < 2 ^ 32 ->
  try_acquire_begin (counters s) id limit = (c', out) ->
  ConcInv (match out with
           | inl cell => mkConcSys c' (conc_guards s) ((id, cell) :: refused s)
           | inr cell => mkConcSys c' ((id, cell) :: conc_guards s) (refused s)
           end)
  /\ (match out with inl _ => limit <= count_id id (conc_guards s) | inr _ => count_id id (conc_guards s) < limit end).
Proof.
  intros HI Hr Hsm H. unfold try_acquire_begin in H. destruct (entry_or_insert _ _) as [c1 cell] eqn:E.
  destruct (inv_entry _ _ _ _ HI E) as [HI1 Hl]. pose proof (ci_value _ HI1 _ _ Hl) as Hv. simpl in *.
  rewrite (count_id_zero id (refused s) Hr), Z.add_0_r in Hv.
  pose proof (count_id_nonneg id (conc_guards s)). pose proof (count_id_le id (conc_guards s)).
  pose proof (ci_one _ HI1) as Ho. simpl in Ho. simplify_eq. destruct (Z.leb_spec limit (load c1 cell)) as [Hle | Hlt].
  - split; [| by rewrite <- Hv]. apply (inv_set _ _ _ _ _ _ HI1 Hl); simpl.
    + intros g. rewrite elem_of_app, elem_of_cons. set_solver.
    + intros id' Hne. rewrite count_id_cons. simpl. by rewrite bool_decide_eq_false_2.
    + rewrite count_id_cons, (count_id_zero id (refused s)) by done. simpl. rewrite bool_decide_eq_true_2 by done.
      rewrite u32_add_small; lia.
    + by constructor.
    + lia.
  - split; [| lia]. apply (inv_set _ _ _ _ _ _ HI1 Hl); simpl.
    + intros g. rewrite elem_of_cons. set_solver.
    + intros id' Hne. rewrite count_id_cons. simpl. by rewrite bool_decide_eq_false_2.
    + rewrite count_id_cons, (count_id_zero id (refused s)) by done. simpl. rewrite bool_decide_eq_true_2 by done.
      rewrite u32_add_small; lia.
    + done.
    + lia.
Qed.

(** One owner of [id] less. *)
Lemma inv_sub s id cell g' r' :
  ConcInv s -> entries (counters s) !! id = Some cell ->
  (forall g, g ∈ g' ++ r' -> g ∈ conc_guards s ++ refused s) ->
  (forall id', count_id id' g' + count_id id' r' + (if bool_decide (id = id') then 1 else 0)
     = count_id id' (conc_guards s) + count_id id' (refused s)) ->
  (forall id', id' <> id -> count_id id' g' = count_id id' (conc_guards s) /\ count_id id' r' = count_id id' (refused s)) ->
  NoDup r'.*1 -> Z.of_nat (length g') < 2 ^ 32 ->
  ConcInv (mkConcSys (fetch_sub (counters s) cell) g' r').
Proof.
  intros HI Hl Hg Hsum Hcnt Hnd Hlen. apply (inv_set _ _ _ _ _ _ HI Hl); auto.
  pose proof (ci_value _ HI _ _ Hl) as Hv. specialize (Hsum id). rewrite bool_decide_eq_true_2 in Hsum by done.
  pose proof (count_id_nonneg id g'). pose proof (count_id_nonneg id r'). pose proof (count_id_le id (conc_guards s)).
  pose proof (count_id_refused id _ (ci_one _ HI)). pose proof (ci_small _ HI).
  unfold u32_sub. rewrite wrap32_small by (unfold is_u32; lia). lia.
Qed.

Lemma inv_step limit_of s s' : ConcInv s -> conc_step limit_of s s' -> ConcInv s'.
Proof.
  intros HI H. destruct H as [s id c' out Hr Hsm H | s l1 id cell l2 E | s l1 id cell l2 E | s id Hr].
  - by eapply inv_begin.
  - assert (entries (counters s) !! id = Some cell) as Hl by (apply (ci_cells _ HI (id, cell)); rewrite E; set_solver).
    apply (inv_sub _ _ _ _ _ HI Hl); rewrite ?E.
    + intros g. set_solver.
    + intros id'. rewrite count_id_mid. simpl. lia.
    + intros id' Hne. rewrite count_id_mid. simpl. by rewrite bool_decide_eq_false_2.
    + pose proof (ci_one _ HI) as Ho. rewrite E in Ho. eapply sublist_NoDup; [exact Ho |].
      apply fmap_sublist, sublist_app; [done |]. by constructor.
    + apply HI.
  - assert (entries (counters s) !! id = Some cell) as Hl by (apply (ci_cells _ HI (id, cell)); rewrite E; set_solver).
    apply (inv_sub _ _ _ _ _ HI Hl); rewrite ?E.
    + intros g. set_solver.
    + intros id'. rewrite count_id_mid. simpl. lia.
    + intros id' Hne. rewrite count_id_mid. simpl. by rewrite bool_decide_eq_false_2.
    + apply HI.
    + pose proof (ci_small _ HI) as Hsm. rewrite E, length_app in Hsm. simpl in Hsm. rewrite length_app. lia.
  - unfold cleanup_entry. destruct (entries (counters s) !! id) as [cell |] eqn:El; [| by destruct s].
    destruct (Z.ltb_spec 0 (load (counters s) cell)) as [| Hz]; [by destruct s |].
    pose proof (ci_value _ HI _ _ El) as Hv.
    pose proof (count_id_nonneg id (conc_guards s)). pose proof (count_id_nonneg id (refused s)).
    assert (forall g, g ∈ conc_guards s ++ refused s -> g.1 <> id) as Hno.
    { intros g [Hg | Hg]%elem_of_app Eg; apply elem_of_Permutation in Hg as [l Hp].
      - assert (count_id id (conc_guards s) = count_id id (g :: l)) as Ec.
        { unfold count_id, retain. by rewrite Hp. }
        rewrite count_id_cons, bool_decide_eq_true_2 in Ec by done. pose proof (count_id_nonneg id l). lia.
      - assert (count_id id (refused s) = count_id id (g :: l)) as Ec.
        { unfold count_id, retain. by rewrite Hp. }
        rewrite count_id_cons, bool_decide_eq_true_2 in Ec by done. pose proof (count_id_nonneg id l). lia. }
    destruct HI as [Hc Hi Hf Hv' Ho Hs]. split; simpl; auto.
    + intros g Hg. rewrite lookup_delete_ne by (symmetry; auto). auto.
    + intros id1 id2 cell1 [_ H1]%lookup_delete_Some [_ H2]%lookup_delete_Some. eauto.
    + intros id1 cell1 [_ H1]%lookup_delete_Some. eauto.
    + intros id1 cell1 [_ H1]%lookup_delete_Some. unfold load. simpl. by apply Hv'.
Qed.

Lemma step_limit limit_of s s' :
  ConcInv s -> (forall id, count_id id (conc_guards s) <= limit_of id) -> conc_step limit_of s s' ->
  forall id, count_id id (conc_guards s') <= limit_of id.
Proof.
  intros HI Hb H. destruct H as [s id c' out Hr Hsm H | s l1 id cell l2 E | s l1 id cell l2 E | s id Hr]; simpl; auto.
  - destruct (inv_begin _ _ _ _ _ HI Hr Hsm H) as [_ Hout]. destruct out as [cell | cell]; simpl; [done |].
    intros id'. rewrite count_id_cons. simpl. case_bool_decide as Ei; [subst id'; lia | apply Hb].
  - intros id'. specialize (Hb id'). rewrite E, count_id_mid in Hb. case_bool_decide; lia.
Qed.

(** C25: concurrency limits are exact.  In every state reachable by interleaved
    acquisitions (split at the counter), releases and clean-ups: the guards held
    for an id never exceed its limit, the counter that the map shows for the id
    counts them (plus a refused acquisition about to give back), the clean-up never
    forgets a held slot, and a new acquisition is granted exactly when fewer
    guards than the limit are held. *)
Theorem concurrency_exact limit_of s id :
  reachable (conc_step limit_of) init_conc s -> (forall id, 0 <= limit_of id) ->
  count_id id (conc_guards s) <= limit_of id
  /\ get_concurrency (counters s) id = count_id id (conc_guards s) + count_id id (refused s)
  /\ (id ∉ (refused s).*1 -> Z.of_nat (length (conc_guards s)) + 1 < 2 ^ 32 ->
      forall limit, (try_acquire_inner (counters s) id limit).2 = None <-> limit <= count_id id (conc_guards s)).
Proof.
  intros Hr Hpos. assert (ConcInv s /\ forall id, count_id id (conc_guards s) <= limit_of id) as [HI Hlim].
  { revert Hr. apply (reachable_invariant _ (fun s => ConcInv s /\ forall id, count_id id (conc_guards s) <= limit_of id)).
    - split; [apply inv_init |]. intros id'. simpl. apply Hpos.
    - intros s0 s1 [HI0 Hb] Hst. split; [by eapply inv_step |]. by eapply step_limit. }
  split_and!; [apply Hlim | |].
  - unfold get_concurrency. destruct (entries (counters s) !! id) as [cell |] eqn:El; [by apply HI |].
    rewrite !count_id_zero; [done | |]; intros (g & Eg & Hg)%list_elem_of_fmap; subst id;
      rewrite (ci_cells _ HI g) in El by set_solver; done.
  - intros Hn Hsm limit. unfold try_acquire_inner. destruct (try_acquire_begin _ _ _) as [c' out] eqn:E.
    destruct (inv_begin _ _ _ _ _ HI Hn Hsm E) as [_ Hout]. destruct out; simpl; split; intros; (done || lia).
Qed.

Definition demo_conc : ConcSys :=
  mkConcSys (try_acquire_begin new_counters "k1" 1).1 [("k1", 0)] [].

Lemma demo_conc_reachable : reachable (conc_step (fun _ => 1)) init_conc demo_conc.
Proof.
  eapply rtc_l; [| apply rtc_refl].
  apply (cs_begin _ init_conc "k1" (try_acquire_begin new_counters "k1" 1).1 (inr 0));
    [apply not_elem_of_nil | reflexivity | reflexivity].
Qed.

Lemma concurrency_exact_witness : (try_acquire_inner (counters demo_conc) "k1" 1).2 = None.
Proof.
  apply (proj2 (proj2 (concurrency_exact (fun _ => 1) demo_conc "k1" demo_conc_reachable ltac:(intros; lia))));
    [apply not_elem_of_nil | reflexivity | vm_compute; discriminate].
Defined.

End concurrency.
End PlanStore.
