(* ===== verification/Stores.v ===== *)
(** * Stores: deployments, cost rates and aliases (boom-routing)

    Models the in-memory operations of
    [boom-gateway/boom-routing/src/deployment_store.rs] (deployments per model,
    round-robin counters, quota ratios, cost rates, exclusive models) and of
    [boom-routing/src/alias_store.rs].  A provider is the record of what it answers
    ([Core.Provider]).  The SQL operations of the two files
    are in [ModelTable]. *)

From S2P Require Import Prelude Core.

Module Stores.
Import Core.

(** ** Cost rates *)

Section rates.
Context {D : Type} `{DecimalOps D}.

Record ModelCostRate := mkModelCostRate {
  input_cost_per_token : D;
  cached_input_cost_per_token : D;
  output_cost_per_token : D;
}.

Definition new_rate (input output : D) : ModelCostRate := mkModelCostRate input dec_zero output.
Definition with_cached (input cached output : D) : ModelCostRate := mkModelCostRate input cached output.
Definition default_rate : ModelCostRate := mkModelCostRate dec_zero dec_zero dec_zero.

(** (regular input, cached input, output) *)
Definition compute_cost_breakdown (r : ModelCostRate) (in_tok cached_tok out_tok : Z) : D * D * D :=
  let cached := Z.min cached_tok in_tok in
  let non_cached := in_tok -sat cached in
  let regular_input_cost := dec_mul (input_cost_per_token r) (dec_from_u64 non_cached) in
  let cached_input_cost :=
    if dec_is_zero (cached_input_cost_per_token r)
    then dec_mul (input_cost_per_token r) (dec_from_u64 cached)
    else dec_mul (cached_input_cost_per_token r) (dec_from_u64 cached) in
  (regular_input_cost, cached_input_cost, dec_mul (output_cost_per_token r) (dec_from_u64 out_tok)).

Definition compute_cost (r : ModelCostRate) (in_tok cached_tok out_tok : Z) : D :=
  let '(regular, cached, output) := compute_cost_breakdown r in_tok cached_tok out_tok in
  dec_add (dec_add regular cached) output.

Definition rate_is_zero (r : ModelCostRate) : bool :=
  dec_is_zero (input_cost_per_token r) && dec_is_zero (cached_input_cost_per_token r)
  && dec_is_zero (output_cost_per_token r).

(** ** The deployment store *)

Record DeploymentStore := mkDeploymentStore {
  deployments : gmap string (list Provider);
  rr_counters : gmap string Z;
  quota_ratios : gmap string Z;
  cost_rates : gmap string ModelCostRate;
  exclusive_providers : gmap string string;
}.

Definition new_deployment_store : DeploymentStore := mkDeploymentStore ∅ ∅ ∅ ∅ ∅.

Definition with_deployments (s : DeploymentStore) (d : gmap string (list Provider)) (rr : gmap string Z) : DeploymentStore :=
  mkDeploymentStore d rr (quota_ratios s) (cost_rates s) (exclusive_providers s).

Definition set_deployments (s : DeploymentStore) (m : string) (ps : list Provider) : DeploymentStore * bool :=
  match exclusive_providers s !! m with
  | Some _ => (s, false)
  | None => (with_deployments s (<[m := ps]> (deployments s)) (delete m (rr_counters s)), true)
  end.

Definition add_deployment (s : DeploymentStore) (m : string) (p : Provider) : DeploymentStore * bool :=
  match exclusive_providers s !! m with
  | Some _ => (s, false)
  | None => (with_deployments s (<[m := default [] (deployments s !! m) ++ [p]]> (deployments s)) (rr_counters s), true)
  end.

Definition set_exclusive_deployment (s : DeploymentStore) (m : string) (p : Provider)
  : DeploymentStore * (GatewayError + unit) :=
  match deployments s !! m, exclusive_providers s !! m with
  | None, None =>
    (mkDeploymentStore (<[m := [p]]> (deployments s)) (delete m (rr_counters s)) (quota_ratios s) (cost_rates s)
       (<[m := p_name p]> (exclusive_providers s)), inr tt)
  | _, _ => (s, inl (ConfigError ("exclusive model '" +:+ m +:+ "' conflicts with an existing deployment")))
  end.

Definition is_exclusive_model (s : DeploymentStore) (m : string) : bool :=
  match exclusive_providers s !! m with Some _ => true | None => false end.

Definition remove_deployments (s : DeploymentStore) (m : string) : DeploymentStore * bool :=
  match exclusive_providers s !! m with
  | Some _ => (s, false)
  | None => (with_deployments s (delete m (deployments s)) (delete m (rr_counters s)),
             match deployments s !! m with Some _ => true | None => false end)
  end.

Definition clear (s : DeploymentStore) : DeploymentStore := new_deployment_store.

Definition set_quota_ratio (s : DeploymentStore) (m : string) (ratio : Z) : DeploymentStore :=
  mkDeploymentStore (deployments s) (rr_counters s) (<[m := ratio]> (quota_ratios s)) (cost_rates s) (exclusive_providers s).

Definition get_quota_ratio (s : DeploymentStore) (m : string) : Z := default 1 (quota_ratios s !! m).

Definition set_cost_rate (s : DeploymentStore) (m : string) (r : ModelCostRate) : DeploymentStore :=
  mkDeploymentStore (deployments s) (rr_counters s) (quota_ratios s)
    (if rate_is_zero r then delete m (cost_rates s) else <[m := r]> (cost_rates s)) (exclusive_providers s).

Definition get_cost_rate (s : DeploymentStore) (m : string) : ModelCostRate := default default_rate (cost_rates s !! m).

(** [usize] is 64 bits; [fetch_add] wraps. *)
Definition select (s : DeploymentStore) (m : string) : DeploymentStore * option Provider :=
  match deployments s !! m with
  | None => (s, None)
  | Some [] => (s, None)
  | Some [p] => (s, Some p)
  | Some ps =>
    let idx := default 0 (rr_counters s !! m) in
    (with_deployments s (deployments s) (<[m := idx +u 1]> (rr_counters s)),
     ps !! Z.to_nat (idx `mod` Z.of_nat (length ps)))
  end.

Definition get_providers (s : DeploymentStore) (m : string) : option (list Provider) := deployments s !! m.
Definition model_names (s : DeploymentStore) : list string := (map_to_list (deployments s)).*1.
Definition contains (s : DeploymentStore) (m : string) : bool :=
  match deployments s !! m with Some _ => true | None => false end.
Definition deployment_count (s : DeploymentStore) (m : string) : Z := Z.of_nat (length (default [] (deployments s !! m))).
Definition total_deployments (s : DeploymentStore) : Z := zsum (fun kv => Z.of_nat (length kv.2)) (map_to_list (deployments s)).

(** Some model that owns the id (the first in the map's iteration order). *)
Definition find_model_by_deployment_id (s : DeploymentStore) (id : string) : option string :=
  match list_find (fun kv : string * list Provider =>
                     existsb (fun p => bool_decide (p_deployment_id p = Some id)) kv.2 = true)
                  (map_to_list (deployments s)) with
  | Some (_, (m, _)) => Some m
  | None => None
  end.

(** ** Lemmas: round robin *)

Definition select_n (n : nat) (s : DeploymentStore) (m : string) : DeploymentStore * list (option Provider) :=
  Nat.iter n (fun st => let '(s', p) := select st.1 m in (s', st.2 ++ [p])) (s, []).

Lemma select_multi s m ps :
  deployments s !! m = Some ps -> (2 <= length ps)%nat ->
  select s m = (with_deployments s (deployments s) (<[m := default 0 (rr_counters s !! m) +u 1]> (rr_counters s)),
                ps !! Z.to_nat (default 0 (rr_counters s !! m) `mod` Z.of_nat (length ps))).
Proof. intros Hl Hlen. unfold select. rewrite Hl. destruct ps as [| p1 [| p2 ps]]; simpl in Hlen; (done || lia). Qed.

Lemma select_n_spec s m ps n c :
  deployments s !! m = Some ps -> (2 <= length ps)%nat -> default 0 (rr_counters s !! m) = c ->
  0 <= c -> c + Z.of_nat n < 2 ^ 64 ->
  deployments (select_n n s m).1 = deployments s
  /\ default 0 (rr_counters (select_n n s m).1 !! m) = c + Z.of_nat n
  /\ (select_n n s m).2 = (fun i => ps !! Z.to_nat ((c + Z.of_nat i) `mod` Z.of_nat (length ps))) <$> seq 0 n.
Proof.
  intros Hl Hlen Hc Hpos. induction n as [| n IH]; intros Hsm; [split_and!; simpl; [done | rewrite Hc; lia | done] |].
  destruct IH as (Hd & Hr & Hs); [lia |].
  change (select_n (S n) s m) with (let '(s', p) := select (select_n n s m).1 m in (s', (select_n n s m).2 ++ [p])).
  rewrite (select_multi (select_n n s m).1 m ps) by (rewrite ?Hd; done). cbn [fst snd with_deployments deployments rr_counters].
  split_and!; [done | |].
  - rewrite lookup_insert_eq. simpl. rewrite Hr, u64_add_small by lia. lia.
  - rewrite Hs, Hr, seq_S, fmap_app. done.
Qed.

(** [k] consecutive residues are all the residues. *)
Lemma rotation_perm c k :
  0 <= c -> (fun i => Z.to_nat ((c + Z.of_nat i) `mod` Z.of_nat k)) <$> seq 0 k ≡ₚ seq 0 k.
Proof.
  intros Hc. set (f := fun i => Z.to_nat ((c + Z.of_nat i) `mod` Z.of_nat k)).
  assert (NoDup (f <$> seq 0 k)) as Hnd.
  { apply NoDup_fmap_2_strong; [| apply NoDup_seq]. intros x y Hx%elem_of_seq Hy%elem_of_seq E. unfold f in E.
    pose proof (Z.mod_pos_bound (c + Z.of_nat x) (Z.of_nat k) ltac:(lia)).
    pose proof (Z.mod_pos_bound (c + Z.of_nat y) (Z.of_nat k) ltac:(lia)).
    apply Z2Nat.inj in E; [| lia | lia].
    pose proof (Z.div_mod (c + Z.of_nat x) (Z.of_nat k) ltac:(lia)). pose proof (Z.div_mod (c + Z.of_nat y) (Z.of_nat k) ltac:(lia)).
    assert ((c + Z.of_nat x) `div` Z.of_nat k = (c + Z.of_nat y) `div` Z.of_nat k) by nia. nia. }
  apply submseteq_length_Permutation; [| by rewrite length_fmap, length_seq].
  apply NoDup_submseteq; [done |]. intros i (x & -> & Hx%elem_of_seq)%list_elem_of_fmap. apply elem_of_seq. unfold f.
  pose proof (Z.mod_pos_bound (c + Z.of_nat x) (Z.of_nat k) ltac:(lia)). lia.
Qed.

End rates.
#[global] Arguments ModelCostRate : clear implicits.
#[global] Arguments DeploymentStore : clear implicits.

(** ** Aliases *)

Record AliasStore := mkAliasStore { aliases : gmap string string; hidden : gset string }.

Definition new_alias_store : AliasStore := mkAliasStore ∅ ∅.

Definition set_alias (s : AliasStore) (alias target : string) (is_hidden : bool) : AliasStore :=
  mkAliasStore (<[alias := target]> (aliases s))
    (if is_hidden then {[alias]} ∪ hidden s else hidden s ∖ {[alias]}).

Definition remove_alias (s : AliasStore) (alias : string) : AliasStore * bool :=
  (mkAliasStore (delete alias (aliases s)) (hidden s ∖ {[alias]}),
   match aliases s !! alias with Some _ => true | None => false end).

Definition resolve (s : AliasStore) (n : string) : option string := aliases s !! n.
Definition is_hidden (s : AliasStore) (alias : string) : bool := bool_decide (alias ∈ hidden s).
Definition all_aliases (s : AliasStore) : list (string * string) := map_to_list (aliases s).
Definition visible_names (s : AliasStore) : list string :=
  retain (fun a => negb (is_hidden s a)) (map_to_list (aliases s)).*1.
Definition clear_aliases (s : AliasStore) : AliasStore := new_alias_store.
Definition hidden_count (s : AliasStore) : Z := Z.of_nat (size (hidden s)).

(** ** Properties *)

Section properties.
Context {D : Type} `{DecimalOps D}.

(** Round robin is fair.  Any [k] consecutive selections among [k] providers
    (two or more) use every provider exactly once, whatever the counter, as long
    as it does not wrap on the way. *)
Theorem select_fair (s : DeploymentStore D) m ps :
  deployments s !! m = Some ps -> (2 <= length ps)%nat ->
  0 <= default 0 (rr_counters s !! m) -> default 0 (rr_counters s !! m) + Z.of_nat (length ps) < 2 ^ 64 ->
  (select_n (length ps) s m).2 ≡ₚ Some <$> ps.
Proof.
  intros Hl Hlen Hc Hw. destruct (select_n_spec s m ps (length ps) _ Hl Hlen eq_refl Hc Hw) as (_ & _ & ->).
  set (c := default 0 _) in *.
  transitivity ((fun i => ps !! i) <$> seq 0 (length ps)).
  - rewrite <- (rotation_perm c (length ps)) at 2 by done. by rewrite <- list_fmap_compose.
  - apply (reflexive_eq (R := (≡ₚ))). apply list_eq. intros i. rewrite !list_lookup_fmap. destruct (ps !! i) as [p |] eqn:E; simpl.
    + rewrite lookup_seq_lt by (by eapply lookup_lt_Some). simpl. by rewrite E.
    + apply lookup_ge_None in E. by rewrite lookup_seq_ge by lia.
Qed.

(** Every operation of the store but [clear]. *)
Inductive store_step : DeploymentStore D -> DeploymentStore D -> Prop :=
| ss_set s m ps : store_step s (set_deployments s m ps).1
| ss_add s m p : store_step s (add_deployment s m p).1
| ss_exclusive s m p : store_step s (set_exclusive_deployment s m p).1
| ss_remove s m : store_step s (remove_deployments s m).1
| ss_ratio s m r : store_step s (set_quota_ratio s m r)
| ss_rate s m r : store_step s (set_cost_rate s m r)
| ss_select s m : store_step s (select s m).1.

(** An exclusive model stays exclusive.  Whatever the later operations, a model
    registered with [set_exclusive_deployment] is served by exactly one provider,
    the one it was registered with, and every attempt to replace, extend or remove
    it is refused. *)
Theorem exclusive_stays (s0 s : DeploymentStore D) m p :
  (set_exclusive_deployment s0 m p).2 = inr tt ->
  reachable store_step (set_exclusive_deployment s0 m p).1 s ->
  deployments s !! m = Some [p] /\ is_exclusive_model s m = true
  /\ (forall ps, set_deployments s m ps = (s, false)) /\ (forall q, add_deployment s m q = (s, false))
  /\ remove_deployments s m = (s, false) /\ (select s m).2 = Some p.
Proof.
  intros Hok Hr. assert (deployments s !! m = Some [p] /\ exclusive_providers s !! m = Some (p_name p)) as [Hd He].
  { revert Hr. apply (reachable_invariant _ (fun s => deployments s !! m = Some [p] /\ exclusive_providers s !! m = Some (p_name p))).
    - unfold set_exclusive_deployment in *. destruct (deployments s0 !! m), (exclusive_providers s0 !! m); try done.
      simpl. by rewrite !lookup_insert_eq.
    - clear. intros s s' [Hd He] H'. destruct H' as [s m' ps | s m' q | s m' q | s m' | s m' r | s m' r | s m']; simpl; auto.
      + unfold set_deployments. destruct (exclusive_providers s !! m') eqn:E; simpl; [done |].
        rewrite lookup_insert_ne by congruence. done.
      + unfold add_deployment. destruct (exclusive_providers s !! m') eqn:E; simpl; [done |].
        rewrite lookup_insert_ne by congruence. done.
      + unfold set_exclusive_deployment. destruct (deployments s !! m') eqn:E1, (exclusive_providers s !! m') eqn:E2; simpl; try done.
        rewrite !lookup_insert_ne by congruence. done.
      + unfold remove_deployments. destruct (exclusive_providers s !! m') eqn:E; simpl; [done |].
        rewrite lookup_delete_ne by congruence. done.
      + unfold select. destruct (deployments s !! m') as [[| ? []] |]; done. }
  unfold is_exclusive_model, set_deployments, add_deployment, remove_deployments, select. by rewrite He, Hd.
Qed.
End properties.

(** Aliases resolve to what was last set.  [set_alias] then [resolve] gives the
    target, visibility follows the flag, every other alias is unaffected, and
    removing the alias undoes it; hidden names are always aliases. *)
Theorem alias_roundtrip s a target h :
  hidden s ⊆ dom (aliases s) ->
  let s' := set_alias s a target h in
  resolve s' a = Some target /\ is_hidden s' a = h
  /\ (forall b, b <> a -> resolve s' b = resolve s b /\ is_hidden s' b = is_hidden s b)
  /\ (a ∈ visible_names s' <-> h = false)
  /\ hidden s' ⊆ dom (aliases s')
  /\ resolve (remove_alias s' a).1 a = None /\ is_hidden (remove_alias s' a).1 a = false
  /\ hidden (remove_alias s' a).1 ⊆ dom (aliases (remove_alias s' a).1).
Proof.
  intros Hsub s'. unfold s', resolve, set_alias, is_hidden, remove_alias, visible_names. simpl. split_and!.
  - apply lookup_insert_eq.
  - destruct h; [apply bool_decide_eq_true_2 | apply bool_decide_eq_false_2]; set_solver.
  - intros b Hb. split; [by rewrite lookup_insert_ne |]. apply bool_decide_ext. destruct h; set_solver.
  - rewrite elem_of_retain, negb_true_iff. split.
    + intros [Hf _]. unfold is_hidden in Hf. simpl in Hf. apply bool_decide_eq_false_1 in Hf. destruct h; [set_solver | done].
    + intros ->. split; [apply bool_decide_eq_false_2; set_solver |].
      apply list_elem_of_fmap. exists (a, target). split; [done |]. apply elem_of_map_to_list. apply lookup_insert_eq.
  - rewrite dom_insert_L. destruct h; set_solver.
  - apply lookup_delete_eq.
  - apply bool_decide_eq_false_2. destruct h; set_solver.
  - rewrite dom_delete_L, dom_insert_L. destruct h; set_solver.
Qed.

(** *** Witnesses *)

#[local] Existing Instance whole_decimal.

Definition prov (n : string) : Provider := mkProvider n (Some n) None.
Definition demo_deployments : DeploymentStore Z := (set_deployments new_deployment_store "m" [prov "a"; prov "b"; prov "c"]).1.

Lemma select_fair_witness : (select_n 3 demo_deployments "m").2 ≡ₚ Some <$> [prov "a"; prov "b"; prov "c"].
Proof. apply (select_fair demo_deployments "m" [prov "a"; prov "b"; prov "c"]); (reflexivity || (vm_compute; discriminate) || (simpl; lia)). Defined.

Lemma exclusive_stays_witness :
  set_deployments (set_exclusive_deployment demo_deployments "fusion" (prov "f")).1 "fusion" [] =
    ((set_exclusive_deployment demo_deployments "fusion" (prov "f")).1, false).
Proof.
  exact (proj1 (proj2 (proj2 (exclusive_stays demo_deployments _ "fusion" (prov "f") eq_refl (rtc_refl _ _)))) []).
Defined.

Lemma alias_roundtrip_witness : resolve (set_alias new_alias_store "gpt" "m" true) "gpt" = Some "m".
Proof. exact (proj1 (alias_roundtrip new_alias_store "gpt" "m" true (empty_subseteq _))). Defined.

End Stores.
