(* ===== verification/InFlight.v ===== *)
(** * InFlight: in-flight metrics with RAII guards (boom-routing)

    Models [boom-gateway/boom-routing/src/inflight.rs]: request and character
    counters per model and per (model, deployment), incremented when a guard is
    created and decremented when it is dropped.  The two [fetch_add]s (or
    [fetch_sub]s) of one entry are one step; counters wrap at 2^64. *)

From S2P Require Import Prelude Core Text.

Module InFlight.

Record Metrics := mkMetrics { request_count : Z; input_chars : Z }.

Record InFlightTracker := mkInFlightTracker {
  metrics : gmap string Metrics;
  deployment_metrics : gmap string Metrics;
}.

Record InFlightStat := mkInFlightStat {
  st_model : string;
  inflight_requests : Z;
  inflight_input_chars : Z;
}.

Record DeploymentInFlightStat := mkDeploymentInFlightStat {
  dst_model : string;
  dst_deployment_id : string;
  dst_inflight_requests : Z;
  dst_inflight_input_chars : Z;
}.

Record InFlightGuard := mkInFlightGuard {
  g_model : string;
  g_input_chars : Z;
  g_deployment_key : option string;
}.

Definition new_tracker : InFlightTracker := mkInFlightTracker ∅ ∅.

Definition nul : ascii := ascii_of_nat 0.

(** [format!("{}\0{}", model, deployment_id)] *)
Definition deployment_key (model deployment_id : string) : string := model +:+ String nul deployment_id.

(** [or_insert_with(zero)], then [fetch_add] on both counters. *)
Definition add_metrics (m : gmap string Metrics) (k : string) (chars : Z) : gmap string Metrics :=
  let c := default (mkMetrics 0 0) (m !! k) in
  <[k := mkMetrics (request_count c +u 1) (input_chars c +u chars)]> m.

(** [get], then [fetch_sub] on both counters. *)
Definition sub_metrics (m : gmap string Metrics) (k : string) (chars : Z) : gmap string Metrics :=
  match m !! k with
  | Some c => <[k := mkMetrics (request_count c -u 1) (input_chars c -u chars)]> m
  | None => m
  end.

Definition inflight_new (t : InFlightTracker) (model : string) (chars : Z) : InFlightTracker * InFlightGuard :=
  (mkInFlightTracker (add_metrics (metrics t) model chars) (deployment_metrics t), mkInFlightGuard model chars None).

Definition new_for_deployment (t : InFlightTracker) (model deployment_id : string) (chars : Z)
  : InFlightTracker * InFlightGuard :=
  let dk := deployment_key model deployment_id in
  (mkInFlightTracker (add_metrics (metrics t) model chars) (add_metrics (deployment_metrics t) dk chars),
   mkInFlightGuard model chars (Some dk)).

Definition inflight_drop (t : InFlightTracker) (g : InFlightGuard) : InFlightTracker :=
  mkInFlightTracker (sub_metrics (metrics t) (g_model g) (g_input_chars g))
    (match g_deployment_key g with
     | Some dk => sub_metrics (deployment_metrics t) dk (g_input_chars g)
     | None => deployment_metrics t
     end).

Definition get_stats (t : InFlightTracker) : list InFlightStat :=
  (fun kv => mkInFlightStat kv.1 (request_count kv.2) (input_chars kv.2))
    <$> retain (fun kv => 0 <? request_count kv.2) (map_to_list (metrics t)).

Definition get_model_input_chars (t : InFlightTracker) (model : string) : Z :=
  match metrics t !! model with Some m => input_chars m | None => 0 end.

Definition get_deployment_count (t : InFlightTracker) (model deployment_id : string) : Z :=
  match deployment_metrics t !! deployment_key model deployment_id with Some m => request_count m | None => 0 end.

Definition get_deployment_stats (t : InFlightTracker) : list DeploymentInFlightStat :=
  omap (fun kv : string * Metrics =>
    (fun md => mkDeploymentInFlightStat md.1 md.2 (request_count kv.2) (input_chars kv.2)) <$> split_once nul kv.1)
    (retain (fun kv => 0 <? request_count kv.2) (map_to_list (deployment_metrics t))).

(** ** Executions *)

Record Sys := mkSys { tracker : InFlightTracker; live : list InFlightGuard }.

Inductive step : Sys -> Sys -> Prop :=
| st_new s model chars : 0 <= chars ->
    step s (mkSys (inflight_new (tracker s) model chars).1 ((inflight_new (tracker s) model chars).2 :: live s))
| st_new_deployment s model d chars : 0 <= chars ->
    step s (mkSys (new_for_deployment (tracker s) model d chars).1 ((new_for_deployment (tracker s) model d chars).2 :: live s))
| st_drop s l1 g l2 : live s = l1 ++ g :: l2 ->
    step s (mkSys (inflight_drop (tracker s) g) (l1 ++ l2)).

Definition init : Sys := mkSys new_tracker [].

(** ** Lemmas *)

(** What the live guards selected by [P] amount to. *)
Definition requests_of (P : InFlightGuard -> bool) (gs : list InFlightGuard) : Z := zsum (fun g => if P g then 1 else 0) gs.
Definition chars_of (P : InFlightGuard -> bool) (gs : list InFlightGuard) : Z := zsum (fun g => if P g then g_input_chars g else 0) gs.

Definition of_model (k : string) (g : InFlightGuard) : bool := bool_decide (g_model g = k).
Definition of_deployment (k : string) (g : InFlightGuard) : bool := bool_decide (g_deployment_key g = Some k).

(** The map counts, modulo 2^64, the guards of each key, and knows every live key. *)
Definition counts_guards (m : gmap string Metrics) (P : string -> InFlightGuard -> bool) (gs : list InFlightGuard) : Prop :=
  forall k, let c := default (mkMetrics 0 0) (m !! k) in
    request_count c = wrap64 (requests_of (P k) gs) /\ input_chars c = wrap64 (chars_of (P k) gs)
    /\ (m !! k = None -> forall g, g ∈ gs -> P k g = false).

Lemma wrap64_add_l a b : wrap64 (wrap64 a + b) = wrap64 (a + b).
Proof. apply Z.add_mod_idemp_l. lia. Qed.
Lemma wrap64_sub_l a b : wrap64 (wrap64 a - b) = wrap64 (a - b).
Proof. unfold wrap64. by rewrite Zminus_mod_idemp_l. Qed.

Lemma counts_other m P gs g :
  counts_guards m P gs -> (forall k, P k g = false) -> counts_guards m P (g :: gs).
Proof.
  intros Hc Hp k. destruct (Hc k) as (E1 & E2 & E3). unfold requests_of, chars_of in *. rewrite !zsum_cons, Hp. simpl.
  split_and!; [done | done |]. intros Hn g' [-> | ?]%elem_of_cons; auto.
Qed.

Lemma counts_add m P gs g k chars :
  counts_guards m P gs -> (forall k', P k' g = bool_decide (k' = k)) -> g_input_chars g = chars ->
  counts_guards (add_metrics m k chars) P (g :: gs).
Proof.
  intros Hc Hp Hch k'. destruct (Hc k') as (E1 & E2 & E3). unfold requests_of, chars_of, add_metrics in *.
  rewrite !zsum_cons, Hp. case_bool_decide as Hk.
  - subst k'. rewrite lookup_insert_eq. cbn [default]. simpl. rewrite E1, E2, Hch. unfold u64_add. rewrite !wrap64_add_l.
    split_and!; [f_equal; lia | f_equal; lia | done].
  - rewrite lookup_insert_ne by done. simpl. split_and!; [done | done |].
    intros Hn g' [-> | ?]%elem_of_cons; [by rewrite Hp, bool_decide_eq_false_2 | auto].
Qed.

Lemma counts_sub m P l1 g l2 k :
  counts_guards m P (l1 ++ g :: l2) -> (forall k', P k' g = bool_decide (k' = k)) ->
  counts_guards (sub_metrics m k (g_input_chars g)) P (l1 ++ l2).
Proof.
  intros Hc Hp. assert (exists c, m !! k = Some c) as [c Hl].
  { destruct (m !! k) eqn:E; [by eexists |]. destruct (Hc k) as (_ & _ & Hn).
    assert (P k g = false) as Hf by (apply Hn; set_solver). rewrite Hp, bool_decide_eq_true_2 in Hf; done. }
  unfold sub_metrics. rewrite Hl. intros k'. destruct (Hc k') as (E1 & E2 & E3).
  unfold requests_of, chars_of in *. rewrite !zsum_app, !zsum_cons, Hp in *. case_bool_decide as Hk.
  - subst k'. rewrite lookup_insert_eq. rewrite Hl in E1, E2. simpl in *. rewrite E1, E2. unfold u64_sub. rewrite !wrap64_sub_l.
    split_and!; [f_equal; lia | f_equal; lia | done].
  - rewrite lookup_insert_ne by done. split_and!; [rewrite E1; f_equal; lia | rewrite E2; f_equal; lia |].
    intros Hn g' Hg. apply E3; [done |]. set_solver.
Qed.

Lemma counts_drop_other m P l1 g l2 :
  counts_guards m P (l1 ++ g :: l2) -> (forall k, P k g = false) -> counts_guards m P (l1 ++ l2).
Proof.
  intros Hc Hp k. destruct (Hc k) as (E1 & E2 & E3). unfold requests_of, chars_of in *. rewrite !zsum_app, !zsum_cons, Hp in *.
  split_and!; [rewrite E1; f_equal; lia | rewrite E2; f_equal; lia |]. intros Hn g' Hg. apply E3; [done |]. set_solver.
Qed.

Definition Inv (s : Sys) : Prop :=
  counts_guards (metrics (tracker s)) of_model (live s) /\ counts_guards (deployment_metrics (tracker s)) of_deployment (live s)
  /\ forall g, g ∈ live s -> 0 <= g_input_chars g.

Lemma inflight_inv_step s s' : Inv s -> step s s' -> Inv s'.
Proof.
  intros (H1 & H2 & H3) H. destruct H as [s model chars Hc | s model d chars Hc | s l1 g l2 E]; simpl.
  - split_and!; simpl.
    + apply counts_add; [done | | done]. intros k'. apply bool_decide_ext. simpl. naive_solver.
    + apply counts_other; [done |]. intros k. by apply bool_decide_eq_false_2.
    + intros g [-> | ?]%elem_of_cons; [done | auto].
  - split_and!; simpl.
    + apply counts_add; [done | | done]. intros k'. apply bool_decide_ext. simpl. naive_solver.
    + apply counts_add; [done | | done]. intros k'. apply bool_decide_ext. simpl. naive_solver.
    + intros g [-> | ?]%elem_of_cons; [done | auto].
  - unfold Inv in *. rewrite E in *. unfold inflight_drop. split_and!; simpl.
    + apply counts_sub; [done |]. intros k'. apply bool_decide_ext. naive_solver.
    + destruct (g_deployment_key g) as [dk |] eqn:Ed.
      * apply counts_sub; [done |]. intros k'. unfold of_deployment. rewrite Ed. apply bool_decide_ext. naive_solver.
      * apply (counts_drop_other _ _ _ g); [done |]. intros k. unfold of_deployment. rewrite Ed. by apply bool_decide_eq_false_2.
    + intros g' Hg. apply H3. set_solver.
Qed.

Lemma reachable_inv s : reachable step init s -> Inv s.
Proof.
  apply reachable_invariant; [| apply inflight_inv_step].
  split_and!; [intros k; split_and!; (done || set_solver) | intros k; split_and!; (done || set_solver) | simpl; set_solver].
Qed.

(** ** Properties *)

(** The metrics are the live guards.  In every reachable state the counters of
    a model and of a deployment are the number of live guards they cover and the
    sum of their characters (modulo 2^64); with no live guard nothing is left in
    the statistics. *)
Theorem metrics_are_guards s model d :
  reachable step init s ->
  get_model_input_chars (tracker s) model = wrap64 (chars_of (of_model model) (live s))
  /\ get_deployment_count (tracker s) model d = wrap64 (requests_of (of_deployment (deployment_key model d)) (live s))
  /\ (live s = [] -> get_stats (tracker s) = [] /\ get_deployment_stats (tracker s) = []).
Proof.
  intros (H1 & H2 & _)%reachable_inv. split_and!.
  - destruct (H1 model) as (_ & E & _). unfold get_model_input_chars. rewrite <- E. by destruct (_ !! model).
  - destruct (H2 (deployment_key model d)) as (E & _ & _). unfold get_deployment_count. rewrite <- E. by destruct (_ !! _).
  - intros Hl. rewrite Hl in *.
    assert (forall (m : gmap string Metrics) P, counts_guards m P [] -> retain (fun kv => 0 <? request_count kv.2) (map_to_list m) = []) as Hz.
    { intros m P Hc. apply elem_of_nil_inv. intros [k c] [Hp Hk]%elem_of_retain. apply elem_of_map_to_list in Hk.
      destruct (Hc k) as (E & _ & _). rewrite Hk in E. simpl in *. rewrite E in Hp. done. }
    unfold get_stats, get_deployment_stats. by rewrite (Hz _ _ H1), (Hz _ _ H2).
Qed.

Definition demo : Sys :=
  mkSys (new_for_deployment new_tracker "m" "d1" 12).1 [(new_for_deployment new_tracker "m" "d1" 12).2].

Lemma metrics_are_guards_witness : get_deployment_count (tracker demo) "m" "d1" = wrap64 1.
Proof.
  refine (proj1 (proj2 (metrics_are_guards demo "m" "d1" _))).
  eapply rtc_l; [apply (st_new_deployment init "m" "d1" 12); lia | apply rtc_refl].
Defined.

End InFlight.
