(* ===== verification/PlanCharge.v ===== *)
(** * PlanCharge: admission against plans, commit and settlement (boom-main)

    Models the admission path of [boom-gateway/boom-main/src/routes.rs]: the
    resolution of the key and team plans, [check_plan_limits] (team layer, then key
    layer, peeks only), the mapping of a rejection to an error, and the
    [PlanCharge] that commits and settles.  The limiter, the plan store and the
    concurrency counters are the ones of [SlidingWindow] and [PlanStore]; the clock
    is read once per call. *)

From S2P Require Import Prelude Core Text SlidingWindow PlanStore Stores.

Module PlanCharge.
Import Core SlidingWindow PlanStore Stores.

Section charge.
Context {D : Type} `{DecimalOps D}.

(** ** Fallback limits of a key *)

Definition fold_rpm_tpm_into_60s (ws : list (WindowLimit D)) (rpm tpm : option Z) : list (WindowLimit D) :=
  if is_none rpm && is_none tpm then ws
  else if negb (has_60s_counts ws) then ws ++ [mkWindowLimit rpm tpm None 60]
  else match tpm with
  | None => ws
  | Some _ =>
    match list_find (fun w => window_secs w = 60 /\ wl_counts w <> None /\ wl_tokens w = None) ws with
    | Some (i, _) => alter (fun w => mkWindowLimit (wl_counts w) tpm (wl_costs w) (window_secs w)) i ws
    | None => ws
    end
  end.

(** [RateLimitSettings]: the switch and the defaults. *)
Record RateLimitSettings := mkRateLimitSettings { rl_enabled : bool; default_rpm : Z; default_tpm : option Z }.

Definition positive_limit (o : option Z) : option Z :=
  match o with Some v => if 0 <? v then Some v else None | None => None end.

Definition effective_key_limits (rpm tpm : option Z) (cfg : RateLimitSettings) : option Z * option Z :=
  if negb (rl_enabled cfg) then (positive_limit rpm, positive_limit tpm)
  else (positive_limit (option_or rpm (Some (default_rpm cfg))), positive_limit (option_or tpm (default_tpm cfg))).

Definition effective_window_limits (raw : list (list Z)) (cfg : RateLimitSettings) : list (WindowLimit D) :=
  if negb (rl_enabled cfg) then []
  else omap (fun w => match w with c :: s :: _ => Some (mkWindowLimit (Some c) None None s) | _ => None end) raw.

(** ** Errors *)

Definition opt_plan (plan_name : option string) : string :=
  match plan_name with Some n => "Plan '" +:+ n +:+ "', " | None => "" end.

Definition rate_limit_exceeded (retry : option Z) (message limit_type scope scope_id : string) (plan_name : option string)
  : GatewayError :=
  RateLimitExceeded retry message limit_type (Some scope) (Some scope_id) plan_name.

Definition peek_total_token_limit (l : SlidingWindowLimiter) (scope : QuotaScope) (lim : Z)
    (scope_label scope_id : string) (plan_name : option string) (limit_type : string) : option GatewayError :=
  let used := peek_cumulative l scope TotalInputTokens +u peek_cumulative l scope TotalOutputTokens in
  if lim <=? used
  then Some (rate_limit_exceeded None
         (opt_plan plan_name +:+ "Total token limit exceeded. Current: " +:+ show used +:+ ", Limit: " +:+ show lim)
         limit_type scope_label scope_id plan_name)
  else None.

Definition peek_total_cost_limit (l : SlidingWindowLimiter) (scope : QuotaScope) (lim : D)
    (scope_label scope_id : string) (plan_name : option string) (limit_type : string) : option GatewayError :=
  let current_micros := peek_cumulative l scope TotalCost in
  if decimal_to_micros lim <=? current_micros
  then Some (rate_limit_exceeded None
         (opt_plan plan_name +:+ "Total cost limit exceeded. Current: $" +:+ dec_show (micros_to_decimal current_micros)
          +:+ ", Limit: $" +:+ dec_show lim)
         limit_type scope_label scope_id plan_name)
  else None.

Definition kind_word (k : LimitDimension) : string :=
  match k with Counts => "RPM" | Tokens => "TPM" | Costs => "cost" end.
Definition kind_unit_window (k : LimitDimension) : string :=
  match k with Counts => "requests" | Tokens => "tokens" | Costs => "cost" end.

Definition map_decision_to_err (d : RateLimitDecision) (scope_label scope_id requested_model : string)
    (plan_name : option string) : GatewayError :=
  let is_team := bool_decide (scope_label = "team") in
  let per_min := match rejected_window_secs d with Some s => s =? 60 | None => true end in
  let kind := default Counts (rejected_kind d) in
  let lim := show (limit d) in
  let dollars := "$" +:+ dec_show (micros_to_decimal (limit d)) in
  let limit_display := match kind with Costs => dollars | _ => lim end in
  let '(limit_type, message) :=
    if per_min then
      match is_team, plan_name with
      | true, Some pn =>
        match kind with
        | Counts => ("team_rpm_limit", "Team '" +:+ scope_id +:+ "' RPM limit exceeded. Plan: " +:+ pn +:+ ", Limit: " +:+ lim +:+ "/min")
        | Tokens => ("team_tpm_limit", "Team '" +:+ scope_id +:+ "' TPM limit exceeded. Plan: " +:+ pn +:+ ", Limit: " +:+ lim +:+ " tokens/min")
        | Costs => ("team_cost_limit", "Team '" +:+ scope_id +:+ "' cost limit exceeded. Plan: " +:+ pn +:+ ", Limit: " +:+ dollars +:+ "/min")
        end
      | false, Some pn =>
        match kind with
        | Counts => ("plan_rpm_limit", "Plan '" +:+ pn +:+ "' RPM limit exceeded. Limit: " +:+ lim +:+ "/min")
        | Tokens => ("plan_tpm_limit", "Plan '" +:+ pn +:+ "' TPM limit exceeded. Limit: " +:+ lim +:+ " tokens/min")
        | Costs => ("plan_cost_limit", "Plan '" +:+ pn +:+ "' cost limit exceeded. Limit: " +:+ dollars +:+ "/min")
        end
      | true, None =>
        match kind with
        | Counts => ("team_rpm_limit", "Team '" +:+ scope_id +:+ "' RPM limit exceeded. Limit: " +:+ lim +:+ "/min")
        | Tokens => ("team_tpm_limit", "Team '" +:+ scope_id +:+ "' TPM limit exceeded. Limit: " +:+ lim +:+ " tokens/min")
        | Costs => ("team_cost_limit", "Team '" +:+ scope_id +:+ "' cost limit exceeded. Limit: " +:+ dollars +:+ "/min")
        end
      | false, None =>
        match kind with
        | Counts => ("rpm_limit", "RPM limit exceeded. Model: " +:+ requested_model +:+ ", Limit: " +:+ lim +:+ "/min")
        | Tokens => ("tpm_limit", "TPM limit exceeded. Model: " +:+ requested_model +:+ ", Limit: " +:+ lim +:+ " tokens/min")
        | Costs => ("cost_limit", "Cost limit exceeded. Model: " +:+ requested_model +:+ ", Limit: " +:+ dollars +:+ "/min")
        end
      end
    else
      let s := show (default 60 (rejected_window_secs d)) in
      let tail := limit_display +:+ " " +:+ kind_unit_window kind +:+ " per " +:+ s +:+ "s" in
      match is_team, plan_name with
      | true, Some pn => ("team_window_limit", "Team '" +:+ scope_id +:+ "' window " +:+ kind_word kind +:+ " limit exceeded. Plan: " +:+ pn +:+ ", Limit: " +:+ tail)
      | false, Some pn => ("plan_window_limit", "Plan '" +:+ pn +:+ "' window " +:+ kind_word kind +:+ " limit exceeded. Limit: " +:+ tail)
      | true, None => ("team_window_limit", "Team '" +:+ scope_id +:+ "' window " +:+ kind_word kind +:+ " limit exceeded. Limit: " +:+ tail)
      | false, None => ("window_limit", "Window " +:+ kind_word kind +:+ " limit exceeded. Model: " +:+ requested_model +:+ ", Limit: " +:+ tail)
      end in
  RateLimitExceeded (retry_after_secs d) message limit_type (Some scope_label) (Some scope_id) plan_name.

(** ** The charge *)

Record PlanCharge := mkPlanCharge {
  pc_key : RateLimitKey;
  pc_window_limits : list (WindowLimit D);
  pc_weight : Z;
  concurrency_guard : option Z;
  team_concurrency_guard : option Z;
  team_key : option RateLimitKey;
  team_window_limits : option (list (WindowLimit D));
  key_scope : QuotaScope;
  team_scope : option QuotaScope;
  cost_rate : ModelCostRate D;
  pc_plan_name : option string;
  team_plan_name : option string;
  rpm_limit_display : Z;
  concurrency_display : Z;
  concurrency_limit_display : option Z;
  peek_remaining : Z;
  committed : bool;
  settled : bool;
}.

Definition set_flags (c : PlanCharge) (com set : bool) : PlanCharge :=
  mkPlanCharge (pc_key c) (pc_window_limits c) (pc_weight c) (concurrency_guard c) (team_concurrency_guard c)
    (team_key c) (team_window_limits c) (key_scope c) (team_scope c) (cost_rate c) (pc_plan_name c) (team_plan_name c)
    (rpm_limit_display c) (concurrency_display c) (concurrency_limit_display c) (peek_remaining c) com set.

Definition commit (now t : Z) (l : SlidingWindowLimiter) (c : PlanCharge)
  : SlidingWindowLimiter * PlanCharge * RateLimitDecision :=
  let '(l1, decision) := commit_counts now t l (pc_key c) (pc_window_limits c) (pc_weight c) in
  let l2 := match team_key c, team_window_limits c with
  | Some tk, Some tw => (commit_counts now t l1 tk tw (pc_weight c)).1
  | _, _ => l1
  end in
  (l2, set_flags c true (settled c), decision).

Definition take_concurrency_guard (c : PlanCharge) : PlanCharge * option Z :=
  (mkPlanCharge (pc_key c) (pc_window_limits c) (pc_weight c) None (team_concurrency_guard c)
    (team_key c) (team_window_limits c) (key_scope c) (team_scope c) (cost_rate c) (pc_plan_name c) (team_plan_name c)
    (rpm_limit_display c) (concurrency_display c) (concurrency_limit_display c) (peek_remaining c) (committed c) (settled c),
   concurrency_guard c).

(** The costs in micros: the provider's own cost, or the model's rate. *)
Definition charge_micros (c : PlanCharge) (in_tok cached_tok out_tok : Z) (actual_cost : option (D * D * D)) : Z * Z * Z :=
  let '(regular, cached, output) := match actual_cost with
  | Some cost => cost
  | None => compute_cost_breakdown (cost_rate c) in_tok cached_tok out_tok
  end in
  (decimal_to_micros regular, decimal_to_micros cached, decimal_to_micros output).

Definition settle (now t : Z) (l : SlidingWindowLimiter) (c : PlanCharge) (in_tok cached_tok out_tok : Z)
    (actual_cost : option (D * D * D)) : SlidingWindowLimiter * PlanCharge :=
  if negb (committed c) || settled c then (l, c)
  else
    let '(regular, cached, output) := charge_micros c in_tok cached_tok out_tok actual_cost in
    let l1 := settle_usage now t l (pc_key c) (key_scope c) (pc_window_limits c) in_tok out_tok regular cached output in
    let l2 := match team_key c, team_window_limits c, team_scope c with
    | Some tk, Some tw, Some ts => settle_usage now t l1 tk ts tw in_tok out_tok regular cached output
    | _, _, _ => l1
    end in
    (l2, set_flags c (committed c) true).

(** [usage] is (prompt tokens, cached tokens if reported, completion tokens). *)
Definition settle_partial_provider_accounting (now t : Z) (l : SlidingWindowLimiter) (c : PlanCharge)
    (usage : option (Z * option Z * Z)) (cost : option (D * D * D)) : SlidingWindowLimiter * PlanCharge :=
  if is_none usage && is_none cost then (l, c)
  else
    let '(l1, c1, _) := commit now t l c in
    let '(prompt, cached, completion) := default (0, None, 0) usage in
    settle now t l1 c1 prompt (default 0 cached) completion cost.

(** ** Admission *)

Record Gateway := mkGateway {
  limiter : SlidingWindowLimiter;
  plan_store : PlanStore D;
  key_counters : Counters;
  team_counters : Counters;
  deployment_store : DeploymentStore D;
}.

Definition with_limiter (g : Gateway) (l : SlidingWindowLimiter) : Gateway :=
  mkGateway l (plan_store g) (key_counters g) (team_counters g) (deployment_store g).
Definition with_keys (g : Gateway) (c : Counters) : Gateway :=
  mkGateway (limiter g) (plan_store g) c (team_counters g) (deployment_store g).
Definition with_teams (g : Gateway) (c : Counters) : Gateway :=
  mkGateway (limiter g) (plan_store g) (key_counters g) c (deployment_store g).

Definition drop_key_guard (g : Gateway) (o : option Z) : Gateway :=
  match o with Some cell => with_keys g (fetch_sub (key_counters g) cell) | None => g end.
Definition drop_team_guard (g : Gateway) (o : option Z) : Gateway :=
  match o with Some cell => with_teams g (fetch_sub (team_counters g) cell) | None => g end.

(** The three states of a key's choice. *)
Definition resolve_key_plan (s : PlanStore D) (kh : string) : option (RateLimitPlan D) :=
  match get_plan_name_explicit s kh with
  | None => get_default_plan s
  | Some None => None
  | Some (Some n) =>
    match get_plan s n with
    | Some p => if decide (plan_type p = PlanTeam) then get_default_plan s else Some p
    | None => get_default_plan s
    end
  end.

Definition plan_key (kh : string) : RateLimitKey := mkRateLimitKey kh "__plan__".
Definition team_plan_key (tid : string) : RateLimitKey := mkRateLimitKey ("__team__" +:+ tid) "__plan__".

(** [clear_windows] when the list is not empty. *)
Definition clear_stale (l : SlidingWindowLimiter) (key : RateLimitKey) (stale : list Z) : SlidingWindowLimiter :=
  match stale with [] => l | _ => clear_windows l key stale end.

(** The peeks of one plan: windows, total tokens, total cost; the first failure. *)
Definition peek_plan (now : Z) (l : SlidingWindowLimiter) (key : RateLimitKey) (scope : QuotaScope)
    (ws : list (WindowLimit D)) (p : RateLimitPlan D) (weight : Z)
    (label id requested_model token_type cost_type : string) : RateLimitDecision * option GatewayError :=
  let d := peek_only now l key ws weight in
  if negb (allowed d) then (d, Some (map_decision_to_err d label id requested_model (Some (name p))))
  else
    let tok := match total_token_limit p with
    | Some lim => peek_total_token_limit l scope lim label id (Some (name p)) token_type
    | None => None
    end in
    match tok with
    | Some e => (d, Some e)
    | None =>
      (d, match total_cost_limit p with
          | Some lim => peek_total_cost_limit l scope lim label id (Some (name p)) cost_type
          | None => None
          end)
    end.

(** Step 1a, 1b: the team's guard, then its peeks; on error the guard is dropped. *)
Definition check_team (now : Z) (g : Gateway) (tid : string) (tp : RateLimitPlan D) (requested_model : string) (weight : Z)
  : Gateway * (GatewayError + (option Z * list (WindowLimit D))) :=
  let '(tc_limit, team_windows, team_stale) := effective_limits now tp in
  let acquired := match tc_limit with
  | Some lim =>
    let '(c, cell) := try_acquire_inner (team_counters g) tid lim in
    match cell with
    | Some cell => (with_teams g c, inr (Some cell))
    | None => (with_teams g c, inl (ConcurrencyExceeded lim
        ("Team concurrency limit exceeded. Team: " +:+ tid +:+ ", Plan: " +:+ name tp +:+ ", Limit: " +:+ show lim)))
    end
  | None => (g, inr None)
  end in
  match acquired with
  | (g1, inl e) => (g1, inl e)
  | (g1, inr guard) =>
    let g2 := with_limiter g1 (clear_stale (limiter g1) (team_plan_key tid) team_stale) in
    match peek_plan now (limiter g2) (team_plan_key tid) (ScopeTeam tid) team_windows tp weight
            "team" tid requested_model "team_total_token" "team_total_cost" with
    | (_, Some e) => (drop_team_guard g2 guard, inl e)
    | (_, None) => (g2, inr (guard, team_windows))
    end
  end.

(** Step 2: the key's guard and peeks.  Without a key plan (team only) the key is
    peeked against the fallback windows. *)
Definition check_key (now : Z) (g : Gateway) (kh requested_model : string) (kp : option (RateLimitPlan D))
    (legacy : list (WindowLimit D)) (weight : Z)
  : Gateway * (GatewayError + (option Z * list (WindowLimit D) * RateLimitDecision * option Z)) :=
  let '(conc, plan_windows, stale) := match kp with Some p => effective_limits now p | None => (None, [], []) end in
  let acquired := match conc, kp with
  | Some lim, Some p =>
    let '(c, cell) := try_acquire_inner (key_counters g) kh lim in
    match cell with
    | Some cell => (with_keys g c, inr (Some cell))
    | None => (with_keys g c, inl (ConcurrencyExceeded lim
        ("Concurrency limit exceeded. Plan: " +:+ name p +:+ ", Limit: " +:+ show lim)))
    end
  | _, _ => (g, inr None)
  end in
  match acquired with
  | (g1, inl e) => (g1, inl e)
  | (g1, inr guard) =>
    let g2 := with_limiter g1 (clear_stale (limiter g1) (plan_key kh) stale) in
    match kp with
    | Some p =>
      match peek_plan now (limiter g2) (plan_key kh) (ScopeKey kh) plan_windows p weight
              "key" kh requested_model "key_total_token" "key_total_cost" with
      | (_, Some e) => (drop_key_guard g2 guard, inl e)
      | (d, None) => (g2, inr (guard, plan_windows, d, conc))
      end
    | None =>
      let d := peek_only now (limiter g2) (mkRateLimitKey kh requested_model) legacy weight in
      if negb (allowed d) then (drop_key_guard g2 guard, inl (map_decision_to_err d "key" kh requested_model None))
      else (g2, inr (guard, legacy, d, conc))
    end
  end.

Definition check_plan_limits (now : Z) (g : Gateway) (kh : string) (team_id : option string)
    (requested_model resolved_model : string) (rpm tpm : option Z) (ws : list (WindowLimit D)) (weight : Z)
  : Gateway * (GatewayError + PlanCharge) :=
  let key_plan := resolve_key_plan (plan_store g) kh in
  let team_plan := tid ← team_id; p ← resolve_team_plan (plan_store g) tid; Some (tid, p) in
  let legacy := fold_rpm_tpm_into_60s ws rpm tpm in
  let rate := get_cost_rate (deployment_store g) resolved_model in
  match key_plan, team_plan with
  | None, None =>
    let key := mkRateLimitKey kh requested_model in
    let d := peek_only now (limiter g) key legacy weight in
    if negb (allowed d) then (g, inl (map_decision_to_err d "key" kh requested_model None))
    else (g, inr (mkPlanCharge key legacy weight None None None None (ScopeKey kh) None rate None None
                    (limit d) 0 None (remaining d) false false))
  | _, _ =>
    let team := match team_plan with
    | Some (tid, tp) =>
      match check_team now g tid tp requested_model weight with
      | (g1, inl e) => (g1, inl e)
      | (g1, inr (guard, tw)) => (g1, inr (guard, Some (team_plan_key tid), Some tw, Some (ScopeTeam tid)))
      end
    | None => (g, inr (None, None, None, None))
    end in
    match team with
    | (g1, inl e) => (g1, inl e)
    | (g1, inr (team_guard, tk, tw, ts)) =>
      match check_key now g1 kh requested_model key_plan legacy weight with
      | (g2, inl e) => (drop_team_guard g2 team_guard, inl e)
      | (g2, inr (guard, commit_windows, d, conc)) =>
        let commit_key := match key_plan with Some _ => plan_key kh | None => mkRateLimitKey kh requested_model end in
        (g2, inr (mkPlanCharge commit_key commit_windows weight guard team_guard tk tw (ScopeKey kh) ts rate
                    (name <$> key_plan) ((fun tp => name tp.2) <$> team_plan)
                    (limit d) (get_concurrency (key_counters g2) kh) conc (remaining d) false false))
      end
    end
  end.

(** Dropping a charge releases the guards it still holds, and nothing else. *)
Definition charge_drop (g : Gateway) (c : PlanCharge) : Gateway :=
  drop_team_guard (drop_key_guard g (concurrency_guard c)) (team_concurrency_guard c).

(** ** Concurrency counters, read by id *)

(** The table is well formed: one cell per id, every cell allocated, [u32] values. *)
Record counters_ok (c : Counters) : Prop := {
  co_inj : forall id1 id2 cell, entries c !! id1 = Some cell -> entries c !! id2 = Some cell -> id1 = id2;
  co_fresh : forall id cell, entries c !! id = Some cell -> cell < next_cell c;
  co_u32 : forall cell, is_u32 (load c cell);
}.

(** Two tables show the same counts. *)
Definition same_counts (c c' : Counters) : Prop := forall id, get_concurrency c' id = get_concurrency c id.

Lemma u32_add_range a b : is_u32 (u32_add a b).
Proof. unfold is_u32, u32_add, wrap32. by apply Z.mod_pos_bound. Qed.
Lemma u32_sub_range a b : is_u32 (u32_sub a b).
Proof. unfold is_u32, u32_sub, wrap32. by apply Z.mod_pos_bound. Qed.
Lemma u32_add_sub a : is_u32 a -> u32_sub (u32_add a 1) 1 = a.
Proof.
  intros Ha. unfold u32_sub, u32_add, wrap32. rewrite Zminus_mod_idemp_l.
  replace (a + 1 - 1) with a by lia. by apply Z.mod_small.
Qed.

Lemma entry_or_insert_ok c id c1 cell :
  counters_ok c -> entry_or_insert c id = (c1, cell) ->
  counters_ok c1 /\ same_counts c c1 /\ entries c1 !! id = Some cell /\ load c1 cell = get_concurrency c id.
Proof.
  intros [Hi Hf Hu] E. unfold entry_or_insert, get_concurrency in *.
  destruct (entries c !! id) as [cell0 |] eqn:El; simplify_eq.
  { by split_and!. }
  assert (forall id' cell, entries c !! id' = Some cell -> cell <> next_cell c) as Hne.
  { intros id' cell Hl ->. apply Hf in Hl. lia. }
  split_and!.
  - split; simpl.
    + intros id1 id2 cell H1 H2. apply lookup_insert_Some in H1 as [[? ?] | [? H1]], H2 as [[? ?] | [? H2]]; subst; try done.
      * by apply Hne in H2.
      * by apply Hne in H1.
      * eauto.
    + intros id' cell [[? ?] | [? Hl]]%lookup_insert_Some; subst; [lia |]. apply Hf in Hl. lia.
    + intros cell. unfold load. simpl. destruct (decide (cell = next_cell c)) as [-> |].
      * rewrite lookup_insert_eq. by unfold is_u32.
      * rewrite lookup_insert_ne by done. apply Hu.
  - intros id'. unfold get_concurrency, load. simpl. destruct (decide (id' = id)) as [-> |].
    + by rewrite !lookup_insert_eq, El.
    + rewrite lookup_insert_ne by done. destruct (entries c !! id') as [cell |] eqn:El'; [| done].
      apply Hne in El'. by rewrite lookup_insert_ne.
  - simpl. by rewrite lookup_insert_eq.
  - unfold load. simpl. by rewrite lookup_insert_eq.
Qed.

Lemma store_ok c cell v : counters_ok c -> is_u32 v -> counters_ok (store c cell v).
Proof.
  intros [Hi Hf Hu] Hv. split; simpl; try done. intros cell'. rewrite load_store. by case_bool_decide.
Qed.

Lemma get_store c id cell v id' :
  counters_ok c -> entries c !! id = Some cell ->
  get_concurrency (store c cell v) id' = if bool_decide (id' = id) then v else get_concurrency c id'.
Proof.
  intros Hok Hl. unfold get_concurrency. simpl. destruct (entries c !! id') as [cell' |] eqn:El'.
  - rewrite load_store. repeat case_bool_decide; subst; try done; exfalso; [| naive_solver].
    by assert (id' = id) by (by eapply co_inj).
  - case_bool_decide; [naive_solver | done].
Qed.

(** An acquisition succeeds below the limit, and giving its cell back restores every
    count; a refused one has restored them itself. *)
Lemma acquire_spec c id lim c' out :
  counters_ok c -> try_acquire_inner c id lim = (c', out) ->
  counters_ok c' /\
  match out with
  | None => lim <= get_concurrency c id /\ same_counts c c'
  | Some cell =>
    get_concurrency c id < lim /\ same_counts c (fetch_sub c' cell)
    /\ forall id', get_concurrency c' id' = if bool_decide (id' = id) then u32_add (get_concurrency c id) 1 else get_concurrency c id'
  end.
Proof.
  intros Hok E. unfold try_acquire_inner, try_acquire_begin, fetch_add in E.
  destruct (entry_or_insert c id) as [c1 cell] eqn:Ee. destruct (entry_or_insert_ok _ _ _ _ Hok Ee) as (Hok1 & Hs & Hl & Hv).
  assert (counters_ok (store c1 cell (u32_add (load c1 cell) 1))) as Hok2 by (apply store_ok; [done | apply u32_add_range]).
  assert (same_counts c (fetch_sub (store c1 cell (u32_add (load c1 cell) 1)) cell)) as Hback.
  { intros id'. unfold fetch_sub. rewrite (get_store _ id) by done. rewrite load_store, (bool_decide_eq_true_2 (cell = cell)) by done.
    case_bool_decide as Ei.
    - subst. rewrite u32_add_sub by apply Hok1. done.
    - rewrite (get_store _ id), bool_decide_eq_false_2 by done. apply Hs. }
  rewrite Hv in E, Hok2, Hback. destruct (Z.leb_spec lim (get_concurrency c id)); simplify_eq.
  - split; [| done]. unfold fetch_sub. apply store_ok; [done |]. apply u32_sub_range.
  - split; [done |]. split_and!; [done.. |]. intros id'. rewrite (get_store _ id) by done. by rewrite Hs.
Qed.

(** ** What the checks may change *)

(** Windows may disappear (cleared as stale); no counter moves. *)
Definition uncharged (l l' : SlidingWindowLimiter) : Prop :=
  cumulative l' = cumulative l /\ forall k c, windows l' !! k = Some c -> windows l !! k = Some c.

#[local] Instance uncharged_preorder : PreOrder uncharged.
Proof.
  split; [by split |]. intros l1 l2 l3 [E1 W1] [E2 W2]. split; [congruence |]. auto.
Qed.

Lemma clear_stale_uncharged l key stale : uncharged l (clear_stale l key stale).
Proof.
  assert (uncharged l (clear_windows l key stale)) as Hc; [| by destruct stale].
  unfold clear_windows. revert l. induction stale as [| s stale IH]; intros l; simpl; [reflexivity |].
  etransitivity; [| apply IH]. destruct (windows l !! cache_key key s); [| reflexivity].
  split; [done |]. simpl. intros k c [_ ?]%lookup_delete_Some. done.
Qed.

Definition cleared (now : Z) (l : SlidingWindowLimiter) (key : RateLimitKey) (p : RateLimitPlan D) : SlidingWindowLimiter :=
  clear_stale l key (effective_limits now p).2.

(** The gateway after the checks: the plans and deployments are untouched. *)
Record checked (g g' : Gateway) : Prop := {
  ck_plans : plan_store g' = plan_store g;
  ck_deployments : deployment_store g' = deployment_store g;
  ck_limiter : uncharged (limiter g) (limiter g');
  ck_keys : same_counts (key_counters g) (key_counters g');
  ck_teams : same_counts (team_counters g) (team_counters g');
}.

Lemma same_counts_trans c1 c2 c3 : same_counts c1 c2 -> same_counts c2 c3 -> same_counts c1 c3.
Proof. intros H1 H2 id. by rewrite H2. Qed.

Definition give_back (c : Counters) (guard : option Z) : Counters :=
  match guard with Some cell => fetch_sub c cell | None => c end.

Lemma checked_drop g g' kg tg :
  plan_store g' = plan_store g -> deployment_store g' = deployment_store g -> uncharged (limiter g) (limiter g') ->
  same_counts (key_counters g) (give_back (key_counters g') kg) ->
  same_counts (team_counters g) (give_back (team_counters g') tg) ->
  checked g (drop_team_guard (drop_key_guard g' kg) tg)
  /\ limiter (drop_team_guard (drop_key_guard g' kg) tg) = limiter g'.
Proof. intros. by destruct kg, tg. Qed.

(** ** When a plan admits a request *)

Definition totals_below (l : SlidingWindowLimiter) (scope : QuotaScope) (p : RateLimitPlan D) : Prop :=
  (forall lim, total_token_limit p = Some lim ->
     peek_cumulative l scope TotalInputTokens +u peek_cumulative l scope TotalOutputTokens < lim)
  /\ (forall lim, total_cost_limit p = Some lim -> peek_cumulative l scope TotalCost < decimal_to_micros lim).

(** The windows of the plan at this time, with the stale ones cleared. *)
Definition plan_admits (now : Z) (l : SlidingWindowLimiter) (c : Counters) (id : string) (key : RateLimitKey)
    (scope : QuotaScope) (weight : Z) (p : RateLimitPlan D) : Prop :=
  (forall lim, (effective_limits now p).1.1 = Some lim -> get_concurrency c id < lim)
  /\ (forall w, w ∈ (effective_limits now p).1.2 -> window_fits now (cleared now l key p) key weight w)
  /\ totals_below l scope p.

Lemma peek_plan_spec now l key scope ws p weight label id rm tt ct :
  (peek_plan now l key scope ws p weight label id rm tt ct).2 = None <->
  (forall w, w ∈ ws -> window_fits now l key weight w) /\ totals_below l scope p.
Proof.
  rewrite <- peek_allowed. unfold peek_plan, totals_below, peek_total_token_limit, peek_total_cost_limit.
  destruct (allowed _); simpl; [| naive_solver].
  destruct (total_token_limit p) as [lt |], (total_cost_limit p) as [lc |]; simpl;
    repeat match goal with |- context [?a <=? ?b] => destruct (Z.leb_spec a b) end; simpl;
    split; intros Hx; try done; split_and?; intros; simplify_eq; try done;
    destruct Hx as (_ & Ht & Hc); try specialize (Ht _ eq_refl); try specialize (Hc _ eq_refl); lia.
Qed.

Lemma totals_below_cleared l l' scope p : uncharged l l' -> totals_below l' scope p <-> totals_below l scope p.
Proof. intros [E _]. unfold totals_below, peek_cumulative. by rewrite E. Qed.

Lemma check_team_spec now g tid tp rm weight g' r :
  counters_ok (team_counters g) -> check_team now g tid tp rm weight = (g', r) ->
  plan_store g' = plan_store g /\ deployment_store g' = deployment_store g /\ key_counters g' = key_counters g
  /\ uncharged (limiter g) (limiter g') /\
  match r with
  | inl _ => ~ plan_admits now (limiter g) (team_counters g) tid (team_plan_key tid) (ScopeTeam tid) weight tp
      /\ same_counts (team_counters g) (team_counters g')
  | inr (guard, tw) =>
      plan_admits now (limiter g) (team_counters g) tid (team_plan_key tid) (ScopeTeam tid) weight tp
      /\ limiter g' = cleared now (limiter g) (team_plan_key tid) tp /\ tw = (effective_limits now tp).1.2
      /\ same_counts (team_counters g) (give_back (team_counters g') guard)
  end.
Proof.
  intros Hok. unfold check_team, plan_admits, cleared. destruct (effective_limits now tp) as [[tc ws] stale].
  set (l := clear_stale (limiter g) (team_plan_key tid) stale). cbn [fst snd].
  assert (uncharged (limiter g) l) as Hl by apply clear_stale_uncharged.
  destruct tc as [lim |]; [destruct (try_acquire_inner (team_counters g) tid lim) as [c cell] eqn:Ea;
    destruct (acquire_spec _ _ _ _ _ Hok Ea) as [_ Hout]; destruct cell as [cell |] |].
  2: { intros Heq; simplify_eq. simpl. destruct Hout as [Hle Hs]. split_and!; try done. intros [Hc _].
       specialize (Hc _ eq_refl). lia. }
  all: cbn [with_limiter with_teams limiter team_counters]; fold l;
    pose proof (peek_plan_spec now l (team_plan_key tid) (ScopeTeam tid) ws tp weight
       "team" tid rm "team_total_token" "team_total_cost") as Hp; rewrite (totals_below_cleared _ _ _ _ Hl) in Hp;
    destruct (peek_plan _ _ _ _ _ _ _ _ _ _ _ _) as [d [e |]]; intros; simplify_eq; simpl in *.
  - destruct Hout as (Hlt & Hs & _). split_and!; try done. intros (_ & Hw & Ht). naive_solver.
  - destruct Hout as (Hlt & Hs & _). destruct Hp as [Hp _]. destruct (Hp eq_refl) as [Hw Ht].
    split_and!; try done. intros; by simplify_eq.
  - split_and!; try done. intros (_ & Hw & Ht). naive_solver.
  - destruct Hp as [Hp _]. destruct (Hp eq_refl) as [Hw Ht]. by split_and!.
Qed.

(** The key layer: the plan, or the fallback windows of the requested model. *)
Definition key_admits (now : Z) (l : SlidingWindowLimiter) (c : Counters) (kh rm : string)
    (kp : option (RateLimitPlan D)) (legacy : list (WindowLimit D)) (weight : Z) : Prop :=
  match kp with
  | Some p => plan_admits now l c kh (plan_key kh) (ScopeKey kh) weight p
  | None => forall w, w ∈ legacy -> window_fits now l (mkRateLimitKey kh rm) weight w
  end.

Lemma check_key_spec now g kh rm kp legacy weight g' r :
  counters_ok (key_counters g) -> check_key now g kh rm kp legacy weight = (g', r) ->
  plan_store g' = plan_store g /\ deployment_store g' = deployment_store g /\ team_counters g' = team_counters g
  /\ uncharged (limiter g) (limiter g') /\
  match r with
  | inl _ => ~ key_admits now (limiter g) (key_counters g) kh rm kp legacy weight
      /\ same_counts (key_counters g) (key_counters g')
  | inr (guard, ws, d, conc) =>
      key_admits now (limiter g) (key_counters g) kh rm kp legacy weight
      /\ ws = match kp with Some p => (effective_limits now p).1.2 | None => legacy end
      /\ same_counts (key_counters g) (give_back (key_counters g') guard)
  end.
Proof.
  intros Hok. unfold check_key, key_admits. destruct kp as [p |].
  2: { simpl. pose proof (peek_allowed now (limiter g) (mkRateLimitKey kh rm) legacy weight) as Hp.
       destruct (allowed _); simpl; intros; simplify_eq; simpl; split_and!; try done; naive_solver. }
  unfold plan_admits, cleared. destruct (effective_limits now p) as [[tc ws] stale].
  set (l := clear_stale (limiter g) (plan_key kh) stale). cbn [fst snd].
  assert (uncharged (limiter g) l) as Hl by apply clear_stale_uncharged.
  destruct tc as [lim |]; [destruct (try_acquire_inner (key_counters g) kh lim) as [c cell] eqn:Ea;
    destruct (acquire_spec _ _ _ _ _ Hok Ea) as [_ Hout]; destruct cell as [cell |] |].
  2: { intros Heq; simplify_eq. simpl. destruct Hout as [Hle Hs]. split_and!; try done. intros [Hc _].
       specialize (Hc _ eq_refl). lia. }
  all: cbn [with_limiter with_keys limiter key_counters]; fold l;
    pose proof (peek_plan_spec now l (plan_key kh) (ScopeKey kh) ws p weight
       "key" kh rm "key_total_token" "key_total_cost") as Hp; rewrite (totals_below_cleared _ _ _ _ Hl) in Hp;
    destruct (peek_plan _ _ _ _ _ _ _ _ _ _ _ _) as [d [e |]]; intros; simplify_eq; simpl in *.
  - destruct Hout as (Hlt & Hs & _). split_and!; try done. intros (_ & Hw & Ht). naive_solver.
  - destruct Hout as (Hlt & Hs & _). destruct Hp as [Hp _]. destruct (Hp eq_refl) as [Hw Ht].
    split_and!; try done. intros; by simplify_eq.
  - split_and!; try done. intros (_ & Hw & Ht). naive_solver.
  - destruct Hp as [Hp _]. destruct (Hp eq_refl) as [Hw Ht]. by split_and!.
Qed.

(** The team layer is checked when the key's team resolves to a plan. *)
Definition team_layer (g : Gateway) (team_id : option string) : option (string * RateLimitPlan D) :=
  tid ← team_id; p ← resolve_team_plan (plan_store g) tid; Some (tid, p).

Definition team_admits (now : Z) (g : Gateway) (tp : option (string * RateLimitPlan D)) (weight : Z) : Prop :=
  match tp with
  | Some (tid, p) => plan_admits now (limiter g) (team_counters g) tid (team_plan_key tid) (ScopeTeam tid) weight p
  | None => True
  end.

(** The limiter that the key layer sees: the team's stale windows are gone. *)
Definition after_team (now : Z) (g : Gateway) (tp : option (string * RateLimitPlan D)) : SlidingWindowLimiter :=
  match tp with Some (tid, p) => cleared now (limiter g) (team_plan_key tid) p | None => limiter g end.

(** The whole check, on its two outcomes. *)
Lemma check_plan_limits_spec now g kh team_id rm rsm rpm tpm ws weight g' r :
  counters_ok (key_counters g) -> counters_ok (team_counters g) ->
  check_plan_limits now g kh team_id rm rsm rpm tpm ws weight = (g', r) ->
  let legacy := fold_rpm_tpm_into_60s ws rpm tpm in
  let kp := resolve_key_plan (plan_store g) kh in
  let tp := team_layer g team_id in
  let admitted := team_admits now g tp weight /\ key_admits now (after_team now g tp) (key_counters g) kh rm kp legacy weight in
  match r with
  | inl _ => ~ admitted /\ checked g g'
  | inr c => admitted /\ checked g (charge_drop g' c) /\ limiter (charge_drop g' c) = limiter g'
      /\ committed c = false /\ settled c = false
      /\ pc_window_limits c = match kp with Some p => (effective_limits now p).1.2 | None => legacy end
      /\ is_none (team_key c) = is_none tp /\ is_none (team_window_limits c) = is_none tp
      /\ key_scope c = ScopeKey kh /\ team_scope c = (fun t => ScopeTeam t.1) <$> tp
      /\ cost_rate c = get_cost_rate (deployment_store g) rsm
  end.
Proof.
  intros Hk Ht. unfold check_plan_limits. fold (team_layer g team_id).
  set (legacy := fold_rpm_tpm_into_60s ws rpm tpm). destruct (resolve_key_plan (plan_store g) kh) as [kp |] eqn:Ekp;
    destruct (team_layer g team_id) as [[tid tp] |] eqn:Etp; cbn zeta.
  4: { pose proof (peek_allowed now (limiter g) (mkRateLimitKey kh rm) legacy weight) as Hp.
       destruct (allowed _); simpl; intros; simplify_eq; simpl.
       - split_and!; try done. naive_solver.
       - split; [naive_solver |]. by split. }
  all: try (destruct (check_team now g tid tp rm weight) as [g1 [e | [guard tw]]] eqn:Et;
    destruct (check_team_spec _ _ _ _ _ _ _ _ Ht Et) as (Ep & Ed & Ek & Hu & Hr)).
  all: try (intros; simplify_eq; split; [naive_solver |]; destruct Hr as [_ Hs]; split; try done; by rewrite Ek).
  all: match goal with
  | |- context [check_key ?n ?g1 ?k ?m ?q ?lg ?wt] =>
    destruct (check_key n g1 k m q lg wt) as [g2 [e2 | [[[guard2 ws2] d2] conc2]]] eqn:Ec;
    assert (counters_ok (key_counters g1)) as Hk1 by (rewrite ?Ek; done);
    destruct (check_key_spec _ _ _ _ _ _ _ _ _ Hk1 Ec) as (Ep2 & Ed2 & Ek2 & Hu2 & Hr2)
  end; intros; simplify_eq; simpl.
  1, 5: destruct Hr as (Ha & El & -> & Hs); rewrite El, Ek in Hr2; destruct Hr2 as [Ha2 Hr2];
    split; [naive_solver |];
    apply (checked_drop g g2 None guard); [congruence | congruence | by etransitivity | done | by rewrite Ek2].
  2: destruct Hr2 as [Ha2 Hr2]; split; [by intros [_ Hx] |]; apply (checked_drop g g2 None None); try done; by rewrite Ek2.
  1, 3: destruct Hr as (Ha & El & -> & Hs); rewrite El, Ek in Hr2; destruct Hr2 as (Ha2 & Ew & Hr2);
    destruct (checked_drop g g' guard2 guard) as [Hck El2]; [congruence | congruence | by etransitivity | done | by rewrite Ek2 |];
    split_and!; done.
  all: destruct Hr2 as (Ha2 & Ew & Hr2);
    destruct (checked_drop g g' guard2 None) as [Hck El2]; [done.. | by rewrite Ek2 |]; split_and!; done.
Qed.

(** ** Which windows the checks remove *)

(** The windows that the schedule of a plan lists as stale, for the key and for its team. *)
Definition key_stale (now : Z) (g : Gateway) (kh : string) (ck : string) : Prop :=
  exists p secs, resolve_key_plan (plan_store g) kh = Some p /\ secs ∈ (effective_limits now p).2 /\ ck = cache_key (plan_key kh) secs.
Definition team_stale (now : Z) (g : Gateway) (team_id : option string) (ck : string) : Prop :=
  exists tid p secs, team_layer g team_id = Some (tid, p) /\ secs ∈ (effective_limits now p).2 /\ ck = cache_key (team_plan_key tid) secs.

(** [l'] is [l] with some of the windows in [gone] removed, and nothing else moved. *)
Definition only_removed (gone : string -> Prop) (l l' : SlidingWindowLimiter) : Prop :=
  cumulative l' = cumulative l
  /\ forall ck, windows l' !! ck = windows l !! ck \/ (windows l' !! ck = None /\ gone ck).

Lemma only_removed_refl gone l : only_removed gone l l.
Proof. split; [done |]. intros ck. by left. Qed.
Lemma only_removed_trans (gone : string -> Prop) l1 l2 l3 :
  only_removed gone l1 l2 -> only_removed gone l2 l3 -> only_removed gone l1 l3.
Proof.
  intros [E1 W1] [E2 W2]. split; [congruence |]. intros ck. destruct (W1 ck) as [<- | [N1 G1]], (W2 ck) as [-> | [N2 G2]]; auto.
Qed.

Lemma clear_windows_removes (gone : string -> Prop) l key stale :
  (forall secs, secs ∈ stale -> gone (cache_key key secs)) -> only_removed gone l (clear_windows l key stale).
Proof.
  unfold clear_windows. revert l. induction stale as [| secs stale IH]; intros l Hg; simpl; [apply only_removed_refl |].
  eapply only_removed_trans; [| apply IH; intros; apply Hg; by right].
  destruct (windows l !! cache_key key secs); [| apply only_removed_refl]. split; [done |]. intros ck. simpl.
  destruct (decide (ck = cache_key key secs)) as [-> |]; [right | left; by apply lookup_delete_ne].
  split; [apply lookup_delete_eq | apply Hg; by left].
Qed.
Lemma clear_stale_removes (gone : string -> Prop) l key stale :
  (forall secs, secs ∈ stale -> gone (cache_key key secs)) -> only_removed gone l (clear_stale l key stale).
Proof. intros Hg. unfold clear_stale. destruct stale; [apply only_removed_refl | by apply clear_windows_removes]. Qed.

Lemma check_team_removes (gone : string -> Prop) now g tid tp rm weight :
  (forall secs, secs ∈ (effective_limits now tp).2 -> gone (cache_key (team_plan_key tid) secs)) ->
  only_removed gone (limiter g) (limiter (check_team now g tid tp rm weight).1)
  /\ plan_store (check_team now g tid tp rm weight).1 = plan_store g.
Proof.
  intros Hg. unfold check_team. destruct (effective_limits now tp) as [[tc ws] stale]. cbn [snd] in Hg.
  pose proof (clear_stale_removes gone (limiter g) (team_plan_key tid) stale Hg) as Hr.
  destruct tc as [lim |]; [destruct (try_acquire_inner (team_counters g) tid lim) as [c [cell |]] |]; cbn [with_limiter with_teams limiter];
    [| by split; [apply only_removed_refl |] |]; destruct (peek_plan _ _ _ _ _ _ _ _ _ _ _ _) as [d [e |]]; by split.
Qed.
Lemma check_key_removes (gone : string -> Prop) now g kh rm kp legacy weight :
  (forall p secs, kp = Some p -> secs ∈ (effective_limits now p).2 -> gone (cache_key (plan_key kh) secs)) ->
  only_removed gone (limiter g) (limiter (check_key now g kh rm kp legacy weight).1).
Proof.
  intros Hg. unfold check_key. destruct kp as [p |].
  2:{ cbn [clear_stale with_limiter limiter]. destruct (negb _); apply only_removed_refl. }
  specialize (Hg p). destruct (effective_limits now p) as [[tc ws] stale]. cbn [snd] in Hg.
  pose proof (clear_stale_removes gone (limiter g) (plan_key kh) stale (fun secs => Hg secs eq_refl)) as Hr.
  destruct tc as [lim |]; [destruct (try_acquire_inner (key_counters g) kh lim) as [c [cell |]] |]; cbn [with_limiter with_keys limiter];
    [| apply only_removed_refl |]; by destruct (peek_plan _ _ _ _ _ _ _ _ _ _ _ _) as [d [e |]].
Qed.

(** Whatever the checks decide, they remove stale windows of the key's plan and of its
    team's plan, and change nothing else in the limiter. *)
Lemma check_plan_limits_removes now g kh team_id rm rsm rpm tpm ws weight :
  only_removed (fun ck => key_stale now g kh ck \/ team_stale now g team_id ck)
    (limiter g) (limiter (check_plan_limits now g kh team_id rm rsm rpm tpm ws weight).1).
Proof.
  set (gone := fun ck => key_stale now g kh ck \/ team_stale now g team_id ck). unfold check_plan_limits. fold (team_layer g team_id).
  set (legacy := fold_rpm_tpm_into_60s ws rpm tpm).
  assert (forall g1 kp, (forall p, kp = Some p -> resolve_key_plan (plan_store g) kh = Some p) ->
    only_removed gone (limiter g1) (limiter (check_key now g1 kh rm kp legacy weight).1)) as Hkey.
  { intros g1 kp Hkp. apply check_key_removes. intros p secs E Hs. left. exists p, secs. auto. }
  assert (forall tid tp, team_layer g team_id = Some (tid, tp) -> only_removed gone (limiter g) (limiter (check_team now g tid tp rm weight).1)) as Hteam.
  { intros tid tp E. apply check_team_removes. intros secs Hs. right. exists tid, tp, secs. auto. }
  destruct (resolve_key_plan (plan_store g) kh) as [kp |] eqn:Ekp; destruct (team_layer g team_id) as [[tid tp] |] eqn:Etp; cbn zeta.
  4: { destruct (negb _); apply only_removed_refl. }
  1, 3: specialize (Hteam tid tp eq_refl); destruct (check_team now g tid tp rm weight) as [g1 [e | [guard tw]]]; cbn [fst] in Hteam; [done |].
  all: match goal with |- context [check_key ?n ?g1 ?h ?m ?k ?lg ?wt] =>
      specialize (Hkey g1 k ltac:(by intros ? [= ->])); destruct (check_key n g1 h m k lg wt) as [g2 [e2 | [[[gd wsx] d] conc]]] end;
    cbn [fst] in *; try (by eapply only_removed_trans); try done.
  all: try (match goal with |- context [drop_team_guard _ ?gd] => destruct gd end); simpl; try done; by eapply only_removed_trans.
Qed.

(** ** Committing and settling *)

Lemma commit_counts_cumulative now t l key (ws : list (WindowLimit D)) weight :
  cumulative (commit_counts now t l key ws weight).1 = cumulative l.
Proof.
  unfold commit_counts. simpl. generalize (secs_to_commit ws). intros secs. revert l.
  induction secs as [| s secs IH]; intros l; [done |]. simpl. by rewrite IH.
Qed.
#[local] Arguments commit_counts : simpl never.

Lemma commit_counter now t l c scope k : counter (commit now t l c).1.1 scope k = counter l scope k.
Proof.
  unfold commit, counter. pose proof (commit_counts_cumulative now t l (pc_key c) (pc_window_limits c) (pc_weight c)) as E.
  destruct (commit_counts now t l _ _ _) as [l1 d]. cbn [fst snd] in *. rewrite <- E.
  destruct (team_key c), (team_window_limits c); by rewrite ?commit_counts_cumulative.
Qed.

Lemma commit_flags now t l c : (commit now t l c).1.2 = set_flags c true (settled c).
Proof. unfold commit. by rewrite (surjective_pairing (commit_counts now t l _ _ _)). Qed.

(** What a settlement adds to the counter [k]. *)
Definition charged (c : PlanCharge) (in_tok cached_tok out_tok : Z) (cost : option (D * D * D)) : CumulativeKind -> Z :=
  let m := charge_micros c in_tok cached_tok out_tok cost in settled_amount in_tok out_tok m.1.1 m.1.2 m.2.

(** The team fields of a charge are set together, by [check_plan_limits]. *)
Definition team_fields (c : PlanCharge) : Prop :=
  match team_scope c with
  | Some ts => ts <> key_scope c /\ team_key c <> None /\ team_window_limits c <> None
  | None => True
  end.

Lemma settle_idle now t l c a b d cost : committed c = false \/ settled c = true -> settle now t l c a b d cost = (l, c).
Proof. unfold settle. intros [-> | ->]; [done |]. by rewrite orb_true_r. Qed.

Lemma settle_settles now t l c a b d cost : committed c = true -> settled (settle now t l c a b d cost).2 = true.
Proof.
  intros Hc. unfold settle. rewrite Hc. simpl. destruct (settled c) eqn:E; [done |]. by destruct (charge_micros _ _ _ _ _) as [[? ?] ?].
Qed.

Lemma settle_committed now t l c a b d cost scope k :
  team_fields c -> committed c = true -> settled c = false ->
  (forall k, 0 <= charged c a b d cost k < 2 ^ 62) ->
  (forall s k, - 2 ^ 62 <= counter l s k < 2 ^ 62) ->
  counter (settle now t l c a b d cost).1 scope k =
    counter l scope k + (if bool_decide (scope = key_scope c \/ Some scope = team_scope c) then charged c a b d cost k else 0).
Proof.
  intros Hf Hc Hs Ha Hr. unfold settle. rewrite Hc, Hs. unfold charged in *. simpl.
  destruct (charge_micros c a b d cost) as [[r cc] o]. cbn [fst snd] in *.
  unfold team_fields in Hf. destruct (team_scope c) as [ts |].
  2: { replace (match team_key c with Some _ => _ | None => _ end)
       with (settle_usage now t l (pc_key c) (key_scope c) (pc_window_limits c) a d r cc o)
       by (by destruct (team_key c), (team_window_limits c)).
       rewrite settle_counter by done. f_equal. repeat case_bool_decide; naive_solver. }
  destruct Hf as (Hne & Hk & Hw). destruct (team_key c); [| done]. destruct (team_window_limits c); [| done].
  rewrite !settle_counter; [| done | done | done |].
  - repeat case_bool_decide; try lia; naive_solver.
  - intros k'. rewrite settle_counter by done. rewrite bool_decide_eq_false_2 by done. rewrite Z.add_0_r. apply Hr.
Qed.

End charge.
#[global] Arguments PlanCharge : clear implicits.
#[global] Arguments Gateway : clear implicits.
Section properties.
Context {D : Type} `{DecimalOps D}.

Lemma clear_windows_absent l key stale s :
  s ∈ stale \/ windows l !! cache_key key s = None -> windows (clear_windows l key stale) !! cache_key key s = None.
Proof.
  unfold clear_windows. revert l. induction stale as [| s' stale IH]; intros l Hs; simpl; [by destruct Hs as [?%elem_of_nil |] |].
  apply IH. destruct (decide (cache_key key s' = cache_key key s)) as [E |].
  - right. rewrite E. destruct (windows l !! cache_key key s) eqn:El; [| done]. simpl. apply lookup_delete_eq.
  - destruct Hs as [[-> | ?]%elem_of_cons | Hn]; [done | by left | right].
    destruct (windows l !! cache_key key s'); [| done]. simpl. by rewrite lookup_delete_ne.
Qed.

Lemma clear_stale_absent l key stale s :
  s ∈ stale -> windows (clear_stale l key stale) !! cache_key key s = None.
Proof. intros Hs. destruct stale; [set_solver |]. apply clear_windows_absent. by left. Qed.

(** C33: admission decides exactly.  A request is admitted iff its team's plan (when
    its team has one) and its own plan admit it: a concurrency slot is free, every
    active window has room once the stale ones are cleared, and the lifetime token
    and cost totals are below their limits.  Without any plan the fallback windows
    of the requested model decide. *)
Theorem admission_exact now (g : Gateway D) kh team_id rm rsm rpm tpm ws weight :
  counters_ok (key_counters g) -> counters_ok (team_counters g) ->
  let kp := resolve_key_plan (plan_store g) kh in
  let tp := team_layer g team_id in
  (exists g' c, check_plan_limits now g kh team_id rm rsm rpm tpm ws weight = (g', inr c)) <->
  team_admits now g tp weight
  /\ key_admits now (after_team now g tp) (key_counters g) kh rm kp (fold_rpm_tpm_into_60s ws rpm tpm) weight.
Proof.
  intros Hk Ht kp tp. destruct (check_plan_limits _ _ _ _ _ _ _ _ _ _) as [g' r] eqn:E.
  pose proof (check_plan_limits_spec _ _ _ _ _ _ _ _ _ _ _ _ Hk Ht E) as Hs. cbn zeta in Hs. fold kp tp in Hs.
  destruct r as [e | c]; split.
  - intros (? & ? & ?). congruence.
  - intros Ha. by destruct Hs.
  - intros _. by destruct Hs.
  - intros _. eauto.
Qed.

(** Admission holds nothing it does not own.  A refused request leaves every
    concurrency count of every key and team as it was; for an admitted one, dropping
    its charge does.  In both cases the checks charge nothing: no permanent counter
    moves and windows are at most cleared. *)
Theorem admission_releases now (g g' : Gateway D) kh team_id rm rsm rpm tpm ws weight r :
  counters_ok (key_counters g) -> counters_ok (team_counters g) ->
  check_plan_limits now g kh team_id rm rsm rpm tpm ws weight = (g', r) ->
  let final := match r with inl _ => g' | inr c => charge_drop g' c end in
  (forall id, get_concurrency (key_counters final) id = get_concurrency (key_counters g) id)
  /\ (forall id, get_concurrency (team_counters final) id = get_concurrency (team_counters g) id)
  /\ cumulative (limiter g') = cumulative (limiter g)
  /\ (forall k c, windows (limiter g') !! k = Some c -> windows (limiter g) !! k = Some c).
Proof.
  intros Hk Ht E final. pose proof (check_plan_limits_spec _ _ _ _ _ _ _ _ _ _ _ _ Hk Ht E) as Hs. cbn zeta in Hs.
  destruct r as [e | c]; subst final.
  - destruct Hs as (_ & [_ _ [Hc Hw] Hkc Htc]). by split_and!.
  - destruct Hs as (_ & [_ _ [Hc Hw] Hkc Htc] & El & _). rewrite El in Hc, Hw. by split_and!.
Qed.

(** C18: an admitted request is accounted exactly once.  After commit and settlement
    of the charge, each of the six permanent counters of its key, and of its team
    when a team plan applied, has grown by the request's own amount, and no other
    counter moved; a second settlement changes nothing, and neither does a
    settlement without commit. *)
Theorem charge_accounts_once now t (g g' : Gateway D) kh team_id rm rsm rpm tpm ws weight c l in_tok cached_tok out_tok cost :
  counters_ok (key_counters g) -> counters_ok (team_counters g) ->
  check_plan_limits now g kh team_id rm rsm rpm tpm ws weight = (g', inr c) ->
  (forall k, 0 <= charged c in_tok cached_tok out_tok cost k < 2 ^ 62) ->
  (forall s k, - 2 ^ 62 <= counter l s k < 2 ^ 62) ->
  let committed_ := commit now t l c in
  let settled_ := settle now t committed_.1.1 committed_.1.2 in_tok cached_tok out_tok cost in
  (forall scope k, counter settled_.1 scope k =
     counter l scope k
     + (if bool_decide (scope = ScopeKey kh \/ Some scope = ((fun t => ScopeTeam t.1) <$> team_layer g team_id))
        then charged c in_tok cached_tok out_tok cost k else 0))
  /\ (forall a b d cost', settle now t settled_.1 settled_.2 a b d cost' = settled_)
  /\ (forall a b d cost', settle now t l c a b d cost' = (l, c)).
Proof.
  intros Hk Ht E Ha Hr cm st. pose proof (check_plan_limits_spec _ _ _ _ _ _ _ _ _ _ _ _ Hk Ht E) as Hs. cbn zeta in Hs.
  destruct Hs as (_ & _ & _ & Hcm & Hst & _ & Hn1 & Hn2 & Eks & Ets & _).
  assert (cm.1.2 = set_flags c true false) as Ecm by (unfold cm; by rewrite commit_flags, Hst).
  split_and!.
  - intros scope k. unfold st. rewrite Ecm, settle_committed; try done.
    + unfold cm. rewrite commit_counter. f_equal. cbn [set_flags key_scope team_scope]. by rewrite Eks, Ets.
    + unfold team_fields. simpl. rewrite Ets, Eks. destruct (team_layer g team_id) as [[tid p] |]; simpl in *; [| done].
      destruct (team_key c), (team_window_limits c); naive_solver.
    + intros s k'. unfold cm. rewrite commit_counter. apply Hr.
  - intros a b d cost'. assert (settled st.2 = true) as Hst2.
    { unfold st. rewrite Ecm. by apply settle_settles. }
    destruct st as [l2 c2]. by apply settle_idle; right.
  - intros a b d cost'. by apply settle_idle; left.
Qed.

(** An rpm shorthand is not enforced while a slot with a 60-second window is
    inactive.  The merged 60-second window of the plan is listed as stale and cleared
    before every peek, so the request is admitted whatever was committed before. *)
Theorem rpm_shorthand_unenforced now (g : Gateway D) kh p rpm slot w rm rsm krpm ktpm ws weight :
  counters_ok (key_counters g) -> counters_ok (team_counters g) ->
  resolve_key_plan (plan_store g) kh = Some p ->
  (forall s, s ∈ schedule p -> is_active_now now s = false) ->
  slot ∈ schedule p -> w ∈ slot_window_limits slot -> window_secs w = 60 ->
  window_limits p = [] -> rpm_limit p = Some rpm -> tpm_limit p = None -> concurrency_limit p = None ->
  total_token_limit p = None -> total_cost_limit p = None ->
  0 <= weight < 2 ^ 64 -> weight <= rpm ->
  exists g' c, check_plan_limits now g kh None rm rsm krpm ktpm ws weight = (g', inr c).
Proof.
  intros Hk Ht Hp Hin Hslot Hw H60 Hwl Hrpm Htpm Hcl Htt Htc Hwt Hle.
  destruct (check_plan_limits _ _ _ _ _ _ _ _ _ _) as [g' r] eqn:E.
  pose proof (check_plan_limits_spec _ _ _ _ _ _ _ _ _ _ _ _ Hk Ht E) as Hs. cbn zeta in Hs.
  destruct r as [e | c]; [| eauto]. exfalso. apply (proj1 Hs). clear Hs. rewrite Hp. split; [done |]. simpl.
  unfold plan_admits, cleared, totals_below, effective_limits.
  destruct (list_find _ (schedule p)) as [[i s] |] eqn:Ef.
  { apply list_find_Some in Ef as (El & Hact & _). rewrite Hin in Hact; [done |]. by eapply list_elem_of_lookup_2. }
  rewrite Hcl, Hwl, Hrpm, Htpm, Htt, Htc. cbn [fst snd]. split_and!; try done.
  intros w' [-> |]%elem_of_cons; [| set_solver]. unfold window_fits, current_usage. cbn [window_secs].
  rewrite clear_stale_absent.
  - cbn [wl_counts wl_tokens wl_costs]. split_and!; intros; simplify_eq. rewrite u64_add_small; lia.
  - apply elem_of_retain. split; [done |]. unfold secs_of. apply list_elem_of_fmap. exists w. split; [done |].
    apply list_elem_of_bind. by exists slot.
Qed.

End properties.
(** ** Concrete runs *)

Section runs.
#[local] Existing Instance whole_decimal.

Lemma new_counters_ok : counters_ok new_counters.
Proof. by split. Qed.

(** A plan of one request per minute with one slot, two keys' store, no traffic yet. *)
Definition demo_gateway (p : RateLimitPlan Z) : Gateway Z :=
  mkGateway new_limiter (apply_key_assignment (upsert_plan new_store p) "k1" (name p)) new_counters new_counters
    new_deployment_store.

Definition strict_plan : RateLimitPlan Z :=
  mkRateLimitPlan "strict" PlanKey None (Some 2) None None [mkWindowLimit (Some 1) None None 60] None None [].

Definition night_plan : RateLimitPlan Z :=
  mkRateLimitPlan "night" PlanKey None None (Some 1) None [] None None [day_slot "22:00-23:00" [minute_window]].

(** The check of one request of weight 1 by [k1] at second 1000. *)
Definition ask (g : Gateway Z) : Gateway Z * (GatewayError + PlanCharge Z) :=
  check_plan_limits 1000 g "k1" None "m" "m" None None [] 1.

Definition charge_of (r : Gateway Z * (GatewayError + PlanCharge Z)) : option (PlanCharge Z) :=
  match r.2 with inr c => Some c | inl _ => None end.

Lemma ask_eta r c : charge_of r = Some c -> r = (r.1, inr c).
Proof. destruct r as [g [e | c']]; [done |]. by intros [= ->]. Qed.

Lemma admission_exact_witness :
  exists g' c, check_plan_limits 1000 (demo_gateway strict_plan) "k1" None "m" "m" None None [] 1 = (g', inr c).
Proof.
  apply (admission_exact 1000 (demo_gateway strict_plan) "k1" None "m" "m" None None [] 1 new_counters_ok new_counters_ok).
  split; [exact I |]. split; [intros lim [= <-]; reflexivity |]. split; [| by split].
  intros w [-> | []%elem_of_nil]%elem_of_cons. split; [intros lim [= <-] | split; intros lim [=]]. vm_compute. congruence.
Defined.

Lemma admission_releases_witness :
  get_concurrency (key_counters (ask (demo_gateway strict_plan)).1) "k1" = 1 /\
  exists c, charge_of (ask (demo_gateway strict_plan)) = Some c
    /\ get_concurrency (key_counters (charge_drop (ask (demo_gateway strict_plan)).1 c)) "k1" = 0.
Proof.
  split; [reflexivity |]. eexists; split; [reflexivity |].
  apply (proj1 (admission_releases 1000 (demo_gateway strict_plan) _ "k1" None "m" "m" None None [] 1 _
    new_counters_ok new_counters_ok (ask_eta (ask (demo_gateway strict_plan)) _ eq_refl)) "k1").
Defined.

Lemma charge_accounts_once_witness :
  exists c, charge_of (ask (demo_gateway strict_plan)) = Some c /\
  let r := settle 1001 1001 (commit 1000 1000 new_limiter c).1.1 (commit 1000 1000 new_limiter c).1.2 10 0 5 None in
  settle 1001 1001 r.1 r.2 7 7 7 None = r.
Proof.
  eexists; split; [reflexivity |].
  exact (proj1 (proj2 (charge_accounts_once 1000 1000 (demo_gateway strict_plan) _ "k1" None "m" "m" None None [] 1 _ new_limiter 10 0 5 None
    new_counters_ok new_counters_ok (ask_eta (ask (demo_gateway strict_plan)) _ eq_refl)
    ltac:(intros []; vm_compute; split; congruence) ltac:(intros; vm_compute; split; congruence))) 7 7 7 None).
Defined.

Lemma rpm_shorthand_unenforced_witness :
  exists g' c, check_plan_limits 1000 (demo_gateway night_plan) "k1" None "m" "m" None None [] 1 = (g', inr c).
Proof.
  apply (rpm_shorthand_unenforced 1000 (demo_gateway night_plan) "k1" night_plan 1 (day_slot "22:00-23:00" [minute_window]) minute_window);
    try reflexivity; try apply new_counters_ok; try (left; reflexivity).
  - intros s [-> | []%elem_of_nil]%elem_of_cons. reflexivity.
  - vm_compute. split; congruence.
Defined.

(** Check and commit are not atomic.  Two requests checked before either commits
    are both admitted by a plan of one request per minute, and after both commits
    its window counts two. *)
Theorem check_commit_race :
  exists c1 c2,
    charge_of (ask (demo_gateway strict_plan)) = Some c1
    /\ charge_of (ask (ask (demo_gateway strict_plan)).1) = Some c2
    /\ counts <$> windows (commit 1001 1001 (commit 1001 1001 new_limiter c1).1.1 c2).1.1
         !! cache_key (plan_key "k1") 60 = Some 2.
Proof. do 2 eexists. split; [reflexivity |]. split; reflexivity. Qed.

End runs.
End PlanCharge.
