(* ===== verification/Rebalance.v ===== *)
(** * Rebalance: the 60-minute ring counters and the move counters (boom-routing)

    Models [boom-gateway/boom-routing/src/rebalance.rs] ([RebalanceCounter], its
    [Inner] ring, [RebalanceMoveTracker]) and [boom-routing/src/request_rate.rs]
    ([RequestRateTracker]).  A mutex section is one step; the clock is an argument
    in seconds.  Counters are [u64]. *)

From S2P Require Import Prelude Core Text.

Module Rebalance.

(** ** The ring *)

Definition NUM_BUCKETS : Z := 60.

Record Inner := mkInner { start_minute : Z; buckets : list Z }.

Definition to_minute (secs : Z) : Z := secs `div` 60.

Definition bucket_index (m : Z) : nat := Z.to_nat (m `mod` NUM_BUCKETS).

Definition new_ring (now : Z) : Inner :=
  mkInner (to_minute now -sat (NUM_BUCKETS - 1)) (replicate (Z.to_nat NUM_BUCKETS) 0).

Definition advance_to (target_min : Z) (r : Inner) : Inner :=
  let new_start := target_min -sat (NUM_BUCKETS - 1) in
  if new_start <=? start_minute r then r
  else
    let shift := new_start - start_minute r in
    mkInner new_start
      (if NUM_BUCKETS <=? shift then replicate (Z.to_nat NUM_BUCKETS) 0
       else foldl (fun bs m => <[bucket_index m := 0]> bs) (buckets r) (seqZ (start_minute r) shift)).

Definition ring_record (now : Z) (r : Inner) : Inner :=
  let now_min := to_minute now in
  let r1 := advance_to now_min r in
  mkInner (start_minute r1) (alter (fun c => c +u 1) (bucket_index now_min) (buckets r1)).

Definition ring_label (i : Z) : string :=
  if i =? NUM_BUCKETS - 1 then "now" else "-" +:+ show (NUM_BUCKETS - 1 - i) +:+ "m".

Definition ring_snapshot (now : Z) (r : Inner) : Inner * list (string * Z) :=
  let now_min := to_minute now in
  let r1 := advance_to now_min r in
  let base := now_min -sat (NUM_BUCKETS - 1) in
  (r1, (fun i => (ring_label i, default 0 (buckets r1 !! bucket_index (base + i)))) <$> seqZ 0 NUM_BUCKETS).

(** ** Moves between deployments *)

Record MoveCounts := mkMoveCounts { in_count : Z; out_count : Z }.
Record RebalanceMove := mkRebalanceMove { mv_deployment_id : string; mv_in_count : Z; mv_out_count : Z }.

Definition default_counts : MoveCounts := mkMoveCounts 0 0.

Definition bump_out (m : gmap string MoveCounts) (id : string) : gmap string MoveCounts :=
  let c := default default_counts (m !! id) in <[id := mkMoveCounts (in_count c) (out_count c +u 1)]> m.
Definition bump_in (m : gmap string MoveCounts) (id : string) : gmap string MoveCounts :=
  let c := default default_counts (m !! id) in <[id := mkMoveCounts (in_count c +u 1) (out_count c)]> m.

Definition record_move (m : gmap string MoveCounts) (from_id to_id : option string) : gmap string MoveCounts :=
  let m1 := match from_id with Some id => if bool_decide (id = "") then m else bump_out m id | None => m end in
  match to_id with Some id => if bool_decide (id = "") then m1 else bump_in m1 id | None => m1 end.

(** Byte-wise order of the keys, as in a [BTreeMap<String, _>]. *)
Definition key_le (a b : string) : Prop := String.leb a b = true.
#[export] Instance key_le_dec : RelDecision key_le.
Proof. intros a b. unfold key_le. apply _. Defined.

Definition move_snapshot (m : gmap string MoveCounts) : list RebalanceMove :=
  (fun id => let c := default default_counts (m !! id) in mkRebalanceMove id (in_count c) (out_count c))
    <$> merge_sort key_le (map_to_list m).*1.

(** ** Request rates: a ring per deployment and one for the total *)

Definition TOTAL_KEY : string := "_total".

Notation RequestRateTracker := (gmap string Inner).

Definition new_rates (now : Z) : RequestRateTracker := {[ TOTAL_KEY := new_ring now ]}.

Definition rate_record (now : Z) (t : RequestRateTracker) (id : string) : RequestRateTracker :=
  let t1 := <[id := ring_record now (default (new_ring now) (t !! id))]> t in
  match t1 !! TOTAL_KEY with
  | Some total => <[TOTAL_KEY := ring_record now total]> t1
  | None => t1
  end.

Definition rate_snapshot (now : Z) (t : RequestRateTracker) (id : string) : list (string * Z) :=
  match t !! id with Some r => (ring_snapshot now r).2 | None => [] end.

Definition deployment_ids (t : RequestRateTracker) : list string :=
  retain (fun id => negb (bool_decide (id = TOTAL_KEY))) (map_to_list t).*1.

Definition rate_snapshot_all (now : Z) (t : RequestRateTracker) : list (string * list (string * Z)) :=
  match t !! TOTAL_KEY with Some total => [(TOTAL_KEY, (ring_snapshot now total).2)] | None => [] end
  ++ ((fun id => (id, rate_snapshot now t id)) <$> merge_sort key_le (deployment_ids t)).

(** ** Lemmas: the ring counts a log of minutes *)

Definition events_in (m : Z) (log : list Z) : Z := zsum (fun e => if e =? m then 1 else 0) log.

Lemma events_in_nonneg m log : 0 <= events_in m log.
Proof. apply zsum_nonneg. intros e _. by destruct (e =? m). Qed.

Lemma events_in_le m log : events_in m log <= Z.of_nat (length log).
Proof.
  unfold events_in. induction log as [| e log IH]; [done |]. rewrite zsum_cons. simpl length.
  destruct (e =? m); lia.
Qed.

Lemma events_in_none m log : (forall e, e ∈ log -> e <> m) -> events_in m log = 0.
Proof.
  unfold events_in. induction log as [| e log IH]; intros Hne; [done |]. rewrite zsum_cons, IH by set_solver.
  destruct (Z.eqb_spec e m); [set_solver | done].
Qed.

(** The 60 minutes from [start_minute] on are counted; the window ends at [last] or
    later, and no event is after [last]. *)
Record ring_inv (last : Z) (log : list Z) (r : Inner) : Prop := {
  ri_len : length (buckets r) = 60%nat;
  ri_start : start_minute r = Z.max 0 (last - 59);
  ri_log : forall e, e ∈ log -> 0 <= e <= last;
  ri_count : forall m, start_minute r <= m < start_minute r + 60 ->
    buckets r !! bucket_index m = Some (wrap64 (events_in m log));
}.

Lemma bucket_index_lt m : (bucket_index m < 60)%nat.
Proof. unfold bucket_index, NUM_BUCKETS. pose proof (Z.mod_pos_bound m 60). lia. Qed.

Lemma bucket_index_eq m m' : Z.abs (m - m') < 60 -> bucket_index m = bucket_index m' -> m = m'.
Proof.
  unfold bucket_index, NUM_BUCKETS. intros Hd E. pose proof (Z.mod_pos_bound m 60). pose proof (Z.mod_pos_bound m' 60).
  assert (m `mod` 60 = m' `mod` 60) by lia. pose proof (Z.div_mod m 60). pose proof (Z.div_mod m' 60). lia.
Qed.

Lemma foldl_clear_lookup (secs : list Z) (bs : list Z) (i : nat) :
  foldl (fun bs m => <[bucket_index m := 0]> bs) bs secs !! i =
    if bool_decide (i ∈ bucket_index <$> secs) then (fun _ => 0) <$> (bs !! i) else bs !! i.
Proof.
  revert bs. induction secs as [| m secs IH]; intros bs; simpl; [done |]. rewrite IH.
  destruct (decide (bucket_index m = i)) as [<- |].
  - rewrite (bool_decide_eq_true_2 (bucket_index m ∈ bucket_index m :: _)) by left.
    destruct (decide (bucket_index m < length bs)%nat) as [Hlt | Hge].
    + rewrite list_lookup_insert_eq by done. destruct (lookup_lt_is_Some_2 bs (bucket_index m) Hlt) as [x ->].
      by case_bool_decide.
    + rewrite list_insert_ge, !lookup_ge_None_2 by lia. by case_bool_decide.
  - rewrite list_lookup_insert_ne by done. repeat case_bool_decide; try done; set_solver.
Qed.

Lemma replicate_bucket m : replicate (Z.to_nat NUM_BUCKETS) 0 !! bucket_index m = Some 0.
Proof. apply lookup_replicate. split; [done |]. apply bucket_index_lt. Qed.

Lemma new_ring_inv now : 0 <= now -> ring_inv (to_minute now) [] (new_ring now).
Proof.
  intros Hn. split; simpl.
  - done.
  - unfold sat_sub, NUM_BUCKETS. lia.
  - set_solver.
  - intros m _. apply replicate_bucket.
Qed.

Lemma advance_inv last log r target :
  ring_inv last log r -> last <= target -> ring_inv target log (advance_to target r).
Proof.
  intros [Hl Hs Hlog Hc] Hle. unfold advance_to, sat_sub, NUM_BUCKETS. change (60 - 1) with 59.
  destruct (Z.leb_spec (Z.max 0 (target - 59)) (start_minute r)) as [Hno | Hyes].
  { split; [done | lia | | done]. intros e He. apply Hlog in He. lia. }
  split; simpl.
  - case_match; [done |]. clear -Hl. generalize (seqZ (start_minute r) (Z.max 0 (target - 59) - start_minute r)).
    intros l. revert Hl. generalize (buckets r). induction l as [| m l IH]; intros bs Hl; simpl; [done |].
    apply IH. by rewrite length_insert.
  - done.
  - intros e He. apply Hlog in He. lia.
  - intros m Hm. assert (m < start_minute r + 60 \/ events_in m log = 0) as Hold.
    { destruct (decide (m < start_minute r + 60)); [by left | right]. apply events_in_none. intros e He ->. apply Hlog in He. lia. }
    destruct (Z.leb_spec 60 (Z.max 0 (target - 59) - start_minute r)).
    { rewrite replicate_bucket. destruct Hold as [| ->]; [lia | done]. }
    rewrite foldl_clear_lookup. case_bool_decide as Hin.
    + apply list_elem_of_fmap in Hin as (m' & E & Hin%elem_of_seqZ).
      destruct Hold as [Hold | ->].
      * exfalso. assert (m = m') by (apply bucket_index_eq; [lia | done]). lia.
      * destruct (lookup_lt_is_Some_2 (buckets r) (bucket_index m)) as [x ->]; [| done]. rewrite Hl. apply bucket_index_lt.
    + destruct Hold as [Hold | E].
      * apply Hc. lia.
      * destruct (decide (m < start_minute r + 60)); [apply Hc; lia |]. exfalso. apply Hin.
        apply list_elem_of_fmap. exists (m - 60). split; [| apply elem_of_seqZ; lia].
        unfold bucket_index, NUM_BUCKETS. f_equal. rewrite <- (Z_mod_plus_full m (-1) 60). f_equal.
Qed.

Lemma record_inv last log r now :
  ring_inv last log r -> 0 <= now -> last <= to_minute now -> ring_inv (to_minute now) (to_minute now :: log) (ring_record now r).
Proof.
  intros Hr Hn Hle. destruct (advance_inv _ _ _ _ Hr Hle) as [Hl Hs Hlog Hc].
  assert (0 <= to_minute now) by (by apply Z.div_pos). unfold ring_record. split; simpl.
  - by rewrite length_alter.
  - done.
  - intros e [-> | He]%elem_of_cons; [lia | by apply Hlog].
  - intros m Hm. unfold events_in. rewrite zsum_cons. fold (events_in m log).
    destruct (Z.eqb_spec (to_minute now) m) as [<- |].
    + rewrite list_lookup_alter_eq, Hc by done. simpl. f_equal. unfold u64_add. rewrite (Z.add_comm 1).
      apply Z.add_mod_idemp_l. lia.
    + rewrite list_lookup_alter_ne, Hc; [by f_equal | done |]. intros E. apply bucket_index_eq in E; lia.
Qed.

(** What a snapshot shows of a counted log. *)
Lemma snapshot_counts last log r now :
  ring_inv last log r -> last <= to_minute now ->
  (ring_snapshot now r).2 =
    (fun i => (ring_label i, wrap64 (events_in (Z.max 0 (to_minute now - 59) + i) log))) <$> seqZ 0 60.
Proof.
  intros Hr Hle. destruct (advance_inv _ _ _ _ Hr Hle) as [Hl Hs Hlog Hc]. unfold ring_snapshot. cbn [snd].
  apply list_fmap_ext. intros k i Hk. f_equal. unfold sat_sub, NUM_BUCKETS in *.
  assert (0 <= i < 60) as Hi by (apply (elem_of_seqZ 0 60 i); by eapply list_elem_of_lookup_2).
  change (60 - 1) with 59. rewrite Hc by lia. done.
Qed.

(** ** Lemmas: the trackers *)

(** The minutes recorded for a deployment; the total sees every record. *)
Definition minutes_of (id : string) (events : list (Z * string)) : list Z :=
  omap (fun e : Z * string => if bool_decide (id = TOTAL_KEY \/ e.2 = id) then Some (to_minute e.1) else None) events.

Lemma minutes_of_length id events : (length (minutes_of id events) <= length events)%nat.
Proof. induction events as [| e events IH]; [done |]. unfold minutes_of in *. cbn. destruct (bool_decide _); cbn; lia. Qed.

(** Records, the latest first. *)
Definition run_rates (t0 : Z) (events : list (Z * string)) : RequestRateTracker :=
  foldr (fun e t => rate_record e.1 t e.2) (new_rates t0) events.

Definition last_minute (t0 : Z) (events : list (Z * string)) : Z :=
  match events with e :: _ => to_minute e.1 | [] => to_minute t0 end.

(** Times never go back, and no deployment is called [_total]. *)
Inductive ordered (t0 : Z) : list (Z * string) -> Prop :=
| ordered_nil : 0 <= t0 -> ordered t0 []
| ordered_cons now id events :
    ordered t0 events -> 0 <= now -> last_minute t0 events <= to_minute now -> id <> TOTAL_KEY ->
    ordered t0 ((now, id) :: events).

(** Every ring of the tracker counts its own log, up to some minute not after the
    last record. *)
Lemma run_rates_inv t0 events :
  ordered t0 events -> forall id,
  match run_rates t0 events !! id with
  | Some r => exists last, last <= last_minute t0 events /\ ring_inv last (minutes_of id events) r
  | None => minutes_of id events = [] /\ id <> TOTAL_KEY
  end.
Proof.
  induction 1 as [H0 | now id events Ho IH Hn Hle Hid]; intros i; simpl.
  - unfold new_rates. destruct (decide (i = TOTAL_KEY)) as [-> |].
    + rewrite lookup_singleton_eq. eexists; split; [reflexivity | by apply new_ring_inv].
    + by rewrite lookup_singleton_ne.
  - unfold rate_record. simpl. set (t := run_rates t0 events) in *.
    pose proof (IH TOTAL_KEY) as IHt. rewrite lookup_insert_ne by done.
    destruct (t !! TOTAL_KEY) as [total |] eqn:Et; [| by destruct IHt].
    destruct IHt as (lt & Hlt & Htot).
    destruct (decide (i = TOTAL_KEY)) as [-> |].
    { rewrite lookup_insert_eq. rewrite bool_decide_eq_true_2 by (by left). eexists; split; [reflexivity |].
      eapply record_inv; [exact Htot | done | lia]. }
    rewrite lookup_insert_ne by done. destruct (decide (i = id)) as [-> |].
    + rewrite lookup_insert_eq. rewrite bool_decide_eq_true_2 by (by right). eexists; split; [reflexivity |].
      specialize (IH id). destruct (t !! id) as [r |]; simpl.
      * destruct IH as (lr & Hlr & Hr). eapply record_inv; [exact Hr | done | lia].
      * destruct IH as [-> _]. eapply record_inv; [by apply new_ring_inv | done | done].
    + rewrite lookup_insert_ne by done. rewrite bool_decide_eq_false_2 by (intros [? | ?]; congruence).
      specialize (IH i). destruct (t !! i) as [r |]; [| done]. destruct IH as (lr & Hlr & Hr). exists lr. split; [lia | done].
Qed.

(** The per-deployment rates are the history of the last hour.  After any
    records at times that do not go back, the snapshot of a deployment shows, for
    each of the last sixty minutes, the number of its records in that minute, and the
    snapshot of the total the number of all records; an unknown deployment has none. *)
Theorem request_rate_exact t0 events now id :
  ordered t0 events -> last_minute t0 events <= to_minute now -> Z.of_nat (length events) < 2 ^ 64 ->
  let t := run_rates t0 events in
  rate_snapshot now t id =
    if decide (is_Some (t !! id))
    then (fun i => (ring_label i, events_in (Z.max 0 (to_minute now - 59) + i) (minutes_of id events))) <$> seqZ 0 60
    else [].
Proof.
  intros Ho Hle Hlen t. pose proof (run_rates_inv _ _ Ho id) as HI. fold t in HI. unfold rate_snapshot.
  destruct (t !! id) as [r |]; [| by rewrite decide_False by by intros []].
  rewrite decide_True by done. destruct HI as (last & Hl & Hr). rewrite (snapshot_counts _ _ _ _ Hr) by lia.
  apply list_fmap_ext. intros k i _. f_equal. apply wrap64_small.
  set (m := Z.max 0 (to_minute now - 59) + i). pose proof (events_in_nonneg m (minutes_of id events)).
  pose proof (events_in_le m (minutes_of id events)).
  assert (length (minutes_of id events) <= length events)%nat by apply minutes_of_length. unfold is_u64. lia.
Qed.

(** Two records for [d1], one for [d2], in minutes 100 and 130; seen in minute 140. *)
Definition demo_events : list (Z * string) := [(7800, "d1"); (6010, "d2"); (6000, "d1")].

Lemma request_rate_exact_witness :
  rate_snapshot 8400 (run_rates 6000 demo_events) TOTAL_KEY !! 19%nat = Some ("-40m", 2)
  /\ rate_snapshot 8400 (run_rates 6000 demo_events) "d1" !! 49%nat = Some ("-10m", 1).
Proof.
  split.
  - rewrite (request_rate_exact 6000 demo_events 8400 TOTAL_KEY); [reflexivity | | by vm_compute | done].
    repeat (constructor; try done; try by vm_compute).
  - rewrite (request_rate_exact 6000 demo_events 8400 "d1"); [reflexivity | | by vm_compute | done].
    repeat (constructor; try done; try by vm_compute).
Defined.

(** One move adds one to the counters of its two ends. *)
Lemma record_move_lookup m a b id :
  id <> "" -> let c := default default_counts (m !! id) in
  default default_counts (record_move m a b !! id) =
    mkMoveCounts (if bool_decide (b = Some id) then in_count c +u 1 else in_count c)
                 (if bool_decide (a = Some id) then out_count c +u 1 else out_count c).
Proof.
  intros Hid. unfold record_move, bump_in, bump_out.
  assert (forall x : MoveCounts, mkMoveCounts (in_count x) (out_count x) = x) as Eta by (by intros []).
  destruct a as [a |], b as [b |]; repeat case_bool_decide; simplify_eq; simpl;
    rewrite ?lookup_insert_eq, ?lookup_insert_ne, ?Eta by congruence; simpl;
    rewrite ?lookup_insert_eq, ?lookup_insert_ne, ?Eta by congruence; done.
Qed.

(** The moves, the latest first, and what each deployment's counters show. *)
Lemma moves_counted moves id :
  id <> "" -> Z.of_nat (length moves) < 2 ^ 64 ->
  default default_counts (foldr (fun mv m => record_move m mv.1 mv.2) ∅ moves !! id) =
    mkMoveCounts (zsum (fun mv : option string * option string => if bool_decide (mv.2 = Some id) then 1 else 0) moves)
                 (zsum (fun mv : option string * option string => if bool_decide (mv.1 = Some id) then 1 else 0) moves).
Proof.
  intros Hid. assert (forall (f : option string * option string -> bool) l,
    0 <= zsum (fun mv => if f mv then 1 else 0) l <= Z.of_nat (length l)) as Hb.
  { intros f l. induction l as [| x l IH]; [done |]. rewrite zsum_cons. simpl length. destruct (f x); lia. }
  induction moves as [| mv moves IH]; intros Hlen; simpl in *; [done |].
  rewrite !zsum_cons, record_move_lookup, IH by (done || lia). simpl.
  pose proof (Hb (fun mv => bool_decide (mv.2 = Some id)) moves). pose proof (Hb (fun mv => bool_decide (mv.1 = Some id)) moves).
  f_equal; case_bool_decide; rewrite ?u64_add_small; lia.
Qed.

End Rebalance.
