(* ===== verification/Float64.v ===== *)
(** * Float64: the [f64] arithmetic of the Rust standard library

    IEEE-754 binary64 on the reference semantics of the Standard Library
    ([SpecFloat], precision 53, largest exponent 1024, round to nearest even): the
    operations the scheduling policies and the tier classifier use, and the order
    they rely on.  Values stay executable; no axiom is involved. *)

From S2P Require Import Prelude.
From Stdlib Require Export SpecFloat.

Definition f64 : Type := spec_float.

Definition f64_add (a b : f64) : f64 := SFadd 53 1024 a b.
Definition f64_sub (a b : f64) : f64 := SFsub 53 1024 a b.
Definition f64_mul (a b : f64) : f64 := SFmul 53 1024 a b.
Definition f64_div (a b : f64) : f64 := SFdiv 53 1024 a b.
Definition f64_eq (a b : f64) : bool := SFeqb a b.
Definition f64_lt (a b : f64) : bool := SFltb a b.
Definition f64_le (a b : f64) : bool := SFleb a b.

(** [n as f64], and the literal [n / d] (correctly rounded, as a decimal literal). *)
Definition f64_of (n : Z) : f64 := binary_normalize 53 1024 n 0 false.
Definition f64_lit (n d : Z) : f64 := f64_div (f64_of n) (f64_of d).

Definition f64_neg_infinity : f64 := S754_infinity true.
Definition is_nan (a : f64) : bool := match a with S754_nan => true | _ => false end.

(** [f64::max]: the other operand of a NaN. *)
Definition f64_max (a b : f64) : f64 := if is_nan a then b else if is_nan b then a else if f64_lt a b then b else a.

(** [partial_cmp(..).unwrap_or(Equal)] *)
Definition f64_cmp (a b : f64) : comparison := default Eq (SFcompare a b).

(** ** The order of the values that are not NaN *)

(** The comparison is lexicographic on sign class, exponent and mantissa. *)
Definition f64_key (a : f64) : Z * Z * Z :=
  match a with
  | S754_zero _ | S754_nan => (0, 0, 0)
  | S754_infinity s => (if s then -2 else 2, 0, 0)
  | S754_finite s m e => if s then (-1, - e, - Z.pos m) else (1, e, Z.pos m)
  end.

Definition key_lt (a b : Z * Z * Z) : Prop :=
  a.1.1 < b.1.1 \/ (a.1.1 = b.1.1 /\ (a.1.2 < b.1.2 \/ (a.1.2 = b.1.2 /\ a.2 < b.2))).

Lemma compare_key a b :
  is_nan a = false -> is_nan b = false ->
  match SFcompare a b with
  | Some Lt => key_lt (f64_key a) (f64_key b)
  | Some Gt => key_lt (f64_key b) (f64_key a)
  | Some Eq => f64_key a = f64_key b
  | None => False
  end.
Proof.
  assert (forall m1 m2, Pos.compare_cont Eq m1 m2 = (m1 ?= m2)%positive) as Ec by done.
  destruct a as [[] | [] | | [] m1 e1], b as [[] | [] | | [] m2 e2]; simpl; intros; try done;
    rewrite ?Ec; unfold key_lt; simpl; try lia;
    destruct (Z.compare_spec e1 e2); simpl; try lia;
    destruct (Pos.compare_spec m1 m2); simpl; subst; try lia; done.
Qed.

Lemma f64_lt_key a b : is_nan a = false -> is_nan b = false -> f64_lt a b = true <-> key_lt (f64_key a) (f64_key b).
Proof.
  intros Ha Hb. pose proof (compare_key a b Ha Hb) as Hk. unfold f64_lt, SFltb.
  destruct (SFcompare a b) as [[] |]; [| | | done]; split; try done; intros Hl.
  - rewrite Hk in Hl. unfold key_lt in Hl. lia.
  - unfold key_lt in *. lia.
Qed.

Lemma f64_eq_key a b : is_nan a = false -> is_nan b = false -> f64_eq a b = true <-> f64_key a = f64_key b.
Proof.
  intros Ha Hb. pose proof (compare_key a b Ha Hb) as Hk. unfold f64_eq, SFeqb.
  destruct (SFcompare a b) as [[] |]; [done | | | done]; split; try done; intros E; rewrite E in Hk; unfold key_lt in Hk; lia.
Qed.

Lemma f64_le_not_lt a b : is_nan a = false -> is_nan b = false -> f64_lt a b = false -> f64_le b a = true.
Proof.
  intros Ha Hb. pose proof (compare_key a b Ha Hb) as H1. pose proof (compare_key b a Hb Ha) as H2.
  unfold f64_lt, f64_le, SFltb, SFleb. destruct (SFcompare a b) as [[] |], (SFcompare b a) as [[] |]; try done; intros _; unfold key_lt in *.
  - rewrite H1 in H2. lia.
  - lia.
Qed.

Lemma f64_max_not_nan a b : is_nan a = false -> is_nan b = false -> is_nan (f64_max a b) = false.
Proof. unfold f64_max. intros Ha Hb. rewrite Ha, Hb. by case_match. Qed.

(** The running maximum of scores that are not NaN: one of them (or the start) and
    not below any of them. *)
Lemma fold_max_spec (l : list f64) start :
  is_nan start = false -> Forall (fun x => is_nan x = false) l ->
  let m := foldl f64_max start l in
  is_nan m = false /\ (m = start \/ m ∈ l) /\ ~ key_lt (f64_key m) (f64_key start)
  /\ forall x, x ∈ l -> ~ key_lt (f64_key m) (f64_key x).
Proof.
  intros Hs Hl. revert start Hs. induction Hl as [| x l Hx Hl IH]; intros start Hs; simpl.
  { split_and!; [done | by left | unfold key_lt; lia | set_solver]. }
  destruct (IH (f64_max start x) (f64_max_not_nan _ _ Hs Hx)) as (Hn & Hin & Hst & Hall).
  assert (~ key_lt (f64_key (f64_max start x)) (f64_key start) /\ ~ key_lt (f64_key (f64_max start x)) (f64_key x)
    /\ (f64_max start x = start \/ f64_max start x = x)) as (M1 & M2 & M3).
  { unfold f64_max. rewrite Hs, Hx. destruct (f64_lt start x) eqn:E.
    - apply f64_lt_key in E; [| done..]. split_and!; [unfold key_lt in *; lia.. | by right].
    - split_and!; [unfold key_lt; lia | | by left]. intros Hk. apply f64_lt_key in Hk; [congruence | done..]. }
  split_and!; [done | | unfold key_lt in *; lia |].
  - destruct Hin as [-> | Hin]; [| right; by right]. destruct M3 as [-> | ->]; [by left | right; by left].
  - intros y [-> | Hy]%elem_of_cons; [unfold key_lt in *; lia | by apply Hall].
Qed.

(** Some score equals the maximum, and the scores equal to it are exactly the
    greatest ones. *)
Lemma max_score_attained (l : list f64) :
  l <> [] -> Forall (fun x => is_nan x = false) l ->
  let m := foldl f64_max f64_neg_infinity l in
  (exists x, x ∈ l /\ f64_eq x m = true)
  /\ forall x, x ∈ l -> f64_eq x m = true -> forall y, y ∈ l -> f64_lt x y = false.
Proof.
  intros Hne Hl m. destruct (fold_max_spec l f64_neg_infinity eq_refl Hl) as (Hn & Hin & _ & Hall). fold m in Hn, Hin, Hall.
  assert (forall x, x ∈ l -> is_nan x = false) as Hnan by (by apply Forall_forall).
  split.
  - destruct Hin as [Em | Hin]; [| exists m; split; [done | by apply f64_eq_key]].
    destruct l as [| x l]; [done |]. exists x. assert (x ∈ x :: l) as Hx by left. split; [done |].
    apply f64_eq_key; [by apply Hnan | done |]. specialize (Hall x Hx). rewrite Em in *.
    unfold key_lt in Hall. destruct x as [[] | [] | | [] ? ?]; simpl in *; (done || lia).
  - intros x Hx E y Hy. apply f64_eq_key in E; [| by apply Hnan | done].
    destruct (f64_lt x y) eqn:El; [| done]. apply f64_lt_key in El; [| by apply Hnan..].
    rewrite E in El. by apply Hall in El.
Qed.

(** ** Operations on values that are not negative *)

(** Not NaN and not below zero; [positive] excludes zero and infinity. *)
Definition f64_nonneg (a : f64) : Prop :=
  match a with S754_zero _ | S754_infinity false | S754_finite false _ _ => True | _ => False end.
Definition f64_positive (a : f64) : Prop := match a with S754_finite false _ _ => True | _ => False end.
Definition f64_finite_nonneg (a : f64) : Prop := match a with S754_zero _ | S754_finite false _ _ => True | _ => False end.

Lemma nonneg_not_nan a : f64_nonneg a -> is_nan a = false.
Proof. by destruct a. Qed.

Lemma shr_1_nonneg r : 0 <= shr_m r -> 0 <= shr_m (shr_1 r).
Proof. destruct r as [[| [] | []] r s]; simpl; lia. Qed.

Lemma iter_pos_nonneg p : forall r, 0 <= shr_m r -> 0 <= shr_m (iter_pos shr_1 p r).
Proof. induction p as [p IH | p IH |]; intros r Hr; simpl; [by apply IH, IH, shr_1_nonneg | by apply IH, IH | by apply shr_1_nonneg]. Qed.

Lemma shr_fexp_nonneg m e l : 0 <= m -> 0 <= shr_m (shr_fexp 53 1024 m e l).1.
Proof.
  intros Hm. unfold shr_fexp. assert (0 <= shr_m (shr_record_of_loc m l)) by (by destruct l as [| []]).
  unfold shr. case_match; simpl; [done | by apply iter_pos_nonneg | done].
Qed.

Lemma round_aux_nonneg m e l : 0 <= m -> f64_nonneg (binary_round_aux 53 1024 false m e l).
Proof.
  intros Hm. unfold binary_round_aux. pose proof (shr_fexp_nonneg m e l Hm) as H1. destruct (shr_fexp 53 1024 m e l) as [r1 e1]. simpl in H1.
  assert (0 <= round_nearest_even (shr_m r1) (loc_of_shr_record r1)) as H2 by (unfold round_nearest_even; repeat case_match; lia).
  pose proof (shr_fexp_nonneg _ e1 loc_Exact H2) as H3. destruct (shr_fexp 53 1024 _ e1 loc_Exact) as [r2 e2]. simpl in H3.
  destruct (shr_m r2); [done | by case_match | lia].
Qed.

Lemma mul_nonneg a b : f64_positive a -> f64_nonneg b -> f64_nonneg (f64_mul a b).
Proof. destruct a as [| | | [] ma ea], b as [| [] | | [] mb eb]; simpl; try done. intros _ _. by apply round_aux_nonneg. Qed.

Lemma mul_finite_nonneg a b : f64_finite_nonneg a -> f64_finite_nonneg b -> f64_nonneg (f64_mul a b).
Proof. destruct a as [| | | [] ma ea], b as [| | | [] mb eb]; simpl; try done. intros _ _. by apply round_aux_nonneg. Qed.

Lemma add_nonneg a b : f64_nonneg a -> f64_nonneg b -> f64_nonneg (f64_add a b).
Proof.
  destruct a as [[] | [] | | [] ma ea], b as [[] | [] | | [] mb eb]; simpl; try done. intros _ _.
  unfold binary_round. destruct (shl_align (_ + _) _ _) as [m2 e2]. by apply round_aux_nonneg.
Qed.

Lemma div_nonneg a b : f64_positive a -> f64_positive b -> f64_nonneg (f64_div a b).
Proof.
  destruct a as [| | | [] ma ea], b as [| | | [] mb eb]; simpl; try done. intros _ _. unfold f64_div, SFdiv, SFdiv_core_binary.
  set (s := ea - eb - _). set (m := match s with Z0 => _ | Zpos _ => _ | Zneg _ => _ end).
  assert (0 <= m) as Hm by (unfold m; destruct s; [lia | apply Z.shiftl_nonneg; lia | lia]).
  destruct (Z.div_eucl m (Z.pos mb)) as [q r] eqn:E. apply round_aux_nonneg.
  assert (q = m `div` Z.pos mb) as -> by (unfold Z.div; by rewrite E). apply Z.div_pos; lia.
Qed.

(** A count below 2^53 converts exactly, to a positive value. *)
Lemma digits2_iter m k : digits2_pos (Pos.iter xO m k) = (digits2_pos m + k)%positive.
Proof.
  induction k as [| k IH] using Pos.peano_ind; simpl; [lia |]. rewrite Pos.iter_succ. simpl. rewrite IH. lia.
Qed.

Lemma digits2_bound m : 2 ^ (Z.pos (digits2_pos m) - 1) <= Z.pos m.
Proof.
  induction m as [m IH | m IH |]; simpl; [| | done]; rewrite Pos2Z.inj_succ;
    replace (Z.succ (Z.pos (digits2_pos m)) - 1) with (Z.succ (Z.pos (digits2_pos m) - 1)) by lia;
    rewrite Z.pow_succ_r by lia; lia.
Qed.

Lemma round_exact m e : Z.pos (digits2_pos m) = 53 -> -1074 <= e <= 0 -> binary_round_aux 53 1024 false (Z.pos m) e loc_Exact = S754_finite false m e.
Proof.
  intros Hd He. assert (fexp 53 1024 (Zdigits2 (Z.pos m) + e) - e = 0) as Hz.
  { unfold fexp, emin. simpl Zdigits2. rewrite Hd. change (3 - 1024 - 53) with (-1074). lia. }
  assert (shr_fexp 53 1024 (Z.pos m) e loc_Exact = (Build_shr_record (Z.pos m) false false, e)) as E.
  { unfold shr_fexp. by rewrite Hz. }
  unfold binary_round_aux. rewrite E. simpl. rewrite E. cbn [shr_m]. by rewrite (proj2 (Z.leb_le e (1024 - 53))) by lia.
Qed.

Lemma of_positive n : 0 < n < 2 ^ 53 -> f64_positive (f64_of n).
Proof.
  intros Hn. destruct n as [| m |]; try lia. unfold f64_of, binary_normalize, binary_round.
  assert (Z.pos (digits2_pos m) <= 53) as Hd.
  { pose proof (digits2_bound m). apply Z.nlt_ge. intros Hlt.
    pose proof (Z.pow_le_mono_r 2 53 (Z.pos (digits2_pos m) - 1)). lia. }
  assert (fexp 53 1024 (Z.pos (digits2_pos m) + 0) = Z.pos (digits2_pos m) - 53) as Ef.
  { unfold fexp, emin. change (3 - 1024 - 53) with (-1074). lia. }
  rewrite Ef. unfold shl_align. rewrite Z.sub_0_r. destruct (Z.pos (digits2_pos m) - 53) as [| k | k] eqn:Ek; [| lia |].
  - rewrite round_exact; [done | lia | lia].
  - rewrite round_exact; [done | rewrite digits2_iter; lia | lia].
Qed.
