(* ===== verification/KvIndex.v ===== *)
(** * KvIndex: the prefix index of the KV-cache routing (boom-kvindex)

    Models [boom-gateway/boom-kvindex/src/backend/token_prefix.rs] (and the event and
    result types of [boom-core/src/kv_event.rs]): a trie per model whose nodes are
    shared [Arc<RwLock<Block>>]s, the reverse lookup, the LRU queue, the prune timers
    and their operations.  Nodes live in an explicit heap, so that the reverse lookup
    and the tries alias them.  The xxhash function and the [lru] crate are third
    party: the hash is a parameter, the cache a class with its documented laws. *)

From S2P Require Import Prelude Core Text Float64.

Module KvIndex.

(** ** Third-party parts *)

(** A cached key: (model, worker, block hash). *)
Definition BlockKey : Type := string * string * Z.

#[export] Instance BlockKey_eq_dec : EqDecision BlockKey.
Proof. unfold BlockKey. apply _. Defined.
#[export] Instance BlockKey_countable : Countable BlockKey.
Proof. unfold BlockKey. apply _. Defined.

(** [lru::LruCache<BlockKey, ()>]; [lru_iter] lists the most recent key first. *)
Class LruCache (L : Type) := {
  lru_new : Z -> L;
  lru_get : L -> BlockKey -> L * bool;
  lru_push : L -> BlockKey -> L * option BlockKey;
  lru_pop : L -> BlockKey -> L;
  lru_iter : L -> list BlockKey;
  lru_cap : L -> Z;
}.

(** What its documentation promises. *)
Class LruLaws (L : Type) `{LruCache L} := {
  lru_new_iter : forall c, lru_iter (lru_new c) = [];
  lru_new_cap : forall c, lru_cap (lru_new c) = c;
  lru_get_found : forall l k, (lru_get l k).2 = true <-> k ∈ lru_iter l;
  lru_get_iter : forall l k k', k' ∈ lru_iter (lru_get l k).1 <-> k' ∈ lru_iter l;
  lru_get_length : forall l k, length (lru_iter (lru_get l k).1) = length (lru_iter l);
  lru_push_room : forall l k, k ∉ lru_iter l -> Z.of_nat (length (lru_iter l)) < lru_cap l ->
    lru_iter (lru_push l k).1 = k :: lru_iter l /\ (lru_push l k).2 = None;
  lru_push_full : forall l k, k ∉ lru_iter l -> lru_cap l <= Z.of_nat (length (lru_iter l)) -> 0 < lru_cap l ->
    exists kept oldest, lru_iter l = kept ++ [oldest] /\ lru_iter (lru_push l k).1 = k :: kept
      /\ (lru_push l k).2 = Some oldest;
  lru_pop_iter : forall l k k', k' ∈ lru_iter (lru_pop l k) <-> k' <> k /\ k' ∈ lru_iter l;
  lru_pop_length : forall l k, (length (lru_iter (lru_pop l k)) <= length (lru_iter l))%nat;
  lru_cap_const : forall l k, lru_cap (lru_get l k).1 = lru_cap l /\ lru_cap (lru_push l k).1 = lru_cap l
    /\ lru_cap (lru_pop l k) = lru_cap l;
}.

(** ** Events and results *)

Inductive StorageTier := Gpu | Cpu | Ssd | Remote.

Record BatchBlock := mkBatchBlock {
  bb_local_hash : Z;
  bb_parent_hash : option Z;
  bb_bytes : list Z;
  bb_block_size : Z;
  bb_tier : StorageTier;
}.

Inductive GatewayKvEvent :=
| Store (model worker_id sequence_hash prefix_hash : string) (local_hash : Z) (parent_hash : option Z)
    (block_index : Z) (block_bytes : list Z) (block_size : Z) (tier : StorageTier)
| RemoveEvent (worker_id sequence_hash : string) (tier : option StorageTier)
| EvictBlocks (model worker_id : string) (block_hashes : list Z) (tier : option StorageTier)
| StoreBatch (model worker_id : string) (blocks : list BatchBlock).

Record KvMatchResult := mkKvMatchResult {
  worker_id : string;
  match_depth : Z;
  total_blocks : Z;
  hit_ratio : f64;
  load_score : f64;
  combined_score : f64;
}.

(** ** State *)

(** [Block]; a child is the heap address of its node. *)
Record Block := mkBlock {
  children : gmap Z Z;
  workers : gmap string StorageTier;
  block_tokens : list Z;
}.

Definition default_block : Block := mkBlock ∅ ∅ [].

(** [expirations] in the order of the heap: oldest first. *)
Record PruneTimers := mkPruneTimers {
  timers : gmap BlockKey Z;
  expirations : list (Z * BlockKey);
}.

Fixpoint push_expiration (t : Z) (k : BlockKey) (l : list (Z * BlockKey)) : list (Z * BlockKey) :=
  match l with
  | [] => [(t, k)]
  | e :: l' => if e.1 <=? t then e :: push_expiration t k l' else (t, k) :: l
  end.

Definition timers_insert (p : PruneTimers) (k : BlockKey) (now : Z) : PruneTimers :=
  mkPruneTimers (<[k := now]> (timers p)) (push_expiration now k (expirations p)).
Definition timers_remove (p : PruneTimers) (k : BlockKey) : PruneTimers :=
  mkPruneTimers (delete k (timers p)) (expirations p).
Definition timers_remove_worker (p : PruneTimers) (w : string) : PruneTimers :=
  mkPruneTimers (base.filter (fun kv : BlockKey * Z => kv.1.1.2 <> w) (timers p)) (expirations p).

(** The loop of [pop_expired]; a stale heap entry is dropped silently. *)
Fixpoint pop_loop (now ttl : Z) (ts : gmap BlockKey Z) (l : list (Z * BlockKey))
  : gmap BlockKey Z * list (Z * BlockKey) * list BlockKey :=
  match l with
  | [] => (ts, [], [])
  | (store_time, k) :: l' =>
    if now -sat store_time <? ttl then (ts, l, [])
    else if bool_decide (ts !! k = Some store_time)
    then let '(ts', l'', expired) := pop_loop now ttl (delete k ts) l' in (ts', l'', k :: expired)
    else pop_loop now ttl ts l'
  end.
Definition pop_expired (now ttl : Z) (p : PruneTimers) : PruneTimers * list BlockKey :=
  let '(ts, l, expired) := pop_loop now ttl (timers p) (expirations p) in (mkPruneTimers ts l, expired).

Section index.
Context {L : Type} `{LruCache L}.
Context (hash_block_bytes : list Z -> Z).

Record TokenPrefixIndex := mkIndex {
  heap : gmap Z Block;
  next_node : Z;
  tries : gmap string Z;
  block_lookup : gmap BlockKey Z;
  lru_queue : L;
  prune_timers : PruneTimers;
  index_block_size : Z;
  index_cache_weight : f64;
  index_load_weight : f64;
}.

Definition set_heap (ix : TokenPrefixIndex) (h : gmap Z Block) : TokenPrefixIndex :=
  mkIndex h (next_node ix) (tries ix) (block_lookup ix) (lru_queue ix) (prune_timers ix)
    (index_block_size ix) (index_cache_weight ix) (index_load_weight ix).
Definition set_lookup (ix : TokenPrefixIndex) (m : gmap BlockKey Z) : TokenPrefixIndex :=
  mkIndex (heap ix) (next_node ix) (tries ix) m (lru_queue ix) (prune_timers ix)
    (index_block_size ix) (index_cache_weight ix) (index_load_weight ix).
Definition set_lru (ix : TokenPrefixIndex) (l : L) : TokenPrefixIndex :=
  mkIndex (heap ix) (next_node ix) (tries ix) (block_lookup ix) l (prune_timers ix)
    (index_block_size ix) (index_cache_weight ix) (index_load_weight ix).
Definition set_timers (ix : TokenPrefixIndex) (p : PruneTimers) : TokenPrefixIndex :=
  mkIndex (heap ix) (next_node ix) (tries ix) (block_lookup ix) (lru_queue ix) p
    (index_block_size ix) (index_cache_weight ix) (index_load_weight ix).

(** [max_blocks] of zero falls back to 500000. *)
Definition new_index (block_size : Z) (cache_weight load_weight : f64) (max_blocks : Z) : TokenPrefixIndex :=
  let cap := if max_blocks =? 0 then 500000 else max_blocks in
  mkIndex ∅ 0 ∅ ∅ (lru_new cap) (mkPruneTimers ∅ []) block_size cache_weight load_weight.

Definition node (ix : TokenPrefixIndex) (a : Z) : Block := default default_block (heap ix !! a).

(** [Arc::new(RwLock::new(Block::default()))] *)
Definition alloc (ix : TokenPrefixIndex) : TokenPrefixIndex * Z :=
  (mkIndex (<[next_node ix := default_block]> (heap ix)) (next_node ix + 1) (tries ix) (block_lookup ix) (lru_queue ix)
     (prune_timers ix) (index_block_size ix) (index_cache_weight ix) (index_load_weight ix), next_node ix).

(** ** Eviction *)

Definition evict_node (b : Block) (w : string) : Block :=
  let ws := delete w (workers b) in
  mkBlock (if decide (ws = ∅) then ∅ else children b) ws (block_tokens b).

Definition evict_single_block (ix : TokenPrefixIndex) (k : BlockKey) : TokenPrefixIndex :=
  match block_lookup ix !! k with
  | None => ix
  | Some a =>
    let ix1 := set_heap ix (<[a := evict_node (node ix a) k.1.2]> (heap ix)) in
    set_lookup ix1 (delete k (block_lookup ix1))
  end.

Definition lru_evict_block (ix : TokenPrefixIndex) (k : BlockKey) : TokenPrefixIndex :=
  if k.2 =? 0 then ix
  else
    let ix1 := evict_single_block ix k in
    let ix2 := set_timers ix1 (timers_remove (prune_timers ix1) k) in
    set_lru ix2 (lru_pop (lru_queue ix2) k).

(** ** Recording *)

Definition root_of (ix : TokenPrefixIndex) (model : string) : TokenPrefixIndex * Z :=
  match tries ix !! model with
  | Some a => (ix, a)
  | None =>
    let '(ix1, a) := alloc ix in
    (mkIndex (heap ix1) (next_node ix1) (<[model := a]> (tries ix1)) (block_lookup ix1) (lru_queue ix1)
       (prune_timers ix1) (index_block_size ix1) (index_cache_weight ix1) (index_load_weight ix1), a)
  end.

(** [children.entry(trie_key).or_insert_with(..)] *)
Definition child_of (ix : TokenPrefixIndex) (parent trie_key : Z) : TokenPrefixIndex * Z :=
  match children (node ix parent) !! trie_key with
  | Some a => (ix, a)
  | None =>
    let '(ix1, a) := alloc ix in
    let b := node ix1 parent in
    (set_heap ix1 (<[parent := mkBlock (<[trie_key := a]> (children b)) (workers b) (block_tokens b)]> (heap ix1)), a)
  end.

Definition add_worker (ix : TokenPrefixIndex) (a : Z) (w : string) (tier : StorageTier) (bytes : list Z)
  : TokenPrefixIndex :=
  let b := node ix a in
  set_heap ix (<[a := mkBlock (children b) (<[w := tier]> (workers b))
                        (match block_tokens b with [] => bytes | ts => ts end)]> (heap ix)).

(** Timer and LRU of one key; the evicted key, if any. *)
Definition touch (now : Z) (ix : TokenPrefixIndex) (k : BlockKey) : TokenPrefixIndex * option BlockKey :=
  let ix1 := set_timers ix (timers_insert (prune_timers ix) k now) in
  let '(l1, found) := lru_get (lru_queue ix1) k in
  if found then (set_lru ix1 l1, None)
  else let '(l2, evicted) := lru_push l1 k in (set_lru ix1 l2, evicted).

Definition effective_hash (local_hash : Z) (bytes : list Z) : Z :=
  if local_hash =? 0 then hash_block_bytes bytes else local_hash.

Definition apply_store (now : Z) (ix : TokenPrefixIndex) (model w : string) (local_hash : Z) (parent_hash : option Z)
    (bytes : list Z) (tier : StorageTier) : TokenPrefixIndex :=
  match bytes with
  | [] => ix
  | _ =>
    let trie_key := hash_block_bytes bytes in
    let eh := effective_hash local_hash bytes in
    let '(ix1, root) := root_of ix model in
    let parent := match parent_hash with
    | None => root
    | Some ph => default root (block_lookup ix1 !! (model, w, ph))
    end in
    let '(ix2, child) := child_of ix1 parent trie_key in
    let ix3 := add_worker ix2 child w tier bytes in
    let k := (model, w, eh) in
    let ix4 := set_lookup ix3 (<[k := child]> (block_lookup ix3)) in
    let '(ix5, evicted) := touch now ix4 k in
    match evicted with Some k' => lru_evict_block ix5 k' | None => ix5 end
  end.

(** One block of the trie walk: the child, its worker, the reverse lookup. *)
Definition batch_step (model w : string) (st : TokenPrefixIndex * Z) (b : BatchBlock) : TokenPrefixIndex * Z :=
  let '(ix, current) := st in
  let '(ix1, child) := child_of ix current (hash_block_bytes (bb_bytes b)) in
  let ix2 := add_worker ix1 child w (bb_tier b) (bb_bytes b) in
  (set_lookup ix2 (<[(model, w, effective_hash (bb_local_hash b) (bb_bytes b)) := child]> (block_lookup ix2)), child).

Definition touch_step (now : Z) (model w : string) (st : TokenPrefixIndex * list BlockKey) (b : BatchBlock)
  : TokenPrefixIndex * list BlockKey :=
  let '(ix, evicted) := st in
  let '(ix1, e) := touch now ix (model, w, effective_hash (bb_local_hash b) (bb_bytes b)) in
  (ix1, match e with Some k => evicted ++ [k] | None => evicted end).

Definition apply_store_batch (now : Z) (ix : TokenPrefixIndex) (model w : string) (blocks : list BatchBlock)
  : TokenPrefixIndex :=
  match blocks with
  | [] => ix
  | _ =>
    let '(ix1, root) := root_of ix model in
    let '(ix2, _) := foldl (batch_step model w) (ix1, root) blocks in
    let '(ix3, evicted) := foldl (touch_step now model w) (ix2, []) blocks in
    foldl lru_evict_block ix3 evicted
  end.

(** ** Removing a worker *)

(** One visit of the walk: the node loses the worker, and its children when it has
    no worker left; the former children are visited next. *)
Definition remove_visit (w : string) (h : gmap Z Block) (a : Z) : gmap Z Block * list Z :=
  let b := default default_block (h !! a) in
  (<[a := evict_node b w]> h, (map_to_list (children b)).*2).

Fixpoint remove_walk (fuel : nat) (w : string) (h : gmap Z Block) (stack : list Z) : gmap Z Block * list Z :=
  match fuel, stack with
  | O, _ | _, [] => (h, stack)
  | S fuel', a :: stack' => let '(h', cs) := remove_visit w h a in remove_walk fuel' w h' (cs ++ stack')
  end.

Definition remove_worker (ix : TokenPrefixIndex) (w : string) : TokenPrefixIndex :=
  let h := foldl (fun h root => (remove_walk (size h) w h [root]).1) (heap ix) (map_to_list (tries ix)).*2 in
  let ix1 := set_heap ix h in
  let ix2 := set_timers ix1 (timers_remove_worker (prune_timers ix1) w) in
  let ix3 := set_lookup ix2 (base.filter (fun kv : BlockKey * Z => kv.1.1.2 <> w) (block_lookup ix2)) in
  set_lru ix3 (foldl lru_pop (lru_queue ix3) (retain (fun k : BlockKey => bool_decide (k.1.2 = w)) (lru_iter (lru_queue ix3)))).

Definition apply_evict (ix : TokenPrefixIndex) (model w : string) (hashes : list Z) : TokenPrefixIndex :=
  let ix1 := foldl (fun ix h =>
      if h =? 0 then ix
      else let ix1 := evict_single_block ix (model, w, h) in
           set_timers ix1 (timers_remove (prune_timers ix1) (model, w, h))) ix hashes in
  set_lru ix1 (foldl (fun l h => if h =? 0 then l else lru_pop l (model, w, h)) (lru_queue ix1) hashes).

Definition apply_event (now : Z) (ix : TokenPrefixIndex) (e : GatewayKvEvent) : TokenPrefixIndex :=
  match e with
  | Store model w _ _ local_hash parent_hash _ bytes _ tier => apply_store now ix model w local_hash parent_hash bytes tier
  | RemoveEvent w _ _ => remove_worker ix w
  | EvictBlocks model w hashes _ => apply_evict ix model w hashes
  | StoreBatch model w blocks => apply_store_batch now ix model w blocks
  end.

(** ** Queries *)

Definition chunk (bs : Z) (bytes : list Z) (i : nat) : list Z :=
  take (Z.to_nat bs) (drop (i * Z.to_nat bs) bytes).

Definition block_total (bs : Z) (bytes : list Z) : nat := Z.to_nat (Z.of_nat (length bytes) `div` bs).

Definition request_hashes (bs : Z) (bytes : list Z) : list Z :=
  (fun i => hash_block_bytes (chunk bs bytes i)) <$> seq 0 (block_total bs bytes).

(** The walk of [find_matches]: the deepest block of every worker. *)
Fixpoint match_walk (h : gmap Z Block) (current : Z) (matched : gset string) (depths : gmap string Z) (depth : Z)
    (hashes : list Z) : gmap string Z :=
  match hashes with
  | [] => depths
  | hash_key :: rest =>
    match children (default default_block (h !! current)) !! hash_key with
    | None => depths
    | Some child =>
      let still := matched ∩ dom (workers (default default_block (h !! child))) in
      let depths' := gset_to_gmap (depth + 1) still ∪ depths in
      if decide (still = ∅) then depths' else match_walk h child still depths' (depth + 1) rest
    end
  end.

(** Descending combined score; results that do not compare are equal. *)
Definition score_le (a b : KvMatchResult) : Prop := f64_cmp (combined_score b) (combined_score a) <> Gt.
#[local] Instance score_le_dec : RelDecision score_le.
Proof. intros a b. unfold score_le. apply _. Defined.

Definition match_result (cache_weight : f64) (total : Z) (w : string) (depth : Z) : KvMatchResult :=
  let ratio := f64_div (f64_of depth) (f64_of total) in
  mkKvMatchResult w depth total ratio (f64_of 0) (f64_mul cache_weight ratio).

(** [None]: the division by a zero block size panics (it comes before the test). *)
Definition find_matches (ix : TokenPrefixIndex) (model : string) (bytes : list Z) (candidates : list string)
  : option (list KvMatchResult) :=
  if bool_decide (bytes = []) || bool_decide (candidates = []) then Some []
  else if index_block_size ix =? 0 then None
  else
    let hashes := request_hashes (index_block_size ix) bytes in
    match hashes with
    | [] => Some []
    | _ =>
      match tries ix !! model with
      | None => Some []
      | Some root =>
        let depths := match_walk (heap ix) root (list_to_set candidates) ∅ 0 hashes in
        Some (merge_sort score_le
          (omap (fun wd : string * Z => if wd.2 =? 0 then None
                   else Some (match_result (index_cache_weight ix) (Z.of_nat (length hashes)) wd.1 wd.2)) (map_to_list depths)))
      end
    end.

Definition block_count (ix : TokenPrefixIndex) : Z := Z.of_nat (size (block_lookup ix)).
Definition block_capacity (ix : TokenPrefixIndex) : Z := lru_cap (lru_queue ix).

Definition prefix_block_count (ix : TokenPrefixIndex) (bytes : list Z) : Z :=
  if bool_decide (bytes = []) || (index_block_size ix =? 0) then 0
  else Z.of_nat (length bytes) `div` index_block_size ix.

Definition index_model_names (ix : TokenPrefixIndex) : gset string := dom (tries ix).

(** The blocks of a prefix, each chained to the previous one. *)
Definition prefix_blocks (bs : Z) (bytes : list Z) (tier : StorageTier) : list BatchBlock :=
  (fun i => mkBatchBlock 0 (match i with O => None | S j => Some (hash_block_bytes (chunk bs bytes j)) end)
              (chunk bs bytes i) bs tier) <$> seq 0 (block_total bs bytes).

Definition record_request_prefix (now : Z) (ix : TokenPrefixIndex) (model w : string) (bytes : list Z)
    (tier : StorageTier) : TokenPrefixIndex :=
  if (index_block_size ix =? 0) || bool_decide (bytes = []) then ix
  else apply_store_batch now ix model w (prefix_blocks (index_block_size ix) bytes tier).

Definition prune_expired (now ttl : Z) (ix : TokenPrefixIndex) : TokenPrefixIndex :=
  let '(p, expired) := pop_expired now ttl (prune_timers ix) in
  let ix1 := foldl evict_single_block (set_timers ix p) expired in
  set_lru ix1 (foldl lru_pop (lru_queue ix1) expired).

(** ** The reference reading of the trie *)

(** The number of leading blocks under which [w] is recorded, following the children
    from [a]. *)
Fixpoint prefix_run (h : gmap Z Block) (a : Z) (w : string) (hashes : list Z) : Z :=
  match hashes with
  | [] => 0
  | k :: rest =>
    match children (default default_block (h !! a)) !! k with
    | None => 0
    | Some c => if decide (is_Some (workers (default default_block (h !! c)) !! w)) then 1 + prefix_run h c w rest else 0
    end
  end.

Lemma prefix_run_nonneg h a w hashes : 0 <= prefix_run h a w hashes.
Proof.
  revert a. induction hashes as [| k rest IH]; intros a; cbn [prefix_run]; [done |].
  destruct (children _ !! k) as [c |]; [| done]. destruct (decide _); [| done]. specialize (IH c). lia.
Qed.

(** One walk for all candidates computes the run of each. *)
Lemma match_walk_spec h hashes a (matched : gset string) depths d w :
  match_walk h a matched depths d hashes !! w =
    if decide (w ∈ matched /\ 0 < prefix_run h a w hashes) then Some (d + prefix_run h a w hashes) else depths !! w.
Proof.
  revert a matched depths d. induction hashes as [| k rest IH]; intros a matched depths d; cbn [prefix_run match_walk].
  { by rewrite decide_False by (intros [_ ?]; lia). }
  destruct (children _ !! k) as [c |]; [| by rewrite decide_False by (intros [_ ?]; lia)].
  set (still := matched ∩ _).
  assert (w ∈ still <-> w ∈ matched /\ is_Some (workers (default default_block (h !! c)) !! w)) as Hst.
  { unfold still. by rewrite elem_of_intersection, elem_of_dom. }
  pose proof (prefix_run_nonneg h c w rest) as Hnn.
  assert ((gset_to_gmap (d + 1) still ∪ depths : gmap string Z) !! w = if decide (w ∈ still) then Some (d + 1) else depths !! w) as Hun.
  { rewrite lookup_union, lookup_gset_to_gmap. case_decide; [rewrite option_guard_True by done | rewrite option_guard_False by done];
      by destruct (depths !! w). }
  destruct (decide (still = ∅)) as [Hemp |].
  - rewrite Hun. rewrite decide_False by (rewrite Hemp; set_solver). rewrite decide_False; [done |].
    intros [Hm Hr]. case_decide as Hw; [| lia]. assert (w ∈ still) by (by apply Hst). set_solver.
  - rewrite IH, Hun. destruct (decide (is_Some (workers (default default_block (h !! c)) !! w))) as [Hw | Hw].
    + destruct (decide (w ∈ matched)) as [Hm |].
      * rewrite (decide_True (P := w ∈ matched /\ 0 < 1 + _)) by (split; [done | lia]).
        destruct (decide (w ∈ still /\ 0 < prefix_run h c w rest)) as [E1 | E1]; [f_equal; lia |].
        rewrite decide_True by (by apply Hst). f_equal.
        assert (~ 0 < prefix_run h c w rest) by (intros ?; apply E1; split; [by apply Hst | done]). lia.
      * rewrite !decide_False; [done | naive_solver..].
    + rewrite !decide_False; [done | naive_solver lia | naive_solver | naive_solver].
Qed.

(** ** The heap is a forest *)

Record ix_ok (ix : TokenPrefixIndex) : Prop := {
  ok_child : forall a b k c, heap ix !! a = Some b -> children b !! k = Some c -> a < c /\ is_Some (heap ix !! c);
  ok_parent : forall a a' b b' k k' c, heap ix !! a = Some b -> heap ix !! a' = Some b' ->
    children b !! k = Some c -> children b' !! k' = Some c -> a = a' /\ k = k';
  ok_next : forall a, is_Some (heap ix !! a) -> a < next_node ix;
  ok_root : forall m r, tries ix !! m = Some r -> exists b, heap ix !! r = Some b /\ workers b = ∅;
  ok_orphan : forall m r a b k, tries ix !! m = Some r -> heap ix !! a = Some b -> children b !! k <> Some r;
  ok_lookup : forall k a, block_lookup ix !! k = Some a -> is_Some (heap ix !! a);
}.

(** Nodes stay, children and workers only grow. *)
Definition grows (h h' : gmap Z Block) : Prop :=
  forall a b, h !! a = Some b -> exists b', h' !! a = Some b' /\ children b ⊆ children b' /\ (forall w, is_Some (workers b !! w) -> is_Some (workers b' !! w)).

#[local] Instance grows_preorder : PreOrder grows.
Proof.
  split.
  - intros h a b Hl. eauto.
  - intros h1 h2 h3 H12 H23 a b Hl. destruct (H12 _ _ Hl) as (b2 & Hl2 & Hc2 & Hw2).
    destruct (H23 _ _ Hl2) as (b3 & Hl3 & Hc3 & Hw3). exists b3. split_and!; [done | by etransitivity | auto].
Qed.

Lemma grows_insert_fresh h a b : h !! a = None -> grows h (<[a := b]> h).
Proof. intros Hn a' b' Hl. rewrite lookup_insert_ne by congruence. eauto. Qed.

Lemma grows_insert h a b b' :
  h !! a = Some b -> children b ⊆ children b' -> (forall w, is_Some (workers b !! w) -> is_Some (workers b' !! w)) ->
  grows h (<[a := b']> h).
Proof.
  intros Hl Hc Hw a' b0 Hl0. destruct (decide (a' = a)) as [-> |].
  - rewrite lookup_insert_eq. simplify_eq. eauto.
  - rewrite lookup_insert_ne by done. eauto.
Qed.

Lemma ok_fresh ix : ix_ok ix -> heap ix !! next_node ix = None.
Proof. intros Hok. destruct (heap ix !! next_node ix) eqn:E; [| done]. assert (next_node ix < next_node ix) by (by eapply ok_next). lia. Qed.

(** The fields besides heap and allocation. *)
Record same_rest (ix ix' : TokenPrefixIndex) : Prop := {
  sr_lookup : block_lookup ix' = block_lookup ix;
  sr_lru : lru_queue ix' = lru_queue ix;
  sr_timers : prune_timers ix' = prune_timers ix;
  sr_size : index_block_size ix' = index_block_size ix;
  sr_weight : index_cache_weight ix' = index_cache_weight ix;
}.

Lemma node_some ix a b : heap ix !! a = Some b -> node ix a = b.
Proof. unfold node. by intros ->. Qed.

Lemma root_of_ok ix m ix' r :
  ix_ok ix -> root_of ix m = (ix', r) ->
  ix_ok ix' /\ grows (heap ix) (heap ix') /\ same_rest ix ix' /\ tries ix' !! m = Some r
  /\ (forall m', m' <> m -> tries ix' !! m' = tries ix !! m').
Proof.
  intros Hok E. unfold root_of, alloc in E. destruct (tries ix !! m) as [a |] eqn:El; simplify_eq; [by split_and! |].
  pose proof (ok_fresh _ Hok) as Hf. destruct Hok as [Hc Hp Hn Hr Ho Hl]. cbn in *.
  split_and!; [| by apply grows_insert_fresh | done | by rewrite lookup_insert_eq | intros; by rewrite lookup_insert_ne].
  split; cbn.
  - intros a b k c [[<- <-] | [? Ha]]%lookup_insert_Some Hk; [done |].
    destruct (Hc _ _ _ _ Ha Hk) as [Hlt [bc Hbc]]. split; [done |]. rewrite lookup_insert_ne by congruence. eauto.
  - intros a a' b b' k k' c [[<- <-] | [? Ha]]%lookup_insert_Some [[<- <-] | [? Ha']]%lookup_insert_Some; try done.
    by apply (Hp a a' b b' k k' c).
  - intros a. destruct (decide (a = next_node ix)) as [-> |]; [lia |]. rewrite lookup_insert_ne by done. intros Ha%Hn. lia.
  - intros m' r' [[<- <-] | [? Hm]]%lookup_insert_Some; [rewrite lookup_insert_eq; eauto |].
    destruct (Hr _ _ Hm) as (b & Hb & Hw). exists b. split; [| done]. rewrite lookup_insert_ne by congruence. done.
  - intros m' r' a b k [[<- <-] | [? Hm]]%lookup_insert_Some [[<- <-] | [? Ha]]%lookup_insert_Some; try done.
    + intros Hk. destruct (Hc _ _ _ _ Ha Hk) as [_ [? ?]]. congruence.
    + by eapply Ho.
  - intros k a Hk. destruct (Hl _ _ Hk) as [b Hb]. rewrite lookup_insert_ne by congruence. eauto.
Qed.

Lemma child_of_ok ix p k ix' c :
  ix_ok ix -> is_Some (heap ix !! p) -> child_of ix p k = (ix', c) ->
  ix_ok ix' /\ grows (heap ix) (heap ix') /\ same_rest ix ix' /\ tries ix' = tries ix
  /\ children (node ix' p) !! k = Some c /\ is_Some (heap ix' !! c) /\ (forall m, tries ix !! m <> Some c).
Proof.
  intros Hok [bp Hbp] E. unfold child_of in E. rewrite (node_some _ _ _ Hbp) in E. pose proof (ok_fresh _ Hok) as Hf.
  destruct (children bp !! k) as [a |] eqn:El.
  { simplify_eq. destruct (ok_child _ Hok _ _ _ _ Hbp El) as [_ ?]. split_and!; try done.
    - by rewrite (node_some _ _ _ Hbp).
    - intros m Hm. by apply (ok_orphan _ Hok _ _ _ _ k Hm Hbp). }
  cbn in E. assert (p <> next_node ix) as Hpn by congruence.
  rewrite (node_some _ p bp) in E by (cbn; by rewrite lookup_insert_ne). simplify_eq. cbn.
  set (n := next_node ix) in *. set (bp' := mkBlock _ _ _).
  assert (forall a b, <[p:=bp']> (<[n:=default_block]> (heap ix)) !! a = Some b ->
    (a = p /\ b = bp') \/ (a <> p /\ a = n /\ b = default_block) \/ (a <> p /\ a <> n /\ heap ix !! a = Some b)) as Hinv.
  { intros a b [[<- <-] | [? [[<- <-] | [? ?]]%lookup_insert_Some]]%lookup_insert_Some; auto 6. }
  assert (forall a, is_Some (heap ix !! a) \/ a = n -> is_Some (<[p:=bp']> (<[n:=default_block]> (heap ix)) !! a)) as Hsome.
  { intros a Ha. destruct (decide (a = p)) as [-> |]; [rewrite lookup_insert_eq; eauto |]. rewrite lookup_insert_ne by done.
    destruct (decide (a = n)) as [-> |]; [rewrite lookup_insert_eq; eauto |]. rewrite lookup_insert_ne by done.
    by destruct Ha. }
  assert (forall a b k0 c, <[p:=bp']> (<[n:=default_block]> (heap ix)) !! a = Some b -> children b !! k0 = Some c ->
    (a = p /\ k0 = k /\ c = n) \/ (exists b0, heap ix !! a = Some b0 /\ children b0 !! k0 = Some c)) as Hch.
  { intros a b k0 c [[-> ->] | [(? & -> & ->) | (? & ? & Ha)]]%Hinv Hk0; cbn in Hk0; [| done | eauto].
    apply lookup_insert_Some in Hk0 as [[-> ->] | [? Hk0]]; eauto 6. }
  destruct Hok as [Hc Hp Hn Hr Ho Hl].
  split_and!; try done; cycle 1.
  - etransitivity; [by apply grows_insert_fresh |].
    apply (grows_insert _ _ bp); [by rewrite lookup_insert_ne | | done]. by apply insert_subseteq.
  - unfold node. cbn. rewrite lookup_insert_eq. cbn. by rewrite lookup_insert_eq.
  - apply Hsome. by right.
  - intros m Hm. destruct (Hr _ _ Hm) as (b & Hb & _). congruence.
  - split; cbn.
    + intros a b k0 c Ha Hk0. destruct (Hch _ _ _ _ Ha Hk0) as [(-> & -> & ->) | (b0 & Hb0 & Hk)].
      * split; [by apply Hn | apply Hsome; by right].
      * destruct (Hc _ _ _ _ Hb0 Hk) as [? ?]. split; [done |]. apply Hsome. by left.
    + intros a a' b b' k0 k0' c Ha Ha' Hk0 Hk0'.
      destruct (Hch _ _ _ _ Ha Hk0) as [(-> & -> & ->) | (b0 & Hb0 & Hk1)],
        (Hch _ _ _ _ Ha' Hk0') as [(-> & -> & E2) | (b0' & Hb0' & Hk1')]; try done.
      * destruct (Hc _ _ _ _ Hb0' Hk1') as [_ [? ?]]. congruence.
      * subst. destruct (Hc _ _ _ _ Hb0 Hk1) as [_ [? ?]]. congruence.
      * by apply (Hp a a' b0 b0' k0 k0' c).
    + intros a [b [[-> ->] | [(? & -> & ->) | (? & ? & Ha)]]%Hinv].
      * assert (p < n) by (apply Hn; eauto). lia.
      * lia.
      * assert (a < n) by (apply Hn; eauto). lia.
    + intros m r Hm. destruct (Hr _ _ Hm) as (b & Hb & Hw). destruct (decide (r = p)) as [-> |].
      * rewrite lookup_insert_eq. eexists; split; [done |]. cbn. congruence.
      * rewrite !lookup_insert_ne by congruence. eauto.
    + intros m r a b k0 Hm Ha Hk0. destruct (Hch _ _ _ _ Ha Hk0) as [(-> & -> & ->) | (b0 & Hb0 & Hk1)].
      * destruct (Hr _ _ Hm) as (b1 & Hb1 & _). congruence.
      * by apply (Ho _ _ _ _ k0 Hm Hb0).
    + intros k0 a Hk0. apply Hsome. left. by eapply Hl.
Qed.

(** Rewriting a node without new children, and without new workers at a root. *)
Lemma rewrite_ok ix a b b' :
  ix_ok ix -> heap ix !! a = Some b -> children b' ⊆ children b ->
  (workers b' = ∅ \/ (workers b <> ∅ \/ forall m, tries ix !! m <> Some a)) ->
  ix_ok (set_heap ix (<[a := b']> (heap ix))).
Proof.
  intros [Hc Hp Hn Hr Ho Hl] Ha Hsub Hw.
  assert (forall x, is_Some (<[a:=b']> (heap ix) !! x) <-> is_Some (heap ix !! x)) as Hsome.
  { intros x. destruct (decide (x = a)) as [-> |]; [rewrite lookup_insert_eq; naive_solver | by rewrite lookup_insert_ne]. }
  assert (forall x bx k c, <[a:=b']> (heap ix) !! x = Some bx -> children bx !! k = Some c ->
    exists b0, heap ix !! x = Some b0 /\ children b0 !! k = Some c) as Hch.
  { intros x bx k c [[<- <-] | [? Hx]]%lookup_insert_Some Hk; [| eauto]. exists b. split; [done |]. by eapply lookup_weaken. }
  split; cbn.
  - intros x bx k c Hx Hk. destruct (Hch _ _ _ _ Hx Hk) as (b0 & Hb0 & Hk0). destruct (Hc _ _ _ _ Hb0 Hk0). by rewrite Hsome.
  - intros x x' bx bx' k k' c Hx Hx' Hk Hk'. destruct (Hch _ _ _ _ Hx Hk) as (b0 & Hb0 & Hk0), (Hch _ _ _ _ Hx' Hk') as (b1 & Hb1 & Hk1).
    by apply (Hp x x' b0 b1 k k' c).
  - intros x. rewrite Hsome. apply Hn.
  - intros m r Hm. destruct (Hr _ _ Hm) as (b0 & Hb0 & Hw0). destruct (decide (r = a)) as [-> |].
    + rewrite lookup_insert_eq. exists b'. split; [done |]. simplify_eq. destruct Hw as [? | [? | Hnr]]; [done | done |].
      by apply Hnr in Hm.
    + rewrite lookup_insert_ne by done. eauto.
  - intros m r x bx k Hm Hx Hk. destruct (Hch _ _ _ _ Hx Hk) as (b0 & Hb0 & Hk0). by apply (Ho _ _ _ _ k Hm Hb0).
  - intros k x Hk. rewrite Hsome. by eapply Hl.
Qed.

Lemma add_worker_ok ix a w tier bytes :
  ix_ok ix -> is_Some (heap ix !! a) -> (forall m, tries ix !! m <> Some a) ->
  let ix' := add_worker ix a w tier bytes in
  ix_ok ix' /\ grows (heap ix) (heap ix') /\ same_rest ix ix' /\ tries ix' = tries ix
  /\ is_Some (workers (node ix' a) !! w) /\ is_Some (heap ix' !! a).
Proof.
  intros Hok [b Hb] Hnr ix'. unfold ix', add_worker. rewrite (node_some _ _ _ Hb). split_and!; try done.
  - eapply rewrite_ok; [done | done | done | by right; right].
  - apply (grows_insert _ _ b); [done | done |]. cbn. intros w' Hw'. destruct (decide (w' = w)) as [-> |].
    + rewrite lookup_insert_eq. eauto.
    + by rewrite lookup_insert_ne.
  - unfold node. cbn. rewrite lookup_insert_eq. cbn. rewrite lookup_insert_eq. eauto.
  - cbn. rewrite lookup_insert_eq. eauto.
Qed.

Lemma evict_node_children b w : children (evict_node b w) ⊆ children b.
Proof. unfold evict_node. cbn. case_decide; [apply map_empty_subseteq | done]. Qed.

Lemma evict_node_ok ix a b w :
  ix_ok ix -> heap ix !! a = Some b -> ix_ok (set_heap ix (<[a := evict_node b w]> (heap ix))).
Proof.
  intros Hok Hb. eapply rewrite_ok; [done | done | apply evict_node_children |]. cbn.
  destruct (decide (workers b = ∅)) as [E | ?]; [left; rewrite E; apply delete_empty | right; by left].
Qed.

(** ** Recording a chain of blocks *)

Lemma same_rest_trans ix1 ix2 ix3 : same_rest ix1 ix2 -> same_rest ix2 ix3 -> same_rest ix1 ix3.
Proof. intros [] []. split; congruence. Qed.

Lemma set_lookup_ok ix k a : ix_ok ix -> is_Some (heap ix !! a) -> ix_ok (set_lookup ix (<[k := a]> (block_lookup ix))).
Proof.
  intros [Hc Hp Hn Hr Ho Hl] Ha. split; cbn; try done. intros k' a' [[<- <-] | [? Hk]]%lookup_insert_Some; [done | by eapply Hl].
Qed.

(** The keys of the blocks recorded for a worker. *)
Definition block_key (model w : string) (b : BatchBlock) : BlockKey :=
  (model, w, effective_hash (bb_local_hash b) (bb_bytes b)).

Lemma batch_step_ok model w ix a b ix' c :
  ix_ok ix -> is_Some (heap ix !! a) -> batch_step model w (ix, a) b = (ix', c) ->
  ix_ok ix' /\ grows (heap ix) (heap ix') /\ tries ix' = tries ix /\ lru_queue ix' = lru_queue ix
  /\ index_block_size ix' = index_block_size ix /\ index_cache_weight ix' = index_cache_weight ix
  /\ block_lookup ix' = <[block_key model w b := c]> (block_lookup ix)
  /\ children (node ix' a) !! hash_block_bytes (bb_bytes b) = Some c
  /\ is_Some (workers (node ix' c) !! w) /\ is_Some (heap ix' !! c).
Proof.
  intros Hok Ha E. unfold batch_step in E.
  destruct (child_of ix a (hash_block_bytes (bb_bytes b))) as [ix1 c1] eqn:E1. simplify_eq.
  destruct (child_of_ok _ _ _ _ _ Hok Ha E1) as (Hok1 & Hg1 & Hs1 & Ht1 & Hch & Hc & Hnr).
  assert (forall m, tries ix1 !! m <> Some c) as Hnr1 by (by rewrite Ht1).
  destruct (add_worker_ok ix1 c w (bb_tier b) (bb_bytes b) Hok1 Hc Hnr1) as (Hok2 & Hg2 & Hs2 & Ht2 & Hw & Hc2).
  destruct (same_rest_trans _ _ _ Hs1 Hs2) as [Hlk Hlru _ Hsz Hwt].
  split; [by apply set_lookup_ok |]. split_and!; cbn; try done.
  - by etransitivity.
  - by rewrite (sr_lookup _ _ Hs1).
  - assert (is_Some (heap ix1 !! a)) as [b1 Hb1] by (destruct Ha as [b0 Hb0]; destruct (Hg1 _ _ Hb0) as (? & ? & _); eauto).
    destruct (Hg2 _ _ Hb1) as (b2 & Hb2 & Hsub & _). rewrite (node_some _ _ _ Hb1) in Hch.
    unfold node. cbn in *. rewrite Hb2. by eapply lookup_weaken.
Qed.

Lemma grows_some h h' a : grows h h' -> is_Some (h !! a) -> is_Some (h' !! a).
Proof. intros Hg [b Hb]. destruct (Hg _ _ Hb) as (? & ? & _). eauto. Qed.

Lemma batch_walk_ok model w blocks : forall ix a ix' c,
  ix_ok ix -> is_Some (heap ix !! a) -> foldl (batch_step model w) (ix, a) blocks = (ix', c) ->
  ix_ok ix' /\ grows (heap ix) (heap ix') /\ tries ix' = tries ix /\ lru_queue ix' = lru_queue ix
  /\ index_block_size ix' = index_block_size ix /\ index_cache_weight ix' = index_cache_weight ix
  /\ (forall k, is_Some (block_lookup ix' !! k) -> is_Some (block_lookup ix !! k) \/ k ∈ block_key model w <$> blocks)
  /\ prefix_run (heap ix') a w ((fun b => hash_block_bytes (bb_bytes b)) <$> blocks) = Z.of_nat (length blocks).
Proof.
  induction blocks as [| b blocks IH]; intros ix a ix' c Hok Ha E; cbn [foldl] in E.
  { simplify_eq. split_and!; try done. auto. }
  destruct (batch_step model w (ix, a) b) as [ix1 c1] eqn:E1.
  destruct (batch_step_ok _ _ _ _ _ _ _ Hok Ha E1) as (Hok1 & Hg1 & Ht1 & Hl1 & Hs1 & Hw1 & Hlk1 & Hch & Hwk & Hc1).
  destruct (IH _ _ _ _ Hok1 Hc1 E) as (Hok2 & Hg2 & Ht2 & Hl2 & Hs2 & Hw2 & Hlk2 & Hrun).
  split_and!; [done | by etransitivity | congruence.. | |].
  - intros k Hk. apply Hlk2 in Hk as [Hk | Hk]; [| right; by right]. rewrite Hlk1 in Hk.
    destruct (decide (k = block_key model w b)) as [-> |]; [right; by left |]. rewrite lookup_insert_ne in Hk by done. by left.
  - cbn [fmap list_fmap prefix_run length].
    destruct (grows_some _ _ _ Hg1 Ha) as [ba Hba]. destruct (Hg2 _ _ Hba) as (ba' & Hba' & Hsub & _).
    rewrite (node_some _ _ _ Hba) in Hch. rewrite Hba'. change (default default_block (Some ba')) with ba'. rewrite (lookup_weaken _ _ _ _ Hch Hsub).
    destruct Hc1 as [bc Hbc]. destruct (Hg2 _ _ Hbc) as (bc' & Hbc' & _ & Hwsub).
    rewrite (node_some _ _ _ Hbc) in Hwk. rewrite Hbc'. change (default default_block (Some bc')) with bc'. rewrite decide_True by auto.
    fold (fmap (M := list) (fun b => hash_block_bytes (bb_bytes b)) blocks). lia.
Qed.

(** ** Every operation keeps the forest *)

(** What the queries of [find_matches] depend on. *)
Record same_trie (ix ix' : TokenPrefixIndex) : Prop := {
  st_heap : heap ix' = heap ix;
  st_next : next_node ix' = next_node ix;
  st_tries : tries ix' = tries ix;
  st_lookup : block_lookup ix' = block_lookup ix;
  st_size : index_block_size ix' = index_block_size ix;
  st_weight : index_cache_weight ix' = index_cache_weight ix;
}.

Lemma same_trie_trans ix1 ix2 ix3 : same_trie ix1 ix2 -> same_trie ix2 ix3 -> same_trie ix1 ix3.
Proof. intros [] []. split; congruence. Qed.

Lemma same_trie_ok ix ix' : same_trie ix ix' -> ix_ok ix -> ix_ok ix'.
Proof. intros [Eh En Et El Es] [Hc Hp Hn Hr Ho Hl]. by split; rewrite ?Eh, ?En, ?Et, ?El. Qed.

Lemma touch_trie now ix k : same_trie ix (touch now ix k).1.
Proof.
  unfold touch. destruct (lru_get _ k) as [l1 found]. destruct found; [done |]. by destruct (lru_push l1 k).
Qed.

Lemma touch_walk_trie now model w blocks : forall ix evicted,
  same_trie ix (foldl (touch_step now model w) (ix, evicted) blocks).1.
Proof.
  induction blocks as [| b blocks IH]; intros ix evicted; [done |]. cbn [foldl]. unfold touch_step at 2.
  pose proof (touch_trie now ix (model, w, effective_hash (bb_local_hash b) (bb_bytes b))) as Ht.
  destruct (touch _ _ _) as [ix1 e]. eapply same_trie_trans; [exact Ht | apply IH].
Qed.

Lemma evict_single_ok ix k : ix_ok ix -> ix_ok (evict_single_block ix k).
Proof.
  intros Hok. unfold evict_single_block. destruct (block_lookup ix !! k) as [a |] eqn:El; [| done].
  destruct (ok_lookup _ Hok _ _ El) as [b Hb]. rewrite (node_some _ _ _ Hb).
  destruct (evict_node_ok _ _ _ k.1.2 Hok Hb) as [Hc Hp Hn Hr Ho Hl]. split; try done. cbn in *.
  intros k' a' [_ Hk]%lookup_delete_Some. by eapply Hl.
Qed.

Lemma lru_evict_ok ix k : ix_ok ix -> ix_ok (lru_evict_block ix k).
Proof.
  intros Hok. unfold lru_evict_block. destruct (k.2 =? 0); [done |].
  apply (same_trie_ok (evict_single_block ix k)); [done |]. by apply evict_single_ok.
Qed.

Lemma fold_ok {A} (f : TokenPrefixIndex -> A -> TokenPrefixIndex) l ix :
  (forall ix x, ix_ok ix -> ix_ok (f ix x)) -> ix_ok ix -> ix_ok (foldl f ix l).
Proof. intros Hf. revert ix. induction l as [| x l IH]; intros ix Hok; [done |]. apply IH. by apply Hf. Qed.

Lemma apply_store_batch_ok now ix model w blocks : ix_ok ix -> ix_ok (apply_store_batch now ix model w blocks).
Proof.
  intros Hok. unfold apply_store_batch. destruct blocks as [| b blocks]; [done |].
  destruct (root_of ix model) as [ix1 r] eqn:E1. destruct (root_of_ok _ _ _ _ Hok E1) as (Hok1 & _ & _ & Hr & _).
  destruct (foldl (batch_step model w) (ix1, r) (b :: blocks)) as [ix2 c] eqn:E2.
  destruct (ok_root _ Hok1 _ _ Hr) as (br & Hbr & _).
  destruct (batch_walk_ok _ _ _ _ _ _ _ Hok1 ltac:(eauto) E2) as (Hok2 & _).
  pose proof (touch_walk_trie now model w (b :: blocks) ix2 []) as Ht.
  destruct (foldl (touch_step now model w) (ix2, []) (b :: blocks)) as [ix3 evicted].
  apply fold_ok; [apply lru_evict_ok | by eapply same_trie_ok].
Qed.

Lemma apply_store_ok now ix model w lh ph bytes tier : ix_ok ix -> ix_ok (apply_store now ix model w lh ph bytes tier).
Proof.
  intros Hok. unfold apply_store. destruct bytes as [| x bytes]; [done |]. set (bs := x :: bytes).
  destruct (root_of ix model) as [ix1 r] eqn:E1. destruct (root_of_ok _ _ _ _ Hok E1) as (Hok1 & _ & _ & Hr & _).
  set (parent := match ph with Some _ => _ | None => _ end).
  assert (is_Some (heap ix1 !! parent)) as Hpar.
  { destruct (ok_root _ Hok1 _ _ Hr) as (br & Hbr & _). unfold parent. destruct ph as [ph |]; [| eauto].
    destruct (block_lookup ix1 !! (model, w, ph)) as [a |] eqn:El; [by eapply ok_lookup | eauto]. }
  destruct (child_of ix1 parent (hash_block_bytes bs)) as [ix2 c] eqn:E2.
  destruct (child_of_ok _ _ _ _ _ Hok1 Hpar E2) as (Hok2 & _ & _ & Ht2 & _ & Hc & Hnr). rewrite <- Ht2 in Hnr.
  destruct (add_worker_ok ix2 c w tier bs Hok2 Hc Hnr) as (Hok3 & _ & _ & _ & _ & Hc3).
  set (ix4 := set_lookup _ _). assert (ix_ok ix4) as Hok4 by (by apply set_lookup_ok).
  pose proof (touch_trie now ix4 (model, w, effective_hash lh bs)) as Ht. destruct (touch now ix4 _) as [ix5 e].
  assert (ix_ok ix5) by (by eapply same_trie_ok). destruct e; [by apply lru_evict_ok | done].
Qed.

Lemma apply_evict_ok ix model w hashes : ix_ok ix -> ix_ok (apply_evict ix model w hashes).
Proof.
  intros Hok. unfold apply_evict. set (f := fun (ix : TokenPrefixIndex) h => _).
  assert (ix_ok (foldl f ix hashes)) as Hf.
  { apply fold_ok; [| done]. intros ix0 h Hok0. unfold f. destruct (h =? 0); [done |].
    apply (same_trie_ok (evict_single_block ix0 (model, w, h))); [done |]. by apply evict_single_ok. }
  apply (same_trie_ok (foldl f ix hashes)); [| done]. by split.
Qed.

Lemma prune_ok now ttl ix : ix_ok ix -> ix_ok (prune_expired now ttl ix).
Proof.
  intros Hok. unfold prune_expired. destruct (pop_expired now ttl (prune_timers ix)) as [p expired].
  apply (same_trie_ok (foldl evict_single_block (set_timers ix p) expired)); [by split |].
  apply fold_ok; [apply evict_single_ok |]. by apply (same_trie_ok ix).
Qed.

(** ** Removing a worker empties the tries *)

(** The walk rewrites existing nodes only, and never gives one new children. *)
Definition shrinks (h h' : gmap Z Block) : Prop :=
  dom h' = dom h /\ forall a b', h' !! a = Some b' -> exists b, h !! a = Some b /\ children b' ⊆ children b /\ (workers b = ∅ -> workers b' = ∅).

#[export] Instance shrinks_preorder : PreOrder shrinks.
Proof.
  split.
  - intros h. split; [done |]. eauto.
  - intros h1 h2 h3 [D1 H1] [D2 H2]. split; [congruence |]. intros a b3 Hl3.
    destruct (H2 _ _ Hl3) as (b2 & Hl2 & Hc2 & Hw2). destruct (H1 _ _ Hl2) as (b1 & Hl1 & Hc1 & Hw1).
    exists b1. split_and!; [done | by etransitivity | auto].
Qed.

Lemma visit_shrinks w h a b : h !! a = Some b -> shrinks h (remove_visit w h a).1.
Proof.
  intros Hb. unfold remove_visit. rewrite Hb. cbn. split; [rewrite dom_insert_L; assert (a ∈ dom h) by (by apply elem_of_dom_2 in Hb); set_solver |].
  intros a' b' [[<- <-] | [? Hl]]%lookup_insert_Some; [| eauto]. exists b. split_and!; [done | apply evict_node_children |].
  intros E. cbn. rewrite E. apply delete_empty.
Qed.

(** The nodes still to be visited: the stack is among them, and none of their
    children is on the stack. *)
Record walk_inv (h : gmap Z Block) (todo : gset Z) (stack : list Z) : Prop := {
  wi_nodup : NoDup stack;
  wi_stack : forall a, a ∈ stack -> a ∈ todo;
  wi_heap : forall a, a ∈ todo -> is_Some (h !! a);
  wi_child : forall a b k c, a ∈ todo -> h !! a = Some b -> children b !! k = Some c -> c ∈ todo /\ c ∉ stack /\ a < c;
  wi_parent : forall a a' b b' k k' c, h !! a = Some b -> h !! a' = Some b' ->
    children b !! k = Some c -> children b' !! k' = Some c -> a = a' /\ k = k';
}.

Lemma walk_visit w h todo a b stack :
  walk_inv h todo (a :: stack) -> h !! a = Some b ->
  walk_inv (remove_visit w h a).1 (todo ∖ {[a]}) ((map_to_list (children b)).*2 ++ stack).
Proof.
  intros [Hnd Hst Hh Hc Hp] Hb. destruct (visit_shrinks w _ _ _ Hb) as [_ Hsh].
  assert (a ∈ todo) as Ha by (apply Hst; by left).
  assert (forall c, c ∈ (map_to_list (children b)).*2 -> exists k, children b !! k = Some c) as Hcs.
  { intros c (kc & -> & Hin)%list_elem_of_fmap. exists kc.1. by apply elem_of_map_to_list; destruct kc. }
  apply NoDup_cons in Hnd as [Hna Hnd]. split.
  - apply NoDup_app. split_and!; [| | done].
    + apply NoDup_fmap_2_strong; [| apply NoDup_map_to_list]. intros [k c] [k' c'] Hk%elem_of_map_to_list Hk'%elem_of_map_to_list E.
      cbn in E. subst c'. f_equal. by apply (Hp a a b b k k' c).
    + intros c [k Hk]%Hcs Hin. destruct (Hc _ _ _ _ Ha Hb Hk) as (_ & Hns & _). set_solver.
  - intros c [[k Hk]%Hcs | Hin]%elem_of_app.
    + destruct (Hc _ _ _ _ Ha Hb Hk) as (? & _ & ?). apply elem_of_difference. split; [done |]. rewrite elem_of_singleton. lia.
    + apply elem_of_difference. split; [apply Hst; by right |]. rewrite elem_of_singleton. by intros ->.
  - intros x [Hx _]%elem_of_difference. unfold remove_visit. rewrite Hb. cbn. destruct (decide (x = a)) as [-> |].
    + rewrite lookup_insert_eq. eauto.
    + rewrite lookup_insert_ne by done. by apply Hh.
  - intros x bx k c [Hx Hxa]%elem_of_difference Hbx Hk. destruct (Hsh _ _ Hbx) as (b0 & Hb0 & Hsub & _).
    pose proof (lookup_weaken _ _ _ _ Hk Hsub) as Hk0. destruct (Hc _ _ _ _ Hx Hb0 Hk0) as (Hct & Hcn & Hlt).
    split_and!; [| | done].
    + apply elem_of_difference. split; [done |]. rewrite elem_of_singleton. intros ->. apply Hcn. by left.
    + intros [[k' Hk']%Hcs | Hin]%elem_of_app; [| apply Hcn; by right].
      destruct (Hp _ _ _ _ _ _ _ Hb0 Hb Hk0 Hk') as [-> _]. set_solver.
  - intros x x' bx bx' k k' c Hx Hx' Hk Hk'. destruct (Hsh _ _ Hx) as (b0 & Hb0 & Hs0 & _), (Hsh _ _ Hx') as (b1 & Hb1 & Hs1 & _).
    apply (Hp x x' b0 b1 k k' c); try done; by eapply lookup_weaken.
Qed.

(** The walk visits every node at most once: its fuel is enough. *)
Lemma remove_walk_done w fuel : forall h todo stack,
  walk_inv h todo stack -> (size todo <= fuel)%nat ->
  shrinks h (remove_walk fuel w h stack).1 /\ (remove_walk fuel w h stack).2 = [].
Proof.
  induction fuel as [| fuel IH]; intros h todo stack Hi Hle; destruct stack as [| a stack]; try done.
  - exfalso. assert (a ∈ todo) as Ha by (apply (wi_stack _ _ _ Hi); by left).
    assert (size todo <> 0%nat); [| lia]. intros E%size_empty_inv. set_solver.
  - cbn [remove_walk]. destruct (wi_heap _ _ _ Hi a) as [b Hb]; [apply (wi_stack _ _ _ Hi); by left |].
    pose proof (walk_visit w _ _ _ _ _ Hi Hb) as Hi'. pose proof (visit_shrinks w _ _ _ Hb) as Hs.
    assert ((remove_visit w h a).2 = (map_to_list (children b)).*2) as E2 by (unfold remove_visit; by rewrite Hb).
    destruct (remove_visit w h a) as [h' cs]. cbn [fst snd] in *. subst cs.
    destruct (IH _ _ _ Hi') as [Hs' Hend].
    + assert (a ∈ todo) as Ha by (apply (wi_stack _ _ _ Hi); by left).
      rewrite size_difference by set_solver. rewrite size_singleton. lia.
    + split; [by etransitivity | done].
Qed.

Lemma map_subseteq_empty (m : gmap Z Z) : m ⊆ ∅ -> m = ∅.
Proof.
  intros Hsub. apply map_eq. intros k. destruct (m !! k) eqn:Ek; [| done].
  pose proof (lookup_weaken _ _ _ _ Ek Hsub) as E0. by rewrite lookup_empty in E0.
Qed.

Lemma shrinks_ok ix h : ix_ok ix -> shrinks (heap ix) h -> ix_ok (set_heap ix h).
Proof.
  intros [Hc Hp Hn Hr Ho Hl] [Hd Hs].
  assert (forall a, is_Some (h !! a) <-> is_Some (heap ix !! a)) as Hsome by (intros a; by rewrite <- !elem_of_dom, Hd).
  split; cbn.
  - intros a b k c Ha Hk. destruct (Hs _ _ Ha) as (b0 & Hb0 & Hsub & _).
    destruct (Hc _ _ _ _ Hb0 (lookup_weaken _ _ _ _ Hk Hsub)). by rewrite Hsome.
  - intros a a' b b' k k' c Ha Ha' Hk Hk'. destruct (Hs _ _ Ha) as (b0 & Hb0 & Hs0 & _), (Hs _ _ Ha') as (b1 & Hb1 & Hs1 & _).
    apply (Hp a a' b0 b1 k k' c); try done; by eapply lookup_weaken.
  - intros a Ha%Hsome. by apply Hn.
  - intros m r Hm. destruct (Hr _ _ Hm) as (b & Hb & Hw). destruct (proj2 (Hsome r) ltac:(eauto)) as [b' Hb'].
    destruct (Hs _ _ Hb') as (b0 & Hb0 & _ & Hw0). exists b'. split; [done |]. simplify_eq. auto.
  - intros m r a b k Hm Ha Hk. destruct (Hs _ _ Ha) as (b0 & Hb0 & Hsub & _).
    by apply (Ho _ _ _ _ k Hm Hb0), (lookup_weaken _ _ _ _ Hk Hsub).
  - intros k a Hk%Hl. by apply Hsome.
Qed.

Lemma root_walk w ix h m r :
  ix_ok ix -> shrinks (heap ix) h -> tries ix !! m = Some r ->
  shrinks h (remove_walk (size h) w h [r]).1 /\ (remove_walk (size h) w h [r]).2 = []
  /\ children (default default_block ((remove_walk (size h) w h [r]).1 !! r)) = ∅.
Proof.
  intros Hok Hs Hm. pose proof (shrinks_ok _ _ Hok Hs) as Hok'. destruct (ok_root _ Hok' m r Hm) as (b & Hb & Hw). cbn in Hb.
  assert (walk_inv h (dom h) [r]) as Hi.
  { split.
    - apply NoDup_singleton.
    - intros a ->%list_elem_of_singleton. by apply elem_of_dom_2 in Hb.
    - intros a. by apply elem_of_dom.
    - intros a ba k c _ Ha Hk. destruct (ok_child _ Hok' a ba k c Ha Hk) as [Hlt Hsc]. split_and!; [by apply elem_of_dom | | done].
      intros ->%list_elem_of_singleton. by apply (ok_orphan _ Hok' m r a ba k Hm Ha).
    - intros a a' b0 b1 k k' c Ha Ha' Hk Hk'. by apply (ok_parent _ Hok' a a' b0 b1 k k' c). }
  destruct (remove_walk_done w (size h) h (dom h) [r] Hi) as [Hs2 Hend]; [by rewrite size_dom |]. split_and!; [done.. |].
  assert (size h <> 0%nat) as Hne by (intros ->%map_size_empty_inv; by rewrite lookup_empty in Hb).
  destruct (size h) as [| fuel] eqn:Esz; [done |]. cbn [remove_walk] in *.
  pose proof (walk_visit w _ _ _ _ _ Hi Hb) as Hi'. unfold remove_visit in *. rewrite Hb in *. cbn [default] in *.
  change (default default_block (Some b)) with b in *. cbn [fst] in Hi'.
  destruct (remove_walk_done w fuel _ _ _ Hi') as [[_ Hs3] _].
  { rewrite size_difference, size_singleton, size_dom, Esz by (apply singleton_subseteq_l; by apply elem_of_dom_2 in Hb). lia. }
  set (h3 := (remove_walk fuel w _ _).1) in *. destruct (h3 !! r) as [b3 |] eqn:E3; [| done]. cbn.
  destruct (Hs3 _ _ E3) as (b0 & Hb0 & Hsub & _). rewrite lookup_insert_eq in Hb0. simplify_eq.
  unfold evict_node in Hsub. cbn in Hsub. rewrite Hw, delete_empty, decide_True in Hsub by done.
  by apply map_subseteq_empty.
Qed.

Lemma remove_roots w ix l : forall h,
  ix_ok ix -> shrinks (heap ix) h -> (forall r, r ∈ l -> exists m, tries ix !! m = Some r) ->
  let h' := foldl (fun h root => (remove_walk (size h) w h [root]).1) h l in
  shrinks h h' /\ forall r, r ∈ l -> children (default default_block (h' !! r)) = ∅.
Proof.
  induction l as [| r l IH]; intros h Hok Hs Hl; cbn [foldl]; [split; [reflexivity | set_solver] |].
  destruct (Hl r) as [m Hm]; [by left |]. destruct (root_walk w ix h m r Hok Hs Hm) as (Hs1 & _ & Hc1).
  destruct (IH (remove_walk (size h) w h [r]).1 Hok) as [Hs2 Hc2]; [by etransitivity | intros; apply Hl; by right |].
  split; [by etransitivity |]. intros x [-> | Hx]%elem_of_cons; [| by apply Hc2].
  destruct Hs2 as [_ Hs2]. set (h' := foldl _ _ l) in *. destruct (h' !! r) as [b' |] eqn:E; [| done].
  destruct (Hs2 _ _ E) as (b0 & Hb0 & Hsub & _). rewrite Hb0 in Hc1. cbn in *. rewrite Hc1 in Hsub.
  by apply map_subseteq_empty.
Qed.

Lemma remove_worker_spec ix w :
  ix_ok ix ->
  ix_ok (remove_worker ix w) /\ tries (remove_worker ix w) = tries ix
  /\ forall m r, tries ix !! m = Some r -> children (default default_block (heap (remove_worker ix w) !! r)) = ∅.
Proof.
  intros Hok. destruct (remove_roots w ix (map_to_list (tries ix)).*2 (heap ix) Hok) as [Hs Hc].
  { reflexivity. }
  { intros r (mr & -> & Hin)%list_elem_of_fmap. exists mr.1. apply elem_of_map_to_list. by destruct mr. }
  split_and!; [| done |].
  - destruct (shrinks_ok _ _ Hok Hs) as [Hc' Hp Hn Hr Ho Hl]. split; try done. cbn in *.
    intros k a [Hk _]%map_lookup_filter_Some. by eapply Hl.
  - intros m r Hm. apply Hc. apply list_elem_of_fmap. exists (m, r). split; [done |]. by apply elem_of_map_to_list.
Qed.

(** ** Reachable indexes *)

Inductive kv_step : TokenPrefixIndex -> TokenPrefixIndex -> Prop :=
| ks_event now ix e : kv_step ix (apply_event now ix e)
| ks_record now ix model w bytes tier : kv_step ix (record_request_prefix now ix model w bytes tier)
| ks_prune now ttl ix : kv_step ix (prune_expired now ttl ix)
| ks_remove ix w : kv_step ix (remove_worker ix w).

Lemma new_index_ok bs cw lw n : ix_ok (new_index bs cw lw n).
Proof. split; cbn; try done. intros a []. done. Qed.

Lemma step_ok ix ix' : kv_step ix ix' -> ix_ok ix -> ix_ok ix'.
Proof.
  intros [now ix0 e | now ix0 m w bytes tier | now ttl ix0 | ix0 w] Hok.
  - destruct e; cbn [apply_event]; [by apply apply_store_ok | by apply remove_worker_spec | by apply apply_evict_ok | by apply apply_store_batch_ok].
  - unfold record_request_prefix. destruct (_ || _); [done |]. by apply apply_store_batch_ok.
  - by apply prune_ok.
  - by apply remove_worker_spec.
Qed.

Lemma reachable_ok bs cw lw n ix : reachable kv_step (new_index bs cw lw n) ix -> ix_ok ix.
Proof. apply (reachable_invariant kv_step ix_ok); [apply new_index_ok |]. intros s s' Hok Hst. by eapply step_ok. Qed.

(** ** Capacity *)

Section capacity.
Context `{!LruLaws L}.

Definition bounded (ix : TokenPrefixIndex) : Prop :=
  Z.of_nat (length (lru_iter (lru_queue ix))) <= lru_cap (lru_queue ix) /\ 0 < lru_cap (lru_queue ix).

(** The recorded blocks are cached, or about to be evicted. *)
Definition cached (ix : TokenPrefixIndex) (extra : list BlockKey) : Prop :=
  forall k, is_Some (block_lookup ix !! k) -> k.2 <> 0 -> k ∈ lru_iter (lru_queue ix) \/ k ∈ extra.

Lemma touch_spec now ix k ix' e :
  bounded ix -> touch now ix k = (ix', e) ->
  bounded ix' /\ block_lookup ix' = block_lookup ix /\ lru_cap (lru_queue ix') = lru_cap (lru_queue ix)
  /\ k ∈ lru_iter (lru_queue ix')
  /\ (forall k', k' ∈ lru_iter (lru_queue ix) -> k' ∈ lru_iter (lru_queue ix') \/ e = Some k')
  /\ (Z.of_nat (length (lru_iter (lru_queue ix))) < lru_cap (lru_queue ix) ->
      e = None /\ Z.of_nat (length (lru_iter (lru_queue ix'))) <= Z.of_nat (length (lru_iter (lru_queue ix))) + 1).
Proof.
  unfold bounded, touch. cbn. set (l := lru_queue ix). intros [Hb Hpos].
  pose proof (lru_get_iter l k) as Hit. pose proof (lru_get_length l k) as Hlen. pose proof (lru_get_found l k) as Hfound.
  destruct (lru_cap_const l k) as [Hc1 _]. destruct (lru_get l k) as [l1 found]. cbn in *.
  destruct found.
  { intros; simplify_eq. cbn. rewrite Hlen, Hc1. split_and!; try done; [by apply Hit, Hfound | | intros; split; [done | lia]]. intros k' Hk'. left. by apply Hit. }
  assert (k ∉ lru_iter l1) as Hn by (intros Hin%Hit%Hfound; done).
  destruct (lru_cap_const l1 k) as (_ & Hc2 & _). pose proof (lru_push_room l1 k Hn) as Hroom. pose proof (lru_push_full l1 k Hn) as Hfull.
  destruct (lru_push l1 k) as [l2 e2]. cbn in *. intros; simplify_eq. cbn. rewrite Hlen, Hc1 in *. rewrite Hc2.
  destruct (decide (Z.of_nat (length (lru_iter l)) < lru_cap l)) as [Hlt | Hge].
  - destruct (Hroom Hlt) as [E2 ->]. rewrite E2. cbn [length]. rewrite Hlen. split_and!; [lia | done | done | done | by left | | intros; split; [done | lia]].
    intros k' Hk'. left. right. by apply Hit.
  - destruct Hfull as (kept & oldest & E1 & E2 & ->); [lia | lia |]. rewrite E2.
    pose proof (f_equal length E1) as El. rewrite Hlen, length_app in El. cbn in *. split_and!; [lia | done | done | done | by left | | lia].
    intros k' Hk'%Hit. rewrite E1 in Hk'. apply elem_of_app in Hk' as [? | ->%list_elem_of_singleton]; [left; by right | by right].
Qed.

Lemma touch_walk_spec now model w blocks : forall ix evicted,
  bounded ix -> let r := foldl (touch_step now model w) (ix, evicted) blocks in
  bounded r.1 /\ lru_cap (lru_queue r.1) = lru_cap (lru_queue ix)
  /\ (forall extra, cached ix (evicted ++ (block_key model w <$> blocks) ++ extra) -> cached r.1 (r.2 ++ extra))
  /\ (Z.of_nat (length (lru_iter (lru_queue ix)) + length blocks) <= lru_cap (lru_queue ix) -> r.2 = evicted).
Proof.
  induction blocks as [| b blocks IH]; intros ix evicted Hb; cbn [foldl].
  { split_and!; try done. }
  unfold touch_step at 2 4 6 8 10. fold (block_key model w b). destruct (touch now ix (block_key model w b)) as [ix1 e] eqn:Et.
  destruct (touch_spec _ _ _ _ _ Hb Et) as (Hb1 & Hl1 & Hc1 & Hk1 & Hk & Hroom).
  destruct (IH ix1 (match e with Some k => evicted ++ [k] | None => evicted end) Hb1) as (Hb2 & Hc2 & Hcc & Hno).
  split_and!; [done | congruence | |].
  - intros extra Hca. apply Hcc. intros k Hlk Hnz. rewrite Hl1 in Hlk. specialize (Hca k Hlk Hnz). cbn in Hca.
    destruct (decide (k ∈ lru_iter (lru_queue ix1))) as [| Hn]; [by left | right].
    destruct Hca as [Hin | Hin]; [destruct (Hk _ Hin) as [? | ->]; [done | set_solver] |].
    destruct e; set_solver.
  - intros Hle. cbn in Hle. destruct Hroom as [-> Hlen]; [lia |]. apply Hno. lia.
Qed.

Lemma evict_single_lookup ix k : block_lookup (evict_single_block ix k) = delete k (block_lookup ix) /\ lru_queue (evict_single_block ix k) = lru_queue ix.
Proof. unfold evict_single_block. destruct (block_lookup ix !! k) eqn:E; cbn; [done |]. by rewrite delete_id. Qed.

Lemma lru_evict_cached ix k extra : bounded ix -> cached ix (k :: extra) -> bounded (lru_evict_block ix k) /\ cached (lru_evict_block ix k) extra.
Proof.
  intros [Hb Hpos] Hc. unfold lru_evict_block. destruct (Z.eqb_spec k.2 0) as [Ek |].
  { split; [done |]. intros k' Hl Hnz. destruct (Hc k' Hl Hnz) as [? | [-> | ?]%elem_of_cons]; [by left | done | by right]. }
  destruct (evict_single_lookup ix k) as [El Eq]. unfold bounded, cached. cbn. rewrite El, Eq.
  destruct (lru_cap_const (lru_queue ix) k) as (_ & _ & ->). split.
  - pose proof (lru_pop_length (lru_queue ix) k). lia.
  - intros k' [x [Hne Hl]%lookup_delete_Some] Hnz. rewrite lru_pop_iter.
    destruct (Hc k' ltac:(eauto) Hnz) as [? | [-> | ?]%elem_of_cons]; [left; by split | done | by right].
Qed.

Lemma lru_evicts_cached l : forall ix, bounded ix -> cached ix l -> bounded (foldl lru_evict_block ix l) /\ cached (foldl lru_evict_block ix l) [].
Proof.
  induction l as [| k l IH]; intros ix Hb Hc; cbn; [done |].
  destruct (lru_evict_cached ix k l Hb Hc) as [Hb1 Hc1]. by apply IH.
Qed.

(** Dropping a key from the table and from the queue alike. *)
Lemma pops_cached (l : list BlockKey) q :
  lru_cap (foldl lru_pop q l) = lru_cap q /\ (length (lru_iter (foldl lru_pop q l)) <= length (lru_iter q))%nat
  /\ forall k, k ∈ lru_iter (foldl lru_pop q l) <-> k ∉ l /\ k ∈ lru_iter q.
Proof.
  revert q. induction l as [| x l IH]; intros q; cbn; [set_solver |].
  destruct (IH (lru_pop q x)) as (E & Hl & Hin). destruct (lru_cap_const q x) as (_ & _ & E2). pose proof (lru_pop_length q x).
  split_and!; [congruence | lia |]. intros k. rewrite Hin, lru_pop_iter, not_elem_of_cons. naive_solver.
Qed.

Definition cap_inv (ix : TokenPrefixIndex) : Prop := ix_ok ix /\ bounded ix /\ cached ix [].

Lemma batch_cap now ix model w blocks : cap_inv ix -> cap_inv (apply_store_batch now ix model w blocks).
Proof.
  intros (Hok & Hb & Hc). split; [by apply apply_store_batch_ok |]. unfold apply_store_batch. destruct blocks as [| b blocks]; [done |].
  set (bs := b :: blocks). destruct (root_of ix model) as [ix1 r] eqn:E1.
  destruct (root_of_ok _ _ _ _ Hok E1) as (Hok1 & _ & [Hl1 Hq1 _ _ _] & Hr & _).
  destruct (foldl (batch_step model w) (ix1, r) bs) as [ix2 c] eqn:E2. destruct (ok_root _ Hok1 _ _ Hr) as (br & Hbr & _).
  destruct (batch_walk_ok _ _ _ _ _ _ _ Hok1 ltac:(eauto) E2) as (_ & _ & _ & Hq2 & _ & _ & Hlk & _).
  assert (bounded ix2) as Hb2 by (unfold bounded; by rewrite Hq2, Hq1).
  destruct (touch_walk_spec now model w bs ix2 [] Hb2) as (Hb3 & _ & Hcc & _).
  destruct (foldl (touch_step now model w) (ix2, []) bs) as [ix3 evicted]. cbn in Hb3, Hcc.
  apply lru_evicts_cached; [done |]. specialize (Hcc []). rewrite !app_nil_r in Hcc. apply Hcc.
  intros k [Hk | Hk]%Hlk Hnz; [left | by right]. rewrite Hl1 in Hk. rewrite Hq2, Hq1.
  by destruct (Hc k Hk Hnz) as [| []%elem_of_nil].
Qed.

Lemma store_cap now ix model w lh ph bytes tier : cap_inv ix -> cap_inv (apply_store now ix model w lh ph bytes tier).
Proof.
  intros (Hok & Hb & Hc). split; [by apply apply_store_ok |]. unfold apply_store. destruct bytes as [| x bytes]; [done |].
  set (bs := x :: bytes). destruct (root_of ix model) as [ix1 r] eqn:E1.
  destruct (root_of_ok _ _ _ _ Hok E1) as (Hok1 & _ & [Hl1 Hq1 _ _ _] & Hr & _).
  set (parent := match ph with Some _ => _ | None => _ end).
  assert (is_Some (heap ix1 !! parent)) as Hpar.
  { destruct (ok_root _ Hok1 _ _ Hr) as (br & Hbr & _). unfold parent. destruct ph as [ph |]; [| eauto].
    destruct (block_lookup ix1 !! (model, w, ph)) as [a |] eqn:El; [by eapply ok_lookup | eauto]. }
  destruct (child_of ix1 parent (hash_block_bytes bs)) as [ix2 c] eqn:E2.
  destruct (child_of_ok _ _ _ _ _ Hok1 Hpar E2) as (_ & _ & [Hl2 Hq2 _ _ _] & _).
  set (k := (model, w, effective_hash lh bs)). set (ix4 := set_lookup _ _).
  assert (lru_queue ix4 = lru_queue ix) as Hq4 by (cbn; congruence).
  assert (block_lookup ix4 = <[k := c]> (block_lookup ix)) as Hl4 by (cbn; congruence).
  assert (bounded ix4) as Hb4 by (unfold bounded; by rewrite Hq4).
  destruct (touch now ix4 k) as [ix5 e] eqn:Et. destruct (touch_spec _ _ _ _ _ Hb4 Et) as (Hb5 & Hl5 & _ & Hk5 & Hk & _).
  assert (cached ix5 (match e with Some k' => [k'] | None => [] end)) as Hc5.
  { intros k' Hlk Hnz. rewrite Hl5, Hl4 in Hlk. destruct (decide (k' = k)) as [-> |]; [by left |].
    rewrite lookup_insert_ne in Hlk by done. destruct (Hc k' Hlk Hnz) as [Hin | []%elem_of_nil].
    rewrite <- Hq4 in Hin. destruct (Hk _ Hin) as [? | ->]; [by left | right; by left]. }
  destruct e as [k' |]; [| done]. by apply lru_evict_cached.
Qed.

(** Evicting keys from the table and popping them from the queue. *)
Lemma evict_pop_cap ix ix1 l :
  cap_inv ix -> ix_ok ix1 -> lru_queue ix1 = lru_queue ix ->
  (forall k, is_Some (block_lookup ix1 !! k) -> is_Some (block_lookup ix !! k) /\ k ∉ l) ->
  cap_inv (set_lru ix1 (foldl lru_pop (lru_queue ix1) l)).
Proof.
  intros (_ & [Hb Hpos] & Hc) Hok1 Hq Hl. split; [by apply (same_trie_ok ix1) |]. unfold bounded, cached. cbn. rewrite Hq.
  destruct (pops_cached l (lru_queue ix)) as (E & Hlen & Hin). rewrite E. split; [lia |].
  intros k Hk Hnz. destruct (Hl k Hk) as [Hk0 Hnl]. left. apply Hin. split; [done |].
  by destruct (Hc k Hk0 Hnz) as [| []%elem_of_nil].
Qed.

Lemma evicts_lookup l : forall ix,
  lru_queue (foldl evict_single_block ix l) = lru_queue ix
  /\ forall k, is_Some (block_lookup (foldl evict_single_block ix l) !! k) -> is_Some (block_lookup ix !! k) /\ k ∉ l.
Proof.
  induction l as [| x l IH]; intros ix; cbn [foldl]; [split; [done | set_solver] |].
  destruct (IH (evict_single_block ix x)) as [Eq Hk]. destruct (evict_single_lookup ix x) as [El Eq1].
  split; [congruence |]. intros k Hs. destruct (Hk k Hs) as [[a Ha] Hn]. rewrite El in Ha.
  apply lookup_delete_Some in Ha as [Hne Ha]. split; [eauto |]. apply not_elem_of_cons. split; [congruence | done].
Qed.

Lemma evict_cap ix model w hashes : cap_inv ix -> cap_inv (apply_evict ix model w hashes).
Proof.
  intros Hi. unfold apply_evict. set (f := fun (ix : TokenPrefixIndex) h => _).
  set (keys := (fun h => (model, w, h)) <$> retain (fun h => negb (h =? 0)) hashes).
  assert (forall q, foldl (fun q h => if h =? 0 then q else lru_pop q (model, w, h)) q hashes = foldl lru_pop q keys) as ->.
  { subst keys. induction hashes as [| h hs IH]; intros q; [done |]. rewrite retain_cons. cbn. rewrite IH. by destruct (h =? 0). }
  apply (evict_pop_cap ix); [done | | |].
  - apply fold_ok; [| apply Hi]. intros ix0 h Hok0. unfold f. destruct (h =? 0); [done |].
    apply (same_trie_ok (evict_single_block ix0 (model, w, h))); [done |]. by apply evict_single_ok.
  - clear Hi keys. revert ix. induction hashes as [| h hs IH]; intros ix; [done |]. cbn [foldl]. rewrite IH. unfold f.
    destruct (h =? 0); [done |]. cbn. apply evict_single_lookup.
  - clear Hi. subst keys. revert ix. induction hashes as [| h hs IH]; intros ix k Hk; [split; [done | set_solver] |].
    cbn [foldl] in Hk. apply IH in Hk as [Hk Hn]. rewrite retain_cons. unfold f in Hk.
    destruct (Z.eqb_spec h 0); [by split |]. cbn in *. destruct (evict_single_lookup ix (model, w, h)) as [El _].
    rewrite El in Hk. destruct Hk as [a [Hne Ha]%lookup_delete_Some]. split; [eauto |].
    apply not_elem_of_cons. split; [congruence | done].
Qed.

Lemma prune_cap now ttl ix : cap_inv ix -> cap_inv (prune_expired now ttl ix).
Proof.
  intros Hi. unfold prune_expired. destruct (pop_expired now ttl (prune_timers ix)) as [p expired].
  destruct (evicts_lookup expired (set_timers ix p)) as [Eq Hk].
  apply (evict_pop_cap ix); [done | | exact Eq | exact Hk].
  apply fold_ok; [apply evict_single_ok |]. apply (same_trie_ok ix); [done | apply Hi].
Qed.

Lemma step_cap ix ix' : kv_step ix ix' -> cap_inv ix -> cap_inv ix'.
Proof.
  assert (forall ix w, cap_inv ix -> cap_inv (remove_worker ix w)) as Hrm.
  { intros ix0 w (Hok & [Hb Hpos] & Hc). split; [by apply remove_worker_spec |].
    unfold remove_worker, bounded, cached. cbn.
    destruct (pops_cached (retain (fun k : BlockKey => bool_decide (k.1.2 = w)) (lru_iter (lru_queue ix0))) (lru_queue ix0)) as (E & Hl & Hin).
    rewrite E. split; [lia |]. intros k [a [Hk Hw]%map_lookup_filter_Some] Hnz. left. apply Hin. cbn in Hw. split.
    - rewrite elem_of_retain, bool_decide_eq_true. naive_solver.
    - by destruct (Hc k ltac:(eauto) Hnz) as [| []%elem_of_nil]. }
  intros [now ix0 e | now ix0 m w bytes tier | now ttl ix0 | ix0 w] Hi; [| | | by apply Hrm].
  - destruct e as [| | m w hs tier |]; cbn [apply_event]; [by apply store_cap | by apply Hrm | by apply evict_cap | by apply batch_cap].
  - unfold record_request_prefix. destruct (_ || _); [done |]. by apply batch_cap.
  - by apply prune_cap.
Qed.

Lemma new_index_cap bs cw lw n : 0 <= n -> cap_inv (new_index bs cw lw n).
Proof.
  intros Hn. split; [apply new_index_ok |]. unfold bounded, cached. cbn. rewrite lru_new_iter, lru_new_cap. cbn.
  split; [case_match; lia |]. by intros k [? ?].
Qed.

End capacity.

(** ** What a query returns *)

Lemma find_matches_spec ix model bytes cands :
  0 < index_block_size ix ->
  exists rs, find_matches ix model bytes cands = Some rs
    /\ (forall r, r ∈ rs -> r = match_result (index_cache_weight ix) (Z.of_nat (block_total (index_block_size ix) bytes)) (worker_id r) (match_depth r))
    /\ forall w d, (exists r, r ∈ rs /\ worker_id r = w /\ match_depth r = d) <->
       w ∈ cands /\ 0 < d /\ exists root, tries ix !! model = Some root
         /\ prefix_run (heap ix) root w (request_hashes (index_block_size ix) bytes) = d.
Proof.
  intros Hbs. unfold find_matches. set (bs := index_block_size ix) in *.
  assert (length (request_hashes bs bytes) = block_total bs bytes) as Hlen by (unfold request_hashes; by rewrite length_fmap, length_seq).
  destruct (bool_decide (bytes = []) || bool_decide (cands = [])) eqn:Eb.
  { exists []. split_and!; [done | set_solver |]. intros w d. split; [intros (? & []%elem_of_nil & _) |]. intros (Hw & Hd & root & _ & Hr).
    apply orb_true_iff in Eb as [->%bool_decide_eq_true | ->%bool_decide_eq_true]; [| set_solver].
    assert (request_hashes bs [] = []) as E by (unfold request_hashes, block_total; cbn; by rewrite Z.div_0_l by lia).
    rewrite E in Hr. cbn in Hr. lia. }
  destruct (Z.eqb_spec bs 0); [lia |]. rewrite Hlen. destruct (request_hashes bs bytes) as [| h hs] eqn:Eh.
  { exists []. split_and!; [done | set_solver |]. intros w d. split; [intros (? & []%elem_of_nil & _) |]. intros (_ & Hd & root & _ & Hr). cbn in Hr. lia. }
  rewrite <- Eh. destruct (tries ix !! model) as [root |].
  2: { exists []. split_and!; [done | set_solver |]. intros w d. split; [intros (? & []%elem_of_nil & _) |]. by intros (_ & _ & ? & ? & _). }
  set (depths := match_walk _ _ _ _ _ _). eexists. split; [done |].
  assert (forall w d, depths !! w = Some d <-> w ∈ cands /\ 0 < d /\ prefix_run (heap ix) root w (request_hashes bs bytes) = d) as Hd.
  { intros w d. unfold depths. rewrite match_walk_spec, Z.add_0_l.
    case_decide as E; rewrite elem_of_list_to_set in E; [naive_solver |].
    rewrite lookup_empty. split; [done |]. intros (? & ? & <-). naive_solver. }
  set (rs := omap _ _). assert (forall r, r ∈ rs <-> exists w d, depths !! w = Some d /\ r = match_result (index_cache_weight ix) (Z.of_nat (block_total bs bytes)) w d) as Hrs.
  { intros r. unfold rs. rewrite list_elem_of_omap. split.
    - intros ([w d] & Hin%elem_of_map_to_list & E). cbn in E. destruct (d =? 0); simplify_eq. eauto.
    - intros (w & d & Hl & ->). exists (w, d). split; [by apply elem_of_map_to_list |]. cbn. apply Hd in Hl as (_ & Hpos & _).
      destruct (Z.eqb_spec d 0); [lia | done]. }
  assert (forall r, r ∈ merge_sort score_le rs <-> r ∈ rs) as Hms.
  { intros r. pose proof (merge_sort_Permutation score_le rs) as Hp. by rewrite Hp. }
  split.
  - intros r. rewrite Hms, Hrs. by intros (w & d & _ & ->).
  - intros w d. split.
    + intros (r & Hin & <- & <-). rewrite Hms, Hrs in Hin. destruct Hin as (w & d & Hl & ->). cbn.
      apply Hd in Hl as (? & ? & ?). eauto 6.
    + intros (Hw & Hpos & root' & E & Hr). injection E as <-.
      exists (match_result (index_cache_weight ix) (Z.of_nat (block_total bs bytes)) w d). split; [| by split].
      apply Hms, Hrs. exists w, d. split; [by apply Hd | done].
Qed.

End index.
#[global] Arguments TokenPrefixIndex : clear implicits.

(** ** A list-based LRU cache *)

Record ListLru := mkListLru { ll_cap : Z; ll_keys : list BlockKey }.

#[export] Instance list_lru : LruCache ListLru := {
  lru_new c := mkListLru c [];
  lru_get l k :=
    match list_find (fun k' => k' = k) (ll_keys l) with
    | Some (i, _) => (mkListLru (ll_cap l) (k :: delete i (ll_keys l)), true)
    | None => (l, false)
    end;
  lru_push l k :=
    if Z.of_nat (length (ll_keys l)) <? ll_cap l then (mkListLru (ll_cap l) (k :: ll_keys l), None)
    else (mkListLru (ll_cap l) (k :: removelast (ll_keys l)), last (ll_keys l));
  lru_pop l k := mkListLru (ll_cap l) (retain (fun k' => negb (bool_decide (k' = k))) (ll_keys l));
  lru_iter := ll_keys;
  lru_cap := ll_cap;
}.

Section properties.
Context {L : Type} `{!LruCache L} `{!LruLaws L}.
Context (hash : list Z -> Z).

(** C20: one walk reads the trie exactly.  A worker is reported for a request, with
    depth [d], iff it is a candidate and [d > 0] is the number of leading blocks of
    the request that were recorded under it along the model's trie. *)
Theorem find_matches_exact (ix : TokenPrefixIndex L) model bytes cands w d :
  0 < index_block_size ix ->
  (exists rs r, find_matches hash ix model bytes cands = Some rs /\ r ∈ rs /\ worker_id r = w /\ match_depth r = d) <->
  w ∈ cands /\ 0 < d /\ exists root, tries ix !! model = Some root
    /\ prefix_run (heap ix) root w (request_hashes hash (index_block_size ix) bytes) = d.
Proof.
  intros Hbs. destruct (find_matches_spec hash ix model bytes cands Hbs) as (rs & E & _ & Hrs). rewrite <- Hrs, E. naive_solver.
Qed.

(** Affinity is learned.  After the prefix of a routed request is recorded under
    a worker, in a cache with room for its blocks, a request with the same prefix
    matches that worker on every block. *)
Theorem recorded_prefix_matches bs cw lw n (ix : TokenPrefixIndex L) now model w bytes tier cands :
  reachable (kv_step hash) (new_index bs cw lw n) ix -> 0 < index_block_size ix ->
  let total := block_total (index_block_size ix) bytes in
  w ∈ cands -> (0 < total)%nat ->
  Z.of_nat (length (lru_iter (lru_queue ix)) + total) <= block_capacity ix -> 0 <= n ->
  exists rs, find_matches hash (record_request_prefix hash now ix model w bytes tier) model bytes cands = Some rs
    /\ match_result (index_cache_weight ix) (Z.of_nat total) w (Z.of_nat total) ∈ rs.
Proof.
  intros Hreach Hbs total Hw Htot Hroom Hn. pose proof (reachable_ok hash _ _ _ _ _ Hreach) as Hok.
  assert (cap_inv ix) as (_ & Hb & _).
  { revert Hreach. apply (reachable_invariant (kv_step hash) cap_inv); [by apply new_index_cap |]. intros s s' Hc Hst. by eapply step_cap. }
  set (ix' := record_request_prefix hash now ix model w bytes tier).
  assert (index_block_size ix' = index_block_size ix /\ index_cache_weight ix' = index_cache_weight ix /\
    exists root, tries ix' !! model = Some root /\
      prefix_run (heap ix') root w (request_hashes hash (index_block_size ix) bytes) = Z.of_nat total) as (Es & Ew & root & Er & Hrun).
  { unfold ix', record_request_prefix. destruct (Z.eqb_spec (index_block_size ix) 0); [lia |].
    rewrite bool_decide_eq_false_2 by (intros ->; unfold total, block_total in Htot; cbn in Htot; rewrite Z.div_0_l in Htot by lia; lia). cbn [orb].
    set (blocks := prefix_blocks hash (index_block_size ix) bytes tier).
    assert (length blocks = total) as Hlen by (unfold blocks, prefix_blocks; by rewrite length_fmap, length_seq).
    assert ((fun b => hash (bb_bytes b)) <$> blocks = request_hashes hash (index_block_size ix) bytes) as Hh.
    { unfold blocks, prefix_blocks, request_hashes. by rewrite <- list_fmap_compose. }
    unfold apply_store_batch. destruct blocks as [| b0 blocks0] eqn:Eb; [cbn in Hlen; lia |]. rewrite <- Eb in *.
    destruct (root_of ix model) as [ix1 r] eqn:E1. destruct (root_of_ok _ _ _ _ Hok E1) as (Hok1 & _ & [_ Hq1 _ Hs1 Hw1] & Hr & _).
    destruct (ok_root _ Hok1 _ _ Hr) as (br & Hbr & _).
    destruct (foldl (batch_step hash model w) (ix1, r) blocks) as [ix2 c] eqn:E2.
    destruct (batch_walk_ok _ _ _ _ _ _ _ _ Hok1 ltac:(eauto) E2) as (_ & _ & Ht2 & Hq2 & Hs2 & Hw2 & _ & Hrun).
    pose proof (touch_walk_trie hash now model w blocks ix2 []) as [Th _ Tt _ Ts Tw].
    assert (bounded ix2) as Hb2 by (unfold bounded; by rewrite Hq2, Hq1).
    destruct (touch_walk_spec hash now model w blocks ix2 [] Hb2) as (_ & _ & _ & Hno).
    rewrite Hlen, Hq2, Hq1 in Hno. specialize (Hno Hroom).
    destruct (foldl (touch_step hash now model w) (ix2, []) blocks) as [ix3 evicted]. cbn in *. subst evicted. cbn [foldl].
    split_and!; [congruence | congruence |]. exists r. rewrite Tt, Ht2, Th. split; [done |]. rewrite Hh in Hrun. by rewrite Hrun, Hlen. }
  destruct (find_matches_spec hash ix' model bytes cands) as (rs & Ef & Hform & Hiff); [lia |]. exists rs. split; [done |].
  destruct (proj2 (Hiff w (Z.of_nat total))) as (r & Hin & E1 & E2).
  - split_and!; [done | lia |]. exists root. rewrite Es. done.
  - specialize (Hform r Hin). rewrite Es, Ew, E1, E2 in Hform. fold total in Hform. by rewrite <- Hform.
Qed.

Lemma size_list_to_set_le (l : list BlockKey) : (size (list_to_set l : gset BlockKey) <= length l)%nat.
Proof.
  induction l as [| x l IH]; [done |]. cbn [list_to_set length].
  destruct (decide (x ∈ (list_to_set l : gset BlockKey))) as [Hin | Hn].
  - replace ({[x]} ∪ list_to_set l) with (list_to_set l : gset BlockKey) by set_solver. lia.
  - rewrite size_union, size_singleton by set_solver. lia.
Qed.

(** The index stays within its capacity.  In every reachable state the recorded
    blocks (those whose hash is not zero) number at most the capacity of the LRU
    queue. *)
Theorem kv_capacity bs cw lw n (ix : TokenPrefixIndex L) :
  reachable (kv_step hash) (new_index bs cw lw n) ix -> 0 <= n ->
  Z.of_nat (size (base.filter (fun kv : BlockKey * Z => kv.1.2 <> 0) (block_lookup ix))) <= block_capacity ix.
Proof.
  intros Hreach Hn. assert (cap_inv ix) as (_ & [Hb _] & Hc).
  { revert Hreach. apply (reachable_invariant (kv_step hash) cap_inv); [by apply new_index_cap |]. intros s s' Hc Hst. by eapply step_cap. }
  etransitivity; [| exact Hb]. rewrite <- size_dom. apply inj_le.
  transitivity (size (list_to_set (lru_iter (lru_queue ix)) : gset BlockKey)); [| apply size_list_to_set_le].
  apply subseteq_size. intros k [a [Hk Hnz]%map_lookup_filter_Some]%elem_of_dom. apply elem_of_list_to_set.
  by destruct (Hc k ltac:(eauto) Hnz) as [| []%elem_of_nil].
Qed.

(** Removing one worker empties the whole index.  The roots of the tries carry
    no worker, so the walk clears their children first: afterwards no request
    matches any worker of any model, while the blocks of the other workers stay in
    the reverse lookup.  The walk itself visits every node once and finishes. *)
Theorem remove_worker_wipes bs cw lw n (ix : TokenPrefixIndex L) w :
  reachable (kv_step hash) (new_index bs cw lw n) ix -> 0 < index_block_size ix ->
  (forall model bytes cands, find_matches hash (remove_worker ix w) model bytes cands = Some [])
  /\ (forall k a, k.1.2 <> w -> block_lookup ix !! k = Some a -> block_lookup (remove_worker ix w) !! k = Some a)
  /\ (forall model root, tries ix !! model = Some root -> (remove_walk (size (heap ix)) w (heap ix) [root]).2 = []).
Proof.
  intros Hreach Hbs. pose proof (reachable_ok hash _ _ _ _ _ Hreach) as Hok.
  destruct (remove_worker_spec hash ix w Hok) as (_ & Et & Hch). split_and!.
  - intros model bytes cands. destruct (find_matches_spec hash (remove_worker ix w) model bytes cands Hbs) as (rs & -> & _ & Hrs).
    destruct rs as [| r rs]; [done |]. exfalso. destruct (proj1 (Hrs (worker_id r) (match_depth r))) as (_ & Hd & root & Hr & Hrun).
    { exists r. split; [by left | done]. }
    rewrite Et in Hr. specialize (Hch _ _ Hr). destruct (request_hashes _ _ _) as [| h hs]; cbn [prefix_run] in Hrun; [lia |].
    rewrite Hch, lookup_empty in Hrun. lia.
  - intros k a Hkw Hk. cbn. by apply map_lookup_filter_Some.
  - intros model root Hr. by destruct (root_walk hash w ix (heap ix) model root Hok ltac:(reflexivity) Hr) as (_ & ? & _).
Qed.

End properties.

(** ** Concrete runs *)

#[export] Instance list_lru_laws : LruLaws ListLru.
Proof.
  split; cbn.
  - done.
  - done.
  - intros l k. destruct (list_find _ (ll_keys l)) as [[i x] |] eqn:E; cbn; split; intros Hx; try done.
    + apply list_find_Some in E as (E & -> & _). by eapply list_elem_of_lookup_2.
    + exfalso. apply list_find_None in E. rewrite Forall_forall in E. by eapply E.
  - intros l k k'. destruct (list_find _ (ll_keys l)) as [[i x] |] eqn:E; cbn; [| done].
    apply list_find_Some in E as (E & -> & _). by apply elem_of_Permutation_proper; symmetry; apply delete_Permutation.
  - intros l k. destruct (list_find _ (ll_keys l)) as [[i x] |] eqn:E; cbn; [| done].
    apply list_find_Some in E as (E & -> & _). pose proof (length_delete (ll_keys l) i ltac:(eauto)). apply lookup_lt_Some in E. lia.
  - intros l k _ Hlt. destruct (Z.ltb_spec (Z.of_nat (length (ll_keys l))) (ll_cap l)); [done | lia].
  - intros l k _ Hge Hpos. destruct (Z.ltb_spec (Z.of_nat (length (ll_keys l))) (ll_cap l)); [lia |].
    destruct (ll_keys l) as [| x xs] using rev_ind; [cbn in *; lia |]. exists xs, x. cbn.
    by rewrite removelast_last, last_snoc.
  - intros l k k'. rewrite elem_of_retain, negb_true_iff, bool_decide_eq_false. done.
  - intros l k. apply length_filter.
  - intros l k. by repeat case_match.
Qed.

(** A hash for the runs: the sum of the bytes. *)
Definition sum_hash (bytes : list Z) : Z := foldl Z.add 0 bytes.

(** Blocks of two bytes, room for eight. *)
Definition demo_index : TokenPrefixIndex ListLru := new_index 2 (f64_lit 5 10) (f64_lit 2 10) 8.
Definition demo_recorded : TokenPrefixIndex ListLru :=
  record_request_prefix sum_hash 0 demo_index "m" "w0" [1; 2; 3; 4; 5; 6] Gpu.

Lemma demo_reachable : reachable (kv_step sum_hash) demo_index demo_recorded.
Proof. eapply rtc_l; [apply ks_record | apply rtc_refl]. Qed.

Lemma find_matches_exact_witness :
  exists rs r, find_matches sum_hash demo_recorded "m" [1; 2; 3; 4; 9; 9] ["w0"; "w1"] = Some rs
    /\ r ∈ rs /\ worker_id r = "w0" /\ match_depth r = 2.
Proof.
  apply (find_matches_exact sum_hash demo_recorded "m" [1; 2; 3; 4; 9; 9] ["w0"; "w1"] "w0" 2); [by vm_compute |].
  split_and!; [by left | done |]. eexists; split; vm_compute; reflexivity.
Defined.

Lemma recorded_prefix_matches_witness :
  exists rs, find_matches sum_hash (record_request_prefix sum_hash 1 demo_recorded "m" "w1" [1; 2; 7; 7] Gpu) "m" [1; 2; 7; 7] ["w1"] = Some rs
    /\ match_result (f64_lit 5 10) 2 "w1" 2 ∈ rs.
Proof.
  apply (recorded_prefix_matches sum_hash 2 (f64_lit 5 10) (f64_lit 2 10) 8 demo_recorded 1 "m" "w1" [1; 2; 7; 7] Gpu ["w1"]);
    [apply demo_reachable | by vm_compute | by left | vm_compute; lia | by vm_compute | done].
Defined.

Lemma kv_capacity_witness : block_capacity demo_recorded = 8 /\
  Z.of_nat (size (base.filter (fun kv : BlockKey * Z => kv.1.2 <> 0) (block_lookup demo_recorded))) <= block_capacity demo_recorded.
Proof.
  split; [reflexivity |]. apply (kv_capacity sum_hash 2 (f64_lit 5 10) (f64_lit 2 10) 8 demo_recorded); [apply demo_reachable | done].
Defined.

(** [w1] has a recorded prefix; removing [w0] loses it. *)
Lemma remove_worker_wipes_witness :
  let ix := record_request_prefix sum_hash 1 demo_recorded "m" "w1" [1; 2; 7; 7] Gpu in
  find_matches sum_hash (remove_worker ix "w0") "m" [1; 2; 7; 7] ["w1"] = Some [].
Proof.
  intros ix. apply (proj1 (remove_worker_wipes sum_hash 2 (f64_lit 5 10) (f64_lit 2 10) 8 ix "w0"
    ltac:(eapply rtc_r; [apply demo_reachable | apply ks_record]) ltac:(by vm_compute))).
Defined.

(** A repeated block escapes eviction.  The reverse lookup is keyed by the hash
    of a block's own bytes, so the second occurrence of a block in a prefix hides the
    first: after both are evicted by hash no block is recorded any more, yet the trie
    still matches the worker, and no eviction will ever remove it. *)
Theorem repeated_block_leaks :
  let ix := record_request_prefix sum_hash 0 demo_index "m" "w0" [1; 2; 1; 2] Gpu in
  let ix' := apply_event sum_hash 1 ix (EvictBlocks "m" "w0" [sum_hash [1; 2]] None) in
  block_count ix' = 0 /\ (exists r, find_matches sum_hash ix' "m" [1; 2; 1; 2] ["w0"] = Some [r] /\ match_depth r = 1).
Proof. split; [reflexivity |]. eexists. split; vm_compute; reflexivity. Qed.

End KvIndex.
