(* ===== verification/Policy.v ===== *)
(** * Policy: choosing a deployment (boom-routing)

    Models [boom-gateway/boom-routing/src/policy/]: the load helpers, the three
    scheduling policies (round robin, key affinity, KV-cache aware) and the
    [SchedulePolicy] trait, here a class that the router is proved against.  The load
    comes from the in-flight tracker ([InFlight]) and, through the class
    [DeploymentQueueInfo] of boom-core, from the admission queue ([FlowControl]); the
    prefix index comes through the class [KvIndexBackend] ([KvIndex]).  An operation
    that may panic returns [None] in its outer option. *)

From S2P Require Import Prelude FlowControl Core Text InFlight Float64 KvIndex Rebalance.

Module Policy.
Import Core InFlight KvIndex Rebalance.

(** ** Interfaces *)

Class DeploymentQueueInfo (Q : Type) := {
  total_load : Q -> string -> Z;
  max_capacity : Q -> string -> Z;
}.

#[export] Instance flow_queue_info : DeploymentQueueInfo FlowControl.FlowController := {
  total_load := FlowControl.total_load;
  max_capacity := FlowControl.max_capacity;
}.

Class KvIndexBackend (K : Type) := {
  kv_find_matches : K -> string -> list Z -> list string -> option (list KvMatchResult);
  kv_prefix_block_count : K -> list Z -> Z;
}.

(** The promise the KV-aware policy needs: a usable index answers (it does not
    panic), and its hit ratios are not negative. *)
Class KvIndexLaws (K : Type) `{KvIndexBackend K} := {
  kv_usable : K -> Prop;
  kv_answers : forall k model bytes ws, kv_usable k -> Z.of_nat (length bytes) < 2 ^ 53 ->
    exists rs, kv_find_matches k model bytes ws = Some rs /\ forall r, r ∈ rs -> f64_nonneg (hit_ratio r);
}.

(** What a policy reads besides its own state. *)
Record PolicyEnv (Q : Type) := mkPolicyEnv { env_tracker : InFlightTracker; queue_info : option Q }.
#[global] Arguments mkPolicyEnv {Q}.
#[global] Arguments env_tracker {Q}.
#[global] Arguments queue_info {Q}.

Record Selection := mkSelection {
  provider : Provider;
  kv_hit_ratio : f64;
  kv_hit_blocks : Z;
  kv_input_blocks : Z;
  kv_match_attempted : bool;
  degraded : bool;
}.

Definition plain_selection (p : Provider) : Selection := mkSelection p (f64_of 0) 0 0 false false.

Class SchedulePolicy (Q P : Type) := {
  select : PolicyEnv Q -> P -> string -> list Provider -> option string -> Z -> option (P * option Provider);
  select_with_context : PolicyEnv Q -> P -> string -> list Provider -> option string -> Z -> list Z
    -> option (P * option Selection);
  policy_name : P -> string;
}.

(** The default of [select_with_context]: [select], without KV context. *)
Definition default_with_context {P : Type} (r : option (P * option Provider)) : option (P * option Selection) :=
  match r with Some (s, p) => Some (s, (fun p => plain_selection p) <$> p) | None => None end.

(** ** Load *)

Section policies.
Context {Q : Type} `{DeploymentQueueInfo Q}.

Definition deployment_load (env : PolicyEnv Q) (model : string) (p : Provider) : Z :=
  match p_deployment_id p with
  | Some id =>
    let inflight := get_deployment_count (env_tracker env) model id in
    let queued := match queue_info env with Some q => total_load q id | None => 0 end in
    let raw_load := Z.max inflight queued in
    let capacity := match queue_info env with Some q => max_capacity q id | None => 0 end in
    if (0 <? capacity) && (0 <? raw_load) then (raw_load *u 100) `div` capacity else raw_load
  | None => 0
  end.

(** The loop of [min_load_candidate]; [None] is the out-of-range [candidates[0]]. *)
Definition min_load_step (env : PolicyEnv Q) (model : string) (acc : Z * Provider) (c : Provider) : Z * Provider :=
  let load := deployment_load env model c in if load <? acc.1 then (load, c) else acc.

Definition min_load_candidate (env : PolicyEnv Q) (model : string) (candidates : list Provider) : option (Z * Provider) :=
  match candidates with
  | [] => None
  | first :: _ => Some (foldl (min_load_step env model) (u64_max, first) candidates)
  end.

Definition select_lowest_load (env : PolicyEnv Q) (model : string) (candidates : list Provider) : option (option Provider) :=
  r ← min_load_candidate env model candidates; Some (Some r.2).

Definition should_rebalance (preferred_load min_load threshold : Z) : bool := min_load +u threshold <? preferred_load.

(** ** Round robin *)

Record RoundRobinPolicy := mkRoundRobin { counters : gmap string Z }.

Definition rr_select (s : RoundRobinPolicy) (model : string) (candidates : list Provider) : RoundRobinPolicy * option Provider :=
  match candidates with
  | [] => (s, None)
  | [p] => (s, Some p)
  | _ =>
    let idx := default 0 (counters s !! model) in
    (mkRoundRobin (<[model := idx +u 1]> (counters s)), candidates !! Z.to_nat (idx `mod` Z.of_nat (length candidates)))
  end.

#[export] Instance round_robin_policy : SchedulePolicy Q RoundRobinPolicy := {
  select env s model candidates _ _ := Some (rr_select s model candidates);
  select_with_context env s model candidates _ _ _ := default_with_context (Some (rr_select s model candidates));
  policy_name _ := "round_robin";
}.

(** ** Key affinity *)

(** The move counters are the policy's view of the shared [RebalanceMoveTracker]. *)
Record KeyAffinityPolicy := mkKeyAffinity {
  affinity : gmap string string;
  context_threshold : Z;
  rebalance_threshold : Z;
  rebalance_moves : option (gmap string MoveCounts);
}.

Definition set_affinity (s : KeyAffinityPolicy) (k : string) (id : option string) : KeyAffinityPolicy :=
  match id with
  | Some d => mkKeyAffinity (<[k := d]> (affinity s)) (context_threshold s) (rebalance_threshold s) (rebalance_moves s)
  | None => s
  end.

Definition count_move (moves : option (gmap string MoveCounts)) (from to : Provider) : option (gmap string MoveCounts) :=
  (fun m => record_move m (p_deployment_id from) (p_deployment_id to)) <$> moves.

Definition set_moves (s : KeyAffinityPolicy) (m : option (gmap string MoveCounts)) : KeyAffinityPolicy :=
  mkKeyAffinity (affinity s) (context_threshold s) (rebalance_threshold s) m.

Definition affinity_key (key_hash model : string) : string := key_hash +:+ ":" +:+ model.

Definition find_deployment (id : string) (candidates : list Provider) : option Provider :=
  snd <$> list_find (fun c => p_deployment_id c = Some id) candidates.

(** Lowest load, recorded as the affinity of the key. *)
Definition assign_lowest (env : PolicyEnv Q) (s : KeyAffinityPolicy) (model : string) (candidates : list Provider) (k : string)
  : option (KeyAffinityPolicy * option Provider) :=
  p ← select_lowest_load env model candidates;
  Some (match p with Some c => set_affinity s k (p_deployment_id c) | None => s end, p).

Definition ka_select (env : PolicyEnv Q) (s : KeyAffinityPolicy) (model : string) (candidates : list Provider)
    (key_hash : option string) : option (KeyAffinityPolicy * option Provider) :=
  match candidates with
  | [] => Some (s, None)
  | [p] => Some (s, Some p)
  | _ =>
    match key_hash with
    | None => p ← select_lowest_load env model candidates; Some (s, p)
    | Some kh =>
      let k := affinity_key kh model in
      if (0 <? context_threshold s) && (get_model_input_chars (env_tracker env) model <? context_threshold s)
      then assign_lowest env s model candidates k
      else
        match preferred_id ← affinity s !! k; find_deployment preferred_id candidates with
        | Some preferred =>
          lowest ← min_load_candidate env model candidates;
          let '(min_load, least_loaded) := lowest in
          if should_rebalance (deployment_load env model preferred) min_load (rebalance_threshold s)
          then Some (set_affinity (set_moves s (count_move (rebalance_moves s) preferred least_loaded)) k
                       (p_deployment_id least_loaded), Some least_loaded)
          else Some (s, Some preferred)
        | None => assign_lowest env s model candidates k
        end
    end
  end.

#[export] Instance key_affinity_policy : SchedulePolicy Q KeyAffinityPolicy := {
  select env s model candidates key_hash _ := ka_select env s model candidates key_hash;
  select_with_context env s model candidates key_hash _ _ := default_with_context (ka_select env s model candidates key_hash);
  policy_name _ := "key_affinity";
}.

(** ** KV-cache aware *)

Section kvc.
Context {K : Type} `{KvIndexBackend K}.

Record KvcAwarePolicy := mkKvcAware {
  kv_index : K;
  cache_weight : f64;
  load_weight : f64;
  overload_threshold_pct : Z;
  kvc_rebalance_threshold : Z;
  tie_counter : Z;
  kvc_moves : option (gmap string MoveCounts);
}.

Definition new_kvc (k : K) (moves : option (gmap string MoveCounts)) : KvcAwarePolicy :=
  mkKvcAware k (f64_lit 5 10) (f64_lit 5 10) 100 100 0 moves.
Definition set_scoring (s : KvcAwarePolicy) (cw lw : f64) (overload rebalance : Z) : KvcAwarePolicy :=
  mkKvcAware (kv_index s) cw lw overload rebalance (tie_counter s) (kvc_moves s).
Definition set_tie_moves (s : KvcAwarePolicy) (tie : Z) (moves : option (gmap string MoveCounts)) : KvcAwarePolicy :=
  mkKvcAware (kv_index s) (cache_weight s) (load_weight s) (overload_threshold_pct s) (kvc_rebalance_threshold s) tie moves.

Definition query_workers_for (w : string) : list string := [w].

Record Scored := mkScored {
  score : f64;
  sc_provider : Provider;
  hit : f64;
  depth : Z;
  load_pct : Z;
}.

(** The workers to query: first occurrences, in order. *)
Definition push_unique (acc : list string) (w : string) : list string := if bool_decide (w ∈ acc) then acc else acc ++ [w].
Definition query_ids (candidates : list Provider) : list string :=
  foldl push_unique [] (omap p_kv_worker_id candidates ≫= query_workers_for).

(** The maps built from the matches; a later result of a worker replaces an earlier one. *)
Definition hit_map (rs : list KvMatchResult) : gmap string (f64 * Z) :=
  foldl (fun m r => <[worker_id r := (hit_ratio r, match_depth r)]> m) ∅ rs.

Definition best_hit (hits : gmap string (f64 * Z)) (p : Provider) : f64 * Z :=
  match p_kv_worker_id p with
  | None => (f64_of 0, 0)
  | Some w =>
    let get x := default (f64_of 0, 0) (hits !! x) in
    foldl (fun acc peer => (f64_max acc.1 (get peer).1, Z.max acc.2 (get peer).2)) (get w) (query_workers_for w)
  end.

Definition load_avail (pct : Z) : f64 := f64_sub (f64_of 1) (f64_div (f64_of (Z.min pct 100)) (f64_of 100)).

Definition score_candidate (env : PolicyEnv Q) (s : KvcAwarePolicy) (model : string) (hits : gmap string (f64 * Z)) (c : Provider)
  : option Scored :=
  let '(h, d) := best_hit hits c in
  let pct := deployment_load env model c in
  if (overload_threshold_pct s <? 100) && (overload_threshold_pct s <=? pct) then None
  else Some (mkScored (f64_add (f64_mul (cache_weight s) h) (f64_mul (load_weight s) (load_avail pct))) c h d pct).

(** [min_by_key(load_pct)]: the first of the least loaded. *)
Definition least_loaded_of (first : Scored) (rest : list Scored) : Scored :=
  foldl (fun best x => if load_pct x <? load_pct best then x else best) first rest.

(** Top score, ties by the counter; a list without any top score (only NaN scores)
    panics. *)
Definition pick_winner (s : KvcAwarePolicy) (scored : list Scored) : option (KvcAwarePolicy * Scored) :=
  let max_score := foldl f64_max f64_neg_infinity (score <$> scored) in
  let ties := retain (fun x => f64_eq (score x) max_score) scored in
  if (1 <? length ties)%nat
  then w ← ties !! Z.to_nat (tie_counter s `mod` Z.of_nat (length ties));
       Some (set_tie_moves s (tie_counter s +u 1) (kvc_moves s), w)
  else w ← ties !! 0%nat; Some (s, w).

Definition rebalance_winner (s : KvcAwarePolicy) (scored : list Scored) (winner : Scored) : KvcAwarePolicy * Scored :=
  match scored with
  | first :: rest =>
    let least := least_loaded_of first rest in
    if (kvc_rebalance_threshold s <? 100) && should_rebalance (load_pct winner) (load_pct least) (kvc_rebalance_threshold s)
    then (set_tie_moves s (tie_counter s) (count_move (kvc_moves s) (sc_provider winner) (sc_provider least)), least)
    else (s, winner)
  | [] => (s, winner)
  end.

Definition lowest_selection (env : PolicyEnv Q) (s : KvcAwarePolicy) (model : string) (candidates : list Provider)
    (input_blocks : Z) (attempted deg : bool) : option (KvcAwarePolicy * option Selection) :=
  match select_lowest_load env model candidates with
  | Some p => Some (s, (fun c => mkSelection c (f64_of 0) 0 input_blocks attempted deg) <$> p)
  | None => None
  end.

Definition kvc_select_with_context (env : PolicyEnv Q) (s : KvcAwarePolicy) (model : string) (candidates : list Provider)
    (prefix_bytes : list Z) : option (KvcAwarePolicy * option Selection) :=
  match candidates with
  | [] => Some (s, None)
  | [p] => Some (s, Some (plain_selection p))
  | _ =>
    if bool_decide (prefix_bytes = []) then lowest_selection env s model candidates 0 false true
    else if bool_decide (omap p_kv_worker_id candidates = []) then lowest_selection env s model candidates 0 false false
    else
      rs ← kv_find_matches (kv_index s) model prefix_bytes (query_ids candidates);
      let total := kv_prefix_block_count (kv_index s) prefix_bytes in
      let scored := omap (score_candidate env s model (hit_map rs)) candidates in
      match scored with
      | [] => lowest_selection env s model candidates total true false
      | _ =>
        picked ← pick_winner s scored;
        let '(s2, final) := rebalance_winner picked.1 scored picked.2 in
        Some (s2, Some (mkSelection (sc_provider final) (hit final) (depth final) total true false))
      end
  end.

#[export] Instance kvc_aware_policy : SchedulePolicy Q KvcAwarePolicy := {
  select env s model candidates _ _ := p ← select_lowest_load env model candidates; Some (s, p);
  select_with_context env s model candidates _ _ bytes := kvc_select_with_context env s model candidates bytes;
  policy_name _ := "kvc_aware";
}.

End kvc.
End policies.
#[global] Arguments KvcAwarePolicy : clear implicits.

(** ** Laws of the interfaces *)

Class QueueLaws (Q : Type) `{DeploymentQueueInfo Q} := { total_load_u64 : forall q id, is_u64 (total_load q id) }.

#[export] Instance flow_queue_laws : QueueLaws FlowControl.FlowController.
Proof. split. intros q id. cbn. unfold FlowControl.total_load. case_match; [apply wrap64_u64 | by unfold is_u64]. Qed.

(** What a client of a policy may rely on: it picks one of the candidates. *)
Class PolicyLaws (Q P : Type) `{SchedulePolicy Q P} := {
  policy_member : forall env s model candidates key_hash chars bytes s' sel,
    select_with_context env s model candidates key_hash chars bytes = Some (s', Some sel) -> provider sel ∈ candidates;
  policy_empty : forall env s model key_hash chars bytes, select_with_context env s model [] key_hash chars bytes = Some (s, None);
}.

(** The prefix index behind the interface, for a hash of blocks. *)
Definition token_prefix_backend {L : Type} `{LruCache L} (hash : list Z -> Z) : KvIndexBackend (TokenPrefixIndex L) := {|
  kv_find_matches := find_matches hash;
  kv_prefix_block_count := prefix_block_count;
|}.

Lemma prefix_run_le h a w hashes : prefix_run h a w hashes <= Z.of_nat (length hashes).
Proof.
  revert a. induction hashes as [| k rest IH]; intros a; cbn [prefix_run length]; [done |].
  destruct (children _ !! k) as [c |]; [| lia]. destruct (decide _); [specialize (IH c) |]; lia.
Qed.

(** A reported ratio is the quotient of two positive counts. *)
#[refine] Definition token_prefix_laws {L : Type} `{LruCache L} (hash : list Z -> Z) :
  @KvIndexLaws (TokenPrefixIndex L) (token_prefix_backend hash) := {| kv_usable := fun ix => 0 < index_block_size ix |}.
Proof.
  intros ix model bytes ws Hpos Hlen. cbn. destruct (find_matches_spec hash ix model bytes ws Hpos) as (rs & E & Hform & Hiff).
  exists rs. split; [done |]. intros r Hr. destruct (proj1 (Hiff (worker_id r) (match_depth r))) as (_ & Hd & root & _ & Hrun); [eauto |].
  pose proof (prefix_run_le (heap ix) root (worker_id r) (request_hashes hash (index_block_size ix) bytes)) as Hle.
  assert (length (request_hashes hash (index_block_size ix) bytes) = block_total (index_block_size ix) bytes) as Hl
    by (unfold request_hashes; by rewrite length_fmap, length_seq).
  assert (Z.of_nat (block_total (index_block_size ix) bytes) <= Z.of_nat (length bytes)) as Hb.
  { unfold block_total. rewrite Z2Nat.id by (apply Z.div_pos; lia). apply Z.div_le_upper_bound; nia. }
  rewrite (Hform r Hr). cbn. apply div_nonneg; apply of_positive; lia.
Defined.

(** ** Lemmas: membership *)

Section membership.
Context {Q : Type} `{!DeploymentQueueInfo Q}.

Lemma lowest_member env model cands p : select_lowest_load env model cands = Some (Some p) -> p ∈ cands.
Proof.
  unfold select_lowest_load, min_load_candidate. destruct cands as [| c rest] eqn:E; [done |]. rewrite <- E. cbn. intros [= <-].
  assert (forall l acc, (foldl (min_load_step env model) acc l).2 ∈ acc.2 :: l) as Hf.
  { induction l as [| x l IH]; intros acc; cbn [foldl]; [by left |]. specialize (IH (min_load_step env model acc x)).
    unfold min_load_step in *. cbn zeta in *. destruct (_ <? _); cbn [snd] in *; set_solver. }
  specialize (Hf cands (u64_max, c)). rewrite E in *. cbn [snd] in Hf. set_solver.
Qed.

Lemma find_deployment_spec id cands p : find_deployment id cands = Some p -> p ∈ cands /\ p_deployment_id p = Some id.
Proof.
  unfold find_deployment. destruct (list_find _ cands) as [[i c] |] eqn:E; cbn; intros; simplify_eq.
  apply list_find_Some in E as (E & Hid & _). split; [by eapply list_elem_of_lookup_2 | done].
Qed.

(** A scored candidate is not overloaded, and its score is a number. *)
Lemma score_candidate_spec {K : Type} `{!KvIndexBackend K} env (s : KvcAwarePolicy K) model hits c x :
  score_candidate env s model hits c = Some x ->
  sc_provider x = c /\ load_pct x = deployment_load env model c
  /\ (overload_threshold_pct s < 100 -> load_pct x < overload_threshold_pct s).
Proof.
  unfold score_candidate. destruct (best_hit hits c) as [h d].
  destruct (Z.ltb_spec (overload_threshold_pct s) 100), (Z.leb_spec (overload_threshold_pct s) (deployment_load env model c));
    cbn; intros; simplify_eq; split_and!; cbn; try done; lia.
Qed.

Lemma least_loaded_spec first rest :
  least_loaded_of first rest ∈ first :: rest
  /\ forall x, x ∈ first :: rest -> load_pct (least_loaded_of first rest) <= load_pct x.
Proof.
  unfold least_loaded_of. revert first. induction rest as [| y rest IH]; intros first; cbn [foldl]; [split; [by left | set_solver by lia] |].
  destruct (IH (if load_pct y <? load_pct first then y else first)) as [Hin Hall]. set (b := foldl _ _ rest) in *.
  destruct (Z.ltb_spec (load_pct y) (load_pct first)).
  - split; [set_solver |]. intros x [-> | Hx]%elem_of_cons; [| by apply Hall]. specialize (Hall y ltac:(by left)). lia.
  - split; [set_solver |]. intros x [-> | [-> | Hx]%elem_of_cons]%elem_of_cons;
      [apply Hall; by left | specialize (Hall first ltac:(by left)); lia | apply Hall; by right].
Qed.

End membership.

(** ** Lemmas: loads *)

Section loads.
Context {Q : Type} `{!DeploymentQueueInfo Q} `{!QueueLaws Q}.

(** The tracker's counters are [u64] values (as they are in every reachable state). *)
Definition env_ok (env : PolicyEnv Q) : Prop := forall model d, is_u64 (get_deployment_count (env_tracker env) model d).

(** The tracker of every reachable state is such an environment's. *)
Lemma env_ok_reachable s q : reachable step init s -> env_ok (mkPolicyEnv (tracker s) q).
Proof.
  intros (_ & H2 & _)%reachable_inv model d. destruct (H2 (deployment_key model d)) as (E & _ & _).
  unfold get_deployment_count. cbn. destruct (_ !! _) as [c |]; cbn in *; [rewrite E; apply wrap64_u64 | by unfold is_u64].
Qed.

Lemma deployment_load_u64 env model p : env_ok env -> 0 <= deployment_load env model p <= u64_max.
Proof.
  intros Hok. unfold deployment_load. destruct (p_deployment_id p) as [id |]; [| by unfold u64_max]. specialize (Hok model id).
  set (queued := match queue_info env with Some q => total_load q id | None => 0 end).
  assert (is_u64 queued) as Hq by (unfold queued; destruct (queue_info env); [apply total_load_u64 | by unfold is_u64]).
  set (raw := Z.max _ queued). assert (is_u64 raw) as Hr by (unfold raw, is_u64 in *; lia).
  set (capacity := match queue_info env with Some q => max_capacity q id | None => 0 end).
  unfold is_u64, u64_max in *. destruct (Z.ltb_spec 0 capacity); [| simpl; lia]. destruct (0 <? raw); simpl; [| lia].
  pose proof (wrap64_u64 (raw * 100)) as Hw. unfold u64_mul, is_u64 in *.
  split; [apply Z.div_pos; lia |]. assert (wrap64 (raw * 100) `div` capacity <= wrap64 (raw * 100)); [| lia].
  apply Z.div_le_upper_bound; nia.
Qed.

Lemma min_load_fold env model cands : env_ok env -> forall acc,
  let r := foldl (min_load_step env model) acc cands in
  (r = acc \/ (r.2 ∈ cands /\ r.1 = deployment_load env model r.2)) /\ r.1 <= acc.1
  /\ forall c, c ∈ cands -> r.1 <= deployment_load env model c.
Proof.
  intros Hok. induction cands as [| c cands IH]; intros acc; cbn [foldl].
  { split_and!; [by left | done | set_solver]. }
  pose proof (deployment_load_u64 env model c Hok).
  replace (min_load_step env model acc c) with (if deployment_load env model c <? acc.1 then (deployment_load env model c, c) else acc) by done.
  destruct (Z.ltb_spec (deployment_load env model c) acc.1) as [Hlt | Hge].
  - destruct (IH (deployment_load env model c, c)) as (Hr & Hr1 & Hall). cbn [fst] in Hr1.
    split_and!; [right | lia |].
    + destruct Hr as [-> | [? ?]]; cbn; [split; [by left | done] | split; [by right | done]].
    + intros x [-> | Hx]%elem_of_cons; [done | by apply Hall].
  - destruct (IH acc) as (Hr & Hr1 & Hall). split_and!; [| done |].
    + destruct Hr as [? | [? ?]]; [by left | right; split; [by right | done]].
    + intros x [-> | Hx]%elem_of_cons; [lia | by apply Hall].
Qed.

(** The lowest load, with a candidate that has it. *)
Lemma min_load_spec env model cands :
  env_ok env -> cands <> [] ->
  exists m p, min_load_candidate env model cands = Some (m, p) /\ p ∈ cands /\ m = deployment_load env model p
    /\ forall c, c ∈ cands -> deployment_load env model p <= deployment_load env model c.
Proof.
  intros Hok Hne. destruct cands as [| c rest] eqn:E; [done |]. rewrite <- E in *. unfold min_load_candidate.
  replace (match cands with [] => None | first :: _ => Some (foldl (min_load_step env model) (u64_max, first) cands) end)
    with (Some (foldl (min_load_step env model) (u64_max, c) cands)) by (by rewrite E).
  destruct (min_load_fold env model cands Hok (u64_max, c)) as (Hr & Hr1 & Hall).
  set (r := foldl _ _ cands) in *. exists r.1, r.2. split; [by rewrite <- surjective_pairing |].
  assert (c ∈ cands) as Hc by (rewrite E; by left). pose proof (deployment_load_u64 env model c Hok).
  destruct Hr as [Er | [Hin Hl]].
  - rewrite Er in *. cbn [fst snd] in *. pose proof (Hall c Hc). split_and!; [done | lia |]. intros x Hx. specialize (Hall x Hx). lia.
  - split_and!; [done | done |]. intros x Hx. rewrite <- Hl. by apply Hall.
Qed.

Lemma lowest_spec env model cands :
  env_ok env -> cands <> [] ->
  exists p, select_lowest_load env model cands = Some (Some p) /\ p ∈ cands
    /\ forall c, c ∈ cands -> deployment_load env model p <= deployment_load env model c.
Proof.
  intros Hok Hne. destruct (min_load_spec env model cands Hok Hne) as (m & p & E & Hin & _ & Hall).
  exists p. unfold select_lowest_load. rewrite E. done.
Qed.

End loads.

(** ** Lemmas: scores *)

Section scoring.
Context {Q : Type} `{!DeploymentQueueInfo Q} `{!QueueLaws Q}.
Context {K : Type} `{!KvIndexBackend K} `{!KvIndexLaws K}.

Definition finite_nonneg_bool (a : f64) : bool := match a with S754_zero _ | S754_finite false _ _ => true | _ => false end.

(** The load term over the 101 percentages. *)
Lemma load_avail_finite pct : 0 <= pct -> f64_finite_nonneg (load_avail pct).
Proof.
  intros Hp. unfold load_avail. set (m := Z.min pct 100).
  assert (Forall (fun i => finite_nonneg_bool (f64_sub (f64_of 1) (f64_div (f64_of i) (f64_of 100))) = true) (seqZ 0 101)) as Hall
    by (apply (bool_decide_unpack _); vm_compute; exact I).
  rewrite Forall_forall in Hall. specialize (Hall m ltac:(apply elem_of_seqZ; lia)).
  by destruct (f64_sub _ _) as [| | | [] ? ?].
Qed.

Lemma max_nonneg a b : f64_nonneg a -> f64_nonneg b -> f64_nonneg (f64_max a b).
Proof. intros Ha Hb. unfold f64_max. by repeat case_match. Qed.

Lemma hit_map_nonneg rs w h d : (forall r, r ∈ rs -> f64_nonneg (hit_ratio r)) -> hit_map rs !! w = Some (h, d) -> f64_nonneg h.
Proof.
  unfold hit_map. intros Hr. assert (forall m : gmap string (f64 * Z), (forall w h d, m !! w = Some (h, d) -> f64_nonneg h) ->
    foldl (fun m r => <[worker_id r := (hit_ratio r, match_depth r)]> m) m rs !! w = Some (h, d) -> f64_nonneg h) as Hg.
  { revert Hr. induction rs as [| r rs IH]; intros Hr m Hm; cbn [foldl]; [apply Hm |]. apply IH; [set_solver |].
    intros w' h' d' [[<- E] | [? E]]%lookup_insert_Some; [simplify_eq; apply Hr; by left | by eapply Hm]. }
  apply Hg. set_solver.
Qed.

Lemma best_hit_nonneg rs c : (forall r, r ∈ rs -> f64_nonneg (hit_ratio r)) -> f64_nonneg (best_hit (hit_map rs) c).1.
Proof.
  intros Hr. unfold best_hit. destruct (p_kv_worker_id c) as [w |]; [| done]. unfold query_workers_for. cbn [foldl fst].
  assert (f64_nonneg (default (f64_of 0, 0) (hit_map rs !! w)).1).
  { destruct (hit_map rs !! w) as [[h d] |] eqn:E; [by apply (hit_map_nonneg _ _ _ _ Hr E) | done]. }
  by apply max_nonneg.
Qed.

Lemma score_candidate_number env (s : KvcAwarePolicy K) model rs c x :
  env_ok env -> f64_positive (cache_weight s) -> f64_finite_nonneg (load_weight s) ->
  (forall r, r ∈ rs -> f64_nonneg (hit_ratio r)) -> score_candidate env s model (hit_map rs) c = Some x -> is_nan (score x) = false.
Proof.
  intros Hok Hc Hl Hr. unfold score_candidate. pose proof (best_hit_nonneg rs c Hr) as Hh. destruct (best_hit (hit_map rs) c) as [h d].
  destruct (_ && _); intros; simplify_eq. cbn. apply nonneg_not_nan, add_nonneg; [by apply mul_nonneg |].
  apply mul_finite_nonneg; [done |]. apply load_avail_finite. by apply deployment_load_u64.
Qed.

(** The weights and thresholds are the policy's configuration. *)
Definition same_config (s s' : KvcAwarePolicy K) : Prop :=
  kv_index s' = kv_index s /\ cache_weight s' = cache_weight s /\ load_weight s' = load_weight s
  /\ overload_threshold_pct s' = overload_threshold_pct s /\ kvc_rebalance_threshold s' = kvc_rebalance_threshold s.

Lemma pick_winner_spec (s : KvcAwarePolicy K) scored :
  scored <> [] -> Forall (fun x => is_nan (score x) = false) scored ->
  exists s' w, pick_winner s scored = Some (s', w) /\ same_config s s' /\ w ∈ scored
    /\ forall y, y ∈ scored -> f64_lt (score w) (score y) = false.
Proof.
  intros Hne Hn. destruct (max_score_attained (score <$> scored)) as [(m & Hm & Em) Hmax].
  { by destruct scored. }
  { by apply Forall_fmap. }
  unfold pick_winner. set (mx := foldl f64_max f64_neg_infinity (score <$> scored)) in *.
  set (ties := retain (fun x => f64_eq (score x) mx) scored).
  assert (ties <> []) as Hties.
  { apply list_elem_of_fmap in Hm as (x & -> & Hx). intros E. assert (x ∈ ties) as Hin by (by apply elem_of_retain). rewrite E in Hin. set_solver. }
  assert (forall w, w ∈ ties -> w ∈ scored /\ forall y, y ∈ scored -> f64_lt (score w) (score y) = false) as Hw.
  { intros w [Ew Hin]%elem_of_retain. split; [done |]. intros y Hy.
    apply (Hmax (score w)); [apply list_elem_of_fmap; eauto | done | apply list_elem_of_fmap; eauto]. }
  assert (0 < length ties)%nat by (destruct ties; [done | cbn; lia]).
  destruct (1 <? length ties)%nat.
  - destruct (lookup_lt_is_Some_2 ties (Z.to_nat (tie_counter s `mod` Z.of_nat (length ties)))) as [w Ew].
    { pose proof (Z.mod_pos_bound (tie_counter s) (Z.of_nat (length ties))). lia. }
    rewrite Ew. cbn. eexists _, w. split; [done |]. split; [done |]. apply Hw. by eapply list_elem_of_lookup_2.
  - destruct (lookup_lt_is_Some_2 ties 0) as [w Ew]; [done |]. rewrite Ew. cbn. exists s, w. split; [done |]. split; [done |].
    apply Hw. by eapply list_elem_of_lookup_2.
Qed.

Lemma rebalance_spec (s : KvcAwarePolicy K) scored w :
  w ∈ scored -> (forall x, x ∈ scored -> 0 <= load_pct x <= u64_max) -> 0 <= kvc_rebalance_threshold s ->
  let r := rebalance_winner s scored w in
  same_config s r.1 /\ r.2 ∈ scored /\ (100 <= kvc_rebalance_threshold s -> r.2 = w)
  /\ (kvc_rebalance_threshold s < 100 -> forall x, x ∈ scored -> load_pct x + kvc_rebalance_threshold s < 2 ^ 64 ->
      load_pct r.2 <= load_pct x + kvc_rebalance_threshold s).
Proof.
  intros Hw Hld Ht. unfold rebalance_winner. destruct scored as [| first rest]; [set_solver |].
  destruct (least_loaded_spec first rest) as [Hin Hmin]. set (least := least_loaded_of first rest) in *.
  unfold should_rebalance. destruct (Z.ltb_spec (kvc_rebalance_threshold s) 100); cbn [andb]; [| split_and!; try done; lia].
  destruct (Z.ltb_spec (load_pct least +u kvc_rebalance_threshold s) (load_pct w)) as [Hlt | Hge]; cbn [fst snd]; split_and!; try done; try lia.
  - intros _ x Hx _. specialize (Hmin x Hx). lia.
  - intros _ x Hx Hsm. specialize (Hmin x Hx). pose proof (Hld least Hin). rewrite u64_add_small in Hge by lia. lia.
Qed.

End scoring.

(** ** The policies keep the interface's promise *)

Section laws.
Context {Q : Type} `{!DeploymentQueueInfo Q}.

Lemma default_member {P : Type} (r : option (P * option Provider)) s' sel :
  default_with_context r = Some (s', Some sel) -> r = Some (s', Some (provider sel)).
Proof. unfold default_with_context. destruct r as [[s [p |]] |]; cbn; intros; by simplify_eq. Qed.

#[export] Instance round_robin_laws : PolicyLaws Q RoundRobinPolicy.
Proof.
  split; [| done]. intros env s model cands kh chars bytes s' sel E.
  apply (default_member (Some (rr_select s model cands))) in E. unfold rr_select in E.
  destruct cands as [| p [| p2 rest]]; [done | injection E as <- <-; by left |].
  injection E as _ E. by eapply list_elem_of_lookup_2.
Qed.

Lemma assign_lowest_member env s model cands k s' p :
  assign_lowest (Q := Q) env s model cands k = Some (s', Some p) -> p ∈ cands.
Proof.
  unfold assign_lowest. destruct (select_lowest_load env model cands) as [[c |] |] eqn:E; cbn; intros; simplify_eq.
  by eapply lowest_member.
Qed.

#[export] Instance key_affinity_laws : PolicyLaws Q KeyAffinityPolicy.
Proof.
  split; [| done]. intros env s model cands kh chars bytes s' sel E.
  apply (default_member (ka_select env s model cands kh)) in E. unfold ka_select in E.
  destruct cands as [| p [| p2 rest]]; [done | injection E as _ <-; by left |]. set (cands := p :: p2 :: rest) in *.
  destruct kh as [kh |].
  2: { destruct (select_lowest_load env model cands) as [p0 |] eqn:El; cbn in E; simplify_eq. by eapply lowest_member. }
  destruct (_ && _); [by eapply assign_lowest_member |].
  destruct (affinity s !! _ ≫= _) as [c |] eqn:Ef; [| by eapply assign_lowest_member].
  destruct (min_load_candidate env model cands) as [[m l] |] eqn:Em; [| done]. cbn in E.
  destruct (should_rebalance _ _ _); simplify_eq.
  - apply (lowest_member env model). unfold select_lowest_load. by rewrite Em.
  - destruct (affinity _ !! _) as [id |]; [| done]. by apply find_deployment_spec in Ef as [? _].
Qed.

Context {K : Type} `{!KvIndexBackend K}.

Lemma lowest_selection_member env (s s' : KvcAwarePolicy K) model cands n a d sel :
  lowest_selection env s model cands n a d = Some (s', Some sel) -> provider sel ∈ cands.
Proof.
  unfold lowest_selection. destruct (select_lowest_load env model cands) as [[p |] |] eqn:E; cbn; intros; simplify_eq.
  by eapply lowest_member.
Qed.

#[export] Instance kvc_aware_laws : PolicyLaws Q (KvcAwarePolicy K).
Proof.
  split; [| done]. intros env s model cands kh chars bytes s' sel E. cbn [select_with_context kvc_aware_policy] in E. unfold kvc_select_with_context in E.
  destruct cands as [| p [| p2 rest]]; [done | injection E as _ <-; by left |]. set (cands := p :: p2 :: rest) in *. clearbody cands.
  case_bool_decide; [by eapply lowest_selection_member |]. case_bool_decide; [by eapply lowest_selection_member |].
  destruct (kv_find_matches _ _ _ _) as [rs |]; [| done]. cbn [mbind option_bind] in E.
  destruct (omap _ cands) as [| x0 scored] eqn:Es; [by eapply lowest_selection_member |]. rewrite <- Es in *.
  destruct (pick_winner _ _) as [[s1 w] |] eqn:Ep; [| done]. cbn [mbind option_bind] in E.
  assert (forall x, x ∈ omap (score_candidate env s model (hit_map rs)) cands -> sc_provider x ∈ cands) as Hmem.
  { intros x (c & Hc & Hx)%list_elem_of_omap. by apply score_candidate_spec in Hx as (-> & _). }
  assert (w ∈ omap (score_candidate env s model (hit_map rs)) cands) as Hw.
  { unfold pick_winner in Ep. destruct (1 <? _)%nat;
      match type of Ep with context [retain ?f ?l !! ?i] => destruct (retain f l !! i) eqn:El end; cbn in Ep; simplify_eq;
      apply list_elem_of_lookup_2, elem_of_retain in El; by destruct El. }
  cbn [fst snd] in E. destruct (rebalance_winner s1 (omap (score_candidate env s model (hit_map rs)) cands) w) as [s2 final] eqn:Er. injection E as _ <-. cbn [provider]. apply Hmem. clear Hmem.
  unfold rebalance_winner in Er. rewrite Es in Er, Hw. rewrite Es. destruct (_ && _); simplify_eq; [apply least_loaded_spec | done].
Qed.

End laws.

(** ** Properties *)

Section properties.
Context {Q : Type} `{!DeploymentQueueInfo Q} `{!QueueLaws Q}.

(** Key affinity balances and sticks.  With at least one candidate a deployment is
    always selected, among the candidates, and its load is at most the threshold above
    that of any other; when there is a choice, the key's affinity afterwards is the
    selected deployment; and past the warm-up a key stays where it was, state
    unchanged, as long as its deployment is within the threshold. *)
Theorem key_affinity_balanced (env : PolicyEnv Q) s model cands key_hash :
  env_ok env -> cands <> [] -> 0 <= rebalance_threshold s ->
  (forall c, c ∈ cands -> deployment_load env model c + rebalance_threshold s < 2 ^ 64) ->
  exists s' p, ka_select env s model cands key_hash = Some (s', Some p) /\ p ∈ cands
    /\ (forall c, c ∈ cands -> deployment_load env model p <= deployment_load env model c + rebalance_threshold s)
    /\ forall kh, key_hash = Some kh -> (2 <= length cands)%nat ->
       (forall d, p_deployment_id p = Some d -> affinity s' !! affinity_key kh model = Some d)
       /\ (forall d c, affinity s !! affinity_key kh model = Some d -> find_deployment d cands = Some c ->
           context_threshold s <= get_model_input_chars (env_tracker env) model ->
           (forall x, x ∈ cands -> deployment_load env model c <= deployment_load env model x + rebalance_threshold s) ->
           s' = s /\ p = c).
Proof.
  intros Hok Hne Ht Hsm. destruct (lowest_spec env model cands Hok Hne) as (low & El & Hlow & Hmin).
  destruct (min_load_spec env model cands Hok Hne) as (m & l & Em & Hl & -> & Hlm).
  unfold ka_select. destruct cands as [| p1 [| p2 rest]] eqn:Ec; [done | |].
  { exists s, p1. split_and!; [done | by left | | intros; cbn in *; lia]. intros c ->%list_elem_of_singleton. lia. }
  rewrite <- Ec in *. clear Ec Hne.
  destruct key_hash as [kh |].
  2: { rewrite El. cbn. exists s, low. split_and!; [done.. | | done]. intros c Hc. specialize (Hmin c Hc). lia. }
  set (k := affinity_key kh model).
  assert (exists s', assign_lowest env s model cands k = Some (s', Some low)
    /\ forall d, p_deployment_id low = Some d -> affinity s' !! k = Some d) as (s1 & Ea & Haff).
  { unfold assign_lowest. rewrite El. cbn. eexists. split; [done |]. intros d ->. cbn. apply lookup_insert_eq. }
  assert (forall c, c ∈ cands -> deployment_load env model low <= deployment_load env model c + rebalance_threshold s) as Hbal
    by (intros c Hc; specialize (Hmin c Hc); lia).
  destruct (Z.ltb_spec 0 (context_threshold s)) as [Hct | Hct], (Z.ltb_spec (get_model_input_chars (env_tracker env) model) (context_threshold s)) as [Hw | Hw];
    cbn [andb].
  1: { exists s1, low. split_and!; try done. intros kh0 [= <-] _. split; [done |]. intros d c _ _ Hcc. lia. }
  all: destruct (affinity s !! k) as [d0 |] eqn:Ek; cbn [mbind option_bind];
    [| exists s1, low; split_and!; try done; intros kh0 [= <-] _; split; [done |]; intros d c E0; unfold k in Ek; congruence].
  all: destruct (find_deployment d0 cands) as [c0 |] eqn:Ef;
    [| exists s1, low; split_and!; try done; intros kh0 [= <-] _; split; [done |]; intros d c E0 Ef0; unfold k in Ek; congruence].
  all: destruct (find_deployment_spec _ _ _ Ef) as [Hc0 Hd0]; rewrite Em; cbn [mbind option_bind];
    unfold should_rebalance; pose proof (Hsm l Hl); pose proof (deployment_load_u64 env model l Hok);
    rewrite u64_add_small by lia;
    destruct (Z.ltb_spec (deployment_load env model l + rebalance_threshold s) (deployment_load env model c0)) as [Hgt | Hle].
  all: try (exists s, c0; split_and!; try done;
    [intros c Hc; specialize (Hlm c Hc); lia | intros kh0 [= <-] _; split; [intros d Ed; unfold k in Ek; congruence |];
     intros d c E0 Ef0 _ _; unfold k in Ek; split; [done | congruence]]).
  all: eexists _, l; split; [done |]; split_and!; try done;
    [intros c Hc; specialize (Hlm c Hc); lia | intros kh0 [= <-] _; split];
    [intros d Ed; rewrite Ed; cbn; apply lookup_insert_eq |
     intros d c E0 Ef0 _ Hst; unfold k in Ek; simplify_eq; specialize (Hst l Hl); lia].
Qed.

Context {K : Type} `{!KvIndexBackend K} `{!KvIndexLaws K}.

(** C32: the KV-aware policy selects the best candidate.  With several candidates, a
    prefix and a usable index, and valid weights, the selection never fails.  Unless
    every candidate is overloaded (then the least loaded one is taken), the selected
    one is not overloaded; without rebalancing no candidate scores higher; with it,
    its load is at most the threshold above that of any candidate that is not
    overloaded. *)
Theorem kvc_selects_best (env : PolicyEnv Q) (s : KvcAwarePolicy K) model cands bytes :
  env_ok env -> (2 <= length cands)%nat -> bytes <> [] -> omap p_kv_worker_id cands <> [] ->
  Z.of_nat (length bytes) < 2 ^ 53 -> kv_usable (kv_index s) ->
  f64_positive (cache_weight s) -> f64_finite_nonneg (load_weight s) -> 0 <= kvc_rebalance_threshold s ->
  (forall c, c ∈ cands -> deployment_load env model c + kvc_rebalance_threshold s < 2 ^ 64) ->
  exists rs s' sel, kv_find_matches (kv_index s) model bytes (query_ids cands) = Some rs
    /\ kvc_select_with_context env s model cands bytes = Some (s', Some sel)
    /\ let scored := omap (score_candidate env s model (hit_map rs)) cands in
       (scored = [] -> forall c, c ∈ cands -> deployment_load env model (provider sel) <= deployment_load env model c)
       /\ (scored <> [] -> exists x, x ∈ scored /\ provider sel = sc_provider x
           /\ (overload_threshold_pct s < 100 -> deployment_load env model (provider sel) < overload_threshold_pct s)
           /\ (100 <= kvc_rebalance_threshold s -> forall y, y ∈ scored -> f64_lt (score x) (score y) = false)
           /\ (kvc_rebalance_threshold s < 100 -> forall y, y ∈ scored -> load_pct x <= load_pct y + kvc_rebalance_threshold s)).
Proof.
  intros Hok Hlen Hb Hids Hbytes Huse Hcw Hlw Ht Hsm. destruct (kv_answers (kv_index s) model bytes (query_ids cands) Huse Hbytes) as (rs & Ers & Hrs).
  exists rs. unfold kvc_select_with_context. destruct cands as [| p1 [| p2 rest]] eqn:Ec; [cbn in Hlen; lia.. |]. rewrite <- Ec in *.
  rewrite !bool_decide_eq_false_2, Ers by done. cbn [mbind option_bind]. set (scored := omap _ cands).
  destruct (lowest_spec env model cands Hok ltac:(by rewrite Ec)) as (low & El & Hlow & Hmin).
  assert (forall x, x ∈ scored -> exists c, c ∈ cands /\ score_candidate env s model (hit_map rs) c = Some x) as Hsc
    by (intros x (c & Hc & Hx)%list_elem_of_omap; eauto).
  destruct scored as [| x0 scored0] eqn:Es.
  { unfold lowest_selection. rewrite El. cbn. do 2 eexists. split_and!; [done | done | done | done]. }
  rewrite <- Es in *. assert (Forall (fun x => is_nan (score x) = false) scored) as Hn.
  { apply Forall_forall. intros x (c & _ & Hx)%Hsc. by eapply score_candidate_number. }
  destruct (pick_winner_spec s scored ltac:(by rewrite Es) Hn) as (s1 & w & Ep & (C1 & C2 & C3 & C4 & C5) & Hw & Hbest).
  rewrite Ep. cbn [mbind option_bind fst snd].
  destruct (rebalance_spec s1 scored w Hw) as (_ & Hf & Hoff & Hon); [| lia |].
  { intros x (c & _ & Hx)%Hsc. apply score_candidate_spec in Hx as (_ & -> & _). by apply deployment_load_u64. }
  destruct (rebalance_winner s1 scored w) as [s2 final]. cbn [fst snd] in *. do 2 eexists. split_and!; [done | done | by rewrite Es |].
  intros _. destruct (Hsc _ Hf) as (c & Hc & Hx). pose proof (score_candidate_spec _ _ _ _ _ _ Hx) as (Ec1 & Ec2 & Ec3).
  exists final. cbn. rewrite Ec1, <- Ec2. split_and!; [done | done | done | |].
  - intros Hge. rewrite (Hoff ltac:(lia)). done.
  - intros Hlt y Hy. rewrite <- C5. apply Hon; [lia | done |]. destruct (Hsc _ Hy) as (cy & Hcy & Hxy).
    apply score_candidate_spec in Hxy as (_ & -> & _). rewrite C5. by apply Hsm.
Qed.

End properties.

(** ** Concrete runs *)

Definition demo_providers : list Provider :=
  [mkProvider "p1" (Some "d1") (Some "w0"); mkProvider "p2" (Some "d2") (Some "w1")].

(** One request in flight on "d1". *)
Definition demo_env : PolicyEnv FlowControl.FlowController := mkPolicyEnv (tracker InFlight.demo) (Some FlowControl.new_controller).

Lemma demo_env_ok : env_ok demo_env.
Proof. apply env_ok_reachable. eapply rtc_l; [apply (st_new_deployment init "m" "d1" 12); lia | apply rtc_refl]. Qed.

Definition demo_affinity : KeyAffinityPolicy := mkKeyAffinity {["k:m" := "d1"]} 0 5 None.

(** The key stays on "d1" although "d2" is idle. *)
Lemma key_affinity_balanced_witness :
  exists s' p, ka_select demo_env demo_affinity "m" demo_providers (Some "k") = Some (s', Some p)
    /\ p_deployment_id p = Some "d1" /\ forall c, c ∈ demo_providers -> deployment_load demo_env "m" p <= deployment_load demo_env "m" c + 5.
Proof.
  destruct (key_affinity_balanced demo_env demo_affinity "m" demo_providers (Some "k") demo_env_ok) as (s' & p & E & _ & Hbal & Hkey).
  - done.
  - vm_compute. discriminate.
  - by apply Forall_forall; repeat constructor.
  - exists s', p. split; [done |]. split; [| done].
    destruct (Hkey "k" eq_refl ltac:(cbn; lia)) as [_ Hst].
    destruct (Hst "d1" (mkProvider "p1" (Some "d1") (Some "w0"))) as [_ ->]; [done | by vm_compute | done | | done].
    by apply Forall_forall; repeat constructor.
Defined.

#[local] Instance demo_backend : KvIndexBackend (TokenPrefixIndex ListLru) := token_prefix_backend sum_hash.
#[local] Instance demo_laws : KvIndexLaws (TokenPrefixIndex ListLru) := token_prefix_laws sum_hash.

Definition demo_kvc : KvcAwarePolicy (TokenPrefixIndex ListLru) := new_kvc demo_recorded None.

(** The worker that has the prefix is selected. *)
Lemma kvc_selects_best_witness :
  exists s' sel, kvc_select_with_context demo_env demo_kvc "m" demo_providers [1; 2; 3; 4] = Some (s', Some sel)
    /\ p_name (provider sel) = "p1" /\ exists rs x, x ∈ omap (score_candidate demo_env demo_kvc "m" (hit_map rs)) demo_providers
      /\ provider sel = sc_provider x.
Proof.
  destruct (kvc_selects_best demo_env demo_kvc "m" demo_providers [1; 2; 3; 4] demo_env_ok) as (rs & s' & sel & Ers & E & _ & Hs).
  - cbn. lia.
  - done.
  - done.
  - cbn. lia.
  - by vm_compute.
  - by vm_compute.
  - by vm_compute.
  - vm_compute. discriminate.
  - by apply Forall_forall; repeat constructor.
  - exists s', sel. split; [done |]. vm_compute in Ers. injection Ers as <-. split.
    + vm_compute in E. by injection E as _ <-.
    + destruct Hs as (x & Hx & Ex & _); [by vm_compute |]. eauto.
Defined.

End Policy.
