(* ===== verification/Messages.v ===== *)
(** * Messages: chat messages and their normalisation (boom-core)

    Models the message types of [boom-gateway/boom-core/src/types.rs], the move of
    reasoning parts to [reasoning_content], and from
    [boom-core/src/normalize.rs] the role alternation applied before a request goes
    to an Anthropic provider and the extraction of a host from an API base.  The
    conversions between [serde_json::Value]s are in [Anthropic]. *)

From S2P Require Import Prelude Core Text.

Module Messages.

Inductive MessageRole := System | User | Assistant | Tool.
#[export] Instance MessageRole_eq_dec : EqDecision MessageRole.
Proof. solve_decision. Defined.

Record ImageUrl := mkImageUrl { url : string; detail : option string }.

Inductive ContentPart :=
| PartText (text : string)
| PartImageUrl (image_url : ImageUrl)
| PartReasoning (reasoning : string).

Inductive MessageContent :=
| Text (text : string)
| Parts (parts : list ContentPart)
| Null.

Record FunctionCall := mkFunctionCall { fc_name : string; fc_arguments : string }.
Record ToolCall := mkToolCall { tc_id : string; call_type : string; tc_function : FunctionCall }.

Record Message := mkMessage {
  role : MessageRole;
  content : MessageContent;
  m_name : option string;
  tool_calls : option (list ToolCall);
  tool_call_id : option string;
  reasoning_content : option string;
}.

(** ** Reasoning parts *)

Definition reasoning_text (parts : list ContentPart) : string :=
  foldl (fun acc p => match p with PartReasoning r => acc +:+ r | _ => acc end) "" parts.
Definition is_reasoning (p : ContentPart) : bool := match p with PartReasoning _ => true | _ => false end.

Definition normalize_reasoning_for_openai (m : Message) : Message :=
  match content m with
  | Parts parts =>
    let reasoning := reasoning_text parts in
    let other := retain (fun p => negb (is_reasoning p)) parts in
    mkMessage (role m)
      (match other with [] => Text "" | [PartText t] => Text t | _ => Parts other end)
      (m_name m) (tool_calls m) (tool_call_id m)
      (if bool_decide (reasoning = "") then reasoning_content m else Some reasoning)
  | _ => m
  end.

(** ** Role alternation *)

Definition needs_separator (prev curr : MessageRole) : bool :=
  match prev, curr with
  | User, User | Assistant, Assistant | User, Tool | Assistant, User | Tool, Tool | Tool, User => true
  | _, _ => false
  end.

Definition separator : Message := mkMessage User (Text "") None None None None.

(** The loop, with its index; every round shortens what is left by one, so the number
    of messages is enough fuel. *)
Fixpoint alternate_from (fuel i : nat) (ms : list Message) : list Message :=
  match fuel with
  | O => ms
  | S n =>
    match ms !! (i - 1)%nat, ms !! i with
    | Some prev, Some curr =>
      if needs_separator (role prev) (role curr)
      then alternate_from n (i + 2) (take i ms ++ separator :: drop i ms)
      else alternate_from n (i + 1) ms
    | _, _ => ms
    end
  end.

Definition ensure_role_alternation (ms : list Message) : list Message := alternate_from (length ms) 1 ms.

(** ** The host of an API base *)

Fixpoint split_once_str (sep s : string) : option (string * string) :=
  match strip_prefix sep s with
  | Some r => Some ("", r)
  | None => match s with
            | EmptyString => None
            | String a s' => (fun lr => (String a lr.1, lr.2)) <$> split_once_str sep s'
            end
  end.

Definition non_empty (s : string) : option string := if bool_decide (s = "") then None else Some s.

Definition host_of_api_base (api_base : string) : option string :=
  let raw := trim api_base in
  if bool_decide (raw = "") then None
  else
    let after_scheme := match split_once_str "://" raw with Some (_, rest) => rest | None => raw end in
    let authority := split_first "/" after_scheme in
    match rest ← strip_prefix "[" authority; split_once "]" rest with
    | Some (inner, _) => non_empty (trim inner)
    | None => non_empty (trim (match rsplit_once ":" authority with Some (h, _) => h | None => authority end))
    end.

(** ** Lemmas *)

(** The same insertion by recursion on what follows a message. *)
Fixpoint separated (prev : Message) (rest : list Message) : list Message :=
  match rest with
  | [] => []
  | c :: rest' => (if needs_separator (role prev) (role c) then [separator; c] else [c]) ++ separated c rest'
  end.

Lemma alternate_from_spec fuel l prev rest :
  (length rest <= fuel)%nat -> alternate_from fuel (S (length l)) (l ++ prev :: rest) = l ++ prev :: separated prev rest.
Proof.
  revert fuel l prev. induction rest as [| c rest IH]; intros fuel l prev Hf; cbn [separated].
  { destruct fuel as [| n]; [done |]. cbn [alternate_from].
    rewrite (lookup_ge_None_2 _ (S (length l))) by (rewrite length_app; cbn; lia). by case_match. }
  destruct fuel as [| n]; [cbn in Hf; lia |]. cbn [alternate_from].
  replace (S (length l) - 1)%nat with (length l) by lia.
  rewrite (list_lookup_middle l _ prev _ eq_refl).
  rewrite (lookup_app_r l _ (S (length l))) by lia. replace (S (length l) - length l)%nat with 1%nat by lia. cbn [lookup list_lookup].
  destruct (needs_separator (role prev) (role c)).
  - replace (take (S (length l)) (l ++ prev :: c :: rest) ++ separator :: drop (S (length l)) (l ++ prev :: c :: rest))
      with ((l ++ [prev; separator]) ++ c :: rest).
    + replace (S (length l) + 2)%nat with (S (length (l ++ [prev; separator]))) by (rewrite length_app; cbn; lia).
      rewrite IH by (cbn in Hf; lia). by rewrite <- app_assoc.
    + rewrite take_app_ge, drop_app_ge by lia. replace (S (length l) - length l)%nat with 1%nat by lia. cbn. by rewrite <- !app_assoc.
  - replace (l ++ prev :: c :: rest) with ((l ++ [prev]) ++ c :: rest) by (by rewrite <- app_assoc).
    replace (S (length l) + 1)%nat with (S (length (l ++ [prev]))) by (rewrite length_app; cbn; lia).
    rewrite IH by (cbn in Hf; lia). by rewrite <- app_assoc.
Qed.

Lemma ensure_role_alternation_spec ms :
  ensure_role_alternation ms = match ms with [] => [] | first :: rest => first :: separated first rest end.
Proof.
  destruct ms as [| first rest]; [done |]. unfold ensure_role_alternation.
  apply (alternate_from_spec _ [] first rest). cbn. lia.
Qed.

(** Two roles next to each other. *)
Fixpoint adjacent (a b : MessageRole) (ms : list Message) : Prop :=
  match ms with
  | x :: ((y :: _) as rest) => (role x = a /\ role y = b) \/ adjacent a b rest
  | _ => False
  end.

Definition alternates (ms : list Message) : Prop := ~ adjacent User User ms /\ ~ adjacent Assistant Assistant ms.

Lemma separated_no_assistants prev rest : ~ adjacent Assistant Assistant (prev :: separated prev rest).
Proof.
  revert prev. induction rest as [| c rest IH]; intros prev; cbn [separated]; [by intros [] |].
  destruct (needs_separator (role prev) (role c)) eqn:E.
  - intros [[_ H] | [[H _] | H]]; [done | done | exact (IH _ H)].
  - intros [[H1 H2] | H]; [by rewrite H1, H2 in E | exact (IH _ H)].
Qed.

Lemma separated_users prev rest :
  adjacent User User (prev :: rest) \/ adjacent Assistant User (prev :: rest) -> adjacent User User (prev :: separated prev rest).
Proof.
  revert prev. induction rest as [| c rest IH]; intros prev H; cbn [separated]; [by destruct H |].
  destruct (needs_separator (role prev) (role c)) eqn:E.
  - destruct H as [[[_ Hc] | H] | [[_ Hc] | H]].
    + right. by left.
    + right. right. apply IH. by left.
    + right. by left.
    + right. right. apply IH. by right.
  - destruct H as [[[Hp Hc] | H] | [[Hp Hc] | H]].
    + by left.
    + right. apply IH. by left.
    + by rewrite Hp, Hc in E.
    + right. apply IH. by right.
Qed.

Lemma separated_sublist prev rest : rest `sublist_of` separated prev rest.
Proof.
  revert prev. induction rest as [| c rest IH]; intros prev; cbn [separated]; [done |].
  destruct (needs_separator _ _); cbn; [apply sublist_cons |]; by apply sublist_skip.
Qed.

Lemma separated_elem prev rest m : m ∈ separated prev rest -> m = separator \/ m ∈ rest.
Proof.
  revert prev. induction rest as [| c rest IH]; intros prev; cbn [separated]; [by right |].
  destruct (needs_separator _ _); cbn; rewrite !elem_of_cons; intros H;
    [destruct H as [? | [? | H%IH]] | destruct H as [? | H%IH]]; naive_solver.
Qed.

Lemma split_scheme l r : has_char ":" l = false -> split_once_str "://" (l +:+ "://" +:+ r) = Some (l, r).
Proof.
  induction l as [| a l IH]; intros H; [by rewrite append_nil; cbn [split_once_str]; destruct r |].
  cbn [has_char] in H. apply orb_false_iff in H as [Ha Hl]. rewrite append_cons. cbn [split_once_str].
  replace (strip_prefix "://" (String a (l +:+ "://" +:+ r))) with (@None string).
  - by rewrite IH.
  - unfold strip_prefix. rewrite Ascii.eqb_sym. by rewrite Ha.
Qed.

Lemma split_first_app c l r : has_char c l = false -> split_first c (l +:+ String c r) = l.
Proof. intros H. unfold split_first. by rewrite split_once_app. Qed.

Lemma non_empty_some s : s <> "" -> non_empty s = Some s.
Proof. intros H. unfold non_empty. by rewrite bool_decide_eq_false_2. Qed.

(** Any URL with a scheme: what the authority gives. *)
Lemma host_of_authority scheme authority path :
  let u := scheme +:+ "://" +:+ authority +:+ "/" +:+ path in
  trim u = u -> has_char ":" scheme = false -> has_char "/" authority = false ->
  host_of_api_base u =
    match rest ← strip_prefix "[" authority; split_once "]" rest with
    | Some (inner, _) => non_empty (trim inner)
    | None => non_empty (trim (match rsplit_once ":" authority with Some (h, _) => h | None => authority end))
    end.
Proof.
  intros u Ht Hs Ha. unfold host_of_api_base. rewrite Ht. rewrite bool_decide_eq_false_2 by (unfold u; by destruct scheme).
  unfold u. rewrite split_scheme by done. change ("/" +:+ path) with (String "/" path). by rewrite split_first_app.
Qed.

(** ** Properties *)

(** What the role alternation does.  Messages are only added, each an empty user
    message, and two assistant messages are never left side by side; but a
    separator also goes between an assistant and the user that follows, so every
    conversation with a second user turn comes out with two user messages side by
    side: alternation is broken where it held. *)
Theorem role_alternation_effect ms :
  ms `sublist_of` ensure_role_alternation ms
  /\ (forall m, m ∈ ensure_role_alternation ms -> m = separator \/ m ∈ ms)
  /\ ~ adjacent Assistant Assistant (ensure_role_alternation ms)
  /\ (adjacent Assistant User ms -> ~ alternates (ensure_role_alternation ms))
  /\ (~ adjacent User User ms -> ~ adjacent Assistant User ms -> ~ adjacent Assistant Assistant ms ->
      ~ adjacent User Tool ms -> ~ adjacent Tool Tool ms -> ~ adjacent Tool User ms -> ensure_role_alternation ms = ms).
Proof.
  rewrite ensure_role_alternation_spec. destruct ms as [| first rest]; [split_and!; naive_solver |]. split_and!.
  - apply sublist_skip, separated_sublist.
  - intros m [-> | [-> | Hm]%separated_elem]%elem_of_cons; [right; by left | by left | right; by right].
  - apply separated_no_assistants.
  - intros H [Hu _]. apply Hu, separated_users. by right.
  - intros H1 H2 H3 H4 H5 H6. f_equal. revert first H1 H2 H3 H4 H5 H6. induction rest as [| c rest IH]; intros first H1 H2 H3 H4 H5 H6; [done |].
    cbn [separated adjacent] in *. replace (needs_separator (role first) (role c)) with false.
    + cbn. f_equal. apply IH; tauto.
    + unfold needs_separator. destruct (role first), (role c); tauto.
Qed.

(** The KV worker id is the bare host of the API base.  For a URL with a scheme,
    a port and a path the result is the host; an IPv6 literal comes without its
    brackets and its colons are kept. *)
Theorem host_of_url scheme host port path :
  has_char ":" scheme = false -> has_char "/" host = false -> has_char "]" host = false ->
  has_char "/" port = false -> has_char ":" port = false ->
  host <> "" -> trim host = host -> starts_with "[" host = false ->
  (let u := scheme +:+ "://" +:+ (host +:+ ":" +:+ port) +:+ "/" +:+ path in trim u = u -> host_of_api_base u = Some host)
  /\ (let u := scheme +:+ "://" +:+ ("[" +:+ host +:+ "]:" +:+ port) +:+ "/" +:+ path in trim u = u -> host_of_api_base u = Some host).
Proof.
  intros Hs Hh Hb Hp Hpc Hne Ht Hbr. split; intros u Hu; unfold u in *.
  - rewrite host_of_authority; [| done | done |].
    + destruct host as [| a host]; [done |]. rewrite append_cons. unfold starts_with in Hbr. cbn [strip_prefix] in Hbr.
      cbn [strip_prefix]. destruct (Ascii.eqb "[" a); [done |]. cbn [mbind option_bind].
      rewrite <- append_cons. change (":" +:+ port) with (String ":" port). rewrite rsplit_once_app by done.
      rewrite Ht. by apply non_empty_some.
    + rewrite !has_char_app, Hh, Hp. done.
  - rewrite host_of_authority; [| done | done |].
    + rewrite strip_prefix_app. cbn [mbind option_bind]. change ("]:" +:+ port) with (String "]" (":" +:+ port)).
      rewrite split_once_app by done. rewrite Ht. by apply non_empty_some.
    + rewrite !has_char_app, Hh, Hp. done.
Qed.

Lemma host_of_url_witness : host_of_api_base "http://[2001:db8::1]:8000/v1" = Some "2001:db8::1".
Proof. apply (host_of_url "http" "2001:db8::1" "8000" "v1"); (reflexivity || discriminate). Defined.

(** A content as the parts a client sees. *)
Definition as_parts (c : MessageContent) : list ContentPart :=
  match c with Text t => [PartText t] | Parts ps => ps | Null => [] end.

Lemma reasoning_text_none parts : (forall p, p ∈ parts -> is_reasoning p = false) -> reasoning_text parts = "".
Proof.
  unfold reasoning_text. generalize "". induction parts as [| p parts IH]; intros acc H; cbn [foldl]; [done |].
  pose proof (H p ltac:(by left)) as Hp. destruct p; try done; (apply IH; intros q Hq; apply H; by right).
Qed.

(** Reasoning never stays among the parts.  Normalising a message moves its
    reasoning to [reasoning_content] (kept as it was when the parts hold none), keeps
    every other part in order, leaves no reasoning part behind, and doing it again
    changes nothing. *)
Theorem reasoning_normalized m :
  let m' := normalize_reasoning_for_openai m in
  (forall p, p ∈ as_parts (content m') -> is_reasoning p = false)
  /\ (forall parts, content m = Parts parts ->
      (as_parts (content m') = retain (fun p => negb (is_reasoning p)) parts
       \/ retain (fun p => negb (is_reasoning p)) parts = [] /\ content m' = Text "")
      /\ reasoning_content m' = if bool_decide (reasoning_text parts = "") then reasoning_content m else Some (reasoning_text parts))
  /\ normalize_reasoning_for_openai m' = m'.
Proof.
  destruct m as [r c n tcs tid rc]. destruct c as [t | parts |].
  1, 3: split_and!; [by intros p Hp; repeat (apply elem_of_cons in Hp as [-> | Hp] || apply elem_of_nil in Hp) | done | done].
  set (other := retain (fun p => negb (is_reasoning p)) parts).
  assert (forall p, p ∈ other -> is_reasoning p = false) as Ho by (intros p [Hp _]%elem_of_retain; by apply negb_true_iff).
  assert (as_parts (match other with [] => Text "" | [PartText t] => Text t | _ => Parts other end) = other
          \/ other = [] /\ (match other with [] => Text "" | [PartText t] => Text t | _ => Parts other end) = Text "") as Has
    by (destruct other as [| [] []]; auto).
  change (normalize_reasoning_for_openai (mkMessage r (Parts parts) n tcs tid rc)) with
    (mkMessage r (match other with [] => Text "" | [PartText t] => Text t | _ => Parts other end) n tcs tid
       (if bool_decide (reasoning_text parts = "") then rc else Some (reasoning_text parts))).
  cbn [content reasoning_content].
  split_and!.
  - intros p. destruct Has as [-> | [_ ->]]; [apply Ho |]. by intros ->%list_elem_of_singleton.
  - intros ps [= <-]. done.
  - assert (reasoning_text other = "") as Hr by (by apply reasoning_text_none).
    assert (retain (fun p => negb (is_reasoning p)) other = other) as Hre by (apply retain_all; intros p Hp; by rewrite Ho).
    destruct other as [| p1 [| p2 rest]] eqn:E; [done | destruct p1; [done | |] | destruct p1];
      unfold normalize_reasoning_for_openai; cbn [content reasoning_content role m_name tool_calls tool_call_id];
      by rewrite Hr, Hre, bool_decide_eq_true_2 by done.
Qed.

End Messages.
