(* ===== verification/Router.v ===== *)
(** * Router: the routing decision (boom-routing)

    Models [boom-gateway/boom-routing/src/router.rs] (alias resolution, candidates, the
    delegation to the scheduling policy, the visible model list) and
    [boom-routing/src/hybrid_router.rs] (the content-based classifier in front of it).
    The policy and the classification strategy are the classes [SchedulePolicy]
    ([Policy]) and [ClassificationStrategy]; the router's theorems use only the
    policies' promise [PolicyLaws].  [str::to_lowercase] is a parameter. *)

From S2P Require Import Prelude Core Text Messages Stores Float64 Policy.

(** ** The hybrid router *)

Module HybridRouter.
Import Core Messages.

Section strategies.
(** The tool definitions of a request: only their presence is read. *)
Context {T : Type}.

Record ClassifyRequest := mkClassifyRequest {
  rq_messages : list Message;
  rq_tools : option (list T);
  rq_default_tier : string;
}.

Class ClassificationStrategy (S : Type) := {
  strategy_name : S -> string;
  strategy_classify : S -> ClassifyRequest -> string;
}.

Definition StrategyRegistry (S : Type) : Type := gmap string S.
Definition new_registry {S : Type} : StrategyRegistry S := ∅.
Definition register {S : Type} `{ClassificationStrategy S} (r : StrategyRegistry S) (s : S) : StrategyRegistry S :=
  <[strategy_name s := s]> r.
Definition get_strategy {S : Type} (r : StrategyRegistry S) (name : string) : option S := r !! name.

(** *** The tier classifier *)

Inductive TierClassifier := the_tier_classifier.

Record Scan := mkScan { user_text : string; has_system : bool; system_len : Z; has_code_blocks : bool }.

Definition part_text (p : ContentPart) : string := match p with PartText t => t | _ => "" end.
Definition message_text (c : MessageContent) : option string :=
  match c with
  | Messages.Text t => Some t
  | Parts parts => Some (String.concat " " (part_text <$> parts))
  | Null => None
  end.

Definition str_len (s : string) : Z := Z.of_nat (String.length s).

Definition scan_message (acc : Scan) (msg : Message) : Scan :=
  match message_text (content msg) with
  | None => acc
  | Some text =>
    let acc := match role msg with
               | User => mkScan (user_text acc +:+ text +:+ " ") (has_system acc) (system_len acc) (has_code_blocks acc)
               | System => mkScan (user_text acc) true (system_len acc + str_len text) (has_code_blocks acc)
               | _ => acc
               end in
    mkScan (user_text acc) (has_system acc) (system_len acc) (str_contains "```" text || has_code_blocks acc)
  end.

Definition scan_messages (ms : list Message) : Scan := foldl scan_message (mkScan "" false 0 false) ms.

Definition debug_keywords : list string := ["debug"; "调试"; "traceback"; "error log"; "stack trace"; "异常"].
Definition reasoning_keywords : list string :=
  ["prove"; "证明"; "推导"; "theorem"; "公式"; "formula"; "derive"; "mathematical"; "数学"; "calculus"; "logic"; "逻辑推理"].

Definition keyword_count (keywords : list string) (text : string) : Z :=
  Z.of_nat (length (retain (fun k => str_contains k text) keywords)).
Definition user_msg_count (ms : list Message) : Z := Z.of_nat (length (retain (fun m => bool_decide (role m = User)) ms)).

Definition add_if (c : bool) (x : f64) (score : f64) : f64 := if c then f64_add score x else score.

Definition add_length (user_len : Z) (score : f64) : f64 :=
  if 8000 <? user_len then f64_add score (f64_of 1)
  else if 2000 <? user_len then f64_add score (f64_lit 4 10)
  else if 500 <? user_len then f64_add score (f64_lit 1 10) else score.

Definition add_keywords (weight : f64) (most count : Z) (score : f64) : f64 :=
  if 0 <? count then f64_add score (f64_mul weight (f64_of (Z.min count most))) else score.

Definition add_depth (user_msgs : Z) (score : f64) : f64 :=
  if 6 <? user_msgs then f64_add score (f64_lit 3 10)
  else if 3 <? user_msgs then f64_add score (f64_lit 1 10) else score.

Definition tier_of (score : f64) : string :=
  if f64_lt score (f64_lit 5 10) then "small" else if f64_lt score (f64_lit 12 10) then "medium" else "large".

(** The score of a request, from what was counted. *)
Definition score_of (user_len : Z) (code : bool) (debug reasoning : Z) (tools complex : bool) (user_msgs : Z) : f64 :=
  let score := add_length user_len (f64_of 0) in
  let score := add_if code (f64_lit 8 10) score in
  let score := add_keywords (f64_lit 5 10) 2 debug score in
  let score := add_keywords (f64_lit 8 10) 3 reasoning score in
  let score := add_if tools (f64_lit 6 10) score in
  let score := add_if complex (f64_lit 3 10) score in
  add_depth user_msgs score.

Context (to_lowercase : string -> string).

Definition tier_classify (req : ClassifyRequest) : string :=
  let s := scan_messages (rq_messages req) in
  let user_text_lower := to_lowercase (user_text s) in
  let user_len := str_len (trim (user_text s)) in
  tier_of (score_of user_len (has_code_blocks s) (keyword_count debug_keywords user_text_lower)
             (keyword_count reasoning_keywords user_text_lower) (negb (is_none (rq_tools req)))
             (has_system s && (500 <? system_len s)) (user_msg_count (rq_messages req))).

Definition tier_classifier : ClassificationStrategy TierClassifier := {|
  strategy_name _ := "tier_classifier";
  strategy_classify _ := tier_classify;
|}.

(** *** The dynamic alias *)

Record HybridRouter (S : Type) := mkHybridRouter {
  model_name : string;
  strategy : S;
  default_tier : string;
  tiers : gmap string string;
}.
#[global] Arguments mkHybridRouter {S}.
#[global] Arguments model_name {S}.
#[global] Arguments strategy {S}.
#[global] Arguments default_tier {S}.
#[global] Arguments tiers {S}.

Definition classify {S : Type} `{ClassificationStrategy S} (h : HybridRouter S) (model : string) (messages : list Message)
    (tools : option (list T)) : option string :=
  if negb (bool_decide (model = model_name h)) then None
  else
    let tier := strategy_classify (strategy h) (mkClassifyRequest messages tools (default_tier h)) in
    Some (match tiers h !! tier with
          | Some t => t
          | None => default (model_name h) (tiers h !! default_tier h)
          end).

End strategies.
#[global] Arguments ClassifyRequest : clear implicits.
#[global] Arguments ClassificationStrategy : clear implicits.

(** *** Properties of the classifier *)

(** The score in tenths, as the weights mean it. *)
Definition tenths (user_len : Z) (code : bool) (debug reasoning : Z) (tools complex : bool) (user_msgs : Z) : Z :=
  (if 8000 <? user_len then 10 else if 2000 <? user_len then 4 else if 500 <? user_len then 1 else 0)
  + (if code then 8 else 0) + 5 * Z.min debug 2 + 8 * Z.min reasoning 3 + (if tools then 6 else 0) + (if complex then 3 else 0)
  + (if 6 <? user_msgs then 3 else if 3 <? user_msgs then 1 else 0).

Definition tier_of_tenths (t : Z) : string := if t <? 5 then "small" else if t <? 12 then "medium" else "large".

(** One input for each way the tests can go. *)
Definition length_cases : list Z := [0; 501; 2001; 8001].
Definition depth_cases : list Z := [0; 4; 7].
Definition bools : list bool := [false; true].

Definition all_tiers_exact : bool :=
  forallb (fun len => forallb (fun code => forallb (fun d => forallb (fun r => forallb (fun tools => forallb (fun complex =>
    forallb (fun msgs => String.eqb (tier_of (score_of len code d r tools complex msgs)) (tier_of_tenths (tenths len code d r tools complex msgs)))
    depth_cases) bools) bools) [0; 1; 2; 3]) [0; 1; 2]) bools) length_cases.

Lemma all_tiers_exact_true : all_tiers_exact = true.
Proof. vm_compute. reflexivity. Qed.

Lemma add_length_case user_len : exists len, len ∈ length_cases /\ (8000 <? len) = (8000 <? user_len)
  /\ (2000 <? len) = (2000 <? user_len) /\ (500 <? len) = (500 <? user_len).
Proof.
  destruct (Z.ltb_spec 8000 user_len); [exists 8001 | destruct (Z.ltb_spec 2000 user_len); [exists 2001 |
    destruct (Z.ltb_spec 500 user_len); [exists 501 | exists 0]]];
    (split; [set_solver |]); split_and!; symmetry; cbn; first [done | apply Z.ltb_lt; lia | apply Z.ltb_ge; lia].
Qed.

Lemma depth_case msgs : exists depth, depth ∈ depth_cases /\ (6 <? depth) = (6 <? msgs) /\ (3 <? depth) = (3 <? msgs).
Proof.
  destruct (Z.ltb_spec 6 msgs); [exists 7 | destruct (Z.ltb_spec 3 msgs); [exists 4 | exists 0]];
    (split; [set_solver |]); split_and!; symmetry; cbn; first [done | apply Z.ltb_lt; lia | apply Z.ltb_ge; lia].
Qed.

Lemma add_keywords_min weight most count score :
  0 < most -> 0 <= count -> add_keywords weight most (Z.min count most) score = add_keywords weight most count score.
Proof.
  intros Hm Hc. unfold add_keywords. rewrite (Z.min_l (Z.min count most) most) by lia.
  destruct (Z.ltb_spec 0 (Z.min count most)), (Z.ltb_spec 0 count); (done || lia).
Qed.

Lemma bool_in_bools b : In b bools.
Proof. destruct b; cbn; tauto. Qed.

Lemma min_in_2 n : 0 <= n -> In (Z.min n 2) [0; 1; 2].
Proof. intros. assert (Z.min n 2 = 0 \/ Z.min n 2 = 1 \/ Z.min n 2 = 2) as E by lia. cbn. naive_solver. Qed.

Lemma min_in_3 n : 0 <= n -> In (Z.min n 3) [0; 1; 2; 3].
Proof. intros. assert (Z.min n 3 = 0 \/ Z.min n 3 = 1 \/ Z.min n 3 = 2 \/ Z.min n 3 = 3) as E by lia. cbn. naive_solver. Qed.

#[local] Opaque f64_lit f64_of f64_add f64_mul tier_of.

Lemma case_exact len code d r tools complex depth :
  In len length_cases -> In d [0; 1; 2] -> In r [0; 1; 2; 3] -> In depth depth_cases ->
  tier_of (score_of len code d r tools complex depth) = tier_of_tenths (tenths len code d r tools complex depth).
Proof.
  intros H1 H2 H3 H4. apply String.eqb_eq. pose proof all_tiers_exact_true as H. unfold all_tiers_exact in H.
  exact (proj1 (forallb_forall _ _) (proj1 (forallb_forall _ _) (proj1 (forallb_forall _ _) (proj1 (forallb_forall _ _)
    (proj1 (forallb_forall _ _) (proj1 (forallb_forall _ _) (proj1 (forallb_forall _ _) H len H1) code (bool_in_bools _)) d H2) r H3)
    tools (bool_in_bools _)) complex (bool_in_bools _)) depth H4).
Qed.

(** Every score is one of finitely many. *)
Lemma tiers_exact user_len code debug reasoning tools complex msgs :
  0 <= debug -> 0 <= reasoning ->
  tier_of (score_of user_len code debug reasoning tools complex msgs) = tier_of_tenths (tenths user_len code debug reasoning tools complex msgs).
Proof.
  intros Hd Hr. destruct (add_length_case user_len) as (len & Hlen & L1 & L2 & L3), (depth_case msgs) as (depth & Hdep & D1 & D2).
  apply list_elem_of_In in Hlen, Hdep.
  pose proof (case_exact len code (Z.min debug 2) (Z.min reasoning 3) tools complex depth Hlen (min_in_2 _ Hd) (min_in_3 _ Hr) Hdep) as H.
  clear Hlen Hdep. unfold score_of, tenths, add_length, add_depth in *. rewrite L1, L2, L3, D1, D2, !add_keywords_min in H by lia.
  rewrite (Z.min_l (Z.min debug 2) 2), (Z.min_l (Z.min reasoning 3) 3) in H by lia. exact H.
Qed.

#[local] Transparent f64_lit f64_of f64_add f64_mul tier_of.

Lemma keyword_count_nonneg ks text : 0 <= keyword_count ks text.
Proof. unfold keyword_count. lia. Qed.

(** Rounding never moves a request to another tier.  The classifier adds its
    weights in [f64]; for every conversation the tier it returns is the one the exact
    sum of the weights gives (small below 0.5, large from 1.2), and it is always one
    of the three tiers. *)
Theorem tier_exact {T : Type} (to_lowercase : string -> string) (req : ClassifyRequest T) :
  let s := scan_messages (rq_messages req) in
  let lower := to_lowercase (user_text s) in
  let t := tenths (str_len (trim (user_text s))) (has_code_blocks s) (keyword_count debug_keywords lower)
             (keyword_count reasoning_keywords lower) (negb (is_none (rq_tools req))) (has_system s && (500 <? system_len s))
             (user_msg_count (rq_messages req)) in
  tier_classify to_lowercase req = (if t <? 5 then "small" else if t <? 12 then "medium" else "large").
Proof. intros s lower t. unfold tier_classify. by rewrite tiers_exact by apply keyword_count_nonneg. Qed.

End HybridRouter.

(** ** The router *)

Module Router.
Import Core Messages Stores Policy HybridRouter.

Section router.
Context {D Q P S T : Type} `{DecimalOps D} `{SchedulePolicy Q P} `{ClassificationStrategy T S}.

(** The policy and the classifier are hot-swapped wholesale. *)
Record Router := mkRouter {
  deployment_store : DeploymentStore D;
  alias_store : AliasStore;
  policy : P;
  classifier : option (HybridRouter S);
}.

Definition new_router (d : DeploymentStore D) (a : AliasStore) (p : P) : Router := mkRouter d a p None.
Definition with_classifier (d : DeploymentStore D) (a : AliasStore) (p : P) (c : option (HybridRouter S)) : Router := mkRouter d a p c.
Definition set_policy (r : Router) (p : P) : Router := mkRouter (deployment_store r) (alias_store r) p (classifier r).
Definition set_classifier (r : Router) (c : option (HybridRouter S)) : Router :=
  mkRouter (deployment_store r) (alias_store r) (policy r) c.
Definition router_policy_name (r : Router) : string := policy_name (Q := Q) (policy r).

Definition resolve_model (r : Router) (model : string) : option string := resolve (alias_store r) model.

Definition resolve_model_name (r : Router) (model : string) : string :=
  if contains (deployment_store r) model then model
  else match resolve (alias_store r) model with Some target => target | None => model end.

Definition resolve_request_model (r : Router) (model : string) (messages : list Message) (tools : option (list T)) : string :=
  match hr ← classifier r; classify hr model messages tools with
  | Some target => target
  | None => resolve_model_name r model
  end.

Definition is_hybrid_virtual_model (r : Router) (model : string) : bool :=
  match classifier r with Some c => bool_decide (model_name c = model) | None => false end.

Definition non_empty_providers (ps : list Provider) : option (list Provider) := if bool_decide (ps = []) then None else Some ps.

Definition resolve_candidates (r : Router) (model : string) : option (list Provider) :=
  match get_providers (deployment_store r) model with
  | Some ps => non_empty_providers ps
  | None =>
    match resolve (alias_store r) model with
    | Some target =>
      match get_providers (deployment_store r) target with
      | Some ps => non_empty_providers ps
      | None => None
      end
    | None => get_providers (deployment_store r) "*"
    end
  end.

Definition candidates_for (r : Router) (model : string) : option (list Provider) := resolve_candidates r model.

(** [None] outside is a panic of the policy. *)
Definition delegate (env : PolicyEnv Q) (r : Router) (model : string) (candidates : list Provider) (key_hash : option string)
    (input_chars : Z) (prefix_bytes : list Z) : option (Router * option Selection) :=
  match select_with_context env (policy r) model candidates key_hash input_chars prefix_bytes with
  | Some (p, sel) => Some (set_policy r p, sel)
  | None => None
  end.

Definition select_provider_with_prefix (env : PolicyEnv Q) (r : Router) (model : string) (key_hash : option string)
    (input_chars : Z) (prefix_bytes : list Z) : option (Router * option Selection) :=
  match resolve_candidates r model with
  | Some candidates => delegate env r model candidates key_hash input_chars prefix_bytes
  | None => Some (r, None)
  end.

Definition select_with_candidates (env : PolicyEnv Q) (r : Router) (model : string) (candidates : list Provider)
    (key_hash : option string) (input_chars : Z) (prefix_bytes : list Z) : option (Router * option Selection) :=
  if bool_decide (candidates = []) then Some (r, None)
  else delegate env r model candidates key_hash input_chars prefix_bytes.

Definition is_model_configured (r : Router) (model : string) : bool := contains (deployment_store r) model.

Definition visible_model_names (r : Router) : list string :=
  let names := retain (fun k => negb (bool_decide (k = "*"))) (model_names (deployment_store r)) in
  let names := foldl push_unique names (visible_names (alias_store r)) in
  match classifier r with Some hr => push_unique names (model_name hr) | None => names end.

(** ** Lemmas *)

Lemma push_unique_spec acc w : NoDup acc -> NoDup (push_unique acc w) /\ forall x, x ∈ push_unique acc w <-> x ∈ acc \/ x = w.
Proof.
  intros Hnd. unfold push_unique. case_bool_decide as Hw; [split; [done |]; naive_solver |].
  split; [| intros x; rewrite elem_of_app, list_elem_of_singleton; done].
  apply NoDup_app. split_and!; [done | by intros x Hx ->%list_elem_of_singleton | apply NoDup_singleton].
Qed.

Lemma push_unique_all acc l :
  NoDup acc -> NoDup (foldl push_unique acc l) /\ forall x, x ∈ foldl push_unique acc l <-> x ∈ acc \/ x ∈ l.
Proof.
  revert acc. induction l as [| w l IH]; intros acc Hnd; cbn [foldl]; [split; [done |]; set_solver |].
  destruct (push_unique_spec acc w Hnd) as [Hn Hin]. destruct (IH _ Hn) as [Hn' Hin']. split; [done |].
  intros x. rewrite Hin', Hin, elem_of_cons. naive_solver.
Qed.

Lemma model_names_spec (s : DeploymentStore D) x : x ∈ model_names s <-> contains s x = true.
Proof.
  unfold model_names, contains. rewrite list_elem_of_fmap. split.
  - intros ([k v] & -> & Hk). apply elem_of_map_to_list in Hk. cbn. by rewrite Hk.
  - destruct (deployments s !! x) as [ps |] eqn:E; [| done]. intros _. exists (x, ps). by rewrite elem_of_map_to_list.
Qed.

Lemma visible_names_spec s x : x ∈ visible_names s <-> is_Some (resolve s x) /\ is_hidden s x = false.
Proof.
  unfold visible_names, resolve. rewrite elem_of_retain, negb_true_iff, list_elem_of_fmap. split.
  - intros (Hh & [k v] & -> & Hk). apply elem_of_map_to_list in Hk. eauto.
  - intros ([v Hv] & Hh). split; [done |]. exists (x, v). by rewrite elem_of_map_to_list.
Qed.

(** ** Properties *)

(** The name whose deployments serve a model: the model itself if it has an entry,
    else its alias target, else the catch-all. *)
Inductive serves (r : Router) (model : string) : string -> Prop :=
| serves_itself : contains (deployment_store r) model = true -> serves r model model
| serves_alias target : contains (deployment_store r) model = false -> resolve (alias_store r) model = Some target ->
    serves r model target
| serves_any : contains (deployment_store r) model = false -> resolve (alias_store r) model = None -> serves r model "*".

Lemma serves_fun r model n n' : serves r model n -> serves r model n' -> n = n'.
Proof. intros [] []; congruence. Qed.

Lemma serves_total r model : exists n, serves r model n.
Proof.
  destruct (contains (deployment_store r) model) eqn:E; [by eexists; apply serves_itself |].
  destruct (resolve (alias_store r) model) eqn:Ea; eexists; [by eapply serves_alias | by apply serves_any].
Qed.

Lemma candidates_serve r model n : serves r model n ->
  match resolve_candidates r model with
  | Some ps => get_providers (deployment_store r) n = Some ps
  | None => default [] (get_providers (deployment_store r) n) = []
  end.
Proof.
  intros [E | t E Ea | E Ea]; revert E; unfold resolve_candidates, get_providers, contains, non_empty_providers.
  - destruct (_ !! model) as [ps |]; [| done]. intros _. case_bool_decide as He; [by rewrite He | done].
  - destruct (_ !! model); [done |]. intros _. rewrite Ea. destruct (_ !! t) as [ps |]; [| done].
    case_bool_decide as He; [by rewrite He | done].
  - destruct (_ !! model); [done |]. intros _. rewrite Ea. by destruct (_ !! "*").
Qed.

Context `{!PolicyLaws Q P}.

(** Only registered deployments are selected.  Exactly one name serves a model
    (the model itself when it is configured, else its alias target, else "*"), and
    whatever the policy, a selected provider is one of the deployments registered
    under that name; a model whose name has no deployment, configured or alias, is
    never served by another.  Selecting leaves the stores alone. *)
Theorem selection_registered env (r : Router) model key_hash chars bytes :
  exists n, serves r model n /\ (forall n', serves r model n' -> n' = n)
    /\ (forall r' sel, select_provider_with_prefix env r model key_hash chars bytes = Some (r', sel) ->
        deployment_store r' = deployment_store r /\ alias_store r' = alias_store r /\ classifier r' = classifier r
        /\ forall s, sel = Some s -> provider s ∈ default [] (get_providers (deployment_store r) n))
    /\ (default [] (get_providers (deployment_store r) n) = [] ->
        exists r', select_provider_with_prefix env r model key_hash chars bytes = Some (r', None)).
Proof.
  destruct (serves_total r model) as [n Hn]. exists n. split; [done |]. split; [intros; by eapply serves_fun |].
  pose proof (candidates_serve r model n Hn) as Hc. unfold select_provider_with_prefix, delegate.
  destruct (resolve_candidates r model) as [ps |].
  - rewrite Hc. cbn [default from_option id]. split.
    + intros r' sel. destruct (select_with_context _ _ _ _ _ _ _) as [[p s] |] eqn:E; intros; simplify_eq.
      split_and!; [done.. |]. intros s0 ->. by eapply policy_member.
    + intros ->. rewrite policy_empty. eauto.
  - split; [intros; simplify_eq; split_and!; done | eauto].
Qed.

(** The visible models are listed once.  A name is in the list iff it is a
    configured model (but the catch-all), an alias that is not hidden, or the virtual
    model of the classifier; no name appears twice. *)
Theorem visible_models_exact (r : Router) :
  NoDup (visible_model_names r)
  /\ forall x, x ∈ visible_model_names r <->
       (is_model_configured r x = true /\ x <> "*")
       \/ (is_Some (resolve_model r x) /\ is_hidden (alias_store r) x = false)
       \/ is_hybrid_virtual_model r x = true.
Proof.
  set (names := retain (fun k => negb (bool_decide (k = "*"))) (model_names (deployment_store r))).
  assert (NoDup names) as Hnd by (apply NoDup_filter, NoDup_fst_map_to_list).
  destruct (push_unique_all names (visible_names (alias_store r)) Hnd) as [Hn2 Hin2].
  assert (forall x, x ∈ names <-> is_model_configured r x = true /\ x <> "*") as Hin.
  { intros x. unfold names. rewrite elem_of_retain, model_names_spec, negb_true_iff, bool_decide_eq_false. unfold is_model_configured. tauto. }
  unfold visible_model_names, is_hybrid_virtual_model, resolve_model. fold names.
  destruct (classifier r) as [hr |].
  - destruct (push_unique_spec _ (model_name hr) Hn2) as [Hn3 Hin3]. split; [done |].
    intros x. rewrite Hin3, Hin2, Hin, visible_names_spec, bool_decide_eq_true. naive_solver.
  - split; [done |]. intros x. rewrite Hin2, Hin, visible_names_spec. naive_solver.
Qed.

(** The virtual model never reaches its own strategy's unknown tiers.  For the
    classifier's virtual model the resolved name is a configured tier target, or the
    virtual name when neither the tier nor the default tier is configured; for any
    other model the classifier changes nothing, and the target is returned as it is,
    even when it is itself an alias. *)
Theorem virtual_model_resolved (r : Router) model messages tools :
  (is_hybrid_virtual_model r model = false -> resolve_request_model r model messages tools = resolve_model_name r model)
  /\ (forall hr, classifier r = Some hr -> model = model_name hr ->
      (exists tier, tiers hr !! tier = Some (resolve_request_model r model messages tools)
        /\ (tier = default_tier hr \/ tier = strategy_classify (strategy hr) (mkClassifyRequest messages tools (default_tier hr))))
      \/ (tiers hr !! default_tier hr = None /\ resolve_request_model r model messages tools = model)).
Proof.
  unfold resolve_request_model, is_hybrid_virtual_model, classify. split.
  - destruct (classifier r) as [hr |]; [| done]. cbn [mbind option_bind]. intros Hf%bool_decide_eq_false_1.
    by rewrite bool_decide_eq_false_2 by congruence.
  - intros hr -> ->. cbn [mbind option_bind]. rewrite bool_decide_eq_true_2 by done. cbn [negb].
    set (tier := strategy_classify _ _). destruct (tiers hr !! tier) as [t |] eqn:E; [left; eauto |].
    destruct (tiers hr !! default_tier hr) as [t |] eqn:E2; [left; eauto | by right].
Qed.

End router.
#[global] Arguments Router : clear implicits.

(** ** Concrete runs *)

#[local] Existing Instance whole_decimal.

(** "gpt" is an alias of "m", which has two deployments; round robin, no classifier. *)
Definition demo_router : Router Z RoundRobinPolicy TierClassifier :=
  new_router (set_deployments new_deployment_store "m" demo_providers).1 (set_alias new_alias_store "gpt" "m" false) (mkRoundRobin ∅).

Lemma selection_registered_witness :
  exists r' s, select_provider_with_prefix demo_env demo_router "gpt" None 0 [] = Some (r', Some s)
    /\ provider s ∈ demo_providers.
Proof.
  destruct (selection_registered demo_env demo_router "gpt" None 0 []) as (n & _ & Hn & Hsel & _).
  assert (n = "m") as -> by (symmetry; apply Hn; by apply serves_alias).
  do 2 eexists. split; [reflexivity |]. by apply (Hsel _ _ eq_refl).
Defined.

End Router.
