(* ===== verification/LbRing.v ===== *)
(** * LbRing: backend selection and health of the load balancer (misc/LB)

    Models [misc/LB/src/backends.rs] (the FNV-1a hash, the consistent-hash ring, the
    ordered primary-standby choice) and the state machine of [misc/LB/src/health.rs]
    (consecutive failures of a backend and the set of unhealthy ones).  A socket
    address is a type with decidable equality and its [Display]; the probe itself
    (I/O) is an argument of a cycle. *)

From S2P Require Import Prelude Core Text.

Module LbRing.

(** ** The hash *)

Definition str_bytes (s : string) : list Z := (fun a => Z.of_N (N_of_ascii a)) <$> String.list_ascii_of_string s.

(** [hash_str]: FNV-1a on 64 bits. *)
Definition hash_step (h b : Z) : Z := wrap64 (Z.lxor h b * 0x00000100000001b3).
Definition hash_str (s : string) : Z := foldl hash_step 0xcbf29ce484222325 (str_bytes s).

Definition VNODES : Z := 150.

Section selection.
Context {A : Type} `{Countable A} (display : A -> string).

(** ** The ring *)

Record Ring := mkRing { nodes : list (Z * A) }.

Definition node_le (a b : Z * A) : Prop := a.1 <= b.1.
#[local] Instance node_le_dec : RelDecision node_le.
Proof. intros a b. unfold node_le. apply _. Defined.

Definition vnodes (addr : A) : list (Z * A) :=
  (fun vi => (hash_str (display addr +:+ "#" +:+ show vi), addr)) <$> seqZ 0 VNODES.

(** [sort_unstable_by_key]: the order of equal hashes is not specified by the
    standard library; here it is the sort's. *)
Definition ring_new (backends : list A) : Ring := mkRing (merge_sort node_le (backends ≫= vnodes)).

(** [binary_search_by_key]: the insertion point, which is the first of the nodes with
    that hash when there are any (the standard library may return any of them). *)
Definition insertion_point (h : Z) (ns : list (Z * A)) : nat := length (retain (fun p => p.1 <? h) ns).

(** The loop shared by the two selections: the first untried healthy address, else
    the first untried one. *)
Fixpoint first_untried (unhealthy : gset A) (attempted : list A) (fallback : option A) (addrs : list A) : option A :=
  match addrs with
  | [] => fallback
  | addr :: rest =>
    if bool_decide (addr ∈ attempted) then first_untried unhealthy attempted fallback rest
    else
      let fallback := match fallback with None => Some addr | Some _ => fallback end in
      if bool_decide (addr ∈ unhealthy) then first_untried unhealthy attempted fallback rest else Some addr
  end.

(** [None]: the remainder by zero of an empty ring panics. *)
Definition ring_pick (r : Ring) (key : string) (unhealthy : gset A) (attempted : list A) : option A :=
  let n := length (nodes r) in
  if bool_decide (n = O) then None
  else
    let start := (insertion_point (hash_str key) (nodes r) `mod` n)%nat in
    let clockwise := omap (fun off => snd <$> nodes r !! ((start + off) `mod` n)%nat) (seq 0 n) in
    match first_untried unhealthy attempted None clockwise with
    | Some addr => Some addr
    | None => snd <$> nodes r !! start
    end.

(** [None]: [backends[0]] of an empty list panics. *)
Definition pick_primary (backends : list A) (unhealthy : gset A) (attempted : list A) : option A :=
  match first_untried unhealthy attempted None backends with
  | Some addr => Some addr
  | None => backends !! O
  end.

Definition pick_active_active (idx : nat) (backends : list A) (rings : gmap nat Ring) (key : string)
    (unhealthy : gset A) (attempted : list A) : option A :=
  match rings !! idx with
  | Some ring => ring_pick ring key unhealthy attempted
  | None => pick_primary backends unhealthy attempted
  end.

(** ** Health *)

Definition classify_health (prev_failures : Z) (probe_healthy : bool) (fail_threshold : Z) : Z * bool :=
  if probe_healthy then (0, false) else let n := wrap32 (prev_failures + 1) in (n, fail_threshold <=? n).

(** One cycle of the prober: the backends and the threshold of the configuration at
    that time, and the outcome of each probe. *)
Record Cycle := mkCycle { cy_backends : list A; cy_probe : A -> bool; cy_threshold : Z }.

Definition health_step (threshold : Z) (st : gmap A Z * gset A) (r : A * bool) : gmap A Z * gset A :=
  let '(failures, unhealthy) := st in
  let prev := default 0 (failures !! r.1) in
  let '(nf, mark) := classify_health prev r.2 threshold in
  (<[r.1 := nf]> failures, if mark then {[ r.1 ]} ∪ unhealthy else unhealthy).

Definition probe_cycle (failures : gmap A Z) (c : Cycle) : gmap A Z * gset A :=
  let threshold := Z.max (cy_threshold c) 1 in
  let results := (fun addr => (addr, cy_probe c addr)) <$> cy_backends c in
  foldl (health_step threshold) (base.filter (fun kv : A * Z => kv.1 ∈ cy_backends c) failures, ∅) results.

(** The cycles so far, oldest first: the counters and the published set. *)
Definition run_cycles (cs : list Cycle) : gmap A Z * gset A :=
  foldl (fun st c => probe_cycle st.1 c) (∅, ∅) cs.

(** ** Lemmas: the selection loop *)

Definition untried (attempted : list A) (l : list A) : list A := retain (fun a => negb (bool_decide (a ∈ attempted))) l.
Definition candidates (unhealthy : gset A) (attempted : list A) (l : list A) : list A :=
  retain (fun a => negb (bool_decide (a ∈ unhealthy))) (untried attempted l).

Lemma elem_of_untried attempted l a : a ∈ untried attempted l <-> a ∉ attempted /\ a ∈ l.
Proof. unfold untried. by rewrite elem_of_retain, negb_true_iff, bool_decide_eq_false. Qed.
Lemma elem_of_candidates unhealthy attempted l a : a ∈ candidates unhealthy attempted l <-> a ∉ unhealthy /\ a ∉ attempted /\ a ∈ l.
Proof. unfold candidates. by rewrite elem_of_retain, negb_true_iff, bool_decide_eq_false, elem_of_untried. Qed.

(** The loop is: the first candidate, else the fallback, else the first untried. *)
Lemma first_untried_spec unhealthy attempted fallback l :
  first_untried unhealthy attempted fallback l =
    match head (candidates unhealthy attempted l) with
    | Some a => Some a
    | None => match fallback with Some a => Some a | None => head (untried attempted l) end
    end.
Proof.
  revert fallback. induction l as [| a l IH]; intros fallback; cbn [first_untried]; [by destruct fallback |].
  unfold candidates, untried in *. rewrite !retain_cons.
  case_bool_decide as Ha; cbn [negb]; [apply IH |]. rewrite retain_cons. case_bool_decide as Hu; cbn [negb head]; [| done].
  rewrite IH. destruct (head _); [done |]. by destruct fallback.
Qed.

(** What a selection promises: one of the backends, healthy and untried when there is
    one, else untried when there is one. *)
Definition chosen (unhealthy : gset A) (attempted backends : list A) (a : A) : Prop :=
  a ∈ backends
  /\ ((exists b, b ∈ backends /\ b ∉ attempted /\ b ∉ unhealthy) -> a ∉ attempted /\ a ∉ unhealthy)
  /\ ((exists b, b ∈ backends /\ b ∉ attempted) -> a ∉ attempted).

Lemma head_elem (l : list A) a : head l = Some a -> a ∈ l.
Proof. destruct l; cbn; intros; simplify_eq. by left. Qed.
Lemma head_none (l : list A) : head l = None -> l = [].
Proof. by destruct l. Qed.

(** A choice over a list that holds exactly the backends. *)
Lemma first_untried_chosen unhealthy attempted backends l a :
  (forall b, b ∈ l <-> b ∈ backends) ->
  match first_untried unhealthy attempted None l with Some x => Some x | None => head l end = Some a ->
  chosen unhealthy attempted backends a.
Proof.
  intros Hl. rewrite first_untried_spec. destruct (head (candidates unhealthy attempted l)) as [x |] eqn:Ec.
  { intros [= ->]. apply head_elem, elem_of_candidates in Ec as (? & ? & ?). split_and!; [by apply Hl | done | done]. }
  apply head_none in Ec. assert (~ exists b, b ∈ backends /\ b ∉ attempted /\ b ∉ unhealthy) as Hno.
  { intros (b & Hb & ? & ?). apply (not_elem_of_nil b). rewrite <- Ec. apply elem_of_candidates. split_and!; [done | done | by apply Hl]. }
  destruct (head (untried attempted l)) as [x |] eqn:Eu.
  { intros [= ->]. apply head_elem, elem_of_untried in Eu as [? ?]. split_and!; [by apply Hl | done | done]. }
  apply head_none in Eu. intros E. split_and!; [apply Hl; by apply head_elem | done |].
  intros (b & Hb & ?). exfalso. apply (not_elem_of_nil b). rewrite <- Eu. apply elem_of_untried. split; [done | by apply Hl].
Qed.

Lemma pick_primary_chosen unhealthy attempted backends :
  backends <> [] -> exists a, pick_primary backends unhealthy attempted = Some a /\ chosen unhealthy attempted backends a.
Proof.
  intros Hne. unfold pick_primary. assert (backends !! O = head backends) as E by (by destruct backends). rewrite E.
  destruct (match first_untried _ _ _ _ with Some x => Some x | None => _ end) as [a |] eqn:Ep.
  - exists a. split; [done |]. eapply first_untried_chosen; [| exact Ep]. done.
  - exfalso. destruct (first_untried _ _ _ _), backends; done.
Qed.

(** ** Lemmas: the ring read clockwise *)

Definition clockwise (h : Z) (ns : list (Z * A)) : list (Z * A) :=
  retain (fun p => negb (p.1 <? h)) ns ++ retain (fun p => p.1 <? h) ns.

Lemma insertion_split h ns :
  StronglySorted node_le ns ->
  take (insertion_point h ns) ns = retain (fun p => p.1 <? h) ns
  /\ drop (insertion_point h ns) ns = retain (fun p => negb (p.1 <? h)) ns.
Proof.
  unfold insertion_point. induction 1 as [| p ns Hs [IH1 IH2] Hall]; [done |]. rewrite !retain_cons.
  destruct (Z.ltb_spec p.1 h) as [Hlt | Hge]; cbn [negb]; [cbn; by rewrite IH1, IH2 |].
  assert (retain (fun p => p.1 <? h) ns = []) as E.
  { apply elem_of_nil_inv. intros q [Hq Hin]%elem_of_retain. rewrite Forall_forall in Hall. specialize (Hall q Hin). unfold node_le in Hall. lia. }
  rewrite E in *. cbn in *. by rewrite <- IH2.
Qed.

Lemma omap_lookup_seq {B} (l : list B) m k : (k + m <= length l)%nat -> omap (fun i => l !! i) (seq k m) = take m (drop k l).
Proof.
  revert k. induction m as [| m IH]; intros k Hk; [done |]. cbn [seq omap list_omap].
  destruct (lookup_lt_is_Some_2 l k) as [x Hx]; [lia |]. rewrite Hx, IH by lia. by rewrite (drop_S _ _ _ Hx).
Qed.

Lemma rotation_indices n start :
  (start < n)%nat -> (fun off => ((start + off) `mod` n)%nat) <$> seq 0 n = seq start (n - start) ++ seq 0 start.
Proof.
  intros Hs. apply list_eq. intros i. rewrite list_lookup_fmap. destruct (decide (i < n)%nat) as [Hi | Hi].
  - rewrite (lookup_seq_lt 0 n i) by done. cbn [fmap option_fmap option_map]. destruct (decide (i < n - start)%nat).
    + rewrite lookup_app_l by (rewrite length_seq; lia). rewrite lookup_seq_lt by lia. f_equal. apply Nat.mod_small. lia.
    + rewrite lookup_app_r by (rewrite length_seq; lia). rewrite length_seq, lookup_seq_lt by lia. f_equal.
      replace (start + (0 + i))%nat with ((start + i - n) + 1 * n)%nat by lia. rewrite Nat.Div0.mod_add, Nat.mod_small by lia. lia.
  - rewrite lookup_ge_None_2 by (rewrite length_seq; lia). rewrite lookup_ge_None_2; [done |]. rewrite length_app, !length_seq. lia.
Qed.

Lemma omap_fmap {B C D} (f : C -> option D) (g : B -> C) (l : list B) : omap f (g <$> l) = omap (fun x => f (g x)) l.
Proof. induction l as [| x l IH]; cbn; [done |]. by rewrite IH. Qed.

(** The loop of [pick] visits the ring clockwise from the key. *)
Lemma rotation_lookup {B} (l : list B) start :
  (start < length l)%nat -> omap (fun off => l !! ((start + off) `mod` length l)%nat) (seq 0 (length l)) = drop start l ++ take start l.
Proof.
  intros Hs. transitivity (omap (fun i => l !! i) ((fun off => ((start + off) `mod` length l)%nat) <$> seq 0 (length l))).
  { by rewrite omap_fmap. }
  rewrite rotation_indices by done. rewrite omap_app, !omap_lookup_seq by lia. f_equal.
  apply firstn_all2. rewrite length_drop. lia.
Qed.

Lemma ring_pick_clockwise r key unhealthy attempted :
  StronglySorted node_le (nodes r) -> nodes r <> [] ->
  let cw := (clockwise (hash_str key) (nodes r)).*2 in
  ring_pick r key unhealthy attempted = match first_untried unhealthy attempted None cw with Some a => Some a | None => head cw end.
Proof.
  intros Hs Hne cw. unfold ring_pick. rewrite bool_decide_eq_false_2 by (by destruct (nodes r)).
  set (n := length (nodes r)). set (h := hash_str key) in *. set (start := (insertion_point h (nodes r) `mod` n)%nat).
  assert (start < n)%nat as Hst by (apply Nat.mod_upper_bound; unfold n; by destruct (nodes r)).
  assert (drop start (nodes r) ++ take start (nodes r) = clockwise h (nodes r)) as Hcw.
  { unfold clockwise. destruct (insertion_split h (nodes r) Hs) as [Et Ed]. rewrite <- Et, <- Ed.
    assert (insertion_point h (nodes r) <= n)%nat as Hle by apply retain_length.
    unfold start. destruct (decide (insertion_point h (nodes r) = n)) as [-> | Hnn].
    - rewrite Nat.Div0.mod_same, (drop_ge _ n), (take_ge _ n), drop_0, take_0 by (unfold n; lia). by rewrite app_nil_r.
    - by rewrite Nat.mod_small by lia. }
  assert (omap (fun off => snd <$> nodes r !! ((start + off) `mod` n)%nat) (seq 0 n) = cw) as ->.
  { unfold cw. rewrite <- Hcw, <- rotation_lookup by done. by rewrite list_fmap_omap. }
  destruct (first_untried _ _ _ cw); [done |]. unfold cw. rewrite <- Hcw.
  destruct (lookup_lt_is_Some_2 (nodes r) start Hst) as [x Hx]. rewrite Hx, (drop_S _ _ _ Hx). done.
Qed.

(** ** Lemmas: the layout of the ring *)

#[local] Instance node_le_trans : Transitive node_le.
Proof. intros a b c. unfold node_le. lia. Qed.
#[local] Instance node_le_total : Total node_le.
Proof. intros a b. unfold node_le. lia. Qed.

Lemma ring_sorted backends : StronglySorted node_le (nodes (ring_new backends)).
Proof. apply StronglySorted_merge_sort; apply _. Qed.

Lemma ring_perm backends : nodes (ring_new backends) ≡ₚ backends ≫= vnodes.
Proof. apply merge_sort_Permutation. Qed.

(** Distinct hashes leave one sorted order. *)
Lemma sorted_unique (l1 l2 : list (Z * A)) :
  StronglySorted node_le l1 -> StronglySorted node_le l2 -> NoDup l1.*1 -> l1 ≡ₚ l2 -> l1 = l2.
Proof.
  intros H1. revert l2. induction H1 as [| x l1 Hs1 IH Hx]; intros l2 H2 Hnd Hp; [by apply Permutation_nil_l in Hp |].
  destruct H2 as [| y l2 Hs2 Hy]; [by apply Permutation_nil_r in Hp |].
  assert (x = y) as ->.
  { assert (x ∈ y :: l2) as Hxin by (rewrite <- Hp; by left). assert (y ∈ x :: l1) as Hyin by (rewrite Hp; by left).
    rewrite Forall_forall in Hx, Hy. unfold node_le in *. apply elem_of_cons in Hxin as [| Hxin], Hyin as [| Hyin]; try done.
    specialize (Hx _ Hyin). specialize (Hy _ Hxin).
    apply (NoDup_fmap_elem fst (x :: l1)); [done | by left | by right | cbn; lia]. }
  f_equal. apply IH; [done | by apply NoDup_cons in Hnd as [_ ?] | by eapply Permutation_cons_inv].
Qed.

Lemma elem_of_vnodes p addr : p ∈ vnodes addr -> p.2 = addr.
Proof. unfold vnodes. by intros (vi & -> & _)%list_elem_of_fmap. Qed.

Lemma vnodes_nonempty addr : exists h, (h, addr) ∈ vnodes addr.
Proof. eexists. apply list_elem_of_fmap. exists 0. split; [done |]. by apply elem_of_seqZ. Qed.

Lemma elem_of_ring b backends : b ∈ (nodes (ring_new backends)).*2 <-> b ∈ backends.
Proof.
  rewrite ring_perm, list_elem_of_fmap. setoid_rewrite list_elem_of_bind. split.
  - intros (p & -> & addr & Hp & Hin). by apply elem_of_vnodes in Hp as ->.
  - intros Hb. destruct (vnodes_nonempty b) as [h Hh]. exists (h, b). naive_solver.
Qed.

Lemma elem_of_clockwise p h ns : p ∈ clockwise h ns <-> p ∈ ns.
Proof. unfold clockwise. rewrite elem_of_app, !elem_of_retain, negb_true_iff. destruct (p.1 <? h); naive_solver. Qed.

Lemma elem_of_clockwise_addr b h ns : b ∈ (clockwise h ns).*2 <-> b ∈ ns.*2.
Proof. rewrite !list_elem_of_fmap. by setoid_rewrite elem_of_clockwise. Qed.

Lemma ring_nonempty backends : backends <> [] -> nodes (ring_new backends) <> [].
Proof.
  destruct backends as [| b bs]; [done |]. intros _ E. assert (b ∈ (nodes (ring_new (b :: bs))).*2) as Hb by (apply elem_of_ring; by left).
  rewrite E in Hb. by apply elem_of_nil in Hb.
Qed.

Lemma ring_pick_chosen key unhealthy attempted backends :
  backends <> [] ->
  exists a, ring_pick (ring_new backends) key unhealthy attempted = Some a /\ chosen unhealthy attempted backends a.
Proof.
  intros Hne. rewrite ring_pick_clockwise by (apply ring_sorted || by apply ring_nonempty).
  set (cw := (clockwise _ _).*2). assert (forall b, b ∈ cw <-> b ∈ backends) as Hcw.
  { intros b. unfold cw. by rewrite elem_of_clockwise_addr, elem_of_ring. }
  destruct (match first_untried _ _ _ _ with Some x => Some x | None => _ end) as [a |] eqn:E.
  - exists a. split; [done |]. by eapply first_untried_chosen.
  - exfalso. destruct (first_untried _ _ _ _); [done |]. apply head_none in E. destruct backends as [| b bs]; [done |].
    assert (b ∈ cw) as Hb by (apply Hcw; by left). rewrite E in Hb. by apply elem_of_nil in Hb.
Qed.

(** ** Lemmas: adding a backend *)

Definition other_than (new : A) (p : Z * A) : bool := negb (bool_decide (p.2 = new)).

Lemma clockwise_retain f h ns : retain f (clockwise h ns) = clockwise h (retain f ns).
Proof. unfold clockwise. rewrite retain_app. f_equal; apply retain_comm. Qed.

Lemma retain_sorted f ns : StronglySorted node_le ns -> StronglySorted node_le (retain f ns).
Proof.
  induction 1 as [| p ns Hs IH Hall]; [constructor |]. rewrite retain_cons. destruct (f p); [| done]. constructor; [done |].
  apply Forall_forall. intros q [_ Hq]%elem_of_retain. rewrite Forall_forall in Hall. by apply Hall.
Qed.

(** Without the nodes of the new backend the ring is the one before. *)
Lemma ring_without l1 new l2 :
  new ∉ l1 ++ l2 -> NoDup ((l1 ++ new :: l2) ≫= vnodes).*1 ->
  retain (other_than new) (nodes (ring_new (l1 ++ new :: l2))) = nodes (ring_new (l1 ++ l2)).
Proof.
  intros Hnew Hnd. apply sorted_unique; [apply retain_sorted, ring_sorted | apply ring_sorted | |].
  - eapply sublist_NoDup; [| apply fmap_sublist, sublist_filter]. by rewrite ring_perm.
  - rewrite (retain_perm _ _ _ (ring_perm _)), ring_perm, !bind_app. change ((new :: l2) ≫= vnodes) with (vnodes new ++ l2 ≫= vnodes).
    rewrite !retain_app, (retain_none (other_than new) (vnodes new)), app_nil_l.
    2: { intros p Hp%elem_of_vnodes. unfold other_than. by rewrite Hp, bool_decide_eq_true_2. }
    rewrite !retain_all; [done | |]; intros p (addr & Hp & Hin)%list_elem_of_bind; apply elem_of_vnodes in Hp;
      unfold other_than; rewrite Hp, bool_decide_eq_false_2; (done || set_solver).
Qed.

(** ** Lemmas: consecutive failures *)

(** The trailing cycles in which the backend was probed and failed. *)
Fixpoint streak (cs : list Cycle) (a : A) : Z :=
  match cs with
  | [] => 0
  | c :: older => if bool_decide (a ∈ cy_backends c) && negb (cy_probe c a) then 1 + streak older a else 0
  end.

Lemma streak_bounds cs a : 0 <= streak cs a <= Z.of_nat (length cs).
Proof. induction cs as [| c cs IH]; cbn [streak length]; [done |]. destruct (_ && _); lia. Qed.

(** One cycle, seen from one backend. *)
Lemma health_fold threshold (probe : A -> bool) l failures unhealthy a :
  NoDup l ->
  let r := foldl (health_step threshold) (failures, unhealthy) ((fun addr => (addr, probe addr)) <$> l) in
  let c := classify_health (default 0 (failures !! a)) (probe a) threshold in
  (a ∈ l -> r.1 !! a = Some c.1 /\ (a ∈ r.2 <-> a ∈ unhealthy \/ c.2 = true))
  /\ (a ∉ l -> r.1 !! a = failures !! a /\ (a ∈ r.2 <-> a ∈ unhealthy)).
Proof.
  revert failures unhealthy. induction l as [| b l IH]; intros failures unhealthy Hnd; cbn [fmap list_fmap foldl].
  { split; [by intros ?%elem_of_nil | done]. }
  apply NoDup_cons in Hnd as [Hb Hnd]. cbn zeta. unfold health_step at 2 4 6 8. cbn [fst snd].
  destruct (classify_health (default 0 (failures !! b)) (probe b) threshold) as [nf mark] eqn:Ec.
  destruct (IH (<[b := nf]> failures) (if mark then {[b]} ∪ unhealthy else unhealthy) Hnd) as [IHin IHout].
  destruct (decide (a = b)) as [-> | Hne].
  - destruct (IHout Hb) as [E1 E2]. rewrite Ec, E1, E2, lookup_insert_eq. cbn. split; [intros _ | set_solver].
    split; [done |]. destruct mark; set_solver.
  - rewrite lookup_insert_ne in IHin, IHout by done. split.
    + intros [? | Hin]%elem_of_cons; [done |]. destruct (IHin Hin) as [-> E2]. split; [done |]. rewrite E2. destruct mark; set_solver.
    + intros [_ Hn]%not_elem_of_cons. destruct (IHout Hn) as [-> E2]. split; [done |]. rewrite E2. destruct mark; set_solver.
Qed.

Lemma run_cycles_snoc cs c : run_cycles (cs ++ [c]) = probe_cycle (run_cycles cs).1 c.
Proof. unfold run_cycles. by rewrite foldl_app. Qed.

(** The counter of a backend is its streak; without a counter the streak is zero. *)
Lemma run_counters cs a :
  (forall c, c ∈ cs -> NoDup (cy_backends c)) -> Z.of_nat (length cs) < 2 ^ 32 ->
  default 0 ((run_cycles cs).1 !! a) = streak (reverse cs) a
  /\ (a ∈ (run_cycles cs).2 <-> exists c older, reverse cs = c :: older /\ 0 < streak (reverse cs) a
        /\ Z.max (cy_threshold c) 1 <= streak (reverse cs) a).
Proof.
  induction cs as [| c cs IH] using rev_ind; intros Hnd Hlen.
  { split; [done |]. split; [set_solver | intros (c & older & E & _); done]. }
  rewrite length_app in Hlen. cbn in Hlen. destruct IH as [IH _]; [set_solver | lia |].
  rewrite run_cycles_snoc, reverse_app. cbn [reverse rev_append app]. change (reverse [c] ++ reverse cs) with (c :: reverse cs).
  cbn [streak]. set (k := streak (reverse cs) a) in *. unfold probe_cycle.
  set (kept := base.filter _ (run_cycles cs).1). assert (NoDup (cy_backends c)) as Hc by (apply Hnd; set_solver).
  pose proof (streak_bounds (reverse cs) a) as Hk. rewrite length_reverse in Hk. fold k in Hk.
  destruct (health_fold (Z.max (cy_threshold c) 1) (cy_probe c) (cy_backends c) kept ∅ a Hc) as [Hin Hout].
  case_bool_decide as Ha; cbn [andb].
  - destruct (Hin Ha) as [E1 E2]. assert (default 0 (kept !! a) = k) as Ek.
    { rewrite <- IH. unfold kept. destruct ((run_cycles cs).1 !! a) as [v |] eqn:Ev.
      - by rewrite (map_lookup_filter_Some_2 _ _ a v).
      - by rewrite map_lookup_filter_None_2 by (by left). }
    rewrite E1, E2, Ek. unfold classify_health. destruct (cy_probe c a); cbn [negb fst snd].
    + split; [done |]. split; [set_solver |]. intros (c' & o' & _ & ? & _). lia.
    + replace (wrap32 (k + 1)) with (1 + k) by (unfold wrap32; rewrite Z.mod_small; lia). split; [done |]. rewrite Z.leb_le. split.
      * intros [? | Hle]; [set_solver |]. exists c, (reverse cs). split_and!; [done | lia | lia].
      * intros (c' & o' & [= <- <-] & _ & Hle). right. lia.
  - destruct (Hout Ha) as [E1 E2]. rewrite E1, E2. unfold kept. rewrite map_lookup_filter_None_2; [| naive_solver].
    split; [done |]. split; [set_solver |]. intros (c' & o' & _ & ? & _). lia.
Qed.

End selection.
#[global] Arguments Ring : clear implicits.
#[global] Arguments Cycle : clear implicits.

(** ** Properties *)

Section properties.
Context {A : Type} `{Countable A} (display : A -> string).

Lemma head_retain_other new (l : list (Z * A)) a :
  head l.*2 = Some a -> a <> new -> head (retain (other_than new) l).*2 = Some a.
Proof.
  destruct l as [| p l]; [done |]. cbn. intros [= <-] Hne. rewrite retain_cons. unfold other_than. by rewrite bool_decide_eq_false_2.
Qed.

Lemma retain_snd (f : A -> bool) (l : list (Z * A)) : retain f l.*2 = (retain (fun p => f p.2) l).*2.
Proof. induction l as [| p l IH]; [done |]. cbn [fmap list_fmap]. rewrite !retain_cons. destruct (f p.2); cbn; by rewrite IH. Qed.

(** A first element that is not the new backend is first without it. *)
Lemma head_without f new (l : list (Z * A)) a :
  head (retain f l.*2) = Some a -> a <> new -> head (retain f (retain (other_than new) l).*2) = Some a.
Proof.
  rewrite !retain_snd. intros Hh Hne. rewrite retain_comm. by apply head_retain_other.
Qed.

Lemma head_none_without f new (l : list (Z * A)) : retain f l.*2 = [] -> retain f (retain (other_than new) l).*2 = [].
Proof.
  intros Hn. apply elem_of_nil_inv. intros a [Hf Ha]%elem_of_retain. apply (not_elem_of_nil a). rewrite <- Hn. apply elem_of_retain.
  split; [done |]. apply list_elem_of_fmap in Ha as (p & -> & [_ Hp]%elem_of_retain). apply list_elem_of_fmap. eauto.
Qed.

Lemma candidates_retain unhealthy attempted (l : list A) :
  candidates unhealthy attempted l = retain (fun a => negb (bool_decide (a ∈ attempted)) && negb (bool_decide (a ∈ unhealthy))) l.
Proof.
  unfold candidates, untried. induction l as [| a l IH]; [done |]. rewrite !retain_cons.
  destruct (bool_decide (a ∈ attempted)); cbn [negb andb]; [done |]. rewrite retain_cons. by destruct (negb _); rewrite IH.
Qed.

(** C39: consistent hashing disturbs as little as it can.  When the vnodes hash
    apart, adding a backend anywhere in the list moves a key only onto the new
    backend, whatever is unhealthy or already tried; and when a backend becomes
    unhealthy only the keys it served move. *)
Theorem ring_minimal_disruption l1 new l2 key unhealthy attempted :
  new ∉ l1 ++ l2 -> l1 ++ l2 <> [] -> NoDup ((l1 ++ new :: l2) ≫= vnodes display).*1 ->
  (forall a, ring_pick (ring_new display (l1 ++ new :: l2)) key unhealthy attempted = Some a ->
     a = new \/ ring_pick (ring_new display (l1 ++ l2)) key unhealthy attempted = Some a)
  /\ (forall a b, ring_pick (ring_new display (l1 ++ l2)) key unhealthy attempted = Some a ->
     a ∉ attempted -> a ∉ unhealthy -> b <> a ->
     ring_pick (ring_new display (l1 ++ l2)) key ({[b]} ∪ unhealthy) attempted = Some a).
Proof.
  intros Hnew Hne Hnd. set (cw := clockwise (hash_str key) (nodes (ring_new display (l1 ++ new :: l2)))).
  assert (forall un, ring_pick (ring_new display (l1 ++ new :: l2)) key un attempted =
    match first_untried un attempted None cw.*2 with Some a => Some a | None => head cw.*2 end) as Enew.
  { intros un. apply ring_pick_clockwise; [apply ring_sorted | apply ring_nonempty; by destruct l1]. }
  assert (forall un, ring_pick (ring_new display (l1 ++ l2)) key un attempted =
    match first_untried un attempted None (retain (other_than new) cw).*2 with
    | Some a => Some a | None => head (retain (other_than new) cw).*2 end) as Eold.
  { intros un. rewrite ring_pick_clockwise by (apply ring_sorted || by apply ring_nonempty).
    unfold cw. by rewrite clockwise_retain, ring_without. }
  split; [rewrite Enew, Eold, !first_untried_spec, !candidates_retain; unfold untried |].
  - set (p := fun a : A => negb (bool_decide (a ∈ attempted)) && negb (bool_decide (a ∈ unhealthy))).
    set (q := fun a : A => negb (bool_decide (a ∈ attempted))).
    intros a. destruct (decide (a = new)) as [| Hn]; [by left |]. intros Ha. right. revert Ha.
    destruct (head (retain p cw.*2)) as [x |] eqn:E1.
    { intros [= ->]. by rewrite (head_without _ new cw a E1 Hn). }
    rewrite (head_none_without _ new cw (head_none _ E1)). cbn [head].
    destruct (head (retain q cw.*2)) as [x |] eqn:E2.
    { intros [= ->]. by rewrite (head_without _ new cw a E2 Hn). }
    rewrite (head_none_without _ new cw (head_none _ E2)). intros Ha. by apply head_retain_other.
  - set (old := (retain (other_than new) cw).*2). intros a b. rewrite !Eold, !first_untried_spec, !candidates_retain. unfold untried. fold old.
    intros Ha Hat Hun Hb. revert Ha.
    set (p := fun a : A => negb (bool_decide (a ∈ attempted)) && negb (bool_decide (a ∈ unhealthy))).
    set (p' := fun a : A => negb (bool_decide (a ∈ attempted)) && negb (bool_decide (a ∈ {[b]} ∪ unhealthy))).
    assert (a ∈ old -> head (retain p old) <> None) as Hsome.
    { intros Hin Hn%head_none. apply (not_elem_of_nil a). rewrite <- Hn. apply elem_of_retain. unfold p. by rewrite !bool_decide_eq_false_2. }
    assert (head (retain p old) = Some a -> head (retain p' old) = Some a) as Hkeep.
    { clear Hsome. induction old as [| x old IH]; [done |]. rewrite !retain_cons. unfold p at 1, p' at 1.
      destruct (bool_decide (x ∈ attempted)); cbn [negb andb]; [apply IH |]. destruct (decide (x ∈ unhealthy)) as [Hx | Hx].
      - rewrite (bool_decide_eq_true_2 (x ∈ unhealthy)), (bool_decide_eq_true_2 (x ∈ {[b]} ∪ unhealthy)) by set_solver. apply IH.
      - rewrite (bool_decide_eq_false_2 (x ∈ unhealthy)) by done. cbn [negb head]. intros [= ->].
        by rewrite bool_decide_eq_false_2 by set_solver. }
    destruct (head (retain p old)) as [x |] eqn:E1; [intros [= ->]; by rewrite (Hkeep eq_refl) |].
    destruct (head (retain (fun a => negb (bool_decide (a ∈ attempted))) old)) as [x |] eqn:E2; intros E; exfalso; apply Hsome; try done.
    + injection E as ->. by apply head_elem, elem_of_retain in E2 as [_ ?].
    + by apply head_elem.
Qed.

(** Selection prefers what can work.  For any backends (at least one) and any
    key, both the ring and the ordered selection give a backend of the list: a
    healthy one not tried yet when there is one, otherwise one not tried yet when
    there is one. *)
Theorem selection_prefers backends key unhealthy attempted :
  backends <> [] ->
  (exists a, ring_pick (ring_new display backends) key unhealthy attempted = Some a /\ chosen unhealthy attempted backends a)
  /\ (exists a, pick_primary backends unhealthy attempted = Some a /\ chosen unhealthy attempted backends a).
Proof. intros Hne. split; [by apply ring_pick_chosen | by apply pick_primary_chosen]. Qed.

(** C40: unhealthy means failing in a row.  After any number of probe cycles, through
    any reconfigurations (fewer than 2^32 cycles, none with a backend twice), a backend is
    in the published set iff it was probed and failed in each of the last [threshold]
    cycles or more (the threshold of the last cycle, at least one). *)
Theorem unhealthy_iff_streak (cs : list (Cycle A)) c a :
  (forall c', c' ∈ cs ++ [c] -> NoDup (cy_backends c')) -> Z.of_nat (length cs) + 1 < 2 ^ 32 ->
  a ∈ (run_cycles (cs ++ [c])).2 <-> Z.max (cy_threshold c) 1 <= streak (c :: reverse cs) a.
Proof.
  intros Hnd Hlen. destruct (run_counters display (cs ++ [c]) a Hnd) as [_ ->]; [rewrite length_app; cbn; lia |].
  rewrite reverse_app. change (reverse [c] ++ reverse cs) with (c :: reverse cs). split.
  - by intros (c' & o & [= <- <-] & _ & Hle).
  - intros Hle. exists c, (reverse cs). split_and!; [done | lia | done].
Qed.

End properties.

(** The test vector of the repository. *)
Example hash_str_abc : hash_str "abc" = 0xe71fa2190541574b.
Proof. reflexivity. Qed.

(** *** Witnesses: addresses as strings *)

Definition addr_name (s : string) : string := s.

Lemma ring_minimal_disruption_witness :
  "10.0.0.2:80" ∉ ["10.0.0.1:80"] /\ forall a, ring_pick (ring_new addr_name ["10.0.0.1:80"; "10.0.0.2:80"]) "key" ∅ [] = Some a ->
    a = "10.0.0.2:80" \/ ring_pick (ring_new addr_name ["10.0.0.1:80"]) "key" ∅ [] = Some a.
Proof.
  split; [apply (bool_decide_unpack _); vm_compute; exact I |].
  apply (proj1 (ring_minimal_disruption addr_name ["10.0.0.1:80"] "10.0.0.2:80" [] "key" ∅ []
    ltac:(apply (bool_decide_unpack _); vm_compute; exact I) ltac:(discriminate)
    ltac:(apply (bool_decide_unpack _); vm_compute; exact I))).
Defined.

Lemma selection_prefers_witness :
  exists a, pick_primary ["a"; "b"; "c"] {["a"]} ["b"] = Some a /\ chosen {["a"]} ["b"] ["a"; "b"; "c"] a.
Proof. apply (selection_prefers addr_name ["a"; "b"; "c"] "key"). discriminate. Defined.

Definition demo_cycles : list (Cycle string) :=
  [mkCycle ["a"; "b"] (fun x => String.eqb x "a") 2; mkCycle ["a"; "b"] (fun _ => false) 2].

Lemma unhealthy_iff_streak_witness :
  "b" ∈ (run_cycles (demo_cycles ++ [mkCycle ["b"] (fun _ => false) 3])).2.
Proof.
  apply (unhealthy_iff_streak addr_name demo_cycles (mkCycle ["b"] (fun _ => false) 3) "b");
    [apply Forall_forall; repeat constructor; (apply (bool_decide_unpack _); vm_compute; exact I) | vm_compute; reflexivity | vm_compute; discriminate].
Defined.

End LbRing.
