(* ===== verification/LbGateway.v ===== *)
(** * LbGateway: blacklist, routes and request handling of the load balancer (misc/LB)

    Models [misc/LB/src/client.rs] (the effective client address), [blacklist.rs],
    [routes.rs] and [config.rs] (route and configuration validation, first-match
    routing, the access-log sampling).  The file LbProxy has the request phases.  The crate
    [ipnet] is the class [IpNetOps]; the parsers and formatters of addresses and
    [str::to_lowercase] are parameters. *)

From S2P Require Import Prelude Core Text Float64 LbRing.

Module LbGateway.
Import Core LbRing.

(** ** Addresses *)

Inductive IpAddr := V4 (bits : Z) | V6 (bits : Z).

#[export] Instance IpAddr_eq_dec : EqDecision IpAddr.
Proof. solve_decision. Defined.
#[export] Instance IpAddr_countable : Countable IpAddr.
Proof.
  apply (inj_countable' (fun ip => match ip with V4 n => inl n | V6 n => inr n end)
           (fun s => match s with inl n => V4 n | inr n => V6 n end)).
  by intros [].
Defined.

Definition is_ipv4 (ip : IpAddr) : bool := match ip with V4 _ => true | V6 _ => false end.

(** The derived order: every IPv4 address before every IPv6 address. *)
Definition ip_le (a b : IpAddr) : bool :=
  match a, b with V4 x, V4 y | V6 x, V6 y => x <=? y | V4 _, V6 _ => true | V6 _, V4 _ => false end.

(** The crate [ipnet]. *)
Class IpNetOps (N : Type) := {
  net_contains : N -> IpAddr -> bool;
  prefix_len : N -> Z;
  max_prefix_len : N -> Z;
  net_addr : N -> IpAddr;
  net_from : IpAddr -> N;
}.

(** Its documented behaviour: a network of full length is its one address. *)
Class IpNetLaws (N : Type) `{IpNetOps N} := {
  net_full : forall (n : N) ip, prefix_len n = max_prefix_len n -> net_contains n ip = bool_decide (ip = net_addr n);
}.

Section addresses.
Context {N : Type} `{IpNetOps N}.
Context (parse_ip : string -> string + IpAddr) (parse_net : string -> string + N).

(** *** Splitting text *)

(** [str::lines] *)
Definition newline : ascii := ascii_of_nat 10.
Definition carriage_return : string := utf8 [13].
Definition lines (s : string) : list string :=
  let parts := split_on newline s in
  let parts := if bool_decide (last parts = Some "") then removelast parts else parts in
  (fun l => default l (strip_suffix carriage_return l)) <$> parts.

(** ** The client *)

Definition parse_client_ip (s : string) : string + N :=
  if negb (has_char "/" s) then match parse_ip s with inr ip => inr (net_from ip) | inl e => inl e end
  else parse_net s.

Definition trusts (trusted : list N) (ip : IpAddr) : bool := existsb (fun n => net_contains n ip) trusted.

(** The hops right to left: the first that parses and is not trusted. *)
Fixpoint first_untrusted (trusted : list N) (hops : list string) : option IpAddr :=
  match hops with
  | [] => None
  | hop :: rest =>
    match parse_ip (trim hop) with
    | inr ip => if trusts trusted ip then first_untrusted trusted rest else Some ip
    | inl _ => first_untrusted trusted rest
    end
  end.

Definition effective_client_ip (peer_ip : option IpAddr) (xff : option string) (trusted : list N) : option IpAddr :=
  match peer_ip with
  | None => None
  | Some peer =>
    if trusts trusted peer
    then match header ← xff; first_untrusted trusted (reverse (split_on "," header)) with
         | Some ip => Some ip
         | None => Some peer
         end
    else Some peer
  end.

(** ** The blacklist *)

Inductive BlacklistEntry := Net (n : N) | Range (start stop : IpAddr).

Record Blacklist := mkBlacklist { exact : gset IpAddr; nets : list N; ranges : list (IpAddr * IpAddr) }.

Definition empty_blacklist : Blacklist := mkBlacklist ∅ [] [].

Definition add_entry (bl : Blacklist) (e : BlacklistEntry) : Blacklist :=
  match e with
  | Net n =>
    if prefix_len n =? max_prefix_len n then mkBlacklist ({[ net_addr n ]} ∪ exact bl) (nets bl) (ranges bl)
    else mkBlacklist (exact bl) (nets bl ++ [n]) (ranges bl)
  | Range s e => mkBlacklist (exact bl) (nets bl) (ranges bl ++ [(s, e)])
  end.

Definition from_entries (es : list BlacklistEntry) : Blacklist := foldl add_entry empty_blacklist es.

Definition bl_contains (bl : Blacklist) (ip : IpAddr) : bool :=
  bool_decide (ip ∈ exact bl) || existsb (fun n => net_contains n ip) (nets bl)
  || existsb (fun r => ip_le r.1 ip && ip_le ip r.2) (ranges bl).

Definition bl_len (bl : Blacklist) : Z :=
  Z.of_nat (size (exact bl)) + Z.of_nat (length (nets bl)) + Z.of_nat (length (ranges bl)).

(** The messages hold the formatted addresses, a parameter of the file. *)
Context (show_ip : IpAddr -> string).

Definition parse_range (start stop : string) : string + BlacklistEntry :=
  match parse_ip start with
  | inl e => inl ("range start '" +:+ start +:+ "': " +:+ e)
  | inr s =>
    match parse_ip stop with
    | inl e => inl ("range end '" +:+ stop +:+ "': " +:+ e)
    | inr e =>
      if negb (Bool.eqb (is_ipv4 s) (is_ipv4 e)) then inl ("range mixes IPv4 and IPv6: " +:+ start +:+ "-" +:+ stop)
      else if negb (ip_le s e) then inl ("range start " +:+ show_ip s +:+ " > end " +:+ show_ip e)
      else inr (Range s e)
    end
  end.

Definition parse_blacklist_entry (line : string) : string + BlacklistEntry :=
  match trim <$> split_on "-" line with
  | [start; stop] => parse_range start stop
  | _ :: _ :: _ :: _ => inl ("invalid range '" +:+ line +:+ "' (expected exactly one '-')")
  | _ => match parse_client_ip line with inr n => inr (Net n) | inl e => inl e end
  end.

Definition parse_blacklist (content : string) : list BlacklistEntry :=
  omap (fun line => match parse_blacklist_entry line with inr e => Some e | inl _ => None end)
    (retain (fun line => negb (bool_decide (line = ""))) ((fun line => trim (split_first "#" line)) <$> lines content)).

(** [None] is a file that cannot be read; no path is no blacklist. *)
Definition load_blacklist_state (file : option (option string)) : Blacklist :=
  match file with
  | Some (Some content) => from_entries (parse_blacklist content)
  | _ => empty_blacklist
  end.

End addresses.
#[global] Arguments BlacklistEntry : clear implicits.
#[global] Arguments Blacklist : clear implicits.

(** ** Routes *)

Inductive LbMode := ActiveActive | ActiveStandby.
#[export] Instance LbMode_eq_dec : EqDecision LbMode.
Proof. solve_decision. Defined.

(** In seconds. *)
Record UpstreamTimeouts := mkTimeouts { t_connect : Z; t_total_connect : Z; t_read : Z; t_idle : Z }.
Record RouteTimeouts := mkRouteTimeouts {
  rt_connect : option Z; rt_total_connect : option Z; rt_read : option Z; rt_idle : option Z }.

Definition default_timeouts : UpstreamTimeouts := mkTimeouts 3 5 30 60.

Definition merge_timeouts (r : RouteTimeouts) (base : UpstreamTimeouts) : UpstreamTimeouts :=
  mkTimeouts (default (t_connect base) (rt_connect r)) (default (t_total_connect base) (rt_total_connect r))
    (default (t_read base) (rt_read r)) (default (t_idle base) (rt_idle r)).

Section matching.
Context (to_lowercase : string -> string).

Definition host_matches (request_host pattern : string) : bool :=
  let req := to_lowercase request_host in
  let pat := to_lowercase pattern in
  match strip_prefix "*." pat with
  | Some suffix => ends_with ("." +:+ suffix) req
  | None => bool_decide (req = pat)
  end.

(** [trim_end_matches('/')], on the reversed string. *)
Fixpoint drop_slashes (s : string) : string :=
  match s with String a s' => if Ascii.eqb a "/" then drop_slashes s' else s | EmptyString => "" end.
Definition trim_slashes (s : string) : string := string_rev (drop_slashes (string_rev s)).

Definition path_matches (path pattern : string) : bool :=
  let prefix := trim_slashes pattern in
  if bool_decide (prefix = "") then true
  else match strip_prefix prefix path with
       | Some rest => bool_decide (rest = "") || starts_with "/" rest
       | None => false
       end.

Fixpoint count_char (c : ascii) (s : string) : Z :=
  match s with EmptyString => 0 | String a s' => (if Ascii.eqb a c then 1 else 0) + count_char c s' end.

Definition is_digit (a : ascii) : bool := match digit_value a with Some _ => true | None => false end.
Definition is_hexdigit (a : ascii) : bool :=
  let n := Z.of_N (N_of_ascii a) in is_digit a || ((97 <=? n) && (n <=? 102)) || ((65 <=? n) && (n <=? 70)).
Definition all_chars (f : ascii -> bool) (s : string) : bool := forallb f (String.list_ascii_of_string s).

Definition strip_port (host : string) : string :=
  if starts_with "[" host
  then match split_once "]" host with Some (inner, _) => inner +:+ "]" | None => host end
  else if (2 <=? count_char ":" host) && all_chars (fun a => is_hexdigit a || Ascii.eqb a ":") host then host
  else match rsplit_once ":" host with
       | Some (head, port) => if negb (bool_decide (port = "")) && all_chars is_digit port then head else host
       | None => host
       end.

Definition request_host (uri_host host_header : option string) : string :=
  let host := strip_port (default (default "" host_header) uri_host) in
  match rest ← strip_prefix "[" host; strip_suffix "]" rest with Some inner => inner | None => host end.

End matching.

Section config.
Context {N : Type} `{IpNetOps N} {A : Type}.
Context (parse_ip : string -> string + IpAddr) (parse_net : string -> string + N) (parse_socket : string -> string + A).
Context (to_lowercase : string -> string).

Record Route := mkRoute {
  rt_host : option string;
  rt_path : option string;
  rt_client_ip : option N;
  rt_backend : option A;
  rt_backends : option (list A);
  rt_redirect : option string;
  rt_redirect_code : Z;
  rt_mode : LbMode;
  rt_timeouts : option RouteTimeouts;
}.

Record RouteRaw := mkRouteRaw {
  raw_host : option string;
  raw_path : option string;
  raw_client_ip : option string;
  raw_backend : option string;
  raw_backends : option (list string);
  raw_redirect : option string;
  raw_redirect_code : option Z;
  raw_mode : LbMode;
  raw_timeouts : option RouteTimeouts;
}.

Definition parse_addr (s : string) : string + A :=
  match parse_socket s with inr a => inr a | inl e => inl ("invalid address '" +:+ s +:+ "': " +:+ e) end.

(** [collect::<Result<Vec<_>, _>>]: the first error wins. *)
Fixpoint collect {B C : Type} (f : B -> string + C) (l : list B) : string + list C :=
  match l with
  | [] => inr []
  | x :: rest => match f x with inl e => inl e | inr y => match collect f rest with inl e => inl e | inr ys => inr (y :: ys) end end
  end.

Definition opt_result {B C : Type} (f : B -> string + C) (o : option B) : string + option C :=
  match o with None => inr None | Some x => match f x with inr y => inr (Some y) | inl e => inl e end end.

Definition count_some {B C D : Type} (a : option B) (b : option C) (c : option D) : Z :=
  (if is_none a then 0 else 1) + (if is_none b then 0 else 1) + (if is_none c then 0 else 1).

Definition redirect_code_of (o : option Z) : string + Z :=
  match o with
  | Some c => if bool_decide (c ∈ [301; 302; 303; 307; 308]) then inr c
              else inl ("redirect_code must be one of 301/302/303/307/308, got " +:+ show c)
  | None => inr 302
  end.

Definition route_from_raw (raw : RouteRaw) : string + Route :=
  match opt_result (parse_client_ip parse_ip parse_net) (raw_client_ip raw) with
  | inl e => inl e
  | inr client_ip =>
    let set_count := count_some (raw_backend raw) (raw_backends raw) (raw_redirect raw) in
    if negb (set_count =? 1)
    then inl ("route must set exactly one of `backend`, `backends`, `redirect` (found " +:+ show set_count +:+ ")")
    else if match raw_redirect raw with Some r => bool_decide (trim r = "") | None => false end
    then inl "redirect target must not be empty"
    else
      match redirect_code_of (raw_redirect_code raw) with
      | inl e => inl e
      | inr code =>
        let targets := match raw_backend raw, raw_backends raw with
          | Some b, None => match parse_addr b with inr a => inr (Some a, None) | inl e => inl e end
          | None, Some [] => inl "route with `backends` has empty list"
          | None, Some list => match collect parse_addr list with inr l => inr (None, Some l) | inl e => inl e end
          | _, _ => inr (None, None)
          end in
        match targets with
        | inl e => inl e
        | inr (backend, backends) =>
          inr (mkRoute (raw_host raw) (raw_path raw) client_ip backend backends (raw_redirect raw) code (raw_mode raw) (raw_timeouts raw))
        end
      end
  end.

Record HealthCheckConfig := mkHealthCheck { hc_path : option string; hc_expected : Z; hc_interval : Z; hc_threshold : Z }.
Definition default_health : HealthCheckConfig := mkHealthCheck None 200 5 3.

Record AccessLogConfig := mkAccessLog { al_enabled : bool; sample_rate : f64 }.
Definition default_access_log : AccessLogConfig := mkAccessLog true (f64_of 1).

Record Retry5xxConfig := mkRetry5xx { r5_enabled : bool; r5_methods : list string; r5_max_tries : Z }.
Definition default_retry5xx : Retry5xxConfig := mkRetry5xx false ["GET"; "HEAD"; "OPTIONS"] 1.

(** [sni] is empty for the address of the backend. *)
Record UpstreamTlsConfig := mkUpstreamTls { ut_enabled : bool; ut_sni : string; ut_verify : bool }.
Record TlsConfig := mkTls { tls_port : Z; tls_cert : string; tls_key : string }.

Record ConfigRaw := mkConfigRaw {
  cr_listen_port : option Z;
  cr_tls : option TlsConfig;
  cr_upstream_tls : option UpstreamTlsConfig;
  cr_blacklist : option string;
  cr_worker_threads : option Z;
  cr_default_backend : option string;
  cr_default_backends : option (list string);
  cr_max_body_size : option Z;
  cr_trusted_proxies : option (list string);
  cr_timeouts : RouteTimeouts;
  cr_health_check : option HealthCheckConfig;
  cr_access_log : option AccessLogConfig;
  cr_retry_5xx : option Retry5xxConfig;
  cr_max_retries : option Z;
  cr_routes : list RouteRaw;
}.

Record Config := mkConfig {
  listen_port : option Z;
  tls : option TlsConfig;
  default_backends : list A;
  max_body_size : option Z;
  upstream_tls : option UpstreamTlsConfig;
  blacklist_path : option string;
  trusted_proxies : list N;
  cf_timeouts : UpstreamTimeouts;
  health_check : HealthCheckConfig;
  access_log : AccessLogConfig;
  retry_5xx : Retry5xxConfig;
  worker_threads : Z;
  max_retries : Z;
  routes : list Route;
}.

Definition default_backends_of (raw : ConfigRaw) : string + list A :=
  match cr_default_backend raw, cr_default_backends raw with
  | Some s, None => match parse_addr s with inr a => inr [a] | inl e => inl e end
  | None, Some [] => inl "default_backends must not be empty"
  | None, Some list => collect parse_addr list
  | Some _, Some _ => inl "set exactly one of `default_backend` / `default_backends`"
  | None, None => inl "missing `default_backend` (or `default_backends`)"
  end.

Definition check_health_path (h : HealthCheckConfig) : option string :=
  match hc_path h with
  | None => None
  | Some p =>
    if negb (starts_with "/" p) then Some ("health_check.path must start with '/', got '" +:+ p +:+ "'")
    else if has_char (ascii_of_nat 13) p || has_char newline p then Some "health_check.path must not contain CR/LF characters"
    else None
  end.

Definition is_finite (x : f64) : bool := match x with S754_zero _ | S754_finite _ _ _ => true | _ => false end.
(** [f64::clamp(0.0, 1.0)] *)
Definition clamp01 (x : f64) : f64 := if f64_lt x (f64_of 0) then f64_of 0 else if f64_lt (f64_of 1) x then f64_of 1 else x.

Definition default_worker_threads (cpus : Z) : Z := Z.min cpus 8.
Definition positive_or (o : option Z) (d : Z) : Z := match o with Some n => if 0 <? n then n else d | None => d end.

(** [cpus] is what the system tells of its parallelism, if it does. *)
Definition config_from_raw (cpus : option Z) (raw : ConfigRaw) : string + Config :=
  match default_backends_of raw with
  | inl e => inl e
  | inr backends =>
    match collect route_from_raw (cr_routes raw) with
    | inl e => inl e
    | inr rs =>
      match collect (parse_client_ip parse_ip parse_net) (default [] (cr_trusted_proxies raw)) with
      | inl e => inl e
      | inr proxies =>
        let health := default default_health (cr_health_check raw) in
        match check_health_path health with
        | Some e => inl e
        | None =>
          let log := default default_access_log (cr_access_log raw) in
          if negb (is_finite (sample_rate log)) then inl "access_log.sample_rate must be a finite number between 0.0 and 1.0"
          else
            inr (mkConfig (cr_listen_port raw) (cr_tls raw) backends (cr_max_body_size raw) (cr_upstream_tls raw) (cr_blacklist raw)
                   proxies (merge_timeouts (cr_timeouts raw) default_timeouts) health
                   (mkAccessLog (al_enabled log) (clamp01 (sample_rate log))) (default default_retry5xx (cr_retry_5xx raw))
                   (positive_or (cr_worker_threads raw) (match cpus with Some n => default_worker_threads n | None => 1 end))
                   (positive_or (cr_max_retries raw) 3) rs)
        end
      end
    end
  end.

Definition route_matches (r : Route) (host path : string) (client_ip : option IpAddr) : bool :=
  match rt_host r with Some h => host_matches to_lowercase host h | None => true end
  && match rt_path r with Some p => path_matches path p | None => true end
  && match rt_client_ip r with
     | Some net => match client_ip with Some ip => net_contains net ip | None => false end
     | None => true
     end.

(** The index of the first route that matches, with the route. *)
Definition resolve_route (c : Config) (host path : string) (client_ip : option IpAddr) : option (nat * Route) :=
  list_find (fun r => route_matches r host path client_ip = true) (routes c).

(** ** The access log *)

(** The cast of a finite [f64] to [u64]: truncation, saturating. *)
Definition f64_to_u64 (x : f64) : Z :=
  match x with
  | S754_finite false m e => Z.min u64_max (Z.shiftl (Z.pos m) e)
  | S754_infinity false => u64_max
  | _ => 0
  end.

(** The client is formatted with [Debug]. *)
Definition should_log (debug_client : option IpAddr -> string) (log : AccessLogConfig) (method host path : string) (client : option IpAddr) : bool :=
  if negb (al_enabled log) || f64_le (sample_rate log) (f64_of 0) then false
  else if f64_le (f64_of 1) (sample_rate log) then true
  else hash_str (method +:+ "|" +:+ host +:+ "|" +:+ path +:+ "|" +:+ debug_client client) mod 10000
       <? f64_to_u64 (f64_mul (sample_rate log) (f64_of 10000)).

End config.
#[global] Arguments Route : clear implicits.
#[global] Arguments Config : clear implicits.

(** ** Lemmas: text *)


(** A separator ends a part. *)
Lemma split_on_app c l r : split_on c (l +:+ String c r) = split_on c l ++ split_on c r.
Proof.
  induction l as [| a l IH]; [rewrite append_nil | rewrite append_cons]; cbn [split_on].
  { by rewrite Ascii.eqb_refl. }
  destruct (Ascii.eqb a c); rewrite IH; [done |]. pose proof (split_on_nonempty c l). by destruct (split_on c l).
Qed.

Lemma split_on_none c s : has_char c s = false -> split_on c s = [s].
Proof.
  induction s as [| a s IH]; [done |]. cbn [has_char split_on]. destruct (Ascii.eqb a c); [done |]. cbn [orb].
  intros Hs. by rewrite IH.
Qed.

(** Parts, each after a separator. *)
Fixpoint appended (c : ascii) (parts : list string) : string :=
  match parts with [] => "" | p :: ps => String c (p +:+ appended c ps) end.

Lemma split_on_appended c s parts :
  has_char c s = false -> Forall (fun p => has_char c p = false) parts -> split_on c (s +:+ appended c parts) = s :: parts.
Proof.
  intros Hs Hp. revert s Hs. induction Hp as [| p ps Hp _ IH]; intros s Hs; cbn [appended].
  - rewrite append_nil_r. by apply split_on_none.
  - rewrite split_on_app, IH by done. by rewrite split_on_none.
Qed.

(** ** Properties *)

Section properties.
Context {N : Type} `{IpNetOps N}.
Context (parse_ip : string -> string + IpAddr) (parse_net : string -> string + N).

Lemma first_untrusted_skip trusted l1 l2 :
  Forall (fun hop => match parse_ip (trim hop) with inr ip => trusts trusted ip = true | inl _ => True end) l1 ->
  first_untrusted parse_ip trusted (l1 ++ l2) = first_untrusted parse_ip trusted l2.
Proof. induction 1 as [| hop l1 Hh _ IH]; [done |]. cbn. destruct (parse_ip (trim hop)); [done |]. by rewrite Hh. Qed.

(** A client cannot choose the address it is judged by.  A peer that is not a
    trusted proxy is its own address whatever it sends; and behind trusted proxies
    the address is the one the first of them appended, whatever came before it in
    the header, as long as the hops appended after it are trusted or unreadable. *)
Theorem xff_unspoofable trusted peer :
  (trusts trusted peer = false -> forall xff, effective_client_ip parse_ip (Some peer) xff trusted = Some peer)
  /\ (trusts trusted peer = true -> forall forged client tail ip,
       has_char "," client = false -> Forall (fun hop => has_char "," hop = false) tail ->
       parse_ip (trim client) = inr ip -> trusts trusted ip = false ->
       Forall (fun hop => match parse_ip (trim hop) with inr t => trusts trusted t = true | inl _ => True end) tail ->
       effective_client_ip parse_ip (Some peer) (Some (forged +:+ String "," (client +:+ appended "," tail))) trusted = Some ip).
Proof.
  unfold effective_client_ip. split; [by intros -> |]. intros -> forged client tail ip Hc Ht Hp Hu Hall. cbn [mbind option_bind].
  rewrite split_on_app, split_on_appended by done. rewrite reverse_app, reverse_cons, <- !app_assoc. cbn [app].
  rewrite first_untrusted_skip by (by apply Forall_reverse). cbn [first_untrusted]. by rewrite Hp, Hu.
Qed.

(** *** The blacklist *)

(** What an entry covers. *)
Definition covers (e : BlacklistEntry N) (ip : IpAddr) : bool :=
  match e with Net n => net_contains n ip | Range s e => ip_le s ip && ip_le ip e end.

Lemma add_entry_contains `{!IpNetLaws N} bl e ip :
  bl_contains (add_entry bl e) ip = bl_contains bl ip || covers e ip.
Proof.
  destruct e as [n | s e]; cbn [add_entry covers]; unfold bl_contains; cbn [exact nets ranges].
  - destruct (Z.eqb_spec (prefix_len n) (max_prefix_len n)) as [E |]; cbn [exact nets ranges].
    + rewrite (net_full n ip E). destruct (decide (ip = net_addr n)) as [-> | Hne].
      * rewrite (bool_decide_eq_true_2 (net_addr n ∈ _)) by set_solver. rewrite (bool_decide_eq_true_2 (net_addr n = _)) by done.
        by rewrite orb_true_r.
      * rewrite (bool_decide_eq_false_2 (ip = _)), orb_false_r by done. do 2 f_equal. apply bool_decide_ext. set_solver.
    + rewrite existsb_app. cbn [existsb]. rewrite orb_false_r. by destruct (bool_decide _), (existsb _ _), (net_contains n ip), (existsb _ _).
  - rewrite existsb_app. cbn [existsb fst snd]. rewrite orb_false_r. by destruct (bool_decide _), (existsb _ _), (existsb _ _).
Qed.

Lemma from_entries_contains `{!IpNetLaws N} es ip : bl_contains (from_entries es) ip = existsb (fun e => covers e ip) es.
Proof.
  unfold from_entries. enough (forall bl, bl_contains (foldl add_entry bl es) ip = bl_contains bl ip || existsb (fun e => covers e ip) es) as ->.
  { unfold bl_contains, empty_blacklist. cbn [exact nets ranges existsb]. by rewrite bool_decide_eq_false_2 by set_solver. }
  induction es as [| e es IH]; intros bl; cbn [foldl existsb]; [by rewrite orb_false_r |].
  by rewrite IH, add_entry_contains, orb_assoc.
Qed.

(** C38: the indexed blacklist is the file's entries.  An address is blocked iff some
    line, after its comment, holds an entry that covers it, whatever lies in the other
    lines: a line that does not parse disables nothing, and the hashing of whole
    networks into single addresses neither loses nor adds an address. *)
Theorem blacklist_exact `{!IpNetLaws N} (show_ip : IpAddr -> string) content ip :
  bl_contains (load_blacklist_state parse_ip parse_net show_ip (Some (Some content))) ip = true
  <-> exists line e, line ∈ lines content /\ trim (split_first "#" line) <> ""
        /\ parse_blacklist_entry parse_ip parse_net show_ip (trim (split_first "#" line)) = inr e /\ covers e ip = true.
Proof.
  unfold load_blacklist_state, parse_blacklist. rewrite from_entries_contains, existsb_elem. split.
  - intros (e & (tok & [Hne (line & -> & Hl)%list_elem_of_fmap]%elem_of_retain & Hp)%list_elem_of_omap & Hc).
    apply negb_true_iff, bool_decide_eq_false in Hne. exists line, e. split_and!; [done | done | | done].
    destruct (parse_blacklist_entry _ _ _ _) as [m | e']; by simplify_eq.
  - intros (line & e & Hl & Hne & Hp & Hc). exists e. split; [| done]. apply list_elem_of_omap. exists (trim (split_first "#" line)).
    rewrite Hp. split; [| done]. apply elem_of_retain. rewrite negb_true_iff, bool_decide_eq_false. split; [done |].
    apply list_elem_of_fmap. eauto.
Qed.

(** A pattern matches whole segments. *)
Lemma path_matches_spec path pattern :
  path_matches path pattern = true
  <-> trim_slashes pattern = "" \/ path = trim_slashes pattern \/ exists rest, path = trim_slashes pattern +:+ String "/" rest.
Proof.
  unfold path_matches. set (pre := trim_slashes pattern). case_bool_decide as Hp; [naive_solver |].
  destruct (strip_prefix pre path) as [rest |] eqn:E.
  - apply strip_prefix_spec in E as ->. rewrite orb_true_iff, bool_decide_eq_true, starts_with_spec. split.
    + intros [-> | [t ->]]; [right; left; by rewrite append_nil_r | right; right; by exists t].
    + intros [? | [Hr | [t Hr]]]; [done | |].
      * left. rewrite <- (append_nil_r pre) in Hr at 2. clear -Hr. induction pre as [| a p IH]; [done |].
        rewrite !append_cons in Hr. simplify_eq. auto.
      * right. exists t. clear -Hr. induction pre as [| a p IH]; [done |]. rewrite !append_cons in Hr. simplify_eq. auto.
  - split; [done |]. intros [? | [-> | [t ->]]]; [done | |]; exfalso.
    + rewrite <- (append_nil_r pre) in E at 2. by rewrite strip_prefix_app in E.
    + by rewrite strip_prefix_app in E.
Qed.

(** *** Validated configurations *)

Section validation.
Context {A : Type} (parse_socket : string -> string + A).

(** One target, which is not empty, and a redirect status. *)
Definition route_valid (r : Route N A) : Prop :=
  (match rt_redirect r, rt_backend r, rt_backends r with
   | Some location, None, None => trim location <> ""
   | None, Some _, None => True
   | None, None, Some bs => bs <> []
   | _, _, _ => False
   end) /\ rt_redirect_code r ∈ [301; 302; 303; 307; 308].

Record config_valid (c : Config N A) : Prop := {
  valid_default : default_backends c <> [];
  valid_routes : Forall route_valid (routes c);
  valid_rate : f64_le (f64_of 0) (sample_rate (access_log c)) = true /\ f64_le (sample_rate (access_log c)) (f64_of 1) = true;
  valid_retries : 0 < max_retries c;
  valid_health : check_health_path (health_check c) = None;
}.

Lemma collect_inr {B C} (f : B -> string + C) l ys : collect f l = inr ys -> Forall2 (fun x y => f x = inr y) l ys.
Proof.
  revert ys. induction l as [| x l IH]; intros ys; cbn [collect]; [intros [= <-]; constructor |].
  destruct (f x) as [| y] eqn:E; [done |]. destruct (collect f l) as [| ys']; [done |]. intros [= <-]. constructor; auto.
Qed.

Lemma collect_nonempty {B C} (f : B -> string + C) l ys : l <> [] -> collect f l = inr ys -> ys <> [].
Proof. intros Hne Hc%collect_inr ->. by inversion Hc; subst. Qed.

Lemma redirect_code_valid o code : redirect_code_of o = inr code -> code ∈ [301; 302; 303; 307; 308].
Proof. unfold redirect_code_of. destruct o as [c |]; [case_bool_decide; by intros [= <-] |]. intros [= <-]. set_solver. Qed.

Lemma route_from_raw_valid raw r : route_from_raw parse_ip parse_net parse_socket raw = inr r -> route_valid r.
Proof.
  unfold route_from_raw, route_valid. destruct (opt_result _ _) as [| client]; [done |].
  destruct (Z.eqb_spec (count_some (raw_backend raw) (raw_backends raw) (raw_redirect raw)) 1) as [Hn |]; [cbn [negb] | done].
  destruct (match raw_redirect raw with Some r => _ | None => false end) eqn:Er; [done |].
  destruct (redirect_code_of _) as [| code] eqn:Ec; [done |]. apply redirect_code_valid in Ec. revert Hn. unfold count_some.
  destruct (raw_backend raw) as [b |], (raw_backends raw) as [bs |], (raw_redirect raw) as [loc |]; cbn [is_none]; try lia; intros _.
  - destruct (parse_addr _ b); [done |]. by intros [= <-].
  - destruct bs as [| x bs]; [done |]. destruct (collect _ (x :: bs)) as [| l] eqn:El; [done |]. apply collect_nonempty in El; [| done].
    by intros [= <-].
  - intros [= <-]. cbn. split; [| done]. by apply bool_decide_eq_false in Er.
Qed.

Lemma clamp01_bounds x : is_finite x = true -> f64_le (f64_of 0) (clamp01 x) = true /\ f64_le (clamp01 x) (f64_of 1) = true.
Proof.
  intros Hf. unfold clamp01. destruct (f64_lt x (f64_of 0)) eqn:E0; [done |]. destruct (f64_lt (f64_of 1) x) eqn:E1; [done |].
  assert (is_nan x = false) as Hx by (by destruct x). split; [by apply f64_le_not_lt | by apply f64_le_not_lt].
Qed.

Lemma positive_or_positive o d : 0 < d -> 0 < positive_or o d.
Proof. unfold positive_or. destruct o as [n |]; [destruct (Z.ltb_spec 0 n) |]; lia. Qed.

Lemma config_from_raw_valid_lemma cpus raw c :
  config_from_raw parse_ip parse_net parse_socket cpus raw = inr c -> config_valid c.
Proof.
  unfold config_from_raw. destruct (default_backends_of _ raw) as [| bs] eqn:Eb; [done |].
  destruct (collect (route_from_raw _ _ _) _) as [| rs] eqn:Er; [done |]. destruct (collect _ (default _ _)) as [| proxies]; [done |].
  destruct (check_health_path _) eqn:Eh; [done |]. destruct (is_finite _) eqn:Ef; [cbn [negb] | done]. intros [= <-]. split.
  - cbn. revert Eb. unfold default_backends_of. destruct (cr_default_backend raw) as [s |], (cr_default_backends raw) as [l |]; [done | | | done].
    + destruct (parse_addr _ s); [done |]. by intros [= <-].
    + destruct l as [| x l]; [done |]. by apply collect_nonempty.
  - cbn. apply collect_inr in Er. apply Forall_forall. intros r (i & Hi)%list_elem_of_lookup.
    destruct (Forall2_lookup_r _ _ _ _ _ Er Hi) as (raw_r & _ & Hr). by eapply route_from_raw_valid.
  - cbn. by apply clamp01_bounds.
  - cbn. by apply positive_or_positive.
  - done.
Qed.

(** What is loaded is well formed.  A configuration that validation accepts has a
    default backend; each of its routes has exactly one target, which is not empty,
    and a redirect status; the sampling rate is between 0 and 1; there is at least one
    retry; and the health path cannot split a probe's request. *)
Theorem config_from_raw_valid cpus raw c :
  config_from_raw parse_ip parse_net parse_socket cpus raw = inr c -> config_valid c.
Proof. apply config_from_raw_valid_lemma. Qed.

End validation.

End properties.

(** *** Witnesses: networks as an address and a prefix length *)

Definition demo_net : Type := IpAddr * Z.
Definition ip_bits (ip : IpAddr) : Z := match ip with V4 n | V6 n => n end.
#[export] Instance demo_net_ops : IpNetOps demo_net := {|
  net_contains n ip := Bool.eqb (is_ipv4 n.1) (is_ipv4 ip)
    && (Z.shiftr (ip_bits n.1) ((if is_ipv4 n.1 then 32 else 128) - n.2) =? Z.shiftr (ip_bits ip) ((if is_ipv4 n.1 then 32 else 128) - n.2));
  prefix_len n := n.2;
  max_prefix_len n := if is_ipv4 n.1 then 32 else 128;
  net_addr n := n.1;
  net_from ip := (ip, if is_ipv4 ip then 32 else 128);
|}.
#[export] Instance demo_net_laws : IpNetLaws demo_net.
Proof.
  split. intros [a p] ip. cbn. intros ->. rewrite Z.sub_diag, !Z.shiftr_0_r. apply eq_iff_eq_true.
  rewrite bool_decide_eq_true, andb_true_iff, eqb_true_iff, Z.eqb_eq.
  destruct a, ip; cbn; split; intros; destruct_and?; simplify_eq; done.
Qed.

(** Addresses written as a number: [7] is an IPv4 address. *)
Definition demo_ip (s : string) : string + IpAddr := match parse_u64 s with Some n => inr (V4 n) | None => inl "invalid IP address syntax" end.
Definition demo_network (s : string) : string + demo_net := inl "invalid IP address syntax".

Lemma xff_unspoofable_witness :
  effective_client_ip demo_ip (Some (V4 1)) (Some "9, 7, x, 2") [(V4 0, 30) : demo_net] = Some (V4 7).
Proof.
  refine (proj2 (xff_unspoofable demo_ip [(V4 0, 30)] (V4 1)) eq_refl "9" " 7" [" x"; " 2"] (V4 7) eq_refl _ eq_refl eq_refl _);
    repeat constructor.
Defined.

Lemma blacklist_exact_witness :
  bl_contains (load_blacklist_state demo_ip demo_network (fun _ => "") (Some (Some "nonsense # x"))) (V4 7) = true
  <-> exists line e, line ∈ lines "nonsense # x" /\ trim (split_first "#" line) <> ""
        /\ parse_blacklist_entry demo_ip demo_network (fun _ => "") (trim (split_first "#" line)) = inr e /\ covers e (V4 7) = true.
Proof. apply (blacklist_exact demo_ip demo_network (fun _ => "") "nonsense # x" (V4 7)). Defined.

Example blacklist_range : bl_contains (load_blacklist_state demo_ip demo_network (fun _ => "") (Some (Some (utf8 [120; 10] +:+ "5 - 8 # range")))) (V4 7) = true.
Proof. vm_compute. reflexivity. Qed.

Definition demo_raw : ConfigRaw := mkConfigRaw None None None None None (Some "a") None None None
  (mkRouteTimeouts None None None None) None None None None
  [mkRouteRaw (Some "b.com") None None None (Some ["x"; "y"]) None None ActiveActive None].
Definition demo_socket (s : string) : string + string := inr s.

Lemma config_from_raw_valid_witness :
  exists c : Config demo_net string, config_from_raw demo_ip demo_network demo_socket None demo_raw = inr c /\ config_valid c.
Proof. eexists. split; [vm_compute; reflexivity |]. apply (config_from_raw_valid demo_ip demo_network demo_socket None demo_raw). vm_compute. reflexivity. Defined.

End LbGateway.
