(* ===== verification/LbProxy.v ===== *)
(** * LbProxy: the request phases of the load balancer (misc/LB)

    Models [misc/LB/src/proxy.rs], [metrics.rs] and the line formats of [logging.rs]:
    the shared state of the gateway (the published configuration with its rings, the
    unhealthy set, the blacklist, the counters, the throttle of block warnings), the
    context of a request, the phases that the proxy framework (pingora) calls, and the
    reload of the configuration.  A phase is a function of the state and the context;
    what the framework tells it (the request, the failed peer, the upstream status)
    are its arguments, and writing a response is the value it returns.  [None] is a
    panic.  Within one phase the loads of the published values see one state; between
    two phases any reload may happen. *)

From S2P Require Import Prelude Core Text Float64 LbRing LbGateway.

Module LbProxy.
Import Core LbRing LbGateway.

(** ** Metrics *)

Definition DURATION_BUCKETS_MS : list Z := [5; 10; 25; 50; 100; 250; 500; 1000; 2000; 5000; 10000; 30000; 60000].

(** The counters are atomic 64-bit integers, which wrap. *)
Record Metrics := mkMetrics {
  started_at : Z;
  requests_total : Z;
  blocked_total : Z;
  redirects_total : Z;
  proxied_total : Z;
  body_rejected_total : Z;
  status_2xx_total : Z;
  status_3xx_total : Z;
  status_4xx_total : Z;
  status_5xx_total : Z;
  upstream_errors_total : Z;
  retries_total : Z;
  response_bytes_total : Z;
  duration_buckets : list Z;
  duration_sum_ms : Z;
}.

Definition new_metrics (now : Z) : Metrics := mkMetrics now 0 0 0 0 0 0 0 0 0 0 0 0 (replicate (S (length DURATION_BUCKETS_MS)) 0) 0.

Inductive Counter := Requests | Blocked | Redirects | Proxied | BodyRejected | Status2xx | Status3xx | Status4xx | Status5xx
  | UpstreamErrors | Retries | ResponseBytes.

#[export] Instance Counter_eq_dec : EqDecision Counter.
Proof. solve_decision. Defined.

(** [fetch_add] on one of the counters. *)
Definition add_to (m : Metrics) (c : Counter) (n : Z) : Metrics :=
  let up k v := match decide (c = k) with left _ => wrap64 (v + n) | right _ => v end in
  mkMetrics (started_at m) (up Requests (requests_total m)) (up Blocked (blocked_total m)) (up Redirects (redirects_total m))
    (up Proxied (proxied_total m)) (up BodyRejected (body_rejected_total m)) (up Status2xx (status_2xx_total m))
    (up Status3xx (status_3xx_total m)) (up Status4xx (status_4xx_total m)) (up Status5xx (status_5xx_total m))
    (up UpstreamErrors (upstream_errors_total m)) (up Retries (retries_total m)) (up ResponseBytes (response_bytes_total m))
    (duration_buckets m) (duration_sum_ms m).

(** The milliseconds are cut to 64 bits; the last slot is for what is above every bound. *)
Definition bucket_of (ms : Z) : nat :=
  match list_find (fun le => ms <= le) DURATION_BUCKETS_MS with Some (i, _) => i | None => length DURATION_BUCKETS_MS end.

Definition observe_duration_ms (m : Metrics) (ms128 : Z) : Metrics :=
  let ms := wrap64 ms128 in
  mkMetrics (started_at m) (requests_total m) (blocked_total m) (redirects_total m) (proxied_total m) (body_rejected_total m)
    (status_2xx_total m) (status_3xx_total m) (status_4xx_total m) (status_5xx_total m) (upstream_errors_total m) (retries_total m)
    (response_bytes_total m) (alter (fun n => wrap64 (n + 1)) (bucket_of ms) (duration_buckets m)) (wrap64 (duration_sum_ms m + ms)).

Definition nl : string := utf8 [10].
Definition quote : string := utf8 [34].

(** The cumulative lines of the buckets from [bounds] on, with the count so far. *)
Fixpoint bucket_lines (cum : Z) (bounds counts : list Z) : string :=
  match bounds, counts with
  | le :: bounds, n :: counts =>
    let cum := wrap64 (cum + n) in
    "gateway_lb_request_duration_ms_bucket{le=" +:+ quote +:+ show le +:+ quote +:+ "} " +:+ show cum +:+ nl +:+ bucket_lines cum bounds counts
  | _, n :: _ =>
    let cum := wrap64 (cum + n) in
    "gateway_lb_request_duration_ms_bucket{le=" +:+ quote +:+ "+Inf" +:+ quote +:+ "} " +:+ show cum +:+ nl
  | _, [] => ""
  end.

Definition render (m : Metrics) (now : Z) (unhealthy_backends : Z) : string :=
  "# HELP gateway_lb_requests_total Total requests received by the LB." +:+ nl
  +:+ "# TYPE gateway_lb_requests_total counter" +:+ nl
  +:+ "gateway_lb_requests_total " +:+ show (requests_total m) +:+ nl
  +:+ "gateway_lb_blocked_total " +:+ show (blocked_total m) +:+ nl
  +:+ "gateway_lb_redirects_total " +:+ show (redirects_total m) +:+ nl
  +:+ "gateway_lb_proxied_total " +:+ show (proxied_total m) +:+ nl
  +:+ "gateway_lb_body_rejected_total " +:+ show (body_rejected_total m) +:+ nl
  +:+ "gateway_lb_status_2xx_total " +:+ show (status_2xx_total m) +:+ nl
  +:+ "gateway_lb_status_3xx_total " +:+ show (status_3xx_total m) +:+ nl
  +:+ "gateway_lb_status_4xx_total " +:+ show (status_4xx_total m) +:+ nl
  +:+ "gateway_lb_status_5xx_total " +:+ show (status_5xx_total m) +:+ nl
  +:+ "gateway_lb_upstream_errors_total " +:+ show (upstream_errors_total m) +:+ nl
  +:+ "gateway_lb_retries_total " +:+ show (retries_total m) +:+ nl
  +:+ "gateway_lb_response_bytes_total " +:+ show (response_bytes_total m) +:+ nl
  +:+ "# HELP gateway_lb_unhealthy_backends Backends currently marked unhealthy." +:+ nl
  +:+ "# TYPE gateway_lb_unhealthy_backends gauge" +:+ nl
  +:+ "gateway_lb_unhealthy_backends " +:+ show unhealthy_backends +:+ nl
  +:+ "# HELP gateway_lb_uptime_seconds Seconds since process start." +:+ nl
  +:+ "# TYPE gateway_lb_uptime_seconds gauge" +:+ nl
  +:+ "gateway_lb_uptime_seconds " +:+ show (sat_sub now (started_at m) / 1000) +:+ nl
  +:+ "# HELP gateway_lb_request_duration_ms Upstream request latency in milliseconds." +:+ nl
  +:+ "# TYPE gateway_lb_request_duration_ms histogram" +:+ nl
  +:+ bucket_lines 0 DURATION_BUCKETS_MS (duration_buckets m)
  +:+ "gateway_lb_request_duration_ms_sum " +:+ show (duration_sum_ms m) +:+ nl
  +:+ "gateway_lb_request_duration_ms_count " +:+ show (foldl (fun c n => wrap64 (c + n)) 0 (duration_buckets m)).

(** ** Log lines *)

(** [char::is_control] on one byte; the two-byte controls U+0080 to U+009F are kept as
    one character by the conversion below. *)
Definition is_ascii_control (a : ascii) : bool := let n := Z.of_N (N_of_ascii a) in (n <? 32) || (n =? 127).

(** [sanitize]: every control character becomes a question mark. *)
Fixpoint sanitize (s : string) : string :=
  match s with
  | EmptyString => ""
  | String a s' =>
    if is_ascii_control a then String "?" (sanitize s')
    else match s' with
         | String b s'' =>
           if (Z.of_N (N_of_ascii a) =? 194) && (128 <=? Z.of_N (N_of_ascii b)) && (Z.of_N (N_of_ascii b) <? 160)
           then String "?" (sanitize s'') else String a (sanitize s')
         | EmptyString => String a ""
         end
  end.

Section phases.
Context {N A : Type} `{IpNetOps N} `{Countable A} (display : A -> string).
Context (parse_ip : string -> string + IpAddr) (show_ip : IpAddr -> string) (debug_client : option IpAddr -> string).
Context (to_lowercase : string -> string).

Definition show_client (client : option IpAddr) : string := match client with Some ip => show_ip ip | None => "-" end.

Definition dispatch_line (method host path : string) (client : option IpAddr) (backend : A) : string :=
  "dispatch method=" +:+ sanitize method +:+ " host=" +:+ sanitize host +:+ " path=" +:+ sanitize path
  +:+ " client=" +:+ sanitize (show_client client) +:+ " backend=" +:+ display backend.

Definition redirect_line (code : Z) (host path location : string) : string :=
  "redirect " +:+ show code +:+ " " +:+ sanitize host +:+ sanitize path +:+ " -> " +:+ sanitize location.

Definition complete_line (backend : A) (status ms bytes : Z) (error : option string) : string :=
  "complete backend=" +:+ display backend +:+ " status=" +:+ show status +:+ " ms=" +:+ show ms +:+ " bytes=" +:+ show bytes
  +:+ match error with Some e => " error=" +:+ sanitize e | None => "" end.

(** ** The shared state *)

Record ConfigSnapshot := mkSnapshot { sn_config : Config N A; rings : gmap nat (Ring A); sn_backends : list A }.

Definition ring_of_route (ir : nat * Route N A) : option (nat * Ring A) :=
  match rt_mode ir.2 with
  | ActiveActive => (fun bs => (ir.1, ring_new display bs)) <$> rt_backends ir.2
  | ActiveStandby => None
  end.

Definition build_rings (c : Config N A) : gmap nat (Ring A) :=
  list_to_map (omap ring_of_route (zip (seq 0 (length (routes c))) (routes c))).

(** [if seen.insert(a) { out.push(a) }] *)
Definition push_new (st : gset A * list A) (a : A) : gset A * list A :=
  if bool_decide (a ∈ st.1) then st else ({[a]} ∪ st.1, st.2 ++ [a]).

Definition route_addresses (r : Route N A) : list A := default [] (rt_backends r) ++ option_list (rt_backend r).

Definition collect_all_backends (c : Config N A) : list A :=
  (foldl (fun st r => foldl push_new st (route_addresses r)) (foldl push_new (∅, []) (default_backends c)) (routes c)).2.

Definition snapshot_of (c : Config N A) : ConfigSnapshot := mkSnapshot c (build_rings c) (collect_all_backends c).

(** [log] holds the lines written for requests, newest last (those of a reload are
    not kept). *)
Record Gateway := mkGateway {
  snapshot : ConfigSnapshot;
  unhealthy : gset A;
  blacklist : Blacklist N;
  metrics : Metrics;
  block_warn : gmap IpAddr Z;
  log : list string;
}.

Definition count (c : Counter) (n : Z) (g : Gateway) : Gateway :=
  mkGateway (snapshot g) (unhealthy g) (blacklist g) (add_to (metrics g) c n) (block_warn g) (log g).
Definition log_line (s : string) (g : Gateway) : Gateway :=
  mkGateway (snapshot g) (unhealthy g) (blacklist g) (metrics g) (block_warn g) (log g ++ [s]).
Definition with_metrics (m : Metrics) (g : Gateway) : Gateway :=
  mkGateway (snapshot g) (unhealthy g) (blacklist g) m (block_warn g) (log g).
Definition with_warn (w : gmap IpAddr Z) (g : Gateway) : Gateway :=
  mkGateway (snapshot g) (unhealthy g) (blacklist g) (metrics g) w (log g).

(** ** The context of a request *)

Record RouteCtx := mkRouteCtx { rc_idx : option nat; rc_mode : LbMode; rc_backends : list A; rc_key : string }.

Record RoutingCtx := mkCtx {
  backend : option A;
  attempted : list A;
  ctx_client_ip : option IpAddr;
  route : option RouteCtx;
  ctx_timeouts : UpstreamTimeouts;
  log_backend : option A;
  body_seen : Z;
  started : Z;
  forwarded_proto : option string;
  retry5xx_left : option Z;
  last_backend : option A;
}.

Definition new_ctx (now : Z) : RoutingCtx := mkCtx None [] None None default_timeouts None 0 now None None None.

(** ** The request *)

Inductive HttpVersion := HTTP_09 | HTTP_10 | HTTP_11 | HTTP_2 | HTTP_3.

(** Header lines in order, names in lower case; [None] is a value that is not visible
    ASCII, which [to_str] refuses. *)
Definition Headers : Type := list (string * option string).

Record Request := mkRequest {
  version : HttpVersion;
  uri_host : option string;
  uri_scheme : option string;
  uri_path : string;
  method : string;
  headers : Headers;
  peer_ip : option IpAddr;
}.

(** [headers.get]: the first line of that name. *)
Definition get_header (name : string) (hs : Headers) : option (option string) := (fun p => p.2.2) <$> list_find (fun p => p.1 = name) hs.
Definition header_str (name : string) (hs : Headers) : option string := mjoin (get_header name hs).
Definition contains_key (name : string) (hs : Headers) : bool := negb (is_none (get_header name hs)).
(** [insert_header]: one line replaces every line of that name. *)
Definition insert_header (name value : string) (hs : Headers) : Headers :=
  retain (fun p => negb (bool_decide (p.1 = name))) hs ++ [(name, Some value)].

Definition smuggling_ambiguous (v : HttpVersion) (has_cl has_te : bool) : bool :=
  has_te && (has_cl || match v with HTTP_11 => false | _ => true end).

Definition extract_api_key (auth x_api_key : option string) (client_ip : option IpAddr) : string :=
  match auth with
  | Some a =>
    let trimmed := trim a in
    if (6 <=? Z.of_nat (String.length trimmed)) && eq_ignore_ascii_case (String.substring 0 6 trimmed) "Bearer"
    then let rest := trim (String.substring 6 (String.length trimmed - 6) trimmed) in
         if bool_decide (rest = "") then trimmed else rest
    else trimmed
  | None =>
    match x_api_key with
    | Some k => trim k
    | None => match client_ip with Some ip => show_ip ip | None => "unknown" end
    end
  end.

(** ** [request_filter] *)

(** What the framework does next: the response is written, or the request goes upstream. *)
Inductive Action :=
  | RespondHealth
  | RespondMetrics (body : string)
  | RespondError (code : Z)
  | RespondRedirect (code : Z) (location : string)
  | Proceed.

Definition LB_HEALTH_PATH : string := "/__lb_healthz".
Definition LB_METRICS_PATH : string := "/__lb_metrics".

Definition host_of (req : Request) : string := request_host (uri_host req) (header_str "host" (headers req)).

(** At most one warning for an address in a minute; times are in milliseconds. *)
Definition warn_blocked (now : Z) (ip : IpAddr) (g : Gateway) : Gateway :=
  let due := match block_warn g !! ip with None => true | Some last => 60000 <=? sat_sub now last end in
  let g := if due then with_warn (<[ip := now]> (block_warn g)) (log_line ("blocked request from blacklisted client IP " +:+ show_ip ip) g) else g in
  if 4096 <? Z.of_nat (size (block_warn g))
  then with_warn (base.filter (fun kv : IpAddr * Z => sat_sub now kv.2 < 60000) (block_warn g)) g
  else g.

Definition is_blocked (g : Gateway) (client_ip : option IpAddr) : option IpAddr :=
  match client_ip with Some ip => if bl_contains (blacklist g) ip then Some ip else None | None => None end.

Definition body_too_large (c : Config N A) (req : Request) : bool :=
  match max_body_size c with
  | None => false
  | Some limit => match header_str "content-length" (headers req) ≫= parse_u64 with Some n => limit <? n | None => false end
  end.

Definition retry_budget (c : Config N A) (method : string) (left : option Z) : option Z :=
  if r5_enabled (retry_5xx c) && existsb (fun m => eq_ignore_ascii_case m method) (r5_methods (retry_5xx c))
  then Some (r5_max_tries (retry_5xx c)) else left.

Definition affinity_key (mode : LbMode) (req : Request) (client_ip : option IpAddr) : string :=
  match mode with
  | ActiveActive => extract_api_key (header_str "authorization" (headers req)) (header_str "x-api-key" (headers req)) client_ip
  | ActiveStandby => ""
  end.

(** [None]: the panic of an empty list, or of a route that has no backend. *)
Definition pick (mode : LbMode) (idx : nat) (bs : list A) (rs : gmap nat (Ring A)) (key : string) (un : gset A) (tried : list A) : option A :=
  match mode with
  | ActiveStandby => pick_primary bs un tried
  | ActiveActive => pick_active_active idx bs rs key un tried
  end.

(** [log_dispatch]: the line when the request is sampled, and the backend for the completion line. *)
Definition log_dispatch (al : AccessLogConfig) (method host path : string) (client : option IpAddr) (addr : A)
    (lb : option A) (g : Gateway) : option A * Gateway :=
  if should_log debug_client al method host path client
  then (Some addr, log_line (dispatch_line method host path client addr) g)
  else (lb, g).

(** The context once the backend is known. *)
Definition routed (ctx : RoutingCtx) (addr : A) (rc : option RouteCtx) (tm : UpstreamTimeouts) (lb : option A) : RoutingCtx :=
  mkCtx (Some addr) (attempted ctx) (ctx_client_ip ctx) rc tm lb (body_seen ctx) (started ctx) (forwarded_proto ctx)
    (retry5xx_left ctx) (last_backend ctx).

Definition proxy_route (g : Gateway) (req : Request) (ctx : RoutingCtx) (idx : nat) (r : Route N A) : option (Action * Gateway * RoutingCtx) :=
  let c := sn_config (snapshot g) in
  let key := affinity_key (rt_mode r) req (ctx_client_ip ctx) in
  addr ← match rt_backends r with
         | Some list => pick (rt_mode r) idx list (rings (snapshot g)) key (unhealthy g) []
         | None => rt_backend r
         end;
  let rc := (fun list => mkRouteCtx (Some idx) (rt_mode r) list key) <$> rt_backends r in
  let '(lb, g) := log_dispatch (access_log c) (method req) (host_of req) (uri_path req) (ctx_client_ip ctx) addr (log_backend ctx) g in
  let tm := match rt_timeouts r with Some rt => merge_timeouts rt (cf_timeouts c) | None => cf_timeouts c end in
  Some (Proceed, g, routed ctx addr rc tm lb).

Definition proxy_default (g : Gateway) (req : Request) (ctx : RoutingCtx) : option (Action * Gateway * RoutingCtx) :=
  let c := sn_config (snapshot g) in
  addr ← pick_primary (default_backends c) (unhealthy g) [];
  let rc := mkRouteCtx None ActiveStandby (default_backends c) "" in
  let '(lb, g) := log_dispatch (access_log c) (method req) (host_of req) (uri_path req) (ctx_client_ip ctx) addr (log_backend ctx) g in
  Some (Proceed, g, routed ctx addr (Some rc) (cf_timeouts c) lb).

(** From the resolution of the route on. *)
Definition route_request (g : Gateway) (req : Request) (ctx : RoutingCtx) : option (Action * Gateway * RoutingCtx) :=
  let c := sn_config (snapshot g) in
  match resolve_route to_lowercase c (host_of req) (uri_path req) (ctx_client_ip ctx) with
  | Some (idx, r) =>
    match rt_redirect r with
    | Some location =>
      let g := count Redirects 1 g in
      let g := if should_log debug_client (access_log c) (method req) (host_of req) (uri_path req) (ctx_client_ip ctx)
               then log_line (redirect_line (rt_redirect_code r) (host_of req) (uri_path req) location) g else g in
      Some (RespondRedirect (rt_redirect_code r) location, g, ctx)
    | None => proxy_route (count Proxied 1 g) req ctx idx r
    end
  | None => proxy_default (count Proxied 1 g) req ctx
  end.

Definition client_of (g : Gateway) (req : Request) : option IpAddr :=
  effective_client_ip parse_ip (peer_ip req) (header_str "x-forwarded-for" (headers req)) (trusted_proxies (sn_config (snapshot g))).

Definition with_client (ctx : RoutingCtx) (client : option IpAddr) (proto : option string) : RoutingCtx :=
  mkCtx (backend ctx) (attempted ctx) client (route ctx) (ctx_timeouts ctx) (log_backend ctx) (body_seen ctx) (started ctx)
    proto (retry5xx_left ctx) (last_backend ctx).

Definition with_retry (ctx : RoutingCtx) (left : option Z) : RoutingCtx :=
  mkCtx (backend ctx) (attempted ctx) (ctx_client_ip ctx) (route ctx) (ctx_timeouts ctx) (log_backend ctx) (body_seen ctx)
    (started ctx) (forwarded_proto ctx) left (last_backend ctx).

Definition request_filter (now : Z) (g : Gateway) (req : Request) (ctx : RoutingCtx) : option (Action * Gateway * RoutingCtx) :=
  let g := count Requests 1 g in
  if bool_decide (uri_path req = LB_HEALTH_PATH) then Some (RespondHealth, g, ctx)
  else if bool_decide (uri_path req = LB_METRICS_PATH)
  then Some (RespondMetrics (render (metrics g) now (Z.of_nat (size (unhealthy g)))), g, ctx)
  else if smuggling_ambiguous (version req) (contains_key "content-length" (headers req)) (contains_key "transfer-encoding" (headers req))
  then Some (RespondError 400, g, ctx)
  else
    let ctx := with_client ctx (client_of g req) (uri_scheme req) in
    match is_blocked g (ctx_client_ip ctx) with
    | Some ip => Some (RespondError 403, warn_blocked now ip (count Blocked 1 g), ctx)
    | None =>
      let c := sn_config (snapshot g) in
      if body_too_large c req then Some (RespondError 413, count BodyRejected 1 g, ctx)
      else route_request g req (with_retry ctx (retry_budget c (method req) (retry5xx_left ctx)))
    end.

(** ** The upstream phases *)

Context (addr_ip : A -> IpAddr).

(** What the framework connects with; [p_verify] is [None] when its default is left. *)
Record HttpPeer := mkPeer { p_addr : A; p_tls : bool; p_sni : string; p_verify : option bool; p_timeouts : UpstreamTimeouts }.

(** [upstream_peer]: the address. *)
Definition upstream_addr (g : Gateway) (ctx : RoutingCtx) : option A :=
  match attempted ctx with
  | [] => match backend ctx with Some a => Some a | None => default_backends (sn_config (snapshot g)) !! O end
  | _ =>
    match route ctx with
    | Some r =>
      match rc_mode r with
      | ActiveStandby => pick_primary (rc_backends r) (unhealthy g) (attempted ctx)
      | ActiveActive => idx ← rc_idx r; pick_active_active idx (rc_backends r) (rings (snapshot g)) (rc_key r) (unhealthy g) (attempted ctx)
      end
    | None => backend ctx
    end
  end.

Definition peer_of (g : Gateway) (ctx : RoutingCtx) (addr : A) : HttpPeer :=
  match upstream_tls (sn_config (snapshot g)) with
  | Some t =>
    if ut_enabled t
    then mkPeer addr true (if bool_decide (ut_sni t = "") then show_ip (addr_ip addr) else ut_sni t)
           (if ut_verify t then Some true else None) (ctx_timeouts ctx)
    else mkPeer addr false "" None (ctx_timeouts ctx)
  | None => mkPeer addr false "" None (ctx_timeouts ctx)
  end.

Definition with_last (ctx : RoutingCtx) (addr : A) : RoutingCtx :=
  mkCtx (backend ctx) (attempted ctx) (ctx_client_ip ctx) (route ctx) (ctx_timeouts ctx) (log_backend ctx) (body_seen ctx)
    (started ctx) (forwarded_proto ctx) (retry5xx_left ctx) (Some addr).

Definition upstream_peer (g : Gateway) (ctx : RoutingCtx) : option (HttpPeer * RoutingCtx) :=
  addr ← upstream_addr g ctx;
  Some (peer_of g ctx addr, with_last ctx addr).

(** [if !ctx.attempted.contains(&addr) { ctx.attempted.push(addr) }] *)
Definition mark_attempted (ctx : RoutingCtx) (addr : A) : RoutingCtx :=
  if bool_decide (addr ∈ attempted ctx) then ctx
  else mkCtx (backend ctx) (attempted ctx ++ [addr]) (ctx_client_ip ctx) (route ctx) (ctx_timeouts ctx) (log_backend ctx)
         (body_seen ctx) (started ctx) (forwarded_proto ctx) (retry5xx_left ctx) (last_backend ctx).

(** [None] is a peer that is not an internet address. *)
Definition fail_to_connect (g : Gateway) (ctx : RoutingCtx) (peer : option A) : Gateway * RoutingCtx :=
  (count Retries 1 g, match peer with Some addr => mark_attempted ctx addr | None => ctx end).

Definition is_server_error (status : Z) : bool := (500 <=? status) && (status <? 600).

(** The last component is whether the framework is told to retry. *)
Definition response_filter (g : Gateway) (ctx : RoutingCtx) (status : Z) : Gateway * RoutingCtx * bool :=
  match retry5xx_left ctx with
  | None => (g, ctx, false)
  | Some tries =>
    if (tries =? 0) || negb (is_server_error status) then (g, ctx, false)
    else
      let ctx := with_retry ctx (Some (tries - 1)) in
      (count Retries 1 g, match last_backend ctx with Some addr => mark_attempted ctx addr | None => ctx end, true)
  end.

(** [request_id] is the generated one. *)
Definition upstream_request_filter (ctx : RoutingCtx) (peer : option IpAddr) (request_id : string) (hs : Headers) : Headers :=
  let ip_str o := match o with Some ip => show_ip ip | None => "unknown" end in
  let hs := insert_header "x-real-ip" (ip_str (ctx_client_ip ctx)) hs in
  let hs := if contains_key "x-request-id" hs then hs else insert_header "x-request-id" request_id hs in
  let hs := match forwarded_proto ctx with Some proto => insert_header "x-forwarded-proto" proto hs | None => hs end in
  match header_str "x-forwarded-for" hs with
  | Some v =>
    let prev := trim v in
    insert_header "x-forwarded-for" (if bool_decide (prev = "") then ip_str peer else prev +:+ ", " +:+ ip_str peer) hs
  | None => insert_header "x-forwarded-for" (ip_str peer) hs
  end.

(** [body] is the length of a chunk; the last component is the error. *)
Definition request_body_filter (g : Gateway) (ctx : RoutingCtx) (body : option Z) : Gateway * RoutingCtx * option string :=
  match max_body_size (sn_config (snapshot g)) with
  | None => (g, ctx, None)
  | Some limit =>
    let seen := match body with Some n => sat_add (body_seen ctx) n | None => body_seen ctx end in
    let ctx := mkCtx (backend ctx) (attempted ctx) (ctx_client_ip ctx) (route ctx) (ctx_timeouts ctx) (log_backend ctx) seen
                 (started ctx) (forwarded_proto ctx) (retry5xx_left ctx) (last_backend ctx) in
    if limit <? seen
    then (count BodyRejected 1 g, ctx, Some ("request body exceeds max_body_size=" +:+ show limit))
    else (g, ctx, None)
  end.

Definition status_counter (status : Z) : Counter :=
  if (200 <=? status) && (status <=? 299) then Status2xx
  else if (300 <=? status) && (status <=? 399) then Status3xx
  else if (400 <=? status) && (status <=? 499) then Status4xx
  else Status5xx.

(** [status] is zero when no response was written; [error] is the final error, formatted. *)
Definition logging (now : Z) (g : Gateway) (ctx : RoutingCtx) (error : option string) (status bytes : Z) : Gateway :=
  let g := match error with Some _ => count UpstreamErrors 1 g | None => g end in
  let ms := sat_sub now (started ctx) in
  let g := match backend ctx with Some _ => with_metrics (observe_duration_ms (metrics g) ms) g | None => g end in
  match log_backend ctx with
  | None => g
  | Some b => log_line (complete_line b status ms bytes error) (count ResponseBytes bytes (count (status_counter status) 1 g))
  end.

(** ** Reloading *)

Inductive EventKind := EvAny | EvAccess | EvCreate | EvModify | EvRemove | EvOther.

(** The file names of the paths of an event, [None] where there is none. *)
Definition event_targets (kind : EventKind) (names : list (option string)) (config_name : string) (blacklist_name : option string) : bool * bool :=
  match kind with
  | EvAccess | EvRemove => (false, false)
  | _ => (existsb (fun n => bool_decide (n = Some config_name)) names,
          existsb (fun n => match n, blacklist_name with Some x, Some b => String.eqb b x | _, _ => false end) names)
  end.

Record WatchState := mkWatch { watched_dirs : gset string; watched_blacklist_dir : option string; watch_dir : string }.

Context (parse_net : string -> string + N) (read_file : string -> option string).
(** The directory of a path, made canonical by the file system. *)
Context (blacklist_dir : option string -> option string).

Definition load_blacklist (path : option string) : Blacklist N := load_blacklist_state parse_ip parse_net show_ip (read_file <$> path).

Definition rewatch (w : WatchState) (path : option string) : WatchState :=
  let new_dir := blacklist_dir path in
  if bool_decide (new_dir = watched_blacklist_dir w) then w
  else
    let kept := base.filter (fun d => d = watch_dir w \/ Some d = new_dir) (watched_dirs w) in
    mkWatch (match new_dir with Some d => {[d]} ∪ kept | None => kept end) new_dir (watch_dir w).

Definition reload_config (loaded : string + Config N A) (g : Gateway) (w : WatchState) : Gateway * WatchState :=
  match loaded with
  | inl _ => (g, w)
  | inr c =>
    let changed := negb (bool_decide (blacklist_path c = blacklist_path (sn_config (snapshot g)))) in
    (mkGateway (snapshot_of c) (unhealthy g) (if changed then load_blacklist (blacklist_path c) else blacklist g)
       (metrics g) (block_warn g) (log g),
     if changed then rewatch w (blacklist_path c) else w)
  end.

(** A file that cannot be read leaves the list as it is. *)
Definition reload_blacklist (g : Gateway) : Gateway :=
  match blacklist_path (sn_config (snapshot g)) with
  | None => g
  | Some p =>
    match read_file p with
    | Some content => mkGateway (snapshot g) (unhealthy g) (load_blacklist (Some p)) (metrics g) (block_warn g) (log g)
    | None => g
    end
  end.

(** The prober publishes a set. *)
Definition publish_unhealthy (un : gset A) (g : Gateway) : Gateway :=
  mkGateway (snapshot g) un (blacklist g) (metrics g) (block_warn g) (log g).

(** ** The system: any requests, reloads and probes interleaved *)

Context (parse_socket : string -> string + A) (cpus : option Z).

(** The requests in progress, by a number. *)
Record System := mkSystem { sys_gateway : Gateway; sys_watch : WatchState; sys_live : gmap nat RoutingCtx }.

Inductive lb_step : System -> System -> Prop :=
  | step_request g w live now id req action g' ctx :
      live !! id = None -> request_filter now g req (new_ctx now) = Some (action, g', ctx) ->
      lb_step (mkSystem g w live) (mkSystem g' w (match action with Proceed => <[id := ctx]> live | _ => live end))
  | step_peer g w live id ctx peer ctx' :
      live !! id = Some ctx -> upstream_peer g ctx = Some (peer, ctx') -> lb_step (mkSystem g w live) (mkSystem g w (<[id := ctx']> live))
  | step_refused g w live id ctx peer :
      live !! id = Some ctx ->
      lb_step (mkSystem g w live) (mkSystem (fail_to_connect g ctx peer).1 w (<[id := (fail_to_connect g ctx peer).2]> live))
  | step_response g w live id ctx status :
      live !! id = Some ctx ->
      lb_step (mkSystem g w live) (mkSystem (response_filter g ctx status).1.1 w (<[id := (response_filter g ctx status).1.2]> live))
  | step_body g w live id ctx body :
      live !! id = Some ctx ->
      lb_step (mkSystem g w live) (mkSystem (request_body_filter g ctx body).1.1 w (<[id := (request_body_filter g ctx body).1.2]> live))
  | step_done g w live id ctx now error status bytes :
      live !! id = Some ctx -> lb_step (mkSystem g w live) (mkSystem (logging now g ctx error status bytes) w (delete id live))
  | step_reload g w live raw :
      lb_step (mkSystem g w live)
        (mkSystem (reload_config (config_from_raw parse_ip parse_net parse_socket cpus raw) g w).1
           (reload_config (config_from_raw parse_ip parse_net parse_socket cpus raw) g w).2 live)
  | step_reload_blacklist g w live : lb_step (mkSystem g w live) (mkSystem (reload_blacklist g) w live)
  | step_probe g w live un : lb_step (mkSystem g w live) (mkSystem (publish_unhealthy un g) w live).

(** *** The attempts of one request *)

(** How an attempt fails: the connection, or a response of that status. *)
Inductive Failure := Refused | Responded (status : Z).

(** What [main] sets of the framework, once, from the configuration of the start. *)
Record ServerConf := mkServerConf { sc_threads : Z; sc_max_retries : Z }.
Definition server_conf (c : Config N A) : ServerConf := mkServerConf (worker_threads c) (max_retries c).

(** The attempts of one request, with what is unhealthy at each and how it goes.  The
    framework asks for a peer again after a failure that is to be retried, while there
    were fewer attempts than its limit.  A response is to be retried if the filter says so;
    a failed connection has no mark of its own, [retry_refused] is what the framework
    does with it. *)
Fixpoint run_attempts (retry_refused : bool) (cap : nat) (g : Gateway) (ctx : RoutingCtx) (fs : list (gset A * Failure)) : option (list A) :=
  match cap, fs with
  | S cap, (un, f) :: rest =>
    r ← upstream_peer (publish_unhealthy un g) ctx;
    let addr := p_addr r.1 in
    match f with
    | Refused =>
      let '(g, ctx) := fail_to_connect g r.2 (Some addr) in
      if retry_refused then cons addr <$> run_attempts retry_refused cap g ctx rest else Some [addr]
    | Responded status =>
      let '(g, ctx, retry) := response_filter g r.2 status in
      if retry then cons addr <$> run_attempts retry_refused cap g ctx rest else Some [addr]
    end
  | _, _ => Some []
  end.
(** The limit of attempts under the configuration of the start. *)
Definition attempt_cap (c : Config N A) : nat := Z.to_nat (sc_max_retries (server_conf c)).

(** The chunks of a request body, up to the first error. *)
Fixpoint run_body (g : Gateway) (ctx : RoutingCtx) (chunks : list Z) : bool :=
  match chunks with
  | [] => true
  | n :: rest => let '(g, ctx, e) := request_body_filter g ctx (Some n) in if is_none e then run_body g ctx rest else false
  end.

(** ** Lemmas: snapshots *)

Lemma build_rings_lookup c i : build_rings c !! i = r ← routes c !! i; snd <$> ring_of_route (i, r).
Proof.
  unfold build_rings. set (l := zip (seq 0 (length (routes c))) (routes c)).
  assert (forall j r, l !! j = Some r -> r.1 = j /\ routes c !! j = Some r.2) as Hl.
  { intros j [k r]. unfold l. rewrite lookup_zip_with_Some. intros (x & y & [= -> ->] & Hx & Hy). apply lookup_seq in Hx. split; [cbn; lia | done]. }
  assert (NoDup (omap ring_of_route l).*1) as Hnd.
  { assert (sublist (omap ring_of_route l).*1 l.*1) as Hsub.
    { clear. induction l as [| [k r] l IH]; [constructor |]. cbn. unfold ring_of_route at 1. cbn.
      destruct (rt_mode r), (rt_backends r); cbn; constructor; apply IH. }
    eapply sublist_NoDup; [| exact Hsub]. unfold l. rewrite fst_zip by (by rewrite length_seq). apply NoDup_seq. }
  apply option_eq. intros ring. rewrite <- elem_of_list_to_map by done. rewrite list_elem_of_omap. split.
  - intros ([k r] & Hin & Hr). apply list_elem_of_lookup in Hin as [j Hj]. destruct (Hl _ _ Hj) as [Ek Er]. cbn in Ek, Er. subst k.
    assert (j = i) as -> by (unfold ring_of_route in Hr; cbn in Hr; destruct (rt_mode r), (rt_backends r); cbn in Hr; by simplify_eq).
    rewrite Er. cbn. by rewrite Hr.
  - destruct (routes c !! i) as [r |] eqn:Er; cbn; [| done]. destruct (ring_of_route (i, r)) as [[k ring'] |] eqn:Hr; cbn; [| done].
    intros [= ->]. exists (i, r). split.
    + apply list_elem_of_lookup. exists i. unfold l. apply lookup_zip_with_Some. exists i, r. split_and!; [done | | done].
      apply lookup_seq. apply lookup_lt_Some in Er. lia.
    + unfold ring_of_route in *. cbn in *. destruct (rt_mode r), (rt_backends r); cbn in *; by simplify_eq.
Qed.

(** Published: derived from a configuration that passed validation. *)
Definition snapshot_ok (sn : ConfigSnapshot) : Prop := exists c, config_valid c /\ sn = snapshot_of c.

Lemma valid_backends (c : Config N A) i r bs : config_valid c -> routes c !! i = Some r -> rt_backends r = Some bs -> bs <> [].
Proof.
  intros Hc Hr Hb. pose proof (valid_routes c Hc) as Hv. rewrite Forall_forall in Hv.
  destruct (Hv r) as [Ht _]; [by eapply list_elem_of_lookup_2 |].
  rewrite Hb in Ht. destruct (rt_redirect r), (rt_backend r); done.
Qed.

Lemma ring_published sn idx ring :
  snapshot_ok sn -> rings sn !! idx = Some ring ->
  exists r bs, routes (sn_config sn) !! idx = Some r /\ rt_mode r = ActiveActive /\ rt_backends r = Some bs /\ bs <> [] /\ ring = ring_new display bs.
Proof.
  intros (c & Hc & ->). cbn. rewrite build_rings_lookup. destruct (routes c !! idx) as [r |] eqn:Er; [cbn | done].
  unfold ring_of_route. cbn. destruct (rt_mode r) eqn:Em; [| done]. destruct (rt_backends r) as [bs |] eqn:Eb; [| done].
  intros [= <-]. exists r, bs. split_and!; try done. by eapply valid_backends.
Qed.

(** No published ring makes a selection panic. *)
Lemma pick_total sn mode idx bs key un tried :
  snapshot_ok sn -> bs <> [] -> is_Some (pick mode idx bs (rings sn) key un tried).
Proof.
  intros Hs Hne. unfold pick, pick_active_active. destruct mode; [destruct (rings sn !! idx) as [ring |] eqn:Er |].
  - destruct (ring_published sn idx ring Hs Er) as (r & bs' & _ & _ & _ & Hne' & ->).
    destruct (ring_pick_chosen display key un tried bs' Hne') as (a & -> & _). eauto.
  - destruct (pick_primary_chosen un tried bs Hne) as (a & -> & _). eauto.
  - destruct (pick_primary_chosen un tried bs Hne) as (a & -> & _). eauto.
Qed.

(** The ring of a route, when there is one, is over that route's backends. *)
Definition ring_for (rs : gmap nat (Ring A)) (rc : RouteCtx) : Prop :=
  rc_backends rc <> [] /\
  match rc_mode rc with
  | ActiveStandby => True
  | ActiveActive => exists idx, rc_idx rc = Some idx /\ rs !! idx = Some (ring_new display (rc_backends rc))
  end.

Lemma retry_chosen g ctx rc :
  attempted ctx <> [] -> route ctx = Some rc -> ring_for (rings (snapshot g)) rc ->
  exists a, upstream_addr g ctx = Some a /\ chosen (unhealthy g) (attempted ctx) (rc_backends rc) a.
Proof.
  intros Ha Hr [Hne Hm]. unfold upstream_addr. destruct (attempted ctx) as [| x tried] eqn:Et; [done |]. rewrite Hr.
  destruct (rc_mode rc); [| by apply pick_primary_chosen]. destruct Hm as (idx & -> & Hring). cbn [mbind option_bind].
  unfold pick_active_active. rewrite Hring. by apply ring_pick_chosen.
Qed.

(** ** Lemmas: the request phase *)

Lemma log_dispatch_snapshot al m h p cl a lb g :
  snapshot (log_dispatch al m h p cl a lb g).2 = snapshot g /\ blacklist (log_dispatch al m h p cl a lb g).2 = blacklist g.
Proof. unfold log_dispatch. by destruct (should_log _ _ _ _ _ _). Qed.

Lemma warn_blocked_snapshot now ip g : snapshot (warn_blocked now ip g) = snapshot g /\ blacklist (warn_blocked now ip g) = blacklist g.
Proof. unfold warn_blocked. by repeat case_match. Qed.

(** A request that goes upstream has a backend; its route, when it keeps one, holds it. *)
Definition ctx_routed (rs : gmap nat (Ring A)) (ctx : RoutingCtx) : Prop :=
  exists a, backend ctx = Some a /\ match route ctx with Some rc => ring_for rs rc /\ a ∈ rc_backends rc | None => True end.

Lemma proxy_route_routed g req ctx idx r :
  snapshot_ok (snapshot g) -> routes (sn_config (snapshot g)) !! idx = Some r -> rt_redirect r = None ->
  exists g' ctx', proxy_route g req ctx idx r = Some (Proceed, g', ctx') /\ snapshot g' = snapshot g
    /\ ctx_routed (rings (snapshot g)) ctx' /\ attempted ctx' = attempted ctx /\ retry5xx_left ctx' = retry5xx_left ctx.
Proof.
  intros Hs Hr Hre. unfold proxy_route. set (c := sn_config (snapshot g)) in *. set (key := affinity_key _ _ _).
  destruct (rt_backends r) as [bs |] eqn:Eb.
  - assert (bs <> []) as Hne by (destruct Hs as (c' & Hc' & Es); eapply (valid_backends c'); [done | | done]; unfold c in Hr; by rewrite Es in Hr).
    assert (ring_for (rings (snapshot g)) (mkRouteCtx (Some idx) (rt_mode r) bs key)) as Hf.
    { split; [done |]. cbn. destruct (rt_mode r) eqn:Em; [| done]. exists idx. split; [done |]. destruct Hs as (c' & _ & Es).
      unfold c in Hr. rewrite Es in *. cbn in *. rewrite build_rings_lookup, Hr. cbn. unfold ring_of_route. cbn. by rewrite Em, Eb. }
    assert (exists a, pick (rt_mode r) idx bs (rings (snapshot g)) key (unhealthy g) [] = Some a /\ a ∈ bs) as (a & Ea & Hin).
    { destruct Hf as [_ Hm]. unfold pick, pick_active_active. cbn in Hm. destruct (rt_mode r).
      - destruct Hm as (? & [= <-] & ->). destruct (ring_pick_chosen display key (unhealthy g) [] bs Hne) as (a & -> & Hc & _). eauto.
      - destruct (pick_primary_chosen (unhealthy g) [] bs Hne) as (a & -> & Hc & _). eauto. }
    rewrite Ea. cbn [mbind option_bind fmap option_fmap option_map].
    pose proof (log_dispatch_snapshot (access_log c) (method req) (host_of req) (uri_path req) (ctx_client_ip ctx) a (log_backend ctx) g) as [Hl _].
    destruct (log_dispatch _ _ _ _ _ _ _ _) as [lb g']. eexists _, _. split_and!; try done. by exists a.
  - assert (exists a, rt_backend r = Some a) as (a & Ea).
    { destruct Hs as (c' & Hc' & Es). unfold c in Hr. rewrite Es in Hr. cbn in Hr. pose proof (valid_routes c' Hc') as Hv.
      rewrite Forall_forall in Hv. destruct (Hv r) as [Ht _]; [by eapply list_elem_of_lookup_2 |].
      rewrite Hre, Eb in Ht. destruct (rt_backend r); [eauto | done]. }
    rewrite Ea. cbn [mbind option_bind fmap option_fmap option_map].
    pose proof (log_dispatch_snapshot (access_log c) (method req) (host_of req) (uri_path req) (ctx_client_ip ctx) a (log_backend ctx) g) as [Hl _].
    destruct (log_dispatch _ _ _ _ _ _ _ _) as [lb g']. eexists _, _. split_and!; try done. by exists a.
Qed.

Lemma route_request_cases g req ctx :
  snapshot_ok (snapshot g) -> attempted ctx = [] ->
  exists action g' ctx', route_request g req ctx = Some (action, g', ctx') /\ snapshot g' = snapshot g
    /\ retry5xx_left ctx' = retry5xx_left ctx
    /\ ((action = Proceed /\ ctx_routed (rings (snapshot g)) ctx' /\ attempted ctx' = []) \/ exists code loc, action = RespondRedirect code loc).
Proof.
  intros Hs Ha. unfold route_request. destruct (resolve_route _ _ _ _ _) as [[idx r] |] eqn:Er.
  - apply list_find_Some in Er as (Hr & _). destruct (rt_redirect r) as [loc |] eqn:Ered.
    + eexists _, _, _. split_and!; [reflexivity | by destruct (should_log _ _ _ _ _ _) | done | eauto].
    + destruct (proxy_route_routed (count Proxied 1 g) req ctx idx r) as (g' & ctx' & E & Eg & Hc & Hat & Hrt); [done | done | done |].
      exists Proceed, g', ctx'. rewrite E. split_and!; try done. left. rewrite Hat. done.
  - unfold proxy_default. cbn [count snapshot]. set (c := sn_config (snapshot g)).
    assert (default_backends c <> []) as Hne by (destruct Hs as (c' & Hc' & Es); unfold c; rewrite Es; apply Hc').
    destruct (pick_primary_chosen (unhealthy g) [] (default_backends c) Hne) as (a & Ep & Hc & _).
    replace (unhealthy (count Proxied 1 g)) with (unhealthy g) by done. rewrite Ep. cbn [mbind option_bind].
    pose proof (log_dispatch_snapshot (access_log c) (method req) (host_of req) (uri_path req) (ctx_client_ip ctx) a (log_backend ctx) (count Proxied 1 g)) as [Hl _].
    unfold count in *. destruct (log_dispatch _ _ _ _ _ _ _ _) as [lb g']. eexists _, _, _. split_and!; try done.
    left. split_and!; try done. exists a. split; [done |]. cbn. done.
Qed.

(** Which requests reach the routing. *)
Definition admitted (g : Gateway) (req : Request) : bool :=
  negb (bool_decide (uri_path req = LB_HEALTH_PATH)) && negb (bool_decide (uri_path req = LB_METRICS_PATH))
  && negb (smuggling_ambiguous (version req) (contains_key "content-length" (headers req)) (contains_key "transfer-encoding" (headers req)))
  && is_none (is_blocked g (client_of g req)) && negb (body_too_large (sn_config (snapshot g)) req).

Definition routed_action (action : Action) : Prop :=
  match action with Proceed | RespondRedirect _ _ => True | _ => False end.

Lemma request_filter_cases now g req ctx :
  snapshot_ok (snapshot g) -> attempted ctx = [] ->
  exists action g' ctx', request_filter now g req ctx = Some (action, g', ctx') /\ snapshot g' = snapshot g
    /\ (routed_action action <-> admitted g req = true)
    /\ (action = Proceed -> ctx_routed (rings (snapshot g)) ctx' /\ attempted ctx' = []
         /\ retry5xx_left ctx' = retry_budget (sn_config (snapshot g)) (method req) (retry5xx_left ctx)).
Proof.
  intros Hs Ha. unfold request_filter, admitted.
  case_bool_decide; [by eexists _, _, _ |]. case_bool_decide; [by eexists _, _, _ |]. cbn [negb andb].
  destruct (smuggling_ambiguous _ _ _); [by eexists _, _, _ |]. cbn [negb andb].
  change (client_of (count Requests 1 g) req) with (client_of g req). cbn [ctx_client_ip with_client].
  change (is_blocked (count Requests 1 g) (client_of g req)) with (is_blocked g (client_of g req)).
  destruct (is_blocked g (client_of g req)) as [ip |]; cbn [is_none andb].
  { eexists _, _, _. split_and!; [reflexivity | | done | done]. by destruct (warn_blocked_snapshot now ip (count Blocked 1 (count Requests 1 g))) as [-> _]. }
  change (snapshot (count Requests 1 g)) with (snapshot g).
  destruct (body_too_large _ req); cbn [negb]; [by eexists _, _, _ |].
  edestruct (route_request_cases (count Requests 1 g) req) as (action & g' & ctx' & E & Eg & Hrt & Hcase); [| |
    eexists action, g', ctx'; split_and!; [exact E | exact Eg | | ]]; [exact Hs | exact Ha | |].
  - destruct Hcase as [[-> _] | (? & ? & ->)]; done.
  - intros ->. destruct Hcase as [[_ [? ?]] | (? & ? & ?)]; done.
Qed.

(** ** Lemmas: the invariant of the system *)

(** What holds of a request in progress whatever was reloaded since. *)
Definition ctx_live (ctx : RoutingCtx) : Prop :=
  is_Some (backend ctx)
  /\ match route ctx with
     | Some rc => rc_backends rc <> [] /\ (rc_mode rc = ActiveActive -> is_Some (rc_idx rc))
     | None => True
     end.

Definition system_ok (s : System) : Prop :=
  snapshot_ok (snapshot (sys_gateway s)) /\ forall id ctx, sys_live s !! id = Some ctx -> ctx_live ctx.

Lemma routed_live rs ctx : ctx_routed rs ctx -> ctx_live ctx.
Proof.
  intros (a & Ha & Hr). split; [by eexists |]. destruct (route ctx) as [rc |]; [| done]. destruct Hr as [[Hne Hm] _].
  split; [done |]. intros Em. rewrite Em in Hm. destruct Hm as (idx & -> & _). by eexists.
Qed.

Lemma mark_attempted_live ctx a : ctx_live ctx -> ctx_live (mark_attempted ctx a).
Proof. unfold mark_attempted. by case_bool_decide. Qed.

Lemma insert_live (live : gmap nat RoutingCtx) id ctx :
  (forall id' ctx', live !! id' = Some ctx' -> ctx_live ctx') -> ctx_live ctx ->
  forall id' ctx', <[id := ctx]> live !! id' = Some ctx' -> ctx_live ctx'.
Proof. intros Hl Hc id' ctx'. rewrite lookup_insert_Some. naive_solver. Qed.

Lemma upstream_total g ctx : snapshot_ok (snapshot g) -> ctx_live ctx -> is_Some (upstream_addr g ctx).
Proof.
  intros Hs [[b Hb] Hr]. unfold upstream_addr. rewrite Hb. destruct (attempted ctx) as [| x tried] eqn:Et; [by eexists |].
  destruct (route ctx) as [rc |]; [| by eexists]. destruct Hr as [Hne Hm]. destruct (rc_mode rc) eqn:Em.
  - destruct (Hm eq_refl) as [idx ->]. cbn. by apply (pick_total _ ActiveActive).
  - by apply (pick_total _ ActiveStandby O _ "" _ _ Hs).
Qed.

Lemma logging_snapshot now g ctx e st b : snapshot (logging now g ctx e st b) = snapshot g.
Proof. unfold logging. by repeat case_match. Qed.

Lemma reload_ok raw g w :
  snapshot_ok (snapshot g) -> snapshot_ok (snapshot (reload_config (config_from_raw parse_ip parse_net parse_socket cpus raw) g w).1).
Proof.
  intros Hs. unfold reload_config. destruct (config_from_raw _ _ _ _ raw) as [| c] eqn:E; [done |].
  exists c. split; [| done]. by eapply config_from_raw_valid_lemma.
Qed.

Lemma system_step s s' : system_ok s -> lb_step s s' -> system_ok s'.
Proof.
  intros [Hs Hl] Hstep. destruct Hstep as [g w live now id req action g' ctx Hid E | g w live id ctx peer ctx' Hid E | g w live id ctx peer Hid
    | g w live id ctx status Hid | g w live id ctx body Hid | g w live id ctx now error status bytes Hid | | | ]; cbn in *.
  - destruct (request_filter_cases now g req (new_ctx now) Hs eq_refl) as (a' & g'' & ctx'' & E' & Eg & _ & Hp). rewrite E in E'. simplify_eq.
    split; cbn; [by rewrite Eg |]. destruct a'; try done. apply insert_live; [done |]. eapply routed_live. by apply Hp.
  - split; [done |]. cbn. apply insert_live; [done |]. unfold upstream_peer in E. destruct (upstream_addr g ctx); cbn in E; simplify_eq.
    exact (Hl id ctx Hid).
  - split; [done |]. cbn. apply insert_live; [done |]. pose proof (Hl id ctx Hid). destruct peer; [by apply mark_attempted_live | done].
  - pose proof (Hl id ctx Hid) as Hc. unfold response_filter. destruct (retry5xx_left ctx) as [n |]; [| split; [done |]; cbn; by apply insert_live].
    destruct (_ || _); [split; [done |]; cbn; by apply insert_live |]. split; [done |]. cbn. apply insert_live; [done |].
    destruct (last_backend ctx); [by apply mark_attempted_live | done].
  - pose proof (Hl id ctx Hid) as Hc. unfold request_body_filter. destruct (max_body_size _); [| split; [done |]; cbn; by apply insert_live].
    destruct (_ <? _); (split; [done |]; cbn; by apply insert_live).
  - split; cbn; [by rewrite logging_snapshot |]. intros id' ctx'. rewrite lookup_delete_Some. naive_solver.
  - split; [by apply reload_ok | done].
  - split; [| done]. cbn. unfold reload_blacklist. by repeat case_match.
  - split; done.
Qed.

(** ** Lemmas: the attempts *)

Lemma fresh_exists (bs tried : list A) :
  NoDup tried -> (forall a, a ∈ tried -> a ∈ bs) -> (length tried < size (list_to_set bs : gset A))%nat ->
  exists b, b ∈ bs /\ b ∉ tried.
Proof.
  intros Hnd Hsub Hlt. destruct (decide (set_Forall (fun b => b ∈ tried) (list_to_set bs : gset A))) as [Hall | Hno].
  - assert ((list_to_set bs : gset A) ⊆ list_to_set tried) as Hs by (intros b Hb; apply elem_of_list_to_set, Hall, Hb).
    apply subseteq_size in Hs. rewrite (size_list_to_set tried) in Hs by done. lia.
  - apply not_set_Forall_Exists in Hno; [| apply _]. destruct Hno as (b & Hb & Hn). exists b. split; [by apply elem_of_list_to_set in Hb | done].
Qed.

Lemma distinct_at_most (l : list A) : (size (list_to_set l : gset A) <= length l)%nat.
Proof.
  induction l as [| a l IH]; [done |]. cbn [list_to_set length]. rewrite size_union_alt, size_singleton.
  assert (size ((list_to_set l : gset A) ∖ {[a]}) <= size (list_to_set l : gset A))%nat by (apply subseteq_size; set_solver). lia.
Qed.
Lemma take_elem (l : list A) n a : a ∈ take n l -> a ∈ l.
Proof. intros (i & Hi & _)%elem_of_take. by eapply list_elem_of_lookup_2. Qed.

(** A context with its route: the addresses tried are backends of it, all different. *)
Definition attempting (g : Gateway) (ctx : RoutingCtx) (rc : RouteCtx) : Prop :=
  route ctx = Some rc /\ ring_for (rings (snapshot g)) rc /\ (exists b, backend ctx = Some b /\ b ∈ rc_backends rc)
  /\ NoDup (attempted ctx) /\ forall a, a ∈ attempted ctx -> a ∈ rc_backends rc.

Lemma attempt_fresh g ctx rc un : attempting g ctx rc ->
  exists a, upstream_addr (publish_unhealthy un g) ctx = Some a /\ a ∈ rc_backends rc
    /\ ((length (attempted ctx) < size (list_to_set (rc_backends rc) : gset A))%nat -> a ∉ attempted ctx).
Proof.
  intros (Hr & Hf & (b & Hb & Hbin) & Hnd & Hsub). destruct (attempted ctx) as [| x tried] eqn:Et.
  - exists b. unfold upstream_addr. rewrite Et, Hb. split_and!; [done | done | intros _; apply not_elem_of_nil].
  - assert (attempted ctx <> []) as Hne by (by rewrite Et).
    destruct (retry_chosen (publish_unhealthy un g) ctx rc Hne Hr Hf) as (a & -> & Hin & _ & Hp). exists a. split_and!; [done | done |]. intros Hlt.
    rewrite <- Et. apply Hp. rewrite Et. by apply fresh_exists.
Qed.

Lemma attempting_mark g ctx rc a :
  attempting g ctx rc -> a ∈ rc_backends rc -> attempting g (mark_attempted ctx a) rc.
Proof.
  intros (Hr & Hf & Hb & Hnd & Hsub) Ha. unfold mark_attempted. case_bool_decide; [done |]. split_and!; try done; cbn.
  - apply NoDup_app. split_and!; [done | set_solver | apply NoDup_singleton].
  - set_solver.
Qed.

Lemma mark_attempted_new ctx a : a ∉ attempted ctx -> attempted (mark_attempted ctx a) = attempted ctx ++ [a].
Proof. intros Hn. unfold mark_attempted. by rewrite bool_decide_eq_false_2. Qed.

Lemma mark_attempted_grows ctx a : (length (attempted ctx) <= length (attempted (mark_attempted ctx a)))%nat.
Proof. unfold mark_attempted. case_bool_decide; [done |]. cbn. rewrite length_app. lia. Qed.

(** The attempts that follow are to backends of the route, and to new ones while there are. *)
Lemma run_attempts_fresh retry cap fs g ctx rc : attempting g ctx rc ->
  let n := size (list_to_set (rc_backends rc) : gset A) in
  exists addrs, run_attempts retry cap g ctx fs = Some addrs /\ (length addrs <= cap)%nat /\ NoDup (attempted ctx ++ take (n - length (attempted ctx)) addrs)
    /\ (forall a, a ∈ addrs -> a ∈ rc_backends rc)
    /\ (retry = true -> Forall (fun f => f.2 = Refused) fs -> length addrs = Nat.min cap (length fs)).
Proof.
  cbv zeta. revert fs g ctx. induction cap as [| cap IH]; intros fs g ctx Hat; [| destruct fs as [| [un f] fs]].
  1, 2: exists []; rewrite take_nil, app_nil_r; split_and!; [done | cbn; lia | apply Hat | by intros ? ?%elem_of_nil | done].
  cbn [run_attempts]. set (n := size (list_to_set (rc_backends rc) : gset A)) in *. destruct (attempt_fresh g ctx rc un Hat) as (a & Ea & Hin & Hn).
  unfold upstream_peer. rewrite Ea. cbn [mbind option_bind fst snd]. replace (p_addr (peer_of _ ctx a)) with a by (unfold peer_of; by repeat case_match).
  assert (attempting g (with_last ctx a) rc) as Hat' by exact Hat.
  assert (exists addrs, Some [a] = Some addrs /\ (length addrs <= S cap)%nat /\ NoDup (attempted ctx ++ take (n - length (attempted ctx)) addrs) /\ (forall b, b ∈ addrs -> b ∈ rc_backends rc)) as (stop & Es & Ls & Ns & Is).
  { exists [a]. split_and!; [done | cbn; lia | | by intros b ->%list_elem_of_singleton]. destruct (n - length (attempted ctx))%nat eqn:E; cbn [take]; [rewrite app_nil_r; apply Hat |].
    rewrite take_nil. apply NoDup_app. split_and!; [apply Hat | | apply NoDup_singleton]. intros x Hx ->%list_elem_of_singleton. apply Hn; [lia | done]. }
  assert (forall g' ctx', attempting g' ctx' rc -> attempted ctx' = attempted (mark_attempted ctx a) ->
    exists addrs, (cons a <$> run_attempts retry cap g' ctx' fs) = Some addrs /\ (length addrs <= S cap)%nat /\ NoDup (attempted ctx ++ take (n - length (attempted ctx)) addrs)
      /\ (forall b, b ∈ addrs -> b ∈ rc_backends rc) /\ (retry = true -> Forall (fun f => f.2 = Refused) fs -> length addrs = S (Nat.min cap (length fs)))) as Hnext.
  { intros g' ctx' Hg Eat. destruct (IH fs g' ctx' Hg) as (addrs & -> & Hlen & Hnd & Hin' & Hl). exists (a :: addrs).
    split_and!; [done | cbn; lia | | intros b [-> |]%elem_of_cons; auto | intros; cbn; by rewrite Hl].
    destruct (n - length (attempted ctx))%nat as [| k] eqn:E; cbn [take]; [rewrite app_nil_r; apply Hat |].
    rewrite Eat, mark_attempted_new, length_app, <- app_assoc in Hnd by (apply Hn; lia). cbn [length app] in Hnd. by replace (n - (length (attempted ctx) + 1))%nat with k in Hnd by lia. }
  destruct f as [| status].
  - cbn [fail_to_connect]. destruct retry.
    + destruct (Hnext (count Retries 1 g) (mark_attempted (with_last ctx a) a)) as (addrs & E & ? & ? & ? & Hl); [by apply attempting_mark | unfold mark_attempted; cbn; by case_bool_decide |].
      exists addrs. split_and!; [exact E | done | done | done |]. intros _ [_ ?]%Forall_cons. by apply Hl.
    + exists stop. by split_and!.
  - assert (exists addrs, Some [a] = Some addrs /\ (length addrs <= S cap)%nat /\ NoDup (attempted ctx ++ take (n - length (attempted ctx)) addrs) /\ (forall b, b ∈ addrs -> b ∈ rc_backends rc)
      /\ (retry = true -> Forall (fun f => f.2 = Refused) ((un, Responded status) :: fs) -> length addrs = Nat.min (S cap) (S (length fs)))) as Hstop
      by (exists stop; split_and!; try done; by intros _ [? _]%Forall_cons).
    unfold response_filter. cbn [retry5xx_left with_last]. destruct (retry5xx_left ctx) as [m |]; [| exact Hstop].
    destruct (_ || _); [exact Hstop |]. cbn [last_backend with_retry with_last].
    destruct (Hnext (count Retries 1 g) (mark_attempted (with_retry (with_last ctx a) (Some (m - 1))) a)) as (addrs & E & ? & ? & ? & Hl);
      [by apply attempting_mark | unfold mark_attempted; cbn; by case_bool_decide |].
    exists addrs. split_and!; [exact E | done | done | done |]. by intros _ [? _]%Forall_cons.
Qed.

Definition is_refused (f : gset A * Failure) : bool := match f.2 with Refused => true | Responded _ => false end.

Lemma mark_attempted_left ctx a : retry5xx_left (mark_attempted ctx a) = retry5xx_left ctx.
Proof. unfold mark_attempted. by case_bool_decide. Qed.

Lemma run_attempts_bounded retry cap fs g ctx addrs :
  (forall n, retry5xx_left ctx = Some n -> 0 <= n) -> run_attempts retry cap g ctx fs = Some addrs ->
  Z.of_nat (length addrs) <= Z.of_nat (length (retain is_refused fs)) + default 0 (retry5xx_left ctx) + 1.
Proof.
  revert fs g ctx addrs. induction cap as [| cap IH]; intros fs g ctx addrs Hn; [| destruct fs as [| [un f] fs]].
  1, 2: cbn [run_attempts]; intros [= <-]; destruct (retry5xx_left ctx) as [n |] eqn:E; [specialize (Hn n eq_refl) |]; cbn; lia.
  cbn [run_attempts]. destruct (upstream_peer _ ctx) as [[peer ctx'] |] eqn:Ep; cbn [mbind option_bind fst snd]; [| done].
  assert (retry5xx_left ctx' = retry5xx_left ctx) as El.
  { unfold upstream_peer in Ep. destruct (upstream_addr _ ctx); cbn in Ep; by simplify_eq. }
  rewrite retain_cons. destruct f as [| status]; cbn [is_refused snd].
  - cbn [fail_to_connect]. destruct retry.
    2:{ intros [= <-]. destruct (retry5xx_left ctx) as [n |]; [specialize (Hn n eq_refl) |]; cbn; lia. }
    destruct (run_attempts _ _ _ _ fs) as [rest |] eqn:Er; [| done]. intros [= <-]. apply IH in Er.
    + rewrite mark_attempted_left, El in Er. cbn [length]. lia.
    + rewrite mark_attempted_left, El. exact Hn.
  - unfold response_filter. rewrite El. destruct (retry5xx_left ctx) as [n |] eqn:En.
    2: { intros [= <-]. cbn. lia. }
    specialize (Hn n eq_refl). destruct (Z.eqb_spec n 0); cbn [orb]; [intros [= <-]; cbn; lia |].
    destruct (is_server_error status); cbn [negb]; [| intros [= <-]; cbn; lia].
    destruct (run_attempts _ _ _ _ fs) as [rest |] eqn:Er; [| done]. intros [= <-]. apply IH in Er.
    + destruct (last_backend _); [rewrite mark_attempted_left in Er |]; cbn in Er |- *; lia.
    + intros m. destruct (last_backend _); [rewrite mark_attempted_left |]; cbn; intros [= <-]; lia.
Qed.

(** *** Lemmas: header lines *)

Definition lines_of (name : string) (hs : Headers) : Headers := retain (fun p => bool_decide (p.1 = name)) hs.

Lemma get_header_lines name hs : get_header name hs = snd <$> head (lines_of name hs).
Proof.
  unfold get_header, lines_of. induction hs as [| [k v] hs IH]; [done |]. rewrite retain_cons. cbn [list_find fst snd].
  destruct (decide (k = name)) as [-> | Hne]; [by rewrite bool_decide_eq_true_2 |]. rewrite bool_decide_eq_false_2 by done.
  rewrite <- IH. by destruct (list_find _ hs) as [[i p] |].
Qed.

Lemma lines_insert name v hs : lines_of name (insert_header name v hs) = [(name, Some v)].
Proof.
  unfold lines_of, insert_header. rewrite retain_app, (retain_none _ (retain _ hs)).
  - rewrite retain_cons. cbn [fst]. by rewrite bool_decide_eq_true_2.
  - intros p [Hp _]%elem_of_retain. by apply negb_true_iff in Hp.
Qed.

Lemma lines_insert_other name other v hs : name <> other -> lines_of name (insert_header other v hs) = lines_of name hs.
Proof.
  intros Hne. unfold lines_of, insert_header. rewrite retain_app, retain_cons. cbn [fst]. rewrite bool_decide_eq_false_2 by done.
  rewrite app_nil_r, retain_comm. apply retain_all. intros p [Hp _]%elem_of_retain. apply bool_decide_eq_true in Hp.
  apply negb_true_iff, bool_decide_eq_false. by rewrite Hp.
Qed.

Lemma get_insert_other name other v hs : name <> other -> get_header name (insert_header other v hs) = get_header name hs.
Proof. intros. by rewrite !get_header_lines, lines_insert_other. Qed.
Lemma get_insert name v hs : get_header name (insert_header name v hs) = Some (Some v).
Proof. by rewrite get_header_lines, lines_insert. Qed.

(** ** Properties *)

(** C37: the load balancer never panics.  From a validated configuration, through any
    interleaving of requests, failures, responses, probes and reloads, every request
    gets an action and every request in progress gets a peer. *)
Theorem never_panics raw c g w s :
  config_from_raw parse_ip parse_net parse_socket cpus raw = inr c -> snapshot g = snapshot_of c ->
  reachable lb_step (mkSystem g w ∅) s ->
  (forall now req, is_Some (request_filter now (sys_gateway s) req (new_ctx now)))
  /\ (forall id ctx, sys_live s !! id = Some ctx -> is_Some (upstream_peer (sys_gateway s) ctx)).
Proof.
  intros Hc Hg Hr. assert (system_ok s) as [Hs Hl].
  { apply (reachable_invariant lb_step system_ok (mkSystem g w ∅)); [| exact system_step | exact Hr]. split; [| done].
    exists c. split; [by eapply config_from_raw_valid_lemma | done]. }
  split.
  - intros now req. destruct (request_filter_cases now (sys_gateway s) req (new_ctx now) Hs eq_refl) as (? & ? & ? & -> & _). by eexists.
  - intros id ctx Hid. unfold upstream_peer. destruct (upstream_total (sys_gateway s) ctx Hs (Hl id ctx Hid)) as [a ->]. by eexists.
Qed.

(** Only admitted requests are routed.  A request is proxied or redirected iff it
    is for none of the built-in endpoints, its framing is not ambiguous, its client
    address is not blacklisted, and its declared body is within the limit. *)
Theorem only_admitted_routed now g req action g' ctx' :
  snapshot_ok (snapshot g) -> request_filter now g req (new_ctx now) = Some (action, g', ctx') ->
  routed_action action <-> admitted g req = true.
Proof.
  intros Hs E. destruct (request_filter_cases now g req (new_ctx now) Hs eq_refl) as (? & ? & ? & E' & _ & Hiff & _).
  by rewrite E in E'; injection E' as <- <- <-.
Qed.

(** C36: retries fail over.  While the configuration stays, the attempts of a request for a
    multi-backend route (or for the default list) go to backends of that list, at most as
    many as [max_retries] of the configuration of the start allows, whatever becomes
    unhealthy in between and however they fail; and they are pairwise different, as long as
    there are not more attempts than backends.  When the framework retries failed
    connections and every connection is refused, there are as many attempts as the limit
    allows; so they visit every backend exactly when the limit is not below the number of
    backends. *)
Theorem failover_visits_all now g req g' ctx rc c retry fs :
  snapshot_ok (snapshot g) -> request_filter now g req (new_ctx now) = Some (Proceed, g', ctx) -> route ctx = Some rc ->
  let n := size (list_to_set (rc_backends rc) : gset A) in
  exists addrs, run_attempts retry (attempt_cap c) g' ctx fs = Some addrs
    /\ (length addrs <= attempt_cap c)%nat /\ (forall a, a ∈ addrs -> a ∈ rc_backends rc) /\ NoDup (take n addrs)
    /\ (retry = true -> Forall (fun f => f.2 = Refused) fs -> (attempt_cap c <= length fs)%nat ->
        length addrs = attempt_cap c /\ ((forall a, a ∈ rc_backends rc -> a ∈ addrs) <-> (n <= attempt_cap c)%nat)).
Proof.
  intros Hs E Hrc. cbv zeta. destruct (request_filter_cases now g req (new_ctx now) Hs eq_refl) as (? & ? & ? & E' & Eg & _ & Hp).
  rewrite E in E'. injection E' as <- <- <-. destruct (Hp eq_refl) as ((b & Hb & Hr) & Hat & _). rewrite Hrc in Hr. destruct Hr as [Hf Hin].
  destruct (run_attempts_fresh retry (attempt_cap c) fs g' ctx rc) as (addrs & Er & Hlen & Hnd & Hsub & Hl).
  { split_and!; [done | by rewrite Eg | by exists b | rewrite Hat; constructor | by rewrite Hat; intros ? ?%elem_of_nil]. }
  rewrite Hat, Nat.sub_0_r, app_nil_l in Hnd. exists addrs. split_and!; [done | done | done | done |]. intros Hre Hall Hfs. specialize (Hl Hre Hall). rewrite Nat.min_l in Hl by done.
  split; [done |]. set (all := list_to_set (rc_backends rc) : gset A) in *. split.
  - intros Hv. assert (all ⊆ list_to_set addrs) as Hle%subseteq_size by (intros x; unfold all; rewrite !elem_of_list_to_set; apply Hv). pose proof (distinct_at_most addrs). lia.
  - intros Hn a Ha. destruct (decide (a ∈ take (size all) addrs)) as [Hi | Hno]; [by eapply take_elem | exfalso].
    assert (({[a]} ∪ list_to_set (take (size all) addrs) : gset A) ⊆ all) as Hle%subseteq_size.
    { intros x. rewrite elem_of_union, elem_of_singleton. unfold all. rewrite !elem_of_list_to_set. intros [-> | Hx]; [done |]. apply Hsub. by eapply take_elem. }
    rewrite size_union, size_singleton, size_list_to_set in Hle; [| done | set_solver]. rewrite length_take in Hle. lia.
Qed.

(** Retries are bounded.  A request makes at most one attempt more than its refused
    connections and the 5xx retries its configuration grants, and none of those when
    its method is not listed or the policy is off. *)
Theorem retries_bounded now g req g' ctx retry cap fs addrs :
  snapshot_ok (snapshot g) -> request_filter now g req (new_ctx now) = Some (Proceed, g', ctx) ->
  0 <= r5_max_tries (retry_5xx (sn_config (snapshot g))) -> run_attempts retry cap g' ctx fs = Some addrs ->
  let granted := r5_enabled (retry_5xx (sn_config (snapshot g)))
    && existsb (fun m => eq_ignore_ascii_case m (method req)) (r5_methods (retry_5xx (sn_config (snapshot g)))) in
  Z.of_nat (length addrs) <= Z.of_nat (length (retain is_refused fs))
    + (if granted then r5_max_tries (retry_5xx (sn_config (snapshot g))) else 0) + 1.
Proof.
  intros Hs E Hn Hr granted. destruct (request_filter_cases now g req (new_ctx now) Hs eq_refl) as (? & ? & ? & E' & _ & _ & Hp).
  rewrite E in E'. injection E' as <- <- <-. destruct (Hp eq_refl) as (_ & _ & El). apply run_attempts_bounded in Hr.
  - rewrite El in Hr. unfold retry_budget in Hr. fold granted in Hr. destruct granted; exact Hr.
  - rewrite El. unfold retry_budget. fold granted. by destruct granted; intros m [= <-].
Qed.

(** A reload can send a retry out of its route.  The retry of an active-active
    request reads the ring of its route's index in the configuration of that moment;
    after a reload that puts another active-active route at this index, the retry goes
    to a backend of that route. *)
Theorem retry_after_reload_leaves_route g w ctx rc idx c r other :
  config_valid c -> attempted ctx <> [] -> route ctx = Some rc -> rc_mode rc = ActiveActive -> rc_idx rc = Some idx ->
  routes c !! idx = Some r -> rt_mode r = ActiveActive -> rt_backends r = Some other ->
  exists peer ctx', upstream_peer (reload_config (inr c) g w).1 ctx = Some (peer, ctx') /\ p_addr peer ∈ other.
Proof.
  intros Hc Ha Hr Hm Hi Hrt Hrm Hb. assert (other <> []) as Hne by (by eapply valid_backends).
  unfold upstream_peer, upstream_addr. destruct (attempted ctx) as [| x tried] eqn:Et; [done |]. rewrite Hr, Hm, Hi. cbn [mbind option_bind].
  unfold pick_active_active. cbn [reload_config fst snapshot snapshot_of rings unhealthy]. rewrite build_rings_lookup, Hrt. cbn [mbind option_bind].
  unfold ring_of_route. cbn [fst snd]. rewrite Hrm, Hb. cbn [fmap option_fmap option_map snd].
  destruct (ring_pick_chosen display (rc_key rc) (unhealthy g) (x :: tried) other Hne) as (a & -> & Hin & _). cbn [mbind option_bind].
  eexists _, _. split; [reflexivity |]. unfold peer_of. by repeat case_match.
Qed.

(** The body limit is exact.  The chunks of a streamed body all pass iff their
    total is within the limit of the configuration. *)
Theorem body_limit_exact g ctx chunks limit :
  max_body_size (sn_config (snapshot g)) = Some limit -> body_seen ctx = 0 -> 0 <= limit ->
  Forall (fun n => 0 <= n) chunks -> zsum (fun n => n) chunks <= u64_max ->
  run_body g ctx chunks = bool_decide (zsum (fun n => n) chunks <= limit).
Proof.
  intros Hm Hb Hl Hall Hsum. enough (forall k, body_seen ctx = k -> 0 <= k <= limit -> k + zsum (fun n => n) chunks <= u64_max ->
    run_body g ctx chunks = bool_decide (k + zsum (fun n => n) chunks <= limit)) as Hgen by (apply (Hgen 0); lia).
  clear Hb Hsum. revert ctx. induction Hall as [| n chunks Hn Hall IH]; intros ctx k Hb Hk Hs; cbn [run_body].
  { rewrite bool_decide_eq_true_2; [done | unfold zsum; cbn; lia]. }
  rewrite zsum_cons in *. assert (0 <= zsum (fun n => n) chunks) as Hz by (apply zsum_nonneg; intros x Hx; rewrite Forall_forall in Hall; by apply Hall).
  unfold request_body_filter. rewrite Hm, Hb. replace (sat_add k n) with (k + n) by (unfold sat_add; lia).
  destruct (Z.ltb_spec limit (k + n)); cbn [is_none].
  - rewrite bool_decide_eq_false_2; [done | lia].
  - rewrite (IH _ (k + n)); [| done | lia | lia]. apply bool_decide_ext. lia.
Qed.

(** One forwarded-for line goes upstream.  It is the first line the client sent,
    trimmed, with the peer appended, or the peer alone; every further line of that name
    is dropped, and X-Real-IP is the resolved client whatever the client sent. *)
Theorem forwarded_headers ctx peer id hs :
  let out := upstream_request_filter ctx peer id hs in
  let ip_str o := match o with Some ip => show_ip ip | None => "unknown" end in
  let prev := default "" (trim <$> header_str "x-forwarded-for" hs) in
  retain (fun p => bool_decide (p.1 = "x-forwarded-for")) out
    = [("x-forwarded-for", Some (if bool_decide (prev = "") then ip_str peer else prev +:+ ", " +:+ ip_str peer))]
  /\ retain (fun p => bool_decide (p.1 = "x-real-ip")) out = [("x-real-ip", Some (ip_str (ctx_client_ip ctx)))]
  /\ contains_key "x-request-id" out = true.
Proof.
  intros out ip_str prev. unfold out, upstream_request_filter. fold ip_str.
  set (h1 := insert_header "x-real-ip" _ hs). set (h2 := if contains_key "x-request-id" h1 then h1 else _).
  set (h3 := match forwarded_proto ctx with Some proto => _ | None => h2 end).
  assert (header_str "x-forwarded-for" h3 = header_str "x-forwarded-for" hs) as Ex.
  { unfold h3, h2, h1, header_str. destruct (forwarded_proto ctx), (contains_key _ _); by rewrite ?get_insert_other by done. }
  assert (lines_of "x-real-ip" h3 = [("x-real-ip", Some (ip_str (ctx_client_ip ctx)))]) as Er.
  { unfold h3, h2, h1. destruct (forwarded_proto ctx), (contains_key _ _); rewrite ?lines_insert_other by done; by rewrite lines_insert. }
  assert (contains_key "x-request-id" h3 = true) as Ei.
  { unfold h3, h2. destruct (contains_key "x-request-id" h1) eqn:E, (forwarded_proto ctx);
      unfold contains_key in *; rewrite ?get_insert_other by done; rewrite ?get_insert; done. }
  rewrite Ex. clearbody h3. unfold prev. assert (forall v, lines_of "x-forwarded-for" (insert_header "x-forwarded-for" v h3) = [("x-forwarded-for", Some v)]
    /\ lines_of "x-real-ip" (insert_header "x-forwarded-for" v h3) = [("x-real-ip", Some (ip_str (ctx_client_ip ctx)))]
    /\ contains_key "x-request-id" (insert_header "x-forwarded-for" v h3) = true) as Hv.
  { intros v. rewrite lines_insert, lines_insert_other by done. split_and!; [done | done |]. unfold contains_key in *. by rewrite get_insert_other. }
  destruct (header_str "x-forwarded-for" hs) as [v |]; cbn [fmap option_fmap option_map default]; apply Hv.
Qed.

End phases.
#[global] Arguments ConfigSnapshot : clear implicits.
#[global] Arguments Gateway : clear implicits.
#[global] Arguments RouteCtx : clear implicits.
#[global] Arguments RoutingCtx : clear implicits.
#[global] Arguments Gateway _ _ {_ _}.

(** ** Witnesses *)

Definition demo_show (ip : IpAddr) : string := show (ip_bits ip).
Definition demo_debug (o : option IpAddr) : string := match o with Some ip => demo_show ip | None => "None" end.
Definition demo_addr_ip (a : string) : IpAddr := V4 0.

Definition demo_route (host : string) (mode : LbMode) (bs : list string) : Route demo_net string :=
  mkRoute (Some host) None None None (Some bs) None 302 mode None.
Definition demo_lb (rs : list (Route demo_net string)) : Config demo_net string :=
  mkConfig None None ["d"] (Some 10) None None [] default_timeouts default_health (mkAccessLog false (f64_of 1))
    (mkRetry5xx true ["GET"] 1) 1 3 rs.
Definition demo_standby : Config demo_net string := demo_lb [demo_route "b.com" ActiveStandby ["x"; "y"]].
Definition demo_active : Config demo_net string := demo_lb [demo_route "c.com" ActiveActive ["z"]; demo_route "b.com" ActiveActive ["x"; "y"]].
Definition demo_gateway (c : Config demo_net string) : Gateway demo_net string :=
  mkGateway (snapshot_of addr_name c) ∅ empty_blacklist (new_metrics 0) ∅ [].
Definition demo_request : Request := mkRequest HTTP_11 (Some "B.com:80") None "/v1" "get" [] (Some (V4 7)).

Lemma demo_lb_valid rs : Forall route_valid rs -> config_valid (demo_lb rs).
Proof. intros Hrs. split; [discriminate | exact Hrs | vm_compute; done | reflexivity | reflexivity]. Qed.

Lemma demo_standby_ok : snapshot_ok addr_name (snapshot (demo_gateway demo_standby)).
Proof. exists demo_standby. split; [| reflexivity]. apply demo_lb_valid. repeat constructor; vm_compute; try discriminate; set_solver. Qed.

Definition demo_watch : WatchState := mkWatch {["/etc/gateway"]} None "/etc/gateway".

Lemma never_panics_witness :
  is_Some (request_filter addr_name demo_ip demo_show demo_debug to_ascii_lowercase 5
    (mkGateway (snapshot_of addr_name (default demo_standby (match config_from_raw demo_ip demo_network demo_socket None demo_raw with inr c => Some c | inl _ => None end)))
      ∅ (@empty_blacklist demo_net) (new_metrics 0) ∅ []) demo_request (new_ctx 5)).
Proof.
  set (c := default _ _). set (g := mkGateway _ _ _ _ _ _).
  refine (proj1 (never_panics addr_name demo_ip demo_show demo_debug to_ascii_lowercase demo_addr_ip demo_network (fun _ => None) (fun _ => None)
    demo_socket None demo_raw c g demo_watch (mkSystem g demo_watch ∅) _ _ _) 5 demo_request).
  - vm_compute. reflexivity.
  - reflexivity.
  - apply rtc_refl.
Defined.

Lemma only_admitted_routed_witness : routed_action Proceed <-> admitted demo_ip (demo_gateway demo_standby) demo_request = true.
Proof.
  eapply (only_admitted_routed addr_name demo_ip demo_show demo_debug to_ascii_lowercase 5 (demo_gateway demo_standby) demo_request);
    [exact demo_standby_ok | vm_compute; reflexivity].
Defined.

(** Two backends and three attempts, all of them refused. *)
Lemma failover_visits_all_witness :
  exists g' ctx addrs, request_filter addr_name demo_ip demo_show demo_debug to_ascii_lowercase 5 (demo_gateway demo_standby) demo_request (new_ctx 5)
    = Some (Proceed, g', ctx)
    /\ run_attempts demo_show demo_addr_ip true (attempt_cap demo_standby) g' ctx [({["x"]}, Refused); (∅, Refused); (∅, Refused)] = Some addrs
    /\ NoDup (take 2 addrs) /\ length addrs = 3%nat /\ (forall a, a ∈ ["x"; "y"] -> a ∈ addrs).
Proof.
  destruct (request_filter addr_name demo_ip demo_show demo_debug to_ascii_lowercase 5 (demo_gateway demo_standby) demo_request (new_ctx 5)) as [[[act g'] ctx] |] eqn:E; [| vm_compute in E; discriminate].
  assert (act = Proceed /\ route ctx = Some (mkRouteCtx (Some O) ActiveStandby ["x"; "y"] "")) as [-> Hr] by (vm_compute in E; injection E as <- <- <-; split; reflexivity).
  destruct (failover_visits_all addr_name demo_ip demo_show demo_debug to_ascii_lowercase demo_addr_ip demo_network (fun _ => None) (fun _ => None) demo_socket
    5 (demo_gateway demo_standby) demo_request g' ctx _ demo_standby true [({["x"]}, Refused); (∅, Refused); (∅, Refused)] demo_standby_ok E Hr) as (addrs & Hrun & _ & _ & Hn & Hall).
  exists g', ctx, addrs. destruct Hall as [Hlen Hv]; [reflexivity | by repeat constructor | vm_compute; lia |].
  split; [reflexivity |]. split; [exact Hrun |]. split; [exact Hn |]. split; [exact Hlen |]. apply Hv. vm_compute. lia.
Defined.

Lemma retries_bounded_witness :
  exists g' ctx, request_filter addr_name demo_ip demo_show demo_debug to_ascii_lowercase 5 (demo_gateway demo_standby) demo_request (new_ctx 5)
    = Some (Proceed, g', ctx)
    /\ forall addrs, run_attempts demo_show demo_addr_ip true 3 g' ctx [(∅, Responded 503); (∅, Responded 503); (∅, Responded 503)] = Some addrs -> Z.of_nat (length addrs) <= 2.
Proof.
  eexists _, _. split; [vm_compute; reflexivity |]. intros addrs Hr.
  refine (retries_bounded addr_name demo_ip demo_show demo_debug to_ascii_lowercase demo_addr_ip 5 (demo_gateway demo_standby) demo_request _ _ _ _ _ _
    demo_standby_ok _ _ Hr); [vm_compute; reflexivity | vm_compute; discriminate].
Defined.

Definition demo_retry : RoutingCtx string :=
  mkCtx (Some "x") ["x"] (Some (V4 7)) (Some (mkRouteCtx (Some O) ActiveActive ["x"; "y"] "key")) default_timeouts None 0 5 None None (Some "x").

Lemma retry_after_reload_leaves_route_witness :
  exists peer ctx', upstream_peer demo_show demo_addr_ip
    (reload_config addr_name demo_ip demo_show demo_network (fun _ => None) (fun _ => None) (inr demo_active) (demo_gateway demo_standby) demo_watch).1
    demo_retry = Some (peer, ctx') /\ p_addr peer ∈ ["z"].
Proof.
  refine (retry_after_reload_leaves_route addr_name demo_ip demo_show demo_addr_ip demo_network (fun _ => None) (fun _ => None)
    (demo_gateway demo_standby) demo_watch demo_retry (mkRouteCtx (Some O) ActiveActive ["x"; "y"] "key") O demo_active
    (demo_route "c.com" ActiveActive ["z"]) ["z"] _ _ _ _ _ _ _ _); try reflexivity; [| discriminate].
  apply demo_lb_valid. repeat constructor; vm_compute; try discriminate; set_solver.
Defined.

Lemma body_limit_exact_witness : run_body (demo_gateway demo_standby) (new_ctx 0) [4; 6; 1] = bool_decide (11 <= 10).
Proof. refine (body_limit_exact (demo_gateway demo_standby) (new_ctx 0) [4; 6; 1] 10 eq_refl eq_refl _ _ _); [lia | repeat constructor; lia | vm_compute; discriminate]. Defined.

(** The histogram of the repository's test. *)
Example duration_buckets_demo :
  duration_buckets (observe_duration_ms (observe_duration_ms (observe_duration_ms (new_metrics 0) 3) 120) 200000) = [1; 0; 0; 0; 0; 1; 0; 0; 0; 0; 0; 0; 0; 1].
Proof. reflexivity. Qed.

Example api_key_demo : extract_api_key demo_show (Some "bearer XYZ") None None = "XYZ".
Proof. reflexivity. Qed.

End LbProxy.
