(* ===== verification/Json.v ===== *)
(** * Json: values of serde_json and the derived parsers

    The source handles JSON through [serde_json::Value] (built with [preserve_order]:
    an object keeps the order of insertion) and through derived [Deserialize]
    implementations.  Here are the values, the accessors the source calls, and the
    parsers of the field types, from which the other files build the derived parser of
    a struct.  A parse error is [None]; its message is not modelled. *)

From S2P Require Import Prelude Text Float64.

Module Json.

(** ** Values *)

(** Integers are kept apart from floating-point numbers, as in [serde_json::Number]. *)
Inductive Number := NInt (z : Z) | NFloat (x : f64).

Inductive Value :=
  | VNull
  | VBool (b : bool)
  | VNumber (n : Number)
  | VString (s : string)
  | VArray (l : list Value)
  | VObject (o : list (string * Value)).

Definition Object : Type := list (string * Value).

(** ** Accessors *)

Fixpoint obj_get (o : Object) (k : string) : option Value :=
  match o with
  | [] => None
  | (k', v) :: o' => if bool_decide (k' = k) then Some v else obj_get o' k
  end.

(** [Map::insert]: an existing key keeps its place. *)
Fixpoint obj_insert (o : Object) (k : string) (v : Value) : Object :=
  match o with
  | [] => [(k, v)]
  | (k', v') :: o' => if bool_decide (k' = k) then (k, v) :: o' else (k', v') :: obj_insert o' k v
  end.

Definition obj_contains (o : Object) (k : string) : bool := match obj_get o k with Some _ => true | None => false end.

Definition as_object (v : Value) : option Object := match v with VObject o => Some o | _ => None end.
Definition as_array (v : Value) : option (list Value) := match v with VArray l => Some l | _ => None end.
Definition as_str (v : Value) : option string := match v with VString s => Some s | _ => None end.
Definition as_bool (v : Value) : option bool := match v with VBool b => Some b | _ => None end.
Definition as_u64 (v : Value) : option Z :=
  match v with VNumber (NInt z) => if (0 <=? z) && (z <=? u64_max) then Some z else None | _ => None end.
(** [Value::get] with a key. *)
Definition get (v : Value) (k : string) : option Value := match v with VObject o => obj_get o k | _ => None end.

(** [insert] when there is something to insert. *)
Definition insert_some {A} (o : Object) (k : string) (f : A -> Value) (a : option A) : Object :=
  match a with Some x => obj_insert o k (f x) | None => o end.
Definition vint (z : Z) : Value := VNumber (NInt z).

(** ** Derived parsers *)

Definition de_int (lo hi : Z) (v : Value) : option Z :=
  match v with VNumber (NInt z) => if (lo <=? z) && (z <=? hi) then Some z else None | _ => None end.
Definition de_u64 : Value -> option Z := de_int 0 u64_max.
Definition de_u32 : Value -> option Z := de_int 0 u32_max.
Definition de_f64 (v : Value) : option f64 :=
  match v with VNumber (NFloat x) => Some x | VNumber (NInt z) => Some (f64_of z) | _ => None end.
Definition de_string : Value -> option string := as_str.
Definition de_bool : Value -> option bool := as_bool.
Definition de_option {A} (de : Value -> option A) (v : Value) : option (option A) :=
  match v with VNull => Some None | _ => Some <$> de v end.

(** [HashMap<String, A>] *)
Fixpoint de_entries {A} (de : Value -> option A) (o : Object) : option (list (string * A)) :=
  match o with
  | [] => Some []
  | (k, v) :: o' => x ← de v; rest ← de_entries de o'; Some ((k, x) :: rest)
  end.
(** The last of equal keys wins. *)
Definition de_map {A} (de : Value -> option A) (v : Value) : option (gmap string A) :=
  match v with VObject o => list_to_map ∘ reverse <$> de_entries de o | _ => None end.

(** A field: [None] as default is a required one. *)
Definition field {A} (o : Object) (k : string) (de : Value -> option A) (dflt : option A) : option A :=
  match obj_get o k with Some v => de v | None => dflt end.
(** An [Option] field is [None] when it is absent. *)
Definition opt_field {A} (o : Object) (k : string) (de : Value -> option A) : option (option A) :=
  field o k (de_option de) (Some None).

Create HintDb typed.

(** ** Lemmas *)

Lemma obj_get_insert o k v : obj_get (obj_insert o k v) k = Some v.
Proof.
  induction o as [| [k' v'] o IH]; cbn; [by rewrite bool_decide_eq_true_2 |].
  case_bool_decide as E; cbn; [by rewrite bool_decide_eq_true_2 |]. by rewrite bool_decide_eq_false_2.
Qed.

Lemma obj_get_insert_ne o k k' v : k <> k' -> obj_get (obj_insert o k v) k' = obj_get o k'.
Proof.
  intros Hne. induction o as [| [k0 v0] o IH]; cbn; [by rewrite bool_decide_eq_false_2 |].
  case_bool_decide as E; cbn; [subst; by rewrite !bool_decide_eq_false_2 |]. by rewrite IH.
Qed.

Lemma obj_get_insert_some {A} o k k' (f : A -> Value) a :
  obj_get (insert_some o k f a) k' = if bool_decide (k = k') then match a with Some x => Some (f x) | None => obj_get o k' end else obj_get o k'.
Proof.
  unfold insert_some. case_bool_decide as E; [subst |]; destruct a; try done; [apply obj_get_insert | by apply obj_get_insert_ne].
Qed.

Lemma obj_get_insert_dec o k k' v : obj_get (obj_insert o k v) k' = if bool_decide (k = k') then Some v else obj_get o k'.
Proof. case_bool_decide as E; [subst; apply obj_get_insert | by apply obj_get_insert_ne]. Qed.

Lemma de_int_ok lo hi z : lo <= z <= hi -> de_int lo hi (vint z) = Some z.
Proof. intros [? ?]. cbn. by rewrite (proj2 (Z.leb_le lo z)), (proj2 (Z.leb_le z hi)) by done. Qed.

(** The induction principle with the hypotheses under arrays and objects. *)
Lemma Value_nested_ind (P : Value -> Prop) :
  P VNull -> (forall b, P (VBool b)) -> (forall n, P (VNumber n)) -> (forall s, P (VString s)) ->
  (forall l, Forall P l -> P (VArray l)) -> (forall o, Forall (fun kv => P kv.2) o -> P (VObject o)) -> forall v, P v.
Proof.
  intros H1 H2 H3 H4 H5 H6. fix IH 1. intros [| b | n | s | l | o]; [done | done | done | done | |].
  - apply H5. induction l as [| v l IHl]; constructor; [apply IH | done].
  - apply H6. induction o as [| [k v] o IHo]; constructor; [apply IH | done].
Qed.

(** *** What a derived parser guarantees *)

(** [P] holds of everything the parser returns. *)
Definition typed {A} (de : Value -> option A) (P : A -> Prop) : Prop := forall v x, de v = Some x -> P x.

Lemma field_typed {A} o k (de : Value -> option A) dflt (P : A -> Prop) x :
  field o k de dflt = Some x -> typed de P -> (forall d, dflt = Some d -> P d) -> P x.
Proof. unfold field. destruct (obj_get o k) as [v |]; [intros E Hde _; by eapply Hde | intros E _ Hd; by apply Hd]. Qed.

Lemma option_typed {A} (de : Value -> option A) (P : A -> Prop) : typed de P -> typed (de_option de) (from_option P True).
Proof.
  intros Hde v x. destruct v; cbn; try (by intros [= <-]); destruct (de _) eqn:E; try done; intros [= <-]; cbn; by eapply Hde.
Qed.

Lemma opt_field_typed {A} o k (de : Value -> option A) (P : A -> Prop) x : opt_field o k de = Some x -> typed de P -> from_option P True x.
Proof. intros E Hde. eapply field_typed; [exact E | by apply option_typed | by intros d [= <-]]. Qed.

Lemma entries_typed {A} (de : Value -> option A) (P : A -> Prop) o l : typed de P -> de_entries de o = Some l -> Forall (fun kv => P kv.2) l.
Proof.
  intros Hde. revert l. induction o as [| [k v] o IH]; cbn; intros l; [by intros [= <-] |].
  intros (x & Hx & (l' & Hl & [= <-])%bind_Some)%bind_Some. constructor; [by eapply Hde | by apply IH].
Qed.

Lemma map_typed {A} (de : Value -> option A) (P : A -> Prop) : typed de P -> typed (de_map de) (map_Forall (fun _ x => P x)).
Proof.
  intros Hde v m. destruct v as [| | | | | o]; try done. cbn. destruct (de_entries de o) as [l |] eqn:E; [| done]. intros [= <-].
  apply entries_typed with (P := P) in E; [| done]. intros k x Hk. cbn in Hk. apply elem_of_list_to_map_2 in Hk.
  rewrite Forall_forall in E. apply (E (k, x)). by rewrite elem_of_reverse in Hk.
Qed.

Lemma int_typed lo hi : typed (de_int lo hi) (fun z => lo <= z <= hi).
Proof. intros v z. destruct v as [| | [z' |] | | |]; try done. cbn. destruct (_ && _) eqn:E; [| done]. intros [= <-]. by bool_simpl. Qed.
Lemma u64_typed : typed de_u64 is_u64.
Proof. intros v z H%int_typed. unfold is_u64, u64_max in *. lia. Qed.
Lemma u32_typed : typed de_u32 is_u32.
Proof. intros v z H%int_typed. unfold is_u32, u32_max in *. lia. Qed.
Lemma any_typed {A} (de : Value -> option A) : typed de (fun _ => True).
Proof. done. Qed.

(** The look-ups of a chain of insertions with closed keys, one insertion at a time. *)
Lemma insert_skip o k k' v : bool_decide (k = k') = false -> obj_get (obj_insert o k v) k' = obj_get o k'.
Proof. intros E%bool_decide_eq_false_1. by apply obj_get_insert_ne. Qed.
Lemma insert_some_skip {A} o k k' (f : A -> Value) a : bool_decide (k = k') = false -> obj_get (insert_some o k f a) k' = obj_get o k'.
Proof. intros E. rewrite obj_get_insert_some. by rewrite E. Qed.
Lemma insert_some_hit {A} o k (f : A -> Value) a :
  obj_get (insert_some o k f a) k = match a with Some x => Some (f x) | None => obj_get o k end.
Proof. rewrite obj_get_insert_some. by rewrite bool_decide_eq_true_2. Qed.

Ltac closed_keys :=
  repeat match goal with
  | |- context [bool_decide (@eq string ?a ?b)] =>
    let t := eval vm_compute in (bool_decide (a = b)) in change (bool_decide (a = b)) with t
  end.
Ltac obj_lookup :=
  repeat first
    [ rewrite obj_get_insert | rewrite insert_some_hit
    | rewrite insert_skip by (vm_compute; reflexivity) | rewrite insert_some_skip by (vm_compute; reflexivity) ];
  repeat match goal with
  | |- context [obj_get ((?a, ?v) :: ?o) ?b] =>
    change (obj_get ((a, v) :: o) b) with (if bool_decide (a = b) then Some v else obj_get o b); closed_keys; cbn [obj_get]
  end.

(** Writing a map as an object and reading it back. *)
Lemma entries_of_list {A} (de : Value -> option A) (f : A -> Value) l :
  (forall x, de (f x) = Some x) -> de_entries de ((fun kv => (kv.1, f kv.2)) <$> l) = Some l.
Proof. intros Hf. induction l as [| [k x] l IH]; [done |]. cbn. rewrite Hf. cbn. by setoid_rewrite IH. Qed.

Lemma de_map_of_map {A} (de : Value -> option A) (f : A -> Value) (m : gmap string A) :
  (forall x, de (f x) = Some x) -> de_map de (VObject ((fun kv => (kv.1, f kv.2)) <$> map_to_list m)) = Some m.
Proof.
  intros Hf. unfold de_map. rewrite entries_of_list by done. cbn. f_equal.
  rewrite (list_to_map_proper (reverse (map_to_list m)) (map_to_list m)); [apply list_to_map_to_list | | by rewrite reverse_Permutation].
  rewrite reverse_Permutation. apply NoDup_fst_map_to_list.
Qed.

(** Reading a field of an object that was built by insertions. *)
Lemma opt_field_read {A} o k (de : Value -> option A) (f : A -> Value) a :
  obj_get o k = f <$> a -> (forall x, f x <> VNull) -> opt_field o k de = match a with None => Some None | Some x => Some <$> de (f x) end.
Proof.
  intros E Hf. unfold opt_field, field. rewrite E. destruct a as [x |]; [| done]. cbn. specialize (Hf x). by destruct (f x).
Qed.

Lemma field_read {A} o k (de : Value -> option A) dflt v : obj_get o k = Some v -> field o k de dflt = de v.
Proof. unfold field. by intros ->. Qed.

#[export] Hint Resolve option_typed map_typed u64_typed u32_typed int_typed any_typed : typed.

End Json.
