(* ===== verification/ModelTable.v ===== *)
(** * ModelTable: the tables of deployments and aliases (boom-routing)

    Models the SQL operations of [boom-routing/src/deployment_store.rs] and
    [alias_store.rs] on the tables [boom_model_deployment] and [boom_model_alias]
    ([migrations.rs]).  A table is the list of its rows in the order of their creation,
    which is that of [created_at] (a default of the database that nothing updates); a
    statement is a function of the table, and a failed statement is not modelled here (the
    callers take the outcome as an argument).  A nullable column is an [option]; the
    columns declared NOT NULL are plain. *)

From S2P Require Import Prelude Core Text Float64 Json Stores.

Module ModelTable.
Import Core Json.

(** ** Deployments *)

Record DeploymentInput := mkDeploymentInput {
  model_name : string;
  litellm_model : string;
  api_key : option string;
  api_key_env : option bool;
  api_base : option string;
  api_version : option string;
  aws_region_name : option string;
  aws_access_key_id : option string;
  aws_secret_access_key : option string;
  rpm : option Z;
  tpm : option Z;
  timeout : Z;
  headers : Value;
  temperature : option f64;
  max_tokens : option Z;
  enabled : bool;
  deployment_id : option string;
  quota_count_ratio : Z;
  max_inflight_queue_len : option Z;
  max_context_len : option Z;
  client_type_header : bool;
  serve_not_match : bool;
  model_info : option Value;
}.

Inductive Source := FromYaml | FromDb.
#[export] Instance Source_eq_dec : EqDecision Source.
Proof. solve_decision. Defined.

(** A row: the columns of the input and those the database manages. *)
Record DeploymentRow := mkRow { row_id : string; row_data : DeploymentInput; auto_disabled : bool; source : Source }.

(** What a provider is built from, and what the health monitor reads. *)
Record DeploymentHealthTarget := mkTarget {
  t_model_name : string;
  t_deployment_id : string;
  t_api_base : option string;
  t_enabled : bool;
  t_auto_disabled : bool;
}.

Notation Table := (list DeploymentRow).

(** The values bound to an INSERT: [api_key_env] defaults to false, and an absent
    [model_info] is bound as the JSON null, which is not the SQL NULL. *)
Definition bound (d : DeploymentInput) : DeploymentInput :=
  mkDeploymentInput (model_name d) (litellm_model d) (api_key d) (Some (default false (api_key_env d))) (api_base d) (api_version d)
    (aws_region_name d) (aws_access_key_id d) (aws_secret_access_key d) (rpm d) (tpm d) (timeout d) (headers d) (temperature d)
    (max_tokens d) (enabled d) (deployment_id d) (quota_count_ratio d) (max_inflight_queue_len d) (max_context_len d)
    (client_type_header d) (serve_not_match d) (Some (default VNull (model_info d))).

Definition with_deployment_id (d : DeploymentInput) (did : option string) : DeploymentInput :=
  mkDeploymentInput (model_name d) (litellm_model d) (api_key d) (api_key_env d) (api_base d) (api_version d)
    (aws_region_name d) (aws_access_key_id d) (aws_secret_access_key d) (rpm d) (tpm d) (timeout d) (headers d) (temperature d)
    (max_tokens d) (enabled d) did (quota_count_ratio d) (max_inflight_queue_len d) (max_context_len d)
    (client_type_header d) (serve_not_match d) (model_info d).

Definition with_model_name (d : DeploymentInput) (m : string) : DeploymentInput :=
  mkDeploymentInput m (litellm_model d) (api_key d) (api_key_env d) (api_base d) (api_version d)
    (aws_region_name d) (aws_access_key_id d) (aws_secret_access_key d) (rpm d) (tpm d) (timeout d) (headers d) (temperature d)
    (max_tokens d) (enabled d) (deployment_id d) (quota_count_ratio d) (max_inflight_queue_len d) (max_context_len d)
    (client_type_header d) (serve_not_match d) (model_info d).

Definition with_enabled (d : DeploymentInput) (e : bool) : DeploymentInput :=
  mkDeploymentInput (model_name d) (litellm_model d) (api_key d) (api_key_env d) (api_base d) (api_version d)
    (aws_region_name d) (aws_access_key_id d) (aws_secret_access_key d) (rpm d) (tpm d) (timeout d) (headers d) (temperature d)
    (max_tokens d) e (deployment_id d) (quota_count_ratio d) (max_inflight_queue_len d) (max_context_len d)
    (client_type_header d) (serve_not_match d) (model_info d).

(** [auto_disabled] is false by default. *)
Definition insert_row (id : string) (src : Source) (d : DeploymentInput) (t : Table) : Table :=
  t ++ [mkRow id (bound d) false src].

(** [ids] gives the generated row ids. *)
Definition sync_yaml_to_db (ids : nat -> string) (yaml_model_names : list string) (yaml : list DeploymentInput) (t : Table) : Table :=
  let t := retain (fun r => negb (bool_decide (source r = FromYaml))) t in
  let t := retain (fun r => negb (bool_decide (source r = FromDb) && bool_decide (model_name (row_data r) ∈ yaml_model_names))) t in
  t ++ imap (fun i d => mkRow (ids i) (bound d) false FromYaml) yaml.

Section ordering.
(** The collation of the database. *)
Context (name_le : string -> string -> Prop) `{!RelDecision name_le}.

Definition row_le (a b : DeploymentRow) : Prop := name_le (model_name (row_data a)) (model_name (row_data b)).
#[local] Instance row_le_dec : RelDecision row_le.
Proof. intros a b. unfold row_le. apply _. Defined.

(** ORDER BY model_name, created_at: the sort is stable. *)
Definition order_by_name (t : Table) : Table := merge_sort row_le t.

Definition load_db_only_rows (t : Table) : Table :=
  order_by_name (retain (fun r => bool_decide (source r = FromDb) && enabled (row_data r)) t).

Definition list_all_db (t : Table) : Table := order_by_name t.
Definition snapshot_db (t : Table) : Table := order_by_name t.

Definition health_target (r : DeploymentRow) : option DeploymentHealthTarget :=
  (fun did => mkTarget (model_name (row_data r)) did (api_base (row_data r)) (enabled (row_data r)) (auto_disabled r))
  <$> deployment_id (row_data r).
Definition list_health_check_targets (t : Table) : list DeploymentHealthTarget := omap health_target (order_by_name t).

End ordering.

(** The names of conflicts, without order. *)
Definition db_only_model_conflicts (names : list string) (t : Table) : list string :=
  remove_dups ((fun r => model_name (row_data r)) <$>
    retain (fun r => bool_decide (source r = FromDb) && enabled (row_data r) && bool_decide (model_name (row_data r) ∈ names)) t).

Definition load_model_rows (m : string) (t : Table) : Table :=
  retain (fun r => bool_decide (model_name (row_data r) = m) && enabled (row_data r)) t.

(** An absent or empty deployment id is replaced by a fresh one. *)
Definition create_db (id fresh : string) (d : DeploymentInput) (t : Table) : Table :=
  insert_row id FromDb (with_deployment_id d (Some (match deployment_id d with
                                                    | Some x => if bool_decide (x = "") then fresh else x
                                                    | None => fresh
                                                    end))) t.

Definition coalesce {A} (new old : option A) : option A := match new with Some x => Some x | None => old end.

(** The SET list of the UPDATE, on the values bound. *)
Definition updated_data (d old : DeploymentInput) : DeploymentInput :=
  mkDeploymentInput (model_name d) (litellm_model d) (coalesce (api_key d) (api_key old)) (api_key_env d)
    (coalesce (api_base d) (api_base old)) (coalesce (api_version d) (api_version old))
    (coalesce (aws_region_name d) (aws_region_name old)) (coalesce (aws_access_key_id d) (aws_access_key_id old))
    (coalesce (aws_secret_access_key d) (aws_secret_access_key old)) (rpm d) (tpm d) (timeout d) (headers d) (temperature d)
    (max_tokens d) (enabled d) (coalesce (deployment_id d) (deployment_id old)) (quota_count_ratio d) (max_inflight_queue_len d)
    (max_context_len d) (client_type_header d) (serve_not_match d) (coalesce (model_info d) (model_info old)).

Definition updated_row (d : DeploymentInput) (r : DeploymentRow) : DeploymentRow :=
  mkRow (row_id r) (updated_data (bound d) (row_data r))
    (if enabled d then false else if enabled (row_data r) then false else auto_disabled r) (source r).

(** UPDATE of the rows that satisfy a condition, with their number. *)
Definition update_where (P : DeploymentRow -> bool) (f : DeploymentRow -> DeploymentRow) (t : Table) : Table :=
  (fun r => if P r then f r else r) <$> t.

(** Whether a row was updated. *)
Definition update_db (id : string) (d : DeploymentInput) (t : Table) : Table * bool :=
  let P r := bool_decide (row_id r = id) in
  (update_where P (updated_row d) t, existsb P t).

Definition delete_db (id : string) (t : Table) : Table * option (string * option string) :=
  match list_find (fun r => row_id r = id) t with
  | None => (t, None)
  | Some (_, r) => (retain (fun r => negb (bool_decide (row_id r = id))) t, Some (model_name (row_data r), deployment_id (row_data r)))
  end.

Definition has_deployment_id (did : string) (r : DeploymentRow) : bool := bool_decide (deployment_id (row_data r) = Some did).

(** UPDATE .. RETURNING model_name with [fetch_optional]: every row that satisfies the
    condition is updated, one name is returned (here the first). *)
Definition auto_disable_db (did : string) (t : Table) : Table * option string :=
  let P r := has_deployment_id did r && enabled (row_data r) in
  (update_where P (fun r => mkRow (row_id r) (with_enabled (row_data r) false) true (source r)) t,
   (fun r => model_name (row_data r)) <$> head (retain P t)).

Definition auto_enable_db (did : string) (t : Table) : Table * option string :=
  let P r := has_deployment_id did r && auto_disabled r in
  (update_where P (fun r => mkRow (row_id r) (with_enabled (row_data r) true) false (source r)) t,
   (fun r => model_name (row_data r)) <$> head (retain P t)).

(** ** Aliases *)

(** [alias_name] is the primary key. *)
Record AliasRow := mkAliasRow { target_model : string; al_hidden : bool; al_source : Source }.
Notation AliasTable := (gmap string AliasRow).

Record AliasInput := mkAliasInput { ai_name : string; ai_target : string; ai_hidden : bool }.

(** The INSERTs run before the conflicting rows are deleted: one that meets a row of
    the same name fails on the primary key and ends the operation ([false]). *)
Fixpoint insert_aliases (l : list (string * string * bool)) (t : AliasTable) : AliasTable * bool :=
  match l with
  | [] => (t, true)
  | (a, target, h) :: l' =>
    match t !! a with
    | Some _ => (t, false)
    | None => insert_aliases l' (<[a := mkAliasRow target h FromYaml]> t)
    end
  end.

Definition alias_sync (yaml : list (string * string * bool)) (t : AliasTable) : AliasTable * bool :=
  let t := base.filter (fun kv : string * AliasRow => al_source kv.2 <> FromYaml) t in
  let '(t, ok) := insert_aliases yaml t in
  if ok then (base.filter (fun kv : string * AliasRow => ~ (al_source kv.2 = FromDb /\ kv.1 ∈ yaml.*1.*1)) t, true) else (t, false).

Definition alias_load_db_only (t : AliasTable) (s : Stores.AliasStore) : Stores.AliasStore :=
  foldl (fun s kv => Stores.set_alias s kv.1 (target_model kv.2) (al_hidden kv.2)) s
    (map_to_list (base.filter (fun kv : string * AliasRow => al_source kv.2 = FromDb) t)).

Definition alias_name_conflicts (names : list string) (t : AliasTable) : list string :=
  (map_to_list (base.filter (fun kv : string * AliasRow => al_source kv.2 = FromDb /\ kv.1 ∈ names) t)).*1.

Definition alias_create_db (i : AliasInput) (t : AliasTable) (s : Stores.AliasStore) : AliasTable * Stores.AliasStore :=
  (<[ai_name i := mkAliasRow (ai_target i) (ai_hidden i) FromDb]> t, Stores.set_alias s (ai_name i) (ai_target i) (ai_hidden i)).

Definition alias_update_db (name : string) (i : AliasInput) (t : AliasTable) (s : Stores.AliasStore) : AliasTable * Stores.AliasStore * bool :=
  match t !! name with
  | Some r => (<[name := mkAliasRow (ai_target i) (ai_hidden i) (al_source r)]> t,
               Stores.set_alias (Stores.remove_alias s name).1 (ai_name i) (ai_target i) (ai_hidden i), true)
  | None => (t, s, false)
  end.

Definition alias_delete_db (name : string) (t : AliasTable) (s : Stores.AliasStore) : AliasTable * Stores.AliasStore * bool :=
  match t !! name with
  | Some _ => (delete name t, (Stores.remove_alias s name).1, true)
  | None => (t, s, false)
  end.

(** The name and the target: the other columns are not selected. *)
Definition alias_snapshot_db (t : AliasTable) : list (string * string) := (fun kv => (kv.1, target_model kv.2)) <$> map_to_list t.

(** ** The synchronisation of the aliases *)

Definition yaml_alias_rows (l : list (string * string * bool)) : AliasTable :=
  list_to_map ((fun x : string * string * bool => (x.1.1, mkAliasRow x.1.2 x.2 FromYaml)) <$> l).
Definition db_aliases (t : AliasTable) : AliasTable := base.filter (fun kv : string * AliasRow => al_source kv.2 = FromDb) t.

Lemma not_yaml_db (t : AliasTable) : base.filter (fun kv : string * AliasRow => al_source kv.2 <> FromYaml) t = db_aliases t.
Proof. apply (proj1 (map_filter_ext _ _ _)). intros k [? ? []] _; cbn; split; done. Qed.

Lemma list_find_ext_in {A} (P Q : A -> Prop) `{forall x, Decision (P x)} `{forall x, Decision (Q x)} (l : list A) :
  (forall x, x ∈ l -> P x <-> Q x) -> list_find P l = list_find Q l.
Proof.
  induction l as [| x l IH]; intros HPQ; [done |]. cbn. rewrite IH by (intros y Hy; apply HPQ; by right).
  by rewrite (decide_ext (P x) (Q x)) by (apply HPQ; by left).
Qed.

(** The INSERTs stop at the first name of a row that is there. *)
Lemma insert_aliases_stops l t :
  NoDup l.*1.*1 ->
  insert_aliases l t = match list_find (fun x : string * string * bool => is_Some (t !! x.1.1)) l with
                       | Some (i, _) => (yaml_alias_rows (take i l) ∪ t, false)
                       | None => (yaml_alias_rows l ∪ t, true)
                       end.
Proof.
  revert t. induction l as [| [[a tg] h] l IH]; intros t Hnd; [cbn; by rewrite map_empty_union |].
  rewrite !fmap_cons in Hnd. apply NoDup_cons in Hnd as [Ha Hnd]. cbn [fst] in Ha. cbn [insert_aliases list_find fst].
  destruct (t !! a) as [r |] eqn:Et; [rewrite decide_True by done; cbn; by rewrite map_empty_union |].
  rewrite decide_False by (intros [? ?]; done). rewrite IH by done.
  rewrite (list_find_ext_in (fun x : string * string * bool => is_Some (<[a := mkAliasRow tg h FromYaml]> t !! x.1.1))
             (fun x : string * string * bool => is_Some (t !! x.1.1))).
  2: { intros [[b tb] hb] Hi. cbn. rewrite lookup_insert_ne; [done |]. intros <-. apply Ha.
       apply list_elem_of_fmap. exists (a, tb). split; [done |]. apply list_elem_of_fmap. by exists (a, tb, hb). }
  assert (forall k, a ∉ k.*1.*1 -> yaml_alias_rows k ∪ <[a := mkAliasRow tg h FromYaml]> t = yaml_alias_rows ((a, tg, h) :: k) ∪ t) as Hun.
  { intros k Hk. unfold yaml_alias_rows. rewrite fmap_cons. cbn. rewrite <- insert_union_l. symmetry. apply insert_union_r.
    apply not_elem_of_list_to_map_1. intros ([b r] & -> & ([[b' tb] hb] & [= -> ->] & Hin)%list_elem_of_fmap)%list_elem_of_fmap. cbn in *.
    apply Hk. apply list_elem_of_fmap. exists (b', tb). split; [done |]. apply list_elem_of_fmap. by exists (b', tb, hb). }
  destruct (list_find _ l) as [[i x] |] eqn:Ef; cbn; f_equal; [| by apply Hun]. apply Hun. intros Hin. apply Ha.
  apply list_elem_of_fmap in Hin as (y & -> & (z & -> & Hz)%list_elem_of_fmap). apply list_elem_of_fmap. exists z.1. split; [done |].
  apply list_elem_of_fmap. exists z. split; [done |]. apply elem_of_take in Hz as (j & Hj & _). by eapply list_elem_of_lookup_2.
Qed.

Lemma alias_sync_result yaml t :
  NoDup yaml.*1.*1 ->
  alias_sync yaml t = match list_find (fun x : string * string * bool => is_Some (db_aliases t !! x.1.1)) yaml with
                      | Some (i, _) => (yaml_alias_rows (take i yaml) ∪ db_aliases t, false)
                      | None => (yaml_alias_rows yaml ∪ db_aliases t, true)
                      end.
Proof.
  intros Hnd. unfold alias_sync. rewrite not_yaml_db, insert_aliases_stops by done.
  destruct (list_find _ yaml) as [[i x] |] eqn:Ef; [done |]. f_equal. apply map_filter_id. intros a r Hr [Hs Hin]. cbn in *.
  apply lookup_union_Some_raw in Hr as [Hr | [_ Hr]].
  - apply elem_of_list_to_map_2, list_elem_of_fmap in Hr as (y & [= _ ->] & _). done.
  - apply list_elem_of_fmap in Hin as (y & -> & (z & -> & Hz)%list_elem_of_fmap). apply list_find_None in Ef.
    rewrite Forall_forall in Ef. apply (Ef z Hz). by exists r.
Qed.

(** What the synchronisation leaves in the alias table.  The rows of the database
    stay, and the aliases of the configuration replace the configuration's old rows,
    when no name is in both; when one is, the INSERTs stop at the first such alias: the
    rows of the database stay as they are (the conflict is not resolved), the aliases
    before it are written, and those after it are in the table no more. *)
Theorem alias_sync_exact yaml t :
  NoDup yaml.*1.*1 ->
  alias_sync yaml t = match list_find (fun x : string * string * bool => is_Some (db_aliases t !! x.1.1)) yaml with
                      | Some (i, _) => (yaml_alias_rows (take i yaml) ∪ db_aliases t, false)
                      | None => (yaml_alias_rows yaml ∪ db_aliases t, true)
                      end.
Proof. apply alias_sync_result. Qed.

Definition demo_aliases : AliasTable := <["b" := mkAliasRow "m" false FromDb]> (<["c" := mkAliasRow "m" true FromYaml]> ∅).

Lemma alias_sync_exact_witness :
  alias_sync [("a", "m", false); ("b", "m", false); ("c", "m", true)] demo_aliases
  = (yaml_alias_rows [("a", "m", false)] ∪ db_aliases demo_aliases, false).
Proof. refine (eq_trans (alias_sync_exact _ demo_aliases _) _); [by apply (bool_decide_unpack _); vm_compute | by vm_compute]. Defined.

End ModelTable.
