(* ===== verification/PlanTable.v ===== *)
(** * PlanTable: plans and assignments in the database (boom-limiter)

    Models the tables of [boom-limiter/src/concurrency.rs]: the row of a plan with its JSON
    columns, the sync of the plans of the configuration, the plans that only the database
    has, and the operations of the dashboard on the tables and the memory together.  A
    statement fails where a key or the index on the default plan refuses it; [PlanStore]
    has the outcomes of a database that fails otherwise.  The texts of decimals are
    [rust_decimal]'s. *)

From S2P Require Import Prelude Core Text Float64 Json PlanStore.
From S2P Require Import ModelTable.

(** What the tables use of [Decimal] besides its arithmetic. *)
Class DecimalText (D : Type) := {
  dec_to_i64 : D -> option Z;
  dec_from_str : string -> option D;
  dec_from_f64 : f64 -> option D;
}.
(** [Decimal] kept as whole numbers. *)
Definition whole_decimal_text : DecimalText Z := {|
  dec_to_i64 := fun z => if (- 2 ^ 63 <=? z) && (z <? 2 ^ 63) then Some z else None;
  dec_from_str := parse_u64;
  dec_from_f64 := fun _ => None;
|}.

Module PlanTable.
Import Core Json PlanStore ModelTable(Source, FromYaml, FromDb).
#[export] Existing Instance ModelTable.Source_eq_dec.

(** A row of [boom_rate_limit_plan]; its source is kept beside it. *)
Record PlanRow := mkPlanRow {
  pr_name : string;
  pr_type : option string;
  pr_member_plan : option string;
  pr_concurrency_limit : option Z;
  pr_rpm_limit : option Z;
  pr_tpm_limit : option Z;
  pr_window_limits : Value;
  pr_total_token_limit : option Z;
  pr_total_cost_limit_micros : option Z;
  pr_schedule : Value;
  pr_is_default : option bool;
}.

Definition opt_int (o : option Z) : Value := match o with Some z => vint z | None => VNull end.
(** [as i32] and [as u32]. *)
Definition as_i32 (z : Z) : Z := let m := wrap32 z in if m <? 2 ^ 31 then m else m - 2 ^ 32.
Definition as_u32 (z : Z) : Z := wrap32 z.

Section table.
Context {D : Type} `{DecimalOps D} `{DecimalText D} (ser_decimal : D -> Value).
Implicit Types (p : RateLimitPlan D) (s : PlanStore D) (r : PlanRow).

(** ** From a plan to its row *)

Definition window_value (w : WindowLimit D) : Value :=
  VObject [("counts", opt_int (wl_counts w)); ("tokens", opt_int (wl_tokens w));
           ("costs", match wl_costs w with Some c => ser_decimal c | None => VNull end); ("window_secs", vint (window_secs w))].

Definition slot_value (s : ScheduleSlot D) : Value :=
  VObject [("hours", VString (hours s)); ("concurrency_limit", opt_int (slot_concurrency_limit s)); ("rpm_limit", opt_int (slot_rpm_limit s));
           ("tpm_limit", opt_int (slot_tpm_limit s)); ("window_limits", VArray (window_value <$> slot_window_limits s))].

Definition decimal_to_micros (d : D) : Z := default 0 (dec_to_i64 (dec_mul d (dec_from_u64 1000000))).
Definition micros_to_decimal (micros : Z) : D := dec_div (dec_from_u64 (Z.max micros 0)) (dec_from_u64 1000000).

Definition type_str (t : PlanType) : string := match t with PlanKey => "key" | PlanTeam => "team" end.

Definition row_of_plan p (is_default : option bool) : PlanRow :=
  mkPlanRow (name p) (Some (type_str (plan_type p))) (member_plan p) (as_i32 <$> concurrency_limit p) (as_i64 <$> rpm_limit p) (as_i64 <$> tpm_limit p)
    (VArray (window_value <$> window_limits p)) (as_i64 <$> total_token_limit p) (decimal_to_micros <$> total_cost_limit p)
    (VArray (slot_value <$> schedule p)) is_default.

(** ** From a row to its plan *)

Definition as_f64 (v : Value) : option f64 :=
  match v with VNumber (NInt z) => Some (f64_of z) | VNumber (NFloat x) => Some x | _ => None end.

Definition parse_costs (v : Value) : option D :=
  match as_str v ≫= dec_from_str with Some d => Some d | None => as_f64 v ≫= dec_from_f64 end.

Definition parse_window (item : Value) : option (WindowLimit D) :=
  match item with
  | VArray [a; b; c; w] => Some (mkWindowLimit (Json.as_u64 a) (Json.as_u64 b) (parse_costs c) (default 60 (Json.as_u64 w)))
  | VArray [c; w] => c ← Json.as_u64 c; w ← Json.as_u64 w; Some (mkWindowLimit (Some c) None None w)
  | VObject o =>
    Some (mkWindowLimit (obj_get o "counts" ≫= Json.as_u64) (obj_get o "tokens" ≫= Json.as_u64) (obj_get o "costs" ≫= parse_costs)
            (default 60 (obj_get o "window_secs" ≫= Json.as_u64)))
  | _ => None
  end.
Definition parse_window_limits (v : Value) : list (WindowLimit D) := omap parse_window (default [] (as_array v)).

Definition parse_slot (item : Value) : option (ScheduleSlot D) :=
  obj ← as_object item;
  h ← obj_get obj "hours" ≫= as_str;
  Some (mkScheduleSlot h (as_u32 <$> (obj_get obj "concurrency_limit" ≫= Json.as_u64)) (obj_get obj "rpm_limit" ≫= Json.as_u64)
          (obj_get obj "tpm_limit" ≫= Json.as_u64) (parse_window_limits (default (VArray []) (obj_get obj "window_limits")))).
Definition parse_schedule (v : Value) : list (ScheduleSlot D) := omap parse_slot (default [] (as_array v)).

Definition row_to_plan r : RateLimitPlan D :=
  mkRateLimitPlan (pr_name r) (if bool_decide (pr_type r = Some "team") then PlanTeam else PlanKey) (pr_member_plan r)
    (as_u32 <$> pr_concurrency_limit r) (Prelude.as_u64 <$> pr_rpm_limit r) (Prelude.as_u64 <$> pr_tpm_limit r)
    (parse_window_limits (pr_window_limits r)) (Prelude.as_u64 <$> pr_total_token_limit r) (micros_to_decimal <$> pr_total_cost_limit_micros r)
    (parse_schedule (pr_schedule r)).

(** ** The tables *)

(** Plans by their name, the choice of a key ([None] is no plan), the plan of a team. *)
Record PlanDb := mkPlanDb {
  plan_rows : gmap string (PlanRow * Source);
  key_rows : gmap string (option string);
  team_rows : gmap string string;
}.
Definition empty_db : PlanDb := mkPlanDb ∅ ∅ ∅.
Definition set_plan_rows (db : PlanDb) m := mkPlanDb m (key_rows db) (team_rows db).
Definition set_key_rows (db : PlanDb) m := mkPlanDb (plan_rows db) m (team_rows db).
Definition set_team_rows (db : PlanDb) m := mkPlanDb (plan_rows db) (key_rows db) m.

(** The index that lets one plan be the default. *)
Definition is_default_row (x : PlanRow * Source) : bool := default false (pr_is_default x.1).
Definition has_default (t : gmap string (PlanRow * Source)) : bool := existsb (fun kv => is_default_row kv.2) (map_to_list t).

Definition insert_plan r (src : Source) (t : gmap string (PlanRow * Source)) : option (gmap string (PlanRow * Source)) :=
  match t !! pr_name r with
  | Some _ => None
  | None => if is_default_row (r, src) && has_default t then None else Some (<[pr_name r := (r, src)]> t)
  end.

Fixpoint insert_plans (l : list PlanRow) (t : gmap string (PlanRow * Source)) : gmap string (PlanRow * Source) * bool :=
  match l with
  | [] => (t, true)
  | r :: l' => match insert_plan r FromYaml t with Some t' => insert_plans l' t' | None => (t, false) end
  end.

(** [plan_name NOT IN (SELECT name ...)] is not true of a null, unless there is no plan. *)
Definition orphaned (t : gmap string (PlanRow * Source)) (choice : option string) : bool :=
  match choice with Some n => is_none (t !! n) | None => bool_decide (t = ∅) end.

Definition clean_orphans (db : PlanDb) : PlanDb :=
  mkPlanDb (plan_rows db)
    (base.filter (fun kv : string * option string => orphaned (plan_rows db) kv.2 = false) (key_rows db))
    (base.filter (fun kv : string * string => orphaned (plan_rows db) (Some kv.2) = false) (team_rows db)).

(** A row of the database with the name of a plan of the configuration. *)
Definition conflicts (names : list string) (kv : string * (PlanRow * Source)) : bool := bool_decide (kv.2.2 = FromDb) && bool_decide (kv.1 ∈ names).

(** [sync_yaml_to_db] with the plans in the order of the hash map; the first INSERT that
    fails ends it. *)
Definition plan_sync (yaml : list (RateLimitPlan D)) (default_plan : option string) (db : PlanDb) : PlanDb * bool :=
  let t := base.filter (fun kv : string * (PlanRow * Source) => kv.2.2 <> FromYaml) (plan_rows db) in
  let t := base.filter (fun kv : string * (PlanRow * Source) => conflicts (name <$> yaml) kv = false) t in
  let '(t, ok) := insert_plans ((fun p => row_of_plan p (Some (bool_decide (default_plan = Some (name p))))) <$> yaml) t in
  if ok then (clean_orphans (set_plan_rows db t), true) else (set_plan_rows db t, false).

Definition db_only_rows (db : PlanDb) : list PlanRow :=
  (fun kv => kv.2.1) <$> map_to_list (base.filter (fun kv : string * (PlanRow * Source) => kv.2.2 = FromDb) (plan_rows db)).

(** [None] is a query that fails: it is logged, and nothing is loaded. *)
Definition load_db_only_plans (rows : option (list PlanRow)) s : PlanStore D := foldl (fun s r => upsert_plan s (row_to_plan r)) s (default [] rows).

Definition snapshot_plans_db (db : PlanDb) : gmap string PlanRow := fst <$> plan_rows db.

(** ** The operations of the dashboard, with a database at hand *)

Definition upsert_plan_row p (db : PlanDb) : PlanDb :=
  set_plan_rows db (<[name p := (row_of_plan p (match plan_rows db !! name p with Some (r, _) => pr_is_default r | None => Some false end), FromDb)]> (plan_rows db)).

Definition rows_affected {A} (o : option A) : option Z := Some (match o with Some _ => 1 | None => 0 end).

(** What the dashboard and the background task do to the tables and the memory. *)
Inductive PlanOp :=
| OpUpsert p
| OpDelete (n : string)
| OpAssign (kh n : string)
| OpNoPlan (kh : string)
| OpUnassign (kh : string)
| OpAssignTeam (tid n : string)
| OpUnassignTeam (tid : string)
| OpSync.

Definition apply_op (o : PlanOp) (x : PlanDb * PlanStore D) : PlanDb * PlanStore D :=
  let '(db, s) := x in
  match o with
  | OpUpsert p => (upsert_plan_row p db, (upsert_plan_db s p true).1)
  | OpDelete n => (set_plan_rows db (delete n (plan_rows db)), (delete_plan_db s n (rows_affected (plan_rows db !! n))).1)
  | OpAssign kh n =>
    let '(s', res) := assign_key_db s kh n (rows_affected (key_rows db !! kh)) true None in
    (match res with inr _ => set_key_rows db (<[kh := Some n]> (key_rows db)) | inl _ => db end, s')
  | OpNoPlan kh => (set_key_rows db (<[kh := None]> (key_rows db)), (assign_key_no_plan_db s kh (rows_affected (key_rows db !! kh)) true None).1)
  | OpUnassign kh => (set_key_rows db (delete kh (key_rows db)), (unassign_key_db s kh (rows_affected (key_rows db !! kh))).1)
  | OpAssignTeam tid n =>
    let '(s', res) := assign_team_db s tid n (rows_affected (team_rows db !! tid)) true None in
    (match res with inr _ => set_team_rows db (<[tid := n]> (team_rows db)) | inl _ => db end, s')
  | OpUnassignTeam tid => (set_team_rows db (delete tid (team_rows db)), (unassign_team_db s tid (rows_affected (team_rows db !! tid))).1)
  | OpSync => (set_key_rows db (key_assignments s ∪ key_rows db), s)
  end.

(** ** Start and reload

    [s] is the store with the plans of the configuration, [yaml] these plans; [loaded] is
    whether the query for the other plans succeeds. *)

Definition start_plans (yaml : list (RateLimitPlan D)) (default_plan : option string) s (db : PlanDb) : PlanDb * PlanStore D :=
  let '(db, _) := plan_sync yaml default_plan db in
  let s := load_db_only_plans (Some (db_only_rows db)) s in
  let s := restore_assignments_from_db s (Some (map_to_list (key_rows db))) in
  (db, restore_team_assignments_from_db s (Some (map_to_list (team_rows db)))).

Definition reload_plans (loaded : bool) (synced : bool) (yaml : list (RateLimitPlan D)) (default_plan : option string) s (db : PlanDb) : PlanDb * PlanStore D :=
  let db := if synced then (plan_sync yaml default_plan db).1 else db in
  (db, cleanup_assignments (load_db_only_plans (if loaded then Some (db_only_rows db) else None) s)).

(** ** Lemmas: rows *)

Definition opt_is (P : Z -> Prop) (o : option Z) : Prop := from_option P True o.
(** The text of a decimal is parsed as it. *)
Definition reads_back (c : D) : Prop := as_str (ser_decimal c) ≫= dec_from_str = Some c.
Definition wf_window (w : WindowLimit D) : Prop :=
  opt_is is_u64 (wl_counts w) /\ opt_is is_u64 (wl_tokens w) /\ is_u64 (window_secs w) /\ forall c, wl_costs w = Some c -> reads_back c.
Definition wf_slot (s : ScheduleSlot D) : Prop :=
  opt_is is_u32 (slot_concurrency_limit s) /\ opt_is is_u64 (slot_rpm_limit s) /\ opt_is is_u64 (slot_tpm_limit s) /\ Forall wf_window (slot_window_limits s).
(** The integers fit their types, the texts of the costs are read back, and the cost limit
    is a whole number of micros. *)
Definition wf_plan p : Prop :=
  opt_is is_u32 (concurrency_limit p) /\ opt_is is_u64 (rpm_limit p) /\ opt_is is_u64 (tpm_limit p) /\ opt_is is_u64 (total_token_limit p)
  /\ Forall wf_window (window_limits p) /\ Forall wf_slot (schedule p)
  /\ forall c, total_cost_limit p = Some c -> micros_to_decimal (decimal_to_micros c) = c.

Lemma i32_back z : is_u32 z -> as_u32 (as_i32 z) = z.
Proof.
  intros Hz. unfold as_u32, as_i32, wrap32, is_u32 in *. rewrite (Z.mod_small z) by lia. case_match; [apply Z.mod_small; lia |].
  symmetry; apply (Z.mod_unique_pos _ _ (-1)); lia.
Qed.
Lemma i64_back z : is_u64 z -> Prelude.as_u64 (as_i64 z) = z.
Proof.
  intros Hz. unfold Prelude.as_u64, as_i64, wrap64, is_u64 in *. rewrite (Z.mod_small z) by lia. case_match; [apply Z.mod_small; lia |].
  symmetry; apply (Z.mod_unique_pos _ _ (-1)); lia.
Qed.
Lemma opt_back (f g : Z -> Z) (P : Z -> Prop) o : (forall z, P z -> g (f z) = z) -> opt_is P o -> g <$> (f <$> o) = o.
Proof. intros Hf. destruct o; [| done]. cbn. intros Hz. by rewrite Hf. Qed.

Lemma omap_of_map {A B} (f : A -> B) (g : B -> option A) (l : list A) : (forall x, x ∈ l -> g (f x) = Some x) -> omap g (f <$> l) = l.
Proof. intros Hg. induction l as [| x l IH]; [done |]. cbn. rewrite Hg by (by left). cbn. f_equal. apply IH. intros y Hy. apply Hg. by right. Qed.

Lemma opt_int_u64 o : opt_is is_u64 o -> Json.as_u64 (opt_int o) = o.
Proof.
  destruct o as [z |]; [| done]. cbn. unfold is_u64, u64_max. intros Hz. destruct (Z.leb_spec 0 z), (Z.leb_spec z (2 ^ 64 - 1)); try lia. done.
Qed.
Lemma vint_u64 z : is_u64 z -> Json.as_u64 (vint z) = Some z.
Proof. apply (opt_int_u64 (Some z)). Qed.

Lemma costs_back (o : option D) : (forall c, o = Some c -> reads_back c) -> parse_costs (match o with Some c => ser_decimal c | None => VNull end) = o.
Proof. unfold parse_costs, reads_back. intros Ho. destruct o as [c |]; [by rewrite Ho | done]. Qed.

Lemma window_back w : wf_window w -> parse_window (window_value w) = Some w.
Proof.
  intros (Hc & Ht & Hs & Hk). destruct w as [c t k secs]. cbn [wl_counts wl_tokens wl_costs window_secs] in *.
  transitivity (Some (mkWindowLimit (Json.as_u64 (opt_int c)) (Json.as_u64 (opt_int t)) (parse_costs (match k with Some c => ser_decimal c | None => VNull end))
    (default 60 (Json.as_u64 (vint secs))))); [reflexivity |]. by rewrite !opt_int_u64, costs_back, vint_u64.
Qed.
Lemma windows_back l : Forall wf_window l -> parse_window_limits (VArray (window_value <$> l)) = l.
Proof. intros Hl. apply omap_of_map. rewrite Forall_forall in Hl. intros w Hw. apply window_back. by apply Hl. Qed.

Lemma slot_back x : wf_slot x -> parse_slot (slot_value x) = Some x.
Proof.
  intros (Hc & Hr & Ht & Hw). destruct x as [h c r t w]. cbn [slot_concurrency_limit slot_rpm_limit slot_tpm_limit slot_window_limits] in *.
  transitivity (Some (mkScheduleSlot h (as_u32 <$> Json.as_u64 (opt_int c)) (Json.as_u64 (opt_int r)) (Json.as_u64 (opt_int t))
    (parse_window_limits (VArray (window_value <$> w))))); [reflexivity |].
  rewrite (opt_int_u64 r), (opt_int_u64 t), windows_back by done. rewrite opt_int_u64 by (destruct c; cbn in *; unfold is_u32, is_u64 in *; [lia | done]).
  do 2 f_equal. destruct c; [| done]. cbn. f_equal. apply wrap32_small, Hc.
Qed.

(** A plan is read back from its row as it was written: every limit, every window and
    every slot of its schedule, with the hours and the limits of the slot.  The casts to the
    signed columns lose nothing; a cost limit that is not a whole number of micros does. *)
Theorem plan_row_roundtrip p b : wf_plan p -> row_to_plan (row_of_plan p b) = p.
Proof.
  intros (Hc & Hr & Ht & Hk & Hw & Hs & Hcost). destruct p as [n ty mem c r t ws k cost sch]. unfold row_to_plan, row_of_plan.
  cbn [pr_name pr_type pr_member_plan pr_concurrency_limit pr_rpm_limit pr_tpm_limit pr_window_limits pr_total_token_limit pr_total_cost_limit_micros pr_schedule
       name plan_type member_plan concurrency_limit rpm_limit tpm_limit window_limits total_token_limit total_cost_limit schedule] in *.
  rewrite (opt_back _ _ _ _ i32_back Hc), (opt_back _ _ _ _ i64_back Hr), (opt_back _ _ _ _ i64_back Ht), (opt_back _ _ _ _ i64_back Hk), windows_back by done. f_equal.
  - by destruct ty.
  - destruct cost; [| done]. cbn. f_equal. by apply Hcost.
  - apply omap_of_map. rewrite Forall_forall in Hs. intros x Hx. apply slot_back. by apply Hs.
Qed.

(** ** Lemmas: tables *)

(** The plans of the configuration, by their name. *)
Definition named (yaml : list (RateLimitPlan D)) : gmap string (RateLimitPlan D) := list_to_map ((fun p => (name p, p)) <$> yaml).
Definition yaml_row (dflt : option string) p : PlanRow * Source := (row_of_plan p (Some (bool_decide (dflt = Some (name p)))), FromYaml).

Lemma named_lookup yaml n p : NoDup (name <$> yaml) -> named yaml !! n = Some p <-> p ∈ yaml /\ name p = n.
Proof.
  intros Hnd. unfold named. rewrite <- elem_of_list_to_map.
  - rewrite list_elem_of_fmap. split; [intros (q & [= -> ->] & Hq); done | intros [Hq <-]; by exists p].
  - by rewrite <- list_fmap_compose.
Qed.
Lemma named_none yaml n : named yaml !! n = None <-> n ∉ name <$> yaml.
Proof. unfold named. rewrite <- not_elem_of_list_to_map. by rewrite <- list_fmap_compose. Qed.

(** INSERTs of plans under new names, with no default among the rows there are, succeed. *)
Lemma inserts_succeed dflt yaml t :
  NoDup (name <$> yaml) -> (forall p, p ∈ yaml -> t !! name p = None) -> (forall n x, t !! n = Some x -> is_default_row x = true -> dflt = Some n) ->
  insert_plans ((fun p => row_of_plan p (Some (bool_decide (dflt = Some (name p))))) <$> yaml) t = ((yaml_row dflt <$> named yaml) ∪ t, true).
Proof.
  revert t. induction yaml as [| p yaml IH]; intros t Hnd Hnew Hd.
  { cbn. unfold named. cbn. by rewrite fmap_empty, (left_id_L ∅ (∪)). }
  cbn in Hnd. apply NoDup_cons in Hnd as [Hn Hnd]. cbn [fmap list_fmap insert_plans]. unfold insert_plan. cbn [pr_name row_of_plan].
  rewrite (Hnew p) by (by left). unfold is_default_row at 1. cbn [fst pr_is_default row_of_plan default].
  replace (_ && has_default t) with false.
  2:{ symmetry. apply andb_false_iff. case_bool_decide as Hdf; [right | by left]. apply not_true_iff_false. unfold has_default.
      rewrite existsb_exists. intros ([n x] & Hin & Hx). apply list_elem_of_In, elem_of_map_to_list in Hin. cbn in Hx.
      assert (n = name p) as -> by (pose proof (Hd n x Hin Hx); congruence). by rewrite (Hnew p) in Hin by (by left). }
  rewrite IH; [| done | |].
  - f_equal. unfold named. cbn [fmap list_fmap list_to_map foldr]. rewrite fmap_insert, <- insert_union_l.
    rewrite insert_union_r; [done |]. rewrite lookup_fmap, fmap_None. by apply named_none.
  - intros q Hq. rewrite lookup_insert_ne; [apply Hnew; by right |]. intros E. apply Hn. rewrite E. by apply list_elem_of_fmap_2.
  - intros n x. destruct (decide (n = name p)) as [-> | Hne].
    + rewrite lookup_insert_eq. intros [= <-]. unfold is_default_row. cbn. by intros E%bool_decide_eq_true.
    + rewrite lookup_insert_ne by done. apply Hd.
Qed.

Definition db_rows (t : gmap string (PlanRow * Source)) : gmap string (PlanRow * Source) := base.filter (fun kv : string * (PlanRow * Source) => kv.2.2 = FromDb) t.

(** No plan that only the database has is the default. *)
Definition defaults_free (yaml : list (RateLimitPlan D)) (db : PlanDb) : Prop :=
  forall n r, plan_rows db !! n = Some (r, FromDb) -> named yaml !! n = None -> pr_is_default r <> Some true.

(** What the sync makes of the rows when no plan that only the database has is the default. *)
Lemma sync_exact yaml dflt db :
  NoDup (name <$> yaml) -> defaults_free yaml db ->
  plan_sync yaml dflt db = (clean_orphans (set_plan_rows db ((yaml_row dflt <$> named yaml) ∪ db_rows (plan_rows db))), true).
Proof.
  intros Hnd Hdf. unfold plan_sync. set (t := base.filter (fun kv => conflicts _ kv = false) _).
  assert (forall n x, t !! n = Some x <-> plan_rows db !! n = Some x /\ x.2 = FromDb /\ n ∉ name <$> yaml) as Ht.
  { intros n [r src]. unfold t. rewrite !map_lookup_filter_Some. unfold conflicts. cbn. rewrite andb_false_iff, !bool_decide_eq_false.
    split; [intros [[? ?] [? | ?]]; destruct src; done | intros (? & -> & ?); auto]. }
  rewrite inserts_succeed; [| done | |].
  - do 3 f_equal. apply map_eq. intros n. unfold db_rows. rewrite !lookup_union, !lookup_fmap. destruct (named yaml !! n) as [q |] eqn:En.
    { cbn. destruct (t !! n); destruct (base.filter _ _ !! n); done. }
    apply named_none in En. cbn. rewrite !(left_id_L None _). apply option_eq. intros x.
    rewrite Ht, map_lookup_filter_Some. cbn. tauto.
  - intros p Hp. apply eq_None_not_Some. intros [x (_ & _ & Hn)%Ht]. apply Hn. by apply list_elem_of_fmap_2.
  - intros n [r src] (Hr & E & Hn)%Ht. cbn in E. subst src. unfold is_default_row. cbn. apply named_none in Hn.
    specialize (Hdf _ _ Hr Hn). destruct (pr_is_default r) as [[] |]; done.
Qed.

Lemma load_lookup l s n :
  NoDup (pr_name <$> l) ->
  plans (load_db_only_plans (Some l) s) !! n = match list_find (fun r => pr_name r = n) l with Some (_, r) => Some (row_to_plan r) | None => plans s !! n end.
Proof.
  unfold load_db_only_plans. cbn [default]. revert s. induction l as [| r l IH]; intros s; [done |]. cbn. intros [Hn Hnd]%NoDup_cons.
  rewrite IH by done. case_decide as E.
  - subst. destruct (list_find _ l) as [[i r'] |] eqn:Ef; [| cbn; apply lookup_insert_eq].
    apply list_find_Some in Ef as (Hl & E & _). destruct Hn. rewrite <- E. apply list_elem_of_fmap_2. by eapply list_elem_of_lookup_2.
  - destruct (list_find _ l) as [[i r'] |]; [done |]. cbn. by rewrite lookup_insert_ne.
Qed.

Lemma load_keeps rows s : let s' := load_db_only_plans rows s in
  key_assignments s' = key_assignments s /\ team_assignments s' = team_assignments s
  /\ default_plan_name s' = default_plan_name s /\ default_team_plan_name s' = default_team_plan_name s.
Proof.
  unfold load_db_only_plans. generalize (default [] rows). intros l. revert s. induction l as [| r l IH]; intros s; [done |].
  cbn [foldl]. cbv zeta in *. by destruct (IH (upsert_plan s (row_to_plan r))) as (-> & -> & -> & ->).
Qed.

(** Rows are kept under their names. *)
Definition well_named (db : PlanDb) : Prop := forall n x, plan_rows db !! n = Some x -> pr_name x.1 = n.

Lemma load_rows db s n : well_named db ->
  plans (load_db_only_plans (Some (db_only_rows db)) s) !! n =
  match plan_rows db !! n with Some (r, FromDb) => Some (row_to_plan r) | _ => plans s !! n end.
Proof.
  intros Hw. set (m := db_rows (plan_rows db)).
  assert (forall k x, (k, x) ∈ map_to_list m -> pr_name x.1 = k /\ m !! k = Some x) as Hm.
  { intros k x Hin%elem_of_map_to_list. split; [| done]. apply map_lookup_filter_Some in Hin as [Hin _]. by apply Hw. }
  rewrite load_lookup.
  - destruct (list_find _ _) as [[i r] |] eqn:E.
    + apply list_find_Some in E as (Hl & En & _). apply list_elem_of_lookup_2, list_elem_of_fmap in Hl as ([k [r' src]] & -> & Hin).
      apply Hm in Hin as [Ek Hx]. cbn in *. apply map_lookup_filter_Some in Hx as [Hx Hs]. cbn in Hs. by rewrite <- En, Ek, Hx, Hs.
    + destruct (plan_rows db !! n) as [[r []] |] eqn:En; [done | | done]. exfalso.
      apply list_find_None in E. rewrite Forall_forall in E. refine (E r _ (Hw _ _ En)). apply list_elem_of_fmap. exists (n, (r, FromDb)).
      split; [done |]. apply elem_of_map_to_list, map_lookup_filter_Some. done.
  - unfold db_only_rows. rewrite <- list_fmap_compose. fold (db_rows (plan_rows db)). fold m.
    replace (_ <$> map_to_list m) with (map_to_list m).*1; [apply NoDup_fst_map_to_list |].
    apply list_fmap_ext. intros i [k x] Hi. apply list_elem_of_lookup_2, Hm in Hi as [E _]. done.
Qed.

(** ** Reloads *)

Definition no_db_default (db : PlanDb) : Prop := forall n r, plan_rows db !! n = Some (r, FromDb) -> pr_is_default r <> Some true.
Lemma no_default_free yaml db : no_db_default db -> defaults_free yaml db.
Proof. intros Hd n r Hn _. by apply Hd in Hn. Qed.
#[local] Hint Resolve no_default_free : core.

Lemma yaml_rows_named dflt yaml n x : (yaml_row dflt <$> named yaml) !! n = Some x -> NoDup (name <$> yaml) -> pr_name x.1 = n.
Proof. rewrite lookup_fmap, fmap_Some. intros (p & Hp & ->) Hnd. by apply named_lookup in Hp as [_ <-]. Qed.

Lemma synced_well_named yaml dflt db : NoDup (name <$> yaml) -> defaults_free yaml db -> well_named db -> well_named (plan_sync yaml dflt db).1.
Proof.
  intros Hnd Hd Hw n x. rewrite sync_exact by done. cbn. rewrite lookup_union_Some_raw. intros [Hx | [_ Hx]].
  - by eapply yaml_rows_named.
  - apply map_lookup_filter_Some in Hx as [Hx _]. by apply Hw.
Qed.

Lemma synced_plans yaml dflt s db n : NoDup (name <$> yaml) -> defaults_free yaml db -> well_named db -> plans s = named yaml ->
  plans (load_db_only_plans (Some (db_only_rows (plan_sync yaml dflt db).1)) s) !! n =
  match named yaml !! n with Some p => Some p | None => match plan_rows db !! n with Some (r, FromDb) => Some (row_to_plan r) | _ => None end end.
Proof.
  intros Hnd Hd Hw Hs. rewrite load_rows by by apply synced_well_named. rewrite sync_exact by done. cbn [fst plan_rows set_plan_rows clean_orphans].
  rewrite lookup_union, lookup_fmap, Hs. unfold db_rows. destruct (named yaml !! n) as [p |] eqn:En; cbn.
  - by destruct (base.filter _ _ !! n).
  - rewrite (left_id_L None _). destruct (plan_rows db !! n) as [[r src] |] eqn:E.
    + destruct src.
      * rewrite (proj2 (map_lookup_filter_None _ _ _)); [done |]. right. intros x. rewrite E. intros [= <-]. cbn. done.
      * by rewrite (proj2 (map_lookup_filter_Some _ _ _ (r, FromDb))).
    + rewrite (proj2 (map_lookup_filter_None _ _ _)); [done |]. by left.
Qed.

Lemma cleaned_choice (s : PlanStore D) kh n : key_assignments (cleanup_assignments s) !! kh = Some (Some n) <->
  key_assignments s !! kh = Some (Some n) /\ is_Some (plans s !! n).
Proof.
  cbn. rewrite map_lookup_filter_Some. cbn. unfold plan_exists, is_none. destruct (plans s !! n); cbn; rewrite <- ?not_eq_None_Some; naive_solver.
Qed.

(** After a reload the plans are those of the configuration, and under the other names
    those of the database; a key keeps its plan exactly when there is one of that name. *)
Theorem reload_plans_exact yaml dflt s db :
  NoDup (name <$> yaml) -> no_db_default db -> well_named db -> plans s = named yaml ->
  let s' := (reload_plans true true yaml dflt s db).2 in
  (forall n, plans s' !! n = match named yaml !! n with
                             | Some p => Some p
                             | None => match plan_rows db !! n with Some (r, FromDb) => Some (row_to_plan r) | _ => None end
                             end)
  /\ (forall kh n, key_assignments s' !! kh = Some (Some n) <-> key_assignments s !! kh = Some (Some n) /\ is_Some (plans s' !! n)).
Proof.
  intros Hnd Hd Hw Hs. cbn zeta. unfold reload_plans. cbn [snd]. split; [intros n; apply synced_plans; auto |].
  intros kh n. rewrite cleaned_choice. by destruct (load_keeps (Some (db_only_rows (plan_sync yaml dflt db).1)) s) as (-> & _).
Qed.

(** When the query for the plans of the database fails during a reload, every key with
    such a plan loses it in memory, while its row stays in the table, and the reload goes
    on. *)
Theorem failed_load_drops_plans yaml dflt s db kh n r :
  NoDup (name <$> yaml) -> no_db_default db -> plans s = named yaml -> named yaml !! n = None ->
  plan_rows db !! n = Some (r, FromDb) -> key_assignments s !! kh = Some (Some n) -> key_rows db !! kh = Some (Some n) ->
  let '(db', s') := reload_plans false true yaml dflt s db in
  key_assignments s' !! kh = None /\ plans s' !! n = None /\ plan_rows db' !! n = Some (r, FromDb) /\ key_rows db' !! kh = Some (Some n).
Proof.
  intros Hnd Hd Hs Hn Hr Hk Hkr. unfold reload_plans. rewrite sync_exact by auto. cbn [fst].
  set (t := (yaml_row dflt <$> named yaml) ∪ db_rows (plan_rows db)).
  assert (t !! n = Some (r, FromDb)) as Ht.
  { unfold t. apply lookup_union_Some_raw. right. rewrite lookup_fmap, Hn. split; [done |]. by apply map_lookup_filter_Some. }
  split_and!.
  - apply map_lookup_filter_None. right. intros c. cbn. rewrite Hk. intros [= <-]. unfold plan_exists. cbn. by rewrite Hs, Hn.
  - cbn. by rewrite Hs.
  - exact Ht.
  - apply map_lookup_filter_Some. split; [done |]. cbn. by rewrite Ht.
Qed.

(** ** Restarts *)

Lemma restored (l : list (string * option string)) s k : NoDup l.*1 ->
  key_assignments (restore_assignments_from_db s (Some l)) !! k = match (list_to_map l : gmap string (option string)) !! k with Some c => Some c | None => key_assignments s !! k end.
Proof.
  unfold restore_assignments_from_db. cbn [default]. revert s. induction l as [| [kh c] l IH]; intros s; [done |]. cbn. intros [Hn Hnd]%NoDup_cons.
  rewrite IH by done. destruct (decide (k = kh)) as [-> | Hne].
  - rewrite lookup_insert_eq, (not_elem_of_list_to_map_1 _ _ Hn). cbn. apply lookup_insert_eq.
  - rewrite lookup_insert_ne by done. case_match; [done |]. cbn. by rewrite lookup_insert_ne.
Qed.
Lemma restored_teams (l : list (string * string)) s k : NoDup l.*1 ->
  team_assignments (restore_team_assignments_from_db s (Some l)) !! k = match (list_to_map l : gmap string string) !! k with Some c => Some c | None => team_assignments s !! k end.
Proof.
  unfold restore_team_assignments_from_db. cbn [default]. revert s. induction l as [| [kh c] l IH]; intros s; [done |]. cbn. intros [Hn Hnd]%NoDup_cons.
  rewrite IH by done. destruct (decide (k = kh)) as [-> | Hne].
  - rewrite lookup_insert_eq, (not_elem_of_list_to_map_1 _ _ Hn). cbn. apply lookup_insert_eq.
  - rewrite lookup_insert_ne by done. case_match; [done |]. cbn. by rewrite lookup_insert_ne.
Qed.
Lemma restore_keeps rows s : plans (restore_assignments_from_db s rows) = plans s /\ team_assignments (restore_assignments_from_db s rows) = team_assignments s.
Proof.
  unfold restore_assignments_from_db. generalize (default [] rows). intros l. revert s.
  induction l as [| [kh c] l IH]; intros s; [done |]. cbn [foldl]. by destruct (IH (restore_assignment s kh c)) as [-> ->].
Qed.
Lemma restore_team_keeps rows s : plans (restore_team_assignments_from_db s rows) = plans s /\ key_assignments (restore_team_assignments_from_db s rows) = key_assignments s.
Proof.
  unfold restore_team_assignments_from_db. generalize (default [] rows). intros l. revert s.
  induction l as [| [kh c] l IH]; intros s; [done |]. cbn [foldl]. by destruct (IH (restore_team_assignment s kh c)) as [-> ->].
Qed.

(** What a start makes of a database without a default among its own plans. *)
Lemma start_exact yaml dflt s0 db :
  NoDup (name <$> yaml) -> defaults_free yaml db -> well_named db -> plans s0 = named yaml -> key_assignments s0 = ∅ -> team_assignments s0 = ∅ ->
  let '(db', s') := start_plans yaml dflt s0 db in
  db' = (plan_sync yaml dflt db).1
  /\ (forall n, plans s' !! n = match named yaml !! n with
                               | Some p => Some p
                               | None => match plan_rows db !! n with Some (r, FromDb) => Some (row_to_plan r) | _ => None end
                               end)
  /\ key_assignments s' = key_rows db' /\ team_assignments s' = team_rows db'.
Proof.
  intros Hnd Hd Hw Hs Hk Ht. unfold start_plans. pose proof (synced_plans yaml dflt s0 db) as Hp.
  destruct (plan_sync yaml dflt db) as [db1 ok] eqn:Es. cbn [fst] in *. split; [done |].
  destruct (load_keeps (Some (db_only_rows db1)) s0) as (Ek & Et & _). set (s1 := load_db_only_plans _ s0) in *.
  destruct (restore_keeps (Some (map_to_list (key_rows db1))) s1) as [Ep1 Et1].
  destruct (restore_team_keeps (Some (map_to_list (team_rows db1))) (restore_assignments_from_db s1 (Some (map_to_list (key_rows db1))))) as [Ep2 Ek2].
  split_and!.
  - intros n. rewrite Ep2, Ep1. by apply Hp.
  - rewrite Ek2. apply map_eq. intros k. rewrite restored by apply NoDup_fst_map_to_list. rewrite list_to_map_to_list, Ek, Hk, lookup_empty. by destruct (key_rows db1 !! k).
  - apply map_eq. intros k. rewrite restored_teams by apply NoDup_fst_map_to_list. rewrite list_to_map_to_list, Et1, Et, Ht, lookup_empty. by destruct (team_rows db1 !! k).
Qed.

Definition live s (c : option string) : Prop := match c with Some n => is_Some (plans s !! n) | None => True end.

(** The tables and the memory, after operations that deleted the plans [gone]: the same
    plans, those the configuration has not read back from rows of the database; every
    assignment of the memory with its row; and a row without its assignment only for a plan
    that was deleted. *)
Record Tracks (yaml : list (RateLimitPlan D)) (gone : string -> Prop) (db : PlanDb) (s : PlanStore D) : Prop := {
  tr_same : forall n, is_Some (plan_rows db !! n) <-> is_Some (plans s !! n);
  tr_named : well_named db;
  tr_own : forall n x, named yaml !! n = None -> plan_rows db !! n = Some x -> x.2 = FromDb /\ pr_is_default x.1 <> Some true /\ plans s !! n = Some (row_to_plan x.1);
  tr_keys : forall kh c, key_assignments s !! kh = Some c -> key_rows db !! kh = Some c /\ live s c;
  tr_key_rows : forall kh c, key_rows db !! kh = Some c -> key_assignments s !! kh = Some c \/ key_assignments s !! kh = None /\ exists n, c = Some n /\ gone n;
  tr_teams : forall tid n, team_assignments s !! tid = Some n -> team_rows db !! tid = Some n /\ is_Some (plans s !! n);
  tr_team_rows : forall tid n, team_rows db !! tid = Some n -> team_assignments s !! tid = Some n \/ team_assignments s !! tid = None /\ gone n;
}.

(** One entry of an assignment map written with its row, and removed with it. *)
Section entries.
Context {A : Type} (P : A -> Prop) (lost : A -> Prop).
Implicit Types (f g : gmap string A).
Definition tracked f g : Prop :=
  (forall k c, f !! k = Some c -> g !! k = Some c /\ P c) /\ (forall k c, g !! k = Some c -> f !! k = Some c \/ f !! k = None /\ lost c).
Lemma tracked_insert f g k c : tracked f g -> P c -> tracked (<[k := c]> f) (<[k := c]> g).
Proof.
  intros [Hf Hg] Hc. split; intros k' c'; (destruct (decide (k' = k)) as [-> |]; [rewrite !lookup_insert_eq; naive_solver | rewrite !lookup_insert_ne by done; auto]).
Qed.
Lemma tracked_delete f g k : tracked f g -> tracked (delete k f) (delete k g).
Proof.
  intros [Hf Hg]. split; intros k' c'; (destruct (decide (k' = k)) as [-> |]; [rewrite !lookup_delete_eq; naive_solver | rewrite !lookup_delete_ne by done; auto]).
Qed.
End entries.

Definition gone_choice (gone : string -> Prop) (c : option string) : Prop := exists n, c = Some n /\ gone n.

Lemma tracks_keys yaml gone db s f g : Tracks yaml gone db s -> tracked (live s) (gone_choice gone) f g -> Tracks yaml gone (set_key_rows db g) (set_keys s f).
Proof. intros [] [? ?]. by split. Qed.
Lemma tracks_teams yaml gone db s f g : Tracks yaml gone db s -> tracked (fun n => is_Some (plans s !! n)) gone f g -> Tracks yaml gone (set_team_rows db g) (set_teams s f).
Proof. intros [] [? ?]. by split. Qed.
Lemma tracks_tracked yaml gone db s : Tracks yaml gone db s ->
  tracked (live s) (gone_choice gone) (key_assignments s) (key_rows db) /\ tracked (fun n => is_Some (plans s !! n)) gone (team_assignments s) (team_rows db).
Proof. intros []. by split. Qed.
Lemma tracks_more yaml (gone gone' : string -> Prop) db s : (forall n, gone n -> gone' n) -> Tracks yaml gone db s -> Tracks yaml gone' db s.
Proof. intros Hg []. split; [done .. | | done | naive_solver]. intros kh c Hk. destruct (tr_key_rows0 kh c Hk) as [? | (? & n & ? & ?)]; naive_solver. Qed.

Lemma upsert_tracks yaml gone db s p : Tracks yaml gone db s -> (named yaml !! name p = None -> wf_plan p) ->
  Tracks yaml gone (upsert_plan_row p db) (upsert_plan s p).
Proof.
  intros [Hs Hn Ho Hk Hkr Ht Htr] Hw.
  assert (forall n, is_Some (plans s !! n) -> is_Some (plans (upsert_plan s p) !! n)) as Hp.
  { intros n Hl. cbn. destruct (decide (n = name p)) as [-> |]; [rewrite lookup_insert_eq; by eexists | by rewrite lookup_insert_ne]. }
  split; [| | | | exact Hkr | | exact Htr].
  - intros n. cbn. destruct (decide (n = name p)) as [-> |]; [rewrite !lookup_insert_eq; by split; eexists | by rewrite !lookup_insert_ne].
  - intros n x. cbn. destruct (decide (n = name p)) as [-> |]; [rewrite lookup_insert_eq; by intros [= <-] | rewrite lookup_insert_ne by done; apply Hn].
  - intros n x Hy. cbn. destruct (decide (n = name p)) as [-> |]; [| rewrite !lookup_insert_ne by done; by apply Ho]. rewrite !lookup_insert_eq. intros [= <-]. cbn.
    split; [done |]. split; [| by rewrite plan_row_roundtrip by auto].
    destruct (plan_rows db !! name p) as [[r src] |] eqn:E; [| done]. by destruct (Ho _ _ Hy E) as (_ & ? & _).
  - intros kh c Hc. destruct (Hk kh c Hc) as [? Hl]. split; [done |]. destruct c; [by apply Hp | done].
  - intros tid n Hc. destruct (Ht tid n Hc) as [? Hl]. split; [done |]. by apply Hp.
Qed.

Lemma delete_tracks yaml (gone : string -> Prop) db s n : Tracks yaml gone db s -> gone n ->
  Tracks yaml gone (set_plan_rows db (delete n (plan_rows db))) (delete_plan_db s n (rows_affected (plan_rows db !! n))).1.
Proof.
  intros Hm Hg. pose proof Hm as [Hs Hn Ho Hk Hkr Ht Htr]. destruct (plan_rows db !! n) as [x |] eqn:E.
  2:{ cbn. rewrite delete_id by done. by destruct db. }
  cbn [rows_affected delete_plan_db]. change ((if 0 <? 1 then ((delete_plan s n).1, inr true) else (s, inr false)).1) with (delete_plan s n).1.
  assert (forall k, k <> n -> is_Some (plans s !! k) -> is_Some (delete n (plans s) !! k)) as Hp by (intros k Hne; by rewrite lookup_delete_ne).
  split; cbn [delete_plan fst plans key_assignments team_assignments plan_rows key_rows team_rows set_plan_rows].
  - intros k. destruct (decide (k = n)) as [-> |]; [by rewrite !lookup_delete_eq | by rewrite !lookup_delete_ne].
  - intros k y Hy. cbn in Hy. apply lookup_delete_Some in Hy as [_ Hy]. by apply Hn.
  - intros k y Hy Hr. apply lookup_delete_Some in Hr as [Hne Hr]. rewrite lookup_delete_ne by done. by apply Ho.
  - intros kh c Hc. apply map_lookup_filter_Some in Hc as [Hc Hne]. destruct (Hk _ _ Hc) as [? Hl]. split; [done |].
    destruct c as [k |]; [| done]. apply Hp; [intros -> | done]. by apply Hne.
  - intros kh c Hc. destruct (decide (c = Some n)) as [-> | Hne].
    + right. split; [| by exists n]. apply map_lookup_filter_None. right. intros c Hc' Hx. cbn in Hx. apply Hk in Hc' as [Hc' _]. congruence.
    + destruct (Hkr kh c Hc) as [Hf | [Hf Hl]]; [left; by apply map_lookup_filter_Some | right; split; [| done]]. apply map_lookup_filter_None. by left.
  - intros tid k Hc. apply map_lookup_filter_Some in Hc as [Hc Hne]. destruct (Ht _ _ Hc) as [? Hl]. split; [done |]. by apply Hp.
  - intros tid k Hc. destruct (decide (k = n)) as [-> | Hne].
    + right. split; [| done]. apply map_lookup_filter_None. right. intros c Hc' Hx. cbn in Hx. apply Ht in Hc' as [Hc' _]. congruence.
    + destruct (Htr tid k Hc) as [Hf | [Hf Hl]]; [left; by apply map_lookup_filter_Some | right; split; [| done]]. apply map_lookup_filter_None. by left.
Qed.

Lemma validated s (kh n : string) u : validate_plan_for_key s n kh = inr u -> is_Some (plans s !! n).
Proof. unfold validate_plan_for_key. destruct (plans s !! n); [by eexists | done]. Qed.
Lemma validated_team s (tid n : string) u : validate_plan_for_team s n tid = inr u -> is_Some (plans s !! n).
Proof. unfold validate_plan_for_team. destruct (plans s !! n); [by eexists | done]. Qed.
Lemma written {A} (o : option A) : upsert_outcome (rows_affected o) true None = inr tt.
Proof. by destruct o. Qed.

Lemma op_tracks yaml (gone : string -> Prop) o db s : Tracks yaml gone db s ->
  (forall p, o = OpUpsert p -> named yaml !! name p = None -> wf_plan p) -> (forall n, o = OpDelete n -> gone n) ->
  Tracks yaml gone (apply_op o (db, s)).1 (apply_op o (db, s)).2.
Proof.
  intros Hm Hw Hg. pose proof (tracks_tracked _ _ _ _ Hm) as [Hk Ht]. destruct o as [p | n | kh n | kh | kh | tid n | tid |]; cbn [apply_op fst snd] in *.
  - apply upsert_tracks; auto.
  - apply delete_tracks; auto.
  - unfold assign_key_db. destruct (validate_plan_for_key s n kh) eqn:E; [done |]. rewrite written. cbn [fst snd].
    apply tracks_keys; [done |]. apply tracked_insert; [done |]. by eapply validated.
  - unfold assign_key_no_plan_db. replace (match rows_affected _ with None => _ | Some _ => _ end) with (assign_key_no_plan s kh, inr tt : string + unit) by by destruct (key_rows db !! kh).
    apply tracks_keys; [done |]. by apply tracked_insert.
  - unfold unassign_key_db. destruct (key_rows db !! kh) as [c |] eqn:E; cbn [rows_affected].
    + apply tracks_keys; [done |]. by apply tracked_delete.
    + rewrite delete_id by done. by destruct db.
  - unfold assign_team_db. destruct (validate_plan_for_team s n tid) eqn:E; [done |]. rewrite written. cbn [fst snd].
    apply tracks_teams; [done |]. apply tracked_insert; [done |]. by eapply validated_team.
  - unfold unassign_team_db. destruct (team_rows db !! tid) as [c |] eqn:E; cbn [rows_affected].
    + apply tracks_teams; [done |]. by apply tracked_delete.
    + rewrite delete_id by done. by destruct db.
  - replace (key_assignments s ∪ key_rows db) with (key_rows db); [by destruct db |]. apply map_eq. intros kh. rewrite lookup_union.
    destruct (key_assignments s !! kh) as [c |] eqn:E; [| by destruct (key_rows db !! kh)]. by apply Hk in E as [-> _].
Qed.

Lemma ops_track yaml (gone : string -> Prop) ops x : Tracks yaml gone x.1 x.2 ->
  (forall p, OpUpsert p ∈ ops -> named yaml !! name p = None -> wf_plan p) -> (forall n, OpDelete n ∈ ops -> gone n) ->
  let y := foldl (fun x o => apply_op o x) x ops in Tracks yaml gone y.1 y.2.
Proof.
  cbv zeta. revert x. induction ops as [| o ops IH]; intros [db s] Hm Hw Hg; [done |]. cbn [foldl]. apply IH.
  - apply op_tracks; [done | intros p -> | intros n ->]; [apply Hw | apply Hg]; by left.
  - intros p Hp. apply Hw. by right.
  - intros n Hn. apply Hg. by right.
Qed.

(** What a start leaves in the tables. *)
Lemma start_tracks yaml dflt s0 db gone :
  NoDup (name <$> yaml) -> defaults_free yaml db -> well_named db -> plans s0 = named yaml -> key_assignments s0 = ∅ -> team_assignments s0 = ∅ ->
  Tracks yaml gone (start_plans yaml dflt s0 db).1 (start_plans yaml dflt s0 db).2.
Proof.
  intros Hnd Hd Hw Hs Hk Ht. pose proof (start_exact yaml dflt s0 db Hnd Hd Hw Hs Hk Ht) as Hst. pose proof (synced_well_named yaml dflt db Hnd Hd Hw) as Hw'.
  destruct (start_plans yaml dflt s0 db) as [db' s']. destruct Hst as (-> & Hp & Ek & Etm). cbn [fst snd] in *. rewrite sync_exact in * by done.
  cbn [fst plan_rows key_rows team_rows clean_orphans set_plan_rows] in *. set (t := (yaml_row dflt <$> named yaml) ∪ db_rows (plan_rows db)) in *.
  assert (forall n, is_Some (t !! n) <-> is_Some (plans s' !! n)) as Hsame.
  { intros n. rewrite Hp. unfold t. rewrite lookup_union, lookup_fmap. unfold db_rows. destruct (named yaml !! n) as [p |]; cbn.
    - destruct (base.filter _ _ !! n); by split; eexists.
    - rewrite (left_id_L None _), map_lookup_filter. destruct (plan_rows db !! n) as [[r []] |]; cbn; [| by split; eexists |]; by split; intros [? ?]. }
  assert (forall c, orphaned t c = false -> live s' c) as Hl.
  { intros [n |]; [| done]. cbn. intros Ho. apply Hsame. destruct (t !! n); [by eexists | done]. }
  split; cbn [plan_rows key_rows team_rows clean_orphans set_plan_rows].
  - exact Hsame.
  - exact Hw'.
  - intros n x Hn Hx. rewrite Hp, Hn. unfold t in Hx. rewrite lookup_union, lookup_fmap, Hn in Hx. cbn in Hx. rewrite (left_id_L None _) in Hx.
    apply map_lookup_filter_Some in Hx as [Hx Es]. destruct x as [r src]. cbn in Es. subst src. rewrite Hx. split; [done |]. split; [by apply (Hd n) | done].
  - intros kh c. rewrite Ek. intros Hc. split; [done |]. apply map_lookup_filter_Some in Hc as [_ Hc]. by apply Hl.
  - intros kh c Hc. left. by rewrite Ek.
  - intros tid n. rewrite Etm. intros Hc. split; [done |]. apply map_lookup_filter_Some in Hc as [_ Hc]. by apply (Hl (Some n)).
  - intros tid n Hc. left. by rewrite Etm.
Qed.

(** C19: the server starts with any database in which no plan of the database is the
    default, and handles any sequence of the operations of the dashboard and of the
    background sync: plans of the configuration or of the database are created, edited and
    deleted (the limits of a created plan fit their columns), keys and teams are assigned,
    unassigned, or set to no plan.  Each statement succeeds unless a key or an index of the
    tables refuses it.  Then a restart with the same configuration has the plans of the
    configuration as they are in it, and every other plan as the memory had it.  Every
    assignment of the memory comes back, except that of no plan to a key when there are no
    plans at all.  A further assignment comes back only where its plan was deleted and one of
    the same name exists again. *)
Theorem restart_recovers yaml dflt s0 db0 ops :
  NoDup (name <$> yaml) -> plans s0 = named yaml -> key_assignments s0 = ∅ -> team_assignments s0 = ∅ -> well_named db0 -> defaults_free yaml db0 ->
  (forall p, OpUpsert p ∈ ops -> named yaml !! name p = None -> wf_plan p) ->
  let x := foldl (fun x o => apply_op o x) (start_plans yaml dflt s0 db0) ops in
  let s' := (start_plans yaml dflt s0 x.1).2 in
  (forall n, plans s' !! n = match named yaml !! n with Some p => Some p | None => plans x.2 !! n end)
  /\ (forall kh c, key_assignments x.2 !! kh = Some c -> (c = None -> plans s' <> ∅) -> key_assignments s' !! kh = Some c)
  /\ (forall kh c, key_assignments s' !! kh = Some c -> key_assignments x.2 !! kh = Some c
        \/ key_assignments x.2 !! kh = None /\ exists n, c = Some n /\ OpDelete n ∈ ops /\ is_Some (plans s' !! n))
  /\ (forall tid n, team_assignments x.2 !! tid = Some n -> team_assignments s' !! tid = Some n)
  /\ (forall tid n, team_assignments s' !! tid = Some n -> team_assignments x.2 !! tid = Some n
        \/ team_assignments x.2 !! tid = None /\ OpDelete n ∈ ops /\ is_Some (plans s' !! n)).
Proof.
  intros Hnd H0s Hk0 Ht0 Hw0 Hd0 Hops x s'.
  assert (Tracks yaml (fun n => OpDelete n ∈ ops) x.1 x.2) as Hm by (apply ops_track; [by apply start_tracks | done | done]).
  subst s'. destruct x as [db s]. cbn [fst snd] in *. pose proof Hm as [Hs Hn Ho Hk Hkr Ht Htr].
  assert (defaults_free yaml db) as Hd by (intros n r Hr Hy; by destruct (Ho _ _ Hy Hr) as (_ & ? & _)).
  pose proof (start_exact yaml dflt s0 db Hnd Hd Hn H0s Hk0 Ht0) as Hst.
  pose proof (start_tracks yaml dflt s0 db (fun _ => False) Hnd Hd Hn H0s Hk0 Ht0) as [Hs' _ _ Hk' _ Ht' _].
  destruct (start_plans yaml dflt s0 db) as [db' s']. destruct Hst as (-> & Hp & Ek & Etm). cbn [fst snd] in *.
  assert (forall n, plans s' !! n = match named yaml !! n with Some p => Some p | None => plans s !! n end) as Hplans.
  { intros n. rewrite Hp. destruct (named yaml !! n) eqn:Ey; [done |]. destruct (plan_rows db !! n) as [[r src] |] eqn:E.
    - destruct (Ho _ _ Ey E) as (Es & _ & Hx). cbn in Es. by subst src.
    - symmetry. apply eq_None_not_Some. rewrite <- Hs, E. by intros [? ?]. }
  assert (forall n, is_Some (plans s !! n) -> is_Some (plans s' !! n)) as Hup by (intros n Hl; rewrite Hplans; destruct (named yaml !! n); [by eexists | done]).
  rewrite sync_exact in * by done. cbn [fst plan_rows key_rows team_rows clean_orphans set_plan_rows] in *.
  set (t := (yaml_row dflt <$> named yaml) ∪ db_rows (plan_rows db)) in *.
  assert (forall n, is_Some (plans s' !! n) -> orphaned t (Some n) = false) as Hor by (intros n [y Hy]%Hs'; cbn; by rewrite Hy).
  split_and!; [done | | | |].
  - intros kh c Hc Hne. destruct (Hk _ _ Hc) as [Hr Hl]. rewrite Ek. apply map_lookup_filter_Some. split; [done |]. cbn.
    destruct c as [n |]; [by apply Hor, Hup |]. cbn. apply bool_decide_eq_false. intros Et. apply Hne; [done |].
    apply map_eq. intros n. rewrite lookup_empty. apply eq_None_not_Some. rewrite <- Hs', Et, lookup_empty. by intros [? ?].
  - intros kh c Hc. destruct (Hk' _ _ Hc) as [Hr Hl]. apply map_lookup_filter_Some in Hr as [Hr _].
    destruct (Hkr _ _ Hr) as [? | (? & n & -> & ?)]; [by left | right]. split; [done |]. by exists n.
  - intros tid n Hc. destruct (Ht _ _ Hc) as [Hr Hl]. rewrite Etm. apply map_lookup_filter_Some. split; [done |]. by apply Hor, Hup.
  - intros tid n Hc. destruct (Ht' _ _ Hc) as [Hr Hl]. apply map_lookup_filter_Some in Hr as [Hr _].
    destruct (Htr _ _ Hr) as [? | [? ?]]; [by left | by right].
Qed.

Lemma delete_present db s n x : plan_rows db !! n = Some x ->
  apply_op (OpDelete n) (db, s) = (set_plan_rows db (delete n (plan_rows db)), (delete_plan s n).1).
Proof. intros E. cbn [apply_op]. by rewrite E. Qed.

(** An assignment to a deleted plan comes back with a plan of the same name: the row of
    the assignment stays in the table, and the next start reads it.  Without any plan a
    start forgets that a key was to have none. *)
Theorem assignment_revives p kh :
  plan_type p = PlanKey ->
  let x := foldl (fun x o => apply_op o x) (empty_db, new_store) [OpUpsert p; OpAssign kh (name p); OpDelete (name p); OpUpsert p] in
  key_assignments x.2 !! kh = None
  /\ key_assignments (start_plans [] None new_store x.1).2 !! kh = Some (Some (name p))
  /\ let y := apply_op (OpNoPlan kh) (empty_db, new_store) in
     key_assignments y.2 !! kh = Some None /\ key_assignments (start_plans [] None new_store y.1).2 !! kh = None.
Proof.
  intros Ht.
  assert (exists m, foldl (fun x o => apply_op o x) (empty_db, new_store) [OpUpsert p; OpAssign kh (name p); OpDelete (name p); OpUpsert p]
    = (mkPlanDb {[name p := (row_of_plan p (Some false), FromDb)]} {[kh := Some (name p)]} ∅, mkPlanStore {[name p := p]} m ∅ None None) /\ m !! kh = None) as (m & E & Er).
  { eexists. split.
    - cbn [foldl apply_op upsert_plan_db fst snd].
      assert (assign_key_db (upsert_plan new_store p) kh (name p) (rows_affected (key_rows (upsert_plan_row p empty_db) !! kh)) true None
        = (apply_key_assignment (upsert_plan new_store p) kh (name p), inr tt)) as ->.
      { unfold assign_key_db, validate_plan_for_key. cbn [plans upsert_plan set_plans new_store]. pose proof (lookup_insert_eq (∅: gmap string (RateLimitPlan D)) (name p) p)  as Q. rewrite Q, Ht. by rewrite written. }
      rewrite (delete_present _ _ (name p) (row_of_plan p (Some false), FromDb)) by apply lookup_insert_eq.
      cbn [apply_op upsert_plan_db fst snd]. unfold upsert_plan_row, set_key_rows, set_plan_rows, empty_db. cbn [plan_rows key_rows team_rows].
      rewrite lookup_delete_eq, delete_insert_eq, delete_empty, insert_empty.
      unfold upsert_plan, set_plans, delete_plan, apply_key_assignment, set_keys, new_store. cbn [fst plans key_assignments team_assignments default_plan_name default_team_plan_name].
      rewrite delete_insert_eq, delete_empty, map_filter_empty. reflexivity.
    - apply map_lookup_filter_None. right. intros c. rewrite lookup_insert_eq. intros [= <-] Hc. by apply Hc. }
  cbv zeta. rewrite E. cbn [fst snd key_assignments]. split; [done |]. split.
  - pose proof (start_exact [] None new_store (mkPlanDb {[name p := (row_of_plan p (Some false), FromDb)]} {[kh := Some (name p)]} ∅)) as Hst.
    destruct (start_plans _ _ _ _) as [db' s']. destruct Hst as (-> & _ & Ek & _); try done.
    + constructor.
    + apply no_default_free. intros n r Hr. cbn [plan_rows] in Hr. by apply lookup_singleton_Some in Hr as [_ [= <-]].
    + intros n x Hx. cbn [plan_rows] in Hx. by apply lookup_singleton_Some in Hx as [<- <-].
    + cbn [snd]. rewrite Ek, sync_exact; [| constructor |].
      * cbn. apply map_lookup_filter_Some. split; [apply lookup_singleton_eq |]. cbn.
        rewrite lookup_union, lookup_fmap. cbn. unfold db_rows. rewrite (proj2 (map_lookup_filter_Some _ _ _ (row_of_plan p (Some false), FromDb))); [done |].
        split; [apply lookup_singleton_eq | done].
      * apply no_default_free. intros n r Hr. cbn [plan_rows] in Hr. by apply lookup_singleton_Some in Hr as [_ [= <-]].
  - assert (apply_op (OpNoPlan kh) (empty_db, new_store) = (mkPlanDb ∅ {[kh := None]} ∅, assign_key_no_plan new_store kh)) as -> by reflexivity.
    split; [apply lookup_insert_eq |].
    pose proof (start_exact [] None new_store (mkPlanDb ∅ {[kh := None]} ∅)) as Hst. destruct (start_plans _ _ _ _) as [db' s'].
    destruct Hst as (-> & _ & Ek & _); try done; [constructor |]. cbn [fst snd]. rewrite Ek, sync_exact; [| constructor | done].
    apply map_lookup_filter_None. right. intros c _. cbn [snd plan_rows set_plan_rows]. unfold db_rows, named. cbn [fmap list_fmap list_to_map foldr].
    rewrite fmap_empty, map_filter_empty, map_union_empty. destruct c; cbn; intros Hc; [by rewrite lookup_empty in Hc | done].
Qed.
End table.

(** ** Examples *)

#[local] Existing Instance whole_decimal.
#[local] Existing Instance whole_decimal_text.
Definition ser_whole (z : Z) : Value := VString (show z).

(** At night twenty requests a minute; at most a million requests a day, or 40 dollars; and
    500 dollars in all. *)
Definition demo_plan : RateLimitPlan Z :=
  mkRateLimitPlan "basic" PlanKey None (Some 4) (Some 10) None [mkWindowLimit (Some 1000000) None (Some 40) 86400] None (Some 500)
    [mkScheduleSlot "22:00-6:00" None (Some 20) None []].
Definition other_plan : RateLimitPlan Z := mkRateLimitPlan "free" PlanKey None (Some 1) None None [] None None [].

Lemma demo_wf : wf_plan ser_whole demo_plan.
Proof.
  unfold wf_plan, wf_slot, wf_window, opt_is, is_u32, is_u64. cbn.
  split_and!; try lia; try done; [repeat constructor; cbn; try lia; by intros c [= <-] | repeat constructor; cbn; try lia; done | by intros c [= <-]].
Qed.

Lemma plan_row_roundtrip_witness : row_to_plan (row_of_plan ser_whole demo_plan (Some false)) = demo_plan.
Proof. apply (plan_row_roundtrip ser_whole demo_plan (Some false)), demo_wf. Defined.

(** The free plan is in the configuration, the basic one in the database; a key has it. *)
Definition yaml_store : PlanStore Z := mkPlanStore {["free" := other_plan]} ∅ ∅ (Some "free") None.
Definition demo_db : PlanDb := mkPlanDb {["basic" := (row_of_plan ser_whole demo_plan (Some false), FromDb)]} {["k" := Some "basic"]} ∅.
Definition running_store : PlanStore Z := mkPlanStore {["free" := other_plan]} {["k" := Some "basic"]} ∅ (Some "free") None.

Lemma demo_db_ok : NoDup (name <$> [other_plan]) /\ no_db_default demo_db /\ well_named demo_db.
Proof.
  split_and!.
  - repeat constructor. intros []%elem_of_nil.
  - intros n r Hr. cbn [plan_rows demo_db] in Hr. by apply lookup_singleton_Some in Hr as [_ [= <-]].
  - intros n x Hx. cbn [plan_rows demo_db] in Hx. by apply lookup_singleton_Some in Hx as [<- <-].
Qed.

Lemma reload_plans_exact_witness : key_assignments (reload_plans ser_whole true true [other_plan] (Some "free") running_store demo_db).2 !! "k" = Some (Some "basic").
Proof.
  destruct demo_db_ok as (H1 & H2 & H3).
  apply (proj2 (reload_plans_exact ser_whole [other_plan] (Some "free") running_store demo_db H1 H2 H3 eq_refl) "k" "basic").
  split; [reflexivity |]. eexists. vm_compute. reflexivity.
Defined.

Lemma failed_load_drops_plans_witness :
  key_assignments (reload_plans ser_whole false true [other_plan] (Some "free") running_store demo_db).2 !! "k" = None.
Proof.
  destruct demo_db_ok as (H1 & H2 & H3).
  pose proof (failed_load_drops_plans ser_whole [other_plan] (Some "free") running_store demo_db "k" "basic" (row_of_plan ser_whole demo_plan (Some false)) H1 H2 eq_refl eq_refl
    eq_refl eq_refl eq_refl) as Hf.
  destruct (reload_plans _ _ _ _ _ _ _) as [db' s']. apply Hf.
Defined.

(** The database has the basic plan and a key with it; then other keys are given the free
    plan, the basic plan after an edit of it, and no plan. *)
Definition demo_ops : list (PlanOp (D := Z)) := [OpAssign "k2" "free"; OpUpsert demo_plan; OpAssign "k3" "basic"; OpNoPlan "k4"; OpSync].
Definition after_ops : PlanDb * PlanStore Z := foldl (fun x o => apply_op ser_whole o x) (start_plans ser_whole [other_plan] (Some "free") yaml_store demo_db) demo_ops.

Lemma restart_recovers_witness :
  let s' := (start_plans ser_whole [other_plan] (Some "free") yaml_store after_ops.1).2 in
  key_assignments s' !! "k" = Some (Some "basic") /\ key_assignments s' !! "k2" = Some (Some "free")
  /\ key_assignments s' !! "k3" = Some (Some "basic") /\ key_assignments s' !! "k4" = Some None /\ plans s' !! "basic" = plans after_ops.2 !! "basic".
Proof.
  destruct demo_db_ok as (H1 & H2 & H3). cbv zeta.
  destruct (restart_recovers ser_whole [other_plan] (Some "free") yaml_store demo_db demo_ops H1 eq_refl eq_refl eq_refl H3 (no_default_free _ _ H2)) as (Hp & Hk & _).
  { intros p Hin _. cut (p = demo_plan); [intros ->; apply demo_wf |]. unfold demo_ops in Hin. rewrite !elem_of_cons, elem_of_nil in Hin. naive_solver. }
  fold after_ops in Hp, Hk.
  assert (plans (start_plans ser_whole [other_plan] (Some "free") yaml_store after_ops.1).2 <> ∅) as Hne.
  { intros E. apply (f_equal (lookup "free")) in E. rewrite Hp in E. discriminate E. }
  split_and!; [apply Hk; [vm_compute; reflexivity | done] .. |]. rewrite Hp. reflexivity.
Defined.

Lemma assignment_revives_witness :
  key_assignments (start_plans ser_whole [] None new_store (foldl (fun x o => apply_op ser_whole o x) (empty_db, new_store) [OpUpsert demo_plan; OpAssign "k" (name demo_plan); OpDelete (name demo_plan); OpUpsert demo_plan]).1).2 !! "k"
  = Some (Some (name demo_plan)).
Proof. pose proof (assignment_revives ser_whole demo_plan "k" eq_refl) as H. cbv zeta in H. exact (proj1 (proj2 H)). Defined.

End PlanTable.
