(* ===== verification/Config.v ===== *)
(** * Config: the configuration of the gateway (boom-config)

    Models [boom-config/src/lib.rs] and [workflow.rs]: the sections, their derived
    parsers with the defaults of their serde attributes, the semantic validation, the
    environment references of string fields, the surgical edit of a document and the
    masking of secrets.  A document is a [Json.Value]: the YAML reader and writer
    ([serde_yaml]) are libraries, and their text is not modelled, nor is the substitution
    in the raw text that [load_config] makes before parsing.  The environment and
    [str::to_lowercase] are parameters, and so is the parser of a decimal. *)

From S2P Require Import Prelude Core Text Float64 Json PlanStore.

Module Config.
Import Core Json.

Section config.
Context {D : Type} `{DecimalOps D} (de_decimal : Value -> option D).

(** ** Sections *)

Record CostTemplate := mkCostTemplate {
  ct_name : string;
  input_cost_per_million_tokens : option f64;
  cached_input_cost_per_million_tokens : option f64;
  output_cost_per_million_tokens : option f64;
}.

Record DeploymentHealthCheckSettings := mkHealthSettings {
  auto_offline_enabled : bool;
  auto_recovery_enabled : bool;
  hc_path : string;
  failure_threshold : Z;
  recovery_threshold : Z;
  offline_check_interval_secs : Z;
  recovery_check_interval_secs : Z;
  request_failure_auto_offline_enabled : bool;
  request_failure_threshold : Z;
}.
Definition default_health_settings : DeploymentHealthCheckSettings := mkHealthSettings false false "/metric" 3 2 30 60 false 3.

Record ScheduleSlotConfig := mkSlotConfig {
  sc_hours : string;
  sc_concurrency_limit : option Z;
  sc_rpm_limit : option Z;
  sc_tpm_limit : option Z;
  sc_window_limits : list (WindowLimit D);
}.

Record PlanConfig := mkPlanConfig {
  pc_type : PlanType;
  pc_member_plan : option string;
  pc_concurrency_limit : option Z;
  pc_rpm_limit : option Z;
  pc_tpm_limit : option Z;
  pc_window_limits : list (WindowLimit D);
  pc_total_token_limit : option Z;
  pc_total_cost_limit : option D;
  pc_schedule : list ScheduleSlotConfig;
}.

Record PlanSettings := mkPlanSettings {
  default_plan : option string;
  default_team_plan : option string;
  ps_plans : gmap string PlanConfig;
}.
Definition empty_plan_settings : PlanSettings := mkPlanSettings None None ∅.

Record ModelInfo := mkModelInfo { mi_id : option string; mi_quota_count_ratio : option Z; mi_cost_template : option string }.
Record FlowControlEntry := mkFlowEntry { model_queue_limit : option Z; model_context_limit : option Z }.

Record ProviderParams := mkParams {
  pp_model : string;
  pp_api_key : option string;
  pp_api_base : option string;
  pp_api_version : option string;
  pp_aws_region_name : option string;
  pp_aws_access_key_id : option string;
  pp_aws_secret_access_key : option string;
  pp_rpm : option Z;
  pp_tpm : option Z;
  pp_timeout : Z;
  pp_headers : gmap string string;
  pp_temperature : option f64;
  pp_max_tokens : option Z;
}.

Record ModelEntry := mkEntry {
  me_model_name : string;
  litellm_params : ProviderParams;
  me_model_info : option ModelInfo;
  me_flow_control : option FlowControlEntry;
  me_serve_not_match : bool;
  me_enabled : bool;
  me_client_type_header : bool;
}.

Record GeneralSettings := mkGeneral {
  master_key : option string;
  database_url : option string;
  store_model_in_db : bool;
  public_models : list string;
}.
Definition default_general : GeneralSettings := mkGeneral None None false [].

(** An untagged enum: a string, or an object. *)
Inductive ModelGroupAlias := Simple (target : string) | Extended (model : string) (is_hidden : bool).
Definition target_model (a : ModelGroupAlias) : string := match a with Simple s => s | Extended m _ => m end.
Definition alias_is_hidden (a : ModelGroupAlias) : bool := match a with Simple _ => false | Extended _ h => h end.

Record KvcAwareSettings := mkKvc {
  block_size : Z;
  cache_weight : f64;
  load_weight : f64;
  max_blocks : Z;
  overload_threshold_pct : Z;
  router_ttl_secs : f64;
}.
Definition default_kvc : KvcAwareSettings := mkKvc 512 (f64_lit 7 10) (f64_lit 3 10) 500000 90 (f64_of 1200).

Record HybridRouterConfig := mkHybrid {
  hr_model_name : string;
  hr_strategy : string;
  hr_default_tier : string;
  hr_tiers : gmap string string;
}.

Record RouterSettings := mkRouterSettings {
  schedule_policy : string;
  model_group_alias : gmap string ModelGroupAlias;
  key_affinity_context_threshold : Z;
  rebalance_threshold : Z;
  hybrid_router : option HybridRouterConfig;
  kvc_aware : KvcAwareSettings;
  enable_priority_header : bool;
  flow_control_queue_timeout_secs : option Z;
  strip_claude_code_attribution : bool;
}.
(** The derived [Default], used when the section is absent: the empty policy and the
    threshold 0, not the defaults of the fields. *)
Definition default_router_settings : RouterSettings := mkRouterSettings "" ∅ 0 0 None default_kvc false None false.

Definition queue_timeout_secs (r : RouterSettings) : Z := default 1200 (flow_control_queue_timeout_secs r).

Record ServerSettings := mkServer { host : string; port : Z; workers : Z }.
Definition default_server : ServerSettings := mkServer "0.0.0.0" 4000 4.

Record RateLimitSettings := mkRateSettings {
  rls_enabled : bool;
  default_rpm : Z;
  default_tpm : option Z;
  rls_window_limits : list (list Z);
}.
Definition default_rate_settings : RateLimitSettings := mkRateSettings true 60 None [].

Inductive HookFailureMode := Allow | Deny.
Record PreAuthHookConfig := mkPreAuth {
  hook_enabled : bool;
  hook_path : string;
  failure_mode : HookFailureMode;
  allowed_headers : list string;
  hook_config : string;
}.
Definition default_pre_auth : PreAuthHookConfig := mkPreAuth false "" Allow [] "".

Record WorkflowModelInstanceConfig := mkInstance { wi_model : string; wi_temperature : option f64 }.
Record DirectSynthesisRolesConfig := mkRoles { panel : list WorkflowModelInstanceConfig; aggregator : WorkflowModelInstanceConfig }.
Inductive WorkflowDefinitionConfig := DirectSynthesis (roles : DirectSynthesisRolesConfig) (panel_timeout_secs : option Z).
Record WorkflowSettings := mkWorkflow { wf_models : gmap string string; workflows : gmap string WorkflowDefinitionConfig }.
Definition default_workflow : WorkflowSettings := mkWorkflow ∅ ∅.

Record Config := mkConfig {
  model_list : list ModelEntry;
  general_settings : GeneralSettings;
  router_settings : RouterSettings;
  workflow_settings : WorkflowSettings;
  server : ServerSettings;
  rate_limit : RateLimitSettings;
  plan_settings : PlanSettings;
  cost_templates : list CostTemplate;
  deployment_health_check : DeploymentHealthCheckSettings;
  prompt_log : option Value;
  hooks : PreAuthHookConfig;
}.

(** The hook framework has one hook point. *)
Definition hooks_is_empty (h : PreAuthHookConfig) : bool := negb (hook_enabled h).

(** ** Derived parsers *)

Definition de_seq {A} (de : Value -> option A) (v : Value) : option (list A) :=
  match v with VArray l => mapM de l | _ => None end.

Definition de_struct {A} (de : Object -> option A) (v : Value) : option A :=
  match v with VObject o => de o | _ => None end.

Definition de_cost_template : Value -> option CostTemplate := de_struct (fun o =>
  n ← field o "name" de_string None;
  i ← opt_field o "input_cost_per_million_tokens" de_f64;
  c ← opt_field o "cached_input_cost_per_million_tokens" de_f64;
  u ← opt_field o "output_cost_per_million_tokens" de_f64;
  Some (mkCostTemplate n i c u)).

Definition de_health : Value -> option DeploymentHealthCheckSettings := de_struct (fun o =>
  a ← field o "auto_offline_enabled" de_bool (Some false);
  r ← field o "auto_recovery_enabled" de_bool (Some false);
  p ← field o "path" de_string (Some "/metric");
  ft ← field o "failure_threshold" de_u32 (Some 3);
  rt ← field o "recovery_threshold" de_u32 (Some 2);
  oi ← field o "offline_check_interval_secs" de_u64 (Some 30);
  ri ← field o "recovery_check_interval_secs" de_u64 (Some 60);
  q ← field o "request_failure_auto_offline_enabled" de_bool (Some false);
  qt ← field o "request_failure_threshold" de_u32 (Some 3);
  Some (mkHealthSettings a r p ft rt oi ri q qt)).

(** An untagged enum: an array of exactly four elements, or an object. *)
Definition de_window_limit (v : Value) : option (WindowLimit D) :=
  match v with
  | VArray [a; b; c; w] =>
    counts ← de_option de_u64 a; tokens ← de_option de_u64 b; costs ← de_option de_decimal c; secs ← de_u64 w;
    Some (mkWindowLimit counts tokens costs secs)
  | VObject o =>
    counts ← opt_field o "counts" de_u64; tokens ← opt_field o "tokens" de_u64; costs ← opt_field o "costs" de_decimal;
    secs ← field o "window_secs" de_u64 None;
    Some (mkWindowLimit counts tokens costs secs)
  | _ => None
  end.
Definition deserialize_window_limit_vec : Value -> option (list (WindowLimit D)) := de_seq de_window_limit.

Definition de_slot : Value -> option ScheduleSlotConfig := de_struct (fun o =>
  h ← field o "hours" de_string None;
  c ← opt_field o "concurrency_limit" de_u32;
  r ← opt_field o "rpm_limit" de_u64;
  t ← opt_field o "tpm_limit" de_u64;
  w ← field o "window_limits" deserialize_window_limit_vec (Some []);
  Some (mkSlotConfig h c r t w)).

Definition de_plan_type (v : Value) : option PlanType :=
  match v with VString s => if bool_decide (s = "key") then Some PlanKey else if bool_decide (s = "team") then Some PlanTeam else None | _ => None end.

Definition de_plan : Value -> option PlanConfig := de_struct (fun o =>
  ty ← field o "type" de_plan_type (Some PlanKey);
  m ← opt_field o "member_plan" de_string;
  c ← opt_field o "concurrency_limit" de_u32;
  r ← opt_field o "rpm_limit" de_u64;
  t ← opt_field o "tpm_limit" de_u64;
  w ← field o "window_limits" deserialize_window_limit_vec (Some []);
  tt ← opt_field o "total_token_limit" de_u64;
  tc ← opt_field o "total_cost_limit" de_decimal;
  s ← field o "schedule" (de_seq de_slot) (Some []);
  Some (mkPlanConfig ty m c r t w tt tc s)).

Definition de_plan_settings : Value -> option PlanSettings := de_struct (fun o =>
  d ← opt_field o "default_plan" de_string;
  t ← opt_field o "default_team_plan" de_string;
  p ← field o "plans" (de_map de_plan) (Some ∅);
  Some (mkPlanSettings d t p)).

Definition de_model_info : Value -> option ModelInfo := de_struct (fun o =>
  i ← opt_field o "id" de_string;
  q ← opt_field o "quota_count_ratio" de_u64;
  c ← opt_field o "cost_template" de_string;
  Some (mkModelInfo i q c)).

Definition de_flow_entry : Value -> option FlowControlEntry := de_struct (fun o =>
  q ← opt_field o "model_queue_limit" de_u32;
  c ← opt_field o "model_context_limit" de_u64;
  Some (mkFlowEntry q c)).

Definition de_params : Value -> option ProviderParams := de_struct (fun o =>
  m ← field o "model" de_string None;
  k ← opt_field o "api_key" de_string;
  b ← opt_field o "api_base" de_string;
  v ← opt_field o "api_version" de_string;
  rg ← opt_field o "aws_region_name" de_string;
  ak ← opt_field o "aws_access_key_id" de_string;
  sk ← opt_field o "aws_secret_access_key" de_string;
  r ← opt_field o "rpm" de_u64;
  t ← opt_field o "tpm" de_u64;
  to ← field o "timeout" de_u64 (Some 1200);
  hs ← field o "headers" (de_map de_string) (Some ∅);
  te ← opt_field o "temperature" de_f64;
  mt ← opt_field o "max_tokens" de_u32;
  Some (mkParams m k b v rg ak sk r t to hs te mt)).

Definition de_entry : Value -> option ModelEntry := de_struct (fun o =>
  n ← field o "model_name" de_string None;
  p ← field o "litellm_params" de_params None;
  mi ← opt_field o "model_info" de_model_info;
  fc ← opt_field o "flow_control" de_flow_entry;
  s ← field o "serve_not_match" de_bool (Some false);
  e ← field o "enabled" de_bool (Some true);
  c ← field o "client_type_header" de_bool (Some false);
  Some (mkEntry n p mi fc s e c)).

Definition de_general : Value -> option GeneralSettings := de_struct (fun o =>
  k ← opt_field o "master_key" de_string;
  u ← opt_field o "database_url" de_string;
  s ← field o "store_model_in_db" de_bool (Some false);
  p ← field o "public_models" (de_seq de_string) (Some []);
  Some (mkGeneral k u s p)).

Definition de_alias (v : Value) : option ModelGroupAlias :=
  match v with
  | VString s => Some (Simple s)
  | VObject o => m ← field o "model" de_string None; h ← field o "hidden" de_bool (Some false); Some (Extended m h)
  | _ => None
  end.

Definition de_kvc : Value -> option KvcAwareSettings := de_struct (fun o =>
  b ← field o "block_size" de_u64 (Some 512);
  c ← field o "cache_weight" de_f64 (Some (f64_lit 7 10));
  l ← field o "load_weight" de_f64 (Some (f64_lit 3 10));
  m ← field o "max_blocks" de_u64 (Some 500000);
  t ← field o "overload_threshold_pct" de_u64 (Some 90);
  r ← field o "router_ttl_secs" de_f64 (Some (f64_of 1200));
  Some (mkKvc b c l m t r)).

Definition de_tier : Value -> option string := de_struct (fun o => field o "target_model" de_string None).

Definition de_hybrid : Value -> option HybridRouterConfig := de_struct (fun o =>
  m ← field o "model_name" de_string None;
  s ← field o "strategy" de_string (Some "tier_classifier");
  d ← field o "default_tier" de_string None;
  t ← field o "tiers" (de_map de_tier) (Some ∅);
  Some (mkHybrid m s d t)).

(** A field with a second name; giving both is an error. *)
Definition aliased {A} (o : Object) (k k' : string) (de : Value -> option A) (dflt : option A) : option A :=
  match obj_get o k, obj_get o k' with
  | Some _, Some _ => None
  | Some v, None | None, Some v => de v
  | None, None => dflt
  end.

Definition de_router : Value -> option RouterSettings := de_struct (fun o =>
  s ← aliased o "schedule_policy" "routing_strategy" de_string (Some "round_robin");
  a ← field o "model_group_alias" (de_map de_alias) (Some ∅);
  c ← field o "key_affinity_context_threshold" de_u64 (Some 0);
  r ← aliased o "rebalance_threshold" "key_affinity_rebalance_threshold" (de_int 0 255) (Some 20);
  h ← opt_field o "hybrid_router" de_hybrid;
  k ← field o "kvc_aware" de_kvc (Some default_kvc);
  p ← field o "enable_priority_header" de_bool (Some false);
  q ← opt_field o "flow_control_queue_timeout_secs" de_u64;
  st ← field o "strip_claude_code_attribution" de_bool (Some false);
  Some (mkRouterSettings s a c r h k p q st)).

Definition de_server : Value -> option ServerSettings := de_struct (fun o =>
  h ← field o "host" de_string (Some "0.0.0.0");
  p ← field o "port" (de_int 0 65535) (Some 4000);
  w ← field o "workers" de_u64 (Some 4);
  Some (mkServer h p w)).

Definition de_rate : Value -> option RateLimitSettings := de_struct (fun o =>
  e ← field o "enabled" de_bool (Some true);
  r ← field o "default_rpm" de_u64 (Some 60);
  t ← opt_field o "default_tpm" de_u64;
  w ← field o "window_limits" (de_seq (de_seq de_u64)) (Some []);
  Some (mkRateSettings e r t w)).

Definition de_failure_mode (v : Value) : option HookFailureMode :=
  match v with VString s => if bool_decide (s = "allow") then Some Allow else if bool_decide (s = "deny") then Some Deny else None | _ => None end.

Definition de_pre_auth : Value -> option PreAuthHookConfig := de_struct (fun o =>
  e ← field o "enabled" de_bool (Some false);
  p ← field o "path" de_string (Some "");
  f ← field o "failure_mode" de_failure_mode (Some Allow);
  a ← field o "allowed_headers" (de_seq de_string) (Some []);
  c ← field o "config" de_string (Some "");
  Some (mkPreAuth e p f a c)).
Definition de_hooks : Value -> option PreAuthHookConfig := de_struct (fun o => field o "pre_auth" de_pre_auth (Some default_pre_auth)).

Definition de_instance : Value -> option WorkflowModelInstanceConfig := de_struct (fun o =>
  m ← field o "model" de_string None;
  t ← opt_field o "temperature" de_f64;
  Some (mkInstance m t)).
Definition de_roles : Value -> option DirectSynthesisRolesConfig := de_struct (fun o =>
  p ← field o "panel" (de_seq de_instance) None;
  a ← field o "aggregator" de_instance None;
  Some (mkRoles p a)).
(** Tagged by [type]. *)
Definition de_workflow_def : Value -> option WorkflowDefinitionConfig := de_struct (fun o =>
  ty ← field o "type" de_string None;
  if bool_decide (ty = "direct_synthesis")
  then r ← field o "roles" de_roles None; t ← opt_field o "panel_timeout_secs" de_u64; Some (DirectSynthesis r t)
  else None).
Definition de_workflow : Value -> option WorkflowSettings := de_struct (fun o =>
  m ← field o "models" (de_map de_string) (Some ∅);
  w ← field o "workflows" (de_map de_workflow_def) (Some ∅);
  Some (mkWorkflow m w)).

Definition de_config : Value -> option Config := de_struct (fun o =>
  ml ← field o "model_list" (de_seq de_entry) (Some []);
  g ← field o "general_settings" de_general (Some default_general);
  r ← field o "router_settings" de_router (Some default_router_settings);
  w ← field o "workflow_settings" de_workflow (Some default_workflow);
  s ← field o "server" de_server (Some default_server);
  rl ← field o "rate_limit" de_rate (Some default_rate_settings);
  p ← field o "plan_settings" de_plan_settings (Some empty_plan_settings);
  ct ← field o "cost_templates" (de_seq de_cost_template) (Some []);
  h ← field o "deployment_health_check" de_health (Some default_health_settings);
  pl ← opt_field o "prompt_log" Some;
  hk ← field o "hooks" de_hooks (Some default_pre_auth);
  Some (mkConfig ml g r w s rl p ct h pl hk)).

End config.
#[global] Arguments Config : clear implicits.
#[global] Arguments PlanConfig : clear implicits.
#[global] Arguments PlanSettings : clear implicits.
#[global] Arguments ScheduleSlotConfig : clear implicits.

(** ** Validation *)

Section validation.
Context {D : Type} (show_f64 : f64 -> string).

Definition config_error (m : string) : GatewayError := ConfigError m.

Definition f64_finite (x : f64) : bool := match x with S754_zero _ | S754_finite _ _ _ => true | _ => false end.
Definition in_unit (x : f64) : bool := f64_le (f64_of 0) x && f64_le x (f64_of 1).

Definition validate_kvc (k : KvcAwareSettings) : GatewayError + unit :=
  let pre := "router_settings.kvc_aware." in
  if negb ((1 <=? overload_threshold_pct k) && (overload_threshold_pct k <=? 100))
  then inl (config_error (pre +:+ "overload_threshold_pct must be in 1..=100 (100 disables), got " +:+ show (overload_threshold_pct k)))
  else if negb (f64_finite (router_ttl_secs k)) || f64_lt (router_ttl_secs k) (f64_of 0)
  then inl (config_error (pre +:+ "router_ttl_secs must be finite and >= 0 (0 disables TTL prune), got " +:+ show_f64 (router_ttl_secs k)))
  else if block_size k =? 0 then inl (config_error (pre +:+ "block_size must be > 0"))
  else if max_blocks k =? 0 then inl (config_error (pre +:+ "max_blocks must be > 0"))
  else if negb (in_unit (cache_weight k))
  then inl (config_error (pre +:+ "cache_weight must be in 0.0..=1.0, got " +:+ show_f64 (cache_weight k)))
  else if negb (in_unit (load_weight k))
  then inl (config_error (pre +:+ "load_weight must be in 0.0..=1.0, got " +:+ show_f64 (load_weight k)))
  else if f64_lt (f64_of 1) (f64_add (cache_weight k) (load_weight k))
  then inl (config_error (pre +:+ "cache_weight + load_weight must be <= 1.0, got " +:+ show_f64 (f64_add (cache_weight k) (load_weight k))))
  else inr tt.

Definition workflow_names (c : Config D) : gset string := dom (wf_models (workflow_settings c)).
Definition available_models (c : Config D) : gset string :=
  list_to_set (me_model_name <$> model_list c) ∪ dom (model_group_alias (router_settings c)).

(** The checks of a loop stop at the first error; a hash map is visited in some order,
    here that of the map. *)
Fixpoint first_error {A} (f : A -> option GatewayError) (l : list A) : option GatewayError :=
  match l with [] => None | x :: l' => match f x with Some e => Some e | None => first_error f l' end end.

Definition check_workflow_model (c : Config D) (kv : string * string) : option GatewayError :=
  let '(model, workflow_id) := kv in
  if bool_decide (trim model = "") then Some (config_error "workflow_settings.models contains an empty model name")
  else if bool_decide (model ∈ available_models c)
  then Some (config_error ("workflow model '" +:+ model +:+ "' conflicts with a deployment or alias"))
  else match workflows (workflow_settings c) !! workflow_id with
       | Some _ => None
       | None => Some (config_error ("workflow model '" +:+ model +:+ "' references unknown workflow '" +:+ workflow_id +:+ "'"))
       end.

Definition check_instance (c : Config D) (workflow_id : string) (ri : string * WorkflowModelInstanceConfig) : option GatewayError :=
  let '(r, inst) := ri in
  let pre := "workflow '" +:+ workflow_id +:+ "' " +:+ r in
  let m := wi_model inst in
  if bool_decide (trim m = "") then Some (config_error (pre +:+ " model must not be empty"))
  else if bool_decide (m ∈ workflow_names c) then Some (config_error (pre +:+ " model '" +:+ m +:+ "' references a workflow model"))
  else if match model_group_alias (router_settings c) !! m with Some a => bool_decide (target_model a ∈ workflow_names c) | None => false end
  then Some (config_error (pre +:+ " model alias '" +:+ m +:+ "' resolves to a workflow model"))
  else if negb (bool_decide (m ∈ available_models c)) then Some (config_error (pre +:+ " model '" +:+ m +:+ "' is not configured"))
  else match wi_temperature inst with
       | Some x => if negb (f64_finite x) then Some (config_error (pre +:+ " temperature must be finite")) else None
       | None => None
       end.

Definition roles_of (r : DirectSynthesisRolesConfig) : list (string * WorkflowModelInstanceConfig) :=
  ((fun i => ("panel", i)) <$> panel r) ++ [("aggregator", aggregator r)].

Definition check_workflow (c : Config D) (kv : string * WorkflowDefinitionConfig) : option GatewayError :=
  let '(workflow_id, DirectSynthesis roles timeout) := kv in
  if bool_decide (trim workflow_id = "") then Some (config_error "workflow_settings.workflows contains an empty workflow id")
  else if Z.of_nat (length (panel roles)) <? 2
  then Some (config_error ("workflow '" +:+ workflow_id +:+ "' direct_synthesis requires at least two panel instances"))
  else if match timeout with Some s => s =? 0 | None => false end
  then Some (config_error ("workflow '" +:+ workflow_id +:+ "' panel_timeout_secs must be greater than zero"))
  else first_error (check_instance c workflow_id) (roles_of roles).

Definition validate_workflow (c : Config D) : option GatewayError :=
  match first_error (check_workflow_model c) (map_to_list (wf_models (workflow_settings c))) with
  | Some e => Some e
  | None => first_error (check_workflow c) (map_to_list (workflows (workflow_settings c)))
  end.

Definition validate (c : Config D) : GatewayError + unit :=
  match validate_kvc (kvc_aware (router_settings c)) with
  | inl e => inl e
  | inr _ =>
    if match flow_control_queue_timeout_secs (router_settings c) with Some s => s =? 0 | None => false end
    then inl (config_error "router_settings.flow_control_queue_timeout_secs must be greater than zero")
    else match validate_workflow c with Some e => inl e | None => inr tt end
  end.

Definition lookup_cost_template (c : Config D) (name : string) : option CostTemplate :=
  snd <$> list_find (fun t => ct_name t = name) (cost_templates c).

End validation.

(** ** Loading *)

Section loading.
Context {D : Type} `{DecimalOps D} (de_decimal : Value -> option D) (show_f64 : f64 -> string).
(** The environment, and [str::to_lowercase]. *)
Context (getenv : string -> option string) (to_lowercase : string -> string).

Definition ends_brace (s : string) : option string :=
  match rsplit_once "}" s with Some (v, rest) => if bool_decide (rest = "") then Some v else None | None => None end.

(** [${VAR}] and [os.environ/VAR]; a variable that is not set leaves the text. *)
Definition resolve_env_value (value : string) : string :=
  let trimmed := trim value in
  match s ← strip_prefix "${" trimmed; ends_brace s with
  | Some var => default value (getenv var)
  | None =>
    match strip_prefix "os.environ/" trimmed with
    | Some var => default value (getenv var)
    | None => value
    end
  end.

Definition resolve_params (p : ProviderParams) : ProviderParams :=
  mkParams (pp_model p) (resolve_env_value <$> pp_api_key p) (resolve_env_value <$> pp_api_base p) (pp_api_version p)
    (pp_aws_region_name p) (resolve_env_value <$> pp_aws_access_key_id p) (resolve_env_value <$> pp_aws_secret_access_key p)
    (pp_rpm p) (pp_tpm p) (pp_timeout p) (resolve_env_value <$> pp_headers p) (pp_temperature p) (pp_max_tokens p).

Definition resolve_entry (e : ModelEntry) : ModelEntry :=
  mkEntry (me_model_name e) (resolve_params (litellm_params e)) (me_model_info e) (me_flow_control e) (me_serve_not_match e)
    (me_enabled e) (me_client_type_header e).

Definition resolve_general (g : GeneralSettings) : GeneralSettings :=
  mkGeneral (resolve_env_value <$> master_key g) (resolve_env_value <$> database_url g) (store_model_in_db g) (public_models g).

Definition resolve_config (c : Config D) : Config D :=
  mkConfig (resolve_entry <$> model_list c) (resolve_general (general_settings c)) (router_settings c) (workflow_settings c) (server c)
    (rate_limit c) (plan_settings c) (cost_templates c) (deployment_health_check c) (prompt_log c) (hooks c).

(** [load_config], from the document on. *)
Definition load_config (doc : Value) : GatewayError + Config D :=
  match de_config de_decimal doc with
  | None => inl (ConfigError "Failed to parse config")
  | Some c =>
    match validate show_f64 c with
    | inl e => inl e
    | inr _ =>
      let c := resolve_config c in
      let r := router_settings c in
      if bool_decide (schedule_policy r ∈ ["key_affinity"; "kvc_aware"]) && ((rebalance_threshold r =? 0) || (100 <? rebalance_threshold r))
      then inl (ConfigError ("rebalance_threshold must be 1..=100 (percentage), got " +:+ show (rebalance_threshold r)))
      else inr c
    end
  end.

(** ** Editing a document *)

(** A missing intermediate mapping is created. *)
Fixpoint set_yaml_path (root : Value) (path : list string) (v : Value) : GatewayError + Value :=
  match path with
  | [] => inr v
  | seg :: rest =>
    match root with
    | VObject o =>
      match rest with
      | [] => inr (VObject (obj_insert o seg v))
      | _ =>
        match set_yaml_path (default (VObject []) (obj_get o seg)) rest v with
        | inl e => inl e
        | inr sub => inr (VObject (obj_insert o seg sub))
        end
      end
    | _ => inl (ConfigError ("YAML path segment '" +:+ seg +:+ "' expects a mapping"))
    end
  end.

(** ** Secrets *)

Definition SECRET_FIELD_NAMES : list string :=
  ["master_key"; "database_url"; "api_key"; "aws_access_key_id"; "aws_secret_access_key"; "authorization"; "x-api-key"; "api-key";
   "token"; "bearer"; "cookie"; "set-cookie"; "proxy-authorization"].

Definition is_secret_field (name : string) : bool := existsb (eq_ignore_ascii_case name) SECRET_FIELD_NAMES.

Definition is_null (v : Value) : bool := match v with VNull => true | _ => false end.

Fixpoint mask_secrets (v : Value) : Value :=
  match v with
  | VObject o =>
    VObject ((fix go (o : list (string * Value)) := match o with
              | [] => []
              | (k, x) :: o' =>
                (k, if is_secret_field k then (if is_null x then x else VString "****") else mask_secrets x) :: go o'
              end) o)
  | VArray l => VArray ((fix go (l : list Value) := match l with [] => [] | x :: l' => mask_secrets x :: go l' end) l)
  | _ => v
  end.

(** ** Providers *)

Definition starts_with_any (ps : list string) (s : string) : bool := existsb (fun p => starts_with p s) ps.

Definition auto_detect_provider (model : string) : string :=
  let m := to_lowercase model in
  if starts_with_any ["gpt-"; "o1-"; "o3-"; "o4-"; "text-"; "dall-e-"; "chatgpt-"; "ft:gpt-"] m then "openai"
  else if starts_with "claude-" m then "anthropic"
  else if starts_with_any ["gemini-"; "gemma-"] m then "gemini"
  else if starts_with_any ["anthropic."; "amazon."; "meta."; "cohere."; "ai21."; "mistral."] m then "bedrock"
  else "openai".

Definition resolve_provider_and_model (p : ProviderParams) : string * string :=
  match split_once "/" (pp_model p) with
  | Some (provider, model) => (provider, model)
  | None => (auto_detect_provider (pp_model p), pp_model p)
  end.

End loading.

(** ** What a loaded configuration satisfies *)

Section typing.
Context {D : Type} `{DecimalOps D} (de_decimal : Value -> option D).

Definition opt_ok (P : Z -> Prop) (o : option Z) : Prop := from_option P True o.

Definition wf_window (w : WindowLimit D) : Prop := opt_ok is_u64 (wl_counts w) /\ opt_ok is_u64 (wl_tokens w) /\ is_u64 (window_secs w).
Definition wf_slot (s : ScheduleSlotConfig D) : Prop :=
  opt_ok is_u32 (sc_concurrency_limit s) /\ opt_ok is_u64 (sc_rpm_limit s) /\ opt_ok is_u64 (sc_tpm_limit s) /\ Forall wf_window (sc_window_limits s).
Definition wf_plan (p : PlanConfig D) : Prop :=
  opt_ok is_u32 (pc_concurrency_limit p) /\ opt_ok is_u64 (pc_rpm_limit p) /\ opt_ok is_u64 (pc_tpm_limit p)
  /\ opt_ok is_u64 (pc_total_token_limit p) /\ Forall wf_window (pc_window_limits p) /\ Forall wf_slot (pc_schedule p).
Definition wf_params (p : ProviderParams) : Prop :=
  opt_ok is_u64 (pp_rpm p) /\ opt_ok is_u64 (pp_tpm p) /\ is_u64 (pp_timeout p) /\ opt_ok is_u32 (pp_max_tokens p).
Definition wf_entry (e : ModelEntry) : Prop :=
  wf_params (litellm_params e) /\ from_option (fun i => opt_ok is_u64 (mi_quota_count_ratio i)) True (me_model_info e)
  /\ from_option (fun f => opt_ok is_u32 (model_queue_limit f) /\ opt_ok is_u64 (model_context_limit f)) True (me_flow_control e).
Definition wf_kvc (k : KvcAwareSettings) : Prop := is_u64 (block_size k) /\ is_u64 (max_blocks k) /\ is_u64 (overload_threshold_pct k).
Definition wf_router (r : RouterSettings) : Prop :=
  is_u64 (key_affinity_context_threshold r) /\ 0 <= rebalance_threshold r <= 255 /\ wf_kvc (kvc_aware r)
  /\ opt_ok is_u64 (flow_control_queue_timeout_secs r).
Definition wf_health (h : DeploymentHealthCheckSettings) : Prop :=
  is_u32 (failure_threshold h) /\ is_u32 (recovery_threshold h) /\ is_u64 (offline_check_interval_secs h)
  /\ is_u64 (recovery_check_interval_secs h) /\ is_u32 (request_failure_threshold h).
Definition wf_server (s : ServerSettings) : Prop := 0 <= port s <= 65535 /\ is_u64 (workers s).
Definition wf_rate (r : RateLimitSettings) : Prop := is_u64 (default_rpm r) /\ opt_ok is_u64 (default_tpm r) /\ Forall (Forall is_u64) (rls_window_limits r).
Definition wf_workflow (w : WorkflowDefinitionConfig) : Prop := let '(DirectSynthesis _ t) := w in opt_ok is_u64 t.
Definition wf_workflows (w : WorkflowSettings) : Prop := map_Forall (fun _ d => wf_workflow d) (workflows w).
Definition wf_config (c : Config D) : Prop :=
  Forall wf_entry (model_list c) /\ wf_router (router_settings c) /\ map_Forall (fun _ p => wf_plan p) (ps_plans (plan_settings c))
  /\ wf_health (deployment_health_check c) /\ wf_server (server c) /\ wf_rate (rate_limit c) /\ wf_workflows (workflow_settings c).

Lemma seq_typed {A} (de : Value -> option A) (P : A -> Prop) : typed de P -> typed (de_seq de) (Forall P).
Proof.
  intros Hde v l. destruct v as [| | | | l0 |]; try done. cbn. intros E%mapM_Some. induction E as [| x y l0 l Hx _ IH]; constructor; [by eapply Hde | done].
Qed.

Lemma struct_typed {A} (f : Object -> option A) (P : A -> Prop) : (forall o x, f o = Some x -> P x) -> typed (de_struct f) P.
Proof. intros Hf v x. destruct v; try done. apply Hf. Qed.

#[local] Hint Resolve seq_typed : typed.

(** Split the fields of a struct. *)
Ltac fields :=
  repeat match goal with
  | H : _ ≫= _ = Some _ |- _ => apply bind_Some in H as (? & ? & H)
  end; simplify_eq/=.
(** A field's type from that of its parser. *)
Ltac by_typing :=
  match goal with
  | H : opt_field _ _ _ = Some ?x |- context [?x] => by (eapply opt_field_typed; [exact H |]; eauto with typed)
  | H : field _ _ _ _ = Some ?x |- context [?x] =>
      by (eapply (field_typed _ _ _ _ _ _ H); [eauto with typed | intros ? [= <-]; unfold is_u64, is_u32; repeat constructor])
  end.

Lemma window_typed : typed (de_window_limit de_decimal) wf_window.
Proof.
  intros v w. destruct v as [| | | | l | o]; try done.
  - do 5 (destruct l as [| ? l]; try done). cbn. intros E. fields. unfold wf_window, opt_ok. cbn.
    split_and!; [eapply (option_typed de_u64 is_u64 u64_typed); eassumption .. | by eapply u64_typed].
  - cbn. intros E. fields. unfold wf_window, opt_ok. cbn. split_and!; by_typing.
Qed.
#[local] Hint Resolve window_typed : typed.

Lemma windows_typed : typed (deserialize_window_limit_vec de_decimal) (Forall wf_window).
Proof. apply seq_typed, window_typed. Qed.
#[local] Hint Resolve windows_typed : typed.

Lemma slot_typed : typed (de_slot de_decimal) wf_slot.
Proof. apply struct_typed. intros o x E. fields. unfold wf_slot, opt_ok. cbn. split_and!; by_typing. Qed.
#[local] Hint Resolve slot_typed : typed.

Lemma plan_typed : typed (de_plan de_decimal) wf_plan.
Proof. apply struct_typed. intros o x E. fields. unfold wf_plan, opt_ok. cbn. split_and!; by_typing. Qed.
#[local] Hint Resolve plan_typed : typed.

Lemma params_typed : typed de_params wf_params.
Proof. apply struct_typed. intros o x E. fields. unfold wf_params, opt_ok. cbn. split_and!; by_typing. Qed.
Lemma model_info_typed : typed de_model_info (fun i => opt_ok is_u64 (mi_quota_count_ratio i)).
Proof. apply struct_typed. intros o x E. fields. unfold opt_ok. cbn. by_typing. Qed.
Lemma flow_typed : typed de_flow_entry (fun f => opt_ok is_u32 (model_queue_limit f) /\ opt_ok is_u64 (model_context_limit f)).
Proof. apply struct_typed. intros o x E. fields. unfold opt_ok. cbn. split_and!; by_typing. Qed.
#[local] Hint Resolve params_typed model_info_typed flow_typed : typed.

Lemma entry_typed : typed de_entry wf_entry.
Proof. apply struct_typed. intros o x E. fields. unfold wf_entry. cbn. split_and!; by_typing. Qed.
#[local] Hint Resolve entry_typed : typed.

Lemma kvc_typed : typed de_kvc wf_kvc.
Proof. apply struct_typed. intros o x E. fields. unfold wf_kvc. cbn. split_and!; by_typing. Qed.
#[local] Hint Resolve kvc_typed : typed.

Lemma router_typed : typed de_router wf_router.
Proof.
  apply struct_typed. intros o x E. fields. unfold wf_router, opt_ok. cbn. split_and!; try by_typing.
  all: match goal with H : aliased _ _ _ (de_int _ _) _ = Some _ |- _ => rename H into Ha end.
  all: unfold aliased in Ha; destruct (obj_get o _), (obj_get o _); try done; first [apply int_typed in Ha; lia | injection Ha as <-; lia].
Qed.
Lemma health_typed : typed de_health wf_health.
Proof. apply struct_typed. intros o x E. fields. unfold wf_health. cbn. split_and!; by_typing. Qed.
Lemma plan_settings_typed : typed (de_plan_settings de_decimal) (fun p => map_Forall (fun _ x => wf_plan x) (ps_plans p)).
Proof.
  apply struct_typed. intros o x E. fields. eapply (field_typed _ _ _ _ (map_Forall (fun _ x => wf_plan x))); [eassumption | eauto with typed |].
  intros ? [= <-]. apply map_Forall_empty.
Qed.
Lemma server_typed : typed de_server wf_server.
Proof.
  apply struct_typed. intros o x E. fields. unfold wf_server. cbn. split; [| by_typing].
  match goal with H : field _ "port" _ _ = Some ?x |- _ => eapply (field_typed _ _ _ _ (fun z => 0 <= z <= 65535)); [exact H | apply int_typed | intros ? [= <-]; lia] end.
Qed.
Lemma rate_typed : typed de_rate wf_rate.
Proof. apply struct_typed. intros o x E. fields. unfold wf_rate, opt_ok. cbn. split_and!; by_typing. Qed.
Lemma workflow_typed : typed de_workflow_def wf_workflow.
Proof. apply struct_typed. intros o x E. fields. case_bool_decide; [| done]. fields. unfold wf_workflow, opt_ok. by_typing. Qed.
#[local] Hint Resolve workflow_typed : typed.
Lemma workflows_typed : typed de_workflow wf_workflows.
Proof.
  apply struct_typed. intros o x E. fields. unfold wf_workflows. cbn.
  match goal with H : field _ "workflows" _ _ = Some ?x |- _ => eapply (field_typed _ _ _ _ (map_Forall (fun _ d => wf_workflow d))); [exact H | eauto with typed |] end.
  intros ? [= <-]. apply map_Forall_empty.
Qed.
#[local] Hint Resolve router_typed health_typed plan_settings_typed server_typed rate_typed workflows_typed : typed.

Lemma config_typed : typed (de_config de_decimal) wf_config.
Proof.
  apply struct_typed. intros o x E. fields. unfold wf_config. cbn. split_and!; try by_typing.
  - eapply (field_typed _ _ _ _ (fun p => map_Forall (fun _ x => wf_plan x) (ps_plans p))); [eassumption | eauto with typed |].
    intros ? [= <-]. apply map_Forall_empty.
Qed.

End typing.

Section loaded.
Context {D : Type} `{DecimalOps D} (de_decimal : Value -> option D) (show_f64 : f64 -> string) (getenv : string -> option string).

Lemma first_error_none {A} (f : A -> option GatewayError) l : first_error f l = None <-> forall x, x ∈ l -> f x = None.
Proof.
  induction l as [| x l IH]; cbn; [split; [by intros _ y ?%elem_of_nil | done] |]. split.
  - destruct (f x) eqn:E; [done |]. intros Hl y [-> | Hy]%elem_of_cons; [done | by apply IH].
  - intros Hl. rewrite (Hl x) by (by left). apply IH. intros y Hy. apply Hl. by right.
Qed.

(** The bounds [validate_kvc] enforces. *)
Definition valid_kvc (k : KvcAwareSettings) : Prop :=
  1 <= overload_threshold_pct k <= 100 /\ block_size k <> 0 /\ max_blocks k <> 0
  /\ f64_finite (router_ttl_secs k) = true /\ f64_lt (router_ttl_secs k) (f64_of 0) = false
  /\ in_unit (cache_weight k) = true /\ in_unit (load_weight k) = true /\ f64_lt (f64_of 1) (f64_add (cache_weight k) (load_weight k)) = false.

Lemma validate_kvc_ok k : validate_kvc show_f64 k = inr tt <-> valid_kvc k.
Proof.
  unfold validate_kvc, valid_kvc. split.
  - intros E. repeat (case_match; [done |]). bool_simpl. split_and!; try done; lia.
  - intros (? & ? & ? & Hf & Hl & Hc & Hw & Hs). rewrite Hf, Hl, Hc, Hw, Hs. cbn.
    rewrite (proj2 (Z.leb_le 1 _)), (proj2 (Z.leb_le _ 100)) by lia. cbn. by rewrite !(proj2 (Z.eqb_neq _ _)) by done.
Qed.

(** A model of a workflow: no other resource has its name, and its workflow exists. *)
Definition valid_workflow_model (c : Config D) (model wid : string) : Prop :=
  trim model <> "" /\ model ∉ available_models c /\ is_Some (workflows (workflow_settings c) !! wid).

(** A member of a workflow is a deployment or an alias, never a workflow, not even
    through an alias. *)
Definition valid_instance (c : Config D) (i : WorkflowModelInstanceConfig) : Prop :=
  wi_model i ∈ available_models c /\ wi_model i ∉ workflow_names c
  /\ (forall a, model_group_alias (router_settings c) !! wi_model i = Some a -> target_model a ∉ workflow_names c).

Definition valid_workflow (c : Config D) (w : WorkflowDefinitionConfig) : Prop :=
  let '(DirectSynthesis r t) := w in
  (2 <= length (panel r))%nat /\ t <> Some 0 /\ Forall (valid_instance c) (aggregator r :: panel r).

Lemma check_workflow_model_ok c m wid : check_workflow_model c (m, wid) = None -> valid_workflow_model c m wid.
Proof.
  unfold check_workflow_model, valid_workflow_model. do 2 (case_bool_decide; [done |]). by destruct (workflows _ !! wid) eqn:E.
Qed.

Lemma check_instance_ok c wid r i : check_instance c wid (r, i) = None -> valid_instance c i.
Proof.
  unfold check_instance, valid_instance. do 2 (case_bool_decide; [done |]).
  destruct (model_group_alias _ !! _) as [a |] eqn:Ea; [case_bool_decide as Ht; [done |] |]; (case_bool_decide as Hin; [| done]); intros _;
    split_and!; try done. by intros ? [= <-].
Qed.

Lemma check_workflow_ok c wid w : check_workflow c (wid, w) = None -> valid_workflow c w.
Proof.
  destruct w as [r t]. unfold check_workflow, valid_workflow. case_bool_decide; [done |].
  destruct (Z.ltb_spec (Z.of_nat (length (panel r))) 2) as [| Hlen]; [done |].
  destruct t as [z |]; [destruct (Z.eqb_spec z 0); [done |] |]; rewrite first_error_none; intros Hall; (split_and!; [lia | congruence |]);
    (constructor; [apply (check_instance_ok c wid "aggregator"), Hall; unfold roles_of; apply elem_of_app; right; by left |]);
    apply Forall_forall; intros i Hi; apply (check_instance_ok c wid "panel"), Hall; unfold roles_of; apply elem_of_app; left;
    apply list_elem_of_fmap; eauto.
Qed.

Lemma resolve_names (c : Config D) : me_model_name <$> model_list (resolve_config getenv c) = me_model_name <$> model_list c.
Proof. cbn. by rewrite <- list_fmap_compose. Qed.

Lemma load_config_inv doc c :
  load_config de_decimal show_f64 getenv doc = inr c ->
  exists c0, de_config de_decimal doc = Some c0 /\ validate show_f64 c0 = inr tt /\ c = resolve_config getenv c0
  /\ ((schedule_policy (router_settings c) = "key_affinity" \/ schedule_policy (router_settings c) = "kvc_aware") ->
       1 <= rebalance_threshold (router_settings c) <= 100).
Proof.
  unfold load_config. destruct (de_config de_decimal doc) as [c0 |] eqn:E; [| done]. destruct (validate _ c0) as [| []] eqn:Ev; [done |].
  destruct (_ && _) eqn:Eb; [done |]. intros [= <-]. exists c0. split_and!; try done.
  intros Hp. apply andb_false_iff in Eb as [Eb | Eb].
  - apply bool_decide_eq_false_1 in Eb. exfalso. apply Eb. set_solver.
  - pose proof (config_typed _ _ _ E) as (_ & (_ & Hr & _) & _). cbn in *. bool_simpl. lia.
Qed.

(** C34: a configuration that loads is valid.  Whatever the document, the bounds of the
    KV-aware settings hold (the percentage in 1..=100, sizes that are not zero, weights
    in the unit interval whose sum is at most one), the queue timeout is not zero, the
    threshold of a policy that uses it is in 1..=100, every workflow model has a
    workflow and a name no deployment or alias has, and the members of a workflow are
    deployments or aliases, never workflows: there is no recursion between them. *)
Theorem load_config_valid doc (c : Config D) :
  load_config de_decimal show_f64 getenv doc = inr c ->
  valid_kvc (kvc_aware (router_settings c))
  /\ flow_control_queue_timeout_secs (router_settings c) <> Some 0
  /\ ((schedule_policy (router_settings c) = "key_affinity" \/ schedule_policy (router_settings c) = "kvc_aware") ->
       1 <= rebalance_threshold (router_settings c) <= 100)
  /\ map_Forall (valid_workflow_model c) (wf_models (workflow_settings c))
  /\ map_Forall (fun _ w => valid_workflow c w) (workflows (workflow_settings c)).
Proof.
  intros (c0 & _ & Hv & -> & Hr)%load_config_inv. unfold validate in Hv.
  destruct (validate_kvc _ _) as [| []] eqn:Ek; [done |]. apply validate_kvc_ok in Ek.
  destruct (flow_control_queue_timeout_secs (router_settings c0)) as [z |] eqn:Eq; [destruct (Z.eqb_spec z 0); [done |] |];
    destruct (validate_workflow c0) as [| ] eqn:Ew; try done; unfold validate_workflow in Ew;
    (destruct (first_error _ (map_to_list (wf_models _))) eqn:Em; [done |]).
  all: pose proof (proj1 (first_error_none _ _) Em) as Em'; pose proof (proj1 (first_error_none _ _) Ew) as Ew'; clear Em Ew; rename Em' into Em, Ew' into Ew.
  all: assert (available_models (resolve_config getenv c0) = available_models c0) as Ha by (unfold available_models; by rewrite resolve_names).
  all: split_and!; try done; [cbn; congruence | |].
  all: intros k w Hk.
  1, 3: pose proof (check_workflow_model_ok c0 k w (Em (k, w) (proj2 (elem_of_map_to_list _ _ _) Hk))) as Hok;
        unfold valid_workflow_model in *; by rewrite Ha.
  all: pose proof (check_workflow_ok c0 k w (Ew (k, w) (proj2 (elem_of_map_to_list _ _ _) Hk))) as Hok; destruct w as [r t];
       unfold valid_workflow, valid_instance in *; by rewrite Ha.
Qed.

Lemma resolve_wf (c : Config D) : wf_config c -> wf_config (resolve_config getenv c).
Proof.
  intros (He & Hr). split; [| exact Hr]. cbn. apply Forall_fmap. eapply Forall_impl; [exact He |]. intros e (Hp & Hm). by split.
Qed.

(** Every integer of a loaded configuration is one of its type: those of the entries, the
    plans (with their windows and schedules), the router, the health settings, the server,
    the rate limits and the workflows, so the casts and the arithmetic of the other
    components start from such values. *)
Theorem load_config_typed doc (c : Config D) : load_config de_decimal show_f64 getenv doc = inr c -> wf_config c.
Proof. intros (c0 & E & _ & -> & _)%load_config_inv. eapply resolve_wf, config_typed, E. Qed.

End loaded.

(** ** Editing and masking *)

(** [get] along a path. *)
Definition get_path (v : Value) (path : list string) : option Value := foldl (fun o k => v ← o; get v k) (Some v) path.

Lemma get_path_cons v k path : get_path v (k :: path) = (x ← get v k; get_path x path).
Proof.
  unfold get_path. cbn. destruct (get v k); [done |]. cbn. induction path; [done |]. by cbn.
Qed.

Lemma set_path_inv v k path x v' :
  set_yaml_path v (k :: path) x = inr v' ->
  exists o y, v = VObject o /\ v' = VObject (obj_insert o k y) /\ set_yaml_path (default (VObject []) (obj_get o k)) path x = inr y.
Proof.
  destruct v as [| | | | | o]; try done. cbn. destruct path as [| k' path]; [intros [= <-]; by exists o, x |].
  destruct (set_yaml_path _ (k' :: path) x) as [| y] eqn:E; [done |]. intros [= <-]. by exists o, y.
Qed.

(** Two paths part when neither is a prefix of the other. *)
Fixpoint apart (p q : list string) : Prop :=
  match p, q with
  | k :: p', k' :: q' => k <> k' \/ apart p' q'
  | _, _ => False
  end.

Lemma set_path_frame v path x v' :
  set_yaml_path v path x = inr v' -> get_path v' path = Some x /\ forall q, apart path q -> get_path v' q = get_path v q.
Proof.
  revert v v'. induction path as [| k path IH]; intros v v' E.
  { injection E as <-. split; [done |]. by intros q Hq. }
  apply set_path_inv in E as (o & y & -> & -> & E). apply IH in E as [Hget Hframe]. split.
  - rewrite get_path_cons. cbn. by rewrite obj_get_insert.
  - intros [| k' q] Hq; [done |]. rewrite !get_path_cons. cbn. rewrite obj_get_insert_dec. case_bool_decide as Ek; [subst k' | done].
    destruct Hq as [? | Hq]; [done |]. cbn. rewrite (Hframe _ Hq). destruct (obj_get o k) as [w |]; [done |]. cbn.
    destruct path as [| k0 path], q as [| k1 q]; try done. by rewrite get_path_cons.
Qed.

Lemma set_path_fails v path x e :
  set_yaml_path v path x = inl e -> exists p k q w, path = p ++ k :: q /\ get_path v p = Some w /\ as_object w = None.
Proof.
  revert v. induction path as [| k path IH]; intros v E; [done |]. destruct (as_object v) as [o |] eqn:Eo; [| by exists [], k, path, v].
  destruct v as [| | | | | o']; try done. cbn in E. destruct path as [| k' path]; [done |].
  destruct (set_yaml_path _ (k' :: path) x) as [e' |] eqn:E'; [| done]. injection E as ->. apply IH in E' as (p & k0 & q & w & -> & Hw & Hn).
  exists (k :: p), k0, q, w. split_and!; [done | | done]. rewrite get_path_cons. cbn. destruct (obj_get o' k) as [v |]; [done |]. cbn in Hw.
  destruct p as [| k1 p]; [by injection Hw as <- |]. by rewrite get_path_cons in Hw.
Qed.

(** An edit writes its section and nothing else.  After [set_yaml_path] the path
    holds the value and every path that parts from it holds what it held; the edit
    fails only when the path runs into something that is not a mapping, and then
    nothing is written. *)
Theorem set_yaml_path_exact v path x :
  match set_yaml_path v path x with
  | inr v' => get_path v' path = Some x /\ forall q, apart path q -> get_path v' q = get_path v q
  | inl _ => exists p k q w, path = p ++ k :: q /\ get_path v p = Some w /\ as_object w = None
  end.
Proof. destruct (set_yaml_path v path x) eqn:E; [by eapply set_path_fails | by apply set_path_frame]. Qed.

(** The two loops of [mask_secrets], as maps. *)
Definition mask_field (kv : string * Value) : string * Value :=
  (kv.1, if is_secret_field kv.1 then (if is_null kv.2 then kv.2 else VString "****") else mask_secrets kv.2).
Lemma mask_object o : mask_secrets (VObject o) = VObject (mask_field <$> o).
Proof. cbn. f_equal. induction o as [| [k v] o IH]; [done |]. by rewrite fmap_cons, <- IH. Qed.
Lemma mask_array l : mask_secrets (VArray l) = VArray (mask_secrets <$> l).
Proof. reflexivity. Qed.

(** Two documents that differ only in what secret fields hold. *)
Inductive same_but_secrets : Value -> Value -> Prop :=
  | sbs_leaf v : same_but_secrets v v
  | sbs_array l k : Forall2 same_but_secrets l k -> same_but_secrets (VArray l) (VArray k)
  | sbs_object o o' :
      Forall2 (fun a b => a.1 = b.1 /\
                 ((is_secret_field a.1 = true /\ is_null a.2 = is_null b.2) \/ same_but_secrets a.2 b.2)) o o' ->
      same_but_secrets (VObject o) (VObject o').

(** A masked document says nothing of its secrets.  Two documents with the same
    structure and the same values outside the secret fields are masked to the same
    document, however deep the fields are and whatever they hold: all that shows is
    whether a secret is null. *)
Theorem mask_hides_secrets v w : same_but_secrets v w -> mask_secrets v = mask_secrets w.
Proof.
  revert w. induction v as [| | | | l IH | o IH] using Value_nested_ind; intros w Hs; inversion Hs as [| ? k Hl | ? o' Ho]; subst; try done.
  - rewrite !mask_array. f_equal. clear Hs. induction Hl as [| x y l k Hxy _ IHl]; [done |]. inversion IH; subst. cbn. f_equal; auto.
  - rewrite !mask_object. f_equal. clear Hs. induction Ho as [| x y o o' [Hk Hxy] _ IHo]; [done |]. inversion IH as [| ? ? Hx Ho']; subst. rewrite !fmap_cons.
    f_equal; [| by apply IHo]. unfold mask_field. rewrite <- Hk. f_equal. destruct (is_secret_field x.1) eqn:Ex; [| destruct Hxy as [[? ?] | Hxy]; [done |]; auto].
    destruct Hxy as [[_ Hn] | Hxy]; [destruct x as [? []], y as [? []]; by cbn in * |]. destruct Hxy; try done.
Qed.

(** ** Witnesses *)

#[local] Existing Instance whole_decimal.

Definition demo_entry : Value :=
  VObject [("model_name", VString "gpt"); ("litellm_params", VObject [("model", VString "openai/gpt-4"); ("api_key", VString "k")])].
Definition demo_instance : Value := VObject [("model", VString "gpt")].
Definition demo_doc : Value :=
  VObject [("model_list", VArray [demo_entry]);
           ("router_settings", VObject [("schedule_policy", VString "key_affinity"); ("rebalance_threshold", vint 20)]);
           ("workflow_settings",
            VObject [("models", VObject [("panel-model", VString "w")]);
                     ("workflows", VObject [("w", VObject [("type", VString "direct_synthesis");
                        ("roles", VObject [("panel", VArray [demo_instance; demo_instance]); ("aggregator", demo_instance)])])])])].
Definition demo_load (doc : Value) : GatewayError + Config Z := load_config (fun _ => None) (fun _ => "") (fun _ => None) doc.

Example demo_loads : (fun c => me_model_name <$> model_list c) <$> (match demo_load demo_doc with inr c => Some c | inl _ => None end) = Some ["gpt"].
Proof. vm_compute. reflexivity. Qed.

Lemma load_config_valid_witness : match demo_load demo_doc with inr c => valid_kvc (kvc_aware (router_settings c)) | inl _ => False end.
Proof.
  destruct (demo_load demo_doc) as [e | c] eqn:E; [vm_compute in E; discriminate |].
  exact (proj1 (load_config_valid (fun _ => None) (fun _ => "") (fun _ => None) demo_doc c E)).
Defined.

Lemma load_config_typed_witness : match demo_load demo_doc with inr c => wf_config c | inl _ => False end.
Proof.
  destruct (demo_load demo_doc) as [e | c] eqn:E; [vm_compute in E; discriminate |].
  exact (load_config_typed (fun _ => None) (fun _ => "") (fun _ => None) demo_doc c E).
Defined.

Lemma mask_hides_secrets_witness :
  mask_secrets (VObject [("API_KEY", VString "a"); ("m", VArray [VObject [("token", vint 1)]])])
  = mask_secrets (VObject [("API_KEY", VString "b"); ("m", VArray [VObject [("token", VBool true)]])]).
Proof.
  apply mask_hides_secrets. constructor. constructor; [| constructor; [| constructor]]; (split; [reflexivity |]).
  - left. split; reflexivity.
  - right. constructor. constructor; [| constructor]. constructor. constructor; [| constructor]. split; [reflexivity |]. left. split; reflexivity.
Defined.

End Config.
