(* ===== verification/Deployments.v ===== *)
(** * Deployments: providers from rows, and the health monitor (boom-provider, boom-main)

    Models [create_provider] of [boom-provider/src/lib.rs] (with the constructors it
    calls), the construction of providers from rows and the automatic disabling of
    [boom-main/src/admin_command.rs], and [boom-main/src/health_monitor.rs]: the counters
    of a deployment, the request failures, one round of the offline and of the recovery
    checker.  The outcome of a probe and of a SQL statement is an argument; the timers of
    the two loops are not modelled (a round is one step).  [resolve_env_value] is that of
    [Config]. *)

From S2P Require Import Prelude Core Text Float64 Json Messages Stores Config ModelTable.

Module Deployments.
Import Core Json ModelTable.

Section providers.
Context (getenv : string -> option string) (to_lowercase : string -> string).
(** The error of the HTTP client's builder, if any. *)
Context (client_error : option string).

(** ** Providers *)

Inductive ProviderKind := OpenAI | Anthropic (api_version : string) | Azure (api_version : string) | Gemini | Bedrock (region : string).

(** What the constructors keep. *)
Record ProviderInstance := mkProviderInstance {
  pi_kind : ProviderKind;
  pi_api_key : option string;
  pi_base_url : string;
  pi_model : string;
  pi_deployment_id : option string;
  pi_kv_worker_id : option string;
  pi_client_type_header : bool;
}.

Definition kind_name (k : ProviderKind) : string :=
  match k with OpenAI => "openai" | Anthropic _ => "anthropic" | Azure _ => "azure" | Gemini => "gemini" | Bedrock _ => "bedrock" end.

(** What the router asks of it. *)
Definition as_provider (i : ProviderInstance) : Provider := mkProvider (kind_name (pi_kind i)) (pi_deployment_id i) (pi_kv_worker_id i).

Definition kv_worker_id_from_api_base (api_base : option string) : option string := b ← api_base; Messages.host_of_api_base b.

Definition auto_detect (model : string) : string :=
  let m := to_lowercase model in
  if Config.starts_with_any ["gpt-"; "o1-"; "o3-"; "o4-"; "text-"; "dall-e-"; "chatgpt-"; "ft:gpt-"] m then "openai"
  else if starts_with "claude-" m then "anthropic"
  else if Config.starts_with_any ["gemini-"; "gemma-"] m then "gemini"
  else if Config.starts_with_any ["anthropic."; "amazon."; "meta."; "mistral."] m then "bedrock"
  else if starts_with "deepseek" m then "deepseek"
  else "openai".

Definition parse_model_provider (model : string) : string * string :=
  match split_once "/" model with Some (p, rest) => (p, rest) | None => (auto_detect model, model) end.

Definition OPENAI_COMPATIBLE : list string :=
  ["openai"; "hosted_vllm"; "vllm"; "ollama"; "ollama_chat"; "deepseek"; "groq"; "together_ai"; "fireworks_ai"; "perplexity"; "anyscale";
   "deepinfra"; "lm_studio"; "llamafile"; "xinference"; "sambanova"; "cerebras"; "nvidia_nim"; "codestral"; "volcengine"; "dashscope";
   "moonshot"; "xai"; "ai21"; "ai21_chat"].

Definition new_openai (key api_base : option string) (model : string) (did : option string) (cth : bool) : ProviderInstance :=
  mkProviderInstance OpenAI key (default "https://api.openai.com/v1" api_base) model did (kv_worker_id_from_api_base api_base) cth.
Definition new_anthropic (version key api_base : option string) (model : string) (did : option string) (cth : bool) : ProviderInstance :=
  mkProviderInstance (Anthropic (default "2023-06-01" version)) key (default "https://api.anthropic.com/v1" api_base) model did
    (kv_worker_id_from_api_base api_base) cth.
Definition new_azure (version key api_base : option string) (model : string) (did : option string) (cth : bool) : ProviderInstance :=
  let v := default "" version in
  let base := default "" api_base in
  mkProviderInstance (Azure (if bool_decide (v = "") then "2024-02-01" else v)) key base model did (kv_worker_id_from_api_base (Some base)) cth.
Definition new_gemini (key : option string) (model : string) (did : option string) (cth : bool) : ProviderInstance :=
  mkProviderInstance Gemini key "" model did None cth.
Definition new_bedrock (region : string) (model : string) (did : option string) (cth : bool) : ProviderInstance :=
  mkProviderInstance (Bedrock region) None "" model did None cth.

Definition create_provider (model : string) (key api_base : option string) (extra : gmap string string) (did : option string)
    (cth : bool) : GatewayError + ProviderInstance :=
  match client_error with
  | Some e => inl (ConfigError ("Failed to create HTTP client: " +:+ e))
  | None =>
    let '(provider_type, actual_model) := parse_model_provider model in
    if bool_decide (provider_type ∈ OPENAI_COMPATIBLE)
    then let key := match key with
                    | Some k => Some k
                    | None => if negb (bool_decide (provider_type = "openai")) then Some "fake-api-key" else None
                    end in
         inr (new_openai key api_base actual_model did cth)
    else if bool_decide (provider_type = "anthropic") then inr (new_anthropic (extra !! "anthropic_version") key api_base actual_model did cth)
    else if bool_decide (provider_type = "azure") then inr (new_azure (extra !! "api_version") key api_base actual_model did cth)
    else if bool_decide (provider_type = "gemini") then inr (new_gemini key actual_model did cth)
    else if bool_decide (provider_type = "bedrock") then inr (new_bedrock (default "us-east-1" (extra !! "aws_region_name")) actual_model did cth)
    else inl (ConfigError ("Unknown provider: '" +:+ provider_type +:+
           "'. Supported: openai, anthropic, azure, gemini, bedrock, hosted_vllm, vllm, ollama, deepseek, groq, etc."))
  end.

(** ** Rows *)

Definition insert_opt (k : string) (o : option string) (m : gmap string string) : gmap string string :=
  match o with Some v => <[k := v]> m | None => m end.

(** The header entries that are strings. *)
Definition string_headers (v : Value) : gmap string string :=
  match as_object v with
  | Some o => foldl (fun m kv => match as_str kv.2 with Some s => <[kv.1 := s]> m | None => m end) ∅ o
  | None => ∅
  end.

Definition extra_of_row (d : DeploymentInput) : gmap string string :=
  insert_opt "aws_region_name" (aws_region_name d) (insert_opt "api_version" (api_version d) (string_headers (headers d))).

Definition key_of_row (d : DeploymentInput) : option string :=
  (fun k => if default false (api_key_env d) then Config.resolve_env_value getenv k else k) <$> api_key d.

Definition build_provider_from_row (r : DeploymentRow) : option Provider :=
  let d := row_data r in
  match create_provider (litellm_model d) (key_of_row d) (api_base d) (extra_of_row d) (deployment_id d) (client_type_header d) with
  | inr i => Some (as_provider i)
  | inl _ => None
  end.

End providers.

Section monitor.
Context {D : Type} `{DecimalOps D}.
(** A row as the provider it gives, if any. *)
Context (build : DeploymentRow -> option Provider).

Notation Store := (Stores.DeploymentStore D).

(** [ok] is whether the query succeeds. *)
Definition reload_model_deployments (ok : bool) (t : Table) (s : Store) (m : string) : Store :=
  if ok then (Stores.set_deployments s m (omap build (load_model_rows m t))).1 else s.

(** The outcomes of the two statements. *)
Definition auto_disable_deployment (update_ok load_ok : bool) (did : string) (t : Table) (s : Store) : Table * Store :=
  if update_ok
  then match auto_disable_db did t with
       | (t', Some m) => (t', reload_model_deployments load_ok t' s m)
       | (t', None) => (t', s)
       end
  else (t, s).

Definition auto_enable_deployment (update_ok load_ok : bool) (did : string) (t : Table) (s : Store) : Table * Store :=
  if update_ok
  then match auto_enable_db did t with
       | (t', Some m) => (t', reload_model_deployments load_ok t' s m)
       | (t', None) => (t', s)
       end
  else (t, s).

(** ** Counters *)

Record HealthCounters := mkHealthCounters {
  consecutive_failures : Z;
  consecutive_successes : Z;
  last_checked_at : option Z;
  last_error : option string;
}.
Definition no_counters : HealthCounters := mkHealthCounters 0 0 None None.

Notation HealthStore := (gmap string HealthCounters).

Definition record_online_success (now : Z) (did : string) (h : HealthStore) : HealthStore :=
  <[did := mkHealthCounters 0 0 (Some now) None]> h.

Definition record_online_failure (now : Z) (did error : string) (h : HealthStore) : HealthStore * Z :=
  let n := wrap32 (consecutive_failures (default no_counters (h !! did)) + 1) in
  (<[did := mkHealthCounters n 0 (Some now) (Some error)]> h, n).

Definition record_recovery_success (now : Z) (did : string) (h : HealthStore) : HealthStore * Z :=
  let n := wrap32 (consecutive_successes (default no_counters (h !! did)) + 1) in
  (<[did := mkHealthCounters 0 n (Some now) None]> h, n).

Definition record_recovery_failure (now : Z) (did error : string) (h : HealthStore) : HealthStore :=
  let n := wrap32 (consecutive_failures (default no_counters (h !! did)) + 1) in
  <[did := mkHealthCounters n 0 (Some now) (Some error)]> h.

Definition clear_health (did : string) (h : HealthStore) : HealthStore := delete did h.

(** ** The monitor *)

(** [pending] are the spawned tasks that have not run. *)
Record Monitor := mkMonitor {
  mo_health : HealthStore;
  request_failure_counter : gmap string Z;
  mo_table : Table;
  mo_store : Store;
  pending : list string;
}.

Notation Settings := Config.DeploymentHealthCheckSettings.

Definition forget (did : string) (s : Monitor) : Monitor :=
  mkMonitor (clear_health did (mo_health s)) (delete did (request_failure_counter s)) (mo_table s) (mo_store s) (pending s).

Definition with_tables (s : Monitor) (ts : Table * Store) : Monitor :=
  mkMonitor (mo_health s) (request_failure_counter s) ts.1 ts.2 (pending s).

Definition record_request_failure (cfg : Settings) (did : option string) (error : GatewayError) (s : Monitor) : Monitor :=
  if negb (Config.request_failure_auto_offline_enabled cfg) || negb (is_deployment_failure error) then s
  else match did with
       | None => s
       | Some did =>
         let threshold := Z.max (Config.request_failure_threshold cfg) 1 in
         let old := default 0 (request_failure_counter s !! did) in
         let count := wrap32 (wrap32 old + 1) in
         mkMonitor (mo_health s) (<[did := wrap32 (old + 1)]> (request_failure_counter s)) (mo_table s) (mo_store s)
           (if threshold <=? count then pending s ++ [did] else pending s)
       end.

(** A spawned task; [db] is whether there is a database. *)
Definition run_pending (db update_ok load_ok : bool) (i : nat) (s : Monitor) : Monitor :=
  match pending s !! i with
  | None => s
  | Some did =>
    let s := mkMonitor (mo_health s) (request_failure_counter s) (mo_table s) (mo_store s) (delete i (pending s)) in
    let s := if db then with_tables s (auto_disable_deployment update_ok load_ok did (mo_table s) (mo_store s)) else s in
    forget did s
  end.

Definition reset_request_failure (cfg : Settings) (did : option string) (s : Monitor) : Monitor :=
  if negb (Config.request_failure_auto_offline_enabled cfg) then s
  else match did with
       | None => s
       | Some did => mkMonitor (mo_health s) (alter (fun _ => 0) did (request_failure_counter s)) (mo_table s) (mo_store s) (pending s)
       end.

(** [trim_end_matches('/')], then one [/v1]. *)
Fixpoint strip_slashes (fuel : nat) (s : string) : string :=
  match fuel with
  | O => s
  | S n => match string_rev s with String a r => if Ascii.eqb a "/" then strip_slashes n (string_rev r) else s | EmptyString => s end
  end.

Definition health_url (t : DeploymentHealthTarget) (path : string) : option string :=
  base ← t_api_base t;
  let base := strip_slashes (String.length base) base in
  let base := match strip_prefix (string_rev "/v1") (string_rev base) with Some r => string_rev r | None => base end in
  Some (base +:+ (if starts_with "/" path then path else "/" +:+ path)).

(** What happens with one target: the probe's error if any, and the two statements. *)
Record Outcome := mkOutcome { probe_error : option string; update_ok : bool; load_ok : bool }.

Definition offline_target (cfg : Settings) (now : Z) (outcome : string -> Outcome) (s : Monitor) (t : DeploymentHealthTarget) : Monitor :=
  match health_url t (Config.hc_path cfg) with
  | None => s
  | Some url =>
    let o := outcome url in
    let did := t_deployment_id t in
    match probe_error o with
    | None => mkMonitor (record_online_success now did (mo_health s)) (request_failure_counter s) (mo_table s) (mo_store s) (pending s)
    | Some e =>
      let '(h, count) := record_online_failure now did e (mo_health s) in
      let s := mkMonitor h (request_failure_counter s) (mo_table s) (mo_store s) (pending s) in
      if Z.max (Config.failure_threshold cfg) 1 <=? count
      then forget did (with_tables s (auto_disable_deployment (update_ok o) (load_ok o) did (mo_table s) (mo_store s)))
      else s
    end
  end.

Definition recovery_target (cfg : Settings) (now : Z) (outcome : string -> Outcome) (s : Monitor) (t : DeploymentHealthTarget) : Monitor :=
  match health_url t (Config.hc_path cfg) with
  | None => s
  | Some url =>
    let o := outcome url in
    let did := t_deployment_id t in
    match probe_error o with
    | None =>
      let '(h, count) := record_recovery_success now did (mo_health s) in
      let s := mkMonitor h (request_failure_counter s) (mo_table s) (mo_store s) (pending s) in
      if Z.max (Config.recovery_threshold cfg) 1 <=? count
      then forget did (with_tables s (auto_enable_deployment (update_ok o) (load_ok o) did (mo_table s) (mo_store s)))
      else s
    | Some e => mkMonitor (record_recovery_failure now did e (mo_health s)) (request_failure_counter s) (mo_table s) (mo_store s) (pending s)
    end
  end.

Context (name_le : string -> string -> Prop) `{!RelDecision name_le}.

(** One round; [listed] is whether the query of the targets succeeds. *)
Definition offline_round (cfg : Settings) (listed : bool) (now : Z) (outcome : string -> Outcome) (s : Monitor) : Monitor :=
  if negb (Config.auto_offline_enabled cfg) || negb listed then s
  else foldl (offline_target cfg now outcome) s (retain t_enabled (list_health_check_targets name_le (mo_table s))).

Definition recovery_round (cfg : Settings) (listed : bool) (now : Z) (outcome : string -> Outcome) (s : Monitor) : Monitor :=
  if negb (Config.auto_recovery_enabled cfg) || negb listed then s
  else foldl (recovery_target cfg now outcome) s
         (retain (fun t => negb (t_enabled t) && t_auto_disabled t) (list_health_check_targets name_le (mo_table s))).

(** ** The monitor as a system *)

Inductive monitor_step : Monitor -> Monitor -> Prop :=
  | ms_offline cfg listed now outcome s : monitor_step s (offline_round cfg listed now outcome s)
  | ms_recovery cfg listed now outcome s : monitor_step s (recovery_round cfg listed now outcome s)
  | ms_failure cfg did e s : monitor_step s (record_request_failure cfg did e s)
  | ms_reset cfg did s : monitor_step s (reset_request_failure cfg did s)
  | ms_task db u l k s : monitor_step s (run_pending db u l k s).

(** ** Lemmas *)

Lemma update_where_lookup P f (t : Table) i : update_where P f t !! i = (fun r => if P r then f r else r) <$> t !! i.
Proof. unfold update_where. by rewrite list_lookup_fmap. Qed.

(** Disabled, and not by the monitor. *)
Definition manual (r : DeploymentRow) : Prop := enabled (row_data r) = false /\ auto_disabled r = false.

Lemma auto_disable_manual u l did t s i r : t !! i = Some r -> manual r -> (auto_disable_deployment u l did t s).1 !! i = Some r.
Proof.
  intros Hi [He _]. unfold auto_disable_deployment. destruct u; [| done].
  assert ((auto_disable_db did t).1 !! i = Some r) as Hu.
  { unfold auto_disable_db. cbn [fst]. rewrite update_where_lookup, Hi. cbn. by rewrite He, andb_false_r. }
  destruct (auto_disable_db did t) as [t' [m |]]; done.
Qed.

Lemma auto_enable_manual u l did t s i r : t !! i = Some r -> manual r -> (auto_enable_deployment u l did t s).1 !! i = Some r.
Proof.
  intros Hi [_ Ha]. unfold auto_enable_deployment. destruct u; [| done].
  assert ((auto_enable_db did t).1 !! i = Some r) as Hu.
  { unfold auto_enable_db. cbn [fst]. rewrite update_where_lookup, Hi. cbn. by rewrite Ha, andb_false_r. }
  destruct (auto_enable_db did t) as [t' [m |]]; done.
Qed.

Lemma foldl_invariant {A B} (I : A -> Prop) (f : A -> B -> A) l a : (forall a b, I a -> I (f a b)) -> I a -> I (foldl f a l).
Proof. intros Hf. revert a. induction l as [| b l IH]; intros a Ha; cbn; auto. Qed.

Lemma monitor_step_manual i r s s' : manual r -> mo_table s !! i = Some r -> monitor_step s s' -> mo_table s' !! i = Some r.
Proof.
  intros Hm Hi Hs. destruct Hs as [cfg listed now outcome s | cfg listed now outcome s | cfg did e s | cfg did s | db u l k s].
  - unfold offline_round. destruct (_ || _); [done |]. apply foldl_invariant; [| done]. intros a t Ha. unfold offline_target.
    destruct (health_url t _); [| done]. destruct (probe_error _); [| done]. cbn. destruct (_ <=? _); [| done]. cbn. by apply auto_disable_manual.
  - unfold recovery_round. destruct (_ || _); [done |]. apply foldl_invariant; [| done]. intros a t Ha. unfold recovery_target.
    destruct (health_url t _); [| done]. destruct (probe_error _); [done |]. cbn. destruct (_ <=? _); [| done]. cbn. by apply auto_enable_manual.
  - unfold record_request_failure. destruct (_ || _); [done |]. by destruct did.
  - unfold reset_request_failure. destruct (negb _); [done |]. by destruct did.
  - unfold run_pending. destruct (pending s !! k); [| done]. destruct db; [| done]. cbn. by apply auto_disable_manual.
Qed.

(** The trailing failures of a sequence of probes ([None] is a success). *)
Fixpoint fail_streak (rev_probes : list (option string)) : Z :=
  match rev_probes with Some _ :: older => 1 + fail_streak older | _ => 0 end.

Lemma fail_streak_bounds ps : 0 <= fail_streak ps <= Z.of_nat (length ps).
Proof. induction ps as [| [e |] ps IH]; cbn [fail_streak length]; lia. Qed.

(** The rounds of one target, whose statements succeed. *)
Definition probe_rounds (cfg : Settings) (now : Z) (t : DeploymentHealthTarget) (probes : list (option string)) (s : Monitor) : Monitor :=
  foldl (fun s p => offline_target cfg now (fun _ => mkOutcome p true true) s t) s probes.

Lemma probe_rounds_counter cfg now t url s probes :
  health_url t (Config.hc_path cfg) = Some url -> mo_health s !! t_deployment_id t = None -> Z.of_nat (length probes) < 2 ^ 32 ->
  (forall k, (k <= length probes)%nat -> fail_streak (reverse (take k probes)) < Z.max (Config.failure_threshold cfg) 1) ->
  consecutive_failures (default no_counters (mo_health (probe_rounds cfg now t probes s) !! t_deployment_id t)) = fail_streak (reverse probes)
  /\ mo_table (probe_rounds cfg now t probes s) = mo_table s /\ mo_store (probe_rounds cfg now t probes s) = mo_store s.
Proof.
  intros Hu Hnone. induction probes as [| p probes IH] using rev_ind; intros Hlen Hk; [unfold probe_rounds; cbn [foldl]; by rewrite Hnone |].
  rewrite length_app in Hlen, Hk. cbn in Hlen, Hk. destruct IH as (Ec & Et & Es); [lia | |].
  { intros k Hle. specialize (Hk k ltac:(lia)). by rewrite take_app_le in Hk by done. }
  unfold probe_rounds in *. rewrite foldl_app. cbn [foldl]. set (s1 := foldl _ s probes) in *. unfold offline_target. rewrite Hu. cbn [probe_error].
  rewrite reverse_app. change (reverse [p] ++ reverse probes) with (p :: reverse probes). destruct p as [e |].
  - specialize (Hk (length probes + 1)%nat ltac:(lia)). rewrite (take_ge (probes ++ [Some e])) in Hk by (rewrite length_app; cbn; lia).
    rewrite reverse_app in Hk. change (reverse [Some e] ++ reverse probes) with (Some e :: reverse probes) in Hk. cbn [fail_streak] in *.
    pose proof (fail_streak_bounds (reverse probes)) as Hb. rewrite length_reverse in Hb.
    unfold record_online_failure. rewrite Ec. replace (wrap32 (fail_streak (reverse probes) + 1)) with (1 + fail_streak (reverse probes))
      by (unfold wrap32; rewrite Z.mod_small; lia).
    cbn [probe_error]. rewrite (proj2 (Z.leb_gt _ _)) by done. cbn. rewrite lookup_insert_eq. cbn. done.
  - cbn. unfold record_online_success. rewrite lookup_insert_eq. done.
Qed.

(** ** Properties *)

(** The offline checker disables at the threshold, not before.  A deployment
    without counters that is probed in consecutive rounds, and has not yet failed the
    threshold's number of times in a row, is untouched in the table and in the routing;
    the round that completes the streak marks it in the table, reloads its model, and
    clears its counters. *)
Theorem offline_at_threshold cfg now t url s probes p :
  health_url t (Config.hc_path cfg) = Some url -> mo_health s !! t_deployment_id t = None -> Z.of_nat (length probes) + 1 < 2 ^ 32 ->
  (forall k, (k <= length probes)%nat -> fail_streak (reverse (take k probes)) < Z.max (Config.failure_threshold cfg) 1) ->
  let s' := probe_rounds cfg now t (probes ++ [p]) s in
  if Z.max (Config.failure_threshold cfg) 1 <=? fail_streak (reverse (probes ++ [p]))
  then (mo_table s', mo_store s') = auto_disable_deployment true true (t_deployment_id t) (mo_table s) (mo_store s)
       /\ mo_health s' !! t_deployment_id t = None
  else mo_table s' = mo_table s /\ mo_store s' = mo_store s.
Proof.
  intros Hu Hnone Hlen Hk s'. destruct (probe_rounds_counter cfg now t url s probes Hu Hnone ltac:(lia) Hk) as (Ec & Et & Es).
  unfold s', probe_rounds in *. rewrite foldl_app. cbn [foldl]. set (s1 := foldl _ s probes) in *.
  unfold offline_target. rewrite Hu. cbn [probe_error]. rewrite reverse_app. change (reverse [p] ++ reverse probes) with (p :: reverse probes).
  pose proof (fail_streak_bounds (reverse probes)) as Hb. rewrite length_reverse in Hb. destruct p as [e |]; cbn [fail_streak].
  - unfold record_online_failure. rewrite Ec. replace (wrap32 (fail_streak (reverse probes) + 1)) with (1 + fail_streak (reverse probes))
      by (unfold wrap32; rewrite Z.mod_small; lia).
    destruct (_ <=? _); cbn; [| by rewrite Et, Es]. rewrite Et, Es. split; [by rewrite <- surjective_pairing |].
    unfold clear_health. apply lookup_delete_eq.
  - rewrite (proj2 (Z.leb_gt _ _)) by lia. cbn. by rewrite Et, Es.
Qed.

(** What an administrator disables stays disabled.  No sequence of rounds of the
    checkers, request failures and their tasks ever touches a row that is disabled
    without the mark of the monitor. *)
Theorem manual_disable_stays s s' i r :
  mo_table s !! i = Some r -> manual r -> reachable monitor_step s s' -> mo_table s' !! i = Some r.
Proof.
  intros Hi Hm. apply (reachable_invariant monitor_step (fun s => mo_table s !! i = Some r)); [done |].
  intros a b Ha Hs. by eapply monitor_step_manual.
Qed.

Lemma find_model_rows did m t p :
  (forall r p, build r = Some p -> p_deployment_id p = deployment_id (row_data r)) ->
  p ∈ omap build (load_model_rows m (auto_disable_db did t).1) -> p_deployment_id p <> Some did.
Proof.
  intros Hb. intros (r & Hr & Hp)%list_elem_of_omap. apply elem_of_retain in Hr as [Hr Hin]. rewrite (Hb _ _ Hp). intros E.
  apply andb_true_iff in Hr as [_ He]. unfold auto_disable_db in Hin. cbn [fst] in Hin. unfold update_where in Hin.
  apply list_elem_of_fmap in Hin as (r0 & -> & _). revert He E. unfold has_deployment_id. case_bool_decide as Hd; cbn [andb].
  - destruct (enabled (row_data r0)) eqn:He; cbn; [done |]. by rewrite He.
  - done.
Qed.

Lemma excludes_from_model did m t s :
  (forall r p, build r = Some p -> p_deployment_id p = deployment_id (row_data r)) ->
  (forall r, r ∈ t -> deployment_id (row_data r) = Some did -> model_name (row_data r) = m) ->
  (exists r, r ∈ t /\ deployment_id (row_data r) = Some did /\ enabled (row_data r) = true) ->
  Stores.is_exclusive_model s m = false ->
  let '(t', s') := auto_disable_deployment true true did t s in
  Stores.deployments s' !! m = Some (omap build (load_model_rows m t'))
  /\ (forall p, p ∈ default [] (Stores.deployments s' !! m) -> p_deployment_id p <> Some did)
  /\ (forall m', m' <> m -> Stores.deployments s' !! m' = Stores.deployments s !! m').
Proof.
  intros Hb Hm (r & Hr & Hd & He) Hx. unfold auto_disable_deployment.
  pose proof (find_model_rows did m t) as Hfind. unfold auto_disable_db in *. cbn [fst] in Hfind.
  set (P := fun r => has_deployment_id did r && enabled (row_data r)) in *. destruct (head (retain P t)) as [r0 |] eqn:E; cbn [fmap option_fmap option_map].
  - assert (model_name (row_data r0) = m) as Hm0.
    { destruct (retain P t) as [| r1 l] eqn:El; [done |]. cbn in E. injection E as ->.
      assert (r0 ∈ retain P t) as Hin by (rewrite El; by left). apply elem_of_retain in Hin as [HP Hin]. apply Hm; [done |].
      unfold P, has_deployment_id in HP. apply andb_true_iff in HP as [HP _]. by apply bool_decide_eq_true in HP. }
    rewrite Hm0. unfold reload_model_deployments, Stores.set_deployments. unfold Stores.is_exclusive_model in Hx.
    destruct (Stores.exclusive_providers s !! m); [done |]. cbn. rewrite lookup_insert_eq. split_and!; [done | intros p; cbn; by apply Hfind |].
    intros m' Hne. by rewrite lookup_insert_ne.
  - exfalso. assert (r ∈ retain P t) as Hin.
    { apply elem_of_retain. split; [| done]. unfold P, has_deployment_id. by rewrite bool_decide_eq_true_2, He. }
    destruct (retain P t); [by apply elem_of_nil in Hin | done].
Qed.

(** A deployment that serves two names is only taken out of one.  When a second
    row of the deployment is of another model (the wildcard row that is written for a
    deployment with [serve_not_match]), disabling marks both rows, but the candidates of
    the other model stay as they were, the disabled deployment among them. *)
Theorem auto_disable_leaves_wildcard did t s i j r1 r2 :
  t !! i = Some r1 -> t !! j = Some r2 -> (i < j)%nat ->
  (forall k r, t !! k = Some r -> deployment_id (row_data r) = Some did -> (i <= k)%nat) ->
  deployment_id (row_data r1) = Some did -> deployment_id (row_data r2) = Some did ->
  enabled (row_data r1) = true -> enabled (row_data r2) = true -> model_name (row_data r1) <> model_name (row_data r2) ->
  let '(t', s') := auto_disable_deployment true true did t s in
  (exists r, t' !! j = Some r /\ enabled (row_data r) = false /\ auto_disabled r = true)
  /\ Stores.deployments s' !! model_name (row_data r2) = Stores.deployments s !! model_name (row_data r2).
Proof.
  intros Hi Hj Hij Hfirst Hd1 Hd2 He1 He2 Hne. unfold auto_disable_deployment, auto_disable_db.
  set (P := fun r => has_deployment_id did r && enabled (row_data r)).
  assert (head (retain P t) = Some r1) as E.
  { rewrite <- (take_drop i t). rewrite retain_app, retain_none.
    - rewrite (drop_S _ _ _ Hi), retain_cons. unfold P, has_deployment_id. by rewrite bool_decide_eq_true_2, He1.
    - intros r (k & Hk)%list_elem_of_lookup. apply lookup_take_Some in Hk as [Hk Hki]. unfold P, has_deployment_id.
      case_bool_decide as Hd; [| done]. specialize (Hfirst k r Hk Hd). lia. }
  rewrite E. cbn [fmap option_fmap option_map]. split.
  - rewrite update_where_lookup, Hj. cbn. unfold P, has_deployment_id. rewrite bool_decide_eq_true_2, He2 by done. cbn. eauto.
  - unfold reload_model_deployments, Stores.set_deployments. destruct (Stores.exclusive_providers s !! _); [done |]. cbn.
    by rewrite lookup_insert_ne.
Qed.

End monitor.
#[global] Arguments Monitor : clear implicits.

Section routing.
Context {D : Type} `{DecimalOps D}.
Context (getenv : string -> option string) (to_lowercase : string -> string) (client_error : option string).
Notation build := (build_provider_from_row getenv to_lowercase client_error).

(** A provider answers with the deployment id of its row. *)
Lemma created_deployment_id model key base extra did cth i :
  create_provider to_lowercase client_error model key base extra did cth = inr i -> pi_deployment_id i = did.
Proof.
  unfold create_provider. destruct client_error; [done |]. destruct (parse_model_provider _ _) as [ty m].
  repeat case_bool_decide; by intros [= <-].
Qed.

Lemma build_row_id r p : build r = Some p -> p_deployment_id p = deployment_id (row_data r).
Proof.
  unfold build_provider_from_row. destruct (create_provider _ _ _ _ _ _ _ _) as [| i] eqn:E; [done |]. intros [= <-].
  cbn. by eapply created_deployment_id.
Qed.

(** Disabling takes a deployment out of its model.  When the statements succeed
    and the rows of the deployment are all of one model, the candidates of that model
    afterwards are the providers of its enabled rows, none of them the deployment; no
    other model changes. *)
Theorem auto_disable_excludes did m t (s : Stores.DeploymentStore D) :
  (forall r, r ∈ t -> deployment_id (row_data r) = Some did -> model_name (row_data r) = m) ->
  (exists r, r ∈ t /\ deployment_id (row_data r) = Some did /\ enabled (row_data r) = true) ->
  Stores.is_exclusive_model s m = false ->
  let '(t', s') := auto_disable_deployment build true true did t s in
  Stores.deployments s' !! m = Some (omap build (load_model_rows m t'))
  /\ (forall p, p ∈ default [] (Stores.deployments s' !! m) -> p_deployment_id p <> Some did)
  /\ (forall m', m' <> m -> Stores.deployments s' !! m' = Stores.deployments s !! m').
Proof. apply excludes_from_model, build_row_id. Qed.

End routing.

(** ** Witnesses *)

#[local] Existing Instance whole_decimal.

Definition demo_input (m did : string) : DeploymentInput :=
  mkDeploymentInput m "openai/x" None None (Some "http://10.0.0.1:80/v1/") None None None None None None 1200 (VObject []) None None true (Some did)
    1 None None false true None.
Definition demo_row (m did : string) (e a : bool) : DeploymentRow := mkRow m (with_enabled (demo_input m did) e) a FromYaml.
Definition demo_build : DeploymentRow -> option Provider := build_provider_from_row (fun _ => None) (fun s => s) None.
Definition demo_table : list DeploymentRow := [demo_row "m" "d" true false; demo_row "*" "d" true false; demo_row "n" "e" true false].
Definition demo_store : Stores.DeploymentStore Z :=
  foldl (fun s m => reload_model_deployments demo_build true demo_table s m) Stores.new_deployment_store ["m"; "*"; "n"].
Definition demo_monitor (t : list DeploymentRow) : Monitor Z := mkMonitor ∅ ∅ t demo_store [].
Definition demo_settings : Config.DeploymentHealthCheckSettings := Config.mkHealthSettings true true "metric" 2 2 30 60 false 3.
Definition demo_target : DeploymentHealthTarget := mkTarget "m" "d" (Some "http://10.0.0.1:80/v1/") true false.

Example health_url_demo : health_url demo_target "metric" = Some "http://10.0.0.1:80/metric".
Proof. reflexivity. Qed.

Lemma offline_at_threshold_witness :
  mo_health (probe_rounds demo_build demo_settings 0 demo_target ([Some "e"; None; Some "e"] ++ [Some "e"]) (demo_monitor demo_table)) !! "d" = None.
Proof.
  exact (proj2 (offline_at_threshold demo_build demo_settings 0 demo_target "http://10.0.0.1:80/metric" (demo_monitor demo_table)
    [Some "e"; None; Some "e"] (Some "e") eq_refl eq_refl eq_refl
    ltac:(intros k Hk; do 4 (destruct k as [| k]; [vm_compute; reflexivity |]); exfalso; cbn in Hk; lia))).
Defined.

Lemma manual_disable_stays_witness :
  mo_table (recovery_round demo_build String.le demo_settings true 5 (fun _ => mkOutcome None true true) (demo_monitor [demo_row "m" "d" false false])) !! O
    = Some (demo_row "m" "d" false false).
Proof.
  apply (manual_disable_stays demo_build String.le (demo_monitor [demo_row "m" "d" false false]) _ O (demo_row "m" "d" false false));
    [reflexivity | split; reflexivity | apply rtc_once; constructor].
Defined.

Lemma auto_disable_excludes_witness :
  Stores.deployments (auto_disable_deployment demo_build true true "e" demo_table demo_store).2 !! "n"
    = Some (omap demo_build (load_model_rows "n" (auto_disable_deployment demo_build true true "e" demo_table demo_store).1)).
Proof.
  refine (proj1 (auto_disable_excludes (fun _ => None) (fun s => s) None "e" "n" demo_table demo_store _ _ eq_refl)).
  - intros r Hr. repeat (apply elem_of_cons in Hr as [-> | Hr]; [cbn; congruence |]). by apply elem_of_nil in Hr.
  - exists (demo_row "n" "e" true false). split; [right; right; left | done].
Defined.

Lemma auto_disable_leaves_wildcard_witness :
  Stores.deployments (auto_disable_deployment demo_build true true "d" demo_table demo_store).2 !! "*" = Some [mkProvider "openai" (Some "d") (Some "10.0.0.1")].
Proof.
  refine (eq_trans (proj2 (auto_disable_leaves_wildcard demo_build "d" demo_table demo_store O 1%nat (demo_row "m" "d" true false) (demo_row "*" "d" true false)
    eq_refl eq_refl _ _ eq_refl eq_refl eq_refl eq_refl _)) _); [lia | intros; lia | discriminate | vm_compute; reflexivity].
Defined.

End Deployments.
