(* ===== verification/ConfigSync.v ===== *)
(** * ConfigSync: from the configuration to the stores and the tables, and back (boom-main)

    Models [boom-main/src/state.rs]: what a reload builds in memory from the
    configuration (deployments, rates, aliases, plans, flow-control slots, hybrid router,
    policy), what it writes to the tables and loads from them, the snapshot of the tables
    as a document, and [persist_config_in_place], which writes the snapshot into the
    configuration file and reloads.  The file is a document ([Json.Value]); statements
    succeed unless the model says how they fail; the order of a hash map is an argument
    where it matters.  The rebuilding of the KV index, the timeouts around the statements
    and the registration of fusion models are left out here. *)

From S2P Require Import Prelude Core Text Float64 Json FlowControl Messages PlanStore Stores Config ModelTable PlanTable Deployments Router.

Module ConfigSync.
Import PlanTable Core Json ModelTable Deployments.

Section sync.
Context {D : Type} `{DecimalOps D} (de_decimal : Value -> option D) (show_f64 : f64 -> string).
Context (getenv : string -> option string) (to_lowercase : string -> string) (client_error : option string).
(** [Decimal::from_f64] of a rate per million tokens, divided by a million. *)
Context (per_token : f64 -> option D).
(** How a decimal is serialized, and the text of a number of micros as a decimal. *)
Context `{DecimalText D} (ser_decimal : D -> Value) (micros_text : Z -> string).
Context (name_le : string -> string -> Prop) `{!RelDecision name_le}.

Notation Config := (Config.Config D).
Notation Store := (Stores.DeploymentStore D).
Notation build := (build_provider_from_row getenv to_lowercase client_error).

(** ** Memory from the configuration *)

Definition entry_id (e : Config.ModelEntry) : option string := i ← Config.me_model_info e; Config.mi_id i.

Definition entry_ratio (e : Config.ModelEntry) : Z := default 1 (i ← Config.me_model_info e; Config.mi_quota_count_ratio i).

Definition entry_extra (p : Config.ProviderParams) : gmap string string :=
  insert_opt "aws_region_name" (Config.pp_aws_region_name p) (insert_opt "api_version" (Config.pp_api_version p) (Config.pp_headers p)).

Definition entry_provider (e : Config.ModelEntry) : GatewayError + ProviderInstance :=
  let p := Config.litellm_params e in
  create_provider to_lowercase client_error (Config.pp_model p) (Config.pp_api_key p) (Config.pp_api_base p) (entry_extra p)
    (entry_id e) (Config.me_client_type_header e).

(** The rate of the entry's template, when it has one with some price. *)
Definition entry_rate (c : Config) (e : Config.ModelEntry) : option (Stores.ModelCostRate D) :=
  info ← Config.me_model_info e;
  tn ← Config.mi_cost_template info;
  t ← Config.lookup_cost_template c tn;
  let i := Config.input_cost_per_million_tokens t ≫= per_token in
  let k := Config.cached_input_cost_per_million_tokens t ≫= per_token in
  let o := Config.output_cost_per_million_tokens t ≫= per_token in
  if is_none i && is_none o && is_none k then None
  else Some (Stores.with_cached (default dec_zero i) (default dec_zero k) (default dec_zero o)).

Definition add_entry (c : Config) (s : Store) (e : Config.ModelEntry) : Store :=
  if negb (Config.me_enabled e) then s
  else match entry_provider e with
       | inl _ => s
       | inr i =>
         let p := as_provider i in
         let m := Config.me_model_name e in
         let s := if Config.me_serve_not_match e then (Stores.add_deployment s "*" p).1 else s in
         let s := (Stores.add_deployment s m p).1 in
         let s := Stores.set_quota_ratio s m (entry_ratio e) in
         match entry_rate c e with Some r => Stores.set_cost_rate s m r | None => s end
       end.

Definition build_deployments_from_config (c : Config) (s : Store) : Store := foldl (add_entry c) (Stores.clear s) (Config.model_list c).

Definition add_alias (store : Store) (s : Stores.AliasStore) (kv : string * Config.ModelGroupAlias) : Stores.AliasStore :=
  let target := Config.target_model kv.2 in
  if Stores.contains store target then Stores.set_alias s kv.1 target (Config.alias_is_hidden kv.2) else s.

Definition build_aliases_from_config (c : Config) (s : Stores.AliasStore) (store : Store) : Stores.AliasStore :=
  foldl (add_alias store) (Stores.clear_aliases s) (map_to_list (Config.model_group_alias (Config.router_settings c))).

(** The limits of an entry with a deployment id, when it has some. *)
Definition entry_slot (e : Config.ModelEntry) : option (string * FlowControl.FlowControlConfig) :=
  did ← entry_id e;
  if bool_decide (did = "") then None
  else fc ← Config.me_flow_control e;
       let i := default 0 (Config.model_queue_limit fc) in
       let x := default 0 (Config.model_context_limit fc) in
       if (0 <? i) || (0 <? x) then Some (did, FlowControl.mkFlowControlConfig i x) else None.

Definition ensure_all (fc : FlowControl.FlowController) (l : list (string * FlowControl.FlowControlConfig)) : FlowControl.FlowController :=
  foldl (fun fc s => FlowControl.ensure_slot fc s.1 s.2) fc l.

Definition seed_flow_controller_from_config (c : Config) (fc : FlowControl.FlowController) : FlowControl.FlowController :=
  let l := omap entry_slot (Config.model_list c) in
  FlowControl.retain_slots (ensure_all fc l) l.*1.

Definition convert_schedule (slots : list (Config.ScheduleSlotConfig D)) : list (PlanStore.ScheduleSlot D) :=
  (fun s => PlanStore.mkScheduleSlot (Config.sc_hours s) (Config.sc_concurrency_limit s) (Config.sc_rpm_limit s) (Config.sc_tpm_limit s)
              (Config.sc_window_limits s)) <$> slots.

Definition plan_of_config (kv : string * Config.PlanConfig D) : PlanStore.RateLimitPlan D :=
  let '(n, pc) := kv in
  PlanStore.mkRateLimitPlan n (Config.pc_type pc) (Config.pc_member_plan pc) (Config.pc_concurrency_limit pc) (Config.pc_rpm_limit pc)
    (Config.pc_tpm_limit pc) (Config.pc_window_limits pc) (Config.pc_total_token_limit pc) (Config.pc_total_cost_limit pc)
    (convert_schedule (Config.pc_schedule pc)).

Definition load_plans_from_config (s : PlanStore.PlanStore D) (c : Config) : PlanStore.PlanStore D :=
  let ps := Config.plan_settings c in
  let s := foldl (fun s kv => PlanStore.upsert_plan s (plan_of_config kv)) s (map_to_list (Config.ps_plans ps)) in
  let s := PlanStore.set_default_plan s
             (dp ← Config.default_plan ps; match PlanStore.get_plan s dp with Some _ => Some dp | None => None end) in
  PlanStore.set_default_team_plan s
    (dtp ← Config.default_team_plan ps;
     match PlanStore.get_plan s dtp with
     | Some p => match PlanStore.plan_type p with PlanTeam => Some dtp | PlanKey => None end
     | None => None
     end).

Definition build_hybrid_router (c : Config) : option (HybridRouter.HybridRouter HybridRouter.TierClassifier) :=
  hr ← Config.hybrid_router (Config.router_settings c);
  strategy ← HybridRouter.get_strategy {["tier_classifier" := HybridRouter.the_tier_classifier]} (Config.hr_strategy hr);
  Some (HybridRouter.mkHybridRouter (Config.hr_model_name hr) strategy (Config.hr_default_tier hr) (Config.hr_tiers hr)).

(** The policy with what it is configured with. *)
Inductive PolicyChoice :=
  | UseRoundRobin
  | UseKeyAffinity (context_threshold rebalance_threshold : Z)
  | UseKvcAware (cache_weight load_weight : f64) (overload_threshold_pct rebalance_threshold : Z).

(** [kv_index] is whether there is one. *)
Definition create_policy (c : Config) (kv_index : bool) : PolicyChoice :=
  let r := Config.router_settings c in
  if bool_decide (Config.schedule_policy r ∈ ["round_robin"; ""]) then UseRoundRobin
  else if bool_decide (Config.schedule_policy r = "key_affinity")
  then UseKeyAffinity (Config.key_affinity_context_threshold r) (Config.rebalance_threshold r)
  else if bool_decide (Config.schedule_policy r = "kvc_aware")
  then if kv_index
       then let k := Config.kvc_aware r in
            UseKvcAware (Config.cache_weight k) (Config.load_weight k) (Config.overload_threshold_pct k) (Config.rebalance_threshold r)
       else UseRoundRobin
  else UseRoundRobin.

(** ** Tables from the configuration *)

Definition opt_string (o : option string) : Value := match o with Some s => VString s | None => VNull end.

(** The derived serializer: absent options are null. *)
Definition model_info_value (i : Config.ModelInfo) : Value :=
  VObject [("id", opt_string (Config.mi_id i)); ("quota_count_ratio", opt_int (Config.mi_quota_count_ratio i));
           ("cost_template", opt_string (Config.mi_cost_template i))].

Definition input_of_entry (e : Config.ModelEntry) : DeploymentInput :=
  let p := Config.litellm_params e in
  mkDeploymentInput (Config.me_model_name e) (Config.pp_model p) (Config.pp_api_key p) (Some false) (Config.pp_api_base p)
    (Config.pp_api_version p) (Config.pp_aws_region_name p) (Config.pp_aws_access_key_id p) (Config.pp_aws_secret_access_key p)
    (as_i64 <$> Config.pp_rpm p) (as_i64 <$> Config.pp_tpm p) (as_i64 (Config.pp_timeout p))
    (VObject ((fun kv => (kv.1, VString kv.2)) <$> map_to_list (Config.pp_headers p))) (Config.pp_temperature p)
    (as_i32 <$> Config.pp_max_tokens p) (Config.me_enabled e) (entry_id e) (as_i64 (entry_ratio e))
    (as_i32 <$> (Config.me_flow_control e ≫= Config.model_queue_limit)) (as_i64 <$> (Config.me_flow_control e ≫= Config.model_context_limit))
    (Config.me_client_type_header e) (Config.me_serve_not_match e) (model_info_value <$> Config.me_model_info e).

Definition yaml_names (c : Config) : list string := Config.me_model_name <$> Config.model_list c.

(** An entry, followed by its wildcard record when it also serves as catch-all. *)
Definition inputs_of_entry (names : list string) (e : Config.ModelEntry) : list DeploymentInput :=
  let d := input_of_entry e in
  if Config.me_serve_not_match e && negb (bool_decide ("*" ∈ names)) then [d; with_model_name d "*"] else [d].

Definition yaml_deployments (c : Config) : list DeploymentInput := Config.model_list c ≫= inputs_of_entry (yaml_names c).

Definition all_model_names (c : Config) : list string :=
  if existsb Config.me_serve_not_match (Config.model_list c) && negb (bool_decide ("*" ∈ yaml_names c))
  then yaml_names c ++ ["*"] else yaml_names c.

Definition alias_rows (l : list (string * Config.ModelGroupAlias)) : list (string * string * bool) :=
  (fun kv => (kv.1, Config.target_model kv.2, Config.alias_is_hidden kv.2)) <$> l.

(** The deployments, then the aliases in the order [order] of the hash map.  The result says
    whether all statements succeeded, and the plans are synced. *)
Definition sync_tables (ids : nat -> string) (c : Config) (order : list (string * Config.ModelGroupAlias)) (t : Table) (a : AliasTable)
  : Table * AliasTable * bool :=
  let '(a, ok) := alias_sync (alias_rows order) a in
  (sync_yaml_to_db ids (all_model_names c) (yaml_deployments c) t, a, ok).

(** ** What only the database has *)

Definition load_db_only_deployments (t : Table) (s : Store) : Store :=
  foldl (fun s r => match build r with Some p => (Stores.add_deployment s (model_name (row_data r)) p).1 | None => s end)
    s (load_db_only_rows name_le t).

(** The slots of the rows of the database, disabled ones too. *)
Definition row_slot (r : DeploymentRow) : option (string * FlowControl.FlowControlConfig) :=
  if bool_decide (source r = FromDb)
  then did ← deployment_id (row_data r);
       let i := wrap32 (default 0 (max_inflight_queue_len (row_data r))) in
       let x := wrap64 (default 0 (max_context_len (row_data r))) in
       if (0 <? i) || (0 <? x) then Some (did, FlowControl.mkFlowControlConfig i x) else None
  else None.

Definition seed_db_slots (t : Table) (fc : FlowControl.FlowController) : FlowControl.FlowController :=
  ensure_all fc (omap row_slot (list_all_db name_le t)).

(** The error names the conflicts. *)
Definition validate_db_workflow_namespace (t : Table) (a : AliasTable) (c : Config) : string + unit :=
  let names := (map_to_list (Config.wf_models (Config.workflow_settings c))).*1 in
  match names with
  | [] => inr tt
  | _ =>
    match db_only_model_conflicts names t, alias_name_conflicts names a with
    | [], [] => inr tt
    | ds, als => inl ("workflow model namespace conflicts with DB-only resources: deployments=[" +:+ String.concat ", " ds
                      +:+ "], aliases=[" +:+ String.concat ", " als +:+ "]")
    end
  end.

(** ** The snapshot of the tables *)

Definition snapshot_params (d : DeploymentInput) : Object :=
  let o := [("model", VString (litellm_model d))] in
  let o := insert_some o "api_key" VString (api_key d) in
  let o := insert_some o "api_base" VString (api_base d) in
  let o := insert_some o "api_version" VString (api_version d) in
  let o := insert_some o "aws_region_name" VString (aws_region_name d) in
  let o := insert_some o "aws_access_key_id" VString (aws_access_key_id d) in
  let o := insert_some o "aws_secret_access_key" VString (aws_secret_access_key d) in
  let o := insert_some o "rpm" vint (rpm d) in
  let o := insert_some o "tpm" vint (tpm d) in
  let o := obj_insert o "timeout" (vint (timeout d)) in
  let o := insert_some o "temperature" (fun t => if Config.f64_finite t then VNumber (NFloat t) else vint 0) (temperature d) in
  let o := insert_some o "max_tokens" vint (max_tokens d) in
  match headers d with
  | VObject (_ :: _) => obj_insert o "headers" (headers d)
  | _ => o
  end.

Definition snapshot_flow (d : DeploymentInput) : option Value :=
  if is_none (max_inflight_queue_len d) && is_none (max_context_len d) then None
  else Some (VObject (insert_some (insert_some [] "model_queue_limit" vint (max_inflight_queue_len d)) "model_context_limit" vint (max_context_len d))).

(** Of the stored information only the template is read, and only when it parses. *)
Definition snapshot_info (d : DeploymentInput) : Object :=
  let o := insert_some [] "cost_template" VString (v ← model_info d; i ← Config.de_model_info v; Config.mi_cost_template i) in
  let o := insert_some o "id" VString (did ← deployment_id d; if bool_decide (did = "") then None else Some did) in
  if quota_count_ratio d =? 1 then o else obj_insert o "quota_count_ratio" (vint (quota_count_ratio d)).

Definition snapshot_entry (r : DeploymentRow) : Value :=
  let d := row_data r in
  let o := [("model_name", VString (model_name d)); ("litellm_params", VObject (snapshot_params d))] in
  let o := insert_some o "flow_control" (fun v => v) (snapshot_flow d) in
  let o := match snapshot_info d with [] => o | i => obj_insert o "model_info" (VObject i) end in
  let o := if serve_not_match d then obj_insert o "serve_not_match" (VBool true) else o in
  let o := if client_type_header d then obj_insert o "client_type_header" (VBool true) else o in
  let o := if negb (enabled d) then obj_insert o "enabled" (VBool false) else o in
  VObject o.

Definition snapshot_aliases (l : list (string * string)) : Value := VObject (foldl (fun o kv => obj_insert o kv.1 (VString kv.2)) [] l).

(** *** Plans *)

(** All the windows, or none when one does not parse. *)
Definition normalize_window_limits (raw : Value) : list Value :=
  match Config.deserialize_window_limit_vec de_decimal raw with Some ws => window_value ser_decimal <$> ws | None => [] end.

Definition snapshot_slot (item : Value) : option Value :=
  obj ← as_object item;
  let o := insert_some [] "hours" VString (obj_get obj "hours" ≫= as_str) in
  let o := insert_some o "concurrency_limit" vint (obj_get obj "concurrency_limit" ≫= as_u64) in
  let o := insert_some o "rpm_limit" vint (obj_get obj "rpm_limit" ≫= as_u64) in
  Some (VObject (match obj_get obj "window_limits" with
                 | Some raw => match normalize_window_limits raw with [] => o | ws => obj_insert o "window_limits" (VArray ws) end
                 | None => o
                 end)).

Definition snapshot_plan (r : PlanRow) : Value :=
  let o := [("type", VString (default "key" (pr_type r)))] in
  let o := insert_some o "member_plan" VString (pr_member_plan r) in
  let o := insert_some o "concurrency_limit" vint (pr_concurrency_limit r) in
  let o := insert_some o "rpm_limit" vint (pr_rpm_limit r) in
  let o := insert_some o "tpm_limit" vint (pr_tpm_limit r) in
  let o := match normalize_window_limits (pr_window_limits r) with [] => o | ws => obj_insert o "window_limits" (VArray ws) end in
  let o := insert_some o "total_token_limit" vint (pr_total_token_limit r) in
  let o := insert_some o "total_cost_limit" (fun c => VString (micros_text (Z.max c 0))) (pr_total_cost_limit_micros r) in
  match omap snapshot_slot (default [] (as_array (pr_schedule r))) with
  | [] => VObject o
  | sched => VObject (obj_insert o "schedule" (VArray sched))
  end.

Definition snapshot_default_plan (rows : list PlanRow) : option string :=
  pr_name <$> head (retain (fun r => default false (pr_is_default r)) rows).

Definition snapshot_plans (rows : list PlanRow) : Object :=
  let plans := VObject (foldl (fun o r => obj_insert o (pr_name r) (snapshot_plan r)) [] rows) in
  insert_some [] "default_plan" VString (snapshot_default_plan rows) ++ [("plans", plans)].

Definition build_config_snapshot_value (t : Table) (aliases : list (string * string)) (plans : list PlanRow) : Value :=
  VObject [("model_list", VArray (snapshot_entry <$> snapshot_db name_le t));
           ("router_settings", VObject [("model_group_alias", snapshot_aliases aliases)]);
           ("plan_settings", VObject (snapshot_plans plans))].

(** [json_to_yaml] keeps the value. *)
Definition set_if (o : option Value) (path : list string) (root : Value) : GatewayError + Value :=
  match o with Some v => Config.set_yaml_path root path v | None => inr root end.

Definition sum_bind {E A B} (x : E + A) (f : A -> E + B) : E + B := match x with inl e => inl e | inr a => f a end.

Definition merge_runtime_sections (root snapshot : Value) : GatewayError + Value :=
  match as_object snapshot with
  | None => inl (ConfigError "snapshot is not a JSON object")
  | Some o =>
    sum_bind (set_if (obj_get o "model_list") ["model_list"] root) (fun root =>
    sum_bind (set_if (r ← obj_get o "router_settings"; get r "model_group_alias") ["router_settings"; "model_group_alias"] root) (fun root =>
    sum_bind (set_if (p ← obj_get o "plan_settings"; get p "plans") ["plan_settings"; "plans"] root) (fun root =>
    set_if (p ← obj_get o "plan_settings"; get p "default_plan") ["plan_settings"; "default_plan"] root)))
  end.

(** ** Reload and persist *)

(** The file, the tables, and what is in memory. *)
Record World := mkWorld {
  w_file : Value;
  w_table : Table;
  w_alias_table : AliasTable;
  w_store : Store;
  w_aliases : Stores.AliasStore;
  w_plans : PlanStore.PlanStore D;
  w_flow : FlowControl.FlowController;
  w_plan_db : PlanDb;
}.

(** A reload with a database whose statements succeed, but for the key conflicts of the
    aliases, which are logged and no more. *)
Definition reload (ids : nat -> string) (order : gmap string Config.ModelGroupAlias -> list (string * Config.ModelGroupAlias)) (w : World)
  : string * World + World :=
  match Config.load_config de_decimal show_f64 getenv (w_file w) with
  | inl _ => inl ("config", w)
  | inr c =>
    match validate_db_workflow_namespace (w_table w) (w_alias_table w) c with
    | inl e => inl (e, w)
    | inr _ =>
      let store := build_deployments_from_config c (w_store w) in
      let aliases := build_aliases_from_config c (w_aliases w) store in
      let plans := load_plans_from_config (PlanStore.clear_plans (w_plans w)) c in
      let flow := seed_flow_controller_from_config c (w_flow w) in
      let '(t, a, ok) := sync_tables ids c (order (Config.model_group_alias (Config.router_settings c))) (w_table w) (w_alias_table w) in
      let '(db, plans) := reload_plans ser_decimal true ok (map_to_list (PlanStore.plans plans)).*2 (Config.default_plan (Config.plan_settings c))
                            plans (w_plan_db w) in
      inr (mkWorld (w_file w) t a (load_db_only_deployments t store) (alias_load_db_only a aliases) plans (seed_db_slots t flow) db)
    end
  end.

Definition plan_row_le (a b : PlanRow) : Prop := name_le (pr_name a) (pr_name b).
#[local] Instance plan_row_le_dec : RelDecision plan_row_le.
Proof. intros a b. unfold plan_row_le. apply _. Defined.

(** ORDER BY name *)
Definition plan_rows_by_name (db : PlanDb) : list PlanRow := merge_sort plan_row_le (map_to_list (snapshot_plans_db db)).*2.

Definition world_snapshot (w : World) : Value :=
  build_config_snapshot_value (w_table w) (alias_snapshot_db (w_alias_table w)) (plan_rows_by_name (w_plan_db w)).

Definition persist_config_in_place ids order (w : World) : string * World + World :=
  match merge_runtime_sections (w_file w) (world_snapshot w) with
  | inl _ => inl ("merge runtime sections", w)
  | inr doc =>
    reload ids order (mkWorld doc (w_table w) (w_alias_table w) (w_store w) (w_aliases w) (w_plans w) (w_flow w) (w_plan_db w))
  end.

(** ** What survives the snapshot *)

(** The ranges the parser of an entry accepts. *)
Definition row_ok (d : DeploymentInput) : Prop :=
  from_option is_u64 True (rpm d) /\ from_option is_u64 True (tpm d) /\ is_u64 (timeout d)
  /\ from_option is_u32 True (max_tokens d) /\ is_u64 (quota_count_ratio d)
  /\ from_option is_u32 True (max_inflight_queue_len d) /\ from_option is_u64 True (max_context_len d).

(** The headers an entry is given, when they are all strings. *)
Definition row_headers (d : DeploymentInput) : option (gmap string string) :=
  match headers d with VObject (_ :: _) => de_map de_string (headers d) | _ => Some ∅ end.

Definition row_template (d : DeploymentInput) : option string := v ← model_info d; i ← Config.de_model_info v; Config.mi_cost_template i.
Definition non_empty_id (o : option string) : option string := did ← o; if bool_decide (did = "") then None else Some did.
Definition not_one (z : Z) : option Z := if z =? 1 then None else Some z.
Definition row_id_of (d : DeploymentInput) : option string := non_empty_id (deployment_id d).
Definition row_ratio (d : DeploymentInput) : option Z := not_one (quota_count_ratio d).
(** A node that is left out when it is empty. *)
Definition info_node (i : option string) (q : option Z) (c : option string) : option Config.ModelInfo :=
  match i, q, c with None, None, None => None | _, _, _ => Some (Config.mkModelInfo i q c) end.
Definition flow_node (q c : option Z) : option Config.FlowControlEntry :=
  match q, c with None, None => None | _, _ => Some (Config.mkFlowEntry q c) end.
Definition finite_or_zero (t : f64) : f64 := if Config.f64_finite t then t else f64_of 0.

(** What of a row an entry keeps. *)
Definition entry_of_row (d : DeploymentInput) (hs : gmap string string) : Config.ModelEntry :=
  Config.mkEntry (model_name d)
    (Config.mkParams (litellm_model d) (api_key d) (api_base d) (api_version d) (aws_region_name d) (aws_access_key_id d)
       (aws_secret_access_key d) (rpm d) (tpm d) (timeout d) hs (finite_or_zero <$> temperature d) (max_tokens d))
    (info_node (row_id_of d) (row_ratio d) (row_template d)) (flow_node (max_inflight_queue_len d) (max_context_len d))
    (serve_not_match d) (enabled d) (client_type_header d).

Lemma vint_not_null z : vint z <> VNull.
Proof. done. Qed.
Lemma vstring_not_null s : VString s <> VNull.
Proof. done. Qed.

Lemma de_u64_vint z : de_u64 (vint z) = Some z <-> is_u64 z.
Proof.
  unfold is_u64. split; [| intros ?; apply de_int_ok; unfold u64_max; lia].
  intros E%int_typed. unfold u64_max in E. lia.
Qed.
Lemma de_u32_vint z : de_u32 (vint z) = Some z <-> is_u32 z.
Proof.
  unfold is_u32. split; [| intros ?; apply de_int_ok; unfold u32_max; lia].
  intros E%int_typed. unfold u32_max in E. lia.
Qed.

Lemma opt_string_read o k a : obj_get o k = VString <$> a -> opt_field o k de_string = Some a.
Proof. intros E. rewrite (opt_field_read _ _ _ VString a) by done. by destruct a. Qed.
Lemma opt_int_read o k hi a :
  obj_get o k = vint <$> a -> opt_field o k (de_int 0 hi) = match a with None => Some None | Some z => Some <$> de_int 0 hi (vint z) end.
Proof. intros E. by apply opt_field_read with (f := vint). Qed.

(** A look-up in a chain of insertions, by evaluation on the options. *)
Ltac lookup_opt :=
  obj_lookup; match goal with
  | |- match ?o with _ => _ end = _ => by destruct o
  | |- _ => done
  end.

Definition temperature_value (t : f64) : Value := if Config.f64_finite t then VNumber (NFloat t) else vint 0.

Lemma params_lookup d :
  let o := snapshot_params d in
  field o "headers" (de_map de_string) (Some ∅) = row_headers d
  /\ obj_get o "model" = Some (VString (litellm_model d)) /\ obj_get o "api_key" = VString <$> api_key d
  /\ obj_get o "api_base" = VString <$> api_base d /\ obj_get o "api_version" = VString <$> api_version d
  /\ obj_get o "aws_region_name" = VString <$> aws_region_name d /\ obj_get o "aws_access_key_id" = VString <$> aws_access_key_id d
  /\ obj_get o "aws_secret_access_key" = VString <$> aws_secret_access_key d /\ obj_get o "rpm" = vint <$> rpm d
  /\ obj_get o "tpm" = vint <$> tpm d /\ obj_get o "timeout" = Some (vint (timeout d))
  /\ obj_get o "temperature" = temperature_value <$> temperature d /\ obj_get o "max_tokens" = vint <$> max_tokens d.
Proof.
  unfold snapshot_params, row_headers, field, temperature_value. destruct (headers d) as [| | | | | [| kv h]]; split_and!; lookup_opt.
Qed.

Definition int_field (hi : Z) (a : option Z) : option (option Z) :=
  match a with None => Some None | Some z => Some <$> de_int 0 hi (vint z) end.

Lemma params_read d :
  Config.de_params (VObject (snapshot_params d)) =
    (r ← int_field u64_max (rpm d);
     t ← int_field u64_max (tpm d);
     to ← de_u64 (vint (timeout d));
     hs ← row_headers d;
     mt ← int_field u32_max (max_tokens d);
     Some (Config.mkParams (litellm_model d) (api_key d) (api_base d) (api_version d) (aws_region_name d) (aws_access_key_id d)
       (aws_secret_access_key d) r t to hs (finite_or_zero <$> temperature d) mt)).
Proof.
  pose proof (params_lookup d) as (Hh & Hm & Hk & Hb & Hv & Hrg & Hak & Hsk & Hr & Ht & Hto & Hte & Hmt).
  unfold Config.de_params, Config.de_struct. rewrite (field_read _ _ _ _ _ Hm), (field_read _ _ _ _ _ Hto), Hh. cbn [de_string as_str].
  rewrite (opt_string_read _ _ _ Hk), (opt_string_read _ _ _ Hb), (opt_string_read _ _ _ Hv), (opt_string_read _ _ _ Hrg),
    (opt_string_read _ _ _ Hak), (opt_string_read _ _ _ Hsk).
  rewrite (opt_int_read _ _ u64_max _ Hr : opt_field _ _ de_u64 = int_field _ _), (opt_int_read _ _ u64_max _ Ht : opt_field _ _ de_u64 = int_field _ _),
    (opt_int_read _ _ u32_max _ Hmt : opt_field _ _ de_u32 = int_field _ _).
  rewrite (opt_field_read _ _ _ temperature_value _ Hte) by (intros x; unfold temperature_value; by case_match).
  destruct (int_field u64_max (rpm d)); [| done]. destruct (int_field u64_max (tpm d)); [| done].
  destruct (de_u64 (vint (timeout d))); [| done]. destruct (row_headers d); [| done].
  cbn [mbind option_bind]. unfold temperature_value, finite_or_zero.
  destruct (temperature d) as [x |]; cbn [fmap option_fmap option_map]; [destruct (Config.f64_finite x) |]; done.
Qed.

Lemma int_field_some hi (P : Z -> Prop) a x :
  (forall z, de_int 0 hi (vint z) = Some z <-> P z) -> int_field hi a = Some x <-> x = a /\ from_option P True a.
Proof.
  intros HP. unfold int_field. destruct a as [z |]; cbn [from_option]; [| split; [by intros [= <-] | by intros [-> _]]].
  rewrite <- HP. split.
  - unfold de_int, vint. destruct (_ && _); [| done]. by intros [= <-].
  - intros [-> E]. by rewrite E.
Qed.

Lemma int_field_u64 a : from_option is_u64 True a -> int_field u64_max a = Some a.
Proof. intros Ha. by apply (int_field_some _ is_u64 _ _ de_u64_vint). Qed.
Lemma int_field_u32 a : from_option is_u32 True a -> int_field u32_max a = Some a.
Proof. intros Ha. by apply (int_field_some _ is_u32 _ _ de_u32_vint). Qed.

Lemma de_u64_inv z x : de_u64 (vint z) = Some x -> x = z.
Proof. cbn. destruct (_ && _); [| done]. by intros [= <-]. Qed.

(** An object of an entry, field by field. *)
Lemma entry_lookup d :
  exists o, snapshot_entry (mkRow "" d false FromYaml) = VObject o
  /\ obj_get o "model_name" = Some (VString (model_name d)) /\ obj_get o "litellm_params" = Some (VObject (snapshot_params d))
  /\ obj_get o "model_info" = match snapshot_info d with [] => None | i => Some (VObject i) end
  /\ obj_get o "flow_control" = snapshot_flow d
  /\ field o "serve_not_match" de_bool (Some false) = Some (serve_not_match d)
  /\ field o "enabled" de_bool (Some true) = Some (enabled d)
  /\ field o "client_type_header" de_bool (Some false) = Some (client_type_header d).
Proof.
  unfold snapshot_entry. cbn [row_data]. eexists. split; [reflexivity |]. unfold field.
  destruct (snapshot_info d), (serve_not_match d), (client_type_header d), (enabled d); cbn [negb]; split_and!; lookup_opt.
Qed.

(** Evaluate the parser of a literal object, the range tests apart. *)
Ltac eval_fields := do 5 (cbn -[Z.leb u64_max u32_max]; unfold opt_field, field; closed_keys).

Lemma info_read o d :
  obj_get o "model_info" = match snapshot_info d with [] => None | i => Some (VObject i) end ->
  opt_field o "model_info" Config.de_model_info =
    (_ ← int_field u64_max (row_ratio d);
     Some (info_node (row_id_of d) (row_ratio d) (row_template d))).
Proof.
  unfold opt_field, field, snapshot_info. fold (row_template d) (non_empty_id (deployment_id d)) (row_id_of d).
  unfold row_ratio, not_one. intros ->. destruct (quota_count_ratio d =? 1), (row_template d), (row_id_of d); try done; eval_fields; by destruct (_ && _).
Qed.

Lemma flow_read o d :
  obj_get o "flow_control" = snapshot_flow d ->
  opt_field o "flow_control" Config.de_flow_entry =
    (_ ← int_field u32_max (max_inflight_queue_len d); _ ← int_field u64_max (max_context_len d);
     Some (flow_node (max_inflight_queue_len d) (max_context_len d))).
Proof.
  unfold opt_field, field, snapshot_flow. intros ->.
  destruct (max_inflight_queue_len d), (max_context_len d); try done; eval_fields; repeat (destruct (_ && _); try done).
Qed.

(** Reading an entry of the snapshot is checking the ranges and the headers. *)
Lemma entry_read r :
  let d := row_data r in
  Config.de_entry (snapshot_entry r) =
    (p ← Config.de_params (VObject (snapshot_params d));
     _ ← int_field u64_max (row_ratio d);
     _ ← int_field u32_max (max_inflight_queue_len d); _ ← int_field u64_max (max_context_len d);
     Some (Config.mkEntry (model_name d) p (Config.me_model_info (entry_of_row d ∅)) (Config.me_flow_control (entry_of_row d ∅))
       (serve_not_match d) (enabled d) (client_type_header d))).
Proof.
  intros d. destruct (entry_lookup d) as (o & Ho & Hn & Hp & Hi & Hf & Hs & He & Hc).
  change (snapshot_entry r) with (snapshot_entry (mkRow "" d false FromYaml)). rewrite Ho. unfold Config.de_entry, Config.de_struct.
  rewrite (field_read _ _ _ _ _ Hn), (field_read _ _ _ _ _ Hp), (info_read _ _ Hi), (flow_read _ _ Hf), Hs, He, Hc. cbn [de_string as_str].
  change (Some (model_name d) ≫= ?f) with (f (model_name d)). cbv beta.
  destruct (Config.de_params _) as [p |]; [| done]. destruct (int_field u64_max (row_ratio d)); [| done].
  destruct (int_field u32_max _); [| done]. by destruct (int_field u64_max _).
Qed.

Lemma snapshot_parses r e :
  Config.de_entry (snapshot_entry r) = Some e <->
  row_ok (row_data r) /\ exists hs, row_headers (row_data r) = Some hs /\ e = entry_of_row (row_data r) hs.
Proof.
  rewrite entry_read, params_read. cbv zeta. set (d := row_data r). unfold row_ok. split.
  - intros (p & Hp & E)%bind_Some. apply bind_Some in Hp as (rp & Hrp & (tp & Htp & (to & Hto & (hs & Hhs & (mt & Hmt & [= <-])%bind_Some)%bind_Some)%bind_Some)%bind_Some).
    apply bind_Some in E as (q & Hq & (qi & Hqi & (cx & Hcx & [= <-])%bind_Some)%bind_Some).
    apply (int_field_some _ is_u64 _ _ de_u64_vint) in Hrp as [-> ?], Htp as [-> ?], Hq as [-> Hq], Hcx as [-> ?].
    apply (int_field_some _ is_u32 _ _ de_u32_vint) in Hmt as [-> ?], Hqi as [-> ?]. pose proof (de_u64_inv _ _ Hto) as ->.
    apply de_u64_vint in Hto. split; [| by exists hs]. split_and!; try done. revert Hq. unfold row_ratio, not_one.
    destruct (Z.eqb_spec (quota_count_ratio d) 1) as [-> |]; [by intros _ | done].
  - intros ((Hrp & Htp & Hto & Hmt & Hq & Hqi & Hcx) & hs & Hhs & ->).
    assert (from_option is_u64 True (row_ratio d)) as Hrt by (unfold row_ratio, not_one; by destruct (_ =? 1)).
    rewrite (int_field_u64 _ Hrp), (int_field_u64 _ Htp), (proj2 (de_u64_vint _) Hto), Hhs, (int_field_u32 _ Hmt). cbn [mbind option_bind].
    by rewrite (int_field_u64 _ Hrt), (int_field_u32 _ Hqi), (int_field_u64 _ Hcx).
Qed.

(** *** A configuration's entry, through its row *)

(** What the signed columns can hold. *)
Definition fits (e : Config.ModelEntry) : Prop :=
  let p := Config.litellm_params e in
  from_option (fun z => z < 2 ^ 63) True (Config.pp_rpm p) /\ from_option (fun z => z < 2 ^ 63) True (Config.pp_tpm p)
  /\ Config.pp_timeout p < 2 ^ 63 /\ from_option (fun z => z < 2 ^ 31) True (Config.pp_max_tokens p) /\ entry_ratio e < 2 ^ 63
  /\ from_option (fun z => z < 2 ^ 31) True (Config.me_flow_control e ≫= Config.model_queue_limit)
  /\ from_option (fun z => z < 2 ^ 63) True (Config.me_flow_control e ≫= Config.model_context_limit).

(** The entry as the snapshot writes it: empty nodes, an empty id and the ratio one
    are left out. *)
Definition normal_entry (e : Config.ModelEntry) : Config.ModelEntry :=
  let p := Config.litellm_params e in
  let template := i ← Config.me_model_info e; Config.mi_cost_template i in
  Config.mkEntry (Config.me_model_name e)
    (Config.mkParams (Config.pp_model p) (Config.pp_api_key p) (Config.pp_api_base p) (Config.pp_api_version p)
       (Config.pp_aws_region_name p) (Config.pp_aws_access_key_id p) (Config.pp_aws_secret_access_key p) (Config.pp_rpm p)
       (Config.pp_tpm p) (Config.pp_timeout p) (Config.pp_headers p) (finite_or_zero <$> Config.pp_temperature p) (Config.pp_max_tokens p))
    (info_node (non_empty_id (entry_id e)) (not_one (entry_ratio e)) template)
    (flow_node (Config.me_flow_control e ≫= Config.model_queue_limit) (Config.me_flow_control e ≫= Config.model_context_limit))
    (Config.me_serve_not_match e) (Config.me_enabled e) (Config.me_client_type_header e).

Lemma as_i64_fits z : is_u64 z -> (is_u64 (as_i64 z) <-> z < 2 ^ 63) /\ (z < 2 ^ 63 -> as_i64 z = z).
Proof.
  intros Hz. unfold as_i64. rewrite wrap64_small by done. unfold is_u64 in *. destruct (Z.ltb_spec z (2 ^ 63)); lia.
Qed.
Lemma as_i32_fits z : is_u32 z -> (is_u32 (as_i32 z) <-> z < 2 ^ 31) /\ (z < 2 ^ 31 -> as_i32 z = z).
Proof.
  intros Hz. unfold as_i32. rewrite wrap32_small by done. unfold is_u32 in *. destruct (Z.ltb_spec z (2 ^ 31)); lia.
Qed.

Lemma fmap_cast (P Q R : Z -> Prop) (f : Z -> Z) o :
  (forall z, P z -> (Q (f z) <-> R z) /\ (R z -> f z = z)) -> from_option P True o ->
  (from_option Q True (f <$> o) <-> from_option R True o) /\ (from_option R True o -> f <$> o = o).
Proof. intros Hf. destruct o as [z |]; [| done]. cbn. intros Hz. destruct (Hf z Hz) as [? He]. split; [done |]. intros ?. by rewrite He. Qed.

Lemma entry_ratio_u64 e : Config.wf_entry e -> is_u64 (entry_ratio e).
Proof.
  intros (_ & Hi & _). unfold entry_ratio. destruct (Config.me_model_info e) as [i |]; [| done]. cbn in *.
  destruct (Config.mi_quota_count_ratio i); [done | done].
Qed.

Lemma row_ok_fits e : Config.wf_entry e -> row_ok (bound (input_of_entry e)) <-> fits e.
Proof.
  intros Hwf. pose proof (entry_ratio_u64 e Hwf) as Hq. destruct Hwf as ((Hr & Ht & Hto & Hm) & _ & Hf). unfold row_ok, fits. cbn.
  rewrite (proj1 (fmap_cast _ _ _ _ _ as_i64_fits Hr)), (proj1 (fmap_cast _ _ _ _ _ as_i64_fits Ht)), (proj1 (as_i64_fits _ Hto)),
    (proj1 (fmap_cast _ _ _ _ _ as_i32_fits Hm)), (proj1 (as_i64_fits _ Hq)).
  destruct (Config.me_flow_control e) as [[q c] |]; cbn in *; [destruct Hf as [Hfq Hfc] | done].
  by rewrite (proj1 (fmap_cast _ _ _ _ _ as_i32_fits Hfq)), (proj1 (fmap_cast _ _ _ _ _ as_i64_fits Hfc)).
Qed.

Lemma row_headers_map e : row_headers (bound (input_of_entry e)) = Some (Config.pp_headers (Config.litellm_params e)).
Proof.
  unfold row_headers. cbn [bound input_of_entry headers]. pose proof (de_map_of_map de_string VString (Config.pp_headers (Config.litellm_params e)) (fun _ => eq_refl)) as E.
  destruct (map_to_list (Config.pp_headers (Config.litellm_params e))) eqn:El; [| exact E].
  apply map_to_list_empty_iff in El. by rewrite El.
Qed.

Lemma info_roundtrip i : Config.opt_ok is_u64 (Config.mi_quota_count_ratio i) -> Config.de_model_info (model_info_value i) = Some i.
Proof.
  intros Hq. destruct i as [[] [q |] []]; cbn in Hq; unfold model_info_value, Config.de_model_info, Config.de_struct; eval_fields; try done.
  all: unfold is_u64 in Hq; rewrite (proj2 (Z.leb_le 0 q)), (proj2 (Z.leb_le q u64_max)) by (unfold u64_max; lia); done.
Qed.

Lemma row_template_of_entry e : Config.wf_entry e -> row_template (bound (input_of_entry e)) = (i ← Config.me_model_info e; Config.mi_cost_template i).
Proof.
  intros (_ & Hi & _). unfold row_template. cbn [bound input_of_entry model_info mbind option_bind].
  destruct (Config.me_model_info e) as [i |]; [| done]. cbn in Hi. cbn [fmap option_fmap option_map default from_option id mbind option_bind].
  by rewrite info_roundtrip.
Qed.

(** C35: an entry survives the tables exactly when its numbers fit them.  An entry of a
    loaded configuration that is written to the deployment table, read by the snapshot,
    written to the file and parsed again is the same entry (up to empty nodes, an empty
    id and the default ratio, which are left out) when every number is within its
    signed column; when one is not, the cast makes it negative and the file that the
    snapshot writes cannot be parsed. *)
Theorem entry_table_roundtrip e id :
  Config.wf_entry e ->
  let r := mkRow id (bound (input_of_entry e)) false FromYaml in
  (fits e -> Config.de_entry (snapshot_entry r) = Some (normal_entry e)) /\ (~ fits e -> Config.de_entry (snapshot_entry r) = None).
Proof.
  intros Hwf r. split.
  - intros Hfit. apply snapshot_parses. split; [by apply row_ok_fits |]. exists (Config.pp_headers (Config.litellm_params e)).
    split; [apply row_headers_map |]. unfold entry_of_row, normal_entry. cbn [r row_data]. rewrite (row_template_of_entry e Hwf).
    pose proof (entry_ratio_u64 e Hwf) as Hq. unfold fits in Hfit. destruct Hwf as ((Hr & Ht & Hto & Hm) & _ & Hf).
    destruct Hfit as (Fr & Ft & Fto & Fm & Fq & Fqi & Fc). unfold row_id_of, row_ratio. cbn.
    rewrite (proj2 (fmap_cast _ _ _ _ _ as_i64_fits Hr) Fr), (proj2 (fmap_cast _ _ _ _ _ as_i64_fits Ht) Ft), (proj2 (as_i64_fits _ Hto) Fto),
      (proj2 (fmap_cast _ _ _ _ _ as_i32_fits Hm) Fm), (proj2 (as_i64_fits _ Hq) Fq).
    destruct (Config.me_flow_control e) as [[q c] |]; cbn in *; [destruct Hf as [Hfq Hfc] | done].
    by rewrite (proj2 (fmap_cast _ _ _ _ _ as_i32_fits Hfq) Fqi), (proj2 (fmap_cast _ _ _ _ _ as_i64_fits Hfc) Fc).
  - intros Hfit. destruct (Config.de_entry (snapshot_entry r)) as [e' |] eqn:E; [| done]. apply snapshot_parses in E as [Hok _].
    exfalso. by apply Hfit, row_ok_fits.
Qed.

(** ** The document a persist writes *)

Lemma sum_bind_inr {E A B} (x : E + A) (f : A -> E + B) b : sum_bind x f = inr b -> exists a, x = inr a /\ f a = inr b.
Proof. destruct x as [| a]; [done |]. intros Ha. by exists a. Qed.

Lemma set_if_inr o path root doc :
  set_if o path root = inr doc ->
  Config.get_path doc path = match o with Some v => Some v | None => Config.get_path root path end
  /\ forall q, Config.apart path q -> Config.get_path doc q = Config.get_path root q.
Proof. unfold set_if. destruct o; [apply Config.set_path_frame | by intros [= ->]]. Qed.

Definition DEFAULT_PLAN_PATH : list string := ["plan_settings"; "default_plan"].
Definition default_plan_value (plans : list PlanRow) : option Value := VString <$> snapshot_default_plan plans.

(** The four sections of a snapshot. *)
Lemma snapshot_sections (t : Table) al plans :
  exists o ps, build_config_snapshot_value t al plans = VObject o
  /\ obj_get o "model_list" = Some (VArray (snapshot_entry <$> snapshot_db name_le t))
  /\ (r ← obj_get o "router_settings"; get r "model_group_alias") = Some (snapshot_aliases al)
  /\ obj_get o "plan_settings" = Some ps /\ is_Some (get ps "plans") /\ get ps "default_plan" = default_plan_value plans.
Proof.
  do 2 eexists. split; [reflexivity |]. unfold default_plan_value, snapshot_plans. split_and!; try (obj_lookup; reflexivity).
  - cbn [get]. destruct (snapshot_default_plan plans); cbn; closed_keys; eauto.
  - cbn [get]. destruct (snapshot_default_plan plans); cbn; closed_keys; done.
Qed.

Lemma merged_sections root (t : Table) al plans doc :
  merge_runtime_sections root (build_config_snapshot_value t al plans) = inr doc ->
  Config.get_path doc ["model_list"] = Some (VArray (snapshot_entry <$> snapshot_db name_le t))
  /\ Config.get_path doc ["router_settings"; "model_group_alias"] = Some (snapshot_aliases al)
  /\ Config.get_path doc DEFAULT_PLAN_PATH
     = match default_plan_value plans with Some v => Some v | None => Config.get_path root DEFAULT_PLAN_PATH end
  /\ forall q, Config.apart ["model_list"] q -> Config.apart ["router_settings"; "model_group_alias"] q ->
       Config.apart ["plan_settings"; "plans"] q -> Config.apart DEFAULT_PLAN_PATH q -> Config.get_path doc q = Config.get_path root q.
Proof.
  destruct (snapshot_sections t al plans) as (o & ps & -> & Hml & Hal & Hps & [pv Hpv] & Hdp). unfold merge_runtime_sections. cbn [as_object].
  rewrite Hml, Hal, Hps. cbn [mbind option_bind]. rewrite Hpv, Hdp.
  intros (d1 & E1 & (d2 & E2 & (d3 & E3 & E4)%sum_bind_inr)%sum_bind_inr)%sum_bind_inr.
  apply set_if_inr in E1 as [G1 F1], E2 as [G2 F2], E3 as [G3 F3], E4 as [G4 F4]. fold DEFAULT_PLAN_PATH in *. split_and!.
  - rewrite F4, F3, F2 by (cbn; naive_solver). exact G1.
  - rewrite F4, F3 by (cbn; naive_solver). exact G2.
  - rewrite G4. destruct (default_plan_value plans); [done |]. by rewrite F3, F2, F1 by (cbn; naive_solver).
  - intros q A1 A2 A3 A4. by rewrite F4, F3, F2, F1.
Qed.

(** A persist rewrites the runtime sections and leaves the rest.  When the merge
    succeeds, the model list and the aliases of the document are those of the tables,
    everything outside the model list, the aliases, the plans and the default plan is
    what it was, and the default plan is that of the table, if it has one: when it has
    none, the old default plan stays in the file. *)
Theorem merge_sections_exact root (t : Table) al plans doc :
  merge_runtime_sections root (build_config_snapshot_value t al plans) = inr doc ->
  Config.get_path doc ["model_list"] = Some (VArray (snapshot_entry <$> snapshot_db name_le t))
  /\ Config.get_path doc ["router_settings"; "model_group_alias"] = Some (snapshot_aliases al)
  /\ Config.get_path doc DEFAULT_PLAN_PATH
     = match default_plan_value plans with Some v => Some v | None => Config.get_path root DEFAULT_PLAN_PATH end
  /\ forall q, Config.apart ["model_list"] q -> Config.apart ["router_settings"; "model_group_alias"] q ->
       Config.apart ["plan_settings"; "plans"] q -> Config.apart DEFAULT_PLAN_PATH q -> Config.get_path doc q = Config.get_path root q.
Proof. apply merged_sections. Qed.

(** *** Reading it back *)

Lemma config_model_list doc c v :
  Config.de_config de_decimal doc = Some c -> Config.get_path doc ["model_list"] = Some v -> Config.de_seq Config.de_entry v = Some (Config.model_list c).
Proof.
  destruct doc as [| | | | | o]; try done. rewrite Config.get_path_cons. cbn [get]. intros E (w & Hw & [= ->])%bind_Some.
  unfold Config.de_config, Config.de_struct in E. apply bind_Some in E as (ml & Hml & E). repeat (apply bind_Some in E as (? & _ & E)).
  injection E as <-. by rewrite (field_read _ _ _ _ _ Hw) in Hml.
Qed.

Lemma config_aliases doc c v :
  Config.de_config de_decimal doc = Some c -> Config.get_path doc ["router_settings"; "model_group_alias"] = Some v ->
  de_map Config.de_alias v = Some (Config.model_group_alias (Config.router_settings c)).
Proof.
  destruct doc as [| | | | | o]; try done. rewrite Config.get_path_cons. cbn [get]. intros E (r & Hr & Hg)%bind_Some.
  unfold Config.de_config, Config.de_struct in E. apply bind_Some in E as (ml & _ & E). apply bind_Some in E as (g & _ & E). apply bind_Some in E as (rs & Hrs & E).
  repeat (apply bind_Some in E as (? & _ & E)). injection E as <-. cbn [Config.router_settings]. rewrite (field_read _ _ _ _ _ Hr) in Hrs.
  destruct r as [| | | | | ro]; try done. unfold Config.de_router, Config.de_struct in Hrs. apply bind_Some in Hrs as (s & _ & Hrs).
  apply bind_Some in Hrs as (a & Ha & Hrs). repeat (apply bind_Some in Hrs as (? & _ & Hrs)). injection Hrs as <-. cbn [Config.model_group_alias].
  cbn in Hg. by rewrite (field_read _ _ _ _ _ Hg) in Ha.
Qed.

(** *** After a persist *)

Lemma snapshot_elem (t : Table) r : r ∈ snapshot_db name_le t <-> r ∈ t.
Proof. unfold snapshot_db, order_by_name. by rewrite merge_sort_Permutation. Qed.

(** The steps of a persist that succeeds. *)
Lemma persist_inv ids order w w' :
  persist_config_in_place ids order w = inr w' ->
  exists doc c, merge_runtime_sections (w_file w) (world_snapshot w) = inr doc
  /\ Config.load_config de_decimal show_f64 getenv doc = inr c
  /\ let store := build_deployments_from_config c (w_store w) in
     let ta := sync_tables ids c (order (Config.model_group_alias (Config.router_settings c))) (w_table w) (w_alias_table w) in
     w_table w' = ta.1.1 /\ w_alias_table w' = ta.1.2
     /\ w_aliases w' = alias_load_db_only ta.1.2 (build_aliases_from_config c (w_aliases w) store).
Proof.
  unfold persist_config_in_place. destruct (merge_runtime_sections _ _) as [| doc] eqn:Em; [done |]. unfold reload. cbn [w_file].
  destruct (Config.load_config _ _ _ doc) as [| c] eqn:El; [done |]. destruct (validate_db_workflow_namespace _ _ c); [done |].
  destruct (sync_tables _ _ _ _) as [[t a] ok] eqn:Es. destruct (reload_plans _ _ _ _ _ _ _) as [db plans]. intros [= <-]. exists doc, c. split; [done |]. split; [done |].
  cbn [w_table w_alias_table w_aliases w_store] in *. cbv zeta. by rewrite Es.
Qed.

(** The entries of the document are those of the rows. *)
Lemma persisted_entries doc root (t : Table) al plans c :
  merge_runtime_sections root (build_config_snapshot_value t al plans) = inr doc ->
  Config.load_config de_decimal show_f64 getenv doc = inr c ->
  Forall2 (fun r e => exists e0, e = Config.resolve_entry getenv e0 /\ Config.de_entry (snapshot_entry r) = Some e0) (snapshot_db name_le t) (Config.model_list c).
Proof.
  intros (Hml & _)%merged_sections (c0 & Hc & _ & -> & _)%Config.load_config_inv.
  pose proof (config_model_list _ _ _ Hc Hml) as E. cbn in E. apply mapM_Some in E. cbn [Config.model_list Config.resolve_config].
  rewrite Forall2_fmap_l in E. rewrite Forall2_fmap_r. eapply Forall2_impl; [exact E |]. intros r e0 He. by exists e0.
Qed.

(** What of a row the new row keeps. *)
Definition kept (r : DeploymentRow) (e : Config.ModelEntry) : Prop :=
  Config.me_model_name e = model_name (row_data r) /\ Config.me_enabled e = enabled (row_data r) /\ entry_id e = non_empty_id (deployment_id (row_data r))
  /\ Config.me_serve_not_match e = serve_not_match (row_data r).

Lemma entry_of_row_kept d hs e : e = Config.resolve_entry getenv (entry_of_row d hs) ->
  Config.me_model_name e = model_name d /\ Config.me_enabled e = enabled d /\ entry_id e = non_empty_id (deployment_id d)
  /\ Config.me_serve_not_match e = serve_not_match d.
Proof.
  intros ->. cbn. split_and!; [done | done | | done]. unfold entry_id. cbn. unfold info_node, row_id_of.
  by destruct (non_empty_id _), (row_ratio d), (row_template d).
Qed.

Lemma persisted_kept doc root (t : Table) al plans c :
  merge_runtime_sections root (build_config_snapshot_value t al plans) = inr doc ->
  Config.load_config de_decimal show_f64 getenv doc = inr c -> Forall2 kept (snapshot_db name_le t) (Config.model_list c).
Proof.
  intros Hm Hl. eapply Forall2_impl; [by eapply persisted_entries |]. cbn. intros r e (e0 & -> & (_ & hs & _ & ->)%snapshot_parses).
  by apply (entry_of_row_kept _ hs).
Qed.

(** Every row of the table is one of the new configuration's. *)
Lemma persist_table ids order w w' :
  persist_config_in_place ids order w = inr w' ->
  exists c, Forall2 kept (snapshot_db name_le (w_table w)) (Config.model_list c)
  /\ w_table w' = imap (fun i d => mkRow (ids i) (bound d) false FromYaml) (yaml_deployments c).
Proof.
  intros (doc & c & Hm & Hl & Ht & _)%persist_inv. exists c. pose proof (persisted_kept _ _ _ _ _ _ Hm Hl) as Hk. split; [done |].
  rewrite Ht. unfold sync_tables. destruct (alias_sync _ _) as [a ok]. cbn [fst]. unfold sync_yaml_to_db.
  rewrite (retain_none _ (retain _ (w_table w))); [done |]. intros r [Hy Hr]%elem_of_retain.
  apply snapshot_elem, list_elem_of_lookup in Hr as (i & Hi). destruct (Forall2_lookup_l _ _ _ _ _ Hk Hi) as (e & He & Hn & _).
  apply negb_false_iff, andb_true_iff. split.
  - apply bool_decide_eq_true_2. apply negb_true_iff, bool_decide_eq_false_1 in Hy. by destruct (source r).
  - apply bool_decide_eq_true_2. unfold all_model_names. assert (model_name (row_data r) ∈ yaml_names c) as Hin.
    { apply list_elem_of_fmap. exists e. split; [done |]. by eapply list_elem_of_lookup_2. }
    case_match; [apply elem_of_app; by left | done].
Qed.

Lemma yaml_row_of (c : Config) e ids i :
  Config.model_list c !! i = Some e ->
  exists j, imap (fun i d => mkRow (ids i) (bound d) false FromYaml) (yaml_deployments c) !! j
            = Some (mkRow (ids j) (bound (input_of_entry e)) false FromYaml).
Proof.
  intros Hi. assert (input_of_entry e ∈ yaml_deployments c) as Hin.
  { apply list_elem_of_bind. exists e. split; [| by eapply list_elem_of_lookup_2]. unfold inputs_of_entry. case_match; by left. }
  apply list_elem_of_lookup in Hin as [j Hj]. exists j. by rewrite list_lookup_imap, Hj.
Qed.

(** A persist makes every automatic disabling permanent.  After a persist no row
    of the table bears the monitor's mark, and the row of every disabled deployment,
    whoever disabled it, is one that no run of the monitor (probes, recoveries, request
    failures) changes any more: the deployment does not come back when it recovers. *)
Theorem persist_makes_offline_permanent ids order w w' r :
  persist_config_in_place ids order w = inr w' -> r ∈ w_table w -> enabled (row_data r) = false ->
  (forall r', r' ∈ w_table w' -> auto_disabled r' = false /\ source r' = FromYaml)
  /\ exists i r', w_table w' !! i = Some r' /\ model_name (row_data r') = model_name (row_data r)
     /\ deployment_id (row_data r') = non_empty_id (deployment_id (row_data r)) /\ enabled (row_data r') = false
     /\ forall m m' : Monitor D, mo_table m = w_table w' -> reachable (monitor_step build name_le) m m' -> mo_table m' !! i = Some r'.
Proof.
  intros (c & Hk & Ht)%persist_table Hr He. rewrite Ht. split.
  { intros r' (i & d & -> & _)%elem_of_lookup_imap. done. }
  apply snapshot_elem, list_elem_of_lookup in Hr as (i & Hi). destruct (Forall2_lookup_l _ _ _ _ _ Hk Hi) as (e & Hei & Hn & Hen & Hid & _).
  destruct (yaml_row_of c e ids i Hei) as [j Hj]. exists j, (mkRow (ids j) (bound (input_of_entry e)) false FromYaml).
  split_and!; try done; [cbn; congruence |]. intros m m' Hm Hs.
  apply (reachable_invariant (monitor_step build name_le) (fun s => mo_table s !! j = Some (mkRow (ids j) (bound (input_of_entry e)) false FromYaml)) m) in Hs;
    [done | by rewrite Hm |].
  intros a b Ha Hab. eapply monitor_step_manual; [| exact Ha | exact Hab]. split; [cbn; congruence | done].
Qed.

(** A row out of range makes the file unloadable.  When some row of the table has a
    number outside the range of the configuration's field (a negative limit, say) or a
    header that is not a string, a persist whose merge succeeds fails in the reload,
    after the file was overwritten: the file that is left does not load. *)
Theorem persist_bad_row_unloadable ids order w doc r :
  r ∈ w_table w -> ~ (row_ok (row_data r) /\ is_Some (row_headers (row_data r))) ->
  merge_runtime_sections (w_file w) (world_snapshot w) = inr doc ->
  exists e w', persist_config_in_place ids order w = inl (e, w') /\ w_file w' = doc
  /\ Config.load_config de_decimal show_f64 getenv doc = inl (ConfigError "Failed to parse config").
Proof.
  intros Hr Hbad Hm. assert (Config.load_config de_decimal show_f64 getenv doc = inl (ConfigError "Failed to parse config")) as Hl.
  { unfold Config.load_config. destruct (Config.de_config de_decimal doc) as [c |] eqn:Ec; [| done]. exfalso.
    pose proof Hm as Hm'. apply merged_sections in Hm' as (Hml & _). pose proof (config_model_list _ _ _ Ec Hml) as E. cbn in E.
    apply mapM_Some in E. rewrite Forall2_fmap_l in E. apply snapshot_elem, list_elem_of_lookup in Hr as (i & Hi).
    destruct (Forall2_lookup_l _ _ _ _ _ E Hi) as (e & _ & [Hok (hs & Hh & _)]%snapshot_parses). apply Hbad. by rewrite Hh. }
  eexists _, _. split; [| split; [| exact Hl]]; [unfold persist_config_in_place; rewrite Hm; unfold reload; cbn [w_file]; by rewrite Hl | done].
Qed.

(** *** Aliases *)

Lemma strings_simple (o : Object) es :
  Forall (fun kv : string * Value => exists s, kv.2 = VString s) o -> de_entries Config.de_alias o = Some es ->
  Forall (fun kv => Config.alias_is_hidden kv.2 = false) es.
Proof.
  intros Hs. revert es. induction Hs as [| [k v] o [s Hv] _ IH]; cbn; intros es; [by intros [= <-] |]. cbn in Hv. subst v.
  intros (x & Hx & (es' & He & [= <-])%bind_Some)%bind_Some. injection Hx as <-. constructor; [done | by apply IH].
Qed.

Lemma aliases_simple l m : de_map Config.de_alias (snapshot_aliases l) = Some m -> map_Forall (fun _ a => Config.alias_is_hidden a = false) m.
Proof.
  unfold snapshot_aliases. intros E.
  assert (Forall (fun kv : string * Value => exists s, kv.2 = VString s) (foldl (fun o kv => obj_insert o kv.1 (VString kv.2)) [] l)) as Hs.
  { apply foldl_invariant; [| constructor]. intros o kv Ho. induction Ho as [| [k v] o Hv Ho IH]; cbn; [constructor; [by eexists | constructor] |].
    case_bool_decide; (constructor; [| done]); [by eexists | done]. }
  unfold de_map in E. destruct (de_entries Config.de_alias _) as [es |] eqn:Ee in E; [| done]. injection E as <-.
  pose proof (strings_simple _ _ Hs Ee) as Hes.
  intros k a Hk. cbn in Hk. apply elem_of_list_to_map_2 in Hk. rewrite Forall_forall in Hes. apply (Hes (k, a)). by rewrite elem_of_reverse in Hk.
Qed.

Lemma build_aliases_hidden (c : Config) s store a :
  map_Forall (fun _ al => Config.alias_is_hidden al = false) (Config.model_group_alias (Config.router_settings c)) ->
  a ∉ Stores.hidden (build_aliases_from_config c s store).
Proof.
  intros Hf. unfold build_aliases_from_config. assert (Forall (fun kv => Config.alias_is_hidden kv.2 = false) (map_to_list (Config.model_group_alias (Config.router_settings c)))) as Hl.
  { apply Forall_forall. intros [k al] Hk%elem_of_map_to_list. by apply (Hf k). }
  cut (forall s0, a ∉ Stores.hidden s0 -> a ∉ Stores.hidden (foldl (add_alias store) s0 (map_to_list (Config.model_group_alias (Config.router_settings c))))).
  { intros Hc. apply Hc. cbn. set_solver. }
  induction Hl as [| [k al] l Hal _ IH]; cbn; intros s0 Hs; [done |]. apply IH. unfold add_alias. cbn in *. case_match; [| done].
  unfold Stores.set_alias. rewrite Hal. cbn. set_solver.
Qed.

Lemma load_db_not_hidden (t : AliasTable) s a :
  db_aliases t !! a = None -> a ∉ Stores.hidden s -> a ∉ Stores.hidden (alias_load_db_only t s).
Proof.
  intros Hn. unfold alias_load_db_only. fold (db_aliases t).
  assert (Forall (fun kv => kv.1 <> a) (map_to_list (db_aliases t))) as Hl.
  { apply Forall_forall. intros [k r] Hk%elem_of_map_to_list. cbn. intros ->. congruence. }
  revert s. induction Hl as [| [k r] l Hk _ IH]; cbn; intros s Hs; [done |]. apply IH. unfold Stores.set_alias. cbn in *. case_match; cbn; set_solver.
Qed.

(** A persist makes the hidden aliases of the configuration visible.  The snapshot
    keeps only the name and the target of an alias; after a persist an alias that was
    not created through the database is hidden neither in memory nor in the table. *)
Theorem persist_reveals_hidden_aliases ids order w w' a row :
  (forall m, order m ≡ₚ map_to_list m) ->
  persist_config_in_place ids order w = inr w' -> w_alias_table w !! a = Some row -> al_source row = FromYaml ->
  Stores.is_hidden (w_aliases w') a = false /\ from_option (fun r => al_hidden r = false) True (w_alias_table w' !! a).
Proof.
  intros Hord (doc & c & Hm & Hl & _ & Hat & Hal)%persist_inv Ha Hsrc.
  pose proof Hm as (_ & Hga & _)%merged_sections. pose proof Hl as (c0 & Hc & _ & Hc0 & _)%Config.load_config_inv.
  pose proof (config_aliases _ _ _ Hc Hga) as Hma. apply aliases_simple in Hma.
  assert (Config.model_group_alias (Config.router_settings c) = Config.model_group_alias (Config.router_settings c0)) as Hmc by by rewrite Hc0.
  rewrite <- Hmc in Hma. set (m := Config.model_group_alias (Config.router_settings c)) in *.
  assert (db_aliases (w_alias_table w) !! a = None) as Hdb.
  { apply map_lookup_filter_None. right. intros r Hr. cbn. rewrite Ha in Hr. injection Hr as <-. by rewrite Hsrc. }
  assert (NoDup (alias_rows (order m)).*1.*1) as Hnd.
  { unfold alias_rows. rewrite <- !list_fmap_compose. change (NoDup ((order m).*1)). rewrite Hord. apply NoDup_fst_map_to_list. }
  assert (exists l, w_alias_table w' = yaml_alias_rows l ∪ db_aliases (w_alias_table w) /\ forall x, x ∈ l -> x.2 = false) as (l & Et & Hlf).
  { rewrite Hat. unfold sync_tables. fold m. rewrite alias_sync_result by done.
    assert (forall x, x ∈ alias_rows (order m) -> x.2 = false) as Hf.
    { intros x ([k al] & -> & Hin)%list_elem_of_fmap. rewrite Hord in Hin. apply elem_of_map_to_list in Hin. by apply (Hma k). }
    destruct (list_find _ _) as [[i x] |]; cbn [fst snd]; eexists; (split; [reflexivity |]); [| done].
    intros y (j & Hj & _)%elem_of_take. apply Hf. by eapply list_elem_of_lookup_2. }
  assert (from_option (fun r => al_hidden r = false /\ al_source r = FromYaml) True (w_alias_table w' !! a)) as Hrow.
  { rewrite Et. destruct ((yaml_alias_rows l ∪ db_aliases (w_alias_table w)) !! a) as [r |] eqn:Er; [| done]. cbn. apply lookup_union_Some_raw in Er as [Er | [_ Er]]; [| by rewrite Hdb in Er].
    apply elem_of_list_to_map_2, list_elem_of_fmap in Er as (x & [= _ ->] & Hx). split; [by apply Hlf | done]. }
  split; [| destruct (w_alias_table w' !! a); [by destruct Hrow | done]].
  unfold Stores.is_hidden. apply bool_decide_eq_false_2. rewrite Hal. apply load_db_not_hidden.
  - rewrite <- Hat. apply map_lookup_filter_None. right. intros r Hr. rewrite Hr in Hrow. cbn in *. destruct Hrow as [_ ->]. done.
  - apply build_aliases_hidden. exact Hma.
Qed.

(** ** What a build registers *)

Definition provider_of (e : Config.ModelEntry) : option Provider :=
  if Config.me_enabled e then match entry_provider e with inr i => Some (as_provider i) | inl _ => None end else None.

(** The providers an entry adds to a model. *)
Definition added (m : string) (e : Config.ModelEntry) : list Provider :=
  match provider_of e with
  | Some p => (if Config.me_serve_not_match e && bool_decide (m = "*") then [p] else []) ++ (if bool_decide (Config.me_model_name e = m) then [p] else [])
  | None => []
  end.
Definition serves (m : string) (e : Config.ModelEntry) : bool := match provider_of e with Some _ => bool_decide (Config.me_model_name e = m) | None => false end.

Lemma add_deployment_lookup (s : Store) m p m' :
  Stores.exclusive_providers s = ∅ ->
  default [] (Stores.deployments (Stores.add_deployment s m p).1 !! m') = default [] (Stores.deployments s !! m') ++ (if bool_decide (m = m') then [p] else [])
  /\ Stores.exclusive_providers (Stores.add_deployment s m p).1 = ∅
  /\ Stores.quota_ratios (Stores.add_deployment s m p).1 = Stores.quota_ratios s.
Proof.
  intros Hx. unfold Stores.add_deployment. rewrite Hx, lookup_empty. cbn. split; [| done].
  case_bool_decide as E; [subst; by rewrite lookup_insert_eq | by rewrite lookup_insert_ne, app_nil_r].
Qed.

Lemma add_entry_spec c s e m :
  Stores.exclusive_providers s = ∅ ->
  default [] (Stores.deployments (add_entry c s e) !! m) = default [] (Stores.deployments s !! m) ++ added m e
  /\ Stores.exclusive_providers (add_entry c s e) = ∅
  /\ Stores.get_quota_ratio (add_entry c s e) m = if serves m e then entry_ratio e else Stores.get_quota_ratio s m.
Proof.
  intros Hx. unfold add_entry, added, serves, provider_of. destruct (Config.me_enabled e); cbn [negb]; [| by rewrite app_nil_r].
  destruct (entry_provider e) as [| i]; [by rewrite app_nil_r |]. set (p := as_provider i).
  set (s1 := if Config.me_serve_not_match e then _ else s).
  assert (default [] (Stores.deployments s1 !! m) = default [] (Stores.deployments s !! m) ++ (if Config.me_serve_not_match e && bool_decide (m = "*") then [p] else [])
    /\ Stores.exclusive_providers s1 = ∅ /\ Stores.quota_ratios s1 = Stores.quota_ratios s) as (E1 & Hx1 & Q1).
  { unfold s1. destruct (Config.me_serve_not_match e); cbn [andb]; [| by rewrite app_nil_r].
    destruct (add_deployment_lookup s "*" p m Hx) as (-> & ? & ?). split; [| done]. by rewrite (bool_decide_ext (m = "*") ("*" = m)) by done. }
  clearbody s1. destruct (add_deployment_lookup s1 (Config.me_model_name e) p m Hx1) as (E2 & Hx2 & Q2).
  set (s2 := (Stores.add_deployment s1 _ p).1) in *. clearbody s2. rewrite app_assoc, <- E1, <- E2. clear E1 E2.
  destruct (entry_rate c e); cbn; unfold Stores.get_quota_ratio; cbn; rewrite Q2, Q1; (split; [done | split; [done |]]);
    (case_bool_decide as Em; [subst m; by rewrite lookup_insert_eq | by rewrite lookup_insert_ne]).
Qed.

Lemma build_spec c l s m :
  Stores.exclusive_providers s = ∅ ->
  default [] (Stores.deployments (foldl (add_entry c) s l) !! m) = default [] (Stores.deployments s !! m) ++ (l ≫= added m)
  /\ Stores.get_quota_ratio (foldl (add_entry c) s l) m = default (Stores.get_quota_ratio s m) (entry_ratio <$> last (retain (serves m) l)).
Proof.
  intros Hx. induction l as [| e l IH] using rev_ind; [cbn; by rewrite app_nil_r |].
  assert (Stores.exclusive_providers (foldl (add_entry c) s l) = ∅) as Hx'.
  { clear IH. induction l as [| e' l IH] using rev_ind; [done |]. rewrite foldl_app. cbn. by apply (add_entry_spec c _ e' m). }
  rewrite foldl_app. cbn [foldl]. destruct (add_entry_spec c _ e m Hx') as (-> & _ & ->), IH as [-> ->].
  rewrite bind_app, retain_app, retain_cons. cbn [mbind list_bind]. rewrite app_nil_r, app_assoc. split; [done |].
  destruct (serves m e); [by rewrite last_app | by rewrite app_nil_r].
Qed.

(** What a build registers.  After [build_deployments_from_config] the candidates of
    a model are the providers of the enabled entries of that name, in the order of the
    file (for the wildcard, also those of the catch-all entries), whatever the store held
    before; entries whose provider cannot be made add nothing; and the quota ratio of a
    model is that of the last entry that has a provider, or one. *)
Theorem build_deployments_exact (c : Config) (s : Store) m :
  default [] (Stores.deployments (build_deployments_from_config c s) !! m) = Config.model_list c ≫= added m
  /\ Stores.get_quota_ratio (build_deployments_from_config c s) m = default 1 (entry_ratio <$> last (retain (serves m) (Config.model_list c))).
Proof. apply (build_spec c (Config.model_list c) (Stores.clear s) m). done. Qed.

(** ** Plans after a reload *)

Lemma upserts_lookup l (s : PlanStore.PlanStore D) n : NoDup l.*1 ->
  PlanStore.plans (foldl (fun s kv => PlanStore.upsert_plan s (plan_of_config kv)) s l) !! n =
  match (list_to_map l : gmap string (Config.PlanConfig D)) !! n with Some pc => Some (plan_of_config (n, pc)) | None => PlanStore.plans s !! n end.
Proof.
  revert s. induction l as [| [k pc] l IH]; intros s; [done |]. cbn. intros [Hk Hnd]%NoDup_cons. rewrite IH by done. destruct (decide (n = k)) as [-> | Hne].
  - rewrite lookup_insert_eq, (not_elem_of_list_to_map_1 _ _ Hk). cbn. apply lookup_insert_eq.
  - rewrite lookup_insert_ne by done. case_match; [done |]. cbn. by rewrite lookup_insert_ne.
Qed.

(** The store with the plans of the configuration. *)
Lemma config_plans (c : Config) (s : PlanStore.PlanStore D) : let s' := load_plans_from_config (PlanStore.clear_plans s) c in
  (forall n, PlanStore.plans s' !! n = (fun pc => plan_of_config (n, pc)) <$> Config.ps_plans (Config.plan_settings c) !! n)
  /\ PlanStore.default_plan_name s' = (dp ← Config.default_plan (Config.plan_settings c); const dp <$> Config.ps_plans (Config.plan_settings c) !! dp).
Proof.
  cbn zeta. unfold load_plans_from_config. set (s1 := foldl _ _ _).
  assert (forall n, PlanStore.plans s1 !! n = (fun pc => plan_of_config (n, pc)) <$> Config.ps_plans (Config.plan_settings c) !! n) as Hp.
  { intros n. unfold s1. rewrite upserts_lookup by apply NoDup_fst_map_to_list. rewrite list_to_map_to_list. cbn. rewrite lookup_empty. by destruct (_ !! n). }
  split; [exact Hp |]. cbn. destruct (Config.default_plan _) as [dp |]; [| done]. cbn. unfold PlanStore.get_plan. rewrite Hp. by destruct (_ !! dp).
Qed.

Lemma named_values (m : gmap string (PlanStore.RateLimitPlan D)) : (forall n p, m !! n = Some p -> PlanStore.name p = n) ->
  named (map_to_list m).*2 = m /\ NoDup (PlanStore.name <$> (map_to_list m).*2).
Proof.
  intros Hm. assert ((fun p => (PlanStore.name p, p)) <$> (map_to_list m).*2 = map_to_list m) as E.
  { rewrite <- list_fmap_compose. rewrite <- (list_fmap_id (map_to_list m)) at 2. apply list_fmap_ext. intros i [n p] Hi.
    apply list_elem_of_lookup_2, elem_of_map_to_list, Hm in Hi. cbn. by rewrite Hi. }
  split; [unfold named; by rewrite E, list_to_map_to_list |].
  replace (PlanStore.name <$> (map_to_list m).*2) with (map_to_list m).*1; [apply NoDup_fst_map_to_list |].
  rewrite <- E at 1. by rewrite <- list_fmap_compose.
Qed.

(** After a reload whose tables were synced, the plans are those of the configuration,
    and under the other names those of the database.  A default plan that only the
    database has is not the default: it is looked up before the plans of the database are
    loaded. *)
Theorem reloaded_plans ids order w w' c :
  Config.load_config de_decimal show_f64 getenv (w_file w) = inr c ->
  (sync_tables ids c (order (Config.model_group_alias (Config.router_settings c))) (w_table w) (w_alias_table w)).2 = true ->
  no_db_default (w_plan_db w) -> well_named (w_plan_db w) -> reload ids order w = inr w' ->
  (forall n, PlanStore.plans (w_plans w') !! n = match Config.ps_plans (Config.plan_settings c) !! n with
                                               | Some pc => Some (plan_of_config (n, pc))
                                               | None => match plan_rows (w_plan_db w) !! n with Some (r, FromDb) => Some (row_to_plan r) | _ => None end
                                               end)
  /\ PlanStore.default_plan_name (w_plans w') = (dp ← Config.default_plan (Config.plan_settings c); const dp <$> Config.ps_plans (Config.plan_settings c) !! dp).
Proof.
  intros Hl Hok Hd Hw. unfold reload. rewrite Hl. destruct (validate_db_workflow_namespace _ _ c); [done |].
  destruct (sync_tables _ _ _ _) as [[t a] ok]. cbn [snd] in Hok. subst ok. destruct (config_plans c (w_plans w)) as [Hp Hdp].
  set (s := load_plans_from_config _ c) in *.
  assert (forall n p, PlanStore.plans s !! n = Some p -> PlanStore.name p = n) as Hn by (intros n p; rewrite Hp, fmap_Some; by intros (pc & _ & ->)).
  destruct (named_values _ Hn) as [En Hnd].
  destruct (reload_plans_exact ser_decimal (map_to_list (PlanStore.plans s)).*2 (Config.default_plan (Config.plan_settings c)) s (w_plan_db w) Hnd Hd Hw (eq_sym En)) as [Hr _].
  unfold reload_plans in *. intros [= <-]. cbn [w_plans snd fst] in *. split.
  - intros n. rewrite Hr, En, Hp. by destruct (Config.ps_plans _ !! n).
  - rewrite <- Hdp. exact (proj1 (proj2 (proj2 (load_keeps (Some _) s)))).
Qed.

End sync.

(** ** Witnesses *)

#[local] Existing Instance whole_decimal.
#[local] Existing Instance whole_decimal_text.

Definition demo_world (t : Table) : World (D := Z) :=
  mkWorld (VObject [("server", VObject [("port", vint 80)])]) t (<["alias" := mkAliasRow "m" true FromYaml]> ∅) Stores.new_deployment_store Stores.new_alias_store
    PlanStore.new_store FlowControl.new_controller empty_db.
Definition demo_ids (i : nat) : string := "row".
Definition demo_persist (t : Table) : string * World (D := Z) + World (D := Z) :=
  persist_config_in_place (fun _ => None) (fun _ => "") (fun _ => None) (fun s => s) None (fun _ => None) (fun _ => VNull) (fun _ => "0") String.le
    demo_ids map_to_list (demo_world t).

Lemma persist_makes_offline_permanent_witness :
  match demo_persist [demo_row "m" "d" false true] with
  | inr w' => exists i r', w_table w' !! i = Some r' /\ enabled (row_data r') = false /\ auto_disabled r' = false
  | inl _ => False
  end.
Proof.
  destruct (demo_persist [demo_row "m" "d" false true]) as [e | w'] eqn:E; [vm_compute in E; discriminate |].
  pose proof (persist_makes_offline_permanent (fun _ => None) (fun _ => "") (fun _ => None) (fun s => s) None (fun _ => None) (fun _ => VNull) (fun _ => "0") String.le
    demo_ids map_to_list _ w' (demo_row "m" "d" false true) E ltac:(left) eq_refl) as (Hall & i & r' & Hi & _ & _ & He & _).
  exists i, r'. split; [exact Hi | split; [exact He |]]. apply Hall. apply list_elem_of_lookup. exists i. exact Hi.
Defined.

Lemma persist_reveals_hidden_aliases_witness :
  match demo_persist [demo_row "m" "d" true false] with inr w' => Stores.is_hidden (w_aliases w') "alias" = false | inl _ => False end.
Proof.
  destruct (demo_persist [demo_row "m" "d" true false]) as [e | w'] eqn:E; [vm_compute in E; discriminate |].
  refine (proj1 (persist_reveals_hidden_aliases (fun _ => None) (fun _ => "") (fun _ => None) (fun s => s) None (fun _ => None) (fun _ => VNull) (fun _ => "0")
    String.le demo_ids map_to_list _ w' "alias" (mkAliasRow "m" true FromYaml) _ E _ eq_refl)); [reflexivity | vm_compute; reflexivity].
Defined.

(** The default plan is one that only the database has. *)
Definition plan_world : World (D := Z) :=
  mkWorld (VObject [("server", VObject [("port", vint 80)]); ("plan_settings", VObject [("default_plan", VString "basic"); ("plans", VObject [])])])
    [] ∅ Stores.new_deployment_store Stores.new_alias_store PlanStore.new_store FlowControl.new_controller demo_db.

Lemma reloaded_plans_witness :
  match reload (fun _ => None) (fun _ => "") (fun _ => None) (fun s => s) None (fun _ => None) (fun _ => VNull) String.le demo_ids map_to_list plan_world with
  | inr w' => is_Some (PlanStore.plans (w_plans w') !! "basic") /\ PlanStore.default_plan_name (w_plans w') = None
  | inl _ => False
  end.
Proof.
  destruct (reload _ _ _ _ _ _ _ _ _ _ plan_world) as [e | w'] eqn:E; [vm_compute in E; discriminate |].
  destruct (Config.load_config (D := Z) (fun _ => None) (fun _ => "") (fun _ => None) (w_file plan_world)) as [e | c] eqn:Ec; [vm_compute in Ec; discriminate |].
  assert (Config.default_plan (Config.plan_settings c) = Some "basic" /\ Config.ps_plans (Config.plan_settings c) !! "basic" = None
    /\ (sync_tables demo_ids c (map_to_list (Config.model_group_alias (Config.router_settings c))) [] ∅).2 = true) as (Ed & En & Hok).
  { vm_compute in Ec. injection Ec as <-. split_and!; vm_compute; reflexivity. }
  destruct demo_db_ok as (_ & Hd & Hw).
  destruct (reloaded_plans (fun _ => None) (fun _ => "") (fun _ => None) (fun s => s) None (fun _ => None) (fun _ => VNull) String.le
    demo_ids map_to_list plan_world w' c Ec Hok Hd Hw E) as [Hp Hdef].
  split; [rewrite Hp, En; eexists; reflexivity | rewrite Hdef, Ed; cbn; rewrite En; reflexivity].
Defined.

(** The alias was hidden, and the persist keeps it. *)
Example demo_alias_kept : match demo_persist [demo_row "m" "d" true false] with inr w' => Stores.resolve (w_aliases w') "alias" | inl _ => None end = Some "m".
Proof. vm_compute. reflexivity. Qed.

(** A row of a catch-all deployment is in the wildcard once when it is built from the
    configuration, and three times after a persist: its own entry and the entry of its
    wildcard row are both flagged. *)
Definition catch_all (t : Table) : Table := (fun r => mkRow (row_id r) (mkDeploymentInput (model_name (row_data r)) "openai/x" None None None None None None None
  None None 1200 (VObject []) None None true (Some "d") 1 None None false true None) false FromYaml) <$> t.
Definition wildcard_copies (w : string * World (D := Z) + World (D := Z)) : nat :=
  match w with inr w' => length (default [] (Stores.deployments (w_store w') !! "*")) | inl _ => 0%nat end.
Example demo_wildcard_tripled : wildcard_copies (demo_persist (catch_all [demo_row "m" "d" true false])) = 1%nat
  /\ wildcard_copies (demo_persist (catch_all [demo_row "m" "d" true false; demo_row "*" "d" true false])) = 3%nat.
Proof. vm_compute. split; reflexivity. Qed.

Definition bad_row : DeploymentRow :=
  mkRow "m" (mkDeploymentInput "m" "openai/x" None None None None None None None (Some (-1)) None 1200 (VObject []) None None true (Some "d") 1 None None
    false false None) false FromDb.
Definition demo_merged : Value :=
  match merge_runtime_sections (VObject []) (build_config_snapshot_value (D := Z) (fun _ => None) (fun _ => VNull) (fun _ => "0") String.le [bad_row] [("alias", "m")] [])
  with inr v => v | inl _ => VNull end.

Lemma persist_bad_row_unloadable_witness :
  exists e w', persist_config_in_place (D := Z) (fun _ => None) (fun _ => "") (fun _ => None) (fun s => s) None (fun _ => None) (fun _ => VNull) (fun _ => "0") String.le
    demo_ids map_to_list (mkWorld (VObject []) [bad_row] (<["alias" := mkAliasRow "m" true FromYaml]> ∅) Stores.new_deployment_store
      Stores.new_alias_store PlanStore.new_store FlowControl.new_controller empty_db) = inl (e, w') /\ w_file w' = demo_merged.
Proof.
  destruct (persist_bad_row_unloadable (D := Z) (fun _ => None) (fun _ => "") (fun _ => None) (fun s => s) None (fun _ => None) (fun _ => VNull) (fun _ => "0")
    String.le demo_ids map_to_list (mkWorld (VObject []) [bad_row] (<["alias" := mkAliasRow "m" true FromYaml]> ∅) Stores.new_deployment_store
      Stores.new_alias_store PlanStore.new_store FlowControl.new_controller empty_db) demo_merged bad_row) as (e & w' & E & Hf & _).
  - left.
  - intros ((H1 & _) & _). cbn in H1. unfold is_u64 in H1. lia.
  - vm_compute. reflexivity.
  - exists e, w'. split; [exact E | exact Hf].
Defined.

Lemma merge_sections_exact_witness : Config.get_path demo_merged DEFAULT_PLAN_PATH = None.
Proof.
  exact (proj1 (proj2 (proj2 (merge_sections_exact (D := Z) (fun _ => None) (fun _ => VNull) (fun _ => "0") String.le (VObject []) [bad_row] [("alias", "m")] []
    demo_merged ltac:(vm_compute; reflexivity))))).
Defined.

Definition demo_params (max_tokens : Z) : Config.ProviderParams :=
  Config.mkParams "openai/x" None None None None None None None None 1200 (<["k" := "v"]> ∅) None (Some max_tokens).
Definition demo_model_entry (max_tokens : Z) : Config.ModelEntry :=
  Config.mkEntry "m" (demo_params max_tokens) (Some (Config.mkModelInfo (Some "d") (Some 1) None)) None false true false.

Lemma entry_table_roundtrip_witness :
  Config.de_entry (snapshot_entry (mkRow "r" (bound (input_of_entry (demo_model_entry 4096))) false FromYaml)) = Some (normal_entry (demo_model_entry 4096))
  /\ Config.de_entry (snapshot_entry (mkRow "r" (bound (input_of_entry (demo_model_entry 2147483648))) false FromYaml)) = None.
Proof.
  split.
  - apply (entry_table_roundtrip (demo_model_entry 4096) "r"); unfold Config.wf_entry, Config.wf_params, Config.opt_ok, is_u64, is_u32, fits; cbn; repeat split; lia.
  - apply (entry_table_roundtrip (demo_model_entry 2147483648) "r"); [unfold Config.wf_entry, Config.wf_params, Config.opt_ok, is_u64, is_u32; cbn; repeat split; lia |].
    intros (_ & _ & _ & Hm & _). cbn in Hm. lia.
Defined.

End ConfigSync.
