(* ===== verification/Transcoder.v ===== *)
(** * Transcoder: the streamed answer in Anthropic's format (boom-core)

    Models the stream half of [boom-core/src/anthropic.rs]: the
    [AnthropicStreamTranscoder], which turns the chunks of an OpenAI stream into the
    events of an Anthropic stream, and the task of [boom-main/src/routes.rs] that drives
    it.  An event is a value with what the source puts into it; [render] gives its name
    and its JSON.  That a string is the text of a JSON value ([serde_json::from_str]) is
    a parameter, and the identifier of the message an argument. *)

From S2P Require Import Prelude Text Json Messages.

Module Transcoder.
Import Json.

(** ** Chunks

    With the fields that the transcoder reads; the identifier, the time and the model of a
    chunk are not among them. *)

Record FunctionCallDelta := mkFunctionDelta { fd_name : option string; fd_arguments : option string }.
Record ToolCallDelta := mkToolDelta {
  td_index : Z;
  td_id : option string;
  td_type : option string;
  td_function : option FunctionCallDelta;
}.
Record StreamDelta := mkDelta {
  d_role : option Messages.MessageRole;
  d_content : option string;
  d_tool_calls : option (list ToolCallDelta);
  d_reasoning_content : option string;
}.
Record StreamChoice := mkChoice { sc_index : Z; sc_delta : StreamDelta; sc_finish_reason : option string }.
Record StreamUsage := mkUsage { su_prompt_tokens : option Z; su_completion_tokens : option Z; su_total_tokens : option Z; su_cached_tokens : option (option Z) }.
Record ChatStreamChunk := mkChunk { ck_choices : list StreamChoice; ck_usage : option StreamUsage }.

(** ** Events *)

Inductive ContentBlock := TextBlock | ThinkingBlock | ToolUseBlock (id name : string).
Inductive Delta := TextDelta (text : string) | ThinkingDelta (thinking : string) | InputJsonDelta (partial_json : string).

Inductive Event :=
  | MessageStart (id model : string) (input_tokens output_tokens : Z) (cache_creation cache_read : option Z)
  | BlockStart (index : Z) (b : ContentBlock)
  | BlockDelta (index : Z) (d : Delta)
  | BlockStop (index : Z)
  | MessageDelta (stop_reason : string) (input_tokens output_tokens : Z)
  | MessageStop.

Definition block_json (b : ContentBlock) : Value :=
  match b with
  | TextBlock => VObject [("type", VString "text"); ("text", VString "")]
  | ThinkingBlock => VObject [("type", VString "thinking"); ("thinking", VString "")]
  | ToolUseBlock id name => VObject [("type", VString "tool_use"); ("id", VString id); ("name", VString name); ("input", VObject [])]
  end.
Definition delta_json (d : Delta) : Value :=
  match d with
  | TextDelta t => VObject [("type", VString "text_delta"); ("text", VString t)]
  | ThinkingDelta t => VObject [("type", VString "thinking_delta"); ("thinking", VString t)]
  | InputJsonDelta j => VObject [("type", VString "input_json_delta"); ("partial_json", VString j)]
  end.
Definition opt_int (o : option Z) : Value := match o with Some z => vint z | None => VNull end.

(** The name of the event and its data. *)
Definition render (e : Event) : string * Value :=
  match e with
  | MessageStart id model i o cc cr =>
    ("message_start",
     VObject [("type", VString "message_start");
              ("message", VObject [("id", VString id); ("type", VString "message"); ("role", VString "assistant"); ("content", VArray []);
                                   ("model", VString model); ("stop_reason", VNull); ("stop_sequence", VNull);
                                   ("usage", VObject [("input_tokens", vint i); ("output_tokens", vint o);
                                                      ("cache_creation_input_tokens", opt_int cc); ("cache_read_input_tokens", opt_int cr)])])])
  | BlockStart i b => ("content_block_start", VObject [("type", VString "content_block_start"); ("index", vint i); ("content_block", block_json b)])
  | BlockDelta i d => ("content_block_delta", VObject [("type", VString "content_block_delta"); ("index", vint i); ("delta", delta_json d)])
  | BlockStop i => ("content_block_stop", VObject [("type", VString "content_block_stop"); ("index", vint i)])
  | MessageDelta r i o =>
    ("message_delta", VObject [("type", VString "message_delta"); ("delta", VObject [("stop_reason", VString r); ("stop_sequence", VNull)]);
                               ("usage", VObject [("input_tokens", vint i); ("output_tokens", vint o)])])
  | MessageStop => ("message_stop", VObject [("type", VString "message_stop")])
  end.

(** ** The transcoder *)

Record AnthropicStreamTranscoder := mkTranscoder {
  response_id : string;
  t_model : string;
  message_started : bool;
  content_block_index : Z;
  text_block_open : bool;
  thinking_block_open : bool;
  tool_block_map : gmap Z Z;
  tool_arg_buf : gmap Z string;
  input_tokens : Z;
  output_tokens : Z;
  cache_creation_input_tokens : option Z;
  cache_read_input_tokens : option Z;
  pending_stop_reason : option string;
}.

Definition new (id model : string) : AnthropicStreamTranscoder := mkTranscoder id model false 0 false false ∅ ∅ 0 0 None None None.

Notation T := AnthropicStreamTranscoder.
(** A piece of the code: the new state and the events it pushes. *)
Definition Step : Type := T -> T * list Event.
Definition skip : Step := fun t => (t, []).
Definition and_then (f g : Step) : Step := fun t => let '(t1, e1) := f t in let '(t2, e2) := g t1 in (t2, e1 ++ e2).
Definition emit (e : T -> Event) : Step := fun t => (t, [e t]).
Definition update (f : T -> T) : Step := fun t => (f t, []).
Definition for_each {A} (f : A -> Step) (l : list A) : Step := foldr (fun x k => and_then (f x) k) skip l.

(** Setters. *)
Definition set_blocks (idx : Z) (text thinking : bool) (t : T) : T :=
  mkTranscoder (response_id t) (t_model t) (message_started t) idx text thinking (tool_block_map t) (tool_arg_buf t)
    (input_tokens t) (output_tokens t) (cache_creation_input_tokens t) (cache_read_input_tokens t) (pending_stop_reason t).
Definition set_started (t : T) : T :=
  mkTranscoder (response_id t) (t_model t) true (content_block_index t) (text_block_open t) (thinking_block_open t) (tool_block_map t) (tool_arg_buf t)
    (input_tokens t) (output_tokens t) (cache_creation_input_tokens t) (cache_read_input_tokens t) (pending_stop_reason t).
Definition set_tools (m : gmap Z Z) (b : gmap Z string) (t : T) : T :=
  mkTranscoder (response_id t) (t_model t) (message_started t) (content_block_index t) (text_block_open t) (thinking_block_open t) m b
    (input_tokens t) (output_tokens t) (cache_creation_input_tokens t) (cache_read_input_tokens t) (pending_stop_reason t).
Definition set_tokens (i o : Z) (t : T) : T :=
  mkTranscoder (response_id t) (t_model t) (message_started t) (content_block_index t) (text_block_open t) (thinking_block_open t) (tool_block_map t) (tool_arg_buf t)
    i o (cache_creation_input_tokens t) (cache_read_input_tokens t) (pending_stop_reason t).
Definition set_pending (r : option string) (t : T) : T :=
  mkTranscoder (response_id t) (t_model t) (message_started t) (content_block_index t) (text_block_open t) (thinking_block_open t) (tool_block_map t) (tool_arg_buf t)
    (input_tokens t) (output_tokens t) (cache_creation_input_tokens t) (cache_read_input_tokens t) r.

(** Closing a block takes its index and moves to the next. *)
Definition close_thinking : Step := fun t =>
  if thinking_block_open t
  then (set_blocks (u32_add (content_block_index t) 1) (text_block_open t) false t, [BlockStop (content_block_index t)])
  else (t, []).
Definition close_text : Step := fun t =>
  if text_block_open t
  then (set_blocks (u32_add (content_block_index t) 1) false (thinking_block_open t) t, [BlockStop (content_block_index t)])
  else (t, []).
Definition close_open_block : Step := fun t => if thinking_block_open t then close_thinking t else close_text t.

Definition open_thinking : Step := fun t =>
  if thinking_block_open t then (t, [])
  else (set_blocks (content_block_index t) (text_block_open t) true t, [BlockStart (content_block_index t) ThinkingBlock]).
Definition open_text : Step := fun t =>
  if text_block_open t then (t, [])
  else (set_blocks (content_block_index t) true (thinking_block_open t) t, [BlockStart (content_block_index t) TextBlock]).

Definition take_usage (u : option StreamUsage) (t : T) : T :=
  match u with
  | None => t
  | Some u => set_tokens (match su_prompt_tokens u with Some z => wrap32 z | None => input_tokens t end)
                         (match su_completion_tokens u with Some z => wrap32 z | None => output_tokens t end) t
  end.

Definition start_message : Step := fun t =>
  if message_started t then (t, [])
  else (set_started t, [MessageStart (response_id t) (t_model t) (input_tokens t) (output_tokens t) (cache_creation_input_tokens t) (cache_read_input_tokens t)]).

Definition reasoning_delta (r : option string) : Step :=
  match r with
  | None => skip
  | Some r => if bool_decide (r = "") then skip
              else and_then close_text (and_then open_thinking (emit (fun t => BlockDelta (content_block_index t) (ThinkingDelta r))))
  end.

Definition text_delta (s : option string) : Step :=
  match s with
  | None => skip
  | Some s => if bool_decide (s = "") then skip
              else and_then close_thinking
                     (and_then open_text
                        (and_then (update (fun t => set_tokens (input_tokens t) (u32_add (output_tokens t) 1) t))
                           (emit (fun t => BlockDelta (content_block_index t) (TextDelta s)))))
  end.

Section transcoder.
Context (is_json : string -> bool).

Definition ends_with (p s : string) : bool := starts_with (string_rev p) (string_rev s).

(** The buffer of a call's arguments after a fragment. *)
Definition push_args (buf : option string) (args : string) : string :=
  let complete := starts_with "{" args && ends_with "}" args && is_json args in
  let has_existing := match buf with Some e => negb (bool_decide (e = "")) | None => false end in
  if complete && has_existing then args else default "" buf +:+ args.

Definition tool_start (tc : ToolCallDelta) : Step := fun t =>
  match td_id tc with
  | None => (t, [])
  | Some id =>
    let name := default "" (f ← td_function tc; fd_name f) in
    let idx := content_block_index t in
    (set_tools (<[td_index tc := idx]> (tool_block_map t)) (tool_arg_buf t)
       (set_blocks (u32_add idx 1) (text_block_open t) (thinking_block_open t) t), [BlockStart idx (ToolUseBlock id name)])
  end.

Definition tool_args (tc : ToolCallDelta) : Step := update (fun t =>
  match f ← td_function tc; fd_arguments f with
  | None => t
  | Some args =>
    if bool_decide (args = "") then t
    else set_tools (tool_block_map t) (<[td_index tc := push_args (tool_arg_buf t !! td_index tc) args]> (tool_arg_buf t)) t
  end).

Definition tool_deltas (l : option (list ToolCallDelta)) : Step :=
  match l with
  | None => skip
  | Some l => and_then close_open_block (for_each (fun tc => and_then (tool_start tc) (tool_args tc)) l)
  end.

(** The buffered arguments of a call, then the end of its block. *)
Definition flush_tool (k : Z) : Step := fun t =>
  match tool_block_map t !! k with
  | None => (t, [])
  | Some idx =>
    (set_tools (tool_block_map t) (delete k (tool_arg_buf t)) t,
     (match tool_arg_buf t !! k with
      | Some buf => if bool_decide (buf = "") then [] else [BlockDelta idx (InputJsonDelta buf)]
      | None => []
      end) ++ [BlockStop idx])
  end.

Definition tool_indices (t : T) : list Z := merge_sort Z.le (map_to_list (tool_block_map t)).*1.

Definition finish_reason_to_stop_reason (r : option string) : option string :=
  (fun r => if bool_decide (r = "stop") then "end_turn" else if bool_decide (r = "tool_calls") then "tool_use"
            else if bool_decide (r = "length") then "max_tokens" else r) <$> r.

Definition finish (r : option string) : Step :=
  match r with
  | None => skip
  | Some _ => and_then close_open_block (fun t =>
      and_then (for_each flush_tool (tool_indices t))
        (update (fun t => set_pending (finish_reason_to_stop_reason r) (set_tools ∅ (tool_arg_buf t) t))) t)
  end.

Definition choice (c : StreamChoice) : Step :=
  let d := sc_delta c in
  and_then start_message (and_then (reasoning_delta (d_reasoning_content d)) (and_then (text_delta (d_content d))
    (and_then (tool_deltas (d_tool_calls d)) (finish (sc_finish_reason c))))).

Definition finish_events (r : string) (t : T) : list Event := [MessageDelta r (input_tokens t) (Z.max (output_tokens t) 1); MessageStop].

Definition transcode (ck : ChatStreamChunk) : Step := fun t =>
  let t := take_usage (ck_usage ck) t in
  match pending_stop_reason t with
  | Some r => let t := set_pending None t in (t, finish_events r t)
  | None => for_each choice (ck_choices ck) t
  end.

Definition drain : Step := fun t =>
  match pending_stop_reason t with
  | Some r => let t := set_pending None t in (t, finish_events r t)
  | None => (t, [])
  end.

(** The task: the chunks of the upstream, where [None] is an error, until the end of
    the stream.  The receiver does not go away. *)
Inductive SseItem := Sse (e : Event) | SseError.

Fixpoint stream_items (l : list (option ChatStreamChunk)) (t : T) : list SseItem :=
  match l with
  | [] => Sse <$> (drain t).2
  | Some ck :: l' => let '(t', e) := transcode ck t in (Sse <$> e) ++ stream_items l' t'
  | None :: _ => [SseError]
  end.

(** The events of a stream that ends without an error. *)
Definition transcript (l : list ChatStreamChunk) (t : T) : list Event := (and_then (for_each transcode l) drain t).2.

(** ** The protocol of the events *)

Inductive Kind := KText | KThinking | KTool.
#[export] Instance Kind_eq_dec : EqDecision Kind.
Proof. solve_decision. Defined.
Definition block_kind (b : ContentBlock) : Kind := match b with TextBlock => KText | ThinkingBlock => KThinking | ToolUseBlock _ _ => KTool end.
Definition delta_kind (d : Delta) : Kind := match d with TextDelta _ => KText | ThinkingDelta _ => KThinking | InputJsonDelta _ => KTool end.

(** What a client that reads the events knows: whether the message has started, the
    index of the next block, and the open blocks. *)
Record Client := mkClient { cl_started : bool; cl_next : Z; cl_open : gmap Z Kind }.
Definition new_client : Client := mkClient false 0 ∅.

(** One event; [None] is a violation: a second start of the message, an event before it,
    a block with another index than the next, a delta for a block that is not open or of
    another kind, the end of a block that is not open. *)
Definition feed (c : Client) (e : Event) : option Client :=
  match e with
  | MessageStart _ _ _ _ _ _ => if cl_started c then None else Some (mkClient true (cl_next c) (cl_open c))
  | BlockStart i b => if cl_started c && (i =? cl_next c) then Some (mkClient true (i + 1) (<[i := block_kind b]> (cl_open c))) else None
  | BlockDelta i d => if bool_decide (cl_open c !! i = Some (delta_kind d)) then Some c else None
  | BlockStop i => match cl_open c !! i with Some _ => Some (mkClient (cl_started c) (cl_next c) (delete i (cl_open c))) | None => None end
  | MessageDelta _ _ _ | MessageStop => if cl_started c then Some c else None
  end.
Fixpoint feed_all (c : Client) (l : list Event) : option Client :=
  match l with [] => Some c | e :: l' => c' ← feed c e; feed_all c' l' end.

Definition is_body (e : Event) : bool := match e with MessageDelta _ _ _ | MessageStop => false | _ => true end.

(** *** The invariant *)

Definition open_blocks (t : T) : Z := if text_block_open t || thinking_block_open t then 1 else 0.

(** [n] blocks may still be started, and the calls in [ids] are still to come; the last
    field is kept when no call is announced twice. *)
Record Inv (tracked : bool) (n : Z) (ids : list Z) (t : T) (c : Client) : Prop := {
  inv_started : cl_started c = message_started t;
  inv_next : cl_next c = content_block_index t + open_blocks t;
  inv_bound : 0 <= content_block_index t /\ content_block_index t + open_blocks t + n < 2 ^ 32 /\ 0 <= n;
  inv_one : text_block_open t && thinking_block_open t = false;
  inv_text : text_block_open t = true -> cl_open c !! content_block_index t = Some KText;
  inv_thinking : thinking_block_open t = true -> cl_open c !! content_block_index t = Some KThinking;
  inv_tools : forall k i, tool_block_map t !! k = Some i -> cl_open c !! i = Some KTool;
  inv_inj : forall k k' i, tool_block_map t !! k = Some i -> tool_block_map t !! k' = Some i -> k = k';
  inv_below : forall i, is_Some (cl_open c !! i) -> i < cl_next c;
  inv_exact : tracked = true ->
    NoDup ids /\ (forall k, k ∈ ids -> tool_block_map t !! k = None)
    /\ forall i, is_Some (cl_open c !! i) -> (i = content_block_index t /\ open_blocks t = 1) \/ exists k, tool_block_map t !! k = Some i;
}.

(** A step keeps the invariant, from states in [Q] to states in [R]; it starts at most [n]
    blocks and announces the calls [l]. *)
Definition keeps (tracked : bool) (Q : T -> Prop) (f : Step) (n : Z) (l : list Z) (R : T -> Prop) : Prop :=
  forall t c n' l', Inv tracked (n + n') (l ++ l') t c -> 0 <= n' -> Q t ->
  exists c', feed_all c (f t).2 = Some c' /\ Inv tracked n' l' (f t).1 c' /\ R (f t).1 /\ Forall (fun e => is_body e = true) (f t).2.

Lemma feed_all_app c l k : feed_all c (l ++ k) = (c' ← feed_all c l; feed_all c' k).
Proof. revert c. induction l as [| e l IH]; intros c; cbn; [done |]. destruct (feed c e); [apply IH | done]. Qed.

Lemma and_then_eq f g t : and_then f g t = ((g (f t).1).1, (f t).2 ++ (g (f t).1).2).
Proof. unfold and_then. destruct (f t) as [t1 e1]. cbn. by destruct (g t1). Qed.

Lemma keeps_then b Q f n l R g m k S :
  keeps b Q f n l R -> keeps b R g m k S -> 0 <= m -> keeps b Q (and_then f g) (n + m) (l ++ k) S.
Proof.
  intros Hf Hg Hm t c n' l' Hi Hn HQ. rewrite and_then_eq. cbn [fst snd].
  rewrite <- Z.add_assoc, <- app_assoc in Hi. destruct (Hf _ _ _ _ Hi ltac:(lia) HQ) as (c1 & E1 & I1 & HR & B1).
  destruct (Hg _ _ _ _ I1 Hn HR) as (c2 & E2 & I2 & HS & B2). exists c2. rewrite feed_all_app, E1. cbn. split_and!; try done.
  by apply Forall_app.
Qed.

Lemma keeps_weaken b (Q Q' R R' : T -> Prop) f n l :
  keeps b Q f n l R -> (forall t, Q' t -> Q t) -> (forall t, R t -> R' t) -> keeps b Q' f n l R'.
Proof. intros Hf HQ HR t c n' l' Hi Hn Ht. destruct (Hf t c n' l' Hi Hn (HQ t Ht)) as (c' & ? & ? & ? & ?). exists c'. eauto. Qed.

Lemma keeps_skip b Q : keeps b Q skip 0 [] Q.
Proof. intros t c n' l' Hi _ HQ. exists c. by split_and!. Qed.

Lemma keeps_for_each b {A} Q (f : A -> Step) (n : A -> Z) (l : A -> list Z) xs :
  (forall x, keeps b Q (f x) (n x) (l x) Q) -> (forall x, 0 <= n x) -> keeps b Q (for_each f xs) (zsum n xs) (xs ≫= l) Q.
Proof.
  intros Hf Hn. induction xs as [| x xs IH]; [apply keeps_skip |]. cbn [for_each foldr]. rewrite zsum_cons, bind_cons.
  apply keeps_then with (R := Q); [apply Hf | exact IH | apply zsum_nonneg; auto].
Qed.

(** Giving up some of the budget. *)
Lemma keeps_spend b Q f n m l R : keeps b Q f n l R -> 0 <= n <= m -> keeps b Q f m l R.
Proof.
  intros Hf Hle t c n' l' Hi Hn HQ. apply Hf; [| done | done]. destruct Hi as [? ? [? [? ?]] ? ? ? ? ? ? ?]. constructor; try done. lia.
Qed.

Definition started (t : T) : Prop := message_started t = true.
Definition no_text (t : T) : Prop := started t /\ text_block_open t = false.
Definition no_thinking (t : T) : Prop := started t /\ thinking_block_open t = false.
Definition closed (t : T) : Prop := started t /\ text_block_open t = false /\ thinking_block_open t = false.
Definition in_text (t : T) : Prop := started t /\ text_block_open t = true.
Definition in_thinking (t : T) : Prop := started t /\ thinking_block_open t = true.

Lemma inv_spend b m n ids t c : Inv b (m + n) ids t c -> 0 <= m -> 0 <= n -> Inv b n ids t c.
Proof. intros [? ? [? [? ?]] ? ? ? ? ? ? ?] ? ?. constructor; try done. lia. Qed.

(** *** The pieces *)

Lemma close_thinking_keeps b : keeps b started close_thinking 0 [] no_thinking.
Proof.
  intros t c n' l' [Hs Hx Hb H1 Ht Hth Htl Hin Hbl He] _ HQ. unfold close_thinking. unfold open_blocks in *.
  destruct (thinking_block_open t) eqn:Eth.
  - rewrite orb_true_r in *. destruct (text_block_open t) eqn:Etx; [done |]. specialize (Hth eq_refl).
    exists (mkClient (cl_started c) (cl_next c) (delete (content_block_index t) (cl_open c))). cbn [snd fst feed_all feed]. rewrite Hth. cbn.
    assert (u32_add (content_block_index t) 1 = content_block_index t + 1) as -> by (apply u32_add_small; lia).
    split_and!; [done | | by split | by repeat constructor]. constructor; unfold open_blocks; cbn; try done; try lia.
    + intros k i Hk. rewrite lookup_delete_ne; [by apply (Htl k) |]. intros <-. specialize (Htl _ _ Hk). congruence.
    + intros i [x Hi]. apply Hbl. apply lookup_delete_Some in Hi as [_ ?]. eauto.
    + intros Hb'. destruct (He Hb') as (? & ? & Hex). split_and!; [done | done |]. intros i [x Hi]. apply lookup_delete_Some in Hi as [Hne Hi].
      destruct (Hex i ltac:(eauto)) as [[? _] | ?]; [congruence | by right].
  - exists c. cbn. split_and!; [done | constructor; unfold open_blocks; rewrite ?Eth; try done; try lia | by split | done].
Qed.

Lemma close_text_keeps b (Q : T -> Prop) : (forall t, Q t -> started t) -> (forall t i, Q t -> Q (set_blocks i false (thinking_block_open t) t)) ->
  keeps b Q close_text 0 [] (fun t => Q t /\ text_block_open t = false).
Proof.
  intros HQs HQc t c n' l' [Hs Hx Hb H1 Ht Hth Htl Hin Hbl He] _ HQ. unfold close_text. unfold open_blocks in *.
  destruct (text_block_open t) eqn:Etx.
  - destruct (thinking_block_open t) eqn:Eth; [done |]. specialize (Ht eq_refl). cbn in *.
    exists (mkClient (cl_started c) (cl_next c) (delete (content_block_index t) (cl_open c))). cbn [snd fst feed_all feed]. rewrite Ht. cbn.
    assert (u32_add (content_block_index t) 1 = content_block_index t + 1) as -> by (apply u32_add_small; lia).
    split_and!; [done | | | done | by apply Forall_singleton]; [| pose proof (HQc t (content_block_index t + 1) HQ) as HQ1; by rewrite Eth in HQ1].
    constructor; unfold open_blocks; cbn; try done; try lia.
    + intros k i Hk. rewrite lookup_delete_ne; [by apply (Htl k) |]. intros <-. specialize (Htl _ _ Hk). congruence.
    + intros i [x Hi]. apply Hbl. apply lookup_delete_Some in Hi as [_ ?]. eauto.
    + intros Hb'. destruct (He Hb') as (? & ? & Hex). split_and!; [done | done |]. intros i [x Hi]. apply lookup_delete_Some in Hi as [Hne Hi].
      destruct (Hex i ltac:(eauto)) as [[? _] | ?]; [congruence | by right].
  - exists c. cbn. split_and!; [done | constructor; unfold open_blocks; rewrite ?Etx; try done; try lia | done | done | done].
Qed.

Lemma close_open_keeps b : keeps b started close_open_block 0 [] closed.
Proof.
  intros t c n' l' Hi Hn HQ. unfold close_open_block. destruct (thinking_block_open t) eqn:Eth.
  - destruct (close_thinking_keeps b t c n' l' Hi Hn HQ) as (c' & E & I & [? ?] & B). exists c'. split_and!; try done. split_and!; try done.
    pose proof (inv_one _ _ _ _ _ Hi) as H1. rewrite Eth, andb_true_r in H1. unfold close_thinking. by rewrite Eth.
  - destruct (close_text_keeps b (fun t => started t /\ thinking_block_open t = false) ltac:(by intros ? [? _]) ltac:(by intros ? ? [? ?]) t c n' l' Hi Hn
      (conj HQ Eth)) as (c' & E & I & [[? ?] ?] & B). exists c'. by split_and!.
Qed.

Lemma open_thinking_keeps b : keeps b no_text open_thinking 1 [] in_thinking.
Proof.
  intros t c n' l' Hi Hn [HQ HQt]. unfold open_thinking. destruct (thinking_block_open t) eqn:Eth.
  - exists c. split_and!; [done | by apply (inv_spend _ 1) | by split | done].
  - destruct Hi as [Hs Hx Hb H1 Ht Hth Htl Hin Hbl He]. unfold open_blocks in *. rewrite HQt, Eth in *. cbn in *.
    exists (mkClient true (content_block_index t + 1) (<[content_block_index t := KThinking]> (cl_open c))). cbn [snd fst feed_all feed].
    rewrite Hs, HQ, Hx, Z.add_0_r, Z.eqb_refl. cbn. split_and!; [done | | by split | by repeat constructor].
    constructor; unfold open_blocks; cbn; try done; try lia.
    + intros _. by rewrite lookup_insert_eq.
    + intros k i Hk. specialize (Htl _ _ Hk). assert (i < content_block_index t) by (rewrite Hx, Z.add_0_r in Hbl; apply Hbl; eauto).
      by rewrite lookup_insert_ne by lia.
    + intros i [x Hi]. apply lookup_insert_Some in Hi as [[<- _] | [_ Hi]]; [lia |]. rewrite Hx in Hbl. specialize (Hbl i ltac:(eauto)). lia.
    + intros Hb'. destruct (He Hb') as (? & ? & Hex). split_and!; [done | done |]. intros i [x Hi]. apply lookup_insert_Some in Hi as [[<- _] | [_ Hi]]; [by left |].
      destruct (Hex i ltac:(eauto)) as [[_ ?] | ?]; [lia | by right].
Qed.

Lemma open_text_keeps b : keeps b no_thinking open_text 1 [] in_text.
Proof.
  intros t c n' l' Hi Hn [HQ HQt]. unfold open_text. destruct (text_block_open t) eqn:Etx.
  - exists c. split_and!; [done | by apply (inv_spend _ 1) | by split | done].
  - destruct Hi as [Hs Hx Hb H1 Ht Hth Htl Hin Hbl He]. unfold open_blocks in *. rewrite HQt, Etx in *. cbn in *.
    exists (mkClient true (content_block_index t + 1) (<[content_block_index t := KText]> (cl_open c))). cbn [snd fst feed_all feed].
    rewrite Hs, HQ, Hx, Z.add_0_r, Z.eqb_refl. cbn. split_and!; [done | | by split | by repeat constructor].
    constructor; unfold open_blocks; cbn; try done; try lia.
    + intros _. by rewrite lookup_insert_eq.
    + intros k i Hk. specialize (Htl _ _ Hk). assert (i < content_block_index t) by (rewrite Hx, Z.add_0_r in Hbl; apply Hbl; eauto).
      by rewrite lookup_insert_ne by lia.
    + intros i [x Hi]. apply lookup_insert_Some in Hi as [[<- _] | [_ Hi]]; [lia |]. rewrite Hx in Hbl. specialize (Hbl i ltac:(eauto)). lia.
    + intros Hb'. destruct (He Hb') as (? & ? & Hex). split_and!; [done | done |]. intros i [x Hi]. apply lookup_insert_Some in Hi as [[<- _] | [_ Hi]]; [by left |].
      destruct (Hex i ltac:(eauto)) as [[_ ?] | ?]; [lia | by right].
Qed.

(** Changes that the invariant does not see. *)
Definition same_blocks (t t' : T) : Prop :=
  message_started t' = message_started t /\ content_block_index t' = content_block_index t /\ text_block_open t' = text_block_open t
  /\ thinking_block_open t' = thinking_block_open t /\ tool_block_map t' = tool_block_map t.

Lemma inv_same b n ids t t' c : same_blocks t t' -> Inv b n ids t c -> Inv b n ids t' c.
Proof.
  intros (E1 & E2 & E3 & E4 & E5) [? ? ? ? ? ? ? ? ? ?]. unfold open_blocks in *.
  constructor; unfold open_blocks; rewrite ?E1, ?E2, ?E3, ?E4, ?E5; done.
Qed.

Lemma update_keeps b (Q : T -> Prop) f : (forall t, same_blocks t (f t)) -> (forall t, Q t -> Q (f t)) -> keeps b Q (update f) 0 [] Q.
Proof. intros Hf HQ t c n' l' Hi _ Ht. exists c. cbn. split_and!; [done | by eapply inv_same | by apply HQ | done]. Qed.

Lemma emit_text_keeps b s : keeps b in_text (emit (fun t => BlockDelta (content_block_index t) (TextDelta s))) 0 [] started.
Proof.
  intros t c n' l' Hi _ [Hs Ht]. exists c. cbn. rewrite (inv_text _ _ _ _ _ Hi Ht). rewrite bool_decide_eq_true_2 by done.
  split_and!; [done | done | done | by apply Forall_singleton].
Qed.
Lemma emit_thinking_keeps b s : keeps b in_thinking (emit (fun t => BlockDelta (content_block_index t) (ThinkingDelta s))) 0 [] started.
Proof.
  intros t c n' l' Hi _ [Hs Ht]. exists c. cbn. rewrite (inv_thinking _ _ _ _ _ Hi Ht). rewrite bool_decide_eq_true_2 by done.
  split_and!; [done | done | done | by apply Forall_singleton].
Qed.

Lemma reasoning_keeps b r : keeps b started (reasoning_delta r) 1 [] started.
Proof.
  destruct r as [r |]; cbn [reasoning_delta]; [case_bool_decide |]; [apply (keeps_spend _ _ _ 0); [apply keeps_skip | lia] | | apply (keeps_spend _ _ _ 0); [apply keeps_skip | lia]].
  apply (keeps_then b started _ 0 [] no_text _ 1 []); [by apply (close_text_keeps b started) | | lia].
  apply (keeps_then b no_text _ 1 [] in_thinking _ 0 []); [apply open_thinking_keeps | apply emit_thinking_keeps | lia].
Qed.

Lemma text_keeps b s : keeps b started (text_delta s) 1 [] started.
Proof.
  destruct s as [s |]; cbn [text_delta]; [case_bool_decide |]; [apply (keeps_spend _ _ _ 0); [apply keeps_skip | lia] | | apply (keeps_spend _ _ _ 0); [apply keeps_skip | lia]].
  apply (keeps_then b started _ 0 [] no_thinking _ 1 []); [apply close_thinking_keeps | | lia].
  apply (keeps_then b no_thinking _ 1 [] in_text _ 0 []); [apply open_text_keeps | | lia].
  apply (keeps_then b in_text _ 0 [] in_text _ 0 []); [by apply update_keeps | apply emit_text_keeps | lia].
Qed.

(** The call a delta announces. *)
Definition announced (tc : ToolCallDelta) : list Z := match td_id tc with Some _ => [td_index tc] | None => [] end.

Lemma tool_start_keeps b tc : keeps b closed (tool_start tc) 1 (announced tc) closed.
Proof.
  intros t c n' l' Hi Hn (HQ & Htx & Hth). unfold tool_start, announced in *. destruct (td_id tc) as [id |].
  - destruct Hi as [Hs Hx Hb H1 _ _ Htl Hin Hbl He]. unfold open_blocks in *. rewrite Htx, Hth in *. cbn in *.
    exists (mkClient true (content_block_index t + 1) (<[content_block_index t := KTool]> (cl_open c))). cbn [feed_all feed snd].
    rewrite Hs, HQ, Hx, Z.add_0_r, Z.eqb_refl. cbn. assert (u32_add (content_block_index t) 1 = content_block_index t + 1) as -> by (apply u32_add_small; lia).
    assert (forall i, is_Some (cl_open c !! i) -> i < content_block_index t) as Hlt by (intros i Hi; specialize (Hbl i Hi); lia).
    split_and!; [done | | by split_and! | by apply Forall_singleton].
    constructor; unfold open_blocks; cbn; rewrite ?Htx, ?Hth; cbn; try done; try lia.
    + intros k i [[_ <-] | [_ Hk]]%lookup_insert_Some; [by rewrite lookup_insert_eq |]. rewrite lookup_insert_ne; [by eapply Htl |].
      specialize (Hlt i ltac:(rewrite (Htl _ _ Hk); eauto)). lia.
    + intros k k' i [[<- <-] | [Hk Ei]]%lookup_insert_Some [[<- E] | [Hk' Ei']]%lookup_insert_Some; try done.
      * specialize (Hlt _ ltac:(rewrite (Htl _ _ Ei'); eauto)). lia.
      * subst i. specialize (Hlt _ ltac:(rewrite (Htl _ _ Ei); eauto)). lia.
      * by eapply Hin.
    + intros i [x Hi]. apply lookup_insert_Some in Hi as [[<- _] | [_ Hi]]; [lia |]. specialize (Hlt i ltac:(eauto)). lia.
    + intros Hb'. destruct (He Hb') as (Hnd & Hfresh & Hex). apply NoDup_cons in Hnd as [Hni Hnd]. split_and!; [done | |].
      * intros k Hk. rewrite lookup_insert_ne; [apply Hfresh; by right | intros E; rewrite <- E in *; done].
      * intros i [x Hi]. right. apply lookup_insert_Some in Hi as [[<- _] | [Hne Hi]]; [exists (td_index tc); by rewrite lookup_insert_eq |].
        destruct (Hex i ltac:(eauto)) as [[? _] | [k Hk]]; [done |]. exists k. rewrite lookup_insert_ne; [done |]. intros <-.
        specialize (Hfresh (td_index tc) ltac:(by left)). congruence.
  - exists c. split_and!; [done | by apply (inv_spend _ 1) | done | done].
Qed.

Lemma tool_args_keeps b tc : keeps b closed (tool_args tc) 0 [] closed.
Proof.
  apply update_keeps; intros t; destruct (td_function tc ≫= _); [case_bool_decide; done | done | |]; intros Hc; [by case_bool_decide | done].
Qed.

Definition tool_list (c : StreamChoice) : list ToolCallDelta := default [] (d_tool_calls (sc_delta c)).

Lemma zsum_one {A} (l : list A) : zsum (fun _ => 1) l = Z.of_nat (length l).
Proof. induction l as [| x l IH]; [done |]. rewrite zsum_cons, IH. cbn [length]. lia. Qed.

Lemma tool_deltas_keeps b l : keeps b started (tool_deltas l) (Z.of_nat (length (default [] l))) (default [] l ≫= announced) started.
Proof.
  destruct l as [l |]; [| apply keeps_skip]. cbn [tool_deltas default from_option id]. rewrite <- (zsum_one l), <- (app_nil_l (l ≫= announced)).
  replace (zsum (fun _ => 1) l) with (0 + zsum (fun _ => 1) l) by lia.
  apply (keeps_then b started _ 0 [] closed); [apply close_open_keeps | | apply zsum_nonneg; lia].
  apply (keeps_weaken b closed closed closed started); [| done | by intros t [? _]]. apply (keeps_for_each b closed _ (fun _ => 1) announced); [| lia].
  intros tc. rewrite <- (app_nil_r (announced tc)). change 1 with (1 + 0).
  apply keeps_then with (R := closed); [apply tool_start_keeps | apply tool_args_keeps | lia].
Qed.

(** The end of the tool blocks: exactly those of the calls [ks] are closed. *)
Lemma flush_all ks t c :
  NoDup ks -> (forall k, k ∈ ks -> exists i, tool_block_map t !! k = Some i /\ cl_open c !! i = Some KTool) ->
  (forall k k' i, tool_block_map t !! k = Some i -> tool_block_map t !! k' = Some i -> k = k') ->
  exists c', feed_all c (for_each flush_tool ks t).2 = Some c' /\ cl_started c' = cl_started c /\ cl_next c' = cl_next c
  /\ (forall j x, cl_open c' !! j = Some x <-> cl_open c !! j = Some x /\ forall k, k ∈ ks -> tool_block_map t !! k <> Some j)
  /\ same_blocks t (for_each flush_tool ks t).1 /\ Forall (fun e => is_body e = true) (for_each flush_tool ks t).2.
Proof.
  revert t c. induction ks as [| k ks IH]; intros t c Hnd Hks Hinj.
  { exists c. cbn. split_and!; try done. intros j x. split; [intros ?; split; [done |]; by intros k ?%elem_of_nil | by intros [? _]]. }
  apply NoDup_cons in Hnd as [Hk Hnd]. destruct (Hks k ltac:(by left)) as (i & Hi & Ho). cbn [for_each foldr]. rewrite and_then_eq.
  set (t1 := set_tools (tool_block_map t) (delete k (tool_arg_buf t)) t).
  set (e1 := match tool_arg_buf t !! k with Some buf => if bool_decide (buf = "") then [] else [BlockDelta i (InputJsonDelta buf)] | None => [] end).
  assert (flush_tool k t = (t1, e1 ++ [BlockStop i])) as E1 by (unfold flush_tool; by rewrite Hi). rewrite E1. cbn [fst snd].
  set (c1 := mkClient (cl_started c) (cl_next c) (delete i (cl_open c))).
  assert (feed_all c (e1 ++ [BlockStop i]) = Some c1) as Ef.
  { rewrite feed_all_app. assert (feed_all c e1 = Some c) as ->.
    { unfold e1. destruct (tool_arg_buf t !! k); [case_bool_decide |]; [done | cbn | done]. by rewrite bool_decide_eq_true_2. }
    cbn. by rewrite Ho. }
  destruct (IH t1 c1 Hnd) as (c' & E' & Hs' & Hn' & Hop & Hsb & Hbody); [| done |].
  { intros k' Hk'. destruct (Hks k' ltac:(by right)) as (i' & Hi' & Ho'). exists i'. split; [done |]. cbn. rewrite lookup_delete_ne; [done |].
    intros ->. assert (k = k') as -> by by eapply Hinj. done. }
  exists c'. fold (for_each flush_tool ks). rewrite feed_all_app, Ef. cbn [mbind option_bind]. split_and!; try done.
  - intros j x. rewrite Hop. cbn. rewrite lookup_delete_Some. split.
    + intros [[Hne Hj] Hall]. split; [done |]. intros k' [-> | Hk']%elem_of_cons; [by rewrite Hi; intros [= ->] | by apply Hall].
    + intros [Hj Hall]. split; [split; [| done] |].
      * intros ->. by apply (Hall k ltac:(by left)).
      * intros k' Hk'. apply Hall. by right.
  - apply Forall_app. split; [| done]. apply Forall_app. split; [| by apply Forall_singleton]. unfold e1.
    destruct (tool_arg_buf t !! k); [case_bool_decide |]; [done | by apply Forall_singleton | done].
Qed.

Lemma tool_indices_spec t k : k ∈ tool_indices t <-> is_Some (tool_block_map t !! k).
Proof.
  unfold tool_indices. rewrite (merge_sort_Permutation Z.le). rewrite list_elem_of_fmap. split.
  - intros ([k' i] & -> & Hk%elem_of_map_to_list). eauto.
  - intros [i Hi]. exists (k, i). split; [done |]. by apply elem_of_map_to_list.
Qed.
Lemma tool_indices_NoDup t : NoDup (tool_indices t).
Proof. unfold tool_indices. rewrite (merge_sort_Permutation Z.le). apply NoDup_fst_map_to_list. Qed.

(** The state after a finish: nothing is open. *)
Definition finished (r : option string) (t : T) : Prop :=
  closed t /\ match r with Some _ => tool_block_map t = ∅ /\ pending_stop_reason t = finish_reason_to_stop_reason r | None => True end.

Lemma finish_keeps b r : keeps b started (finish r) 0 [] (fun t => started t /\ match r with Some _ => finished r t | None => True end).
Proof.
  destruct r as [r |]; [| intros t c n' l' Hi _ HQ; exists c; by split_and!].
  unfold finish. apply (keeps_then b started _ 0 [] closed _ 0 []); [apply close_open_keeps | | lia].
  intros t c n' l' Hi Hn (HQ & Htx & Hth). rewrite and_then_eq. set (ks := tool_indices t).
  destruct (flush_all ks t c) as (c' & E & Hs' & Hn' & Hop & (S1 & S2 & S3 & S4 & S5) & Hbody).
  { apply tool_indices_NoDup. }
  { intros k Hk. apply tool_indices_spec in Hk as [i Hk]. exists i. split; [done |]. by apply (inv_tools _ _ _ _ _ Hi k). }
  { apply (inv_inj _ _ _ _ _ Hi). }
  set (t1 := (for_each flush_tool ks t).1) in *. destruct Hi as [Hs Hx Hb H1 _ _ Htl Hin Hbl He]. unfold open_blocks in *. rewrite Htx, Hth in *. cbn in *.
  exists c'. rewrite app_nil_r. split_and!; [done | | |  | done].
  - constructor; unfold open_blocks; cbn; rewrite ?S1, ?S2, ?S3, ?S4, ?Htx, ?Hth; cbn; try done; try lia; try congruence.
    + intros i [x Hi]. apply Hop in Hi as [Hi _]. rewrite Hn'. apply Hbl. eauto.
    + intros Hb'. destruct (He Hb') as (Hnd & _ & Hex). split_and!; [done | done |]. intros i [x Hi]. apply Hop in Hi as [Hi Hall].
      destruct (Hex i ltac:(eauto)) as [[_ ?] | [k Hk]]; [done |]. exfalso. apply (Hall k); [| done]. apply tool_indices_spec. eauto.
  - unfold started. cbn. by rewrite S1.
  - unfold finished, closed, started. cbn. by rewrite S1, S3, S4.
Qed.

Lemma start_keeps b : keeps b (fun _ => True) start_message 0 [] started.
Proof.
  intros t c n' l' Hi _ _. unfold start_message. destruct (message_started t) eqn:Es; [exists c; by split_and!|].
  exists (mkClient true (cl_next c) (cl_open c)). cbn. rewrite (inv_started _ _ _ _ _ Hi), Es. split_and!; [done | | done | by apply Forall_singleton].
  destruct Hi as [? ? ? ? ? ? ? ? ? ?]. by constructor.
Qed.

(** What a choice may start and announces. *)
Definition choice_blocks (c : StreamChoice) : Z := 2 + Z.of_nat (length (tool_list c)).
Definition choice_ids (c : StreamChoice) : list Z := tool_list c ≫= announced.

Lemma choice_keeps b ch : keeps b (fun _ => True) (choice ch) (choice_blocks ch) (choice_ids ch)
  (fun t => started t /\ match sc_finish_reason ch with Some _ => finished (sc_finish_reason ch) t | None => True end).
Proof.
  unfold choice, choice_blocks, choice_ids, tool_list. set (k := Z.of_nat _).
  replace (2 + k) with (0 + (1 + (1 + (k + 0)))) by lia. rewrite <- (app_nil_r (default [] _ ≫= announced)).
  change (?l ++ []) with ([] ++ ([] ++ ([] ++ (l ++ [])))).
  apply keeps_then with (R := started); [apply start_keeps | | lia].
  apply keeps_then with (R := started); [apply reasoning_keeps | | lia].
  apply keeps_then with (R := started); [apply text_keeps | | lia].
  apply keeps_then with (R := started); [apply tool_deltas_keeps | apply finish_keeps | lia].
Qed.

(** *** Fields that a step leaves alone *)

Definition frames {A} (f : T -> A) (g : Step) : Prop := forall t, f (g t).1 = f t.
Lemma frames_skip {A} (f : T -> A) : frames f skip.
Proof. done. Qed.
Lemma frames_then {A} (f : T -> A) g h : frames f g -> frames f h -> frames f (and_then g h).
Proof. intros Hg Hh t. rewrite and_then_eq. cbn. by rewrite Hh, Hg. Qed.
Lemma frames_for_each {A B} (f : T -> A) (g : B -> Step) l : (forall x, frames f (g x)) -> frames f (for_each g l).
Proof. intros Hg. induction l as [| x l IH]; [apply frames_skip | by apply frames_then]. Qed.

(** A field that the setters of the blocks, the tools and the start of the message leave
    alone; and one that the output tokens do not touch either. *)
Record calm {A} (f : T -> A) : Prop := {
  st_blocks : forall i a b t, f (set_blocks i a b t) = f t;
  st_tools : forall m b t, f (set_tools m b t) = f t;
  st_started : forall t, f (set_started t) = f t;
}.
Record stable {A} (f : T -> A) : Prop := {
  st_calm : calm f;
  st_output : forall o t, f (set_tokens (input_tokens t) o t) = f t;
}.
Lemma pending_stable : stable pending_stop_reason.
Proof. by repeat constructor. Qed.
Lemma input_stable : stable input_tokens.
Proof. by repeat constructor. Qed.
Lemma output_calm : calm output_tokens.
Proof. by constructor. Qed.

Lemma close_text_frames {A} (f : T -> A) : calm f -> frames f close_text.
Proof. intros Hf t. unfold close_text. destruct (text_block_open t); [apply (st_blocks _ Hf) | done]. Qed.
Lemma close_thinking_frames {A} (f : T -> A) : calm f -> frames f close_thinking.
Proof. intros Hf t. unfold close_thinking. destruct (thinking_block_open t); [apply (st_blocks _ Hf) | done]. Qed.
Lemma close_open_frames {A} (f : T -> A) : calm f -> frames f close_open_block.
Proof. intros Hf t. unfold close_open_block. destruct (thinking_block_open t); [by apply close_thinking_frames | by apply close_text_frames]. Qed.
Lemma open_text_frames {A} (f : T -> A) : calm f -> frames f open_text.
Proof. intros Hf t. unfold open_text. destruct (text_block_open t); [done | apply (st_blocks _ Hf)]. Qed.
Lemma start_frames {A} (f : T -> A) : calm f -> frames f start_message.
Proof. intros Hf t. unfold start_message. destruct (message_started t); [done | apply (st_started _ Hf)]. Qed.
Lemma reasoning_frames {A} (f : T -> A) r : calm f -> frames f (reasoning_delta r).
Proof.
  intros Hf. destruct r as [r |]; cbn; [case_bool_decide |]; [apply frames_skip | | apply frames_skip].
  apply frames_then; [by apply close_text_frames |]. apply frames_then; [| done].
  intros t. unfold open_thinking. destruct (thinking_block_open t); [done | apply (st_blocks _ Hf)].
Qed.
Lemma tools_frames {A} (f : T -> A) l : calm f -> frames f (tool_deltas l).
Proof.
  intros Hf. destruct l as [l |]; [| apply frames_skip]. apply frames_then; [by apply close_open_frames |].
  apply frames_for_each. intros tc. apply frames_then; intros t.
  - unfold tool_start. destruct (td_id tc); [cbn; by rewrite (st_tools _ Hf), (st_blocks _ Hf) | done].
  - unfold tool_args. cbn. destruct (td_function tc ≫= fd_arguments); [case_bool_decide; [done | apply (st_tools _ Hf)] | done].
Qed.
Lemma finish_frames {A} (f : T -> A) r : calm f -> (forall p t, f (set_pending p t) = f t) -> frames f (finish r).
Proof.
  intros Hf Hp. destruct r as [r |]; [| apply frames_skip]. apply frames_then; [by apply close_open_frames |].
  intros t. apply frames_then; [| intros t'; cbn; by rewrite Hp, (st_tools _ Hf)]. apply frames_for_each. intros k t'. unfold flush_tool.
  destruct (tool_block_map t' !! k); [apply (st_tools _ Hf) | done].
Qed.

Lemma deltas_frame {A} (f : T -> A) d : stable f ->
  frames f (and_then start_message (and_then (reasoning_delta (d_reasoning_content d)) (and_then (text_delta (d_content d)) (tool_deltas (d_tool_calls d))))).
Proof.
  intros [Hf Ho]. apply frames_then; [by apply start_frames |]. apply frames_then; [by apply reasoning_frames |]. apply frames_then; [| by apply tools_frames].
  destruct (d_content d) as [r |]; cbn; [case_bool_decide |]; [apply frames_skip | | apply frames_skip].
  apply frames_then; [by apply close_thinking_frames |]. apply frames_then; [by apply open_text_frames |]. apply frames_then; [| done]. intros t. apply Ho.
Qed.

Lemma choice_eq ch t : choice ch t =
  and_then (and_then start_message (and_then (reasoning_delta (d_reasoning_content (sc_delta ch))) (and_then (text_delta (d_content (sc_delta ch)))
    (tool_deltas (d_tool_calls (sc_delta ch)))))) (finish (sc_finish_reason ch)) t.
Proof. unfold choice. rewrite !and_then_eq. cbn [fst snd]. by rewrite <- !app_assoc. Qed.

Lemma choice_pending ch t : sc_finish_reason ch = None -> pending_stop_reason (choice ch t).1 = pending_stop_reason t.
Proof. intros Hr. rewrite choice_eq, and_then_eq, Hr. cbn. apply (deltas_frame _ _ pending_stable). Qed.

Lemma choice_input ch : frames input_tokens (choice ch).
Proof.
  intros t. rewrite choice_eq. apply frames_then; [apply (deltas_frame _ _ input_stable) | by apply finish_frames].
Qed.

(** The output tokens go up by one for a choice that speaks. *)
Definition speaks (ch : StreamChoice) : bool := match d_content (sc_delta ch) with Some s => negb (bool_decide (s = "")) | None => false end.
Definition tick (o : Z) (ch : StreamChoice) : Z := if speaks ch then u32_add o 1 else o.
Lemma choice_output ch t : output_tokens (choice ch t).1 = tick (output_tokens t) ch.
Proof.
  unfold choice, tick. rewrite !and_then_eq. cbn [fst]. rewrite (finish_frames _ _ output_calm), (tools_frames _ _ output_calm) by done.
  assert (forall t', output_tokens (text_delta (d_content (sc_delta ch)) t').1 = if speaks ch then u32_add (output_tokens t') 1 else output_tokens t') as ->.
  { intros t'. unfold speaks. destruct (d_content (sc_delta ch)) as [s |]; [| done]. cbn [text_delta]. case_bool_decide; [done |]. cbn [negb].
    rewrite !and_then_eq. cbn [emit update fst]. by rewrite <- (close_thinking_frames _ output_calm t'), <- (open_text_frames _ output_calm (close_thinking t').1). }
  by rewrite !(reasoning_frames _ _ output_calm), !(start_frames _ output_calm).
Qed.

(** *** Whole chunks *)

Definition chunk_blocks (ck : ChatStreamChunk) : Z := zsum choice_blocks (ck_choices ck).
Definition chunk_ids (ck : ChatStreamChunk) : list Z := ck_choices ck ≫= choice_ids.
(** The blocks and the calls of a stream. *)
Definition stream_blocks (l : list ChatStreamChunk) : Z := zsum chunk_blocks l.
Definition stream_ids (l : list ChatStreamChunk) : list Z := l ≫= chunk_ids.

Lemma choice_blocks_nonneg ch : 0 <= choice_blocks ch.
Proof. unfold choice_blocks. lia. Qed.
Lemma chunk_blocks_nonneg ck : 0 <= chunk_blocks ck.
Proof. apply zsum_nonneg. intros ? _. apply choice_blocks_nonneg. Qed.

(** The part of [keeps] that also holds of the end of the message. *)
Definition accepts (b : bool) (Q : T -> Prop) (f : Step) (n : Z) (l : list Z) (R : T -> Prop) : Prop :=
  forall t c n' l', Inv b (n + n') (l ++ l') t c -> 0 <= n' -> Q t -> exists c', feed_all c (f t).2 = Some c' /\ Inv b n' l' (f t).1 c' /\ R (f t).1.

Lemma accepts_then b Q f n l R g m k S :
  accepts b Q f n l R -> accepts b R g m k S -> 0 <= m -> accepts b Q (and_then f g) (n + m) (l ++ k) S.
Proof.
  intros Hf Hg Hm t c n' l' Hi Hn HQ. rewrite and_then_eq. cbn [fst snd].
  rewrite <- Z.add_assoc, <- app_assoc in Hi. destruct (Hf _ _ _ _ Hi ltac:(lia) HQ) as (c1 & E1 & I1 & HR).
  destruct (Hg _ _ _ _ I1 Hn HR) as (c2 & E2 & I2 & HS). exists c2. rewrite feed_all_app, E1. cbn. by split_and!.
Qed.
Lemma accepts_for_each b {A} Q (f : A -> Step) (n : A -> Z) (l : A -> list Z) xs :
  (forall x, accepts b Q (f x) (n x) (l x) Q) -> (forall x, 0 <= n x) -> accepts b Q (for_each f xs) (zsum n xs) (xs ≫= l) Q.
Proof.
  intros Hf Hn. induction xs as [| x xs IH]; [intros t c n' l' Hi _ HQ; exists c; by split_and! |].
  cbn [for_each foldr]. rewrite zsum_cons, bind_cons.
  apply accepts_then with (R := Q); [apply Hf | exact IH | apply zsum_nonneg; auto].
Qed.

(** A pending end is of a message that has started. *)
Definition pend_ok (t : T) : Prop := is_Some (pending_stop_reason t) -> started t.

Lemma take_usage_same u t : same_blocks t (take_usage u t).
Proof. unfold take_usage. by destruct u. Qed.
Lemma take_usage_pending u t : pending_stop_reason (take_usage u t) = pending_stop_reason t.
Proof. unfold take_usage. by destruct u. Qed.

Lemma finish_events_feed t c r : cl_started c = true -> feed_all c (finish_events r t) = Some c.
Proof. intros Hc. cbn. rewrite Hc. cbn. by rewrite Hc. Qed.

Lemma drain_accepts b : accepts b pend_ok drain 0 [] pend_ok.
Proof.
  intros t c n' l' Hi Hn HQ. unfold drain. destruct (pending_stop_reason t) as [r |] eqn:Er; [| exists c; by split_and!].
  exists c. assert (started t) as Hs by (apply HQ; rewrite Er; eauto). cbn [fst snd]. split_and!; [| by apply (inv_same b n' l' t) | by intros [? ?]].
  apply finish_events_feed. by rewrite (inv_started _ _ _ _ _ Hi).
Qed.

Lemma transcode_accepts b ck : accepts b pend_ok (transcode ck) (chunk_blocks ck) (chunk_ids ck) pend_ok.
Proof.
  intros t c n' l' Hi Hn HQ. unfold transcode. set (t0 := take_usage (ck_usage ck) t).
  assert (pend_ok t0) as HQ0.
  { unfold pend_ok, started, t0. rewrite take_usage_pending. by rewrite (proj1 (take_usage_same (ck_usage ck) t)). }
  assert (Inv b (chunk_blocks ck + n') (chunk_ids ck ++ l') t0 c) as Hi0 by (eapply inv_same; [apply take_usage_same | done]).
  clearbody t0. destruct (pending_stop_reason t0) as [r |] eqn:Er.
  - destruct (drain_accepts b t0 c n' l') as (c' & E & I & HQ1); [| done | done |].
    + destruct Hi0 as [? ? ? ? ? ? ? ? ? He]. pose proof (chunk_blocks_nonneg ck). constructor; try done; [lia |]. intros Hb.
      destruct (He Hb) as (Hnd & Hf & Hex). apply NoDup_app in Hnd as (_ & _ & ?). split_and!; [done | | done]. intros k Hk. apply Hf, elem_of_app. by right.
    + exists c'. unfold drain in *. by rewrite Er in *.
  - eapply (accepts_for_each b pend_ok choice choice_blocks choice_ids); try done; [| apply choice_blocks_nonneg].
    intros ch t1 c1 n1 l1 Hi1 Hn1 _. destruct (choice_keeps b ch t1 c1 n1 l1 Hi1 Hn1 I) as (c2 & E & I2 & [Hs _] & _). exists c2. split_and!; [done | done | by intros _].
Qed.

Lemma new_inv b n ids id model : 0 <= n < 2 ^ 32 -> (b = true -> NoDup ids) -> Inv b n ids (new id model) new_client.
Proof.
  intros Hn Hnd. constructor; unfold open_blocks; cbn; try done; try lia.
  - intros i [x Hx]. by rewrite lookup_empty in Hx.
  - intros Hb. split_and!; [by apply Hnd | done |]. intros i [x Hx]. by rewrite lookup_empty in Hx.
Qed.

(** A chunk in which no choice finishes. *)
Definition unfinished (ck : ChatStreamChunk) : Prop := Forall (fun ch => sc_finish_reason ch = None) (ck_choices ck).
Definition not_pending (t : T) : Prop := pending_stop_reason t = None.

Lemma choices_keep b l : Forall (fun ch => sc_finish_reason ch = None) l -> keeps b not_pending (for_each choice l) (zsum choice_blocks l) (l ≫= choice_ids) not_pending.
Proof.
  intros Hl. induction Hl as [| ch l Hch Hl IH]; [apply keeps_skip |]. cbn [for_each foldr]. rewrite zsum_cons, bind_cons.
  apply keeps_then with (R := not_pending); [| exact IH | apply zsum_nonneg; intros; apply choice_blocks_nonneg].
  intros t c n' l' Hi Hn HQ. destruct (choice_keeps b ch t c n' l' Hi Hn I) as (c' & E & I' & _ & B). exists c'. split_and!; try done.
  unfold not_pending. by rewrite choice_pending.
Qed.

(** The state after a chunk, when nothing is pending. *)
Lemma transcode_open ck t : not_pending t -> transcode ck t = for_each choice (ck_choices ck) (take_usage (ck_usage ck) t).
Proof. intros Ht. unfold transcode. by rewrite take_usage_pending, Ht. Qed.

Lemma on_usage_keeps b u Q f n l R : keeps b Q f n l R -> (forall t, Q t -> Q (take_usage u t)) -> keeps b Q (fun t => f (take_usage u t)) n l R.
Proof. intros Hf HQ t c n' l' Hi Hn Ht. apply Hf; [eapply inv_same; [apply take_usage_same | done] | done | by apply HQ]. Qed.

Lemma keeps_ext b Q f g n l R : keeps b Q f n l R -> (forall t, Q t -> g t = f t) -> keeps b Q g n l R.
Proof. intros Hf E t c n' l' Hi Hn HQ. rewrite E by done. by apply Hf. Qed.

Lemma transcode_keeps b ck : unfinished ck -> keeps b not_pending (transcode ck) (chunk_blocks ck) (chunk_ids ck) not_pending.
Proof.
  intros Hck. eapply keeps_ext; [| apply transcode_open]. apply on_usage_keeps; [by apply choices_keep |]. intros t. unfold not_pending. by rewrite take_usage_pending.
Qed.

Lemma chunks_keep b l : Forall unfinished l -> keeps b not_pending (for_each transcode l) (stream_blocks l) (stream_ids l) not_pending.
Proof.
  intros Hl. induction Hl as [| ck l Hck Hl IH]; [apply keeps_skip |]. unfold stream_blocks, stream_ids. cbn [for_each foldr]. rewrite zsum_cons, bind_cons.
  apply keeps_then with (R := not_pending); [by apply transcode_keeps | exact IH | apply zsum_nonneg; intros; apply chunk_blocks_nonneg].
Qed.

Lemma unfinished_pending ck t : unfinished ck -> not_pending t -> not_pending (transcode ck t).1.
Proof.
  intros Hck Ht. rewrite transcode_open by done. assert (not_pending (take_usage (ck_usage ck) t)) as H by (unfold not_pending; by rewrite take_usage_pending).
  revert H. generalize (take_usage (ck_usage ck) t). clear Ht. induction Hck as [| ch l Hch Hl IH]; intros t' Ht'; [done |].
  cbn [for_each foldr]. rewrite and_then_eq. cbn [fst]. apply IH. unfold not_pending. by rewrite choice_pending.
Qed.

(** A chunk whose last choice, and no other, finishes. *)
Definition finishing (ck : ChatStreamChunk) (r : string) : Prop :=
  exists l ch, ck_choices ck = l ++ [ch] /\ Forall (fun ch => sc_finish_reason ch = None) l /\ sc_finish_reason ch = Some r.

Lemma finishing_keeps b ck r : finishing ck r -> keeps b not_pending (transcode ck) (chunk_blocks ck) (chunk_ids ck) (finished (Some r)).
Proof.
  intros (l & ch & E & Hl & Hch). eapply keeps_ext; [| apply transcode_open].
  apply on_usage_keeps; [| intros t; unfold not_pending; by rewrite take_usage_pending].
  unfold chunk_blocks, chunk_ids. rewrite E, zsum_app, bind_app. cbn [mbind list_bind]. rewrite app_nil_r, zsum_cons. cbn [zsum foldr]. rewrite Z.add_0_r.
  eapply keeps_ext; [apply keeps_then with (R := not_pending) (f := for_each choice l) (g := choice ch) |].
  - by apply choices_keep.
  - eapply keeps_weaken; [apply choice_keeps | done |]. cbn. rewrite Hch. by intros t [_ ?].
  - apply choice_blocks_nonneg.
  - intros t _. clear. revert t. induction l as [| x l IH]; intros t; cbn [for_each foldr app]; rewrite !and_then_eq; cbn [fst snd].
    + by rewrite app_nil_r.
    + fold (for_each choice (l ++ [ch])) (for_each choice l). rewrite IH, and_then_eq. cbn. by rewrite app_assoc.
Qed.

(** *** After the last choice *)

Definition no_choices (ck : ChatStreamChunk) : Prop := ck_choices ck = [].

Lemma for_each_app {A} (f : A -> Step) l k t :
  for_each f (l ++ k) t = ((for_each f k (for_each f l t).1).1, (for_each f l t).2 ++ (for_each f k (for_each f l t).1).2).
Proof.
  revert t. induction l as [| x l IH]; intros t; cbn [app]; [by destruct (for_each f k t) eqn:E; cbn; rewrite E |].
  cbn [for_each foldr]. rewrite !and_then_eq. fold (for_each f (l ++ k)) (for_each f l). rewrite IH. cbn [fst snd]. by rewrite app_assoc.
Qed.

Lemma transcript_cons ck l t : transcript (ck :: l) t = (transcode ck t).2 ++ transcript l (transcode ck t).1.
Proof. unfold transcript. change (ck :: l) with ([ck] ++ l). rewrite !and_then_eq, for_each_app. cbn [for_each foldr]. rewrite and_then_eq. cbn. by rewrite app_nil_r, app_assoc. Qed.

(** What the task sends for a stream without errors. *)
Lemma stream_items_ok l t : stream_items (Some <$> l) t = Sse <$> transcript l t.
Proof.
  revert t. induction l as [| ck l IH]; intros t; [unfold transcript; by rewrite and_then_eq |]. rewrite transcript_cons, fmap_app, <- IH. cbn [fmap list_fmap stream_items]. by destruct (transcode ck t).
Qed.

Lemma quiet_chunks l t : Forall no_choices l -> not_pending t -> not_pending (for_each transcode l t).1 /\ (for_each transcode l t).2 = [].
Proof.
  revert t. induction l as [| ck l IH]; intros t Hl Ht; [done |]. apply Forall_cons in Hl as [Hck Hl].
  cbn [for_each foldr]. rewrite and_then_eq. fold (for_each transcode l). rewrite transcode_open, Hck by done. cbn.
  apply IH; [done |]. unfold not_pending. by rewrite take_usage_pending.
Qed.
Lemma drain_quiet t : not_pending t -> drain t = (t, []).
Proof. unfold drain. by intros ->. Qed.

(** The last chunks of a stream whose end is pending: the first of them, or else the end
    of the stream, ends the message. *)
Definition usage_of (l : list ChatStreamChunk) (t : T) : T := match l with [] => t | ck :: _ => take_usage (ck_usage ck) t end.
Lemma ending l t r : pending_stop_reason t = Some r -> Forall no_choices (tail l) ->
  (and_then (for_each transcode l) drain t).2 = finish_events r (set_pending None (usage_of l t)).
Proof.
  intros Hr Hl. rewrite and_then_eq. cbn [snd]. destruct l as [| ck l]; [cbn; unfold drain; by rewrite Hr |].
  cbn [for_each foldr tail usage_of] in *. rewrite and_then_eq. fold (for_each transcode l). cbn [fst snd].
  assert (transcode ck t = (set_pending None (take_usage (ck_usage ck) t), finish_events r (set_pending None (take_usage (ck_usage ck) t)))) as ->
    by (unfold transcode; by rewrite take_usage_pending, Hr). cbn [fst snd].
  destruct (quiet_chunks l (set_pending None (take_usage (ck_usage ck) t)) Hl eq_refl) as [Hp ->]. by rewrite (drain_quiet _ Hp), app_nil_r.
Qed.

(** The prompt tokens that the usage of the last chunk with a usage has. *)
Definition prompt_of (a : Z) (ck : ChatStreamChunk) : Z := match ck_usage ck with Some u => match su_prompt_tokens u with Some z => wrap32 z | None => a end | None => a end.
Lemma take_usage_input ck t : input_tokens (take_usage (ck_usage ck) t) = prompt_of (input_tokens t) ck.
Proof. unfold take_usage, prompt_of. by destruct (ck_usage ck). Qed.
Lemma transcode_input ck t : input_tokens (transcode ck t).1 = prompt_of (input_tokens t) ck.
Proof.
  unfold transcode. rewrite <- take_usage_input. generalize (take_usage (ck_usage ck) t). intros t'. destruct (pending_stop_reason t'); [done |].
  by apply frames_for_each, choice_input.
Qed.
Lemma chunks_input l t : input_tokens (for_each transcode l t).1 = foldl prompt_of (input_tokens t) l.
Proof.
  revert t. induction l as [| ck l IH]; intros t; [done |]. cbn [for_each foldr foldl]. rewrite and_then_eq. fold (for_each transcode l).
  cbn [fst]. by rewrite IH, transcode_input.
Qed.

(** The output tokens after a chunk: those of its usage, if it has some, and one for each
    choice that speaks. *)
Definition reported (o : Z) (ck : ChatStreamChunk) : Z := match ck_usage ck with Some u => match su_completion_tokens u with Some z => wrap32 z | None => o end | None => o end.
Definition counted (o : Z) (ck : ChatStreamChunk) : Z := foldl tick (reported o ck) (ck_choices ck).
Lemma take_usage_output ck t : output_tokens (take_usage (ck_usage ck) t) = reported (output_tokens t) ck.
Proof. unfold take_usage, reported. by destruct (ck_usage ck). Qed.
Lemma choices_output l t : output_tokens (for_each choice l t).1 = foldl tick (output_tokens t) l.
Proof. revert t. induction l as [| ch l IH]; intros t; [done |]. cbn [for_each foldr foldl]. rewrite and_then_eq. fold (for_each choice l). cbn [fst]. by rewrite IH, choice_output. Qed.
Lemma transcode_output ck t : not_pending t -> output_tokens (transcode ck t).1 = counted (output_tokens t) ck.
Proof. intros Ht. rewrite transcode_open by done. unfold counted. by rewrite <- take_usage_output, choices_output. Qed.
Lemma chunks_output l t : Forall unfinished l -> not_pending t -> output_tokens (for_each transcode l t).1 = foldl counted (output_tokens t) l /\ not_pending (for_each transcode l t).1.
Proof.
  intros Hl. revert t. induction Hl as [| ck l Hck Hl IH]; intros t Ht; [done |]. cbn [for_each foldr foldl]. rewrite and_then_eq. fold (for_each transcode l). cbn [fst].
  destruct (IH (transcode ck t).1) as [E Hp]; [by apply unfinished_pending |]. by rewrite E, transcode_output.
Qed.

Lemma finished_closed r t c : Inv true 0 [] t c -> finished (Some r) t -> cl_open c = ∅.
Proof.
  intros Hi [(_ & Htx & Hth) [Hm _]]. apply map_eq. intros i. rewrite lookup_empty. destruct (cl_open c !! i) as [x |] eqn:E; [| done].
  destruct (inv_exact _ _ _ _ _ Hi eq_refl) as (_ & _ & Hex). destruct (Hex i ltac:(eauto)) as [[_ Ho] | [k Hk]].
  - unfold open_blocks in Ho. by rewrite Htx, Hth in Ho.
  - by rewrite Hm, lookup_empty in Hk.
Qed.

Lemma wellformed_aux l id model : stream_blocks l < 2 ^ 32 -> is_Some (feed_all new_client (transcript l (new id model))).
Proof.
  intros Hb. assert (0 <= stream_blocks l) by (apply zsum_nonneg; intros; apply chunk_blocks_nonneg).
  destruct (accepts_then false pend_ok (for_each transcode l) (stream_blocks l) (stream_ids l) pend_ok drain 0 [] pend_ok) with
    (t := new id model) (c := new_client) (n' := 0) (l' := @nil Z) as (c' & E & _); [| apply drain_accepts | lia | | lia | by intros [? ?] | by exists c'].
  - apply accepts_for_each; [apply transcode_accepts | apply chunk_blocks_nonneg].
  - apply new_inv; [lia | done].
Qed.

(** C9: the Anthropic events of a stream keep the protocol that their readers rely on,
    whatever chunks the upstream sends, as long as it starts fewer than 2^32 blocks: the
    message starts once and before anything else, the blocks are numbered 0, 1, 2, … in the
    order in which they start, every delta is for a block that is open and has its kind,
    only an open block is stopped, and the message does not end before it has started. *)
Theorem stream_wellformed l id model : stream_blocks l < 2 ^ 32 -> is_Some (feed_all new_client (transcript l (new id model))).
Proof. apply wellformed_aux. Qed.

(** C8: a stream whose calls have indices of their own, in which no choice finishes before
    the last one, becomes a complete message: blocks of which each is stopped, then
    exactly one end of the message, then the stop.  The end has the finish reason in
    Anthropic's words, the last prompt tokens that the upstream reported up to the chunk
    after the finish, and as output tokens the last count that it reported up to there,
    plus one for each piece of text that came with it or after it, and one at least. *)
Theorem stream_complete pre fin post r r' id model :
  stream_blocks (pre ++ [fin]) < 2 ^ 32 -> NoDup (stream_ids (pre ++ [fin])) ->
  Forall unfinished pre -> finishing fin r -> Forall no_choices (tail post) -> finish_reason_to_stop_reason (Some r) = Some r' ->
  exists body c, transcript (pre ++ fin :: post) (new id model)
    = body ++ [MessageDelta r' (foldl prompt_of 0 (pre ++ fin :: take 1 post)) (Z.max (foldl reported (foldl counted 0 (pre ++ [fin])) (take 1 post)) 1); MessageStop]
  /\ Forall (fun e => is_body e = true) body /\ feed_all new_client body = Some c /\ cl_started c = true /\ cl_open c = ∅.
Proof.
  intros Hb Hnd Hpre Hfin Hpost Hr. set (t0 := new id model).
  assert (keeps true not_pending (for_each transcode (pre ++ [fin])) (stream_blocks (pre ++ [fin])) (stream_ids (pre ++ [fin])) (finished (Some r))) as Hk.
  { unfold stream_blocks, stream_ids. rewrite zsum_app, bind_app. eapply keeps_ext with (f := and_then (for_each transcode pre) (for_each transcode [fin])).
    - apply keeps_then with (R := not_pending); [by apply chunks_keep | | apply zsum_nonneg; intros; apply chunk_blocks_nonneg].
      cbn [for_each foldr zsum mbind list_bind]. apply keeps_then with (R := finished (Some r)); [by apply finishing_keeps | apply keeps_skip | lia].
    - intros t _. by rewrite for_each_app, and_then_eq. }
  destruct (Hk t0 new_client 0 []) as (c & E & Hi & Hf & B); [apply new_inv; rewrite ?app_nil_r, ?Z.add_0_r; [split; [apply zsum_nonneg; intros; apply chunk_blocks_nonneg | done] | done] | lia | done |].
  set (t1 := (for_each transcode (pre ++ [fin]) t0).1) in *. set (body := (for_each transcode (pre ++ [fin]) t0).2) in *.
  assert (output_tokens t1 = foldl counted 0 (pre ++ [fin])) as Eo.
  { unfold t1. rewrite for_each_app, foldl_app. cbn [fst foldl]. destruct (chunks_output pre t0 Hpre eq_refl) as [E' Hp]. change (output_tokens t0) with 0 in E'. rewrite <- E'.
    cbn [for_each foldr]. rewrite and_then_eq. by apply transcode_output. }
  exists body, c. split_and!; [| done | done | | by eapply finished_closed].
  - replace (pre ++ fin :: post) with ((pre ++ [fin]) ++ post) by by rewrite <- app_assoc.
    unfold transcript. rewrite and_then_eq, for_each_app. cbn [fst snd]. fold t1 body. rewrite <- app_assoc. f_equal.
    destruct Hf as [_ [_ Hp]]. rewrite Hr in Hp. pose proof (ending post t1 r' Hp Hpost) as He. rewrite and_then_eq in He. cbn [snd] in He. rewrite He.
    unfold finish_events. rewrite <- Eo. cbn. replace (pre ++ fin :: take 1 post) with ((pre ++ [fin]) ++ take 1 post) by by rewrite <- app_assoc. rewrite foldl_app.
    unfold t1. destruct post as [| ck post]; cbn; rewrite ?take_usage_input, ?take_usage_output, chunks_input; done.
  - rewrite (inv_started _ _ _ _ _ Hi). by destruct Hf as [[? _] _].
Qed.

(** *** The words of the answer *)

Definition joined {A} (f : A -> string) (l : list A) : string := foldr (fun x acc => f x +:+ acc) "" l.
Lemma joined_app {A} (f : A -> string) l k : joined f (l ++ k) = joined f l +:+ joined f k.
Proof. induction l as [| x l IH]; [done |]. cbn [app joined foldr]. change (foldr _ _ (l ++ k)) with (joined f (l ++ k)). rewrite IH. by rewrite append_assoc. Qed.

(** The text, or the thinking, that an event adds, and that a choice has. *)
Definition ev_says (thinking : bool) (e : Event) : string :=
  match e with
  | BlockDelta _ (TextDelta s) => if thinking then "" else s
  | BlockDelta _ (ThinkingDelta s) => if thinking then s else ""
  | _ => ""
  end.
Definition choice_says (thinking : bool) (c : StreamChoice) : string :=
  default "" (if thinking then d_reasoning_content (sc_delta c) else d_content (sc_delta c)).
Definition chunk_says (thinking : bool) (ck : ChatStreamChunk) : string := joined (choice_says thinking) (ck_choices ck).

Definition says (th : bool) (f : Step) (s : string) : Prop := forall t, joined (ev_says th) (f t).2 = s.

Lemma says_then th f g s u : says th f s -> says th g u -> says th (and_then f g) (s +:+ u).
Proof. intros Hf Hg t. rewrite and_then_eq. cbn [snd]. by rewrite joined_app, Hf, Hg. Qed.
Lemma says_nothing th f g : says th f "" -> says th g "" -> says th (and_then f g) "".
Proof. intros Hf Hg. by apply (says_then th f g "" ""). Qed.
Lemma nothing_then th f g u : says th f "" -> says th g u -> says th (and_then f g) u.
Proof. intros Hf Hg. by apply (says_then th f g "" u). Qed.
Lemma says_for_each {A} th (f : A -> Step) (s : A -> string) l : (forall x, says th (f x) (s x)) -> says th (for_each f l) (joined s l).
Proof. intros Hf. induction l as [| x l IH]; [by intros t |]. by apply says_then. Qed.
Lemma says_nothing_each {A} th (f : A -> Step) l : (forall x, says th (f x) "") -> says th (for_each f l) "".
Proof. intros Hf. induction l as [| x l IH]; [by intros t | by apply says_nothing]. Qed.

Lemma close_text_says th : says th close_text "".
Proof. intros t. unfold close_text. by destruct (text_block_open t). Qed.
Lemma close_thinking_says th : says th close_thinking "".
Proof. intros t. unfold close_thinking. by destruct (thinking_block_open t). Qed.
Lemma close_open_says th : says th close_open_block "".
Proof. intros t. unfold close_open_block. destruct (thinking_block_open t); [apply close_thinking_says | apply close_text_says]. Qed.

Lemma finish_says th r : says th (finish r) "".
Proof.
  destruct r; [| by intros t]. apply says_nothing; [apply close_open_says |]. intros t. apply (says_nothing th); [| by intros ?].
  apply says_nothing_each. intros k t'. unfold flush_tool. destruct (tool_block_map t' !! k); [| done]. cbn [snd]. rewrite joined_app.
  destruct (tool_arg_buf t' !! k); [by case_bool_decide | done].
Qed.

Lemma tools_say th l : says th (tool_deltas l) "".
Proof.
  destruct l as [l |]; [| by intros t]. apply says_nothing; [apply close_open_says |]. apply says_nothing_each. intros tc.
  apply says_nothing; intros t; [| done]. unfold tool_start. by destruct (td_id tc).
Qed.

Lemma choice_speaks th ch : says th (choice ch) (choice_says th ch).
Proof.
  apply nothing_then; [intros t; unfold start_message; by destruct (message_started t) |].
  replace (choice_says th ch) with ((if th then default "" (d_reasoning_content (sc_delta ch)) else "") +:+ ((if th then "" else default "" (d_content (sc_delta ch))) +:+ ""))
    by (unfold choice_says; destruct th; by rewrite ?append_nil_r).
  apply says_then; [| apply says_then; [| apply says_nothing; [apply tools_say | apply finish_says]]].
  - destruct (d_reasoning_content (sc_delta ch)) as [r |]; cbn [reasoning_delta default from_option id]; [| intros t; by destruct th].
    case_bool_decide as E; [subst; intros t; by destruct th |]. apply nothing_then; [apply close_text_says |].
    apply nothing_then; [intros t; unfold open_thinking; by destruct (thinking_block_open t) |]. intros t. cbn. by destruct th; rewrite ?append_nil_r.
  - destruct (d_content (sc_delta ch)) as [r |]; cbn [text_delta default from_option id]; [| intros t; by destruct th].
    case_bool_decide as E; [subst; intros t; by destruct th |]. apply nothing_then; [apply close_thinking_says |].
    apply nothing_then; [intros t; unfold open_text; by destruct (text_block_open t) |]. apply nothing_then; [by intros t |].
    intros t. cbn. by destruct th; rewrite ?append_nil_r.
Qed.

Lemma transcode_speaks th ck t : not_pending t -> joined (ev_says th) (transcode ck t).2 = chunk_says th ck.
Proof. intros Ht. rewrite transcode_open by done. by apply says_for_each, choice_speaks. Qed.

Lemma chunks_speak th l t : Forall unfinished l -> not_pending t ->
  joined (ev_says th) (for_each transcode l t).2 = joined (chunk_says th) l /\ not_pending (for_each transcode l t).1.
Proof.
  intros Hl. revert t. induction Hl as [| ck l Hck Hl IH]; intros t Ht; [done |]. cbn [for_each foldr]. rewrite and_then_eq. cbn [fst snd].
  destruct (IH (transcode ck t).1 (unfinished_pending _ _ Hck Ht)) as [IH1 IH2]. split; [| exact IH2].
  rewrite joined_app, transcode_speaks by done. cbn [joined foldr]. f_equal. exact IH1.
Qed.

Lemma ending_says th l t : Forall no_choices l -> joined (ev_says th) (and_then (for_each transcode l) drain t).2 = "".
Proof.
  intros Hl. revert t. assert (says th (and_then (for_each transcode l) drain) "") as H; [| exact H].
  apply says_nothing; [| intros t; unfold drain; by destruct (pending_stop_reason t)].
  induction Hl as [| ck l Hck Hl IH]; [by intros t |]. apply says_nothing; [| exact IH].
  intros t. unfold transcode. rewrite Hck. by destruct (pending_stop_reason _).
Qed.

(** No word of the answer is lost, repeated or moved: the text deltas of the events,
    put together, are the contents of the chunks, and the thinking deltas are their
    reasoning, for any stream whose choices end with the chunk in which the first of them
    finishes. *)
Theorem stream_content th pre fin post id model : Forall unfinished pre -> Forall no_choices post ->
  joined (ev_says th) (transcript (pre ++ fin :: post) (new id model)) = joined (chunk_says th) (pre ++ fin :: post).
Proof.
  intros Hpre Hpost. destruct (chunks_speak th pre (new id model) Hpre eq_refl) as [E1 Hp]. unfold transcript. rewrite and_then_eq, for_each_app. cbn [fst snd].
  rewrite !joined_app, E1. cbn [for_each foldr]. rewrite and_then_eq. cbn [fst snd]. rewrite joined_app, transcode_speaks by done.
  pose proof (ending_says th post (transcode fin (for_each transcode pre (new id model)).1).1 Hpost) as He.
  rewrite and_then_eq in He. cbn [snd] in He. rewrite joined_app in He.
  replace (joined (chunk_says th) (fin :: post)) with (chunk_says th fin).
  - rewrite !append_assoc. f_equal. etransitivity; [| apply append_nil_r]. f_equal. exact He.
  - cbn. transitivity (chunk_says th fin +:+ ""); [by rewrite append_nil_r |]. f_equal. symmetry. clear -Hpost.
    induction Hpost as [| ck l Hck Hl IH]; [done |]. cbn. unfold chunk_says at 1. rewrite Hck. exact IH.
Qed.

(** ** The arguments of a call *)

(** A chunk with a piece of the arguments of one call. *)
Definition call_chunk (id name : option string) (args : string) (fin : option string) : ChatStreamChunk :=
  mkChunk [mkChoice 0 (mkDelta None None (Some [mkToolDelta 0 id None (Some (mkFunctionDelta name (Some args)))]) None) fin] None.
(** The pieces [l] after the first, the last of them in the chunk that finishes. *)
Fixpoint call_chunks (l : list string) : list ChatStreamChunk :=
  match l with
  | [] => []
  | [a] => [call_chunk None None a (Some "tool_calls")]
  | a :: l' => call_chunk None None a None :: call_chunks l'
  end.
Definition call_stream (cid name first : string) (l : list string) : list ChatStreamChunk := call_chunk (Some cid) (Some name) first None :: call_chunks l.
Definition assembled (first : string) (l : list string) : string := foldl (fun b a => push_args (Some b) a) first l.

Definition args_state (id model buf : string) (p : option string) : T :=
  mkTranscoder id model true 1 false false (match p with Some _ => ∅ | None => {[0 := 0]} end) (match p with Some _ => ∅ | None => {[0 := buf]} end) 0 0 None None p.

Lemma push_first a : push_args None a = a.
Proof. unfold push_args. by rewrite andb_false_r. Qed.

Lemma call_first cid name a id model : a <> "" ->
  transcode (call_chunk (Some cid) (Some name) a None) (new id model) =
  (args_state id model a None, [MessageStart id model 0 0 None None; BlockStart 0 (ToolUseBlock cid name)]).
Proof.
  intros Ha. cbn -[push_args u32_add]. rewrite bool_decide_eq_false_2 by done. rewrite lookup_empty, push_first. done.
Qed.
Lemma call_deltas a buf id model : a <> "" ->
  and_then start_message (and_then (reasoning_delta None) (and_then (text_delta None) (tool_deltas (Some [mkToolDelta 0 None None (Some (mkFunctionDelta None (Some a)))]))))
    (args_state id model buf None) = (args_state id model (push_args (Some buf) a) None, []).
Proof.
  intros Ha. cbn -[push_args]. rewrite bool_decide_eq_false_2 by done. unfold set_tools, args_state. cbn -[push_args].
  by rewrite lookup_singleton_eq, insert_singleton_eq.
Qed.
Lemma call_piece a buf fin id model : a <> "" ->
  transcode (call_chunk None None a fin) (args_state id model buf None) = finish fin (args_state id model (push_args (Some buf) a) None).
Proof.
  intros Ha. rewrite transcode_open by done. cbn [call_chunk ck_choices for_each foldr ck_usage take_usage].
  rewrite and_then_eq, choice_eq, and_then_eq. cbn [sc_finish_reason sc_delta d_reasoning_content d_content d_tool_calls].
  rewrite call_deltas by done. cbn [fst snd skip app]. rewrite app_nil_r. by destruct (finish _ _).
Qed.

Lemma finish_call buf id model : buf <> "" ->
  finish (Some "tool_calls") (args_state id model buf None) = (args_state id model "" (Some "tool_use"), [BlockDelta 0 (InputJsonDelta buf); BlockStop 0]).
Proof.
  intros Hb. set (t := args_state id model buf None). unfold finish. rewrite and_then_eq.
  assert (close_open_block t = (t, [])) as -> by done. cbn [fst snd app]. rewrite and_then_eq.
  assert (tool_indices t = [0]) as -> by (unfold tool_indices, t; cbn; by rewrite map_to_list_singleton).
  cbn [for_each foldr]. rewrite !and_then_eq. unfold flush_tool, t, args_state. cbn.
  rewrite lookup_singleton_eq. cbn. rewrite lookup_singleton_eq, (bool_decide_eq_false_2 (buf = "")) by done. cbn. unfold set_pending, set_tools. cbn. by rewrite delete_singleton_eq.
Qed.

Lemma push_nonempty buf a : a <> "" -> push_args (Some buf) a <> "".
Proof. intros Ha. unfold push_args. case_match; [done |]. cbn. destruct buf; [done |]. by rewrite append_cons. Qed.

Lemma call_rest l buf id model : Forall (fun a => a <> "") l -> l <> [] ->
  for_each transcode (call_chunks l) (args_state id model buf None) =
  (args_state id model "" (Some "tool_use"), [BlockDelta 0 (InputJsonDelta (assembled buf l)); BlockStop 0]).
Proof.
  revert buf. induction l as [| a l IH]; intros buf Hl Hne; [done |]. apply Forall_cons in Hl as [Hal Hl]. destruct l as [| a' l].
  - cbn [call_chunks for_each foldr]. rewrite and_then_eq, call_piece, finish_call by (try apply push_nonempty; done). done.
  - change (call_chunks (a :: a' :: l)) with ([call_chunk None None a None] ++ call_chunks (a' :: l)). rewrite for_each_app. cbn [for_each foldr].
    rewrite and_then_eq, call_piece by done. unfold finish, skip. cbn [fst snd app]. by rewrite IH.
Qed.

Lemma call_transcript cid name first l id model : Forall (fun a => a <> "") (first :: l) -> l <> [] ->
  transcript (call_stream cid name first l) (new id model) =
  [MessageStart id model 0 0 None None; BlockStart 0 (ToolUseBlock cid name); BlockDelta 0 (InputJsonDelta (assembled first l)); BlockStop 0;
   MessageDelta "tool_use" 0 1; MessageStop].
Proof.
  intros [Hf Hl]%Forall_cons Hne. unfold transcript, call_stream. rewrite and_then_eq. cbn [for_each foldr]. rewrite and_then_eq, call_first by done. cbn [fst snd].
  fold (for_each transcode (call_chunks l)). rewrite call_rest by done. done.
Qed.

(** A piece that the code takes for all the arguments. *)
Definition looks_complete (a : string) : bool := starts_with "{" a && ends_with "}" a && is_json a.

Lemma assembled_plain first l : Forall (fun a => looks_complete a = false) l -> assembled first l = first +:+ joined id l.
Proof.
  revert first. induction l as [| a l IH]; intros first Hl; cbn; [by rewrite append_nil_r |]. apply Forall_cons in Hl as [Ha Hl].
  change (foldl _ ?b l) with (assembled b l). rewrite IH by done. unfold push_args. fold (looks_complete a). rewrite Ha. cbn. by rewrite append_assoc.
Qed.

(** The arguments of a call reach the client in one piece, when the call ends: the
    pieces put together, when none after the first is an object by itself; the last piece
    alone, when it is (an upstream that repeats all the arguments at the end). *)
Theorem arguments_exact cid name first l a id model :
  Forall (fun a => a <> "") (first :: l ++ [a]) -> Forall (fun a => looks_complete a = false) l ->
  transcript (call_stream cid name first (l ++ [a])) (new id model) =
  [MessageStart id model 0 0 None None; BlockStart 0 (ToolUseBlock cid name);
   BlockDelta 0 (InputJsonDelta (if looks_complete a then a else first +:+ joined (fun x => x) (l ++ [a]))); BlockStop 0;
   MessageDelta "tool_use" 0 1; MessageStop].
Proof.
  intros Hn Hl. rewrite call_transcript by (try done; by destruct l). repeat f_equal. destruct (looks_complete a) eqn:Ea.
  - unfold assembled. rewrite foldl_snoc. fold (assembled first l). rewrite assembled_plain by done. unfold push_args. fold (looks_complete a). rewrite Ea.
    apply Forall_cons in Hn as [Hf _]. destruct first; [done |]. done.
  - apply assembled_plain, Forall_app. split; [done | by apply Forall_singleton].
Qed.

(** A piece of a call's arguments that is an object by itself is taken for the
    repetition of all of them: what came before it is dropped.  Of the arguments
    [{a: {}}] that arrive as [{a:], [{}] and [}], the client gets [{}}]. *)
Theorem fragment_overwrites first cid name rest id model :
  first <> "" -> rest <> "" -> looks_complete rest = false -> is_json "{}" = true ->
  exists pre post, transcript (call_stream cid name first ["{}"; rest]) (new id model) = pre ++ BlockDelta 0 (InputJsonDelta ("{}" +:+ rest)) :: post
  /\ Forall (fun e => forall i j, e <> BlockDelta i (InputJsonDelta j)) (pre ++ post).
Proof.
  intros Hf Hr Hc Hj. exists [MessageStart id model 0 0 None None; BlockStart 0 (ToolUseBlock cid name)], [BlockStop 0; MessageDelta "tool_use" 0 1; MessageStop].
  rewrite call_transcript by (repeat constructor; done). split; [| by repeat constructor].
  cbn [app]. repeat f_equal. cbn. unfold push_args at 2. rewrite Hj. cbn. rewrite (bool_decide_eq_false_2 (first = "")) by done. cbn.
  unfold push_args. fold (looks_complete rest). by rewrite Hc.
Qed.

End transcoder.

(** ** A stream *)

(** The texts that the demo takes for JSON. *)
Definition demo_json (s : string) : bool := bool_decide (s = "{}").
Definition say (th txt : option string) (fin : option string) : ChatStreamChunk := mkChunk [mkChoice 0 (mkDelta None txt None th) fin] None.
Definition demo_usage : ChatStreamChunk := mkChunk [] (Some (mkUsage (Some 12) (Some 34) (Some 46) None)).
Definition demo_pre : list ChatStreamChunk := [say (Some "hm") None None; say None (Some "Let me ") None; say None (Some "see.") None; call_chunk (Some "call_1") (Some "f") "{x" None].
Definition demo_fin : ChatStreamChunk := call_chunk None None "}" (Some "tool_calls").

Example demo_transcript : transcript demo_json (demo_pre ++ demo_fin :: [demo_usage]) (new "msg_1" "m") =
  [MessageStart "msg_1" "m" 0 0 None None;
   BlockStart 0 ThinkingBlock; BlockDelta 0 (ThinkingDelta "hm"); BlockStop 0;
   BlockStart 1 TextBlock; BlockDelta 1 (TextDelta "Let me "); BlockDelta 1 (TextDelta "see."); BlockStop 1;
   BlockStart 2 (ToolUseBlock "call_1" "f"); BlockDelta 2 (InputJsonDelta "{x}"); BlockStop 2;
   MessageDelta "tool_use" 12 34; MessageStop].
Proof. vm_compute. reflexivity. Qed.

Lemma stream_wellformed_witness :
  is_Some (feed_all new_client (transcript demo_json (demo_pre ++ demo_fin :: [demo_usage]) (new "msg_1" "m"))).
Proof. apply stream_wellformed. vm_compute. reflexivity. Defined.

Lemma stream_complete_witness :
  exists body c, transcript demo_json (demo_pre ++ demo_fin :: [demo_usage]) (new "msg_1" "m") = body ++ [MessageDelta "tool_use" 12 34; MessageStop]
  /\ Forall (fun e => is_body e = true) body /\ feed_all new_client body = Some c /\ cl_started c = true /\ cl_open c = ∅.
Proof.
  apply (stream_complete demo_json demo_pre demo_fin [demo_usage] "tool_calls" "tool_use" "msg_1" "m").
  - vm_compute. reflexivity.
  - vm_compute. repeat constructor; set_solver.
  - repeat constructor.
  - exists [], (mkChoice 0 (mkDelta None None (Some [mkToolDelta 0 None None (Some (mkFunctionDelta None (Some "}")))]) None) (Some "tool_calls")). by repeat constructor.
  - constructor.
  - reflexivity.
Defined.

Lemma stream_content_witness :
  joined (ev_says false) (transcript demo_json (demo_pre ++ demo_fin :: [demo_usage]) (new "msg_1" "m")) = "Let me see.".
Proof. rewrite (stream_content demo_json false demo_pre demo_fin [demo_usage] "msg_1" "m"); [vm_compute; reflexivity | by repeat constructor | by repeat constructor]. Defined.

Lemma arguments_exact_witness :
  transcript demo_json (call_stream "call_1" "f" "{x" (["y"] ++ ["}"])) (new "msg_1" "m") =
  [MessageStart "msg_1" "m" 0 0 None None; BlockStart 0 (ToolUseBlock "call_1" "f"); BlockDelta 0 (InputJsonDelta "{xy}"); BlockStop 0;
   MessageDelta "tool_use" 0 1; MessageStop].
Proof. apply (arguments_exact demo_json "call_1" "f" "{x" ["y"] "}" "msg_1" "m"); by repeat constructor. Defined.

(** The arguments [{"a":{}}] in three pieces. *)
Definition demo_key : string := String "{" (String "034" (String "a" (String "034" ":"))).
Lemma fragment_overwrites_witness :
  exists pre post, transcript demo_json (call_stream "call_1" "f" demo_key ["{}"; "}"]) (new "msg_1" "m") = pre ++ BlockDelta 0 (InputJsonDelta "{}}") :: post
  /\ Forall (fun e => forall i j, e <> BlockDelta i (InputJsonDelta j)) (pre ++ post).
Proof. by apply (fragment_overwrites demo_json demo_key "call_1" "f" "}" "msg_1" "m"). Defined.

End Transcoder.
