(* ===== verification/Chat.v ===== *)
(** * Chat: requests and answers of the chat API, and the providers that speak it

    Models the request and the answer of [boom-core/src/types.rs] with their JSON
    ([Serialize] and, for the chunks of a stream, [Deserialize]), the conversion of a
    legacy completion request, and what [boom-provider/src/openai.rs] and [azure.rs]
    send.  HTTP itself is not modelled. *)

From S2P Require Import Prelude Text Float64 Json Messages Transcoder.

Module Chat.
Import Json Messages.

(** ** The request *)

Inductive StopSequence := Single (s : string) | Multiple (l : list string).
Record ToolFunction := mkToolFunction { tf_name : string; tf_description : option string; tf_parameters : Value }.
(** [Tool] of the source, a name that a role has here. *)
Record FunctionTool := mkTool { tool_type : string; tool_function : ToolFunction }.

Record ChatCompletionRequest := mkRequest {
  r_model : string;
  messages : list Message;
  max_tokens : option Z;
  max_completion_tokens : option Z;
  tools : option (list FunctionTool);
  tool_choice : option Value;
  response_format : option Value;
  temperature : option f64;
  top_p : option f64;
  frequency_penalty : option f64;
  presence_penalty : option f64;
  seed : option Z;
  stop : option StopSequence;
  r_n : option Z;
  stream : option bool;
  logprobs : option bool;
  top_logprobs : option Z;
  logit_bias : option Value;
  r_user : option string;
  extra : Object;
  gateway_headers : list (string * string);
  kv_cache_report_full : bool;
}.

Inductive CompletionPrompt := PString (s : string) | PStrings (l : list string).
Record CompletionRequest := mkCompletion {
  cr_model : string;
  prompt : CompletionPrompt;
  cr_max_tokens : option Z;
  cr_temperature : option f64;
  cr_top_p : option f64;
  cr_stop : option StopSequence;
  cr_n : option Z;
  suffix : option string;
  cr_stream : option bool;
  cr_extra : Object;
}.

Definition user_message (c : MessageContent) : Message := mkMessage User c None None None None.

(** [suffix] has no place in the chat API. *)
Definition into_chat_request (r : CompletionRequest) : ChatCompletionRequest :=
  let content := match prompt r with PString s => s | PStrings v => String.concat (String "010" "") v end in
  mkRequest (cr_model r) [user_message (Text content)] (cr_max_tokens r) None None None None (cr_temperature r) (cr_top_p r) None None None
    (cr_stop r) (cr_n r) (cr_stream r) None None None None (cr_extra r) [] false.

(** ** The answer *)

Record Usage := mkUsage {
  prompt_tokens : Z;
  completion_tokens : Z;
  total_tokens : Z;
  cache_creation_input_tokens : option Z;
  cache_read_input_tokens : option Z;
  prompt_tokens_details : option (option Z);
}.
Record Choice := mkChoice { ch_index : Z; ch_message : Message; ch_finish_reason : option string; ch_logprobs : option Value }.
Record ChatCompletionResponse := mkResponse {
  resp_id : string;
  resp_object : string;
  resp_created : Z;
  resp_model : string;
  choices : list Choice;
  usage : Usage;
  system_fingerprint : option string;
  raw_response : option string;
}.

(** ** Their JSON *)

(** A struct with fields that are left out when they are [None]. *)
Definition always (k : string) (v : Value) : option (string * Value) := Some (k, v).
Definition some {A} (k : string) (f : A -> Value) (o : option A) : option (string * Value) := (fun x => (k, f x)) <$> o.
Definition struct (l : list (option (string * Value))) : Object := omap id l.

(** A number that is not finite becomes [null]. *)
Definition ser_f64 (x : f64) : Value :=
  match x with S754_zero _ | S754_finite _ _ _ => VNumber (NFloat x) | _ => VNull end.

Definition ser_role (r : MessageRole) : Value :=
  VString (match r with System => "system" | User => "user" | Assistant => "assistant" | Tool => "tool" end).
Definition ser_image (i : ImageUrl) : Value := VObject (struct [always "url" (VString (url i)); some "detail" VString (detail i)]).
Definition ser_part (p : ContentPart) : Value :=
  match p with
  | PartText t => VObject [("type", VString "text"); ("text", VString t)]
  | PartImageUrl i => VObject [("type", VString "image_url"); ("image_url", ser_image i)]
  | PartReasoning r => VObject [("type", VString "reasoning"); ("reasoning", VString r)]
  end.
Definition ser_content (c : MessageContent) : Value :=
  match c with Text t => VString t | Parts l => VArray (ser_part <$> l) | Null => VNull end.
Definition ser_call (c : ToolCall) : Value :=
  VObject [("id", VString (tc_id c)); ("type", VString (call_type c));
           ("function", VObject [("name", VString (fc_name (tc_function c))); ("arguments", VString (fc_arguments (tc_function c)))])].
Definition ser_message (m : Message) : Value :=
  VObject (struct [always "role" (ser_role (role m)); always "content" (ser_content (content m)); some "name" VString (m_name m);
                   some "tool_calls" (fun l => VArray (ser_call <$> l)) (tool_calls m); some "tool_call_id" VString (tool_call_id m);
                   some "reasoning_content" VString (reasoning_content m)]).
Definition ser_stop (s : StopSequence) : Value := match s with Single s => VString s | Multiple l => VArray (VString <$> l) end.
Definition ser_tool (t : FunctionTool) : Value :=
  VObject [("type", VString (tool_type t));
           ("function", VObject (struct [always "name" (VString (tf_name (tool_function t))); some "description" VString (tf_description (tool_function t));
                                         always "parameters" (tf_parameters (tool_function t))]))].

(** [extra], the headers and the flag are not serialized. *)
Definition ser_request (r : ChatCompletionRequest) : Object :=
  struct [always "model" (VString (r_model r)); always "messages" (VArray (ser_message <$> messages r));
          some "max_tokens" vint (max_tokens r); some "max_completion_tokens" vint (max_completion_tokens r);
          some "tools" (fun l => VArray (ser_tool <$> l)) (tools r); some "tool_choice" id (tool_choice r); some "response_format" id (response_format r);
          some "temperature" ser_f64 (temperature r); some "top_p" ser_f64 (top_p r); some "frequency_penalty" ser_f64 (frequency_penalty r);
          some "presence_penalty" ser_f64 (presence_penalty r); some "seed" vint (seed r); some "stop" ser_stop (stop r); some "n" vint (r_n r);
          some "stream" VBool (stream r); some "logprobs" VBool (logprobs r); some "top_logprobs" vint (top_logprobs r); some "logit_bias" id (logit_bias r);
          some "user" VString (r_user r)].

(** *** The chunks of a stream *)

Definition de_fields {A} (de : Object -> option A) (v : Value) : option A := match v with VObject o => de o | _ => None end.
Fixpoint de_all {A} (de : Value -> option A) (l : list Value) : option (list A) :=
  match l with [] => Some [] | v :: l' => x ← de v; rest ← de_all de l'; Some (x :: rest) end.
Definition de_list {A} (de : Value -> option A) (v : Value) : option (list A) := match v with VArray l => de_all de l | _ => None end.
Definition de_i32 : Value -> option Z := de_int (- 2 ^ 31) (2 ^ 31 - 1).

Definition de_role (v : Value) : option MessageRole :=
  match v with
  | VString s =>
    if bool_decide (s = "system") then Some System else if bool_decide (s = "user") then Some User
    else if bool_decide (s = "assistant") then Some Assistant else if bool_decide (s = "tool") then Some Tool else None
  | _ => None
  end.

Definition de_function_delta : Value -> option Transcoder.FunctionCallDelta := de_fields (fun o =>
  n ← opt_field o "name" de_string; a ← opt_field o "arguments" de_string; Some (Transcoder.mkFunctionDelta n a)).
Definition de_call_delta : Value -> option Transcoder.ToolCallDelta := de_fields (fun o =>
  i ← field o "index" de_u32 None; id ← opt_field o "id" de_string; t ← opt_field o "type" de_string;
  f ← opt_field o "function" de_function_delta; Some (Transcoder.mkToolDelta i id t f)).

(** A field with an alias: both names at once are an error. *)
Definition alias_field {A} (o : Object) (k k' : string) (de : Value -> option A) : option (option A) :=
  match obj_get o k, obj_get o k' with
  | Some _, Some _ => None
  | None, Some _ => opt_field o k' de
  | _, _ => opt_field o k de
  end.

Definition de_delta : Value -> option Transcoder.StreamDelta := de_fields (fun o =>
  r ← opt_field o "role" de_role; c ← opt_field o "content" de_string; t ← opt_field o "tool_calls" (de_list de_call_delta);
  re ← alias_field o "reasoning_content" "reasoning" de_string; Some (Transcoder.mkDelta r c t re)).
Definition de_choice : Value -> option Transcoder.StreamChoice := de_fields (fun o =>
  i ← field o "index" de_u32 None; d ← field o "delta" de_delta None; f ← opt_field o "finish_reason" de_string; Some (Transcoder.mkChoice i d f)).
Definition de_details : Value -> option (option Z) := de_fields (fun o => opt_field o "cached_tokens" de_u32).
Definition de_usage : Value -> option Transcoder.StreamUsage := de_fields (fun o =>
  p ← opt_field o "prompt_tokens" de_i32; c ← opt_field o "completion_tokens" de_i32; t ← opt_field o "total_tokens" de_i32;
  d ← opt_field o "prompt_tokens_details" de_details; Some (Transcoder.mkUsage p c t d)).
(** The identifier, the kind, the time and the model must be there. *)
Definition de_chunk : Value -> option Transcoder.ChatStreamChunk := de_fields (fun o =>
  _ ← field o "id" de_string None; _ ← field o "object" de_string None; _ ← field o "created" de_u64 None; _ ← field o "model" de_string None;
  c ← field o "choices" (de_list de_choice) None; u ← opt_field o "usage" de_usage; Some (Transcoder.mkChunk c u)).

(** ** The OpenAI provider *)

Definition set_model (m : string) (r : ChatCompletionRequest) : ChatCompletionRequest :=
  mkRequest m (messages r) (max_tokens r) (max_completion_tokens r) (tools r) (tool_choice r) (response_format r) (temperature r) (top_p r)
    (frequency_penalty r) (presence_penalty r) (seed r) (stop r) (r_n r) (stream r) (logprobs r) (top_logprobs r) (logit_bias r) (r_user r)
    (extra r) (gateway_headers r) (kv_cache_report_full r).
Definition set_messages (l : list Message) (r : ChatCompletionRequest) : ChatCompletionRequest :=
  mkRequest (r_model r) l (max_tokens r) (max_completion_tokens r) (tools r) (tool_choice r) (response_format r) (temperature r) (top_p r)
    (frequency_penalty r) (presence_penalty r) (seed r) (stop r) (r_n r) (stream r) (logprobs r) (top_logprobs r) (logit_bias r) (r_user r)
    (extra r) (gateway_headers r) (kv_cache_report_full r).

Definition reasoning_to_text (p : ContentPart) : ContentPart := match p with PartReasoning r => PartText r | _ => p end.
Definition plain_message (m : Message) : Message :=
  match content m with
  | Parts l => mkMessage (role m) (Parts (reasoning_to_text <$> l)) (m_name m) (tool_calls m) (tool_call_id m) (reasoning_content m)
  | _ => m
  end.

Definition build_request (model : string) (r : ChatCompletionRequest) : Object :=
  let body := ser_request (set_messages (plain_message <$> messages r) (set_model model r)) in
  if kv_cache_report_full r then obj_insert body "vllm_xargs" (VObject [("kv_cache_report_mode", VString "full")]) else body.

(** What a streaming request has besides. *)
Definition streaming (body : Object) : Object :=
  obj_insert (obj_insert body "stream" (VBool true)) "stream_options" (VObject [("include_usage", VBool true)]).

Definition openai_body (model : string) (s : bool) (r : ChatCompletionRequest) : Object :=
  let body := build_request model r in if s then streaming body else body.

(** ** Azure *)

Definition azure_body (deployment : string) (s : bool) (r : ChatCompletionRequest) : Object :=
  let body := ser_request (set_model deployment r) in if s then streaming body else body.

(** [trim_end_matches] with a character. *)
Fixpoint drop_leading (c : ascii) (s : string) : string :=
  match s with String a s' => if bool_decide (a = c) then drop_leading c s' else s | EmptyString => "" end.
Definition trim_end_char (c : ascii) (s : string) : string := string_rev (drop_leading c (string_rev s)).

Definition openai_url (base_url : string) : string := trim_end_char "/" base_url +:+ "/chat/completions".
Definition azure_api_version (v : string) : string := if bool_decide (v = "") then "2024-02-01" else v.
Definition azure_url (base_url deployment api_version : string) : string :=
  trim_end_char "/" base_url +:+ "/openai/deployments/" +:+ deployment +:+ "/chat/completions?api-version=" +:+ azure_api_version api_version.

End Chat.
