(* ===== verification/Anthropic.v ===== *)
(** * Anthropic: the Messages API at the gateway's front (boom-core)

    Models the conversions of [boom-core/src/anthropic.rs] between the requests and
    answers of Anthropic's Messages API and those of the chat API, with the types of
    [boom-core/src/types.rs], and from [boom-core/src/normalize.rs] the conversion of the
    choice of a tool and of the source of an image.  The text of a JSON value
    ([serde_json::to_string] and [from_str]) is a parameter; the stream is in
    [Transcoder]. *)

From S2P Require Import Prelude Text Float64 Json Messages Transcoder Chat.

Module Anthropic.
Import Json Messages Chat.

(** ** The request *)

Inductive AnthropicContent :=
  | AText (t : string)
  | ABlocks (bs : list AnthropicContentBlock)
with AnthropicContentBlock :=
  | BText (text : string) (cache_control : option Value)
  | BImage (source : Value)
  | BToolUse (id name : string) (input : Value) (cache_control : option Value)
  | BToolResult (tool_use_id : string) (content : option AnthropicContent) (is_error : option bool)
  | BThinking (thinking : string)
  | BRedactedThinking (data : string)
  | BDocument (source : Value) (title context : option string) (citations : option Value)
  | BUnknown.

Record AnthropicMessage := mkAMessage { am_role : string; am_content : AnthropicContent }.
Record AnthropicSystemBlock := mkSystemBlock { block_type : string; sb_text : string; sb_cache_control : option Value }.
Inductive AnthropicSystemContent := SysText (t : string) | SysBlocks (l : list AnthropicSystemBlock).
Record AnthropicTool := mkATool { at_name : string; at_description : option string; input_schema : Value }.

Record AnthropicMessagesRequest := mkARequest {
  ar_model : string;
  system : option AnthropicSystemContent;
  ar_messages : list AnthropicMessage;
  ar_max_tokens : option Z;
  ar_tools : option (list AnthropicTool);
  ar_tool_choice : option Value;
  thinking : option Value;
  ar_temperature : option f64;
  ar_top_p : option f64;
  stop_sequences : option (list string);
  ar_stream : option bool;
  metadata : option Value;
  ar_extra : Object;
}.

(** ** The answer *)

Inductive ResponseBlock :=
  | RText (text : string)
  | RToolUse (id name : string) (input : Value)
  | RThinking (thinking : string)
  | RRedactedThinking (data : string)
  | RUnknown.
Record AnthropicUsage := mkAUsage { au_input : Z; au_output : Z; au_cache_creation : option Z; au_cache_read : option Z }.
Record AnthropicMessagesResponse := mkAResponse {
  ap_id : string;
  response_type : string;
  ap_role : string;
  ap_content : list ResponseBlock;
  ap_model : string;
  ap_stop_reason : option string;
  ap_stop_sequence : option string;
  ap_usage : AnthropicUsage;
}.

(** ** Strings *)

(** A byte that continues a character of UTF-8. *)
Definition continuation (a : ascii) : bool := let n := Z.of_N (N_of_ascii a) in (128 <=? n) && (n <? 192).
(** [s.chars().take(n)] *)
Fixpoint take_chars (n : nat) (s : string) : string :=
  match s with
  | EmptyString => ""
  | String a s' => if continuation a then String a (take_chars n s') else match n with O => "" | S m => String a (take_chars m s') end
  end.
Definition display_prefix (s : string) (n : nat) : string := take_chars n s.
Definition line_feed : string := String "010" "".

Section text.
Context (to_string : Value -> string) (from_str : string -> option Value).

(** ** normalize.rs *)

Definition get_str (v : Value) (k : string) : option string := get v k ≫= as_str.

Definition disable_parallel (p : option bool) (o : Object) : Object :=
  if bool_decide (p = Some false) then obj_insert o "disable_parallel_tool_use" (VBool true) else o.

Definition convert_tool_choice_for_anthropic (tc : option Value) (parallel_tool_calls : option bool) : option Value * bool :=
  match tc with
  | None =>
    if bool_decide (parallel_tool_calls = Some false)
    then (Some (VObject [("type", VString "auto"); ("disable_parallel_tool_use", VBool true)]), false)
    else (None, false)
  | Some tc =>
    let tc_type := default "auto" (get_str tc "type") in
    if bool_decide (tc_type = "none") then (None, true)
    else if bool_decide (tc_type = "auto") then (Some (VObject (disable_parallel parallel_tool_calls [("type", VString "auto")])), false)
    else if bool_decide (tc_type = "required") then (Some (VObject (disable_parallel parallel_tool_calls [("type", VString "any")])), false)
    else if bool_decide (tc_type = "function")
    then let name := default "" (f ← get tc "function"; get_str f "name") in
         (Some (VObject (disable_parallel parallel_tool_calls [("type", VString "tool"); ("name", VString name)])), false)
    else (Some tc, false)
  end.

Definition convert_image_source (source : Value) : string :=
  let source_type := default "" (get_str source "type") in
  if bool_decide (source_type = "url") then default "" (get_str source "url")
  else if bool_decide (source_type = "base64")
  then "data:" +:+ default "image/png" (get_str source "media_type") +:+ ";base64," +:+ default "" (get_str source "data")
  else to_string source.

(** ** anthropic.rs: the request *)

Definition extract_system_text (s : AnthropicSystemContent) : string :=
  match s with
  | SysText t => t
  | SysBlocks l => String.concat line_feed (omap (fun b => if bool_decide (block_type b = "text") then Some (sb_text b) else None) l)
  end.

Definition content_to_string (c : AnthropicContent) : string :=
  match c with
  | AText t => t
  | ABlocks l => String.concat "" (omap (fun b => match b with BText t _ => Some t | BThinking t => Some t | _ => None end) l)
  end.

Definition plain (r : MessageRole) (c : MessageContent) : Message := mkMessage r c None None None None.

(** The text of a document: its title on a line, then its data. *)
Definition document_text (source : Value) (title : option string) : string :=
  match title with Some t => if bool_decide (t = "") then "" else t +:+ line_feed | None => "" end
  +:+ default "" (get_str source "data").

Definition tool_result_text (content : option AnthropicContent) (is_error : option bool) : string :=
  let text := match content with
              | Some (AText t) => t
              | Some (ABlocks bs) =>
                String.concat "" (omap (fun b => match b with
                  | BText t _ => Some t
                  | BImage source => Some ("[image: " +:+ display_prefix (convert_image_source source) 80 +:+ "]")
                  | _ => None
                  end) bs)
              | None => ""
              end in
  if bool_decide (is_error = Some true) then "[ERROR] " +:+ text else text.

(** What a block adds to the parts of a user message. *)
Definition user_part (b : AnthropicContentBlock) : list ContentPart :=
  match b with
  | BText t _ => [PartText t]
  | BImage source => [PartImageUrl (mkImageUrl (convert_image_source source) None)]
  | BDocument source title _ _ => let t := document_text source title in if bool_decide (t = "") then [] else [PartText t]
  | _ => []
  end.
Definition tool_result (b : AnthropicContentBlock) : list (string * string) :=
  match b with BToolResult id c e => [(id, tool_result_text c e)] | _ => [] end.

Definition tool_message (r : string * string) : Message := mkMessage Tool (Text r.2) None None (Some r.1) None.

Definition convert_user_message (c : AnthropicContent) : list Message :=
  match c with
  | AText t => [plain User (Text t)]
  | ABlocks bs =>
    let text_parts := bs ≫= user_part in
    let tool_results := bs ≫= tool_result in
    (if bool_decide (text_parts = []) then [] else [plain User (Parts text_parts)]) ++ (tool_message <$> tool_results)
  end.

(** The text of an assistant's block, and the call it makes. *)
Definition assistant_text (b : AnthropicContentBlock) : list string :=
  match b with
  | BText t _ => [t]
  | BThinking t => [t]
  | BDocument source title _ _ => let t := document_text source title in if bool_decide (t = "") then [] else [t]
  | _ => []
  end.
Definition assistant_call (b : AnthropicContentBlock) : list ToolCall :=
  match b with BToolUse id name input _ => [mkToolCall id "function" (mkFunctionCall name (to_string input))] | _ => [] end.
Definition assistant_part (b : AnthropicContentBlock) : list ContentPart :=
  match b with
  | BThinking t => [PartReasoning t]
  | BText t _ => if bool_decide (t = "") then [] else [PartText t]
  | BDocument source title _ _ => let t := document_text source title in if bool_decide (t = "") then [] else [PartText t]
  | _ => []
  end.
Definition is_thinking (b : AnthropicContentBlock) : bool := match b with BThinking _ => true | _ => false end.

Definition some_calls (l : list ToolCall) : option (list ToolCall) := match l with [] => None | _ => Some l end.

Definition convert_assistant_message (c : AnthropicContent) : list Message :=
  match c with
  | AText t => [plain Assistant (Text t)]
  | ABlocks bs =>
    let text_parts := bs ≫= assistant_text in
    let calls := bs ≫= assistant_call in
    if existsb is_thinking bs
    then let parts := bs ≫= assistant_part in
         [mkMessage Assistant (Parts (match parts with [] => [PartText ""] | _ => parts end)) None (some_calls calls) None None]
    else [mkMessage Assistant (Text (String.concat "" text_parts)) None (some_calls calls) None None]
  end.

Definition convert_message (m : AnthropicMessage) : list Message :=
  if bool_decide (am_role m = "user") then convert_user_message (am_content m)
  else if bool_decide (am_role m = "assistant") then convert_assistant_message (am_content m)
  else [plain User (Text (content_to_string (am_content m)))].

Definition system_message (s : option AnthropicSystemContent) : list Message :=
  match s with
  | None => []
  | Some s => let t := extract_system_text s in if bool_decide (t = "") then [] else [plain System (Text t)]
  end.

Definition convert_tool (t : AnthropicTool) : FunctionTool := mkTool "function" (mkToolFunction (at_name t) (at_description t) (input_schema t)).
Definition convert_stop (l : list string) : StopSequence := match l with [s] => Single s | _ => Multiple l end.
Definition request_extra (r : AnthropicMessagesRequest) : Object :=
  foldl (fun o kv => obj_insert o kv.1 kv.2) (insert_some (insert_some [] "thinking" id (thinking r)) "metadata" id (metadata r)) (ar_extra r).

Definition anthropic_request_to_openai (r : AnthropicMessagesRequest) : ChatCompletionRequest :=
  mkRequest (ar_model r) (system_message (system r) ++ (ar_messages r ≫= convert_message)) (ar_max_tokens r) None
    (fmap (M:=list) convert_tool <$> ar_tools r) (ar_tool_choice r) None (ar_temperature r) (ar_top_p r) None None None
    (convert_stop <$> stop_sequences r) None (ar_stream r) None None None None (request_extra r) [] false.

(** ** anthropic.rs: the answer *)

Definition response_part (p : ContentPart) : list ResponseBlock :=
  match p with
  | PartText t => if bool_decide (t = "") then [] else [RText t]
  | PartReasoning r => [RThinking r]
  | PartImageUrl _ => []
  end.
Definition response_content (c : MessageContent) : list ResponseBlock :=
  match c with
  | Text t => if bool_decide (t = "") then [] else [RText t]
  | Parts l => l ≫= response_part
  | Null => []
  end.
Definition response_call (c : ToolCall) : ResponseBlock :=
  RToolUse (tc_id c) (fc_name (tc_function c)) (default VNull (from_str (fc_arguments (tc_function c)))).
Definition response_blocks (m : Message) : list ResponseBlock :=
  (match reasoning_content m with Some r => if bool_decide (r = "") then [] else [RThinking r] | None => [] end)
  ++ response_content (content m) ++ (response_call <$> default [] (tool_calls m)).

Definition openai_response_to_anthropic (id : string) (r : ChatCompletionResponse) : AnthropicMessagesResponse :=
  let blocks := match choices r with c :: _ => response_blocks (ch_message c) | [] => [] end in
  mkAResponse id "message" "assistant" (match blocks with [] => [RText ""] | _ => blocks end) (resp_model r)
    (match choices r with c :: _ => Transcoder.finish_reason_to_stop_reason (ch_finish_reason c) | [] => None end) None
    (mkAUsage (prompt_tokens (usage r)) (completion_tokens (usage r)) (cache_creation_input_tokens (usage r)) (cache_read_input_tokens (usage r))).

(** *** Its JSON *)

Definition ser_block (b : ResponseBlock) : Value :=
  match b with
  | RText t => VObject [("type", VString "text"); ("text", VString t)]
  | RToolUse id name input => VObject [("type", VString "tool_use"); ("id", VString id); ("name", VString name); ("input", input)]
  | RThinking t => VObject [("type", VString "thinking"); ("thinking", VString t)]
  | RRedactedThinking d => VObject [("type", VString "redacted_thinking"); ("data", VString d)]
  | RUnknown => VObject [("type", VString "Unknown")]
  end.
Definition ser_response (r : AnthropicMessagesResponse) : Value :=
  VObject (struct [always "id" (VString (ap_id r)); always "type" (VString (response_type r)); always "role" (VString (ap_role r));
                   always "content" (VArray (ser_block <$> ap_content r)); always "model" (VString (ap_model r));
                   some "stop_reason" VString (ap_stop_reason r); some "stop_sequence" VString (ap_stop_sequence r);
                   always "usage" (VObject (struct [always "input_tokens" (vint (au_input (ap_usage r))); always "output_tokens" (vint (au_output (ap_usage r)));
                     some "cache_creation_input_tokens" vint (au_cache_creation (ap_usage r)); some "cache_read_input_tokens" vint (au_cache_read (ap_usage r))]))]).

(** ** Lemmas *)

Lemma convert_one r c bs : am_role r = "user" -> am_content r = ABlocks bs -> bs ≫= user_part <> [] -> c = bs ≫= user_part ->
  convert_message r = plain User (Parts c) :: (tool_message <$> (bs ≫= tool_result)).
Proof. intros Hr Hc Hp ->. unfold convert_message. rewrite Hr, Hc. cbn [convert_user_message]. rewrite bool_decide_eq_true_2 by done. by rewrite bool_decide_eq_false_2. Qed.

(** A message of the chat API that makes calls is answered when the results follow it at
    once. *)
Fixpoint answered (l : list Message) : bool :=
  match l with
  | [] => true
  | m :: l' => match tool_calls m, l' with
               | Some _, m' :: _ => match role m' with Tool => true | _ => false end
               | _, _ => true
               end && answered l'
  end.

Lemma answered_app l k : answered (l ++ k) = true -> answered k = true.
Proof. induction l as [| m l IH]; [done |]. cbn [app answered]. intros [_ H]%andb_prop. by apply IH. Qed.

(** When a user says something in the message that has the result of a call, what the
    user says is put before the result, between the call and its answer, where the chat
    API has the results follow at once. *)
Theorem results_after_text r i id name input cc rid rc re t tcc :
  ar_messages r !! i = Some (mkAMessage "assistant" (ABlocks [BToolUse id name input cc])) ->
  ar_messages r !! S i = Some (mkAMessage "user" (ABlocks [BToolResult rid rc re; BText t tcc])) ->
  answered (messages (anthropic_request_to_openai r)) = false.
Proof.
  intros H1 H2. unfold anthropic_request_to_openai. cbn [messages]. rewrite <- (take_drop_middle _ _ _ H1).
  assert (drop (S i) (ar_messages r) = mkAMessage "user" (ABlocks [BToolResult rid rc re; BText t tcc]) :: drop (S (S i)) (ar_messages r)) as -> by by apply drop_S.
  rewrite bind_app, !bind_cons. destruct (answered _) eqn:E; [| done]. rewrite app_assoc in E. apply answered_app in E. exfalso.
  rewrite (convert_one (mkAMessage "user" _) [PartText t] [BToolResult rid rc re; BText t tcc]) in E by done. cbn in E. done.
Qed.

End text.

(** ** Examples *)

Definition demo_turns : AnthropicMessagesRequest :=
  mkARequest "claude" None [mkAMessage "user" (AText "run it"); mkAMessage "assistant" (ABlocks [BToolUse "toolu_1" "run" (VObject []) None]);
    mkAMessage "user" (ABlocks [BToolResult "toolu_1" (Some (AText "done")) None; BText "thanks" None])] None None None None None None None None None [].

Lemma results_after_text_witness : answered (messages (anthropic_request_to_openai (fun _ => "{}") demo_turns)) = false.
Proof. by apply (results_after_text (fun _ => "{}") demo_turns 1 "toolu_1" "run" (VObject []) None "toolu_1" (Some (AText "done")) None "thanks" None). Defined.

End Anthropic.
