(* ===== verification/Sse.v ===== *)
(** * Sse: the reader of an upstream's event stream (boom-provider)

    Models the loop that the streaming half of every provider of [boom-provider/src]
    has: the packets of the network become text ([String::from_utf8_lossy]), the text is
    put behind the buffer, and every piece of the buffer up to a blank line is handled.
    A packet is a string of bytes; what happens with an event is a parameter. *)

From S2P Require Import Prelude Text Messages.

Module Sse.
Import Messages.

(** ** UTF-8 *)

Definition byte_in (lo hi : Z) (a : ascii) : bool := let n := Z.of_N (N_of_ascii a) in (lo <=? n) && (n <=? hi).
Definition continues : ascii -> bool := byte_in 128 191.

(** The second byte of a character of three bytes, and of one of four. *)
Definition second3 (a b : ascii) : bool :=
  if byte_in 224 224 a then byte_in 160 191 b else if byte_in 237 237 a then byte_in 128 159 b else continues b.
Definition second4 (a b : ascii) : bool :=
  if byte_in 240 240 a then byte_in 144 191 b else if byte_in 244 244 a then byte_in 128 143 b else continues b.

(** The characters of a text, [None] for bytes that are none: the longest beginning of a
    character, or one byte. *)
Fixpoint chars (s : string) : list (option string) :=
  match s with
  | EmptyString => []
  | String a s1 =>
    if byte_in 0 127 a then Some (String a "") :: chars s1
    else if byte_in 194 223 a then
      match s1 with
      | String b s2 => if continues b then Some (String a (String b "")) :: chars s2 else None :: chars s1
      | EmptyString => [None]
      end
    else if byte_in 224 239 a then
      match s1 with
      | String b s2 =>
        if second3 a b then
          match s2 with
          | String c s3 => if continues c then Some (String a (String b (String c ""))) :: chars s3 else None :: chars s2
          | EmptyString => [None]
          end
        else None :: chars s1
      | EmptyString => [None]
      end
    else if byte_in 240 244 a then
      match s1 with
      | String b s2 =>
        if second4 a b then
          match s2 with
          | String c s3 =>
            if continues c then
              match s3 with
              | String d s4 => if continues d then Some (String a (String b (String c (String d "")))) :: chars s4 else None :: chars s3
              | EmptyString => [None]
              end
            else None :: chars s2
          | EmptyString => [None]
          end
        else None :: chars s1
      | EmptyString => [None]
      end
    else None :: chars s1
  end.

(** U+FFFD *)
Definition replacement : string := String "239" (String "191" (String "189" "")).
Definition glue (l : list (option string)) : string := foldr (fun c s => default replacement c +:+ s) "" l.
(** [String::from_utf8_lossy] *)
Definition from_utf8_lossy (s : string) : string := glue (chars s).
Definition valid_utf8 (s : string) : bool := forallb (fun c => match c with Some _ => true | None => false end) (chars s).

(** ** Lines *)

Definition lf : ascii := "010"%char.
Definition blank_line : string := String lf (String lf "").

Definition strip_cr (s : string) : string := match strip_prefix (String "013" "") (string_rev s) with Some r => string_rev r | None => s end.
(** [str::lines] *)
Fixpoint lines_fuel (fuel : nat) (s : string) : list string :=
  match fuel with
  | O => []
  | S n =>
    match split_once lf s with
    | Some (l, r) => strip_cr l :: lines_fuel n r
    | None => if bool_decide (s = "") then [] else [s]
    end
  end.
Definition lines (s : string) : list string := lines_fuel (S (String.length s)) s.

(** ** The loop *)

Section reader.
Context {St Out : Type}.
(** What an event does: [None] is the end of the task. *)
Context (handle : St -> string -> list Out * option St).

(** The reader: its state, and what it has read but not handled; or it has ended. *)
Inductive Reader := Reading (st : St) (buffer : string) | Ended.
Inductive Item := Sent (o : Out) | ReadError.

(** The events in the buffer.  Each is at least two bytes, so the length of the buffer is
    enough fuel. *)
Fixpoint events (fuel : nat) (st : St) (buffer : string) : list Out * Reader :=
  match fuel with
  | O => ([], Reading st buffer)
  | S n =>
    match split_once_str blank_line buffer with
    | None => ([], Reading st buffer)
    | Some (event_text, rest) =>
      match handle st event_text with
      | (out, None) => (out, Ended)
      | (out, Some st') => let '(out', r) := events n st' rest in (out ++ out', r)
      end
    end
  end.

(** A packet; [None] is an error of the connection, after which the task ends. *)
Definition packet (r : Reader) (p : option string) : list Item * Reader :=
  match r with
  | Ended => ([], Ended)
  | Reading st buffer =>
    match p with
    | None => ([ReadError], Ended)
    | Some bytes => let buffer := buffer +:+ from_utf8_lossy bytes in
                    let '(out, r') := events (String.length buffer) st buffer in (Sent <$> out, r')
    end
  end.

Fixpoint packets (r : Reader) (l : list (option string)) : list Item * Reader :=
  match l with [] => ([], r) | p :: l' => let '(i, r1) := packet r p in let '(i', r2) := packets r1 l' in (i ++ i', r2) end.

(** Everything the task sends for a connection. *)
Definition read (st : St) (l : list (option string)) : list Item := (packets (Reading st "") l).1.

End reader.
#[global] Arguments Reader : clear implicits.
#[global] Arguments Item : clear implicits.

(** ** Lemmas: UTF-8 *)

#[local] Arguments byte_in : simpl never.
#[local] Arguments continues : simpl never.
#[local] Arguments second3 : simpl never.
#[local] Arguments second4 : simpl never.

Lemma glue_app l k : glue (l ++ k) = glue l +:+ glue k.
Proof. induction l as [| c l IH]; [done |]. cbn [app glue foldr]. fold (glue (l ++ k)) (glue l). by rewrite IH, append_assoc. Qed.

(** Induction over the characters of a text. *)
Lemma valid_step a s : valid_utf8 (String a s) = true ->
  exists c r, String a s = c +:+ r /\ c <> "" /\ valid_utf8 r = true /\ (forall t, chars (c +:+ t) = Some c :: chars t).
Proof.
  unfold valid_utf8. intros Hv. destruct (byte_in 0 127 a) eqn:E1; [| destruct (byte_in 194 223 a) eqn:E2; [| destruct (byte_in 224 239 a) eqn:E3; [| destruct (byte_in 240 244 a) eqn:E4]]].
  - exists (String a ""), s. cbn in Hv. rewrite E1 in Hv. cbn in Hv. split_and!; [by rewrite !append_cons, append_nil | done | done |]. intros t. rewrite !append_cons, append_nil. cbn [chars]. by rewrite E1.
  - cbn in Hv. rewrite E1, E2 in Hv. destruct s as [| b s]; [done |]. destruct (continues b) eqn:Eb; [| done]. cbn in Hv.
    exists (String a (String b "")), s. split_and!; [by rewrite !append_cons, append_nil | done | done |]. intros t. rewrite !append_cons, append_nil. cbn [chars]. by rewrite E1, E2, Eb.
  - cbn in Hv. rewrite E1, E2, E3 in Hv. destruct s as [| b s]; [done |]. destruct (second3 a b) eqn:Eb; [| done]. destruct s as [| c s]; [done |].
    destruct (continues c) eqn:Ec; [| done]. cbn in Hv. exists (String a (String b (String c ""))), s. split_and!; [by rewrite !append_cons, append_nil | done | done |]. intros t. rewrite !append_cons, append_nil. cbn [chars]. by rewrite E1, E2, E3, Eb, Ec.
  - cbn in Hv. rewrite E1, E2, E3, E4 in Hv. destruct s as [| b s]; [done |]. destruct (second4 a b) eqn:Eb; [| done]. destruct s as [| c s]; [done |].
    destruct (continues c) eqn:Ec; [| done]. destruct s as [| d s]; [done |]. destruct (continues d) eqn:Ed; [| done]. cbn in Hv.
    exists (String a (String b (String c (String d "")))), s. split_and!; [by rewrite !append_cons, append_nil | done | done |]. intros t. rewrite !append_cons, append_nil. cbn [chars]. by rewrite E1, E2, E3, E4, Eb, Ec, Ed.
  - cbn in Hv. by rewrite E1, E2, E3, E4 in Hv.
Qed.

Lemma valid_ind (P : string -> Prop) : P "" ->
  (forall c r, c <> "" -> (forall t, chars (c +:+ t) = Some c :: chars t) -> valid_utf8 r = true -> P r -> P (c +:+ r)) ->
  forall s, valid_utf8 s = true -> P s.
Proof.
  intros H0 HS s. remember (String.length s) as n eqn:En. revert s En. induction (lt_wf n) as [n _ IH]. intros [| a s] En Hv; [done |].
  destruct (valid_step a s Hv) as (c & r & E & Hc & Hr & Hch). rewrite E in *. apply HS; try done. apply (IH (String.length r)); [| done | done].
  rewrite En, length_append. destruct c; [done |]. cbn. lia.
Qed.

Lemma chars_app s t : valid_utf8 s = true -> chars (s +:+ t) = chars s ++ chars t.
Proof. revert s. apply valid_ind; [done |]. intros c r Hc Hch Hr IH. by rewrite append_assoc, !Hch, IH. Qed.

Lemma lossy_valid s : valid_utf8 s = true -> from_utf8_lossy s = s.
Proof. revert s. apply valid_ind; [done |]. intros c r Hc Hch Hr IH. unfold from_utf8_lossy in *. rewrite Hch. cbn [glue foldr]. by fold (glue (chars r)); rewrite IH. Qed.

Lemma lossy_app s t : valid_utf8 s = true -> from_utf8_lossy (s +:+ t) = s +:+ from_utf8_lossy t.
Proof. intros Hs. unfold from_utf8_lossy at 1. rewrite chars_app, glue_app by done. fold (from_utf8_lossy s) (from_utf8_lossy t). by rewrite lossy_valid. Qed.

Lemma valid_app s t : valid_utf8 s = true -> valid_utf8 t = true -> valid_utf8 (s +:+ t) = true.
Proof. intros Hs Ht. unfold valid_utf8 in *. by rewrite chars_app, forallb_app, Hs, Ht. Qed.

(** ** Lemmas: the buffer *)

Lemma strip_prefix_more p s t r : strip_prefix p s = Some r -> strip_prefix p (s +:+ t) = Some (r +:+ t).
Proof. rewrite !strip_prefix_spec. intros ->. by rewrite append_assoc. Qed.

Lemma strip_prefix_none p s t : (String.length p <= String.length s)%nat -> strip_prefix p s = None -> strip_prefix p (s +:+ t) = None.
Proof.
  revert s. induction p as [| a p IH]; intros [| b s] Hl; cbn [strip_prefix String.length] in *; try done; [lia |].
  rewrite append_cons. cbn [strip_prefix]. destruct (Ascii.eqb a b); [apply IH; lia | done].
Qed.

(** The first blank line is the same when more text follows. *)
Lemma split_more s t l r : split_once_str blank_line s = Some (l, r) -> split_once_str blank_line (s +:+ t) = Some (l, r +:+ t).
Proof.
  revert l r. induction s as [| a s IH]; intros l r; [done |]. rewrite append_cons. cbn [split_once_str].
  destruct (strip_prefix blank_line (String a s)) as [u |] eqn:E.
  - intros [= <- <-]. apply (strip_prefix_more _ _ t) in E. rewrite append_cons in E. by rewrite E.
  - destruct (split_once_str blank_line s) as [[l' r'] |] eqn:Es; [| done]. intros E2. cbn in E2. injection E2 as <- <-.
    assert (strip_prefix blank_line (String a (s +:+ t)) = None) as ->.
    { destruct s as [| b s]; [done |]. rewrite <- append_cons. apply strip_prefix_none; [cbn; lia | done]. }
    by rewrite (IH l' r').
Qed.

Lemma split_shorter s l r : split_once_str blank_line s = Some (l, r) -> (String.length r < String.length s)%nat.
Proof.
  revert l r. induction s as [| a s IH]; intros l r; [done |]. cbn [split_once_str].
  destruct (strip_prefix blank_line (String a s)) as [u |] eqn:E.
  - intros [= <- <-]. apply strip_prefix_spec in E. rewrite E, length_append. cbn. lia.
  - destruct (split_once_str blank_line s) as [[l' r'] |] eqn:Es; [| done]. cbn. intros [= <- <-]. specialize (IH _ _ eq_refl). lia.
Qed.

Section reader_lemmas.
Context {St Out : Type} (handle : St -> string -> list Out * option St).

(** More fuel than the length of the buffer changes nothing. *)
Lemma events_fuel n m st b : (String.length b <= n)%nat -> (String.length b <= m)%nat -> events handle n st b = events handle m st b.
Proof.
  revert m st b. induction n as [| n IH]; intros m st b Hn Hm.
  - destruct b; [| cbn in Hn; lia]. by destruct m.
  - destruct m as [| m]; [destruct b; [done | cbn in Hm; lia] |]. cbn [events].
    destruct (split_once_str blank_line b) as [[e r] |] eqn:E; [| done]. pose proof (split_shorter _ _ _ E).
    destruct (handle st e) as [out [st' |]]; [| done]. rewrite (IH m st' r) by lia. done.
Qed.

(** What follows the buffer is handled after what is in it. *)
Lemma events_app n st b t : (String.length b <= n)%nat ->
  events handle (n + String.length t) st (b +:+ t) =
  match events handle n st b with
  | (out, Ended) => (out, Ended)
  | (out, Reading st' b') => let '(out', r) := events handle (String.length b' + String.length t) st' (b' +:+ t) in (out ++ out', r)
  end.
Proof.
  revert st b. induction n as [| n IH]; intros st b Hn.
  - destruct b; [| cbn in Hn; lia]. cbn [events String.length Nat.add]. by destruct (events _ _ _ _).
  - cbn [events Nat.add]. destruct (split_once_str blank_line b) as [[e r] |] eqn:E.
    + rewrite (split_more _ t _ _ E). pose proof (split_shorter _ _ _ E). destruct (handle st e) as [out [st' |]]; [| done].
      rewrite IH by lia. destruct (events handle n st' r) as [out1 [st1 b1 |]]; [| done]. destruct (events _ _ st1 _). by rewrite app_assoc.
    + rewrite (events_fuel (String.length b + String.length t) (S n + String.length t)) by (rewrite ?length_append; lia). cbn [events Nat.add].
      destruct (match split_once_str blank_line (b +:+ t) with Some _ => _ | None => _ end) eqn:E2. done.
Qed.

(** A packet whose characters are whole is as good as its parts. *)
Lemma packet_app r s t : valid_utf8 s = true -> packets handle r [Some (s +:+ t)] = packets handle r [Some s; Some t].
Proof.
  intros Hs. destruct r as [st b |]; [| done]. cbn [packets packet]. rewrite lossy_app, (lossy_valid s), <- append_assoc by done.
  rewrite (length_append (b +:+ s)), events_app by lia. destruct (events handle (String.length (b +:+ s)) st (b +:+ s)) as [out [st' b' |]].
  - cbn [packet packets]. rewrite length_append. destruct (events handle _ st' (b' +:+ from_utf8_lossy t)) as [out' r']. cbn [packets packet]. by rewrite fmap_app, !app_nil_r.
  - cbn. by rewrite !app_nil_r.
Qed.

Lemma packets_app r l k : packets handle r (l ++ k) = let '(i, r1) := packets handle r l in let '(i', r2) := packets handle r1 k in (i ++ i', r2).
Proof.
  revert r. induction l as [| p l IH]; intros r; cbn [app packets]; [by destruct (packets handle r k) |].
  destruct (packet handle r p) as [i r1]. rewrite IH. destruct (packets handle r1 l) as [i1 r2]. destruct (packets handle r2 k). by rewrite app_assoc.
Qed.
Lemma read_concat r l : Forall (fun p => valid_utf8 p = true) l -> l <> [] -> packets handle r (Some <$> l) = packets handle r [Some (String.concat "" l)].
Proof.
  intros Hl. revert r. induction Hl as [| p l Hp Hl IH]; intros r Hne; [done |]. destruct l as [| q l]; [done |].
  change (String.concat "" (p :: q :: l)) with (p +:+ ("" +:+ String.concat "" (q :: l))). rewrite append_nil, packet_app by done.
  change (Some <$> p :: q :: l) with ([Some p] ++ (Some <$> q :: l)). change [Some p; ?x] with ([Some p] ++ [x]).
  rewrite !packets_app. destruct (packets handle r [Some p]) as [i r1]. by rewrite IH.
Qed.

(** C13: it does not matter how the network cuts an event stream into packets, as long as it
    does not cut a character: what the reader sends is what it sends for the whole text at
    once. *)
Theorem packets_do_not_matter st l :
  Forall (fun p => valid_utf8 p = true) l -> read handle st (Some <$> l) = read handle st [Some (String.concat "" l)].
Proof.
  intros Hl. destruct l as [| p l]; [done |]. unfold read. by rewrite read_concat.
Qed.

(** *** A character in two packets *)

Lemma second3_continues a b : byte_in 224 239 a = true -> second3 a b = true -> continues b = true.
Proof. unfold second3, continues, byte_in. repeat case_match; lia. Qed.
Lemma second4_continues a b : byte_in 240 244 a = true -> second4 a b = true -> continues b = true.
Proof. unfold second4, continues, byte_in. repeat case_match; lia. Qed.

Lemma chars_cont b r : continues b = true -> chars (String b r) = None :: chars r.
Proof.
  intros Hb. unfold continues in Hb. assert (byte_in 0 127 b = false) as E1 by (unfold byte_in in *; lia).
  assert (byte_in 194 223 b = false) as E2 by (unfold byte_in in *; lia). assert (byte_in 224 239 b = false) as E3 by (unfold byte_in in *; lia).
  assert (byte_in 240 244 b = false) as E4 by (unfold byte_in in *; lia). cbn [chars]. by rewrite E1, E2, E3, E4.
Qed.

Fixpoint all_continue (s : string) : bool := match s with EmptyString => true | String b s' => continues b && all_continue s' end.
Fixpoint replaced (s : string) : string := match s with EmptyString => "" | String _ s' => replacement +:+ replaced s' end.

Lemma lossy_continued v r : all_continue v = true -> from_utf8_lossy (v +:+ r) = replaced v +:+ from_utf8_lossy r.
Proof.
  induction v as [| b v IH]; [done |]. cbn [all_continue replaced]. intros [Hb Hv]%andb_prop. rewrite append_cons. unfold from_utf8_lossy at 1.
  rewrite chars_cont by done. cbn [glue foldr]. fold (glue (chars (v +:+ r))) (from_utf8_lossy (v +:+ r)). by rewrite IH, append_assoc.
Qed.

Lemma append_inv_cons u v b w : u +:+ v = String b w -> (u = "" /\ v = String b w) \/ exists u', u = String b u' /\ u' +:+ v = w.
Proof. destruct u as [| a u]; [by left |]. rewrite append_cons. intros [= -> E]. right. eauto. Qed.
Lemma append_inv_nil u v : u +:+ v = "" -> u = "" /\ v = "".
Proof. destruct u; [by rewrite append_nil | done]. Qed.

(** The parts of a character: its beginning is one piece of bad bytes, and every byte after
    it another. *)
Lemma character_cut u v : u <> "" -> v <> "" -> chars (u +:+ v) = [Some (u +:+ v)] -> chars u = [None] /\ all_continue v = true.
Proof.
  intros Hu Hv. destruct u as [| a u]; [done |]. rewrite append_cons. cbn [chars]. clear Hu. remember (u +:+ v) as w eqn:Ew. symmetry in Ew.
  destruct (byte_in 0 127 a) eqn:E1; [intros E; assert (w = "") as -> by congruence; by apply append_inv_nil in Ew as [-> ->] |].
  destruct (byte_in 194 223 a) eqn:E2.
  { destruct w as [| b w]; [done |]. destruct (continues b) eqn:Eb; [| done]. intros E; assert (w = "") as -> by congruence.
    apply append_inv_cons in Ew as [[-> ->] | (u' & -> & [-> ->]%append_inv_nil)]; [| done]. cbn. by rewrite Eb. }
  destruct (byte_in 224 239 a) eqn:E3.
  { destruct w as [| b w]; [done |]. destruct (second3 a b) eqn:Eb; [| done]. destruct w as [| c w]; [done |].
    destruct (continues c) eqn:Ec; [| done]. intros E; assert (w = "") as -> by congruence. pose proof (second3_continues a b E3 Eb) as Hb.
    apply append_inv_cons in Ew as [[-> ->] | (u1 & -> & [[-> ->] | (u2 & -> & [-> ->]%append_inv_nil)]%append_inv_cons)]; [| | done]; cbn; by rewrite ?Eb, ?Ec, ?Hb. }
  destruct (byte_in 240 244 a) eqn:E4; [| done].
  destruct w as [| b w]; [done |]. destruct (second4 a b) eqn:Eb; [| done]. destruct w as [| c w]; [done |]. destruct (continues c) eqn:Ec; [| done].
  destruct w as [| d w]; [done |]. destruct (continues d) eqn:Ed; [| done]. intros E; assert (w = "") as -> by congruence. pose proof (second4_continues a b E4 Eb) as Hb.
  apply append_inv_cons in Ew as [[-> ->] | (u1 & -> & [[-> ->] | (u2 & -> & [[-> ->] | (u3 & -> & [-> ->]%append_inv_nil)]%append_inv_cons)]%append_inv_cons)];
    [| | | done]; cbn; by rewrite ?Eb, ?Ec, ?Ed, ?Hb.
Qed.

Lemma replaced_valid v : valid_utf8 (replaced v) = true.
Proof. induction v as [| b v IH]; [done |]. cbn [replaced]. by apply valid_app. Qed.

(** A character that the network cuts between two packets is destroyed: the reader
    behaves as if the upstream had sent U+FFFD for its beginning and one for every byte of
    its end. *)
Theorem cut_character_destroyed st before after u v :
  valid_utf8 before = true -> valid_utf8 after = true -> u <> "" -> v <> "" -> chars (u +:+ v) = [Some (u +:+ v)] ->
  read handle st [Some (before +:+ u); Some (v +:+ after)] = read handle st [Some (before +:+ replacement +:+ replaced v +:+ after)].
Proof.
  intros Hb Ha Hu Hv Hc. destruct (character_cut u v Hu Hv Hc) as [Eu Ev].
  assert (from_utf8_lossy u = replacement) as Lu by (unfold from_utf8_lossy; by rewrite Eu).
  transitivity (read handle st [Some (before +:+ replacement); Some (replaced v +:+ after)]).
  - assert (forall r p q, from_utf8_lossy p = from_utf8_lossy q -> packet handle r (Some p) = packet handle r (Some q)) as Hp
      by (intros r p q E; unfold packet; by rewrite E).
    unfold read. cbn [packets]. rewrite (Hp _ (before +:+ u) (before +:+ replacement)) by by rewrite !lossy_app, Lu.
    destruct (packet handle _ (Some (before +:+ replacement))) as [i r1]. rewrite (Hp r1 (v +:+ after) (replaced v +:+ after)); [done |].
    by rewrite lossy_continued, lossy_app by (done || apply replaced_valid).
  - rewrite <- append_assoc. unfold read. rewrite (packet_app _ (before +:+ replacement)); [done | by apply valid_app].
Qed.

End reader_lemmas.

(** ** A stream *)

(** The events as they are. *)
Definition echo (n : unit) (e : string) : list string * option unit := ([e], Some n).
Definition e_acute : string := String "195" (String "169" "").

Lemma packets_do_not_matter_witness :
  read echo tt (Some <$> ["da"; "ta" +:+ String lf ""; String lf "x"]) = [Sent "data"].
Proof. rewrite (packets_do_not_matter echo tt ["da"; "ta" +:+ String lf ""; String lf "x"]); [vm_compute; reflexivity | by repeat constructor]. Defined.

Lemma cut_character_destroyed_witness :
  read echo tt [Some ("caf" +:+ String "195" ""); Some (String "169" "" +:+ blank_line)] = [Sent ("caf" +:+ replacement +:+ replacement)].
Proof. rewrite (cut_character_destroyed echo tt "caf" blank_line (String "195" "") (String "169" "")); [vm_compute; reflexivity | done..]. Defined.

End Sse.
