(* ===== verification/AnthropicProvider.v ===== *)
(** * AnthropicProvider: requests and answers of an Anthropic upstream (boom-provider)

    Models [boom-provider/src/anthropic.rs]: the body of a request, the answer, and the
    chunks that the events of a stream become.  Texts of JSON values are parameters;
    identifiers and times are arguments where they are kept. *)

From S2P Require Import Prelude Text Float64 Json Messages Transcoder Chat Anthropic Sse.

Module AnthropicProvider.
Import Json Messages Chat Anthropic.

Section text.
Context (to_string : Value -> string) (from_str : string -> option Value).

(** ** The request *)

Definition text_block (t : string) : Value := VObject [("type", VString "text"); ("text", VString t)].
Definition thinking_block (t : string) : Value := VObject [("type", VString "thinking"); ("thinking", VString t)].
Definition tool_use_block (id name : string) (input : Value) : Value :=
  VObject [("type", VString "tool_use"); ("id", VString id); ("name", VString name); ("input", input)].
Definition turn (role : string) (content : Value) : Value := VObject [("role", VString role); ("content", content)].

Definition system_block (ex : Object) (t : string) : Value :=
  VObject (insert_some [("type", VString "text"); ("text", VString t)] "cache_control" id (obj_get ex "system_cache_control")).
Definition system_blocks (ex : Object) (c : MessageContent) : list Value :=
  match c with
  | Text t => if bool_decide (t = "") then [] else [system_block ex t]
  | Parts l => omap (fun p => match p with PartText t => Some (system_block ex t) | _ => None end) l
  | Null => []
  end.

Definition call_block (c : ToolCall) : Value :=
  tool_use_block (tc_id c) (fc_name (tc_function c)) (default (VObject []) (from_str (fc_arguments (tc_function c)))).
Definition assistant_blocks (m : Message) : list Value :=
  let blocks :=
    match content m with
    | Text t => if bool_decide (t = "") then [] else [text_block t]
    | Parts l => omap (fun p => match p with PartText t => Some (text_block t) | PartReasoning r => Some (thinking_block r) | PartImageUrl _ => None end) l
    | Null => []
    end ++ (call_block <$> default [] (tool_calls m)) in
  match blocks with [] => [text_block ""] | _ => blocks end.

(** The texts of the parts, put together. *)
Definition plain_text (c : MessageContent) : string :=
  match c with
  | Text t => t
  | Parts l => String.concat "" (omap (fun p => match p with PartText t => Some t | _ => None end) l)
  | Null => ""
  end.

(** [trim_start_matches]: every copy of the pattern at the start. *)
Fixpoint trim_start_matches (fuel : nat) (p s : string) : string :=
  match fuel with
  | O => s
  | S n => match strip_prefix p s with Some r => trim_start_matches n p r | None => s end
  end.
Definition error_mark : string := "[ERROR] ".

Definition tool_result_block (m : Message) : Value :=
  let text := plain_text (content m) in
  let is_error := starts_with error_mark text in
  let content_text := if is_error then trim_start_matches (String.length text) error_mark text else text in
  let result := [("type", VString "tool_result"); ("tool_use_id", VString (default "" (tool_call_id m))); ("content", VString content_text)] in
  VObject (if is_error then obj_insert result "is_error" (VBool true) else result).

Definition user_block (p : ContentPart) : Value :=
  match p with PartText t => text_block t | PartImageUrl i => text_block (url i) | PartReasoning r => text_block r end.
Definition user_blocks (c : MessageContent) : list Value :=
  match c with Text t => [text_block t] | Parts l => user_block <$> l | Null => [] end.

(** What a message adds to the system prompt and to the turns. *)
Definition system_of (ex : Object) (m : Message) : list Value := match role m with System => system_blocks ex (content m) | _ => [] end.
Definition turns_of (m : Message) : list Value :=
  match role m with
  | System => []
  | Assistant => [turn "assistant" (VArray (assistant_blocks m))]
  | Tool => [turn "user" (VArray [tool_result_block m])]
  | User => [turn "user" (VArray (user_blocks (content m)))]
  end.

Definition stop_list (s : StopSequence) : list string := match s with Single s => [s] | Multiple l => l end.

Definition anthropic_tool (t : FunctionTool) : Value :=
  VObject (insert_some [("name", VString (tf_name (tool_function t))); ("input_schema", tf_parameters (tool_function t))]
             "description" VString (tf_description (tool_function t))).

(** The tool that stands for a response format. *)
Definition object_schema : Value := VObject [("type", VString "object")].
Definition format_tool (rf : Value) : option Value :=
  let rf_type := default "" (get_str rf "type") in
  if bool_decide (rf_type = "text") then None
  else
    let schema := if bool_decide (rf_type = "json_schema") then default object_schema (js ← get rf "json_schema"; get js "schema") else object_schema in
    Some (VObject [("name", VString "output_json"); ("description", VString "Respond with a JSON object matching the provided schema."); ("input_schema", schema)]).
Definition forced_choice : Value := VObject [("type", VString "tool"); ("name", VString "output_json")].

(** The tools and the choice among them. *)
Definition with_tools (r : ChatCompletionRequest) (body : Object) : Object :=
  let parallel := obj_get (extra r) "parallel_tool_calls" ≫= as_bool in
  let '(tc_value, strip_tools) := convert_tool_choice_for_anthropic (tool_choice r) parallel in
  if strip_tools then body
  else
    let format := response_format r ≫= format_tool in
    let tools := (anthropic_tool <$> default [] (tools r)) ++ match format with Some t => [t] | None => [] end in
    let body := match format with Some _ => obj_insert body "tool_choice" forced_choice | None => body end in
    let body := match tools with [] => body | _ => obj_insert body "tools" (VArray tools) end in
    if obj_contains body "tool_choice" then body else insert_some body "tool_choice" id tc_value.

(** The user, put into the metadata if they are an object. *)
Definition with_user (u : option string) (body : Object) : Object :=
  match u with
  | None => body
  | Some u =>
    match default (VObject []) (obj_get body "metadata") with
    | VObject m => obj_insert body "metadata" (VObject (obj_insert m "user_id" (VString u)))
    | v => obj_insert body "metadata" v
    end
  end.

Definition max_tokens_of (r : ChatCompletionRequest) : Z :=
  default 4096 (match max_completion_tokens r with Some n => Some n | None => max_tokens r end).

Definition to_anthropic_request (model : string) (r : ChatCompletionRequest) : Object :=
  let ms := ensure_role_alternation (messages r) in
  let system := ms ≫= system_of (extra r) in
  let body := [("model", VString model); ("messages", VArray (ms ≫= turns_of)); ("max_tokens", vint (max_tokens_of r))] in
  let body := match system with [] => body | _ => obj_insert body "system" (VArray system) end in
  let body := insert_some body "temperature" ser_f64 (temperature r) in
  let body := insert_some body "top_p" ser_f64 (top_p r) in
  let body := insert_some body "stop_sequences" (fun s => VArray (VString <$> stop_list s)) (stop r) in
  let body := with_tools r body in
  let body := insert_some body "thinking" id (obj_get (extra r) "thinking") in
  let body := insert_some body "metadata" id (obj_get (extra r) "metadata") in
  let body := insert_some body "top_k" id (obj_get (extra r) "top_k") in
  with_user (r_user r) body.

(** The body and the headers of a request. *)
Definition anthropic_body (model : string) (s : bool) (r : ChatCompletionRequest) : Object :=
  let body := to_anthropic_request model r in if s then obj_insert body "stream" (VBool true) else body.
Definition has_thinking (r : ChatCompletionRequest) : bool := obj_contains (extra r) "thinking".
Definition beta_headers (r : ChatCompletionRequest) : list string :=
  (if has_thinking r then ["extended-thinking-2025-04-11"] else []) ++ ["prompt-caching-2024-07-31"].

(** ** The answer *)

(** What a block of the answer adds: a part, or a call. *)
Definition answer_block (b : Value) : list ContentPart * list ToolCall :=
  let block_type := default "" (get_str b "type") in
  if bool_decide (block_type = "text") then (match get_str b "text" with Some t => [PartText t] | None => [] end, [])
  else if bool_decide (block_type = "thinking") then (match get_str b "thinking" with Some t => [PartReasoning t] | None => [] end, [])
  else if bool_decide (block_type = "tool_use") then
    let name := default "" (get_str b "name") in
    let input := default (VObject []) (get b "input") in
    if bool_decide (name = "output_json")
    then (if bool_decide (to_string input = "") then [] else [PartText (to_string input)], [])
    else ([], [mkToolCall (default "" (get_str b "id")) "function" (mkFunctionCall name (to_string input))])
  else ([], []).

Definition stop_reason_to_finish_reason (r : string) : string :=
  if bool_decide (r = "tool_use") then "tool_calls"
  else if bool_decide (r = "end_turn") || bool_decide (r = "stop") then "stop"
  else if bool_decide (r = "max_tokens") then "length" else r.

Definition nonempty_part (p : ContentPart) : bool := match p with PartText t => negb (bool_decide (t = "")) | _ => true end.
Definition answer_content (parts : list ContentPart) : MessageContent :=
  if existsb is_reasoning parts
  then match retain nonempty_part parts with [] => Text "" | l => Parts l end
  else Text (String.concat "" (omap (fun p => match p with PartText t => Some t | _ => None end) parts)).

Definition count_of (u : option Value) (k : string) : option Z := wrap32 <$> (v ← u; c ← get v k; Json.as_u64 c).

Definition from_anthropic_response (fresh_id : string) (now : Z) (resp : Value) (requested_model : string) : ChatCompletionResponse :=
  let blocks := default [] (c ← get resp "content"; as_array c) in
  let parts := blocks ≫= (fun b => (answer_block b).1) in
  let calls := blocks ≫= (fun b => (answer_block b).2) in
  let finish := stop_reason_to_finish_reason <$> get_str resp "stop_reason" in
  let u := get resp "usage" in
  let input := default 0 (count_of u "input_tokens") in
  let output := default 0 (count_of u "output_tokens") in
  mkResponse (default fresh_id (get_str resp "id")) "chat.completion" now requested_model
    [mkChoice 0 (mkMessage Assistant (answer_content parts) None (some_calls calls) None None) (match finish with Some f => Some f | None => Some "stop" end) None]
    (mkUsage input output (u32_add input output) (count_of u "cache_creation_input_tokens") (count_of u "cache_read_input_tokens") None)
    None None.

(** ** The stream *)

(** The indices of the calls: of the block each of them is in, and the next one. *)
Record Decoder := mkDecoder { tool_index_map : gmap Z Z; next_tool_index : Z }.
Definition new_decoder : Decoder := mkDecoder ∅ 0.

Definition delta_chunk (d : Transcoder.StreamDelta) : Transcoder.ChatStreamChunk := Transcoder.mkChunk [Transcoder.mkChoice 0 d None] None.
Definition content_chunk (t : string) : Transcoder.ChatStreamChunk := delta_chunk (Transcoder.mkDelta None (Some t) None None).
Definition reasoning_chunk (t : string) : Transcoder.ChatStreamChunk := delta_chunk (Transcoder.mkDelta None None None (Some t)).
Definition call_chunk (tc : Transcoder.ToolCallDelta) : Transcoder.ChatStreamChunk := delta_chunk (Transcoder.mkDelta None None (Some [tc]) None).

Definition index_of (data : Value) : Z := wrap32 (default 0 (i ← get data "index"; Json.as_u64 i)).
(** [as i32] *)
Definition as_i32 (z : Z) : Z := let m := wrap32 z in if m <? 2 ^ 31 then m else m - 2 ^ 32.

Definition on_block_start (data : Value) (d : Decoder) : list Transcoder.ChatStreamChunk * Decoder :=
  let idx := index_of data in
  let block := default VNull (get data "content_block") in
  if bool_decide (default "text" (get_str block "type") = "tool_use") then
    ([call_chunk (Transcoder.mkToolDelta (next_tool_index d) (Some (default "" (get_str block "id"))) (Some "function")
        (Some (Transcoder.mkFunctionDelta (Some (default "" (get_str block "name"))) (Some ""))))],
     mkDecoder (<[idx := next_tool_index d]> (tool_index_map d)) (u32_add (next_tool_index d) 1))
  else ([], d).

Definition on_block_delta (data : Value) (d : Decoder) : list Transcoder.ChatStreamChunk :=
  let idx := index_of data in
  let delta := default VNull (get data "delta") in
  let ty := default "" (get_str delta "type") in
  if bool_decide (ty = "text_delta") then
    let t := default "" (get_str delta "text") in if bool_decide (t = "") then [] else [content_chunk t]
  else if bool_decide (ty = "input_json_delta") then
    [call_chunk (Transcoder.mkToolDelta (default idx (tool_index_map d !! idx)) None None
       (Some (Transcoder.mkFunctionDelta None (Some (default "" (get_str delta "partial_json"))))))]
  else if bool_decide (ty = "thinking_delta") then
    let t := default "" (get_str delta "thinking") in if bool_decide (t = "") then [] else [reasoning_chunk t]
  else [].

Definition on_message_delta (data : Value) : Transcoder.ChatStreamChunk :=
  let finish := stop_reason_to_finish_reason <$> (d ← get data "delta"; get_str d "stop_reason") in
  let output := as_i32 (default 0 (u ← get data "usage"; c ← get u "output_tokens"; Json.as_u64 c)) in
  Transcoder.mkChunk [Transcoder.mkChoice 0 (Transcoder.mkDelta None None None None) finish] (Some (Transcoder.mkUsage None (Some output) None None)).

Definition on_message_start (data : Value) : Transcoder.ChatStreamChunk :=
  let input := as_i32 <$> (m ← get data "message"; u ← get m "usage"; c ← get u "input_tokens"; Json.as_u64 c) in
  Transcoder.mkChunk [Transcoder.mkChoice 0 (Transcoder.mkDelta (Some Assistant) None None None) None]
    ((fun it => Transcoder.mkUsage (Some it) (Some 0) None None) <$> input).

(** One event: its chunks, and the new state unless the stream ends with it. *)
Definition on_event (d : Decoder) (event_type : string) (data : Value) : list Transcoder.ChatStreamChunk * option Decoder :=
  if bool_decide (event_type = "content_block_start") then let '(c, d') := on_block_start data d in (c, Some d')
  else if bool_decide (event_type = "content_block_delta") then (on_block_delta data d, Some d)
  else if bool_decide (event_type = "message_delta") then ([on_message_delta data], Some d)
  else if bool_decide (event_type = "message_start") then ([on_message_start data], Some d)
  else if bool_decide (event_type = "message_stop") then ([], None)
  else ([], Some d).

(** The type and the data among the lines of an event. *)
Definition event_line (acc : string * string) (line : string) : string * string :=
  match strip_prefix "event: " line with
  | Some v => (trim v, acc.2)
  | None => match strip_prefix "data: " line with Some v => (acc.1, trim v) | None => acc end
  end.
Definition event_fields (event_text : string) : string * string := foldl event_line ("", "") (Sse.lines event_text).

Definition handle_event (d : Decoder) (event_text : string) : list Transcoder.ChatStreamChunk * option Decoder :=
  let '(ty, data) := event_fields event_text in
  if bool_decide (data = "") then ([], Some d)
  else match from_str data with Some v => on_event d ty v | None => ([], Some d) end.

(** The chunks of a connection. *)
Definition anthropic_stream (l : list (option string)) : list (Sse.Item Transcoder.ChatStreamChunk) := Sse.read handle_event new_decoder l.

(** The chunks of a list of events, up to the end. *)
Fixpoint decode (d : Decoder) (l : list (string * Value)) : list Transcoder.ChatStreamChunk :=
  match l with
  | [] => []
  | (ty, v) :: l' => match on_event d ty v with (c, Some d') => c ++ decode d' l' | (c, None) => c end
  end.

(** ** Lemmas: an answer through the gateway *)










(** ** Lemmas: the tools of a request *)

Lemma insert_some_ne {A} o k k' (f : A -> Value) a : k <> k' -> obj_get (insert_some o k f a) k' = obj_get o k'.
Proof. intros Hk. by rewrite obj_get_insert_some, bool_decide_eq_false_2. Qed.
Lemma with_user_ne u o k : k <> "metadata" -> obj_get (with_user u o) k = obj_get o k.
Proof. intros Hk. unfold with_user. destruct u; [| done]. destruct (default _ _); by rewrite obj_get_insert_ne. Qed.

(** What the body says about tools is what [with_tools] makes of a body that says
    nothing about them. *)
Lemma request_tools model r k : k = "tools" \/ k = "tool_choice" ->
  exists body, obj_get body "tools" = None /\ obj_get body "tool_choice" = None /\ obj_get (to_anthropic_request model r) k = obj_get (with_tools r body) k.
Proof.
  intros Hk. unfold to_anthropic_request. set (body0 := [("model", VString model); _; _]).
  set (body1 := match _ ≫= system_of _ with [] => body0 | _ => _ end).
  eexists. split_and!; [| | rewrite with_user_ne, !insert_some_ne by (by destruct Hk as [-> | ->]); reflexivity];
    rewrite !insert_some_ne by done; unfold body1; destruct (_ ≫= system_of _); cbn [obj_get]; rewrite ?obj_get_insert_ne by done; done.
Qed.

(** The names that a chat client uses for the choice of a tool, strings, are not seen:
    with the choice ["none"] (or ["required"], or any other string) the upstream is offered
    the tools and told to choose as it likes. *)
Theorem tool_choice_names_ignored model r s t ts : tool_choice r = Some (VString s) -> tools r = Some (t :: ts) -> response_format r = None ->
  obj_get (to_anthropic_request model r) "tools" = Some (VArray (anthropic_tool <$> t :: ts))
  /\ exists o, obj_get (to_anthropic_request model r) "tool_choice" = Some (VObject o) /\ obj_get o "type" = Some (VString "auto").
Proof.
  intros Hc Ht Hf. assert (forall body, obj_get body "tool_choice" = None -> exists o, obj_get o "type" = Some (VString "auto") /\
    with_tools r body = obj_insert (obj_insert body "tools" (VArray (anthropic_tool <$> t :: ts))) "tool_choice" (VObject o)) as Hw.
  { intros body Hb. unfold with_tools. rewrite Hc, Ht, Hf. set (p := obj_get (extra r) "parallel_tool_calls" ≫= as_bool).
    exists (disable_parallel p [("type", VString "auto")]). split; [unfold disable_parallel; by case_bool_decide |].
    change (convert_tool_choice_for_anthropic (Some (VString s)) p) with (Some (VObject (disable_parallel p [("type", VString "auto")])), false). cbn iota zeta beta.
    cbn [mbind option_bind default from_option]. rewrite app_nil_r. change (anthropic_tool <$> id (t :: ts)) with (anthropic_tool t :: (anthropic_tool <$> ts)). cbn iota. unfold obj_contains. by rewrite obj_get_insert_ne, Hb. }
  split.
  - destruct (request_tools model r "tools" ltac:(by left)) as (body & _ & Hb & ->). destruct (Hw body Hb) as (o & _ & ->). by rewrite obj_get_insert_ne, obj_get_insert.
  - destruct (request_tools model r "tool_choice" ltac:(by right)) as (body & _ & Hb & ->). destruct (Hw body Hb) as (o & Ho & ->). exists o. by rewrite obj_get_insert.
Qed.

(** An answer in a requested format ends, for a chat client, with the reason
    ["tool_calls"] although it has no call, the tool that stands for the format being
    turned into text; the stream of the same answer has the call, of a tool that the
    client never offered. *)
Theorem format_answer_diverges fresh now model id input u :
  to_string input <> "" ->
  (exists rest, choices (from_anthropic_response fresh now
     (VObject [("content", VArray [tool_use_block id "output_json" input]); ("stop_reason", VString "tool_use"); ("usage", u)]) model)
   = [mkChoice 0 (mkMessage Assistant (Text (to_string input)) None None None None) (Some "tool_calls") rest])
  /\ (on_event new_decoder "content_block_start" (VObject [("index", vint 0); ("content_block", tool_use_block id "output_json" (VObject []))])).1
   = [call_chunk (Transcoder.mkToolDelta 0 (Some id) (Some "function") (Some (Transcoder.mkFunctionDelta (Some "output_json") (Some ""))))].
Proof.
  intros Hi. split; [| reflexivity]. exists None. unfold from_anthropic_response. cbn [choices].
  assert (answer_block (tool_use_block id "output_json" input) = ([PartText (to_string input)], [])) as E.
  { transitivity (if bool_decide (to_string input = "") then @nil ContentPart else [PartText (to_string input)], @nil ToolCall); [reflexivity | by rewrite bool_decide_eq_false_2]. }
  set (v := VObject _). assert (default [] (c ← get v "content"; as_array c) = [tool_use_block id "output_json" input]) as -> by done.
  rewrite !bind_cons. rewrite E. cbn [fst snd]. done.
Qed.

(** ** Lemmas: the result of a tool through the gateway *)

Lemma starts_mark t : starts_with error_mark (error_mark +:+ t) = true.
Proof. apply starts_with_spec. by exists t. Qed.
Lemma trim_mark fuel t : starts_with error_mark t = false -> (0 < fuel)%nat -> trim_start_matches fuel error_mark (error_mark +:+ t) = t.
Proof.
  intros Ht Hf. destruct fuel as [| n]; [lia |]. cbn [trim_start_matches]. rewrite strip_prefix_app. destruct n; [done |]. cbn [trim_start_matches].
  unfold starts_with in Ht. by destruct (strip_prefix error_mark t).
Qed.
Lemma marked_length t : (0 < String.length (error_mark +:+ t))%nat.
Proof. unfold error_mark. rewrite append_cons. cbn. lia. Qed.

(** The result of a tool that an Anthropic client sends reaches an Anthropic upstream as
    it was, with its text and with its error flag, if the text does not begin with the
    mark that carries the flag. *)
Theorem tool_result_roundtrip id t e : starts_with error_mark t = false ->
  tool_result_block (tool_message (id, tool_result_text to_string (Some (AText t)) e)) =
  VObject ([("type", VString "tool_result"); ("tool_use_id", VString id); ("content", VString t)] ++ (if bool_decide (e = Some true) then [("is_error", VBool true)] else [])).
Proof.
  intros Ht. unfold tool_result_block, tool_message, tool_result_text. cbn [content tool_call_id plain_text snd fst default from_option]. case_bool_decide.
  - change ("[ERROR] " +:+ t) with (error_mark +:+ t). rewrite starts_mark, trim_mark by (done || apply marked_length). done.
  - rewrite Ht. done.
Qed.

(** The text of a result that begins with the mark is taken for an error: the upstream
    is told that the tool failed, and does not see the mark. *)
Theorem error_mark_spoofed id t e : starts_with error_mark t = false -> e <> Some true ->
  tool_result_block (tool_message (id, tool_result_text to_string (Some (AText (error_mark +:+ t))) e)) =
  VObject [("type", VString "tool_result"); ("tool_use_id", VString id); ("content", VString t); ("is_error", VBool true)].
Proof.
  intros Ht He. unfold tool_result_block, tool_message, tool_result_text. cbn [content tool_call_id plain_text snd fst default from_option].
  rewrite bool_decide_eq_false_2 by done. rewrite starts_mark, trim_mark by (done || apply marked_length). done.
Qed.

End text.

(** ** Examples *)

Lemma tool_result_roundtrip_witness :
  tool_result_block (tool_message ("toolu_1", tool_result_text (fun _ => "") (Some (AText "no such file")) (Some true))) =
  VObject [("type", VString "tool_result"); ("tool_use_id", VString "toolu_1"); ("content", VString "no such file"); ("is_error", VBool true)].
Proof. by apply (tool_result_roundtrip (fun _ => "") "toolu_1" "no such file" (Some true)). Defined.

Lemma error_mark_spoofed_witness :
  tool_result_block (tool_message ("toolu_1", tool_result_text (fun _ => "") (Some (AText "[ERROR] line 3 of the log")) None)) =
  VObject [("type", VString "tool_result"); ("tool_use_id", VString "toolu_1"); ("content", VString "line 3 of the log"); ("is_error", VBool true)].
Proof. by apply (error_mark_spoofed (fun _ => "") "toolu_1" "line 3 of the log" None). Defined.

(** Texts of the empty object and of one other value. *)
Definition demo_to_string (v : Value) : string := match v with VObject [] => "{}" | _ => "null" end.
Definition demo_from_str (s : string) : option Value := if bool_decide (s = "{}") then Some (VObject []) else if bool_decide (s = "null") then Some VNull else None.



Definition demo_tool : FunctionTool := mkTool "function" (mkToolFunction "f" None (VObject [])).
Definition demo_request (choice : Value) : ChatCompletionRequest :=
  mkRequest "m" [user_message (Text "hi")] None None (Some [demo_tool]) (Some choice) None None None None None None None None None None None None None [] [] false.

Lemma tool_choice_names_ignored_witness :
  obj_get (to_anthropic_request demo_from_str "claude" (demo_request (VString "none"))) "tools" = Some (VArray [anthropic_tool demo_tool])
  /\ exists o, obj_get (to_anthropic_request demo_from_str "claude" (demo_request (VString "none"))) "tool_choice" = Some (VObject o) /\ obj_get o "type" = Some (VString "auto").
Proof. by apply (tool_choice_names_ignored demo_from_str "claude" (demo_request (VString "none")) "none" demo_tool []). Defined.

Lemma format_answer_diverges_witness :
  (exists rest, choices (from_anthropic_response demo_to_string "chatcmpl-1" 0
     (VObject [("content", VArray [tool_use_block "toolu_1" "output_json" (VObject [])]); ("stop_reason", VString "tool_use"); ("usage", VNull)]) "m")
   = [mkChoice 0 (mkMessage Assistant (Text "{}") None None None None) (Some "tool_calls") rest])
  /\ (on_event new_decoder "content_block_start" (VObject [("index", vint 0); ("content_block", tool_use_block "toolu_1" "output_json" (VObject []))])).1
   = [call_chunk (Transcoder.mkToolDelta 0 (Some "toolu_1") (Some "function") (Some (Transcoder.mkFunctionDelta (Some "output_json") (Some ""))))].
Proof. by apply (format_answer_diverges demo_to_string "chatcmpl-1" 0 "m" "toolu_1" (VObject []) VNull). Defined.

End AnthropicProvider.
