(* ===== verification/AnthropicStream.v ===== *)
(** * AnthropicStream: an Anthropic client of an Anthropic upstream

    Puts two components together: the provider turns the upstream's events into chunks
    ([AnthropicProvider]), and the transcoder of the gateway turns those into events again
    ([Transcoder]).  The message that a client builds from the events is computed from
    the blocks that the upstream streamed. *)

From S2P Require Import Prelude Text Json Messages Transcoder Chat Anthropic Sse AnthropicProvider.

Module AnthropicStream.
Import Json Transcoder AnthropicProvider.

(** ** The message that a reader builds *)

(** The blocks, each with its deltas put together; the end of the message; whether it has
    stopped. *)
Record Built := mkBuilt { bt_blocks : gmap Z (ContentBlock * string); bt_end : option (string * Z * Z); bt_stopped : bool }.
Definition nothing_built : Built := mkBuilt ∅ None false.

Definition delta_text (d : Delta) : string := match d with TextDelta t => t | ThinkingDelta t => t | InputJsonDelta t => t end.
Definition take_event (m : Built) (e : Event) : Built :=
  match e with
  | MessageStart _ _ _ _ _ _ => m
  | BlockStart i b => mkBuilt (<[i := (b, "")]> (bt_blocks m)) (bt_end m) (bt_stopped m)
  | BlockDelta i d => mkBuilt (alter (fun x => (x.1, x.2 +:+ delta_text d)) i (bt_blocks m)) (bt_end m) (bt_stopped m)
  | BlockStop _ => m
  | MessageDelta r i o => mkBuilt (bt_blocks m) (Some (r, i, o)) (bt_stopped m)
  | MessageStop => mkBuilt (bt_blocks m) (bt_end m) true
  end.
Definition built_from (m : Built) (l : list Event) : Built := foldl take_event m l.
Definition built (l : list Event) : Built := built_from nothing_built l.

(** ** The upstream *)

(** A delta of the block's own kind, with its text, or one of another type: the signature
    of a thought, a citation. *)
Inductive Piece := Said (s : string) | Aside (ty : string) (fields : Object).
(** A block with its deltas.  Blocks of other types (redacted thinking, the results of the
    upstream's own tools) have deltas of other types. *)
Inductive Block :=
| UText (l : list Piece) | UThinking (l : list Piece) | UTool (id name : string) (l : list Piece)
| UOther (ty : string) (fields : Object) (l : list (string * Object)).

Definition words (l : list Piece) : list string := omap (fun p => match p with Said s => Some s | Aside _ _ => None end) l.
Definition known_delta (ty : string) : bool := bool_decide (ty ∈ ["text_delta"; "thinking_delta"; "input_json_delta"]).
Definition wf_piece (p : Piece) : bool := match p with Said _ => true | Aside ty _ => negb (known_delta ty) end.
Definition wf_block (b : Block) : bool :=
  match b with
  | UText l | UThinking l | UTool _ _ l => forallb wf_piece l
  | UOther ty _ l => negb (bool_decide (ty = "tool_use")) && forallb (fun x => negb (known_delta x.1)) l
  end.

Definition aside_event (i : Z) (ty : string) (fields : Object) : string * Value :=
  ("content_block_delta", VObject [("type", VString "content_block_delta"); ("index", vint i); ("delta", VObject (("type", VString ty) :: fields))]).
Definition piece_event (i : Z) (d : string -> Delta) (p : Piece) : string * Value :=
  match p with Said s => render (BlockDelta i (d s)) | Aside ty fields => aside_event i ty fields end.
Definition start_event (i : Z) (b : Block) : string * Value :=
  match b with
  | UText _ => render (BlockStart i TextBlock)
  | UThinking _ => render (BlockStart i ThinkingBlock)
  | UTool id name _ => render (BlockStart i (ToolUseBlock id name))
  | UOther ty fields _ =>
    ("content_block_start", VObject [("type", VString "content_block_start"); ("index", vint i); ("content_block", VObject (("type", VString ty) :: fields))])
  end.
Definition delta_events (i : Z) (b : Block) : list (string * Value) :=
  match b with
  | UText l => piece_event i TextDelta <$> l
  | UThinking l => piece_event i ThinkingDelta <$> l
  | UTool _ _ l => piece_event i InputJsonDelta <$> l
  | UOther _ _ l => (fun x => aside_event i x.1 x.2) <$> l
  end.
Definition block_events (i : Z) (b : Block) : list (string * Value) := start_event i b :: delta_events i b ++ [render (BlockStop i)].
Fixpoint blocks_events (i : Z) (bs : list Block) : list (string * Value) :=
  match bs with [] => [] | b :: bs' => block_events i b ++ blocks_events (i + 1) bs' end.
Definition upstream (id model : string) (input first : Z) (bs : list Block) (reason : string) (output : Z) : list (string * Value) :=
  render (MessageStart id model input first None None) :: blocks_events 0 bs ++ [render (MessageDelta reason input output); render MessageStop].

Section text.
Context (from_str : string -> option Value).
Definition is_json (s : string) : bool := match from_str s with Some _ => true | None => false end.

(** What the transcoder makes of the pieces of some arguments. *)
Definition push_piece (b a : string) : string := if bool_decide (a = "") then b else push_args is_json (Some b) a.
Definition pushed (buf : string) (l : list string) : string := foldl push_piece buf l.

(** ** The message that the client is given *)

(** A block and its text, or its arguments. *)
Notation Out := (ContentBlock * string)%type.
Definition is_tool (o : Out) : bool := match o.1 with ToolUseBlock _ _ => true | _ => false end.
(** Words are added to a block of their kind if it is the last, and else begin one; empty
    ones do nothing. *)
Definition say (b : ContentBlock) (acc : list Out) (s : string) : list Out :=
  if bool_decide (s = "") then acc
  else match last acc with
       | Some (b', u) => if bool_decide (block_kind b' = block_kind b) then removelast acc ++ [(b', u +:+ s)] else acc ++ [(b, s)]
       | None => acc ++ [(b, s)]
       end.
Definition out_block (acc : list Out) (b : Block) : list Out :=
  match b with
  | UText l => foldl (say TextBlock) acc (words l)
  | UThinking l => foldl (say ThinkingBlock) acc (words l)
  | UTool id name l => acc ++ [(ToolUseBlock id name, pushed "" (words l))]
  | UOther _ _ _ => acc
  end.
Definition gateway_blocks (bs : list Block) : list Out := foldl out_block [] bs.

(** The reason to stop, to a chat client's words and back. *)
Definition through (reason : string) : string := default "" (finish_reason_to_stop_reason (Some (stop_reason_to_finish_reason reason))).

(** The blocks as the upstream meant them. *)
Definition own_block (b : Block) : option Out :=
  match b with
  | UText l => Some (TextBlock, joined (fun s => s) (words l))
  | UThinking l => Some (ThinkingBlock, joined (fun s => s) (words l))
  | UTool id name l => Some (ToolUseBlock id name, joined (fun s => s) (words l))
  | UOther _ _ _ => None
  end.
(** A block that says something, and whose arguments do not look complete before they are. *)
Definition survives (b : Block) : Prop :=
  match b with
  | UText l | UThinking l => joined (fun s => s) (words l) <> ""
  | UTool _ _ l => pushed "" (words l) = joined (fun s => s) (words l)
  | UOther _ _ _ => True
  end.
(** No neighbours of one kind. *)
Definition same_kind (a b : Out) : bool := negb (is_tool b) && bool_decide (block_kind a.1 = block_kind b.1).
Fixpoint alternating (l : list Out) : bool :=
  match l with [] => true | a :: l' => match l' with [] => true | b :: _ => negb (same_kind a b) end && alternating l' end.

(** ** The chunks *)

Definition tool_chunk (k : Z) (id name : option string) (args : string) : ChatStreamChunk :=
  AnthropicProvider.call_chunk (mkToolDelta k id (match id with Some _ => Some "function" | None => None end) (Some (mkFunctionDelta name (Some args)))).
Definition nonempty (s : string) : bool := negb (bool_decide (s = "")).
Definition block_chunks (k : Z) (b : Block) : list ChatStreamChunk :=
  match b with
  | UText l => content_chunk <$> retain nonempty (words l)
  | UThinking l => reasoning_chunk <$> retain nonempty (words l)
  | UTool id name l => tool_chunk k (Some id) (Some name) "" :: (tool_chunk k None None <$> words l)
  | UOther _ _ _ => []
  end.
Definition next_tool (k : Z) (b : Block) : Z := match b with UTool _ _ _ => k + 1 | _ => k end.
Fixpoint all_chunks (k : Z) (bs : list Block) : list ChatStreamChunk :=
  match bs with [] => [] | b :: bs' => block_chunks k b ++ all_chunks (next_tool k b) bs' end.

(** *** Single events *)

Notation ev d e := (on_event d (render e).1 (render e).2).

Lemma index_ok i : 0 <= i < 2 ^ 32 -> wrap32 (default 0 (Json.as_u64 (vint i))) = i.
Proof.
  intros Hi. unfold Json.as_u64, vint. rewrite (proj2 (Z.leb_le 0 i)), (proj2 (Z.leb_le i u64_max)) by (unfold u64_max; lia). apply Z.mod_small. lia.
Qed.
Lemma on_stop d i : ev d (BlockStop i) = ([], Some d).
Proof. reflexivity. Qed.
Lemma on_start_text d i : ev d (BlockStart i TextBlock) = ([], Some d).
Proof. reflexivity. Qed.
Lemma on_start_thinking d i : ev d (BlockStart i ThinkingBlock) = ([], Some d).
Proof. reflexivity. Qed.
Lemma on_start_other d i ty fields l : ty <> "tool_use" -> on_event d (start_event i (UOther ty fields l)).1 (start_event i (UOther ty fields l)).2 = ([], Some d).
Proof.
  intros Ht. transitivity (let '(c, d') := on_block_start (start_event i (UOther ty fields l)).2 d in (c, Some d')); [reflexivity |].
  assert (forall v d, default "text" (Anthropic.get_str (default VNull (get v "content_block")) "type") = ty -> on_block_start v d = ([], d)) as ->; [| done | reflexivity].
  intros v d' E. unfold on_block_start. by rewrite E, bool_decide_eq_false_2.
Qed.
Lemma on_aside d i ty fields : known_delta ty = false -> on_event d (aside_event i ty fields).1 (aside_event i ty fields).2 = ([], Some d).
Proof.
  intros Ht. apply bool_decide_eq_false in Ht. transitivity (on_block_delta (aside_event i ty fields).2 d, Some d); [reflexivity |]. f_equal.
  assert (forall v, default "" (Anthropic.get_str (default VNull (get v "delta")) "type") = ty -> on_block_delta v d = []) as ->; [| done | reflexivity].
  intros v E. unfold on_block_delta. rewrite E, !bool_decide_eq_false_2; [done | intros ->; apply Ht; set_solver..].
Qed.
Lemma on_text d i s : ev d (BlockDelta i (TextDelta s)) = (if nonempty s then [content_chunk s] else [], Some d).
Proof. transitivity (if bool_decide (s = "") then @nil ChatStreamChunk else [content_chunk s], Some d); [reflexivity |]. unfold nonempty. by case_bool_decide. Qed.
Lemma on_thinking d i s : ev d (BlockDelta i (ThinkingDelta s)) = (if nonempty s then [reasoning_chunk s] else [], Some d).
Proof. transitivity (if bool_decide (s = "") then @nil ChatStreamChunk else [reasoning_chunk s], Some d); [reflexivity |]. unfold nonempty. by case_bool_decide. Qed.
Lemma on_tool d i id name : 0 <= i < 2 ^ 32 ->
  ev d (BlockStart i (ToolUseBlock id name)) =
  ([tool_chunk (next_tool_index d) (Some id) (Some name) ""], Some (mkDecoder (<[i := next_tool_index d]> (tool_index_map d)) (u32_add (next_tool_index d) 1))).
Proof.
  intros Hi. transitivity ([tool_chunk (next_tool_index d) (Some id) (Some name) ""],
    Some (mkDecoder (<[wrap32 (default 0 (Json.as_u64 (vint i))) := next_tool_index d]> (tool_index_map d)) (u32_add (next_tool_index d) 1))); [reflexivity |].
  by rewrite index_ok.
Qed.
Lemma on_json d i k s : 0 <= i < 2 ^ 32 -> tool_index_map d !! i = Some k -> ev d (BlockDelta i (InputJsonDelta s)) = ([tool_chunk k None None s], Some d).
Proof.
  intros Hi Hk. transitivity (let idx := wrap32 (default 0 (Json.as_u64 (vint i))) in ([tool_chunk (default idx (tool_index_map d !! idx)) None None s], Some d)); [reflexivity |].
  rewrite index_ok by done. cbn. by rewrite Hk.
Qed.

Lemma decode_cons d (e : string * Value) l : decode d (e :: l) = match on_event d e.1 e.2 with (c, Some d') => c ++ decode d' l | (c, None) => c end.
Proof. by destruct e. Qed.

(** Events that leave the decoder as it is. *)
Lemma decode_each {A} d (f : A -> string * Value) (g : A -> list ChatStreamChunk) l rest :
  (forall x, x ∈ l -> on_event d (f x).1 (f x).2 = (g x, Some d)) -> decode d ((f <$> l) ++ rest) = (l ≫= g) ++ decode d rest.
Proof.
  induction l as [| x l IH]; intros Hf; [done |]. cbn [fmap list_fmap app]. rewrite decode_cons, Hf by by left. rewrite bind_cons, <- app_assoc. f_equal.
  apply IH. intros y Hy. apply Hf. by right.
Qed.

Definition piece_chunks (g : string -> list ChatStreamChunk) (p : Piece) : list ChatStreamChunk := match p with Said s => g s | Aside _ _ => [] end.
Lemma decode_pieces d i (del : string -> Delta) (g : string -> list ChatStreamChunk) l rest : forallb wf_piece l = true ->
  (forall s, ev d (BlockDelta i (del s)) = (g s, Some d)) -> decode d ((piece_event i del <$> l) ++ rest) = (words l ≫= g) ++ decode d rest.
Proof.
  intros Hl Hg. rewrite (decode_each d (piece_event i del) (piece_chunks g)).
  - f_equal. clear. induction l as [| [s | ty fs] l IH]; [done | |]; rewrite bind_cons; cbn [words omap list_omap piece_chunks]; rewrite ?bind_cons; fold (words l); by rewrite IH.
  - intros p Hp. apply forallb_forall with (x := p) in Hl; [| by apply list_elem_of_In]. destruct p as [s | ty fs]; cbn in Hl |- *; [apply Hg |].
    apply on_aside. by apply negb_true_iff.
Qed.
Lemma bind_nonempty (g : string -> ChatStreamChunk) l : (l ≫= fun s => if nonempty s then [g s] else []) = g <$> retain nonempty l.
Proof. induction l as [| s l IH]; [done |]. rewrite bind_cons, retain_cons, IH. by destruct (nonempty s). Qed.
Lemma bind_single {A B} (g : A -> B) l : (l ≫= fun x => [g x]) = g <$> l.
Proof. induction l as [| x l IH]; [done |]. by rewrite bind_cons, IH. Qed.

Lemma decode_block d i b rest : 0 <= i < 2 ^ 32 -> 0 <= next_tool_index d < 2 ^ 32 - 1 -> wf_block b = true ->
  exists d', decode d (block_events i b ++ rest) = block_chunks (next_tool_index d) b ++ decode d' rest
  /\ next_tool_index d' = next_tool (next_tool_index d) b.
Proof.
  intros Hi Hk Hb. unfold block_events. cbn [app]. rewrite <- app_assoc, decode_cons.
  destruct b as [l | l | id name l | ty fields l]; cbn [wf_block] in Hb; cbn [delta_events block_chunks next_tool].
  - cbn [start_event]. rewrite on_start_text. cbn [app]. rewrite (decode_pieces d i TextDelta _ l _ Hb (on_text d i)), bind_nonempty.
    cbn [app]. rewrite decode_cons, on_stop. by exists d.
  - cbn [start_event]. rewrite on_start_thinking. cbn [app]. rewrite (decode_pieces d i ThinkingDelta _ l _ Hb (on_thinking d i)), bind_nonempty.
    cbn [app]. rewrite decode_cons, on_stop. by exists d.
  - cbn [start_event]. rewrite on_tool by done. cbn [app]. set (d' := mkDecoder _ _).
    rewrite (decode_pieces d' i InputJsonDelta (fun s => [tool_chunk (next_tool_index d) None None s]) l _ Hb)
      by (intros s; apply on_json; [done | by apply lookup_insert_eq]).
    rewrite bind_single. cbn [app]. rewrite decode_cons, on_stop. exists d'. split; [done |]. cbn. unfold u32_add, wrap32. rewrite Z.mod_small; lia.
  - apply andb_true_iff in Hb as [Ht Hl]. apply negb_true_iff, bool_decide_eq_false in Ht. rewrite on_start_other by done. cbn [app].
    rewrite (decode_each d _ (fun _ => [])).
    + replace (l ≫= fun _ => []) with (@nil ChatStreamChunk) by (clear; by induction l as [| x l IH]). cbn [app]. rewrite decode_cons, on_stop. by exists d.
    + intros x Hx. apply on_aside. apply forallb_forall with (x := x) in Hl; [| by apply list_elem_of_In]. by apply negb_true_iff.
Qed.

Lemma decode_blocks d i bs rest : 0 <= i -> i + Z.of_nat (length bs) < 2 ^ 32 -> 0 <= next_tool_index d -> next_tool_index d + Z.of_nat (length bs) < 2 ^ 32 ->
  forallb wf_block bs = true -> exists d', decode d (blocks_events i bs ++ rest) = all_chunks (next_tool_index d) bs ++ decode d' rest.
Proof.
  revert d i. induction bs as [| b bs IH]; intros d i Hi Hn Hk Hkn Hbs; [by exists d |]. cbn [length forallb] in *. apply andb_true_iff in Hbs as [Hb Hbs].
  cbn [blocks_events all_chunks]. rewrite <- app_assoc. destruct (decode_block d i b (blocks_events (i + 1) bs ++ rest)) as (d1 & -> & E1); [lia | lia | done |].
  assert (next_tool_index d <= next_tool_index d1 <= next_tool_index d + 1) by (rewrite E1; unfold next_tool; case_match; lia).
  destruct (IH d1 (i + 1)) as (d' & ->); [lia..| done |]. exists d'. by rewrite <- app_assoc, E1.
Qed.

(** *** The ends of the stream *)

Definition role_chunk (input : Z) : ChatStreamChunk :=
  mkChunk [mkChoice 0 (mkDelta (Some Messages.Assistant) None None None) None] (Some (mkUsage (Some input) (Some 0) None None)).
Definition end_chunk (finish : string) (output : Z) : ChatStreamChunk :=
  mkChunk [mkChoice 0 (mkDelta None None None None) (Some finish)] (Some (mkUsage None (Some output) None None)).

Lemma as_i32_ok i : 0 <= i < 2 ^ 31 -> Json.as_u64 (vint i) = Some i /\ as_i32 i = i.
Proof.
  intros Hi. split.
  - unfold Json.as_u64, vint. by rewrite (proj2 (Z.leb_le 0 i)), (proj2 (Z.leb_le i u64_max)) by (unfold u64_max; lia).
  - unfold as_i32, wrap32. rewrite Z.mod_small by lia. by rewrite (proj2 (Z.ltb_lt i (2 ^ 31))) by lia.
Qed.
Lemma on_message_start_ok d id model i o : 0 <= i < 2 ^ 31 -> ev d (MessageStart id model i o None None) = ([role_chunk i], Some d).
Proof.
  intros Hi. destruct (as_i32_ok i Hi) as [E1 E2]. unfold role_chunk.
  transitivity ([mkChunk [mkChoice 0 (mkDelta (Some Messages.Assistant) None None None) None] ((fun it => mkUsage (Some it) (Some 0) None None) <$> (as_i32 <$> Json.as_u64 (vint i)))], Some d);
    [reflexivity | rewrite E1; cbn; by rewrite E2].
Qed.
Lemma on_message_delta_ok d r i o : 0 <= o < 2 ^ 31 -> ev d (MessageDelta r i o) = ([end_chunk (stop_reason_to_finish_reason r) o], Some d).
Proof.
  intros Ho. destruct (as_i32_ok o Ho) as [E1 E2]. unfold end_chunk.
  transitivity ([end_chunk (stop_reason_to_finish_reason r) (as_i32 (default 0 (Json.as_u64 (vint o))))], Some d); [reflexivity | rewrite E1; cbn; by rewrite E2].
Qed.

Lemma decode_upstream id model input first bs r output :
  0 <= input < 2 ^ 31 -> 0 <= output < 2 ^ 31 -> Z.of_nat (length bs) < 2 ^ 32 -> forallb wf_block bs = true ->
  decode new_decoder (upstream id model input first bs r output) =
  role_chunk input :: all_chunks 0 bs ++ [end_chunk (stop_reason_to_finish_reason r) output].
Proof.
  intros Hi Ho Hn Hbs. unfold upstream. rewrite decode_cons, on_message_start_ok by done. cbn [app]. f_equal.
  destruct (decode_blocks new_decoder 0 bs [render (MessageDelta r input output); render MessageStop]) as (d & ->); [done | lia | done | cbn; lia | done |].
  f_equal. rewrite decode_cons, on_message_delta_ok by done. done.
Qed.

(** *** What the transcoder makes of the chunks *)

Definition tool_bufs (bs : list Out) : list string := omap (fun o => if is_tool o then Some o.2 else None) bs.
(** The indices of the blocks that are calls. *)
Fixpoint tool_pos (i : Z) (bs : list Out) : list Z :=
  match bs with [] => [] | b :: bs' => (if is_tool b then [i] else []) ++ tool_pos (i + 1) bs' end.
(** The blocks before the arguments of the calls are sent, and after. *)
Definition said (b : Out) : string := if is_tool b then "" else b.2.
Definition blank (bs : list Out) : gmap Z Out := map_seqZ 0 ((fun b => (b.1, said b)) <$> bs).
Definition full (bs : list Out) : gmap Z Out := map_seqZ 0 bs.

Definition blocks_open (bs : list Out) (t : T) : Prop :=
  let n := Z.of_nat (length bs) in
  match last bs with
  | Some (TextBlock, _) => text_block_open t = true /\ thinking_block_open t = false /\ content_block_index t = n - 1
  | Some (ThinkingBlock, _) => text_block_open t = false /\ thinking_block_open t = true /\ content_block_index t = n - 1
  | _ => text_block_open t = false /\ thinking_block_open t = false /\ content_block_index t = n
  end.

Record Sim (input : Z) (bs : list Out) (t : T) (m : Built) : Prop := {
  sim_started : message_started t = true;
  sim_pending : pending_stop_reason t = None;
  sim_open : blocks_open bs t;
  sim_tools : tool_block_map t = map_seqZ 0 (tool_pos 0 bs);
  sim_buf : forall k, default "" (tool_arg_buf t !! k) = default "" ((map_seqZ 0 (tool_bufs bs) : gmap Z string) !! k);
  sim_built : m = mkBuilt (blank bs) None false;
  sim_input : input_tokens t = input;
}.

Lemma tool_pos_snoc i bs b : tool_pos i (bs ++ [b]) = tool_pos i bs ++ (if is_tool b then [i + Z.of_nat (length bs)] else []).
Proof.
  revert i. induction bs as [| b' bs IH]; intros i; cbn [app tool_pos length]; [rewrite Z.add_0_r; by rewrite app_nil_r |].
  rewrite IH, <- app_assoc. do 2 f_equal. destruct (is_tool b); [| done]. f_equal. lia.
Qed.
Lemma tool_bufs_snoc bs b : tool_bufs (bs ++ [b]) = tool_bufs bs ++ (if is_tool b then [b.2] else []).
Proof. unfold tool_bufs. rewrite omap_app. cbn. by destruct (is_tool b). Qed.
Lemma tool_pos_length i bs : length (tool_pos i bs) = length (tool_bufs bs).
Proof. revert i. induction bs as [| b bs IH]; intros i; [done |]. cbn [tool_pos tool_bufs omap list_omap]. rewrite length_app, IH. by destruct (is_tool b). Qed.

(** A block more, or the last block with one piece more. *)
Lemma blank_snoc bs b : blank (bs ++ [b]) = <[Z.of_nat (length bs) := (b.1, said b)]> (blank bs).
Proof. unfold blank. rewrite fmap_app. cbn [fmap list_fmap]. rewrite map_seqZ_snoc. by rewrite length_fmap, Z.add_0_l. Qed.
Lemma blank_said bs b s : is_tool (b, s) = false ->
  alter (fun x => (x.1, x.2 +:+ s)) (Z.of_nat (length bs)) (<[Z.of_nat (length bs) := (b, "")]> (blank bs)) = blank (bs ++ [(b, s)]).
Proof. intros Hb. rewrite alter_insert_eq, blank_snoc. unfold said. by rewrite Hb. Qed.
Lemma blank_append bs b u s : is_tool (b, u) = false ->
  alter (fun x => (x.1, x.2 +:+ s)) (Z.of_nat (length bs)) (blank (bs ++ [(b, u)])) = blank (bs ++ [(b, u +:+ s)]).
Proof. intros Hb. rewrite !blank_snoc, alter_insert_eq. unfold said. unfold is_tool in *. cbn in *. by rewrite Hb. Qed.

(** A block that is not a call leaves the calls alone. *)
Lemma sim_talk input bs b t m : is_tool b = false ->
  message_started t = true -> pending_stop_reason t = None -> blocks_open (bs ++ [b]) t -> tool_block_map t = map_seqZ 0 (tool_pos 0 bs) ->
  (forall k, default "" (tool_arg_buf t !! k) = default "" ((map_seqZ 0 (tool_bufs bs) : gmap Z string) !! k)) ->
  m = mkBuilt (blank (bs ++ [b])) None false -> input_tokens t = input -> Sim input (bs ++ [b]) t m.
Proof.
  intros Hb H1 H2 H3 H4 H5 H6 H7. constructor; try done.
  - by rewrite tool_pos_snoc, Hb, app_nil_r.
  - intros k. by rewrite tool_bufs_snoc, Hb, app_nil_r.
Qed.
Lemma sim_talk_inv input bs b t m : is_tool b = false -> Sim input (bs ++ [b]) t m ->
  tool_block_map t = map_seqZ 0 (tool_pos 0 bs)
  /\ (forall k, default "" (tool_arg_buf t !! k) = default "" ((map_seqZ 0 (tool_bufs bs) : gmap Z string) !! k)).
Proof.
  intros Hb [_ _ _ H4 H5 _ _]. rewrite tool_pos_snoc, Hb, app_nil_r in H4. split; [done |]. intros k. by rewrite H5, tool_bufs_snoc, Hb, app_nil_r.
Qed.

Ltac open_sim H :=
  let H1 := fresh in let H2 := fresh in let H3 := fresh "Hopen" in let H4 := fresh in let H5 := fresh "Hbuf" in let H7 := fresh in
  destruct H as [H1 H2 H3 H4 H5 -> H7];
  match goal with t : AnthropicStreamTranscoder |- _ => destruct t as [rid tm st idx tx th tools buf inp out cc cr pend] end;
  unfold blocks_open in H3; cbn in H1, H2, H3, H4, H5, H7; subst.
Ltac next_index := unfold u32_add, wrap32; rewrite Z.mod_small; lia.
Ltac at_end := unfold blocks_open; rewrite last_snoc, length_app; cbn; split_and!; lia || done.

(** The end of the blocks so far is of another kind than [k]. *)
Definition ends_apart (k : Kind) (bs : list Out) : Prop := forall b, last bs = Some b -> block_kind b.1 <> k.

Lemma text_first input bs t m s : Sim input bs t m -> s <> "" -> ends_apart KText bs -> Z.of_nat (length bs) < 2 ^ 32 ->
  Sim input (bs ++ [(TextBlock, s)]) (text_delta (Some s) t).1 (built_from m (text_delta (Some s) t).2).
Proof.
  intros Hsim Hs Hl Hn. open_sim Hsim. cbn [text_delta]. rewrite (bool_decide_eq_false_2 (s = "")) by done.
  assert (tx = false /\ (if th then idx = Z.of_nat (length bs) - 1 else idx = Z.of_nat (length bs))) as [-> Hi].
  { destruct (last bs) as [[[| | id name] u] |] eqn:El; [by destruct (Hl _ El) | |..]; by destruct Hopen as (-> & -> & ->). }
  destruct th; subst idx; cbn.
  - assert (u32_add (Z.of_nat (length bs) - 1) 1 = Z.of_nat (length bs)) as -> by next_index.
    apply sim_talk; try done; [at_end | exact (f_equal (fun x => mkBuilt x None false) (blank_said bs TextBlock s eq_refl))].
  - apply sim_talk; try done; [at_end | exact (f_equal (fun x => mkBuilt x None false) (blank_said bs TextBlock s eq_refl))].
Qed.

Lemma thinking_first input bs t m s : Sim input bs t m -> s <> "" -> ends_apart KThinking bs -> Z.of_nat (length bs) < 2 ^ 32 ->
  Sim input (bs ++ [(ThinkingBlock, s)]) (reasoning_delta (Some s) t).1 (built_from m (reasoning_delta (Some s) t).2).
Proof.
  intros Hsim Hs Hl Hn. open_sim Hsim. cbn [reasoning_delta]. rewrite (bool_decide_eq_false_2 (s = "")) by done.
  assert (th = false /\ (if tx then idx = Z.of_nat (length bs) - 1 else idx = Z.of_nat (length bs))) as [-> Hi].
  { destruct (last bs) as [[[| | id name] u] |] eqn:El; [| by destruct (Hl _ El) |..]; by destruct Hopen as (-> & -> & ->). }
  destruct tx; subst idx; cbn.
  - assert (u32_add (Z.of_nat (length bs) - 1) 1 = Z.of_nat (length bs)) as -> by next_index.
    apply sim_talk; try done; [at_end | exact (f_equal (fun x => mkBuilt x None false) (blank_said bs ThinkingBlock s eq_refl))].
  - apply sim_talk; try done; [at_end | exact (f_equal (fun x => mkBuilt x None false) (blank_said bs ThinkingBlock s eq_refl))].
Qed.

Lemma text_more input bs u t m s : Sim input (bs ++ [(TextBlock, u)]) t m -> s <> "" ->
  Sim input (bs ++ [(TextBlock, u +:+ s)]) (text_delta (Some s) t).1 (built_from m (text_delta (Some s) t).2).
Proof.
  intros Hsim Hs. destruct (sim_talk_inv _ _ (TextBlock, u) _ _ eq_refl Hsim) as [Ht Hb]. open_sim Hsim. cbn in Ht, Hb. cbn [text_delta]. rewrite (bool_decide_eq_false_2 (s = "")) by done.
  rewrite last_snoc, length_app in Hopen. destruct Hopen as (-> & -> & Hi). cbn in Hi. cbn.
  apply sim_talk; try done; [at_end |]. assert (idx = Z.of_nat (length bs)) as -> by lia. cbn.
  exact (f_equal (fun x => mkBuilt x None false) (blank_append bs TextBlock u s eq_refl)).
Qed.

Lemma thinking_more input bs u t m s : Sim input (bs ++ [(ThinkingBlock, u)]) t m -> s <> "" ->
  Sim input (bs ++ [(ThinkingBlock, u +:+ s)]) (reasoning_delta (Some s) t).1 (built_from m (reasoning_delta (Some s) t).2).
Proof.
  intros Hsim Hs. destruct (sim_talk_inv _ _ (ThinkingBlock, u) _ _ eq_refl Hsim) as [Ht Hb]. open_sim Hsim. cbn in Ht, Hb. cbn [reasoning_delta]. rewrite (bool_decide_eq_false_2 (s = "")) by done.
  rewrite last_snoc, length_app in Hopen. destruct Hopen as (-> & -> & Hi). cbn in Hi. cbn.
  apply sim_talk; try done; [at_end |]. assert (idx = Z.of_nat (length bs)) as -> by lia. cbn.
  exact (f_equal (fun x => mkBuilt x None false) (blank_append bs ThinkingBlock u s eq_refl)).
Qed.

(** Words, wherever they come. *)
Lemma say_cases b acc s : s <> "" ->
  (exists bs b' u, acc = bs ++ [(b', u)] /\ block_kind b' = block_kind b /\ say b acc s = bs ++ [(b', u +:+ s)])
  \/ (ends_apart (block_kind b) acc /\ say b acc s = acc ++ [(b, s)]).
Proof.
  intros Hs. unfold say. rewrite bool_decide_eq_false_2 by done. destruct acc as [| x acc _] using rev_ind; [right; split; [| done]; by intros ? |].
  rewrite last_snoc. destruct x as [b' u]. case_bool_decide as E.
  - left. exists acc, b', u. by rewrite removelast_last.
  - right. split; [| done]. intros y. rewrite last_snoc. by intros [= <-].
Qed.
Lemma text_said input acc t m s : Sim input acc t m -> s <> "" -> Z.of_nat (length acc) < 2 ^ 32 ->
  Sim input (say TextBlock acc s) (text_delta (Some s) t).1 (built_from m (text_delta (Some s) t).2).
Proof.
  intros Hsim Hs Hn. destruct (say_cases TextBlock acc s Hs) as [(bs & b' & u & -> & Hk & ->) | [Ha ->]]; [| by apply text_first].
  destruct b'; [| done..]. by apply text_more.
Qed.
Lemma thinking_said input acc t m s : Sim input acc t m -> s <> "" -> Z.of_nat (length acc) < 2 ^ 32 ->
  Sim input (say ThinkingBlock acc s) (reasoning_delta (Some s) t).1 (built_from m (reasoning_delta (Some s) t).2).
Proof.
  intros Hsim Hs Hn. destruct (say_cases ThinkingBlock acc s Hs) as [(bs & b' & u & -> & Hk & ->) | [Ha ->]]; [| by apply thinking_first].
  destruct b'; [done | | done]. by apply thinking_more.
Qed.

(** *** Calls *)

Lemma push_default o a : push_args is_json o a = push_args is_json (Some (default "" o)) a.
Proof. by destruct o. Qed.

Definition start_delta (k : Z) (id name : string) : ToolCallDelta := mkToolDelta k (Some id) (Some "function") (Some (mkFunctionDelta (Some name) (Some ""))).
Definition args_delta (k : Z) (a : string) : ToolCallDelta := mkToolDelta k None None (Some (mkFunctionDelta None (Some a))).
Definition tools_so_far (bs : list Out) : Z := Z.of_nat (length (tool_bufs bs)).

Lemma tool_first input bs t m id name : Sim input bs t m -> Z.of_nat (length bs) < 2 ^ 32 - 1 ->
  let f := tool_deltas is_json (Some [start_delta (tools_so_far bs) id name]) in
  Sim input (bs ++ [(ToolUseBlock id name, "")]) (f t).1 (built_from m (f t).2).
Proof.
  intros Hsim Hn f. open_sim Hsim. unfold f, start_delta.
  assert (tool_deltas is_json (Some [mkToolDelta (tools_so_far bs) (Some id) (Some "function") (Some (mkFunctionDelta (Some name) (Some "")))])
    (mkTranscoder rid tm true idx tx th (map_seqZ 0 (tool_pos 0 bs)) buf input out cc cr None) =
    (mkTranscoder rid tm true (Z.of_nat (length bs) + 1) false false (<[tools_so_far bs := Z.of_nat (length bs)]> (map_seqZ 0 (tool_pos 0 bs))) buf input out cc cr None,
     (if tx || th then [BlockStop idx] else []) ++ [BlockStart (Z.of_nat (length bs)) (ToolUseBlock id name)])) as E.
  { assert (if tx || th then idx = Z.of_nat (length bs) - 1 /\ tx && th = false else idx = Z.of_nat (length bs)) as Hi
      by (destruct (last bs) as [[[| | id' name'] l] |]; by destruct Hopen as (-> & -> & ->)).
    assert (u32_add (Z.of_nat (length bs)) 1 = Z.of_nat (length bs) + 1) as E1 by next_index.
    assert (u32_add (Z.of_nat (length bs) - 1) 1 = Z.of_nat (length bs)) as E2 by next_index.
    destruct tx, th; cbn in Hi; [by destruct Hi | destruct Hi as [-> _] | destruct Hi as [-> _] | subst idx]; cbn -[u32_add tools_so_far];
      rewrite ?E2, ?E1; unfold set_tools; cbn -[tools_so_far]; done. }
  rewrite E. cbn [fst snd]. constructor; try done; cbn -[tools_so_far].
  - at_end.
  - rewrite tool_pos_snoc. cbn [is_tool fst]. rewrite map_seqZ_snoc, tool_pos_length. by rewrite !Z.add_0_l.
  - intros k. rewrite tool_bufs_snoc. cbn [is_tool fst snd]. rewrite map_seqZ_snoc, Hbuf, Z.add_0_l.
    destruct (decide (Z.of_nat (length (tool_bufs bs)) = k)) as [<- |]; [| by rewrite lookup_insert_ne].
    rewrite lookup_insert_eq. rewrite <- (Z.add_0_l (Z.of_nat _)). by rewrite map_seqZ_snoc_disjoint.
  - rewrite blank_snoc. cbn [said is_tool fst]. destruct (tx || th); done.
Qed.

Lemma tool_more input bs t m id name u a : Sim input (bs ++ [(ToolUseBlock id name, u)]) t m ->
  let f := tool_deltas is_json (Some [args_delta (tools_so_far bs) a]) in
  Sim input (bs ++ [(ToolUseBlock id name, push_piece u a)]) (f t).1 (built_from m (f t).2).
Proof.
  intros Hsim f. open_sim Hsim. rewrite last_snoc, length_app in Hopen. destruct Hopen as (-> & -> & ->). cbn [length].
  rewrite tool_bufs_snoc in Hbuf. cbn [is_tool fst snd] in Hbuf.
  set (k := tools_so_far bs). assert (forall (x : string) j, (map_seqZ 0 (tool_bufs bs ++ [x]) : gmap Z string) !! j =
    if decide (j = k) then Some x else (map_seqZ 0 (tool_bufs bs) : gmap Z string) !! j) as Hseq.
  { intros x j. rewrite map_seqZ_snoc, Z.add_0_l. destruct (decide (j = k)) as [-> | Hne]; [apply lookup_insert_eq | by apply lookup_insert_ne, not_eq_sym]. }
  assert (f (mkTranscoder rid tm true (Z.of_nat (length bs + 1)) false false (map_seqZ 0 (tool_pos 0 (bs ++ [(ToolUseBlock id name, u)]))) buf input out cc cr None) =
    (mkTranscoder rid tm true (Z.of_nat (length bs + 1)) false false (map_seqZ 0 (tool_pos 0 (bs ++ [(ToolUseBlock id name, u)])))
       (if bool_decide (a = "") then buf else <[k := push_args is_json (buf !! k) a]> buf) input out cc cr None, [])) as ->.
  { unfold f, args_delta. cbn -[push_args tool_pos tools_so_far]. by case_bool_decide. }
  cbn [fst snd]. constructor; try done; cbn -[push_args tool_pos push_piece].
  - at_end.
  - by rewrite !tool_pos_snoc.
  - intros j. rewrite tool_bufs_snoc. cbn [is_tool fst snd]. rewrite Hseq. unfold push_piece. specialize (Hbuf j) as Hj. rewrite Hseq in Hj.
    destruct (decide (j = k)) as [-> | Hne]; case_bool_decide; try done.
    + rewrite lookup_insert_eq, push_default, Hj. done.
    + by rewrite lookup_insert_ne by congruence.
  - by rewrite !blank_snoc.
Qed.

(** *** The chunks of a block *)

Lemma transcode_started t ck d : message_started t = true -> pending_stop_reason t = None -> ck = delta_chunk d ->
  transcode is_json ck t = and_then (reasoning_delta (d_reasoning_content d)) (and_then (text_delta (d_content d)) (tool_deltas is_json (d_tool_calls d))) t.
Proof.
  intros Hs Hp ->. rewrite transcode_open by done. unfold delta_chunk. cbn [take_usage ck_usage ck_choices for_each foldr]. rewrite and_then_eq, choice_eq, !and_then_eq.
  unfold start_message. rewrite Hs. cbn [sc_delta sc_finish_reason finish skip fst snd app]. by rewrite !app_nil_r.
Qed.
Lemma transcode_content t s : message_started t = true -> pending_stop_reason t = None -> transcode is_json (content_chunk s) t = text_delta (Some s) t.
Proof. intros Hs Hp. rewrite (transcode_started t (content_chunk s) (mkDelta None (Some s) None None) Hs Hp eq_refl), !and_then_eq. cbn [d_reasoning_content d_content d_tool_calls reasoning_delta tool_deltas skip fst snd app]. rewrite app_nil_r. by destruct (text_delta _ _). Qed.
Lemma transcode_reasoning t s : message_started t = true -> pending_stop_reason t = None -> transcode is_json (reasoning_chunk s) t = reasoning_delta (Some s) t.
Proof. intros Hs Hp. rewrite (transcode_started t (reasoning_chunk s) (mkDelta None None None (Some s)) Hs Hp eq_refl), !and_then_eq. cbn [d_reasoning_content d_content d_tool_calls text_delta tool_deltas skip fst snd app]. rewrite app_nil_r. by destruct (reasoning_delta _ _). Qed.
Lemma transcode_tool t tc : message_started t = true -> pending_stop_reason t = None -> transcode is_json (AnthropicProvider.call_chunk tc) t = tool_deltas is_json (Some [tc]) t.
Proof. intros Hs Hp. rewrite (transcode_started t (AnthropicProvider.call_chunk tc) (mkDelta None None (Some [tc]) None) Hs Hp eq_refl), !and_then_eq. cbn [d_reasoning_content d_content d_tool_calls text_delta reasoning_delta skip fst snd app]. by destruct (tool_deltas _ _ _). Qed.

(** Running the transcoder and the reader of its events together. *)
Definition run (l : list ChatStreamChunk) (tm : T * Built) : T * Built :=
  ((for_each (transcode is_json) l tm.1).1, built_from tm.2 (for_each (transcode is_json) l tm.1).2).
Lemma run_app l k tm : run (l ++ k) tm = run k (run l tm).
Proof. unfold run. rewrite for_each_app. cbn [fst snd]. f_equal. unfold built_from. apply foldl_app. Qed.
Lemma run_one ck t m : run [ck] (t, m) = ((transcode is_json ck t).1, built_from m (transcode is_json ck t).2).
Proof. unfold run. cbn [for_each foldr fst snd]. rewrite and_then_eq. cbn. by rewrite app_nil_r. Qed.

(** Words make at most one block more. *)
Definition grown (b : ContentBlock) (n : nat) (acc : list Out) : Prop :=
  (length acc <= n)%nat \/ (length acc <= S n)%nat /\ exists bs b' u, acc = bs ++ [(b', u)] /\ block_kind b' = block_kind b.
Lemma say_grown b n acc s : grown b n acc -> grown b n (say b acc s).
Proof.
  intros Hg. destruct (decide (s = "")) as [-> | Hs]; [unfold say; by rewrite bool_decide_eq_true_2 |].
  destruct (say_cases b acc s Hs) as [(bs & b' & u & -> & Hk & ->) | [Ha ->]].
  - destruct Hg as [Hg | [Hg _]]; [left | right; split; [| by exists bs, b', (u +:+ s)]]; rewrite length_app in *; exact Hg.
  - destruct Hg as [Hg | (_ & bs & b' & u & -> & Hk)]; [| destruct (Ha (b', u)); [apply last_snoc | done]].
    right. split; [rewrite length_app; cbn; lia | by exists acc, b, s].
Qed.
Lemma grown_length b n acc : grown b n acc -> (length acc <= S n)%nat.
Proof. intros [? | [? _]]; lia. Qed.
Lemma words_grown b acc l : (length (foldl (say b) acc l) <= S (length acc))%nat.
Proof.
  apply (grown_length b). assert (forall n acc, grown b n acc -> grown b n (foldl (say b) acc l)) as Hl; [| apply Hl; by left].
  intros n. clear acc. induction l as [| s l IH]; intros acc Hg; [done |]. cbn [foldl]. by apply IH, say_grown.
Qed.
Lemma out_block_grown acc b : (length (out_block acc b) <= S (length acc))%nat.
Proof. destruct b; cbn [out_block]; [apply words_grown..| rewrite length_app; cbn; lia | lia]. Qed.

Lemma say_nonempty b acc l : foldl (say b) acc (retain nonempty l) = foldl (say b) acc l.
Proof.
  revert acc. induction l as [| s l IH]; intros acc; [done |]. rewrite retain_cons. unfold nonempty at 1. case_bool_decide as E; cbn [negb foldl]; rewrite IH; [| done].
  unfold say at 3. by rewrite bool_decide_eq_true_2.
Qed.

Lemma run_words input b (ck : string -> ChatStreamChunk) acc l tm :
  (forall acc s t m, Sim input acc t m -> s <> "" -> Z.of_nat (length acc) < 2 ^ 32 -> Sim input (say b acc s) (run [ck s] (t, m)).1 (run [ck s] (t, m)).2) ->
  Sim input acc tm.1 tm.2 -> Z.of_nat (length acc) < 2 ^ 32 - 1 ->
  Sim input (foldl (say b) acc l) (run (ck <$> retain nonempty l) tm).1 (run (ck <$> retain nonempty l) tm).2.
Proof.
  intros Hstep Hsim Hn. rewrite <- say_nonempty. assert (Forall (fun s => s <> "") (retain nonempty l)) as Hl.
  { apply Forall_forall. intros s [Hs _]%elem_of_retain. unfold nonempty in Hs. by apply negb_true_iff, bool_decide_eq_false in Hs. }
  assert (grown b (length acc) acc) as Hg by by left. revert Hg. set (n := length acc) in *. clearbody n. revert acc tm Hsim.
  induction Hl as [| s l' Hs Hl IH]; intros acc tm Hsim Hg; [done |].
  change (ck <$> s :: l') with ([ck s] ++ (ck <$> l')). rewrite run_app. cbn [foldl]. apply IH; [| by apply say_grown].
  destruct tm as [t m]. apply Hstep; [done | done |]. apply grown_length in Hg. lia.
Qed.

Lemma run_args input acc id name u l tm : Sim input (acc ++ [(ToolUseBlock id name, u)]) tm.1 tm.2 ->
  let r := run (tool_chunk (tools_so_far acc) None None <$> l) tm in Sim input (acc ++ [(ToolUseBlock id name, pushed u l)]) r.1 r.2.
Proof.
  revert u tm. induction l as [| a l IH]; intros u tm Hsim; [done |]. cbn zeta. change (?f <$> a :: l) with ([f a] ++ (f <$> l)). rewrite run_app.
  apply (IH (push_piece u a)). destruct tm as [t m]. cbn [fst snd] in *. unfold tool_chunk. rewrite run_one, transcode_tool by apply Hsim. by apply tool_more.
Qed.

Lemma run_block input acc b tm : Sim input acc tm.1 tm.2 -> Z.of_nat (length acc) < 2 ^ 32 - 1 ->
  let r := run (block_chunks (tools_so_far acc) b) tm in Sim input (out_block acc b) r.1 r.2.
Proof.
  intros Hsim Hn. destruct b as [l | l | id name l | ty fields l]; cbn [block_chunks out_block]; cbn zeta; [| | | exact Hsim].
  - apply run_words; [| done | done]. intros acc' s t m Hs Hne Hlen. rewrite run_one, transcode_content by apply Hs. by apply text_said.
  - apply run_words; [| done | done]. intros acc' s t m Hs Hne Hlen. rewrite run_one, transcode_reasoning by apply Hs. by apply thinking_said.
  - change (?a :: ?r) with ([a] ++ r). rewrite run_app. apply run_args.
    destruct tm as [t m]. cbn [fst snd] in *. unfold tool_chunk. rewrite run_one, transcode_tool by apply Hsim. by apply tool_first.
Qed.

Lemma say_tools b acc s : is_tool (b, s) = false -> tool_bufs (say b acc s) = tool_bufs acc.
Proof.
  intros Hb. destruct (decide (s = "")) as [-> | Hs]; [unfold say; by rewrite bool_decide_eq_true_2 |].
  destruct (say_cases b acc s Hs) as [(bs & b' & u & -> & Hk & ->) | [_ ->]]; rewrite !tool_bufs_snoc.
  - by destruct b', b.
  - by rewrite Hb, app_nil_r.
Qed.
Lemma out_block_tools acc b : tools_so_far (out_block acc b) = next_tool (tools_so_far acc) b.
Proof.
  assert (forall b l acc, is_tool (b, "") = false -> tool_bufs (foldl (say b) acc l) = tool_bufs acc) as Hw.
  { clear. intros b l. induction l as [| s l IH]; intros acc Hb; [done |]. cbn [foldl]. rewrite IH by done. by apply say_tools. }
  unfold tools_so_far. destruct b as [l | l | id name l | ty fields l]; cbn [out_block next_tool]; rewrite ?Hw by done; try done.
  rewrite tool_bufs_snoc. cbn [is_tool fst snd]. rewrite length_app. cbn. lia.
Qed.

Lemma run_blocks input acc bs tm : Sim input acc tm.1 tm.2 -> Z.of_nat (length acc + length bs) < 2 ^ 32 ->
  let r := run (all_chunks (tools_so_far acc) bs) tm in Sim input (foldl out_block acc bs) r.1 r.2.
Proof.
  revert acc tm. induction bs as [| b bs IH]; intros acc tm Hsim Hn; [done |]. cbn [all_chunks foldl length] in *. cbn zeta.
  rewrite run_app, <- out_block_tools. apply IH; [apply run_block; [done | lia] |]. pose proof (out_block_grown acc b). lia.
Qed.

(** *** The end of the message *)

(** Where the calls are. *)
Lemma tool_pos_ge i bs p : p ∈ tool_pos i bs -> i <= p.
Proof. revert i. induction bs as [| b bs IH]; intros i; [by intros ?%elem_of_nil |]. cbn [tool_pos]. destruct (is_tool b); cbn; [intros [-> | H%IH]%elem_of_cons; lia | intros H%IH; lia]. Qed.
Lemma tool_pos_NoDup i bs : NoDup (tool_pos i bs).
Proof.
  revert i. induction bs as [| b bs IH]; intros i; [constructor |]. cbn [tool_pos]. destruct (is_tool b); cbn; [| apply IH]. constructor; [| apply IH].
  intros H%tool_pos_ge. lia.
Qed.
Lemma tool_pos_at i bs n b : bs !! n = Some b -> is_tool b = true -> exists k, tool_pos i bs !! k = Some (i + Z.of_nat n) /\ tool_bufs bs !! k = Some b.2.
Proof.
  revert i n. induction bs as [| c bs IH]; intros i n Hn Hb; [done |]. destruct n as [| n]; cbn in Hn.
  - injection Hn as ->. exists 0%nat. cbn. rewrite Hb, Z.add_0_r. done.
  - destruct (IH (i + 1) n Hn Hb) as (k & E1 & E2). cbn [tool_pos tool_bufs omap list_omap]. replace (i + Z.of_nat (S n)) with (i + 1 + Z.of_nat n) by lia.
    destruct (is_tool c); cbn; [by exists (S k) | by exists k].
Qed.
Lemma tool_pos_inv i bs k p : tool_pos i bs !! k = Some p -> exists n b, p = i + Z.of_nat n /\ bs !! n = Some b /\ is_tool b = true.
Proof.
  revert i k. induction bs as [| b bs IH]; intros i k Hk; [done |]. cbn [tool_pos] in Hk. destruct (is_tool b) eqn:Eb; [destruct k as [| k]; cbn in Hk |].
  - injection Hk as <-. exists 0%nat, b. split_and!; [lia | done | done].
  - destruct (IH _ _ Hk) as (n & b' & -> & E & Hb). exists (S n), b'. split_and!; [lia | done | done].
  - destruct (IH _ _ Hk) as (n & b' & -> & E & Hb). exists (S n), b'. split_and!; [lia | done | done].
Qed.

(** The buffered arguments, sent when the message ends. *)
Lemma flush_built ks t m :
  NoDup ks -> (forall k, k ∈ ks -> is_Some (tool_block_map t !! k)) ->
  (forall k k' i, tool_block_map t !! k = Some i -> tool_block_map t !! k' = Some i -> k = k') ->
  let m' := built_from m (for_each flush_tool ks t).2 in
  bt_end m' = bt_end m /\ bt_stopped m' = bt_stopped m
  /\ (forall k i c s, k ∈ ks -> tool_block_map t !! k = Some i -> bt_blocks m !! i = Some (c, s) -> bt_blocks m' !! i = Some (c, s +:+ default "" (tool_arg_buf t !! k)))
  /\ (forall i, (forall k, k ∈ ks -> tool_block_map t !! k <> Some i) -> bt_blocks m' !! i = bt_blocks m !! i).
Proof.
  revert t m. induction ks as [| k ks IH]; intros t m Hnd Hks Hinj; [cbn; split_and!; try done; by intros k i c s ?%elem_of_nil |].
  apply NoDup_cons in Hnd as [Hk Hnd]. destruct (Hks k ltac:(by left)) as [i Hi]. cbn zeta.
  change (for_each flush_tool (k :: ks)) with (and_then (flush_tool k) (for_each flush_tool ks)). rewrite and_then_eq. cbn [snd].
  set (t1 := (flush_tool k t).1). assert (tool_block_map t1 = tool_block_map t /\ forall j, j <> k -> tool_arg_buf t1 !! j = tool_arg_buf t !! j) as [Em Ea].
  { unfold t1, flush_tool. rewrite Hi. cbn. split; [done |]. intros j Hj. by apply lookup_delete_ne. }
  set (m1 := built_from m (flush_tool k t).2).
  assert (bt_end m1 = bt_end m /\ bt_stopped m1 = bt_stopped m /\ bt_blocks m1 = alter (fun x => (x.1, x.2 +:+ default "" (tool_arg_buf t !! k))) i (bt_blocks m)) as (E1 & E2 & E3).
  { unfold m1, flush_tool. rewrite Hi. cbn [snd]. destruct (tool_arg_buf t !! k) as [b |]; [case_bool_decide as Eb |]; cbn; split_and!; try done;
      symmetry; apply map_eq; intros j; destruct (decide (i = j)) as [<- |]; rewrite ?lookup_alter_eq, ?lookup_alter_ne by done; try done;
      destruct (bt_blocks m !! i) as [[c s] |]; cbn; try done; subst; by rewrite append_nil_r. }
  unfold built_from at 1 2 3 4. rewrite foldl_app. fold (built_from m (flush_tool k t).2). fold m1. fold (built_from m1 (for_each flush_tool ks t1).2).
  destruct (IH t1 m1 Hnd) as (F1 & F2 & F3 & F4); [intros j Hj; rewrite Em; apply Hks; by right | rewrite Em; apply Hinj |]. split_and!.
  - by rewrite F1.
  - by rewrite F2.
  - intros k' i' c s Hk' Hi' Hb. apply elem_of_cons in Hk' as [-> | Hk'].
    + rewrite Hi in Hi'. injection Hi' as <-. rewrite F4; [rewrite E3, lookup_alter_eq, Hb; done |]. intros j Hj. rewrite Em. intros Hji. by rewrite (Hinj _ _ _ Hji Hi) in Hj.
    + rewrite (F3 k' i' c s); [by rewrite Ea by (by intros ->) | done | by rewrite Em |]. rewrite E3, lookup_alter_ne; [done |]. intros ->. by rewrite (Hinj _ _ _ Hi Hi') in Hk.
  - intros i' Hi'. rewrite F4; [| intros j Hj; rewrite Em; apply Hi'; by right]. rewrite E3. apply lookup_alter_ne. intros ->. by apply (Hi' k ltac:(by left)).
Qed.

Lemma built_app m l k : built_from m (l ++ k) = built_from (built_from m l) k.
Proof. apply foldl_app. Qed.

Lemma closing_built t m : built_from m (close_open_block t).2 = m.
Proof. unfold close_open_block, close_thinking, close_text. by destruct (thinking_block_open t), (text_block_open t). Qed.
Lemma closing_same t : tool_block_map (close_open_block t).1 = tool_block_map t /\ tool_arg_buf (close_open_block t).1 = tool_arg_buf t
  /\ input_tokens (close_open_block t).1 = input_tokens t /\ output_tokens (close_open_block t).1 = output_tokens t.
Proof. unfold close_open_block, close_thinking, close_text. by destruct (thinking_block_open t), (text_block_open t). Qed.

(** Flushing the calls of a stream fills in what was missing. *)
Lemma flush_fills input bs t m : Sim input bs t m -> forall t1,
  tool_block_map t1 = tool_block_map t -> tool_arg_buf t1 = tool_arg_buf t ->
  built_from m (for_each flush_tool (tool_indices t1) t1).2 = mkBuilt (full bs) None false.
Proof.
  intros [_ _ _ H4 H5 -> _] t1 Em Ea.
  destruct (flush_built (tool_indices t1) t1 (mkBuilt (blank bs) None false)) as (F1 & F2 & F3 & F4).
  { apply tool_indices_NoDup. }
  { intros k. apply tool_indices_spec. }
  { rewrite Em, H4. intros k k' i Hk Hk'. apply lookup_map_seqZ_Some in Hk as [Hk0 Hk], Hk' as [Hk0' Hk']. pose proof (NoDup_lookup _ _ _ _ (tool_pos_NoDup 0 bs) Hk Hk'). lia. }
  destruct (built_from _ _) as [mp e st]. cbn in F1, F2, F3, F4. subst. f_equal. apply map_eq. intros i. unfold full.
  assert (blank bs !! i = (map_seqZ 0 ((fun b => (b.1, said b)) <$> bs) : gmap Z Out) !! i) as Eb by done.
  destruct (decide (0 <= i)) as [Hi | Hi].
  2:{ rewrite F4.
      - unfold blank. transitivity (@None Out); [| symmetry]; apply lookup_map_seqZ_None; lia.
      - intros k _ Hk. rewrite Em, H4 in Hk. apply lookup_map_seqZ_Some in Hk as [_ Hk]. destruct (tool_pos_inv _ _ _ _ Hk) as (p & b & -> & _). lia. }
  rewrite lookup_map_seqZ_0 in Eb |- * by done. rewrite list_lookup_fmap in Eb. destruct (bs !! Z.to_nat i) as [b |] eqn:Ebs; cbn in Eb |- *.
  - destruct (is_tool b) eqn:Et.
    + destruct (tool_pos_at 0 bs _ b Ebs Et) as (k & Ek & El). rewrite Z.add_0_l, Z2Nat.id in Ek by done.
      assert (tool_block_map t1 !! Z.of_nat k = Some i) as Hk by (rewrite Em, H4, lookup_map_seqZ_0, Nat2Z.id by lia; done).
      rewrite (F3 (Z.of_nat k) i _ _ (proj2 (tool_indices_spec t1 _) (ex_intro _ _ Hk)) Hk Eb). unfold said. rewrite Et, append_nil, Ea, H5.
      rewrite lookup_map_seqZ_0, Nat2Z.id, El by lia. by destruct b.
    + rewrite F4; [rewrite Eb; unfold said; rewrite Et; by destruct b |]. intros k _ Hk. rewrite Em, H4 in Hk. apply lookup_map_seqZ_Some in Hk as [_ Hk].
      destruct (tool_pos_inv _ _ _ _ Hk) as (n & b' & -> & E & Hb'). rewrite Z.add_0_l, Nat2Z.id in Ebs. congruence.
  - rewrite F4; [done |]. intros k _ Hk. rewrite Em, H4 in Hk. apply lookup_map_seqZ_Some in Hk as [_ Hk]. destruct (tool_pos_inv _ _ _ _ Hk) as (n & b' & -> & E & _).
    rewrite Z.add_0_l, Nat2Z.id in Ebs. congruence.
Qed.

Lemma run_end input bs tm f output r : Sim input bs tm.1 tm.2 -> 0 <= output < 2 ^ 31 -> finish_reason_to_stop_reason (Some f) = Some r ->
  let tm' := run [end_chunk f output] tm in built_from tm'.2 (drain tm'.1).2 = mkBuilt (full bs) (Some (r, input, Z.max output 1)) true.
Proof.
  intros Hsim Ho Hr. destruct tm as [t m]. cbn [fst snd] in *. rewrite run_one. cbn zeta. cbn [fst snd].
  set (t1 := set_tokens (input_tokens t) output t).
  assert (transcode is_json (end_chunk f output) t = finish (Some f) t1) as ->.
  { rewrite transcode_open by apply Hsim. unfold end_chunk. cbn [take_usage ck_usage su_prompt_tokens su_completion_tokens ck_choices for_each foldr]. rewrite and_then_eq, choice_eq, !and_then_eq.
    assert (wrap32 output = output) as -> by (unfold wrap32; apply Z.mod_small; lia). fold t1. unfold start_message.
    assert (message_started t1 = true) as -> by apply (sim_started _ _ _ _ Hsim). cbn [sc_delta sc_finish_reason d_reasoning_content d_content d_tool_calls reasoning_delta text_delta tool_deltas skip fst snd app].
    rewrite app_nil_r. by destruct (finish _ _). }
  unfold finish. rewrite and_then_eq, and_then_eq. cbn [update fst snd]. rewrite app_nil_r, built_app, closing_built.
  destruct (closing_same t1) as (Em & Ea & Ei & Eo). set (t2 := (close_open_block t1).1) in *.
  rewrite (flush_fills input bs t m Hsim t2 Em Ea). unfold drain. cbn [set_pending pending_stop_reason fst snd]. rewrite Hr.
  assert (forall ks t, input_tokens (for_each flush_tool ks t).1 = input_tokens t /\ output_tokens (for_each flush_tool ks t).1 = output_tokens t) as Hfl.
  { intros ks t'. split; revert t'; apply frames_for_each; intros k t'; unfold flush_tool; by destruct (tool_block_map t' !! k). }
  unfold built_from. cbn. rewrite !(proj1 (Hfl _ _)), !(proj2 (Hfl _ _)), Ei, Eo. unfold t1. cbn. by rewrite (sim_input _ _ _ _ Hsim).
Qed.

(** *** Messages that come through unchanged *)

Lemma joined_snoc l s : joined (fun s => s) (l ++ [s]) = joined (fun s => s) l +:+ s.
Proof. rewrite joined_app. cbn. by rewrite append_nil_r. Qed.

Lemma append_nonempty u s : s <> "" -> u +:+ s <> "".
Proof. intros Hs. destruct u; [by rewrite append_nil | by rewrite append_cons]. Qed.

(** Words that begin a block. *)
Lemma words_apart b acc l : ends_apart (block_kind b) acc ->
  foldl (say b) acc l = if bool_decide (joined (fun s => s) l = "") then acc else acc ++ [(b, joined (fun s => s) l)].
Proof.
  intros Ha. induction l as [| s l IH] using rev_ind; [done |]. rewrite foldl_snoc, IH, joined_snoc. clear IH. generalize (joined (fun s => s) l). intros u.
  destruct (decide (s = "")) as [-> | Hs]; [rewrite append_nil_r; unfold say; by rewrite (bool_decide_eq_true_2 ("" = "")) |].
  rewrite (bool_decide_eq_false_2 (u +:+ s = "")) by by apply append_nonempty.
  destruct (decide (u = "")) as [Eu | Eu].
  - rewrite bool_decide_eq_true_2, Eu, append_nil by done.
    destruct (say_cases b acc s Hs) as [(bs & b' & v & E & Hk & _) | [_ ->]]; [| done]. subst acc. destruct (Ha (b', v)); [apply last_snoc | done].
  - rewrite bool_decide_eq_false_2 by done. unfold say. rewrite (bool_decide_eq_false_2 (s = "")), last_snoc, bool_decide_eq_true_2 by done. by rewrite removelast_last.
Qed.

Lemma own_alternating acc bs : Forall survives bs -> alternating (omap own_block bs) = true ->
  (forall a b, last acc = Some a -> hd_error (omap own_block bs) = Some b -> same_kind a b = false) -> foldl out_block acc bs = acc ++ omap own_block bs.
Proof.
  intros Hs. revert acc. induction Hs as [| b bs Hb Hs IH]; intros acc Ha Hl; [by rewrite app_nil_r |]. cbn [foldl].
  assert (forall o, own_block b = Some o -> out_block acc b = acc ++ [o] -> foldl out_block (out_block acc b) bs = acc ++ omap own_block (b :: bs)) as Hone.
  { intros o Eo ->. cbn [omap list_omap] in Ha, Hl |- *. rewrite Eo in Ha, Hl |- *. cbn [alternating] in Ha. apply andb_prop in Ha as [Ha1 Ha2].
    rewrite IH; [by rewrite <- app_assoc | done |]. intros a c. rewrite last_snoc. intros [= <-] Hc. destruct (omap own_block bs) as [| c' rest]; [done |]. injection Hc as ->.
    by destruct (same_kind o c). }
  destruct b as [l | l | id name l | ty fields l]; cbn [own_block survives] in *.
  - apply (Hone _ eq_refl). cbn [out_block]. rewrite words_apart, bool_decide_eq_false_2; [done | done |]. intros a Ea Ek. specialize (Hl a _ Ea eq_refl).
    unfold same_kind, is_tool in Hl. cbn in Hl, Ek. rewrite Ek in Hl. rewrite bool_decide_eq_true_2 in Hl by done. by destruct a as [[] ?].
  - apply (Hone _ eq_refl). cbn [out_block]. rewrite words_apart, bool_decide_eq_false_2; [done | done |]. intros a Ea Ek. specialize (Hl a _ Ea eq_refl).
    unfold same_kind, is_tool in Hl. cbn in Hl, Ek. rewrite Ek in Hl. rewrite bool_decide_eq_true_2 in Hl by done. by destruct a as [[] ?].
  - apply (Hone _ eq_refl). cbn [out_block]. by rewrite Hb.
  - by apply IH.
Qed.

Lemma through_own reason : reason ∉ ["stop"; "tool_calls"; "length"] -> through reason = reason.
Proof.
  intros Hr. unfold through, stop_reason_to_finish_reason, finish_reason_to_stop_reason. cbn [fmap option_fmap option_map default from_option id].
  repeat (case_bool_decide; subst; cbn [orb]; try done); try (destruct Hr; set_solver).
Qed.

(** C7: the message that an Anthropic client builds from the gateway's stream of an
    Anthropic upstream, whatever texts, thoughts, calls and blocks of other types without
    arguments the upstream streams.  It has the texts and the thoughts in order, those
    that follow each other as one block and the empty ones left out; the calls, each with
    its arguments put together as the gateway does; not the signatures, the citations
    and the other blocks; and the counts of tokens, and the reason to stop.  When no two
    neighbours are of one kind, none is empty, and no arguments look complete before they
    are, these are the upstream's own blocks; and Anthropic's reasons to stop are kept. *)
Theorem stream_through_gateway id model id' model' input first bs reason output :
  forallb wf_block bs = true -> Z.of_nat (length bs) < 2 ^ 32 -> 0 <= input < 2 ^ 31 -> 0 <= output < 2 ^ 31 ->
  built (transcript is_json (decode new_decoder (upstream id model input first bs reason output)) (new id' model'))
    = mkBuilt (full (gateway_blocks bs)) (Some (through reason, input, Z.max output 1)) true
  /\ (Forall survives bs -> alternating (omap own_block bs) = true -> gateway_blocks bs = omap own_block bs)
  /\ (reason ∉ ["stop"; "tool_calls"; "length"] -> through reason = reason).
Proof.
  intros Hbs Hn Hi Ho. split_and!; [| intros Hs Ha; by apply (own_alternating []) | apply through_own].
  rewrite decode_upstream by done. set (f := stop_reason_to_finish_reason reason) in *.
  unfold built, transcript. rewrite and_then_eq. cbn [snd]. rewrite built_app.
  change (built_from nothing_built (for_each (transcode is_json) ?l (new id' model')).2) with (run l (new id' model', nothing_built)).2.
  change (for_each (transcode is_json) ?l (new id' model')).1 with (run l (new id' model', nothing_built)).1.
  change (role_chunk input :: all_chunks 0 bs ++ [end_chunk f output]) with ([role_chunk input] ++ all_chunks (tools_so_far []) bs ++ [end_chunk f output]).
  rewrite !run_app. apply (run_end input (gateway_blocks bs)); [| done | done].
  apply (run_blocks input []); [| done].
  rewrite run_one. cbn [fst snd]. constructor; try done. cbn. unfold wrap32. apply Z.mod_small. lia.
Qed.

End text.

(** ** A stream *)

(** An answer that thinks, with a signature, and in secret, speaks in two blocks and calls. *)
Definition demo_text (s : string) : option Value := if bool_decide (s = "{}") then Some (VObject []) else None.
Definition demo_blocks : list Block :=
  [UThinking [Said "hm"; Aside "signature_delta" [("signature", VString "EqQB")]]; UOther "redacted_thinking" [("data", VString "EmwK")] [];
   UText [Said "Let me "; Said "see."]; UText [Said ""; Said " Here:"];
   UTool "toolu_1" "f" [Said ""; Said "{x"; Said "}"]; UTool "toolu_2" "g" [Said "{}"]; UText [Said "Done."]].

Lemma stream_through_gateway_witness :
  built (transcript (is_json demo_text) (decode new_decoder (upstream "msg_1" "claude" 12 1 demo_blocks "tool_use" 34)) (new "msg_2" "m"))
  = mkBuilt (full [(ThinkingBlock, "hm"); (TextBlock, "Let me see. Here:"); (ToolUseBlock "toolu_1" "f", "{x}"); (ToolUseBlock "toolu_2" "g", "{}"); (TextBlock, "Done.")])
      (Some ("tool_use", 12, 34)) true
  /\ gateway_blocks demo_text (take 3 demo_blocks) = [(ThinkingBlock, "hm"); (TextBlock, "Let me see.")].
Proof.
  assert (forall bs r, forallb wf_block bs = true -> Z.of_nat (length bs) < 2 ^ 32 -> _) as H
    by (intros bs r Hb Hn; refine (stream_through_gateway demo_text "msg_1" "claude" "msg_2" "m" 12 1 bs r 34 Hb Hn _ _); lia).
  split.
  - assert (gateway_blocks demo_text demo_blocks =
      [(ThinkingBlock, "hm"); (TextBlock, "Let me see. Here:"); (ToolUseBlock "toolu_1" "f", "{x}"); (ToolUseBlock "toolu_2" "g", "{}"); (TextBlock, "Done.")]) as <-
      by (vm_compute; reflexivity).
    exact (proj1 (H demo_blocks "tool_use" eq_refl eq_refl)).
  - destruct (H (take 3 demo_blocks) "end_turn" eq_refl eq_refl) as (_ & Hs & _). apply Hs; [by repeat constructor | reflexivity].
Defined.

End AnthropicStream.
