(* ===== verification/ChatStream.v ===== *)
(** * ChatStream: the stream of a chat client, and the usage that is charged for it

    Models, of [boom-main/src/routes.rs], the task that forwards the chunks of a stream to
    a chat client ([sse_stream_from_chat_stream]) and the usage that it tracks, as
    [LoggedStream] settles it.  The identifier, the time and the model of a chunk are not
    in the model; the source leaves them empty in the chunks that it makes itself. *)

From S2P Require Import Prelude Text Json Messages Transcoder Chat Anthropic Sse AnthropicProvider AnthropicStream.

Module ChatStream.
Import Json Transcoder.

(** ** Usage *)

Record UsageTrackerState := mkTracker { prompt_tokens : option Z; completion_tokens : option Z; cached_tokens : option Z }.
Definition no_usage : UsageTrackerState := mkTracker None None None.

(** The usage of a chunk replaces what was there. *)
Definition track_usage (g : UsageTrackerState) (ck : ChatStreamChunk) : UsageTrackerState :=
  match ck_usage ck with
  | None => g
  | Some u => mkTracker (su_prompt_tokens u) (su_completion_tokens u) (AnthropicProvider.as_i32 <$> (d ← su_cached_tokens u; d))
  end.
Definition tracked (l : list ChatStreamChunk) : UsageTrackerState := foldl track_usage no_usage l.

Definition tokens (o : option Z) : Z := Z.max (default 0 o) 0.
(** The usage of a composite provider is taken when it counts more. *)
Definition preferred_stream_usage (observed : UsageTrackerState) (provider : option Chat.Usage) : option Z * option Z * option Z :=
  let observed_total := tokens (prompt_tokens observed) + tokens (completion_tokens observed) in
  match provider with
  | Some u =>
    let cached := d ← Chat.prompt_tokens_details u; d in
    if observed_total <? Chat.prompt_tokens u + Chat.completion_tokens u
    then (Some (Z.min (Chat.prompt_tokens u) (2 ^ 31 - 1)), Some (Z.min (Chat.completion_tokens u) (2 ^ 31 - 1)), cached)
    else (prompt_tokens observed, completion_tokens observed, match cached_tokens observed with Some c => Some c | None => cached end)
  | None => (prompt_tokens observed, completion_tokens observed, cached_tokens observed)
  end.
(** What the plan is charged: the tokens of the prompt, cached, and of the answer. *)
Definition settled_tokens (u : option Z * option Z * option Z) : Z * Z * Z := (tokens u.1.1, tokens u.2, tokens u.1.2).

(** ** The stream *)

Inductive ChatItem := Forward (ck : ChatStreamChunk) | UpstreamError.

Section text.
Context (is_json : string -> bool).

(** The arguments of a call go to the buffer of its index. *)
Definition take_args (buf : gmap Z string) (tc : ToolCallDelta) : gmap Z string * ToolCallDelta :=
  match td_function tc with
  | None => (buf, tc)
  | Some f =>
    let tc' := mkToolDelta (td_index tc) (td_id tc) (td_type tc) (Some (mkFunctionDelta (fd_name f) None)) in
    match fd_arguments f with
    | None => (buf, tc')
    | Some args => (if bool_decide (args = "") then buf else <[td_index tc := push_args is_json (buf !! td_index tc) args]> buf, tc')
    end
  end.
Fixpoint take_all {A} (f : gmap Z string -> A -> gmap Z string * A) (buf : gmap Z string) (l : list A) : gmap Z string * list A :=
  match l with
  | [] => (buf, [])
  | x :: l' => let '(buf1, x') := f buf x in let '(buf2, l2) := take_all f buf1 l' in (buf2, x' :: l2)
  end.
Definition take_choice (buf : gmap Z string) (c : StreamChoice) : gmap Z string * StreamChoice :=
  match d_tool_calls (sc_delta c) with
  | None => (buf, c)
  | Some l => let '(buf', l') := take_all take_args buf l in
              (buf', mkChoice (sc_index c) (mkDelta (d_role (sc_delta c)) (d_content (sc_delta c)) (Some l') (d_reasoning_content (sc_delta c))) (sc_finish_reason c))
  end.

Definition has_finish (ck : ChatStreamChunk) : bool := existsb (fun c => match sc_finish_reason c with Some _ => true | None => false end) (ck_choices ck).

(** The chunk that a buffer becomes: always of the first choice. *)
Definition flush_chunk (k : Z) (args : string) : ChatStreamChunk :=
  mkChunk [mkChoice 0 (mkDelta None None (Some [mkToolDelta k None None (Some (mkFunctionDelta None (Some args)))]) None) None] None.
Definition flush_key (buf : gmap Z string) (k : Z) : list ChatStreamChunk :=
  match buf !! k with Some b => if bool_decide (b = "") then [] else [flush_chunk k b] | None => [] end.
Definition flush (buf : gmap Z string) : list ChatStreamChunk := merge_sort Z.le (map_to_list buf).*1 ≫= flush_key buf.

(** A chunk: what is sent, and the buffers after it. *)
Definition forward (buf : gmap Z string) (ck : ChatStreamChunk) : list ChatStreamChunk * gmap Z string :=
  let '(buf', choices) := take_all take_choice buf (ck_choices ck) in
  let ck' := mkChunk choices (ck_usage ck) in
  if has_finish ck then (flush buf' ++ [ck'], ∅) else ([ck'], buf').

(** The task: an error is told to the client, and the stream goes on. *)
Fixpoint chat_items (buf : gmap Z string) (l : list (option ChatStreamChunk)) : list ChatItem :=
  match l with
  | [] => []
  | None :: l' => UpstreamError :: chat_items buf l'
  | Some ck :: l' => let '(out, buf') := forward buf ck in (Forward <$> out) ++ chat_items buf' l'
  end.

(** The chunks of a stream without errors, and what stays in the buffers. *)
Fixpoint forward_all (buf : gmap Z string) (l : list ChatStreamChunk) : list ChatStreamChunk * gmap Z string :=
  match l with
  | [] => ([], buf)
  | ck :: l' => let '(out, buf1) := forward buf ck in let '(out', buf2) := forward_all buf1 l' in (out ++ out', buf2)
  end.

Lemma chat_items_ok buf l : chat_items buf (Some <$> l) = Forward <$> (forward_all buf l).1.
Proof.
  revert buf. induction l as [| ck l IH]; intros buf; [done |]. cbn [fmap list_fmap chat_items forward_all]. destruct (forward buf ck) as [out buf1]. rewrite IH.
  destruct (forward_all buf1 l) as [out' buf2]. cbn [fst]. by rewrite fmap_app.
Qed.

(** ** Lemmas: arguments *)

(** The pieces of the arguments of the call [k], and the arguments that a client puts
    together. *)
Definition delta_pieces (k : Z) (tc : ToolCallDelta) : list string :=
  if td_index tc =? k then match f ← td_function tc; fd_arguments f with Some a => [a] | None => [] end else [].
Definition choice_pieces (k : Z) (c : StreamChoice) : list string := default [] (d_tool_calls (sc_delta c)) ≫= delta_pieces k.
Definition chunk_pieces (k : Z) (ck : ChatStreamChunk) : list string := ck_choices ck ≫= choice_pieces k.
Definition stream_pieces (k : Z) (l : list ChatStreamChunk) : list string := l ≫= chunk_pieces k.

Definition push_piece (b a : string) : string := if bool_decide (a = "") then b else push_args is_json (Some b) a.
Definition pushed (b : string) (l : list string) : string := foldl push_piece b l.
Definition buffer_of (k : Z) (buf : gmap Z string) : string := default "" (buf !! k).

Lemma pushed_app b l l' : pushed b (l ++ l') = pushed (pushed b l) l'.
Proof. apply foldl_app. Qed.

Lemma take_args_ok k buf tc : buffer_of k (take_args buf tc).1 = pushed (buffer_of k buf) (delta_pieces k tc) /\ delta_pieces k (take_args buf tc).2 = [].
Proof.
  unfold take_args, delta_pieces. destruct tc as [i id ty [[nm [a |]] |]]; cbn -[push_args bool_decide].
  - destruct (Z.eqb_spec i k) as [-> | Hne]; (split; [| done]); unfold buffer_of; cbn [pushed foldl]; unfold push_piece; case_bool_decide; try done.
    + rewrite lookup_insert_eq. cbn. by destruct (buf !! k).
    + by rewrite lookup_insert_ne.
  - by destruct (i =? k).
  - by destruct (i =? k).
Qed.
Lemma take_all_ok {A} k (f : gmap Z string -> A -> gmap Z string * A) (pieces : A -> list string) buf l :
  (forall buf x, buffer_of k (f buf x).1 = pushed (buffer_of k buf) (pieces x) /\ pieces (f buf x).2 = []) ->
  buffer_of k (take_all f buf l).1 = pushed (buffer_of k buf) (l ≫= pieces) /\ (take_all f buf l).2 ≫= pieces = [].
Proof.
  intros Hf. revert buf. induction l as [| x l IH]; intros buf; [done |]. cbn [take_all]. destruct (Hf buf x) as [E1 E2]. destruct (f buf x) as [buf1 x'].
  destruct (IH buf1) as [F1 F2]. destruct (take_all f buf1 l) as [buf2 l']. cbn [fst snd] in *. rewrite !bind_cons, pushed_app, <- E1, E2, F2. done.
Qed.
Lemma take_choice_ok k buf c : buffer_of k (take_choice buf c).1 = pushed (buffer_of k buf) (choice_pieces k c) /\ choice_pieces k (take_choice buf c).2 = [].
Proof.
  unfold take_choice, choice_pieces. destruct (d_tool_calls (sc_delta c)) as [l |] eqn:E; [| cbn [fst snd]; by rewrite E].
  destruct (take_all_ok k take_args (delta_pieces k) buf l (take_args_ok k)) as [E1 E2]. by destruct (take_all take_args buf l).
Qed.

(** A stream of chunks none of which finishes, and the chunk that does. *)
Lemma forward_open k buf ck : has_finish ck = false -> exists ck', forward buf ck = ([ck'], (take_all take_choice buf (ck_choices ck)).1) /\ chunk_pieces k ck' = [].
Proof.
  intros Hf. unfold forward. destruct (take_all_ok k take_choice (choice_pieces k) buf (ck_choices ck) (take_choice_ok k)) as [E1 E2].
  destruct (take_all take_choice buf (ck_choices ck)) as [buf' cs]. rewrite Hf. by eexists.
Qed.
Lemma forward_all_open k buf l : Forall (fun ck => has_finish ck = false) l ->
  buffer_of k (forward_all buf l).2 = pushed (buffer_of k buf) (stream_pieces k l) /\ stream_pieces k (forward_all buf l).1 = [].
Proof.
  intros Hl. revert buf. induction Hl as [| ck l Hck Hl IH]; intros buf; [done |]. cbn [forward_all].
  destruct (forward_open k buf ck Hck) as (ck' & -> & Ep). destruct (take_all_ok k take_choice (choice_pieces k) buf (ck_choices ck) (take_choice_ok k)) as [E1 _].
  set (buf1 := (take_all take_choice buf (ck_choices ck)).1) in *. destruct (IH buf1) as [F1 F2]. destruct (forward_all buf1 l) as [out buf2]. cbn [fst snd app] in *.
  unfold stream_pieces in *. rewrite !bind_cons, Ep, F2, pushed_app. split; [| done]. rewrite F1, E1. done.
Qed.

Lemma forward_all_app buf l k : forward_all buf (l ++ k) =
  ((forward_all buf l).1 ++ (forward_all (forward_all buf l).2 k).1, (forward_all (forward_all buf l).2 k).2).
Proof.
  revert buf. induction l as [| ck l IH]; intros buf; [cbn; by destruct (forward_all buf k) |]. cbn [app forward_all]. destruct (forward buf ck) as [out buf1].
  rewrite IH. destruct (forward_all buf1 l) as [out' buf2]. cbn [fst snd]. by rewrite app_assoc.
Qed.

(** A chunk without the arguments of its calls. *)
Definition strip_call (tc : ToolCallDelta) : ToolCallDelta :=
  mkToolDelta (td_index tc) (td_id tc) (td_type tc) ((fun f => mkFunctionDelta (fd_name f) None) <$> td_function tc).
Definition strip_choice (c : StreamChoice) : StreamChoice :=
  mkChoice (sc_index c)
    (mkDelta (d_role (sc_delta c)) (d_content (sc_delta c)) (map strip_call <$> d_tool_calls (sc_delta c)) (d_reasoning_content (sc_delta c))) (sc_finish_reason c).
Definition strip (ck : ChatStreamChunk) : ChatStreamChunk := mkChunk (strip_choice <$> ck_choices ck) (ck_usage ck).

Lemma take_all_strips {A} (f : gmap Z string -> A -> gmap Z string * A) (g : A -> A) buf l :
  (forall buf x, (f buf x).2 = g x) -> (take_all f buf l).2 = g <$> l.
Proof.
  intros Hf. revert buf. induction l as [| x l IH]; intros buf; [done |]. cbn [take_all fmap list_fmap]. pose proof (Hf buf x) as E. destruct (f buf x) as [buf1 x'].
  specialize (IH buf1). destruct (take_all f buf1 l) as [buf2 l2]. cbn [snd] in *. by rewrite E, IH.
Qed.
Lemma take_args_strips buf tc : (take_args buf tc).2 = strip_call tc.
Proof. by destruct tc as [i id ty [[nm [a |]] |]]. Qed.
Lemma take_choice_strips buf c : (take_choice buf c).2 = strip_choice c.
Proof.
  unfold take_choice, strip_choice. destruct c as [i [r s tcs rs] fr]. cbn [sc_delta d_tool_calls d_role d_content d_reasoning_content sc_index sc_finish_reason].
  destruct tcs as [l |]; [| done]. pose proof (take_all_strips take_args strip_call buf l take_args_strips) as E.
  destruct (take_all take_args buf l) as [buf' l']. cbn [snd] in E. by rewrite E.
Qed.
Lemma forward_eq buf ck :
  forward buf ck = let buf' := (take_all take_choice buf (ck_choices ck)).1 in if has_finish ck then (flush buf' ++ [strip ck], ∅) else ([strip ck], buf').
Proof.
  unfold forward, strip. rewrite <- (take_all_strips take_choice strip_choice buf (ck_choices ck) take_choice_strips).
  by destruct (take_all take_choice buf (ck_choices ck)).
Qed.

(** What is sent of a buffer: a chunk for each index with arguments, the indices in order. *)
Lemma flush_exact buf : exists ks, StronglySorted Z.lt ks /\ (forall k, k ∈ ks <-> buffer_of k buf <> "")
  /\ flush buf = (fun k => flush_chunk k (buffer_of k buf)) <$> ks.
Proof.
  set (l := merge_sort Z.le (map_to_list buf).*1). exists (retain (fun k => negb (bool_decide (buffer_of k buf = ""))) l).
  assert (l ≡ₚ (map_to_list buf).*1) as Hp by apply merge_sort_Permutation.
  assert (StronglySorted Z.lt l) as Hs.
  { assert (NoDup l) as Hnd by (rewrite Hp; apply NoDup_fst_map_to_list). assert (StronglySorted Z.le l) as Hle by (apply StronglySorted_merge_sort; intros ?; lia).
    clear Hp. revert Hnd. induction Hle as [| k l' Hl IH Hk]; intros Hnd; constructor; apply NoDup_cons in Hnd as [Hn Hnd]; [by apply IH |].
    rewrite Forall_forall in Hk |- *. intros j Hj. specialize (Hk j Hj). destruct (decide (k = j)) as [-> |]; [done | lia]. }
  split_and!.
  - clear -Hs. induction Hs as [| k l' Hl IH Hk]; [constructor |]. rewrite retain_cons. case_match; [| done]. constructor; [done |].
    rewrite Forall_forall in Hk |- *. intros j [_ Hj]%elem_of_retain. by apply Hk.
  - intros k. rewrite elem_of_retain, negb_true_iff, bool_decide_eq_false, Hp. unfold buffer_of. split; [tauto |]. intros Hk. split; [done |].
    destruct (buf !! k) as [b |] eqn:E; [| done]. apply list_elem_of_fmap. exists (k, b). split; [done |]. by apply elem_of_map_to_list.
  - unfold flush. fold l. clear. induction l as [| k l IH]; [done |]. rewrite bind_cons, retain_cons, IH. unfold flush_key, buffer_of.
    destruct (buf !! k) as [b |] eqn:E; cbn [default from_option id]; case_bool_decide; cbn [negb app fmap list_fmap]; try done. by rewrite E.
Qed.

Lemma pushed_plain l : Forall (fun a => looks_complete is_json a = false) l -> pushed "" l = joined (fun s => s) l.
Proof.
  assert (forall b, Forall (fun a => looks_complete is_json a = false) l -> pushed b l = b +:+ joined (fun s => s) l) as H; [| by intros ?%(H "")].
  induction l as [| a l IH]; intros b Hl; [by rewrite append_nil_r |]. apply Forall_cons in Hl as [Ha Hl]. cbn [joined foldr]. unfold joined in IH.
  change (pushed b (a :: l)) with (pushed (push_piece b a) l). rewrite IH by done. rewrite <- append_assoc. f_equal. unfold push_piece. case_bool_decide as E.
  - rewrite E. by rewrite append_nil_r.
  - unfold push_args. fold (looks_complete is_json a). by rewrite Ha.
Qed.

(** C12: the stream of a chat client, up to the chunk that finishes, chunk for chunk.  Every
    chunk of the upstream is passed on in its place with its words, its usage, and its calls
    but for their arguments.  The arguments are sent right before the chunk that
    finishes: for each index of a call that has some, in the order of the indices, one
    chunk with all of them (the calls of several choices with the same index share it).
    They are the pieces that the upstream sent, put together, when none of them looks
    like a complete object. *)
Theorem chat_stream_exact l fin :
  Forall (fun ck => has_finish ck = false) l -> has_finish fin = true ->
  let args k := pushed "" (stream_pieces k (l ++ [fin])) in
  (exists ks, StronglySorted Z.lt ks /\ (forall k, k ∈ ks <-> args k <> "")
     /\ chat_items ∅ (Some <$> l ++ [fin]) = Forward <$> (strip <$> l) ++ ((fun k => flush_chunk k (args k)) <$> ks) ++ [strip fin])
  /\ forall k, Forall (fun a => looks_complete is_json a = false) (stream_pieces k (l ++ [fin])) -> args k = joined (fun s => s) (stream_pieces k (l ++ [fin])).
Proof.
  intros Hl Hf args. split; [| intros k; apply pushed_plain]. rewrite chat_items_ok, forward_all_app. cbn [fst forward_all].
  assert ((forward_all ∅ l).1 = strip <$> l) as ->.
  { generalize (∅ : gmap Z string). induction Hl as [| ck l Hck Hl IH]; intros buf; [done |]. cbn [forward_all fmap list_fmap]. rewrite forward_eq, Hck. cbn iota zeta.
    specialize (IH (take_all take_choice buf (ck_choices ck)).1). rewrite <- IH. by destruct (forward_all (take_all take_choice buf (ck_choices ck)).1 l). }
  set (buf := (forward_all ∅ l).2). rewrite forward_eq, Hf. cbn zeta. cbn [fst]. rewrite app_nil_r.
  set (buf' := (take_all take_choice buf (ck_choices fin)).1). assert (forall k, buffer_of k buf' = args k) as Ea.
  { intros k. unfold buf', args. destruct (take_all_ok k take_choice (choice_pieces k) buf (ck_choices fin) (take_choice_ok k)) as [-> _].
    unfold buf. destruct (forward_all_open k ∅ l Hl) as [-> _]. unfold stream_pieces. rewrite bind_app, bind_cons. change ([] ≫= chunk_pieces k) with (@nil string). by rewrite app_nil_r, pushed_app. }
  destruct (flush_exact buf') as (ks & Hs & Hk & ->). exists ks. split_and!; [done | intros k; by rewrite Hk, Ea |]. do 2 f_equal. f_equal.
  apply list_fmap_ext. intros i k _. by rewrite Ea.
Qed.

(** ** Several choices *)

Definition call_choice (i : Z) (id : option string) (args : string) : StreamChoice :=
  mkChoice i (mkDelta None None (Some [mkToolDelta 0 id (Some "function") (Some (mkFunctionDelta (Some "f") (Some args)))]) None) None.
Definition end_choice (i : Z) : StreamChoice := mkChoice i (mkDelta None None None None) (Some "tool_calls").

(** The buffers of the arguments are shared by the choices of an answer: when two
    choices each make a call, the first gets the arguments of both, one after the other,
    and the second none. *)
Theorem choices_share_buffers id1 id2 a b : a <> "" -> b <> "" -> looks_complete is_json b = false ->
  let out := (forward_all ∅ [mkChunk [call_choice 0 (Some id1) a; call_choice 1 (Some id2) b] None; mkChunk [end_choice 0; end_choice 1] None]).1 in
  flush_chunk 0 (a +:+ b) ∈ out /\ forall ck c, ck ∈ out -> c ∈ ck_choices ck -> sc_index c = 1 -> choice_pieces 0 c = [].
Proof.
  intros Ha Hb Hc out. assert (out = [mkChunk [mkChoice 0 (mkDelta None None (Some [mkToolDelta 0 (Some id1) (Some "function") (Some (mkFunctionDelta (Some "f") None))]) None) None;
      mkChoice 1 (mkDelta None None (Some [mkToolDelta 0 (Some id2) (Some "function") (Some (mkFunctionDelta (Some "f") None))]) None) None] None; flush_chunk 0 (a +:+ b); mkChunk [end_choice 0; end_choice 1] None]) as ->.
  { unfold out. cbn -[push_args bool_decide flush flush_chunk insert lookup]. rewrite !bool_decide_eq_false_2 by done. cbn -[push_args flush flush_chunk insert lookup].
    rewrite lookup_insert_eq, insert_insert_eq, lookup_empty, push_first. unfold push_args. fold (looks_complete is_json b). rewrite Hc. cbn [andb default from_option].
    unfold flush. rewrite insert_empty, map_to_list_singleton. cbn. unfold flush_key. rewrite lookup_singleton_eq, bool_decide_eq_false_2; [done |]. by destruct a. }
  split; [right; by left |]. intros ck c [-> | [-> | [-> | ?%elem_of_nil]%elem_of_cons]%elem_of_cons]%elem_of_cons Hin Hi; [..| done]; cbn [ck_choices flush_chunk] in Hin.
  - apply elem_of_cons in Hin as [-> | [-> | ?%elem_of_nil]%elem_of_cons]; done.
  - apply elem_of_cons in Hin as [-> | ?%elem_of_nil]; done.
  - apply elem_of_cons in Hin as [-> | [-> | ?%elem_of_nil]%elem_of_cons]; done.
Qed.

End text.

(** ** The usage of an Anthropic upstream *)

Lemma tracked_app g l k : foldl track_usage g (l ++ k) = foldl track_usage (foldl track_usage g l) k.
Proof. apply foldl_app. Qed.

(** The tokens of the prompt of a streamed answer of an Anthropic upstream are not
    charged: the upstream reports them at the start, the usage at the end has only the
    tokens of the answer, and it replaces what was tracked. *)
Theorem streamed_prompt_not_charged id model input first bs reason output :
  0 <= input < 2 ^ 31 -> 0 <= output < 2 ^ 31 -> Z.of_nat (length bs) < 2 ^ 32 -> forallb AnthropicStream.wf_block bs = true ->
  let chunks := AnthropicProvider.decode AnthropicProvider.new_decoder (AnthropicStream.upstream id model input first bs reason output) in
  prompt_tokens (tracked (take 1 chunks)) = Some input
  /\ settled_tokens (preferred_stream_usage (tracked chunks) None) = (0, 0, output).
Proof.
  intros Hi Ho Hn Hbs chunks. unfold chunks. rewrite AnthropicStream.decode_upstream by done. split; [done |]. unfold tracked.
  change (?x :: ?l ++ [?y]) with ((x :: l) ++ [y]). rewrite tracked_app. cbn [foldl track_usage AnthropicStream.end_chunk ck_usage su_prompt_tokens su_completion_tokens su_cached_tokens].
  unfold settled_tokens, preferred_stream_usage, tokens. cbn -[Z.max]. rewrite (Z.max_l output 0) by lia. done.
Qed.

(** ** Examples *)

Lemma chat_stream_exact_witness :
  chat_items demo_json ∅ (Some <$> demo_pre ++ [demo_fin]) = Forward <$> (strip <$> demo_pre) ++ [flush_chunk 0 "{x}"] ++ [strip demo_fin].
Proof.
  destruct (chat_stream_exact demo_json demo_pre demo_fin) as [(ks & Hs & Hk & ->) _]; [by repeat constructor | done |].
  assert (forall k, k ∈ ks <-> k = 0) as H0.
  { intros k. rewrite Hk. destruct (decide (k = 0)) as [-> | Hne]; [split; [done | by vm_compute] |]. split; [| done]. intros Hp. destruct Hp.
    assert (stream_pieces k (demo_pre ++ [demo_fin]) = []) as ->; [| reflexivity].
    unfold stream_pieces, demo_pre, demo_fin. cbn. unfold delta_pieces. cbn [td_index]. by rewrite (proj2 (Z.eqb_neq 0 k)) by done. }
  assert (ks = [0]) as ->; [| vm_compute; reflexivity].
  destruct ks as [| a ks]; [by destruct (proj1 (elem_of_nil 0) (proj2 (H0 0) eq_refl)) |].
  assert (a = 0) as -> by (apply H0; by left). f_equal. destruct ks as [| b ks]; [done |].
  apply StronglySorted_inv in Hs as [_ Hs]. apply Forall_cons in Hs as [Hb _]. assert (b = 0) by (apply H0; right; by left). lia.
Defined.

Lemma choices_share_buffers_witness :
  let out := (forward_all demo_json ∅ [mkChunk [call_choice 0 (Some "call_1") "{1}"; call_choice 1 (Some "call_2") "{2}"] None; mkChunk [end_choice 0; end_choice 1] None]).1 in
  flush_chunk 0 "{1}{2}" ∈ out /\ forall ck c, ck ∈ out -> c ∈ ck_choices ck -> sc_index c = 1 -> choice_pieces 0 c = [].
Proof. by apply (choices_share_buffers demo_json "call_1" "call_2" "{1}" "{2}"). Defined.

Lemma streamed_prompt_not_charged_witness :
  prompt_tokens (tracked (take 1 (AnthropicProvider.decode AnthropicProvider.new_decoder 
    (AnthropicStream.upstream "msg_1" "claude" 1200 1 AnthropicStream.demo_blocks "tool_use" 34)))) = Some 1200
  /\ settled_tokens (preferred_stream_usage (tracked (AnthropicProvider.decode AnthropicProvider.new_decoder 
    (AnthropicStream.upstream "msg_1" "claude" 1200 1 AnthropicStream.demo_blocks "tool_use" 34))) None) = (0, 0, 34).
Proof.
  apply (streamed_prompt_not_charged "msg_1" "claude" 1200 1 AnthropicStream.demo_blocks "tool_use" 34); [done | done | done | done].
Defined.

End ChatStream.
