(* ===== verification/Gemini.v ===== *)
(** * Gemini: requests, answers and streams of a Gemini upstream (boom-provider)

    Models [boom-provider/src/gemini.rs].  Texts of JSON values are parameters; the
    identifiers that the source makes up for the calls are given by a function of the
    number of the call. *)

From S2P Require Import Prelude Text Float64 Json Messages Transcoder Chat Anthropic Sse AnthropicProvider ChatStream.

Module Gemini.
Import Json Messages Chat Anthropic.

Section text.
Context (to_string : Value -> string) (from_str : string -> option Value) (call_id : nat -> string).

(** ** The request *)

Definition text_part (t : string) : Value := VObject [("text", VString t)].
Definition role_turn (r : string) (parts : list Value) : Value := VObject [("role", VString r); ("parts", VArray parts)].

(** An image: the data of a data URI, or a reference. *)
Definition image_part (u : string) : Value :=
  match rest ← strip_prefix "data:" u; split_once_str ";base64," rest with
  | Some (mime, data) => VObject [("inlineData", VObject [("mimeType", VString mime); ("data", VString data)])]
  | None => VObject [("fileData", VObject [("fileUri", VString u)])]
  end.
Definition gemini_part (p : ContentPart) : option Value :=
  match p with
  | PartText t => if bool_decide (t = "") then None else Some (text_part t)
  | PartImageUrl i => Some (image_part (url i))
  | PartReasoning r => if bool_decide (r = "") then None else Some (text_part r)
  end.
Definition content_to_gemini_parts (c : MessageContent) : list Value :=
  match c with
  | Text t => if bool_decide (t = "") then [] else [text_part t]
  | Parts l => omap gemini_part l
  | Null => []
  end.

Definition call_part (c : ToolCall) : Value :=
  VObject [("functionCall", VObject [("name", VString (fc_name (tc_function c))); ("args", default (VObject []) (from_str (fc_arguments (tc_function c))))])].
Definition result_part (m : Message) : Value :=
  VObject [("functionResponse", VObject [("name", VString (default "" (tool_call_id m)));
                                         ("response", VObject [("result", VString (AnthropicProvider.plain_text (content m)))])])].

(** The turn a message becomes. *)
Definition gemini_turn (m : Message) : list Value :=
  match role m with
  | System => []
  | User => [role_turn "user" (content_to_gemini_parts (content m))]
  | Assistant =>
    match content_to_gemini_parts (content m) ++ (call_part <$> default [] (tool_calls m)) with
    | [] => []
    | parts => [role_turn "model" parts]
    end
  | Tool => [role_turn "user" [result_part m]]
  end.
(** The system prompt: of the last system message that has parts. *)
Definition system_step (acc : option Value) (m : Message) : option Value :=
  match role m with
  | System => match content_to_gemini_parts (content m) with [] => acc | parts => Some (VObject [("parts", VArray parts)]) end
  | _ => acc
  end.
Definition system_instruction (l : list Message) : option Value := foldl system_step None l.

Definition gemini_config (r : ChatCompletionRequest) : Object :=
  struct [some "temperature" ser_f64 (temperature r); some "topP" ser_f64 (top_p r);
          some "maxOutputTokens" vint (match max_completion_tokens r with Some n => Some n | None => max_tokens r end);
          some "candidateCount" vint (r_n r);
          some "stopSequences" (fun s => VArray (VString <$> AnthropicProvider.stop_list s)) (stop r)].
Definition gemini_tool (t : FunctionTool) : Value :=
  VObject (insert_some [("name", VString (tf_name (tool_function t))); ("parameters", tf_parameters (tool_function t))]
             "description" VString (tf_description (tool_function t))).

Definition to_gemini_request (r : ChatCompletionRequest) : Object :=
  let body := [("contents", VArray (messages r ≫= gemini_turn))] in
  let body := insert_some body "systemInstruction" id (system_instruction (messages r)) in
  let body := match gemini_config r with [] => body | c => obj_insert body "generationConfig" (VObject c) end in
  insert_some body "tools" (fun l => VArray [VObject [("functionDeclarations", VArray (gemini_tool <$> l))]]) (tools r).

(** ** The answer *)

Definition first (v : Value) : option Value := match v with VArray (x :: _) => Some x | _ => None end.
Definition candidate (resp : Value) : option Value := get resp "candidates" ≫= first.
Definition parts_of (resp : Value) : option (list Value) := c ← candidate resp; k ← get c "content"; p ← get k "parts"; as_array p.
Definition part_text (p : Value) : option string := get_str p "text".
(** The name and the arguments of a call. *)
Definition part_call (p : Value) : option (string * string) :=
  fc ← get p "functionCall"; Some (default "" (get_str fc "name"), to_string (default (VObject []) (get fc "args"))).
Definition finish_of (resp : Value) : option string := c ← candidate resp; get_str c "finishReason".
Definition count (resp : Value) (k : string) : Z := default 0 (u ← get resp "usageMetadata"; c ← get u k; Json.as_u64 c).

Definition answer_finish (r : string) : string :=
  if bool_decide (r = "STOP") then "stop" else if bool_decide (r = "MAX_TOKENS") then "length"
  else if bool_decide (r = "SAFETY") || bool_decide (r = "RECITATION") then "content_filter" else r.

Definition made_call (i : nat) (c : string * string) : ToolCall := mkToolCall (call_id i) "function" (mkFunctionCall c.1 c.2).

Definition from_gemini_response (fresh : string) (now : Z) (resp : Value) (requested_model : string) : ChatCompletionResponse :=
  let parts := default [] (parts_of resp) in
  let text := String.concat "" (omap part_text parts) in
  let calls := imap made_call (omap part_call parts) in
  let finish := default "stop" (answer_finish <$> finish_of resp) in
  let p := wrap32 (count resp "promptTokenCount") in
  let c := wrap32 (count resp "candidatesTokenCount") in
  mkResponse fresh "chat.completion" now requested_model
    [mkChoice 0 (mkMessage Assistant (Text text) None (some_calls calls) None None) (Some (match calls with [] => finish | _ => "tool_calls" end)) None]
    (mkUsage p c (u32_add p c) None None None) None None.

(** ** The stream *)

Definition stream_finish (r : string) : string := if bool_decide (r = "STOP") then "stop" else if bool_decide (r = "MAX_TOKENS") then "length" else r.

(** The chunks of a part, and the number of the next call. *)
Definition part_chunks (n : Z) (p : Value) : list Transcoder.ChatStreamChunk * Z :=
  let text := match part_text p with Some t => if bool_decide (t = "") then [] else [AnthropicProvider.content_chunk t] | None => [] end in
  match part_call p with
  | Some (name, args) =>
    (text ++ [AnthropicProvider.call_chunk (Transcoder.mkToolDelta n (Some (call_id (Z.to_nat n))) (Some "function")
                (Some (Transcoder.mkFunctionDelta (Some name) (Some args))))], u32_add n 1)
  | None => (text, n)
  end.
Fixpoint parts_chunks (n : Z) (l : list Value) : list Transcoder.ChatStreamChunk * Z :=
  match l with [] => ([], n) | p :: l' => let '(c, n1) := part_chunks n p in let '(c', n2) := parts_chunks n1 l' in (c ++ c', n2) end.

Definition stream_usage (resp : Value) : option Transcoder.StreamUsage :=
  match get resp "usageMetadata" with
  | Some _ => Some (Transcoder.mkUsage (Some (AnthropicProvider.as_i32 (count resp "promptTokenCount"))) (Some (AnthropicProvider.as_i32 (count resp "candidatesTokenCount"))) None None)
  | None => None
  end.
(** The chunk that finishes: of every answer with a reason or with a usage. *)
Definition finish_chunk (resp : Value) : list Transcoder.ChatStreamChunk :=
  let finish := stream_finish <$> finish_of resp in
  match finish, stream_usage resp with
  | None, None => []
  | _, u => [Transcoder.mkChunk [Transcoder.mkChoice 0 (Transcoder.mkDelta None None None None) (Some (default "stop" finish))] u]
  end.
Definition on_answer (n : Z) (resp : Value) : list Transcoder.ChatStreamChunk * Z :=
  let '(c, n') := parts_chunks n (default [] (parts_of resp)) in (c ++ finish_chunk resp, n').

Fixpoint handle_lines (n : Z) (l : list string) : list Transcoder.ChatStreamChunk * Z :=
  match l with
  | [] => ([], n)
  | line :: l' =>
    match data ← strip_prefix "data: " line; from_str (trim data) with
    | Some v => let '(c, n1) := on_answer n v in let '(c', n2) := handle_lines n1 l' in (c ++ c', n2)
    | None => handle_lines n l'
    end
  end.
Definition handle_event (n : Z) (event_text : string) : list Transcoder.ChatStreamChunk * option Z :=
  let '(c, n') := handle_lines n (Sse.lines event_text) in (c, Some n').
Definition gemini_stream (l : list (option string)) : list (Sse.Item Transcoder.ChatStreamChunk) := Sse.read handle_event 0 l.

(** The chunks of a list of answers. *)
Fixpoint decode (n : Z) (l : list Value) : list Transcoder.ChatStreamChunk :=
  match l with [] => [] | v :: l' => let '(c, n') := on_answer n v in c ++ decode n' l' end.

(** ** Lemmas *)

Lemma split_once_str_app c p l r : has_char c l = false -> split_once_str (String c p) (l +:+ String c p +:+ r) = Some (l, r).
Proof.
  induction l as [| a l IH]; intros H.
  - rewrite append_nil. pose proof (strip_prefix_app (String c p) r) as E. rewrite append_cons in E |- *. cbn [split_once_str]. by rewrite E.
  - cbn [has_char] in H. apply orb_false_iff in H as [Ha Hl]. rewrite append_cons. cbn [split_once_str strip_prefix]. rewrite Ascii.eqb_sym, Ha. by rewrite IH.
Qed.

(** An image that an Anthropic client sends as base64 data reaches a Gemini upstream
    with its type and its data, through the data URI that it is in between. *)
Theorem image_roundtrip media_type data : has_char ";" media_type = false ->
  gemini_part (PartImageUrl (mkImageUrl (convert_image_source to_string
    (VObject [("type", VString "base64"); ("media_type", VString media_type); ("data", VString data)])) None))
  = Some (VObject [("inlineData", VObject [("mimeType", VString media_type); ("data", VString data)])]).
Proof.
  intros Hm. cbn [gemini_part url]. f_equal. transitivity (image_part ("data:" +:+ (media_type +:+ ";base64," +:+ data))); [reflexivity |].
  unfold image_part. rewrite strip_prefix_app. cbn [mbind option_bind]. by rewrite (split_once_str_app ";" "base64,").
Qed.

(** *** A stream that reports its usage all along *)

Definition answer (t : string) (usage : Value) (rest : Object) : Value :=
  VObject [("candidates", VArray [VObject (("content", VObject [("parts", VArray [text_part t])]) :: rest)]); ("usageMetadata", usage)].
Definition finished (r : option string) : Object := match r with Some r => [("finishReason", VString r)] | None => [] end.

Lemma on_answer_ok n t u r : t <> "" -> exists fin us,
  on_answer n (answer t u (finished r)) = ([AnthropicProvider.content_chunk t; Transcoder.mkChunk [Transcoder.mkChoice 0 (Transcoder.mkDelta None None None None) (Some fin)] (Some us)], n).
Proof.
  intros Ht. exists (default "stop" (stream_finish <$> r)). eexists.
  transitivity (((if bool_decide (t = "") then [] else [AnthropicProvider.content_chunk t]) ++ []) ++ finish_chunk (answer t u (finished r)), n); [reflexivity |].
  rewrite bool_decide_eq_false_2 by done. by destruct r.
Qed.

Definition pending (t : Transcoder.T) : Prop := is_Some (Transcoder.pending_stop_reason t).

(** Once an end is pending, what an answer says is lost. *)
Lemma end_pending is_json fin us tr : Transcoder.not_pending tr ->
  pending (Transcoder.transcode is_json (Transcoder.mkChunk [Transcoder.mkChoice 0 (Transcoder.mkDelta None None None None) (Some fin)] (Some us)) tr).1.
Proof.
  intros Ht. rewrite Transcoder.transcode_open by done. cbn [Transcoder.ck_choices Transcoder.for_each foldr]. rewrite Transcoder.and_then_eq, Transcoder.choice_eq, Transcoder.and_then_eq.
  cbn [Transcoder.sc_finish_reason Transcoder.finish]. rewrite !Transcoder.and_then_eq. eexists. reflexivity.
Qed.

Definition answer_chunks (t fin : string) (us : Transcoder.StreamUsage) : list Transcoder.ChatStreamChunk :=
  [AnthropicProvider.content_chunk t; Transcoder.mkChunk [Transcoder.mkChoice 0 (Transcoder.mkDelta None None None None) (Some fin)] (Some us)].

(** What the transcoder says for an answer: its text, unless an end is pending. *)
Lemma answer_said is_json t0 fin us tr :
  let f := Transcoder.for_each (Transcoder.transcode is_json) (answer_chunks t0 fin us) in
  pending (f tr).1 /\ Transcoder.joined (Transcoder.ev_says false) (f tr).2 = match Transcoder.pending_stop_reason tr with Some _ => "" | None => t0 end.
Proof.
  cbn zeta. unfold answer_chunks. cbn [Transcoder.for_each foldr]. rewrite !Transcoder.and_then_eq. cbn [fst snd Transcoder.skip]. rewrite app_nil_r, Transcoder.joined_app.
  set (tr1 := (Transcoder.transcode is_json (AnthropicProvider.content_chunk t0) tr).1). assert (Transcoder.not_pending tr1) as H1.
  { unfold tr1. destruct (Transcoder.pending_stop_reason tr) as [r |] eqn:E.
    - unfold Transcoder.transcode. by rewrite Transcoder.take_usage_pending, E.
    - apply Transcoder.unfinished_pending; [by repeat constructor | done]. }
  split; [by apply end_pending |]. rewrite (Transcoder.transcode_speaks _ _ _ tr1) by done. change (Transcoder.chunk_says false _) with "". rewrite append_nil_r.
  destruct (Transcoder.pending_stop_reason tr) as [r |] eqn:E.
  - unfold Transcoder.transcode. by rewrite Transcoder.take_usage_pending, E.
  - rewrite Transcoder.transcode_speaks by done. apply append_nil_r.
Qed.

Definition answers (l : list (string * Value)) (last : string * Value) (reason : string) : list Value :=
  ((fun x => answer x.1 x.2 (finished None)) <$> l) ++ [answer last.1 last.2 (finished (Some reason))].

Lemma answers_said is_json n vs tr : Forall (fun v => exists t u r, t <> "" /\ v = answer t u (finished r)) vs -> pending tr ->
  pending (Transcoder.for_each (Transcoder.transcode is_json) (decode n vs) tr).1
  /\ Transcoder.joined (Transcoder.ev_says false) (Transcoder.for_each (Transcoder.transcode is_json) (decode n vs) tr).2 = "".
Proof.
  intros Hvs. revert tr. induction Hvs as [| v vs (t & u & r & Ht & ->) Hvs IH]; intros tr Hp; [done |].
  cbn [decode]. destruct (on_answer_ok n t u r Ht) as (fin & us & ->). fold (answer_chunks t fin us). rewrite Transcoder.for_each_app. cbn [fst snd].
  destruct (answer_said is_json t fin us tr) as [Hp1 Hs]. destruct (IH _ Hp1) as [Hp2 Hs2]. split; [done |]. rewrite Transcoder.joined_app, Hs, Hs2. by destruct Hp as [? ->].
Qed.

(** When a Gemini upstream reports its usage with every answer of a stream, every answer
    becomes a chunk that finishes, and an Anthropic client gets the words of the first
    answer only. *)
Theorem gemini_words_lost is_json id model first rest lst reason :
  Forall (fun x => x.1 <> "") (first :: rest ++ [lst]) ->
  Transcoder.joined (Transcoder.ev_says false) (Transcoder.transcript is_json (decode 0 (answers (first :: rest) lst reason)) (Transcoder.new id model)) = first.1.
Proof.
  intros Hne. apply Forall_cons in Hne as [Hf Hne]. apply Forall_app in Hne as [Hr Hl]. apply Forall_cons in Hl as [Hl _].
  unfold answers. cbn [fmap list_fmap app decode]. destruct (on_answer_ok 0 first.1 first.2 None Hf) as (fin & us & ->). fold (answer_chunks first.1 fin us).
  unfold Transcoder.transcript. rewrite Transcoder.and_then_eq, Transcoder.for_each_app. cbn [fst snd]. rewrite !Transcoder.joined_app.
  destruct (answer_said is_json first.1 fin us (Transcoder.new id model)) as [Hp ->]. cbn [Transcoder.new Transcoder.pending_stop_reason].
  match goal with |- context [decode 0 ?vs] => set (l := vs) end.
  assert (Forall (fun v => exists t u r, t <> "" /\ v = answer t u (finished r)) l) as Hvs.
  { apply Forall_app. split; [| apply Forall_singleton; exists lst.1, lst.2, (Some reason); split; [exact Hl | reflexivity]]. apply Forall_fmap. eapply Forall_impl; [exact Hr |]. intros x Hx. exists x.1, x.2, None. split; [exact Hx | reflexivity]. }
  destruct (answers_said is_json 0 l _ Hvs Hp) as [_ ->].
  assert (forall t, Transcoder.joined (Transcoder.ev_says false) (Transcoder.drain t).2 = "") as -> by (intros t; unfold Transcoder.drain; by destruct (Transcoder.pending_stop_reason t)).
  by rewrite ?append_nil, ?append_nil_r.
Qed.

(** A call that a Gemini upstream makes is the end of an answer with the reason
    ["tool_calls"], and of a stream with the reason ["stop"]: the client of a stream is not
    told that a call waits for its result. *)
Theorem gemini_call_end_diverges fresh now model n name args u :
  let resp := VObject [("candidates", VArray [VObject [("content", VObject [("parts", VArray [VObject [("functionCall", VObject [("name", VString name); ("args", args)])]])]);
                                                       ("finishReason", VString "STOP")]]); ("usageMetadata", u)] in
  (ch_finish_reason <$> choices (from_gemini_response fresh now resp model)) = [Some "tool_calls"]
  /\ exists call us, (on_answer n resp).1 = [AnthropicProvider.call_chunk call; Transcoder.mkChunk [Transcoder.mkChoice 0 (Transcoder.mkDelta None None None None) (Some "stop")] us].
Proof. cbn zeta. split; [reflexivity |]. eexists _, _. reflexivity. Qed.

(** Of several system messages only the last one is sent. *)
Lemma last_system_wins a b l : a <> "" -> b <> "" -> system_instruction [mkMessage System (Text a) None None None None; mkMessage System (Text b) None None None None; user_message l]
  = Some (VObject [("parts", VArray [text_part b])]).
Proof. intros Ha Hb. cbn. by rewrite !bool_decide_eq_false_2. Qed.

End text.

(** ** Examples *)

Definition demo_ids (n : nat) : string := "call".

Lemma image_roundtrip_witness :
  gemini_part (PartImageUrl (mkImageUrl (convert_image_source AnthropicProvider.demo_to_string
    (VObject [("type", VString "base64"); ("media_type", VString "image/png"); ("data", VString "iVBO")])) None))
  = Some (VObject [("inlineData", VObject [("mimeType", VString "image/png"); ("data", VString "iVBO")])]).
Proof. by apply (image_roundtrip AnthropicProvider.demo_to_string "image/png" "iVBO"). Defined.

Lemma gemini_words_lost_witness :
  Transcoder.joined (Transcoder.ev_says false) (Transcoder.transcript Transcoder.demo_json
    (decode AnthropicProvider.demo_to_string demo_ids 0 (answers [("One ", VNull); ("two ", VNull)] ("three.", VNull) "STOP")) (Transcoder.new "msg_1" "m")) = "One ".
Proof. apply (gemini_words_lost AnthropicProvider.demo_to_string demo_ids Transcoder.demo_json "msg_1" "m" ("One ", VNull) [("two ", VNull)] ("three.", VNull) "STOP"). by repeat constructor. Defined.

End Gemini.
