(* ===== verification/Auth.v ===== *)
(** * Auth: the authentication of keys (boom-auth, boom-main)

    Models [boom-auth/src/key_auth.rs], the identity of [boom-core/src/types.rs], and the
    extraction of the key of [boom-main/src/extractor.rs].  The hash of a key (SHA-256) is
    a parameter, the cache (moka) a class with the laws of a cache that forgets what is not
    used, and the outcomes of the two queries arguments.  A time is in microseconds. *)

From S2P Require Import Prelude Core Text Float64 Json.

Module Auth.
Import Core Json.

(** ** Data *)

(** The fields of a row that are used here. *)
Record VerificationToken := mkToken {
  token : string;
  tk_key_name : option string;
  tk_key_alias : option string;
  tk_spend : f64;
  expires : option Z;
  tk_models : list string;
  tk_user_id : option string;
  tk_team_id : option string;
  tk_metadata : option Value;
  tk_blocked : option bool;
  tk_tpm_limit : option Z;
  tk_rpm_limit : option Z;
  tk_max_budget : option f64;
}.
Record TeamRow := mkTeamRow { tr_models : list string; tr_team_alias : option string }.

Record AuthIdentity := mkIdentity {
  id_key_hash : string;
  key_name : option string;
  key_alias : option string;
  user_id : option string;
  id_team_id : option string;
  team_alias : option string;
  models : list string;
  team_models : list string;
  id_rpm_limit : option Z;
  id_tpm_limit : option Z;
  max_budget : option f64;
  spend : f64;
  blocked : bool;
  expires_at : option Z;
  metadata : Value;
}.

Definition with_team (i : AuthIdentity) (alias : option string) (ms : list string) : AuthIdentity :=
  mkIdentity (id_key_hash i) (key_name i) (key_alias i) (user_id i) (id_team_id i) alias (models i) ms
    (id_rpm_limit i) (id_tpm_limit i) (max_budget i) (spend i) (blocked i) (expires_at i) (metadata i).
Definition with_models (i : AuthIdentity) (ms : list string) : AuthIdentity :=
  mkIdentity (id_key_hash i) (key_name i) (key_alias i) (user_id i) (id_team_id i) (team_alias i) ms (team_models i)
    (id_rpm_limit i) (id_tpm_limit i) (max_budget i) (spend i) (blocked i) (expires_at i) (metadata i).

Definition can_call_model (i : AuthIdentity) (model : string) : bool :=
  bool_decide (models i = []) || bool_decide (model ∈ models i).
Definition is_expired (now : Z) (i : AuthIdentity) : bool := match expires_at i with Some e => e <? now | None => false end.
Definition is_budget_exceeded (i : AuthIdentity) : bool := match max_budget i with Some b => f64_le b (spend i) | None => false end.

(** ** The cache

    [moka] with [time_to_idle]: an entry lives as long as it is used. *)

Definition idle_micros : Z := 300 * 1000000.

Class TokenCache (C : Type) := {
  cache_get : Z -> C -> string -> C * option VerificationToken;
  cache_insert : Z -> C -> string -> VerificationToken -> C;
}.

(** What its documentation says, while there are fewer keys than its capacity: [cached c k v t]
    is that [k] has the value [v] and was used last at [t]. *)
Class TokenCacheLaws (C : Type) `{TokenCache C} := {
  cached : C -> string -> VerificationToken -> Z -> Prop;
  get_used : forall c k v t now, cached c k v t -> t <= now < t + idle_micros ->
    (cache_get now c k).2 = Some v /\ cached (cache_get now c k).1 k v now;
  insert_used : forall c k v now, cached (cache_insert now c k v) k v now;
}.

(** ** The authenticator *)

(** The outcome of a query: an error, or the row if there is one. *)
Definition Query (A : Type) : Type := GatewayError + option A.
(** The database at a moment; [None] is an authenticator without one. *)
Record Database := mkDatabase { query_token : string -> Query VerificationToken; query_team : string -> Query TeamRow }.

Definition master_identity : AuthIdentity :=
  mkIdentity "master" (Some "master") (Some "master") None None None [] [] None None None (f64_of 0) false None VNull.

(** The comparison looks at every byte. *)
Fixpoint diff_bits (a b : string) : Z :=
  match a, b with
  | String x a', String y b' => Z.lor (Z.lxor (Z.of_N (N_of_ascii x)) (Z.of_N (N_of_ascii y))) (diff_bits a' b')
  | _, _ => 0
  end.
Definition is_master_key (master : option string) (raw_key : string) : bool :=
  match master with
  | Some m => (String.length raw_key =? String.length m)%nat && (diff_bits raw_key m =? 0)
  | None => false
  end.

(** [as u64] of the signed columns. *)
Definition token_to_identity (t : VerificationToken) : AuthIdentity :=
  mkIdentity (token t) (tk_key_name t) (tk_key_alias t) (tk_user_id t) (tk_team_id t) None (tk_models t) []
    (Prelude.as_u64 <$> tk_rpm_limit t) (Prelude.as_u64 <$> tk_tpm_limit t) (tk_max_budget t) (tk_spend t) (default false (tk_blocked t)) (expires t)
    (default VNull (tk_metadata t)).

Definition special (m : string) : bool := bool_decide (m = "all-team-models") || bool_decide (m = "all-proxy-models").
Definition resolve_team_models (l : list string) : list string := if existsb special l then [] else l.

Definition lookup_team (db : option Database) (team_id : string) : GatewayError + (list string * option string) :=
  match db with
  | None => inr ([], None)
  | Some d =>
    match query_team d team_id with
    | inl e => inl e
    | inr (Some r) => inr (tr_models r, tr_team_alias r)
    | inr None => inr ([], None)
    end
  end.

(** The team of the identity; an error leaves it as it is. *)
Definition join_team (db : option Database) (i : AuthIdentity) : AuthIdentity :=
  match id_team_id i with
  | None => i
  | Some tid =>
    match lookup_team db tid with
    | inr (ms, alias) => with_team i alias (resolve_team_models ms)
    | inl _ => i
    end
  end.

(** The names that stand for other models, and the fallback to the team's. *)
Definition expand_models (i : AuthIdentity) : AuthIdentity :=
  let i := if bool_decide ("all-team-models" ∈ models i) then with_models i (team_models i) else i in
  let i := if bool_decide ("all-proxy-models" ∈ models i) then with_models i [] else i in
  if bool_decide (models i = []) && negb (bool_decide (team_models i = [])) then with_models i (team_models i) else i.

Definition validate (now : Z) (i : AuthIdentity) : GatewayError + AuthIdentity :=
  if blocked i then inl KeyBlocked else if is_expired now i then inl KeyExpired else if is_budget_exceeded i then inl BudgetExceeded else inr i.

(** The identity that a row has. *)
Definition identify (now : Z) (db : option Database) (t : VerificationToken) : GatewayError + AuthIdentity :=
  validate now (expand_models (join_team db (token_to_identity t))).

Section authenticator.
Context {C : Type} `{TokenCache C} (hash_token : string -> string).

Definition lookup_token (now : Z) (db : option Database) (c : C) (hashed : string) : C * (GatewayError + option VerificationToken) :=
  match cache_get now c hashed with
  | (c, Some t) => (c, inr (Some t))
  | (c, None) =>
    match db with
    | None => (c, inr None)
    | Some d =>
      match query_token d hashed with
      | inl e => (c, inl e)
      | inr (Some t) => (cache_insert now c hashed t, inr (Some t))
      | inr None => (c, inr None)
      end
    end
  end.

Definition authenticate (now : Z) (master : option string) (db : option Database) (c : C) (raw_key : string) : C * (GatewayError + AuthIdentity) :=
  if is_master_key master raw_key then (c, inr master_identity)
  else
    match lookup_token now db c (hash_token raw_key) with
    | (c, inl e) => (c, inl e)
    | (c, inr None) => (c, inl (AuthError "Invalid API key"))
    | (c, inr (Some t)) => (c, identify now db t)
    end.

(** A key in use: the times of its requests, each with the database at that time. *)
Fixpoint authenticate_all (master : option string) (raw_key : string) (c : C) (l : list (Z * option Database)) : list (GatewayError + AuthIdentity) :=
  match l with
  | [] => []
  | (now, db) :: l' => let '(c, r) := authenticate now master db c raw_key in r :: authenticate_all master raw_key c l'
  end.
End authenticator.

(** ** The key of a request

    A header by its name, with its bytes; [to_str] refuses what is not visible ASCII. *)
Section extract.
Context (to_str : string -> option string).

Definition bearer_key (v : string) : option string :=
  '(scheme, key) ← split_once " " v;
  if eq_ignore_ascii_case scheme "bearer" then let key := trim key in if bool_decide (key = "") then None else Some key else None.

Definition other_key (header : string -> option string) : option string :=
  match header "x-api-key" with
  | Some k => to_str k
  | None => match header "api-key" with Some k => to_str k | None => None end
  end.

Definition extract_api_key (header : string -> option string) : option string :=
  match header "authorization" with
  | None => other_key header
  | Some a =>
    match to_str a with
    | None => None
    | Some v => match bearer_key v with Some k => Some k | None => other_key header end
    end
  end.
End extract.

(** What the hook before the authentication says. *)
Inductive PreAuthOutcome := NoHook | Continue | Replace (new_key : string) | Reject (reason : string) | HookDeny.

Definition effective_key (o : PreAuthOutcome) (raw_key : string) : GatewayError + string :=
  match o with
  | NoHook | Continue => inr raw_key
  | Replace k => inr k
  | Reject reason => inl (AuthError reason)
  | HookDeny => inl (InternalError "pre_auth hook failure (deny mode)")
  end.

Definition required_auth {C} `{TokenCache C} (hash_token : string -> string) (to_str : string -> option string) (now : Z) (master : option string)
    (db : option Database) (c : C) (hook : string -> PreAuthOutcome) (header : string -> option string) : C * (GatewayError + AuthIdentity) :=
  match extract_api_key to_str header with
  | None => (c, inl (AuthError "Missing API key"))
  | Some raw_key =>
    match effective_key (hook raw_key) raw_key with
    | inl e => (c, inl e)
    | inr k => authenticate hash_token now master db c k
    end
  end.

(** ** Lemmas *)

Lemma diff_bits_zero a b : String.length a = String.length b -> diff_bits a b = 0 <-> a = b.
Proof.
  revert b. induction a as [| x a IH]; intros [| y b] Hl; try done. injection Hl as Hl. cbn [diff_bits].
  rewrite Z.lor_eq_0_iff, (IH _ Hl). split.
  - intros [E ->]. apply Z.lxor_eq, N2Z.inj in E. assert (x = y) as ->; [| done]. rewrite <- (ascii_N_embedding x), <- (ascii_N_embedding y), E. reflexivity.
  - intros [= -> ->]. rewrite Z.lxor_nilpotent. done.
Qed.

Lemma is_master_key_spec master raw_key : is_master_key master raw_key = true <-> master = Some raw_key.
Proof.
  unfold is_master_key. destruct master as [m |]; [| done]. rewrite andb_true_iff, Z.eqb_eq, Nat.eqb_eq. split.
  - intros [Hl E]. f_equal. by rewrite (proj1 (diff_bits_zero _ _ Hl) E).
  - intros [= ->]. split; [done |]. by apply diff_bits_zero.
Qed.

Lemma identify_ok now db t i : identify now db t = inr i <->
  i = expand_models (join_team db (token_to_identity t)) /\ blocked i = false /\ is_expired now i = false /\ is_budget_exceeded i = false.
Proof.
  unfold identify, validate. set (j := expand_models _). split.
  - intros E. destruct (blocked j) eqn:?, (is_expired now j) eqn:?, (is_budget_exceeded j) eqn:?; simplify_eq. done.
  - intros (-> & -> & -> & ->). done.
Qed.

(** Teams and lists of models do not matter for the checks of the key. *)
Definition usable (now : Z) (t : VerificationToken) : Prop :=
  default false (tk_blocked t) = false /\ (forall e, expires t = Some e -> now <= e) /\ (forall b, tk_max_budget t = Some b -> f64_le b (tk_spend t) = false).

Lemma join_expand db i : let j := expand_models (join_team db i) in
  id_key_hash j = id_key_hash i /\ blocked j = blocked i /\ expires_at j = expires_at i /\ max_budget j = max_budget i /\ spend j = spend i.
Proof.
  assert (forall i, let j := expand_models i in id_key_hash j = id_key_hash i /\ blocked j = blocked i /\ expires_at j = expires_at i
     /\ max_budget j = max_budget i /\ spend j = spend i) as He.
  { intros k. unfold expand_models. cbn zeta. by repeat case_bool_decide. }
  cbn zeta. destruct (He (join_team db i)) as (-> & -> & -> & -> & ->).
  unfold join_team. destruct (id_team_id i); [| done]. by destruct (lookup_team _ _) as [| []].
Qed.

Lemma identify_usable now db t : (exists i, identify now db t = inr i) <-> usable now t.
Proof.
  unfold usable. pose proof (join_expand db (token_to_identity t)) as (_ & Eb & Ee & Em & Es). cbn zeta in *. split.
  - intros (i & (-> & Hb & Hx & Hs)%identify_ok). unfold is_expired, is_budget_exceeded in *. rewrite Eb, Ee, Em, Es in *. cbn in *.
    split_and!; [done | intros e He; rewrite He in Hx; by apply Z.ltb_ge in Hx | intros b E; by rewrite E in Hs].
  - intros (Hb & Hx & Hs). eexists. apply identify_ok. split; [reflexivity |]. unfold is_expired, is_budget_exceeded. rewrite Eb, Ee, Em, Es. cbn.
    split_and!; [done | destruct (expires t); [apply Z.ltb_ge; auto | done] | destruct (tk_max_budget t); auto].
Qed.

(** ** Properties *)

(** The models that a key may call, as the names in its list mean them: with the names of
    the team's models put in for [all-team-models], no list for [all-proxy-models], and the
    team's list in place of none. *)
Definition meant_models (own team : list string) : list string :=
  let named := if bool_decide ("all-team-models" ∈ own) then team else own in
  if bool_decide (named = []) || bool_decide ("all-proxy-models" ∈ named) then team else named.

Lemma expand_meant i : "all-proxy-models" ∉ team_models i ->
  models (expand_models i) = meant_models (models i) (team_models i) /\ ("all-proxy-models" ∈ models i -> models (expand_models i) = team_models i).
Proof.
  intros Hp. unfold expand_models, meant_models.
  repeat (case_bool_decide; cbn [models team_models with_models negb orb andb] in *); subst; split; intros; simplify_eq; try done; try congruence; try set_solver.
Qed.

Lemma resolved_no_proxy ms : "all-proxy-models" ∉ resolve_team_models ms.
Proof.
  unfold resolve_team_models. destruct (existsb special ms) eqn:E; [set_solver |]. intros Hin.
  assert (existsb special ms = true); [| congruence]. apply existsb_exists. exists "all-proxy-models". by rewrite <- list_elem_of_In.
Qed.

(** The models of an authenticated key are the ones its list means; a key with
    [all-proxy-models] in a team with a list of its own is limited to that list. *)
Theorem key_models_exact now db t i tid r :
  identify now db t = inr i -> tk_team_id t = Some tid -> lookup_team db tid = inr r ->
  models i = meant_models (tk_models t) (resolve_team_models r.1)
  /\ ("all-proxy-models" ∈ tk_models t -> models i = resolve_team_models r.1).
Proof.
  intros (-> & _)%identify_ok Et Er. unfold join_team. cbn [id_team_id token_to_identity]. rewrite Et, Er. destruct r as [ms alias].
  exact (expand_meant (with_team (token_to_identity t) alias (resolve_team_models ms)) (resolved_no_proxy ms)).
Qed.

Section properties.
Context {C : Type} `{TokenCacheLaws C} (hash_token : string -> string).

(** Who is authenticated.  The master key and nothing else gets the master's identity;
    any other key needs a row, from the cache or the table, that is not blocked, not
    expired and within its budget. *)
Theorem authenticated_exact now master db c raw_key i :
  (authenticate hash_token now master db c raw_key).2 = inr i ->
  (master = Some raw_key /\ i = master_identity)
  \/ exists t, usable now t /\ identify now db t = inr i
     /\ ((cache_get now c (hash_token raw_key)).2 = Some t \/ exists d, db = Some d /\ query_token d (hash_token raw_key) = inr (Some t)).
Proof.
  unfold authenticate. destruct (is_master_key master raw_key) eqn:Em.
  { apply is_master_key_spec in Em. intros [= <-]. by left. }
  intros E. right. unfold lookup_token in E. destruct (cache_get now c (hash_token raw_key)) as [c1 [t |]].
  - exists t. split; [apply (identify_usable now db); eauto |]. eauto.
  - destruct db as [d |]; [| done]. destruct (query_token d (hash_token raw_key)) as [e | [t |]] eqn:Eq; [done | | done].
    exists t. split; [apply (identify_usable now (Some d)); eauto |]. eauto 6.
Qed.

(** The times of the requests: none comes later than the idle time after the one before. *)
Fixpoint paced (t : Z) (l : list Z) : Prop := match l with [] => True | now :: l' => t <= now < t + idle_micros /\ paced now l' end.

(** A key that is used stays good whatever happens to its row.  Once it is in the
    cache, and as long as no five minutes pass without a request, every request is
    authenticated with the row of the first one: deleting the row, blocking the key or
    spending its budget changes nothing, nor does a database that is gone. *)
Theorem revoked_key_stays master raw_key c t t0 l :
  is_master_key master raw_key = false -> cached c (hash_token raw_key) t t0 -> paced t0 l.*1 ->
  (forall x, x ∈ l -> usable x.1 t) ->
  forall r, r ∈ authenticate_all hash_token master raw_key c l -> exists i, r = inr i /\ id_key_hash i = token t.
Proof.
  intros Hm. revert c t0. induction l as [| [now db] l IH]; intros c t0 Hc Hp Hu r Hr; [by apply elem_of_nil in Hr |].
  destruct Hp as [Hn Hp]. cbn [fst fmap list_fmap] in *. cbn [authenticate_all] in Hr. unfold authenticate in Hr. rewrite Hm in Hr.
  unfold lookup_token in Hr. destruct (get_used c (hash_token raw_key) t t0 now Hc Hn) as [Eg Hc'].
  destruct (cache_get now c (hash_token raw_key)) as [c1 o]. cbn [fst snd] in *. subst o.
  apply elem_of_cons in Hr as [-> | Hr].
  - destruct (proj2 (identify_usable now db t) (Hu (now, db) (list_elem_of_here _ _))) as [i Hi]. exists i. split; [done |].
    apply identify_ok in Hi as (-> & _). by destruct (join_expand db (token_to_identity t)) as [-> _].
  - eapply (IH c1 now); [exact Hc' | exact Hp | | exact Hr]. intros x Hx. apply Hu. by right.
Qed.

End properties.

(** ** Examples *)

(** A cache without a capacity. *)
#[local] Instance map_cache : TokenCache (gmap string (VerificationToken * Z)) := {|
  cache_get := fun now c k => match c !! k with
                              | Some (v, t) => if now <? t + idle_micros then (<[k := (v, now)]> c, Some v) else (delete k c, None)
                              | None => (c, None)
                              end;
  cache_insert := fun now c k v => <[k := (v, now)]> c;
|}.
#[local] Instance map_cache_laws : TokenCacheLaws (gmap string (VerificationToken * Z)).
Proof.
  refine {| cached := fun c k v t => c !! k = Some (v, t) |}.
  - intros c k v t now E Hn. cbn. rewrite E. destruct (Z.ltb_spec now (t + idle_micros)); [| lia]. split; [done |]. apply lookup_insert_eq.
  - intros c k v now. apply lookup_insert_eq.
Defined.

Definition demo_token : VerificationToken := mkToken "h" (Some "demo") None (f64_of 0) None ["all-proxy-models"] None (Some "t1") None None None None None.
Definition revoked_token : VerificationToken := mkToken "h" (Some "demo") None (f64_of 0) None [] None None None (Some true) None None None.
Definition demo_database (t : VerificationToken) : Database :=
  mkDatabase (fun _ => inr (Some t)) (fun _ => inr (Some (mkTeamRow ["gpt-4"] None))).

Lemma key_models_exact_witness :
  exists i, identify 0 (Some (demo_database demo_token)) demo_token = inr i /\ models i = ["gpt-4"].
Proof.
  eexists. split; [reflexivity |].
  apply (proj2 (key_models_exact 0 (Some (demo_database demo_token)) demo_token _ "t1" (["gpt-4"], None) eq_refl eq_refl eq_refl)). by left.
Defined.

Lemma authenticated_exact_witness : exists t, usable 5 t
  /\ ((cache_get 5 (∅ : gmap string (VerificationToken * Z)) "k").2 = Some t \/ exists d, Some (demo_database demo_token) = Some d /\ query_token d "k" = inr (Some t)).
Proof.
  destruct (authenticated_exact (C := gmap string (VerificationToken * Z)) (fun k => k) 5 None (Some (demo_database demo_token)) ∅ "k"
    (expand_models (join_team (Some (demo_database demo_token)) (token_to_identity demo_token))))
    as [[? ?] | (t & Hu & _ & Ht)]; [vm_compute; reflexivity | discriminate | exists t; split; assumption].
Defined.

(** Blocked after 100 seconds, used after 200 and 400. *)
Lemma revoked_key_stays_witness :
  Forall (fun r => exists i, r = inr i /\ id_key_hash i = "h")
    (authenticate_all (fun k => k) None "k" (<["k" := (demo_token, 0)]> (∅ : gmap string (VerificationToken * Z)))
       [(200 * 1000000, Some (demo_database revoked_token)); (400 * 1000000, Some (demo_database revoked_token))]).
Proof.
  apply Forall_forall, (revoked_key_stays (C := gmap string (VerificationToken * Z)) (fun k => k) None "k" _ demo_token 0); [reflexivity | apply lookup_insert_eq | |].
  - cbn. unfold idle_micros. lia.
  - intros x _. split_and!; [reflexivity | discriminate | discriminate].
Defined.

End Auth.
