(* ===== verification/Access.v ===== *)
(** * Access: which models a key may use and see (boom-main)

    Models of [boom-main/src/routes.rs] the check of the access to a model, the list of
    models with its filter, the client's address and the headers for the upstream, with
    [boom-ctxaware/src/classifier.rs].  Formatters of addresses are parameters. *)

From S2P Require Import Prelude Core Text Float64 Json Messages Stores Policy Router Auth.

Module Access.
Import Core Json Messages Stores Policy HybridRouter Router Auth.

Section access.
Context {D Q P S T : Type} `{DecimalOps D} `{SchedulePolicy Q P} `{ClassificationStrategy T S}.
Implicit Types (r : Router D P S).

(** ** Access *)

Definition is_public r (public_models : list string) (model : string) : bool :=
  bool_decide (model ∈ public_models)
  || match resolve_model r model with Some target => bool_decide (target ∈ public_models) | None => false end.

(** An alias in the list of the key that means the model. *)
Definition reverse_alias r (allowed : list string) (model : string) : bool :=
  existsb (fun a => match resolve_model r a with Some target => bool_decide (target = model) | None => false end) allowed.

(** The alias [model] of a model in the list. *)
Definition forward_alias r (allowed : list string) (model : string) : bool :=
  match resolve_model r model with Some target => bool_decide (target ∈ allowed) | None => false end.

Definition check_model_access (i : AuthIdentity) (model : string) r (public_models : list string) : option GatewayError :=
  if is_public r public_models model then None
  else if bool_decide (models i = []) then None
  else if bool_decide (model ∈ models i) then None
  else if forward_alias r (models i) model then None
  else if reverse_alias r (models i) model then None
  else if is_hybrid_virtual_model r model then None
  else if is_model_configured r model then Some (ModelNotAllowed model)
  else if bool_decide ("*" ∈ models i) then None
  else Some (ModelNotAllowed model).

Definition not_star (l : list string) : list string := retain (fun m => negb (bool_decide (m = "*"))) l.

Definition is_model_visible (name : string) (key_models : list string) r (public_models : list string) : bool :=
  is_public r public_models name
  || bool_decide (name ∈ not_star key_models)
  || forward_alias r (not_star key_models) name
  || reverse_alias r (not_star key_models) name.

(** The names that [list_models] shows, and whether [get_model] finds one. *)
Definition list_models (i : AuthIdentity) r (public_models : list string) : list string :=
  let all_names := visible_model_names r in
  if bool_decide (models i = []) then all_names
  else retain (fun name => is_model_visible name (models i) r public_models) all_names.

Definition get_model (i : AuthIdentity) r (public_models : list string) (model_id : string) : option GatewayError :=
  let all_names := visible_model_names r in
  let is_accessible := if bool_decide (models i = []) then true
    else existsb (fun name => bool_decide (name = model_id)) (retain (fun name => is_model_visible name (models i) r public_models) all_names) in
  if negb is_accessible || negb (bool_decide (model_id ∈ all_names)) then Some (ModelNotFound model_id) else None.

(** ** What goes to the upstream *)

Definition is_vip_key (metadata : Value) : bool :=
  default false (m ← as_object metadata; v ← obj_get m "vip"; as_bool v).

Inductive ClientKind := Anthropic | Other.
Definition wire_label (k : ClientKind) : string := match k with Anthropic => "anthropic" | Other => "anonymous" end.
Definition is_anthropic_path (api_path : string) : bool := bool_decide (api_path = "/v1/messages") || starts_with "/v1/messages/" api_path.
Definition classify_client (api_path : string) : ClientKind := if is_anthropic_path api_path then Anthropic else Other.

Definition build_gateway_headers (is_vip enable_priority_header : bool) (api_path : string) (client_type_enabled : bool) : list (string * string) :=
  (if enable_priority_header then [("X-Gateway-Priority", if is_vip then "100" else "0")] else [])
  ++ (if client_type_enabled then [("X-BooM-Client-Type", wire_label (classify_client api_path))] else []).

(** The address of the client: [header] gives the text of a header, [remote] the address
    of the connection. *)
Definition trimmed (s : string) : option string := let t := trim s in if bool_decide (t = "") then None else Some t.
Definition extract_client_ip (header : string -> option string) (remote : option string) : string :=
  match header "X-Real-IP" ≫= trimmed with
  | Some ip => ip
  | None =>
    match v ← header "X-Forwarded-For"; trimmed (split_first "," v) with
    | Some ip => ip
    | None => default "unknown" remote
    end
  end.

(** ** Properties *)

Lemma reverse_alias_spec r l model : reverse_alias r l model = true <-> exists a, a ∈ l /\ resolve_model r a = Some model.
Proof.
  unfold reverse_alias. rewrite existsb_exists. setoid_rewrite <- list_elem_of_In. split; intros (a & Ha & E); exists a; split; try done.
  - destruct (resolve_model r a); [| done]. by apply bool_decide_eq_true in E as ->.
  - rewrite E. by apply bool_decide_eq_true.
Qed.

Lemma forward_alias_spec r l model : forward_alias r l model = true <-> exists t, resolve_model r model = Some t /\ t ∈ l.
Proof. unfold forward_alias. destruct (resolve_model r model); [rewrite bool_decide_eq_true |]; naive_solver. Qed.

Lemma elem_not_star l x : x ∈ not_star l <-> x ∈ l /\ x <> "*".
Proof. unfold not_star. rewrite elem_of_retain, negb_true_iff, bool_decide_eq_false. naive_solver. Qed.

(** Access is granted exactly to the public models, to the models of the key's list by
    their own name or by an alias in either direction, to everything without a list, to
    the virtual model, and with a star to what is not configured. *)
Theorem access_exact (i : AuthIdentity) model r public :
  check_model_access i model r public = None <->
  is_public r public model = true \/ models i = [] \/ model ∈ models i
  \/ (exists t, resolve_model r model = Some t /\ t ∈ models i) \/ (exists a, a ∈ models i /\ resolve_model r a = Some model)
  \/ is_hybrid_virtual_model r model = true \/ (is_model_configured r model = false /\ "*" ∈ models i).
Proof.
  rewrite <- forward_alias_spec, <- reverse_alias_spec. unfold check_model_access.
  destruct (is_public r public model); [tauto |]. case_bool_decide; [tauto |]. case_bool_decide; [tauto |].
  destruct (forward_alias r (models i) model); [tauto |]. destruct (reverse_alias r (models i) model); [tauto |].
  destruct (is_hybrid_virtual_model r model); [tauto |].
  destruct (is_model_configured r model); [| case_bool_decide]; (split; [intros; (discriminate || tauto) | intros; naive_solver]).
Qed.

(** What a key sees it may use. *)
Theorem visible_is_accessible (i : AuthIdentity) r public model :
  model ∈ list_models i r public -> check_model_access i model r public = None /\ get_model i r public model = None.
Proof.
  intros Hm. assert (model ∈ visible_model_names r /\ (models i = [] \/ is_model_visible model (models i) r public = true)) as [Hv Hs].
  { revert Hm. unfold list_models. case_bool_decide; [auto |]. intros [? ?]%elem_of_retain. auto. }
  split.
  - apply access_exact. destruct Hs as [| Hs]; [by auto |]. unfold is_model_visible in Hs.
    rewrite !orb_true_iff, bool_decide_eq_true, forward_alias_spec, reverse_alias_spec in Hs.
    setoid_rewrite elem_not_star in Hs. naive_solver.
  - unfold get_model. rewrite (bool_decide_eq_true_2 (model ∈ _)) by done. case_bool_decide; [done |].
    destruct Hs as [| Hs]; [done |]. replace (existsb _ _) with true; [done |]. symmetry. apply existsb_exists. exists model.
    rewrite <- list_elem_of_In, elem_of_retain. split; [done |]. by apply bool_decide_eq_true.
Qed.

(** The virtual model of the hybrid router is open to every key, and what it resolves
    to is not checked again: a key that may not call the model of a tier gets it under the
    name of the virtual model. *)
Theorem virtual_model_bypasses_access (i : AuthIdentity) r public messages tools hr :
  classifier r = Some hr ->
  let tier := strategy_classify (strategy hr) (mkClassifyRequest messages tools (default_tier hr)) in
  check_model_access i (model_name hr) r public = None
  /\ forall target, tiers hr !! tier = Some target ->
     resolve_request_model r (model_name hr) messages tools = target.
Proof.
  intros Hc tier. split.
  - apply access_exact. do 5 right. left. unfold is_hybrid_virtual_model. rewrite Hc. by apply bool_decide_eq_true.
  - intros target Ht. unfold resolve_request_model. rewrite Hc. cbn [mbind option_bind]. unfold classify.
    rewrite (bool_decide_eq_true_2 (model_name hr = _)) by done. cbn [negb]. fold tier. by rewrite Ht.
Qed.

(** When the query for its team fails, a key whose list is the team's is not limited at
    all, and may call every model. *)
Theorem team_failure_opens_all now db t i tid e r public model :
  identify now (Some db) t = inr i -> tk_team_id t = Some tid -> query_team db tid = inl e ->
  tk_models t = [] \/ "all-team-models" ∈ tk_models t ->
  models i = [] /\ check_model_access i model r public = None.
Proof.
  intros (-> & _)%identify_ok Et Eq Hm. unfold join_team, lookup_team. cbn [id_team_id token_to_identity]. rewrite Et, Eq.
  assert (models (expand_models (token_to_identity t)) = []) as E.
  { unfold expand_models. cbn [models team_models with_team with_models token_to_identity].
    repeat (case_bool_decide; cbn [models team_models with_models token_to_identity negb orb andb] in *); try done; destruct Hm as [Hm |]; try done; by rewrite Hm in *. }
  split; [done |]. apply access_exact. by right; left.
Qed.

End access.

(** ** Examples *)

#[local] Existing Instance whole_decimal.
#[local] Instance demo_strategy : ClassificationStrategy unit TierClassifier := tier_classifier (fun s => s).

(** A deployment "big", the alias "gpt" of "small", and the virtual model "auto", whose
    every tier is "big". *)
Definition demo_access_router : Router Z RoundRobinPolicy TierClassifier :=
  mkRouter (set_deployments (set_deployments new_deployment_store "big" demo_providers).1 "small" demo_providers).1
    (set_alias new_alias_store "gpt" "small" false) (mkRoundRobin ∅)
    (Some (mkHybridRouter "auto" the_tier_classifier "small" {[ "small" := "big"; "medium" := "big"; "large" := "big" ]})).

(** A key for "gpt" alone. *)
Definition demo_gpt_key : AuthIdentity := with_models master_identity ["gpt"].

Lemma visible_is_accessible_witness :
  "small" ∈ list_models demo_gpt_key demo_access_router [] /\ check_model_access demo_gpt_key "small" demo_access_router [] = None.
Proof.
  assert ("small" ∈ list_models demo_gpt_key demo_access_router []) as Hs by (apply (bool_decide_unpack _); vm_compute; exact I).
  split; [exact Hs | exact (proj1 (visible_is_accessible demo_gpt_key demo_access_router [] "small" Hs))].
Defined.

(** The key may not call "big", but gets it under the name "auto". *)
Lemma virtual_model_bypasses_access_witness :
  check_model_access demo_gpt_key "big" demo_access_router [] = Some (ModelNotAllowed "big")
  /\ check_model_access demo_gpt_key "auto" demo_access_router [] = None
  /\ resolve_request_model (T := unit) demo_access_router "auto" [] None = "big".
Proof.
  pose proof (virtual_model_bypasses_access (T := unit) demo_gpt_key demo_access_router [] [] None _ eq_refl) as [Ha Ht].
  split; [vm_compute; reflexivity |]. split; [exact Ha |]. apply Ht. vm_compute. reflexivity.
Defined.

(** A key with the models of its team, and a database that fails on teams. *)
Definition demo_team_token : VerificationToken := mkToken "h" None None (f64_of 0) None ["all-team-models"] None (Some "t1") None None None None None.
Definition failing_teams : Database := mkDatabase (fun _ => inr None) (fun _ => inl (InternalError "Database error")).

Lemma team_failure_opens_all_witness : exists i,
  identify 0 (Some failing_teams) demo_team_token = inr i /\ check_model_access i "big" demo_access_router [] = None.
Proof.
  exists (expand_models (join_team (Some failing_teams) (token_to_identity demo_team_token))). split; [vm_compute; reflexivity |].
  refine (proj2 (team_failure_opens_all 0 failing_teams demo_team_token _ "t1" (InternalError "Database error") demo_access_router [] "big" _ _ _ _)).
  - vm_compute. reflexivity.
  - reflexivity.
  - reflexivity.
  - right. left.
Defined.

End Access.
