(* ===== verification/AgentStats.v ===== *)
(** * AgentStats: requests and tokens by kind of client, over the last hour (boom-ctxaware)

    Models [boom-ctxaware/src/stats.rs]: a ring of sixty buckets of six counters.  Each
    counter is a ring of [Rebalance], and the theorem is carried over from there.  The
    clock is an argument; the counters wrap. *)

From S2P Require Import Prelude Core Text Float64 Policy Rebalance Router Auth Access.

Module AgentStats.
Import Rebalance.

Record Bucket := mkBucket {
  total : Z;
  anthropic : Z;
  input_tokens_total : Z;
  input_tokens_anthropic : Z;
  output_tokens_total : Z;
  output_tokens_anthropic : Z;
}.
Definition no_bucket : Bucket := mkBucket 0 0 0 0 0 0.

Record AgentInner := mkAgents { agents_start : Z; agents_buckets : list Bucket }.

Definition new_agents (now : Z) : AgentInner :=
  mkAgents (to_minute now -sat (NUM_BUCKETS - 1)) (replicate (Z.to_nat NUM_BUCKETS) no_bucket).

Definition agents_advance (target_min : Z) (r : AgentInner) : AgentInner :=
  let new_start := target_min -sat (NUM_BUCKETS - 1) in
  if new_start <=? agents_start r then r
  else
    mkAgents new_start
      (if NUM_BUCKETS <=? new_start -sat agents_start r then replicate (Z.to_nat NUM_BUCKETS) no_bucket
       else foldl (fun bs m => <[bucket_index m := no_bucket]> bs) (agents_buckets r)
              (seqZ (agents_start r) (new_start - agents_start r))).

(** The slot of the current minute, changed. *)
Definition agents_touch (now : Z) (f : Bucket -> Bucket) (r : AgentInner) : AgentInner :=
  let r1 := agents_advance (to_minute now) r in
  mkAgents (agents_start r1) (alter f (bucket_index (to_minute now)) (agents_buckets r1)).

Definition count_request (is_anthropic : bool) (b : Bucket) : Bucket :=
  mkBucket (total b +u 1) (if is_anthropic then anthropic b +u 1 else anthropic b)
    (input_tokens_total b) (input_tokens_anthropic b) (output_tokens_total b) (output_tokens_anthropic b).
Definition count_tokens (is_anthropic : bool) (input output : Z) (b : Bucket) : Bucket :=
  mkBucket (total b) (anthropic b)
    (input_tokens_total b +u input) (if is_anthropic then input_tokens_anthropic b +u input else input_tokens_anthropic b)
    (output_tokens_total b +u output) (if is_anthropic then output_tokens_anthropic b +u output else output_tokens_anthropic b).

Definition agents_record (now : Z) (api_path : string) (r : AgentInner) : AgentInner :=
  agents_touch now (count_request (Access.is_anthropic_path api_path)) r.
Definition record_tokens (now : Z) (api_path : string) (input output : Z) (r : AgentInner) : AgentInner :=
  agents_touch now (count_tokens (Access.is_anthropic_path api_path) input output) r.

(** The buckets with their labels, the sums, and the shares. *)
Record AgentSummary := mkSummary { sums : Bucket; ratio : f64; input_token_ratio : f64; output_token_ratio : f64 }.
Record AgentStatsSnapshot := mkSnapshot { events : list (string * Bucket); summary : AgentSummary }.

Definition add_bucket (a b : Bucket) : Bucket :=
  mkBucket (total a +u total b) (anthropic a +u anthropic b)
    (input_tokens_total a +u input_tokens_total b) (input_tokens_anthropic a +u input_tokens_anthropic b)
    (output_tokens_total a +u output_tokens_total b) (output_tokens_anthropic a +u output_tokens_anthropic b).
Definition share (part whole : Z) : f64 := if whole =? 0 then f64_of 0 else f64_div (f64_of part) (f64_of whole).

Definition agents_snapshot (now : Z) (r : AgentInner) : AgentInner * AgentStatsSnapshot :=
  let now_min := to_minute now in
  let r1 := agents_advance now_min r in
  let base := now_min -sat (NUM_BUCKETS - 1) in
  let slot i := default no_bucket (agents_buckets r1 !! bucket_index (base + i)) in
  let s := foldl add_bucket no_bucket (slot <$> seqZ 0 NUM_BUCKETS) in
  (r1, mkSnapshot ((fun i => (ring_label i, slot i)) <$> seqZ 0 NUM_BUCKETS)
         (mkSummary s (share (anthropic s) (total s)) (share (input_tokens_anthropic s) (input_tokens_total s))
            (share (output_tokens_anthropic s) (output_tokens_total s)))).

(** ** Lemmas: each counter is a ring *)

Definition project (f : Bucket -> Z) (r : AgentInner) : Inner := mkInner (agents_start r) (f <$> agents_buckets r).

Lemma fmap_clear (f : Bucket -> Z) (ms : list Z) (bs : list Bucket) :
  f no_bucket = 0 ->
  f <$> foldl (fun bs m => <[bucket_index m := no_bucket]> bs) bs ms = foldl (fun bs m => <[bucket_index m := 0]> bs) (f <$> bs) ms.
Proof.
  intros Hf. revert bs. induction ms as [| m ms IH]; intros bs; [done |]. simpl.
  by rewrite IH, list_fmap_insert, Hf.
Qed.

Lemma project_advance f m r : f no_bucket = 0 -> project f (agents_advance m r) = advance_to m (project f r).
Proof.
  intros Hf. unfold agents_advance, advance_to, project. cbn [start_minute buckets]. destruct (Z.leb_spec (m -sat (NUM_BUCKETS - 1)) (agents_start r)) as [| Hlt]; [done |].
  assert ((m -sat (NUM_BUCKETS - 1)) -sat agents_start r = m -sat (NUM_BUCKETS - 1) - agents_start r) as -> by (unfold sat_sub in *; lia).
  cbn [agents_start agents_buckets]. f_equal. destruct (NUM_BUCKETS <=? _); [| by apply fmap_clear]. by rewrite fmap_replicate, Hf.
Qed.

Lemma project_new f now : f no_bucket = 0 -> project f (new_agents now) = new_ring now.
Proof. intros Hf. unfold project, new_agents, new_ring. simpl agents_start. f_equal. cbn [agents_buckets]. by rewrite fmap_replicate, Hf. Qed.

(** [n] records of a ring at one time. *)
Definition ring_records (now : Z) (n : nat) (r : Inner) : Inner := Nat.iter n (ring_record now) (advance_to (to_minute now) r).

Lemma advance_idem m r : advance_to m (advance_to m r) = advance_to m r.
Proof.
  unfold advance_to. destruct (Z.leb_spec (m -sat (NUM_BUCKETS - 1)) (start_minute r)) as [H |]; simpl.
  - by rewrite (proj2 (Z.leb_le _ _)) by done.
  - by rewrite Z.leb_refl.
Qed.

Lemma ring_records_alter now n r :
  let r1 := advance_to (to_minute now) r in
  (forall x, x ∈ buckets r1 -> is_u64 x) ->
  ring_records now n r = mkInner (start_minute r1) (alter (fun c => c +u Z.of_nat n) (bucket_index (to_minute now)) (buckets r1)).
Proof.
  intros r1 Hr. unfold ring_records. fold r1. induction n as [| n IH]; cbn [Nat.iter nat_rect].
  - destruct r1 as [st bs]. simpl in *. f_equal. symmetry. rewrite <- (list_alter_id id bs (bucket_index (to_minute now))) at 2 by done. apply list_alter_ext; [| done].
    intros x Hx. cbn [id]. unfold u64_add. rewrite Z.add_0_r, wrap64_small; [done |]. apply Hr. by eapply list_elem_of_lookup_2.
  - unfold Nat.iter in IH. rewrite IH. unfold ring_record. cbn [start_minute buckets]. set (bs := alter _ _ _).
    assert (advance_to (to_minute now) (mkInner (start_minute r1) bs) = mkInner (start_minute r1) bs) as ->.
    { unfold advance_to. simpl. assert (to_minute now -sat (NUM_BUCKETS - 1) <= start_minute r1) as Hle.
      { unfold r1, advance_to. destruct (Z.leb_spec (to_minute now -sat (NUM_BUCKETS - 1)) (start_minute r)); simpl; lia. }
      by rewrite (proj2 (Z.leb_le _ _)) by done. }
    cbn [start_minute buckets]. f_equal. unfold bs. rewrite list_alter_alter_eq. apply list_alter_ext; [| done].
    intros x Hx. unfold u64_add. simpl. unfold wrap64. rewrite Z.add_mod_idemp_l by lia. f_equal. lia.
Qed.

(** ** What was recorded *)

Inductive Event := Request (api_path : string) | Tokens (api_path : string) (input output : Z).
Definition happen (now : Z) (e : Event) (r : AgentInner) : AgentInner :=
  match e with Request p => agents_record now p r | Tokens p i o => record_tokens now p i o r end.

(** The six counters, and what an event adds to each. *)
Inductive Field := Total | Anthropic | InputTotal | InputAnthropic | OutputTotal | OutputAnthropic.
Definition read (f : Field) : Bucket -> Z :=
  match f with
  | Total => total | Anthropic => anthropic | InputTotal => input_tokens_total | InputAnthropic => input_tokens_anthropic
  | OutputTotal => output_tokens_total | OutputAnthropic => output_tokens_anthropic
  end.
Definition amount (f : Field) (e : Event) : Z :=
  match f, e with
  | Total, Request _ => 1
  | Anthropic, Request p => if Access.is_anthropic_path p then 1 else 0
  | InputTotal, Tokens _ i _ => i
  | InputAnthropic, Tokens p i _ => if Access.is_anthropic_path p then i else 0
  | OutputTotal, Tokens _ _ o => o
  | OutputAnthropic, Tokens p _ o => if Access.is_anthropic_path p then o else 0
  | _, _ => 0
  end.
Definition event_ok (e : Event) : Prop := match e with Request _ => True | Tokens _ i o => is_u64 i /\ is_u64 o end.

Lemma amount_u64 f e : event_ok e -> is_u64 (amount f e).
Proof. unfold is_u64. destruct f, e as [p | p i o]; simpl; try (destruct (Access.is_anthropic_path p)); unfold is_u64; lia. Qed.

Lemma read_zero f : read f no_bucket = 0.
Proof. by destruct f. Qed.

(** The rings of the tracker are rings of 64-bit values. *)
Definition ring_u64 (r : Inner) : Prop := forall x, x ∈ buckets r -> is_u64 x.

Lemma ring_inv_u64 last log r : ring_inv last log r -> ring_u64 r.
Proof.
  intros [Hl Hs _ Hc] x (i & Hi)%list_elem_of_lookup_1. assert (i < 60)%nat by (rewrite <- Hl; by eapply lookup_lt_Some).
  assert (exists m, start_minute r <= m < start_minute r + 60 /\ bucket_index m = i) as (m & Hm & <-).
  { exists (start_minute r + (Z.of_nat i - start_minute r) mod 60). pose proof (Z.mod_pos_bound (Z.of_nat i - start_minute r) 60).
    split; [lia |]. unfold bucket_index, NUM_BUCKETS. rewrite Z.add_mod_idemp_r by lia.
    replace (start_minute r + (Z.of_nat i - start_minute r)) with (Z.of_nat i) by lia. rewrite Z.mod_small by lia. lia. }
  rewrite Hc in Hi by done. injection Hi as <-. apply wrap64_u64.
Qed.

Lemma alter_project (f : Bucket -> Z) (g : Bucket -> Bucket) (h : Z -> Z) i (bs : list Bucket) :
  (forall b, b ∈ bs -> f (g b) = h (f b)) -> f <$> alter g i bs = alter h i (f <$> bs).
Proof.
  intros E. revert i. induction bs as [| b bs IH]; intros i; [by destruct i |].
  destruct i as [| i]; simpl; f_equal; [apply E; by left |]. apply IH. intros b' Hb. apply E. by right.
Qed.

(** An event is [amount] records of the ring of each counter. *)
Lemma project_happen f now e r :
  event_ok e -> ring_u64 (advance_to (to_minute now) (project (read f) r)) ->
  project (read f) (happen now e r) = ring_records now (Z.to_nat (amount f e)) (project (read f) r).
Proof.
  intros He Hr. rewrite ring_records_alter by exact Hr. rewrite Z2Nat.id by apply (amount_u64 f e He).
  assert (exists g, happen now e r = agents_touch now g r
    /\ forall b, is_u64 (read f b) -> read f (g b) = read f b +u amount f e) as (g & -> & Hg).
  { assert (forall x, is_u64 x -> x = x +u 0) as H0 by (intros x Hx; unfold u64_add; by rewrite Z.add_0_r, wrap64_small).
    destruct e as [p | p i o]; eexists; (split; [reflexivity |]); intros b Hb; destruct f; simpl in *; try destruct (Access.is_anthropic_path p); auto. }
  pose proof (project_advance (read f) (to_minute now) r (read_zero f)) as Ea. rewrite <- Ea in Hr |- *.
  unfold agents_touch, project. cbn [start_minute buckets agents_start agents_buckets]. f_equal.
  apply alter_project. intros b Hb. apply Hg, Hr. simpl. apply list_elem_of_fmap. eauto.
Qed.

Lemma ring_records_inv last log r now n :
  ring_inv last log r -> 0 <= now -> last <= to_minute now ->
  ring_inv (to_minute now) (replicate n (to_minute now) ++ log) (ring_records now n r).
Proof.
  intros Hr H0 Hle. induction n as [| n IH]; [by eapply advance_inv |]. simpl. eapply record_inv; [exact IH | done | done].
Qed.

(** The events of a run, the latest first, with their times. *)
Definition run_agents (t0 : Z) (es : list (Z * Event)) : AgentInner := foldr (fun e r => happen e.1 e.2 r) (new_agents t0) es.
Definition last_time (t0 : Z) (es : list (Z * Event)) : Z := match es with e :: _ => e.1 | [] => t0 end.
Inductive timely (t0 : Z) : list (Z * Event) -> Prop :=
| timely_nil : 0 <= t0 -> timely t0 []
| timely_cons now e es : timely t0 es -> 0 <= now -> last_time t0 es <= now -> event_ok e -> timely t0 ((now, e) :: es).

(** What the events of a minute add to a counter. *)
Definition recorded (f : Field) (m : Z) (es : list (Z * Event)) : Z :=
  zsum (fun e => if to_minute e.1 =? m then amount f e.2 else 0) es.

Definition minute_log (f : Field) (es : list (Z * Event)) : list Z :=
  es ≫= fun e => replicate (Z.to_nat (amount f e.2)) (to_minute e.1).

Lemma events_in_app m l k : events_in m (l ++ k) = events_in m l + events_in m k.
Proof. unfold events_in. by rewrite zsum_app. Qed.
Lemma events_in_replicate m n x : events_in m (replicate n x) = if x =? m then Z.of_nat n else 0.
Proof.
  induction n as [| n IH]; [by destruct (x =? m) |]. cbn [replicate]. unfold events_in in *. rewrite zsum_cons, IH.
  destruct (x =? m); lia.
Qed.

Lemma minute_log_recorded f m t0 es : timely t0 es -> events_in m (minute_log f es) = recorded f m es.
Proof.
  induction 1 as [| now e es Ht IH H0 Hle He]; [done |]. unfold minute_log, recorded in *. rewrite zsum_cons. cbn [mbind list_bind].
  rewrite events_in_app, events_in_replicate, IH. cbn [fst snd].
  pose proof (amount_u64 f e He) as [? _]. destruct (_ =? _); [| done]. by rewrite Z2Nat.id.
Qed.

Lemma run_agents_inv f t0 es :
  timely t0 es -> 0 <= last_time t0 es /\ ring_inv (to_minute (last_time t0 es)) (minute_log f es) (project (read f) (run_agents t0 es)).
Proof.
  induction 1 as [H0 | now e es Ht [Hl IH] H0 Hle He]; simpl.
  - split; [done |]. rewrite project_new by apply read_zero. by apply new_ring_inv.
  - split; [done |]. assert (to_minute (last_time t0 es) <= to_minute now) as Hm by (apply Z.div_le_mono; lia).
    rewrite project_happen; [| done |].
    + by eapply ring_records_inv.
    + eapply ring_inv_u64, advance_inv; [exact IH | done].
Qed.

(** The statistics of the clients are the history of the last hour: bucket by bucket,
    each of the six counters is the sum, modulo 2^64, of what was recorded in that
    minute. *)
Theorem agent_stats_exact t0 es now f (i : nat) :
  timely t0 es -> last_time t0 es <= now -> (i < 60)%nat ->
  exists label b, events (agents_snapshot now (run_agents t0 es)).2 !! i = Some (label, b)
    /\ label = ring_label (Z.of_nat i) /\ read f b = wrap64 (recorded f (Z.max 0 (to_minute now - 59) + Z.of_nat i) es).
Proof.
  intros Ht Hle Hi. destruct (run_agents_inv f t0 es Ht) as [H0 Hinv].
  assert (to_minute (last_time t0 es) <= to_minute now) as Hm by (apply Z.div_le_mono; lia).
  destruct (advance_inv _ _ _ _ Hinv Hm) as [Hl Hs _ Hc].
  set (m := Z.max 0 (to_minute now - 59) + Z.of_nat i).
  assert (read f <$> agents_buckets (agents_advance (to_minute now) (run_agents t0 es)) !! bucket_index m = Some (wrap64 (recorded f m es))) as Hm'.
  { rewrite <- (minute_log_recorded f _ t0) by done. rewrite <- Hc by lia. rewrite <- project_advance by apply read_zero.
    cbn [project buckets]. by rewrite list_lookup_fmap. }
  apply fmap_Some in Hm' as (b & Eb & Er).
  exists (ring_label (Z.of_nat i)), b. split_and!; [| done | done].
  unfold agents_snapshot. cbn [snd events]. rewrite list_lookup_fmap, lookup_seqZ_lt by (unfold NUM_BUCKETS; lia).
  cbn [fmap option_fmap option_map]. rewrite Z.add_0_l.
  replace (to_minute now -sat (NUM_BUCKETS - 1) + Z.of_nat i) with m by (unfold m, sat_sub, NUM_BUCKETS; lia).
  by rewrite Eb.
Qed.

(** Two requests in one minute, the tokens of one in the next. *)
Definition demo_agent_events : list (Z * Event) :=
  [(6070, Tokens "/v1/messages" 100 20); (6010, Request "/v1/chat/completions"); (6005, Request "/v1/messages")].

Lemma agent_stats_exact_witness :
  timely 6000 demo_agent_events /\ exists label b, events (agents_snapshot 6100 (run_agents 6000 demo_agent_events)).2 !! 58%nat = Some (label, b)
    /\ read Total b = 2 /\ read Anthropic b = 1.
Proof.
  assert (timely 6000 demo_agent_events) as Ht by (repeat (constructor; simpl; unfold is_u64; try lia)).
  split; [exact Ht |].
  destruct (agent_stats_exact 6000 demo_agent_events 6100 Total 58 Ht ltac:(simpl; lia) ltac:(lia)) as (l & b & E & _ & Et).
  destruct (agent_stats_exact 6000 demo_agent_events 6100 Anthropic 58 Ht ltac:(simpl; lia) ltac:(lia)) as (l' & b' & E' & _ & Ea).
  exists l, b. split; [exact E |]. assert (b = b') as -> by congruence. rewrite Et, Ea. split; vm_compute; reflexivity.
Defined.

End AgentStats.
