(* ===== verification/Endpoints.v ===== *)
(** * Endpoints: error replies, rewrites, administration and health (boom-main, boom-core)

    Models the texts of errors of [boom-core/src/error.rs] and the replies that
    [boom-main/src/routes.rs] makes of them, the rewrite of requests of
    [boom-main/src/rewrite.rs], the handlers under [/admin], the readiness check, and which
    database a reload uses ([boom-main/src/state.rs]).  JSON text is [serde_json]'s, and the
    contents of the key cache are those of [moka]. *)

From S2P Require Import Prelude Core Text Float64 Json Messages Sse PlanStore.
From S2P Require Import Chat Anthropic Auth.

(** ** Error replies *)

Module ErrorReply.
Import Core Json Messages Sse.

(** [Display], by the attributes of the variants. *)
Definition error_text (e : GatewayError) : string :=
  match e with
  | AuthError m => "Authentication failed: " +:+ m
  | RateLimitExceeded _ m _ _ _ _ => m
  | ConcurrencyExceeded _ m => "Concurrency limit exceeded: " +:+ m
  | ModelNotFound m => "Model not found: " +:+ m
  | ProviderError m => "Provider error: " +:+ m
  | BudgetExceeded => "Budget exceeded for key"
  | ConfigError m => "Config error: " +:+ m
  | KeyExpired => "Key expired"
  | KeyBlocked => "Key blocked"
  | ModelNotAllowed m => "Model not allowed: " +:+ m
  | UpstreamTimeout => "Upstream timeout"
  | UpstreamError s m => "Upstream error (" +:+ show s +:+ "): " +:+ m
  | NotSupported m => "Endpoint not supported: " +:+ m
  | UnsupportedMode m => "Unsupported mode: " +:+ m
  | FlowControlQueueTimeout _ _ m => "Flow control queue timeout: " +:+ m
  | InternalError m => "Internal error: " +:+ m
  end.

Record HttpReply := mkReply { rp_status : Z; rp_headers : list (string * string); rp_body : string }.

(** [StatusCode::from_u16] *)
Definition from_u16 (s : Z) : option Z := if (100 <=? s) && (s <? 1000) then Some s else None.
Definition reply_status (e : GatewayError) : Z := default 500 (from_u16 (status_code e)).

Definition retry_after (e : GatewayError) : list (string * string) :=
  match e with RateLimitExceeded (Some secs) _ _ _ _ _ => [("retry-after", show secs)] | _ => [] end.
Definition stream_headers : list (string * string) := [("content-type", "text/event-stream"); ("cache-control", "no-cache")].
Definition json_headers : list (string * string) := [("content-type", "application/json")].

Definition gateway_error_value (e : GatewayError) : Value :=
  VObject [("error", VObject [("message", VString (error_text e)); ("type", VString (error_type e)); ("code", vint (status_code e))])].
Definition anthropic_error_value (e : GatewayError) : Value :=
  VObject [("type", VString "error"); ("error", VObject [("type", VString (error_type e)); ("message", VString (error_text e))])].

Section replies.
Context (to_string : Value -> string).

Definition gateway_error_reply (e : GatewayError) (is_stream : bool) : HttpReply :=
  let data := to_string (gateway_error_value e) in
  if is_stream
  then mkReply (reply_status e) (stream_headers ++ retry_after e) ("data: " +:+ data +:+ blank_line +:+ "data: [DONE]" +:+ blank_line)
  else mkReply (reply_status e) (json_headers ++ retry_after e) data.

Definition anthropic_error_reply (e : GatewayError) (is_stream : bool) : HttpReply :=
  let data := to_string (anthropic_error_value e) in
  if is_stream
  then mkReply (reply_status e) (stream_headers ++ retry_after e) ("event: error" +:+ String lf "data: " +:+ data +:+ blank_line)
  else mkReply (reply_status e) (json_headers ++ retry_after e) data.

(** *** What a client reads *)

Lemma reply_status_exact e : reply_status e = status_code e /\ 400 <= status_code e < 600.
Proof. destruct e; cbn; split; (reflexivity || lia). Qed.

Lemma split_line l r : has_char lf l = false -> split_once_str blank_line (l +:+ blank_line +:+ r) = Some (l, r).
Proof.
  intros Hl. induction l as [| a l IH].
  - rewrite append_nil. unfold blank_line. rewrite !append_cons, append_nil. cbn [split_once_str].
    pose proof (strip_prefix_app blank_line r) as E. unfold blank_line in E. rewrite !append_cons, append_nil in E. by rewrite E.
  - cbn [has_char] in Hl. apply orb_false_iff in Hl as [Ha Hl]. rewrite append_cons. cbn [split_once_str blank_line strip_prefix].
    rewrite Ascii.eqb_sym, Ha. by rewrite IH.
Qed.

(** A line break that no other follows does not end an event. *)
Lemma split_lines x a l r : has_char lf x = false -> Ascii.eqb a lf = false -> has_char lf l = false ->
  split_once_str blank_line (x +:+ String lf (String a l) +:+ blank_line +:+ r) = Some (x +:+ String lf (String a l), r).
Proof.
  intros Hx Ha Hl. assert (has_char lf (String a l) = false) as Hal by (cbn [has_char]; by rewrite Ha, Hl).
  induction x as [| b x IH].
  - rewrite !append_nil. rewrite append_cons. cbn [split_once_str]. rewrite append_cons. cbn [strip_prefix blank_line]. cbn [strip_prefix].
    rewrite Ascii.eqb_refl, Ascii.eqb_sym, Ha. rewrite <- append_cons. by rewrite split_line.
  - cbn [has_char] in Hx. apply orb_false_iff in Hx as [Hb Hx]. rewrite append_cons. cbn [split_once_str blank_line strip_prefix].
    rewrite Ascii.eqb_sym, Hb. by rewrite IH.
Qed.

(** The events of a body, by their splits. *)
Lemma read_one b e : valid_utf8 b = true -> split_once_str blank_line b = Some (e, "") -> read echo tt [Some b] = [Sent e].
Proof.
  intros Hv Hs. unfold read. cbn [packets packet]. rewrite append_nil, lossy_valid by done. pose proof (split_shorter _ _ _ Hs) as Hl.
  destruct (String.length b) as [| n]; [cbn in Hl; lia |]. cbn [events]. rewrite Hs. cbn [echo]. by destruct n.
Qed.
Lemma read_two b e1 r e2 : valid_utf8 b = true -> split_once_str blank_line b = Some (e1, r) -> split_once_str blank_line r = Some (e2, "") ->
  read echo tt [Some b] = [Sent e1; Sent e2].
Proof.
  intros Hv Hs Hr. unfold read. cbn [packets packet]. rewrite append_nil, lossy_valid by done.
  pose proof (split_shorter _ _ _ Hs) as Hl. pose proof (split_shorter _ _ _ Hr) as Hl'.
  destruct (String.length b) as [| n]; [cbn in Hl; lia |]. cbn [events]. rewrite Hs. cbn [echo].
  destruct n as [| n]; [cbn in Hl'; lia |]. cbn [events]. rewrite Hr. cbn [echo]. by destruct n.
Qed.

(** What a client needs of the text of an error: a line of UTF-8 that parses back. *)
Definition good_text (from_str : string -> option Value) (v : Value) : Prop :=
  has_char lf (to_string v) = false /\ valid_utf8 (to_string v) = true /\ from_str (to_string v) = Some v.

(** The reply to [e] with the text of the error in its events, or as its body. *)
Definition reply_reads (from_str : string -> option Value) (r : HttpReply) (e : GatewayError) (is_stream : bool) (before : string) (after : list string) (v : Value) : Prop :=
  rp_status r = status_code e /\ 400 <= rp_status r < 600
  /\ (forall v, ("retry-after", v) ∈ rp_headers r <-> exists secs m t sc id p, v = show secs /\ e = RateLimitExceeded (Some secs) m t sc id p)
  /\ exists text, from_str text = Some v
     /\ (if is_stream then read echo tt [Some (rp_body r)] = Sent <$> ((before +:+ text) :: after) else rp_body r = text).

Lemma retry_header hs e v : (forall x, x ∈ hs -> x.1 <> "retry-after") ->
  ("retry-after", v) ∈ hs ++ retry_after e <-> exists secs m t sc id p, v = show secs /\ e = RateLimitExceeded (Some secs) m t sc id p.
Proof.
  intros Hh. rewrite elem_of_app. split.
  - intros [Hin | Hin]; [by destruct (Hh _ Hin) |]. unfold retry_after in Hin. destruct e as [| [secs |] m t sc id p | | | | | | | | | | | | | |]; try by apply elem_of_nil in Hin.
    apply list_elem_of_singleton in Hin as [= ->]. by exists secs, m, t, sc, id, p.
  - intros (secs & m & t & sc & id & p & -> & ->). right. by left.
Qed.
Lemma stream_headers_other x : x ∈ stream_headers -> x.1 <> "retry-after".
Proof. intros [-> | [-> | []%elem_of_nil]%elem_of_cons]%elem_of_cons; done. Qed.
Lemma json_headers_other x : x ∈ json_headers -> x.1 <> "retry-after".
Proof. intros [-> | []%elem_of_nil]%elem_of_cons; done. Qed.

(** What a client gets for an error, in both formats and for both APIs: the status of the
    error, between 400 and 599; a [retry-after] header exactly when the error says how long;
    and a body from which the error's type and text are read back, as JSON, or as the first
    event of a stream that is well formed and ends where it should. *)
Theorem error_reply_exact from_str e is_stream :
  good_text from_str (gateway_error_value e) -> good_text from_str (anthropic_error_value e) ->
  reply_reads from_str (gateway_error_reply e is_stream) e is_stream "data: " ["data: [DONE]"] (gateway_error_value e)
  /\ reply_reads from_str (anthropic_error_reply e is_stream) e is_stream ("event: error" +:+ String lf "data: ") [] (anthropic_error_value e).
Proof.
  intros (Hl & Hv & Hp) (Hl' & Hv' & Hp'). destruct (reply_status_exact e) as [Hs Hr]. split; unfold gateway_error_reply, anthropic_error_reply, reply_reads.
  - destruct is_stream; cbn [rp_status rp_headers rp_body]; rewrite Hs; split_and!; try lia; try (intros; apply retry_header; intros x; (apply stream_headers_other || apply json_headers_other));
      (eexists; split; [exact Hp |]); [| done].
    eapply read_two.
    + repeat (apply valid_app; [done || exact Hv |]). done.
    + rewrite <- append_assoc. apply split_line. by rewrite has_char_app, Hl.
    + pose proof (split_line "data: [DONE]" "" eq_refl) as E. by rewrite append_nil_r in E.
  - destruct is_stream; cbn [rp_status rp_headers rp_body]; rewrite Hs; split_and!; try lia; try (intros; apply retry_header; intros x; (apply stream_headers_other || apply json_headers_other));
      (eexists; split; [exact Hp' |]); [| done].
    rewrite append_assoc. eapply read_one.
    + repeat (apply valid_app; [done || exact Hv' |]). done.
    + pose proof (split_lines "event: error" "d" ("ata: " +:+ to_string (anthropic_error_value e)) "" eq_refl eq_refl) as E.
      rewrite append_nil_r in E. apply E. by rewrite has_char_app, Hl'.
Qed.
End replies.
End ErrorReply.

(** ** Rewrites of requests *)

Module Rewrite.
Import Anthropic.

Definition ATTRIBUTION_PREFIX : string := "x-anthropic-billing-header".
Definition is_attribution_text (t : string) : bool := starts_with ATTRIBUTION_PREFIX t.

Definition keeps_system_block (b : AnthropicSystemBlock) : bool := negb (bool_decide (block_type b = "text") && is_attribution_text (sb_text b)).
Definition keeps_block (b : AnthropicContentBlock) : bool := match b with BText t _ => negb (is_attribution_text t) | _ => true end.

Definition strip_system (o : option AnthropicSystemContent) : option AnthropicSystemContent * bool :=
  match o with
  | Some (SysBlocks blocks) => let l := retain keeps_system_block blocks in (Some (SysBlocks l), negb (length l =? length blocks)%nat)
  | _ => (o, false)
  end.

Definition strip_message (m : AnthropicMessage) : AnthropicMessage * bool :=
  if negb (bool_decide (am_role m = "system")) then (m, false)
  else match am_content m with
       | ABlocks parts => let l := retain keeps_block parts in (mkAMessage (am_role m) (ABlocks l), negb (length l =? length parts)%nat)
       | _ => (m, false)
       end.

Definition strip_cc_attribution_anthropic (r : AnthropicMessagesRequest) : AnthropicMessagesRequest * bool :=
  let '(sys, changed) := strip_system (system r) in
  let l := strip_message <$> ar_messages r in
  (mkARequest (ar_model r) sys l.*1 (ar_max_tokens r) (ar_tools r) (ar_tool_choice r) (thinking r) (ar_temperature r) (ar_top_p r) (stop_sequences r)
     (ar_stream r) (metadata r) (ar_extra r), changed || existsb snd l).

(** *** What is stripped *)

(** No block that the request is checked for is an attribution. *)
Definition clean_system (o : option AnthropicSystemContent) : Prop :=
  match o with Some (SysBlocks l) => Forall (fun b => keeps_system_block b = true) l | _ => True end.
Definition clean_message (m : AnthropicMessage) : Prop :=
  am_role m = "system" -> match am_content m with ABlocks l => Forall (fun b => keeps_block b = true) l | _ => True end.
Definition clean_request (r : AnthropicMessagesRequest) : Prop := clean_system (system r) /\ Forall clean_message (ar_messages r).

Lemma retain_forall {A} (P : A -> bool) (l : list A) : Forall (fun x => P x = true) (retain P l).
Proof. apply Forall_forall. by intros x [? _]%elem_of_retain. Qed.

Lemma retain_length_all {A} (P : A -> bool) (l : list A) : (length (retain P l) =? length l)%nat = true <-> Forall (fun x => P x = true) l.
Proof.
  rewrite Nat.eqb_eq. split.
  - induction l as [| x l IH]; [constructor |]. rewrite retain_cons. destruct (P x) eqn:E; cbn; intros Hl.
    + constructor; [done |]. apply IH. lia.
    + pose proof (length_filter (fun x => P x = true) l). unfold retain in Hl. lia.
  - intros Hl. rewrite retain_all; [done |]. by apply Forall_forall.
Qed.
Lemma retain_id {A} (P : A -> bool) (l : list A) : Forall (fun x => P x = true) l -> retain P l = l.
Proof. intros Hl. apply retain_all. by apply Forall_forall. Qed.

Lemma strip_system_spec o : clean_system (strip_system o).1 /\ ((strip_system o).2 = false <-> clean_system o) /\ (clean_system o -> (strip_system o).1 = o).
Proof.
  destruct o as [[t | l] |]; cbn; [done | | done]. rewrite negb_false_iff, retain_length_all. split; [apply retain_forall |].
  split; [done |]. intros Hl. by rewrite retain_id.
Qed.
Lemma strip_message_spec m : clean_message (strip_message m).1 /\ ((strip_message m).2 = false <-> clean_message m) /\ (clean_message m -> (strip_message m).1 = m).
Proof.
  unfold strip_message, clean_message. case_bool_decide as Er; cbn [negb]; [| by (split_and!; [| split |])].
  destruct m as [role [t | l]]; cbn in *; [by (split_and!; [| split |]) |]. split; [intros _; apply retain_forall |].
  rewrite negb_false_iff, retain_length_all. split; [tauto |]. intros Hl. by rewrite retain_id by auto.
Qed.

Lemma strip_messages_spec l : Forall clean_message ((strip_message <$> l).*1) /\ (existsb snd (strip_message <$> l) = false <-> Forall clean_message l)
  /\ (Forall clean_message l -> (strip_message <$> l).*1 = l).
Proof.
  induction l as [| m l (IH1 & IH2 & IH3)]; [by (split_and!; [| split |]) |]. destruct (strip_message_spec m) as (H1 & H2 & H3).
  cbn. rewrite orb_false_iff, !Forall_cons, H2, IH2. split; [done | split; [done |]]. intros [? ?]. by rewrite H3, IH3.
Qed.

(** The rewrite removes exactly the attribution blocks: afterwards there is none in what it
    scans, it says that it changed the request exactly when there was one, and a request
    without any is left as it is, so that a second rewrite changes nothing. *)
Theorem strip_exact r :
  clean_request (strip_cc_attribution_anthropic r).1
  /\ ((strip_cc_attribution_anthropic r).2 = false <-> clean_request r)
  /\ (clean_request r -> (strip_cc_attribution_anthropic r).1 = r).
Proof.
  unfold strip_cc_attribution_anthropic, clean_request. destruct (strip_system_spec (system r)) as (S1 & S2 & S3), (strip_messages_spec (ar_messages r)) as (M1 & M2 & M3).
  destruct (strip_system (system r)) as [sys ch]. cbn [fst snd system ar_messages] in *. rewrite orb_false_iff, S2, M2. split; [done |]. split; [done |].
  intros [Hs Hm]. rewrite S3, M3 by done. by destruct r.
Qed.
End Rewrite.

(** ** Administration *)

Module Admin.
Import Core PlanStore Auth.

Section admin.
Context {D : Type} `{DecimalOps D}.
Implicit Types (p : RateLimitPlan D) (s : PlanStore D) (i : AuthIdentity).

Definition require_master i : GatewayError + unit :=
  if bool_decide (id_key_hash i = "master") then inr tt else inl (AuthError "Only master key can manage plans").

(** The body of an answer: a message, or a list in the order of the hash map. *)
Inductive AdminReply := Done (message : string) | PlanList (l : list (RateLimitPlan D)) | AssignmentList (l : list (string * option string)).

Definition admin_upsert_plan i p s : PlanStore D * (GatewayError + AdminReply) :=
  match require_master i with
  | inl e => (s, inl e)
  | inr _ => (upsert_plan s p, inr (Done ("Plan '" +:+ name p +:+ "' saved")))
  end.

Definition admin_list_plans i s : PlanStore D * (GatewayError + AdminReply) :=
  match require_master i with inl e => (s, inl e) | inr _ => (s, inr (PlanList (map_to_list (plans s)).*2)) end.

Definition admin_delete_plan i (n : string) s : PlanStore D * (GatewayError + AdminReply) :=
  match require_master i with
  | inl e => (s, inl e)
  | inr _ =>
    match delete_plan s n with
    | (s', true) => (s', inr (Done ("Plan '" +:+ n +:+ "' deleted")))
    | (s', false) => (s', inl (ConfigError ("Plan '" +:+ n +:+ "' not found")))
    end
  end.

Definition admin_assign_key i (kh n : string) s : PlanStore D * (GatewayError + AdminReply) :=
  match require_master i with
  | inl e => (s, inl e)
  | inr _ =>
    match assign_key s kh n with
    | (s', inl e) => (s', inl (ConfigError e))
    | (s', inr _) => (s', inr (Done ("Key '" +:+ kh +:+ "' assigned to plan '" +:+ n +:+ "'")))
    end
  end.

Definition admin_unassign_key i (kh : string) s : PlanStore D * (GatewayError + AdminReply) :=
  match require_master i with
  | inl e => (s, inl e)
  | inr _ =>
    match unassign_key s kh with
    | (s', true) => (s', inr (Done ("Key '" +:+ kh +:+ "' unassigned")))
    | (s', false) => (s', inl (ConfigError ("Key '" +:+ kh +:+ "' not assigned to any plan")))
    end
  end.

Definition admin_list_assignments i s : PlanStore D * (GatewayError + AdminReply) :=
  match require_master i with inl e => (s, inl e) | inr _ => (s, inr (AssignmentList (snapshot_assignments s))) end.

(** [outcome] is that of [AppState::reload]. *)
Definition admin_reload_config i (outcome : string + string) : GatewayError + string :=
  if bool_decide (id_key_hash i = "master")
  then match outcome with inr summary => inr summary | inl e => inl (ConfigError ("Reload failed: " +:+ e)) end
  else inl (AuthError "Only master key can trigger config reload").

Inductive AdminCall := UpsertPlan p | ListPlans | DeletePlan (n : string) | AssignKey (kh n : string) | UnassignKey (kh : string) | ListAssignments.

Definition handle_admin (c : AdminCall) i s : PlanStore D * (GatewayError + AdminReply) :=
  match c with
  | UpsertPlan p => admin_upsert_plan i p s
  | ListPlans => admin_list_plans i s
  | DeletePlan n => admin_delete_plan i n s
  | AssignKey kh n => admin_assign_key i kh n s
  | UnassignKey kh => admin_unassign_key i kh s
  | ListAssignments => admin_list_assignments i s
  end.

(** *** Requests to [/admin] *)

(** A request, with the time, the database, what the hook says, and the headers. *)
Record AdminRequest := mkAdminRequest {
  ar_now : Z;
  ar_db : option Database;
  ar_hook : string -> PreAuthOutcome;
  ar_header : string -> option string;
  ar_call : AdminCall;
}.

Section serve.
Context {C : Type} `{TokenCache C} (hash_token : string -> string) (to_str : string -> option string) (master : option string).

Definition serve_admin (x : C * PlanStore D) (r : AdminRequest) : (C * PlanStore D) * (GatewayError + AdminReply) :=
  let '(c, s) := x in
  match required_auth hash_token to_str (ar_now r) master (ar_db r) c (ar_hook r) (ar_header r) with
  | (c, inl e) => ((c, s), inl e)
  | (c, inr i) => let '(s, reply) := handle_admin (ar_call r) i s in ((c, s), reply)
  end.

Definition serve_all (x : C * PlanStore D) (l : list AdminRequest) : C * PlanStore D := foldl (fun x r => (serve_admin x r).1) x l.

(** The key of the request, as the hook leaves it, is the master key. *)
Definition bears_master (r : AdminRequest) : bool :=
  match extract_api_key to_str (ar_header r) with
  | Some k => match effective_key (ar_hook r k) k with inr k => is_master_key master k | inl _ => false end
  | None => false
  end.
End serve.
End admin.

(** What a cache holds is what was put in, under the key it was put in with. *)
Class TokenCacheContents (C : Type) `{TokenCache C} := {
  contains : C -> string -> VerificationToken -> Prop;
  get_contains : forall now c k v, (cache_get now c k).2 = Some v -> contains c k v;
  get_keeps : forall now c k k' v, contains (cache_get now c k).1 k' v -> contains c k' v;
  insert_contains : forall now c k v k' v', contains (cache_insert now c k v) k' v' -> (k' = k /\ v' = v) \/ contains c k' v';
}.

Section properties.
Context {D : Type} `{DecimalOps D} {C : Type} `{TokenCacheContents C} (hash_token : string -> string) (to_str : string -> option string) (master : option string).
Implicit Types (s : PlanStore D).

(** Rows are found by their token. *)
Definition sound_cache (c : C) : Prop := forall k t, contains c k t -> token t = k.
Definition sound_database (db : option Database) : Prop := forall d, db = Some d -> forall h t, query_token d h = inr (Some t) -> token t = h.

Lemma lookup_sound now db c h c' o : sound_cache c -> sound_database db -> lookup_token now db c h = (c', o) ->
  sound_cache c' /\ forall t, o = inr (Some t) -> token t = h.
Proof.
  intros Hc Hd. unfold lookup_token. pose proof (get_contains now c h) as Hg. pose proof (get_keeps now c h) as Hk.
  destruct (cache_get now c h) as [c1 [t |]]; cbn [fst snd] in *.
  - intros [= <- <-]. split; [intros k v Hv; by apply Hc, Hk | intros ? [= <-]; by apply Hc, Hg].
  - assert (sound_cache c1) as Hc1 by (intros k v Hv; by apply Hc, Hk).
    destruct db as [d |]; [| by intros [= <- <-]]. destruct (query_token d h) as [e | [t |]] eqn:Eq; [by intros [= <- <-] | | by intros [= <- <-]].
    assert (token t = h) as Ht by by eapply Hd. intros [= <- <-]. split; [| by intros ? [= <-]].
    intros k v [[-> ->] | Hv]%insert_contains; [done | by apply Hc1].
Qed.

(** The master's identity is the master key's alone. *)
Lemma authenticate_master now db c k c' r : (forall k, hash_token k <> "master") -> sound_cache c -> sound_database db ->
  authenticate hash_token now master db c k = (c', r) ->
  sound_cache c' /\ (is_master_key master k = true -> c' = c /\ r = inr master_identity)
  /\ (is_master_key master k = false -> forall i, r = inr i -> id_key_hash i <> "master").
Proof.
  intros Hh Hc Hd. unfold authenticate. destruct (is_master_key master k); [by intros [= <- <-] |].
  destruct (lookup_token now db c (hash_token k)) as [c1 o] eqn:El. destruct (lookup_sound _ _ _ _ _ _ Hc Hd El) as [Hc1 Ht].
  destruct o as [e | [t |]]; intros [= <- <-]; (split; [done | split; [done |]]); intros _ i; [done | | done].
  intros (-> & _)%identify_ok. destruct (join_expand db (token_to_identity t)) as [-> _]. cbn. rewrite (Ht t eq_refl). apply Hh.
Qed.

Lemma required_master now db c hook header c' r : (forall k, hash_token k <> "master") -> sound_cache c -> sound_database db ->
  required_auth hash_token to_str now master db c hook header = (c', r) ->
  sound_cache c'
  /\ (if match extract_api_key to_str header with Some k => match effective_key (hook k) k with inr k => is_master_key master k | inl _ => false end | None => false end
      then r = inr master_identity else forall i, r = inr i -> id_key_hash i <> "master").
Proof.
  intros Hh Hc Hd. unfold required_auth. destruct (extract_api_key to_str header) as [k |]; [| by intros [= <- <-]].
  destruct (effective_key (hook k) k) as [e | k']; [by intros [= <- <-] |]. intros E.
  destruct (authenticate_master _ _ _ _ _ _ Hh Hc Hd E) as (Hc' & Hm & Hn). split; [done |]. destruct (is_master_key master k'); [by apply Hm | by apply Hn].
Qed.

Lemma not_master_refused call i s : id_key_hash i <> "master" -> exists e, handle_admin call i s = (s, inl e) /\ status_code e = 401.
Proof.
  intros Hi. exists (AuthError "Only master key can manage plans"). split; [| done].
  destruct call; cbn; unfold admin_upsert_plan, admin_list_plans, admin_delete_plan, admin_assign_key, admin_unassign_key, admin_list_assignments, require_master;
    by rewrite bool_decide_eq_false_2.
Qed.

(** C29: the plans obey the master key alone.  After any sequence of requests to the
    administration of plans, with any keys, from any databases and hooks, the plans and the
    assignments are what the requests with the master key make of them; every other request
    is answered with an error. *)
Theorem admin_only_master (l : list (AdminRequest (D := D))) c s :
  (forall k, hash_token k <> "master") -> sound_cache c -> (forall r, r ∈ l -> sound_database (ar_db r)) ->
  (serve_all hash_token to_str master (c, s) l).2
  = foldl (fun s r => (handle_admin (ar_call r) master_identity s).1) s (retain (bears_master to_str master) l)
  /\ forall c' s' r, r ∈ l -> bears_master to_str master r = false -> sound_cache c' ->
       exists e, (serve_admin hash_token to_str master (c', s') r).2 = inl e /\ (serve_admin hash_token to_str master (c', s') r).1.2 = s'.
Proof.
  intros Hh Hc Hl. split.
  - revert c s Hc. induction l as [| r l IH]; intros c s Hc; [done |]. cbn [serve_all foldl]. rewrite retain_cons.
    unfold serve_admin at 2, bears_master at 1.
    destruct (required_auth _ _ _ _ _ _ _ _) as [c1 o] eqn:E.
    destruct (required_master _ _ _ _ _ _ _ Hh Hc (Hl r (list_elem_of_here _ _)) E) as [Hc1 Hr].
    assert (forall r, r ∈ l -> sound_database (ar_db r)) as Hl' by (intros q Hq; apply Hl; by right).
    destruct (match extract_api_key to_str (ar_header r) with Some _ => _ | None => _ end).
    + subst o. cbn [foldl]. destruct (handle_admin (ar_call r) master_identity s) as [s1 rep]. cbn [fst]. by apply IH.
    + destruct o as [e | i]; [by apply IH |]. destruct (not_master_refused (ar_call r) i s (Hr i eq_refl)) as (e & -> & _). by apply IH.
  - intros c' s' r Hr Hb Hc'. unfold bears_master, serve_admin in *. destruct (required_auth _ _ _ _ _ _ _ _) as [c1 o] eqn:E.
    destruct (required_master _ _ _ _ _ _ _ Hh Hc' (Hl r Hr) E) as [_ Hn]. rewrite Hb in Hn.
    destruct o as [e | i]; [by exists e |]. destruct (not_master_refused (ar_call r) i s' (Hn i eq_refl)) as (e & -> & _). by exists e.
Qed.
End properties.
End Admin.

(** ** The database across reloads, and the readiness check *)

Module Databases.
Import Core Auth.

(** A pool is known by its address.  [app_pool] is the one of [AppState], made at the start;
    [inner_pool] the one that the authenticator has, and that the last reload used. *)
Record Pools := mkPools { app_pool : option string; database_url : option string; inner_pool : option string }.

Section pools.
Context (connect : string -> bool).

(** The pool of an address; an address that does not connect is an error. *)
Definition connect_to (url : option string) : option (option string) :=
  match url with Some u => if connect u then Some (Some u) else None | None => Some None end.

Definition from_config (url : option string) : option Pools := pool ← connect_to url; Some (mkPools pool url pool).

(** [None] is a reload that fails: the state stays. *)
Definition reload_pool (p : Pools) (url : option string) : option Pools :=
  pool ← (if bool_decide (database_url p = url) then Some (app_pool p) else connect_to url); Some (mkPools (app_pool p) url pool).

Definition db_connected (p : Pools) : bool := match inner_pool p with Some _ => true | None => false end.
Definition readiness_check (p : Pools) : Z := if db_connected p || is_none (database_url p) then 200 else 503.

Lemma connected url pool : connect_to url = Some pool -> pool = url.
Proof. destruct url as [u |]; cbn; [by destruct (connect u); intros [= <-] | by intros [= <-]]. Qed.

(** A change of the database lasts for one reload.  The first reload with another address
    uses its database; the next one, of the same file, goes back to the database of the
    start, for the tables it syncs as well as for the keys it knows.  A gateway started
    without a database has none again after it, and is not ready. *)
Theorem database_change_forgotten a b p p1 p2 :
  from_config a = Some p -> a <> b -> reload_pool p b = Some p1 -> reload_pool p1 b = Some p2 ->
  inner_pool p1 = b /\ inner_pool p2 = a /\ database_url p2 = b
  /\ (a = None -> readiness_check p1 = 200 /\ readiness_check p2 = 503).
Proof.
  unfold from_config, reload_pool. intros (pool & Hp%connected & [= <-])%bind_Some Hne. subst pool. cbn [database_url app_pool].
  rewrite bool_decide_eq_false_2 by done. intros (pool & Hp%connected & [= <-])%bind_Some. subst pool. cbn [database_url app_pool].
  rewrite bool_decide_eq_true_2 by done. intros [= <-]. split_and!; try done; intros ->; destruct b; done.
Qed.
End pools.
End Databases.

(** ** Examples *)

Module Examples.
Import Core Json ErrorReply Auth Admin PlanStore Databases.

(** A text for each of the two forms of one error. *)
Definition demo_text (v : Value) : string := match v with VObject [_] => "{1}" | _ => "{2}" end.
Definition demo_parse (e : GatewayError) (t : string) : option Value :=
  Some (if bool_decide (t = "{1}") then gateway_error_value e else anthropic_error_value e).

Lemma error_reply_exact_witness : rp_status (anthropic_error_reply demo_text KeyBlocked true) = 403.
Proof.
  apply (error_reply_exact demo_text (demo_parse KeyBlocked) KeyBlocked true); split_and!; vm_compute; reflexivity.
Defined.

(** A cache that holds nothing. *)
#[local] Instance no_cache : TokenCache unit := {| cache_get := fun _ c _ => (c, None); cache_insert := fun _ c _ _ => c |}.
#[local] Instance no_cache_contents : TokenCacheContents unit.
Proof. refine {| contains := fun _ _ _ => False |}; [discriminate | done | by right]. Defined.
#[local] Existing Instance whole_decimal.

Definition header_of (key : string) (h : string) : option string := if bool_decide (h = "x-api-key") then Some key else None.
Definition demo_admin (key : string) (c : AdminCall (D := Z)) : AdminRequest := mkAdminRequest 0 None (fun _ => NoHook) (header_of key) c.
Definition no_plan : PlanStore.PlanStore Z := new_store.

(** One request with the master key, and one without. *)
Lemma admin_only_master_witness :
  (serve_all (C := unit) (fun k => "h" +:+ k) Some (Some "m") (tt, no_plan) [demo_admin "k" (DeletePlan "p"); demo_admin "m" (DeletePlan "p")]).2
  = foldl (fun s r => (handle_admin (ar_call r) master_identity s).1) no_plan [demo_admin "m" (DeletePlan "p")].
Proof.
  rewrite (proj1 (admin_only_master (C := unit) (fun k => "h" +:+ k) Some (Some "m") [demo_admin "k" (DeletePlan "p"); demo_admin "m" (DeletePlan "p")] tt no_plan
    ltac:(discriminate) ltac:(intros k t [])
    ltac:(intros r [-> | [-> | []%elem_of_nil]%elem_of_cons]%elem_of_cons d; discriminate))).
  reflexivity.
Defined.

Lemma database_change_forgotten_witness : readiness_check (mkPools None (Some "db") None) = 503.
Proof.
  apply (database_change_forgotten (fun _ => true) None (Some "db") (mkPools None None None) (mkPools None (Some "db") (Some "db")) (mkPools None (Some "db") None)); reflexivity || discriminate.
Defined.

End Examples.
