(* ===== verification/Dashboard.v ===== *)
(** * Dashboard: logins and sessions (boom-dashboard)

    Models [boom-dashboard/src/auth.rs] and the state it uses ([state.rs]): the lockout of
    addresses, the login of the administrator and of users, the session cookie, and the two
    extractors of a session.  The signature of sessions (jsonwebtoken) is a class with the
    laws of a signature; the hash of a key (SHA-256) is a parameter.  Instants are in
    milliseconds, the clock of sessions is in seconds. *)

From S2P Require Import Prelude Core Text Float64 Json Auth Access.

Module Dashboard.
Import Core Json Auth.

(** ** The lockout *)

Definition MAX_LOGIN_FAILURES : Z := 5.
Definition INITIAL_LOCKOUT : Z := 10000.
Definition PER_FAILURE_LOCKOUT : Z := 30000.

Record LoginAttempt := mkAttempt { fail_count : Z; locked_until : option Z }.
Notation Attempts := (gmap string LoginAttempt).

(** What the check finds, and the check: an expired lockout is removed, which is a second
    operation on the map. *)
Inductive Found := Free | Expired | Locked (remaining : Z).
Definition find_lockout (now : Z) (m : Attempts) (ip : string) : Found :=
  match m !! ip ≫= locked_until with
  | Some t => if now <? t then Locked (t - now) else Expired
  | None => Free
  end.
Definition check_login_lockout (now : Z) (m : Attempts) (ip : string) : Attempts * option Z :=
  match find_lockout now m ip with
  | Locked remaining => (m, Some remaining)
  | Expired => (delete ip m, None)
  | Free => (m, None)
  end.

Definition one_more_failure (now : Z) (a : LoginAttempt) : LoginAttempt :=
  let n := u32_add (fail_count a) 1 in
  if MAX_LOGIN_FAILURES <=? n
  then mkAttempt n (Some ((match locked_until a with Some t => Z.max t now | None => now end)
                          + (if n =? MAX_LOGIN_FAILURES then INITIAL_LOCKOUT else PER_FAILURE_LOCKOUT)))
  else mkAttempt n (locked_until a).

Definition record_login_failure (now : Z) (m : Attempts) (ip : string) : Attempts :=
  <[ip := match m !! ip with Some a => one_more_failure now a | None => mkAttempt 1 None end]> m.

Definition clear_login_failures (m : Attempts) (ip : string) : Attempts := delete ip m.

(** The address of a client, from its headers. *)
Definition extract_client_ip (header : string -> option string) : string :=
  match header "X-Real-IP" ≫= Access.trimmed with
  | Some ip => ip
  | None => default "unknown" (v ← header "X-Forwarded-For"; Access.trimmed (split_first "," v))
  end.

(** ** Sessions *)

Record DashboardClaims := mkClaims { sub : string; role : string; cl_key_hash : string; exp : Z; iat : Z }.

Definition SESSION_COOKIE_NAME : string := "boom_session".
Definition SESSION_DURATION_SECS : Z := 7200.
(** The leeway of [Validation::default()]. *)
Definition leeway : Z := 60.

(** The characters of a token: base64url, and the dots between the parts. *)
Definition token_char (a : ascii) : bool :=
  let n := N_of_ascii a in
  ((48 <=? n) && (n <=? 57) || (65 <=? n) && (n <=? 90) || (97 <=? n) && (n <=? 122) || (n =? 45) || (n =? 46) || (n =? 95))%N.
Fixpoint token_text (s : string) : bool := match s with EmptyString => true | String a s' => token_char a && token_text s' end.

(** Signed tokens: [decode] checks the signature and the time. *)
Class Jwt := {
  encode : string -> DashboardClaims -> option string;
  decode : Z -> string -> string -> option DashboardClaims;
}.
Class JwtLaws `{Jwt} := {
  encode_decode : forall secret c t now, encode secret c = Some t -> decode now secret t = if now <=? exp c + leeway then Some c else None;
  encode_chars : forall secret c t, encode secret c = Some t -> t <> "" /\ token_text t = true;
}.

Section dashboard.
Context `{Jwt} (hash_token : string -> string).

(** What the row of a key is read for. *)
Record KeyRow := mkKeyRow { kr_user_id : option string; kr_key_alias : option string; kr_blocked : option bool }.

(** The part of the state that logins use; [keys] is the query by the hash, [None] without a
    database, and the query may fail. *)
Record DashboardState := mkDashboard { keys : option (string -> GatewayError + option KeyRow); jwt_secret : string; master_key : option string; login_attempts : Attempts }.

Definition default_secret : string := "boom-dashboard-default-secret".
Definition new_dashboard (db : option (string -> GatewayError + option KeyRow)) (master : option string) : DashboardState :=
  mkDashboard db (default default_secret master) master ∅.
Definition set_attempts (s : DashboardState) m : DashboardState := mkDashboard (keys s) (jwt_secret s) (master_key s) m.

Inductive LoginBody := Unreadable | InvalidJson | Login (user_id api_key : string).

Inductive LoginReply :=
| LoginError (status : Z) (message : string)
| Session (token : string) (c : DashboardClaims) (api_key : option string).

Definition sign_and_respond (s : DashboardState) (clock : Z) (user_id role key_hash : string) (api_key : option string) : LoginReply :=
  let c := mkClaims user_id role key_hash (clock + SESSION_DURATION_SECS) clock in
  match encode (jwt_secret s) c with Some t => Session t c api_key | None => LoginError 500 "Failed to create session" end.

Definition constant_time_eq (a b : string) : bool := (String.length a =? String.length b)%nat && (diff_bits a b =? 0).

Definition login_admin (now clock : Z) (s : DashboardState) (ip api_key : string) : DashboardState * LoginReply :=
  match master_key s with
  | None => (s, LoginError 403 "Admin login disabled")
  | Some k =>
    if negb (constant_time_eq api_key k) then (set_attempts s (record_login_failure now (login_attempts s) ip), LoginError 401 "Invalid credentials")
    else let s := set_attempts s (clear_login_failures (login_attempts s) ip) in (s, sign_and_respond s clock "admin" "admin" "" None)
  end.

Definition login_user (now clock : Z) (s : DashboardState) (ip api_key : string) : DashboardState * LoginReply :=
  match keys s with
  | None => (s, LoginError 503 "Database not available")
  | Some query =>
    match query (hash_token api_key) with
    | inl _ => (s, LoginError 500 "Database error during login")
    | inr None => (set_attempts s (record_login_failure now (login_attempts s) ip), LoginError 401 "Invalid API key")
    | inr (Some r) =>
      if default false (kr_blocked r) then (s, LoginError 403 "Key is blocked")
      else let s := set_attempts s (clear_login_failures (login_attempts s) ip) in
           (s, sign_and_respond s clock (default "user" (match kr_key_alias r with Some a => Some a | None => kr_user_id r end)) "user" (hash_token api_key) (Some api_key))
    end
  end.

Definition login (now clock : Z) (s : DashboardState) (header : string -> option string) (body : LoginBody) : DashboardState * LoginReply :=
  let ip := extract_client_ip header in
  match check_login_lockout now (login_attempts s) ip with
  | (_, Some remaining) => (s, LoginError 429 ("Too many login attempts. Try again in " +:+ show (remaining `div` 1000) +:+ " seconds."))
  | (m, None) =>
    let s := set_attempts s m in
    match body with
    | Unreadable => (s, LoginError 400 "Failed to read request body")
    | InvalidJson => (s, LoginError 400 "Invalid request body")
    | Login user_id api_key => if bool_decide (user_id = "admin") then login_admin now clock s ip api_key else login_user now clock s ip api_key
    end
  end.

(** The cookie that a login sets, and the one that a logout does. *)
Definition session_cookie (token : string) : string :=
  SESSION_COOKIE_NAME +:+ "=" +:+ token +:+ "; HttpOnly; SameSite=Lax; Path=/dashboard; Max-Age=" +:+ show SESSION_DURATION_SECS.
Definition logout_cookie : string := SESSION_COOKIE_NAME +:+ "=; HttpOnly; SameSite=Lax; Path=/dashboard; Max-Age=0".

(** ** Extractors *)

Fixpoint split_chars (fuel : nat) (c : ascii) (s : string) : list string :=
  match fuel with
  | O => [s]
  | S n => match split_once c s with Some (l, r) => l :: split_chars n c r | None => [s] end
  end.
(** [str::split] with a character. *)
Definition split_char (c : ascii) (s : string) : list string := split_chars (String.length s) c s.

Definition cookie_named (n : string) (cookie : string) : option string :=
  '(k, v) ← split_once "=" (trim cookie); if bool_decide (trim k = n) then Some (trim v) else None.
Fixpoint find_map {A B} (f : A -> option B) (l : list A) : option B :=
  match l with [] => None | x :: l' => match f x with Some y => Some y | None => find_map f l' end end.

(** [cookies] are the texts of the cookie headers. *)
Definition session_token (cookies : list string) : option string := find_map (cookie_named SESSION_COOKIE_NAME) (cookies ≫= split_char ";").

Definition extract_session (clock : Z) (s : DashboardState) (cookies : list string) : (Z * string) + DashboardClaims :=
  match session_token cookies with
  | None => inl (401, "No session cookie")
  | Some t => match decode clock (jwt_secret s) t with Some c => inr c | None => inl (401, "Invalid session") end
  end.

Definition admin_session (clock : Z) (s : DashboardState) (cookies : list string) : (Z * string) + DashboardClaims :=
  match extract_session clock s cookies with
  | inl e => inl e
  | inr c => if bool_decide (role c = "admin") then inr c else inl (403, "Admin access required")
  end.

(** Which of the two extractors a handler has. *)
Inductive Extractor := AnySession | AdminSession.
Definition extracted (e : Extractor) (clock : Z) (s : DashboardState) (cookies : list string) : (Z * string) + DashboardClaims :=
  match e with AnySession => extract_session clock s cookies | AdminSession => admin_session clock s cookies end.

Definition me (c : DashboardClaims) : string * string := (sub c, role c).

(** ** Lemmas: texts *)

(** No white space begins or ends with such a character. *)
Lemma white_starts : Forall (fun p => exists b p', p = String b p' /\ token_char b = false) white_space.
Proof. unfold white_space. repeat constructor; eexists _, _; (split; [reflexivity | vm_compute; reflexivity]). Qed.
Lemma white_ends : Forall (fun p => exists b p', p = String b p' /\ token_char b = false) (string_rev <$> white_space).
Proof. unfold white_space. repeat constructor; eexists _, _; (split; [reflexivity | vm_compute; reflexivity]). Qed.

Lemma no_strip l a s : Forall (fun p => exists b p', p = String b p' /\ token_char b = false) l -> token_char a = true ->
  head (omap (fun p => strip_prefix p (String a s)) l) = None.
Proof.
  intros Hl Ha. induction Hl as [| p l (b & p' & -> & Hb) _ IH]; [done |]. cbn [omap list_omap strip_prefix].
  destruct (Ascii.eqb_spec b a) as [-> |]; [congruence | exact IH].
Qed.
Lemma strip_none l a s n : Forall (fun p => exists b p', p = String b p' /\ token_char b = false) l -> token_char a = true -> strip_all l n (String a s) = String a s.
Proof. intros Hl Ha. destruct n; [done |]. cbn [strip_all]. by rewrite no_strip. Qed.

Lemma token_rev t : t <> "" -> token_text t = true -> exists a r, string_rev t = String a r /\ token_char a = true.
Proof.
  unfold string_rev. intros Hne Ht. assert (forall t acc, token_text t = true -> (t <> "" \/ exists a r, acc = String a r /\ token_char a = true) ->
    exists a r, rev_onto t acc = String a r /\ token_char a = true) as Hg; [| apply Hg; auto].
  clear. intros t. induction t as [| b t IH]; intros acc Ht Ha; [destruct Ha as [| Ha]; [done | exact Ha] |].
  cbn [token_text] in Ht. apply andb_true_iff in Ht as [Hb Ht]. cbn [rev_onto]. apply IH; [done |]. right. by eexists _, _.
Qed.

Lemma trim_token p t : (p = "" \/ exists a p', p = String a p' /\ token_char a = true) -> t <> "" -> token_text t = true -> trim (p +:+ t) = p +:+ t.
Proof.
  intros Hp Hne Ht. unfold trim. replace (trim_start (p +:+ t)) with (p +:+ t).
  - apply trim_end_solid. intros x. destruct (token_rev t Hne Ht) as (a & r & -> & Ha). rewrite append_cons. apply no_strip; [apply white_ends | done].
  - symmetry. unfold trim_start. destruct Hp as [-> | (a & p' & -> & Ha)].
    + rewrite append_nil. destruct t as [| a t]; [done |]. cbn [token_text] in Ht. apply andb_true_iff in Ht as [Ha _]. apply strip_none; [apply white_starts | done].
    + rewrite append_cons. apply strip_none; [apply white_starts | done].
Qed.

Lemma token_no_char c t : token_char c = false -> token_text t = true -> has_char c t = false.
Proof.
  intros Hc. induction t as [| a t IH]; [done |]. cbn. intros [Ha Ht]%andb_true_iff. apply orb_false_iff. split; [| by apply IH].
  apply Ascii.eqb_neq. congruence.
Qed.

Lemma split_once_none c s : has_char c s = false -> split_once c s = None.
Proof. induction s as [| a s IH]; [done |]. cbn. intros [Ha Hs]%orb_false_iff. by rewrite Ha, IH. Qed.

(** The cookie of a session, as the browser sends it. *)
Definition sent_cookie (t : string) : string := SESSION_COOKIE_NAME +:+ "=" +:+ t.

Lemma session_token_sent t : t <> "" -> token_text t = true -> session_token [sent_cookie t] = Some t.
Proof.
  intros Hne Ht. unfold session_token. cbn [mbind list_bind]. rewrite app_nil_r.
  assert (has_char ";" (sent_cookie t) = false) as Hc by (unfold sent_cookie; rewrite !has_char_app, (token_no_char ";" t); done).
  unfold split_char. assert (split_chars (String.length (sent_cookie t)) ";" (sent_cookie t) = [sent_cookie t]) as ->.
  { destruct (String.length (sent_cookie t)); [done |]. cbn [split_chars]. by rewrite split_once_none. }
  cbn [find_map]. unfold cookie_named, sent_cookie. rewrite <- append_assoc, trim_token; [| | done | done].
  - rewrite append_assoc. change ("=" +:+ t) with (String "=" t). rewrite (split_once_app "=" SESSION_COOKIE_NAME t) by reflexivity. cbn [mbind option_bind].
    rewrite bool_decide_eq_true_2 by (vm_compute; reflexivity). f_equal. rewrite <- (append_nil t) at 1. rewrite trim_token; [by rewrite append_nil | by left | done | done].
  - right. eexists _, _. split; [reflexivity |]. reflexivity.
Qed.

(** ** Lemmas: logins *)

Lemma constant_time_eq_spec a b : constant_time_eq a b = true <-> a = b.
Proof.
  unfold constant_time_eq. rewrite andb_true_iff, Nat.eqb_eq, Z.eqb_eq. split; [intros [Hl E]; by apply (diff_bits_zero _ _ Hl) | intros ->].
  split; [done | by apply diff_bits_zero].
Qed.

(** *** Attempts from one address, at the same time

    Requests from the address wait for their bodies between the check and the record of
    the failure, and other requests go on meanwhile.  A request looks for a lockout; with
    an expired one it removes the count, a step of its own; then its key is compared and
    the failure is recorded, or it logs in, or its body cannot be read.  A step reads the
    clock and the map at one time. *)

Inductive LoginStep := Look | Remove | Fail | Succeed | GiveUp.

(** The time, the counts, how many requests are to remove an expired lockout and how many
    are past the check, and how many have failed and have succeeded. *)
Record Progress := mkProgress { pg_now : Z; pg_attempts : Attempts; removing : Z; checked : Z; failed : Z; succeeded : Z }.
Definition no_progress (t0 : Z) (m : Attempts) : Progress := mkProgress t0 m 0 0 0 0.

(** One step, when there is a request that can make it; at most [cap] requests are in flight. *)
Definition login_step (cap : Z) (ip : string) (x : Progress) (e : Z * LoginStep) : option Progress :=
  let '(now, st) := e in let '(mkProgress t m r c f k) := x in
  if now <? t then None else
  match st with
  | Look =>
    match find_lockout now m ip with
    | Locked _ => Some (mkProgress now m r c f k)
    | Expired => if r + c <? cap then Some (mkProgress now m (r + 1) c f k) else None
    | Free => if r + c <? cap then Some (mkProgress now m r (c + 1) f k) else None
    end
  | Remove => if 0 <? r then Some (mkProgress now (delete ip m) (r - 1) (c + 1) f k) else None
  | Fail => if 0 <? c then Some (mkProgress now (record_login_failure now m ip) r (c - 1) (f + 1) k) else None
  | Succeed => if 0 <? c then Some (mkProgress now (clear_login_failures m ip) r (c - 1) f (k + 1)) else None
  | GiveUp => if 0 <? c then Some (mkProgress now m r (c - 1) f k) else None
  end.
Fixpoint login_steps (cap : Z) (ip : string) (l : list (Z * LoginStep)) (x : Progress) : option Progress :=
  match l with [] => Some x | e :: l' => y ← login_step cap ip x e; login_steps cap ip l' y end.

Definition is_checked (r : LoginReply) : bool := match r with LoginError 429 _ => false | _ => true end.

Lemma wrong_admin now clock s ip key : master_key s <> Some key -> is_Some (master_key s) ->
  login_admin now clock s ip key = (set_attempts s (record_login_failure now (login_attempts s) ip), LoginError 401 "Invalid credentials").
Proof.
  intros Hk [mk Hmk]. unfold login_admin. rewrite Hmk. replace (constant_time_eq key mk) with false; [done |].
  symmetry. apply not_true_iff_false. rewrite constant_time_eq_spec. congruence.
Qed.

(** A request that nothing interrupts makes these steps. *)
Lemma wrong_login_steps cap now clock s header key f : 1 <= cap -> master_key s <> Some key -> is_Some (master_key s) ->
  let ip := extract_client_ip header in
  let '(s', r) := login now clock s header (Login "admin" key) in
  login_steps cap ip (if is_checked r then match find_lockout now (login_attempts s) ip with Expired => [(now, Look); (now, Remove); (now, Fail)] | _ => [(now, Look); (now, Fail)] end else [(now, Look)])
    (mkProgress now (login_attempts s) 0 0 f 0)
  = Some (mkProgress now (login_attempts s') 0 0 (if is_checked r then f + 1 else f) 0).
Proof.
  intros Hc Hk Hmk. cbn zeta. unfold login, check_login_lockout. set (ip := extract_client_ip header).
  assert (0 + 0 <? cap = true) as Hcap by lia. destruct (find_lockout now (login_attempts s) ip) eqn:E.
  - rewrite bool_decide_eq_true_2, wrong_admin by done. cbn [is_checked login_steps login_step]. rewrite Z.ltb_irrefl, E, Hcap. cbn. rewrite Z.ltb_irrefl. reflexivity.
  - rewrite bool_decide_eq_true_2, wrong_admin by done. cbn [is_checked login_steps login_step]. rewrite Z.ltb_irrefl, E, Hcap. cbn. rewrite Z.ltb_irrefl. change (0 <? 0 + 1) with true. cbn. rewrite Z.ltb_irrefl. reflexivity.
  - cbn [is_checked login_steps login_step]. by rewrite Z.ltb_irrefl, E.
Qed.

(** The count of an address: how many failures, and until when it is locked. *)
Definition count_of (m : Attempts) (ip : string) : Z := match m !! ip with Some a => fail_count a | None => 0 end.
Definition deadline (m : Attempts) (ip : string) : option Z := m !! ip ≫= locked_until.

Lemma recorded now m ip : 0 <= count_of m ip < u32_max -> (deadline m ip = None <-> count_of m ip < MAX_LOGIN_FAILURES) ->
  let m' := record_login_failure now m ip in
  count_of m' ip = count_of m ip + 1
  /\ match deadline m' ip with
     | Some d => MAX_LOGIN_FAILURES <= count_of m' ip /\ now + INITIAL_LOCKOUT <= d /\ forall d0, deadline m ip = Some d0 -> d0 <= d
     | None => count_of m' ip < MAX_LOGIN_FAILURES
     end.
Proof.
  unfold count_of, deadline, record_login_failure, u32_max, MAX_LOGIN_FAILURES, INITIAL_LOCKOUT. intros Hc Hd. rewrite lookup_insert_eq. cbn [mbind option_bind].
  destruct (m !! ip) as [[n o] |]; cbn [mbind option_bind fail_count locked_until] in *; [| done].
  unfold one_more_failure, MAX_LOGIN_FAILURES, PER_FAILURE_LOCKOUT, INITIAL_LOCKOUT. cbn [fail_count locked_until].
  replace (u32_add n 1) with (n + 1) by (symmetry; unfold u32_add; apply wrap32_small; unfold is_u32; lia).
  destruct (Z.leb_spec 5 (n + 1)); cbn [fail_count locked_until].
  - split; [done |]. split; [done |]. split; [destruct o; case_match; lia |]. intros d0 ->. case_match; lia.
  - split; [done |]. destruct o as [d |]; [| lia]. assert (~ n < 5) by (rewrite <- Hd; done). lia.
Qed.

(** The invariant of the steps.  [b] is the time of the first look at the last lockout that
    a request found expired ([seen], while it is still there), [j] is how many such there
    were, [rem] how many requests have removed one. *)
Record Paced (cap : Z) (ip : string) (t0 : Z) (x : Progress) (b j rem : Z) (seen : bool) : Prop := {
  pc_flight : 0 <= removing x /\ 0 <= checked x /\ removing x + checked x <= cap /\ 0 <= succeeded x;
  pc_base : t0 + INITIAL_LOCKOUT * j <= b /\ b <= pg_now x /\ 0 <= j /\ 0 <= rem;
  pc_count : 0 <= count_of (pg_attempts x) ip /\ failed x <= (cap + 4) * (rem + succeeded x) + count_of (pg_attempts x) ip;
  pc_locked : deadline (pg_attempts x) ip = None <-> count_of (pg_attempts x) ip < MAX_LOGIN_FAILURES;
  pc_over : MAX_LOGIN_FAILURES <= count_of (pg_attempts x) ip -> count_of (pg_attempts x) ip - MAX_LOGIN_FAILURES + checked x <= cap - 1;
  pc_removed : rem + removing x <= cap * j;
  pc_seen : if seen then rem <= cap * (j - 1) else forall d, deadline (pg_attempts x) ip = Some d -> b + INITIAL_LOCKOUT <= d;
}.

Lemma look_deadline now m ip : find_lockout now m ip = match deadline m ip with Some d => if now <? d then Locked (d - now) else Expired | None => Free end.
Proof. done. Qed.
Lemma count_gone (m : Attempts) ip : count_of (delete ip m) ip = 0 /\ deadline (delete ip m) ip = None.
Proof. unfold count_of, deadline. by rewrite lookup_delete_eq. Qed.

Lemma step_paced cap ip t0 x y e b j rem seen : 1 <= cap -> cap + 5 <= u32_max -> Paced cap ip t0 x b j rem seen -> login_step cap ip x e = Some y ->
  exists b' j' rem' seen', Paced cap ip t0 y b' j' rem' seen'.
Proof.
  unfold u32_max. intros Hcap Hu [(Hr & Hc & Hrc & Hk) (Hb & Hbn & Hj & Hrem) (Hcnt & Hf) Hl Ho Hrm Hs]. destruct e as [now st]. destruct x as [t m r c f k].
  cbn [removing checked succeeded failed pg_now pg_attempts] in *. unfold login_step. destruct (Z.ltb_spec now t); [done |].
  unfold MAX_LOGIN_FAILURES, INITIAL_LOCKOUT in *. destruct (count_gone m ip) as [Eg Ed]. destruct st.
  - rewrite look_deadline. destruct (deadline m ip) as [d |] eqn:E; [destruct (Z.ltb_spec now d) |].
    + intros [= <-]. exists b, j, rem, seen. split; cbn [removing checked succeeded failed pg_now pg_attempts]; rewrite ?E; unfold MAX_LOGIN_FAILURES, INITIAL_LOCKOUT; first [done | lia].
    + destruct (Z.ltb_spec (r + c) cap); [| done]. intros [= <-]. destruct seen.
      * exists b, j, rem, true. split; cbn [removing checked succeeded failed pg_now pg_attempts]; rewrite ?E; unfold MAX_LOGIN_FAILURES, INITIAL_LOCKOUT; first [done | lia].
      * pose proof (Hs d eq_refl). exists now, (j + 1), rem, true.
        split; cbn [removing checked succeeded failed pg_now pg_attempts]; rewrite ?E; unfold MAX_LOGIN_FAILURES, INITIAL_LOCKOUT; first [done | lia].
    + destruct (Z.ltb_spec (r + c) cap); [| done]. intros [= <-]. exists b, j, rem, seen.
      assert (count_of m ip < 5) by by apply Hl.
      split; cbn [removing checked succeeded failed pg_now pg_attempts]; rewrite ?E; unfold MAX_LOGIN_FAILURES, INITIAL_LOCKOUT; first [done | lia].
  - destruct (Z.ltb_spec 0 r); [| done]. intros [= <-]. exists b, j, (rem + 1), false.
    assert (count_of m ip <= cap + 4) by (destruct (Z.le_gt_cases 5 (count_of m ip)); lia).
    split; cbn [removing checked succeeded failed pg_now pg_attempts]; rewrite ?Eg, ?Ed; unfold MAX_LOGIN_FAILURES, INITIAL_LOCKOUT; first [done | lia].
  - destruct (Z.ltb_spec 0 c); [| done]. intros [= <-].
    assert (count_of m ip <= cap + 4) by (destruct (Z.le_gt_cases 5 (count_of m ip)); lia).
    destruct (recorded now m ip ltac:(unfold u32_max; lia) Hl) as [Ec Hd]. cbv zeta in Hd. exists b, j, rem, seen.
    set (m' := record_login_failure now m ip) in *.
    split; cbn [removing checked succeeded failed pg_now pg_attempts]; rewrite ?E; unfold MAX_LOGIN_FAILURES, INITIAL_LOCKOUT in *; try first [done | lia].
    + destruct (deadline m' ip); [split; [done | lia] | split; [lia | done]].
    + destruct seen; [lia |]. intros d E. rewrite E in Hd. lia.
  - destruct (Z.ltb_spec 0 c); [| done]. intros [= <-]. unfold clear_login_failures. exists b, j, rem, false.
    assert (count_of m ip <= cap + 4) by (destruct (Z.le_gt_cases 5 (count_of m ip)); lia).
    split; cbn [removing checked succeeded failed pg_now pg_attempts]; rewrite ?Eg, ?Ed; unfold MAX_LOGIN_FAILURES, INITIAL_LOCKOUT; first [done | lia].
  - destruct (Z.ltb_spec 0 c); [| done]. intros [= <-]. exists b, j, rem, seen.
    split; cbn [removing checked succeeded failed pg_now pg_attempts]; rewrite ?E; unfold MAX_LOGIN_FAILURES, INITIAL_LOCKOUT; first [done | lia].
Qed.

Lemma steps_paced cap ip t0 l x y : 1 <= cap -> cap + 5 <= u32_max -> (exists b j rem seen, Paced cap ip t0 x b j rem seen) -> login_steps cap ip l x = Some y ->
  exists b j rem seen, Paced cap ip t0 y b j rem seen.
Proof.
  intros Hcap Hu. revert x. induction l as [| e l IH]; intros x Hx; cbn [login_steps]; [by intros [= <-] |].
  destruct Hx as (b & j & rem & seen & Hx). destruct (login_step cap ip x e) as [z |] eqn:E; [| done]. cbn [mbind option_bind]. apply IH. by eapply step_paced.
Qed.

Lemma start_paced cap ip t0 m : 1 <= cap -> m !! ip = None -> Paced cap ip t0 (no_progress t0 m) t0 0 0 false.
Proof.
  intros Hcap Hm. assert (count_of m ip = 0 /\ deadline m ip = None) as [E1 E2] by (unfold count_of, deadline; by rewrite Hm).
  unfold no_progress. split; cbn [removing checked succeeded failed pg_now pg_attempts]; rewrite ?E1, ?E2; unfold MAX_LOGIN_FAILURES, INITIAL_LOCKOUT; try first [done | lia].
Qed.

(** C30: how fast keys can be guessed from one address.  Requests look for a lockout, remove
    an expired one, and record their failures as separate steps, in any order, at most [cap]
    of them in flight at a time.  Then the wrong keys that have been compared since the
    first request are at most [cap + 4] for the start and for every login that succeeds
    from the address (it clears the count), and [cap * (cap + 4)] for every ten seconds.
    One request after another, these are five keys for every ten seconds. *)
Theorem guess_rate_bounded cap ip m t0 l x :
  1 <= cap -> cap + 5 <= u32_max -> m !! ip = None -> login_steps cap ip l (no_progress t0 m) = Some x ->
  failed x <= (cap + 4) * (cap * ((pg_now x - t0) `div` INITIAL_LOCKOUT) + succeeded x + 1).
Proof.
  intros Hcap Hu Hm Hl.
  destruct (steps_paced cap ip t0 l _ x Hcap Hu ltac:(exists t0, 0, 0, false; by apply start_paced) Hl)
    as (b & j & rem & seen & [(Hr & Hc & Hrc & Hk) (Hb & Hbn & Hj & Hrem) (Hcnt & Hf) Hlo Ho Hrm Hs]).
  unfold MAX_LOGIN_FAILURES, INITIAL_LOCKOUT in *.
  assert (count_of (pg_attempts x) ip <= cap + 4) by (destruct (Z.le_gt_cases 5 (count_of (pg_attempts x) ip)); lia).
  assert (j <= (pg_now x - t0) `div` 10000) by (apply Z.div_le_lower_bound; lia). nia.
Qed.

(** The first attempt of an address is compared. *)
Lemma fresh_guess now s header key : master_key s <> Some key -> is_Some (master_key s) -> login_attempts s !! extract_client_ip header = None ->
  is_checked (login now 0 s header (Login "admin" key)).2 = true.
Proof.
  intros Hk Hmk Hno. unfold login, check_login_lockout, find_lockout. rewrite Hno. cbn [mbind option_bind]. by rewrite bool_decide_eq_true_2, wrong_admin.
Qed.

Lemma login_keeps now clock s header body : let s' := (login now clock s header body).1 in jwt_secret s' = jwt_secret s /\ master_key s' = master_key s.
Proof.
  cbv zeta. unfold login. destruct (check_login_lockout now (login_attempts s) (extract_client_ip header)) as [m [rem |]]; [done |].
  destruct body as [| | user key]; [done | done |]. case_bool_decide.
  - unfold login_admin. cbn [master_key set_attempts]. destruct (master_key s) eqn:E; [| by rewrite <- E]. destruct (negb _); by rewrite <- E.
  - unfold login_user. cbn [keys set_attempts]. destruct (keys s) as [query |]; [| done]. destruct (query _) as [e | [r |]]; [done | | done].
    by destruct (default false (kr_blocked r)).
Qed.

(** Attempts with a header of their own each. *)
Fixpoint guess_from (s : DashboardState) (l : list (Z * (string -> option string) * string)) : list LoginReply :=
  match l with
  | [] => []
  | (now, header, key) :: l' => let '(s1, r) := login now 0 s header (Login "admin" key) in r :: guess_from s1 l'
  end.

Lemma login_other_address now s header key ip : ip <> extract_client_ip header ->
  login_attempts (login now 0 s header (Login "admin" key)).1 !! ip = login_attempts s !! ip /\ master_key (login now 0 s header (Login "admin" key)).1 = master_key s.
Proof.
  intros Hip. unfold login. set (me := extract_client_ip header) in *. destruct (check_login_lockout now (login_attempts s) me) as [m o] eqn:E.
  assert (m !! ip = login_attempts s !! ip) as Hm.
  { unfold check_login_lockout in E. destruct (find_lockout _ _ _); injection E as <- _; [done | by rewrite lookup_delete_ne | done]. }
  destruct o; [done |]. rewrite bool_decide_eq_true_2 by done. unfold login_admin. cbn [master_key set_attempts]. destruct (master_key s) eqn:Emk; [| split; [exact Hm | exact Emk]].
  destruct (constant_time_eq _ _); cbn [negb fst login_attempts set_attempts master_key]; (split; [| done]).
  - unfold clear_login_failures. by rewrite lookup_delete_ne.
  - unfold record_login_failure. by rewrite lookup_insert_ne.
Qed.

(** The lockout is by the address that the client gives.  Whoever sends another
    [X-Real-IP] with each attempt is never locked out: every key is compared. *)
Theorem spoofed_address_unlimited l s :
  is_Some (master_key s) -> Forall (fun x => master_key s <> Some x.2) l -> NoDup ((fun x => extract_client_ip x.1.2) <$> l) ->
  (forall x, x ∈ l -> login_attempts s !! extract_client_ip x.1.2 = None) ->
  Forall (fun r => is_checked r = true) (guess_from s l).
Proof.
  revert s. induction l as [| [[now header] key] l IH]; intros s Hmk Hl Hnd Hno; [constructor |]. cbn [guess_from].
  cbn in Hnd. apply NoDup_cons in Hnd as [Hn Hnd]. apply Forall_cons in Hl as [Hk Hl]. cbn [snd] in Hk.
  pose proof (fresh_guess now s header key Hk Hmk (Hno _ (list_elem_of_here _ _))) as Hr.
  pose proof (login_keeps now 0 s header (Login "admin" key)) as [_ Em].
  assert (forall x, x ∈ l -> extract_client_ip x.1.2 <> extract_client_ip header) as Hne.
  { intros x Hx E. apply Hn. rewrite <- E. apply list_elem_of_fmap. by exists x. }
  assert (forall x, x ∈ l -> login_attempts (login now 0 s header (Login "admin" key)).1 !! extract_client_ip x.1.2 = None) as Hno1.
  { intros x Hx. destruct (login_other_address now s header key _ (Hne x Hx)) as [-> _]. apply Hno. by right. }
  destruct (login now 0 s header (Login "admin" key)) as [s1 r]. cbn [fst snd] in *. constructor; [exact Hr |].
  apply IH; [by rewrite Em | by rewrite Em | done | exact Hno1].
Qed.

(** ** Sessions *)

Section sessions.
Context {L : JwtLaws}.

Lemma session_of_token clock s c t : encode (jwt_secret s) c = Some t ->
  extract_session clock s [sent_cookie t] = (if clock <=? exp c + leeway then inr c else inl (401, "Invalid session")).
Proof.
  intros He. destruct (encode_chars _ _ _ He) as [Hne Ht]. unfold extract_session. rewrite session_token_sent by done.
  rewrite (encode_decode _ _ _ clock He). by destruct (clock <=? exp c + leeway).
Qed.

(** Who logs in: the address is not locked out, and either it is the administrator with the
    master key, or there is a row for the key that is not blocked. *)
Definition admitted (s : DashboardState) (body : LoginBody) (c : DashboardClaims) : Prop :=
  (exists key, body = Login "admin" key /\ master_key s = Some key /\ role c = "admin" /\ cl_key_hash c = "")
  \/ (exists user key query r, body = Login user key /\ user <> "admin" /\ keys s = Some query /\ query (hash_token key) = inr (Some r)
        /\ default false (kr_blocked r) = false /\ role c = "user" /\ cl_key_hash c = hash_token key).

Lemma session_admitted now clock s header body s' t c k : login now clock s header body = (s', Session t c k) ->
  admitted s body c /\ exp c = clock + SESSION_DURATION_SECS /\ jwt_secret s' = jwt_secret s /\ encode (jwt_secret s) c = Some t.
Proof.
  unfold login. destruct (check_login_lockout now (login_attempts s) (extract_client_ip header)) as [m [rem |]]; [done |].
  destruct body as [| | user key]; [done | done |]. case_bool_decide as Eu.
  - subst user. unfold login_admin. cbn [master_key set_attempts]. destruct (master_key s) as [mk |] eqn:Em; [| done].
    destruct (constant_time_eq key mk) eqn:Ec; cbn [negb]; [| done]. apply constant_time_eq_spec in Ec as ->.
    unfold sign_and_respond. cbn [jwt_secret set_attempts]. destruct (encode _ _) as [t' |] eqn:Ee; [| done]. intros [= <- <- <- <-].
    split; [left; by exists mk | done].
  - unfold login_user. cbn [keys set_attempts]. destruct (keys s) as [query |] eqn:Ek; [| done]. destruct (query (hash_token key)) as [e | [r |]] eqn:Eq; [done | | done].
    destruct (default false (kr_blocked r)) eqn:Eb; [done |]. unfold sign_and_respond. cbn [jwt_secret set_attempts]. destruct (encode _ _) as [t' |] eqn:Ee; [| done].
    intros [= <- <- <- <-]. split; [right; by exists user, key, query, r | done].
Qed.

(** What a login grants.  A session is given to the administrator with the master key, or
    for a key that has a row and is not blocked (an expired or spent key will do); its
    cookie is good for two hours and a minute, whatever happens to the key; and it opens
    the administration exactly for the administrator. *)
Theorem login_grants_session now clock s header body s' t c k later :
  login now clock s header body = (s', Session t c k) ->
  admitted s body c
  /\ extract_session later s' [sent_cookie t] = (if later <=? clock + SESSION_DURATION_SECS + leeway then inr c else inl (401, "Invalid session"))
  /\ (later <= clock + SESSION_DURATION_SECS + leeway -> (admin_session later s' [sent_cookie t] = inr c <-> exists key, body = Login "admin" key)).
Proof.
  intros Hl. destruct (session_admitted _ _ _ _ _ _ _ _ _ Hl) as (Ha & Ex & Ej & He). rewrite <- Ej in He.
  pose proof (session_of_token later s' c t He) as Hs. rewrite Ex in Hs. split; [done |]. split; [done |].
  intros Hlate. unfold admin_session. rewrite Hs. destruct (Z.leb_spec later (clock + SESSION_DURATION_SECS + leeway)); [| lia].
  destruct Ha as [(key & -> & _ & -> & _) | (user & key & query & r & -> & Hu & _ & _ & _ & -> & _)].
  - rewrite bool_decide_eq_true_2 by done. split; [intros _; by exists key | done].
  - rewrite bool_decide_eq_false_2 by done. split; [done | intros [k' [= E _]]; by destruct Hu].
Qed.

(** Without a master key anyone can be the administrator.  Logins of the administrator are
    refused whatever the key, but sessions are then signed with a secret that is part of the
    program, so a session that anybody signs is accepted by every handler of the
    administration. *)
Theorem default_secret_forged db now clock header key c t :
  encode default_secret c = Some t -> role c = "admin" -> clock <= exp c + leeway ->
  (forall s tok c' k, login now clock (new_dashboard db None) header (Login "admin" key) <> (s, Session tok c' k))
  /\ admin_session clock (new_dashboard db None) [sent_cookie t] = inr c.
Proof.
  intros He Hr Hx. split.
  - intros s tok c' k Hl. apply session_admitted in Hl as ([(key' & _ & Em & _) | (user & key' & query & r & [= <- <-] & Hu & _)] & _); [done | done].
  - unfold admin_session. rewrite (session_of_token clock (new_dashboard db None) c t He). destruct (Z.leb_spec clock (exp c + leeway)); [| lia].
    by rewrite bool_decide_eq_true_2.
Qed.
End sessions.
End dashboard.

(** ** Examples *)

#[export] Instance DashboardClaims_eq_dec : EqDecision DashboardClaims.
Proof. solve_decision. Defined.

Definition demo_claims : DashboardClaims := mkClaims "admin" "admin" "" 7200 0.
(** Signatures of one session. *)
#[local] Instance demo_jwt : Jwt := {|
  encode := fun _ c => if bool_decide (c = demo_claims) then Some "e30.abc" else None;
  decode := fun now _ t => if bool_decide (t = "e30.abc") && (now <=? 7200 + leeway) then Some demo_claims else None;
|}.
#[local] Instance demo_jwt_laws : JwtLaws.
Proof.
  split; cbn.
  - intros secret c t now. case_bool_decide as E; [| done]. intros [= <-]. subst c. reflexivity.
  - intros secret c t. case_bool_decide; [| done]. intros [= <-]. done.
Qed.

Definition no_header (h : string) : option string := None.
Definition demo_dashboard : DashboardState := new_dashboard None (Some "m").

(** Two requests at a time: six wrong keys, a lockout of forty seconds that two requests
    find expired, and one of them removes the count of the failures after the other. *)
Definition demo_steps : list (Z * LoginStep) :=
  [(0, Look); (0, Fail); (0, Look); (0, Fail); (0, Look); (0, Fail); (0, Look); (0, Fail); (0, Look); (0, Look); (1, Fail); (2, Fail); (3, Look);
   (40002, Look); (40002, Look); (40003, Remove); (40004, Fail); (40005, Remove); (40006, Fail)].

Lemma guess_rate_bounded_witness :
  match login_steps 2 "ip" demo_steps (no_progress 0 ∅) with Some x => failed x = 8 /\ failed x <= (2 + 4) * (2 * ((40006 - 0) `div` INITIAL_LOCKOUT) + 0 + 1) | None => False end.
Proof.
  assert (exists x, login_steps 2 "ip" demo_steps (no_progress 0 ∅) = Some x /\ failed x = 8 /\ pg_now x = 40006 /\ succeeded x = 0) as (x & E & Ef & En & Es)
    by (eexists; split_and!; vm_compute; reflexivity).
  rewrite E. split; [exact Ef |]. 
  pose proof (guess_rate_bounded 2 "ip" ∅ 0 demo_steps x ltac:(lia) ltac:(by vm_compute) eq_refl E) as Hb. rewrite En, Es in Hb. exact Hb.
Defined.

Definition from_ip (ip : string) (h : string) : option string := if bool_decide (h = "X-Real-IP") then Some ip else None.
Lemma spoofed_address_unlimited_witness :
  Forall (fun r => is_checked r = true) (guess_from (fun k => k) demo_dashboard [(0, from_ip "1", "a"); (0, from_ip "2", "b"); (0, from_ip "3", "c")]).
Proof.
  apply (spoofed_address_unlimited (fun k => k)); [by eexists | by repeat constructor | | reflexivity].
  apply (bool_decide_unpack _). vm_compute. exact I.
Defined.

Lemma login_grants_session_witness :
  match login (fun k => k) 0 0 demo_dashboard no_header (Login "admin" "m") with
  | (s, Session t c k) => extract_session 7000 s [sent_cookie t] = inr c
  | _ => False
  end.
Proof.
  destruct (login (fun k => k) 0 0 demo_dashboard no_header (Login "admin" "m")) as [s [st m | t c k]] eqn:E; [vm_compute in E; discriminate |].
  exact (proj1 (proj2 (login_grants_session (fun k => k) 0 0 demo_dashboard no_header (Login "admin" "m") s t c k 7000 E))).
Defined.

Lemma default_secret_forged_witness : admin_session 0 (new_dashboard None None) [sent_cookie "e30.abc"] = inr demo_claims.
Proof. apply (default_secret_forged (fun k => k) None 0 0 no_header "k" demo_claims "e30.abc"); [reflexivity | reflexivity | vm_compute; discriminate]. Defined.

End Dashboard.
