(* ===== verification/DashKeys.v ===== *)
(** * DashKeys: the management of keys, teams and assignments (boom-dashboard)

    Models the handlers of [boom-dashboard/src/handlers_admin.rs] that create, change, block
    and delete keys and teams and assign plans, with [boom-core/src/key_format.rs].  The
    table of keys holds the token that [Auth] reads, so what a handler writes is what
    authenticates.  The outcome of the statements of a handler is a function of their place
    in it.  The hash (SHA-256), the random part of a key and the parser of dates (chrono)
    are parameters. *)

From S2P Require Import Prelude Core Text Float64 Json Messages PlanStore SlidingWindow PlanTable PlanCharge Config Sse Auth Dashboard.

(** ** Keys *)

Module DashKeys.
Import Core Json Auth Config(de_seq,de_struct).

(** *** Data *)

(** A row of [boom_verification_token]: the token that the authentication reads, and the
    other columns. *)
Record KeyRow := mkKey { kr_token : VerificationToken; kr_key_prefix : option string; kr_tag : option string; kr_budget_duration : option string }.

Record CreateKeyRequest := mkCreate {
  cr_key_alias : option string;
  cr_key_name : option string;
  cr_key_prefix : option string;
  cr_tag : option string;
  cr_user_id : option string;
  cr_team_id : option string;
  cr_models : option (list string);
  cr_max_budget : option f64;
  cr_budget_duration : option string;
  cr_rpm_limit : option Z;
  cr_tpm_limit : option Z;
  cr_expires : option string;
  cr_metadata : option Value;
  (** Absent, an explicit "no plan", or the name of a plan. *)
  cr_plan_name : option (option string);
}.

Record UpdateKeyRequest := mkUpdate {
  up_key_name : option string;
  up_key_alias : option string;
  up_user_id : option string;
  up_team_id : option string;
  up_models : option (list string);
  up_max_budget : option f64;
  up_budget_duration : option string;
  up_rpm_limit : option Z;
  up_tpm_limit : option Z;
  up_tag : option string;
  up_expires : option string;
  up_metadata : option Value;
}.

(** *** The JSON of a request *)

Definition de_i64 : Value -> option Z := de_int (- 2 ^ 63) (2 ^ 63 - 1).

Definition de_create : Value -> option CreateKeyRequest := de_struct (fun o =>
  alias ← opt_field o "key_alias" de_string;
  name ← opt_field o "key_name" de_string;
  prefix ← opt_field o "key_prefix" de_string;
  tag ← opt_field o "tag" de_string;
  user ← opt_field o "user_id" de_string;
  team ← opt_field o "team_id" de_string;
  ms ← opt_field o "models" (de_seq de_string);
  budget ← opt_field o "max_budget" de_f64;
  duration ← opt_field o "budget_duration" de_string;
  rpm ← opt_field o "rpm_limit" de_i64;
  tpm ← opt_field o "tpm_limit" de_i64;
  ex ← opt_field o "expires" de_string;
  meta ← opt_field o "metadata" Some;
  plan ← field o "plan_name" (fun v => Some <$> de_option de_string v) (Some None);
  Some (mkCreate alias name prefix tag user team ms budget duration rpm tpm ex meta plan)).

Definition vopt {A} (f : A -> Value) (o : option A) : Value := match o with Some x => f x | None => VNull end.
(** A number that JSON does not have is [null]. *)
Definition vfloat (x : f64) : Value := if Config.f64_finite x then VNumber (NFloat x) else VNull.

Definition ser_create (r : CreateKeyRequest) : Object := [
  ("key_alias", vopt VString (cr_key_alias r)); ("key_name", vopt VString (cr_key_name r)); ("key_prefix", vopt VString (cr_key_prefix r));
  ("tag", vopt VString (cr_tag r)); ("user_id", vopt VString (cr_user_id r)); ("team_id", vopt VString (cr_team_id r));
  ("models", vopt (fun l => VArray (VString <$> l)) (cr_models r)); ("max_budget", vopt vfloat (cr_max_budget r));
  ("budget_duration", vopt VString (cr_budget_duration r)); ("rpm_limit", vopt vint (cr_rpm_limit r)); ("tpm_limit", vopt vint (cr_tpm_limit r));
  ("expires", vopt VString (cr_expires r)); ("metadata", vopt id (cr_metadata r)); ("plan_name", vopt (vopt VString) (cr_plan_name r))].

(** *** Prefixes and tags *)

Definition MAX_TAG_LEN : nat := 64.

Definition ascii_alphanumeric (a : ascii) : bool :=
  let n := N_of_ascii a in ((48 <=? n) && (n <=? 57) || (65 <=? n) && (n <=? 90) || (97 <=? n) && (n <=? 122))%N.
Fixpoint all_alphanumeric (s : string) : bool := match s with EmptyString => true | String a s' => ascii_alphanumeric a && all_alphanumeric s' end.
Definition is_valid_prefix (p : string) : bool := ((1 <=? String.length p) && (String.length p <=? 50))%nat && all_alphanumeric p.

(** [str::chars().count()] *)
Definition char_count (s : string) : nat := length (Sse.chars s).

Definition bad_prefix (o : option string) : bool := match o with Some p => negb (bool_decide (p = "")) && negb (is_valid_prefix p) | None => false end.
Definition bad_tag (o : option string) : bool := match o with Some t => (MAX_TAG_LEN <? char_count t)%nat | None => false end.

(** *** Replies *)

Inductive Reply := RJson (status : Z) (v : Value) | RText (status : Z) (text : string).
(** The reply of a handler, and whether it tells the gateway that the configuration changed. *)
Record Answer := mkAnswer { reply : Reply; config_changed : bool }.
Definition quiet (r : Reply) : Answer := mkAnswer r false.
Definition no_database : Answer := quiet (RJson 200 (VObject [("error", VString "Database not available")])).
Definition ok_reply : Reply := RJson 200 (VObject [("ok", VBool true)]).
Definition internal_error : Answer := quiet (RText 500 "Internal error").

Definition validate_prefix_and_tag (r : CreateKeyRequest) : option Reply :=
  if bad_prefix (cr_key_prefix r)
  then Some (RText 400 ("Invalid key_prefix '" +:+ default "" (cr_key_prefix r) +:+ "': must be 1-50 ASCII alphanumeric chars [a-zA-Z0-9]"))
  else if bad_tag (cr_tag r) then Some (RText 400 ("Invalid tag: length must be <= " +:+ show (Z.of_nat MAX_TAG_LEN) +:+ " chars"))
  else None.

(** *** The tables *)

Notation KeyTable := (gmap string KeyRow).

Definition row_alias (k : KeyRow) : option string := tk_key_alias (kr_token k).
(** Another key than [except] has the alias. *)
Definition alias_taken (t : KeyTable) (alias : string) (except : option string) : bool :=
  existsb (fun kv => bool_decide (row_alias kv.2 = Some alias) && negb (bool_decide (except = Some kv.1))) (map_to_list t).

(** The outcome of the statements of a handler, by their place in it. *)
Definition Stmts : Type := nat -> bool.

(** One statement fails. *)
Definition failing (i : nat) : Stmts := fun n => negb (n =? i)%nat.

(** [SELECT EXISTS ...]: [false] when the query fails. *)
Definition exists_query (ok : bool) (found : bool) : bool := ok && found.

Section keys.
Context {D : Type} `{DecimalOps D}.
Context (hash_token : string -> string) (parse_datetime : string -> option Z).
Implicit Types (r : CreateKeyRequest) (t : KeyTable).

(** The tables, the plans (in the tables and in memory) and the limiter. *)
Record Dash := mkDash { key_table : KeyTable; team_table : gmap string TeamRow; ds_plans : PlanTable.PlanDb * PlanStore.PlanStore D; ds_limiter : SlidingWindow.SlidingWindowLimiter }.
Implicit Types (st : Dash).
Definition set_table st t : Dash := mkDash t (team_table st) (ds_plans st) (ds_limiter st).
Definition set_team_table st (m : gmap string TeamRow) : Dash := mkDash (key_table st) m (ds_plans st) (ds_limiter st).
Definition set_ds_plans st p : Dash := mkDash (key_table st) (team_table st) p (ds_limiter st).
Definition set_limiter st l : Dash := mkDash (key_table st) (team_table st) (ds_plans st) l.

(** *** Assignments in the table and in memory

    [ok] is whether the statements succeed; one that fails leaves both as they are. *)

Definition assign_db (ok : bool) (kh n : string) (x : PlanTable.PlanDb * PlanStore.PlanStore D) :=
  let '(db, s) := x in
  match PlanStore.assign_key_db s kh n (if ok then PlanTable.rows_affected (PlanTable.key_rows db !! kh) else None) true None with
  | (s', inr _) => ((PlanTable.set_key_rows db (<[kh := Some n]> (PlanTable.key_rows db)), s'), inr tt)
  | (s', inl e) => ((db, s'), inl e)
  end.

Definition assign_no_plan_db (ok : bool) (kh : string) (x : PlanTable.PlanDb * PlanStore.PlanStore D) :=
  let '(db, s) := x in
  match PlanStore.assign_key_no_plan_db s kh (if ok then PlanTable.rows_affected (PlanTable.key_rows db !! kh) else None) true None with
  | (s', inr _) => ((PlanTable.set_key_rows db (<[kh := None]> (PlanTable.key_rows db)), s'), inr tt)
  | (s', inl e) => ((db, s'), inl e)
  end.

Definition unassign_db (ok : bool) (kh : string) (x : PlanTable.PlanDb * PlanStore.PlanStore D) :=
  let '(db, s) := x in
  let '(s', res) := PlanStore.unassign_key_db s kh (if ok then PlanTable.rows_affected (PlanTable.key_rows db !! kh) else None) in
  ((if ok then PlanTable.set_key_rows db (delete kh (PlanTable.key_rows db)) else db, s'), res).

Definition assign_team_table_db (ok : bool) (tid n : string) (x : PlanTable.PlanDb * PlanStore.PlanStore D) :=
  let '(db, s) := x in
  match PlanStore.assign_team_db s tid n (if ok then PlanTable.rows_affected (PlanTable.team_rows db !! tid) else None) true None with
  | (s', inr _) => ((PlanTable.set_team_rows db (<[tid := n]> (PlanTable.team_rows db)), s'), inr tt)
  | (s', inl e) => ((db, s'), inl e)
  end.

Definition unassign_team_table_db (ok : bool) (tid : string) (x : PlanTable.PlanDb * PlanStore.PlanStore D) :=
  let '(db, s) := x in
  let '(s', res) := PlanStore.unassign_team_db s tid (if ok then PlanTable.rows_affected (PlanTable.team_rows db !! tid) else None) in
  ((if ok then PlanTable.set_team_rows db (delete tid (PlanTable.team_rows db)) else db, s'), res).

(** *** The creation of a key *)

(** [secret] is the random part: the hexadecimal text of a UUID. *)
Definition generate_key_material (secret : string) (requested_prefix : option string) : string * string * option string :=
  match requested_prefix with
  | Some p =>
    if is_valid_prefix p then let raw := "sk-" +:+ p +:+ "-" +:+ secret in (raw, hash_token raw, Some p)
    else let raw := "sk-" +:+ secret in (raw, hash_token raw, None)
  | None => let raw := "sk-" +:+ secret in (raw, hash_token raw, None)
  end.

Definition models_list (l : list string) : list string := if bool_decide ("all-team-models" ∈ l) then ["all-team-models"] else l.

Definition row_of_request r (token_hash : string) (key_prefix : option string) : KeyRow :=
  mkKey (mkToken token_hash (match cr_key_name r with Some n => Some n | None => cr_key_alias r end) (cr_key_alias r) (f64_of 0) (cr_expires r ≫= parse_datetime)
           (models_list (default [] (cr_models r))) (cr_user_id r) (cr_team_id r) (Some (default (VObject []) (cr_metadata r))) (Some false)
           (cr_tpm_limit r) (cr_rpm_limit r) (cr_max_budget r))
    key_prefix (cr_tag r) (cr_budget_duration r).

(** [INSERT]: the token is the primary key. *)
Definition insert_row (ok : bool) (k : KeyRow) t : option KeyTable :=
  if ok then match t !! token (kr_token k) with None => Some (<[token (kr_token k) := k]> t) | Some _ => None end else None.

(** The plan of a new key.  The default plan is assigned in memory alone; an error is
    logged. *)
Definition assign_requested (ok : bool) (choice : option (option string)) (kh : string) (x : PlanTable.PlanDb * PlanStore.PlanStore D) :=
  match choice with
  | None => x
  | Some None => (assign_no_plan_db ok kh x).1
  | Some (Some n) =>
    if bool_decide (PlanStore.default_plan_name x.2 = Some n) then (x.1, (PlanStore.assign_key x.2 kh n).1)
    else (assign_db ok kh n x).1
  end.

Definition alias_conflict (ok : bool) t (alias : option string) : bool :=
  match alias with Some a => exists_query ok (alias_taken t a None) | None => false end.

Definition created_value (raw token_hash : string) (alias : option string) : Value :=
  VObject [("key", VString raw); ("token_hash", VString token_hash); ("key_alias", vopt VString alias)].

Definition create_key (db : option Stmts) (secret : string) r st : Dash * Answer :=
  match db with
  | None => (st, no_database)
  | Some ok =>
    match validate_prefix_and_tag r with
    | Some resp => (st, quiet resp)
    | None =>
      let '(raw, token_hash, key_prefix) := generate_key_material secret (cr_key_prefix r) in
      if alias_conflict (ok 0%nat) (key_table st) (cr_key_alias r)
      then (st, quiet (RText 409 ("key_alias '" +:+ default "" (cr_key_alias r) +:+ "' already exists")))
      else
        match insert_row (ok 1%nat) (row_of_request r token_hash key_prefix) (key_table st) with
        | None => (st, internal_error)
        | Some t =>
          (set_ds_plans (set_table st t) (assign_requested (ok 2%nat) (cr_plan_name r) token_hash (ds_plans st)),
           quiet (RJson 200 (created_value raw token_hash (cr_key_alias r))))
        end
    end
  end.

Inductive CreateOutcome :=
| Created (key token_hash : string) (key_alias : option string)
| Skipped (key_alias : option string) (reason : string).

Definition insert_single_key (ok : Stmts) (secret : string) r st : Dash * CreateOutcome :=
  if bad_prefix (cr_key_prefix r) then (st, Skipped (cr_key_alias r) "invalid_prefix")
  else if bad_tag (cr_tag r) then (st, Skipped (cr_key_alias r) "invalid_tag")
  else if alias_conflict (ok 0%nat) (key_table st) (cr_key_alias r) then (st, Skipped (cr_key_alias r) "duplicate")
  else
    let '(raw, token_hash, key_prefix) := generate_key_material secret (cr_key_prefix r) in
    match insert_row (ok 1%nat) (row_of_request r token_hash key_prefix) (key_table st) with
    | Some t =>
      (set_ds_plans (set_table st t) (assign_requested (ok 2%nat) (cr_plan_name r) token_hash (ds_plans st)), Created raw token_hash (cr_key_alias r))
    | None => (st, Skipped (cr_key_alias r) "db_error")
    end.

(** The requests in order, each with its random part and the outcome of its statements. *)
Fixpoint insert_all (l : list (string * Stmts * CreateKeyRequest)) st : Dash * list CreateOutcome :=
  match l with
  | [] => (st, [])
  | (secret, ok, r) :: l' =>
    let '(st, o) := insert_single_key ok secret r st in
    let '(st, os) := insert_all l' st in (st, o :: os)
  end.

Definition is_created (o : CreateOutcome) : bool := match o with Created _ _ _ => true | Skipped _ _ => false end.
Definition outcome_value (o : CreateOutcome) : Value :=
  match o with
  | Created key th alias => created_value key th alias
  | Skipped alias reason => VObject [("key_alias", vopt VString alias); ("reason", VString reason)]
  end.
Definition created_of (os : list CreateOutcome) : list Value := outcome_value <$> retain is_created os.
Definition skipped_of (os : list CreateOutcome) : list Value := outcome_value <$> retain (fun o => negb (is_created o)) os.
Definition vcount {A} (l : list A) : Value := vint (Z.of_nat (length l)).

Definition batch_create_keys (db : bool) (l : list (string * Stmts * CreateKeyRequest)) st : Dash * Answer :=
  if db then
    let '(st, os) := insert_all l st in
    (st, quiet (RJson 200 (VObject [("created", VArray (created_of os)); ("skipped", VArray (skipped_of os));
                                    ("created_count", vcount (created_of os)); ("skipped_count", vcount (skipped_of os))])))
  else (st, no_database).

(** *** Changes of a key *)

(** [COALESCE]: the new value if there is one. *)
Definition coalesce {A} (new old : option A) : option A := match new with Some _ => new | None => old end.

Definition new_team (new old : option string) : option string :=
  match new with None => old | Some tid => if bool_decide (tid = "") then None else Some tid end.

Definition update_row (u : UpdateKeyRequest) (k : KeyRow) : KeyRow :=
  let tk := kr_token k in
  mkKey (mkToken (token tk) (coalesce (up_key_name u) (tk_key_name tk)) (coalesce (up_key_alias u) (tk_key_alias tk)) (tk_spend tk)
           (coalesce (up_expires u ≫= parse_datetime) (expires tk)) (default (tk_models tk) (models_list <$> up_models u))
           (coalesce (up_user_id u) (tk_user_id tk)) (new_team (up_team_id u) (tk_team_id tk)) (coalesce (up_metadata u) (tk_metadata tk)) (tk_blocked tk)
           (coalesce (up_tpm_limit u) (tk_tpm_limit tk)) (coalesce (up_rpm_limit u) (tk_rpm_limit tk)) (coalesce (up_max_budget u) (tk_max_budget tk)))
    (kr_key_prefix k) (coalesce (up_tag u) (kr_tag k)) (coalesce (up_budget_duration u) (kr_budget_duration k)).

(** [UPDATE ... WHERE token = $1]: the table and the number of rows; [None] is an error. *)
Definition update_where (ok : bool) (kh : string) (f : KeyRow -> KeyRow) t : option (KeyTable * bool) :=
  if ok then match t !! kh with Some k => Some (<[kh := f k]> t, true) | None => Some (t, false) end else None.

Definition row_answer st (o : option (KeyTable * bool)) : Dash * Answer :=
  match o with
  | Some (t, true) => (set_table st t, quiet ok_reply)
  | Some (_, false) => (st, quiet (RText 404 "Key not found"))
  | None => (st, internal_error)
  end.

Definition update_conflict (ok : bool) t (kh : string) (alias : option string) : bool :=
  match alias with Some a => negb (bool_decide (a = "")) && exists_query ok (alias_taken t a (Some kh)) | None => false end.

Definition team_missing (ok : bool) (teams : gmap string TeamRow) (team : option string) : bool :=
  match team with Some tid => negb (bool_decide (tid = "")) && negb (exists_query ok (bool_decide (is_Some (teams !! tid)))) | None => false end.

Definition update_key (db : option Stmts) (kh : string) (u : UpdateKeyRequest) st : Dash * Answer :=
  match db with
  | None => (st, no_database)
  | Some ok =>
    if update_conflict (ok 0%nat) (key_table st) kh (up_key_alias u)
    then (st, quiet (RText 409 ("key_alias '" +:+ default "" (up_key_alias u) +:+ "' already exists")))
    else if bad_tag (up_tag u) then (st, quiet (RText 400 ("Invalid tag: length must be <= " +:+ show (Z.of_nat MAX_TAG_LEN) +:+ " chars")))
    else if team_missing (ok 1%nat) (team_table st) (up_team_id u)
    then (st, quiet (RText 400 ("Team '" +:+ default "" (up_team_id u) +:+ "' not found")))
    else row_answer st (update_where (ok 2%nat) kh (update_row u) (key_table st))
  end.

Definition with_blocked (b : bool) (k : KeyRow) : KeyRow :=
  let tk := kr_token k in
  mkKey (mkToken (token tk) (tk_key_name tk) (tk_key_alias tk) (tk_spend tk) (expires tk) (tk_models tk) (tk_user_id tk) (tk_team_id tk) (tk_metadata tk) (Some b)
           (tk_tpm_limit tk) (tk_rpm_limit tk) (tk_max_budget tk)) (kr_key_prefix k) (kr_tag k) (kr_budget_duration k).

Definition block_key (db : option Stmts) (kh : string) st : Dash * Answer :=
  match db with None => (st, no_database) | Some ok => row_answer st (update_where (ok 0%nat) kh (with_blocked true) (key_table st)) end.
Definition unblock_key (db : option Stmts) (kh : string) st : Dash * Answer :=
  match db with None => (st, no_database) | Some ok => row_answer st (update_where (ok 0%nat) kh (with_blocked false) (key_table st)) end.

(** The errors of the first two steps are logged. *)
Definition delete_key (db : option Stmts) (kh : string) st : Dash * Answer :=
  match db with
  | None => (st, no_database)
  | Some ok =>
    let st := set_limiter st (SlidingWindow.clear_key_all (ds_limiter st) kh (ok 0%nat) (ok 1%nat)).1 in
    let st := set_ds_plans st (unassign_db (ok 2%nat) kh (ds_plans st)).1 in
    row_answer st (if ok 3%nat then Some (delete kh (key_table st), bool_decide (is_Some (key_table st !! kh))) else None)
  end.

(** *** Assignments *)

Definition outcome_answer {A} (o : string + A) : Answer := match o with inr _ => mkAnswer ok_reply true | inl e => quiet (RText 400 e) end.

Definition assign_key (db : option Stmts) (kh : string) (choice : option (option string)) st : Dash * Answer :=
  match choice with
  | Some None =>
    match db with
    | Some ok => let '(x, o) := assign_no_plan_db (ok 0%nat) kh (ds_plans st) in (set_ds_plans st x, outcome_answer o)
    | None => (set_ds_plans st ((ds_plans st).1, PlanStore.assign_key_no_plan (ds_plans st).2 kh), mkAnswer ok_reply true)
    end
  | Some (Some n) =>
    match db with
    | Some ok => let '(x, o) := assign_db (ok 0%nat) kh n (ds_plans st) in (set_ds_plans st x, outcome_answer o)
    | None => let '(s, o) := PlanStore.assign_key (ds_plans st).2 kh n in (set_ds_plans st ((ds_plans st).1, s), outcome_answer o)
    end
  | None => (st, quiet (RText 400 "plan_name is required (send null for explicit no-plan)"))
  end.

Definition removed_answer (removed : bool) : Answer := mkAnswer (RJson 200 (VObject [("ok", VBool removed)])) removed.

Definition unassign_key (db : option Stmts) (kh : string) st : Dash * Answer :=
  match db with
  | Some ok =>
    let '(x, o) := unassign_db (ok 0%nat) kh (ds_plans st) in
    (set_ds_plans st x, removed_answer (match o with inr b => b | inl _ => false end))
  | None => let '(s, b) := PlanStore.unassign_key (ds_plans st).2 kh in (set_ds_plans st ((ds_plans st).1, s), removed_answer b)
  end.

Definition assign_team_plan (db : option Stmts) (tid n : string) st : Dash * Answer :=
  match db with
  | Some ok => let '(x, o) := assign_team_table_db (ok 0%nat) tid n (ds_plans st) in (set_ds_plans st x, outcome_answer o)
  | None => let '(s, o) := PlanStore.assign_team (ds_plans st).2 tid n in (set_ds_plans st ((ds_plans st).1, s), outcome_answer o)
  end.

Definition unassign_team_plan (db : option Stmts) (tid : string) st : Dash * Answer :=
  match db with
  | Some ok =>
    match unassign_team_table_db (ok 0%nat) tid (ds_plans st) with
    | (x, inr b) => (set_ds_plans st x, removed_answer b)
    | (x, inl e) => (set_ds_plans st x, quiet (RText 500 ("unassign_team_db failed: " +:+ e)))
    end
  | None => let '(s, b) := PlanStore.unassign_team (ds_plans st).2 tid in (set_ds_plans st ((ds_plans st).1, s), removed_answer b)
  end.

(** *** Teams *)

Definition members (tid : string) t : list string := (base.filter (fun kv => tk_team_id (kr_token kv.2) = Some tid) (map_to_list t)).*1.

Definition create_team (db : option Stmts) (tid : string) (alias : option string) (ms : list string) st : Dash * Answer :=
  match db with
  | None => (st, no_database)
  | Some ok =>
    if bool_decide (trim tid = "") then (st, quiet (RText 400 "team_id is required"))
    else if negb (ok 0%nat) then (st, internal_error)
    else
      match team_table st !! tid with
      | Some _ => (st, quiet (RText 409 ("team_id '" +:+ tid +:+ "' already exists")))
      | None =>
        (set_team_table st (<[tid := mkTeamRow ms alias]> (team_table st)),
         quiet (RJson 200 (VObject [("ok", VBool true); ("team_id", VString tid); ("team_alias", vopt VString alias); ("models", VArray (VString <$> ms))])))
      end
  end.

Definition update_team (db : option Stmts) (tid : string) (alias : option string) (ms : option (list string)) st : Dash * Answer :=
  match db with
  | None => (st, no_database)
  | Some ok =>
    if ok 0%nat then
      match team_table st !! tid with
      | Some row => (set_team_table st (<[tid := mkTeamRow (default (tr_models row) ms) (coalesce alias (tr_team_alias row))]> (team_table st)), quiet ok_reply)
      | None => (st, quiet (RText 404 "Team not found"))
      end
    else (st, internal_error)
  end.

Definition delete_team (db : option Stmts) (tid : string) st : Dash * Answer :=
  match db with
  | None => (st, no_database)
  | Some ok =>
    let key_count := if ok 0%nat then Z.of_nat (length (members tid (key_table st))) else 0 in
    if 0 <? key_count then (st, quiet (RText 409 ("Cannot delete team: " +:+ show key_count +:+ " key(s) still assigned")))
    else if ok 1%nat then
      match team_table st !! tid with
      | Some _ => (set_team_table st (delete tid (team_table st)), quiet (RJson 200 (VObject [("ok", VBool true); ("team_id", VString tid)])))
      | None => (st, quiet (RText 404 "Team not found"))
      end
    else (st, internal_error)
  end.

(** *** Plans *)

Section plans.
Context `{DecimalText D} (ser_decimal : D -> Value).

(** An error of the database is logged, and the reply is the same. *)
Definition upsert_plan (db : option Stmts) (p : PlanStore.RateLimitPlan D) st : Dash * Answer :=
  match PlanStore.validate_schedule_overlap p with
  | inl msg => (st, quiet (RJson 400 (VObject [("error", VString msg)])))
  | inr _ =>
    let '(d, s) := ds_plans st in
    let x := match db with
             | Some ok => (if ok 0%nat then PlanTable.upsert_plan_row ser_decimal p d else d, (PlanStore.upsert_plan_db s p (ok 0%nat)).1)
             | None => (d, PlanStore.upsert_plan s p)
             end in
    (set_ds_plans st x, mkAnswer (RJson 200 (VObject [("ok", VBool true); ("plan_name", VString (PlanStore.name p))])) true)
  end.

Definition delete_plan (db : option Stmts) (n : string) st : Dash * Answer :=
  let '(d, s) := ds_plans st in
  let '(x, deleted) :=
    match db with
    | Some ok =>
      let '(s', o) := PlanStore.delete_plan_db s n (if ok 0%nat then PlanTable.rows_affected (PlanTable.plan_rows d !! n) else None) in
      ((if ok 0%nat then PlanTable.set_plan_rows d (delete n (PlanTable.plan_rows d)) else d, s'), match o with inr b => b | inl _ => false end)
    | None => let '(s', b) := PlanStore.delete_plan s n in ((d, s'), b)
    end in
  (set_ds_plans st x, mkAnswer (RJson 200 (VObject [("ok", VBool deleted); ("plan_name", VString n)])) deleted).

(** *** The handlers behind the session of the administrator *)

Inductive DashCall :=
| CallCreate (secret : string) r
| CallBatch (l : list (string * Stmts * CreateKeyRequest))
| CallUpdate (kh : string) (u : UpdateKeyRequest)
| CallBlock (kh : string)
| CallUnblock (kh : string)
| CallDelete (kh : string)
| CallAssign (kh : string) (choice : option (option string))
| CallUnassign (kh : string)
| CallAssignTeam (tid n : string)
| CallUnassignTeam (tid : string)
| CallCreateTeam (tid : string) (alias : option string) (ms : list string)
| CallUpdateTeam (tid : string) (alias : option string) (ms : option (list string))
| CallDeleteTeam (tid : string)
| CallUpsertPlan (p : PlanStore.RateLimitPlan D)
| CallDeletePlan (n : string).

(** The extractor among the arguments of each handler. *)
Definition extractor (c : DashCall) : Dashboard.Extractor :=
  match c with
  | CallCreate _ _ => Dashboard.AdminSession
  | CallBatch _ => Dashboard.AdminSession
  | CallUpdate _ _ => Dashboard.AdminSession
  | CallBlock _ => Dashboard.AdminSession
  | CallUnblock _ => Dashboard.AdminSession
  | CallDelete _ => Dashboard.AdminSession
  | CallAssign _ _ => Dashboard.AdminSession
  | CallUnassign _ => Dashboard.AdminSession
  | CallAssignTeam _ _ => Dashboard.AdminSession
  | CallUnassignTeam _ => Dashboard.AdminSession
  | CallCreateTeam _ _ _ => Dashboard.AdminSession
  | CallUpdateTeam _ _ _ => Dashboard.AdminSession
  | CallDeleteTeam _ => Dashboard.AdminSession
  | CallUpsertPlan _ => Dashboard.AdminSession
  | CallDeletePlan _ => Dashboard.AdminSession
  end.

Definition handle (db : option Stmts) (c : DashCall) st : Dash * Answer :=
  match c with
  | CallCreate secret r => create_key db secret r st
  | CallBatch l => batch_create_keys (negb (is_none db)) l st
  | CallUpdate kh u => update_key db kh u st
  | CallBlock kh => block_key db kh st
  | CallUnblock kh => unblock_key db kh st
  | CallDelete kh => delete_key db kh st
  | CallAssign kh choice => assign_key db kh choice st
  | CallUnassign kh => unassign_key db kh st
  | CallAssignTeam tid n => assign_team_plan db tid n st
  | CallUnassignTeam tid => unassign_team_plan db tid st
  | CallCreateTeam tid alias ms => create_team db tid alias ms st
  | CallUpdateTeam tid alias ms => update_team db tid alias ms st
  | CallDeleteTeam tid => delete_team db tid st
  | CallUpsertPlan p => upsert_plan db p st
  | CallDeletePlan n => delete_plan db n st
  end.
End plans.
End keys.

(** ** Lemmas *)

Section lemmas.
Context {D : Type} `{DecimalOps D}.
Context (hash_token : string -> string) (parse_datetime : string -> option Z).
Implicit Types (r : CreateKeyRequest) (t : KeyTable) (st : Dash (D := D)).

Lemma alias_taken_spec t a except : alias_taken t a except = true <-> exists h k, t !! h = Some k /\ row_alias k = Some a /\ except <> Some h.
Proof.
  unfold alias_taken. rewrite existsb_exists. split.
  - intros ([h k] & Hin & [Ha%bool_decide_eq_true Hx%negb_true_iff%bool_decide_eq_false]%andb_true_iff). exists h, k.
    split_and!; [by apply elem_of_map_to_list, list_elem_of_In | done | done].
  - intros (h & k & Hk & Ha & Hx). exists (h, k). split; [by apply list_elem_of_In, elem_of_map_to_list |]. cbn.
    by rewrite bool_decide_eq_true_2, bool_decide_eq_false_2.
Qed.

(** The validation of [create_key] is that of the other two ways. *)
Lemma validate_spec r : validate_prefix_and_tag r = None <-> bad_prefix (cr_key_prefix r) = false /\ bad_tag (cr_tag r) = false.
Proof. unfold validate_prefix_and_tag. destruct (bad_prefix _), (bad_tag _); naive_solver. Qed.

Lemma insert_row_spec ok k t t' : insert_row ok k t = Some t' <-> ok = true /\ t !! token (kr_token k) = None /\ t' = <[token (kr_token k) := k]> t.
Proof. unfold insert_row. destruct ok, (t !! _); naive_solver. Qed.

(** The single creation and the ones of a list do the same. *)
Lemma create_cases (ok : Stmts) secret r st :
  let '(raw, h, p) := generate_key_material hash_token secret (cr_key_prefix r) in
  let row := row_of_request parse_datetime r h p in
  (exists e reason, create_key hash_token parse_datetime (Some ok) secret r st = (st, e) /\ (forall v, reply e <> RJson 200 v)
     /\ insert_single_key hash_token parse_datetime ok secret r st = (st, Skipped (cr_key_alias r) reason)
     /\ (bad_prefix (cr_key_prefix r) = true \/ bad_tag (cr_tag r) = true \/ alias_conflict (ok 0%nat) (key_table st) (cr_key_alias r) = true
         \/ insert_row (ok 1%nat) row (key_table st) = None))
  \/ (bad_prefix (cr_key_prefix r) = false /\ bad_tag (cr_tag r) = false /\ alias_conflict (ok 0%nat) (key_table st) (cr_key_alias r) = false
     /\ ok 1%nat = true /\ key_table st !! h = None
     /\ let st' := set_ds_plans (set_table st (<[h := row]> (key_table st))) (assign_requested (ok 2%nat) (cr_plan_name r) h (ds_plans st)) in
        create_key hash_token parse_datetime (Some ok) secret r st = (st', quiet (RJson 200 (created_value raw h (cr_key_alias r))))
        /\ insert_single_key hash_token parse_datetime ok secret r st = (st', Created raw h (cr_key_alias r))).
Proof.
  destruct (generate_key_material hash_token secret (cr_key_prefix r)) as [[raw h] p] eqn:Eg. cbv zeta. unfold create_key, insert_single_key, validate_prefix_and_tag.
  destruct (bad_prefix (cr_key_prefix r)) eqn:Ep; [left; eexists _, _; split_and!; [done | done | done | by left] |].
  destruct (bad_tag (cr_tag r)) eqn:Et; [left; eexists _, _; split_and!; [done | done | done | by right; left] |].
  rewrite Eg. destruct (alias_conflict _ _ _) eqn:Ea; [left; eexists _, _; split_and!; [done | done | done | by right; right; left] |].
  destruct (insert_row (ok 1%nat) _ (key_table st)) as [t |] eqn:Ei; [| left; eexists _, _; split_and!; [done | done | done | by do 3 right]].
  apply insert_row_spec in Ei as (Ho & Hn & ->). right. done.
Qed.
(** *** The tables and the authentication *)

(** The database that the authentication reads. *)
Definition auth_database st : Database := mkDatabase (fun h => inr (kr_token <$> key_table st !! h)) (fun tid => inr (team_table st !! tid)).

Definition team_list st (team : option string) : list string :=
  match team with Some tid => resolve_team_models (from_option tr_models [] (team_table st !! tid)) | None => [] end.

Lemma identify_models now st tk i : identify now (Some (auth_database st)) tk = inr i -> models i = meant_models (tk_models tk) (team_list st (tk_team_id tk)).
Proof.
  intros (-> & _)%identify_ok. unfold join_team, team_list. cbn [id_team_id token_to_identity]. destruct (tk_team_id tk) as [tid |]; cbn [lookup_team auth_database query_team].
  - destruct (team_table st !! tid) as [row |]; cbn [from_option]; apply expand_meant, resolved_no_proxy.
  - apply expand_meant. cbn. set_solver.
Qed.

Context {C : Type} `{TokenCache C}.

Lemma authenticate_row now master c raw st k :
  master <> Some raw -> (cache_get now c (hash_token raw)).2 = None -> key_table st !! hash_token raw = Some k ->
  (authenticate hash_token now master (Some (auth_database st)) c raw).2 = identify now (Some (auth_database st)) (kr_token k).
Proof.
  intros Hm Hc Hk. unfold authenticate. destruct (is_master_key master raw) eqn:E; [by apply is_master_key_spec in E |].
  unfold lookup_token. destruct (cache_get now c (hash_token raw)) as [c1 o]. cbn in Hc. subst o. cbn [auth_database query_token]. by rewrite Hk.
Qed.

Lemma authenticate_gone now master c raw st :
  master <> Some raw -> (cache_get now c (hash_token raw)).2 = None -> key_table st !! hash_token raw = None ->
  (authenticate hash_token now master (Some (auth_database st)) c raw).2 = inl (AuthError "Invalid API key").
Proof.
  intros Hm Hc Hk. unfold authenticate. destruct (is_master_key master raw) eqn:E; [by apply is_master_key_spec in E |].
  unfold lookup_token. destruct (cache_get now c (hash_token raw)) as [c1 o]. cbn in Hc. subst o. cbn [auth_database query_token]. by rewrite Hk.
Qed.

(** The plan that a choice of the request means. *)
Definition requested_plan (s : PlanStore.PlanStore D) (choice : option (option string)) : option (PlanStore.RateLimitPlan D) :=
  match choice with
  | None => PlanStore.get_default_plan s
  | Some None => None
  | Some (Some n) =>
    match PlanStore.get_plan s n with
    | Some p => if decide (PlanStore.plan_type p = PlanTeam) then PlanStore.get_default_plan s else Some p
    | None => PlanStore.get_default_plan s
    end
  end.

Lemma written_row {A} (o : option A) : PlanStore.upsert_outcome (PlanTable.rows_affected o) true None = inr tt.
Proof. unfold PlanStore.upsert_outcome, PlanTable.rows_affected. destruct o; done. Qed.
Lemma not_written : PlanStore.upsert_outcome None true None = inl "DB error".
Proof. done. Qed.

Lemma assigned_plan s n kh s' res : PlanStore.key_assignments s !! kh = None ->
  (match PlanStore.validate_plan_for_key s n kh with inl e => (s, inl e) | inr _ => (PlanStore.apply_key_assignment s kh n, inr tt) end) = (s', res) ->
  PlanCharge.resolve_key_plan s' kh = requested_plan s (Some (Some n)).
Proof.
  intros Hn. unfold PlanStore.validate_plan_for_key, requested_plan, PlanStore.get_plan, PlanCharge.resolve_key_plan, PlanStore.get_plan_name_explicit.
  destruct (PlanStore.plans s !! n) as [p |] eqn:Ep; [| intros [= <- <-]; by rewrite Hn].
  destruct (decide (PlanStore.plan_type p = PlanTeam)) as [Ht | Ht]; intros [= <- <-]; [by rewrite Hn |].
  cbn [PlanStore.apply_key_assignment PlanStore.set_keys PlanStore.key_assignments PlanStore.get_plan PlanStore.plans]. rewrite lookup_insert_eq.
  unfold PlanStore.get_plan, PlanStore.apply_key_assignment, PlanStore.set_keys. cbn. rewrite Ep. by rewrite decide_False.
Qed.

Lemma assign_requested_plan choice kh (x : PlanTable.PlanDb * PlanStore.PlanStore D) : PlanStore.key_assignments x.2 !! kh = None ->
  PlanCharge.resolve_key_plan (assign_requested true choice kh x).2 kh = requested_plan x.2 choice.
Proof.
  destruct x as [db s]. cbn [snd]. intros Hn. unfold assign_requested. destruct choice as [[n |] |].
  - case_bool_decide.
    + cbn [snd fst]. destruct (PlanStore.assign_key s kh n) as [s' res] eqn:E. by apply (assigned_plan _ _ _ _ res Hn).
    + unfold assign_db. destruct (PlanStore.assign_key_db _ _ _ _ _ _) as [s' res] eqn:E. unfold PlanStore.assign_key_db in E. rewrite written_row in E.
      destruct res; cbn [fst snd]; by eapply assigned_plan.
  - unfold assign_no_plan_db, PlanStore.assign_key_no_plan_db, PlanTable.rows_affected. rewrite andb_false_r. cbn.
    unfold PlanCharge.resolve_key_plan, PlanStore.get_plan_name_explicit. cbn. by rewrite lookup_insert_eq.
  - unfold PlanCharge.resolve_key_plan, PlanStore.get_plan_name_explicit. cbn. by rewrite Hn.
Qed.
End lemmas.
(** ** Properties *)

Section properties.
Context {D : Type} `{DecimalOps D}.
Context (hash_token : string -> string) (parse_datetime : string -> option Z).
Implicit Types (r : CreateKeyRequest) (t : KeyTable) (st : Dash (D := D)).

Lemma generated_hash secret p raw h q : generate_key_material hash_token secret p = (raw, h, q) -> h = hash_token raw.
Proof. unfold generate_key_material. destruct p as [p |]; [destruct (is_valid_prefix p) |]; by intros [= <- <- _]. Qed.

Section authenticated.
Context {C : Type} `{TokenCache C}.

(** C26: a created key is the one that was asked for.  The key that the reply shows
    authenticates at once, unless its date has passed or its budget is not positive; a date
    that cannot be read is no date, so such a key never expires.  It may call the models of
    the request, as the names in the list mean them, and its requests are counted against
    the plan that was asked for, the default plan when there is no such plan for keys. *)
Theorem created_key_authenticates now master c (ok : Stmts) secret r st raw h p :
  generate_key_material hash_token secret (cr_key_prefix r) = (raw, h, p) -> (forall n, ok n = true) ->
  bad_prefix (cr_key_prefix r) = false -> bad_tag (cr_tag r) = false -> alias_conflict true (key_table st) (cr_key_alias r) = false ->
  key_table st !! h = None -> PlanStore.key_assignments (ds_plans st).2 !! h = None -> master <> Some raw -> (cache_get now c h).2 = None ->
  exists st', create_key hash_token parse_datetime (Some ok) secret r st = (st', quiet (RJson 200 (created_value raw h (cr_key_alias r))))
  /\ ((exists i, (authenticate hash_token now master (Some (auth_database st')) c raw).2 = inr i)
      <-> (forall e, cr_expires r ≫= parse_datetime = Some e -> now <= e) /\ (forall b, cr_max_budget r = Some b -> f64_le b (f64_of 0) = false))
  /\ (forall i, (authenticate hash_token now master (Some (auth_database st')) c raw).2 = inr i ->
        id_key_hash i = h /\ models i = meant_models (models_list (default [] (cr_models r))) (team_list st (cr_team_id r)))
  /\ PlanCharge.resolve_key_plan (ds_plans st').2 h = requested_plan (ds_plans st).2 (cr_plan_name r).
Proof.
  intros Eg Hok Hp Ht Ha Hh Hk Hm Hc. pose proof (create_cases hash_token parse_datetime ok secret r st) as Hcr. rewrite Eg in Hcr. cbv zeta in Hcr.
  pose proof (generated_hash _ _ _ _ _ Eg) as ->.
  destruct Hcr as [(e & reason & _ & _ & _ & Hbad) | (_ & _ & _ & _ & _ & E & _)].
  { exfalso. rewrite !Hok, Hp, Ht, Ha in Hbad. unfold insert_row in Hbad. cbn [row_of_request kr_token token] in Hbad. rewrite Hh in Hbad. naive_solver. }
  rewrite !Hok in E. eexists. split; [exact E |]. clear E. set (st' := set_ds_plans _ _).
  assert (key_table st' !! hash_token raw = Some (row_of_request parse_datetime r (hash_token raw) p)) as Hrow by apply lookup_insert_eq.
  rewrite (authenticate_row hash_token now master c raw st' _ Hm Hc Hrow). split_and!.
  - rewrite identify_usable. unfold usable, row_of_request. cbn. naive_solver.
  - intros i Hi. split; [| apply identify_models in Hi; rewrite Hi; reflexivity].
    apply identify_ok in Hi as (-> & _). by destruct (join_expand (Some (auth_database st')) (token_to_identity (kr_token (row_of_request parse_datetime r (hash_token raw) p)))) as (-> & _).
  - by apply assign_requested_plan.
Qed.
End authenticated.

(** *** The deletion of a key *)

Section deleted.
Context {C : Type} `{TokenCacheLaws C}.

(** A deleted key goes on, and without its plan.  The deletion removes the row, the
    assignment and the counters; but a key that the cache holds is still authenticated (as
    long as it is used), and its requests are now counted from zero, against the default
    plan or none.  Only when the cache has forgotten the key is it refused. *)
Theorem deleted_key_served now master c (t0 : Z) (ok : Stmts) raw st k n :
  let h := hash_token raw in
  (forall i, ok i = true) -> key_table st !! h = Some k -> PlanTable.key_rows (ds_plans st).1 !! h = Some n -> master <> Some raw ->
  let st' := (delete_key (Some ok) h st).1 in
  key_table st' !! h = None /\ PlanTable.key_rows (ds_plans st').1 !! h = None
  /\ (forall kind, SlidingWindow.counter (ds_limiter st') (SlidingWindow.ScopeKey h) kind = 0)
  /\ PlanCharge.resolve_key_plan (ds_plans st').2 h = PlanStore.get_default_plan (ds_plans st).2
  /\ (cached c h (kr_token k) t0 -> t0 <= now < t0 + idle_micros -> usable now (kr_token k) ->
        exists i, (authenticate hash_token now master (Some (auth_database st')) c raw).2 = inr i)
  /\ ((cache_get now c h).2 = None -> (authenticate hash_token now master (Some (auth_database st')) c raw).2 = inl (AuthError "Invalid API key")).
Proof.
  cbv zeta. set (h := hash_token raw). intros Hok Hk Hn Hm. unfold delete_key. rewrite !Hok. cbn [row_answer set_limiter set_ds_plans key_table ds_limiter ds_plans].
  rewrite bool_decide_eq_true_2 by (by eexists). cbn [fst set_table key_table ds_plans ds_limiter team_table].
  unfold unassign_db. destruct (ds_plans st) as [db s] eqn:Ed. cbn [fst snd] in *. rewrite Hn. cbn [PlanTable.rows_affected PlanStore.unassign_key_db Z.ltb Z.compare fst snd].
  match goal with |- context [auth_database ?s] => set (st' := s) end.
  assert (key_table st' !! h = None) as Hgone by apply lookup_delete_eq. split_and!.
  - exact Hgone.
  - cbn. apply lookup_delete_eq.
  - intros kind. unfold st'. cbn [ds_limiter set_ds_plans set_limiter]. unfold SlidingWindow.clear_key_all. destruct (SlidingWindow.reset_cumulative_local _ _) as [l1 prev] eqn:E.
    apply SlidingWindow.reset_cumulative_spec in E as (_ & _ & E). destruct (SlidingWindow.clear_for_key l1 h) as [l2 z] eqn:E2. cbn [fst].
    assert (SlidingWindow.counter l2 (SlidingWindow.ScopeKey h) kind = SlidingWindow.counter l1 (SlidingWindow.ScopeKey h) kind) as ->; [| by rewrite E, bool_decide_eq_true_2].
    unfold SlidingWindow.clear_for_key in E2. by injection E2 as <- _.
  - cbn. unfold PlanCharge.resolve_key_plan, PlanStore.get_plan_name_explicit. cbn. by rewrite lookup_delete_eq.
  - intros Hc Hnow Hu. destruct (get_used c h (kr_token k) t0 now Hc Hnow) as [Hget _]. apply (identify_usable now (Some (auth_database st'))) in Hu as [i Hi]. exists i.
    unfold authenticate. destruct (is_master_key master raw) eqn:E; [by apply is_master_key_spec in E |].
    unfold lookup_token. fold h. destruct (cache_get now c h) as [c1 o]. cbn in Hget. by subst o.
  - intros Hc. by apply authenticate_gone.
Qed.
End deleted.
(** *** One creation and many *)

(** A key is created in the same way alone, in a list, and from a file.  The tables
    afterwards are the same, and the single creation answers 200 with a key exactly when
    the other counts the same key as created. *)
Theorem create_is_insert (ok : Stmts) secret r st :
  (create_key hash_token parse_datetime (Some ok) secret r st).1 = (insert_single_key hash_token parse_datetime ok secret r st).1
  /\ forall raw h, (exists v, reply (create_key hash_token parse_datetime (Some ok) secret r st).2 = RJson 200 v /\ v = created_value raw h (cr_key_alias r))
               <-> (insert_single_key hash_token parse_datetime ok secret r st).2 = Created raw h (cr_key_alias r).
Proof.
  pose proof (create_cases hash_token parse_datetime ok secret r st) as Hcr. destruct (generate_key_material _ _ _) as [[raw h] p]. cbv zeta in Hcr.
  destruct Hcr as [(e & reason & -> & He & -> & _) | (_ & _ & _ & _ & _ & -> & ->)]; cbn; split; try done.
  - intros raw' h'. split; [intros (v & E & _); by destruct (He v) | done].
  - intros raw' h'. unfold created_value. split; [intros (v & [= <-] & [= -> ->]); done | intros [= -> ->]; by eexists].
Qed.

(** *** What the handlers do to the table of keys *)

(** [checked]: the queries for the alias succeed; [del]: the keys that may be deleted. *)
Inductive table_step (checked : Prop) (del : string -> Prop) t : KeyTable -> Prop :=
| ts_insert (chk : bool) r h p : (checked -> chk = true) -> t !! h = None -> alias_conflict chk t (cr_key_alias r) = false ->
    table_step checked del t (<[h := row_of_request parse_datetime r h p]> t)
| ts_update (chk : bool) u h k : (checked -> chk = true) -> t !! h = Some k -> update_conflict chk t h (up_key_alias u) = false ->
    table_step checked del t (<[h := update_row parse_datetime u k]> t)
| ts_block b h k : t !! h = Some k -> table_step checked del t (<[h := with_blocked b k]> t)
| ts_delete h : del h -> table_step checked del t (delete h t).

Definition alias_checked (c : DashCall (D := D)) (ok : Stmts) : Prop :=
  match c with CallCreate _ _ | CallUpdate _ _ => ok 0%nat = true | CallBatch l => Forall (fun x => x.1.2 0%nat = true) l | _ => True end.

Lemma row_answer_table checked del st o : (forall t b, o = Some (t, b) -> b = true -> rtc (table_step checked del) (key_table st) t) ->
  rtc (table_step checked del) (key_table st) (key_table (row_answer st o).1).
Proof. intros Ho. destruct o as [[t []] |]; cbn; [by apply (Ho t true) | apply rtc_refl | apply rtc_refl]. Qed.

Lemma insert_single_step checked del ok secret r st : (checked -> ok 0%nat = true) ->
  rtc (table_step checked del) (key_table st) (key_table (insert_single_key hash_token parse_datetime ok secret r st).1).
Proof.
  intros Hc. pose proof (create_cases hash_token parse_datetime ok secret r st) as Hcr. destruct (generate_key_material _ _ _) as [[raw h] p]. cbv zeta in Hcr.
  destruct Hcr as [(e & reason & _ & _ & -> & _) | (_ & _ & Ha & _ & Hn & _ & ->)]; [apply rtc_refl |]. apply rtc_once. by eapply ts_insert.
Qed.

Lemma insert_all_step checked del l st : (checked -> Forall (fun x : string * Stmts * CreateKeyRequest => x.1.2 0%nat = true) l) ->
  rtc (table_step checked del) (key_table st) (key_table (insert_all hash_token parse_datetime l st).1).
Proof.
  revert st. induction l as [| [[secret ok] r] l IH]; intros st Hc; [apply rtc_refl |]. cbn [insert_all].
  pose proof (insert_single_step checked del ok secret r st) as H1. destruct (insert_single_key _ _ _ _ _ _) as [st1 o].
  specialize (IH st1). destruct (insert_all _ _ l st1) as [st2 os]. cbn in *.
  transitivity (key_table st1); [apply H1 | apply IH]; intros Hk; by apply Hc, Forall_cons in Hk as [? ?].
Qed.

Section handled.
Context `{DecimalText D} (ser_decimal : D -> Value).

Lemma handle_table checked db c st :
  (checked -> forall ok, db = Some ok -> alias_checked c ok) ->
  rtc (table_step checked (fun h => c = CallDelete h)) (key_table st) (key_table (handle hash_token parse_datetime ser_decimal db c st).1).
Proof.
  intros Hc. destruct c as [secret r | l | kh u | kh | kh | kh | kh choice | kh | tid n | tid | tid alias ms | tid alias ms | tid | p | n]; cbn [handle].
  - destruct db as [ok |]; [| apply rtc_refl]. destruct (create_is_insert ok secret r st) as [-> _]. apply insert_single_step. naive_solver.
  - destruct db as [ok |]; [| apply rtc_refl]. cbn. pose proof (insert_all_step checked (fun h => CallBatch (D := D) l = CallDelete h) l st) as Hi.
    destruct (insert_all _ _ l st) as [st1 os]. apply Hi. naive_solver.
  - destruct db as [ok |]; [| apply rtc_refl]. cbn [update_key]. destruct (update_conflict _ _ _ _) eqn:E; [apply rtc_refl |].
    destruct (bad_tag _); [apply rtc_refl |]. destruct (team_missing _ _ _); [apply rtc_refl |]. apply row_answer_table. intros t b. unfold update_where.
    destruct (ok 2%nat); [| done]. destruct (key_table st !! kh) eqn:Ek; intros [= <- <-]; [| done]. intros _. apply rtc_once. eapply ts_update; [| done | exact E]. naive_solver.
  - destruct db as [ok |]; [| apply rtc_refl]. apply row_answer_table. intros t b. unfold update_where. destruct (ok 0%nat); [| done].
    destruct (key_table st !! kh) eqn:Ek; intros [= <- <-]; [| done]. intros _. by apply rtc_once, ts_block.
  - destruct db as [ok |]; [| apply rtc_refl]. apply row_answer_table. intros t b. unfold update_where. destruct (ok 0%nat); [| done].
    destruct (key_table st !! kh) eqn:Ek; intros [= <- <-]; [| done]. intros _. by apply rtc_once, ts_block.
  - destruct db as [ok |]; [| apply rtc_refl]. cbn [delete_key].
    match goal with |- context [row_answer ?s _] => change (key_table st) with (key_table s) at 1 end. apply row_answer_table. intros t b. destruct (ok 3%nat); intros [= <- _]. intros _.
    by apply rtc_once, ts_delete.
  - unfold assign_key. destruct choice as [[n |] |]; [| | apply rtc_refl]; destruct db as [ok |]; repeat case_match; apply rtc_refl.
  - unfold unassign_key. destruct db as [ok |]; repeat case_match; apply rtc_refl.
  - unfold assign_team_plan. destruct db as [ok |]; repeat case_match; apply rtc_refl.
  - unfold unassign_team_plan. destruct db as [ok |]; repeat case_match; apply rtc_refl.
  - unfold create_team. repeat case_match; apply rtc_refl.
  - unfold update_team. repeat case_match; apply rtc_refl.
  - unfold delete_team. cbv zeta. repeat case_match; apply rtc_refl.
  - unfold upsert_plan. repeat case_match; apply rtc_refl.
  - unfold delete_plan. repeat case_match; apply rtc_refl.
Qed.

(** *** Aliases *)

Definition unique_aliases t : Prop :=
  forall h1 h2 k1 k2 a, t !! h1 = Some k1 -> t !! h2 = Some k2 -> row_alias k1 = Some a -> row_alias k2 = Some a -> a <> "" -> h1 = h2.

Lemma unique_insert t h k : unique_aliases t -> (forall a, row_alias k = Some a -> a <> "" -> forall h' k', h' <> h -> t !! h' = Some k' -> row_alias k' <> Some a) ->
  unique_aliases (<[h := k]> t).
Proof.
  intros Hu Hk h1 h2 k1 k2 a H1 H2 A1 A2 Ha. apply lookup_insert_Some in H1 as [[<- <-] | [N1 H1]], H2 as [[<- <-] | [N2 H2]]; [done | | |].
  - exfalso. by eapply (Hk a A1 Ha h2).
  - exfalso. by eapply (Hk a A2 Ha h1).
  - by eapply Hu.
Qed.

Lemma step_unique (checked : Prop) del t t' : checked -> table_step checked del t t' -> unique_aliases t -> unique_aliases t'.
Proof.
  intros Hck Hs Hu. assert (forall h k k', t !! h = Some k -> row_alias k' = row_alias k -> unique_aliases (<[h := k']> t)) as Hsame.
  { intros h k k' Hk Ea. apply unique_insert; [done |]. intros a A Ha h' k2 Hne Hk2 A2. apply Hne. apply (Hu h' h k2 k a); congruence. }
  destruct Hs as [chk r h p Hc Hn Ha | chk u h k Hc Hk Ha | b h k Hk | h _].
  - apply unique_insert; [done |]. intros a A Hne h' k' _ Hk' A'. cbn in A. unfold alias_conflict in Ha. rewrite A, (Hc Hck) in Ha. cbn in Ha.
    assert (alias_taken t a None = true); [| congruence]. apply alias_taken_spec. by exists h', k'.
  - destruct (up_key_alias u) as [a0 |] eqn:Eu; [| apply (Hsame h k); [done | unfold row_alias, update_row; cbn; by rewrite Eu]].
    apply unique_insert; [done |]. unfold row_alias at 1, update_row. cbn. rewrite Eu. cbn. intros a [= <-] Hne h' k' Hh Hk' A'. unfold update_conflict in Ha.
    rewrite bool_decide_eq_false_2, (Hc Hck) in Ha by done. cbn in Ha. assert (alias_taken t a0 (Some h) = true); [| congruence]. apply alias_taken_spec. exists h', k'. naive_solver.
  - by apply (Hsame h k).
  - intros h1 h2 k1 k2 a H1 H2. apply lookup_delete_Some in H1 as [_ H1], H2 as [_ H2]. by apply (Hu h1 h2 k1 k2 a).
Qed.

Lemma steps_unique (checked : Prop) del t t' : checked -> rtc (table_step checked del) t t' -> unique_aliases t -> unique_aliases t'.
Proof. intros Hck Hs. induction Hs as [| t1 t2 t3 Hst _ IH]; [done |]. intros Hu. apply IH. exact (step_unique checked del t1 t2 Hck Hst Hu). Qed.

(** A call of a handler. *)
Inductive dash_step (good : DashCall (D := D) -> Stmts -> Prop) st : Dash -> Prop :=
| ds_call c ok : good c ok -> dash_step good st (handle hash_token parse_datetime ser_decimal (Some ok) c st).1.

(** Aliases stay unique.  Whatever the administrator does, alone or in lists and in any
    order, no two keys get the same alias (the empty one apart) while the queries that look
    for it succeed.  A query that fails lets the second key take the alias of the first. *)
Theorem aliases_stay_unique st st' :
  rtc (dash_step alias_checked) st st' -> unique_aliases (key_table st) ->
  unique_aliases (key_table st')
  /\ forall secret r h k raw p a, generate_key_material hash_token secret (cr_key_prefix r) = (raw, h, p) ->
       bad_prefix (cr_key_prefix r) = false -> bad_tag (cr_tag r) = false -> cr_key_alias r = Some a -> a <> "" ->
       key_table st' !! h = None -> key_table st' !! k <> None -> row_alias <$> key_table st' !! k = Some (Some a) ->
       ~ unique_aliases (key_table (create_key hash_token parse_datetime (Some (failing 0)) secret r st').1).
Proof.
  intros Hrun Hu. split.
  - revert Hu. induction Hrun as [| st st1 st2 [c ok Hg] _ IH]; [done |]. intros Hu. apply IH. clear IH.
    pose proof (handle_table True (Some ok) c st) as Hs. generalize dependent (handle hash_token parse_datetime ser_decimal (Some ok) c st). intros [st3 a] Hs. cbn in *.
    apply (steps_unique _ _ _ _ I (Hs ltac:(naive_solver)) Hu).
  - intros secret r h k raw p a Eg Hp Ht Ha Hne Hh Hk Ek Hun. pose proof (create_cases hash_token parse_datetime (failing 0) secret r st') as Hcr.
    rewrite Eg in Hcr. cbv zeta in Hcr. destruct (key_table st' !! k) as [kr |] eqn:E; [| done]. cbn in Ek. injection Ek as Ek.
    destruct Hcr as [(e & reason & _ & _ & _ & Hbad) | (_ & _ & _ & _ & _ & Ec & _)].
    + rewrite Hp, Ht, Ha in Hbad. unfold insert_row in Hbad. cbn in Hbad. rewrite Hh in Hbad. naive_solver.
    + rewrite Ec in Hun. cbn in Hun. assert (h <> k) as Hhk by (intros ->; congruence).
      apply Hhk, (Hun h k (row_of_request parse_datetime r h p) kr a); [apply lookup_insert_eq | by rewrite lookup_insert_ne | exact Ha | exact Ek | exact Hne].
Qed.

(** *** Limits *)

(** What the first row has, the second has too. *)
Definition keeps (k k' : KeyRow) : Prop :=
  let has {A} (f : VerificationToken -> option A) := is_Some (f (kr_token k)) -> is_Some (f (kr_token k')) in
  has tk_max_budget /\ has tk_rpm_limit /\ has tk_tpm_limit /\ has expires /\ has tk_key_alias /\ has tk_user_id.

Lemma keeps_refl k : keeps k k.
Proof. unfold keeps. naive_solver. Qed.
Lemma keeps_trans k1 k2 k3 : keeps k1 k2 -> keeps k2 k3 -> keeps k1 k3.
Proof. unfold keeps. naive_solver. Qed.
Lemma coalesce_some {A} (n o : option A) : is_Some o -> is_Some (coalesce n o).
Proof. destruct n; [by eexists | done]. Qed.

Lemma step_keeps checked del t t' h k : table_step checked del t t' -> ~ del h -> t !! h = Some k -> exists k', t' !! h = Some k' /\ keeps k k'.
Proof.
  intros Hs Hd Hk. destruct Hs as [chk r h0 p _ Hn _ | chk u h0 k0 _ Hk0 _ | b h0 k0 Hk0 | h0 Hd0]; destruct (decide (h = h0)) as [<- | Hne];
    try (rewrite Hk in Hk0; injection Hk0 as <-); try congruence; try (exists k; split; [by rewrite lookup_insert_ne | apply keeps_refl]).
  - rewrite lookup_insert_eq. eexists. split; [done |]. unfold keeps, update_row. cbn. split_and!; apply coalesce_some.
  - rewrite lookup_insert_eq. eexists. split; [done |]. unfold keeps, with_blocked; cbn; naive_solver.
  - exists k. split; [by rewrite lookup_delete_ne | apply keeps_refl].
Qed.

Lemma steps_keep checked del t t' h k : rtc (table_step checked del) t t' -> ~ del h -> t !! h = Some k -> exists k', t' !! h = Some k' /\ keeps k k'.
Proof.
  intros Hs Hd. revert k. induction Hs as [| t1 t2 t3 Hst _ IH]; intros k Hk; [exists k; split; [done | apply keeps_refl] |].
  destruct (step_keeps _ _ _ _ h k Hst Hd Hk) as (k2 & Hk2 & K2). destruct (IH k2 Hk2) as (k3 & Hk3 & K3). exists k3. split; [done | by eapply keeps_trans].
Qed.

(** A limit of a key can be changed and never removed.  Whatever the administrator does
    short of deleting it, a key that has a budget, a limit of requests or tokens, a date of
    expiry, an alias or a user keeps having one: an absent field leaves the column, and so
    does [null], and a date that cannot be read. *)
Theorem limits_never_cleared st st' h k :
  rtc (dash_step (fun c _ => c <> CallDelete h)) st st' -> key_table st !! h = Some k -> exists k', key_table st' !! h = Some k' /\ keeps k k'.
Proof.
  intros Hrun. revert k. induction Hrun as [| st st1 st2 [c ok Hg] _ IH]; intros k Hk; [exists k; split; [done | apply keeps_refl] |].
  destruct (steps_keep _ _ _ _ h k (handle_table False (Some ok) c st ltac:(done)) Hg Hk) as (k1 & Hk1 & K1).
  destruct (IH k1 Hk1) as (k2 & Hk2 & K2). exists k2. split; [done | by eapply keeps_trans].
Qed.
End handled.

(** *** Requests with a session *)

Section served.
Context `{DecimalText D} (ser_decimal : D -> Value) `{Dashboard.JwtLaws}.

(** A request: the session that its handler asks for comes first. *)
Definition serve (clock : Z) (s : Dashboard.DashboardState) (cookies : list string) (db : option Stmts) (c : DashCall (D := D)) st : Dash * Answer :=
  match Dashboard.extracted (extractor c) clock s cookies with
  | inl (status, text) => (st, quiet (RText status text))
  | inr _ => handle hash_token parse_datetime ser_decimal db c st
  end.

(** Logins and requests, in any order.  A login has what the queries of keys give at its
    time; a request has the texts of its cookie headers. *)
Inductive Event :=
| EvLogin (now clock : Z) (query : option (string -> Core.GatewayError + option Dashboard.KeyRow)) (header : string -> option string) (body : Dashboard.LoginBody)
| EvCall (clock : Z) (cookies : list string) (db : option Stmts) (c : DashCall (D := D)).

(** The tokens that the logins gave: when, for what, and the token. *)
Record Grant := mkGrant { gr_clock : Z; gr_body : Dashboard.LoginBody; gr_token : string }.
Record System := mkSystem { sys_sessions : Dashboard.DashboardState; sys_tables : Dash (D := D); sys_grants : list Grant }.

Definition with_query (s : Dashboard.DashboardState) query := Dashboard.mkDashboard query (Dashboard.jwt_secret s) (Dashboard.master_key s) (Dashboard.login_attempts s).

Definition event_step (x : System) (e : Event) : System :=
  match e with
  | EvLogin now clock query header body =>
    match Dashboard.login hash_token now clock (with_query (sys_sessions x) query) header body with
    | (s, Dashboard.Session t _ _) => mkSystem s (sys_tables x) (mkGrant clock body t :: sys_grants x)
    | (s, Dashboard.LoginError _ _) => mkSystem s (sys_tables x) (sys_grants x)
    end
  | EvCall clock cookies db c => mkSystem (sys_sessions x) (serve clock (sys_sessions x) cookies db c (sys_tables x)).1 (sys_grants x)
  end.
Definition run_events (l : list Event) (x : System) : System := foldl event_step x l.

(** A token that a login gave is verified as the claims of who logged in. *)
Definition grant_ok (secret m : string) (g : Grant) : Prop :=
  exists c, Dashboard.encode secret c = Some (gr_token g) /\ Dashboard.exp c = gr_clock g + Dashboard.SESSION_DURATION_SECS
    /\ (Dashboard.role c = "admin" <-> gr_body g = Dashboard.Login "admin" m).

Lemma grants_ok l s st m : Dashboard.master_key s = Some m ->
  let x := run_events l (mkSystem s st []) in
  Dashboard.jwt_secret (sys_sessions x) = Dashboard.jwt_secret s /\ Dashboard.master_key (sys_sessions x) = Some m /\ Forall (grant_ok (Dashboard.jwt_secret s) m) (sys_grants x).
Proof.
  intros Hm. cbv zeta. unfold run_events. induction l as [| e l IH] using rev_ind; [done |]. rewrite foldl_app. cbn [foldl].
  destruct (foldl event_step _ l) as [s1 st1 gs]. cbn [sys_sessions sys_grants] in IH. destruct IH as (Ej & Em & Hg).
  destruct e as [now clock query header body | clock cookies db c]; cbn [event_step sys_sessions sys_tables sys_grants]; [| done].
  pose proof (Dashboard.login_keeps hash_token now clock (with_query s1 query) header body) as [Kj Km].
  destruct (Dashboard.login _ _ _ _ _ _) as [s2 [status text | t c k]] eqn:El; cbn [fst sys_sessions sys_grants] in *; rewrite Kj, Km; cbn; [done |].
  split; [done |]. split; [done |]. constructor; [| done].
  destruct (Dashboard.session_admitted hash_token _ _ _ _ _ _ _ _ _ El) as (Ha & Ex & _ & He). exists c. cbn [with_query Dashboard.jwt_secret] in He. rewrite <- Ej.
  split; [done |]. split; [done |]. cbn [gr_body]. destruct Ha as [(key & -> & Ek & -> & _) | (user & key & q & r & -> & Hu & _ & _ & _ & -> & _)].
  - cbn in Ek. rewrite Em in Ek. injection Ek as ->. done.
  - split; [done |]. intros [= -> _]. by destruct Hu.
Qed.

(** The request has the token of a login as the administrator, with the master key, of the
    last two hours and a minute. *)
Definition of_administrator (m : string) (clock : Z) (cookies : list string) (x : System) : Prop :=
  exists g, g ∈ sys_grants x /\ gr_body g = Dashboard.Login "admin" m /\ Dashboard.session_token cookies = Some (gr_token g)
    /\ clock <= gr_clock g + Dashboard.SESSION_DURATION_SECS + Dashboard.leeway.

(** C27: who manages the keys.  The server runs with a master key, and logins and requests
    come in any order, with any cookies, as long as nobody else signs: a token that is
    verified is one that a login gave.  Then a request to create, edit, block or delete a
    key, a team, a plan or an assignment is handled when its first session cookie has the
    token of a login as the administrator with the master key, from two hours and a minute
    before it on.  Every other request (no cookie, a forged or old one, the one of a user) is answered
    401 or 403, and changes nothing. *)
Theorem session_manages_keys l s st m clock cookies db call :
  Dashboard.master_key s = Some m ->
  let x := run_events l (mkSystem s st []) in
  (forall tok c, Dashboard.session_token cookies = Some tok -> Dashboard.decode clock (Dashboard.jwt_secret s) tok = Some c -> tok ∈ gr_token <$> sys_grants x) ->
  let r := serve clock (sys_sessions x) cookies db call (sys_tables x) in
  (of_administrator m clock cookies x -> r = handle hash_token parse_datetime ser_decimal db call (sys_tables x))
  /\ (~ of_administrator m clock cookies x -> exists status text, r = (sys_tables x, quiet (RText status text)) /\ (status = 401 \/ status = 403)).
Proof.
  intros Hm x Hsigned r. destruct (grants_ok l s st m Hm) as (Ej & _ & Hg). fold x in Ej, Hg. rewrite Forall_forall in Hg. subst r. unfold serve.
  replace (extractor call) with Dashboard.AdminSession by by destruct call. cbn [Dashboard.extracted]. unfold Dashboard.admin_session, Dashboard.extract_session. rewrite Ej. split.
  - intros (g & Hin & Hb & -> & Ht). destruct (Hg g Hin) as (c & He & Ex & Hr). rewrite (Dashboard.encode_decode _ _ _ clock He), Ex.
    destruct (Z.leb_spec clock (gr_clock g + Dashboard.SESSION_DURATION_SECS + Dashboard.leeway)); [| lia]. by rewrite bool_decide_eq_true_2 by by apply Hr.
  - intros Hno. destruct (Dashboard.session_token cookies) as [t |] eqn:Et; [| eexists _, _; by split; [| left]].
    destruct (Dashboard.decode _ _ _) as [c |] eqn:Ed; [| eexists _, _; by split; [| left]].
    apply (Hsigned _ _ eq_refl) in Ed as Hin. apply list_elem_of_fmap in Hin as (g & -> & Hin). destruct (Hg g Hin) as (c' & He & Ex & Hr).
    rewrite (Dashboard.encode_decode _ _ _ clock He), Ex in Ed. destruct (Z.leb_spec clock (gr_clock g + Dashboard.SESSION_DURATION_SECS + Dashboard.leeway)); [| done].
    injection Ed as ->. rewrite bool_decide_eq_false_2; [eexists _, _; by split; [| right] |]. intros Ha%Hr. apply Hno. by exists g.
Qed.
End served.

(** *** Teams *)

Lemma members_spec tid t h : h ∈ members tid t <-> exists k, t !! h = Some k /\ tk_team_id (kr_token k) = Some tid.
Proof.
  unfold members. rewrite list_elem_of_fmap. split.
  - intros ([h' k] & -> & [Hk Hin]%list_elem_of_filter). exists k. split; [by apply elem_of_map_to_list in Hin | done].
  - intros (k & Hk & Ht). exists (h, k). split; [done |]. apply list_elem_of_filter. split; [done | by apply elem_of_map_to_list].
Qed.

(** The deletion of a team opens its keys to every model when the count of its keys
    fails.  A team with keys is refused; but a count that fails counts as none, and then a
    key whose list names the team's models, or that has no list, may call every model. *)
Theorem deleted_team_opens_models now (ok : Stmts) st tid h k i :
  key_table st !! h = Some k -> tk_team_id (kr_token k) = Some tid -> is_Some (team_table st !! tid) ->
  (ok 0%nat = true -> exists text, delete_team (Some ok) tid st = (st, quiet (RText 409 text)))
  /\ (ok 0%nat = false -> ok 1%nat = true -> (tk_models (kr_token k) = [] \/ tk_models (kr_token k) = ["all-team-models"]) ->
        identify now (Some (auth_database (delete_team (Some ok) tid st).1)) (kr_token k) = inr i -> forall m, can_call_model i m = true).
Proof.
  intros Hk Ht [row Hrow]. unfold delete_team. split.
  - intros ->. assert (h ∈ members tid (key_table st)) as Hin by (apply members_spec; eauto).
    destruct (members tid (key_table st)) as [| h0 l]; [by apply elem_of_nil in Hin |]. cbn [length]. destruct (Z.ltb_spec 0 (Z.of_nat (S (length l)))); [by eexists | lia].
  - intros -> -> Hm. cbn [Z.ltb Z.compare]. rewrite Hrow. cbn [fst]. intros Hi m. apply identify_models in Hi. unfold team_list in Hi. rewrite Ht in Hi.
    cbn [set_team_table team_table] in Hi. rewrite lookup_delete_eq in Hi. cbn in Hi. unfold can_call_model. rewrite Hi. destruct Hm as [-> | ->]; reflexivity.
Qed.
End properties.
(** ** Examples *)

#[local] Existing Instance whole_decimal.
#[local] Existing Instance whole_decimal_text.
#[local] Existing Instance map_cache.
#[local] Existing Instance map_cache_laws.

Definition demo_hash (k : string) : string := "#" +:+ k.
(** The only date that can be read. *)
Definition demo_date (s : string) : option Z := if bool_decide (s = "2026-01-01 00:00:00") then Some 100 else None.
Definition demo_request : CreateKeyRequest := mkCreate (Some "bob") None (Some "prod") None None (Some "t") (Some ["gpt"; "all-team-models"]) None None None None (Some "soon") None (Some (Some "p")).
Definition demo_plan : PlanStore.RateLimitPlan Z := PlanStore.mkRateLimitPlan "p" PlanKey None (Some 1) None None [] None None [].
Definition demo_row (alias : string) : KeyRow :=
  mkKey (mkToken "#sk-1" None (Some alias) (f64_of 0) None [] None (Some "t") None (Some false) None (Some 10) None) None None None.
Definition demo_dash : Dash (D := Z) :=
  mkDash {["#sk-1" := demo_row "alice"]} {["t" := mkTeamRow ["gpt"] None]}
    (PlanTable.mkPlanDb ∅ {["#sk-1" := Some "p"]} ∅, PlanStore.mkPlanStore {["p" := demo_plan]} {["#sk-1" := Some "p"]} ∅ None None) SlidingWindow.new_limiter.
Definition all_succeed : Stmts := fun _ => true.
Notation Cache := (gmap string (VerificationToken * Z)).

Lemma created_key_authenticates_witness :
  exists st', (create_key demo_hash demo_date (Some all_succeed) "5ec" demo_request demo_dash).1 = st'
  /\ exists i, (authenticate demo_hash 200 None (Some (auth_database st')) (∅ : Cache) "sk-prod-5ec").2 = inr i.
Proof.
  destruct (created_key_authenticates demo_hash demo_date (C := Cache) 200 None ∅ all_succeed "5ec" demo_request demo_dash "sk-prod-5ec" "#sk-prod-5ec" (Some "prod"))
    as (st' & E & Hi & _); [reflexivity | reflexivity | reflexivity | reflexivity | vm_compute; reflexivity | vm_compute; reflexivity | vm_compute; reflexivity | discriminate | vm_compute; reflexivity |].
  exists st'. split; [by rewrite E |]. apply Hi. split; [vm_compute; discriminate | discriminate].
Defined.

Lemma deleted_key_served_witness :
  let st' := (delete_key (Some all_succeed) "#sk-1" demo_dash).1 in
  key_table st' !! "#sk-1" = None
  /\ exists i, (authenticate demo_hash 7 None (Some (auth_database st')) (<["#sk-1" := (kr_token (demo_row "alice"), 0)]> (∅ : Cache)) "sk-1").2 = inr i.
Proof.
  destruct (deleted_key_served demo_hash (C := Cache) 7 None (<["#sk-1" := (kr_token (demo_row "alice"), 0)]> ∅) 0 all_succeed "sk-1" demo_dash (demo_row "alice") (Some "p"))
    as (Hg & _ & _ & _ & Hs & _); [reflexivity | vm_compute; reflexivity | vm_compute; reflexivity | discriminate |].
  split; [exact Hg |]. apply Hs; [apply lookup_insert_eq | unfold idle_micros; lia | split_and!; [reflexivity | discriminate | discriminate]].
Defined.

Definition renamed : UpdateKeyRequest := mkUpdate None (Some "carol") None (Some "") None None None None None None (Some "never") None.
Definition after_calls : Dash (D := Z) :=
  (handle demo_hash demo_date PlanTable.ser_whole (Some all_succeed) (CallUpdate "#sk-1" renamed)
     (handle demo_hash demo_date PlanTable.ser_whole (Some all_succeed) (CallCreate "5ec" demo_request) demo_dash).1).1.

Lemma aliases_stay_unique_witness : unique_aliases (key_table after_calls).
Proof.
  apply (aliases_stay_unique demo_hash demo_date PlanTable.ser_whole demo_dash after_calls).
  - eapply rtc_l; [exact (ds_call _ _ _ _ demo_dash (CallCreate "5ec" demo_request) all_succeed eq_refl) |].
    eapply rtc_l; [exact (ds_call _ _ _ _ _ (CallUpdate "#sk-1" renamed) all_succeed eq_refl) | apply rtc_refl].
  - intros h1 h2 k1 k2 a H1 H2. apply (lookup_singleton_Some "#sk-1" h1 (demo_row "alice")) in H1 as [<- _]. by apply (lookup_singleton_Some "#sk-1" h2 (demo_row "alice")) in H2 as [<- _].
Defined.

Lemma limits_never_cleared_witness : exists k', key_table after_calls !! "#sk-1" = Some k' /\ is_Some (tk_rpm_limit (kr_token k')).
Proof.
  destruct (limits_never_cleared demo_hash demo_date PlanTable.ser_whole demo_dash after_calls "#sk-1" (demo_row "alice")) as (k' & Hk & _ & Hr & _); [| vm_compute; reflexivity |].
  - eapply rtc_l; [refine (ds_call _ _ _ _ demo_dash (CallCreate "5ec" demo_request) all_succeed _); discriminate |].
    eapply rtc_l; [refine (ds_call _ _ _ _ _ (CallUpdate "#sk-1" renamed) all_succeed _); discriminate | apply rtc_refl].
  - exists k'. split; [exact Hk | apply Hr; by eexists].
Defined.

Lemma deleted_team_opens_models_witness :
  exists i, identify 0 (Some (auth_database (delete_team (Some (failing 0)) "t" demo_dash).1)) (kr_token (demo_row "alice")) = inr i /\ can_call_model i "any" = true.
Proof.
  eexists. split; [vm_compute; reflexivity |].
  apply (proj2 (deleted_team_opens_models 0 (failing 0) demo_dash "t" "#sk-1" (demo_row "alice") _ eq_refl eq_refl (ex_intro _ _ eq_refl)) eq_refl eq_refl (or_introl eq_refl)).
  vm_compute. reflexivity.
Defined.

#[local] Existing Instance Dashboard.demo_jwt.
#[local] Existing Instance Dashboard.demo_jwt_laws.

(** The administrator logs in and blocks a key; the browser has another cookie too. *)
Definition demo_login : list (Event (D := Z)) := [EvLogin 0 0 None Dashboard.no_header (Dashboard.Login "admin" "m")].
Definition logged_in : System (D := Z) := run_events demo_hash demo_date PlanTable.ser_whole demo_login (mkSystem Dashboard.demo_dashboard demo_dash []).

Lemma session_manages_keys_witness :
  serve demo_hash demo_date PlanTable.ser_whole 7000 (sys_sessions logged_in) ["theme=dark; boom_session=e30.abc"] (Some all_succeed) (CallBlock "#sk-1") demo_dash
  = block_key (Some all_succeed) "#sk-1" demo_dash.
Proof.
  destruct (session_manages_keys demo_hash demo_date PlanTable.ser_whole demo_login Dashboard.demo_dashboard demo_dash "m" 7000 ["theme=dark; boom_session=e30.abc"]
    (Some all_succeed) (CallBlock "#sk-1") eq_refl) as [Hyes _].
  - intros t c Ht _. assert (t = "e30.abc") as -> by (vm_compute in Ht; by injection Ht as <-). vm_compute. left.
  - refine (Hyes _). exists (mkGrant 0 (Dashboard.Login "admin" "m") "e30.abc"). split; [vm_compute; left |]. split; [reflexivity |]. split; vm_compute; [reflexivity | discriminate].
Defined.
End DashKeys.
