(* ===== verification/DashImport.v ===== *)
(** * DashImport: keys from a file, and the file with the keys (boom-dashboard)

    Models [import_keys] of [boom-dashboard/src/handlers_admin.rs], its two parsers, and the
    attachment it answers with.  The text of JSON (serde_json) and of CSV (the [csv] crate),
    the messages of their errors and the text of an [f64] are parameters; the parts of the
    upload are those of axum's [Multipart], each with the chunks that arrive before its end
    or an error. *)

From S2P Require Import Prelude Core Text Float64 Json Messages PlanStore SlidingWindow PlanTable Config Sse Auth Dashboard DashKeys.

Module DashImport.
Import Core Json Config(de_seq,de_struct) DashKeys.

(** ** The upload *)

Definition IMPORT_FIELD_NAME : string := "file".
Definition IMPORT_MAX_BYTES : Z := 1 * 1024 * 1024.
Definition IMPORT_MAX_ROWS : Z := 10000.

Record Field := mkField { fd_name : option string; fd_file_name : option string; fd_chunks : list string }.

(** [None]: over the limit.  An error of the connection ends the chunks, and what came is
    the file. *)
Fixpoint read_chunks (buf : string) (l : list string) : option string :=
  match l with
  | [] => Some buf
  | c :: l' => if IMPORT_MAX_BYTES <? Z.of_nat (String.length buf + String.length c) then None else read_chunks (buf +:+ c) l'
  end.

Inductive Upload := NoFile | TooBig | File (name bytes : string).

Fixpoint first_file (l : list Field) : Upload :=
  match l with
  | [] => NoFile
  | f :: l' =>
    if bool_decide (fd_name f = Some IMPORT_FIELD_NAME)
    then match read_chunks "" (fd_chunks f) with
         | None => TooBig
         | Some bytes => match fd_file_name f with Some n => File n bytes | None => NoFile end
         end
    else first_file l'
  end.

Definition extension (name : string) : option string := (fun p => to_ascii_lowercase p.2) <$> rsplit_once "." name.

(** ** The parsers *)

Definition line_error (n : Z) (reason : string) : Value := VObject [("line", vint n); ("reason", VString reason)].

(** The fields of a line, in the order of the header. *)
Record CsvKeyRow := mkCsv {
  cv_key_alias : option string;
  cv_key_name : option string;
  cv_key_prefix : option string;
  cv_tag : option string;
  cv_user_id : option string;
  cv_team_id : option string;
  cv_models : option string;
  cv_rpm_limit : option Z;
  cv_tpm_limit : option Z;
  cv_max_budget : option f64;
  cv_budget_duration : option string;
  cv_expires : option string;
  cv_metadata : option string;
  cv_plan_name : option string;
}.

Definition nonempty (o : option string) : option string := match o with Some s => if bool_decide (s = "") then None else Some s | None => None end.

Definition split_models (s : string) : list string := retain (fun x => negb (bool_decide (x = ""))) (trim <$> Dashboard.split_char "|" s).
Definition csv_models (o : option string) : option (list string) :=
  match o with Some s => match split_models s with [] => None | l => Some l end | None => None end.

Section import.
Context {D : Type} `{DecimalOps D}.
Context (hash_token : string -> string) (parse_datetime : string -> option Z).
(** [serde_json::from_str] and [to_string], the text of the error for a line. *)
Context (from_str : string -> option Value) (to_string : Value -> string) (json_error : string -> string).
(** The records of a text after its header, or the text of an error for each; the text of
    records; [f64]'s [Display]. *)
Context (csv_records : string -> list (string + CsvKeyRow)) (csv_text : list (list string) -> string) (show_f64 : f64 -> string).

Fixpoint parse_lines (n : Z) (l : list string) : list CreateKeyRequest * list Value :=
  match l with
  | [] => ([], [])
  | raw :: l' =>
    let '(reqs, errors) := parse_lines (n + 1) l' in
    let trimmed := trim raw in
    if bool_decide (trimmed = "") then (reqs, errors)
    else match from_str trimmed ≫= de_create with
         | Some r => (r :: reqs, errors)
         | None => (reqs, line_error n ("invalid JSON: " +:+ json_error trimmed) :: errors)
         end
  end.

Definition parse_jsonl (bytes : string) : list CreateKeyRequest * list Value :=
  if Sse.valid_utf8 bytes then parse_lines 1 (Sse.lines bytes) else ([], [line_error 0 "file is not valid UTF-8"]).

Definition csv_metadata (o : option string) : string + option Value :=
  match o with
  | None => inr None
  | Some s => if bool_decide (s = "") then inr None else match from_str s with Some v => inr (Some v) | None => inl ("metadata is not valid JSON: " +:+ json_error s) end
  end.

Definition csv_request (row : CsvKeyRow) (meta : option Value) : CreateKeyRequest :=
  mkCreate (nonempty (cv_key_alias row)) (nonempty (cv_key_name row)) (nonempty (cv_key_prefix row)) (nonempty (cv_tag row)) (nonempty (cv_user_id row))
    (nonempty (cv_team_id row)) (csv_models (cv_models row)) (cv_max_budget row) (nonempty (cv_budget_duration row)) (cv_rpm_limit row) (cv_tpm_limit row)
    (nonempty (cv_expires row)) meta (Some <$> nonempty (cv_plan_name row)).

(** [n] is the line of the first record, if none spans several lines. *)
Fixpoint parse_records (n : Z) (l : list (string + CsvKeyRow)) : list CreateKeyRequest * list Value :=
  match l with
  | [] => ([], [])
  | record :: l' =>
    let '(reqs, errors) := parse_records (n + 1) l' in
    match record with
    | inl e => (reqs, line_error n ("CSV parse error: " +:+ e) :: errors)
    | inr row => match csv_metadata (cv_metadata row) with
                 | inl e => (reqs, line_error n e :: errors)
                 | inr meta => (csv_request row meta :: reqs, errors)
                 end
    end
  end.

Definition parse_csv (bytes : string) : list CreateKeyRequest * list Value := parse_records 2 (csv_records bytes).

(** ** The attachment *)

Definition show_i64 (z : Z) : string := if z <? 0 then "-" +:+ show (- z) else show z.
Fixpoint join (sep : string) (l : list string) : string :=
  match l with [] => "" | [x] => x | x :: l' => x +:+ sep +:+ join sep l' end.

Definition csv_header : list string :=
  ["key_alias"; "key_name"; "key_prefix"; "tag"; "user_id"; "team_id"; "models"; "rpm_limit"; "tpm_limit"; "max_budget"; "budget_duration"; "expires"; "metadata"; "plan_name"; "api_key"].

Definition csv_cells (r : CreateKeyRequest) (key : string) : list string :=
  [default "" (cr_key_alias r); default "" (cr_key_name r); default "" (cr_key_prefix r); default "" (cr_tag r); default "" (cr_user_id r); default "" (cr_team_id r);
   from_option (join "|") "" (cr_models r); from_option show_i64 "" (cr_rpm_limit r); from_option show_i64 "" (cr_tpm_limit r); from_option show_f64 "" (cr_max_budget r);
   default "" (cr_budget_duration r); default "" (cr_expires r); from_option to_string "" (cr_metadata r); default "" (cr_plan_name r ≫= id); key].

(** The request with the key; the field is new, so it is the last. *)
Definition jsonl_value (r : CreateKeyRequest) (key : string) : Value := VObject (obj_insert (ser_create r) "api_key" (VString key)).

Definition newline : string := String Sse.lf "".

Definition build_key_download (original_name : string) (created : list (CreateKeyRequest * string)) : Value :=
  match created with
  | [] => VNull
  | _ =>
    let stem := match rsplit_once "." original_name with Some (s, _) => s | None => original_name end in
    let '(ext, content, mime) :=
      if bool_decide (extension original_name = Some "csv")
      then ("csv", Sse.from_utf8_lossy (csv_text (csv_header :: ((fun x => csv_cells x.1 x.2) <$> created))), "text/csv")
      else ("jsonl", join newline ((fun x => to_string (jsonl_value x.1 x.2)) <$> created), "application/x-ndjson") in
    VObject [("filename", VString (stem +:+ "-with-keys." +:+ ext)); ("content", VString content); ("mime", VString mime); ("rows", vcount created)]
  end.

(** ** The handler *)

(** The random part and the outcomes of the statements for each row. *)
Definition with_draws (draw : nat -> string * Stmts) (reqs : list CreateKeyRequest) : list (string * Stmts * CreateKeyRequest) := imap (fun i r => (draw i, r)) reqs.

Fixpoint created_pairs (reqs : list CreateKeyRequest) (os : list CreateOutcome) : list (CreateKeyRequest * string) :=
  match reqs, os with
  | r :: reqs', o :: os' => match o with Created key _ _ => (r, key) :: created_pairs reqs' os' | Skipped _ _ => created_pairs reqs' os' end
  | _, _ => []
  end.

Definition import_rows (draw : nat -> string * Stmts) (name : string) (parsed : list CreateKeyRequest * list Value) (st : Dash) : Dash (D := D) * Answer :=
  let '(reqs, errors) := parsed in
  let total := Z.of_nat (length reqs) in
  let truncated := IMPORT_MAX_ROWS <? total in
  let reqs := if truncated then take (Z.to_nat IMPORT_MAX_ROWS) reqs else reqs in
  let '(st, os) := insert_all hash_token parse_datetime (with_draws draw reqs) st in
  (st, quiet (RJson 200 (VObject [
    ("file_name", VString name); ("format", vopt VString (extension name)); ("parsed", vint total);
    ("inserted", vint (if truncated then IMPORT_MAX_ROWS else total)); ("truncated", VBool truncated); ("max_rows", vint IMPORT_MAX_ROWS);
    ("parse_errors", VArray errors); ("created", VArray (created_of os)); ("skipped", VArray (skipped_of os));
    ("created_count", vcount (created_of os)); ("skipped_count", vcount (skipped_of os)); ("download", build_key_download name (created_pairs reqs os))]))).

Definition import_keys (db : bool) (draw : nat -> string * Stmts) (fields : list Field) (st : Dash) : Dash (D := D) * Answer :=
  if negb db then (st, no_database)
  else match first_file fields with
  | TooBig => (st, quiet (RJson 200 (VObject [("error", VString ("Upload exceeds the " +:+ show IMPORT_MAX_BYTES +:+ " byte (1 MiB) limit"))])))
  | NoFile => (st, quiet (RText 400 "Missing 'file' field in multipart upload"))
  | File name bytes =>
    if bool_decide (extension name = Some "jsonl") then import_rows draw name (parse_jsonl bytes) st
    else if bool_decide (extension name = Some "csv") then import_rows draw name (parse_csv bytes) st
    else (st, quiet (RText 400 "Unsupported file extension; use .jsonl or .csv"))
  end.

(** ** Lemmas *)

Implicit Types (st : Dash (D := D)).

Definition blank (l : string) : bool := bool_decide (trim l = "").

Lemma parse_lines_count n l : let '(reqs, errors) := parse_lines n l in (length reqs + length errors = length (retain (fun l => negb (blank l)) l))%nat.
Proof.
  revert n. induction l as [| raw l IH]; intros n; [done |]. cbn [parse_lines]. specialize (IH (n + 1)). destruct (parse_lines (n + 1) l) as [reqs errors].
  rewrite retain_cons. unfold blank at 1. case_bool_decide; cbn [negb]; [done |]. destruct (from_str (trim raw) ≫= de_create); cbn; lia.
Qed.

Lemma counts_of os : (length (created_of os) + length (skipped_of os) = length os)%nat.
Proof.
  unfold created_of, skipped_of. rewrite !length_fmap. induction os as [| o os IH]; [done |]. rewrite !retain_cons. destruct (is_created o); cbn; lia.
Qed.

Lemma insert_all_length l st : length (insert_all hash_token parse_datetime l st).2 = length l.
Proof.
  revert st. induction l as [| [[secret ok] r] l IH]; intros st; [done |]. cbn [insert_all]. destruct (insert_single_key _ _ _ _ _ _) as [st1 o].
  specialize (IH st1). destruct (insert_all _ _ l st1) as [st2 os]. cbn in *. lia.
Qed.

Lemma pairs_count reqs os : length reqs = length os -> length (created_pairs reqs os) = length (created_of os).
Proof.
  revert os. induction reqs as [| r reqs IH]; intros [| o os] E; try done. injection E as E. specialize (IH os E). unfold created_of in *. rewrite length_fmap in *.
  cbn [created_pairs]. rewrite retain_cons. destruct o; cbn; lia.
Qed.

(** What one row does. *)
Lemma insert_single_effect ok secret r st : let '(st', o) := insert_single_key hash_token parse_datetime ok secret r st in
  match o with
  | Created key h _ => h = hash_token key /\ key_table st !! h = None /\ exists p, key_table st' = <[h := row_of_request parse_datetime r h p]> (key_table st)
  | Skipped _ _ => st' = st
  end.
Proof.
  pose proof (create_cases hash_token parse_datetime ok secret r st) as Hc. destruct (generate_key_material hash_token secret (cr_key_prefix r)) as [[raw h] p] eqn:Eg. cbv zeta in Hc.
  destruct Hc as [(e & reason & _ & _ & -> & _) | (_ & _ & _ & _ & Hn & _ & ->)]; [done |]. split_and!; [by eapply generated_hash | done | by exists p].
Qed.

(** Rows are added and none is changed: the size grows by what is created, and each created
    key has the row of its request. *)
Lemma insert_all_effect reqs draws st : length draws = length reqs ->
  let '(st', os) := insert_all hash_token parse_datetime (zip_with pair draws reqs) st in
  size (key_table st') = (size (key_table st) + length (created_of os))%nat
  /\ (forall h k, key_table st !! h = Some k -> key_table st' !! h = Some k)
  /\ forall r key, (r, key) ∈ created_pairs reqs os -> exists p, key_table st' !! hash_token key = Some (row_of_request parse_datetime r (hash_token key) p).
Proof.
  revert reqs st. induction draws as [| [secret ok] draws IH]; intros [| r reqs] st E; try done.
  { cbn. change (created_of []) with (@nil Value). cbn [length]. split_and!; [lia | done | by intros ? ? ?%elem_of_nil]. }
  injection E as E. cbn [zip_with insert_all]. pose proof (insert_single_effect ok secret r st) as H1. destruct (insert_single_key _ _ _ _ _ _) as [st1 o].
  specialize (IH reqs st1 E). destruct (insert_all _ _ _ st1) as [st2 os]. destruct IH as (Hs & Hk & Hp). unfold created_of in *. rewrite length_fmap in *. rewrite retain_cons.
  destruct o as [key h alias | alias reason]; cbn [is_created created_pairs length].
  - destruct H1 as (-> & Hn & p & Et). rewrite Et in *. rewrite map_size_insert_None in Hs by done. split_and!; [lia | |].
    + intros h k Hh. apply Hk. rewrite lookup_insert_ne; [done |]. intros E0. rewrite <- E0 in Hh. congruence.
    + intros r' key' [[= -> ->] | Hin]%elem_of_cons; [| by apply Hp]. exists p. apply Hk, lookup_insert_eq.
  - subst st1. done.
Qed.

Lemma with_draws_zip draw reqs : with_draws draw reqs = zip_with pair (draw <$> seq 0 (length reqs)) reqs.
Proof.
  unfold with_draws. revert draw. induction reqs as [| r reqs IH]; intros draw; [done |]. rewrite imap_cons. cbn. f_equal.
  change (imap (fun i r => (draw (S i), r)) reqs = zip_with pair (draw <$> seq 1 (length reqs)) reqs).
  rewrite (IH (fun i => draw (S i))), <- seq_shift. f_equal. exact (list_fmap_compose S draw (seq 0 (length reqs))).
Qed.

(** ** Properties *)

(** An import accounts for every line.  Each line that is not blank becomes a request or
    an error; the requests, the first ten thousand of them, are created or skipped; the table
    grows by the created ones and loses nothing; and each key of the attachment has in
    the table the row of its request. *)
Theorem import_accounted draw fields name bytes st :
  first_file fields = File name bytes -> extension name = Some "jsonl" -> Sse.valid_utf8 bytes = true ->
  exists st' o created skipped errors reqs os,
    import_keys true draw fields st = (st', quiet (RJson 200 (VObject o)))
    /\ obj_get o "created" = Some (VArray created) /\ obj_get o "skipped" = Some (VArray skipped) /\ obj_get o "parse_errors" = Some (VArray errors)
    /\ obj_get o "parsed" = Some (vint (Z.of_nat (length reqs))) /\ obj_get o "download" = Some (build_key_download name (created_pairs (take (Z.to_nat IMPORT_MAX_ROWS) reqs) os))
    /\ (length reqs + length errors = length (retain (fun l => negb (blank l)) (Sse.lines bytes)))%nat
    /\ (length created + length skipped = length reqs `min` Z.to_nat IMPORT_MAX_ROWS)%nat
    /\ length (created_pairs (take (Z.to_nat IMPORT_MAX_ROWS) reqs) os) = length created
    /\ size (key_table st') = (size (key_table st) + length created)%nat
    /\ (forall h k, key_table st !! h = Some k -> key_table st' !! h = Some k)
    /\ forall r key, (r, key) ∈ created_pairs (take (Z.to_nat IMPORT_MAX_ROWS) reqs) os ->
         exists p, key_table st' !! hash_token key = Some (row_of_request parse_datetime r (hash_token key) p).
Proof.
  intros Ef Ee Hu. unfold import_keys. cbn [negb]. rewrite Ef, bool_decide_eq_true_2 by done. unfold parse_jsonl. rewrite Hu.
  pose proof (parse_lines_count 1 (Sse.lines bytes)) as Hc. destruct (parse_lines 1 (Sse.lines bytes)) as [reqs errors]. unfold import_rows.
  assert ((if IMPORT_MAX_ROWS <? Z.of_nat (length reqs) then take (Z.to_nat IMPORT_MAX_ROWS) reqs else reqs) = take (Z.to_nat IMPORT_MAX_ROWS) reqs) as ->.
  { destruct (Z.ltb_spec IMPORT_MAX_ROWS (Z.of_nat (length reqs))); [done |]. by rewrite take_ge by lia. }
  set (kept := take _ reqs). pose proof (insert_all_effect kept (draw <$> seq 0 (length kept)) st) as Hi.
  rewrite length_fmap, length_seq in Hi. specialize (Hi eq_refl). rewrite <- with_draws_zip in Hi.
  pose proof (insert_all_length (with_draws draw kept) st) as Hlen. unfold with_draws in Hlen. rewrite length_imap in Hlen. fold (with_draws draw kept) in Hlen.
  destruct (insert_all _ _ (with_draws draw kept) st) as [st' os]. destruct Hi as (Hs & Hk & Hp). cbn [snd] in Hlen.
  eexists st', _, (created_of os), (skipped_of os), errors, reqs, os. split; [reflexivity |]. split_and!; try reflexivity; try assumption.
  - rewrite counts_of, Hlen. unfold kept. by rewrite length_take, Nat.min_comm.
  - by apply pairs_count.
Qed.

(** *** The attachment as a file to import *)

(** The request with its plan spelled out: an absent one is none. *)
Definition explicit_plan (r : CreateKeyRequest) : CreateKeyRequest :=
  mkCreate (cr_key_alias r) (cr_key_name r) (cr_key_prefix r) (cr_tag r) (cr_user_id r) (cr_team_id r) (cr_models r) (cr_max_budget r) (cr_budget_duration r)
    (cr_rpm_limit r) (cr_tpm_limit r) (cr_expires r) (cr_metadata r) (Some (default None (cr_plan_name r))).

Lemma opt_field_written {A} o k (f : A -> Value) de a : obj_get o k = Some (vopt f a) -> (forall x, a = Some x -> de (f x) = Some x /\ f x <> VNull) -> opt_field o k de = Some a.
Proof.
  intros Ho Hf. unfold opt_field, field. rewrite Ho. destruct a as [x |]; [| done]. destruct (Hf x eq_refl) as [E Hn]. cbn [vopt]. unfold de_option.
  destruct (f x); try (by rewrite E). done.
Qed.
Lemma opt_string_written o k a : obj_get o k = Some (vopt VString a) -> opt_field o k de_string = Some a.
Proof. intros E. eapply opt_field_written; [exact E |]. intros x _. done. Qed.
Lemma opt_i64_written o k a : obj_get o k = Some (vopt vint a) -> from_option (fun z => - 2 ^ 63 <= z <= 2 ^ 63 - 1) True a -> opt_field o k de_i64 = Some a.
Proof. intros E Ha. eapply opt_field_written; [exact E |]. intros x ->. split; [by apply de_int_ok | done]. Qed.

Lemma mapM_strings (l : list string) : mapM de_string (VString <$> l) = Some l.
Proof. induction l as [| s l IH]; [done |]. cbn. by rewrite IH. Qed.

Lemma opt_field_i64 o k a : opt_field o k de_i64 = Some a -> from_option (fun z => - 2 ^ 63 <= z <= 2 ^ 63 - 1) True a.
Proof.
  intros E. apply (field_typed o k (de_option de_i64) (Some None) _ _ E); [| by intros ? [= <-]]. apply option_typed. intros v z. unfold de_i64, de_int.
  destruct v as [| | [z' |] | | |]; try done. destruct (Z.leb_spec (- 2 ^ 63) z'), (Z.leb_spec z' (2 ^ 63 - 1)); cbn; try done. intros [= <-]. lia.
Qed.
Lemma opt_field_metadata o k a : opt_field o k Some = Some a -> a <> Some VNull.
Proof. unfold opt_field, field. destruct (obj_get o k) as [v |]; [| by intros [= <-]]. destruct v; intros [= <-]; done. Qed.

(** What a parsed request is like. *)
Definition parsed_request (r : CreateKeyRequest) : Prop :=
  from_option (fun z => - 2 ^ 63 <= z <= 2 ^ 63 - 1) True (cr_rpm_limit r) /\ from_option (fun z => - 2 ^ 63 <= z <= 2 ^ 63 - 1) True (cr_tpm_limit r) /\ cr_metadata r <> Some VNull.

Lemma de_create_parsed v r : de_create v = Some r -> parsed_request r.
Proof.
  destruct v; try done. unfold de_create, de_struct. intros E.
  repeat (let H := fresh "F" in apply bind_Some in E as (? & H & E)). injection E as <-.
  split_and!; cbn; by (eapply opt_field_i64 || eapply opt_field_metadata).
Qed.

(** The attachment of an import gives the same requests back, but for the plans.  For
    every request read from a file its line in the attachment reads as the request again,
    with the key besides, except that a request without a plan, which follows the default
    plan, comes back with the explicit choice of none. *)
Theorem attachment_reads_back v r key (s : PlanStore.PlanStore D) :
  de_create v = Some r -> (forall b, cr_max_budget r = Some b -> Config.f64_finite b = true) ->
  de_create (jsonl_value r key) = Some (explicit_plan r) /\ (explicit_plan r = r <-> cr_plan_name r <> None)
  /\ (cr_plan_name r = None -> requested_plan s (cr_plan_name r) = PlanStore.get_default_plan s /\ requested_plan s (cr_plan_name (explicit_plan r)) = None).
Proof.
  intros (Hr & Ht & Hm)%de_create_parsed Hb. split_and!.
  - unfold jsonl_value, de_create, de_struct. set (o := obj_insert _ _ _).
    rewrite (opt_string_written o "key_alias" (cr_key_alias r) eq_refl), (opt_string_written o "key_name" (cr_key_name r) eq_refl), (opt_string_written o "key_prefix" (cr_key_prefix r) eq_refl). cbn [mbind option_bind].
    rewrite (opt_string_written o "tag" (cr_tag r) eq_refl), (opt_string_written o "user_id" (cr_user_id r) eq_refl), (opt_string_written o "team_id" (cr_team_id r) eq_refl). cbn [mbind option_bind].
    rewrite (opt_field_written o "models" (fun l => VArray (VString <$> l)) (de_seq de_string) (cr_models r) eq_refl); [| intros l _; split; [apply mapM_strings | done]].
    rewrite (opt_field_written o "max_budget" vfloat de_f64 (cr_max_budget r) eq_refl); [| intros b E; unfold vfloat; rewrite (Hb b E); done]. cbn [mbind option_bind].
    rewrite (opt_string_written o "budget_duration" (cr_budget_duration r) eq_refl), (opt_i64_written o "rpm_limit" (cr_rpm_limit r) eq_refl Hr), (opt_i64_written o "tpm_limit" (cr_tpm_limit r) eq_refl Ht). cbn [mbind option_bind].
    rewrite (opt_string_written o "expires" (cr_expires r) eq_refl). cbn [mbind option_bind].
    rewrite (opt_field_written o "metadata" id Some (cr_metadata r) eq_refl); [| intros x E; split; [done | intros E0; apply Hm; rewrite E; f_equal; exact E0]]. cbn [mbind option_bind].
    unfold field. change (obj_get o "plan_name") with (Some (vopt (vopt VString) (cr_plan_name r))). destruct r as [? ? ? ? ? ? ? ? ? ? ? ? ? [[p |] |]]; reflexivity.
  - destruct r as [? ? ? ? ? ? ? ? ? ? ? ? ? [p |]]; unfold explicit_plan; cbn; [by split | by split].
  - intros E. unfold explicit_plan. cbn [cr_plan_name]. rewrite E. split; reflexivity.
Qed.
End import.

(** ** Examples *)

#[local] Existing Instance whole_decimal.

Definition demo_parse (s : string) : option Value := if bool_decide (s = "{}") then Some (VObject []) else None.
Definition demo_file : string := "{}" +:+ newline +:+ newline +:+ "oops".
Definition demo_fields : list Field := [mkField (Some "note") None ["x"]; mkField (Some "file") (Some "keys.JSONL") ["{}"; newline +:+ newline +:+ "oops"]].
Definition demo_draw (i : nat) : string * Stmts := ("5ec" +:+ show (Z.of_nat i), all_succeed).

Lemma import_accounted_witness :
  exists st' o, import_keys demo_hash demo_date demo_parse (fun _ => "") (fun s => s) (fun _ => []) (fun _ => "") (fun _ => "") true demo_draw demo_fields demo_dash
                = (st', quiet (RJson 200 (VObject o))) /\ size (key_table st') = 2%nat.
Proof.
  destruct (import_accounted demo_hash demo_date demo_parse (fun _ => "") (fun s => s) (fun _ => []) (fun _ => "") (fun _ => "") demo_draw demo_fields "keys.JSONL" demo_file demo_dash)
    as (st' & o & created & skipped & errors & reqs & os & E & Hc & _ & _ & _ & _ & _ & _ & _ & Hs & _); [vm_compute; reflexivity | vm_compute; reflexivity | vm_compute; reflexivity |].
  exists st', o. split; [exact E |]. rewrite Hs. vm_compute in E. injection E as _ <-. vm_compute in Hc. injection Hc as <-. reflexivity.
Defined.

Lemma attachment_reads_back_witness :
  exists r, de_create (VObject []) = Some r /\ de_create (jsonl_value r "sk-1") = Some (explicit_plan r) /\ explicit_plan r <> r.
Proof.
  eexists. split; [reflexivity |].
  destruct (attachment_reads_back (D := Z) (VObject []) _ "sk-1" PlanStore.new_store eq_refl) as (E & Hp & _); [discriminate |].
  split; [exact E |]. intros Hx. by apply Hp in Hx.
Defined.
End DashImport.
