(* ===== verification/DashQuota.v ===== *)
(** * DashQuota: the resets of quotas (boom-dashboard)

    Models the handlers of [boom-dashboard/src/handlers_admin.rs] that reset the counters of
    keys and teams, over the limiter of [SlidingWindow] and the tables of [DashKeys], and
    which rows of the tables of counters their [DELETE ... LIKE] takes. *)

From S2P Require Import Prelude Core Text Float64 Json Messages PlanStore SlidingWindow PlanTable Config Sse Auth DashKeys.

Module DashQuota.
Import Core Json Auth SlidingWindow DashKeys.

(** ** The rows of counters

    [LIKE]: a [%] is any text, a [_] any character, and a backslash takes the next one as
    it is; a pattern that ends in a backslash is an error. *)

Definition char_of (a : ascii) : option string := Some (String a "").

Fixpoint like (p s : list (option string)) : bool :=
  match p with
  | [] => match s with [] => true | _ => false end
  | c :: p' =>
    if bool_decide (c = char_of "%") then (fix any (s : list (option string)) : bool := like p' s || match s with [] => false | _ :: s' => any s' end) s
    else if bool_decide (c = char_of "_") then match s with [] => false | _ :: s' => like p' s' end
    else if bool_decide (c = char_of "092")
    then match p', s with e :: p'', x :: s' => bool_decide (e = x) && like p'' s' | _, _ => false end
    else match s with x :: s' => bool_decide (c = x) && like p' s' | [] => false end
  end.
Definition sql_like (pattern s : string) : bool := like (Sse.chars pattern) (Sse.chars s).

(** The rows under their names: the permanent counters, and the windows with their five
    columns. *)
Record CounterRows := mkCounterRows {
  cumulative_rows : gmap string Z;
  state_rows : gmap string (Z * option Z * option Z * Z * Z);
}.
Definition no_rows : CounterRows := mkCounterRows ∅ ∅.

Definition deleted_rows {A} (pattern : string) (rows : gmap string A) : gmap string A := base.filter (fun kv : string * A => sql_like pattern kv.1 = false) rows.

(** [DELETE ... WHERE cache_key LIKE $1] on either table. *)
Inductive DeleteRows := DelCumulative (pattern : string) | DelWindows (pattern : string).
Definition run_delete (d : DeleteRows) (rows : CounterRows) : CounterRows :=
  match d with
  | DelCumulative p => mkCounterRows (deleted_rows p (cumulative_rows rows)) (state_rows rows)
  | DelWindows p => mkCounterRows (cumulative_rows rows) (deleted_rows p (state_rows rows))
  end.
(** One after the other, to the first that fails. *)
Fixpoint run_deletes (l : list (DeleteRows * bool)) (rows : CounterRows) : CounterRows :=
  match l with
  | (d, true) :: l' => run_deletes l' (run_delete d rows)
  | _ => rows
  end.

(** The two statements for a key, and those for a team. *)
Definition key_deletes (kh : string) : list DeleteRows := [DelCumulative ("kc:" +:+ kh +:+ ":%"); DelWindows (kh +:+ ":%")].
Definition team_pattern (tid : string) : string := "tc:" +:+ tid +:+ ":%".
Definition team_deletes (tid : string) : list DeleteRows := [DelCumulative (team_pattern tid); DelWindows ("__team__" +:+ tid +:+ ":%")].

(** The outcomes of statements in a row. *)
Definition outcomes (ok : Stmts) (first len : nat) : list bool := ok <$> seq first len.

Section quota.
Context {D : Type} `{DecimalOps D}.
(** [Decimal]'s [Display], the text of an error of the database. *)
Context (dec_text : D -> string) (db_error : string).
Implicit Types (st : Dash (D := D)) (rows : CounterRows).

(** The handlers that write have the rows of the counters beside the state. *)
Notation Resets := (Dash (D := D) * CounterRows * Answer)%type.

(** ** The handlers *)

Definition previous_value (s : CumulativeSnapshot) : Value :=
  let money micros := VString (dec_text (SlidingWindow.micros_to_decimal micros)) in
  VObject [("total_input_tokens", vint (input_tokens s)); ("total_output_tokens", vint (output_tokens s));
    ("total_cost_micros", vint (total_cost_micros s)); ("total_cost", money (total_cost_micros s));
    ("regular_input_cost_micros", vint (regular_input_cost_micros s)); ("regular_input_cost", money (regular_input_cost_micros s));
    ("cached_input_cost_micros", vint (cached_input_cost_micros s)); ("cached_input_cost", money (cached_input_cost_micros s));
    ("output_cost_micros", vint (output_cost_micros s)); ("output_cost", money (output_cost_micros s))].

Definition reset_failed : Answer := quiet (RJson 500 (VObject [("error", VString ("Reset failed: " +:+ db_error))])).

Definition quota_reset_key (db : option Stmts) (kh : string) st rows : Resets :=
  match db with
  | None => (st, rows, no_database)
  | Some ok =>
    let '(l, cleared) := clear_for_key (ds_limiter st) kh in
    let rows := run_deletes (zip (key_deletes kh) [ok 0%nat; ok 1%nat]) rows in
    match clear_key_all l kh (ok 0%nat) (ok 1%nat) with
    | (l, Some snap) =>
      (set_limiter st l, rows, mkAnswer (RJson 200 (VObject [("key_hash", VString kh); ("limiter_windows_cleared", vint cleared); ("previous", previous_value snap)])) true)
    | (l, None) => (set_limiter st l, rows, reset_failed)
    end
  end.

(** The windows of the members, one after the other. *)
Definition clear_windows_of (khs : list string) (l : SlidingWindowLimiter) : SlidingWindowLimiter * Z :=
  foldl (fun x kh => let '(l, n) := clear_for_key x.1 kh in (l, x.2 + n)) (l, 0) khs.

Definition fetch_failed (what : string) : Answer := quiet (RText 500 (what +:+ db_error)).

Definition quota_reset_team (db : option Stmts) (tid : string) st rows : Resets :=
  match db with
  | None => (st, rows, no_database)
  | Some ok =>
    if negb (ok 0%nat) then (st, rows, fetch_failed "member fetch failed: ")
    else
      let member_keys := members tid (key_table st) in
      let '(l, cleared) := clear_windows_of member_keys (ds_limiter st) in
      let rows := run_deletes (zip (team_deletes tid ++ (member_keys ≫= key_deletes)) (outcomes ok 1 (2 + 2 * length member_keys))) rows in
      match reset_team_all l tid (ok 1%nat) (ok 2%nat) (imap (fun i kh => (kh, (ok (3 + 2 * i)%nat, ok (4 + 2 * i)%nat))) member_keys) with
      | (l, true) =>
        (set_limiter st l, rows, mkAnswer (RJson 200 (VObject [("team_id", VString tid); ("member_keys_reset", vcount member_keys); ("limiter_windows_cleared", vint cleared)])) true)
      | (l, false) => (set_limiter st l, rows, reset_failed)
      end
  end.

(** The team of a key, read as a text that is not [NULL]: [None] is an error of the query,
    [Some None] that there is no row. *)
Definition fetch_team (ok : bool) (kh : string) st : option (option string) :=
  if ok then
    match key_table st !! kh with
    | None => Some None
    | Some k => match tk_team_id (kr_token k) with Some tid => Some (Some tid) | None => None end
    end
  else None.

Definition quota_reset_key_cumulative (db : option Stmts) (kh : string) st rows : Resets :=
  match db with
  | None => (st, rows, no_database)
  | Some ok =>
    match fetch_team (ok 0%nat) kh st with
    | None => (st, rows, fetch_failed "team lookup failed: ")
    | Some team =>
      let rows := run_deletes [(DelCumulative ("kc:" +:+ kh +:+ ":%"), ok 1%nat)] rows in
      match clear_key_cumulative_db (ds_limiter st) kh team (ok 1%nat) with
      | (l, Some snap) =>
        (set_limiter st l, rows, mkAnswer (RJson 200 (VObject [("key_hash", VString kh); ("team_id", vopt VString team); ("scope", VString "cumulative"); ("previous", previous_value snap)])) true)
      | (l, None) => (set_limiter st l, rows, reset_failed)
      end
    end
  end.

Definition quota_reset_key_windows (db : option Stmts) (kh : string) st rows : Resets :=
  match db with
  | None => (st, rows, no_database)
  | Some ok =>
    let '(l, cleared) := clear_for_key (ds_limiter st) kh in
    let rows := run_deletes [(DelWindows (kh +:+ ":%"), ok 0%nat)] rows in
    match clear_key_windows_db l kh (ok 0%nat) with
    | (l, Some removed) =>
      (set_limiter st l, rows, mkAnswer (RJson 200 (VObject [("key_hash", VString kh); ("scope", VString "windows"); ("limiter_windows_cleared", vint cleared); ("quota_windows_cleared", vint removed)])) true)
    | (l, None) => (set_limiter st l, rows, reset_failed)
    end
  end.

Definition quota_reset_team_cumulative (db : option Stmts) (tid : string) st rows : Resets :=
  match db with
  | None => (st, rows, no_database)
  | Some ok =>
    if negb (ok 0%nat) then (st, rows, fetch_failed "member fetch failed: ")
    else
      let member_keys := members tid (key_table st) in
      let rows := run_deletes (zip (DelCumulative ("tc:" +:+ tid +:+ ":%") :: ((fun kh => DelCumulative ("kc:" +:+ kh +:+ ":%")) <$> member_keys)) (outcomes ok 1 (1 + length member_keys))) rows in
      match clear_team_cumulative_db (ds_limiter st) tid (ok 1%nat) (imap (fun i kh => (kh, ok (2 + i)%nat)) member_keys) with
      | (l, true) =>
        (set_limiter st l, rows, mkAnswer (RJson 200 (VObject [("team_id", VString tid); ("scope", VString "cumulative"); ("member_keys_reset", vcount member_keys)])) true)
      | (l, false) => (set_limiter st l, rows, reset_failed)
      end
  end.

Definition quota_reset_team_windows (db : option Stmts) (tid : string) st rows : Resets :=
  match db with
  | None => (st, rows, no_database)
  | Some ok =>
    if negb (ok 0%nat) then (st, rows, fetch_failed "member fetch failed: ")
    else
      let member_keys := members tid (key_table st) in
      let rows := run_deletes (zip (DelWindows ("__team__" +:+ tid +:+ ":%") :: ((fun kh => DelWindows (kh +:+ ":%")) <$> member_keys)) (outcomes ok 1 (1 + length member_keys))) rows in
      let '(l, cleared) := clear_windows_of member_keys (ds_limiter st) in
      match clear_team_windows_db l tid (ok 1%nat) (imap (fun i kh => (kh, ok (2 + i)%nat)) member_keys) with
      | (l, Some removed) =>
        (set_limiter st l, rows, mkAnswer (RJson 200 (VObject [("team_id", VString tid); ("scope", VString "windows"); ("member_keys_reset", vcount member_keys);
          ("limiter_windows_cleared", vint cleared); ("quota_windows_cleared", vint removed)])) true)
      | (l, None) => (set_limiter st l, rows, reset_failed)
      end
  end.

Definition reset_limits_for_key (kh : string) st : Dash * Answer :=
  let '(l, n) := clear_for_key (ds_limiter st) kh in
  (set_limiter st l, quiet (RJson 200 (VObject [("ok", VBool true); ("cleared", vint n);
    ("message", VString ("Cleared " +:+ show n +:+ " window counter(s) for key '" +:+ kh +:+ "'"))]))).

Definition reset_limits_all st : Dash * Answer :=
  let '(l, n) := clear_all (ds_limiter st) in
  (set_limiter st l, quiet (RJson 200 (VObject [("ok", VBool true); ("cleared", vint n); ("message", VString ("Cleared all " +:+ show n +:+ " window counter(s)"))]))).

(** ** Lemmas *)

Lemma clear_for_key_effect l kh : cumulative (clear_for_key l kh).1 = cumulative l
  /\ forall ck, windows (clear_for_key l kh).1 !! ck = if starts_with (kh +:+ ":") ck then None else windows l !! ck.
Proof.
  split; [done |]. intros ck. unfold clear_for_key. cbn. destruct (starts_with (kh +:+ ":") ck) eqn:E.
  - apply map_lookup_filter_None. right. intros x _. cbn. congruence.
  - destruct (windows l !! ck) as [x |] eqn:Ex; [by apply map_lookup_filter_Some | by apply map_lookup_filter_None; left].
Qed.

Lemma counter_windows l l' scope k : cumulative l' = cumulative l -> counter l' scope k = counter l scope k.
Proof. unfold counter. by intros ->. Qed.

Lemma clear_key_all_effect l kh ok1 ok2 :
  (forall scope k, counter (clear_key_all l kh ok1 ok2).1 scope k = if bool_decide (scope = ScopeKey kh) then 0 else counter l scope k)
  /\ (forall ck, windows (clear_key_all l kh ok1 ok2).1 !! ck = if starts_with (kh +:+ ":") ck then None else windows l !! ck)
  /\ ((clear_key_all l kh ok1 ok2).2 <> None <-> ok1 && ok2 = true).
Proof.
  unfold clear_key_all. destruct (reset_cumulative_local l (ScopeKey kh)) as [l1 prev] eqn:E. apply reset_cumulative_spec in E as (Ew & _ & Ec).
  pose proof (clear_for_key_effect l1 kh) as [Hc Hw]. destruct (clear_for_key l1 kh) as [l2 n]. cbn [fst snd] in *. split_and!.
  - intros scope k. by rewrite (counter_windows l1 l2), Ec by done.
  - intros ck. by rewrite Hw, Ew.
  - by destruct (ok1 && ok2).
Qed.

(** A window belongs to one of the names. *)
Definition owned (names : list string) (ck : string) : bool := existsb (fun n => starts_with (n +:+ ":") ck) names.

Lemma clear_windows_of_effect khs l : cumulative (clear_windows_of khs l).1 = cumulative l
  /\ forall ck, windows (clear_windows_of khs l).1 !! ck = if owned khs ck then None else windows l !! ck.
Proof.
  unfold clear_windows_of. generalize 0. revert l. induction khs as [| kh khs IH]; intros l z; [done |]. cbn [foldl fst snd].
  pose proof (clear_for_key_effect l kh) as [Hc Hw]. destruct (clear_for_key l kh) as [l1 n]. cbn [fst] in *. destruct (IH l1 (z + n)) as [Hc1 Hw1].
  split; [congruence |]. intros ck. rewrite Hw1, Hw. unfold owned. cbn [existsb]. fold (owned khs ck). destruct (starts_with _ _); cbn; [by destruct (owned khs ck) | done].
Qed.

Lemma clear_members_effect ms l : Forall (fun x : string * (bool * bool) => x.2.1 && x.2.2 = true) ms ->
  (clear_members l ms).2 = true
  /\ (forall scope k, counter (clear_members l ms).1 scope k = if bool_decide (scope ∈ ScopeKey <$> ms.*1) then 0 else counter l scope k)
  /\ (forall ck, windows (clear_members l ms).1 !! ck = if owned ms.*1 ck then None else windows l !! ck).
Proof.
  revert l. induction ms as [| [kh [ok1 ok2]] ms IH]; intros l Hok.
  { split_and!; [done | intros; by rewrite bool_decide_eq_false_2 by (by intros ?%elem_of_nil) | done]. }
  apply Forall_cons in Hok as [Hk Hok]. cbn [clear_members]. pose proof (clear_key_all_effect l kh ok1 ok2) as (Hc & Hw & Hs).
  destruct (clear_key_all l kh ok1 ok2) as [l1 [snap |]]; cbn [fst snd] in *; [| exfalso; by apply Hs]. destruct (IH l1 Hok) as (Hb & Hc1 & Hw1). split_and!; [done | |].
  - intros scope k. rewrite Hc1, Hc. cbn [fmap list_fmap fst]. repeat case_bool_decide; try done; exfalso; set_solver.
  - intros ck. rewrite Hw1, Hw. cbn [fmap list_fmap fst]. unfold owned. cbn [existsb]. fold (owned ms.*1 ck). destruct (starts_with _ _); cbn; [by destruct (owned ms.*1 ck) | done].
Qed.

Lemma members_nodup tid t : NoDup (members tid t).
Proof.
  unfold members. apply (sublist_NoDup _ (map_to_list t).*1 (NoDup_fst_map_to_list t)). apply fmap_sublist, sublist_filter.
Qed.

Lemma imap_names {A} (f : nat -> A) (l : list string) : (imap (fun i kh => (kh, f i)) l).*1 = l.
Proof. rewrite fmap_imap. cbn. apply list_eq. intros i. rewrite list_lookup_imap. by destruct (l !! i). Qed.

(** ** Properties *)

(** *** Names in patterns *)

Fixpoint plain_text (s : string) : bool :=
  match s with
  | EmptyString => true
  | String a s' => Sse.byte_in 0 127 a && negb (Ascii.eqb a "%" || Ascii.eqb a "_" || Ascii.eqb a "092") && plain_text s'
  end.
Fixpoint ascii_text (s : string) : bool := match s with EmptyString => true | String a s' => Sse.byte_in 0 127 a && ascii_text s' end.
Fixpoint letters (s : string) : list (option string) := match s with EmptyString => [] | String a s' => char_of a :: letters s' end.

Lemma chars_letters s : ascii_text s = true -> Sse.chars s = letters s.
Proof. induction s as [| a s IH]; [done |]. cbn [ascii_text Sse.chars letters]. intros [Ha Hs]%andb_true_iff. by rewrite Ha, IH. Qed.
Lemma letters_app s s' : letters (s +:+ s') = letters s ++ letters s'.
Proof. induction s as [| a s IH]; [done |]. rewrite append_cons. cbn. by rewrite IH. Qed.
Lemma ascii_app s s' : ascii_text (s +:+ s') = ascii_text s && ascii_text s'.
Proof. induction s as [| a s IH]; [done |]. rewrite append_cons. cbn. by rewrite IH, andb_assoc. Qed.
Lemma plain_ascii s : plain_text s = true -> ascii_text s = true.
Proof. induction s as [| a s IH]; [done |]. cbn. intros [[-> _]%andb_true_iff Hs]%andb_true_iff. by apply IH. Qed.

Lemma like_plain l p s : plain_text l = true -> like (letters l ++ p) (letters l ++ s) = like p s.
Proof.
  induction l as [| a l IH]; [done |]. cbn [plain_text]. intros [[_ Ha]%andb_true_iff Hl]%andb_true_iff. cbn [letters app like].
  apply negb_true_iff in Ha. rewrite !orb_false_iff, !Ascii.eqb_neq in Ha. destruct Ha as [[H1 H2] H3]. unfold char_of in *.
  do 3 (rewrite bool_decide_eq_false_2 by congruence). rewrite bool_decide_eq_true_2 by done. by apply IH.
Qed.
Lemma like_any s : like [char_of "%"] s = true.
Proof. cbn [like]. rewrite bool_decide_eq_true_2 by done. induction s as [| x s IH]; [done |]. cbn [like orb]. apply IH. Qed.

(** A name without a backslash is matched by itself, whatever wildcards it has. *)
Fixpoint unescaped (s : string) : bool := match s with EmptyString => true | String a s' => Sse.byte_in 0 127 a && negb (Ascii.eqb a "092") && unescaped s' end.
Lemma unescaped_ascii s : unescaped s = true -> ascii_text s = true.
Proof. induction s as [| a s IH]; [done |]. cbn. intros [[-> _]%andb_true_iff Hs]%andb_true_iff. by apply IH. Qed.
Lemma unescaped_app s s' : unescaped (s +:+ s') = unescaped s && unescaped s'.
Proof. induction s as [| a s IH]; [done |]. rewrite append_cons. cbn. by rewrite IH, andb_assoc. Qed.
Lemma any_here p s : like p s = true -> like (char_of "%" :: p) s = true.
Proof. intros Hp. cbn [like]. rewrite bool_decide_eq_true_2 by done. by destruct s; rewrite Hp. Qed.
Lemma any_later p x s : like (char_of "%" :: p) s = true -> like (char_of "%" :: p) (x :: s) = true.
Proof. cbn [like]. rewrite bool_decide_eq_true_2 by done. intros ->. by rewrite orb_true_r. Qed.

Lemma like_itself l p s : unescaped l = true -> like p s = true -> like (letters l ++ p) (letters l ++ s) = true.
Proof.
  intros Hl Hp. induction l as [| a l IH]; [done |]. cbn [unescaped] in Hl. apply andb_true_iff in Hl as [[_ Ha]%andb_true_iff Hl]. specialize (IH Hl).
  apply negb_true_iff, Ascii.eqb_neq in Ha. cbn [letters app]. destruct (decide (char_of a = char_of "%")) as [-> |].
  - apply any_later, any_here, IH.
  - cbn [like]. rewrite bool_decide_eq_false_2 by done. case_bool_decide; [exact IH |]. unfold char_of in *.
    rewrite bool_decide_eq_false_2 by congruence. by rewrite bool_decide_eq_true_2.
Qed.
Lemma like_owner n rest : unescaped n = true -> ascii_text rest = true -> sql_like (n +:+ ":%") (n +:+ ":" +:+ rest) = true.
Proof.
  intros Hn Hr. pose proof (unescaped_ascii _ Hn) as Ha. unfold sql_like. rewrite !chars_letters by (rewrite ?ascii_app, ?Ha, ?Hr; done).
  rewrite !letters_app. change (letters ":%") with (letters ":" ++ [char_of "%"]). apply like_itself; [done |]. rewrite like_plain by done. apply like_any.
Qed.

(** *** The rows that are left *)

Definition cumulative_pattern (d : DeleteRows) : option string := match d with DelCumulative p => Some p | DelWindows _ => None end.
Definition state_pattern (d : DeleteRows) : option string := match d with DelCumulative _ => None | DelWindows p => Some p end.
Definition matched (patterns : list string) (ck : string) : bool := existsb (fun p => sql_like p ck) patterns.

Lemma rows_deleted {A} p (m : gmap string A) ck : deleted_rows p m !! ck = if sql_like p ck then None else m !! ck.
Proof.
  unfold deleted_rows. destruct (sql_like p ck) eqn:E; [apply map_lookup_filter_None; right; intros x _; cbn; by rewrite E |].
  destruct (m !! ck) as [x |] eqn:Ex; [by apply map_lookup_filter_Some | by apply map_lookup_filter_None; left].
Qed.
Lemma deletes_exact l oks rows : length oks = length l -> Forall (eq true) oks ->
  let rows' := run_deletes (zip l oks) rows in
  (forall ck, cumulative_rows rows' !! ck = if matched (omap cumulative_pattern l) ck then None else cumulative_rows rows !! ck)
  /\ (forall ck, state_rows rows' !! ck = if matched (omap state_pattern l) ck then None else state_rows rows !! ck).
Proof.
  cbv zeta. revert oks rows. induction l as [| d l IH]; intros [| b oks] rows; cbn [length]; try done. intros [= Hlen] [<- Hok]%Forall_cons. cbn [zip_with run_deletes].
  destruct (IH oks (run_delete d rows) Hlen Hok) as [Hc Hs]. unfold matched in *.
  split; intros ck; rewrite ?Hc, ?Hs; destruct d as [p | p]; cbn [omap list_omap run_delete cumulative_pattern state_pattern cumulative_rows state_rows existsb]; try done;
    rewrite rows_deleted; destruct (sql_like p ck); cbn; by repeat case_match.
Qed.
Lemma outcomes_ok (ok : Stmts) i n : (forall n, ok n = true) -> Forall (eq true) (outcomes ok i n) /\ length (outcomes ok i n) = n.
Proof. intros Hok. split; [| unfold outcomes; by rewrite length_fmap, length_seq]. apply Forall_forall. intros b (j & -> & _)%list_elem_of_fmap. by rewrite Hok. Qed.

(** The patterns of the reset of a team. *)
Lemma team_patterns tid ms :
  omap cumulative_pattern (team_deletes tid ++ (ms ≫= key_deletes)) = ("tc:" +:+ tid +:+ ":%") :: ((fun kh => "kc:" +:+ kh +:+ ":%") <$> ms)
  /\ omap state_pattern (team_deletes tid ++ (ms ≫= key_deletes)) = ("__team__" +:+ tid +:+ ":%") :: ((fun kh => kh +:+ ":%") <$> ms).
Proof. cbn [team_deletes app omap list_omap cumulative_pattern state_pattern]. induction ms as [| kh ms [IH1 IH2]]; [done |]. cbn in *. injection IH1 as ->. by injection IH2 as ->. Qed.
Lemma team_deletes_length tid ms : length (team_deletes tid ++ (ms ≫= key_deletes)) = (2 + 2 * length ms)%nat.
Proof. rewrite length_app. cbn [length team_deletes]. f_equal. induction ms as [| kh ms IH]; [done |]. cbn in *. rewrite IH. lia. Qed.

(** What belongs to a team: its own counter and those of its keys; its windows and theirs. *)
Definition team_scopes st (tid : string) : list QuotaScope := ScopeTeam tid :: (ScopeKey <$> members tid (key_table st)).
Definition team_owners st (tid : string) : list string := ("__team__" +:+ tid) :: members tid (key_table st).

(** Which reset of a key keeps the sum of its team.  The reset of the permanent counters
    takes what the key had from the team's counters; the reset of everything does not, so
    the team goes on counting what no member has, and its members reach its limit early. *)
Theorem reset_key_breaks_rollup (ok : Stmts) kh k tid st rows kind :
  (forall n, ok n = true) -> key_table st !! kh = Some k -> tk_team_id (kr_token k) = Some tid ->
  (forall kind, 0 <= counter (ds_limiter st) (ScopeKey kh) kind < 2 ^ 62) -> (forall kind, 0 <= counter (ds_limiter st) (ScopeTeam tid) kind < 2 ^ 62) ->
  counter (ds_limiter st) (ScopeTeam tid) kind = members_total (ds_limiter st) (members tid (key_table st)) kind ->
  let all := (quota_reset_key (Some ok) kh st rows).1.1 in let permanent := (quota_reset_key_cumulative (Some ok) kh st rows).1.1 in
  counter (ds_limiter permanent) (ScopeTeam tid) kind = members_total (ds_limiter permanent) (members tid (key_table st)) kind
  /\ counter (ds_limiter all) (ScopeTeam tid) kind = members_total (ds_limiter all) (members tid (key_table st)) kind + counter (ds_limiter st) (ScopeKey kh) kind.
Proof.
  intros Hok Hk Ht Hr Htr Hsum. assert (kh ∈ members tid (key_table st)) as Hin by (apply members_spec; eauto). pose proof (members_nodup tid (key_table st)) as Hnd. cbv zeta. split.
  - unfold quota_reset_key_cumulative, fetch_team. rewrite !Hok, Hk, Ht.
    pose proof (team_rollup (ds_limiter st) kh tid (members tid (key_table st)) true kind Hnd Hin Hr Htr Hsum) as [_ Hs]. cbv zeta in Hs.
    destruct (clear_key_cumulative_db (ds_limiter st) kh (Some tid) true) as [l [snap |]]; cbn in *; lia.
  - unfold quota_reset_key. rewrite !Hok. pose proof (clear_for_key_effect (ds_limiter st) kh) as [Hc0 _]. destruct (clear_for_key (ds_limiter st) kh) as [l0 n0]. cbn [fst] in *.
    pose proof (clear_key_all_effect l0 kh true true) as (Hc & _ & _). destruct (clear_key_all l0 kh true true) as [l1 [snap |]]; cbn [fst ds_limiter set_limiter] in *.
    all: unfold members_total in *; rewrite (zsum_update (fun h => counter (ds_limiter st) (ScopeKey h) kind) (fun h => counter l1 (ScopeKey h) kind) _ kh Hnd Hin);
      [| intros y Hy; rewrite Hc, bool_decide_eq_false_2 by congruence; by apply counter_windows].
    all: rewrite !Hc, bool_decide_eq_false_2, bool_decide_eq_true_2, (counter_windows (ds_limiter st) l0) by done; lia.
Qed.

(** The permanent counters of a key without a team cannot be reset.  The query reads its
    team as a text that is not [NULL]: the answer is an error whatever the statements do,
    and nothing changes. *)
Theorem teamless_reset_fails (ok : Stmts) kh k st rows :
  key_table st !! kh = Some k -> tk_team_id (kr_token k) = None ->
  quota_reset_key_cumulative (Some ok) kh st rows = (st, rows, fetch_failed "team lookup failed: ").
Proof. intros Hk Ht. unfold quota_reset_key_cumulative, fetch_team. rewrite Hk, Ht. by destruct (ok 0%nat). Qed.

(** *** Names with wildcards *)

(** The reset of a team whose name has an underscore deletes the rows of other teams.
    The name goes into the pattern of a [LIKE] as it is: the underscore stands for any
    character, so the permanent counters of every team with another character there are
    deleted from the table; in memory they stay, and are lost with the next start. *)
Theorem team_reset_takes_others {A} (rows : gmap string A) l c r kind :
  plain_text l = true -> plain_text r = true -> Sse.byte_in 0 127 c = true ->
  deleted_rows (team_pattern (l +:+ "_" +:+ r)) rows !! cumulative_cache_key (ScopeTeam (l +:+ String c r)) kind = None.
Proof.
  intros Hl Hr Hc. apply map_lookup_filter_None. right. intros x _ Hx. change (sql_like (team_pattern (l +:+ "_" +:+ r)) (cumulative_cache_key (ScopeTeam (l +:+ String c r)) kind) = false) in Hx.
  enough (sql_like (team_pattern (l +:+ "_" +:+ r)) (cumulative_cache_key (ScopeTeam (l +:+ String c r)) kind) = true) by congruence.
  unfold sql_like, team_pattern, cumulative_cache_key.
  assert (ascii_text (suffix kind) = true) as Hk by by destruct kind.
  rewrite !chars_letters by (rewrite !ascii_app, ?append_cons; cbn [ascii_text]; rewrite ?ascii_app, ?(plain_ascii _ Hl), ?(plain_ascii _ Hr), ?Hc, ?Hk; done).
  rewrite !letters_app. change (letters (String c r)) with ([char_of c] ++ letters r). change (letters "_") with [char_of "_"]. change (letters ":%") with (letters ":" ++ [char_of "%"]).
  rewrite <- !app_assoc.
  rewrite (like_plain "tc:"), (like_plain l) by done. cbn [app like]. rewrite (bool_decide_eq_false_2 (char_of "_" = char_of "%")), (bool_decide_eq_true_2 (char_of "_" = char_of "_")) by done.
  rewrite (like_plain r) by done. rewrite (like_plain ":" [char_of "%"]) by done. apply like_any.
Qed.
(** What the reset of a team leaves in memory. *)
Lemma team_reset_memory (ok : Stmts) tid st : let ms := members tid (key_table st) in let l0 := (clear_windows_of ms (ds_limiter st)).1 in
  ((forall n, ok n = true) -> exists l', reset_team_all l0 tid (ok 1%nat) (ok 2%nat) (imap (fun i kh => (kh, (ok (3 + 2 * i)%nat, ok (4 + 2 * i)%nat))) ms) = (l', true)
     /\ (forall scope k, counter l' scope k = if bool_decide (scope ∈ team_scopes st tid) then 0 else counter (ds_limiter st) scope k)
     /\ (forall ck, windows l' !! ck = if owned (team_owners st tid) ck then None else windows (ds_limiter st) !! ck))
  /\ (ok 1%nat = false -> reset_team_all l0 tid (ok 1%nat) (ok 2%nat) (imap (fun i kh => (kh, (ok (3 + 2 * i)%nat, ok (4 + 2 * i)%nat))) ms) = (l0, false)
     /\ (forall scope k, counter l0 scope k = counter (ds_limiter st) scope k)
     /\ (forall ck, windows l0 !! ck = if owned ms ck then None else windows (ds_limiter st) !! ck)).
Proof.
  cbv zeta. unfold team_scopes, team_owners. set (ms := members tid (key_table st)). pose proof (clear_windows_of_effect ms (ds_limiter st)) as [Hc0 Hw0].
  destruct (clear_windows_of ms (ds_limiter st)) as [l0 cleared]. cbn [fst] in *. split.
  - intros Hok. rewrite !Hok. unfold reset_team_all. cbn [andb]. destruct (reset_cumulative_local l0 (ScopeTeam tid)) as [l1 prev] eqn:E1. apply reset_cumulative_spec in E1 as (Ew1 & _ & Ec1).
    pose proof (clear_for_key_effect l1 ("__team__" +:+ tid)) as [Hc2 Hw2]. destruct (clear_for_key l1 _) as [l2 n2]. cbn [fst] in *.
    set (flags := imap _ ms). assert (flags.*1 = ms) as Hn by apply (imap_names (fun i => (ok (3 + 2 * i)%nat, ok (4 + 2 * i)%nat))).
    pose proof (clear_members_effect flags l2) as Hm. rewrite Hn in Hm.
    destruct Hm as (Hb & Hc3 & Hw3). { apply Forall_forall. intros x (i & kh & -> & _)%elem_of_lookup_imap. cbn. by rewrite !Hok. }
    destruct (clear_members l2 flags) as [l3 b]. cbn [fst snd] in *. subst b. exists l3. split; [reflexivity |]. split.
    + intros scope k. rewrite Hc3, (counter_windows l1 l2), Ec1, (counter_windows (ds_limiter st) l0) by done. repeat case_bool_decide; try done; exfalso; set_solver.
    + intros ck. rewrite Hw3, Hw2, Ew1, Hw0. change (owned (("__team__" +:+ tid) :: ms) ck) with (starts_with (("__team__" +:+ tid) +:+ ":") ck || owned ms ck).
      destruct (owned ms ck), (starts_with (("__team__" +:+ tid) +:+ ":") ck); done.
  - intros H1. rewrite H1. split; [done |]. split; [| done]. intros scope k. by apply counter_windows.
Qed.


(** What the statements of a reset of a team match: the name of the team and those of its
    keys, as patterns. *)
Definition team_matches st (tid ck : string) : bool := matched (("tc:" +:+ tid +:+ ":%") :: ((fun kh => "kc:" +:+ kh +:+ ":%") <$> members tid (key_table st))) ck.
Definition window_matches st (tid ck : string) : bool := matched (("__team__" +:+ tid +:+ ":%") :: ((fun kh => kh +:+ ":%") <$> members tid (key_table st))) ck.

Lemma owned_matches st tid scope kind :
  unescaped tid = true -> Forall (fun kh => unescaped kh = true) (members tid (key_table st)) -> scope ∈ team_scopes st tid -> team_matches st tid (cumulative_cache_key scope kind) = true.
Proof.
  intros Ht Hms Hin. unfold team_matches, matched. apply existsb_exists. unfold team_scopes in Hin. apply elem_of_cons in Hin as [-> | (kh & -> & Hin)%list_elem_of_fmap].
  - eexists. split; [by left |]. pose proof (like_owner ("tc:" +:+ tid) (suffix kind)) as Hl. rewrite !append_assoc in Hl. apply Hl; [by rewrite unescaped_app, Ht | by destruct kind].
  - exists ("kc:" +:+ kh +:+ ":%"). split; [right; apply list_elem_of_In, list_elem_of_fmap; by exists kh |].
    rewrite Forall_forall in Hms. pose proof (like_owner ("kc:" +:+ kh) (suffix kind)) as Hl. rewrite !append_assoc in Hl. apply Hl; [by rewrite unescaped_app, (Hms kh Hin) | by destruct kind].
Qed.
Lemma owned_window_matches st tid n rest :
  unescaped tid = true -> Forall (fun kh => unescaped kh = true) (members tid (key_table st)) -> ascii_text rest = true -> n ∈ team_owners st tid -> window_matches st tid (n +:+ ":" +:+ rest) = true.
Proof.
  intros Ht Hms Hr Hin. unfold window_matches, matched. apply existsb_exists. unfold team_owners in Hin. apply elem_of_cons in Hin as [-> | Hin].
  - eexists. split; [by left |]. pose proof (like_owner ("__team__" +:+ tid) rest) as Hl. rewrite !append_assoc in Hl |- *. apply Hl; [by rewrite unescaped_app, Ht | done].
  - exists (n +:+ ":%"). split; [right; apply list_elem_of_In, list_elem_of_fmap; by exists n |]. rewrite Forall_forall in Hms. by apply like_owner; [apply Hms |].
Qed.

(** C28: the reset of a team.  When the statements succeed: in memory the counters of the
    team and of all its keys are zero, the windows under their names are gone, and the
    others are as they were; and of the tables exactly the rows are gone whose names match
    the names of the team and of its keys as patterns.  These are all rows of the team and
    of its keys, unless a name has a backslash (or is not ASCII: not shown); they may be
    rows of others too, where a name has a wildcard.
    When the first deletion fails, the answer is an error and the rows and the counters
    are as they were, but the windows of the keys are gone from the memory. *)
Theorem team_reset_exact (ok : Stmts) tid st rows :
  ((forall n, ok n = true) ->
     exists l' rows' v, quota_reset_team (Some ok) tid st rows = (set_limiter st l', rows', mkAnswer (RJson 200 v) true)
     /\ (forall scope k, counter l' scope k = if bool_decide (scope ∈ team_scopes st tid) then 0 else counter (ds_limiter st) scope k)
     /\ (forall ck, windows l' !! ck = if owned (team_owners st tid) ck then None else windows (ds_limiter st) !! ck)
     /\ (forall ck, cumulative_rows rows' !! ck = if team_matches st tid ck then None else cumulative_rows rows !! ck)
     /\ (forall ck, state_rows rows' !! ck = if window_matches st tid ck then None else state_rows rows !! ck)
     /\ (unescaped tid = true -> Forall (fun kh => unescaped kh = true) (members tid (key_table st)) ->
         (forall scope kind, scope ∈ team_scopes st tid -> cumulative_rows rows' !! cumulative_cache_key scope kind = None)
         /\ (forall n rest, n ∈ team_owners st tid -> ascii_text rest = true -> state_rows rows' !! (n +:+ ":" +:+ rest) = None)))
  /\ (ok 0%nat = true -> ok 1%nat = false ->
     exists l', quota_reset_team (Some ok) tid st rows = (set_limiter st l', rows, reset_failed)
     /\ (forall scope k, counter l' scope k = counter (ds_limiter st) scope k)
     /\ (forall ck, windows l' !! ck = if owned (members tid (key_table st)) ck then None else windows (ds_limiter st) !! ck)).
Proof.
  unfold quota_reset_team. pose proof (team_reset_memory ok tid st) as [Hmem Hfail]. pose proof (team_deletes_length tid (members tid (key_table st))) as Hlen. split.
  - intros Hok. rewrite Hok. cbn [negb]. destruct (clear_windows_of _ _) as [l0 cleared]. cbn [fst] in *. destruct (Hmem Hok) as (l' & Hl & Hc & Hw). rewrite Hl.
    destruct (outcomes_ok ok 1 (2 + 2 * length (members tid (key_table st))) Hok) as [Ho Hol].
    pose proof (deletes_exact (team_deletes tid ++ (members tid (key_table st) ≫= key_deletes)) (outcomes ok 1 _) rows (eq_trans Hol (eq_sym Hlen)) Ho) as [Hcr Hsr].
    destruct (team_patterns tid (members tid (key_table st))) as [E1 E2]. rewrite E1 in Hcr. rewrite E2 in Hsr.
    eexists l', _, _. split; [reflexivity |]. split; [exact Hc |]. split; [exact Hw |]. split; [exact Hcr |]. split; [exact Hsr |]. intros Ht Hms. split.
    + intros scope kind Hin. rewrite Hcr. fold (team_matches st tid (cumulative_cache_key scope kind)). by rewrite owned_matches.
    + intros n rest Hin Hr. rewrite Hsr. fold (window_matches st tid (n +:+ ":" +:+ rest)). by rewrite owned_window_matches.
  - intros H0 H1. rewrite H0. cbn [negb]. destruct (clear_windows_of _ _) as [l0 cleared]. cbn [fst] in *. destruct (Hfail H1) as (Hl & Hc & Hw). rewrite Hl. exists l0.
    split; [| done]. f_equal. f_equal. cbn [team_deletes app outcomes seq fmap list_fmap plus Nat.add zip_with run_deletes]. by rewrite H1.
Qed.
End quota.

(** ** Examples *)

#[local] Existing Instance whole_decimal.

(** The key of the team has used seven tokens, and the team has counted them. *)
Definition used_dash : Dash (D := Z) :=
  set_limiter demo_dash (mkSlidingWindowLimiter ∅ {[cumulative_cache_key (ScopeKey "#sk-1") TotalInputTokens := 7; cumulative_cache_key (ScopeTeam "t") TotalInputTokens := 7]} ∅ ∅).

Lemma used_counters scope kind : 0 <= counter (ds_limiter used_dash) scope kind < 2 ^ 62.
Proof.
  unfold counter, used_dash. cbn [ds_limiter set_limiter cumulative]. rewrite lookup_insert. case_decide; [cbn; lia |].
  match goal with |- context [?m !! _] => destruct (m !! cumulative_cache_key scope kind) as [z |] eqn:E end; [apply lookup_singleton_Some in E as [_ <-] |]; cbn; lia.
Qed.

Lemma reset_key_breaks_rollup_witness :
  counter (ds_limiter (quota_reset_key (fun z => show z) "" (Some all_succeed) "#sk-1" used_dash no_rows).1.1) (ScopeTeam "t") TotalInputTokens = 7.
Proof.
  pose proof (reset_key_breaks_rollup (fun z : Z => show z) "" all_succeed "#sk-1" (demo_row "alice") "t" used_dash no_rows TotalInputTokens
    (fun _ => eq_refl) eq_refl eq_refl (used_counters _) (used_counters _)) as H. cbv zeta in H.
  destruct H as [_ E]; [vm_compute; reflexivity |]. rewrite E. vm_compute. reflexivity.
Defined.

Definition teamless_dash : Dash (D := Z) :=
  set_table demo_dash {["#sk-2" := mkKey (mkToken "#sk-2" None None (f64_of 0) None [] None None None None None None None) None None None]}.

Lemma teamless_reset_fails_witness : (quota_reset_key_cumulative (fun z : Z => show z) "null" (Some all_succeed) "#sk-2" teamless_dash no_rows).1 = (teamless_dash, no_rows).
Proof. rewrite (teamless_reset_fails (fun z : Z => show z) "null" all_succeed "#sk-2" _ teamless_dash no_rows eq_refl eq_refl). reflexivity. Defined.

Lemma team_reset_takes_others_witness :
  deleted_rows (team_pattern "a_b") {[cumulative_cache_key (ScopeTeam "a-b") TotalCost := 5]} !! cumulative_cache_key (ScopeTeam "a-b") TotalCost = None.
Proof. exact (team_reset_takes_others {[cumulative_cache_key (ScopeTeam "a-b") TotalCost := 5]} "a" "-" "b" TotalCost eq_refl eq_refl eq_refl). Defined.

(** The team of the demonstration, reset: its rows are gone, and the row of a team whose
    name only has the same letters stays. *)
Definition used_rows : CounterRows :=
  mkCounterRows {[cumulative_cache_key (ScopeTeam "t") TotalInputTokens := 7; cumulative_cache_key (ScopeTeam "tt") TotalInputTokens := 5]} ∅.

Lemma team_reset_exact_witness :
  exists l' rows' v, quota_reset_team "" (Some all_succeed) "t" used_dash used_rows = (set_limiter used_dash l', rows', mkAnswer (RJson 200 v) true)
    /\ counter l' (ScopeKey "#sk-1") TotalInputTokens = 0 /\ cumulative_rows rows' !! cumulative_cache_key (ScopeTeam "t") TotalInputTokens = None
    /\ cumulative_rows rows' !! cumulative_cache_key (ScopeTeam "tt") TotalInputTokens = Some 5.
Proof.
  destruct (proj1 (team_reset_exact "" all_succeed "t" used_dash used_rows) (fun _ => eq_refl)) as (l' & rows' & v & E & Hc & _ & Hr & _ & Ho). exists l', rows', v. split; [exact E |]. split.
  - rewrite Hc, bool_decide_eq_true_2; [reflexivity | vm_compute; by right; left].
  - split; [| rewrite Hr; vm_compute; reflexivity]. apply Ho; [reflexivity | vm_compute; by repeat constructor | vm_compute; by left].
Defined.
End DashQuota.
