(* ===== verification/DashUsage.v ===== *)
(** * DashUsage: the pages that show what a key has used (boom-dashboard)

    Models, of [boom-dashboard/src/handlers_user.rs], the plan, the usage and the running
    requests that a user sees, and of [handlers_admin.rs] the windows and the usage of a key
    that the administrator sees.  They read the state that the admission of requests works
    on, so the theorems compare what is shown with what is admitted.  Where a page adds up
    the windows of a hash map, the time that is shown as left is that of the first of them,
    in the order of the map. *)

From S2P Require Import Prelude Core Text Float64 Json FlowControl SlidingWindow PlanStore PlanTable PlanCharge.

Module DashUsage.
Import Core Json SlidingWindow PlanStore PlanCharge.

(** ** The windows of a key, by their length *)

(** [saturating_add] into the entry of a length; [again] is what a further window does to
    the rest of the entry. *)
Definition tally {A R} (secs count : A -> Z) (rest : A -> R) (again : R -> A -> R) (l : list A) : gmap Z (Z * R) :=
  foldl (fun m a =>
    <[secs a := match m !! secs a with
                | Some (c, r) => (c +sat count a, again r a)
                | None => (0 +sat count a, rest a)
                end]> m) ∅ l.

Definition counts_by_secs (l : list WindowUsage) : gmap Z (Z * Z) :=
  tally wu_window_secs wu_counts (fun w => wu_window_secs w -sat wu_elapsed_secs w) (fun r _ => r) l.

Definition of_kind (k : WindowKind) (w : WindowInfo) : bool :=
  match k, wi_kind w with WkTokens, WkTokens | WkCostMicros, WkCostMicros => true | _, _ => false end.
Definition usage_by_secs (k : WindowKind) (l : list WindowInfo) : gmap Z (Z * Z) :=
  tally wi_window_secs wi_count wi_remaining_secs (fun r w => if wi_remaining_secs w <? r then wi_remaining_secs w else r)
    (retain (of_kind k) l).

Section pages.
Context {D : Type} `{DecimalOps D}.
Implicit Types (g : Gateway D) (p : RateLimitPlan D) (ws : list (WindowLimit D)).

(** What is shown of a length: the current value and the limit of each dimension. *)
Record Card := mkCard {
  card_secs : Z;
  card_remaining : Z;
  card_counts : option (Z * Z);
  card_tokens : option (Z * Z);
  card_costs : option (Z * D);
}.

Definition find_window ws (secs : Z) : option (WindowLimit D) := snd <$> list_find (fun w => window_secs w = secs) ws.
(** The limit of counts of the window of one minute. *)
Definition plan_rpm ws : option Z := find_window ws 60 ≫= wl_counts.

(** The set of the lengths, in ascending order. *)
Definition seen_secs ws (m1 m2 m3 : gmap Z (Z * Z)) : list Z :=
  merge_sort Z.le (elements (list_to_set (secs_of ws) ∪ dom m1 ∪ dom m2 ∪ dom m3 : gset Z)).

Definition current (m : gmap Z (Z * Z)) (secs : Z) : Z := default 0 (fst <$> m !! secs).

Definition card_of ws (mc mt mm : gmap Z (Z * Z)) (secs : Z) : Card :=
  let wl := find_window ws secs in
  mkCard secs
    (default secs (option_or (option_or (snd <$> mc !! secs) (snd <$> mt !! secs)) (snd <$> mm !! secs)))
    (pair (current mc secs) <$> option_or (wl ≫= wl_counts) (if secs =? 60 then plan_rpm ws else None))
    (pair (current mt secs) <$> (wl ≫= wl_tokens))
    (pair (current mm secs) <$> (wl ≫= wl_costs)).

Definition window_cards (now : Z) (l : SlidingWindowLimiter) (kh : string) ws : list Card :=
  let mc := counts_by_secs (get_usage_for_key now l kh) in
  let mt := usage_by_secs WkTokens (peek_key_windows now l kh) in
  let mm := usage_by_secs WkCostMicros (peek_key_windows now l kh) in
  card_of ws mc mt mm <$> seen_secs ws mc mt mm.

Definition vdec (d : D) : Value := VString (dec_show d).
Definition money (micros : Z) : Value := vdec (SlidingWindow.micros_to_decimal micros).
Definition opt_value {A} (f : A -> Value) (o : option A) : Value := match o with Some x => f x | None => VNull end.

Definition card_value (c : Card) : Value :=
  let dim (x : Z * Z) := VObject [("current", vint x.1); ("limit", vint x.2)] in
  VObject [("window_secs", vint (card_secs c)); ("remaining_secs", vint (card_remaining c));
    ("dims", VObject
      (insert_some (insert_some (insert_some [] "counts" dim (card_counts c)) "tokens" dim (card_tokens c)) "costs"
         (fun x => VObject [("current_micros", vint x.1); ("current", money x.1); ("limit", vdec x.2);
                            ("limit_micros", vint (decimal_to_micros x.2))]) (card_costs c)))].

(** ** The page of a user *)

(** The plan that the pages of a user show: [get_plan] and [get_usage] resolve it as the
    admission does. *)
Definition shown_plan (s : PlanStore D) (kh : string) : option (RateLimitPlan D) := resolve_key_plan s kh.

(** A window as the compact array of the front end. *)
Definition compact_window (w : WindowLimit D) : Value :=
  VArray [opt_value vint (wl_counts w); opt_value vint (wl_tokens w); opt_value vdec (wl_costs w); vint (window_secs w)].

Section plan_page.
Context (ser_decimal : D -> Value).
Definition get_plan (now : Z) (s : PlanStore D) (kh : string) : Value :=
  match shown_plan s kh with
  | Some p =>
    let '(concurrency_limit, ws, _) := effective_limits now p in
    VObject [("plan_name", VString (name p)); ("concurrency_limit", opt_value vint concurrency_limit);
      ("rpm_limit", opt_value vint (plan_rpm ws)); ("window_limits", VArray (compact_window <$> ws));
      ("schedule", VArray (PlanTable.slot_value ser_decimal <$> schedule p))]
  | None =>
    VObject [("plan_name", VNull); ("is_explicit_no_plan", VBool (bool_decide (get_plan_name_explicit s kh = Some None)));
      ("concurrency_limit", VNull); ("rpm_limit", VNull); ("window_limits", VArray []); ("schedule", VArray [])]
  end.
End plan_page.

(** The totals of a key, beside the limits of its plan. *)
Record Totals := mkTotals { in_tokens : Z; out_tokens : Z; cost_micros : Z; token_limit : option Z; cost_limit : option D }.
Definition total_tokens (t : Totals) : Z := in_tokens t +sat out_tokens t.

Record UsagePage := mkUsagePage {
  up_plan : option string;
  up_concurrency : Z;
  up_concurrency_limit : option Z;
  up_cards : list Card;
  up_totals : Totals;
}.

Definition totals_of (l : SlidingWindowLimiter) (kh : string) (plan : option (RateLimitPlan D)) : Totals :=
  mkTotals (peek_cumulative l (ScopeKey kh) TotalInputTokens) (peek_cumulative l (ScopeKey kh) TotalOutputTokens)
    (peek_cumulative l (ScopeKey kh) TotalCost) (plan ≫= total_token_limit) (plan ≫= total_cost_limit).

(** The plan, its windows and the counters of the key. *)
Definition page_of (now : Z) g (kh : string) (plan : option (RateLimitPlan D)) : UsagePage :=
  let '(conc, ws, _) := match plan with Some p => effective_limits now p | None => (None, [], []) end in
  mkUsagePage (name <$> plan) (get_concurrency (key_counters g) kh) conc (window_cards now (limiter g) kh ws) (totals_of (limiter g) kh plan).

Definition usage_page (now : Z) g (kh : string) : UsagePage := page_of now g kh (shown_plan (plan_store g) kh).

Definition totals_fields (t : Totals) : Object :=
  [("total_input_tokens", vint (in_tokens t)); ("total_output_tokens", vint (out_tokens t)); ("total_tokens", vint (total_tokens t));
   ("total_cost_micros", vint (cost_micros t)); ("total_cost", money (cost_micros t))].
Definition limits_fields (t : Totals) : Object :=
  [("total_token_limit", opt_value vint (token_limit t)); ("total_cost_limit", opt_value vdec (cost_limit t))].
(** The parts of the cost. *)
Definition parts_fields (l : SlidingWindowLimiter) (kh : string) : Object :=
  let part f k := let m := peek_cumulative l (ScopeKey kh) k in [(f +:+ "_micros", vint m); (f, money m)] in
  part "regular_input_cost" TotalRegularInputCost ++ part "cached_input_cost" TotalCachedInputCost ++ part "output_cost" TotalOutputCost.

Definition get_usage (now : Z) g (kh : string) : Value :=
  let u := usage_page now g kh in
  VObject [("plan_name", opt_value VString (up_plan u)); ("concurrency", vint (up_concurrency u));
    ("concurrency_limit", opt_value vint (up_concurrency_limit u)); ("windows", VArray (card_value <$> up_cards u));
    ("cumulative", VObject (totals_fields (up_totals u) ++ parts_fields (limiter g) kh ++ limits_fields (up_totals u)))].

(** ** The pages of the administrator *)

(** The plan as the pages of the administrator resolve it. *)
Definition listed_plan (s : PlanStore D) (kh : string) : option (RateLimitPlan D) := option_or (resolve_plan s kh) (get_default_plan s).

Definition quota_key_windows (now : Z) g (kh : string) : Value :=
  let u := page_of now g kh (listed_plan (plan_store g) kh) in
  VObject [("key_hash", VString kh); ("windows", VArray (card_value <$> up_cards u));
    ("cumulative", VObject (totals_fields (up_totals u) ++ limits_fields (up_totals u)))].

Definition get_key_usage (now : Z) g (kh : string) : Value :=
  VObject [("key_hash", VString kh); ("concurrency", vint (get_concurrency (key_counters g) kh));
    ("windows", VArray ((fun w => VObject [("cache_key", VString (wu_cache_key w)); ("count", vint (wu_counts w));
                                           ("window_secs", vint (wu_window_secs w)); ("elapsed_secs", vint (wu_elapsed_secs w))])
                        <$> get_usage_for_key now (limiter g) kh))].
End pages.
#[global] Arguments Card : clear implicits.
#[global] Arguments UsagePage : clear implicits.
#[global] Arguments Totals : clear implicits.

(** ** The running requests of a user *)

(** [Duration::as_secs_f64] of a duration in nanoseconds. *)
Definition as_secs_f64 (nanos : Z) : f64 :=
  f64_add (f64_of (nanos / 10 ^ 9)) (f64_div (f64_of (nanos mod 10 ^ 9)) (f64_of (10 ^ 9))).
(** [f64::round]: half away from zero. *)
Definition f64_round (x : f64) : f64 :=
  match x with
  | S754_finite s m e =>
    if 0 <=? e then x
    else let d := 2 ^ (- e) in
         let q := (2 * Zpos m + d) / (2 * d) in
         binary_normalize 53 1024 (if s then - q else q) 0 s
  | _ => x
  end.
Definition tenths (nanos : Z) : f64 := f64_div (f64_round (f64_mul (as_secs_f64 nanos) (f64_of 10))) (f64_of 10).

Definition status_value (s : FlowControl.UserRequestStatus) : Value :=
  let vtenths d := VNumber (NFloat (tenths d)) in
  let word := match FlowControl.status s with FlowControl.WaitingStage _ => "waiting" | FlowControl.Processing _ _ => "processing" end in
  VObject ([("model", VString (FlowControl.us_model s)); ("status", VString word); ("wait_time_secs", vtenths (FlowControl.wait_time s));
            ("is_vip", VBool (FlowControl.us_is_vip s))]
    ++ match FlowControl.status s with
       | FlowControl.WaitingStage ahead => [("ahead", vint ahead)]
       | FlowControl.Processing n d => [("processing_secs", vtenths d); ("parallel_count", vint n)]
       end).

(** The look-up also drops the references that are stale. *)
Definition get_request_status (now : Z) (fc : FlowControl.FlowController) (kh : string) : FlowControl.FlowController * Value :=
  let '(fc', l) := FlowControl.get_key_request_status now fc kh in
  (fc', VObject [("requests", VArray (status_value <$> l))]).

(** ** Lemmas: sums over the windows *)

Lemma sat_add_min x y : 0 <= x -> 0 <= y -> Z.min u64_max x +sat y = Z.min u64_max (x + y).
Proof. unfold sat_add, u64_max. lia. Qed.

Definition at_secs {A} (secs count : A -> Z) (s : Z) (a : A) : Z := if secs a =? s then count a else 0.

Lemma tally_current {A} (secs count rest : A -> Z) again (l : list A) s :
  (forall a, a ∈ l -> 0 <= count a) ->
  current (tally secs count rest again l) s = Z.min u64_max (zsum (at_secs secs count s) l).
Proof.
  unfold tally, current. induction l as [| a l IH] using rev_ind; intros Hc; [done |].
  assert (0 <= count a) as Ha by (apply Hc; set_solver).
  assert (forall b, b ∈ l -> 0 <= count b) as Hl by (intros; apply Hc; set_solver). specialize (IH Hl).
  assert (0 <= zsum (at_secs secs count s) l) as Hz.
  { apply zsum_nonneg. intros b Hb. unfold at_secs. case_match; [auto | lia]. }
  rewrite foldl_app, zsum_app, zsum_cons. change (zsum (at_secs secs count s) []) with 0.
  change (at_secs secs count s a) with (if secs a =? s then count a else 0). cbn. set (m := foldl _ ∅ l) in *.
  destruct (Z.eqb_spec (secs a) s) as [-> | Hne].
  - rewrite lookup_insert_eq. cbn. destruct (m !! s) as [[c r] |]; cbn in IH |- *.
    + rewrite IH, sat_add_min by done. f_equal. lia.
    + unfold sat_add, u64_max in *. lia.
  - rewrite lookup_insert_ne by done. rewrite IH. f_equal. lia.
Qed.

(** A sum over a map in which only one key counts. *)
Lemma zsum_at_key {A} (f : string * A -> Z) (m : gmap string A) k :
  (forall k' x, m !! k' = Some x -> k' <> k -> f (k', x) = 0) ->
  zsum f (map_to_list m) = from_option (fun x => f (k, x)) 0 (m !! k).
Proof.
  intros Ho.
  assert (forall m', (forall k' x, m' !! k' = Some x -> f (k', x) = 0) -> zsum f (map_to_list m') = 0) as Hz.
  { intros m' H0. rewrite (zsum_ext f (fun _ => 0)); [by induction (map_to_list m') |].
    intros [k' x] Hx%elem_of_map_to_list. by apply H0. }
  destruct (m !! k) as [x |] eqn:E; cbn.
  - rewrite <- (zsum_perm _ _ _ (map_to_list_delete m k x E)), zsum_cons, Hz; [lia |].
    intros k' y [Hne Hy]%lookup_delete_Some. by apply Ho.
  - apply Hz. intros k' y Hy. apply Ho; [done |]. intros ->. congruence.
Qed.

(** ** Lemmas: what a page shows of a window *)

Definition entry_counts (kh : string) (secs : Z) (kv : string * WindowCounter) : Z :=
  if starts_with (kh +:+ ":") kv.1 then (if wc_window_secs kv.2 =? secs then counts kv.2 else 0) else 0.
Definition entry_usage (now : Z) (kh : string) (k : WindowKind) (secs : Z) (kv : string * WindowCounter) : Z :=
  zsum (at_secs wi_window_secs wi_count secs) (retain (of_kind k) (scan_entry now (kh +:+ ":") kv.1 kv.2)).
Definition amount (k : WindowKind) (c : WindowCounter) : Z := match k with WkTokens => tokens c | WkCostMicros => costs_micros c end.

(** Every counter is a [u64] and knows its length; the totals are [i64]. *)
Record limiter_ok (l : SlidingWindowLimiter) : Prop := {
  ok_windows : forall ck c, windows l !! ck = Some c ->
    is_u64 (counts c) /\ is_u64 (tokens c) /\ is_u64 (costs_micros c) /\ is_u64 (wc_window_secs c)
    /\ exists key, ck = cache_key key (wc_window_secs c);
  ok_cumulative : forall ck v, cumulative l !! ck = Some v -> is_i64 v;
}.

Lemma cache_key_len key key' s s' : is_u64 s -> is_u64 s' -> cache_key key s = cache_key key' s' -> s = s'.
Proof.
  unfold is_u64. rewrite !cache_key_alt. intros ? ? [_ E]%app_rsplit_inj; [apply show_inj; lia || done | apply show_no_colon | apply show_no_colon].
Qed.

Lemma ok_plan_window l kh secs c :
  limiter_ok l -> is_u64 secs -> windows l !! cache_key (plan_key kh) secs = Some c -> wc_window_secs c = secs.
Proof. intros Hok Hs Hl. destruct (ok_windows l Hok _ _ Hl) as (_ & _ & _ & Hu & key & E). by apply cache_key_len in E. Qed.

Lemma listed_counts now l kh secs :
  limiter_ok l -> current (counts_by_secs (get_usage_for_key now l kh)) secs = Z.min u64_max (zsum (entry_counts kh secs) (map_to_list (windows l))).
Proof.
  intros Hok. unfold counts_by_secs, get_usage_for_key. rewrite tally_current.
  - rewrite zsum_fmap, zsum_retain. f_equal. apply zsum_ext. intros [ck c] _. done.
  - intros w ([ck c] & -> & [_ Hc%elem_of_map_to_list]%elem_of_retain)%list_elem_of_fmap. cbn. by apply (ok_windows l Hok ck c).
Qed.

Lemma scan_nonneg now prefix ck c w : w ∈ scan_entry now prefix ck c -> 0 <= wi_count w.
Proof.
  unfold scan_entry. repeat case_match; bool_simpl; rewrite ?elem_of_app, ?list_elem_of_singleton, ?elem_of_nil;
    intros; destruct_or?; simplify_eq/=; lia.
Qed.
Lemma entry_usage_nonneg now kh k secs kv : 0 <= entry_usage now kh k secs kv.
Proof.
  apply zsum_nonneg. intros w [_ Hw]%elem_of_retain. unfold at_secs. case_match; [by eapply scan_nonneg | lia].
Qed.
Lemma listed_usage now l kh k secs :
  current (usage_by_secs k (peek_key_windows now l kh)) secs = Z.min u64_max (zsum (entry_usage now kh k secs) (map_to_list (windows l))).
Proof.
  unfold usage_by_secs. rewrite tally_current.
  - unfold peek_key_windows, scan_windows. by rewrite retain_bind, zsum_bind.
  - intros w [_ ([ck c] & Hw & _)%list_elem_of_bind]%elem_of_retain. by eapply scan_nonneg.
Qed.

Lemma plan_starts kh secs : starts_with (kh +:+ ":") (cache_key (plan_key kh) secs) = true.
Proof. apply starts_with_spec. exists ("__plan__" +:+ ":" +:+ show secs). unfold cache_key. by rewrite append_assoc. Qed.

Lemma plan_entry_usage now kh k s secs c :
  is_u64 s -> 0 <= tokens c -> 0 <= costs_micros c ->
  entry_usage now kh k secs (cache_key (plan_key kh) s, c) = if expired now c then 0 else if s =? secs then amount k c else 0.
Proof.
  intros Hs Ht Hm. unfold entry_usage, scan_entry, cache_key. cbn [fst snd].
  rewrite <- (append_assoc (key_hash (plan_key kh)) ":"). change (key_hash (plan_key kh)) with kh. rewrite strip_prefix_app.
  destruct (expired now c); [done |]. rewrite append_cons, append_nil, rsplit_once_app by apply show_no_colon. rewrite parse_show by done.
  rewrite retain_app, zsum_app. destruct k; cbn [amount];
    destruct (Z.ltb_spec 0 (tokens c)); destruct (Z.ltb_spec 0 (costs_micros c)); rewrite ?retain_cons; cbn [of_kind wi_kind];
    change (retain (of_kind WkTokens) []) with (@nil WindowInfo); change (retain (of_kind WkCostMicros) []) with (@nil WindowInfo);
    rewrite ?zsum_cons; unfold zsum, at_secs; cbn; destruct (s =? secs); lia.
Qed.

(** *** The limiter stays well formed *)

Lemma limiter_ok_new : limiter_ok new_limiter.
Proof. by split. Qed.

Definition counter_ok (ck : string) (c : WindowCounter) : Prop :=
  is_u64 (counts c) /\ is_u64 (tokens c) /\ is_u64 (costs_micros c) /\ is_u64 (wc_window_secs c)
  /\ exists key, ck = cache_key key (wc_window_secs c).

Lemma limiter_ok_insert l ck c : limiter_ok l -> counter_ok ck c -> limiter_ok (mark_dirty_window (set_windows l (<[ck := c]> (windows l))) ck).
Proof.
  intros Hok Hc. split; [| apply (ok_cumulative l Hok)]. intros ck' c'. cbn. intros [(<- & <-) | (_ & Hl)]%lookup_insert_Some; [done |].
  by apply (ok_windows l Hok).
Qed.

Lemma bump_counts_ok l key secs weight now t :
  limiter_ok l -> is_u64 secs -> is_u64 weight -> limiter_ok (bump_counts l (cache_key key secs) secs weight now t).
Proof.
  intros Hok Hs Hw. apply limiter_ok_insert; [done |]. assert (is_u64 0) as H0 by done.
  destruct (windows l !! _) as [c |] eqn:E; [| by split_and!; eauto].
  apply (ok_windows l Hok) in E as (Hc & Ht & Hm & Hu & Hk). destruct (expired t c); [by split_and! |].
  split_and!; [apply wrap64_u64 | done..].
Qed.
Lemma bump_usage_ok l key secs toks costs now t :
  limiter_ok l -> is_u64 secs -> is_u64 toks -> is_u64 costs -> limiter_ok (bump_tokens_and_cost l (cache_key key secs) secs toks costs now t).
Proof.
  intros Hok Hs Hw Hco. unfold bump_tokens_and_cost. destruct (_ && _); [done |]. apply limiter_ok_insert; [done |]. assert (is_u64 0) as H0 by done.
  destruct (windows l !! _) as [c |] eqn:E; [| by split_and!; eauto].
  apply (ok_windows l Hok) in E as (Hc & Ht & Hm & Hu & Hk). destruct (expired t c); [by split_and! |].
  split_and!; [done | apply wrap64_u64 | apply wrap64_u64 | done..].
Qed.
Lemma foldl_ok (f : SlidingWindowLimiter -> Z -> SlidingWindowLimiter) (secs : list Z) :
  (forall l s, limiter_ok l -> is_u64 s -> limiter_ok (f l s)) -> (forall s, s ∈ secs -> is_u64 s) ->
  forall l, limiter_ok l -> limiter_ok (foldl f l secs).
Proof. intros Hf. induction secs as [| s secs IH]; intros Hs l Hl; [done |]. cbn. apply IH; [set_solver |]. apply Hf; [done | set_solver]. Qed.
Lemma add_cumulative_ok l scope k d : limiter_ok l -> limiter_ok (add_cumulative l scope k d).
Proof.
  intros Hok. unfold add_cumulative. destruct (d =? 0); [done |]. split; [apply (ok_windows l Hok) |].
  intros ck v. cbn. intros [(_ & <-) | (_ & Hl)]%lookup_insert_Some; [apply as_i64_range | by apply (ok_cumulative l Hok) in Hl].
Qed.

(** A commit and a settlement keep the limiter well formed. *)
Theorem limiter_stays_ok {D} `{DecimalOps D} now t l key scope (ws : list (WindowLimit D)) weight a b c d e :
  limiter_ok l -> (forall w, w ∈ ws -> is_u64 (window_secs w)) -> is_u64 weight -> 0 <= a -> 0 <= b -> 0 <= c -> 0 <= d -> 0 <= e ->
  limiter_ok (commit_counts now t l key ws weight).1 /\ limiter_ok (settle_usage now t l key scope ws a b c d e).
Proof.
  intros Hok Hs Hw Ha Hb Hc Hd He. split.
  - unfold commit_counts. cbn. apply foldl_ok; [intros; by apply bump_counts_ok | | done].
    intros s Hin. destruct (secs_to_commit_spec ws) as [_ Hsp]. apply Hsp in Hin as (w & Hin & <- & _). auto.
  - unfold settle_usage. do 6 apply add_cumulative_ok. apply foldl_ok; [| | done].
    + intros. apply bump_usage_ok; try done; unfold sat_add, is_u64, u64_max; lia.
    + intros s Hin. destruct (settle_secs_spec ws) as [_ Hsp]. apply Hsp in Hin as (w & Hin & <-). auto.
Qed.

(** The windows of the key are those of its plan, and run. *)
Definition only_plan_windows (now : Z) (l : SlidingWindowLimiter) (kh : string) : Prop :=
  forall ck c, windows l !! ck = Some c -> starts_with (kh +:+ ":") ck = true ->
    expired now c = false /\ exists secs, is_u64 secs /\ ck = cache_key (plan_key kh) secs.

Section shown.
Context (now : Z) (l : SlidingWindowLimiter) (kh : string) (Hok : limiter_ok l).

(** What is shown is never below what the admission counts. *)
Lemma shown_above l' secs :
  uncharged l l' -> is_u64 secs ->
  let '(a, b, m) := current_usage now l' (cache_key (plan_key kh) secs) in
  0 <= a <= current (counts_by_secs (get_usage_for_key now l kh)) secs
  /\ 0 <= b <= current (usage_by_secs WkTokens (peek_key_windows now l kh)) secs
  /\ 0 <= m <= current (usage_by_secs WkCostMicros (peek_key_windows now l kh)) secs.
Proof.
  intros [_ Hu] Hs. rewrite listed_counts by done. rewrite !listed_usage.
  assert (forall kv, kv ∈ map_to_list (windows l) -> 0 <= entry_counts kh secs kv) as Hn.
  { intros [ck c] Hc%elem_of_map_to_list. unfold entry_counts. apply (ok_windows l Hok) in Hc as ([Hc _] & _). repeat case_match; done. }
  pose proof (fun k => zsum_nonneg (entry_usage now kh k secs) (map_to_list (windows l)) (fun kv _ => entry_usage_nonneg now kh k secs kv)) as Hnu.
  pose proof (zsum_nonneg _ _ Hn) as Hz. unfold current_usage.
  destruct (windows l' !! _) as [c |] eqn:E; [| pose proof (Hnu WkTokens); pose proof (Hnu WkCostMicros); unfold u64_max; lia].
  apply Hu in E. pose proof (ok_plan_window _ _ _ _ Hok Hs E) as El.
  destruct (ok_windows l Hok _ _ E) as ([? ?] & [? ?] & [? ?] & _).
  destruct (expired now c) eqn:Ex; [pose proof (Hnu WkTokens); pose proof (Hnu WkCostMicros); unfold u64_max; lia |].
  pose proof E as Em. apply elem_of_map_to_list in Em.
  pose proof (zsum_elem _ _ _ Hn Em) as Hc. unfold entry_counts at 1 in Hc. cbn [fst snd] in Hc.
  rewrite plan_starts, El, Z.eqb_refl in Hc.
  pose proof (fun k => zsum_elem (entry_usage now kh k secs) _ _ (fun kv _ => entry_usage_nonneg now kh k secs kv) Em) as Ha.
  setoid_rewrite plan_entry_usage in Ha; [| done..]. rewrite Ex, Z.eqb_refl in Ha.
  pose proof (Ha WkTokens). pose proof (Ha WkCostMicros). unfold amount, u64_max in *. lia.
Qed.

(** Without other windows it is what the admission counts. *)
Lemma shown_exact secs :
  only_plan_windows now l kh -> is_u64 secs ->
  current_usage now l (cache_key (plan_key kh) secs)
  = (current (counts_by_secs (get_usage_for_key now l kh)) secs,
     current (usage_by_secs WkTokens (peek_key_windows now l kh)) secs,
     current (usage_by_secs WkCostMicros (peek_key_windows now l kh)) secs).
Proof.
  intros Ho Hs. rewrite listed_counts by done. rewrite !listed_usage.
  assert (forall ck c, windows l !! ck = Some c -> ck <> cache_key (plan_key kh) secs -> starts_with (kh +:+ ":") ck = true ->
    exists s, is_u64 s /\ ck = cache_key (plan_key kh) s /\ s <> secs /\ wc_window_secs c = s) as Hother.
  { intros ck c Hc Hne Hst. destruct (Ho _ _ Hc Hst) as (_ & s & Hs' & ->). exists s. split_and!; [done.. | congruence |].
    by eapply ok_plan_window. }
  assert (forall k ck c, windows l !! ck = Some c -> ck <> cache_key (plan_key kh) secs -> entry_usage now kh k secs (ck, c) = 0) as Hused.
  { intros k ck c Hc Hne. destruct (strip_prefix (kh +:+ ":") ck) as [tail |] eqn:Ep; [| unfold entry_usage, scan_entry; cbn [fst snd]; by rewrite Ep].
    apply strip_prefix_spec in Ep as Ep'. destruct (Hother _ _ Hc Hne) as (s' & Hs' & -> & Hn & _); [apply starts_with_spec; eauto |].
    destruct (ok_windows l Hok _ _ Hc) as (_ & [? ?] & [? ?] & _). rewrite plan_entry_usage by done.
    rewrite (proj2 (Z.eqb_neq _ _) Hn). by destruct (expired now c). }
  rewrite !(zsum_at_key _ _ (cache_key (plan_key kh) secs)).
  - unfold current_usage. destruct (windows l !! _) as [c |] eqn:E; [| done].
    destruct (Ho _ _ E (plan_starts kh secs)) as [Ex _]. rewrite Ex. cbn [from_option].
    pose proof (ok_plan_window _ _ _ _ Hok Hs E) as El. destruct (ok_windows l Hok _ _ E) as ([? ?] & [? ?] & [? ?] & _).
    rewrite !plan_entry_usage by done. rewrite Ex, Z.eqb_refl. unfold entry_counts. cbn [fst snd]. rewrite plan_starts, El, Z.eqb_refl.
    unfold amount, u64_max in *. repeat f_equal; lia.
  - intros ck c Hc Hne. by apply Hused.
  - intros ck c Hc Hne. by apply Hused.
  - intros ck c Hc Hne. unfold entry_counts. cbn [fst snd]. destruct (starts_with _ ck) eqn:Est; [| done].
    destruct (Hother _ _ Hc Hne Est) as (s' & _ & _ & Hn & ->). by destruct (Z.eqb_spec s' secs).
Qed.
End shown.

(** ** What a page tells *)

(** A page has room for a request of weight [weight]: nothing that it shows has reached
    its limit. *)
Definition card_room {D} `{DecimalOps D} (weight : Z) (c : Card D) : Prop :=
  (forall x, card_counts c = Some x -> x.1 + weight <= x.2)
  /\ (forall x, card_tokens c = Some x -> x.1 < x.2)
  /\ (forall x, card_costs c = Some x -> x.1 < decimal_to_micros x.2).
Definition shows_room {D} `{DecimalOps D} (weight : Z) (u : UsagePage D) : Prop :=
  (forall lim, up_concurrency_limit u = Some lim -> up_concurrency u < lim)
  /\ (forall c, c ∈ up_cards u -> card_room weight c)
  /\ (forall lim, token_limit (up_totals u) = Some lim -> total_tokens (up_totals u) < lim)
  /\ (forall lim, cost_limit (up_totals u) = Some lim -> cost_micros (up_totals u) < decimal_to_micros lim).

Section room.
Context {D : Type} `{DecimalOps D}.
Implicit Types (g : Gateway D) (p : RateLimitPlan D) (ws : list (WindowLimit D)).

Lemma find_own ws w : NoDup (secs_of ws) -> w ∈ ws -> find_window ws (window_secs w) = Some w.
Proof.
  unfold find_window, secs_of. induction ws as [| v ws IH]; intros Hnd Hw; [set_solver |]. cbn in *.
  apply NoDup_cons in Hnd as [Hv Hnd]. apply elem_of_cons in Hw as [-> | Hw].
  - rewrite decide_True by done. done.
  - rewrite decide_False; [| intros E; apply Hv; apply list_elem_of_fmap; by exists w]. specialize (IH Hnd Hw).
    by destruct (list_find _ ws) as [[i x] |].
Qed.

Lemma counts_limit ws secs :
  option_or (find_window ws secs ≫= wl_counts) (if secs =? 60 then plan_rpm ws else None) = find_window ws secs ≫= wl_counts.
Proof. unfold plan_rpm. destruct (Z.eqb_spec secs 60) as [-> |]; by destruct (_ ≫= wl_counts). Qed.

Lemma seen_limits ws mc mt mm w : w ∈ ws -> window_secs w ∈ seen_secs ws mc mt mm.
Proof.
  intros Hw. unfold seen_secs. rewrite merge_sort_Permutation. apply elem_of_elements.
  do 3 (apply elem_of_union_l). apply elem_of_list_to_set. apply list_elem_of_fmap. by exists w.
Qed.

Lemma find_some ws secs w : find_window ws secs = Some w -> w ∈ ws /\ window_secs w = secs.
Proof.
  unfold find_window. intros ([i x] & E & [= <-])%fmap_Some. apply list_find_Some in E as (E & ? & _). split; [| done].
  by eapply list_elem_of_lookup_2.
Qed.

(** A card has room exactly when what it shows fits the window of its length. *)
Lemma card_room_spec weight ws mc mt mm secs :
  card_room weight (card_of ws mc mt mm secs) <->
  forall w, find_window ws secs = Some w ->
    (forall lim, wl_counts w = Some lim -> current mc secs + weight <= lim)
    /\ (forall lim, wl_tokens w = Some lim -> current mt secs < lim)
    /\ (forall lim, wl_costs w = Some lim -> current mm secs < decimal_to_micros lim).
Proof.
  unfold card_room, card_of. cbn [card_counts card_tokens card_costs]. rewrite counts_limit.
  destruct (find_window ws secs) as [w |]; cbn; [| split; [done | intros _; split_and!; intros x [=]]].
  split.
  - intros (Ha & Hb & Hc) ? [= <-]. split_and!; intros lim E; rewrite E in *; [exact (Ha _ eq_refl) | exact (Hb _ eq_refl) | exact (Hc _ eq_refl)].
  - intros Hx. destruct (Hx _ eq_refl) as (Ha & Hb & Hc).
    split_and!; intros x (lim & E & ->)%fmap_Some; cbn; auto.
Qed.

(** The windows of the plan at this time have lengths of their own. *)
Definition distinct_windows (now : Z) p : Prop :=
  NoDup (secs_of (effective_limits now p).1.2) /\ forall w, w ∈ (effective_limits now p).1.2 -> is_u64 (window_secs w).

Lemma peek_cumulative_range l scope k : limiter_ok l -> 0 <= peek_cumulative l scope k < 2 ^ 63.
Proof.
  intros Hok. unfold peek_cumulative. destruct (cumulative l !! _) as [v |] eqn:E; [| lia].
  apply (ok_cumulative l Hok) in E. unfold is_i64 in E. lia.
Qed.

Lemma totals_room l kh p : limiter_ok l ->
  ((forall lim, token_limit (totals_of l kh (Some p)) = Some lim -> total_tokens (totals_of l kh (Some p)) < lim)
   /\ (forall lim, cost_limit (totals_of l kh (Some p)) = Some lim -> cost_micros (totals_of l kh (Some p)) < decimal_to_micros lim))
  <-> totals_below l (ScopeKey kh) p.
Proof.
  intros Hok. unfold totals_below, totals_of, total_tokens. cbn.
  pose proof (peek_cumulative_range l (ScopeKey kh) TotalInputTokens Hok) as Hi.
  pose proof (peek_cumulative_range l (ScopeKey kh) TotalOutputTokens Hok) as Ho.
  rewrite u64_add_small by lia.
  replace (_ +sat _) with (peek_cumulative l (ScopeKey kh) TotalInputTokens + peek_cumulative l (ScopeKey kh) TotalOutputTokens); [done |].
  unfold sat_add, u64_max. lia.
Qed.

Definition windows_fit now l kh weight ws : Prop := forall w, w ∈ ws -> window_fits now l (plan_key kh) weight w.

(** Cards with room: the windows fit, also once some are cleared. *)
Lemma cards_fit now l l' kh weight ws :
  limiter_ok l -> uncharged l l' -> 0 <= weight -> NoDup (secs_of ws) -> (forall w, w ∈ ws -> is_u64 (window_secs w)) ->
  (forall c, c ∈ window_cards now l kh ws -> card_room weight c) -> windows_fit now l' kh weight ws.
Proof.
  intros Hok Hu Hwt Hnd Hs Hroom w Hw.
  pose proof (shown_above now l kh Hok l' (window_secs w) Hu (Hs _ Hw)) as Hab.
  unfold window_fits. destruct (current_usage _ _ _) as [[a b] m]. destruct Hab as (Ha & Hb & Hm).
  unfold window_cards in Hroom. cbv zeta in Hroom.
  set (mc := counts_by_secs _) in *. set (mt := usage_by_secs WkTokens _) in *. set (mm := usage_by_secs WkCostMicros _) in *.
  destruct (proj1 (card_room_spec weight ws mc mt mm (window_secs w)) ltac:(apply Hroom, list_elem_of_fmap; eauto using seen_limits)
    w (find_own _ _ Hnd Hw)) as (Ec & Et & Em).
  split_and!; intros lim E.
  - specialize (Ec _ E). unfold u64_add, wrap64. pose proof (Z.mod_le (a + weight) (2 ^ 64)). lia.
  - specialize (Et _ E). lia.
  - specialize (Em _ E). lia.
Qed.

(** Windows that fit, and no others: cards with room. *)
Lemma fit_cards now l kh weight ws :
  limiter_ok l -> only_plan_windows now l kh -> 0 <= weight < 2 ^ 63 -> (forall w, w ∈ ws -> is_u64 (window_secs w)) ->
  (forall ck c, windows l !! ck = Some c -> counts c < 2 ^ 63) ->
  windows_fit now l kh weight ws -> forall c, c ∈ window_cards now l kh ws -> card_room weight c.
Proof.
  intros Hok Ho Hwt Hs Hsmall Hfit c Hc. unfold window_cards in Hc. apply list_elem_of_fmap in Hc as (secs & -> & _).
  apply card_room_spec. intros w [Hw <-]%find_some.
  pose proof (Hfit w Hw) as Hx. unfold window_fits in Hx.
  pose proof (shown_exact now l kh Hok (window_secs w) Ho (Hs _ Hw)) as Ex.
  assert (0 <= (current_usage now l (cache_key (plan_key kh) (window_secs w))).1.1 < 2 ^ 63) as Hr.
  { unfold current_usage. destruct (windows l !! _) as [x |] eqn:El; [| done]. destruct (expired now x); [done |].
    pose proof (Hsmall _ _ El). by apply (ok_windows l Hok) in El as ([? _] & _). }
  rewrite Ex in Hx, Hr. cbn [fst snd] in Hr. destruct Hx as (Ha & Hb & Hm).
  split_and!; [| done..]. intros lim E. specialize (Ha _ E). rewrite u64_add_small in Ha by lia. done.
Qed.

(** C22: A request of a key whose page shows room is admitted, unless its team refuses it: the
    page never shows less than what the admission counts, whatever else the limiter has
    under the key. *)
Theorem room_shown_admits now g kh p team_id rm rsm rpm tpm ws weight :
  limiter_ok (limiter g) -> counters_ok (key_counters g) -> counters_ok (team_counters g) -> 0 <= weight ->
  resolve_key_plan (plan_store g) kh = Some p -> distinct_windows now p ->
  shows_room weight (usage_page now g kh) -> team_admits now g (team_layer g team_id) weight ->
  exists g' c, check_plan_limits now g kh team_id rm rsm rpm tpm ws weight = (g', inr c).
Proof.
  intros Hok Hk Ht Hwt Hp [Hnd Hs] (Hconc & Hcards & Hroom) Hteam.
  unfold usage_page, shown_plan in *. rewrite Hp in *. unfold page_of in *.
  destruct (effective_limits now p) as [[conc pws] stale] eqn:El. cbn in *. apply totals_room in Hroom; [| done].
  destruct (check_plan_limits _ _ _ _ _ _ _ _ _ _) as [g' [e | c]] eqn:E; [| by eauto]. exfalso.
  pose proof (check_plan_limits_spec _ _ _ _ _ _ _ _ _ _ _ _ Hk Ht E) as [Hno _]. apply Hno. split; [done |].
  rewrite Hp. set (l' := after_team now g (team_layer g team_id)).
  assert (uncharged (limiter g) l') as Hu by (unfold l', after_team; destruct (team_layer g team_id) as [[] |]; [apply clear_stale_uncharged | by split]).
  cbn. unfold plan_admits. rewrite El. cbn. split; [done |]. split; [| by apply (totals_below_cleared (limiter g))].
  apply (cards_fit now (limiter g)); try done. unfold cleared.
  pose proof (clear_stale_uncharged l' (plan_key kh) (effective_limits now p).2) as [E2 W2]. destruct Hu as [E1 W1].
  split; [congruence | auto].
Qed.

(** When the limiter has only running windows of the plan under the key, and the plan does
    not clear its own windows, the page tells the decision: it shows room exactly when a
    request of a key without a team is admitted. *)
Theorem page_tells_admission now g kh p rm rsm rpm tpm ws weight :
  limiter_ok (limiter g) -> counters_ok (key_counters g) -> counters_ok (team_counters g) -> 0 <= weight < 2 ^ 63 ->
  resolve_key_plan (plan_store g) kh = Some p -> distinct_windows now p ->
  only_plan_windows now (limiter g) kh -> (forall ck c, windows (limiter g) !! ck = Some c -> counts c < 2 ^ 63) ->
  (effective_limits now p).2 = [] ->
  (exists g' c, check_plan_limits now g kh None rm rsm rpm tpm ws weight = (g', inr c)) <-> shows_room weight (usage_page now g kh).
Proof.
  intros Hok Hk Ht Hwt Hp [Hnd Hs] Ho Hsmall Hst.
  destruct (check_plan_limits _ _ _ _ _ _ _ _ _ _) as [g' r] eqn:E.
  pose proof (check_plan_limits_spec _ _ _ _ _ _ _ _ _ _ _ _ Hk Ht E) as Hspec. cbv zeta in Hspec. rewrite Hp in Hspec.
  assert (key_admits now (limiter g) (key_counters g) kh rm (Some p) (fold_rpm_tpm_into_60s ws rpm tpm) weight
          <-> shows_room weight (usage_page now g kh)) as Hiff.
  { unfold usage_page, shown_plan, page_of, shows_room. rewrite Hp. cbn. unfold plan_admits, cleared.
    destruct (effective_limits now p) as [[conc pws] stale]. cbn in Hnd, Hs, Hst |- *. subst stale.
    cbn [clear_stale]. rewrite (totals_room (limiter g) kh p Hok). split; intros (Ha & Hb & Hc); (split; [done |]); (split; [| done]).
    - by apply fit_cards.
    - apply (cards_fit now (limiter g)); first [done | lia | by split]. }
  change (after_team now g (team_layer g None)) with (limiter g) in Hspec. change (team_admits now g (team_layer g None) weight) with True in Hspec.
  destruct r as [e | c].
  - destruct Hspec as [Hno _]. split; [naive_solver |]. intros Hr. exfalso. apply Hno. by rewrite Hiff.
  - destruct Hspec as [[_ Ha] _]. split; [by rewrite <- Hiff | eauto].
Qed.
(** The page of a user does not tell a window that has ended from one that runs: what
    was counted in it is shown until the clean-up, or the next request, takes it away. *)
Theorem expired_still_shown now l kh secs c :
  limiter_ok l -> is_u64 secs -> windows l !! cache_key (plan_key kh) secs = Some c -> expired now c = true ->
  counts c <= current (counts_by_secs (get_usage_for_key now l kh)) secs
  /\ current_usage now l (cache_key (plan_key kh) secs) = (0, 0, 0).
Proof.
  intros Hok Hs Hc Hex. split; [| unfold current_usage; by rewrite Hc, Hex].
  pose proof Hc as Hin. apply elem_of_map_to_list in Hin. rewrite listed_counts by done.
  assert (forall kv, kv ∈ map_to_list (windows l) -> 0 <= entry_counts kh secs kv) as Hn.
  { intros [ck x] Hx%elem_of_map_to_list. unfold entry_counts. apply (ok_windows l Hok) in Hx as ([Hx _] & _). repeat case_match; done. }
  pose proof (zsum_elem _ _ _ Hn Hin) as Hle. unfold entry_counts at 1 in Hle. cbn [fst snd] in Hle.
  rewrite plan_starts, (ok_plan_window _ _ _ _ Hok Hs Hc), Z.eqb_refl in Hle.
  apply (ok_windows l Hok) in Hc as ([? Hu] & _). unfold u64_max. lia.
Qed.

(** The plan that the administrator sees of a key is the one that is in force, except for a
    key that has opted out of plans, which is shown with the default plan, and for a key
    with the plan of a team, which is shown with it. *)
Theorem listed_plan_exact (s : PlanStore D) kh :
  (get_plan_name_explicit s kh = Some None -> shown_plan s kh = None /\ listed_plan s kh = get_default_plan s)
  /\ (forall n p, get_plan_name_explicit s kh = Some (Some n) -> PlanStore.get_plan s n = Some p -> plan_type p = PlanTeam ->
       shown_plan s kh = get_default_plan s /\ listed_plan s kh = Some p)
  /\ (get_plan_name_explicit s kh <> Some None -> (forall p, resolve_plan s kh = Some p -> plan_type p <> PlanTeam) ->
       listed_plan s kh = shown_plan s kh).
Proof.
  unfold listed_plan, shown_plan, resolve_key_plan, resolve_plan, get_plan_name_explicit, PlanStore.get_plan.
  destruct (key_assignments s !! kh) as [[n |] |] eqn:E; cbn.
  - split; [done |]. destruct (plans s !! n) as [p |] eqn:Ep; cbn.
    + split; [intros n' p' [= <-] E' Ht; rewrite Ep in E'; simplify_eq; by rewrite decide_True |].
      intros _ Ht. rewrite decide_False; [done | by apply Ht].
    + split; [| done]. intros n' p' [= <-] E'. congruence.
  - by split_and!.
  - by split_and!.
Qed.
End room.

(** *** Witnesses *)

#[local] Existing Instance whole_decimal.
Definition used_limiter : SlidingWindowLimiter :=
  mkSlidingWindowLimiter {[cache_key (plan_key "k1") 60 := mkWindowCounter 1 0 0 1000 60]} ∅ ∅ ∅.
Definition used_gateway : Gateway Z := with_limiter (demo_gateway strict_plan) used_limiter.
Definition roomy_plan : RateLimitPlan Z :=
  mkRateLimitPlan "strict" PlanKey None (Some 2) None None [mkWindowLimit (Some 2) None None 60] None None [].
Definition roomy_gateway : Gateway Z := with_limiter (demo_gateway roomy_plan) used_limiter.

Lemma used_limiter_ok : limiter_ok used_limiter.
Proof.
  split; [| done]. intros ck c Hl. cbn in Hl. apply lookup_singleton_Some in Hl as [<- <-]. cbn. unfold is_u64. split_and!; try lia. by exists (plan_key "k1").
Qed.

Lemma one_window (w : WindowLimit Z) (P : WindowLimit Z -> Prop) : P w -> forall v, v ∈ [w] -> P v.
Proof. by intros Hw v ->%list_elem_of_singleton. Qed.

Lemma roomy_distinct now : distinct_windows now roomy_plan.
Proof. split; [apply NoDup_singleton | by apply one_window]. Qed.

Lemma roomy_shows : shows_room 1 (usage_page 1010 roomy_gateway "k1").
Proof.
  replace (usage_page 1010 roomy_gateway "k1")
    with (mkUsagePage (Some "strict") 0 (Some 2) [mkCard 60 50 (Some (1, 2)) None None] (mkTotals (D := Z) 0 0 0 None None)) by (vm_compute; reflexivity).
  split; [by intros lim [= <-] |]. split; [| by split]. intros c ->%list_elem_of_singleton. split_and!; [by intros x [= <-] | intros x [=] | intros x [=]].
Qed.

Lemma used_only now : now < 1060 -> only_plan_windows now used_limiter "k1".
Proof.
  intros Hn ck c Hl _. cbn in Hl. apply lookup_singleton_Some in Hl as [<- <-]. split; [| by exists 60].
  unfold expired, elapsed, sat_sub. cbn. apply Z.leb_gt. lia.
Qed.

(** The second of two requests in a minute. *)
Lemma room_shown_admits_witness :
  exists g' c, check_plan_limits 1010 roomy_gateway "k1" (Some "t") "m" "m" None None [] 1 = (g', inr c).
Proof.
  apply (room_shown_admits 1010 roomy_gateway "k1" roomy_plan (Some "t") "m" "m" None None [] 1 used_limiter_ok new_counters_ok new_counters_ok);
    [lia | reflexivity | apply roomy_distinct | exact roomy_shows | exact I].
Defined.

Lemma page_tells_admission_witness :
  (exists g' c, check_plan_limits 1010 roomy_gateway "k1" None "m" "m" None None [] 1 = (g', inr c)) <-> shows_room 1 (usage_page 1010 roomy_gateway "k1").
Proof.
  apply (page_tells_admission 1010 roomy_gateway "k1" roomy_plan "m" "m" None None [] 1 used_limiter_ok new_counters_ok new_counters_ok);
    [lia | reflexivity | apply roomy_distinct | apply used_only; lia | | reflexivity].
  intros ck c Hl. cbn in Hl. apply lookup_singleton_Some in Hl as [<- <-]. reflexivity.
Defined.

(** Forty seconds after its end the window of the strict plan is shown as full, and the next
    request is admitted. *)
Lemma expired_still_shown_witness :
  (1 <= current (counts_by_secs (get_usage_for_key 1100 used_limiter "k1")) 60
   /\ current_usage 1100 used_limiter (cache_key (plan_key "k1") 60) = (0, 0, 0))
  /\ up_cards (usage_page 1100 used_gateway "k1") = [mkCard 60 0 (Some (1, 1)) None None]
  /\ is_none (charge_of (check_plan_limits 1100 used_gateway "k1" None "m" "m" None None [] 1)) = false.
Proof.
  split; [apply (expired_still_shown 1100 used_limiter "k1" 60 (mkWindowCounter 1 0 0 1000 60) used_limiter_ok); [unfold is_u64; lia | reflexivity | reflexivity] |].
  split; vm_compute; reflexivity.
Defined.

Lemma limiter_stays_ok_witness :
  limiter_ok (commit_counts 1010 1010 used_limiter (plan_key "k1") (window_limits roomy_plan) 1).1
  /\ limiter_ok (settle_usage 1010 1010 used_limiter (plan_key "k1") (ScopeKey "k1") (window_limits roomy_plan) 1 2 3 4 5).
Proof.
  apply (limiter_stays_ok 1010 1010 used_limiter (plan_key "k1") (ScopeKey "k1") (window_limits roomy_plan) 1 1 2 3 4 5 used_limiter_ok);
    [by apply one_window | unfold is_u64; lia | lia..].
Defined.

(** A user whose key has opted out of plans; the administrator is shown the default plan. *)
Definition opted_out : PlanStore Z := assign_key_no_plan (set_default_plan (upsert_plan new_store strict_plan) (Some "strict")) "k1".
Lemma opted_out_shown : shown_plan opted_out "k1" = None /\ (name <$> listed_plan opted_out "k1") = Some "strict".
Proof.
  pose proof (proj1 (listed_plan_exact opted_out "k1") eq_refl) as [E1 E2]. split; [exact E1 |]. rewrite E2. reflexivity.
Qed.

End DashUsage.
