(* ===== verification/DashLists.v ===== *)
(** * DashLists: the listings of keys and teams (boom-dashboard)

    Models the handlers of [boom-dashboard/src/handlers_admin.rs] that list keys, assignments
    and teams: [list_keys], [list_assignments], [quota_overview] and the two pages of keys
    below it.  They read the tables of [DashKeys], the limiter, and the table of the
    cumulative counters.  A query without an order gives the rows in the order of the map;
    the dates of the rows, their text, the case folding and the collation of the database
    are parameters. *)

From S2P Require Import Prelude Core Text Float64 Json FlowControl SlidingWindow PlanStore PlanTable PlanCharge Auth DashKeys DashQuota DashUsage.

Module DashLists.
Import Core Json Auth SlidingWindow PlanCharge DashKeys DashUsage.

(** ** Pages *)

Definition default_page : Z := 1.
Definition default_per_page : Z := 50.
Definition normalize_pagination (page per_page : Z) : Z * Z := (Z.max page 1, Z.max 1 (Z.min per_page 1000)).
(** In [i64], which wraps. *)
Definition page_offset (page per_page : Z) : Z := as_i64 ((page - 1) * per_page).
(** [skip(offset as usize).take(n as usize)] *)
Definition slice {A} (offset n : Z) (l : list A) : list A := take (Z.to_nat n) (drop (Z.to_nat (wrap64 offset)) l).

(** ** Searching *)

(** [str::replace] of a character. *)
Fixpoint replace_char (c : ascii) (t s : string) : string :=
  match s with
  | EmptyString => ""
  | String a s' => (if Ascii.eqb a c then t else String a "") +:+ replace_char c t s'
  end.
Definition search_pattern (s : string) : string := "%" +:+ replace_char "_" "\_" (replace_char "%" "\%" s) +:+ "%".

(** The bytes of a [&token[..8]]; the tokens are hexadecimal. *)
Definition token_prefix (t : string) : string := String.substring 0 8 t +:+ "...".

Section lists.
Context {D : Type} `{DecimalOps D}.
Context (fold_case : string -> string) (date_text : Z -> string) (created_at : string -> option Z) (db_error : string).
Implicit Types (st : Dash (D := D)) (k : KeyRow).

(** [ILIKE]; no [NULL] is like anything. *)
Definition ilike (pattern : string) (o : option string) : bool :=
  match o with Some s => DashQuota.sql_like (fold_case pattern) (fold_case s) | None => false end.
Definition found_by (pattern : string) k : bool :=
  ilike pattern (tk_key_name (kr_token k)) || ilike pattern (row_alias k) || ilike pattern (tk_user_id (kr_token k)) || ilike pattern (Some (token (kr_token k))).
Definition searched (search : option string) k : bool :=
  match search with Some s => found_by (search_pattern s) k | None => true end.

Definition rows_of st : list KeyRow := (map_to_list (key_table st)).*2.

(** ** The list of keys *)

Record ListKeysQuery := mkListKeys { lk_page : Z; lk_per_page : Z; lk_search : option string; lk_vip_only : option string; lk_plan : option string }.

(** What the list shows of a key besides its row. *)
Record KeyItem := mkItem {
  ki_row : KeyRow;
  ki_usage : Z * Z;
  ki_tokens : Z;
  ki_cost : Z;
  ki_total : Z;
  ki_plan : option string;
  ki_kind : string;
}.

(** The window with the shortest length: its length, its count and its time left. *)
Definition shortest (kind : WindowKind) (l : list WindowInfo) : option (Z * Z * Z) :=
  foldl (fun o w =>
    if of_kind kind w
    then match o with
         | None => Some (wi_window_secs w, wi_count w, wi_remaining_secs w)
         | Some (s, _, _) => if wi_window_secs w <? s then Some (wi_window_secs w, wi_count w, wi_remaining_secs w) else o
         end
    else o) None l.

Definition assignment_kind (choice : option (option string)) : string :=
  match choice with None => "default" | Some None => "no_plan" | Some (Some _) => "plan" end.
Definition assigned_name (s : PlanStore.PlanStore D) (choice : option (option string)) : option string :=
  match choice with Some (Some n) => Some n | None => PlanStore.default_plan_name s | Some None => None end.

Definition key_item (now : Z) st (all_usage : gmap string (Z * Z)) k : KeyItem :=
  let t := token (kr_token k) in
  let windows := peek_key_windows now (ds_limiter st) t in
  let choice := PlanStore.get_plan_name_explicit (ds_plans st).2 t in
  let count o := match o with Some (_, c, _) => c | None => 0 end in
  mkItem k (default (0, 0) (all_usage !! t)) (count (shortest WkTokens windows)) (count (shortest WkCostMicros windows))
    (peek_cumulative (ds_limiter st) (ScopeKey t) TotalCost) (assigned_name (ds_plans st).2 choice) (assignment_kind choice).

(** The larger count of requests first. *)
Definition usage_ge (a b : KeyItem) : Prop := (ki_usage b).1 <= (ki_usage a).1.
#[local] Instance usage_ge_dec : RelDecision usage_ge := fun a b => Z_le_dec (ki_usage b).1 (ki_usage a).1.

Definition is_vip k : bool := default false (tk_metadata (kr_token k) ≫= fun m => get m "vip" ≫= as_bool).
Definition plan_wanted (o : option string) (x : KeyItem) : bool :=
  match o with
  | None => true
  | Some f =>
    if bool_decide (f = "unassigned") || bool_decide (f = "none") then bool_decide (ki_kind x = "default")
    else if bool_decide (f = "no_plan") then bool_decide (ki_kind x = "no_plan")
    else bool_decide (ki_plan x = Some f)
  end.
Definition vip_wanted (o : option string) (x : KeyItem) : bool :=
  negb (bool_decide (o = Some "true") || bool_decide (o = Some "1")) || is_vip (ki_row x).

(** The keys of the list, on all pages. *)
Definition listed_keys (now : Z) (q : ListKeysQuery) st : list KeyItem :=
  let all := key_item now st (get_all_key_usage now (ds_limiter st)) <$> retain (searched (lk_search q)) (rows_of st) in
  retain (plan_wanted (lk_plan q)) (retain (vip_wanted (lk_vip_only q)) (merge_sort usage_ge all)).

Definition key_page (now : Z) (q : ListKeysQuery) st : list KeyItem :=
  let '(page, per_page) := normalize_pagination (lk_page q) (lk_per_page q) in
  slice (page_offset page per_page) per_page (listed_keys now q st).

Definition vstr (o : option string) : Value := vopt VString o.
Definition item_value (x : KeyItem) : Value :=
  let k := ki_row x in
  let t := kr_token k in
  VObject [("token_prefix", VString (token_prefix (token t))); ("token_hash", VString (token t)); ("key_name", vstr (tk_key_name t));
    ("key_alias", vstr (tk_key_alias t)); ("key_prefix", vstr (kr_key_prefix k)); ("tag", vstr (kr_tag k)); ("user_id", vstr (tk_user_id t));
    ("team_id", vstr (tk_team_id t)); ("models", VArray (VString <$> tk_models t)); ("spend", money (ki_total x)); ("total_cost", money (ki_total x));
    ("blocked", VBool (default false (tk_blocked t))); ("rpm_limit", vopt vint (tk_rpm_limit t)); ("tpm_limit", vopt vint (tk_tpm_limit t));
    ("max_budget", vopt vfloat (tk_max_budget t)); ("budget_duration", vstr (kr_budget_duration k)); ("expires", vopt (fun d => VString (date_text d)) (expires t));
    ("metadata", default VNull (tk_metadata t)); ("created_at", vopt (fun d => VString (date_text d)) (created_at (token t)));
    ("usage_count", vint (ki_usage x).1); ("usage_reset_secs", vint (ki_usage x).2); ("usage_tokens", vint (ki_tokens x)); ("usage_cost", money (ki_cost x));
    ("plan_name", vstr (ki_plan x)); ("plan_assignment_kind", VString (ki_kind x))].

Definition list_keys (db : option Stmts) (now : Z) (q : ListKeysQuery) st : Answer :=
  match db with
  | None => no_database
  | Some ok =>
    if negb (ok 0%nat) then internal_error
    else let '(page, per_page) := normalize_pagination (lk_page q) (lk_per_page q) in
         quiet (RJson 200 (VObject [("keys", VArray (item_value <$> key_page now q st)); ("page", vint page); ("per_page", vint per_page);
           ("total", vcount (listed_keys now q st))]))
  end.

(** ** The list of assignments *)

(** [page] and [page_size] are [usize]; the size is at most 200. *)
Definition list_assignments (db : option bool) (page page_size : option Z) st : Value :=
  let assignments := map_to_list (PlanStore.key_assignments (ds_plans st).2) in
  let total := Z.of_nat (length assignments) in
  let page := Z.max (default 1 page) 1 in
  let size := Z.max 1 (Z.min (default 20 page_size) 200) in
  let offset := (page -u 1) *u size in
  let answer l := VObject [("assignments", VArray l); ("total", vint total); ("page", vint page); ("page_size", vint size)] in
  if total <=? offset then answer []
  else
    let alias h := match db with Some true => key_table st !! h ≫= row_alias | _ => None end in
    answer ((fun '(h, n) => VObject [("key_hash", VString h); ("plan_name", vstr n); ("key_alias", vstr (alias h)); ("token_prefix", VString (token_prefix h))])
            <$> slice offset size assignments).

(** ** The overview of the teams *)

(** The row of a counter goes to the entry of its owner. *)
Definition set_kind (kind : string) (v : Z) (x : Z * Z * Z) : Z * Z * Z :=
  let '(a, b, c) := x in
  if bool_decide (kind = "tin") then (v, b, c) else if bool_decide (kind = "tout") then (a, v, c) else if bool_decide (kind = "tcost") then (a, b, v) else x.
Definition file_entry (rest : string) (v : Z) (m : gmap string (Z * Z * Z)) : gmap string (Z * Z * Z) :=
  match rsplit_once ":" rest with
  | Some (id, kind) => <[id := set_kind kind v (default (0, 0, 0) (m !! id))]> m
  | None => m
  end.
(** The teams and the keys. *)
Definition file_counter (x : gmap string (Z * Z * Z) * gmap string (Z * Z * Z)) (r : string * Z) :=
  match strip_prefix "tc:" r.1 with
  | Some rest => (file_entry rest r.2 x.1, x.2)
  | None => match strip_prefix "kc:" r.1 with Some rest => (x.1, file_entry rest r.2 x.2) | None => x end
  end.
Definition cumulative_of (rows : list (string * Z)) := foldl file_counter (∅, ∅) rows.
Definition entry_of (m : gmap string (Z * Z * Z)) (id : string) : Z * Z * Z := default (0, 0, 0) (m !! id).

Record Limits := mkLimits { lim_concurrency : option Z; lim_rpm : option Z; lim_tpm : option Z; lim_windows : list (WindowLimit D); lim_tokens : option Z; lim_cost : option D }.
Definition limits_of (now : Z) (p : PlanStore.RateLimitPlan D) : Limits :=
  let '(conc, ws, _) := PlanStore.effective_limits now p in
  mkLimits conc (plan_rpm ws) (PlanStore.tpm_limit p) ws (PlanStore.total_token_limit p) (PlanStore.total_cost_limit p).

Record TeamItem := mkTeamItem {
  ti_id : string;
  ti_alias : option string;
  ti_models : list string;
  ti_key_count : Z;
  ti_plan : option string;
  ti_explicit : bool;
  ti_limits : option Limits;
  ti_excluded : bool;
  ti_cum : Z * Z * Z;
}.

(** [SELECT team_id, COUNT( * ) ... GROUP BY team_id] *)
Definition key_count (t : KeyTable) (team : option string) : Z :=
  Z.of_nat (length (retain (fun k => bool_decide (tk_team_id (kr_token k) = team)) (map_to_list t).*2)).

Definition team_item (now : Z) (excluded : list string) (cum : gmap string (Z * Z * Z)) st (x : string * TeamRow) : TeamItem :=
  let s := (ds_plans st).2 in
  mkTeamItem x.1 (tr_team_alias x.2) (tr_models x.2) (key_count (key_table st) (Some x.1))
    (PlanStore.option_or (PlanStore.team_assignments s !! x.1) (PlanStore.default_team_plan_name s))
    (negb (is_none (PlanStore.team_assignments s !! x.1))) (limits_of now <$> PlanStore.resolve_team_plan s x.1)
    (bool_decide (x.1 ∈ excluded)) (entry_of cum x.1).

(** The larger cost first, then the larger number of input tokens. *)
Definition cost_ge (a b : TeamItem) : Prop :=
  (ti_cum b).2 < (ti_cum a).2 \/ (ti_cum b).2 = (ti_cum a).2 /\ (ti_cum b).1.1 <= (ti_cum a).1.1.
#[local] Instance cost_ge_dec : RelDecision cost_ge.
Proof. intros a b. unfold cost_ge. apply _. Defined.

Definition add_cum (x y : Z * Z * Z) : Z * Z * Z := (i64_add x.1.1 y.1.1, i64_add x.1.2 y.1.2, i64_add x.2 y.2).
(** The keys without a team that have counters. *)
Definition no_team_cum (t : KeyTable) (cum : gmap string (Z * Z * Z)) : Z * Z * Z :=
  foldl (fun acc k => match cum !! token (kr_token k) with Some c => add_cum acc c | None => acc end) (0, 0, 0)
    (retain (fun k => is_none (tk_team_id (kr_token k))) (map_to_list t).*2).

Record Overview := mkOverview { ov_teams : list TeamItem; ov_no_team_keys : Z; ov_no_team_cum : Z * Z * Z; ov_default_plan : option string }.
Definition overview (now : Z) (excluded : list string) (rows : list (string * Z)) st : Overview :=
  let '(team_cum, key_cum) := cumulative_of rows in
  mkOverview (merge_sort cost_ge (team_item now excluded team_cum st <$> map_to_list (team_table st)))
    (key_count (key_table st) None) (no_team_cum (key_table st) key_cum) (PlanStore.default_team_plan_name (ds_plans st).2).

Definition cum_fields (c : Z * Z * Z) : Object :=
  [("total_input_tokens", vint c.1.1); ("total_output_tokens", vint c.1.2); ("total_cost_micros", vint c.2); ("total_cost", money (Z.max c.2 0))].
Definition limits_value (l : Limits) : Value :=
  VObject [("concurrency_limit", vopt vint (lim_concurrency l)); ("rpm_limit", vopt vint (lim_rpm l)); ("tpm_limit", vopt vint (lim_tpm l));
    ("window_limits", VArray (compact_window <$> lim_windows l)); ("total_token_limit", vopt vint (lim_tokens l)); ("total_cost_limit", vopt vdec (lim_cost l))].
Definition team_value (x : TeamItem) : Value :=
  VObject ([("team_id", VString (ti_id x)); ("team_alias", vstr (ti_alias x)); ("models", VArray (VString <$> ti_models x)); ("key_count", vint (ti_key_count x));
    ("plan_name", vstr (ti_plan x)); ("plan_explicit", VBool (ti_explicit x)); ("effective_limits", vopt limits_value (ti_limits x));
    ("prompt_log_excluded", VBool (ti_excluded x))] ++ cum_fields (ti_cum x)).

(** The four queries: teams, keys by team, the team of each key, the counters. *)
Definition quota_overview (db : option Stmts) (now : Z) (excluded : list string) (rows : list (string * Z)) st : Answer :=
  let failed what := quiet (RText 500 ("quota_overview " +:+ what +:+ " query failed: " +:+ db_error)) in
  match db with
  | None => no_database
  | Some ok =>
    if negb (ok 0%nat) then failed "teams"
    else if negb (ok 1%nat) then failed "key_count"
    else if negb (ok 2%nat) then failed "token_team"
    else if negb (ok 3%nat) then failed "cumulative"
    else let o := overview now excluded rows st in
      quiet (RJson 200 (VObject [("teams", VArray (team_value <$> ov_teams o));
        ("no_team", VObject ([("team_id", VNull); ("team_alias", VNull); ("key_count", vint (ov_no_team_keys o)); ("plan_name", VNull)] ++ cum_fields (ov_no_team_cum o)));
        ("default_team_plan", vstr (ov_default_plan o))]))
  end.

(** ** The keys of a team *)

Definition default_per_page_50 : Z := 50.
Record QuotaKeysQuery := mkQuotaKeys { qk_page : Z; qk_per_page : Z; qk_search : option string; qk_sort : option string }.
Definition IN_MEMORY_SORT_CAP : Z := 5000.

(** [WHERE team_id = $1] or [team_id IS NULL], and the search. *)
Definition of_team (team : option string) (search : option string) k : bool := bool_decide (tk_team_id (kr_token k) = team) && searched search k.
Definition in_memory_sort (q : QuotaKeysQuery) : bool := bool_decide (qk_sort q = Some "cost") || bool_decide (qk_sort q = Some "tokens").

(** [ORDER BY created_at DESC]: a row without a date comes first. *)
Definition newer k k' : Prop :=
  match created_at (token (kr_token k)), created_at (token (kr_token k')) with Some a, Some b => b <= a | Some _, None => False | None, _ => True end.
#[export] Instance newer_dec : RelDecision newer.
Proof. intros k k'. unfold newer. repeat case_match; apply _. Defined.
(** [ORDER BY COALESCE(key_alias, key_name, token) ASC] *)
Definition sort_name k : string := default (token (kr_token k)) (PlanStore.option_or (row_alias k) (tk_key_name (kr_token k))).
Context (text_le : string -> string -> Prop) `{!RelDecision text_le}.
Definition name_le k k' : Prop := text_le (sort_name k) (sort_name k').
#[local] Instance name_le_dec : RelDecision name_le := fun k k' => decide (text_le (sort_name k) (sort_name k')).

Definition team_rows (team : option string) (q : QuotaKeysQuery) st : list KeyRow := retain (of_team team (qk_search q)) (rows_of st).

(** The counters of the rows: only theirs are asked for.  [ok]: the query succeeds. *)
Definition counters_of_rows (ok : bool) (table : gmap string Z) (rows : list KeyRow) : gmap string (Z * Z * Z) :=
  let asked := rows ≫= fun k => (fun kind => "kc:" +:+ token (kr_token k) +:+ ":" +:+ kind) <$> ["tin"; "tout"; "tcost"] in
  if ok then foldl (fun m r => match strip_prefix "kc:" r.1 with Some rest => file_entry rest r.2 m | None => m end) ∅
               (retain (fun r => bool_decide (r.1 ∈ asked)) (map_to_list table))
  else ∅.

Definition tokens_of (c : Z * Z * Z) : Z := i64_add c.1.1 c.1.2.
Definition by_cost (a b : KeyRow * (Z * Z * Z)) : Prop := b.2.2 < a.2.2 \/ b.2.2 = a.2.2 /\ tokens_of b.2 <= tokens_of a.2.
Definition by_tokens (a b : KeyRow * (Z * Z * Z)) : Prop := tokens_of b.2 < tokens_of a.2 \/ tokens_of b.2 = tokens_of a.2 /\ b.2.2 <= a.2.2.
#[local] Instance by_cost_dec : RelDecision by_cost.
Proof. intros a b. unfold by_cost. apply _. Defined.
#[local] Instance by_tokens_dec : RelDecision by_tokens.
Proof. intros a b. unfold by_tokens. apply _. Defined.

(** What is shown of a key of a team. *)
Record QuotaKey := mkQuotaKey { qr_row : KeyRow; qr_plan : option string; qr_concurrency : Z; qr_cum : Z * Z * Z }.
Definition quota_key (c : PlanStore.Counters) (cum : gmap string (Z * Z * Z)) st k : QuotaKey :=
  let t := token (kr_token k) in
  mkQuotaKey k (PlanStore.name <$> listed_plan (ds_plans st).2 t) (PlanStore.get_concurrency c t) (entry_of cum t).

(** The rows that are read, and whether there were too many to sort. *)
Definition fetched (team : option string) (q : QuotaKeysQuery) (page per_page : Z) st : list KeyRow * bool :=
  let rows := team_rows team q st in
  if in_memory_sort q
  then let read := take (Z.to_nat (IN_MEMORY_SORT_CAP + 1)) (merge_sort newer rows) in
       if IN_MEMORY_SORT_CAP <? Z.of_nat (length read) then (take (Z.to_nat IN_MEMORY_SORT_CAP) read, true) else (read, false)
  else (slice (page_offset page per_page) per_page
          (if bool_decide (qk_sort q = Some "alias") then merge_sort name_le rows else merge_sort newer rows), false).

(** The rows of the page, of those that were read. *)
Definition sorted_rows (sort : option string) (cum : gmap string (Z * Z * Z)) (rows : list KeyRow) : list KeyRow :=
  let sortable := (fun k => (k, entry_of cum (token (kr_token k)))) <$> rows in
  (if bool_decide (sort = Some "cost") then merge_sort by_cost sortable else merge_sort by_tokens sortable).*1.

Definition quota_page (ok : bool) (table : gmap string Z) (c : PlanStore.Counters) (team : option string) (q : QuotaKeysQuery) st : list QuotaKey * bool :=
  let '(page, per_page) := normalize_pagination (qk_page q) (qk_per_page q) in
  let '(rows, truncated) := fetched team q page per_page st in
  let cum := counters_of_rows ok table rows in
  let page_rows := if in_memory_sort q then slice (page_offset page per_page) per_page (sorted_rows (qk_sort q) cum rows) else rows in
  (quota_key c cum st <$> page_rows, truncated).

Definition quota_key_value (x : QuotaKey) : Value :=
  let t := kr_token (qr_row x) in
  VObject ([("token", VString (token t)); ("token_prefix", VString (token_prefix (token t))); ("key_alias", vstr (tk_key_alias t)); ("key_name", vstr (tk_key_name t));
    ("user_id", vstr (tk_user_id t)); ("blocked", VBool (default false (tk_blocked t))); ("created_at", vopt (fun d => VString (date_text d)) (created_at (token t)));
    ("plan_name", vstr (qr_plan x)); ("concurrency", vint (qr_concurrency x))] ++ cum_fields (qr_cum x)).

(** The statements: the rows, their number, their counters.  The database refuses an
    offset below zero. *)
Definition quota_keys_inner (db : option Stmts) (table : gmap string Z) (c : PlanStore.Counters) (team : option string) (q : QuotaKeysQuery) st : Answer :=
  match db with
  | None => no_database
  | Some ok =>
    let '(page, per_page) := normalize_pagination (qk_page q) (qk_per_page q) in
    if negb (ok 0%nat) || (negb (in_memory_sort q) && (page_offset page per_page <? 0)) then quiet (RText 500 ("quota_keys_inner query failed: " +:+ db_error))
    else if negb (ok 1%nat) then quiet (RText 500 ("quota_keys_inner count failed: " +:+ db_error))
    else let '(keys, truncated) := quota_page (ok 2%nat) table c team q st in
      quiet (RJson 200 (VObject [("keys", VArray (quota_key_value <$> keys)); ("page", vint page); ("per_page", vint per_page);
        ("total", vcount (team_rows team q st)); ("team_id", vstr team); ("sort_truncated", VBool truncated)]))
  end.
Definition quota_team_keys (db : option Stmts) (table : gmap string Z) (c : PlanStore.Counters) (tid : string) (q : QuotaKeysQuery) st : Answer :=
  quota_keys_inner db table c (Some tid) q st.
Definition quota_unassigned_keys (db : option Stmts) (table : gmap string Z) (c : PlanStore.Counters) (q : QuotaKeysQuery) st : Answer :=
  quota_keys_inner db table c None q st.
End lists.
#[global] Arguments Limits : clear implicits.
#[global] Arguments TeamItem : clear implicits.
#[global] Arguments Overview : clear implicits.

(** ** Lemmas: pages *)

Lemma slice_page {A} i per (l : list A) :
  1 <= per <= 1000 -> 0 <= i -> i * per < 2 ^ 63 -> slice (page_offset (i + 1) per) per l = take (Z.to_nat per) (drop (Z.to_nat (i * per)) l).
Proof.
  intros Hp Hi Hs. unfold slice, page_offset. replace (i + 1 - 1) with i by lia.
  rewrite as_i64_small, wrap64_small by (unfold is_u64; nia). done.
Qed.

(** The pages one after the other. *)
Definition pages {A} (n per : Z) (l : list A) : list A := seqZ 1 n ≫= fun p => slice (page_offset p per) per l.

Lemma pages_take {A} (n : nat) per (l : list A) :
  1 <= per <= 1000 -> Z.of_nat n * per < 2 ^ 63 -> pages (Z.of_nat n) per l = take (Z.to_nat (Z.of_nat n * per)) l.
Proof.
  intros Hp. unfold pages. induction n as [| n IH]; intros Hs; [done |].
  replace (Z.of_nat (S n)) with (Z.of_nat n + 1) by lia. rewrite seqZ_app, bind_app, IH by lia.
  rewrite (seqZ_cons (1 + Z.of_nat n) 1) by lia. rewrite seqZ_nil by lia. cbn [mbind list_bind].
  rewrite app_nil_r, (Z.add_comm 1). rewrite slice_page by lia.
  rewrite take_take_drop. f_equal. nia.
Qed.
Lemma pages_all {A} n per (l : list A) :
  1 <= per <= 1000 -> 0 <= n -> n * per < 2 ^ 63 -> Z.of_nat (length l) <= n * per -> pages n per l = l.
Proof.
  intros Hp Hn Hs Hl. rewrite <- (Z2Nat.id n) by done. rewrite pages_take by (rewrite ?Z2Nat.id; done).
  apply take_ge. rewrite Z2Nat.id by done. lia.
Qed.
Lemma normalize_range page per : let '(p, n) := normalize_pagination page per in 1 <= p /\ 1 <= n <= 1000.
Proof. cbn. lia. Qed.

Lemma retain_StronglySorted {A} (R : A -> A -> Prop) P (l : list A) : StronglySorted R l -> StronglySorted R (retain P l).
Proof.
  induction 1 as [| x l Hl IH Hx]; [constructor |]. rewrite retain_cons. destruct (P x); [| done]. constructor; [done |].
  rewrite Forall_forall in *. intros y [_ Hy]%elem_of_retain. auto.
Qed.

(** ** Lemmas: the counters of the table *)

Lemma foldl_last {M} (comp : M -> Z) (step : M -> string * Z -> M) key rows : forall x,
  (forall m r, comp (step m r) = if bool_decide (r.1 = key) then r.2 else comp m) -> NoDup rows.*1 ->
  comp (foldl step x rows) = default (comp x) ((list_to_map rows : gmap string Z) !! key).
Proof.
  intros x Hs. revert x. induction rows as [| [ck v] rows IH]; intros x Hnd; [done |].
  cbn in Hnd |- *. apply NoDup_cons in Hnd as [Hn Hnd]. rewrite IH by done. rewrite Hs. cbn.
  case_bool_decide as E.
  - subst. rewrite lookup_insert_eq, not_elem_of_list_to_map_1; done.
  - by rewrite lookup_insert_ne.
Qed.

Lemma rsplit_once_some c s l r : rsplit_once c s = Some (l, r) -> s = l +:+ String c r /\ has_char c r = false.
Proof.
  revert l. induction s as [| a s IH]; intros l; cbn; [done |]. destruct (rsplit_once c s) as [[l' r'] |] eqn:E.
  - intros [= <- <-]. destruct (IH _ eq_refl) as [-> Hr]. done.
  - destruct (Ascii.eqb a c) eqn:Ea; [| done]. intros [= <- <-]. apply Ascii.eqb_eq in Ea as ->. split; [done |].
    clear IH. induction s as [| b s IH]; [done |]. cbn in E |- *. destruct (rsplit_once c s) as [[] |]; [done |].
    destruct (Ascii.eqb b c); [done | by apply IH].
Qed.

Definition comp (k : CumulativeKind) (x : Z * Z * Z) : Z :=
  match k with TotalInputTokens => x.1.1 | TotalOutputTokens => x.1.2 | TotalCost => x.2 | _ => 0 end.
Definition shown_kind (k : CumulativeKind) : Prop := k = TotalInputTokens \/ k = TotalOutputTokens \/ k = TotalCost.

Lemma file_entry_comp rest v m id k :
  shown_kind k -> comp k (entry_of (file_entry rest v m) id) = if bool_decide (rest = id +:+ String ":" (suffix k)) then v else comp k (entry_of m id).
Proof.
  intros Hk. unfold file_entry. destruct (rsplit_once ":" rest) as [[id' kind] |] eqn:E.
  - apply rsplit_once_some in E as [-> Hc]. unfold entry_of. destruct (decide (id' = id)) as [-> | Hne].
    + rewrite lookup_insert_eq. cbn. destruct (default (0, 0, 0) (m !! id)) as [[a b] c].
      assert (id +:+ String ":" kind = id +:+ String ":" (suffix k) <-> kind = suffix k) as Hiff.
      { split; [| by intros ->]. intros [_ ?]%app_rsplit_inj; [done | done | apply suffix_no_colon]. }
      rewrite (bool_decide_ext _ _ Hiff). unfold set_kind. destruct Hk as [-> | [-> | ->]]; cbn; repeat case_bool_decide; subst; done.
    + rewrite lookup_insert_ne by done. rewrite bool_decide_eq_false_2; [done |]. intros [? _]%app_rsplit_inj; [done | done | apply suffix_no_colon].
  - rewrite bool_decide_eq_false_2; [done |]. intros ->. rewrite rsplit_once_app in E by apply suffix_no_colon. done.
Qed.

(** The counters of an owner in a table of counters. *)
Definition counters_at (table : gmap string Z) (scope : QuotaScope) : Z * Z * Z :=
  let at_kind k := default 0 (table !! cumulative_cache_key scope k) in (at_kind TotalInputTokens, at_kind TotalOutputTokens, at_kind TotalCost).

Lemma triple_ext (x y : Z * Z * Z) : (forall k, shown_kind k -> comp k x = comp k y) -> x = y.
Proof.
  intros Hk. destruct x as [[a b] c], y as [[a' b'] c'].
  pose proof (Hk TotalInputTokens) as H1. pose proof (Hk TotalOutputTokens) as H2. pose proof (Hk TotalCost) as H3.
  unfold shown_kind in *. cbn in *. rewrite H1, H2, H3 by auto. done.
Qed.
Lemma comp_counters_at table scope k : shown_kind k -> comp k (counters_at table scope) = default 0 (table !! cumulative_cache_key scope k).
Proof. by intros [-> | [-> | ->]]. Qed.

Lemma prefix_key (p r s : string) : bool_decide (p +:+ r = p +:+ s) = bool_decide (r = s).
Proof.
  apply bool_decide_ext. split; [| by intros ->]. intros E. pose proof (strip_prefix_app p r) as E1. rewrite E, strip_prefix_app in E1. by simplify_eq.
Qed.

(** What a row does to the entries of an owner. *)
Lemma file_counter_team x r tid k : shown_kind k ->
  comp k (entry_of (file_counter x r).1 tid) = if bool_decide (r.1 = cumulative_cache_key (ScopeTeam tid) k) then r.2 else comp k (entry_of x.1 tid).
Proof.
  intros Hk. unfold file_counter. destruct r as [ck v]. cbn [fst snd]. cbn [cumulative_cache_key]. destruct (strip_prefix "tc:" ck) as [rest |] eqn:E.
  - apply strip_prefix_spec in E as ->. rewrite prefix_key. cbn [fst]. by apply file_entry_comp.
  - rewrite bool_decide_eq_false_2; [by destruct (strip_prefix "kc:" ck) |]. intros ->. by rewrite strip_prefix_app in E.
Qed.
Lemma file_key_entry m (r : string * Z) t k : shown_kind k ->
  comp k (entry_of (match strip_prefix "kc:" r.1 with Some rest => file_entry rest r.2 m | None => m end) t)
  = if bool_decide (r.1 = cumulative_cache_key (ScopeKey t) k) then r.2 else comp k (entry_of m t).
Proof.
  intros Hk. destruct r as [ck v]. cbn [fst snd cumulative_cache_key]. destruct (strip_prefix "kc:" ck) as [rest |] eqn:E.
  - apply strip_prefix_spec in E as ->. rewrite prefix_key. by apply file_entry_comp.
  - rewrite bool_decide_eq_false_2; [done |]. intros ->. by rewrite strip_prefix_app in E.
Qed.
Lemma file_counter_key x r t k : shown_kind k ->
  comp k (entry_of (file_counter x r).2 t) = if bool_decide (r.1 = cumulative_cache_key (ScopeKey t) k) then r.2 else comp k (entry_of x.2 t).
Proof.
  intros Hk. rewrite <- file_key_entry by done. unfold file_counter. destruct (strip_prefix "tc:" r.1) as [rest |] eqn:E.
  - apply strip_prefix_spec in E as ->. done.
  - by destruct (strip_prefix "kc:" r.1).
Qed.

Lemma counters_read table :
  (forall tid, entry_of (cumulative_of (map_to_list table)).1 tid = counters_at table (ScopeTeam tid))
  /\ (forall t, entry_of (cumulative_of (map_to_list table)).2 t = counters_at table (ScopeKey t)).
Proof.
  split; intros id; apply triple_ext; intros k Hk; rewrite comp_counters_at by done; unfold cumulative_of.
  - rewrite (foldl_last (fun x => comp k (entry_of x.1 id)) _ (cumulative_cache_key (ScopeTeam id) k));
      [| intros; by apply file_counter_team | apply NoDup_fst_map_to_list].
    rewrite list_to_map_to_list. by destruct Hk as [-> | [-> | ->]].
  - rewrite (foldl_last (fun x => comp k (entry_of x.2 id)) _ (cumulative_cache_key (ScopeKey id) k));
      [| intros; by apply file_counter_key | apply NoDup_fst_map_to_list].
    rewrite list_to_map_to_list. by destruct Hk as [-> | [-> | ->]].
Qed.

Lemma retain_keys {A} P (m : gmap string A) : NoDup (retain P (map_to_list m)).*1.
Proof. eapply sublist_NoDup; [apply (NoDup_fst_map_to_list m) |]. apply fmap_sublist, sublist_filter. Qed.

Section properties.
Context {D : Type} `{DecimalOps D}.
Context (fold_case : string -> string) (created_at : string -> option Z).
Implicit Types (st : Dash (D := D)) (k : KeyRow).

Lemma counters_of_rows_read table (rows : list KeyRow) k :
  k ∈ rows -> entry_of (counters_of_rows true table rows) (token (kr_token k)) = counters_at table (ScopeKey (token (kr_token k))).
Proof.
  intros Hk. set (t := token (kr_token k)). apply triple_ext. intros kind Hkind. rewrite comp_counters_at by done. unfold counters_of_rows.
  set (P := fun r : string * Z => _).
  rewrite (foldl_last (fun x => comp kind (entry_of x t)) _ (cumulative_cache_key (ScopeKey t) kind)).
  - assert (comp kind (entry_of ∅ t) = 0) as -> by (by destruct Hkind as [-> | [-> | ->]]). f_equal.
    apply option_eq. intros v. rewrite <- elem_of_list_to_map by apply retain_keys. rewrite elem_of_retain, elem_of_map_to_list. split; [by intros [_ ?] |].
    intros Hv. split; [| done]. unfold P. apply bool_decide_eq_true_2. cbn [fst]. apply list_elem_of_bind. exists k. split; [| done].
    apply list_elem_of_fmap. exists (suffix kind). split; [done |]. destruct Hkind as [-> | [-> | ->]]; set_solver.
  - intros m r. by apply file_key_entry.
  - apply retain_keys.
Qed.

#[local] Instance retain_proper {A} (P : A -> bool) : Proper (Permutation ==> Permutation) (retain P).
Proof. intros l l' E. unfold retain. by rewrite E. Qed.
Lemma retain_fmap {A B} P (f : A -> B) (l : list A) : retain P (f <$> l) = f <$> retain (fun x => P (f x)) l.
Proof. induction l as [| x l IH]; [done |]. rewrite fmap_cons, !retain_cons. destruct (P (f x)); by rewrite ?fmap_cons, IH. Qed.
Lemma retain_retain {A} P Q (l : list A) : retain P (retain Q l) = retain (fun x => P x && Q x) l.
Proof. induction l as [| x l IH]; [done |]. rewrite !retain_cons. destruct (Q x), (P x) eqn:E; cbn; rewrite ?retain_cons, ?E; by rewrite ?IH. Qed.

(** *** The list of keys *)

Definition at_page (q : ListKeysQuery) (p : Z) : ListKeysQuery := mkListKeys p (lk_per_page q) (lk_search q) (lk_vip_only q) (lk_plan q).

#[local] Instance usage_ge_trans : Transitive usage_ge.
Proof. intros a b c. unfold usage_ge. lia. Qed.
#[local] Instance usage_ge_total : Total usage_ge.
Proof. intros a b. unfold usage_ge. lia. Qed.

Lemma page_normal page per p : 1 <= p -> normalize_pagination p per = (p, (normalize_pagination page per).2).
Proof. intros Hp. unfold normalize_pagination. cbn. f_equal. lia. Qed.

(** The pages of the list of keys have every key that is asked for once, the keys with the most
    requests first: as many pages as the total says give the whole list. *)
Theorem keys_listed_once now q st n :
  let per := (normalize_pagination (lk_page q) (lk_per_page q)).2 in
  let listed := listed_keys fold_case now q st in
  0 <= n -> n * per < 2 ^ 63 -> Z.of_nat (length listed) <= n * per ->
  (seqZ 1 n ≫= fun p => key_page fold_case now (at_page q p) st) = listed
  /\ listed ≡ₚ retain (fun x => plan_wanted (lk_plan q) x && vip_wanted (lk_vip_only q) x)
       (key_item now st (get_all_key_usage now (ds_limiter st)) <$> retain (searched fold_case (lk_search q)) (rows_of st))
  /\ StronglySorted usage_ge listed.
Proof.
  intros per listed Hn Hs Hl. assert (1 <= per <= 1000) as Hper by (unfold per; cbn; lia). split_and!.
  - rewrite <- (pages_all n per listed) by done. unfold pages. apply Forall_bind_ext, Forall_forall. intros p Hp%elem_of_seqZ.
    unfold key_page. cbn [lk_page lk_per_page at_page]. rewrite (page_normal (lk_page q)) by lia. done.
  - unfold listed, listed_keys. rewrite merge_sort_Permutation. by rewrite retain_retain.
  - unfold listed, listed_keys. do 2 apply retain_StronglySorted. apply StronglySorted_merge_sort; apply _.
Qed.

(** *** The overview *)

Lemma overview_teams now excluded rows st :
  ov_teams (overview now excluded rows st) ≡ₚ (team_item now excluded (cumulative_of rows).1 st <$> map_to_list (team_table st)).
Proof. unfold overview. destruct (cumulative_of rows) as [a b]. cbn. apply merge_sort_Permutation. Qed.

Lemma key_count_members t tid : key_count t (Some tid) = Z.of_nat (length (members tid t)).
Proof.
  unfold key_count, members. f_equal. rewrite length_fmap, retain_fmap, length_fmap. f_equal. unfold retain.
  apply list_filter_iff. intros [h k]. cbn. by rewrite bool_decide_eq_true.
Qed.

(** C23: The overview shows of every team what the limiter has counted for it, the number of its
    keys, and the limits of the plan that its requests are admitted by, once the table has
    the counters of the limiter. *)
Theorem overview_exact now excluded table st tid row :
  (forall ck, table !! ck = cumulative (ds_limiter st) !! ck) -> team_table st !! tid = Some row ->
  let teams := ov_teams (overview now excluded (map_to_list table) st) in
  exists x, x ∈ teams /\ (forall y, y ∈ teams -> ti_id y = tid -> y = x)
    /\ ti_key_count x = Z.of_nat (length (members tid (key_table st)))
    /\ ti_cum x = (counter (ds_limiter st) (ScopeTeam tid) TotalInputTokens, counter (ds_limiter st) (ScopeTeam tid) TotalOutputTokens,
                   counter (ds_limiter st) (ScopeTeam tid) TotalCost)
    /\ ti_limits x = limits_of now <$> PlanStore.resolve_team_plan (ds_plans st).2 tid.
Proof.
  intros Ht Hrow teams. unfold teams. exists (team_item now excluded (cumulative_of (map_to_list table)).1 st (tid, row)).
  setoid_rewrite overview_teams. split_and!; try done.
  - apply list_elem_of_fmap_2, elem_of_map_to_list. done.
  - intros y ([tid' row'] & -> & Hin%elem_of_map_to_list)%list_elem_of_fmap. cbn. intros ->. congruence.
  - apply key_count_members.
  - cbn. rewrite (proj1 (counters_read table)). unfold counters_at, counter. by rewrite !Ht.
Qed.

Lemma zsum_add {A} (f g : A -> Z) (l : list A) : zsum (fun x => f x + g x) l = zsum f l + zsum g l.
Proof. induction l as [| x l IH]; [done |]. rewrite !zsum_cons, IH. lia. Qed.
Lemma fmap_bind {A B C} (f : B -> C) (g : A -> list B) (l : list A) : f <$> (l ≫= g) = l ≫= fun x => f <$> g x.
Proof. induction l as [| x l IH]; [done |]. by rewrite !bind_cons, fmap_app, IH. Qed.
Lemma zsum_zero {A} (l : list A) : zsum (fun _ => 0) l = 0.
Proof. induction l as [| x l IH]; [done |]. by rewrite zsum_cons, IH. Qed.
Lemma length_retain_cons {A} P x (l : list A) : Z.of_nat (length (retain P (x :: l))) = (if P x then 1 else 0) + Z.of_nat (length (retain P l)).
Proof. rewrite retain_cons. destruct (P x); cbn; lia. Qed.

(** Every key is counted once, with its team or among those without one; a key whose team
    is not in the table is counted nowhere. *)
Theorem overview_counts now excluded rows st :
  zsum ti_key_count (ov_teams (overview now excluded rows st)) + ov_no_team_keys (overview now excluded rows st)
  = Z.of_nat (length (retain (fun k => match tk_team_id (kr_token k) with Some tid => negb (is_none (team_table st !! tid)) | None => true end) (rows_of st))).
Proof.
  rewrite (zsum_perm _ _ _ (overview_teams now excluded rows st)), zsum_fmap. unfold overview. destruct (cumulative_of rows) as [cum1 cum2]. cbn [fst].
  cbn. unfold key_count, rows_of. induction (map_to_list (key_table st)).*2 as [| k l IH].
  - cbn. by rewrite (zsum_ext _ (fun _ => 0)), zsum_zero.
  - rewrite (zsum_ext _ (fun x => (if bool_decide (tk_team_id (kr_token k) = Some x.1) then 1 else 0)
       + Z.of_nat (length (retain (fun k => bool_decide (tk_team_id (kr_token k) = Some x.1)) l)))) by (intros x _; apply (length_retain_cons (fun k => bool_decide (tk_team_id (kr_token k) = Some x.1)))).
    rewrite zsum_add, !length_retain_cons, <- IH. destruct (tk_team_id (kr_token k)) as [tid |].
    + rewrite (zsum_at_key _ _ tid).
      * rewrite (bool_decide_eq_false_2 (Some tid = None)) by done. destruct (team_table st !! tid); cbn; [rewrite bool_decide_eq_true_2 by done |]; lia.
      * intros tid' x _ Hne. cbn. rewrite bool_decide_eq_false_2; [done | congruence].
    + rewrite (bool_decide_eq_true_2 (None = None)) by done. rewrite (zsum_ext _ (fun _ => 0)) by done. rewrite zsum_zero. lia.
Qed.

(** *** The keys of a team *)

#[local] Instance by_cost_trans : Transitive by_cost.
Proof. intros a b c. unfold by_cost. lia. Qed.
#[local] Instance by_cost_total : Total by_cost.
Proof. intros a b. unfold by_cost. lia. Qed.
#[local] Instance by_tokens_trans : Transitive by_tokens.
Proof. intros a b c. unfold by_tokens. lia. Qed.
#[local] Instance by_tokens_total : Total by_tokens.
Proof. intros a b. unfold by_tokens. lia. Qed.

Definition at_quota_page (q : QuotaKeysQuery) (p : Z) : QuotaKeysQuery := mkQuotaKeys p (qk_per_page q) (qk_search q) (qk_sort q).

(** How the page of a team is sorted. *)
Definition shown_before (sort : option string) (a b : QuotaKey) : Prop :=
  let x := (qr_row a, qr_cum a) in let y := (qr_row b, qr_cum b) in
  if bool_decide (sort = Some "cost") then by_cost x y else by_tokens x y.

Context (text_le : string -> string -> Prop) `{!RelDecision text_le}.

Lemma sorted_rows_spec sort (cum : gmap string (Z * Z * Z)) (rows : list KeyRow) (f : KeyRow -> QuotaKey) :
  (forall k, qr_row (f k) = k /\ qr_cum (f k) = entry_of cum (token (kr_token k))) ->
  sorted_rows sort cum rows ≡ₚ rows /\ StronglySorted (shown_before sort) (f <$> sorted_rows sort cum rows).
Proof.
  intros Hf. unfold sorted_rows, shown_before. set (sortable := (fun k => _) <$> rows).
  assert (sortable.*1 = rows) as Hfst by (unfold sortable; rewrite <- list_fmap_compose; apply list_fmap_id).
  assert (forall x, x ∈ sortable -> x.2 = entry_of cum (token (kr_token x.1))) as Hsnd by (by intros x (k & -> & _)%list_elem_of_fmap).
  assert (forall R l, (forall x, x ∈ l -> x.2 = entry_of cum (token (kr_token x.1))) -> StronglySorted R l ->
    StronglySorted (fun a b => R (qr_row a, qr_cum a) (qr_row b, qr_cum b)) (f <$> l.*1)) as Hss.
  { intros R l Hl Hs. induction Hs as [| [k c] l Hs IH Hall]; [constructor |]. cbn. constructor; [apply IH; set_solver |].
    rewrite Forall_fmap, Forall_fmap. rewrite Forall_forall in *. intros [k' c'] Hk'. cbn.
    pose proof (Hl (k, c) ltac:(set_solver)) as E. pose proof (Hl (k', c') ltac:(set_solver)) as E'. cbn in E, E'.
    destruct (Hf k) as [-> ->], (Hf k') as [-> ->]. rewrite <- E, <- E'. by apply (Hall (k', c')). }
  case_bool_decide.
  - split; [by rewrite (merge_sort_Permutation by_cost), Hfst |]. apply Hss; [| apply StronglySorted_merge_sort; apply _].
    intros x. rewrite (merge_sort_Permutation by_cost). apply Hsnd.
  - split; [by rewrite (merge_sort_Permutation by_tokens), Hfst |]. apply Hss; [| apply StronglySorted_merge_sort; apply _].
    intros x. rewrite (merge_sort_Permutation by_tokens). apply Hsnd.
Qed.

(** Sorted by cost or by tokens, the pages of a team of at most five thousand keys have every key
    of the team once, with the counters of the table, in the order of those. *)
Theorem quota_keys_sorted table c team q st n :
  let per := (normalize_pagination (qk_page q) (qk_per_page q)).2 in
  let rows := team_rows fold_case team q st in
  let shown := seqZ 1 n ≫= fun p => (quota_page fold_case created_at text_le true table c team (at_quota_page q p) st).1 in
  in_memory_sort q = true -> Z.of_nat (length rows) <= IN_MEMORY_SORT_CAP ->
  0 <= n -> n * per < 2 ^ 63 -> Z.of_nat (length rows) <= n * per ->
  qr_row <$> shown ≡ₚ rows
  /\ (forall x, x ∈ shown -> qr_cum x = counters_at table (ScopeKey (token (kr_token (qr_row x)))))
  /\ StronglySorted (shown_before (qk_sort q)) shown.
Proof.
  intros per rows shown Hmem Hcap Hn Hs Hl. assert (1 <= per <= 1000) as Hper by (unfold per; cbn; lia).
  set (read := merge_sort (newer created_at) rows).
  assert (length read = length rows) as Hlen by (apply Permutation_length, merge_sort_Permutation).
  set (cum := counters_of_rows true table read).
  assert (shown = quota_key c cum st <$> sorted_rows (qk_sort q) cum read) as Hshown.
  { unfold shown. rewrite <- (pages_all n per (sorted_rows (qk_sort q) cum read)); try done.
    - unfold pages. rewrite fmap_bind. apply Forall_bind_ext, Forall_forall. intros p Hp%elem_of_seqZ. cbv beta.
      unfold quota_page, fetched. cbn [qk_page qk_per_page qk_search qk_sort at_quota_page]. rewrite (page_normal (qk_page q)) by lia.
      change (in_memory_sort (at_quota_page q p)) with (in_memory_sort q). rewrite Hmem.
      change (team_rows fold_case team (at_quota_page q p) st) with rows. fold read.
      rewrite take_ge by (rewrite Hlen; unfold IN_MEMORY_SORT_CAP in *; lia). rewrite Hlen.
      destruct (Z.ltb_spec IN_MEMORY_SORT_CAP (Z.of_nat (length rows))); [lia |]. done.
    - rewrite (Permutation_length (proj1 (sorted_rows_spec (qk_sort q) cum read (quota_key c cum st) (fun k => conj eq_refl eq_refl)))). by rewrite Hlen. }
  destruct (sorted_rows_spec (qk_sort q) cum read (quota_key c cum st) (fun k => conj eq_refl eq_refl)) as [Hperm Hsorted].
  rewrite Hshown. split_and!; [| | exact Hsorted].
  - rewrite <- list_fmap_compose. change (qr_row ∘ quota_key c cum st) with (id : KeyRow -> KeyRow). rewrite list_fmap_id, Hperm. apply merge_sort_Permutation.
  - intros x (k & -> & Hk)%list_elem_of_fmap. rewrite Hperm in Hk. cbn. by apply counters_of_rows_read.
Qed.
End properties.

(** *** Witnesses *)

#[local] Existing Instance whole_decimal.
Definition row_named (t alias : string) (team : option string) : KeyRow :=
  mkKey (mkToken t None (Some alias) (f64_of 0) None [] None team None None None None None) None None None.
Definition listed_limiter : SlidingWindowLimiter :=
  mkSlidingWindowLimiter {[cache_key (plan_key "h1") 60 := mkWindowCounter 3 0 0 1000 60]}
    (list_to_map [("tc:t:tin", 7); ("tc:t:tcost", 9); ("kc:h1:tcost", 4); ("kc:h2:tcost", 5)]) ∅ ∅.
Definition listed_dash : Dash (D := Z) :=
  mkDash (list_to_map [("h1", row_named "h1" "alice" (Some "t")); ("h2", row_named "h2" "bob" (Some "t")); ("h3", row_named "h3" "carol" None)])
    {["t" := mkTeamRow [] None]} (ds_plans demo_dash) listed_limiter.
Definition no_search : ListKeysQuery := mkListKeys 0 2 None None None.

Lemma keys_listed_once_witness :
  (seqZ 1 2 ≫= fun p => key_page (fun s => s) 1010 (at_page no_search p) listed_dash) = listed_keys (fun s => s) 1010 no_search listed_dash
  /\ ((fun x => token (kr_token (ki_row x))) <$> listed_keys (fun s => s) 1010 no_search listed_dash) !! 0%nat = Some "h1"
  /\ length (key_page (fun s => s) 1010 no_search listed_dash) = 2%nat.
Proof.
  split; [| split; vm_compute; reflexivity].
  apply (keys_listed_once (fun s => s) 1010 no_search listed_dash 2); vm_compute; congruence.
Defined.

Lemma overview_exact_witness :
  exists x, x ∈ ov_teams (overview 1010 [] (map_to_list (cumulative listed_limiter)) listed_dash) /\ ti_key_count x = 2 /\ ti_cum x = (7, 0, 9).
Proof.
  destruct (overview_exact 1010 [] (cumulative listed_limiter) listed_dash "t" (mkTeamRow [] None) (fun _ => eq_refl) eq_refl) as (x & Hx & _ & Hc & Hcum & _).
  exists x. split_and!; [exact Hx | rewrite Hc; vm_compute; reflexivity | rewrite Hcum; vm_compute; reflexivity].
Defined.

Definition by_cost_query : QuotaKeysQuery := mkQuotaKeys 1 1 None (Some "cost").
Lemma quota_keys_sorted_witness :
  let shown := seqZ 1 2 ≫= fun p => (quota_page (D := Z) (fun s => s) (fun _ => None) String.le true (cumulative listed_limiter) PlanStore.new_counters (Some "t")
    (at_quota_page by_cost_query p) listed_dash).1 in
  StronglySorted (shown_before (Some "cost")) shown /\ ((fun x => token (kr_token (qr_row x))) <$> shown) = ["h2"; "h1"].
Proof.
  split; [| vm_compute; reflexivity].
  apply (quota_keys_sorted (fun s => s) (fun _ => None) String.le (cumulative listed_limiter) PlanStore.new_counters (Some "t") by_cost_query listed_dash 2);
    vm_compute; congruence.
Defined.

End DashLists.
