(* ===== verification/AdminModels.v ===== *)
(** * AdminModels: the models, aliases and sections that the dashboard edits (boom-main, boom-dashboard)

    Models [boom-main/src/admin_command.rs], the task that executes the writes of the
    dashboard; [update_config_section] of [boom-main/src/state.rs]; and the handlers of
    [boom-dashboard/src/handlers_admin.rs] for models, aliases and the configuration, with
    the request they parse.  The tables, the file and what is in memory are the world of
    ConfigSync, and every write ends with its [persist_config_in_place] or its [reload].  The
    serializer of the configuration and the texts of errors, decimals and dates are
    parameters. *)

From S2P Require Import Prelude Core Text Float64 Json PlanStore Stores Config ModelTable PlanTable Deployments ConfigSync Chat DashKeys DashImport.

Module AdminModels.
Import Core Json ModelTable ConfigSync DashKeys(Reply, RJson, RText, Answer, mkAnswer, reply, config_changed, quiet, no_database, ok_reply, vopt).

(** ** The request *)

Record CreateDeploymentRequest := mkRequest {
  cd_model_name : string;
  cd_litellm_model : string;
  cd_api_key : option string;
  cd_api_key_env : option bool;
  cd_api_base : option string;
  cd_api_version : option string;
  cd_aws_region_name : option string;
  cd_aws_access_key_id : option string;
  cd_aws_secret_access_key : option string;
  cd_rpm : option Z;
  cd_tpm : option Z;
  cd_timeout : Z;
  cd_headers : gmap string string;
  cd_temperature : option f64;
  cd_max_tokens : option Z;
  cd_enabled : bool;
  cd_deployment_id : option string;
  cd_quota_count_ratio : option Z;
  cd_max_inflight_queue_len : option Z;
  cd_max_context_len : option Z;
  cd_client_type_header : bool;
  cd_serve_not_match : bool;
  cd_model_info : option Value;
}.

Definition default_timeout : Z := 1200.

(** [serde_json::Value] in an [Option]: null is [None]. *)
Definition de_value (v : Value) : option Value := Some v.

Definition de_request (v : Value) : option CreateDeploymentRequest :=
  o ← as_object v;
  m ← field o "model_name" de_string None; l ← field o "litellm_model" de_string None;
  k ← opt_field o "api_key" de_string; ke ← opt_field o "api_key_env" de_bool;
  b ← opt_field o "api_base" de_string; ver ← opt_field o "api_version" de_string;
  ar ← opt_field o "aws_region_name" de_string; ak ← opt_field o "aws_access_key_id" de_string; sk ← opt_field o "aws_secret_access_key" de_string;
  rpm ← opt_field o "rpm" DashKeys.de_i64; tpm ← opt_field o "tpm" DashKeys.de_i64; t ← field o "timeout" DashKeys.de_i64 (Some default_timeout);
  hs ← field o "headers" (de_map de_string) (Some ∅); temp ← opt_field o "temperature" de_f64; mt ← opt_field o "max_tokens" Chat.de_i32;
  en ← field o "enabled" de_bool (Some true); did ← opt_field o "deployment_id" de_string; q ← opt_field o "quota_count_ratio" DashKeys.de_i64;
  fq ← opt_field o "max_inflight_queue_len" Chat.de_i32; fc ← opt_field o "max_context_len" DashKeys.de_i64;
  ct ← field o "client_type_header" de_bool (Some false); sn ← field o "serve_not_match" de_bool (Some false); mi ← opt_field o "model_info" de_value;
  Some (mkRequest m l k ke b ver ar ak sk rpm tpm t hs temp mt en did q fq fc ct sn mi).

Definition headers_json (hs : gmap string string) : Value := VObject ((fun kv => (kv.1, VString kv.2)) <$> map_to_list hs).

Definition input_of_request (r : CreateDeploymentRequest) : DeploymentInput :=
  mkDeploymentInput (cd_model_name r) (cd_litellm_model r) (cd_api_key r) (cd_api_key_env r) (cd_api_base r) (cd_api_version r) (cd_aws_region_name r)
    (cd_aws_access_key_id r) (cd_aws_secret_access_key r) (cd_rpm r) (cd_tpm r) (cd_timeout r) (headers_json (cd_headers r)) (cd_temperature r) (cd_max_tokens r)
    (cd_enabled r) (cd_deployment_id r) (default 1 (cd_quota_count_ratio r)) (cd_max_inflight_queue_len r) (cd_max_context_len r) (cd_client_type_header r)
    (cd_serve_not_match r) (cd_model_info r).

(** ** Listings *)

Definition masked (v : Value) : Value := match v with VNull => VNull | _ => VString "****" end.
Definition source_text (s : Source) : string := match s with FromYaml => "yaml" | FromDb => "db" end.

Section listing.
Context {D : Type} `{DecimalOps D} (million : D) (name_le : string -> string -> Prop) `{!RelDecision name_le} (stamps : string -> option string * option string).

Definition per_million (v : D) : Value := VString (if dec_is_zero v then "0" else dec_show (dec_mul v million)).

Definition list_item (store : Stores.DeploymentStore D) (r : DeploymentRow) : Value :=
  let d := row_data r in let rate := Stores.get_cost_rate store (model_name d) in
  VObject [("id", VString (row_id r)); ("model_name", VString (model_name d)); ("litellm_model", VString (litellm_model d));
    ("api_key", masked (vopt VString (api_key d))); ("api_key_env", VBool (default false (api_key_env d)));
    ("api_base", vopt VString (api_base d)); ("api_version", vopt VString (api_version d)); ("aws_region_name", vopt VString (aws_region_name d));
    ("aws_access_key_id", masked (vopt VString (aws_access_key_id d))); ("aws_secret_access_key", masked (vopt VString (aws_secret_access_key d)));
    ("rpm", vopt vint (rpm d)); ("tpm", vopt vint (tpm d)); ("timeout", vint (timeout d)); ("headers", headers d);
    ("temperature", vopt (fun t => VNumber (NFloat t)) (temperature d)); ("max_tokens", vopt vint (max_tokens d)); ("enabled", VBool (enabled d));
    ("auto_disabled", VBool (auto_disabled r)); ("source", VString (source_text (source r))); ("deployment_id", vopt VString (deployment_id d));
    ("quota_count_ratio", vint (quota_count_ratio d)); ("max_inflight_queue_len", vopt vint (max_inflight_queue_len d));
    ("max_context_len", vopt vint (max_context_len d)); ("client_type_header", VBool (client_type_header d)); ("serve_not_match", VBool (serve_not_match d));
    ("model_info", vopt id (model_info d));
    ("cost_per_million", VObject [("input", per_million (Stores.input_cost_per_token rate)); ("cached_input", per_million (Stores.cached_input_cost_per_token rate));
                                  ("output", per_million (Stores.output_cost_per_token rate))]);
    ("created_at", vopt VString (stamps (row_id r)).1); ("updated_at", vopt VString (stamps (row_id r)).2)].

(** [rows]: [None] without a database, and what the query gives. *)
Definition list_models (store : Stores.DeploymentStore D) (rows : option (option Table)) : Reply :=
  match rows with
  | None => RJson 200 (VObject [("error", VString "Database not available")])
  | Some None => RJson 200 (VObject [("error", VString "Internal error")])
  | Some (Some t) => RJson 200 (VObject [("models", VArray (list_item store <$> list_all_db name_le t))])
  end.

Definition list_aliases (rows : option (option AliasTable)) : Reply :=
  match rows with
  | None => RJson 200 (VObject [("error", VString "Database not available")])
  | Some None => RJson 200 (VObject [("error", VString "Internal error")])
  | Some (Some t) =>
    RJson 200 (VObject [("aliases", VArray ((fun kv => VObject [("alias_name", VString kv.1); ("target_model", VString (target_model kv.2));
      ("hidden", VBool (al_hidden kv.2)); ("source", VString (source_text (al_source kv.2))); ("updated_at", vopt VString (stamps kv.1).2)]) <$> map_to_list t))])
  end.
End listing.

(** ** Commands *)

Section admin.
Context {D : Type} `{DecimalOps D} (de_decimal : Value -> option D) (show_f64 : f64 -> string).
Context (getenv : string -> option string) (to_lowercase : string -> string) (client_error : option string) (per_token : f64 -> option D).
Context `{DecimalText D} (ser_decimal : D -> Value) (micros_text : Z -> string) (name_le : string -> string -> Prop) `{!RelDecision name_le}.
Context (ids : nat -> string) (order : gmap string Config.ModelGroupAlias -> list (string * Config.ModelGroupAlias)).
Context (ser_config : Config.Config D -> Value) (summary : World (D := D) -> string).

Notation Config := (Config.Config D).
Notation World := (World (D := D)).
Notation persist := (persist_config_in_place de_decimal show_f64 getenv to_lowercase client_error per_token ser_decimal micros_text name_le ids order).
Notation reload := (reload de_decimal show_f64 getenv to_lowercase client_error per_token ser_decimal name_le ids order).

(** The world, and the configuration that is in use. *)
Record AdminState := mkAdmin { world : World; config : Config }.

(** The outcome of the database for a command: there is none, the statement fails, or not. *)
Inductive Db := NoDb | DbFails (e : string) | DbOk.

Inductive AdminCommand :=
| CreateModel (req : CreateDeploymentRequest)
| UpdateModel (id : string) (req : CreateDeploymentRequest)
| DeleteModel (id : string)
| ConfigChanged
| ReloadConfig
| UpdateConfigSection (path : string) (value : Value)
| GetConfig.

Definition with_table (s : AdminState) (t : Table) : AdminState :=
  let w := world s in mkAdmin (mkWorld (w_file w) t (w_alias_table w) (w_store w) (w_aliases w) (w_plans w) (w_flow w) (w_plan_db w)) (config s).
Definition with_file (w : World) (v : Value) : World := mkWorld v (w_table w) (w_alias_table w) (w_store w) (w_aliases w) (w_plans w) (w_flow w) (w_plan_db w).

Definition ensure_not_workflow_model (s : AdminState) (m : string) : option string :=
  match Config.wf_models (Config.workflow_settings (config s)) !! m with
  | Some _ => Some ("model '" +:+ m +:+ "' is reserved by workflow_settings")
  | None => None
  end.

(** [id] and [fresh] are what the database and the gateway generate. *)
Definition handle_create_model (db : Db) (id fresh : string) (s : AdminState) (req : CreateDeploymentRequest) : AdminState * (string + Value) :=
  match ensure_not_workflow_model s (cd_model_name req) with
  | Some e => (s, inl e)
  | None =>
    match db with
    | NoDb => (s, inl "Database not available")
    | DbFails e => (s, inl ("DB insert failed: " +:+ e))
    | DbOk => (with_table s (create_db id fresh (input_of_request req) (w_table (world s))),
               inr (VObject [("ok", VBool true); ("id", VString id); ("model_name", VString (cd_model_name req))]))
    end
  end.

Definition handle_update_model (db : Db) (s : AdminState) (id : string) (req : CreateDeploymentRequest) : AdminState * (string + Value) :=
  match ensure_not_workflow_model s (cd_model_name req) with
  | Some e => (s, inl e)
  | None =>
    match db with
    | NoDb => (s, inl "Database not available")
    | DbFails e => (s, inl ("DB update failed: " +:+ e))
    | DbOk => let r := update_db id (input_of_request req) (w_table (world s)) in
              (with_table s r.1, if r.2 then inr (VObject [("ok", VBool true)]) else inl "Model deployment not found")
    end
  end.

Definition handle_delete_model (db : Db) (s : AdminState) (id : string) : AdminState * (string + Value) :=
  match db with
  | NoDb => (s, inl "Database not available")
  | DbFails e => (s, inl ("DB delete failed: " +:+ e))
  | DbOk => let r := delete_db id (w_table (world s)) in
            (with_table s r.1, match r.2 with Some (m, _) => inr (VObject [("ok", VBool true); ("model_name", VString m)]) | None => inl "Model deployment not found" end)
  end.

Definition augment_with_warning (warning : string) (v : Value) : Value :=
  match v with VObject o => VObject (obj_insert o "warning" (VString warning)) | _ => v end.

(** The configuration in use after a reload of this file. *)
Definition loaded (s : AdminState) (file : Value) : Config := match Config.load_config de_decimal show_f64 getenv file with inr c => c | inl _ => config s end.

(** [persist_config_in_place] and what the gateway holds after it; without a database it does nothing. *)
Definition persist_now (db : Db) (s : AdminState) : AdminState * (string + unit) :=
  match db with
  | NoDb => (s, inl "Database not available")
  | _ => match persist (world s) with
         | inl (e, w) => (mkAdmin w (config s), inl e)
         | inr w => (mkAdmin w (loaded s (w_file w)), inr tt)
         end
  end.

Definition persisted (db : Db) (r : AdminState * (string + Value)) : AdminState * (string + Value) :=
  match r with
  | (s, inr v) =>
    match persist_now db s with
    | (s, inl e) => (s, inr (augment_with_warning ("DB write succeeded but config did not reload: " +:+ e +:+ ". Use the Reload button to retry.") v))
    | (s, inr _) => (s, inr v)
    end
  | (s, inl e) => (s, inl e)
  end.

(** The reload on its own. *)
Definition reload_now (s : AdminState) : AdminState * (string + string) :=
  match reload (world s) with
  | inl (e, w) => (mkAdmin w (config s), inl e)
  | inr w => (mkAdmin w (loaded s (w_file w)), inr (summary w))
  end.

Definition segments (path : string) : list string := retain (fun s => negb (bool_decide (s = ""))) (split_on "." path).

Definition update_config_section (s : AdminState) (path : string) (value : Value) : AdminState * (string + string) :=
  match segments path with
  | [] => (s, inl "Empty config path")
  | segs =>
    match Config.set_yaml_path (w_file (world s)) segs value with
    | inl _ => (s, inl "Failed to set path")
    | inr root =>
      match reload_now (mkAdmin (with_file (world s) root) (config s)) with
      | (s, inl e) => (s, inl ("Saved but reload failed: " +:+ e))
      | r => r
      end
    end
  end.

(** A command with the answer that goes back; [ConfigChanged] has none. *)
Definition dispatch (db : Db) (id fresh : string) (s : AdminState) (cmd : AdminCommand) : AdminState * option (string + Value) :=
  match cmd with
  | CreateModel req => let r := persisted db (handle_create_model db id fresh s req) in (r.1, Some r.2)
  | UpdateModel id req => let r := persisted db (handle_update_model db s id req) in (r.1, Some r.2)
  | DeleteModel id => let r := persisted db (handle_delete_model db s id) in (r.1, Some r.2)
  | ConfigChanged => ((persist_now db s).1, None)
  | ReloadConfig => let r := reload_now s in (r.1, Some (match r.2 with inl e => inl ("Reload failed: " +:+ e) | inr m => inr (VString m) end))
  | UpdateConfigSection path value => let r := update_config_section s path value in (r.1, Some (match r.2 with inl e => inl e | inr m => inr (VString m) end))
  | GetConfig => (s, Some (inr (Config.mask_secrets (ser_config (config s)))))
  end.

(** ** Handlers *)

(** What comes back over the channel. *)
Inductive Channel := NotSent | Dropped | Replied (r : string + Value).

Definition unavailable : Reply := RText 500 "Admin command handler unavailable".
Definition dropped_reply : Reply := RText 500 "Admin command handler dropped reply".

Definition model_reply (c : Channel) : Reply :=
  match c with
  | NotSent => unavailable
  | Dropped => dropped_reply
  | Replied (inr v) => RJson 200 v
  | Replied (inl msg) => RJson 200 (VObject [("error", VString msg)])
  end.
(** [reload_config] and [update_config], and [get_config]. *)
Definition config_reply (c : Channel) : Reply :=
  match c with
  | NotSent => unavailable
  | Dropped => dropped_reply
  | Replied (inr v) => RJson 200 (VObject [("ok", VBool true); ("message", v)])
  | Replied (inl msg) => RText 500 msg
  end.
Definition get_config_reply (c : Channel) : Reply :=
  match c with
  | NotSent => unavailable
  | Dropped => dropped_reply
  | Replied (inr v) => RJson 200 v
  | Replied (inl msg) => RText 500 msg
  end.

Definition in_world (s : AdminState) (a : AliasTable) (m : Stores.AliasStore) : AdminState :=
  let w := world s in mkAdmin (mkWorld (w_file w) (w_table w) a (w_store w) m (w_plans w) (w_flow w) (w_plan_db w)) (config s).

Definition error_json (e : string) : Answer := quiet (RJson 200 (VObject [("error", VString e)])).

Definition exclusive_alias (s : AdminState) (a : string) : option Answer :=
  if Stores.is_exclusive_model (w_store (world s)) a then Some (error_json ("alias '" +:+ a +:+ "' conflicts with an exclusive workflow model")) else None.

Definition create_alias (db : Db) (s : AdminState) (i : AliasInput) : AdminState * Answer :=
  match exclusive_alias s (ai_name i) with
  | Some a => (s, a)
  | None =>
    match db with
    | NoDb => (s, no_database)
    | DbFails _ => (s, error_json "Internal error")
    | DbOk => let r := alias_create_db i (w_alias_table (world s)) (w_aliases (world s)) in
              (in_world s r.1 r.2, mkAnswer (RJson 200 (VObject [("ok", VBool true); ("alias_name", VString (ai_name i))])) true)
    end
  end.

Definition update_alias (db : Db) (s : AdminState) (name : string) (i : AliasInput) : AdminState * Answer :=
  match exclusive_alias s (ai_name i) with
  | Some a => (s, a)
  | None =>
    match db with
    | NoDb => (s, no_database)
    | DbFails _ => (s, error_json "Internal error")
    | DbOk => let r := alias_update_db name i (w_alias_table (world s)) (w_aliases (world s)) in
              if r.2 then (in_world s r.1.1 r.1.2, mkAnswer ok_reply true) else (s, error_json "Alias not found")
    end
  end.

Definition delete_alias (db : Db) (s : AdminState) (name : string) : AdminState * Answer :=
  match db with
  | NoDb => (s, no_database)
  | DbFails _ => (s, error_json "Internal error")
  | DbOk => let r := alias_delete_db name (w_alias_table (world s)) (w_aliases (world s)) in
            if r.2 then (in_world s r.1.1 r.1.2, mkAnswer (RJson 200 (VObject [("ok", VBool true); ("alias_name", VString name)])) true)
            else (s, error_json "Alias not found")
  end.
End admin.

(** ** The memory follows the table *)

Section follows.
Context {D : Type} `{DecimalOps D} (de_decimal : Value -> option D) (show_f64 : f64 -> string).
Context (getenv : string -> option string) (to_lowercase : string -> string) (client_error : option string) (per_token : f64 -> option D).
Context `{DecimalText D} (ser_decimal : D -> Value) (micros_text : Z -> string) (name_le : string -> string -> Prop) `{!RelDecision name_le}.
Context (ids : nat -> string) (order : gmap string Config.ModelGroupAlias -> list (string * Config.ModelGroupAlias)).
Context (ser_config : Config.Config D -> Value) (summary : World (D := D) -> string).

Notation persist := (persist_config_in_place de_decimal show_f64 getenv to_lowercase client_error per_token ser_decimal micros_text name_le ids order).
Notation dispatch := (dispatch de_decimal show_f64 getenv to_lowercase client_error per_token ser_decimal micros_text name_le ids order ser_config summary).
Notation persisted := (persisted de_decimal show_f64 getenv to_lowercase client_error per_token ser_decimal micros_text name_le ids order).
Notation added := (added to_lowercase client_error).
Implicit Types s : AdminState (D := D).

(** The entry that a persist writes for a row, and reads back. *)
Definition entry_for (r : DeploymentRow) (e : Config.ModelEntry) : Prop :=
  exists e0, Config.de_entry (snapshot_entry r) = Some e0 /\ e = Config.resolve_entry getenv e0.

(** The candidates of every model are those of the rows, in their order. *)
Definition serves_table (t : Table) (w : World (D := D)) : Prop :=
  exists es, Forall2 entry_for (snapshot_db name_le t) es /\
    forall m, default [] (Stores.deployments (w_store w) !! m) = es ≫= added m.

Definition same_memory (w w' : World (D := D)) : Prop :=
  w_store w' = w_store w /\ w_aliases w' = w_aliases w /\ w_plans w' = w_plans w /\ w_flow w' = w_flow w.

Lemma load_db_only_nothing (ds : list DeploymentInput) (s : Stores.DeploymentStore D) :
  load_db_only_deployments getenv to_lowercase client_error name_le (imap (fun i d => mkRow (ids i) (bound d) false FromYaml) ds) s = s.
Proof.
  unfold load_db_only_deployments. assert (load_db_only_rows name_le (imap (fun i d => mkRow (ids i) (bound d) false FromYaml) ds) = []) as ->; [| done].
  unfold load_db_only_rows. match goal with |- order_by_name _ ?l = [] => assert (l = []) as -> end; [| done].
  apply retain_none. intros r (i & d & -> & _)%elem_of_lookup_imap. done.
Qed.

Lemma persist_serves w w' : persist w = inr w' -> serves_table (w_table w) w'.
Proof.
  intros Hp. pose proof Hp as Ht. apply persist_table in Ht as (c' & _ & Ht). revert Hp Ht.
  unfold persist_config_in_place. destruct (merge_runtime_sections _ _) as [| doc] eqn:Em; [done |].
  unfold ConfigSync.reload. cbn [w_file w_table w_alias_table w_store]. destruct (Config.load_config _ _ _ doc) as [| c] eqn:El; [done |].
  destruct (validate_db_workflow_namespace _ _ c); [done |]. destruct (sync_tables _ _ _ _) as [[t a] ok] eqn:Es.
  destruct (PlanTable.reload_plans _ _ _ _ _ _ _) as [db plans]. intros [= <-]. cbn [w_table w_store]. intros ->.
  exists (Config.model_list c). split.
  - eapply Forall2_impl; [eapply persisted_entries; [exact Em | exact El] |]. intros r e (e0 & ? & ?). by exists e0.
  - intros m. rewrite load_db_only_nothing. apply build_deployments_exact.
Qed.

Lemma persist_fails w e w' : persist w = inl (e, w') -> w_table w' = w_table w /\ same_memory w w'.
Proof.
  unfold persist_config_in_place, same_memory. destruct (merge_runtime_sections _ _) as [| doc]; [by intros [= <- <-] |]. unfold ConfigSync.reload. cbn [w_file].
  destruct (Config.load_config _ _ _ doc) as [| c]; [by intros [= <- <-] |]. cbn [w_table w_alias_table].
  destruct (validate_db_workflow_namespace _ _ c); [by intros [= <- <-] |]. destruct (sync_tables _ _ _ _) as [[t a] ok]. by destruct (PlanTable.reload_plans _ _ _ _ _ _ _).
Qed.

(** What the statement of a command does to the table. *)
Definition statement (id fresh : string) (cmd : AdminCommand) (t : Table) : Table :=
  match cmd with
  | CreateModel req => create_db id fresh (input_of_request req) t
  | UpdateModel id req => (update_db id (input_of_request req) t).1
  | DeleteModel id => (delete_db id t).1
  | _ => t
  end.
Definition model_command (cmd : AdminCommand) : Prop := match cmd with CreateModel _ | UpdateModel _ _ | DeleteModel _ => True | _ => False end.

Lemma handled_statement db id fresh s cmd r :
  model_command cmd ->
  r = match cmd with CreateModel req => handle_create_model db id fresh s req | UpdateModel id req => handle_update_model db s id req | DeleteModel id => handle_delete_model db s id | _ => r end ->
  match r.2 with
  | inr v => db = DbOk /\ r.1 = with_table s (statement id fresh cmd (w_table (world s))) /\ get v "warning" = None /\ is_Some (as_object v)
  | inl _ => w_file (world r.1) = w_file (world s) /\ same_memory (world s) (world r.1)
  end.
Proof.
  intros Hc ->. destruct cmd as [req | i req | i | | | |]; try done.
  - unfold handle_create_model. destruct (ensure_not_workflow_model _ _); [done |]. destruct db; [done | done |]. split_and!; try done; by eexists.
  - unfold handle_update_model. destruct (ensure_not_workflow_model _ _); [done |]. destruct db; [done | done |]. cbv zeta. cbn [fst snd statement].
    destruct (update_db _ _ _) as [t []]; cbn [fst snd]; [| done]. split_and!; try done; by eexists.
  - unfold handle_delete_model. destruct db; [done | done |]. cbv zeta. cbn [fst snd statement]. destruct (delete_db _ _) as [t [[m d] |]]; cbn [fst snd]; [| done].
    split_and!; try done; by eexists.
Qed.

Lemma statement_missing db id fresh s cmd :
  model_command cmd ->
  forall r, r = match cmd with CreateModel req => handle_create_model db id fresh s req | UpdateModel id req => handle_update_model db s id req | DeleteModel id => handle_delete_model db s id | _ => r end ->
  match r.2 with inl _ => w_table (world r.1) = w_table (world s) | inr _ => True end.
Proof.
  intros Hc r ->. destruct cmd as [req | i req | i | | | |]; try done.
  - unfold handle_create_model. destruct (ensure_not_workflow_model _ _); [done |]. by destruct db.
  - unfold handle_update_model. destruct (ensure_not_workflow_model _ _); [done |]. destruct db; [done | done |]. cbv zeta. unfold update_db. cbn [fst snd].
    destruct (existsb _ _) eqn:E; [done |]. cbn [with_table world w_table]. unfold update_where. rewrite <- (list_fmap_id (w_table (world s))) at 2. apply list_fmap_ext.
    intros j x Hx. destruct (bool_decide (row_id x = i)) eqn:Ex; [| done]. exfalso. rewrite <- not_true_iff_false, existsb_exists in E. apply E. exists x.
    split; [| done]. apply list_elem_of_In. by eapply list_elem_of_lookup_2.
  - unfold handle_delete_model. destruct db; [done | done |]. cbv zeta. unfold delete_db. destruct (list_find _ _) as [[j x] |]; [| done]. cbn [fst snd]. by destruct (row_data x).
Qed.

(** C24: what the dashboard answers is what happened.  When a model is created, updated or deleted and the
    answer bears no warning, the table has the change, and the candidates of every model are the
    deployments of the rows of the table, in their order, whatever was in memory before; with a warning
    the table has the change and the memory is as it was; with an error nothing has changed, neither
    table, file nor memory. *)
Theorem answer_tells db id fresh s cmd :
  model_command cmd ->
  let r := dispatch db id fresh s cmd in
  match r.2 with
  | Some (inr v) =>
    match get v "warning" with
    | None => serves_table (statement id fresh cmd (w_table (world s))) (world r.1)
    | Some _ => w_table (world r.1) = statement id fresh cmd (w_table (world s)) /\ same_memory (world s) (world r.1)
    end
  | Some (inl _) => w_table (world r.1) = w_table (world s) /\ w_file (world r.1) = w_file (world s) /\ same_memory (world s) (world r.1)
  | None => False
  end.
Proof.
  intros Hc r. set (h := match cmd with CreateModel req => handle_create_model db id fresh s req | UpdateModel id req => handle_update_model db s id req
                                     | DeleteModel id => handle_delete_model db s id | _ => (s, inl "") end).
  assert (r = ((persisted db h).1, Some (persisted db h).2)) as -> by (unfold r, h; by destruct cmd).
  pose proof (handled_statement db id fresh s cmd h Hc ltac:(by destruct cmd)) as Hh. pose proof (statement_missing db id fresh s cmd Hc h ltac:(by destruct cmd)) as Hm.
  clearbody h. destruct h as [s1 [e | v]]; cbn [fst snd] in Hh, Hm; [by destruct Hh |]. destruct Hh as (-> & -> & Hw & [o Ho]).
  unfold AdminModels.persisted, persist_now. cbn [world with_table]. destruct (persist _) as [[e w'] | w'] eqn:Ep; cbn [fst snd].
  - destruct v; try done. simpl in Ho. injection Ho as ->. cbn [augment_with_warning get]. rewrite obj_get_insert. cbn [world].
    apply persist_fails in Ep as [Ht Hsm]. by rewrite Ht.
  - rewrite Hw. cbn [world]. by apply persist_serves in Ep.
Qed.
End follows.

(** ** Sections *)

Section edits.
Context {D : Type} `{DecimalOps D} (de_decimal : Value -> option D) (show_f64 : f64 -> string).
Context (getenv : string -> option string) (to_lowercase : string -> string) (client_error : option string) (per_token : f64 -> option D).
Context `{DecimalText D} (ser_decimal : D -> Value) (micros_text : Z -> string) (name_le : string -> string -> Prop) `{!RelDecision name_le}.
Context (ids : nat -> string) (order : gmap string Config.ModelGroupAlias -> list (string * Config.ModelGroupAlias)) (summary : World (D := D) -> string).

Notation reload := (ConfigSync.reload de_decimal show_f64 getenv to_lowercase client_error per_token ser_decimal name_le ids order).
Notation update_config_section := (update_config_section de_decimal show_f64 getenv to_lowercase client_error per_token ser_decimal name_le ids order summary).

Lemma reload_file w : match reload w with inl (_, w') => w_file w' = w_file w /\ same_memory w w' | inr w' => w_file w' = w_file w end.
Proof.
  unfold ConfigSync.reload, same_memory. destruct (Config.load_config _ _ _ _) as [| c]; [done |]. destruct (validate_db_workflow_namespace _ _ c); [done |].
  destruct (sync_tables _ _ _ _) as [[t a] ok]. by destruct (PlanTable.reload_plans _ _ _ _ _ _ _).
Qed.

Lemma get_path_app v p q : Config.get_path v (p ++ q) = (x ← Config.get_path v p; Config.get_path x q).
Proof.
  revert v. induction p as [| k p IH]; intros v; [done |]. cbn [app]. rewrite !Config.get_path_cons. destruct (get v k) as [x |]; [apply IH | done].
Qed.

(** An edited section is replaced whole, and nothing else in the file.  When the answer of an edit is a
    success, the file has at the path what was sent and nothing more, so that a key that the section
    had and the request has not is gone, and elsewhere it is as it was; when the reload fails the file
    has the section all the same and the memory is as it was; on any other error nothing has changed. *)
Theorem section_replaced (s : AdminState (D := D)) path value :
  let r := update_config_section s path value in
  (r.1 = s /\ exists e, r.2 = inl e) \/
  (segments path <> [] /\
   (forall q, Config.get_path (w_file (world r.1)) (segments path ++ q) = Config.get_path value q) /\
   (forall q, Config.apart (segments path) q -> Config.get_path (w_file (world r.1)) q = Config.get_path (w_file (world s)) q) /\
   match r.2 with inl _ => same_memory (world s) (world r.1) /\ config r.1 = config s | inr _ => True end).
Proof.
  intros r. subst r. unfold AdminModels.update_config_section. destruct (segments path) as [| k segs] eqn:Es; [left; split; [done | by eexists] |]. rewrite <- Es.
  assert (segments path <> []) as Hne by (by rewrite Es). clear Es k segs.
  destruct (segments path) as [| k segs] eqn:Es; [done |]. rewrite <- Es in *. clear Es k segs.
  destruct (Config.set_yaml_path _ _ _) as [e | root] eqn:Ep; [left; split; [done | by eexists] |]. right. split; [done |].
  apply Config.set_path_frame in Ep as [Hg Hf]. unfold reload_now. cbn [world].
  pose proof (reload_file (with_file (world s) root)) as Hr. destruct (reload (with_file (world s) root)) as [[e w'] | w'].
  - destruct Hr as [Hw Hm]. cbn [fst snd world config]. rewrite Hw. cbn [with_file w_file]. split_and!; [| done | done | done]. intros q. by rewrite get_path_app, Hg.
  - cbn [fst snd world config]. rewrite Hr. cbn [with_file w_file]. split_and!; [| done | done]. intros q. by rewrite get_path_app, Hg.
Qed.
End edits.

(** ** Aliases *)

(** An edit of an alias is in the table and in the memory, or in neither.  An edit that asks for the
    configuration to be written has changed both: a created alias is one of the database and resolves
    to its target, an updated one (under its own name) has the new target and keeps its source, a
    deleted one is in neither; any other answer has changed nothing; and the name of an exclusive
    model is never given to an alias. *)
Theorem alias_edits_exact {D} `{DecimalOps D} db (s : AdminState (D := D)) (i : AliasInput) :
  let tab s := w_alias_table (world s) in let mem s n := Stores.resolve (w_aliases (world s)) n in
  (let r := create_alias db s i in
   if config_changed r.2 then tab r.1 !! ai_name i = Some (mkAliasRow (ai_target i) (ai_hidden i) FromDb) /\ mem r.1 (ai_name i) = Some (ai_target i) /\
                              Stores.is_exclusive_model (w_store (world s)) (ai_name i) = false
   else r.1 = s) /\
  (let r := update_alias db s (ai_name i) i in
   if config_changed r.2 then exists row, tab s !! ai_name i = Some row /\ tab r.1 !! ai_name i = Some (mkAliasRow (ai_target i) (ai_hidden i) (al_source row)) /\
                              mem r.1 (ai_name i) = Some (ai_target i)
   else r.1 = s) /\
  (let r := delete_alias db s (ai_name i) in
   if config_changed r.2 then tab r.1 !! ai_name i = None /\ mem r.1 (ai_name i) = None else r.1 = s).
Proof.
  cbv zeta. unfold Stores.resolve. split_and!.
  - unfold create_alias, exclusive_alias. destruct (Stores.is_exclusive_model _ _) eqn:Ex; [done |]. destruct db; [done | done |]. cbn.
    by rewrite !lookup_insert_eq.
  - unfold update_alias, exclusive_alias. destruct (Stores.is_exclusive_model _ _) eqn:Ex; [done |]. destruct db; [done | done |]. cbv zeta. unfold alias_update_db.
    destruct (w_alias_table (world s) !! ai_name i) as [row |] eqn:Er; [| done]. cbn. exists row. by rewrite !lookup_insert_eq.
  - unfold delete_alias. destruct db; [done | done |]. cbv zeta. unfold alias_delete_db. destruct (w_alias_table (world s) !! ai_name i); [| done]. cbn.
    rewrite lookup_delete_eq. split; [done |]. unfold Stores.remove_alias. cbn. try case_match; by rewrite ?lookup_delete_eq.
Qed.

(** ** Witnesses *)

#[local] Existing Instance whole_decimal.
#[local] Existing Instance whole_decimal_text.

Definition demo_config : Config.Config Z :=
  Config.mkConfig [] Config.default_general Config.default_router_settings Config.default_workflow Config.default_server Config.default_rate_settings
    Config.empty_plan_settings [] Config.default_health_settings None Config.default_pre_auth.
Definition demo_admin (t : Table) : AdminState (D := Z) := mkAdmin (demo_world t) demo_config.
Definition demo_dispatch (s : AdminState (D := Z)) (cmd : AdminCommand) : AdminState (D := Z) * option (string + Value) :=
  dispatch (fun _ => None) (fun _ => "") (fun _ => None) (fun s => s) None (fun _ => None) (fun _ => VNull) (fun _ => "0") String.le demo_ids map_to_list
    (fun _ => VNull) (fun _ => "") DbOk "row" "fresh" s cmd.
Definition demo_create (rpm : option Z) : CreateDeploymentRequest :=
  mkRequest "gpt" "openai/gpt-4" (Some "k") None None None None None None rpm None 1200 ∅ None None true None None None None false false None.

(** A model that is served, and one with a limit that the file cannot hold. *)
Lemma answer_tells_witness :
  match (demo_dispatch (demo_admin []) (CreateModel (demo_create (Some 60)))).2 with Some (inr v) => get v "warning" = None | _ => False end /\
  match (demo_dispatch (demo_admin []) (CreateModel (demo_create (Some (-1))))).2 with Some (inr v) => is_Some (get v "warning") | _ => False end /\
  (let r := demo_dispatch (demo_admin []) (CreateModel (demo_create (Some 60))) in
   match r.2 with
   | Some (inr v) =>
     match get v "warning" with
     | None => serves_table (fun _ => None) (fun s => s) None String.le (statement "row" "fresh" (CreateModel (demo_create (Some 60))) []) (world r.1)
     | Some _ => w_table (world r.1) = statement "row" "fresh" (CreateModel (demo_create (Some 60))) [] /\ same_memory (demo_world []) (world r.1)
     end
   | Some (inl _) => w_table (world r.1) = [] /\ w_file (world r.1) = w_file (demo_world []) /\ same_memory (demo_world []) (world r.1)
   | None => False
   end).
Proof.
  split; [by vm_compute | split; [by vm_compute; eexists |]].
  exact (answer_tells (fun _ => None) (fun _ => "") (fun _ => None) (fun s => s) None (fun _ => None) (fun _ => VNull) (fun _ => "0") String.le demo_ids map_to_list
    (fun _ => VNull) (fun _ => "") DbOk "row" "fresh" (demo_admin []) (CreateModel (demo_create (Some 60))) I).
Defined.
End AdminModels.
