(* ===== verification/Stats.v ===== *)
(** * Stats: the charts of the dashboard (boom-dashboard)

    Models [boom-dashboard/src/stats_timeseries.rs], the two handlers of
    [handlers_admin.rs] that draw charts over time, and the counts of dispatched keys.
    Instants are in microseconds, the resolution of the
    database; the parsers and formatters of dates (chrono) are parameters.  A query is a
    function of the log. *)

From S2P Require Import Prelude Core Text Float64 Json Rebalance Auth Access AgentStats.

Module Stats.
Import Core Json.

(** ** Ranges and windows *)

Definition MAX_RANGE_DAYS : Z := 90.
Definition micros : Z := 1000000.
Definition timestamp (t : Z) : Z := t / micros.
(** [Duration::num_seconds] cuts towards zero. *)
Definition num_seconds (d : Z) : Z := Z.quot d micros.

Inductive Preset := Hour1 | Hour4 | Hour8 | Hour24.
#[export] Instance preset_eq_dec : EqDecision Preset.
Proof. solve_decision. Defined.
Record TimeWindow := mkWindow { tw_from : Z; tw_to : Z; bucket_secs : Z }.
Inductive ResolvedRange := RPreset (p : Preset) | RCustom (w : TimeWindow).
Record StatsRangeQuery := mkRangeQuery { rq_range : string; rq_from : option string; rq_to : option string }.

Definition NICE : list Z := [60; 300; 600; 900; 1800; 3600; 7200; 14400; 21600; 43200; 86400; 172800].
Definition pick_bucket_secs (duration_secs : Z) : Z :=
  let target := Z.max (Z.quot duration_secs 48) 60 in default 172800 (head (retain (fun n => target <=? n) NICE)).

Definition build_custom_window (from to : Z) : TimeWindow :=
  let max_secs := MAX_RANGE_DAYS * 86400 in
  let effective_from := if max_secs <? num_seconds (to - from) then to - max_secs * micros else from in
  mkWindow effective_from to (pick_bucket_secs (num_seconds (to - effective_from))).

Definition naive_formats : list string := ["%Y-%m-%dT%H:%M:%S"; "%Y-%m-%dT%H:%M"; "%Y-%m-%d %H:%M:%S"; "%Y-%m-%d %H:%M"].

Section ranges.
Context (parse_rfc3339 : string -> option Z) (parse_naive : string -> string -> option Z) (naive_error : string -> string).

Definition parse_iso (s : string) : string + Z :=
  match parse_rfc3339 s with
  | Some d => inr d
  | None => match head (omap (fun f => parse_naive f s) naive_formats) with
            | Some d => inr d
            | None => inl ("invalid datetime '" +:+ s +:+ "': " +:+ naive_error s)
            end
  end.

(** The range, and whether the memory answers for it; [inl (inl _)] is an unknown range, for
    which nothing else is looked at. *)
Definition preset_of (range : string) : string + option Preset :=
  if bool_decide (range = "1h") then inr (Some Hour1) else if bool_decide (range = "4h") then inr (Some Hour4)
  else if bool_decide (range = "8h") then inr (Some Hour8) else if bool_decide (range = "24h") then inr (Some Hour24)
  else if bool_decide (range = "custom") then inr None else inl ("unknown range '" +:+ range +:+ "'").

Definition parse_custom (from to : option string) : string + ResolvedRange :=
  match from, to with
  | None, _ => inl "missing 'from'"
  | Some _, None => inl "missing 'to'"
  | Some a, Some b =>
    match parse_iso a with
    | inl e => inl e
    | inr from =>
      match parse_iso b with
      | inl e => inl e
      | inr to => if to <=? from then inl "'to' must be strictly after 'from'" else inr (RCustom (build_custom_window from to))
      end
    end
  end.

Definition parse (q : StatsRangeQuery) : string + (ResolvedRange * bool) :=
  match preset_of (rq_range q) with
  | inl e => inl e
  | inr preset =>
    if negb (is_none (rq_from q)) || negb (is_none (rq_to q))
    then match parse_custom (rq_from q) (rq_to q) with inl e => inl e | inr r => inr (r, false) end
    else match preset with
         | Some Hour1 => inr (RPreset Hour1, true)
         | Some p => inr (RPreset p, false)
         | None => inl "range=custom requires 'from' and 'to'"
         end
  end.
End ranges.

Definition to_window (now : Z) (r : ResolvedRange) : TimeWindow :=
  match r with
  | RPreset Hour1 => mkWindow (now - 60 * 60 * micros) now 60
  | RPreset Hour4 => mkWindow (now - 4 * 3600 * micros) now 300
  | RPreset Hour8 => mkWindow (now - 8 * 3600 * micros) now 600
  | RPreset Hour24 => mkWindow (now - 24 * 3600 * micros) now 1800
  | RCustom w => w
  end.

(** The length of the window over that of a bucket is enough fuel. *)
Fixpoint buckets_from (fuel : nat) (ts : Z) (w : TimeWindow) : list Z :=
  match fuel with
  | O => []
  | S n => if ts <? tw_to w then ts :: buckets_from n (ts + bucket_secs w * micros) w else []
  end.
Definition expected_buckets (w : TimeWindow) : list Z := buckets_from (S (Z.to_nat ((tw_to w - tw_from w) / (bucket_secs w * micros)))) (tw_from w) w.

(** [div_euclid]; the bucket is a positive number. *)
Definition bucket_of (w : TimeWindow) (epoch_secs : Z) : Z :=
  let from_epoch := timestamp (tw_from w) in (from_epoch + (epoch_secs - from_epoch) / bucket_secs w * bucket_secs w) * micros.

(** ** The queries *)

(** A row of [boom_request_log], as the charts read it. *)
Record LogRow := mkLogRow { lr_created : Z; lr_status : option Z; lr_deployment : option string; lr_path : string; lr_input : option Z; lr_output : option Z }.

Definition selected (w : TimeWindow) (log : list LogRow) : list LogRow :=
  retain (fun r => (tw_from w <=? lr_created r) && (lr_created r <? tw_to w) && bool_decide (lr_status r = Some 200)) log.

(** [(FLOOR((EXTRACT(EPOCH FROM created_at) - $1) / $2) * $2 + $1)] *)
Definition bucket_epoch (w : TimeWindow) (r : LogRow) : Z :=
  let from_epoch := timestamp (tw_from w) in (lr_created r - from_epoch * micros) / (bucket_secs w * micros) * bucket_secs w + from_epoch.

(** [GROUP BY]: the keys, each with its rows. *)
Definition group_by {A K} `{EqDecision K} (key : A -> K) (l : list A) : list (K * list A) :=
  (fun k => (k, retain (fun x => bool_decide (key x = k)) l)) <$> remove_dups (key <$> l).

Record RateBucketRow := mkRateRow { rb_bucket : Z; rb_deployment : option string; rb_total : Z }.
Definition rate_rows (w : TimeWindow) (log : list LogRow) : list RateBucketRow :=
  (fun g => mkRateRow g.1.1 g.1.2 (Z.of_nat (length g.2))) <$> group_by (fun r => (bucket_epoch w r, lr_deployment r)) (selected w log).

(** [LIKE '/v1/messages%'] *)
Definition anthropic_row (r : LogRow) : bool := starts_with "/v1/messages" (lr_path r).
Definition sum_of (f : LogRow -> option Z) (l : list LogRow) : Z := zsum (fun r => default 0 (f r)) l.
Definition agent_bucket (l : list LogRow) : AgentStats.Bucket :=
  let a := retain anthropic_row l in
  AgentStats.mkBucket (Z.of_nat (length l)) (Z.of_nat (length a)) (sum_of lr_input l) (sum_of lr_input a) (sum_of lr_output l) (sum_of lr_output a).
Definition agent_rows (w : TimeWindow) (log : list LogRow) : gmap Z AgentStats.Bucket :=
  list_to_map ((fun g => (g.1, agent_bucket g.2)) <$> group_by (bucket_epoch w) (selected w log)).

(** ** The charts *)

Section charts.
Context (to_rfc3339 : Z -> string) (find_model : string -> option string).

Definition window_json (w : TimeWindow) : Value :=
  VObject [("from", VString (to_rfc3339 (tw_from w))); ("to", VString (to_rfc3339 (tw_to w))); ("bucket_secs", vint (bucket_secs w))].

Definition epochs (w : TimeWindow) : list Z := timestamp <$> expected_buckets w.

(** The counts of all deployments together: [HashMap]'s entries, added up. *)
Definition total_by_bucket (rows : list RateBucketRow) : gmap Z Z :=
  foldl (fun m r => <[rb_bucket r := i64_add (default 0 (m !! rb_bucket r)) (rb_total r)]> m) ∅ rows.

Definition dep_name (r : RateBucketRow) : string := default "_unknown" (rb_deployment r).
Definition model_name (dep : string) : string := default "-" (find_model dep).

Definition by_model (rows : list RateBucketRow) : gmap string (gmap string (gmap Z Z)) :=
  foldl (fun m r =>
    let deps := default ∅ (m !! model_name (dep_name r)) in
    <[model_name (dep_name r) := <[dep_name r := <[rb_bucket r := rb_total r]> (default ∅ (deps !! dep_name r))]> deps]> m) ∅ rows.

#[local] Existing Instance Rebalance.key_le_dec.
Definition sorted_keys {A} (m : gmap string A) : list string := merge_sort Rebalance.key_le (map_to_list m).*1.

Definition total_counts (w : TimeWindow) (rows : list RateBucketRow) : list (Z * Z) := (fun ep => (ep, default 0 (total_by_bucket rows !! ep))) <$> epochs w.
Definition rate_event (x : Z * Z) : Value := VObject [("ts", VString (to_rfc3339 (x.1 * micros))); ("count", vint x.2)].

Definition segment (dep : string) (count : Z) : Value := VObject [("deployment_id", VString dep); ("count", vint count)].
Definition model_chart (w : TimeWindow) (model : string) (deps : gmap string (gmap Z Z)) : Value :=
  let dep_order := sorted_keys deps in
  VObject [("model", VString model); ("deployments", VArray (VString <$> dep_order));
    ("events", VArray ((fun ep => VObject [("ts", VString (to_rfc3339 (ep * micros)));
       ("segments", VArray ((fun d => segment d (default 0 (m ← deps !! d; m !! ep))) <$> dep_order))]) <$> epochs w))].

Definition request_rate_db (w : TimeWindow) (rows : string + list RateBucketRow) : Value :=
  match rows with
  | inl e => VObject [("error", VString e)]
  | inr rows =>
    let models := by_model rows in
    VObject [("window", window_json w);
      ("charts", VArray (VObject [("model", VString "ALL"); ("deployment_id", VString "_total"); ("events", VArray (rate_event <$> total_counts w rows))]
                         :: ((fun m => model_chart w m (default ∅ (models !! m))) <$> sorted_keys models)))]
  end.

(** The path of the memory: the snapshots of the tracker against the windows of the range,
    by their place. *)
Definition resize (n : nat) (l : list Z) : list Z := take n l ++ replicate (n - length l) 0.

Definition memory_models (n : nat) (all : list (string * list (string * Z))) : gmap string (gmap string (list Z)) :=
  foldl (fun m x =>
    if bool_decide (x.1 = "_total") then m
    else let deps := default ∅ (m !! model_name x.1) in <[model_name x.1 := <[x.1 := resize n x.2.*2]> deps]> m) ∅ all.
Definition memory_total (n : nat) (all : list (string * list (string * Z))) : list Z :=
  foldl (fun t x => if bool_decide (x.1 = "_total") then x.2.*2 else t) (replicate n 0) all.

Definition request_rate_memory (w : TimeWindow) (all : list (string * list (string * Z))) : Value :=
  let ts := to_rfc3339 <$> expected_buckets w in
  let total := memory_total (length ts) all in
  let models := memory_models (length ts) all in
  let chart m :=
    let deps := default ∅ (models !! m) in
    VObject [("model", VString m); ("deployments", VArray (VString <$> sorted_keys deps));
      ("events", VArray (imap (fun i t => VObject [("ts", VString t);
         ("segments", VArray ((fun d => segment d (default 0 (default [] (deps !! d) !! i))) <$> sorted_keys deps))]) ts))] in
  VObject [("window", window_json w);
    ("charts", VArray (VObject [("model", VString "ALL"); ("deployment_id", VString "_total");
                                ("events", VArray (imap (fun i t => VObject [("ts", VString t); ("count", vint (default 0 (total !! i)))]) ts))]
                       :: (chart <$> sorted_keys models)))].

(** The clients: the buckets of the window, and their sums. *)
Definition as_u64_bucket (b : AgentStats.Bucket) : AgentStats.Bucket :=
  AgentStats.mkBucket (Prelude.as_u64 (AgentStats.total b)) (Prelude.as_u64 (AgentStats.anthropic b)) (Prelude.as_u64 (AgentStats.input_tokens_total b))
    (Prelude.as_u64 (AgentStats.input_tokens_anthropic b)) (Prelude.as_u64 (AgentStats.output_tokens_total b)) (Prelude.as_u64 (AgentStats.output_tokens_anthropic b)).
Definition bucket_fields (b : AgentStats.Bucket) : list (string * Value) :=
  [("total", vint (AgentStats.total b)); ("anthropic", vint (AgentStats.anthropic b));
   ("input_tokens_total", vint (AgentStats.input_tokens_total b)); ("input_tokens_anthropic", vint (AgentStats.input_tokens_anthropic b));
   ("output_tokens_total", vint (AgentStats.output_tokens_total b)); ("output_tokens_anthropic", vint (AgentStats.output_tokens_anthropic b))].
Definition summary_json (s : AgentStats.AgentSummary) : Value :=
  let b := AgentStats.sums s in
  VObject [("total", vint (AgentStats.total b)); ("anthropic", vint (AgentStats.anthropic b)); ("ratio", VNumber (NFloat (AgentStats.ratio s)));
    ("input_tokens_total", vint (AgentStats.input_tokens_total b)); ("input_tokens_anthropic", vint (AgentStats.input_tokens_anthropic b));
    ("input_token_ratio", VNumber (NFloat (AgentStats.input_token_ratio s)));
    ("output_tokens_total", vint (AgentStats.output_tokens_total b)); ("output_tokens_anthropic", vint (AgentStats.output_tokens_anthropic b));
    ("output_token_ratio", VNumber (NFloat (AgentStats.output_token_ratio s)))].
Definition agent_event (ts : string) (b : AgentStats.Bucket) : Value := VObject (("ts", VString ts) :: bucket_fields b).

Definition agent_counts (w : TimeWindow) (rows : gmap Z AgentStats.Bucket) : list (Z * AgentStats.Bucket) :=
  (fun ts => (ts, from_option as_u64_bucket AgentStats.no_bucket (rows !! timestamp ts))) <$> expected_buckets w.
Definition agent_sums (w : TimeWindow) (rows : gmap Z AgentStats.Bucket) : AgentStats.Bucket :=
  foldl AgentStats.add_bucket AgentStats.no_bucket (agent_counts w rows).*2.
Definition agent_summary (s : AgentStats.Bucket) : AgentStats.AgentSummary :=
  AgentStats.mkSummary s (AgentStats.share (AgentStats.anthropic s) (AgentStats.total s))
    (AgentStats.share (AgentStats.input_tokens_anthropic s) (AgentStats.input_tokens_total s))
    (AgentStats.share (AgentStats.output_tokens_anthropic s) (AgentStats.output_tokens_total s)).
Definition agent_db (w : TimeWindow) (rows : gmap Z AgentStats.Bucket) : Value :=
  VObject [("window", window_json w); ("events", VArray ((fun x => agent_event (to_rfc3339 x.1) x.2) <$> agent_counts w rows));
           ("summary", summary_json (agent_summary (agent_sums w rows)))].
(** The path of the memory: the buckets of the tracker take the labels of the window by their
    place. *)
Definition agent_memory (w : TimeWindow) (snap : AgentStats.AgentStatsSnapshot) : Value :=
  let ts := to_rfc3339 <$> expected_buckets w in
  VObject [("window", window_json w); ("events", VArray (imap (fun i x => agent_event (default "" (ts !! i)) x.2) (AgentStats.events snap)));
           ("summary", summary_json (AgentStats.summary snap))].
End charts.

(** ** The handlers *)

Section handlers.
Context (to_rfc3339 : Z -> string) (find_model : string -> option string).

(** [snap] is [snapshot_all] of the tracker, [db] what the query gives: [None] without a
    database, and an error or the rows.  The handler takes the time once. *)
Definition get_request_rate_stats (now : Z) (parsed : string + (ResolvedRange * bool)) (snap : list (string * list (string * Z))) (db : option (TimeWindow -> string + list RateBucketRow)) : Value :=
  match parsed with
  | inl e => VObject [("error", VString e)]
  | inr (r, true) => request_rate_memory to_rfc3339 find_model (to_window now r) snap
  | inr (r, false) =>
    match db with
    | None => VObject [("error", VString "Database not available")]
    | Some q => request_rate_db to_rfc3339 find_model (to_window now r) (q (to_window now r))
    end
  end.

Definition get_agent_stats (now : Z) (parsed : string + (ResolvedRange * bool)) (snap : AgentStats.AgentStatsSnapshot) (db : option (TimeWindow -> string + gmap Z AgentStats.Bucket)) : Value :=
  match parsed with
  | inl e => VObject [("error", VString e)]
  | inr (r, true) => agent_memory to_rfc3339 (to_window now r) snap
  | inr (r, false) =>
    match db with
    | None => VObject [("error", VString "Database not available")]
    | Some q => match q (to_window now r) with
                | inl e => VObject [("error", VString e)]
                | inr rows => agent_db to_rfc3339 (to_window now r) rows
                end
    end
  end.
End handlers.

(** ** Dispatched keys *)

(** The entries of a deployment: an alias, and whether it is a very important one. *)
Definition dispatched (m : gmap string (Z * bool)) (e : string * bool) : gmap string (Z * bool) :=
  let x := default (0, false) (m !! e.1) in <[e.1 := (u64_add x.1 1, x.2 || e.2)]> m.
(** The largest count first; the aliases with the same count are in the order of a hash map. *)
Definition count_ge (a b : string * (Z * bool)) : Prop := b.2.1 <= a.2.1.
#[local] Instance count_ge_dec : RelDecision count_ge := fun a b => Z_le_dec b.2.1 a.2.1.
Definition aggregate_dispatched_keys (keys : option (list (string * bool))) : list Value :=
  match keys with
  | None => []
  | Some entries =>
    (fun x => VObject [("key_alias", VString x.1); ("request_count", vint x.2.1); ("is_vip", VBool x.2.2)])
      <$> merge_sort count_ge (map_to_list (foldl dispatched ∅ entries))
  end.

(** ** The buckets of a window *)

Definition bucket_len (w : TimeWindow) : Z := bucket_secs w * micros.
(** How many buckets start before the end. *)
Definition n_buckets (w : TimeWindow) : Z := (tw_to w - tw_from w + bucket_len w - 1) / bucket_len w.
Definition good_window (w : TimeWindow) : Prop := tw_from w < tw_to w /\ 0 < bucket_secs w.

Lemma buckets_from_seq fuel ts w :
  0 < bucket_secs w -> tw_to w - ts <= Z.of_nat fuel * bucket_len w ->
  buckets_from fuel ts w = (fun i => ts + i * bucket_len w) <$> seqZ 0 ((tw_to w - ts + bucket_len w - 1) / bucket_len w).
Proof.
  intros Hb. assert (0 < bucket_len w) by (unfold bucket_len, micros; lia). revert ts. induction fuel as [| fuel IH]; intros ts Hf.
  - simpl. rewrite seqZ_nil; [done |]. apply Z.lt_succ_r, Z.div_lt_upper_bound; lia.
  - simpl. destruct (Z.ltb_spec ts (tw_to w)).
    + set (n := (tw_to w - ts + bucket_len w - 1) / bucket_len w).
      assert (n = (tw_to w - (ts + bucket_len w) + bucket_len w - 1) / bucket_len w + 1) as Hn.
      { unfold n. rewrite <- Z.div_add by lia. f_equal. lia. }
      assert (0 <= (tw_to w - (ts + bucket_len w) + bucket_len w - 1) / bucket_len w) by (apply Z.div_pos; lia).
      rewrite (seqZ_cons 0 n) by lia. rewrite fmap_cons. f_equal; [lia |].
      change (bucket_secs w * micros) with (bucket_len w). rewrite IH by lia.
      rewrite <- (Z.add_0_r (Z.succ 0)), <- (fmap_add_seqZ (Z.succ 0) 0), <- list_fmap_compose.
      replace (Z.pred n) with ((tw_to w - (ts + bucket_len w) + bucket_len w - 1) / bucket_len w) by lia.
      apply list_fmap_ext. intros i z _. simpl. lia.
    + rewrite seqZ_nil; [done |]. apply Z.lt_succ_r, Z.div_lt_upper_bound; lia.
Qed.

Lemma expected_buckets_exact w :
  good_window w -> expected_buckets w = (fun i => tw_from w + i * bucket_len w) <$> seqZ 0 (n_buckets w).
Proof.
  intros [Hlt Hb]. unfold expected_buckets. assert (0 < bucket_len w) by (unfold bucket_len, micros; lia).
  apply buckets_from_seq; [done |]. fold (bucket_len w).
  pose proof (Z.mod_pos_bound (tw_to w - tw_from w) (bucket_len w)). pose proof (Z.div_mod (tw_to w - tw_from w) (bucket_len w)).
  assert (0 <= (tw_to w - tw_from w) / bucket_len w) by (apply Z.div_pos; lia). rewrite Nat2Z.inj_succ, Z2Nat.id by done. nia.
Qed.

Lemma expected_length w : good_window w -> length (expected_buckets w) = Z.to_nat (n_buckets w).
Proof. intros Hw. by rewrite expected_buckets_exact, length_fmap, length_seqZ. Qed.

Lemma n_buckets_spec w n : good_window w -> (n_buckets w <= n <-> tw_to w <= tw_from w + n * bucket_len w).
Proof.
  intros [Hlt Hb]. assert (0 < bucket_len w) by (unfold bucket_len, micros; lia). unfold n_buckets.
  pose proof (Z.mod_pos_bound (tw_to w - tw_from w + bucket_len w - 1) (bucket_len w)). pose proof (Z.div_mod (tw_to w - tw_from w + bucket_len w - 1) (bucket_len w)).
  split; intros; nia.
Qed.

Lemma timestamp_shift t k : timestamp (t + k * micros) = timestamp t + k.
Proof. unfold timestamp. by rewrite Z.div_add by done. Qed.

Lemma epochs_exact w : good_window w -> epochs w = (fun i => timestamp (tw_from w) + i * bucket_secs w) <$> seqZ 0 (n_buckets w).
Proof.
  intros Hw. unfold epochs. rewrite expected_buckets_exact by done. rewrite <- list_fmap_compose. apply list_fmap_ext.
  intros i z _. unfold bucket_len. simpl. by rewrite Z.mul_assoc, timestamp_shift.
Qed.

Lemma epochs_nodup w : good_window w -> NoDup (epochs w).
Proof.
  intros Hw. rewrite epochs_exact by done. destruct Hw as [_ Hb]. apply NoDup_fmap_2; [| apply NoDup_seqZ].
  intros i j H. nia.
Qed.

(** The bucket of a row of the window is on the chart, unless the row is past the last bucket,
    which happens in the last second only. *)
Lemma row_on_chart w r :
  good_window w -> tw_from w <= lr_created r -> lr_created r < tw_to w ->
  (bucket_epoch w r ∈ epochs w <-> lr_created r < timestamp (tw_from w) * micros + n_buckets w * bucket_len w).
Proof.
  intros Hw Hf Ht. rewrite epochs_exact by done. unfold bucket_epoch. fold (bucket_len w).
  assert (0 < bucket_len w) as Hl by (destruct Hw; unfold bucket_len, micros; lia).
  set (q := (lr_created r - timestamp (tw_from w) * micros) / bucket_len w).
  assert (0 <= q) as Hq by (unfold q, timestamp; apply Z.div_pos; [pose proof (Z.mul_div_le (tw_from w) micros); unfold micros in *; lia | done]).
  pose proof (Z.mod_pos_bound (lr_created r - timestamp (tw_from w) * micros) (bucket_len w) Hl).
  pose proof (Z.div_mod (lr_created r - timestamp (tw_from w) * micros) (bucket_len w)). fold q in H0.
  rewrite list_elem_of_fmap. setoid_rewrite elem_of_seqZ. split.
  - intros (i & Hi & Hr). assert (i = q) as -> by (destruct Hw; nia). nia.
  - intros Hlt. exists q. split; [lia |]. nia.
Qed.

(** ** Counting in groups *)

Lemma zsum_ones {A} (l : list A) : zsum (fun _ => 1) l = Z.of_nat (length l).
Proof. induction l as [| x l IH]; [done |]. rewrite zsum_cons, IH. simpl. lia. Qed.

Lemma zsum_mod {A} (f g : A -> Z) (m : Z) (l : list A) : (forall x, f x mod m = g x mod m) -> zsum f l mod m = zsum g l mod m.
Proof. intros H. induction l as [| x l IH]; [done |]. rewrite !zsum_cons, Zplus_mod, H, IH, <- Zplus_mod. done. Qed.

Section groups.
Context {A K : Type} `{EqDecision K} (key : A -> K).
Implicit Types l : list A.

Lemma retain_ext (P Q : A -> bool) l : (forall x, x ∈ l -> P x = Q x) -> retain P l = retain Q l.
Proof.
  induction l as [| x l IH]; intros H; [done |]. rewrite !retain_cons, (H x) by (by left). rewrite IH by (intros y Hy; apply H; by right). done.
Qed.

Lemma bool_decide_eq (P : Prop) `{Decision P} (b : bool) : (P <-> b = true) -> bool_decide P = b.
Proof. intros HP. destruct b; [apply bool_decide_eq_true; naive_solver | apply bool_decide_eq_false; naive_solver]. Qed.

Lemma zsum_retain_or (g : A -> Z) (P Q : A -> bool) l :
  (forall x, P x = true -> Q x = false) -> zsum g (retain (fun x => P x || Q x) l) = zsum g (retain P l) + zsum g (retain Q l).
Proof.
  intros H. induction l as [| x l IH]; [done |]. rewrite !retain_cons. destruct (P x) eqn:E; simpl.
  - rewrite (H x E), !zsum_cons. lia.
  - destruct (Q x); rewrite ?zsum_cons; lia.
Qed.

Lemma zsum_groups (g : A -> Z) (ks : list K) l :
  NoDup ks -> zsum (fun k => zsum g (retain (fun x => bool_decide (key x = k)) l)) ks = zsum g (retain (fun x => bool_decide (key x ∈ ks)) l).
Proof.
  induction 1 as [| k ks Hk _ IH].
  - rewrite retain_none; [done |]. intros x _. apply bool_decide_eq_false. by intros ?%elem_of_nil.
  - rewrite zsum_cons, IH, <- zsum_retain_or.
    + f_equal. apply retain_ext. intros x _. rewrite <- bool_decide_or. apply bool_decide_ext. by rewrite elem_of_cons.
    + intros x ->%bool_decide_eq_true. by apply bool_decide_eq_false.
Qed.

Lemma group_keys l : (group_by key l).*1 = remove_dups (key <$> l).
Proof. unfold group_by. rewrite <- list_fmap_compose. apply list_fmap_id. Qed.

Lemma group_elem l g : g ∈ group_by key l <-> g.1 ∈ key <$> l /\ g.2 = retain (fun x => bool_decide (key x = g.1)) l.
Proof.
  unfold group_by. rewrite list_elem_of_fmap. setoid_rewrite elem_of_remove_dups. split.
  - intros (k & -> & Hk). done.
  - intros [Hk Hg]. exists g.1. split; [by destruct g; simpl in *; subst | done].
Qed.

Lemma group_nodup l : NoDup (group_by key l).*1.
Proof. rewrite group_keys. apply NoDup_remove_dups. Qed.

(** What the groups of the keys that satisfy [P] count. *)
Lemma zsum_retained (P : K -> bool) l :
  zsum (fun g => if P g.1 then Z.of_nat (length g.2) else 0) (group_by key l) = Z.of_nat (length (retain (fun x => P (key x)) l)).
Proof.
  unfold group_by. rewrite zsum_fmap.
  transitivity (zsum (fun k => zsum (fun _ => 1) (retain (fun x => bool_decide (key x = k)) l)) (retain P (remove_dups (key <$> l)))).
  - generalize (remove_dups (key <$> l)) as ks. induction ks as [| k ks IH]; [done |]. rewrite zsum_cons, retain_cons. simpl in *.
    destruct (P k); rewrite ?zsum_cons, IH, ?zsum_ones; lia.
  - rewrite zsum_groups, zsum_ones by (apply NoDup_filter, NoDup_remove_dups). do 2 f_equal. apply retain_ext. intros x Hx. apply bool_decide_eq.
    rewrite elem_of_retain, elem_of_remove_dups, list_elem_of_fmap. naive_solver.
Qed.
End groups.

(** ** The counts of the rows *)

Definition add_total (m : gmap Z Z) (r : RateBucketRow) : gmap Z Z := <[rb_bucket r := i64_add (default 0 (m !! rb_bucket r)) (rb_total r)]> m.
Definition in_bucket (ep : Z) (r : RateBucketRow) : Z := if bool_decide (rb_bucket r = ep) then rb_total r else 0.

Lemma total_lookup rows m ep :
  (forall r, r ∈ rows -> 0 <= rb_total r) -> 0 <= default 0 (m !! ep) -> default 0 (m !! ep) + zsum (in_bucket ep) rows < 2 ^ 63 ->
  default 0 (foldl add_total m rows !! ep) = default 0 (m !! ep) + zsum (in_bucket ep) rows.
Proof.
  revert m. induction rows as [| r rows IH]; intros m Hp Hm Hs; [simpl; unfold zsum; simpl; lia |].
  rewrite zsum_cons in Hs |- *.
  assert (0 <= zsum (in_bucket ep) rows).
  { apply zsum_nonneg. intros x Hx. unfold in_bucket. destruct (bool_decide (rb_bucket x = ep)); [apply Hp; by right | lia]. }
  assert (0 <= rb_total r) by (apply Hp; by left). simpl. unfold add_total at 2.
  destruct (decide (rb_bucket r = ep)) as [E | E].
  - assert (in_bucket ep r = rb_total r) as Hi by (unfold in_bucket; by rewrite bool_decide_eq_true_2). rewrite Hi in Hs |- *.
    assert (default 0 (<[rb_bucket r := i64_add (default 0 (m !! rb_bucket r)) (rb_total r)]> m !! ep) = default 0 (m !! ep) + rb_total r) as Hn.
    { rewrite E, lookup_insert_eq. simpl. unfold i64_add. by rewrite as_i64_small by lia. }
    rewrite IH; rewrite ?Hn; [lia | intros x Hx; apply Hp; by right | lia | lia].
  - assert (in_bucket ep r = 0) as Hi by (unfold in_bucket; by rewrite bool_decide_eq_false_2). rewrite Hi in Hs |- *.
    rewrite IH; rewrite ?lookup_insert_ne by done; [lia | intros x Hx; apply Hp; by right | lia | lia].
Qed.

Definition rows_at (w : TimeWindow) (ep : Z) (log : list LogRow) : list LogRow := retain (fun r => bool_decide (bucket_epoch w r = ep)) (selected w log).
Definition served_rows (w : TimeWindow) (dep : string) (ep : Z) (log : list LogRow) : list LogRow :=
  retain (fun r => bool_decide (bucket_epoch w r = ep /\ lr_deployment r = Some dep)) (selected w log).

Lemma selected_length w log : (length (selected w log) <= length log)%nat.
Proof. apply retain_length. Qed.

Lemma total_exact w log ep :
  Z.of_nat (length log) < 2 ^ 63 -> default 0 (total_by_bucket (rate_rows w log) !! ep) = Z.of_nat (length (rows_at w ep log)).
Proof.
  intros Hl. change (total_by_bucket (rate_rows w log)) with (foldl add_total ∅ (rate_rows w log)).
  assert (zsum (in_bucket ep) (rate_rows w log) = Z.of_nat (length (rows_at w ep log))) as Hs.
  { unfold rate_rows, rows_at. rewrite zsum_fmap.
    etransitivity; [| exact (zsum_retained (fun r => (bucket_epoch w r, lr_deployment r)) (fun k => bool_decide (k.1 = ep)) (selected w log))].
    apply zsum_ext. intros [[b d] l] _. done. }
  assert (length (rows_at w ep log) <= length log)%nat by (etransitivity; [apply retain_length | apply selected_length]).
  rewrite total_lookup; rewrite ?lookup_empty, ?Hs; change (default 0 (@None Z)) with 0; [lia | | lia | lia].
  intros r (g & -> & _)%list_elem_of_fmap. simpl. lia.
Qed.

Section segments.
Context (find_model : string -> option string).
Implicit Types m : gmap string (gmap string (gmap Z Z)).

Definition count_in m (dep : string) (ep : Z) : option Z := deps ← m !! model_name find_model dep; x ← deps !! dep; x !! ep.
Definition file_row m (r : RateBucketRow) : gmap string (gmap string (gmap Z Z)) :=
  let deps := default ∅ (m !! model_name find_model (dep_name r)) in
  <[model_name find_model (dep_name r) := <[dep_name r := <[rb_bucket r := rb_total r]> (default ∅ (deps !! dep_name r))]> deps]> m.

Lemma count_file_row m r dep ep :
  count_in (file_row m r) dep ep = if bool_decide (dep_name r = dep /\ rb_bucket r = ep) then Some (rb_total r) else count_in m dep ep.
Proof.
  unfold count_in, file_row. cbv zeta.
  destruct (decide (model_name find_model (dep_name r) = model_name find_model dep)) as [E | E].
  2: { rewrite lookup_insert_ne by done. rewrite bool_decide_eq_false_2; [done |]. by intros [<- _]. }
  rewrite <- E, lookup_insert_eq. simpl. destruct (decide (dep_name r = dep)) as [<- | D].
  - rewrite lookup_insert_eq. simpl. destruct (decide (rb_bucket r = ep)) as [<- | B].
    + rewrite lookup_insert_eq, bool_decide_eq_true_2; done.
    + rewrite lookup_insert_ne by done. rewrite bool_decide_eq_false_2 by tauto.
      destruct (m !! model_name find_model (dep_name r)) as [deps |]; simpl; [| by rewrite lookup_empty].
      destruct (deps !! dep_name r); simpl; [done | by rewrite lookup_empty].
  - rewrite lookup_insert_ne by done. rewrite bool_decide_eq_false_2 by tauto.
    destruct (m !! model_name find_model (dep_name r)) as [deps |]; simpl; [done | by rewrite lookup_empty].
Qed.

Lemma count_filed rows m dep ep v :
  (forall r, r ∈ rows -> dep_name r = dep -> rb_bucket r = ep -> Some (rb_total r) = v) -> count_in m dep ep = v \/ (exists r, r ∈ rows /\ dep_name r = dep /\ rb_bucket r = ep) ->
  count_in (foldl file_row m rows) dep ep = v.
Proof.
  revert m. induction rows as [| r rows IH]; intros m Hv [Hm | (r' & Hr & Hd)]; simpl; [done | by apply elem_of_nil in Hr | |];
    (apply IH; [intros x Hx; apply Hv; by right |]); rewrite count_file_row.
  - left. case_bool_decide as E; [apply Hv; [by left | tauto | tauto] | done].
  - apply elem_of_cons in Hr as [-> | Hr]; [| right; by exists r']. left. rewrite bool_decide_eq_true_2 by done. apply Hv; [by left | tauto | tauto].
Qed.

(** A deployment has on the chart what the log has of it; [_unknown] is also what the rows
    without a deployment are called. *)
Lemma segment_exact w log dep ep :
  dep ≠ "_unknown" -> default 0 (count_in (by_model find_model (rate_rows w log)) dep ep) = Z.of_nat (length (served_rows w dep ep log)).
Proof.
  intros Hd. change (by_model find_model (rate_rows w log)) with (foldl file_row ∅ (rate_rows w log)).
  assert (forall r, r ∈ rate_rows w log -> dep_name r = dep -> rb_bucket r = ep -> rb_total r = Z.of_nat (length (served_rows w dep ep log))) as Hr.
  { intros r (g & -> & [Hk Hg]%group_elem)%list_elem_of_fmap Hn Hb. simpl in *. unfold dep_name in Hn. simpl in Hn. rewrite Hg. do 2 f_equal.
    apply retain_ext. intros x _. apply bool_decide_ext. destruct g as [[b d] l]. simpl in *. subst b. destruct d as [d |]; simpl in Hn; [| congruence].
    subst d. split; [intros [=]; split; congruence | intros [-> ->]; done]. }
  destruct (decide (Exists (fun r => dep_name r = dep /\ rb_bucket r = ep) (rate_rows w log))) as [(r & Hin & Hn)%Exists_exists | Hno].
  - rewrite (count_filed _ _ _ _ (Some (Z.of_nat (length (served_rows w dep ep log))))); [done | | right; by exists r].
    intros x Hx Hxn Hb. f_equal. by apply Hr.
  - rewrite (count_filed _ _ _ _ None); [| intros x Hx Hxn Hb; exfalso; apply Hno, Exists_exists; by exists x | left; done].
    destruct (served_rows w dep ep log) as [| x l] eqn:E; [done |]. exfalso. apply Hno, Exists_exists.
    assert (x ∈ served_rows w dep ep log) as [Hx Hs]%elem_of_retain by (rewrite E; left). apply bool_decide_eq_true in Hx as [Hb Hx].
    eexists (mkRateRow ep (Some dep) _). split; [| done]. apply list_elem_of_fmap.
    exists ((ep, Some dep), retain (fun y => bool_decide ((bucket_epoch w y, lr_deployment y) = (ep, Some dep))) (selected w log)). split; [done |].
    apply group_elem. split; [| done]. apply list_elem_of_fmap. exists x. simpl. by rewrite Hb, Hx.
Qed.
End segments.

(** ** The clients *)

Definition shown (w : TimeWindow) (log : list LogRow) : list LogRow := retain (fun r => bool_decide (bucket_epoch w r ∈ epochs w)) (selected w log).

(** What a row adds to a field of its bucket. *)
Definition weight (f : AgentStats.Field) (r : LogRow) : Z :=
  AgentStats.read f (agent_bucket [r]).

Lemma agent_bucket_read f l : AgentStats.read f (agent_bucket l) = zsum (weight f) l.
Proof.
  induction l as [| r l IH]; [by destruct f |]. rewrite zsum_cons, <- IH. unfold weight, agent_bucket.
  rewrite !retain_cons. destruct f, (anthropic_row r); simpl; unfold sum_of; rewrite ?zsum_cons; unfold zsum; simpl; try lia.
Qed.

Lemma agent_row w log ep :
  agent_rows w log !! ep = if bool_decide (ep ∈ bucket_epoch w <$> selected w log) then Some (agent_bucket (rows_at w ep log)) else None.
Proof.
  unfold agent_rows.
  assert (((fun g => (g.1, agent_bucket g.2)) <$> group_by (bucket_epoch w) (selected w log)).*1 = (group_by (bucket_epoch w) (selected w log)).*1) as Hk
    by (rewrite <- list_fmap_compose; by apply list_fmap_ext).
  case_bool_decide as E.
  - apply elem_of_list_to_map_1; [rewrite Hk; apply group_nodup |]. apply list_elem_of_fmap. exists (ep, rows_at w ep log). split; [done |].
    by apply group_elem.
  - apply not_elem_of_list_to_map_1. by rewrite Hk, group_keys, elem_of_remove_dups.
Qed.

Lemma as_u64_read f b : AgentStats.read f (as_u64_bucket b) = wrap64 (AgentStats.read f b).
Proof. by destruct f. Qed.

Lemma agent_count w log ep :
  from_option as_u64_bucket AgentStats.no_bucket (agent_rows w log !! ep) = as_u64_bucket (agent_bucket (rows_at w ep log)).
Proof.
  rewrite agent_row. case_bool_decide as E; [done |].
  assert (rows_at w ep log = []) as ->; [| done]. apply retain_none. intros r Hr. apply bool_decide_eq_false. intros <-. apply E, list_elem_of_fmap. by exists r.
Qed.

Lemma sums_read f bs acc :
  AgentStats.read f (foldl AgentStats.add_bucket acc bs) mod 2 ^ 64 = (AgentStats.read f acc + zsum (AgentStats.read f) bs) mod 2 ^ 64.
Proof.
  revert acc. induction bs as [| b bs IH]; intros acc; simpl; [unfold zsum; simpl; by rewrite Z.add_0_r |]. rewrite IH, zsum_cons.
  assert (AgentStats.read f (AgentStats.add_bucket acc b) = (AgentStats.read f acc + AgentStats.read f b) mod 2 ^ 64) as -> by (by destruct f).
  rewrite Zplus_mod_idemp_l. f_equal. lia.
Qed.

(** [bucket_of] is the bucket of the query. *)
Lemma bucket_of_mirrors w r : 0 < bucket_secs w -> timestamp (bucket_of w (timestamp (lr_created r))) = bucket_epoch w r.
Proof.
  intros Hb. unfold bucket_of, bucket_epoch. cbv zeta. unfold timestamp at 1. rewrite Z.div_mul by done.
  rewrite (Z.mul_comm (bucket_secs w) micros), <- Z.div_div by (unfold micros; lia).
  replace (lr_created r - timestamp (tw_from w) * micros) with (lr_created r + (- timestamp (tw_from w)) * micros) by lia.
  rewrite Z.div_add by done. fold (timestamp (lr_created r)). rewrite Z.add_opp_r. lia.
Qed.

(** ** Ranges *)

Lemma pick_target d : d <= 90 * 86400 + 1 -> Z.max (Z.quot d 48) 60 <= pick_bucket_secs d /\ 60 <= pick_bucket_secs d <= 172800.
Proof.
  intros Hd. unfold pick_bucket_secs, NICE. assert (Z.quot d 48 <= 172800).
  { destruct (Z.le_gt_cases d 0); [rewrite <- (Z.opp_involutive d), Z.quot_opp_l by lia; pose proof (Z.quot_pos (- d) 48); lia |].
    apply Z.quot_le_upper_bound; lia. }
  set (t := Z.max (Z.quot d 48) 60). rewrite !retain_cons.
  repeat match goal with |- context [t <=? ?n] => destruct (Z.leb_spec t n); [simpl; lia |] end. lia.
Qed.

(** Ranges and their windows: the four presets, or a window of the clamped range. *)
Lemma parse_cases rfc naive err q r m :
  parse rfc naive err q = inr (r, m) ->
  (exists p, r = RPreset p /\ m = bool_decide (p = Hour1)) \/ (exists from to, from < to /\ r = RCustom (build_custom_window from to) /\ m = false).
Proof.
  unfold parse. destruct (preset_of (rq_range q)) as [e | p]; [done |].
  destruct (negb (is_none (rq_from q)) || negb (is_none (rq_to q))).
  - unfold parse_custom. destruct (rq_from q) as [a |], (rq_to q) as [b |]; try done.
    destruct (parse_iso _ _ _ a) as [e | from]; [done |]. destruct (parse_iso _ _ _ b) as [e | to]; [done |].
    destruct (Z.leb_spec to from); [done |]. intros [= <- <-]. right. by exists from, to.
  - destruct p as [[] |]; try done; intros [= <- <-]; left; eexists; split; done.
Qed.

Lemma custom_window from to :
  from < to -> let w := build_custom_window from to in
  good_window w /\ tw_to w = to /\ 60 <= bucket_secs w <= 172800 /\ n_buckets w <= 49 /\ tw_to w - tw_from w < (MAX_RANGE_DAYS * 86400 + 1) * micros /\
  (to - from <= MAX_RANGE_DAYS * 86400 * micros -> tw_from w = from).
Proof.
  intros Hlt w. subst w. unfold build_custom_window. cbv zeta. unfold num_seconds, MAX_RANGE_DAYS, micros in *.
  set (eff := if 90 * 86400 <? Z.quot (to - from) 1000000 then to - 90 * 86400 * 1000000 else from).
  assert (eff < to /\ to - eff < (90 * 86400 + 1) * 1000000 /\ (to - from <= 90 * 86400 * 1000000 -> eff = from)) as (He & Hd & Hk).
  { unfold eff. rewrite Z.quot_div_nonneg by lia. pose proof (Z.mod_pos_bound (to - from) 1000000). pose proof (Z.div_mod (to - from) 1000000).
    destruct (Z.ltb_spec (90 * 86400) ((to - from) / 1000000)); lia. }
  pose proof (Z.mod_pos_bound (to - eff) 1000000). pose proof (Z.div_mod (to - eff) 1000000).
  assert (0 <= (to - eff) / 1000000) by (apply Z.div_pos; lia).
  pose proof (Z.mod_pos_bound ((to - eff) / 1000000) 48). pose proof (Z.div_mod ((to - eff) / 1000000) 48).
  assert (Z.quot (to - eff) 1000000 = (to - eff) / 1000000) as Hq by (apply Z.quot_div_nonneg; lia). rewrite Hq. set (w := mkWindow _ _ _).
  destruct (pick_target ((to - eff) / 1000000)) as [Hp Hb]; [lia |]. rewrite Z.quot_div_nonneg in Hp by lia.
  assert (good_window w) as Hw by (split; cbn [tw_from tw_to bucket_secs w]; lia). rewrite (n_buckets_spec w 49 Hw). unfold w, bucket_len, micros. cbn [tw_from tw_to bucket_secs].
  split; [exact Hw |]. clear Hq Hw w. clearbody eff.
  split_and!; try done; lia.
Qed.

(** A window is bounded.  Whatever range the query names, an accepted one gives a window that ends
    after it starts, of at most ninety days and a second, whose buckets are between a minute and two
    days long; the chart has between one and sixty of them.  Only the last hour is read from the memory,
    and its chart has the sixty buckets that the tracker keeps. *)
Theorem window_bounded rfc naive err q now r m :
  parse rfc naive err q = inr (r, m) -> let w := to_window now r in
  good_window w /\ 60 <= bucket_secs w <= 172800 /\ tw_to w - tw_from w < (MAX_RANGE_DAYS * 86400 + 1) * micros /\
  (1 <= length (expected_buckets w) <= 60)%nat /\
  (m = true -> tw_to w = now /\ tw_from w = now - 3600 * micros /\ length (expected_buckets w) = Z.to_nat Rebalance.NUM_BUCKETS).
Proof.
  intros Hp w. assert (good_window w /\ 60 <= bucket_secs w <= 172800 /\ tw_to w - tw_from w < (MAX_RANGE_DAYS * 86400 + 1) * micros /\ n_buckets w <= 60 /\
    (m = true -> tw_to w = now /\ tw_from w = now - 3600 * micros /\ 59 < n_buckets w)) as (Hw & Hb & Hd & Hn & Hm).
  { destruct (parse_cases _ _ _ _ _ _ Hp) as [(p & -> & ->) | (from & to & Hlt & -> & ->)]; simpl in w.
    - assert (good_window w) as Hw by (subst w; destruct p; split; simpl; unfold micros; lia). split; [done |].
      assert (p = Hour1 -> 59 < n_buckets w) as H59 by (intros ->; rewrite Z.lt_nge, n_buckets_spec by done; subst w; unfold bucket_len, micros; simpl; lia).
      rewrite n_buckets_spec by done. subst w. unfold bucket_len, MAX_RANGE_DAYS, micros in *. destruct p; simpl; split_and!; try lia; try done; intros _; split_and!; [done | lia | by apply H59].
    - destruct (custom_window from to Hlt) as (? & _ & ? & ? & ? & _). fold w in H, H0, H1, H2. split_and!; try done; lia. }
  rewrite expected_length by done. assert (0 < n_buckets w).
  { rewrite Z.lt_nge, n_buckets_spec by done. destruct Hw. lia. }
  unfold Rebalance.NUM_BUCKETS. split_and!; [done | lia | lia | done | lia | lia |]. intros Ht. specialize (Hm Ht). lia.
Qed.

Lemma shown_length w log : good_window w -> zsum (fun ep => Z.of_nat (length (rows_at w ep log))) (epochs w) = Z.of_nat (length (shown w log)).
Proof.
  intros Hw. unfold shown. rewrite <- zsum_ones, <- zsum_groups by (by apply epochs_nodup). apply zsum_ext. intros ep _. symmetry. apply zsum_ones.
Qed.

Lemma selected_in w log r : r ∈ selected w log -> tw_from w <= lr_created r < tw_to w /\ lr_status r = Some 200.
Proof. intros [H _]%elem_of_retain. apply andb_true_iff in H as [H Hs%bool_decide_eq_true]. split; [lia | done]. Qed.

(** A row of the window that is not shown is in its last second, and only where the window does not
    start on a whole second. *)
Lemma lost_row w log r :
  good_window w -> r ∈ selected w log -> r ∉ shown w log -> tw_to w - micros < lr_created r /\ tw_from w mod micros ≠ 0.
Proof.
  intros Hw Hr Hn. destruct (selected_in _ _ _ Hr) as [[Hf Ht] _].
  assert (bucket_epoch w r ∉ epochs w) as Hb by (intros Hb; apply Hn, elem_of_retain; split; [by apply bool_decide_eq_true | done]).
  rewrite row_on_chart in Hb by done. assert (tw_to w <= tw_from w + n_buckets w * bucket_len w) by (by apply n_buckets_spec).
  unfold timestamp in Hb. pose proof (Z.mod_pos_bound (tw_from w) micros). pose proof (Z.div_mod (tw_from w) micros). unfold micros in *. lia.
Qed.

(** The chart of the request rates counts the log.  The bars of all deployments are, bucket by
    bucket, the rows with status 200 that the log has in the bucket, a segment of a deployment those
    of the deployment, and together they are the rows of the window but those in its last second,
    which a window that starts on a whole second keeps too. *)
Theorem rate_chart_exact find_model w log :
  good_window w -> Z.of_nat (length log) < 2 ^ 63 ->
  total_counts w (rate_rows w log) = (fun ep => (ep, Z.of_nat (length (rows_at w ep log)))) <$> epochs w /\
  (forall dep ep, dep ≠ "_unknown" -> default 0 (count_in find_model (by_model find_model (rate_rows w log)) dep ep) = Z.of_nat (length (served_rows w dep ep log))) /\
  zsum snd (total_counts w (rate_rows w log)) = Z.of_nat (length (shown w log)) /\
  (forall r, r ∈ selected w log -> r ∉ shown w log -> tw_to w - micros < lr_created r /\ tw_from w mod micros ≠ 0).
Proof.
  intros Hw Hl. assert (total_counts w (rate_rows w log) = (fun ep => (ep, Z.of_nat (length (rows_at w ep log)))) <$> epochs w) as Ht.
  { unfold total_counts. apply list_fmap_ext. intros i ep _. by rewrite total_exact. }
  rewrite Ht. split_and!; [done | intros; by apply segment_exact | | intros r; by apply lost_row].
  rewrite zsum_fmap. simpl. by apply shown_length.
Qed.

(** The chart of the clients counts the log.  Its buckets are what the log has in each of them, and
    the six sums are, up to the width of the counters, those of the rows that the chart shows. *)
Theorem agent_chart_exact w log f :
  good_window w ->
  agent_counts w (agent_rows w log) = (fun ts => (ts, as_u64_bucket (agent_bucket (rows_at w (timestamp ts) log)))) <$> expected_buckets w /\
  AgentStats.read f (agent_sums w (agent_rows w log)) mod 2 ^ 64 = zsum (weight f) (shown w log) mod 2 ^ 64.
Proof.
  intros Hw. assert (agent_counts w (agent_rows w log) = (fun ts => (ts, as_u64_bucket (agent_bucket (rows_at w (timestamp ts) log)))) <$> expected_buckets w) as Hc.
  { apply list_fmap_ext. intros i ts _. by rewrite agent_count. }
  split; [done |]. unfold agent_sums. rewrite sums_read, AgentStats.read_zero, Z.add_0_l, Hc, <- list_fmap_compose, zsum_fmap.
  unfold shown. rewrite <- zsum_groups by (by apply epochs_nodup). unfold epochs. rewrite zsum_fmap.
  apply zsum_mod. intros ts. simpl. rewrite as_u64_read, agent_bucket_read. unfold wrap64. apply Zmod_mod.
Qed.

(** ** Witnesses *)

(** Two hours from half a second past an hour, with a row in the last half second. *)
Definition demo_window : TimeWindow := build_custom_window 3600500000 10800500000.
Definition demo_log : list LogRow :=
  [mkLogRow 3600700000 (Some 200) (Some "a") "/v1/messages" (Some 10) (Some 3); mkLogRow 3700000000 (Some 200) (Some "b") "/v1/chat/completions" (Some 5) None;
   mkLogRow 3700000001 (Some 500) (Some "b") "/v1/chat/completions" None None; mkLogRow 10800400000 (Some 200) None "/v1/messages" (Some 1) (Some 1)].

Lemma window_bounded_witness :
  length (expected_buckets (to_window 0 (RCustom demo_window))) = 24%nat /\
  (1 <= length (expected_buckets (to_window 0 (RCustom demo_window))) <= 60)%nat.
Proof.
  split; [by vm_compute |].
  assert (parse (fun s => if bool_decide (s = "a") then Some 3600500000 else Some 10800500000) (fun _ _ => None) (fun _ => "")
    (mkRangeQuery "custom" (Some "a") (Some "b")) = inr (RCustom demo_window, false)) as Hp by (by vm_compute).
  pose proof (window_bounded _ _ _ _ 0 _ _ Hp) as H. cbv zeta in H. destruct H as (_ & _ & _ & H & _). exact H.
Defined.

Lemma demo_good : good_window demo_window.
Proof. split; by vm_compute. Qed.

Lemma rate_chart_exact_witness :
  zsum snd (total_counts demo_window (rate_rows demo_window demo_log)) = 2 /\ length (selected demo_window demo_log) = 3%nat /\
  zsum snd (total_counts demo_window (rate_rows demo_window demo_log)) = Z.of_nat (length (shown demo_window demo_log)).
Proof.
  split; [by vm_compute | split; [by vm_compute |]].
  exact (proj1 (proj2 (proj2 (rate_chart_exact (fun _ => None) demo_window demo_log demo_good ltac:(by vm_compute))))).
Defined.

Lemma agent_chart_exact_witness :
  AgentStats.input_tokens_total (agent_sums demo_window (agent_rows demo_window demo_log)) = 15 /\
  AgentStats.read AgentStats.InputTotal (agent_sums demo_window (agent_rows demo_window demo_log)) mod 2 ^ 64 = zsum (weight AgentStats.InputTotal) (shown demo_window demo_log) mod 2 ^ 64.
Proof. split; [by vm_compute | exact (proj2 (agent_chart_exact demo_window demo_log AgentStats.InputTotal demo_good))]. Defined.
End Stats.
