(* ===== verification/DashLogs.v ===== *)
(** * DashLogs: the request log and the running requests in the dashboard (boom-dashboard, boom-audit)

    Models the handlers that read the table of requests: [list_logs] and
    [get_deployment_summary_24h] of [boom-dashboard/src/handlers_admin.rs], [get_user_logs],
    [get_key_info] and [query_token_usage] of [handlers_user.rs], and the reader of
    [boom-audit/src/reader.rs]; and [get_inflight_stats], which shows what the admission
    queues and the counters of running requests hold.  Rows are as [LogWriter] stores them,
    with the columns that the handlers read.  The case folding and the average of the
    database, [str::to_lowercase] and the texts of dates are parameters; rows of the same
    instant are in the order of the table. *)

From S2P Require Import Prelude Core Text Float64 Json FlowControl SlidingWindow PlanStore InFlight Rebalance Auth DashKeys DashQuota DashUsage DashLists Stats.

Module DashLogs.
Import Core Json Auth DashKeys DashLists.

(** A row of [boom_request_log]; [r_created] is in microseconds. *)
Record LogRow := mkRow {
  r_request_id : option string;
  r_key_hash : string;
  r_key_name : option string;
  r_key_alias : option string;
  r_team_id : option string;
  r_model : string;
  r_api_path : string;
  r_is_stream : bool;
  r_status_code : Z;
  r_error_type : option string;
  r_error_message : option string;
  r_input_tokens : option Z;
  r_output_tokens : option Z;
  r_duration_ms : option Z;
  r_ttft_ms : option Z;
  r_created : Z;
  r_deployment_id : option string;
  r_client_ip : option string;
  r_cached_tokens : option Z;
  r_schedule_policy : option string;
  r_blocks : option Z * option Z * option Z * option Z;
  r_request_tokens : option Z;
}.

(** [ORDER BY created_at DESC] *)
Definition newest (a b : LogRow) : Prop := r_created b <= r_created a.
#[export] Instance newest_dec : RelDecision newest := fun a b => Z_le_dec (r_created b) (r_created a).

(** [LIMIT] and [OFFSET]; the database refuses values below zero. *)
Definition sql_page {A} (limit offset : Z) (l : list A) : option (list A) :=
  if (limit <? 0) || (offset <? 0) then None else Some (take (Z.to_nat limit) (drop (Z.to_nat offset) l)).

Section logs.
Context {D : Type} `{DecimalOps D}.
Context (fold_case lower : string -> string) (rfc3339 date_text : Z -> string).

(** ** The list of requests *)

Record ListLogsQuery := mkListLogs {
  lq_page : Z; lq_per_page : Z;
  lq_key_hash : option string; lq_model : option string; lq_status : option string; lq_request_id : option string; lq_key_alias : option string;
  lq_api_path : option string; lq_status_code : option Z; lq_stream : option string; lq_error : option string; lq_team_alias : option string; lq_client_ip : option string;
}.

(** A filter that is not set, or a pattern around it; its wildcards keep their meaning. *)
Definition like_filter (o : option string) (column : option string) : bool :=
  match o with Some v => ilike fold_case ("%" +:+ v +:+ "%") column | None => true end.
Definition is_filter {A} `{EqDecision A} (o : option A) (column : A) : bool := match o with Some v => bool_decide (column = v) | None => true end.
Definition stream_filter (o : option string) (is_stream : bool) : bool :=
  match o with
  | None => true
  | Some v =>
    let s := lower v in
    if bool_decide (s ∈ ["yes"; "true"; "1"]) then is_stream else if bool_decide (s ∈ ["no"; "false"; "0"]) then negb is_stream else true
  end.
Definition error_filter (o : option string) (status : Z) : bool := if bool_decide (o = Some "error") then negb (status =? 200) else true.

(** The alias of the team, by [LEFT JOIN]. *)
Definition joined_alias (teams : gmap string TeamRow) (r : LogRow) : option string := r_team_id r ≫= fun t => teams !! t ≫= tr_team_alias.

Definition log_wanted (q : ListLogsQuery) (teams : gmap string TeamRow) (r : LogRow) : bool :=
  is_filter (lq_key_hash q) (r_key_hash r) && like_filter (lq_model q) (Some (r_model r)) && error_filter (lq_status q) (r_status_code r)
  && like_filter (lq_request_id q) (r_request_id r)
  && match lq_key_alias q with Some _ => like_filter (lq_key_alias q) (r_key_alias r) || like_filter (lq_key_alias q) (r_key_name r) | None => true end
  && like_filter (lq_api_path q) (Some (r_api_path r)) && is_filter (lq_status_code q) (r_status_code r) && stream_filter (lq_stream q) (r_is_stream r)
  && like_filter (lq_error q) (r_error_message r) && like_filter (lq_team_alias q) (joined_alias teams r) && like_filter (lq_client_ip q) (r_client_ip r).

Definition wanted_logs (q : ListLogsQuery) (teams : gmap string TeamRow) (log : list LogRow) : list LogRow := merge_sort newest (retain (log_wanted q teams) log).

(** One row more than the page is read, to know whether there is a next page. *)
Definition logs_page (q : ListLogsQuery) (teams : gmap string TeamRow) (log : list LogRow) : option (list LogRow * bool) :=
  let '(page, per_page) := normalize_pagination (lq_page q) (lq_per_page q) in
  rows ← sql_page (per_page + 1) (page_offset page per_page) (wanted_logs q teams log);
  Some (take (Z.to_nat per_page) rows, per_page <? Z.of_nat (length rows)).

Definition display_model (r : LogRow) : string :=
  match r_deployment_id r with Some d => if bool_decide (d = "") then r_model r else r_model r +:+ ":" +:+ d | None => r_model r end.
(** The arrow in the name of a policy, and in its short form. *)
Definition arrow : string := utf8 [226; 134; 146].
Definition policy_code (o : option string) : string :=
  match o with
  | Some p =>
    if bool_decide (p = "kvc_aware") then "kvc" else if bool_decide (p = "kvc_aware" +:+ arrow +:+ "key_affinity") then "kvc" +:+ arrow +:+ "key"
    else if bool_decide (p = "key_affinity") then "key" else if bool_decide (p = "round_robin") then "rr" else p
  | None => ""
  end.
Definition vopt_int (o : option Z) : Value := vopt vint o.

Definition log_value (teams : gmap string TeamRow) (r : LogRow) : Value :=
  let '(hit, input, trie, trie_max) := r_blocks r in
  VObject [("request_id", vstr (r_request_id r)); ("key_hash", VString (r_key_hash r)); ("key_name", vstr (r_key_name r)); ("key_alias", vstr (r_key_alias r));
    ("team_id", vstr (r_team_id r)); ("team_alias", vstr (joined_alias teams r)); ("model", VString (display_model r)); ("api_path", VString (r_api_path r));
    ("is_stream", VBool (r_is_stream r)); ("status_code", vint (r_status_code r)); ("error_type", vstr (r_error_type r)); ("error_message", vstr (r_error_message r));
    ("input_tokens", vopt_int (r_input_tokens r)); ("output_tokens", vopt_int (r_output_tokens r)); ("cached_tokens", vopt_int (r_cached_tokens r));
    ("duration_ms", vopt_int (r_duration_ms r)); ("ttft_ms", vopt_int (r_ttft_ms r)); ("created_at", VString (rfc3339 (r_created r)));
    ("client_ip", vstr (r_client_ip r)); ("policy", VString (policy_code (r_schedule_policy r))); ("kv_hit_blocks", vopt_int hit); ("kv_input_blocks", vopt_int input);
    ("trie_blocks", vopt_int trie); ("trie_max_blocks", vopt_int trie_max); ("request_tokens", vopt_int (r_request_tokens r))].

Definition list_logs (db : option bool) (q : ListLogsQuery) (teams : gmap string TeamRow) (log : list LogRow) : Answer :=
  let '(page, per_page) := normalize_pagination (lq_page q) (lq_per_page q) in
  match db with
  | None => no_database
  | Some ok =>
    match (if ok then logs_page q teams log else None) with
    | None => internal_error
    | Some (rows, has_next) =>
      quiet (RJson 200 (VObject [("logs", VArray (log_value teams <$> rows)); ("page", vint page); ("per_page", vint per_page); ("has_next", VBool has_next)]))
    end
  end.

(** ** The requests of a user *)

(** The page is not clamped; the offset is in [i64], which wraps. *)
Definition user_offset (page per_page : Z) : Z := as_i64 (Z.max (as_i64 (page - 1)) 0 * per_page).
Definition user_logs (kh : string) (log : list LogRow) : list LogRow := merge_sort newest (retain (fun r => bool_decide (r_key_hash r = kh)) log).
Definition user_page (kh : string) (page per_page : Z) (log : list LogRow) : option (list LogRow) :=
  sql_page per_page (user_offset page per_page) (user_logs kh log).

Definition user_log_value (r : LogRow) : Value :=
  VObject [("model", VString (r_model r)); ("api_path", VString (r_api_path r)); ("is_stream", VBool (r_is_stream r)); ("status_code", vint (r_status_code r));
    ("input_tokens", vopt_int (r_input_tokens r)); ("output_tokens", vopt_int (r_output_tokens r)); ("duration_ms", vopt_int (r_duration_ms r));
    ("error_type", vstr (r_error_type r)); ("error_message", vstr (r_error_message r)); ("created_at", VString (rfc3339 (r_created r)));
    ("client_ip", vstr (r_client_ip r)); ("cached_tokens", vopt_int (r_cached_tokens r))].

Definition get_user_logs (db : option Stmts) (kh : string) (page per_page : Z) (log : list LogRow) : Answer :=
  match db with
  | None => no_database
  | Some ok =>
    match (if ok 0%nat then user_page kh page per_page log else None) with
    | None => internal_error
    | Some rows =>
      quiet (RJson 200 (VObject [("logs", VArray (user_log_value <$> rows)); ("page", vint page); ("per_page", vint per_page);
        ("total", if ok 1%nat then vcount (user_logs kh log) else vint 0)]))
    end
  end.

(** ** The key of a user *)

(** The sums of the tokens over the log; nothing when the query fails. *)
Definition query_token_usage (ok : bool) (kh : string) (log : list LogRow) : Z * Z :=
  let own := retain (fun r => bool_decide (r_key_hash r = kh)) log in
  if ok then (zsum (fun r => default 0 (r_input_tokens r)) own, zsum (fun r => default 0 (r_output_tokens r)) own) else (0, 0).

Definition get_key_info (db : option Stmts) (created_at : string -> option Z) (kh : string) (t : KeyTable) (l : SlidingWindow.SlidingWindowLimiter) (log : list LogRow) : Value :=
  let error e := VObject [("error", VString e)] in
  match db with
  | None => error "Database not available"
  | Some ok =>
    match (if ok 0%nat then t !! kh else None) with
    | None => error "Key not found"
    | Some k =>
      let r := kr_token k in
      let '(input, output) := query_token_usage (ok 1%nat) kh log in
      let total := DashUsage.money (SlidingWindow.peek_cumulative l (SlidingWindow.ScopeKey kh) SlidingWindow.TotalCost) in
      let date o := vopt (fun d => VString (date_text d)) o in
      VObject [("key_name", vstr (tk_key_name r)); ("key_alias", vstr (tk_key_alias r)); ("spend", total); ("total_cost", total); ("expires", date (expires r));
        ("blocked", VBool (default false (tk_blocked r))); ("rpm_limit", vopt_int (tk_rpm_limit r)); ("tpm_limit", vopt_int (tk_tpm_limit r));
        ("max_budget", vopt vfloat (tk_max_budget r)); ("budget_duration", vstr (kr_budget_duration k)); ("metadata", default VNull (tk_metadata r));
        ("created_at", date (created_at kh)); ("token_prefix", VString (token_prefix kh)); ("total_input_tokens", vint input); ("total_output_tokens", vint output)]
    end
  end.

(** ** The reader of boom-audit *)

Record AuditQuery := mkAudit { aq_page : Z; aq_per_page : Z; aq_key_hash : option string; aq_model : option string; aq_status : option string }.
Record LogsPage := mkLogsPage { lp_logs : list LogRow; lp_page : Z; lp_per_page : Z; lp_total : Z }.
Definition audit_wanted (q : AuditQuery) (r : LogRow) : bool :=
  is_filter (aq_key_hash q) (r_key_hash r) && is_filter (aq_model q) (r_model r) && error_filter (aq_status q) (r_status_code r).
Definition audit_logs (q : AuditQuery) (log : list LogRow) : list LogRow := merge_sort newest (retain (audit_wanted q) log).
Definition audit_list_logs (ok ok_count : bool) (q : AuditQuery) (log : list LogRow) : option LogsPage :=
  let '(page, per_page) := normalize_pagination (aq_page q) (aq_per_page q) in
  rows ← (if ok then sql_page per_page (page_offset page per_page) (audit_logs q log) else None);
  Some (mkLogsPage rows page per_page (if ok_count then Z.of_nat (length (audit_logs q log)) else 0)).
Definition audit_log_value (r : LogRow) : Value :=
  VObject [("request_id", vstr (r_request_id r)); ("key_hash", VString (r_key_hash r)); ("key_name", vstr (r_key_name r)); ("team_id", vstr (r_team_id r));
    ("model", VString (r_model r)); ("api_path", VString (r_api_path r)); ("is_stream", VBool (r_is_stream r)); ("status_code", vint (r_status_code r));
    ("error_type", vstr (r_error_type r)); ("error_message", vstr (r_error_message r)); ("input_tokens", vopt_int (r_input_tokens r));
    ("output_tokens", vopt_int (r_output_tokens r)); ("duration_ms", vopt_int (r_duration_ms r)); ("created_at", VString (rfc3339 (r_created r)))].
Definition logs_page_to_json (p : LogsPage) : Value :=
  VObject [("logs", VArray (audit_log_value <$> lp_logs p)); ("page", vint (lp_page p)); ("per_page", vint (lp_per_page p)); ("total", vint (lp_total p))].

(** ** The summary of a day *)

Record Summary := mkSummary {
  sm_deployment : string; sm_total : Z;
  sm_input : Z * Z; sm_output : Z * Z; sm_ttft : Z * Z;
  sm_hit_rate : option f64;
}.
Definition day_micros : Z := 86400 * 1000000.
Definition served_row (now : Z) (r : LogRow) : bool :=
  (now - day_micros <=? r_created r) && negb (is_none (r_deployment_id r)) && (200 <=? r_status_code r) && (r_status_code r <? 300).
(** [AVG] of the database. *)
Context (sql_avg : list f64 -> option f64).
(** The percentage of the input that was cached, of a row that has both. *)
Definition hit_rate (r : LogRow) : option f64 :=
  match r_cached_tokens r with
  | Some c => if 0 <? default 0 (r_input_tokens r) then Some (f64_mul (f64_div (f64_of c) (f64_of (default 0 (r_input_tokens r)))) (f64_of 100)) else None
  | None => None
  end.
(** [COUNT] and [SUM] of a column. *)
Definition count_sum (f : LogRow -> option Z) (l : list LogRow) : Z * Z := (Z.of_nat (length (omap f l)), zsum (fun r => default 0 (f r)) l).
Definition summary_of (g : string * list LogRow) : Summary :=
  mkSummary g.1 (Z.of_nat (length g.2)) (count_sum r_input_tokens g.2) (count_sum r_output_tokens g.2) (count_sum r_ttft_ms g.2) (sql_avg (omap hit_rate g.2)).
Definition summaries (now : Z) (log : list LogRow) : list Summary :=
  summary_of <$> Stats.group_by (fun r => default "" (r_deployment_id r)) (retain (served_row now) log).
Definition average (x : Z * Z) : option f64 := if x.1 =? 0 then None else Some (f64_div (f64_of x.2) (f64_of x.1)).
Definition summary_value (s : Summary) : Value :=
  VObject [("deployment_id", VString (sm_deployment s)); ("total_requests", vint (sm_total s)); ("avg_input_tokens", vopt vfloat (average (sm_input s)));
    ("avg_output_tokens", vopt vfloat (average (sm_output s))); ("avg_ttft_ms", vopt vfloat (average (sm_ttft s))); ("avg_prefix_hit_rate", vopt vfloat (sm_hit_rate s))].
(** [inl]: the text of the error of the database. *)
Definition get_deployment_summary_24h (db : option (string + unit)) (now : Z) (log : list LogRow) : Value :=
  let error e := VObject [("error", VString e)] in
  match db with
  | None => error "Database not available"
  | Some (inl e) => error e
  | Some (inr _) => VObject [("deployments", VArray (summary_value <$> summaries now log)); ("window_hours", vint 24)]
  end.
End logs.

(** ** Moves and dropped entries *)

Definition move_value (m : Rebalance.RebalanceMove) : Value :=
  VObject [("deployment_id", VString (Rebalance.mv_deployment_id m)); ("in_count", vint (Rebalance.mv_in_count m)); ("out_count", vint (Rebalance.mv_out_count m))].
Definition get_rebalance_moves (m : gmap string Rebalance.MoveCounts) : Value := VObject [("moves", VArray (move_value <$> Rebalance.move_snapshot m))].
Definition get_audit_log_stats (dropped : option Z) : Value :=
  VObject [("dropped", vint (default 0 dropped)); ("db_configured", VBool (negb (is_none dropped)))].


(** ** The running requests *)

Record InflightRow := mkInflightRow {
  if_model : string; if_deployment : string; if_queue : Z;
  if_requests : Z; if_requests_max : Z; if_context : Z; if_context_max : Z;
  if_queued : list (option string * bool); if_dispatched : option (list (string * bool));
}.

Definition assoc {A} (l : list (string * A)) (d : string) : option A := (fun x : nat * (string * A) => x.2.2) <$> list_find (fun x : string * A => x.1 = d) l.

Section inflight.
Context (find_model : string -> option string).

(** A deployment that has an admission queue. *)
Definition queue_row (fc : FlowControl.FlowController) (s : FlowControl.FlowControlStat) : InflightRow :=
  let d := FlowControl.st_deployment_id s in
  mkInflightRow (default "-" (find_model d)) d (FlowControl.waiters s +u FlowControl.vip_waiters s)
    (FlowControl.current_inflight s) (FlowControl.st_max_inflight s) (FlowControl.current_context s) (FlowControl.st_max_context s)
    (default [] (assoc (FlowControl.get_queued_waiters fc) d)) (assoc (FlowControl.get_dispatched_keys fc) d).
(** A deployment that has none: what the counters of running requests say. *)
Definition tracked_row (s : InFlight.DeploymentInFlightStat) : InflightRow :=
  mkInflightRow (InFlight.dst_model s) (InFlight.dst_deployment_id s) 0 (InFlight.dst_inflight_requests s) 0 (InFlight.dst_inflight_input_chars s) 0 [] (Some []).

Definition inflight_rows (fc : FlowControl.FlowController) (t : InFlight.InFlightTracker) : gmap string InflightRow :=
  let rows := foldl (fun m s => <[FlowControl.st_deployment_id s := queue_row fc s]> m) (∅ : gmap string InflightRow) (FlowControl.get_stats fc) in
  foldl (fun m s => if bool_decide (InFlight.dst_deployment_id s ∈ (dom rows : gset string)) then m else <[InFlight.dst_deployment_id s := tracked_row s]> m)
    rows (InFlight.get_deployment_stats t).

(** The deployments without a model are last; by model, then by deployment. *)
Definition row_key (r : InflightRow) : bool * (string * string) := (bool_decide (if_model r = "-"), (if_model r, if_deployment r)).
Definition inflight_le (a b : InflightRow) : Prop :=
  let '(da, (ma, ia)) := row_key a in let '(db, (mb, ib)) := row_key b in
  if Bool.eqb da db then if decide (ma = mb) then Rebalance.key_le ia ib else Rebalance.key_le ma mb else db = true.
#[local] Existing Instance Rebalance.key_le_dec.
#[local] Instance inflight_le_dec : RelDecision inflight_le.
Proof. intros a b. unfold inflight_le. repeat case_match; apply _. Defined.

Definition inflight_list (fc : FlowControl.FlowController) (t : InFlight.InFlightTracker) : list InflightRow :=
  merge_sort inflight_le (map_to_list (inflight_rows fc t)).*2.

Definition inflight_value (r : InflightRow) : Value :=
  VObject [("model", VString (if_model r)); ("deployment_id", VString (if_deployment r)); ("fc_queue", vint (if_queue r)); ("in_reqs", vint (if_requests r));
    ("in_reqs_max", vint (if_requests_max r)); ("in_context", vint (if_context r)); ("in_context_max", vint (if_context_max r));
    ("queued_keys", VArray ((fun e => VObject [("key_alias", vstr e.1); ("is_vip", VBool e.2)]) <$> if_queued r));
    ("key_stats", VArray (Stats.aggregate_dispatched_keys (if_dispatched r)))].
Definition get_inflight_stats (fc : FlowControl.FlowController) (t : InFlight.InFlightTracker) : Answer :=
  quiet (RJson 200 (VObject [("deployments", VArray (inflight_value <$> inflight_list fc t))])).
End inflight.

(** ** Lemmas: pages of the database *)

Lemma sql_page_small {A} i per n (l : list A) :
  0 <= per -> 0 <= i -> i * n < 2 ^ 63 -> 0 <= n -> sql_page per (page_offset (i + 1) n) l = Some (take (Z.to_nat per) (drop (Z.to_nat (i * n)) l)).
Proof.
  intros Hp Hi Hs Hn. unfold sql_page, page_offset. replace (i + 1 - 1) with i by lia. rewrite as_i64_small by nia.
  rewrite (proj2 (Z.ltb_ge _ _) Hp), (proj2 (Z.ltb_ge _ _)) by nia. done.
Qed.

Lemma retain_length_le {A} P (l : list A) : (length (retain P l) <= length l)%nat.
Proof. apply length_filter. Qed.

Lemma length_omap_le {A B} (f : A -> option B) (l : list A) : (length (omap f l) <= length l)%nat.
Proof. induction l as [| x l IH]; [done |]. cbn. destruct (f x); cbn; lia. Qed.

Section properties.
Context (fold_case lower : string -> string).

Definition at_log_page (q : ListLogsQuery) (p : Z) : ListLogsQuery :=
  mkListLogs p (lq_per_page q) (lq_key_hash q) (lq_model q) (lq_status q) (lq_request_id q) (lq_key_alias q) (lq_api_path q) (lq_status_code q) (lq_stream q)
    (lq_error q) (lq_team_alias q) (lq_client_ip q).

(** A page of the list of requests has the rows of its place in the filtered log, newest first,
    and says whether there are more; a reader who goes on while it says so has read all. *)
Theorem logs_page_exact q teams log p :
  let per := (normalize_pagination (lq_page q) (lq_per_page q)).2 in
  let wanted := wanted_logs fold_case lower q teams log in
  1 <= p -> p * per < 2 ^ 63 ->
  logs_page fold_case lower (at_log_page q p) teams log
  = Some (take (Z.to_nat per) (drop (Z.to_nat ((p - 1) * per)) wanted), bool_decide (p * per < Z.of_nat (length wanted)))
  /\ wanted ≡ₚ retain (log_wanted fold_case lower q teams) log /\ StronglySorted newest wanted.
Proof.
  intros per wanted Hp Hs. assert (1 <= per <= 1000) as Hper by (unfold per; cbn; lia). split_and!.
  - unfold logs_page. cbn [lq_page lq_per_page at_log_page]. rewrite (page_normal (lq_page q)) by lia. fold per.
    change (wanted_logs fold_case lower (at_log_page q p) teams log) with wanted.
    replace p with (p - 1 + 1) at 1 by lia. rewrite sql_page_small by nia. cbn [mbind option_bind]. do 2 f_equal.
    + rewrite take_take. f_equal. lia.
    + rewrite length_take, length_drop. destruct (Z.ltb_spec per (Z.of_nat (Z.to_nat (per + 1) `min` (length wanted - Z.to_nat ((p - 1) * per)))));
        symmetry; [apply bool_decide_eq_true_2 | apply bool_decide_eq_false_2]; nia.
  - apply merge_sort_Permutation.
  - apply StronglySorted_merge_sort; [intros a b c; unfold newest; lia | intros a b; unfold newest; lia].
Qed.

(** A user sees the requests of the key that the session is for, and no others. *)
Theorem user_logs_own kh page per log rows :
  user_page kh page per log = Some rows -> 0 <= per /\ forall r, r ∈ rows -> r ∈ log /\ r_key_hash r = kh.
Proof.
  unfold user_page, sql_page. destruct (_ || _) eqn:E; [done |]. bool_simpl. intros [= <-]. split; [lia |].
  intros r Hr. assert (r ∈ user_logs kh log) as Hin.
  { apply elem_of_take in Hr as (i & Hi & _). rewrite lookup_drop in Hi. by apply list_elem_of_lookup_2 in Hi. }
  unfold user_logs in Hin. rewrite (merge_sort_Permutation newest), elem_of_retain in Hin. destruct Hin as [Hk%bool_decide_eq_true Hin]. done.
Qed.

(** The pages of a user, of a size that is not clamped. *)
Theorem user_page_exact kh page per log :
  1 <= page -> 0 <= per -> page * per < 2 ^ 63 -> page < 2 ^ 63 ->
  user_page kh page per log = Some (take (Z.to_nat per) (drop (Z.to_nat ((page - 1) * per)) (user_logs kh log))).
Proof.
  intros Hp Hper Hs Hp2. unfold user_page, user_offset. rewrite (as_i64_small (page - 1)) by lia. rewrite Z.max_l by lia.
  pose proof (sql_page_small (page - 1) per per (user_logs kh log) Hper ltac:(lia) ltac:(nia) Hper) as Hx. unfold page_offset in Hx.
  replace (page - 1 + 1 - 1) with (page - 1) in Hx by lia. exact Hx.
Qed.

(** Every request that was served in the last day is counted for one deployment. *)
Theorem summary_counts sql_avg now log :
  zsum sm_total (summaries sql_avg now log) = Z.of_nat (length (retain (served_row now) log))
  /\ NoDup (sm_deployment <$> summaries sql_avg now log)
  /\ forall s, s ∈ summaries sql_avg now log -> 0 <= (sm_input s).1 <= sm_total s /\ 0 <= (sm_output s).1 <= sm_total s /\ 0 <= (sm_ttft s).1 <= sm_total s.
Proof.
  unfold summaries. split_and!.
  - rewrite zsum_fmap. pose proof (Stats.zsum_retained (fun r => default "" (r_deployment_id r)) (fun _ => true) (retain (served_row now) log)) as Hz.
    cbn in Hz. rewrite (retain_all (fun _ => true)) in Hz by done. exact Hz.
  - rewrite <- list_fmap_compose. apply Stats.group_nodup.
  - intros s (g & -> & _)%list_elem_of_fmap. cbn. split_and!; try lia; apply Nat2Z.inj_le, length_omap_le.
Qed.
End properties.

(** ** Lemmas: the running requests *)

Section running.
Context (find_model : string -> option string).

Lemma foldl_insert_lookup {A B} (k : A -> string) (f : A -> B) (l : list A) (m : gmap string B) i v :
  foldl (fun m s => <[k s := f s]> m) m l !! i = Some v -> (exists s, s ∈ l /\ k s = i /\ f s = v) \/ m !! i = Some v.
Proof.
  revert m. induction l as [| s l IH]; intros m; cbn; [by right |]. intros [(s' & ? & ? & ?) | [(<- & <-) | (_ & ?)]%lookup_insert_Some]%IH; [| | by right].
  - left. exists s'. set_solver.
  - left. exists s. set_solver.
Qed.
Lemma foldl_insert_dom {A B} (k : A -> string) (f : A -> B) (l : list A) (m : gmap string B) i :
  i ∈ (k <$> l) \/ is_Some (m !! i) -> is_Some (foldl (fun m s => <[k s := f s]> m) m l !! i).
Proof.
  revert m. induction l as [| s l IH]; intros m Hi; [by destruct Hi as [?%elem_of_nil |] |]. cbn. apply IH.
  destruct Hi as [[-> | Hi]%elem_of_cons | Hi]; [right; rewrite lookup_insert_eq; eauto | by left | right].
  destruct (decide (k s = i)) as [-> |]; [rewrite lookup_insert_eq; eauto | by rewrite lookup_insert_ne].
Qed.

Definition queue_rows (fc : FlowControl.FlowController) : gmap string InflightRow :=
  foldl (fun m s => <[FlowControl.st_deployment_id s := queue_row find_model fc s]> m) ∅ (FlowControl.get_stats fc).

Lemma queue_rows_spec fc i r :
  queue_rows fc !! i = Some r <-> exists s, s ∈ FlowControl.get_stats fc /\ FlowControl.st_deployment_id s = i /\ r = queue_row find_model fc s.
Proof.
  split.
  - intros [(s & ? & ? & <-) | Hx]%foldl_insert_lookup; [eauto | by rewrite lookup_empty in Hx].
  - intros (s & Hs & <- & ->).
    destruct (foldl_insert_dom FlowControl.st_deployment_id (queue_row find_model fc) (FlowControl.get_stats fc) ∅ (FlowControl.st_deployment_id s)) as [r Hr];
      [left; apply list_elem_of_fmap; eauto |].
    unfold queue_rows. rewrite Hr. apply foldl_insert_lookup in Hr as [(s' & Hs' & E & <-) | Hr]; [| by rewrite lookup_empty in Hr].
    unfold FlowControl.get_stats in Hs, Hs'. apply list_elem_of_fmap in Hs as ([d inner] & -> & Hd%elem_of_map_to_list).
    apply list_elem_of_fmap in Hs' as ([d' inner'] & -> & Hd'%elem_of_map_to_list).
    destruct (FlowControl.inflight_stats inner) eqn:E1, (FlowControl.inflight_stats inner') eqn:E2. cbn in E. subst d'. simplify_eq. rewrite E1 in E2. by simplify_eq.
Qed.

(** The deployments that the second loop adds. *)
Lemma tracked_loop (rows : gmap string InflightRow) l : forall m : gmap string InflightRow,
  let m' := foldl (fun m s => if bool_decide (InFlight.dst_deployment_id s ∈ (dom rows : gset string)) then m else <[InFlight.dst_deployment_id s := tracked_row s]> m) m l in
  (forall i, is_Some (rows !! i) -> m' !! i = m !! i)
  /\ (forall i, rows !! i = None -> i ∈ (InFlight.dst_deployment_id <$> l) \/ is_Some (m !! i) -> is_Some (m' !! i))
  /\ (forall i r, m' !! i = Some r -> m !! i = Some r \/ exists s, s ∈ l /\ InFlight.dst_deployment_id s = i /\ r = tracked_row s).
Proof.
  induction l as [| s l IH]; intros m; cbn.
  { split_and!; [done | by intros i _ [?%elem_of_nil |] | by left]. }
  case_bool_decide as E.
  - destruct (IH m) as (H1 & H2 & H3). split_and!; [done | | intros i r Hr; apply H3 in Hr as [? | (s' & ? & ?)]; [by left | right; exists s'; set_solver]].
    intros i Hi [[-> | Hin]%elem_of_cons | Hm]; [apply elem_of_dom in E; by rewrite Hi in E; destruct E | apply H2; auto | apply H2; auto].
  - destruct (IH (<[InFlight.dst_deployment_id s := tracked_row s]> m)) as (H1 & H2 & H3). rewrite elem_of_dom in E. split_and!.
    + intros i Hi. rewrite H1 by done. rewrite lookup_insert_ne; [done |]. by intros <-.
    + intros i Hi Hor. apply H2; [done |]. destruct Hor as [[-> | Hin]%elem_of_cons | Hm]; [right; rewrite lookup_insert_eq; eauto | by left |].
      right. destruct (decide (InFlight.dst_deployment_id s = i)) as [-> |]; [rewrite lookup_insert_eq; eauto | by rewrite lookup_insert_ne].
    + intros i r Hr. apply H3 in Hr as [[(<- & <-) | (_ & ?)]%lookup_insert_Some | (s' & ? & ? & ?)]; [right; exists s; set_solver | by left | right; exists s'; set_solver].
Qed.

(** The list of running requests has every deployment once: one with an admission queue as the
    queue sees it, any other with requests as the counters see it, and no others. *)
Theorem inflight_exact fc t :
  let shown := inflight_list find_model fc t in
  let queues := FlowControl.get_stats fc in
  let tracked := InFlight.get_deployment_stats t in
  NoDup (if_deployment <$> shown)
  /\ (forall s, s ∈ queues -> queue_row find_model fc s ∈ shown)
  /\ (forall s, s ∈ tracked -> InFlight.dst_deployment_id s ∈ (if_deployment <$> shown))
  /\ (forall r, r ∈ shown -> (exists s, s ∈ queues /\ r = queue_row find_model fc s)
       \/ exists s, s ∈ tracked /\ r = tracked_row s /\ InFlight.dst_deployment_id s ∉ (FlowControl.st_deployment_id <$> queues)).
Proof.
  intros shown queues tracked. unfold shown, inflight_list.
  destruct (tracked_loop (queue_rows fc) tracked (queue_rows fc)) as (H1 & H2 & H3).
  change (foldl _ (queue_rows fc) tracked) with (inflight_rows find_model fc t) in *. set (m := inflight_rows find_model fc t) in *.
  assert (forall i r, m !! i = Some r -> if_deployment r = i) as Hid.
  { intros i r [(s & _ & <- & ->)%queue_rows_spec | (s & _ & <- & ->)]%H3; done. }
  assert (if_deployment <$> (map_to_list m).*2 = (map_to_list m).*1) as Hkeys.
  { rewrite <- list_fmap_compose. apply list_fmap_ext. intros i [k r] Hl. cbn. apply Hid, elem_of_map_to_list. by eapply list_elem_of_lookup_2. }
  setoid_rewrite (merge_sort_Permutation inflight_le). rewrite Hkeys.
  split_and!.
  - apply NoDup_fst_map_to_list.
  - intros s Hs. apply list_elem_of_fmap. exists (FlowControl.st_deployment_id s, queue_row find_model fc s). split; [done |].
    apply elem_of_map_to_list. assert (queue_rows fc !! FlowControl.st_deployment_id s = Some (queue_row find_model fc s)) as Hq by (apply queue_rows_spec; eauto).
    rewrite H1; [done | eauto].
  - intros s Hs. destruct (queue_rows fc !! InFlight.dst_deployment_id s) as [r |] eqn:Eq.
    + rewrite <- H1 in Eq by eauto. apply list_elem_of_fmap. exists (InFlight.dst_deployment_id s, r). split; [done |]. by apply elem_of_map_to_list.
    + destruct (H2 _ Eq) as [r Hr]; [left; apply list_elem_of_fmap; eauto |].
      apply list_elem_of_fmap. exists (InFlight.dst_deployment_id s, r). split; [done |]. by apply elem_of_map_to_list.
  - intros r ([i r'] & -> & Hr%elem_of_map_to_list)%list_elem_of_fmap. cbn.
    destruct (queue_rows fc !! i) as [q |] eqn:Eq.
    + rewrite H1 in Hr by eauto. apply queue_rows_spec in Hr as (s & Hs & _ & ->). left. eauto.
    + destruct (H3 _ _ Hr) as [? | (s & Hs & <- & ->)]; [congruence |]. right. exists s. split_and!; [done.. |].
      intros (s' & E & Hs')%list_elem_of_fmap. assert (queue_rows fc !! FlowControl.st_deployment_id s' = Some (queue_row find_model fc s')) as Hq by (apply queue_rows_spec; eauto).
      rewrite <- E, Eq in Hq. done.
Qed.
End running.

(** *** Witnesses *)

Definition row_at (t : Z) (kh : string) (status : Z) : LogRow :=
  mkRow (Some ("req" +:+ show t)) kh None None (Some "t") "gpt" "/v1/chat/completions" false status None None (Some 10) (Some 5) (Some 3) None t (Some "d1") None (Some 5) None
    (None, None, None, None) None.
Definition demo_log : list LogRow := [row_at 1 "h1" 200; row_at 2 "h2" 500; row_at 3 "h1" 200; row_at 4 "h1" 429].
Definition of_h1 : ListLogsQuery := mkListLogs 1 2 (Some "h1") (Some "gp") None None None None None None None None None.

(** The second page of the requests of a key: the oldest, and there are no more. *)
Lemma logs_page_exact_witness :
  logs_page (fun s => s) (fun s => s) (at_log_page of_h1 2) ∅ demo_log = Some ([row_at 1 "h1" 200], false).
Proof.
  rewrite (proj1 (logs_page_exact (fun s => s) (fun s => s) of_h1 ∅ demo_log 2 ltac:(lia) ltac:(vm_compute; reflexivity))).
  vm_compute. reflexivity.
Defined.

Lemma user_logs_own_witness : forall r, r ∈ [row_at 4 "h1" 429; row_at 3 "h1" 200] -> r ∈ demo_log /\ r_key_hash r = "h1".
Proof. apply (user_logs_own "h1" 1 2 demo_log [row_at 4 "h1" 429; row_at 3 "h1" 200]). vm_compute. reflexivity. Defined.

Lemma user_page_exact_witness : user_page "h1" 2 2 demo_log = Some [row_at 1 "h1" 200].
Proof. rewrite (user_page_exact "h1" 2 2 demo_log) by lia. vm_compute. reflexivity. Defined.

(** The size of a page of a user is not clamped: the database refuses one below zero. *)
Lemma user_page_refused : user_page "h1" 1 (-1) demo_log = None /\ normalize_pagination 1 (-1) = (1, 1).
Proof. split; reflexivity. Qed.

(** A wildcard in a filter of the requests is one; in the search of the keys it is text. *)
Lemma log_filter_wildcard :
  like_filter (fun s => s) (Some "r_q") (Some "req1") = true /\ ilike (fun s => s) (search_pattern "r_q") (Some "req1") = false.
Proof. split; vm_compute; reflexivity. Qed.

End DashLogs.
