(* ===== verification/PromptLog.v ===== *)
(** * PromptLog: what is kept of requests to look into them (boom-promptlog, boom-core, boom-main)

    Models [boom-core/src/debug_store.rs] with the recording of upstream errors
    ([log_error_with_usage] of [boom-main/src/request_log.rs]); [config.rs], [entry.rs] and
    [stream.rs] of [boom-promptlog]; the capture of prompts in the handlers of
    [boom-main/src/routes.rs]; and the handlers of the dashboard that switch all of it on
    and off.  The file that the entries end in is in PromptFiles.  Identifiers, clocks, the
    text of errors and the text of JSON are parameters. *)

From S2P Require Import Prelude Core Text Json Auth.

Module PromptLog.
Import Core Json.

(** ** The store of debug records *)

Definition MAX_ENTRIES_PER_KEY : nat := 3.

Record DebugErrorEntry := mkDebug {
  de_request_id : string;
  de_key_hash : string;
  de_key_alias : option string;
  de_model : string;
  de_api_path : string;
  de_is_stream : bool;
  de_created_at : string;
  de_status_code : Z;
  de_error_type : string;
  de_error_message : string;
  de_upstream_status : option Z;
  de_upstream_body : option string;
  de_request_body : option string;
}.

Record DebugErrorStore := mkStore {
  is_enabled : bool;
  entries : gmap string DebugErrorEntry;
  key_index : gmap string (list string);
}.

Definition new_store : DebugErrorStore := mkStore false ∅ ∅.

Definition set_enabled (enabled : bool) (s : DebugErrorStore) : DebugErrorStore :=
  if enabled then mkStore true (entries s) (key_index s) else mkStore false ∅ ∅.

Fixpoint evict (ids : list string) (m : gmap string DebugErrorEntry) : list string * gmap string DebugErrorEntry :=
  match ids with
  | [] => ([], m)
  | old_id :: ids' => if (MAX_ENTRIES_PER_KEY <? length ids)%nat then evict ids' (delete old_id m) else (ids, m)
  end.

Definition record (entry : DebugErrorEntry) (s : DebugErrorStore) : DebugErrorStore :=
  if is_enabled s then
    let m := <[de_request_id entry := entry]> (entries s) in
    let ids := default [] (key_index s !! de_key_hash entry) ++ [de_request_id entry] in
    let r := evict ids m in mkStore true r.2 (<[de_key_hash entry := r.1]> (key_index s))
  else s.

Definition get_entry (s : DebugErrorStore) (request_id : string) : option DebugErrorEntry := entries s !! request_id.
Definition list_for_key (s : DebugErrorStore) (key_hash : string) : list DebugErrorEntry :=
  match key_index s !! key_hash with Some ids => omap (fun id => entries s !! id) ids | None => [] end.
Definition clear (s : DebugErrorStore) : DebugErrorStore := mkStore (is_enabled s) ∅ ∅.
Definition len (s : DebugErrorStore) : nat := size (entries s).

(** ** Errors of the providers *)

Section errors.
Context (display : GatewayError -> string).

Definition debug_worthy (e : GatewayError) : bool :=
  should_log_to_db e && (bool_decide (error_type e = "upstream_error") || bool_decide (error_type e = "provider_error") || bool_decide (error_type e = "timeout")).

Definition upstream_of (e : GatewayError) : option Z * option string :=
  match e with UpstreamError status message => (Some status, Some message) | _ => (None, None) end.

(** The end of [log_error_with_usage]; [created] is the time. *)
Definition debug_error (created : string) (identity : Auth.AuthIdentity) (model api_path : string) (is_stream : bool) (error : GatewayError) (request_id request_body : option string) (s : DebugErrorStore) : DebugErrorStore :=
  if is_enabled s && debug_worthy error then
    let rid := default "" request_id in
    if bool_decide (rid = "") then s
    else record (mkDebug rid (Auth.id_key_hash identity) (Auth.key_alias identity) model api_path is_stream created (status_code error) (error_type error) (display error)
                   (upstream_of error).1 (upstream_of error).2 request_body) s
  else s.
End errors.

(** ** The configuration of the prompt log *)

Record PromptLogConfig := mkConfig {
  enabled : bool;
  dir : string;
  max_file_size_mb : Z;
  capture_raw_upstream : bool;
  excluded_keys : list string;
  excluded_teams : list string;
  record_headers : list string;
}.

Definition default_config : PromptLogConfig := mkConfig false "/data/prompt_logs" 50 false [] [] [].

Definition contains (l : list string) (x : string) : bool := existsb (fun k => bool_decide (k = x)) l.

Definition should_capture (c : PromptLogConfig) (key_hash : string) (team_id : option string) : bool :=
  if negb (enabled c) then false
  else if contains (excluded_keys c) key_hash then false
  else match team_id with Some tid => negb (contains (excluded_teams c) tid) | None => true end.

Definition with_enabled (c : PromptLogConfig) (b : bool) : PromptLogConfig :=
  mkConfig b (dir c) (max_file_size_mb c) (capture_raw_upstream c) (excluded_keys c) (excluded_teams c) (record_headers c).
Definition with_capture_raw_upstream (c : PromptLogConfig) (b : bool) : PromptLogConfig :=
  mkConfig (enabled c) (dir c) (max_file_size_mb c) b (excluded_keys c) (excluded_teams c) (record_headers c).

Definition listed (l : list string) (x : string) (excluded : bool) : list string :=
  if excluded then (if contains l x then l else l ++ [x]) else retain (fun k => negb (bool_decide (k = x))) l.
Definition with_key_excluded (c : PromptLogConfig) (key_hash : string) (excluded : bool) : PromptLogConfig :=
  mkConfig (enabled c) (dir c) (max_file_size_mb c) (capture_raw_upstream c) (listed (excluded_keys c) key_hash excluded) (excluded_teams c) (record_headers c).
Definition with_team_excluded (c : PromptLogConfig) (team_id : string) (excluded : bool) : PromptLogConfig :=
  mkConfig (enabled c) (dir c) (max_file_size_mb c) (capture_raw_upstream c) (excluded_keys c) (listed (excluded_teams c) team_id excluded) (record_headers c).

(** ** The switches of the dashboard *)

(** The store and the live configuration of the writer. *)
Record Switches := mkSwitches { debug_store : DebugErrorStore; prompt_config : PromptLogConfig }.
Definition set_config (s : Switches) (c : PromptLogConfig) : Switches := mkSwitches (debug_store s) c.

Definition toggle_debug (b : bool) (s : Switches) : Switches * Value :=
  (mkSwitches (set_enabled b (debug_store s)) (with_capture_raw_upstream (with_enabled (prompt_config s) true) b), VObject [("ok", VBool true); ("enabled", VBool b)]).
Definition toggle_prompt_log (b : bool) (s : Switches) : Switches * Value :=
  (set_config s (with_enabled (prompt_config s) b), VObject [("ok", VBool true); ("enabled", VBool b)]).
Definition toggle_team_prompt_log (team_id : string) (excluded : bool) (s : Switches) : Switches * Value :=
  (set_config s (with_team_excluded (prompt_config s) team_id excluded), VObject [("ok", VBool true); ("team_id", VString team_id); ("excluded", VBool excluded)]).
Definition toggle_key_prompt_log (key_hash : string) (excluded : bool) (s : Switches) : Switches * Value :=
  (set_config s (with_key_excluded (prompt_config s) key_hash excluded), VObject [("ok", VBool true); ("key_hash", VString key_hash); ("excluded", VBool excluded)]).

Definition get_debug_status (s : Switches) : Value :=
  VObject [("enabled", VBool (is_enabled (debug_store s))); ("entries", vint (Z.of_nat (len (debug_store s))))].
Definition get_prompt_log_status (s : Switches) : Value :=
  VObject [("enabled", VBool (enabled (prompt_config s))); ("excluded_keys", VArray (VString <$> excluded_keys (prompt_config s)));
           ("excluded_teams", VArray (VString <$> excluded_teams (prompt_config s)))].

(** The reload of the configuration file: what the file says replaces what the dashboard set;
    a section that does not parse leaves it. *)
Definition reload_prompt_log (section : option (option PromptLogConfig)) (s : Switches) : Switches :=
  match section with
  | Some (Some pc) => set_config s pc
  | Some None => s
  | None => set_config s default_config
  end.

(** ** Entries *)

Record PromptLogEntry := mkEntry {
  request_id : string;
  en_timestamp : string;
  key_hash : string;
  team_alias : option string;
  en_model : string;
  en_api_path : string;
  is_stream : bool;
  en_status_code : option Z;
  duration_ms : option Z;
  error_message : option string;
  client_ip : option string;
  domain_account : option string;
  headers : option (gmap string string);
  request : Value;
  response : option Value;
  raw_upstream_response : option Value;
}.

Definition domain_of (key_alias : option string) : option string := a ← key_alias; snd <$> rsplit_once " " a.

Definition new_entry (now rid key : string) (alias team : option string) (model path : string) (stream : bool) (body : Value) (ip : option string) (hs : option (gmap string string)) : PromptLogEntry :=
  mkEntry rid now key team model path stream None None None ip (domain_of alias) hs body None None.
Definition set_response (e : PromptLogEntry) (v : Value) : PromptLogEntry :=
  mkEntry (request_id e) (en_timestamp e) (key_hash e) (team_alias e) (en_model e) (en_api_path e) (is_stream e) (en_status_code e) (duration_ms e) (error_message e) (client_ip e)
    (domain_account e) (headers e) (request e) (Some v) (raw_upstream_response e).
Definition set_raw_upstream_response (e : PromptLogEntry) (v : Value) : PromptLogEntry :=
  mkEntry (request_id e) (en_timestamp e) (key_hash e) (team_alias e) (en_model e) (en_api_path e) (is_stream e) (en_status_code e) (duration_ms e) (error_message e) (client_ip e)
    (domain_account e) (headers e) (request e) (response e) (Some v).
Definition set_status (e : PromptLogEntry) (status ms : Z) : PromptLogEntry :=
  mkEntry (request_id e) (en_timestamp e) (key_hash e) (team_alias e) (en_model e) (en_api_path e) (is_stream e) (Some status) (Some ms) (error_message e) (client_ip e)
    (domain_account e) (headers e) (request e) (response e) (raw_upstream_response e).
Definition set_error (e : PromptLogEntry) (m : string) : PromptLogEntry :=
  mkEntry (request_id e) (en_timestamp e) (key_hash e) (team_alias e) (en_model e) (en_api_path e) (is_stream e) (en_status_code e) (duration_ms e) (Some m) (client_ip e)
    (domain_account e) (headers e) (request e) (response e) (raw_upstream_response e).

(** The fields that are absent are left out. *)
Definition shown_if {A} (k : string) (f : A -> Value) (a : option A) : Object := match a with Some x => [(k, f x)] | None => [] end.
Definition headers_json (m : gmap string string) : Value := VObject ((fun x => (x.1, VString x.2)) <$> map_to_list m).
Definition ser_entry (e : PromptLogEntry) : Value :=
  VObject ([("request_id", VString (request_id e)); ("timestamp", VString (en_timestamp e)); ("key_hash", VString (key_hash e))]
    ++ shown_if "team_alias" VString (team_alias e)
    ++ [("model", VString (en_model e)); ("api_path", VString (en_api_path e)); ("is_stream", VBool (is_stream e))]
    ++ shown_if "status_code" vint (en_status_code e) ++ shown_if "duration_ms" vint (duration_ms e) ++ shown_if "error_message" VString (error_message e)
    ++ shown_if "client_ip" VString (client_ip e) ++ shown_if "domain_account" VString (domain_account e) ++ shown_if "headers" headers_json (headers e)
    ++ [("request", request e)] ++ shown_if "response" id (response e) ++ shown_if "raw_upstream_response" id (raw_upstream_response e)).

(** ** Streams *)

Section stream.
Context {Item : Type} (raw_data : Item -> option string) (from_str : string -> option Value).

Record PromptLogStream := mkStream { ps_entry : option PromptLogEntry; event_count : Z; chunks : list Value; raw_upstream_chunks : option (list string) }.

Definition new_stream (e : PromptLogEntry) (raw : option (list string)) : PromptLogStream := mkStream (Some e) 0 [] raw.

(** An item that passes. *)
Definition on_item (s : PromptLogStream) (i : Item) : PromptLogStream :=
  mkStream (ps_entry s) (u64_add (event_count s) 1) (match raw_data i ≫= from_str with Some v => chunks s ++ [v] | None => chunks s end) (raw_upstream_chunks s).

(** [Drop]: the entry that is sent.  The buffer of the raw upstream is read at this point. *)
Definition finished (ms : Z) (s : PromptLogStream) (e : PromptLogEntry) : PromptLogEntry :=
  let e := set_response e (VObject [("stream", VBool true); ("event_count", vint (event_count s)); ("chunks", VArray (chunks s))]) in
  let e := set_status e 200 ms in
  match raw_upstream_chunks s with
  | Some (c :: raw) =>
    let values := omap from_str (c :: raw) in
    set_raw_upstream_response e (VObject [("stream", VBool true); ("raw_chunk_count", vint (Z.of_nat (length values))); ("raw_chunks", VArray values)])
  | _ => e
  end.
Definition on_drop (ms : Z) (s : PromptLogStream) : PromptLogStream * list PromptLogEntry :=
  match ps_entry s with
  | Some e => (mkStream None (event_count s) (chunks s) (raw_upstream_chunks s), [finished ms s e])
  | None => (s, [])
  end.
End stream.

(** ** Capture *)

Section capture.
Context (to_str : string -> option string).

(** The headers of the request that the configuration names; the names of a [HeaderMap] are
    in lower case already. *)
Definition keep_header (allow : list string) (m : gmap string string) (h : string * string) : gmap string string :=
  let name := to_ascii_lowercase h.1 in
  if contains allow name then match to_str h.2 with Some v => <[name := v]> m | None => m end else m.
Definition captured_headers (c : PromptLogConfig) (hs : list (string * string)) : option (gmap string string) :=
  match record_headers c with
  | [] => None
  | allow => let m := foldl (keep_header allow) ∅ hs in if bool_decide (m = ∅) then None else Some m
  end.

(** The entry that [chat_completions] starts with, of a request that is captured; without the
    body there is none. *)
Definition chat_entry (c : PromptLogConfig) (now rid : string) (id : Auth.AuthIdentity) (model path ip : string) (stream : bool) (body : option Value) (hs : list (string * string)) : option PromptLogEntry :=
  if should_capture c (Auth.id_key_hash id) (Auth.id_team_id id)
  then (fun b => new_entry now rid (Auth.id_key_hash id) (Auth.key_alias id) (Auth.team_alias id) model path stream b (Some ip) (captured_headers c hs)) <$> body
  else None.

(** The answer that is not streamed. *)
Definition chat_answered (resp : option Value) (ms : Z) (e : PromptLogEntry) : PromptLogEntry := set_status (set_response e (default VNull resp)) 200 ms.
End capture.

(** ** The store refines a log *)

(** What is asked of the store, and the log of what was recorded since it was last emptied. *)
Inductive StoreOp := Record_ (e : DebugErrorEntry) | SetEnabled (b : bool) | Clear.
Definition run_op (s : DebugErrorStore) (o : StoreOp) : DebugErrorStore :=
  match o with Record_ e => record e s | SetEnabled b => set_enabled b s | Clear => clear s end.
Definition log_op (l : bool * list DebugErrorEntry) (o : StoreOp) : bool * list DebugErrorEntry :=
  match o with
  | Record_ e => if l.1 then (true, l.2 ++ [e]) else l
  | SetEnabled b => (b, if b then l.2 else [])
  | Clear => (l.1, [])
  end.

Definition of_key (k : string) (l : list DebugErrorEntry) : list DebugErrorEntry := retain (fun e => bool_decide (de_key_hash e = k)) l.
Definition last3 {A} (l : list A) : list A := drop (length l - MAX_ENTRIES_PER_KEY) l.

(** What is dropped when an element is added. *)
Definition dropped {A} (l : list A) : list A := if (MAX_ENTRIES_PER_KEY <=? length l)%nat then take 1 (last3 l) else [].

Lemma last3_snoc {A} (l : list A) x : dropped l ++ last3 (l ++ [x]) = last3 l ++ [x].
Proof.
  unfold dropped, last3, MAX_ENTRIES_PER_KEY. rewrite length_app. destruct (Nat.leb_spec 3 (length l)); simpl length.
  - rewrite (drop_app_le l [x]) by lia. rewrite app_assoc. f_equal.
    replace (length l + 1 - 3)%nat with ((length l - 3) + 1)%nat by lia. rewrite <- drop_drop. apply take_drop.
  - replace (length l + 1 - 3)%nat with 0%nat by lia. replace (length l - 3)%nat with 0%nat by lia. done.
Qed.

Lemma last3_sub {A} (l : list A) x : x ∈ last3 l -> x ∈ l.
Proof. unfold last3. intros H. rewrite <- (take_drop (length l - MAX_ENTRIES_PER_KEY) l). apply elem_of_app. by right. Qed.

Lemma dropped_in {A} (l : list A) x : x ∈ dropped l -> x ∈ l.
Proof.
  unfold dropped. destruct (_ <=? _)%nat; [| by intros ?%elem_of_nil]. intros H. apply last3_sub.
  rewrite <- (take_drop 1 (last3 l)). apply elem_of_app. by left.
Qed.

Lemma last3_length {A} (l : list A) : (length (last3 l) <= 3)%nat.
Proof. unfold last3, MAX_ENTRIES_PER_KEY. rewrite length_drop. lia. Qed.

Lemma last3_nodup {A} (l : list A) : NoDup l -> NoDup (last3 l).
Proof. unfold last3. intros H. rewrite <- (take_drop (length l - MAX_ENTRIES_PER_KEY) l) in H. by apply NoDup_app in H as (_ & _ & ?). Qed.

Lemma evict_short (l : list string) m : (length l <= 3)%nat -> evict l m = (l, m).
Proof. intros H. destruct l as [| y k]; [done |]. cbn [evict]. unfold MAX_ENTRIES_PER_KEY. destruct (Nat.ltb_spec 3 (length (y :: k))); [lia | done]. Qed.

Lemma evict_dropped (f : DebugErrorEntry -> string) (l : list DebugErrorEntry) x m :
  evict (f <$> last3 l ++ [x]) m = (f <$> last3 (l ++ [x]), foldr (fun e m => delete (f e) m) m (dropped l)).
Proof.
  pose proof (last3_snoc l x) as Hs. rewrite <- Hs. unfold dropped in *. pose proof (last3_length (l ++ [x])) as Hl.
  destruct (Nat.leb_spec MAX_ENTRIES_PER_KEY (length l)) as [H | H].
  - assert (length (last3 l) = 3%nat) as H3 by (unfold last3, MAX_ENTRIES_PER_KEY in *; rewrite length_drop; lia).
    destruct (last3 l) as [| a [| b [| c [|]]]]; try done. simpl in Hs. injection Hs as ->. done.
  - simpl. apply evict_short. by rewrite length_fmap.
Qed.

Definition keeps (l : list DebugErrorEntry) (e : DebugErrorEntry) : Prop := e ∈ last3 (of_key (de_key_hash e) l).

Record Refines (s : DebugErrorStore) (l : bool * list DebugErrorEntry) : Prop := {
  rf_enabled : is_enabled s = l.1;
  rf_index k : default [] (key_index s !! k) = de_request_id <$> last3 (of_key k l.2);
  rf_entry id e : entries s !! id = Some e <-> de_request_id e = id /\ keeps l.2 e;
}.

Lemma of_key_app k l e : of_key k (l ++ [e]) = if bool_decide (de_key_hash e = k) then of_key k l ++ [e] else of_key k l.
Proof. unfold of_key. rewrite retain_app, retain_cons. destruct (bool_decide _); [done | by rewrite app_nil_r]. Qed.

Lemma keeps_in l e : keeps l e -> e ∈ l.
Proof. intros H%last3_sub. by apply elem_of_retain in H as [_ ?]. Qed.

Lemma unique_id (l : list DebugErrorEntry) e e' :
  NoDup (de_request_id <$> l) -> e ∈ l -> e' ∈ l -> de_request_id e = de_request_id e' -> e = e'.
Proof.
  intros Hn (i & Hi)%list_elem_of_lookup (j & Hj)%list_elem_of_lookup He. assert (i = j) as ->; [| congruence].
  apply (NoDup_lookup _ i j (de_request_id e) Hn); rewrite list_lookup_fmap; [by rewrite Hi | by rewrite Hj, He].
Qed.

Lemma deleted_lookup (m : gmap string DebugErrorEntry) (d : list DebugErrorEntry) id :
  foldr (fun e m => delete (de_request_id e) m) m d !! id = if bool_decide (id ∈ de_request_id <$> d) then None else m !! id.
Proof.
  induction d as [| e d IH]; [done |]. cbn [foldr fmap list_fmap]. destruct (decide (de_request_id e = id)) as [<- | E].
  - rewrite lookup_delete_eq, bool_decide_eq_true_2; [done | by left].
  - rewrite lookup_delete_ne, IH by done. erewrite bool_decide_ext; [done |]. rewrite elem_of_cons. naive_solver.
Qed.

Lemma keeps_snoc l e0 e :
  NoDup (de_request_id <$> l ++ [e0]) ->
  keeps (l ++ [e0]) e <-> e = e0 \/ (keeps l e /\ ¬ (e ∈ dropped (of_key (de_key_hash e0) l))).
Proof.
  intros Hn. unfold keeps at 1. rewrite of_key_app. assert (NoDup (l ++ [e0])) as Hn' by (by eapply NoDup_fmap_1).
  case_bool_decide as E.
  - pose proof (last3_snoc (of_key (de_key_hash e) l) e0) as Hs. rewrite E in *.
    assert (NoDup (of_key (de_key_hash e) l ++ [e0])) as Hd.
    { pose proof (NoDup_filter (fun x => bool_decide (de_key_hash x = de_key_hash e) = true) _ Hn') as Hf. change (NoDup (of_key (de_key_hash e) (l ++ [e0]))) in Hf.
      by rewrite of_key_app, bool_decide_eq_true_2 in Hf. }
    assert (NoDup (last3 (of_key (de_key_hash e) l) ++ [e0])) as Hl.
    { apply NoDup_app in Hd as (H1 & H2 & H3). apply NoDup_app. split_and!; [by apply last3_nodup | intros x Hx%last3_sub; by apply H2 | done]. }
    rewrite <- Hs in Hl. apply NoDup_app in Hl as (_ & Hl & _). unfold keeps.
    assert (e ∈ dropped (of_key (de_key_hash e) l) ++ last3 (of_key (de_key_hash e) l ++ [e0]) <-> e ∈ last3 (of_key (de_key_hash e) l) ++ [e0]) as Hi by (by rewrite Hs).
    rewrite !elem_of_app, list_elem_of_singleton in Hi. specialize (Hl e).
    assert (e = e0 -> ¬ (e ∈ dropped (of_key (de_key_hash e) l))) as Hx.
    { intros -> Hx%dropped_in. apply NoDup_app in Hd as (_ & Hd & _). apply (Hd e0); [done | by left]. }
    tauto.
  - fold (keeps l e). split; [| intros [-> | [? _]]; done]. intros H. right. split; [done |]. intros Hx%dropped_in. apply elem_of_retain in Hx as [Hx%bool_decide_eq_true _]. congruence.
Qed.

Lemma record_refines s l e :
  NoDup (de_request_id <$> l ++ [e]) -> Refines s (true, l) -> Refines (record e s) (true, l ++ [e]).
Proof.
  intros Hn [He Hi Hr]. unfold record. simpl in *. rewrite He, Hi. rewrite <- (fmap_app de_request_id _ [e]), evict_dropped. split; simpl.
  - done.
  - intros k. rewrite of_key_app. destruct (decide (de_key_hash e = k)) as [<- | E].
    + by rewrite lookup_insert_eq, bool_decide_eq_true_2.
    + by rewrite lookup_insert_ne, bool_decide_eq_false_2.
  - intros id e'. rewrite deleted_lookup, (keeps_snoc _ _ _ Hn). set (d := dropped (of_key (de_key_hash e) l)).
    assert (forall x, x ∈ d -> x ∈ l) as Hd.
    { intros x Hx%dropped_in. by apply elem_of_retain in Hx as [_ ?]. }
    assert (forall x, x ∈ l -> de_request_id x ≠ de_request_id e) as Hf.
    { intros x Hx E. rewrite fmap_app in Hn. apply NoDup_app in Hn as (_ & Hn & _). apply (Hn (de_request_id x)); [by apply list_elem_of_fmap_2 | rewrite E; by left]. }
    assert (NoDup (de_request_id <$> l)) as Hl by (rewrite fmap_app in Hn; by apply NoDup_app in Hn as (? & _ & _)).
    case_bool_decide as Ed.
    + split; [done |]. apply list_elem_of_fmap in Ed as (x & -> & Hx). intros [Hid [-> | [Hk Hk']]]; exfalso; [by apply (Hf x (Hd x Hx)) |].
      apply Hk'. by rewrite (unique_id l e' x Hl (keeps_in _ _ Hk) (Hd x Hx) Hid).
    + destruct (decide (de_request_id e = id)) as [<- | E].
      * rewrite lookup_insert_eq. split; [intros [= ->]; by split; [| left] | intros [Hid [-> | [Hk _]]]; [done | exfalso; by apply (Hf e' (keeps_in _ _ Hk))]].
      * rewrite lookup_insert_ne, Hr by done. split; [intros [? ?]; split; [done | right; split; [done |]] | intros [? [-> | [? _]]]; by split].
        intros Hx. apply Ed. subst id. by apply list_elem_of_fmap_2.
Qed.

Definition recorded_ids (ops : list StoreOp) : list string := omap (fun o => match o with Record_ e => Some (de_request_id e) | _ => None end) ops.

Lemma run_refines ops s l :
  NoDup ((de_request_id <$> l.2) ++ recorded_ids ops) -> Refines s l -> Refines (foldl run_op s ops) (foldl log_op l ops).
Proof.
  revert s l. induction ops as [| o ops IH]; intros s [en l] Hn Hr; [done |]. destruct o as [e | b |]; simpl in *.
  - assert ((de_request_id <$> l) ++ de_request_id e :: recorded_ids ops = (de_request_id <$> l ++ [e]) ++ recorded_ids ops) as Ha by (by rewrite fmap_app, <- app_assoc).
    destruct en; apply IH; simpl.
    + by rewrite <- Ha.
    + rewrite Ha in Hn. apply record_refines; [by apply NoDup_app in Hn as (? & _ & _) | done].
    + apply NoDup_app in Hn as (H1 & H2 & H3). apply NoDup_app. apply NoDup_cons in H3 as [_ H3]. split_and!; [done | | done]. intros x Hx Hi. apply (H2 x Hx). by right.
    + unfold record. rewrite (rf_enabled _ _ Hr). done.
  - apply IH; simpl; [destruct b; [done |]; simpl; by apply NoDup_app in Hn as (_ & _ & ?) |].
    destruct Hr as [He Hi Hk]. destruct b; split; simpl in *; try done; intros; rewrite ?lookup_empty.
    split; [done | intros [_ []%keeps_in%elem_of_nil]].
  - apply IH; simpl; [by apply NoDup_app in Hn as (_ & _ & ?) |].
    destruct Hr as [He Hi Hk]. split; simpl in *; try done; intros; rewrite ?lookup_empty.
    split; [done | intros [_ []%keeps_in%elem_of_nil]].
Qed.

(** The store of debug records keeps the last three of each key.  However the switch, the clearing
    and the recordings follow each other, as long as the requests have identifiers of their own, a key
    has exactly its last three records since the store was switched on or emptied, in their order; an
    identifier finds exactly the records that are so kept. *)
Theorem debug_store_exact ops k id e :
  NoDup (recorded_ids ops) ->
  let s := foldl run_op new_store ops in let l := (foldl log_op (false, []) ops).2 in
  list_for_key s k = last3 (of_key k l) /\ (get_entry s id = Some e <-> de_request_id e = id /\ e ∈ last3 (of_key (de_key_hash e) l)).
Proof.
  intros Hn s l. assert (Refines s (foldl log_op (false, []) ops)) as [_ Hi Hr].
  { apply run_refines; [done |]. split; simpl; [done | intros; by rewrite lookup_empty |]. intros. rewrite lookup_empty. split; [done | intros [_ []%keeps_in%elem_of_nil]]. }
  fold l in Hi, Hr. split; [| apply Hr]. unfold list_for_key. specialize (Hi k).
  assert (omap (fun id => entries s !! id) (de_request_id <$> last3 (of_key k l)) = last3 (of_key k l)) as Ho.
  { assert (forall x, x ∈ last3 (of_key k l) -> entries s !! de_request_id x = Some x) as Hx.
    { intros x Hx. apply Hr. split; [done |]. unfold keeps. pose proof (last3_sub _ _ Hx) as [Hk%bool_decide_eq_true _]%elem_of_retain. by rewrite Hk. }
    revert Hx. generalize (last3 (of_key k l)) as q. induction q as [| x q IH]; intros Hx; [done |]. simpl. rewrite (Hx x) by (by left).
    f_equal. apply IH. intros y Hy. apply Hx. by right. }
  destruct (key_index s !! k) as [ids |]; simpl in Hi; [by rewrite Hi |]. symmetry in Hi. apply fmap_nil_inv in Hi. by rewrite Hi.
Qed.

(** ** The switches *)

Lemma contains_spec l x : contains l x = true <-> x ∈ l.
Proof.
  unfold contains. rewrite existsb_exists. setoid_rewrite bool_decide_eq_true. setoid_rewrite <- list_elem_of_In. naive_solver.
Qed.

Lemma contains_listed l x b y : contains (listed l x b) y = if bool_decide (y = x) then b else contains l y.
Proof.
  apply eq_true_iff_eq. rewrite contains_spec. unfold listed. destruct b.
  - destruct (contains l x) eqn:E; [| rewrite elem_of_app, list_elem_of_singleton]; case_bool_decide as D; subst; rewrite ?contains_spec in *; naive_solver.
  - rewrite elem_of_retain, negb_true_iff, bool_decide_eq_false, <- contains_spec. case_bool_decide; naive_solver.
Qed.

(** The switches of the prompt log decide for the keys and teams they name and for no other.  A
    request is captured when the log is on and neither its key nor its team is excluded; excluding a key
    or a team takes it out, including it again gives back what the other exclusions say, and all others
    are as they were. *)
Theorem exclusion_exact c key team k t b :
  (should_capture c key team = enabled c && negb (contains (excluded_keys c) key) && match team with Some tid => negb (contains (excluded_teams c) tid) | None => true end) /\
  should_capture (with_key_excluded c k b) key team = (if bool_decide (key = k) then negb b && should_capture (with_key_excluded c k false) key team else should_capture c key team) /\
  should_capture (with_team_excluded c t b) key team = (if bool_decide (team = Some t) then negb b && should_capture (with_team_excluded c t false) key team else should_capture c key team) /\
  should_capture (with_enabled c b) key team = b && should_capture (with_enabled c true) key team.
Proof.
  assert (forall c, should_capture c key team = enabled c && negb (contains (excluded_keys c) key) && match team with Some tid => negb (contains (excluded_teams c) tid) | None => true end) as H.
  { intros c'. unfold should_capture. by destruct (enabled c'), (contains (excluded_keys c') key). }
  rewrite !H. cbn [with_key_excluded with_team_excluded with_enabled enabled excluded_keys excluded_teams]. rewrite !contains_listed. split_and!; [done | | |].
  - destruct (bool_decide (key = k)); [| done]. destruct b, (enabled c); done.
  - destruct team as [tid |]; [| by rewrite bool_decide_eq_false_2]. rewrite !contains_listed. destruct (decide (tid = t)) as [-> | D].
    + rewrite !bool_decide_eq_true_2 by done. destruct b, (enabled c), (contains (excluded_keys c) key); done.
    + rewrite !bool_decide_eq_false_2 by congruence. done.
  - by destruct b, (contains (excluded_keys c) key).
Qed.

(** The switch of the debug records turns the prompt log on, and off never.  After it, in either
    position, every request of a key and team that are not excluded is captured, whatever the switch of
    the prompt log said; the raw answers of the providers follow the switch.  A reload of a file without
    the section turns the log off, and forgets what the dashboard excluded. *)
Theorem debug_switch_captures b s key team :
  contains (excluded_keys (prompt_config s)) key = false -> (forall t, team = Some t -> contains (excluded_teams (prompt_config s)) t = false) ->
  let s' := (toggle_debug b s).1 in
  should_capture (prompt_config s') key team = true /\ capture_raw_upstream (prompt_config s') = b /\ is_enabled (debug_store s') = b /\
  prompt_config (reload_prompt_log None s') = default_config.
Proof.
  intros Hk Ht s'. split_and!; [| done | by destruct b | done]. unfold should_capture. simpl. rewrite Hk. destruct team as [t |]; [| done]. by rewrite (Ht t).
Qed.

(** ** Streams *)

Section streamed.
Context {Item : Type} (raw_data : Item -> option string) (from_str : string -> option Value).

Lemma items_fold s items :
  event_count s + Z.of_nat (length items) < 2 ^ 64 -> 0 <= event_count s ->
  foldl (on_item raw_data from_str) s items =
  mkStream (ps_entry s) (event_count s + Z.of_nat (length items)) (chunks s ++ omap (fun i => raw_data i ≫= from_str) items) (raw_upstream_chunks s).
Proof.
  revert s. induction items as [| i items IH]; intros s Hc H0; simpl.
  - rewrite app_nil_r, Z.add_0_r. by destruct s.
  - simpl in Hc. assert (u64_add (event_count s) 1 = event_count s + 1) as Hu by (unfold u64_add; apply wrap64_small; unfold is_u64; lia).
    rewrite IH; simpl; rewrite Hu; [| lia | lia]. f_equal; [lia |]. destruct (raw_data i ≫= from_str); [by rewrite <- app_assoc | done].
Qed.

(** A captured stream leaves one entry.  Whenever it ends, at its end or because the client went
    away, dropping it sends exactly one entry, of the request that it was made for, with status 200, the
    number of items that passed and those of them that are JSON, in their order; dropping it again
    sends nothing. *)
Theorem one_entry_per_stream e raw items ms :
  Z.of_nat (length items) < 2 ^ 64 ->
  let r := on_drop from_str ms (foldl (on_item raw_data from_str) (new_stream e raw) items) in
  (exists e', r.2 = [e'] /\ request_id e' = request_id e /\ key_hash e' = key_hash e /\ request e' = request e /\ headers e' = headers e /\
     en_status_code e' = Some 200 /\ duration_ms e' = Some ms /\
     response e' = Some (VObject [("stream", VBool true); ("event_count", vint (Z.of_nat (length items))); ("chunks", VArray (omap (fun i => raw_data i ≫= from_str) items))])) /\
  (on_drop from_str ms r.1).2 = [].
Proof.
  intros Hl r. subst r. rewrite items_fold by (simpl; lia). simpl. split; [| done]. eexists. split; [done |].
  unfold finished. simpl. by destruct raw as [[| c q] |].
Qed.
End streamed.

(** ** Captured headers *)

Lemma to_ascii_lowercase_idem s : to_ascii_lowercase (to_ascii_lowercase s) = to_ascii_lowercase s.
Proof.
  induction s as [| a s IH]; [done |]. cbn [to_ascii_lowercase]. rewrite IH. f_equal. by destruct a as [[] [] [] [] [] [] [] []].
Qed.

Lemma keep_header_fold to_str allow hs m :
  (forall n v, m !! n = Some v -> contains allow n = true /\ n = to_ascii_lowercase n) ->
  forall n v, foldl (keep_header to_str allow) m hs !! n = Some v -> contains allow n = true /\ n = to_ascii_lowercase n.
Proof.
  revert m. induction hs as [| h hs IH]; intros m Hm n v; [apply Hm |]. simpl. apply IH. intros n' v'. unfold keep_header. cbv zeta.
  destruct (contains allow (to_ascii_lowercase h.1)) eqn:Ec; [| apply Hm]. destruct (to_str h.2); [| apply Hm].
  destruct (decide (to_ascii_lowercase h.1 = n')) as [<- | D]; [| rewrite lookup_insert_ne by done; apply Hm].
  intros _. split; [done |]. symmetry. apply to_ascii_lowercase_idem.
Qed.

(** An entry holds no header that the configuration does not name.  The headers that are kept are
    among the names it lists, and with none listed there are none, so that the credentials of a request
    stay out; a name that is listed with a capital letter keeps nothing. *)
Theorem listed_headers_only to_str c hs m n v :
  captured_headers to_str c hs = Some m -> m !! n = Some v -> n ∈ record_headers c /\ to_ascii_lowercase n = n.
Proof.
  unfold captured_headers. destruct (record_headers c) as [| a l] eqn:E; [done |]. cbv zeta. rewrite <- E. case_bool_decide; [done |]. intros [= <-] Hn.
  destruct (keep_header_fold to_str (record_headers c) hs ∅) with (n := n) (v := v) as [Hc Hl]; [intros ? ? Hx; by rewrite lookup_empty in Hx | by rewrite E in Hn |- * |].
  split; [by apply contains_spec | by symmetry].
Qed.

(** ** Witnesses *)

Definition demo_debug (id : string) : DebugErrorEntry := mkDebug id "k" None "m" "/v1/messages" false "" 502 "upstream_error" "" (Some 500) None None.
Definition demo_ops : list StoreOp := [Record_ (demo_debug "0"); SetEnabled true; Record_ (demo_debug "1"); Record_ (demo_debug "2"); Record_ (demo_debug "3"); Record_ (demo_debug "4")].

Lemma demo_ids : NoDup (recorded_ids demo_ops).
Proof. refine (bool_decide_eq_true_1 (NoDup (recorded_ids demo_ops)) _). by vm_compute. Qed.

Lemma debug_store_exact_witness :
  list_for_key (foldl run_op new_store demo_ops) "k" = [demo_debug "2"; demo_debug "3"; demo_debug "4"] /\
  list_for_key (foldl run_op new_store demo_ops) "k" = last3 (of_key "k" (foldl log_op (false, []) demo_ops).2).
Proof. split; [by vm_compute |]. exact (proj1 (debug_store_exact demo_ops "k" "1" (demo_debug "1") demo_ids)). Defined.

Lemma debug_switch_captures_witness :
  should_capture default_config "k" None = false /\ should_capture (prompt_config (toggle_debug false (mkSwitches new_store default_config)).1) "k" None = true.
Proof.
  split; [done |]. refine (proj1 (debug_switch_captures false (mkSwitches new_store default_config) "k" None _ _)); [done | discriminate].
Defined.

Definition demo_entry : PromptLogEntry := new_entry "now" "r1" "k" (Some "Ada al12345") None "m" "/v1/messages" true VNull None None.

Lemma one_entry_per_stream_witness :
  domain_account demo_entry = Some "al12345" /\
  (on_drop (fun s => Some (VString s)) 7 (on_drop (fun s => Some (VString s)) 7 (foldl (on_item Some (fun s => Some (VString s))) (new_stream demo_entry None) ["a"; "b"])).1).2 = [].
Proof.
  split; [by vm_compute |]. pose proof (one_entry_per_stream Some (fun s => Some (VString s)) demo_entry None ["a"; "b"] 7 ltac:(by vm_compute)) as H.
  exact (proj2 H).
Defined.

Lemma listed_headers_only_witness :
  exists m, captured_headers Some (mkConfig true "" 1 false [] [] ["user-agent"; "X-Team"]) [("authorization", "secret"); ("user-agent", "curl"); ("x-team", "a")] = Some m /\
    m !! "user-agent" = Some "curl" /\ m !! "authorization" = None /\ m !! "x-team" = None /\ "user-agent" ∈ ["user-agent"; "X-Team"].
Proof.
  eexists. split; [by vm_compute |]. split; [by vm_compute |]. split; [by vm_compute |]. split; [by vm_compute |].
  eapply (listed_headers_only Some (mkConfig true "" 1 false [] [] ["user-agent"; "X-Team"]) [("authorization", "secret"); ("user-agent", "curl"); ("x-team", "a")] _ "user-agent" "curl").
  - by vm_compute.
  - by vm_compute.
Defined.
End PromptLog.
