(* ===== verification/PromptFiles.v ===== *)
(** * PromptFiles: the files of the prompt log (boom-promptlog, boom-dashboard)

    Models [writer.rs] of [boom-promptlog], the task that writes the entries to files and
    compresses those it has left, and [get_prompt_log_entry] of
    [boom-dashboard/src/handlers_admin.rs], which looks an entry up.  A directory is the text
    of its path and a file a name in it; a handle is the path it was opened with, and what is
    written to a file that was removed is lost.  The outcome of every operation on files is an
    argument, the compressions are steps between the entries, and gzip and the text of JSON
    are parameters. *)

From S2P Require Import Prelude Core Text Json Rebalance Sse PromptLog.

Module PromptFiles.
Import Core Json PromptLog.

(** ** Paths and names *)

Notation Path := (string * string)%type.
Notation FS := (gmap Path string).

(** [PathBuf::join]: an absolute path replaces what is before it. *)
Definition join (base p : string) : string :=
  if starts_with "/" p then p else if bool_decide (base = "") then p
  else if starts_with "/" (string_rev base) then base +:+ p else base +:+ "/" +:+ p.

Definition team_dir (e : PromptLogEntry) : string := default "_no_team" (team_alias e).
Definition key_dir (c : PromptLogConfig) (e : PromptLogEntry) : string := join (join (dir c) (team_dir e)) (key_hash e).
Definition file_key (e : PromptLogEntry) : string := team_dir e +:+ "/" +:+ key_hash e.

(** [{:06}] *)
Fixpoint zeros (n : nat) : string := match n with O => "" | S n => String "0" (zeros n) end.
Definition pad6 (s : string) : string := zeros (6 - String.length s) +:+ s.
Definition log_name (n : Z) : string := "log_" +:+ pad6 (show n) +:+ ".jsonl".
Definition gz_of (p : Path) : Path := (p.1, p.2 +:+ ".gz").

Definition jsonl_seq (name : string) : option Z := s ← strip_prefix "log_" name; d ← strip_suffix ".jsonl" s; parse_u64 d.
Definition gz_seq (name : string) : option Z := s ← strip_prefix "log_" name; d ← strip_suffix ".jsonl.gz" s; parse_u64 d.

(** [read_dir] *)
Definition names_in (d : string) (fs : FS) : list string := snd <$> retain (fun p => bool_decide (p.1 = d)) (map_to_list fs).*1.

Definition maximum (l : list Z) : Z := foldr Z.max 0 l.

(** [find_max_sequence_and_stale]; an error of [read_dir] is [false]. *)
Definition find_max_sequence_and_stale (ok : bool) (d : string) (fs : FS) : Z * list Z :=
  if ok then
    let js := omap jsonl_seq (names_in d fs) in
    let gs := omap gz_seq (names_in d fs) in
    (u64_add (maximum (js ++ gs)) 1, retain (fun s => (s <? maximum js) && negb (bool_decide (s ∈ gs))) js)
  else (1, []).

(** ** The writer *)

Record OpenFile := mkOpen { file : Path; of_size : Z; sequence : Z }.
(** The files, the open ones by team and key, and the compressions that were spawned: each a
    list of paths to compress in turn. *)
Record Writer := mkWriter { fs : FS; open_files : gmap string OpenFile; tasks : list (list Path) }.

(** The outcomes for an entry: directory, listing, open, metadata, create; a failed write of
    the line leaves some of its bytes. *)
Record Io := mkIo { io_mkdir : bool; io_read_dir : bool; io_open : bool; io_metadata : bool; io_create : bool; io_line : option nat; io_newline : bool }.
Definition good_io : Io := mkIo true true true true true None true.

Definition newline : string := String "010" "".
Definition bytes (s : string) : Z := Z.of_nat (String.length s).

Definition append_file (p : Path) (text : string) (m : FS) : FS := match m !! p with Some c => <[p := c +:+ text]> m | None => m end.

(** The open file of the key, opened when there is none. *)
Definition get_open (io : Io) (d fk : string) (w : Writer) : Writer * option OpenFile :=
  match open_files w !! fk with
  | Some o => (w, Some o)
  | None =>
    let scan := find_max_sequence_and_stale (io_read_dir io) d (fs w) in
    let ts := match scan.2 with [] => tasks w | stale => tasks w ++ [(fun s => (d, log_name s)) <$> stale] end in
    let path := (d, log_name scan.1) in
    if io_open io then
      let m := match fs w !! path with Some _ => fs w | None => <[path := ""]> (fs w) end in
      let o := mkOpen path (if io_metadata io then bytes (default "" (m !! path)) else 0) scan.1 in
      (mkWriter m (<[fk := o]> (open_files w)) ts, Some o)
    else (mkWriter (fs w) (open_files w) ts, None)
  end.

(** [File::create] empties a file that is there. *)
Definition rotate (io : Io) (max_bytes line_bytes : Z) (d fk : string) (o : OpenFile) (w : Writer) : Writer * option OpenFile :=
  if (0 <? of_size o) && (max_bytes <? u64_add (of_size o) line_bytes) then
    let new_seq := u64_add (sequence o) 1 in
    let o' := mkOpen (d, log_name new_seq) 0 new_seq in
    if io_create io then (mkWriter (<[file o' := ""]> (fs w)) (<[fk := o']> (open_files w)) (tasks w ++ [[(d, log_name (sequence o))]]), Some o')
    else (w, None)
  else (w, Some o).

Definition written (io : Io) (line : string) : string :=
  match io_line io with None => line | Some n => String.substring 0 n line end +:+ (if io_newline io then newline else "").

Definition write_line (io : Io) (line fk : string) (o : OpenFile) (w : Writer) : Writer :=
  mkWriter (append_file (file o) (written io line) (fs w)) (<[fk := mkOpen (file o) (u64_add (of_size o) (bytes line + 1)) (sequence o)]> (open_files w)) (tasks w).

Definition max_bytes (c : PromptLogConfig) : Z := u64_mul (u64_mul (max_file_size_mb c) 1024) 1024.

Section writer.
Context (to_string : Value -> option string) (gzip : string -> string).

(** An entry that is received, under the configuration of that moment. *)
Definition on_entry (c : PromptLogConfig) (io : Io) (e : PromptLogEntry) (w : Writer) : Writer :=
  if io_mkdir io then
    match to_string (ser_entry e) with
    | None => w
    | Some line =>
      match get_open io (key_dir c e) (file_key e) w with
      | (w, None) => w
      | (w, Some o) =>
        match rotate io (max_bytes c) (bytes line) (key_dir c e) (file_key e) o w with
        | (w, None) => w
        | (w, Some o) => write_line io line (file_key e) o w
        end
      end
    end
  else w.

(** The outcomes of a compression; a failed write leaves something, or nothing, behind. *)
Inductive GzWrite := GzOk | GzFailed (left : option string).
Record GzIo := mkGzIo { gz_read : bool; gz_write : GzWrite; gz_remove : bool }.

Definition compress_file (io : GzIo) (p : Path) (m : FS) : FS :=
  match m !! p with
  | Some data =>
    if gz_read io then
      match gz_write io with
      | GzFailed None => m
      | GzFailed (Some part) => <[gz_of p := part]> m
      | GzOk => let m := <[gz_of p := gzip data]> m in if gz_remove io then delete p m else m
      end
    else m
  | None => m
  end.

(** The next file of one of the tasks. *)
Definition on_compress (i : nat) (io : GzIo) (w : Writer) : Writer :=
  match tasks w !! i with
  | Some (p :: rest) => mkWriter (compress_file io p (fs w)) (open_files w) (<[i := rest]> (tasks w))
  | _ => w
  end.

Inductive Event := Received (c : PromptLogConfig) (io : Io) (e : PromptLogEntry) | Compressed (i : nat) (io : GzIo).
Definition step (w : Writer) (v : Event) : Writer :=
  match v with Received c io e => on_entry c io e w | Compressed i io => on_compress i io w end.
End writer.

Definition start (m : FS) : Writer := mkWriter m ∅ [].

(** ** The viewer *)

Section viewer.
Context (from_str : string -> option Value).

Definition name_ge (a b : string) : Prop := String.leb b a = true.
#[local] Instance name_ge_dec : RelDecision name_ge := fun a b => decide (String.leb b a = true).

Definition log_files (d : string) (m : FS) : list string :=
  merge_sort name_ge (retain (fun n => starts_with "log_" n && starts_with (string_rev ".jsonl") (string_rev n)) (names_in d m)).

Definition is_request (rid : string) (v : Value) : bool := match get v "request_id" ≫= as_str with Some r => bool_decide (r = rid) | None => false end.
Definition line_entry (rid line : string) : option Value :=
  if bool_decide (trim line = "") then None else v ← from_str line; if is_request rid v then Some v else None.

Inductive Found := NoDirectory | NotFound | Entry (v : Value).

(** [ok]: the directory can be read. *)
Definition get_prompt_log_entry (ok : bool) (c : PromptLogConfig) (m : FS) (rid key : string) (team : option string) : Found :=
  if ok then
    let d := join (join (dir c) (default "_no_team" team)) key in
    match head (omap (fun n => head (omap (line_entry rid) (Sse.lines (default "" (m !! (d, n)))))) (log_files d m)) with
    | Some v => Entry v
    | None => NotFound
    end
  else NoDirectory.
End viewer.

(** ** Names *)

Lemma parse_digits_zeros max k s : 0 <= max -> parse_digits max 0 (zeros k +:+ s) = parse_digits max 0 s.
Proof.
  intros Hm. induction k as [| k IH]; [done |]. cbn [zeros]. rewrite append_cons. cbn [parse_digits]. change (digit_value "0"%char) with (Some 0).
  cbv beta iota. destruct (Z.leb_spec (0 * 10 + 0) max); [exact IH | lia].
Qed.

Lemma parse_pad6 n : is_u64 n -> parse_u64 (pad6 (show n)) = Some n.
Proof.
  intros Hn. pose proof (parse_show n Hn) as Hp. unfold pad6. destruct (6 - String.length (show n))%nat as [| k]; [done |].
  assert (parse_digits u64_max 0 (show n) = Some n) as Hd.
  { pose proof (show_no_char "+"%char n ltac:(done)) as Hc. unfold parse_u64, parse_uint in Hp. destruct (show n) as [| a s]; [done |].
    cbn [has_char] in Hc. apply orb_false_iff in Hc as [Hc _]. destruct a as [[] [] [] [] [] [] [] []]; done. }
  cbn [zeros]. rewrite append_cons. change (parse_u64 (String "0" (zeros k +:+ show n))) with (parse_digits u64_max 0 (zeros (S k) +:+ show n)).
  by rewrite parse_digits_zeros.
Qed.

Lemma jsonl_log_name n : is_u64 n -> jsonl_seq (log_name n) = Some n.
Proof. intros Hn. unfold jsonl_seq, log_name. rewrite strip_prefix_app. cbn [mbind option_bind]. rewrite strip_suffix_app. by apply parse_pad6. Qed.

Lemma gz_log_name n : is_u64 n -> gz_seq (log_name n +:+ ".gz") = Some n.
Proof.
  intros Hn. unfold gz_seq, log_name. rewrite append_assoc, strip_prefix_app. cbn [mbind option_bind]. rewrite append_assoc. change (".jsonl" +:+ ".gz") with ".jsonl.gz".
  rewrite strip_suffix_app. by apply parse_pad6.
Qed.

Lemma jsonl_gz_name n : jsonl_seq (log_name n +:+ ".gz") = None.
Proof.
  unfold jsonl_seq, log_name. rewrite append_assoc, strip_prefix_app. cbn [mbind option_bind]. unfold strip_suffix. rewrite append_assoc.
  change (".jsonl" +:+ ".gz") with (".jsonl" +:+ ".gz"). rewrite string_rev_app. change (string_rev (".jsonl" +:+ ".gz")) with "zg.lnosj.". done.
Qed.

Lemma log_name_inj n m : is_u64 n -> is_u64 m -> log_name n = log_name m -> n = m.
Proof. intros Hn Hm E. apply jsonl_log_name in Hn, Hm. congruence. Qed.
Lemma gz_name_inj n m : is_u64 n -> is_u64 m -> log_name n +:+ ".gz" = log_name m +:+ ".gz" -> n = m.
Proof. intros Hn Hm E. apply gz_log_name in Hn, Hm. congruence. Qed.
Lemma log_name_gz n m : is_u64 n -> log_name n <> log_name m +:+ ".gz".
Proof. intros Hn E. apply jsonl_log_name in Hn. by rewrite E, jsonl_gz_name in Hn. Qed.

(** Two names of files are different. *)
Ltac distinct_names :=
  let E := fresh "E" in
  intros E; apply (f_equal snd) in E; cbn [snd] in E;
  first [ by apply log_name_gz in E | symmetry in E; by apply log_name_gz in E
        | apply log_name_inj in E; [congruence | done | done] | apply gz_name_inj in E; [congruence | done | done] ].

Lemma names_in_spec d m n : n ∈ names_in d m <-> is_Some (m !! (d, n)).
Proof.
  unfold names_in. rewrite list_elem_of_fmap. split.
  - intros ([d' n'] & -> & [Hd%bool_decide_eq_true Hp]%elem_of_retain). simpl in *. subst d'. apply list_elem_of_fmap in Hp as ([q v] & Hq & Hv).
    simpl in Hq. subst q. apply elem_of_map_to_list in Hv. by exists v.
  - intros [v Hv]. exists (d, n). split; [done |]. apply elem_of_retain. split; [by apply bool_decide_eq_true |]. apply list_elem_of_fmap. exists ((d, n), v).
    split; [done |]. by apply elem_of_map_to_list.
Qed.

Lemma maximum_le l x : x ∈ l -> x <= maximum l.
Proof. unfold maximum. induction l as [| y l IH]; [by intros ?%elem_of_nil |]. intros [-> | Hx]%elem_of_cons; simpl; [lia |]. specialize (IH Hx). lia. Qed.
Lemma maximum_nonneg l : 0 <= maximum l.
Proof. unfold maximum. induction l; simpl; lia. Qed.
Lemma maximum_app l k : maximum (l ++ k) = Z.max (maximum l) (maximum k).
Proof. unfold maximum. induction l as [| x l IH]; simpl; [pose proof (maximum_nonneg k); unfold maximum in *; lia | rewrite IH; lia]. Qed.

Lemma parse_digits_bounds max acc s n : 0 <= acc -> parse_digits max acc s = Some n -> 0 <= n.
Proof.
  revert acc. induction s as [| a s IH]; intros acc Ha; cbn [parse_digits]; [by intros [= <-] |]. destruct (digit_value a) as [v |] eqn:Ev; [| done].
  destruct (_ <=? max); [| done]. apply IH. unfold digit_value in Ev. destruct (_ && _) eqn:E; [| done]. injection Ev as <-. apply andb_true_iff in E as [E _]. lia.
Qed.

(** ** What a directory holds *)

Section directory.
Context (to_string : Value -> option string) (gzip : string -> string) (gunzip : string -> option string) (gunzip_gzip : forall x, gunzip (gzip x) = Some x).

(** The text of a sequence number, read from the file or else from its compressed form, and of
    all numbers up to [N], in order. *)
Definition content (m : FS) (d : string) (n : Z) : string :=
  match m !! (d, log_name n) with Some c => c | None => match m !! (d, log_name n +:+ ".gz") with Some z => default "" (gunzip z) | None => "" end end.
Definition concat (l : list string) : string := foldr String.append "" l.
Definition text (m : FS) (d : string) (N : Z) : string := concat (content m d <$> seqZ 0 (N + 1)).

Definition agree (d : string) (m m' : FS) : Prop := forall name, m' !! (d, name) = m !! (d, name).
Definition present (m : FS) (d : string) (n : Z) : Prop := is_Some (m !! (d, log_name n)) \/ is_Some (m !! (d, log_name n +:+ ".gz")).

Lemma agree_insert d p v m : p.1 <> d -> agree d m (<[p := v]> m).
Proof. intros Hp name. rewrite lookup_insert_ne; [done |]. intros ->. by apply Hp. Qed.
Lemma agree_trans d m1 m2 m3 : agree d m1 m2 -> agree d m2 m3 -> agree d m1 m3.
Proof. intros H1 H2 name. by rewrite H2, H1. Qed.
Lemma agree_append d p t m : p.1 <> d -> agree d m (append_file p t m).
Proof. intros Hp. unfold append_file. destruct (m !! p); [by apply agree_insert | done]. Qed.
Lemma agree_compress d io p m : p.1 <> d -> agree d m (compress_file gzip io p m).
Proof.
  intros Hp. unfold compress_file. destruct (m !! p) as [x |]; [| done]. destruct (gz_read io); [| done].
  destruct (gz_write io) as [| [part |]]; [| by apply agree_insert | done].
  destruct (gz_remove io); [| by apply agree_insert]. intros name. rewrite lookup_delete_ne by (intros ->; by apply Hp). by apply agree_insert.
Qed.

Lemma agree_content d m m' n : agree d m m' -> content m' d n = content m d n.
Proof. intros H. unfold content. by rewrite !H. Qed.
Lemma agree_text d m m' N : agree d m m' -> text m' d N = text m d N.
Proof. intros H. unfold text. f_equal. apply list_fmap_ext. intros. by apply agree_content. Qed.

Lemma concat_app l k : concat (l ++ k) = concat l +:+ concat k.
Proof. unfold concat. induction l as [| x l IH]; [done |]. simpl. by rewrite IH, append_assoc. Qed.

Lemma concat_empty l : (forall x, x ∈ l -> x = "") -> concat l = "".
Proof. unfold concat. induction l as [| x l IH]; intros H; [done |]. simpl. rewrite (H x) by (by left). apply IH. intros y Hy. apply H. by right. Qed.

(** Text added to the last sequence number is added at the end. *)
Lemma text_extended m m' d N c t :
  0 <= c <= N -> (forall n, 0 <= n <= N -> n <> c -> content m' d n = content m d n) -> (forall n, c < n <= N -> content m d n = "") ->
  content m' d c = content m d c +:+ t -> text m' d N = text m d N +:+ t.
Proof.
  intros Hc Hne Hlast Hcc. unfold text. assert (seqZ 0 (N + 1) = seqZ 0 c ++ c :: seqZ (c + 1) (N - c)) as ->.
  { replace (N + 1) with (c + (1 + (N - c))) by lia. rewrite seqZ_app by lia. f_equal. rewrite Z.add_0_l, seqZ_app by lia. done. }
  rewrite !fmap_app, !fmap_cons, !concat_app.
  assert (concat (content m' d <$> seqZ 0 c) = concat (content m d <$> seqZ 0 c)) as ->.
  { f_equal. apply list_fmap_ext. intros i n Hn. apply list_elem_of_lookup_2, elem_of_seqZ in Hn. apply Hne; lia. }
  assert (forall q, (forall n, c < n <= N -> content q d n = "") -> concat (content q d <$> seqZ (c + 1) (N - c)) = "") as He.
  { intros q Hq. apply concat_empty. intros x (n & -> & Hn%elem_of_seqZ)%list_elem_of_fmap. apply Hq. lia. }
  change (concat (content m' d c :: (content m' d <$> seqZ (c + 1) (N - c)))) with (content m' d c +:+ concat (content m' d <$> seqZ (c + 1) (N - c))).
  change (concat (content m d c :: (content m d <$> seqZ (c + 1) (N - c)))) with (content m d c +:+ concat (content m d <$> seqZ (c + 1) (N - c))).
  rewrite !He; [| done | intros n Hn; rewrite Hne by lia; by apply Hlast]. rewrite Hcc, !append_nil_r. by rewrite append_assoc.
Qed.

Lemma absent_content m d n : ¬ present m d n -> content m d n = "".
Proof.
  unfold present, content. intros H. destruct (m !! (d, log_name n)) eqn:E1; [exfalso; apply H; left; by eexists |].
  destruct (m !! (d, log_name n +:+ ".gz")) eqn:E2; [exfalso; apply H; right; by eexists | done].
Qed.

(** A new file of a number that is not there changes nothing that is read. *)
Lemma content_create m d c n : is_u64 n -> is_u64 c -> ¬ present m d c -> content (<[(d, log_name c) := ""]> m) d n = content m d n.
Proof.
  intros Hn Hc Hp. destruct (decide (n = c)) as [-> | D].
  - rewrite (absent_content m) by done. unfold content. by rewrite lookup_insert_eq.
  - unfold content. rewrite !lookup_insert_ne; [done | |]; distinct_names.
Qed.

Lemma content_append m d c n t : is_u64 n -> is_u64 c -> n <> c -> content (append_file (d, log_name c) t m) d n = content m d n.
Proof.
  intros Hn Hc D. unfold append_file. destruct (m !! (d, log_name c)); [| done]. unfold content.
  rewrite !lookup_insert_ne; [done | |]; distinct_names.
Qed.

Lemma content_append_same m d c t : is_Some (m !! (d, log_name c)) -> content (append_file (d, log_name c) t m) d c = content m d c +:+ t.
Proof. intros [x Hx]. unfold append_file, content. by rewrite Hx, lookup_insert_eq. Qed.

(** Compression changes nothing that is read, whatever its outcome. *)
Lemma content_compress io m d s n : is_u64 s -> is_u64 n -> content (compress_file gzip io (d, log_name s) m) d n = content m d n.
Proof.
  intros Hs Hn. unfold compress_file. destruct (m !! (d, log_name s)) as [x |] eqn:Ex; [| done]. destruct (gz_read io); [| done].
  unfold gz_of. simpl.
  assert (forall y, n <> s -> content (<[(d, log_name s +:+ ".gz") := y]> m) d n = content m d n) as Hne.
  { intros y D. unfold content. rewrite !lookup_insert_ne; [done | |]; distinct_names. }
  assert (forall y, content (<[(d, log_name s +:+ ".gz") := y]> m) d s = content m d s) as Heq.
  { intros y. unfold content. rewrite lookup_insert_ne by (distinct_names). by rewrite Ex. }
  destruct (gz_write io) as [| [part |]]; [| destruct (decide (n = s)) as [-> |]; [apply Heq | by apply Hne] | done].
  destruct (gz_remove io); [| destruct (decide (n = s)) as [-> |]; [apply Heq | by apply Hne]].
  destruct (decide (n = s)) as [-> | D].
  - unfold content. rewrite lookup_delete_eq, lookup_delete_ne by (distinct_names). rewrite lookup_insert_eq, gunzip_gzip. simpl. by rewrite Ex.
  - rewrite <- (Hne (gzip x) D). unfold content. rewrite !lookup_delete_ne; [done | |]; distinct_names.
Qed.

Lemma present_compress io m d s n : is_u64 s -> is_u64 n -> present (compress_file gzip io (d, log_name s) m) d n -> present m d n \/ n = s.
Proof.
  intros Hs Hn. unfold compress_file. destruct (m !! (d, log_name s)) as [x |] eqn:Ex; [| by left]. destruct (gz_read io); [| by left].
  unfold gz_of. simpl. destruct (decide (n = s)) as [-> | D]; [by right |].
  assert (forall y, present (<[(d, log_name s +:+ ".gz") := y]> m) d n -> present m d n) as Hne.
  { intros y. unfold present. rewrite !lookup_insert_ne; [done | |]; distinct_names. }
  destruct (gz_write io) as [| [part |]]; [| intros; left; by eapply Hne | by left].
  destruct (gz_remove io); [| intros; left; by eapply Hne]. intros Hp. left. apply (Hne (gzip x)). unfold present in *.
  rewrite !lookup_delete_ne in Hp; [done | |]; distinct_names.
Qed.

Lemma file_compress io m d s c : is_u64 c -> s <> c -> is_u64 s -> compress_file gzip io (d, log_name s) m !! (d, log_name c) = m !! (d, log_name c).
Proof.
  intros Hc D Hs. unfold compress_file. destruct (m !! (d, log_name s)) as [x |] eqn:Ex; [| done]. destruct (gz_read io); [| done]. unfold gz_of. simpl.
  assert ((d, log_name s +:+ ".gz") <> (d, log_name c)) by (distinct_names).
  assert ((d, log_name s) <> (d, log_name c)) by (distinct_names).
  destruct (gz_write io) as [| [part |]]; [| by rewrite lookup_insert_ne | done]. destruct (gz_remove io); [rewrite lookup_delete_ne by done |]; by rewrite lookup_insert_ne.
Qed.

(** ** The writer on one directory *)

Context (d f : string) (m0 : FS) (N M L : Z) (HN : N + 1 < 2 ^ 64) (HML : 0 <= M /\ 0 <= L /\ M + L < 2 ^ 63).

(** The largest number that the directory has at the start. *)
Definition top (m : FS) : Z := maximum (omap jsonl_seq (names_in d m) ++ omap gz_seq (names_in d m)).
Definition bound : Z := Z.max M L + 1.

Lemma present_top m n : is_u64 n -> present m d n -> n <= top m.
Proof.
  intros Hn [H | H]; apply maximum_le, elem_of_app; [left | right]; apply list_elem_of_omap; eexists; (split; [by apply names_in_spec |]);
    [by apply jsonl_log_name | by apply gz_log_name].
Qed.

Lemma top_agree m m' : agree d m m' -> top m' = top m.
Proof.
  intros Ha. unfold top. assert (forall l k : list Z, (forall x, x ∈ l -> x ∈ k) -> maximum l <= maximum k) as Hm.
  { intros l k. unfold maximum. induction l as [| x l IH]; simpl; intros H; [pose proof (maximum_nonneg k); unfold maximum in *; lia |].
    pose proof (maximum_le k x (H x ltac:(by left))). specialize (IH (fun y Hy => H y ltac:(by right))). unfold maximum in *. lia. }
  assert (forall m m', agree d m m' -> forall x, x ∈ omap jsonl_seq (names_in d m) ++ omap gz_seq (names_in d m) -> x ∈ omap jsonl_seq (names_in d m') ++ omap gz_seq (names_in d m')) as Hs.
  { intros q q' Hq x. rewrite !elem_of_app, !list_elem_of_omap.
    intros [(y & Hy & E) | (y & Hy & E)]; [left | right]; exists y; (split; [| done]); apply names_in_spec; rewrite Hq; by apply names_in_spec. }
  apply Z.le_antisymm; apply Hm; apply Hs; [intros name; symmetry; apply Ha | apply Ha].
Qed.

Lemma maximum_in l : maximum l = 0 \/ maximum l ∈ l.
Proof.
  unfold maximum. induction l as [| x l IH]; [by left |]. simpl. destruct (Z.max_spec x (foldr Z.max 0 l)) as [[_ ->] | [_ ->]]; [| right; by left].
  destruct IH as [-> | ?]; [by left | right; by right].
Qed.
Lemma top_number m x : x ∈ omap jsonl_seq (names_in d m) ++ omap gz_seq (names_in d m) <-> exists name, is_Some (m !! (d, name)) /\ (jsonl_seq name = Some x \/ gz_seq name = Some x).
Proof. rewrite elem_of_app, !list_elem_of_omap. setoid_rewrite names_in_spec. naive_solver. Qed.
Lemma compressed_names io s m name : is_Some (compress_file gzip io (d, log_name s) m !! (d, name)) -> is_Some (m !! (d, name)) \/ name = log_name s +:+ ".gz".
Proof.
  unfold compress_file. destruct (m !! (d, log_name s)) as [x |]; [| by left]. destruct (gz_read io); [| by left].
  assert (forall y, is_Some (<[gz_of (d, log_name s) := y]> m !! (d, name)) -> is_Some (m !! (d, name)) \/ name = log_name s +:+ ".gz") as Hi.
  { intros y. unfold gz_of. simpl. destruct (decide (name = log_name s +:+ ".gz")); [by right |]. rewrite lookup_insert_ne by congruence. by left. }
  destruct (gz_write io) as [| [part |]]; [| by apply Hi | by left]. destruct (gz_remove io); [| by apply Hi].
  intros [y Hy]. apply lookup_delete_Some in Hy as [_ Hy]. apply (Hi (gzip x)). by eexists.
Qed.
Lemma kept_names io s m name : name <> log_name s -> is_Some (m !! (d, name)) -> is_Some (compress_file gzip io (d, log_name s) m !! (d, name)).
Proof.
  intros Hne Hm. unfold compress_file. destruct (m !! (d, log_name s)) as [x |]; [| done]. destruct (gz_read io); [| done].
  assert (forall y, is_Some (<[gz_of (d, log_name s) := y]> m !! (d, name))) as Hi by (intros y; rewrite lookup_insert; case_decide; [by eexists | done]).
  destruct (gz_write io) as [| [part |]]; [| done | done]. destruct (gz_remove io); [rewrite lookup_delete_ne by congruence |]; done.
Qed.
(** The largest number stays when a smaller one is compressed. *)
Lemma top_compress io s m : is_u64 s -> 0 <= s < top m -> top (compress_file gzip io (d, log_name s) m) = top m.
Proof.
  intros Hu Hs. apply Z.le_antisymm.
  - destruct (maximum_in (omap jsonl_seq (names_in d (compress_file gzip io (d, log_name s) m)) ++ omap gz_seq (names_in d (compress_file gzip io (d, log_name s) m)))) as [E | Hin];
      [unfold top at 1; rewrite E; lia |]. fold (top (compress_file gzip io (d, log_name s) m)) in Hin. apply top_number in Hin as (name & Hn & Hp).
    apply compressed_names in Hn as [Hn | ->]; [apply maximum_le, top_number; by exists name |]. rewrite jsonl_gz_name, gz_log_name in Hp by done. destruct Hp as [Hp | [= <-]]; [done | lia].
  - destruct (maximum_in (omap jsonl_seq (names_in d m) ++ omap gz_seq (names_in d m))) as [E | Hin]; [unfold top in Hs; lia |]. fold (top m) in Hin.
    apply top_number in Hin as (name & Hn & Hp). apply maximum_le, top_number. exists name. split; [| done]. apply kept_names; [| done]. intros ->.
    rewrite jsonl_log_name in Hp by done. destruct Hp as [[= E] | Hp]; [lia |]. unfold gz_seq, log_name in Hp. rewrite strip_prefix_app in Hp. cbn [mbind option_bind] in Hp.
    unfold strip_suffix in Hp. rewrite string_rev_app in Hp. done.
Qed.

Record Live (k : Z) (w : Writer) (o : OpenFile) (lines : list string) : Prop := {
  lv_file : file o = (d, log_name (sequence o));
  lv_exists : is_Some (fs w !! file o);
  lv_seq : top m0 < sequence o <= k;
  lv_present n : is_u64 n -> present (fs w) d n -> n <= sequence o;
  lv_text : text (fs w) d N = text m0 d N +:+ concat lines;
  lv_size : bytes (content (fs w) d (sequence o)) <= of_size o <= bound;
  lv_bound n : top m0 < n -> is_u64 n -> bytes (content (fs w) d n) <= bound;
  lv_tasks t p : t ∈ tasks w -> p ∈ t -> p.1 = d -> exists s, p = (d, log_name s) /\ 0 <= s < sequence o;
}.

(** Nothing was written yet: files below the largest number may have been compressed. *)
Record Fresh (w : Writer) : Prop := {
  fr_text : text (fs w) d N = text m0 d N;
  fr_top : top (fs w) = top m0;
  fr_tasks t p : t ∈ tasks w -> p ∈ t -> p.1 = d -> exists s, p = (d, log_name s) /\ 0 <= s < top m0;
}.

Definition Others (w : Writer) : Prop := forall fk o, open_files w !! fk = Some o -> fk <> f -> (file o).1 <> d.

Definition State (k : Z) (w : Writer) (lines : list string) : Prop :=
  Others w /\ match open_files w !! f with Some o => Live k w o lines | None => Fresh w /\ concat lines = "" end.

Lemma others_insert w m o ts : Others w -> Others (mkWriter m (<[f := o]> (open_files w)) ts).
Proof. intros H fk q. simpl. destruct (decide (f = fk)) as [<- | D]; [done |]. rewrite lookup_insert_ne by done. apply H. Qed.

Lemma top_nonneg m : 0 <= top m.
Proof. apply maximum_nonneg. Qed.

Lemma live_u64 k w o lines : Live k w o lines -> k <= N -> is_u64 (sequence o) /\ 0 <= sequence o <= N.
Proof. intros H Hk. pose proof (lv_seq _ _ _ _ H). pose proof (top_nonneg m0). unfold is_u64. lia. Qed.

Lemma absent_above k w o lines n : Live k w o lines -> is_u64 n -> sequence o < n -> ¬ present (fs w) d n.
Proof. intros H Hn Hlt Hp. pose proof (lv_present _ _ _ _ H n Hn Hp). lia. Qed.

Lemma present_create m c n : is_u64 n -> is_u64 c -> present (<[(d, log_name c) := ""]> m) d n -> present m d n \/ n = c.
Proof.
  intros Hn Hc. destruct (decide (n = c)) as [-> | D]; [by right |]. left. unfold present in *. rewrite !lookup_insert_ne in H; [done | |]; distinct_names.
Qed.

Lemma jsonl_nonneg name n : jsonl_seq name = Some n -> 0 <= n.
Proof.
  unfold jsonl_seq. destruct (strip_prefix "log_" name) as [s |]; [| done]. simpl. destruct (strip_suffix ".jsonl" s) as [t |]; [| done]. simpl.
  unfold parse_u64, parse_uint. destruct t as [| a t]; [done |]. intros H. assert (exists q, parse_digits u64_max 0 q = Some n) as [q Hq].
  { destruct a as [[] [] [] [] [] [] [] []]; try (by eexists). destruct t; [done | by eexists]. }
  by eapply parse_digits_bounds in Hq.
Qed.

Lemma stale_below t m : t ∈ (find_max_sequence_and_stale true d m).2 -> 0 <= t < top m.
Proof.
  unfold find_max_sequence_and_stale. simpl. intros [Hs Hj]%elem_of_retain. apply andb_true_iff in Hs as [Hs%Z.ltb_lt _].
  apply list_elem_of_omap in Hj as (y & _ & Hy). apply jsonl_nonneg in Hy. split; [done |]. unfold top. rewrite maximum_app. lia.
Qed.

Lemma get_open_live k io w lines :
  io_read_dir io = true -> State k w lines -> top m0 + 1 <= k -> k <= N ->
  exists w' oo, get_open io d f w = (w', oo) /\
    match oo with Some o => open_files w' !! f = Some o /\ Others w' /\ Live k w' o lines | None => io_open io = false /\ State k w' lines end.
Proof.
  intros Hio [Ho Hs] Hk HkN. unfold get_open. destruct (open_files w !! f) as [o |] eqn:Eo; [by exists w, (Some o) |]. destruct Hs as [[Hfs Ht Hts] Hl].
  rewrite Hio. pose proof (top_nonneg m0).
  assert ((find_max_sequence_and_stale true d (fs w)).1 = top m0 + 1) as Hseq.
  { unfold find_max_sequence_and_stale. simpl. fold (top (fs w)). rewrite Ht. unfold u64_add. apply wrap64_small. unfold is_u64. lia. }
  cbv zeta. rewrite Hseq. set (ts := match (find_max_sequence_and_stale true d (fs w)).2 with [] => tasks w | _ => _ end).
  assert (forall t p, t ∈ ts -> p ∈ t -> p.1 = d -> exists s, p = (d, log_name s) /\ 0 <= s < top m0) as Hts'.
  { intros t p Ht' Hp Hd. unfold ts in Ht'. destruct (find_max_sequence_and_stale true d (fs w)).2 as [| x l] eqn:Est; [by apply (Hts t p) |].
    apply elem_of_app in Ht' as [Ht' | Ht']; [by apply (Hts t p) |]. apply list_elem_of_singleton in Ht' as ->.
    apply list_elem_of_fmap in Hp as (s & -> & Hs). rewrite <- Est in Hs. apply stale_below in Hs. exists s. split; [done | lia]. }
  clearbody ts. destruct (io_open io); [| eexists _, None; split; [done |]; split; [done |]; split; [exact Ho |]; cbn [open_files]; rewrite Eo; by split; [split |]].
  assert (is_u64 (top m0 + 1)) as Hu by (unfold is_u64; lia).
  assert (¬ present (fs w) d (top m0 + 1)) as Hab by (intros Hp; apply present_top in Hp; [lia | done]).
  assert (fs w !! (d, log_name (top m0 + 1)) = None) as Hno.
  { destruct (fs w !! (d, log_name (top m0 + 1))) eqn:E; [| done]. exfalso. apply Hab. left. by eexists. }
  rewrite Hno. rewrite lookup_insert_eq. replace (if io_metadata io then bytes (default "" (Some "")) else 0) with 0 by by destruct (io_metadata io).
  eexists _, (Some _). split; [done |]. cbn [open_files]. rewrite lookup_insert_eq. split; [done |].
  split; [by apply (others_insert w (<[(d, log_name (top m0 + 1)) := ""]> (fs w)) _ _ Ho) |]. split; cbn [file sequence fs of_size tasks].
  - done.
  - rewrite lookup_insert_eq. by eexists.
  - lia.
  - intros n Hn [Hp | ->]%present_create; [| lia | done | done]. apply present_top in Hp; [lia | done].
  - rewrite Hl, append_nil_r, <- Hfs. unfold text. f_equal. apply list_fmap_ext. intros i n Hn.
    apply list_elem_of_lookup_2, elem_of_seqZ in Hn. apply content_create; [unfold is_u64; lia | done | done].
  - rewrite content_create, absent_content by done. unfold bytes, bound. simpl. lia.
  - intros n Hn Hnu. rewrite content_create by done. rewrite absent_content; [unfold bound, bytes; simpl; lia |]. intros Hp. apply present_top in Hp; [lia | done].
  - intros t p Ht' Hp Hd. destruct (Hts' t p Ht' Hp Hd) as (s & -> & ?). exists s. split; [done | lia].
Qed.

Lemma rotate_live k io w o lines lb mb :
  Others w -> open_files w !! f = Some o -> Live k w o lines -> k + 1 <= N -> 0 <= lb <= L -> mb <= M ->
  exists w' oo, rotate io mb lb d f o w = (w', oo) /\
    match oo with
    | Some o' => open_files w' !! f = Some o' /\ Others w' /\ Live (k + 1) w' o' lines /\ (of_size o' = 0 \/ of_size o' + lb <= M)
    | None => io_create io = false /\ w' = w
    end.
Proof.
  intros Ho Hopen Hl Hk Hlb Hmb. destruct (live_u64 _ _ _ _ Hl ltac:(lia)) as [Hu Hr]. pose proof Hl as [Hf He Hs Hp Ht Hz Hb Hts].
  assert (0 <= of_size o <= bound) as Hsz by (unfold bytes in Hz; lia).
  unfold rotate. assert (u64_add (of_size o) lb = of_size o + lb) as -> by (unfold u64_add; apply wrap64_small; unfold is_u64, bound in *; lia).
  assert (u64_add (sequence o) 1 = sequence o + 1) as -> by (unfold u64_add; apply wrap64_small; unfold is_u64; lia).
  destruct (Z.ltb_spec 0 (of_size o)); simpl; [destruct (Z.ltb_spec mb (of_size o + lb)) |].
  - destruct (io_create io) eqn:Ec; [| by exists w, None].
    assert (is_u64 (sequence o + 1)) as Hu' by (unfold is_u64; lia).
    assert (¬ present (fs w) d (sequence o + 1)) as Hab by (eapply absent_above; [exact Hl | done | lia]).
    eexists _, (Some _). split; [done |]. cbn [open_files]. rewrite lookup_insert_eq. split; [done |]. split; [by apply others_insert |]. split; [| by left].
    split; cbn [file sequence fs of_size tasks].
    + done.
    + rewrite lookup_insert_eq. by eexists.
    + lia.
    + intros n Hn [Hq | ->]%present_create; [| lia | done | done]. specialize (Hp n Hn Hq). lia.
    + rewrite <- Ht. unfold text. f_equal. apply list_fmap_ext. intros i n Hn.
      apply list_elem_of_lookup_2, elem_of_seqZ in Hn. apply content_create; [unfold is_u64; lia | done | done].
    + rewrite content_create, absent_content by done. unfold bytes, bound. simpl. lia.
    + intros n Hn Hnu. rewrite content_create by done. by apply Hb.
    + intros t p [Hin | ->%list_elem_of_singleton]%elem_of_app Hpt Hd.
      * destruct (Hts t p Hin Hpt Hd) as (s & -> & ?). exists s. split; [done | lia].
      * apply list_elem_of_singleton in Hpt as ->. exists (sequence o). split; [done | lia].
  - exists w, (Some o). split_and!; [done | done | done | | right; lia]. split; try done. lia.
  - exists w, (Some o). split_and!; [done | done | done | | left; lia]. split; try done. lia.
Qed.

Lemma bytes_append s t : bytes (s +:+ t) = bytes s + bytes t.
Proof. unfold bytes. rewrite length_append. lia. Qed.

Lemma concat_snoc l x : concat (l ++ [x]) = concat l +:+ x.
Proof. rewrite concat_app. simpl. by rewrite append_nil_r. Qed.

Lemma bytes_substring n s : bytes (String.substring 0 n s) <= bytes s.
Proof. unfold bytes. revert s. induction n as [| n IH]; intros [| a s]; simpl; try lia. specialize (IH s). lia. Qed.
Lemma bytes_written io line : bytes (written io line) <= bytes line + 1.
Proof. unfold written. rewrite bytes_append. destruct (io_line io) as [n |]; [pose proof (bytes_substring n line) |]; destruct (io_newline io); unfold bytes in *; simpl; lia. Qed.

Lemma write_live k io w o lines line :
  Others w -> open_files w !! f = Some o -> Live k w o lines -> k <= N -> bytes line <= L -> of_size o = 0 \/ of_size o + bytes line <= M ->
  State k (write_line io line f o w) (lines ++ [written io line]).
Proof.
  intros Ho Hopen Hl Hk Hlb Hsz. destruct (live_u64 _ _ _ _ Hl Hk) as [Hu Hr]. pose proof Hl as [Hf He Hs Hp Ht Hz Hb Hts].
  unfold write_line. pose proof (bytes_written io line) as Hw. set (tx := written io line) in *. split; [by apply others_insert |]. cbn [open_files]. rewrite lookup_insert_eq.
  rewrite Hf in He |- *. assert (0 <= bytes line /\ 0 <= bytes tx /\ 0 <= bytes (content (fs w) d (sequence o))) as (H0 & H1 & H2) by (unfold bytes; lia).
  assert (content (append_file (d, log_name (sequence o)) tx (fs w)) d (sequence o) = content (fs w) d (sequence o) +:+ tx) as Hc by (by apply content_append_same).
  assert (u64_add (of_size o) (bytes line + 1) = of_size o + (bytes line + 1)) as Hadd by (unfold u64_add; apply wrap64_small; unfold is_u64, bound in *; lia).
  split; cbn [file sequence fs of_size tasks].
  - done.
  - unfold append_file. destruct He as [x Hx]. rewrite Hx, lookup_insert_eq. by eexists.
  - done.
  - intros n Hn Hq. apply Hp; [done |]. unfold append_file in Hq. destruct He as [x Hx]. rewrite Hx in Hq. unfold present in *.
    destruct (decide (n = sequence o)) as [-> | D]; [left; by eexists |]. rewrite !lookup_insert_ne in Hq; [done | |]; distinct_names.
  - rewrite (text_extended (fs w) _ d N (sequence o) tx); [by rewrite Ht, concat_snoc, append_assoc | done | | | done].
    + intros n Hn D. apply content_append; [unfold is_u64; lia | done | done].
    + intros n Hn. apply absent_content. eapply absent_above; [exact Hl | unfold is_u64; lia | lia].
  - rewrite Hc, !bytes_append, Hadd. unfold bound in *. lia.
  - intros n Hn Hnu. destruct (decide (n = sequence o)) as [-> | D]; [| rewrite content_append by done; by apply Hb].
    rewrite Hc, !bytes_append. unfold bound in *. lia.
  - done.
Qed.

(** What the writer does in other directories. *)
Record Framed (w w' : Writer) : Prop := {
  fm_fs : agree d (fs w) (fs w');
  fm_open : open_files w' !! f = open_files w !! f;
  fm_tasks t p : t ∈ tasks w' -> p ∈ t -> p.1 = d -> exists t', t' ∈ tasks w /\ p ∈ t';
  fm_others : Others w -> Others w';
}.

Lemma framed_refl w : Framed w w.
Proof. split; try done. intros t p Ht Hp _. by exists t. Qed.
Lemma framed_trans w1 w2 w3 : Framed w1 w2 -> Framed w2 w3 -> Framed w1 w3.
Proof.
  intros [A1 B1 C1 D1] [A2 B2 C2 D2]. split; [by eapply agree_trans | by rewrite B2 | | tauto].
  intros t p Ht Hp Hd. destruct (C2 t p Ht Hp Hd) as (t' & Ht' & Hp'). by eapply C1.
Qed.

Lemma framed_state k w w' lines : Framed w w' -> State k w lines -> State k w' lines.
Proof.
  intros [Ha Ho Ht Hot] [Hoth Hs]. split; [by apply Hot |]. rewrite Ho. destruct (open_files w !! f) as [o |].
  - destruct Hs as [Hf He Hq Hp Htx Hz Hb Hts]. assert (forall n, content (fs w') d n = content (fs w) d n) as Hc by (intros; by apply agree_content).
    split; try done.
    + rewrite Hf in He |- *. by rewrite Ha.
    + intros n Hn. unfold present. rewrite !Ha. by apply Hp.
    + by rewrite (agree_text d (fs w)).
    + by rewrite Hc.
    + intros n. rewrite Hc. apply Hb.
    + intros t p Hin Hpt Hd. destruct (Ht t p Hin Hpt Hd) as (t' & ? & ?). by eapply Hts.
  - destruct Hs as [[Hf Hto Hts] Hl]. split; [| done]. split; [by rewrite (agree_text d (fs w)) | by rewrite (top_agree (fs w)) |].
    intros t p Hin Hpt Hd. destruct (Ht t p Hin Hpt Hd) as (t' & ? & ?). by eapply Hts.
Qed.

Lemma framed_open w d' fk o m ts :
  fk <> f -> (file o).1 <> d -> agree d (fs w) m -> (forall t p, t ∈ ts -> p ∈ t -> p.1 = d -> exists t', t' ∈ tasks w /\ p ∈ t') -> d' <> d ->
  Framed w (mkWriter m (<[fk := o]> (open_files w)) ts).
Proof.
  intros Hfk Ho Ha Ht _. split; simpl; [done | by rewrite lookup_insert_ne | done |]. intros Hoth fk' q. simpl. destruct (decide (fk = fk')) as [<- | D].
  - rewrite lookup_insert_eq. by intros [= <-].
  - rewrite lookup_insert_ne by done. apply Hoth.
Qed.

Lemma tasks_added w d' (l : list Z) ts :
  d' <> d -> ts = tasks w \/ ts = tasks w ++ [(fun s => (d', log_name s)) <$> l] -> forall t p, t ∈ ts -> p ∈ t -> p.1 = d -> exists t', t' ∈ tasks w /\ p ∈ t'.
Proof.
  intros Hd [-> | ->] t p Ht Hp E; [by exists t |]. apply elem_of_app in Ht as [Ht | ->%list_elem_of_singleton]; [by exists t |].
  apply list_elem_of_fmap in Hp as (s & -> & _). done.
Qed.

Lemma entry_framed c io e w : file_key e <> f -> key_dir c e <> d -> Others w -> Framed w (on_entry to_string c io e w).
Proof.
  intros Hf Hd Hoth. unfold on_entry. destruct (io_mkdir io); [| apply framed_refl]. destruct (to_string _) as [line |]; [| apply framed_refl].
  assert (exists w' o, get_open io (key_dir c e) (file_key e) w = (w', o) /\ Framed w w' /\ (forall q, o = Some q -> (file q).1 <> d)) as (w1 & o1 & -> & Hw1 & Ho1).
  { unfold get_open. destruct (open_files w !! file_key e) as [q |] eqn:Eq.
    { exists w, (Some q). split_and!; [done | apply framed_refl |]. intros ? [= <-]. by apply (Hoth (file_key e)). }
    cbv zeta. set (sc := find_max_sequence_and_stale _ _ _). set (ts := match sc.2 with [] => _ | _ => _ end).
    assert (ts = tasks w \/ ts = tasks w ++ [(fun s => (key_dir c e, log_name s)) <$> sc.2]) as Hts by (unfold ts; destruct sc.2; [by left | by right]).
    destruct (io_open io).
    - eexists _, _. split; [done |]. split; [| by intros ? [= <-]]. eapply framed_open; [done | done | | by eapply tasks_added | exact Hd].
      destruct (fs w !! _); [done | by apply agree_insert].
    - eexists _, _. split; [done |]. split; [| done]. split; try done. by eapply tasks_added. }
  destruct o1 as [q |]; [| done]. specialize (Ho1 q eq_refl).
  assert (exists w' o, rotate io (max_bytes c) (bytes line) (key_dir c e) (file_key e) q w1 = (w', o) /\ Framed w1 w' /\ (forall q, o = Some q -> (file q).1 <> d)) as (w2 & o2 & -> & Hw2 & Ho2).
  { unfold rotate. destruct (_ && _); [cbv zeta; destruct (io_create io) |].
    - eexists _, _. split; [done |]. split; [| by intros ? [= <-]]. eapply framed_open; [done | done | by apply agree_insert | | exact Hd].
      by apply (tasks_added w1 (key_dir c e) [sequence q]); [| right].
    - exists w1, None. split_and!; [done | apply framed_refl | done].
    - exists w1, (Some q). split_and!; [done | apply framed_refl | by intros ? [= <-]]. }
  apply (framed_trans _ w1); [done |]. destruct o2 as [q2 |]; [| done]. specialize (Ho2 q2 eq_refl). apply (framed_trans _ w2); [done |].
  unfold write_line. eapply framed_open; [done | done | by apply agree_append | | exact Hd]. intros t p Ht Hp _. by exists t.
Qed.

Lemma live_mono k k' w o lines : k <= k' -> Live k w o lines -> Live k' w o lines.
Proof. intros Hk [Hf He Hs Hp Ht Hz Hb Hts]. split; try done. lia. Qed.
Lemma state_mono k k' w lines : k <= k' -> State k w lines -> State k' w lines.
Proof. intros Hk [Ho Hs]. split; [done |]. destruct (open_files w !! f); [by eapply live_mono | done]. Qed.

Lemma state_snoc k w lines : State k w lines -> State k w (lines ++ [""]).
Proof.
  intros [Ho Hs]. split; [done |]. destruct (open_files w !! f) as [o |]; [| by rewrite concat_snoc, append_nil_r].
  destruct Hs as [Hf He Hq Hp Ht Hz Hb Hts]. split; try done. by rewrite concat_snoc, append_nil_r.
Qed.

(** What an entry leaves: what is written of its line, or nothing when there is no
    directory or no file for it. *)
Definition left_by (io : Io) (line piece : string) : Prop :=
  piece = written io line \/ piece = "" /\ (io_mkdir io = false \/ io_open io = false \/ io_create io = false).

Lemma entry_live k c io e w lines line :
  io_read_dir io = true -> State k w lines -> top m0 + 1 <= k -> k + 1 <= N -> file_key e = f -> key_dir c e = d -> max_bytes c <= M ->
  to_string (ser_entry e) = Some line -> bytes line <= L ->
  exists piece, left_by io line piece /\ State (k + 1) (on_entry to_string c io e w) (lines ++ [piece]).
Proof.
  intros Hio Hs Hk HkN Hf Hd Hm Hl Hb. unfold on_entry, left_by.
  destruct (io_mkdir io); [| exists ""; split; [auto |]; apply state_snoc; eapply state_mono; [| exact Hs]; lia]. rewrite Hl, Hf, Hd.
  destruct (get_open_live k io w lines Hio Hs Hk ltac:(lia)) as (w1 & [o1 |] & -> & H1).
  2:{ destruct H1 as [Hop Hs1]. exists "". split; [auto |]. apply state_snoc. eapply state_mono; [| exact Hs1]. lia. }
  destruct H1 as (Ho1 & Hot1 & Hl1).
  destruct (rotate_live k io w1 o1 lines (bytes line) (max_bytes c) Hot1 Ho1 Hl1 HkN ltac:(unfold bytes in *; lia) Hm) as (w2 & [o2 |] & -> & H2).
  - destruct H2 as (Ho2 & Hot2 & Hl2 & Hsz). exists (written io line). split; [by left |]. by apply write_live.
  - destruct H2 as [Hcr ->]. exists "". split; [auto |]. apply state_snoc. eapply state_mono; [| split; [exact Hot1 | by rewrite Ho1]]. lia.
Qed.

Lemma compress_state k i io w lines : State k w lines -> top m0 <= k <= N -> State k (on_compress gzip i io w) lines.
Proof.
  intros Hs [HkT Hk]. unfold on_compress. destruct (tasks w !! i) as [[| p rest] |] eqn:Ei; [done | | done].
  assert (forall t q, t ∈ <[i := rest]> (tasks w) -> q ∈ t -> exists t', t' ∈ tasks w /\ q ∈ t') as Ht.
  { intros t q [j Hj]%list_elem_of_lookup Hq. apply list_lookup_insert_Some in Hj as [(<- & -> & _) | [_ Hj]].
    - eexists. split; [eapply list_elem_of_lookup_2; exact Ei | by right].
    - exists t. split; [by eapply list_elem_of_lookup_2 | done]. }
  assert (p :: rest ∈ tasks w) as Hin by (by eapply list_elem_of_lookup_2).
  destruct (decide (p.1 = d)) as [Hd | Hd].
  2: { eapply framed_state; [| exact Hs]. split; simpl; [by apply agree_compress | done | intros t q H1 H2 _; by eapply Ht | done]. }
  destruct Hs as [Hot Hs]. split; [exact Hot |]. cbn [open_files]. destruct (open_files w !! f) as [o |].
  2: { destruct Hs as [[Hft Hto Hts] Hl]. split; [| done]. destruct (Hts _ p Hin ltac:(by left) Hd) as (s & -> & Hsq).
    destruct (decide (top m0 <= N)) as [HtN |]; [| lia]. assert (is_u64 s) as Hsu by (unfold is_u64; lia). split; cbn [fs tasks].
    - rewrite <- Hft. unfold text. f_equal. apply list_fmap_ext. intros j n Hn. apply list_elem_of_lookup_2, elem_of_seqZ in Hn. apply content_compress; [done | unfold is_u64; lia].
    - rewrite top_compress; [done | done | lia].
    - intros t q H1 H2 H3. destruct (Ht t q H1 H2) as (t' & ? & ?). by eapply Hts. }
  pose proof (lv_tasks _ _ _ _ Hs _ p Hin ltac:(by left) Hd) as (s & -> & Hsq). destruct (live_u64 _ _ _ _ Hs Hk) as [Hu Hr].
  assert (is_u64 s) as Hsu by (unfold is_u64 in *; lia). destruct Hs as [Hf He Hq Hp Htx Hz Hb Hts].
  split; cbn [fs tasks].
  - done.
  - rewrite Hf in He |- *. rewrite file_compress; [done | done | lia | done].
  - done.
  - intros n Hn [H | ->]%present_compress; [by apply Hp | lia | done | done].
  - rewrite <- Htx. unfold text. f_equal. apply list_fmap_ext. intros j n Hn. apply list_elem_of_lookup_2, elem_of_seqZ in Hn.
    apply content_compress; [done | unfold is_u64; lia].
  - by rewrite content_compress.
  - intros n Hn Hnu. rewrite content_compress by done. by apply Hb.
  - intros t q H1 H2 H3. destruct (Ht t q H1 H2) as (t' & ? & ?). by eapply Hts.
Qed.

(** What is asked of an event.  The team and key have the directory [d] to themselves, and it
    stays theirs; the directory can be listed; the limits are those of the bound. *)
Definition good_event (v : Event) : Prop :=
  match v with
  | Received c io e =>
    (file_key e = f <-> key_dir c e = d)
    /\ (file_key e = f -> io_read_dir io = true /\ max_bytes c <= M /\ exists line, to_string (ser_entry e) = Some line /\ bytes line <= L)
  | Compressed _ _ => True
  end.
(** What an event leaves in the directory. *)
Definition left_of (v : Event) (piece : string) : Prop :=
  match v with
  | Received _ io e => if bool_decide (file_key e = f) then exists line, to_string (ser_entry e) = Some line /\ left_by io line piece else piece = ""
  | Compressed _ _ => piece = ""
  end.

Lemma step_state k w lines v :
  State k w lines -> good_event v -> top m0 + 1 <= k -> k + 1 <= N -> exists piece, left_of v piece /\ State (k + 1) (step to_string gzip w v) (lines ++ [piece]).
Proof.
  intros Hs Hv Hk HkN. destruct v as [c io e | i io]; simpl in *.
  - destruct Hv as (Hd & Hl). case_bool_decide as E.
    + destruct (Hl E) as (Hio & Hm & line & Hline & Hb). destruct (entry_live k c io e w lines line) as (piece & Hp & Hst); try done; [by apply Hd |]. exists piece. split; [by exists line | done].
    + exists "". split; [done |]. apply state_snoc. eapply state_mono; [| eapply framed_state; [apply entry_framed; [done | tauto | exact (proj1 Hs)] | exact Hs]]. lia.
  - exists "". split; [done |]. apply state_snoc. eapply state_mono; [| apply compress_state; [exact Hs | lia]]. lia.
Qed.

Lemma run_state k w lines vs :
  State k w lines -> (forall v, v ∈ vs -> good_event v) -> top m0 + 1 <= k -> k + Z.of_nat (length vs) <= N ->
  exists pieces, Forall2 left_of vs pieces /\ State (k + Z.of_nat (length vs)) (foldl (step to_string gzip) w vs) (lines ++ pieces).
Proof.
  revert k w lines. induction vs as [| v vs IH]; intros k w lines Hs Hv Hk HN'; simpl.
  - exists []. split; [done |]. by rewrite app_nil_r, Z.add_0_r.
  - simpl in HN'. destruct (step_state k w lines v Hs (Hv v ltac:(by left)) Hk ltac:(lia)) as (piece & Hp & Hst).
    destruct (IH (k + 1) _ _ Hst (fun v' H => Hv v' ltac:(by right)) ltac:(lia) ltac:(lia)) as (pieces & Hps & Hst').
    exists (piece :: pieces). split; [by constructor |]. rewrite <- app_assoc in Hst'. simpl in Hst'. by replace (k + Z.of_nat (S (length vs))) with (k + 1 + Z.of_nat (length vs)) by lia.
Qed.

(** C31: what the prompt log keeps, and how large its files grow.  Take a team and key that
    have their directory to themselves, with whatever files in it, and that keep it: the
    configuration may be reloaded, as long as the directory of the log stays.  Entries of
    all keys arrive, and the compressions run between them in any order; any operation on
    files may fail but the listing of the directory.  Then the directory reads, file after
    file and decompressed, as it did before, followed by what each entry left in the order
    of their arrival: its whole line when none of its own operations failed, what was
    written of it when a write failed, and nothing when there was no directory or no file
    for it.  A file that the writer has made is at most a newline longer than the limit, or
    than the longest line. *)
Theorem prompt_lines_kept vs :
  (forall v, v ∈ vs -> good_event v) -> top m0 + 1 + Z.of_nat (length vs) <= N ->
  let w := foldl (step to_string gzip) (start m0) vs in
  (exists pieces, Forall2 left_of vs pieces /\ text (fs w) d N = text m0 d N +:+ concat pieces) /\
  (forall n, top m0 < n -> is_u64 n -> bytes (content (fs w) d n) <= Z.max M L + 1).
Proof.
  intros Hv HN' w. assert (State (top m0 + 1) (start m0) []) as Hs.
  { unfold start. split; [intros fk o Ho; simpl in Ho; by rewrite lookup_empty in Ho |]. simpl. rewrite lookup_empty. split; [| done]. split; [done | done |]. intros t p Ht. by apply elem_of_nil in Ht. }
  destruct (run_state (top m0 + 1) (start m0) [] vs Hs Hv ltac:(lia) ltac:(lia)) as (pieces & Hp & _ & Hr). fold w in Hr. rewrite app_nil_l in Hr.
  destruct (open_files w !! f) as [o |].
  - split; [exists pieces; split; [done | apply Hr] |]. intros n Hn Hnu. by apply (lv_bound _ _ _ _ Hr).
  - destruct Hr as [[Hf Ht _] Hc]. split; [exists pieces; split; [done |]; by rewrite Hc, append_nil_r |]. intros n Hn Hnu.
    rewrite absent_content; [unfold bytes; simpl; lia |]. intros Hpr. apply present_top in Hpr; [lia | done].
Qed.
End directory.

(** ** The limits of the writer *)

(** A reload that moves the log can destroy a log.  The open files are kept by team and key, whatever
    the directory of the configuration: when the next rotation of a key comes after the directory was
    changed, the file of the next number is created in the new directory, and what a file of that
    name held there is gone; the file that was full is never compressed. *)
Theorem moved_log_overwrites to_string c e w o line :
  open_files w !! file_key e = Some o -> to_string (ser_entry e) = Some line -> 0 < of_size o -> max_bytes c < u64_add (of_size o) (bytes line) ->
  (file o).1 <> key_dir c e ->
  let new := (key_dir c e, log_name (u64_add (sequence o) 1)) in let w' := on_entry to_string c good_io e w in
  fs w' !! new = Some (line +:+ newline) /\ fs w' !! file o = fs w !! file o /\ (forall t p, t ∈ tasks w' -> p ∈ t -> p = file o -> exists t', t' ∈ tasks w /\ p ∈ t').
Proof.
  intros Ho Hl Hz Hm Hd new w'. unfold w', on_entry, get_open, rotate. cbn [io_mkdir io_create good_io]. rewrite Hl, Ho.
  rewrite (proj2 (Z.ltb_lt _ _) Hz), (proj2 (Z.ltb_lt _ _) Hm). cbn [andb]. cbv zeta. unfold write_line. cbn [file fs tasks]. unfold append_file.
  fold new. rewrite lookup_insert_eq, append_nil. split_and!; [by rewrite lookup_insert_eq | rewrite !lookup_insert_ne; [done | |]; intros E; apply Hd; by rewrite <- E |].
  intros t p Ht Hp ->. apply elem_of_app in Ht as [Ht | ->%list_elem_of_singleton]; [by exists t |]. apply list_elem_of_singleton in Hp. exfalso. apply Hd. by rewrite Hp.
Qed.

(** An absolute alias of a team leaves the directory of the log. *)
Lemma absolute_team_escapes c e t : team_alias e = Some t -> starts_with "/" t = true -> key_dir c e = join t (key_hash e).
Proof. intros Ht Hs. unfold key_dir, team_dir. rewrite Ht. simpl. unfold join at 2. by rewrite Hs. Qed.

(** ** The viewer *)

Lemma head_omap_some {A B} (g : A -> option B) l v : head (omap g l) = Some v -> exists x, x ∈ l /\ g x = Some v.
Proof.
  induction l as [| x l IH]; [done |]. simpl. destruct (g x) eqn:E; [intros [= ->]; exists x; split; [by left | done] |].
  intros H. destruct (IH H) as (y & ? & ?). exists y. split; [by right | done].
Qed.
Lemma head_omap_none {A B} (g : A -> option B) l : head (omap g l) = None -> forall x, x ∈ l -> g x = None.
Proof.
  induction l as [| x l IH]; intros H y Hy; [by apply elem_of_nil in Hy |]. simpl in H. destruct (g x) eqn:E; [done |].
  apply elem_of_cons in Hy as [-> | Hy]; [done | by apply IH].
Qed.

#[local] Existing Instance name_ge_dec.
Lemma log_files_spec d m n : n ∈ log_files d m <-> is_Some (m !! (d, n)) /\ starts_with "log_" n = true /\ exists s, n = s +:+ ".jsonl".
Proof.
  unfold log_files. rewrite (merge_sort_Permutation name_ge), elem_of_retain, names_in_spec, andb_true_iff, (starts_with_spec (string_rev ".jsonl")).
  assert ((exists t, string_rev n = string_rev ".jsonl" +:+ t) <-> exists s, n = s +:+ ".jsonl") as ->; [| tauto]. split.
  - intros [t Ht]. exists (string_rev t). rewrite <- (string_rev_rev n), Ht, string_rev_app. by rewrite string_rev_rev.
  - intros [s ->]. exists (string_rev s). apply string_rev_app.
Qed.

(** The viewer finds what is in the files that are not compressed, and nothing else.  What it shows is
    the JSON of a line of such a file with the identifier that was asked for; when it finds nothing, no
    line of them has it; a compressed file is none of them. *)
Theorem viewer_exact from_str c m rid key team :
  let d := join (join (dir c) (default "_no_team" team)) key in
  match get_prompt_log_entry from_str true c m rid key team with
  | NoDirectory => False
  | Entry v => exists n line, n ∈ log_files d m /\ line ∈ Sse.lines (default "" (m !! (d, n))) /\ from_str line = Some v /\ get v "request_id" = Some (VString rid)
  | NotFound => forall n line v, n ∈ log_files d m -> line ∈ Sse.lines (default "" (m !! (d, n))) -> trim line <> "" -> from_str line = Some v -> get v "request_id" <> Some (VString rid)
  end /\ (forall s, log_name s +:+ ".gz" ∉ log_files d m).
Proof.
  intros d. assert (forall v, is_request rid v = true <-> get v "request_id" = Some (VString rid)) as Hr.
  { intros v. unfold is_request. destruct (get v "request_id") as [[] |]; simpl; try (split; [done | discriminate]); rewrite ?bool_decide_eq_true; split; [by intros -> | by intros [= ->]]. }
  split.
  - unfold get_prompt_log_entry. fold d. destruct (head (omap _ _)) as [v |] eqn:E.
    + apply head_omap_some in E as (n & Hn & E). apply head_omap_some in E as (line & Hl & E). exists n, line. unfold line_entry in E.
      destruct (bool_decide (trim line = "")); [done |]. destruct (from_str line) as [v' |]; [| done]. simpl in E.
      destruct (is_request rid v') eqn:Ev; [| done]. injection E as ->. by rewrite <- Hr.
    + intros n line v Hn Hl Ht Hv Hg. pose proof (head_omap_none _ _ E n Hn) as En. pose proof (head_omap_none _ _ En line Hl) as El.
      unfold line_entry in El. rewrite bool_decide_eq_false_2, Hv in El by done. simpl in El. by rewrite (proj2 (Hr v) Hg) in El.
  - intros s (_ & _ & q & Hq)%log_files_spec. apply (f_equal string_rev) in Hq. rewrite !string_rev_app in Hq. by apply (f_equal (strip_prefix "z")) in Hq.
Qed.

(** ** Examples *)

(** The text of an entry is its identifier; gzip is the identity. *)
Definition demo_to_string (v : Value) : option string := get v "request_id" ≫= as_str.
Definition demo_from_str (s : string) : option Value := Some (VObject [("request_id", VString s)]).
Definition demo_config (d : string) : PromptLogConfig := mkConfig true d 0 false [] [] [].
Definition demo_entry (rid : string) : PromptLogEntry := new_entry "now" rid "k" None (Some "t") "m" "/v1/messages" false VNull None None.
Definition received (d rid : string) : Event := Received (demo_config d) good_io (demo_entry rid).
Definition good_gz : GzIo := mkGzIo true GzOk true.
Definition demo_run (m : FS) (vs : list Event) : Writer := foldl (step demo_to_string id) (start m) vs.
Definition demo_find (w : Writer) (rid : string) : Found := get_prompt_log_entry demo_from_str true (demo_config "/a") (fs w) rid "k" (Some "t").

(** The entry of a request is out of reach of the viewer once its file is compressed: it is in the
    directory as before, the viewer does not look there. *)
Example rotated_entry_unseen :
  let before := demo_run ∅ [received "/a" "r1"; received "/a" "r2"] in let after := demo_run ∅ [received "/a" "r1"; received "/a" "r2"; Compressed 0 good_gz] in
  demo_find before "r1" = Entry (VObject [("request_id", VString "r1")]) /\ demo_find after "r1" = NotFound /\
  text Some (fs after) "/a/t/k" 3 = text Some (fs before) "/a/t/k" 3 /\ text Some (fs after) "/a/t/k" 3 = "r1" +:+ newline +:+ "r2" +:+ newline.
Proof. split_and!; by vm_compute. Qed.

(** Two entries, the second with a line that is cut after a byte, then a compression. *)
Definition cut_io : Io := mkIo true true true true true (Some 1%nat) true.
Definition demo_events : list Event := [received "/a" "r1"; Received (demo_config "/a") cut_io (demo_entry "r2"); Compressed 0 good_gz].
Definition old_files : FS := {[("/a/t/k", "log_000007.jsonl") := "old"]}.

Lemma prompt_lines_kept_witness :
  exists pieces, Forall2 (left_of demo_to_string "t/k") demo_events pieces /\ text Some (fs (demo_run old_files demo_events)) "/a/t/k" 12 = text Some old_files "/a/t/k" 12 +:+ concat pieces.
Proof.
  refine (proj1 (prompt_lines_kept demo_to_string id Some (fun _ => eq_refl) "/a/t/k" "t/k" old_files 12 0 2 _ _ demo_events _ _)).
  - by vm_compute.
  - split_and!; by vm_compute.
  - intros v Hv. assert (forall io rid, io_read_dir io = true -> String.length rid = 2%nat -> good_event demo_to_string "/a/t/k" "t/k" 0 2 (Received (demo_config "/a") io (demo_entry rid))) as H.
    { intros io rid Hio Hr. split; [by split |]. intros _. split_and!; [done | by vm_compute | exists rid; split; [done | unfold bytes; lia]]. }
    unfold demo_events in Hv. rewrite !elem_of_cons, elem_of_nil in Hv. destruct Hv as [-> | [-> | [-> | []]]]; [by apply H | by apply H | done].
  - by vm_compute.
Defined.

(** The directory changes from [/a] to [/b], where a log was kept before. *)
Lemma moved_log_overwrites_witness :
  let w := demo_run {[("/b/t/k", "log_000002.jsonl") := "kept"]} [received "/a" "r1"] in
  fs w !! ("/b/t/k", "log_000002.jsonl") = Some "kept" /\ fs (on_entry demo_to_string (demo_config "/b") good_io (demo_entry "r2") w) !! ("/b/t/k", "log_000002.jsonl") = Some ("r2" +:+ newline).
Proof.
  intros w. split; [by vm_compute |].
  refine (proj1 (moved_log_overwrites demo_to_string (demo_config "/b") (demo_entry "r2") w (mkOpen ("/a/t/k", "log_000001.jsonl") 3 1) "r2" _ _ _ _ _)); by vm_compute.
Defined.
End PromptFiles.
