(* ===== verification/LogWriter.v ===== *)
(** * LogWriter: from the log entries to the table (boom-main)

    Models the background writer of [boom-main/src/request_log.rs]: the bounded channel, the
    buffer of the task, the batches with their one retry, and the counter of dropped
    entries.  The entries are those that [Requests] pushes on its books.  What the database
    makes of a batch is an argument: a statement that is not confirmed, because it failed
    or was given up after ten seconds, may have stored rows all the same. *)

From S2P Require Import Prelude.

Module LogWriter.

Definition LOG_CHANNEL_CAPACITY : Z := 100000.
Definition LOG_BATCH_SIZE : Z := 2000.
(** The placeholders of a row, and the limit of the protocol for a statement. *)
Definition columns : Z := 25.
Definition parameter_limit : Z := 65535.

Section writer.
Context {R : Type}.

Record Writer := mkWriter { channel : list R; buffer : list R; dropped : Z; log_table : list R }.
Definition start_log_writer : Writer := mkWriter [] [] 0 [].

Definition try_enqueue (w : Writer) (log : R) : Writer :=
  if Z.of_nat (length (channel w)) <? LOG_CHANNEL_CAPACITY then mkWriter (channel w ++ [log]) (buffer w) (dropped w) (log_table w)
  else mkWriter (channel w) (buffer w) (dropped w +u 1) (log_table w).

(** Without a database there is no writer. *)
Definition log_request (w : option Writer) (log : R) : option Writer := (fun w => try_enqueue w log) <$> w.

(** What comes of a statement, with the rows that it stored: confirmed with their number,
    an error, or given up. *)
Inductive Attempt := Inserted (rows : list R) | InsertError (rows : list R) | InsertTimeout (rows : list R).

Definition add_dropped (w : Writer) (n : nat) : Writer := mkWriter (channel w) (buffer w) (dropped w +u Z.of_nat n) (log_table w).
Definition store (w : Writer) (rows : list R) : Writer := mkWriter (channel w) (buffer w) (dropped w) (log_table w ++ rows).

Definition inserted (w : Writer) (batch rows : list R) : Writer :=
  let w := store w rows in if (length rows <? length batch)%nat then add_dropped w (length batch - length rows) else w.

(** The second attempt, and the first. *)
Definition retry (w : Writer) (batch : list R) (second : Attempt) : Writer :=
  match second with
  | Inserted rows => inserted w batch rows
  | InsertError rows | InsertTimeout rows => add_dropped (store w rows) (length batch)
  end.
Definition flush_batch (w : Writer) (first second : Attempt) : Writer :=
  let batch := buffer w in
  let w := mkWriter (channel w) [] (dropped w) (log_table w) in
  match first with
  | Inserted rows => inserted w batch rows
  | InsertError rows | InsertTimeout rows => retry (store w rows) batch second
  end.

(** The two arms of the task's loop that touch entries. *)
Definition on_recv (w : Writer) (first second : Attempt) : Writer :=
  match channel w with
  | [] => w
  | log :: rest =>
    let w := mkWriter rest (buffer w ++ [log]) (dropped w) (log_table w) in
    if LOG_BATCH_SIZE <=? Z.of_nat (length (buffer w)) then flush_batch w first second else w
  end.
Definition on_tick (w : Writer) (first second : Attempt) : Writer :=
  match buffer w with [] => w | _ => flush_batch w first second end.

(** ** The writer at work *)

Definition stored_rows (a : Attempt) : list R := match a with Inserted rows | InsertError rows | InsertTimeout rows => rows end.
(** A statement stores some of the rows of its batch, each at most once. *)
Definition stores (batch : list R) (a : Attempt) : Prop := exists rest, batch ≡ₚ stored_rows a ++ rest.
(** The rows that statements of a flush stored without a confirmation. *)
Definition unconfirmed (first second : Attempt) : list R :=
  match first with
  | Inserted _ => []
  | InsertError rows | InsertTimeout rows => rows ++ match second with Inserted _ => [] | InsertError rows' | InsertTimeout rows' => rows' end
  end.

(** The batch of the next statement, and whether there is one. *)
Definition next_batch (w : Writer) : list R := buffer w ++ take 1 (channel w).
Definition recv_flushes (w : Writer) : bool := match channel w with [] => false | _ => LOG_BATCH_SIZE <=? Z.of_nat (length (next_batch w)) end.
Definition tick_flushes (w : Writer) : bool := match buffer w with [] => false | _ => true end.

(** The writer, all the entries that were logged, and the rows that are in the table
    without a confirmation. *)
Record World := mkWorld { writer : Writer; offered : list R; echoes : list R }.

Inductive writer_step : World -> World -> Prop :=
| ws_log x log : writer_step x (mkWorld (try_enqueue (writer x) log) (offered x ++ [log]) (echoes x))
| ws_recv x a b :
    stores (next_batch (writer x)) a -> stores (next_batch (writer x)) b ->
    writer_step x (mkWorld (on_recv (writer x) a b) (offered x) (echoes x ++ if recv_flushes (writer x) then unconfirmed a b else []))
| ws_tick x a b :
    stores (buffer (writer x)) a -> stores (buffer (writer x)) b ->
    writer_step x (mkWorld (on_tick (writer x) a b) (offered x) (echoes x ++ if tick_flushes (writer x) then unconfirmed a b else [])).

(** Every entry is in one place, those that are lost are counted; what is in the table
    besides are echoes, and no entry is there more than twice. *)
Definition placed (w : Writer) (offered echoes : list R) : Prop :=
  exists confirmed lost twice,
    log_table w ≡ₚ confirmed ++ echoes
    /\ offered ≡ₚ confirmed ++ lost ++ buffer w ++ channel w /\ dropped w = wrap64 (Z.of_nat (length lost))
    /\ (confirmed ++ lost) ++ (confirmed ++ lost) ≡ₚ log_table w ++ twice.
Record Accounted (x : World) : Prop := {
  ac_placed : placed (writer x) (offered x) (echoes x);
  ac_channel : Z.of_nat (length (channel (writer x))) <= LOG_CHANNEL_CAPACITY;
  ac_buffer : Z.of_nat (length (buffer (writer x))) < LOG_BATCH_SIZE;
}.

Lemma dropped_more (lost more : list R) n : n = wrap64 (Z.of_nat (length lost)) -> n +u Z.of_nat (length more) = wrap64 (Z.of_nat (length (lost ++ more))).
Proof. intros ->. rewrite length_app, Nat2Z.inj_add. unfold u64_add, wrap64. by rewrite Zplus_mod_idemp_l. Qed.
Lemma dropped_none (lost : list R) n : n = wrap64 (Z.of_nat (length lost)) -> n = wrap64 (Z.of_nat (length (lost ++ []))).
Proof. by rewrite app_nil_r. Qed.

(** What a flush does: some rows confirmed, the others dropped, and the echoes. *)
Lemma flush_batch_spec w a b :
  stores (buffer w) a -> stores (buffer w) b ->
  exists rows gone, buffer w ≡ₚ rows ++ gone
  /\ channel (flush_batch w a b) = channel w /\ buffer (flush_batch w a b) = []
  /\ log_table (flush_batch w a b) ≡ₚ log_table w ++ rows ++ unconfirmed a b
  /\ (forall lost, dropped w = wrap64 (Z.of_nat (length lost)) -> dropped (flush_batch w a b) = wrap64 (Z.of_nat (length (lost ++ gone))))
  /\ exists more, buffer w ++ buffer w ≡ₚ (rows ++ unconfirmed a b) ++ more.
Proof.
  intros [ra Ha] [rb Hb].
  assert (forall w0 rows rest, buffer w ≡ₚ rows ++ rest ->
    channel (inserted w0 (buffer w) rows) = channel w0 /\ buffer (inserted w0 (buffer w) rows) = buffer w0
    /\ log_table (inserted w0 (buffer w) rows) = log_table w0 ++ rows
    /\ forall lost, dropped w0 = wrap64 (Z.of_nat (length lost)) -> dropped (inserted w0 (buffer w) rows) = wrap64 (Z.of_nat (length (lost ++ rest)))) as Hins.
  { intros w0 rows rest Hp. pose proof (Permutation_length Hp) as Hlen. rewrite length_app in Hlen. unfold inserted.
    destruct (Nat.ltb_spec (length rows) (length (buffer w))); cbn; split_and!; try done; intros lost Hd.
    - replace (length (buffer w) - length rows)%nat with (length rest) by lia. by apply dropped_more.
    - assert (rest = []) as -> by (apply length_zero_iff_nil; lia). by apply dropped_none. }
  assert (forall rows rest, buffer w ≡ₚ rows ++ rest -> exists more, buffer w ++ buffer w ≡ₚ rows ++ more) as Hone
    by (intros rows rest Hp; exists (rest ++ buffer w); rewrite Hp at 1; by rewrite <- app_assoc).
  assert (buffer w ++ buffer w ≡ₚ (stored_rows b ++ stored_rows a) ++ rb ++ ra) as Htwo.
  { rewrite Hb at 1. rewrite Ha at 1. rewrite <- !app_assoc. f_equiv. rewrite !app_assoc. f_equiv. apply Permutation_app_comm. }
  unfold flush_batch. destruct a as [rows | rows | rows]; cbn [stored_rows unconfirmed] in *.
  - destruct (Hins (mkWriter (channel w) [] (dropped w) (log_table w)) rows ra Ha) as (-> & -> & -> & Hd). exists rows, ra.
    split_and!; rewrite ?app_nil_r; try done. by eapply Hone.
  - destruct b as [rows' | rows' | rows']; cbn [stored_rows retry unconfirmed] in *;
      [| exists [], (buffer w); cbn; rewrite <- !app_assoc; split_and!; try done; [intros lost; apply dropped_more | exists (rb ++ ra); etransitivity; [exact Htwo |]; f_equiv; apply Permutation_app_comm]..].
    set (w1 := store _ rows). destruct (Hins w1 rows' rb Hb) as (-> & -> & -> & Hd). exists rows', rb. rewrite app_nil_r.
    split_and!; try done; [cbn; rewrite <- app_assoc; f_equiv; apply Permutation_app_comm | by exists (rb ++ ra)].
  - destruct b as [rows' | rows' | rows']; cbn [stored_rows retry unconfirmed] in *;
      [| exists [], (buffer w); cbn; rewrite <- !app_assoc; split_and!; try done; [intros lost; apply dropped_more | exists (rb ++ ra); etransitivity; [exact Htwo |]; f_equiv; apply Permutation_app_comm]..].
    set (w1 := store _ rows). destruct (Hins w1 rows' rb Hb) as (-> & -> & -> & Hd). exists rows', rb. rewrite app_nil_r.
    split_and!; try done; [cbn; rewrite <- app_assoc; f_equiv; apply Permutation_app_comm | by exists (rb ++ ra)].
Qed.

(** A flush leaves nothing in the buffer, and nothing unaccounted. *)
Lemma flush_accounted w off ech a b :
  stores (buffer w) a -> stores (buffer w) b -> placed w off ech -> Z.of_nat (length (channel w)) <= LOG_CHANNEL_CAPACITY ->
  Accounted (mkWorld (flush_batch w a b) off (ech ++ unconfirmed a b)).
Proof.
  intros Ha Hb (confirmed & lost & twice & Ht & Ho & Hd & H2) Hc.
  destruct (flush_batch_spec w a b Ha Hb) as (rows & gone & Hp & Ec & Eb & Et & Ed & more & Hm).
  split; cbn [writer offered echoes]; [| by rewrite Ec | rewrite Eb; cbn; unfold LOG_BATCH_SIZE; lia].
  exists (confirmed ++ rows), (lost ++ gone), (twice ++ more). rewrite Ec, Eb. split_and!.
  - rewrite Et, Ht, <- !app_assoc. f_equiv. by rewrite (Permutation_app_swap_app ech rows).
  - rewrite Ho, Hp. cbn. rewrite <- !app_assoc. f_equiv. by rewrite (Permutation_app_swap_app lost rows).
  - by apply Ed.
  - assert ((confirmed ++ rows) ++ lost ++ gone ≡ₚ (confirmed ++ lost) ++ buffer w) as E.
    { rewrite Hp, <- !app_assoc. f_equiv. by rewrite (Permutation_app_swap_app lost rows). }
    rewrite E, Et. transitivity (((confirmed ++ lost) ++ confirmed ++ lost) ++ buffer w ++ buffer w).
    { rewrite <- !app_assoc. do 2 f_equiv. rewrite (Permutation_app_swap_app (buffer w) confirmed). f_equiv. by rewrite (Permutation_app_swap_app (buffer w) lost). }
    rewrite H2, Hm, <- !app_assoc. f_equiv. rewrite (Permutation_app_swap_app twice rows). f_equiv. by rewrite (Permutation_app_swap_app twice (unconfirmed a b)).
Qed.

Lemma step_accounted x y : Accounted x -> writer_step x y -> Accounted y.
Proof.
  intros [Hp Hc Hb] Hst. destruct Hst as [x log | x a b Ha Hb' | x a b Ha Hb']; destruct x as [w off ech]; cbn [writer offered echoes] in *.
  - destruct Hp as (confirmed & lost & twice & Ht & Ho & Hd & H2).
    unfold try_enqueue. destruct (Z.ltb_spec (Z.of_nat (length (channel w))) LOG_CHANNEL_CAPACITY); split; cbn [writer offered echoes channel buffer dropped log_table]; try done.
    + exists confirmed, lost, twice. split_and!; try done. cbn [buffer channel]. by rewrite Ho, !app_assoc.
    + rewrite length_app. cbn [length]. lia.
    + exists confirmed, (lost ++ [log]), (twice ++ [log; log]). split_and!; [done | | change 1 with (Z.of_nat (length [log])); by apply dropped_more |].
      * cbn [buffer channel]. rewrite Ho, <- !app_assoc. f_equiv. f_equiv. cbn. rewrite app_assoc. apply Permutation_app_comm.
      * cbn [log_table]. rewrite (app_assoc (log_table w)), <- H2, <- !app_assoc. do 2 f_equiv. rewrite (Permutation_app_swap_app [log] confirmed). f_equiv.
        by rewrite (Permutation_app_swap_app [log] lost).
  - unfold on_recv, next_batch, recv_flushes in *. destruct (channel w) as [| log rest] eqn:E; [rewrite app_nil_r; by split; cbn; rewrite ?E |].
    cbn [take] in *. rewrite firstn_O in *. cbn [buffer].
    assert (placed (mkWriter rest (buffer w ++ [log]) (dropped w) (log_table w)) off ech) as Hp'.
    { destruct Hp as (confirmed & lost & twice & Ht & Ho & Hd & H2). exists confirmed, lost, twice. split_and!; try done. cbn.
      rewrite Ho, E. by rewrite <- (app_assoc (buffer w)). }
    cbn in Hc. unfold next_batch. rewrite E. cbn [take]. rewrite firstn_O. destruct (Z.leb_spec LOG_BATCH_SIZE (Z.of_nat (length (buffer w ++ [log])))).
    + apply flush_accounted; cbn [channel buffer dropped log_table]; try done. lia.
    + rewrite app_nil_r. by split; cbn [writer offered echoes channel buffer dropped log_table]; [| lia |].
  - unfold on_tick, tick_flushes. destruct (buffer w) as [| log rest] eqn:E; [rewrite app_nil_r; by split; cbn; rewrite ?E |]. rewrite <- E in *.
    by apply flush_accounted.
Qed.

Definition fresh_world : World := mkWorld start_log_writer [] [].

(** C14: no log entry is lost unseen.  Whatever the order of entries, ticks and failures of
    the database, every entry logged so far was confirmed by the database, or waits in the
    channel or the buffer, or is one of those that the counter of dropped entries counts
    (modulo 2^64).  The table holds the confirmed entries, and besides only rows of
    statements that failed or were given up and stored them all the same; no entry is in it
    more than twice.  And a statement has at most 2000 rows, which keeps its parameters
    within the limit of the protocol. *)
Theorem log_entries_accounted x :
  rtc writer_step fresh_world x ->
  (exists confirmed lost twice,
     offered x ≡ₚ confirmed ++ lost ++ buffer (writer x) ++ channel (writer x)
     /\ dropped (writer x) = wrap64 (Z.of_nat (length lost))
     /\ log_table (writer x) ≡ₚ confirmed ++ echoes x
     /\ offered x ++ offered x ≡ₚ log_table (writer x) ++ twice)
  /\ Z.of_nat (length (channel (writer x))) <= LOG_CHANNEL_CAPACITY /\ Z.of_nat (length (next_batch (writer x))) * columns <= parameter_limit.
Proof.
  intros Hr. assert (Accounted x) as [(confirmed & lost & twice & Ht & Ho & Hd & H2) Hc Hb].
  { revert Hr. apply (reachable_invariant writer_step Accounted); [| apply step_accounted].
    split; cbn; unfold LOG_CHANNEL_CAPACITY, LOG_BATCH_SIZE; [by exists [], [], [] | lia | lia]. }
  split_and!; [| done |].
  - set (wait := buffer (writer x) ++ channel (writer x)) in *. exists confirmed, lost, (twice ++ wait ++ wait). split_and!; [done | done | done |].
    rewrite app_assoc, <- H2, Ho, !(app_assoc confirmed), <- !(app_assoc (confirmed ++ lost)). f_equiv. rewrite (Permutation_app_swap_app wait (confirmed ++ lost)). done.
  - unfold next_batch. rewrite length_app, length_take. unfold columns, parameter_limit, LOG_BATCH_SIZE in *. lia.
Qed.

(** A statement that is given up after ten seconds is sent again.  When the database had
    stored its rows, they are in the table twice; when the second is given up too, they
    are in the table, and counted as dropped. *)
Theorem given_up_rows w rows :
  log_table (flush_batch w (InsertTimeout (buffer w)) (Inserted (buffer w))) = log_table w ++ buffer w ++ buffer w
  /\ dropped (flush_batch w (InsertTimeout (buffer w)) (Inserted (buffer w))) = dropped w
  /\ log_table (flush_batch w (InsertTimeout (buffer w)) (InsertTimeout rows)) = log_table w ++ buffer w ++ rows
  /\ dropped (flush_batch w (InsertTimeout (buffer w)) (InsertTimeout rows)) = dropped w +u Z.of_nat (length (buffer w)).
Proof.
  unfold flush_batch, retry, inserted. rewrite Nat.ltb_irrefl. cbn. by rewrite <- !app_assoc.
Qed.
End writer.

(** ** Examples *)

Definition demo_writer : Writer := try_enqueue start_log_writer "r1".

(** One entry, received and flushed by the timer; the first statement is given up and has
    stored its row. *)
Definition demo_flushed : Writer (R := string) :=
  on_tick (on_recv demo_writer (Inserted ["r1"]) (InsertError [])) (InsertTimeout ["r1"]) (Inserted ["r1"]).
Definition demo_world : World (R := string) := mkWorld demo_flushed ["r1"] ["r1"].

Lemma log_entries_accounted_witness : exists confirmed lost,
  ["r1"] ≡ₚ confirmed ++ lost ++ buffer demo_flushed ++ channel demo_flushed /\ log_table demo_flushed ≡ₚ confirmed ++ ["r1"] /\ log_table demo_flushed = ["r1"; "r1"].
Proof.
  assert (rtc writer_step fresh_world demo_world) as Hr.
  { eapply rtc_l; [exact (ws_log fresh_world "r1") |]. eapply rtc_l.
    - apply (ws_recv _ (Inserted ["r1"]) (InsertError [])); cbn; [exists []; reflexivity | exists ["r1"]; reflexivity].
    - apply rtc_once. assert (demo_world = mkWorld demo_flushed ["r1"] ([] ++ ["r1"])) as -> by reflexivity.
      apply (ws_tick (mkWorld (on_recv demo_writer (Inserted ["r1"]) (InsertError [])) ["r1"] []) (InsertTimeout ["r1"]) (Inserted ["r1"])); cbn; exists []; reflexivity. }
  destruct (log_entries_accounted demo_world Hr) as [(confirmed & lost & twice & Ho & _ & Ht & _) _]. exists confirmed, lost.
  split; [exact Ho |]. split; [exact Ht | vm_compute; reflexivity].
Defined.

End LogWriter.
