(* ===== verification/Requests.v ===== *)
(** * Requests: the life of a request (boom-main)

    Models, of [boom-main/src/routes.rs], the handlers of a chat completion and of an
    Anthropic message from their arrival to the end of their answer ([chat_completions_inner],
    [messages], [acquire_fc_guard], [LoggedStream]), [boom-main/src/kvc.rs], and the
    logging of errors of [boom-main/src/request_log.rs].

    A handler is cut where it awaits: the arrival (access, model, plan, route), the
    admission queue, the answer of the provider, the end of a stream.  Each part is a
    function on the server's state; [RequestLife] interleaves the parts of all live
    requests.  The
    prompt log, the debug store and the tracing are left out. *)

From S2P Require Import Prelude FlowControl FlowSystem Core Text SlidingWindow PlanStore Stores InFlight PlanCharge Rebalance Float64 KvIndex Policy.
From S2P Require Import Messages Router Json Config Deployments Transcoder Chat Anthropic Sse AnthropicProvider AnthropicStream ChatStream Auth Access.
From S2P Require Import AgentStats.

Module Requests.
Import Core SlidingWindow PlanStore Stores InFlight PlanCharge Policy Messages HybridRouter Router Auth Access.

(** ** Characters of a request *)

Definition part_chars (p : ContentPart) : Z := match p with PartText t => str_len t | _ => 0 end.
Definition content_chars (c : MessageContent) : Z :=
  match c with Messages.Text t => str_len t | Parts l => zsum part_chars l | Null => 0 end.
Definition chat_chars (ms : list Message) : Z := zsum (fun m => content_chars (content m)) ms.

(** [messages] counts the Anthropic messages, and not the system prompt. *)
Definition block_chars (b : Anthropic.AnthropicContentBlock) : Z := match b with Anthropic.BText t _ => str_len t | _ => 0 end.
Definition anthropic_chars (r : Anthropic.AnthropicMessagesRequest) : Z :=
  zsum (fun m => match Anthropic.am_content m with Anthropic.AText t => str_len t | Anthropic.ABlocks l => zsum block_chars l end)
    (Anthropic.ar_messages r).

(** ** Data *)

(** What the KV-aware routing adds to the log. *)
Record KvColumns := mkKvColumns {
  schedule_policy : option string;
  kc_hit_blocks : option Z;
  kc_input_blocks : option Z;
  trie_blocks : option Z;
  trie_max_blocks : option Z;
  request_tokens : option Z;
}.
Definition no_columns : KvColumns := mkKvColumns None None None None None None.

(** The columns of a log entry that are not times, names or texts. *)
Record RequestLog := mkRequestLog {
  lg_request_id : string;
  lg_key_hash : string;
  lg_team_id : option string;
  lg_model : string;
  lg_model_name : option string;
  lg_api_path : string;
  lg_is_stream : bool;
  lg_status_code : Z;
  lg_error_type : option string;
  lg_input_tokens : option Z;
  lg_output_tokens : option Z;
  lg_cached_tokens : option Z;
  lg_deployment_id : option string;
  lg_client_ip : string;
  lg_columns : KvColumns;
}.

(** [moka] with a time to live, for the rejections that are logged once a minute. *)
Class DedupCache (C : Type) := { dedup_seen : Z -> C -> string -> bool; dedup_insert : Z -> C -> string -> C }.

(** What a composite provider reports besides its answer. *)
Record ProviderBilling {D : Type} := mkBilling { actual_cost : option (D * D * D); actual_usage : option Chat.Usage }.
#[global] Arguments ProviderBilling : clear implicits.
#[global] Arguments mkBilling {D}.
Definition no_billing {D : Type} : ProviderBilling D := mkBilling None None.

(** The settings that the handlers read. *)
Record Settings := mkSettings {
  public_models : list string;
  rate_limit : RateLimitSettings;
  window_settings : list (list Z);
  policy_setting : string;
  kvc_max_blocks : Z;
  health_settings : Config.DeploymentHealthCheckSettings;
}.

(** A provider chosen for a request. *)
Record Target := mkTarget {
  t_provider : Provider;
  t_deployment_id : option string;
  inflight_model : string;
  t_columns : KvColumns;
}.

(** A prefix to be recorded under a worker, off the request's path. *)
Record RecordTask := mkRecordTask { rt_model : string; rt_worker : string; rt_bytes : list Z }.

Section requests.
Context {D P S T C : Type} `{DecimalOps D} `{SchedulePolicy FlowControl.FlowController P} `{ClassificationStrategy T S} `{DedupCache C}.

(** A request after its parsing and the authentication of its key. *)
Record Request := mkRequest {
  rq_id : string;
  identity : AuthIdentity;
  rq_path : string;
  rq_model : string;
  rq_messages : list Message;
  rq_tools : option (list T);
  rq_stream : bool;
  client_ip : string;
  input_chars : Z;
  prefix_bytes : list Z;
}.
Definition is_messages (req : Request) : bool := bool_decide (rq_path req = "/v1/messages").
(** Whether an error before the provider is told in the form of a stream. *)
Definition early_stream (req : Request) : bool := is_messages req && rq_stream req.

(** What is kept beside the quotas. *)
Record Books := mkBooks {
  request_rate : gmap string Rebalance.Inner;
  agent_stats : AgentStats.AgentInner;
  failure_counter : gmap string Z;
  offline_tasks : list string;
  record_tasks : list RecordTask;
  rejections : C;
  logs : list RequestLog;
}.

Record Server := mkServer {
  gateway : Gateway D;
  alias_store : AliasStore;
  policy : P;
  classifier : option (HybridRouter S);
  inflight : InFlightTracker;
  books : Books;
}.

Definition set_gateway (s : Server) (g : Gateway D) : Server := mkServer g (alias_store s) (policy s) (classifier s) (inflight s) (books s).
Definition set_inflight (s : Server) (t : InFlightTracker) : Server := mkServer (gateway s) (alias_store s) (policy s) (classifier s) t (books s).
Definition set_books (s : Server) (b : Books) : Server := mkServer (gateway s) (alias_store s) (policy s) (classifier s) (inflight s) b.
Definition set_limiter (s : Server) (l : SlidingWindowLimiter) : Server := set_gateway s (with_limiter (gateway s) l).

(** The router is a view of the same stores. *)
Definition router_of (s : Server) : Router D P S := mkRouter (PlanCharge.deployment_store (gateway s)) (alias_store s) (policy s) (classifier s).
Definition set_policy_of (s : Server) (r : Router D P S) : Server :=
  mkServer (gateway s) (alias_store s) (Router.policy r) (classifier s) (inflight s) (books s).

(** ** The books *)

Definition push_log (b : Books) (l : RequestLog) : Books :=
  mkBooks (request_rate b) (agent_stats b) (failure_counter b) (offline_tasks b) (record_tasks b) (rejections b) (l :: logs b).

Definition error_log (req : Request) (e : GatewayError) (deployment : option string) (usage : option Chat.Usage) : RequestLog :=
  mkRequestLog (rq_id req) (id_key_hash (identity req)) (id_team_id (identity req)) (rq_model req) None (rq_path req) (rq_stream req)
    (status_code e) (Some (error_type e))
    ((fun u => Z.min (Chat.prompt_tokens u) (2 ^ 31 - 1)) <$> usage) ((fun u => Z.min (Chat.completion_tokens u) (2 ^ 31 - 1)) <$> usage)
    (u ← usage; d ← Chat.prompt_tokens_details u; d) deployment (client_ip req) no_columns.

Definition dedup_key (req : Request) (e : GatewayError) : string :=
  error_type e +:+ ":" +:+ id_key_hash (identity req) +:+ ":" +:+ rq_model req.

Definition log_error_with_usage (now : Z) (b : Books) (req : Request) (e : GatewayError) (deployment : option string)
    (usage : option Chat.Usage) : Books :=
  if should_dedup_log e then
    if dedup_seen now (rejections b) (dedup_key req e) then b
    else push_log (mkBooks (request_rate b) (agent_stats b) (failure_counter b) (offline_tasks b) (record_tasks b)
                     (dedup_insert now (rejections b) (dedup_key req e)) (logs b)) (error_log req e deployment usage)
  else push_log b (error_log req e deployment usage).

Definition log_error (now : Z) (s : Server) (req : Request) (e : GatewayError) (deployment : option string) : Server :=
  set_books s (log_error_with_usage now (books s) req e deployment None).

(** A request that its provider took: the counters of its path and of its deployment. *)
Definition count_served (now : Z) (b : Books) (path : string) (deployment : option string) : Books :=
  mkBooks (match deployment with Some did => Rebalance.rate_record now (request_rate b) did | None => request_rate b end)
    (AgentStats.agents_record now path (agent_stats b)) (failure_counter b) (offline_tasks b) (record_tasks b) (rejections b) (logs b).
Definition count_tokens (now : Z) (b : Books) (path : string) (input output : Z) : Books :=
  mkBooks (request_rate b) (AgentStats.record_tokens now path input output (agent_stats b)) (failure_counter b) (offline_tasks b)
    (record_tasks b) (rejections b) (logs b).

(** The counters of [health_monitor.rs], with the deployments they may take offline. *)
Definition with_monitor (f : Deployments.Monitor D -> Deployments.Monitor D) (s : Server) : Server :=
  let b := books s in
  let m := f (Deployments.mkMonitor ∅ (failure_counter b) [] (PlanCharge.deployment_store (gateway s)) (offline_tasks b)) in
  set_books s (mkBooks (request_rate b) (agent_stats b) (Deployments.request_failure_counter m) (Deployments.pending m) (record_tasks b)
                 (rejections b) (logs b)).
Definition failure (cfg : Settings) (did : option string) (e : GatewayError) : Server -> Server :=
  with_monitor (Deployments.record_request_failure (health_settings cfg) did e).
Definition no_failure (cfg : Settings) (did : option string) : Server -> Server :=
  with_monitor (Deployments.reset_request_failure (health_settings cfg) did).

(** ** The parts of a handler *)

Inductive Reply := Refused (e : GatewayError) (stream : bool) | Failed (e : GatewayError) (stream : bool) | Served | Cancelled | Panicked.

(** Where a live request awaits, and the guards it holds: its charge has those of its key
    and team, [slot] is that of the admission queue, [metric] that of the in-flight
    counters, and a stream has taken the one of the key. *)
Inductive Phase :=
| Queued (charge : PlanCharge D) (target : Target)
| Calling (charge : PlanCharge D) (target : Target) (slot : option FlowSystem.Guard) (metric : option InFlightGuard)
| Streaming (charge : PlanCharge D) (target : Target) (slot : option FlowSystem.Guard) (metric : InFlightGuard) (key_guard : option Z).

Definition Next : Type := Reply + Phase.

(** *** Routing *)

Definition columns_of (cfg : Settings) (policy_name : string) (blocks : Z) (req : Request) (sel : Selection) : KvColumns :=
  mkKvColumns (Some (if degraded sel && bool_decide (policy_name = "kvc_aware") then "kvc_aware→lowest_load" else policy_name))
    (Some (kv_hit_blocks sel)) (Some (kv_input_blocks sel)) (Some blocks) (Some (kvc_max_blocks cfg))
    (if bool_decide (prefix_bytes req = []) then None else Some (Z.of_nat (length (prefix_bytes req)))).

(** At most 32 tasks run at a time; the others are not started. *)
Definition spawn_record (b : Books) (resolved : string) (p : Provider) (bytes : list Z) : Books :=
  match p_kv_worker_id p with
  | Some w =>
    if (length (record_tasks b) <? 32)%nat
    then mkBooks (request_rate b) (agent_stats b) (failure_counter b) (offline_tasks b) (record_tasks b ++ [mkRecordTask resolved w bytes])
           (rejections b) (logs b)
    else b
  | None => b
  end.

(** [KvcOrchestrator::route], with the number of blocks of the index, if there is one;
    outside, [None] is a panic. *)
Definition kvc_route (env : PolicyEnv FlowControl.FlowController) (index : option Z) (cfg : Settings) (s : Server) (req : Request)
    (resolved : string) (candidates : list Provider) : option (Server * option Target) :=
  if negb (bool_decide (policy_setting cfg = "kvc_aware")) || (length candidates <=? 1)%nat then Some (s, None)
  else
    match index with
    | None => Some (s, None)
    | Some blocks =>
      match select_with_candidates env (router_of s) resolved candidates (Some (id_key_hash (identity req))) (input_chars req) (prefix_bytes req) with
      | None => None
      | Some (r, None) => Some (set_policy_of s r, None)
      | Some (r, Some sel) =>
        let s := set_policy_of s r in
        Some (set_books s (spawn_record (books s) resolved (provider sel) (prefix_bytes req)),
              Some (mkTarget (provider sel) (p_deployment_id (provider sel)) (resolve_model_name r resolved)
                      (columns_of cfg (router_policy_name r) blocks req sel)))
      end
    end.

Definition route (env : PolicyEnv FlowControl.FlowController) (index : option Z) (cfg : Settings) (s : Server) (req : Request) (resolved : string)
  : option (Server * option Target) :=
  match kvc_route env index cfg s req resolved (default [] (candidates_for (router_of s) resolved)) with
  | None => None
  | Some (s, Some t) => Some (s, Some t)
  | Some (s, None) =>
    match select_provider_with_prefix env (router_of s) resolved (Some (id_key_hash (identity req))) (input_chars req) [] with
    | None => None
    | Some (r, sel) =>
      Some (set_policy_of s r,
            (fun sel => mkTarget (provider sel) (p_deployment_id (provider sel)) (resolve_model_name r resolved) no_columns) <$> sel)
    end
  end.

(** *** The in-flight metrics *)

Definition new_metric (s : Server) (req : Request) (target : Target) : Server * InFlightGuard :=
  let '(t, g) := match t_deployment_id target with
                 | Some did => new_for_deployment (inflight s) (inflight_model target) did (input_chars req)
                 | None => inflight_new (inflight s) (inflight_model target) (input_chars req)
                 end in
  (set_inflight s t, g).
Definition drop_metric (s : Server) (o : option InFlightGuard) : Server :=
  match o with Some g => set_inflight s (inflight_drop (inflight s) g) | None => s end.
Definition drop_charge (s : Server) (c : PlanCharge D) : Server := set_gateway s (charge_drop (gateway s) c).

(** The call of the provider: a stream is counted only once it has begun. *)
Definition call (s : Server) (req : Request) (c : PlanCharge D) (target : Target) (slot : option FlowSystem.Guard) : Server * Next :=
  if rq_stream req then (s, inr (Calling c target slot None))
  else let '(s, g) := new_metric s req target in (s, inr (Calling c target slot (Some g))).

(** *** Arrival *)

(** The model for the quota weight and the cost rate. *)
Definition quota_model (s : Server) (model : string) : string := default model (resolve_model (router_of s) model).

Definition arrive (now : Z) (q : FlowControl.FlowController) (index : option Z) (cfg : Settings) (s : Server) (req : Request) : Server * Next :=
  let r := router_of s in
  let refuse s e := (log_error now s req e None, inl (Refused e (early_stream req))) in
  match check_model_access (identity req) (rq_model req) r (public_models cfg) with
  | Some e => refuse s e
  | None =>
    let resolved := resolve_request_model r (rq_model req) (rq_messages req) (rq_tools req) in
    let weight := get_quota_ratio (PlanCharge.deployment_store (gateway s)) (quota_model s (rq_model req)) in
    let '(rpm, tpm) := effective_key_limits (id_rpm_limit (identity req)) (id_tpm_limit (identity req)) (rate_limit cfg) in
    match check_plan_limits now (gateway s) (id_key_hash (identity req)) (id_team_id (identity req)) (rq_model req)
            (quota_model s (rq_model req)) rpm tpm (effective_window_limits (window_settings cfg) (rate_limit cfg)) weight with
    | (g, inl e) => refuse (set_gateway s g) e
    | (g, inr c) =>
      let s := set_gateway s g in
      match route (mkPolicyEnv (inflight s) (Some q)) index cfg s req resolved with
      | None => (drop_charge s c, inl Panicked)
      | Some (s, None) => let '(s, reply) := refuse s (ModelNotFound resolved) in (drop_charge s c, reply)
      | Some (s, Some target) =>
        match t_deployment_id target with
        | Some _ => (s, inr (Queued c target))
        | None => call s req c target None
        end
      end
    end
  end.

(** *** The admission queue *)

Inductive FlowOutcome := Granted (slot : option FlowSystem.Guard) | TimedOut (waiters : Z) | TooLong (chars max_context : Z).

Definition flow_error (did : string) (o : FlowOutcome) : GatewayError :=
  match o with
  | TimedOut waiters => FlowControlQueueTimeout did waiters
      ("Deployment '" +:+ did +:+ "' flow control queue timeout — too many concurrent requests")
  | TooLong chars max_context => RateLimitExceeded None
      ("Request context (" +:+ show chars +:+ " chars) exceeds deployment max_context limit (" +:+ show max_context +:+ " chars)")
      "flow_control_context" None None None
  | Granted _ => InternalError ""
  end.

Definition flow_outcome (now : Z) (s : Server) (req : Request) (c : PlanCharge D) (target : Target) (o : FlowOutcome) : Server * Next :=
  match o with
  | Granted slot => call s req c target slot
  | _ =>
    let e := flow_error (default "" (t_deployment_id target)) o in
    (drop_charge (log_error now s req e (t_deployment_id target)) c, inl (Refused e (rq_stream req)))
  end.

(** *** The answer *)

(** Only a chat completion passes a context to its provider, and reads what it billed. *)
Definition billing_of (req : Request) (b : ProviderBilling D) : ProviderBilling D := if is_messages req then no_billing else b.

Definition cached_of (u : Chat.Usage) : option Z := d ← Chat.prompt_tokens_details u; d.

Definition provider_failed (now t : Z) (cfg : Settings) (s : Server) (req : Request) (c : PlanCharge D) (target : Target)
    (metric : option InFlightGuard) (e : GatewayError) (b : ProviderBilling D) : Server * Next :=
  let b := billing_of req b in
  let '(l, c) := settle_partial_provider_accounting now t (limiter (gateway s)) c
    ((fun u => (Chat.prompt_tokens u, cached_of u, Chat.completion_tokens u)) <$> actual_usage b) (actual_cost b) in
  let s := set_limiter s l in
  let s := set_books s (log_error_with_usage now (books s) req e (t_deployment_id target) (actual_usage b)) in
  let s := failure cfg (t_deployment_id target) e s in
  (drop_charge (drop_metric s metric) c, inl (Failed e (rq_stream req))).

Definition served_log (req : Request) (target : Target) (input output cached : option Z) : RequestLog :=
  mkRequestLog (rq_id req) (id_key_hash (identity req)) (id_team_id (identity req)) (rq_model req) (Some (inflight_model target))
    (rq_path req) (rq_stream req) 200 None input output cached (t_deployment_id target) (client_ip req) (t_columns target).

Definition provider_answered (now t : Z) (cfg : Settings) (s : Server) (req : Request) (c : PlanCharge D) (target : Target)
    (metric : option InFlightGuard) (u : Chat.Usage) (b : ProviderBilling D) : Server * Next :=
  let '(l, c, _) := commit now t (limiter (gateway s)) c in
  let '(c, key_guard) := take_concurrency_guard c in
  let s := set_gateway s (drop_key_guard (with_limiter (gateway s) l) key_guard) in
  let s := no_failure cfg (t_deployment_id target) s in
  let input := AnthropicProvider.as_i32 (Chat.prompt_tokens u) in
  let output := AnthropicProvider.as_i32 (Chat.completion_tokens u) in
  let cached := default 0 (cached_of u) in
  let '(l, c) := settle now t (limiter (gateway s)) c (as_u64 input) cached (as_u64 output) (actual_cost (billing_of req b)) in
  let s := set_limiter s l in
  let books := count_served now (books s) (rq_path req) (t_deployment_id target) in
  let books := push_log books (served_log req target (Some input) (Some output) (Some cached)) in
  let books := count_tokens now books (rq_path req) (as_u64 input) (as_u64 output) in
  (drop_charge (drop_metric (set_books s books) metric) c, inl Served).

Definition stream_started (now t : Z) (cfg : Settings) (s : Server) (req : Request) (c : PlanCharge D) (target : Target)
    (slot : option FlowSystem.Guard) : Server * Next :=
  let '(l, c, _) := commit now t (limiter (gateway s)) c in
  let s := no_failure cfg (t_deployment_id target) (set_limiter s l) in
  let '(s, metric) := new_metric s req target in
  let '(c, key_guard) := take_concurrency_guard c in
  (set_books s (count_served now (books s) (rq_path req) (t_deployment_id target)), inr (Streaming c target slot metric key_guard)).

(** The end of a stream, complete or not: [LoggedStream::drop], then the guards. *)
Definition stream_ended (now t : Z) (s : Server) (req : Request) (c : PlanCharge D) (target : Target) (metric : InFlightGuard)
    (key_guard : option Z) (observed : ChatStream.UsageTrackerState) (b : ProviderBilling D) : Server * Next :=
  let b := billing_of req b in
  let '(input, output, cached) := ChatStream.preferred_stream_usage observed (actual_usage b) in
  let i := as_u64 (default 0 input) in
  let o := as_u64 (default 0 output) in
  let books := if (0 <? i) || (0 <? o) then count_tokens now (books s) (rq_path req) i o else books s in
  let s := set_books s (push_log books (served_log req target input output cached)) in
  let '(l, c) := settle now t (limiter (gateway s)) c (ChatStream.tokens input) (ChatStream.tokens cached) (ChatStream.tokens output) (actual_cost b) in
  let s := drop_charge (set_limiter s l) c in
  let s := set_gateway s (drop_key_guard (gateway s) key_guard) in
  (drop_metric s (Some metric), inl Served).

(** The client goes away while the handler awaits: its guards are dropped, and nothing
    is logged. *)
Definition cancelled (s : Server) (p : Phase) : Server * Next :=
  match p with
  | Queued c _ => (drop_charge s c, inl Cancelled)
  | Calling c _ _ metric => (drop_charge (drop_metric s metric) c, inl Cancelled)
  | Streaming _ _ _ _ _ => (s, inr p)
  end.

End requests.
#[global] Arguments Request : clear implicits.
#[global] Arguments Books : clear implicits.
#[global] Arguments Server : clear implicits.
#[global] Arguments Phase : clear implicits.
End Requests.
