(* ===== verification/Fusion.v ===== *)
(** * Fusion: a model made of models (boom-fusion)

    Models [boom-fusion/src/direct_synthesis.rs], [registry.rs] and [types.rs]: the panel
    of models that answer a request, the prompt that puts their answers before the
    aggregator, the usage that is summed up, and the stream.  The invoker of the models is
    a parameter: it says how long each call takes and what comes of it.  The prompts are
    the files of [boom-fusion/src/prompts]. *)

From S2P Require Import Prelude Core Text Float64 Json Messages Transcoder Chat.

Module Fusion.
Import Core Json Messages Chat.

(** ** Texts *)

(** [str::replace] of a pattern that is not empty: every step takes at least a byte, so
    the length is enough fuel. *)
Fixpoint replace_fuel (n : nat) (needle by_ s : string) : string :=
  match n with
  | O => s
  | S n =>
    match strip_prefix needle s with
    | Some rest => by_ +:+ replace_fuel n needle by_ rest
    | None => match s with EmptyString => "" | String a s' => String a (replace_fuel n needle by_ s') end
    end
  end.
Definition replace (needle by_ s : string) : string := replace_fuel (String.length s) needle by_ s.

Definition newline : string := String "010" "".
Definition quote : string := String "034" "".
(** A file by its lines. *)
Definition file (lines : list string) : string := String.concat "" ((fun l => l +:+ newline) <$> lines).

Definition SELF_MOA_AGGREGATOR_PROMPT : string := file [
  "你是一个回答合成专家。以下是多个对同一问题的回答。请在内部（不要输出）综合它们的共识、矛盾、独特洞察和盲点，然后直接给用户一个综合回答。";
  "";
  "注意：";
  "- 只输出最终给用户的回答，不要输出任何分析过程、标签或元信息";
  "- 综合回答应吸纳共识和独特洞察，处理矛盾时给出条件化建议，补充盲点";
  "- 语气自然、具体、有用，像一个好助理";
  "- 不要出现" +:+ quote +:+ "回答1" +:+ quote +:+ quote +:+ "回答2" +:+ quote +:+ quote +:+ "分析" +:+ quote +:+ quote +:+ "综合回答" +:+ quote +:+ "等字样";
  "- 不要暴露这是多个回答合成的";
  "";
  "原始问题：{question}";
  "";
  "{answers_text}";
  "";
  "请直接输出最终回答（只输出回答本身）："].

Definition DIRECT_SYNTHESIS_REFERENCE_CONTEXT_PROMPT : string := file [
  "你需要综合多个参考回答。参考回答只是私有材料，不是给用户看的“综合分析报告”。";
  "";
  "参考回答可能包含分析、建议、风险提醒或候选方案。请吸收其中有用信息，但不要把参考回答总结给用户，也不要输出“回答1/回答2/综合结论”等元信息。";
  "不要因为参考回答是自然语言建议，就默认输出自然语言总结。";
  "";
  "原始问题：{question}";
  "";
  "参考回答：";
  "{answers_text}";
  "";
  "请结合原始对话和参考回答作出判断。"].

Definition REFERENCE_ADVISOR_PROMPT : string := file [
  "You are a reference advisor in a Mixture of Agents (MoA) process. You are NOT the acting agent and you do NOT execute anything: you cannot call tools, run commands, browse, or access files, repositories, or URLs, and you should not try to or apologize for being unable to. A separate aggregator/orchestrator model holds those capabilities and will take the actual actions.";
  "";
  "The conversation above is the current state of a task handled by that acting agent. Your job is to give your most intelligent analysis of that state: understand the goal, reason about the problem, and advise on what to do next. Surface the best approach, concrete next steps and tool-use strategy, likely pitfalls and risks, and anything the acting agent may have missed or gotten wrong. Assume any referenced files, URLs, or systems exist and reason about them from the context given rather than asking for access.";
  "";
  "Respond with your advice directly — no preamble, no disclaimers about tools or access. Your response is private guidance handed to the aggregator, not an answer shown to the user.";
  "";
  "Give your judgement: what is going on, what should happen next, what risks or mistakes you see, and how the acting agent should proceed."].

Definition DEFAULT_OUTPUT_CONTRACT : string := file [
  "你的输出必须是当前对话的下一条 assistant response，而不是对内部候选、分析、选择或渲染过程的总结。";
  "";
  "要求：";
  "- 优先遵守原始对话中的任务目标、格式约束和 agent 协议。";
  "- 当当前请求包含 tools，且任务状态需要继续执行动作时，请返回符合 tools schema 的 tool_call。";
  "- 当当前请求未提供 tools 时，仍应遵守原始对话约定的输出协议；只有协议允许时才输出最终文本。";
  "- 不要暴露 panel、analyzer、selector、renderer 等内部流程或中间材料。"].

Definition prompt_text (value : string) : string :=
  match strip_prefix newline (string_rev value) with Some r => string_rev r | None => value end.

(** ** Data *)

Record ModelInstance := mkInstance { mi_model : string; mi_temperature : option f64 }.
Record DirectSynthesisConfig := mkSynthesis { panel : list ModelInstance; aggregator : ModelInstance; panel_timeout : option Z }.
Record DirectSynthesisWorkflow := mkWorkflow { wf_id : string; config : DirectSynthesisConfig }.

Definition new_workflow (id : string) (c : DirectSynthesisConfig) : string + DirectSynthesisWorkflow :=
  if bool_decide (id = "") then inl "workflow id must not be empty"
  else if (length (panel c) <? 2)%nat then inl "direct_synthesis requires at least two panel instances"
  else if existsb (fun i => bool_decide (mi_model i = "")) (panel c) then inl "direct_synthesis panel model must not be empty"
  else if bool_decide (mi_model (aggregator c) = "") then inl "direct_synthesis aggregator model must not be empty"
  else inr (mkWorkflow id c).

Inductive WorkflowRole := Panel | Aggregator.

(** ** Requests *)

(** The fields of a request that a workflow sets. *)
Definition child_request (r : ChatCompletionRequest) (model : string) (ms : list Message) (temp : option f64)
    (ts : option (list FunctionTool)) (choice : option Value) (is_stream : bool) : ChatCompletionRequest :=
  mkRequest model ms (max_tokens r) (max_completion_tokens r) ts choice (response_format r) temp (top_p r) (frequency_penalty r)
    (presence_penalty r) (seed r) (stop r) (r_n r) (Some is_stream) (logprobs r) (top_logprobs r) (logit_bias r) (r_user r) (extra r)
    (gateway_headers r) (kv_cache_report_full r).

Definition has_tools (r : ChatCompletionRequest) : bool := match tools r with Some (_ :: _) => true | _ => false end.
Definition text_message (r : MessageRole) (t : string) : Message := mkMessage r (Text t) None None None None.

Definition panel_request (original : ChatCompletionRequest) (i : ModelInstance) : ChatCompletionRequest :=
  child_request original (mi_model i)
    (messages original ++ (if has_tools original then [text_message User (prompt_text REFERENCE_ADVISOR_PROMPT)] else []))
    (mi_temperature i) (Some []) None false.

Definition message_text (c : MessageContent) : string :=
  match c with
  | Text t => t
  | Parts ps => String.concat "" (omap (fun p => match p with PartText t => Some t | PartReasoning r => Some r | _ => None end) ps)
  | Null => ""
  end.

Definition last_user_question (ms : list Message) : string :=
  match head (retain (fun m => bool_decide (role m = User)) (reverse ms)) with Some m => message_text (content m) | None => "" end.

Definition answer_of (r : ChatCompletionResponse) : string :=
  match choices r with c :: _ => message_text (content (ch_message c)) | [] => "" end.
Definition answers_text (rs : list ChatCompletionResponse) : string :=
  String.concat (newline +:+ newline)
    (imap (fun i r => "回答" +:+ show (Z.of_nat i + 1) +:+ "：" +:+ newline +:+ answer_of r) (take 8 rs)).

Definition aggregator_prompt (tools : bool) (question answers : string) : string :=
  let template := if tools then prompt_text DIRECT_SYNTHESIS_REFERENCE_CONTEXT_PROMPT else prompt_text SELF_MOA_AGGREGATOR_PROMPT in
  let prompt := replace "{answers_text}" answers (replace "{question}" question template) in
  trim_end prompt +:+ newline +:+ trim (prompt_text DEFAULT_OUTPUT_CONTRACT).

Definition aggregator_request (w : DirectSynthesisWorkflow) (original : ChatCompletionRequest) (rs : list ChatCompletionResponse) (is_stream : bool)
  : ChatCompletionRequest :=
  let a := aggregator (config w) in
  child_request original (mi_model a)
    (messages original ++ [text_message User (aggregator_prompt (has_tools original) (last_user_question (messages original)) (answers_text rs))])
    (match mi_temperature a with Some t => Some t | None => temperature original end)
    (Some (default [] (tools original)))
    (if has_tools original then tool_choice original else None)
    is_stream.

(** ** Usage *)

Definition sat_add32 (a b : Z) : Z := Z.min u32_max (a + b).
Definition add_optional (target value : option Z) : option Z :=
  match value with Some v => Some (sat_add32 (default 0 target) v) | None => target end.
Definition no_usage : Usage := mkUsage 0 0 0 None None None.
(** [ProviderBilling::add_actual_usage] is the same. *)
Definition add_usage (t u : Usage) : Usage :=
  mkUsage (sat_add32 (prompt_tokens t) (prompt_tokens u)) (sat_add32 (completion_tokens t) (completion_tokens u))
    (sat_add32 (total_tokens t) (total_tokens u))
    (add_optional (cache_creation_input_tokens t) (cache_creation_input_tokens u))
    (add_optional (cache_read_input_tokens t) (cache_read_input_tokens u))
    (match prompt_tokens_details u with
     | Some cached => Some (add_optional (default None (prompt_tokens_details t)) cached)
     | None => prompt_tokens_details t
     end).

Definition with_usage (r : ChatCompletionResponse) (u : Usage) : ChatCompletionResponse :=
  mkResponse (resp_id r) (resp_object r) (resp_created r) (resp_model r) (choices r) u (system_fingerprint r) (raw_response r).

(** ** The workflow *)

(** What comes of a call: after [took] microseconds, an error or an answer. *)
Record Outcome (A : Type) := mkOutcome { took : Z; result : GatewayError + A }.
#[global] Arguments mkOutcome {A}.
#[global] Arguments took {A}.
#[global] Arguments result {A}.

(** [tokio::time::timeout] polls the call before its timer. *)
Definition panel_outcome {A} (timeout : option Z) (o : Outcome A) : GatewayError + A :=
  match timeout with
  | Some t => if t * 1000000 <? took o
              then inl (ProviderError ("direct_synthesis panel call timed out after " +:+ show t +:+ " seconds"))
              else result o
  | None => result o
  end.

Definition valid_panel (r : ChatCompletionResponse) : bool :=
  match choices r with
  | [] => false
  | c :: _ => match tool_calls (ch_message c) with
              | Some (_ :: _) => true
              | _ => negb (bool_decide (trim (message_text (content (ch_message c))) = ""))
              end
  end.

Definition answered {A} (o : GatewayError + A) : option A := match o with inr r => Some r | inl _ => None end.

(** The invoker: the call of a role, by its index. *)
Definition Invoke (A : Type) : Type := WorkflowRole -> nat -> ChatCompletionRequest -> Outcome A.

Definition panel_answers (w : DirectSynthesisWorkflow) (invoke : Invoke ChatCompletionResponse) (request : ChatCompletionRequest)
  : list ChatCompletionResponse :=
  omap answered (imap (fun i p => panel_outcome (panel_timeout (config w)) (invoke Panel i (panel_request request p))) (panel (config w))).

Definition all_panels_failed : GatewayError := ProviderError "direct_synthesis produced no panel answers: ALL_PANELS_FAILED".

Definition prepare (w : DirectSynthesisWorkflow) (invoke : Invoke ChatCompletionResponse) (request : ChatCompletionRequest)
  : GatewayError + (list ChatCompletionResponse * Usage) :=
  let answers := panel_answers w invoke request in
  let valid := retain valid_panel answers in
  if bool_decide (valid = []) then inl all_panels_failed else inr (valid, foldl add_usage no_usage (usage <$> answers)).

(** Outside, [None] is a panic. *)
Definition execute (w : DirectSynthesisWorkflow) (invoke : Invoke ChatCompletionResponse) (request : ChatCompletionRequest)
  : option (GatewayError + ChatCompletionResponse) :=
  match prepare w invoke request with
  | inl e => Some (inl e)
  | inr (valid, u) =>
    match result (invoke Aggregator 0%nat (aggregator_request w request valid false)) with
    | inr r => Some (inr (with_usage r (add_usage u (usage r))))
    | inl _ => (fun r => inr (with_usage r u)) <$> head valid
    end
  end.

(** ** Streams *)

Definition non_negative_value (v : Z) : Z := Z.max v 0.
Definition stream_token (v : Z) : Z := if v <? 2 ^ 31 then v else 2 ^ 31 - 1.

Definition update_usage_snapshot (t : Usage) (u : Transcoder.StreamUsage) : Usage :=
  let p := match Transcoder.su_prompt_tokens u with Some v => non_negative_value v | None => prompt_tokens t end in
  let c := match Transcoder.su_completion_tokens u with Some v => non_negative_value v | None => completion_tokens t end in
  mkUsage p c (match Transcoder.su_total_tokens u with Some v => non_negative_value v | None => sat_add32 p c end)
    (cache_creation_input_tokens t) (cache_read_input_tokens t)
    (match d ← Transcoder.su_cached_tokens u; d with Some n => Some (Some n) | None => prompt_tokens_details t end).

Definition cached_tokens (u : Usage) : option Z := d ← prompt_tokens_details u; d.

Definition combined_stream_usage (a p : Usage) : Transcoder.StreamUsage :=
  Transcoder.mkUsage (Some (stream_token (prompt_tokens a + prompt_tokens p))) (Some (stream_token (completion_tokens a + completion_tokens p)))
    (Some (stream_token (total_tokens a + total_tokens p)))
    (match cached_tokens a, cached_tokens p with
     | None, None => None
     | l, r => Some (Some (sat_add32 (default 0 l) (default 0 r)))
     end).

Definition Items : Type := list (option Transcoder.ChatStreamChunk).

(** [AggregateUsageStream]: the usage of the panel is added to the last of the aggregator. *)
Fixpoint aggregate_usage (panel_usage aggregator_usage : Usage) (l : Items) : Items :=
  match l with
  | [] => []
  | None :: l' => None :: aggregate_usage panel_usage aggregator_usage l'
  | Some ck :: l' =>
    match Transcoder.ck_usage ck with
    | None => Some ck :: aggregate_usage panel_usage aggregator_usage l'
    | Some u => let a := update_usage_snapshot aggregator_usage u in
                Some (Transcoder.mkChunk (Transcoder.ck_choices ck) (Some (combined_stream_usage a panel_usage))) :: aggregate_usage panel_usage a l'
    end
  end.

Definition call_delta (i : nat) (c : ToolCall) : Transcoder.ToolCallDelta :=
  Transcoder.mkToolDelta (wrap32 (Z.of_nat i)) (Some (tc_id c)) (Some (call_type c))
    (Some (Transcoder.mkFunctionDelta (Some (fc_name (tc_function c))) (Some (fc_arguments (tc_function c))))).
Definition response_stream (r : ChatCompletionResponse) (u : Usage) : Items :=
  [Some (Transcoder.mkChunk
           ((fun c => Transcoder.mkChoice (ch_index c)
                        (Transcoder.mkDelta (Some Assistant) (Some (message_text (content (ch_message c))))
                           (imap call_delta <$> tool_calls (ch_message c)) (reasoning_content (ch_message c))) None) <$> choices r) None);
   Some (Transcoder.mkChunk
           ((fun c => Transcoder.mkChoice (ch_index c) (Transcoder.mkDelta None None None None) (ch_finish_reason c)) <$> choices r)
           (Some (combined_stream_usage no_usage u)))].

Definition execute_stream (w : DirectSynthesisWorkflow) (invoke : Invoke ChatCompletionResponse) (invoke_stream : Invoke Items)
    (request : ChatCompletionRequest) : option (GatewayError + Items) :=
  match prepare w invoke request with
  | inl e => Some (inl e)
  | inr (valid, u) =>
    match result (invoke_stream Aggregator 0%nat (aggregator_request w request valid true)) with
    | inr l => Some (inr (aggregate_usage u no_usage l))
    | inl _ => (fun r => inr (response_stream r u)) <$> head valid
    end
  end.

(** ** The registry *)

Record WorkflowRegistry := mkRegistry { reg_workflows : gmap string DirectSynthesisWorkflow; model_routes : gmap string string }.

Definition bad_route (ws : gmap string DirectSynthesisWorkflow) (r : string * string) : option string :=
  if bool_decide (r.1 = "") then Some "workflow model name must not be empty"
  else if bool_decide (ws !! r.2 = None) then Some ("workflow model '" +:+ r.1 +:+ "' references unknown workflow '" +:+ r.2 +:+ "'")
  else None.
Definition new_registry (ws : gmap string DirectSynthesisWorkflow) (routes : gmap string string) : string + WorkflowRegistry :=
  match head (omap (bad_route ws) (map_to_list routes)) with Some e => inl e | None => inr (mkRegistry ws routes) end.
Definition workflow_for_model (r : WorkflowRegistry) (model : string) : option DirectSynthesisWorkflow :=
  id ← model_routes r !! model; reg_workflows r !! id.

(** ** Lemmas: replacing *)

Lemma strip_prefix_length p s r : strip_prefix p s = Some r -> String.length s = (String.length p + String.length r)%nat.
Proof. intros ->%strip_prefix_spec. apply length_append. Qed.

Lemma replace_fuel_enough needle by_ : needle <> "" -> forall n m s,
  (String.length s <= n)%nat -> (String.length s <= m)%nat -> replace_fuel n needle by_ s = replace_fuel m needle by_ s.
Proof.
  intros Hn. induction n as [| n IH]; intros m s Ha Hb.
  - destruct s; [| cbn in Ha; lia]. destruct needle; [done |]. by destruct m.
  - destruct m as [| m]; [destruct s; [| cbn in Hb; lia]; by destruct needle |]. cbn [replace_fuel].
    destruct (strip_prefix needle s) as [r |] eqn:E.
    + apply strip_prefix_length in E. destruct needle; [done |]. cbn in E. f_equal. apply IH; lia.
    + destruct s; [done |]. cbn in Ha, Hb. f_equal. apply IH; lia.
Qed.

Lemma replace_hit needle by_ s r : needle <> "" -> strip_prefix needle s = Some r -> replace needle by_ s = by_ +:+ replace needle by_ r.
Proof.
  intros Hn E. unfold replace at 1. pose proof (strip_prefix_length _ _ _ E) as El. destruct needle as [| a nd]; [done |]. cbn in El.
  rewrite El. cbn [replace_fuel]. rewrite E. f_equal. apply replace_fuel_enough; [done | lia..].
Qed.

Lemma replace_miss needle by_ a s : strip_prefix needle (String a s) = None -> replace needle by_ (String a s) = String a (replace needle by_ s).
Proof. intros E. unfold replace. cbn [String.length replace_fuel]. by rewrite E. Qed.

Lemma replace_absent needle by_ s : needle <> "" -> str_contains needle s = false -> replace needle by_ s = s.
Proof.
  intros Hn. induction s as [| a s IH]; [by destruct needle |]. cbn [str_contains]. intros [Ha Hb]%orb_false_iff.
  rewrite replace_miss; [by rewrite IH |]. unfold starts_with in Ha. by destruct (strip_prefix needle (String a s)).
Qed.

(** A character that the pattern does not have splits the work. *)
Lemma strip_prefix_break c needle s t :
  has_char c needle = false -> strip_prefix needle (s +:+ String c t) = (fun r => r +:+ String c t) <$> strip_prefix needle s.
Proof.
  revert s. induction needle as [| a nd IH]; intros s Hc; [done |]. cbn [has_char] in Hc. apply orb_false_iff in Hc as [Ha Hc].
  destruct s as [| b s]; cbn [strip_prefix].
  - rewrite append_nil. cbn [strip_prefix]. by rewrite Ha.
  - rewrite append_cons. cbn [strip_prefix]. destruct (Ascii.eqb a b); [by apply IH | done].
Qed.

Lemma replace_break c needle by_ s t :
  needle <> "" -> has_char c needle = false ->
  replace needle by_ (s +:+ String c t) = replace needle by_ s +:+ String c (replace needle by_ t).
Proof.
  intros Hn Hc. remember (String.length s) as n eqn:En. revert s En. induction (lt_wf n) as [n _ IH]. intros s ->.
  pose proof (strip_prefix_break c needle s t Hc) as Eb. destruct (strip_prefix needle s) as [r |] eqn:E; cbn in Eb.
  - rewrite (replace_hit _ _ _ _ Hn Eb), (replace_hit _ _ _ _ Hn E), append_assoc. f_equal.
    apply (IH (String.length r)); [| done]. apply strip_prefix_length in E. destruct needle; [done |]. cbn in E. lia.
  - destruct s as [| a s]; [rewrite append_nil in Eb |- *; by rewrite replace_miss by done |].
    rewrite append_cons in Eb |- *. rewrite !replace_miss by done. rewrite append_cons. f_equal.
    apply (IH (String.length s)); [cbn; lia | done].
Qed.

(** Text without the first character of the pattern is passed over. *)
Lemma replace_skip a nd by_ s t : has_char a s = false -> replace (String a nd) by_ (s +:+ t) = s +:+ replace (String a nd) by_ t.
Proof.
  induction s as [| b s IH]; [done |]. cbn [has_char]. intros [Hb Hs]%orb_false_iff. rewrite !append_cons.
  rewrite replace_miss; [by rewrite IH |]. cbn [strip_prefix]. by rewrite Ascii.eqb_sym, Hb.
Qed.

(** ** Lemmas: usage *)

Definition clamp (z : Z) : Z := Z.min u32_max z.
Definition present {A} (o : option A) : bool := match o with Some _ => true | None => false end.
(** The sum of the counts that are there, if any is. *)
Definition sum_present {A} (f : A -> option Z) (l : list A) : option Z :=
  if existsb (fun x => present (f x)) l then Some (clamp (zsum (fun x => default 0 (f x)) l)) else None.
(** The usage of some calls together. *)
Definition total_usage (us : list Usage) : Usage :=
  mkUsage (clamp (zsum prompt_tokens us)) (clamp (zsum completion_tokens us)) (clamp (zsum total_tokens us))
    (sum_present cache_creation_input_tokens us) (sum_present cache_read_input_tokens us)
    (if existsb (fun u => present (prompt_tokens_details u)) us then Some (sum_present cached_tokens us) else None).

Definition natural (o : option Z) : Prop := forall n, o = Some n -> 0 <= n.
Record usage_ok (u : Usage) : Prop := {
  uo_prompt : 0 <= prompt_tokens u;
  uo_completion : 0 <= completion_tokens u;
  uo_total : 0 <= total_tokens u;
  uo_creation : natural (cache_creation_input_tokens u);
  uo_read : natural (cache_read_input_tokens u);
  uo_cached : natural (cached_tokens u);
}.

Lemma clamp_add a b : 0 <= b -> sat_add32 (clamp a) b = clamp (a + b).
Proof. unfold sat_add32, clamp. lia. Qed.
Lemma zsum_snoc {A} (f : A -> Z) l x : zsum f (l ++ [x]) = zsum f l + f x.
Proof. rewrite zsum_app, zsum_cons. change (zsum f []) with 0. lia. Qed.
Lemma existsb_snoc {A} (f : A -> bool) l x : existsb f (l ++ [x]) = existsb f l || f x.
Proof. rewrite existsb_app. cbn. by rewrite orb_false_r. Qed.

Lemma sum_absent {A} (f : A -> option Z) l : existsb (fun x => present (f x)) l = false -> zsum (fun x => default 0 (f x)) l = 0.
Proof. induction l as [| x l IH]; [done |]. rewrite zsum_cons. cbn [existsb]. destruct (f x); [done |]. intros E. by rewrite IH. Qed.

Lemma sum_present_snoc {A} (f : A -> option Z) l x :
  natural (f x) -> sum_present f (l ++ [x]) = add_optional (sum_present f l) (f x).
Proof.
  intros Hx. unfold sum_present. rewrite existsb_snoc, zsum_snoc. destruct (f x) as [v |]; cbn [present default].
  - specialize (Hx _ eq_refl). rewrite orb_true_r. destruct (existsb _ l) eqn:E; cbn [add_optional default]; f_equal.
    + symmetry. by apply clamp_add.
    + rewrite (sum_absent _ _ E). unfold clamp, sat_add32. done.
  - by rewrite orb_false_r, Z.add_0_r.
Qed.

Lemma total_usage_snoc us u : usage_ok u -> total_usage (us ++ [u]) = add_usage (total_usage us) u.
Proof.
  intros [? ? ? ? ? Hc]. unfold total_usage, add_usage. cbn [prompt_tokens completion_tokens total_tokens cache_creation_input_tokens cache_read_input_tokens prompt_tokens_details].
  rewrite !zsum_snoc, existsb_snoc, !clamp_add, !sum_present_snoc by assumption. f_equal.
  change (cached_tokens u) with (d ← prompt_tokens_details u; d). destruct (prompt_tokens_details u) as [c |] eqn:E; cbn [present option_bind mbind].
  - rewrite orb_true_r. do 2 f_equal. unfold sum_present. destruct (existsb (fun u => present (prompt_tokens_details u)) us) eqn:Ed; [done |].
    cbn [default]. replace (existsb (fun x => present (cached_tokens x)) us) with false; [done |]. symmetry. apply not_true_is_false.
    intros (x & Hx & Hp)%existsb_elem. assert (existsb (fun u => present (prompt_tokens_details u)) us = true); [| congruence].
    apply existsb_elem. exists x. split; [done |]. unfold cached_tokens in Hp. by destruct (prompt_tokens_details x).
  - by rewrite orb_false_r.
Qed.

(** Adding up one by one gives the total. *)
Lemma add_all us : Forall usage_ok us -> foldl add_usage no_usage us = total_usage us.
Proof.
  induction us as [| u us IH] using rev_ind; [done |]. intros [Hus Hu]%Forall_app. rewrite foldl_app. cbn [foldl].
  rewrite IH by done. symmetry. apply total_usage_snoc. by inversion_clear Hu.
Qed.

#[export] Instance existsb_proper {A} (f : A -> bool) : Proper ((≡ₚ) ==> (=)) (existsb f).
Proof. intros l k E. apply eq_true_iff_eq. rewrite !existsb_elem. by setoid_rewrite E. Qed.
#[export] Instance sum_present_proper {A} (f : A -> option Z) : Proper ((≡ₚ) ==> (=)) (sum_present f).
Proof. intros l k E. unfold sum_present. by rewrite (existsb_proper _ _ _ E), (zsum_perm _ _ _ E). Qed.
#[export] Instance total_usage_proper : Proper ((≡ₚ) ==> (=)) total_usage.
Proof.
  intros l k E. unfold total_usage. by rewrite !(zsum_perm _ _ _ E), !(sum_present_proper _ _ _ E), (existsb_proper _ _ _ E).
Qed.

(** ** Properties *)

(** The calls of a request that came to an answer: the panel, and the aggregator. *)
Definition successful (w : DirectSynthesisWorkflow) (invoke : Invoke ChatCompletionResponse) (request : ChatCompletionRequest)
  : list ChatCompletionResponse :=
  let answers := panel_answers w invoke request in
  answers ++ match retain valid_panel answers with
             | [] => []
             | valid => option_list (answered (result (invoke Aggregator 0%nat (aggregator_request w request valid false))))
             end.

(** C15: what a composite model answers.  It fails only when no member of the panel gives an
    answer that is valid (a text, or calls of tools) in time; else the answer is that of
    the aggregator, or the first valid one of the panel when the aggregator fails.  Its
    usage is the sum, saturating, of all calls that were answered, valid or not; the same
    sum that the gateway is billed for, whatever the order in which the calls end. *)
Theorem fusion_answer_exact w invoke request :
  Forall (fun r => usage_ok (usage r)) (successful w invoke request) ->
  execute w invoke request =
    Some (match retain valid_panel (panel_answers w invoke request) with
          | [] => inl all_panels_failed
          | first :: rest =>
            let last := answered (result (invoke Aggregator 0%nat (aggregator_request w request (first :: rest) false))) in
            inr (with_usage (default first last) (total_usage (usage <$> successful w invoke request)))
          end)
  /\ forall billed, billed ≡ₚ usage <$> successful w invoke request -> foldl add_usage no_usage billed = total_usage (usage <$> successful w invoke request).
Proof.
  intros Hok. split.
  - unfold execute, prepare, successful in *. destruct (retain valid_panel (panel_answers w invoke request)) as [| first rest] eqn:E; [by rewrite bool_decide_eq_true_2 |].
    rewrite bool_decide_eq_false_2 by done. apply Forall_app in Hok as [Ha Hl]. rewrite add_all by by apply Forall_fmap.
    destruct (result _) as [e | r]; cbn [answered option_list default] in *; [by rewrite app_nil_r |].
    rewrite fmap_app. change (usage <$> option_list (Some r)) with [usage r]. rewrite total_usage_snoc; [done |]. by inversion_clear Hl.
  - intros billed Hp. rewrite <- Hp. apply add_all. rewrite Hp. by apply Forall_fmap.
Qed.

(** The texts around the question and the answers. *)
Definition template_of (tools : bool) : string :=
  if tools then prompt_text DIRECT_SYNTHESIS_REFERENCE_CONTEXT_PROMPT else prompt_text SELF_MOA_AGGREGATOR_PROMPT.
Definition before_question (tools : bool) : string := default "" (fst <$> split_once_str "{question}" (template_of tools)).
Definition after_question (tools : bool) : string := default "" (snd <$> split_once_str "{question}" (template_of tools)).
Definition between (tools : bool) : string := default "" (fst <$> split_once_str "{answers_text}" (after_question tools)).
Definition closing (tools : bool) : string := default "" (snd <$> split_once_str "{answers_text}" (after_question tools)).
Definition after_answers (tools : bool) : string := closing tools +:+ newline +:+ trim (prompt_text DEFAULT_OUTPUT_CONTRACT).

Lemma closing_solid tools s : trim_end (s +:+ closing tools) = s +:+ closing tools.
Proof.
  apply trim_end_solid. intros x. destruct tools;
    (match goal with |- context [string_rev (closing ?b)] => let r := eval vm_compute in (string_rev (closing b)) in change (string_rev (closing b)) with r end);
    (let r := eval vm_compute in (string_rev <$> white_space) in change (string_rev <$> white_space) with r);
    by rewrite !append_cons.
Qed.

(** The prompt of the aggregator.  The question and the answers are put into the texts
    of the workflow as they are, but a question that holds the mark of the answers has the
    answers put into it too. *)
Theorem aggregator_prompt_exact tools question answers :
  aggregator_prompt tools question answers
  = before_question tools +:+ replace "{answers_text}" answers question +:+ between tools +:+ answers +:+ after_answers tools
  /\ (str_contains "{answers_text}" question = false ->
      aggregator_prompt tools question answers = before_question tools +:+ question +:+ between tools +:+ answers +:+ after_answers tools).
Proof.
  assert (aggregator_prompt tools question answers
          = before_question tools +:+ replace "{answers_text}" answers question +:+ between tools +:+ answers +:+ after_answers tools) as E.
  { unfold aggregator_prompt. fold (template_of tools).
    replace (replace "{question}" question (template_of tools))
      with (before_question tools +:+ question +:+ after_question tools) by (destruct tools; vm_compute; reflexivity).
    rewrite replace_skip by (destruct tools; vm_compute; reflexivity).
    assert (exists m, after_question tools = String "010" m /\ String "010" (replace "{answers_text}" answers m)
              = between tools +:+ answers +:+ closing tools) as (m & -> & Em).
    { destruct tools; eexists; (split; [vm_compute; reflexivity |]); vm_compute; reflexivity. }
    rewrite replace_break, Em by done. unfold after_answers. rewrite <- !append_assoc, closing_solid. by rewrite !append_assoc. }
  split; [done |]. intros Hq. by rewrite E, replace_absent.
Qed.

(** ** Examples *)

(** Two members, one of which fails; the aggregator fails too. *)
Definition demo_synthesis : DirectSynthesisWorkflow :=
  mkWorkflow "w" (mkSynthesis [mkInstance "a" None; mkInstance "b" None] (mkInstance "c" None) (Some 5)).
Definition demo_chat : ChatCompletionRequest :=
  mkRequest "panel-model" [text_message User "why?"] None None None None None None None None None None None None None None None None None [] [] false.
Definition demo_answer (text : string) (u : Usage) : ChatCompletionResponse :=
  mkResponse "r" "chat.completion" 0 "b" [mkChoice 0 (text_message Assistant text) (Some "stop") None] u None None.
Definition demo_invoke : Invoke ChatCompletionResponse := fun role i _ =>
  match role, i with
  | Panel, 1%nat => mkOutcome 100 (inr (demo_answer "because" (mkUsage 10 5 15 None None None)))
  | Panel, _ => mkOutcome 9000000 (inr (demo_answer "late" (mkUsage 1 1 2 None None None)))
  | Aggregator, _ => mkOutcome 100 (inl (ProviderError "down"))
  end.

Example demo_question : last_user_question (messages demo_chat) = "why?" /\ r_model (panel_request demo_chat (mkInstance "a" None)) = "a".
Proof. done. Qed.

Lemma fusion_answer_exact_witness :
  execute demo_synthesis demo_invoke demo_chat = Some (inr (demo_answer "because" (mkUsage 10 5 15 None None None))).
Proof.
  rewrite (proj1 (fusion_answer_exact demo_synthesis demo_invoke demo_chat ltac:(vm_compute; repeat constructor; cbn; discriminate || (intros ? [=])))).
  vm_compute. reflexivity.
Defined.

Lemma aggregator_prompt_exact_witness : aggregator_prompt false "why?" "A" = before_question false +:+ "why?" +:+ between false +:+ "A" +:+ after_answers false.
Proof. apply (proj2 (aggregator_prompt_exact false "why?" "A")). vm_compute. reflexivity. Defined.

End Fusion.
