(* ===== verification/FusionRoute.v ===== *)
(** * FusionRoute: composite models behind the router (boom-routing)

    Models [boom-routing/src/fusion.rs]: the registration of the workflows as deployments,
    the calls that a workflow makes to other models (routed, queued and counted like
    requests, billed to the request that the workflow serves), and the stream of the
    aggregator that bills as it goes; with the billing of [boom-core/src/provider.rs].
    The parts of a call are functions on the [Server] of [Requests], cut where the code
    awaits. *)

From S2P Require Import Prelude FlowControl FlowSystem Core Text Float64 SlidingWindow PlanStore Stores InFlight PlanCharge Rebalance Policy.
From S2P Require Import Messages Router Json Config Transcoder Chat Anthropic AnthropicProvider AnthropicStream ChatStream Access.
From S2P Require Import Requests Fusion.

Module FusionRoute.
Import Core Json Stores InFlight PlanCharge Policy Messages HybridRouter Router Requests Chat Fusion.

(** ** Registration *)

Section registration.
Context {D : Type} `{DecimalOps D}.
Implicit Types (s : DeploymentStore D).

Definition to_instance (i : Config.WorkflowModelInstanceConfig) : ModelInstance := mkInstance (Config.wi_model i) (Config.wi_temperature i).
Definition build_workflow (id : string) (d : Config.WorkflowDefinitionConfig) : string + DirectSynthesisWorkflow :=
  let 'Config.DirectSynthesis roles timeout := d in
  new_workflow id (mkSynthesis (to_instance <$> Config.panel roles) (to_instance (Config.aggregator roles)) timeout).

Fixpoint build_workflows (l : list (string * Config.WorkflowDefinitionConfig)) (ws : gmap string DirectSynthesisWorkflow)
  : string + gmap string DirectSynthesisWorkflow :=
  match l with
  | [] => inr ws
  | (id, d) :: l' => match build_workflow id d with inl e => inl e | inr w => build_workflows l' (<[id := w]> ws) end
  end.

Definition build_registry (settings : Config.WorkflowSettings) : GatewayError + WorkflowRegistry :=
  match build_workflows (map_to_list (Config.workflows settings)) ∅ with
  | inl e => inl (ConfigError e)
  | inr ws => match new_registry ws (Config.wf_models settings) with inl e => inl (ConfigError e) | inr r => inr r end
  end.

(** What the router knows of a composite provider. *)
Definition fusion_provider : Provider := mkProvider "fusion" None None.

Definition conflict s (aliases : AliasStore) (model : string) : option GatewayError :=
  if contains s model then Some (ConfigError ("workflow model '" +:+ model +:+ "' conflicts with an existing deployment"))
  else match resolve aliases model with
       | Some _ => Some (ConfigError ("workflow model '" +:+ model +:+ "' conflicts with an existing alias"))
       | None => None
       end.

Fixpoint register_all (r : WorkflowRegistry) (models : list string) s : DeploymentStore D * (GatewayError + unit) :=
  match models with
  | [] => (s, inr tt)
  | m :: ms =>
    match workflow_for_model r m with
    | None => (s, inl (ConfigError ("workflow model '" +:+ m +:+ "' has no registered workflow")))
    | Some _ => match set_exclusive_deployment s m fusion_provider with
                | (s, inl e) => (s, inl e)
                | (s, inr _) => register_all r ms s
                end
    end
  end.

Definition register_fusion_providers (settings : Config.WorkflowSettings) s (aliases : AliasStore) : DeploymentStore D * (GatewayError + unit) :=
  match build_registry settings with
  | inl e => (s, inl e)
  | inr r =>
    let models := (map_to_list (Config.wf_models settings)).*1 in
    match head (omap (conflict s aliases) models) with
    | Some e => (s, inl e)
    | None => register_all r models s
    end
  end.
End registration.

(** Without the context of a chat completion, a composite provider does nothing. *)
Definition context_required (model : string) : GatewayError :=
  UnsupportedMode ("fusion model '" +:+ model +:+ "' is only supported by /v1/chat/completions").

(** ** Billing *)

(** [Decimal] subtracts, exactly within its 28 digits. *)
Class DecimalSub (D : Type) := { dec_sub : D -> D -> D }.
Class DecimalSubLaws (D : Type) `{DecimalOps D, DecimalSub D} := {
  add_zero : forall a : D, dec_add a dec_zero = a;
  add_difference : forall a b c : D, dec_add (dec_add a b) (dec_sub c b) = dec_add a c;
}.

Section billing.
Context {D : Type} `{DecimalOps D, DecimalSub D}.
Definition ProviderCost : Type := D * D * D.
Definition zero_cost : ProviderCost := (dec_zero, dec_zero, dec_zero).
Definition cost_add (a b : ProviderCost) : ProviderCost := (dec_add a.1.1 b.1.1, dec_add a.1.2 b.1.2, dec_add a.2 b.2).
Definition cost_sub (a b : ProviderCost) : ProviderCost := (dec_sub a.1.1 b.1.1, dec_sub a.1.2 b.1.2, dec_sub a.2 b.2).

Definition add_actual_cost (b : ProviderBilling D) (c : ProviderCost) : ProviderBilling D :=
  mkBilling (Some (cost_add (default zero_cost (actual_cost b)) c)) (actual_usage b).
Definition add_actual_usage (b : ProviderBilling D) (u : Usage) : ProviderBilling D :=
  mkBilling (actual_cost b) (Some (add_usage (default no_usage (actual_usage b)) u)).

Definition response_cost (rate : ModelCostRate D) (u : Usage) : ProviderCost :=
  compute_cost_breakdown rate (prompt_tokens u) (default 0 (cached_tokens u)) (completion_tokens u).

(** The bill of a call that was answered. *)
Definition bill_answer (rate : ModelCostRate D) (b : ProviderBilling D) (u : Usage) : ProviderBilling D :=
  add_actual_cost (add_actual_usage b u) (response_cost rate u).

Definition usage_delta (current previous : Usage) : Usage :=
  mkUsage (prompt_tokens current -sat prompt_tokens previous) (completion_tokens current -sat completion_tokens previous)
    (total_tokens current -sat total_tokens previous)
    ((fun v => v -sat default 0 (cache_creation_input_tokens previous)) <$> cache_creation_input_tokens current)
    ((fun v => v -sat default 0 (cache_read_input_tokens previous)) <$> cache_read_input_tokens current)
    ((fun v => Some (v -sat default 0 (cached_tokens previous))) <$> cached_tokens current).

(** [GuardedFusionStream]: what it remembers, and the bill. *)
Record StreamBill := mkStreamBill { sb_usage : Usage; reported_cost : ProviderCost; sb_billing : ProviderBilling D }.
Definition new_stream_bill (b : ProviderBilling D) : StreamBill := mkStreamBill no_usage zero_cost b.

Definition bill_chunk (rate : ModelCostRate D) (g : StreamBill) (item : option Transcoder.ChatStreamChunk) : StreamBill :=
  match ck ← item; Transcoder.ck_usage ck with
  | None => g
  | Some u =>
    let current := update_usage_snapshot (sb_usage g) u in
    let b := add_actual_usage (sb_billing g) (usage_delta current (sb_usage g)) in
    let cost := response_cost rate current in
    mkStreamBill current cost (add_actual_cost b (cost_sub cost (reported_cost g)))
  end.
Definition bill_stream (rate : ModelCostRate D) (b : ProviderBilling D) (l : Items) : StreamBill :=
  foldl (bill_chunk rate) (new_stream_bill b) l.
End billing.
#[global] Arguments ProviderCost : clear implicits.
#[global] Arguments StreamBill : clear implicits.

(** ** The calls of a workflow *)

(** The context of the request that the workflow serves, and the settings. *)
Record CallContext := mkCallContext {
  cc_key_hash : string;
  cc_is_vip : bool;
  cc_api_path : string;
  cc_enable_priority_header : bool;
}.

Definition obj_remove (o : Object) (k : string) : Object := retain (fun kv => negb (bool_decide (kv.1 = k))) o.
(** The request as it goes to the provider. *)
Definition upstream_request (cc : CallContext) (client_type_header : bool) (r : ChatCompletionRequest) : ChatCompletionRequest :=
  mkRequest (r_model r) (messages r) (max_tokens r) (max_completion_tokens r) (tools r) (tool_choice r) (response_format r) (temperature r)
    (top_p r) (frequency_penalty r) (presence_penalty r) (seed r) (stop r) (r_n r) (stream r) (logprobs r) (top_logprobs r) (logit_bias r)
    (r_user r) (obj_remove (extra r) "metadata")
    (Access.build_gateway_headers (cc_is_vip cc) (cc_enable_priority_header cc) (cc_api_path cc) client_type_header) (kv_cache_report_full r).

Section calls.
Context {D P S C : Type} `{DecimalOps D} `{DecimalSub D} `{SchedulePolicy FlowControl.FlowController P} `{ClassificationStrategy FunctionTool S} `{DedupCache C}.
(** [serde_json::to_vec], and the flag of a provider. *)
Context (to_vec : Value -> list Z) (client_type_header : Provider -> bool).
Implicit Types (s : Server D P S C) (r : ChatCompletionRequest).

Definition request_prefix_bytes r : list Z :=
  match tools r with Some ((_ :: _) as ts) => to_vec (VArray (ser_tool <$> ts)) | _ => [] end
  ++ to_vec (VArray (ser_message <$> messages r)).

(** A call that has its provider, and waits in its admission queue. *)
Record PreparedModelCall := mkCall {
  pc_request : ChatCompletionRequest;
  pc_provider : Provider;
  billing_model : string;
  pc_cost_rate : ModelCostRate D;
  pc_chars : Z;
}.

(** Outside, [None] is a panic; [index] says that there is an index of prefixes, and the
    task is the prefix to be recorded in it. *)
Definition prepare_call (env : PolicyEnv FlowControl.FlowController) (index : bool) (cc : CallContext) s r
  : option (Server D P S C * option RecordTask * (GatewayError + PreparedModelCall)) :=
  let input_chars := chat_chars (messages r) in
  let resolved := resolve_request_model (router_of s) (r_model r) (messages r) (tools r) in
  let prefix := if index then request_prefix_bytes r else [] in
  match select_provider_with_prefix env (router_of s) resolved (Some (cc_key_hash cc)) input_chars prefix with
  | None => None
  | Some (rt, None) => Some (set_policy_of s rt, None, inl (ModelNotFound resolved))
  | Some (rt, Some sel) =>
    let s := set_policy_of s rt in
    let p := provider sel in
    if bool_decide (p_name p = "fusion")
    then Some (s, None, inl (ConfigError ("fusion child model '" +:+ r_model r +:+ "' resolves to virtual provider '" +:+ p_name p +:+ "'")))
    else
      let model := resolve_model_name rt resolved in
      Some (s, if kv_match_attempted sel && index then (fun w => mkRecordTask resolved w prefix) <$> p_kv_worker_id p else None,
            inr (mkCall (upstream_request cc (client_type_header p) r) p model (get_cost_rate (PlanCharge.deployment_store (gateway s)) model) input_chars))
  end.

Definition call_flow_error (did : string) (o : FlowOutcome) : GatewayError :=
  match o with
  | TimedOut waiters => FlowControlQueueTimeout did waiters ("Deployment '" +:+ did +:+ "' fusion child call queue timeout")
  | TooLong chars max_context => RateLimitExceeded None
      ("Fusion child context (" +:+ show chars +:+ " chars) exceeds deployment max_context (" +:+ show max_context +:+ ")")
      "flow_control_context" None None None
  | Granted _ => InternalError ""
  end.

(** The queue has answered, or there is none: the call begins. *)
Definition begin_call s (c : PreparedModelCall) (o : FlowOutcome) : Server D P S C * (GatewayError + InFlightGuard) :=
  match o with
  | Granted _ =>
    let '(t, g) := match p_deployment_id (pc_provider c) with
                   | Some did => new_for_deployment (inflight s) (billing_model c) did (pc_chars c)
                   | None => inflight_new (inflight s) (billing_model c) (pc_chars c)
                   end in
    (set_inflight s t, inr g)
  | _ => (s, inl (call_flow_error (default "" (p_deployment_id (pc_provider c))) o))
  end.

Definition record_success (now : Z) s (deployment : option string) : Server D P S C :=
  match deployment with
  | None => s
  | Some did => let b := books s in
      set_books s (mkBooks (Rebalance.rate_record now (request_rate b) did) (agent_stats b) (failure_counter b) (offline_tasks b)
                     (record_tasks b) (rejections b) (logs b))
  end.

(** The end of a call that is not a stream: answered, or not (an error, or a panel that
    is too late). *)
Definition call_answered (now : Z) s (c : PreparedModelCall) (g : InFlightGuard) (b : ProviderBilling D) (u : Usage) : Server D P S C * ProviderBilling D :=
  (drop_metric (record_success now s (p_deployment_id (pc_provider c))) (Some g), bill_answer (pc_cost_rate c) b u).
Definition call_dropped s (g : InFlightGuard) : Server D P S C := drop_metric s (Some g).
(** A stream keeps its guards until it ends or is dropped. *)
Definition call_streams (now : Z) s (c : PreparedModelCall) : Server D P S C := record_success now s (p_deployment_id (pc_provider c)).

End calls.
#[global] Arguments PreparedModelCall : clear implicits.

(** ** Lemmas: the bill of a stream *)

Definition chunk_usage (item : option Transcoder.ChatStreamChunk) : option Transcoder.StreamUsage := ck ← item; Transcoder.ck_usage ck.
Definition snap (t : Usage) (item : option Transcoder.ChatStreamChunk) : Usage :=
  match chunk_usage item with Some u => update_usage_snapshot t u | None => t end.
(** The usage that a stream has reported. *)
Definition reported_usage (l : Items) : Usage := foldl snap no_usage l.
Definition reports (l : Items) : bool := existsb (fun item => present (chunk_usage item)) l.

(** No count that it reports is ever below an earlier one. *)
Definition usage_le (a b : Usage) : Prop :=
  prompt_tokens a <= prompt_tokens b /\ completion_tokens a <= completion_tokens b /\ default 0 (cached_tokens a) <= default 0 (cached_tokens b).
Fixpoint never_falls (t : Usage) (l : Items) : Prop :=
  match l with [] => True | item :: l' => usage_le t (snap t item) /\ never_falls (snap t item) l' end.

Lemma never_falls_snoc t l item :
  never_falls t (l ++ [item]) <-> never_falls t l /\ usage_le (foldl snap t l) (snap (foldl snap t l) item).
Proof. revert t. induction l as [| x l IH]; intros t; cbn [app never_falls foldl]; [tauto |]. rewrite IH. tauto. Qed.
Lemma reported_snoc l item : reported_usage (l ++ [item]) = snap (reported_usage l) item.
Proof. unfold reported_usage. by rewrite foldl_app. Qed.
Lemma reports_snoc l item : reports (l ++ [item]) = reports l || present (chunk_usage item).
Proof. exact (existsb_snoc (fun item => present (chunk_usage item)) l item). Qed.
Lemma aggregate_snoc p a l item :
  aggregate_usage p a (l ++ [item]) = aggregate_usage p a l ++ aggregate_usage p (foldl snap a l) [item].
Proof.
  revert a. induction l as [| x l IH]; intros a; [done |]. cbn [app foldl]. destruct x as [ck |]; cbn [aggregate_usage].
  - unfold snap at 2. cbn [chunk_usage mbind option_bind]. destruct (Transcoder.ck_usage ck); by rewrite IH.
  - by rewrite IH.
Qed.

(** What the client of a stream sees of its usage. *)
Definition observed (p : Usage) (l : Items) : ChatStream.UsageTrackerState := ChatStream.tracked (omap id (aggregate_usage p no_usage l)).
Lemma observed_exact p l :
  observed p l = if reports l then ChatStream.track_usage ChatStream.no_usage (Transcoder.mkChunk [] (Some (combined_stream_usage (reported_usage l) p)))
                 else ChatStream.no_usage.
Proof.
  induction l as [| item l IH] using rev_ind; [done |]. unfold observed in *. rewrite aggregate_snoc, reports_snoc, reported_snoc, omap_app.
  fold (reported_usage l). unfold ChatStream.tracked in *. rewrite foldl_app, IH. unfold snap.
  destruct item as [ck |]; cbn [aggregate_usage chunk_usage mbind option_bind]; [| by rewrite orb_false_r].
  destruct (Transcoder.ck_usage ck) as [u |] eqn:E; cbn [present]; rewrite ?orb_true_r, ?orb_false_r.
  - done.
  - cbn. unfold ChatStream.track_usage at 1. by rewrite E.
Qed.

Lemma update_natural t u : usage_ok t -> natural (d ← Transcoder.su_cached_tokens u; d) -> usage_ok (update_usage_snapshot t u).
Proof.
  intros [? ? ? ? ? ?] Hu. split; try done; cbn; unfold non_negative_value, sat_add32, u32_max.
  - by destruct (Transcoder.su_prompt_tokens u); [lia |].
  - by destruct (Transcoder.su_completion_tokens u); [lia |].
  - destruct (Transcoder.su_total_tokens u), (Transcoder.su_prompt_tokens u), (Transcoder.su_completion_tokens u); lia.
  - unfold cached_tokens. cbn. by destruct (d ← Transcoder.su_cached_tokens u; d).
Qed.

Definition counts_ok (l : Items) : Prop := forall item u, item ∈ l -> chunk_usage item = Some u -> natural (d ← Transcoder.su_cached_tokens u; d).
Lemma reported_ok l : counts_ok l -> usage_ok (reported_usage l).
Proof.
  induction l as [| item l IH] using rev_ind; intros Hl; [by split |]. rewrite reported_snoc. unfold snap.
  assert (usage_ok (reported_usage l)) by (apply IH; intros ???; apply Hl; set_solver).
  destruct (chunk_usage item) as [u |] eqn:E; [| done]. apply update_natural; [done |]. eapply Hl; [| exact E]. set_solver.
Qed.

Section stream.
Context {D : Type} `{DecimalSubLaws D}.

Lemma cost_add_zero (a : ProviderCost D) : cost_add a zero_cost = a.
Proof. destruct a as [[a b] c]. unfold cost_add, zero_cost. cbn. by rewrite !add_zero. Qed.
Lemma cost_add_difference (a b c : ProviderCost D) : cost_add (cost_add a b) (cost_sub c b) = cost_add a c.
Proof. unfold cost_add, cost_sub. cbn. by rewrite !add_difference. Qed.

(** The sum of two usages, in the counts that are charged. *)
Definition adds_up (u a b : Usage) : Prop :=
  prompt_tokens u = prompt_tokens a + prompt_tokens b /\ completion_tokens u = completion_tokens a + completion_tokens b
  /\ default 0 (cached_tokens u) = default 0 (cached_tokens a) + default 0 (cached_tokens b).
Definition fits (a b : Usage) : Prop :=
  prompt_tokens a + prompt_tokens b < 2 ^ 31 /\ completion_tokens a + completion_tokens b < 2 ^ 31
  /\ default 0 (cached_tokens a) + default 0 (cached_tokens b) < 2 ^ 31.

Lemma cached_nonneg u : usage_ok u -> 0 <= default 0 (cached_tokens u).
Proof. intros [_ _ _ _ _ Hc]. destruct (cached_tokens u); cbn; [by apply Hc | lia]. Qed.

(** Adding what came since the last report. *)
Lemma adds_up_delta u p t t' :
  usage_ok p -> usage_ok t -> usage_le t t' -> fits p t' -> adds_up u p t -> (cached_tokens t' = None -> cached_tokens t = None) ->
  adds_up (add_usage u (usage_delta t' t)) p t'.
Proof.
  intros Hp Ht (L1 & L2 & L3) (F1 & F2 & F3) (E1 & E2 & E3) Hn. pose proof (cached_nonneg _ Hp). pose proof (cached_nonneg _ Ht).
  destruct Hp as [? ? _ _ _ _], Ht as [? ? _ _ _ _]. unfold adds_up, add_usage, usage_delta, cached_tokens at 1. cbn [prompt_tokens completion_tokens prompt_tokens_details].
  unfold sat_add32, sat_sub, u32_max. split_and!; [lia.. |]. destruct (cached_tokens t') as [n |] eqn:E; cbn [fmap option_fmap option_map mbind option_bind default id] in *.
  - unfold cached_tokens in E3 at 1. destruct (prompt_tokens_details u) as [[c |] |]; cbn in *; unfold sat_add32, u32_max; lia.
  - rewrite Hn in E3 by done. unfold cached_tokens in E3 at 1. cbn in E3. destruct (prompt_tokens_details u) as [c |]; cbn in *; lia.
Qed.

Lemma snap_cached t item : cached_tokens (snap t item) = None -> cached_tokens t = None.
Proof.
  unfold snap. destruct (chunk_usage item) as [u |]; [| done]. unfold update_usage_snapshot, cached_tokens. cbn.
  by destruct (d ← Transcoder.su_cached_tokens u; d).
Qed.

(** What the stream has billed. *)
Lemma bill_stream_exact rate cost p l :
  usage_ok p -> counts_ok l -> never_falls no_usage l -> fits p (reported_usage l) ->
  let g := bill_stream rate (mkBilling (Some cost) (Some p)) l in
  sb_usage g = reported_usage l
  /\ reported_cost g = (if reports l then response_cost rate (reported_usage l) else zero_cost)
  /\ actual_cost (sb_billing g) = Some (cost_add cost (reported_cost g))
  /\ exists u, actual_usage (sb_billing g) = Some u /\ adds_up u p (reported_usage l).
Proof.
  intros Hp. cbn zeta. induction l as [| item l IH] using rev_ind; intros Hl Hf Hs.
  { cbn. rewrite cost_add_zero. split_and!; try done. exists p. split; [done |]. unfold adds_up. cbn. lia. }
  apply never_falls_snoc in Hf as [Hf Hle]. fold (reported_usage l) in Hle. rewrite reported_snoc in Hs |- *. rewrite reports_snoc.
  assert (counts_ok l) as Hl' by (intros ???; apply Hl; set_solver).
  assert (fits p (reported_usage l)) as Hs' by (destruct Hs as (? & ? & ?), Hle as (? & ? & ?); unfold fits; lia).
  destruct (IH Hl' Hf Hs') as (E1 & E2 & E3 & u & E4 & E5). unfold bill_stream in *. rewrite foldl_app. cbn [foldl].
  set (g := foldl _ _ l) in *. unfold bill_chunk. change (ck ← item; Transcoder.ck_usage ck) with (chunk_usage item). pose proof (snap_cached (reported_usage l) item) as Hn.
  unfold snap in *. destruct (chunk_usage item) as [su |] eqn:E; cbn [present]; rewrite ?orb_true_r, ?orb_false_r.
  - cbn [sb_usage reported_cost sb_billing]. rewrite E1. split_and!; [done | done | |].
    + unfold add_actual_cost. cbn [actual_cost add_actual_usage]. rewrite E3. cbn [default id]. by rewrite cost_add_difference.
    + eexists. split; [unfold add_actual_cost, add_actual_usage; cbn [actual_usage]; rewrite E4; reflexivity |]. cbn [default id].
      by apply adds_up_delta; [| apply reported_ok | ..].
  - split_and!; try done. by exists u.
Qed.

(** When nothing was reported, the bill counts. *)
Lemma settled_provider u :
  0 <= prompt_tokens u < 2 ^ 31 -> 0 <= completion_tokens u < 2 ^ 31 -> 0 <= default 0 (cached_tokens u) ->
  ChatStream.settled_tokens (ChatStream.preferred_stream_usage ChatStream.no_usage (Some u))
  = (prompt_tokens u, default 0 (cached_tokens u), completion_tokens u).
Proof.
  intros Hp Hc Hn. unfold ChatStream.preferred_stream_usage, ChatStream.settled_tokens, ChatStream.tokens. cbn [ChatStream.prompt_tokens ChatStream.completion_tokens ChatStream.cached_tokens ChatStream.no_usage default].
  fold (cached_tokens u). change (Z.max 0 0 + Z.max 0 0) with 0.
  destruct (Z.ltb_spec 0 (prompt_tokens u + completion_tokens u)), (cached_tokens u); cbn [fst snd default id] in *; repeat f_equal; lia.
Qed.

(** When the stream reported all of the bill, what it reported counts. *)
Lemma settled_observed u c :
  0 <= prompt_tokens u -> 0 <= completion_tokens u -> 0 <= default 0 (cached_tokens u) ->
  (c = None -> default 0 (cached_tokens u) = 0) -> (forall n, c = Some n -> n = default 0 (cached_tokens u)) ->
  ChatStream.settled_tokens (ChatStream.preferred_stream_usage (ChatStream.mkTracker (Some (prompt_tokens u)) (Some (completion_tokens u)) c) (Some u))
  = (prompt_tokens u, default 0 (cached_tokens u), completion_tokens u).
Proof.
  intros Hp Hc Hn Ha Hb. unfold ChatStream.preferred_stream_usage, ChatStream.settled_tokens, ChatStream.tokens. cbn [ChatStream.prompt_tokens ChatStream.completion_tokens ChatStream.cached_tokens default id].
  rewrite (Z.max_l (prompt_tokens u) 0), (Z.max_l (completion_tokens u) 0), Z.ltb_irrefl by done. fold (cached_tokens u). cbn [fst snd]. destruct c as [n |]; cbn [default id].
  - rewrite (Hb n) by done. by rewrite !Z.max_l by lia.
  - by rewrite !Z.max_l by lia.
Qed.

(** A streamed composite answer is settled for what its calls used, wherever it stops.
    At every point of the aggregator's stream, complete or broken off, the tokens that
    the gateway settles are those of the panel plus the last that the stream reported,
    and the cost is that of the panel plus the cost of these; provided the reported
    counts never fall and the sums fit in 31 bits. *)
Theorem fusion_stream_settled rate cost p l :
  usage_ok p -> counts_ok l -> never_falls no_usage l -> fits p (reported_usage l) ->
  let bill := sb_billing (bill_stream rate (mkBilling (Some cost) (Some p)) l) in
  ChatStream.settled_tokens (ChatStream.preferred_stream_usage (observed p l) (actual_usage bill))
    = (prompt_tokens p + prompt_tokens (reported_usage l), default 0 (cached_tokens p) + default 0 (cached_tokens (reported_usage l)),
       completion_tokens p + completion_tokens (reported_usage l))
  /\ actual_cost bill = Some (if reports l then cost_add cost (response_cost rate (reported_usage l)) else cost).
Proof.
  intros Hp Hl Hf Hs bill. destruct (bill_stream_exact rate cost p l Hp Hl Hf Hs) as (_ & E2 & E3 & u & E4 & E5 & E6 & E7).
  subst bill. rewrite E3, E2, E4, observed_exact. split; [| destruct (reports l); [done | by rewrite cost_add_zero]].
  pose proof (reported_ok _ Hl) as Ht. rewrite <- E5, <- E6, <- E7.
  assert (0 <= prompt_tokens u /\ 0 <= completion_tokens u /\ 0 <= default 0 (cached_tokens u)) as (N1 & N2 & N3).
  { rewrite E5, E6, E7. pose proof (cached_nonneg _ Hp). pose proof (cached_nonneg _ Ht). destruct Hp, Ht. lia. }
  destruct Hs as (F1 & F2 & F3). rewrite <- E5 in F1. rewrite <- E6 in F2. rewrite <- E7 in F3.
  destruct (reports l); [| by apply settled_provider].
  unfold ChatStream.track_usage, combined_stream_usage, stream_token. cbn [Transcoder.ck_usage Transcoder.su_prompt_tokens Transcoder.su_completion_tokens Transcoder.su_cached_tokens].
  rewrite (Z.add_comm (prompt_tokens (reported_usage l))), (Z.add_comm (completion_tokens (reported_usage l))), <- E5, <- E6.
  rewrite !(proj2 (Z.ltb_lt _ _)) by lia. pose proof (cached_nonneg _ Hp). pose proof (cached_nonneg _ Ht).
  assert (forall z, 0 <= z < 2 ^ 31 -> AnthropicProvider.as_i32 z = z) as Ei by (intros; by apply AnthropicStream.as_i32_ok).
  apply settled_observed; [done.. | |]; rewrite E7; destruct (cached_tokens (reported_usage l)) as [x |], (cached_tokens p) as [y |]; cbn in *; try done;
    intros n ?; simplify_eq; rewrite E7 in F3; cbn in F3; unfold sat_add32, u32_max; rewrite Ei by lia; lia.
Qed.

End stream.

(** ** Lemmas: registration *)

Section registered.
Context {D : Type} `{DecimalOps D}.
Implicit Types (s : DeploymentStore D).

Lemma build_workflows_inv l ws ws' : build_workflows l ws = inr ws' -> dom ws' = dom ws ∪ list_to_set l.*1.
Proof.
  revert ws. induction l as [| [id d] l IH]; intros ws E; cbn [build_workflows] in E; [injection E as <-; cbn; set_solver |].
  destruct (build_workflow id d) as [| w]; [done |]. rewrite (IH _ E), dom_insert_L. cbn. set_solver.
Qed.

(** A registry finds the workflow of each of its models. *)
Lemma build_registry_inv settings r :
  build_registry settings = inr r -> model_routes r = Config.wf_models settings /\ forall m, m ∈ dom (Config.wf_models settings) -> is_Some (workflow_for_model r m).
Proof.
  unfold build_registry, new_registry. destruct (build_workflows _ _) as [| ws]; [done |].
  destruct (head _) as [| ] eqn:E; [done |]. intros [= <-]. split; [done |]. intros m [id Hm]%elem_of_dom. unfold workflow_for_model. cbn. rewrite Hm. cbn.
  destruct (ws !! id) as [w |] eqn:Ew; [by exists w |].
  assert (exists e, e ∈ omap (bad_route ws) (map_to_list (Config.wf_models settings))) as [e He].
  { assert (is_Some (bad_route ws (m, id))) as [e He].
    { unfold bad_route. cbn. case_bool_decide; [by eexists |]. rewrite bool_decide_eq_true_2 by done. by eexists. }
    exists e. apply list_elem_of_omap. exists (m, id). split; [by apply elem_of_map_to_list | done]. }
  destruct (omap _ _); [set_solver | done].
Qed.

Lemma register_all_ok r ms s :
  NoDup ms -> (forall m, m ∈ ms -> is_Some (workflow_for_model r m) /\ deployments s !! m = None /\ exclusive_providers s !! m = None) ->
  exists s', register_all r ms s = (s', inr tt)
  /\ (forall m, deployments s' !! m = if decide (m ∈ ms) then Some [fusion_provider] else deployments s !! m)
  /\ forall m, exclusive_providers s' !! m = if decide (m ∈ ms) then Some "fusion" else exclusive_providers s !! m.
Proof.
  revert s. induction ms as [| m ms IH]; intros s Hn Hm; [exists s; split_and!; set_solver |]. apply NoDup_cons in Hn as [Hni Hn].
  destruct (Hm m) as ([w Ew] & Ed & Ee); [set_solver |]. cbn [register_all]. unfold set_exclusive_deployment. rewrite Ew, Ed, Ee.
  set (s1 := mkDeploymentStore _ _ _ _ _). destruct (IH s1) as (s' & E & Hd & Hx); [done | |].
  { intros m' Hin. destruct (Hm m') as (? & ? & ?); [set_solver |]. assert (m <> m') by set_solver. cbn. by rewrite !lookup_insert_ne. }
  exists s'. split_and!; [done | |]; intros m'; rewrite ?Hd, ?Hx; cbn; destruct (decide (m' = m)) as [-> |].
  1, 3: rewrite decide_False by done; rewrite lookup_insert_eq, decide_True by set_solver; done.
  all: rewrite lookup_insert_ne by done; by destruct (decide (m' ∈ ms)), (decide (m' ∈ m :: ms)); set_solver.
Qed.

(** Every exclusive model has a deployment, as the store keeps it. *)
Definition exclusive_ok s : Prop := forall m, is_Some (exclusive_providers s !! m) -> is_Some (deployments s !! m).

Lemma no_conflict s aliases models :
  head (omap (conflict s aliases) models) = None <-> forall m, m ∈ models -> deployments s !! m = None /\ resolve aliases m = None.
Proof.
  assert (forall m, conflict s aliases m = None <-> deployments s !! m = None /\ resolve aliases m = None) as Hc.
  { intros m. unfold conflict, contains. destruct (deployments s !! m), (resolve aliases m); split; intros; destruct_and?; done. }
  split.
  - intros E m Hm. apply Hc. destruct (conflict s aliases m) as [e |] eqn:Ee; [| done].
    assert (e ∈ omap (conflict s aliases) models) by (apply list_elem_of_omap; eauto). destruct (omap _ _); [set_solver | done].
  - intros Hall. destruct (omap (conflict s aliases) models) as [| e l] eqn:E; [done |].
    assert (e ∈ omap (conflict s aliases) models) as (m & Hm & Ee)%list_elem_of_omap by (rewrite E; by left).
    apply Hall in Hm. apply Hc in Hm. congruence.
Qed.

Lemma models_listed (models : gmap string string) m : m ∈ (map_to_list models).*1 <-> m ∈ dom models.
Proof.
  rewrite elem_of_dom, list_elem_of_fmap. split.
  - intros ([m' id] & -> & Hin%elem_of_map_to_list). cbn. eauto.
  - intros [id Hm]. exists (m, id). by rewrite elem_of_map_to_list.
Qed.

Definition free (settings : Config.WorkflowSettings) s (aliases : AliasStore) : Prop :=
  forall m, m ∈ dom (Config.wf_models settings) -> deployments s !! m = None /\ resolve aliases m = None.

(** Without an error, all is registered. *)
Lemma register_ok settings s aliases r :
  exclusive_ok s -> build_registry settings = inr r -> free settings s aliases ->
  exists s', register_fusion_providers settings s aliases = (s', inr tt)
  /\ (forall m, deployments s' !! m = if decide (m ∈ dom (Config.wf_models settings)) then Some [fusion_provider] else deployments s !! m)
  /\ forall m, exclusive_providers s' !! m = if decide (m ∈ dom (Config.wf_models settings)) then Some "fusion" else exclusive_providers s !! m.
Proof.
  intros Hs Er Hf. unfold register_fusion_providers. rewrite Er. apply build_registry_inv in Er as [_ Hr].
  rewrite (proj2 (no_conflict s aliases _)) by (intros m Hm; apply Hf; by apply models_listed).
  destruct (register_all_ok r (map_to_list (Config.wf_models settings)).*1 s) as (s' & E & Hd & Hx).
  - apply NoDup_fst_map_to_list.
  - intros m Hm%models_listed. destruct (Hf m Hm) as [Hdm _]. split_and!; [by apply Hr | done |].
    destruct (exclusive_providers s !! m) eqn:Ex; [| done]. destruct (Hs m) as [? ?]; [done |]. congruence.
  - exists s'. split_and!; [done | |]; intros m; rewrite ?Hd, ?Hx; pose proof (models_listed (Config.wf_models settings) m);
      by destruct (decide (m ∈ _.*1)), (decide (m ∈ dom _)); tauto.
Qed.

Lemma register_cases settings s aliases :
  (exists e, register_fusion_providers settings s aliases = (s, inl e)) \/ ((exists r, build_registry settings = inr r) /\ free settings s aliases).
Proof.
  unfold register_fusion_providers. destruct (build_registry settings) as [e | r]; [left; eauto |].
  destruct (head _) as [e |] eqn:Ec; [left; eauto |]. right. rewrite no_conflict in Ec. split; [eauto |]. intros m Hm. apply Ec. by apply models_listed.
Qed.

End registered.

Section validated.
Context {D E : Type} `{DecimalOps D}.

Lemma build_workflow_valid (c : Config.Config E) id d : Config.check_workflow c (id, d) = None -> exists w, build_workflow id d = inr w.
Proof.
  destruct d as [roles t]. cbn [Config.check_workflow]. case_bool_decide as Hid; [done |].
  destruct (Z.ltb_spec (Z.of_nat (length (Config.panel roles))) 2) as [| Hlen]; [done |]. destruct (match t with Some _ => _ | None => _ end); [done |].
  rewrite Config.first_error_none. intros Hall.
  assert (forall r i, (r, i) ∈ Config.roles_of roles -> Config.wi_model i <> "") as Hne.
  { intros r i Hi Em. specialize (Hall _ Hi). unfold Config.check_instance in Hall. rewrite Em in Hall. done. }
  unfold build_workflow, new_workflow. cbn [panel aggregator]. rewrite bool_decide_eq_false_2 by (intros ->; done).
  rewrite length_fmap, (proj2 (Nat.ltb_ge _ _)) by lia.
  assert (existsb (fun i => bool_decide (mi_model i = "")) (to_instance <$> Config.panel roles) = false) as ->.
  { apply not_true_is_false. intros (x & Hx & Hb)%existsb_elem. apply list_elem_of_fmap in Hx as (i & -> & Hi). apply bool_decide_eq_true_1 in Hb.
    apply (Hne "panel" i); [| done]. unfold Config.roles_of. apply elem_of_app. left. apply list_elem_of_fmap. eauto. }
  rewrite bool_decide_eq_false_2; [eauto |]. apply (Hne "aggregator"). unfold Config.roles_of. apply elem_of_app. right. by left.
Qed.

Lemma build_workflows_valid (c : Config.Config E) l ws :
  (forall x, x ∈ l -> Config.check_workflow c x = None) -> exists ws', build_workflows l ws = inr ws'.
Proof.
  revert ws. induction l as [| [id d] l IH]; intros ws Hl; [by eexists |]. cbn [build_workflows].
  destruct (build_workflow_valid c id d) as [w ->]; [apply Hl; by left |]. apply IH. intros x Hx. apply Hl. by right.
Qed.

Lemma build_registry_valid (c : Config.Config E) : Config.validate_workflow c = None -> exists r, build_registry (Config.workflow_settings c) = inr r.
Proof.
  unfold Config.validate_workflow. destruct (Config.first_error _ _) eqn:Em; [done |]. intros Hw. pose proof (proj1 (Config.first_error_none _ _) Em) as Em'. pose proof (proj1 (Config.first_error_none _ _) Hw) as Hw'. clear Em Hw.
  unfold build_registry. destruct (build_workflows_valid c _ ∅ Hw') as [ws Ews]. rewrite Ews. pose proof (build_workflows_inv _ _ _ Ews) as Hd.
  unfold new_registry. destruct (omap (bad_route ws) _) as [| e l] eqn:Eo; [cbn; eauto |].
  assert (e ∈ omap (bad_route ws) (map_to_list (Config.wf_models (Config.workflow_settings c)))) as ([m id] & Hin & Eb)%list_elem_of_omap by (rewrite Eo; by left).
  specialize (Em' _ Hin). apply Config.check_workflow_model_ok in Em' as (Hm & _ & [d Hdm]). unfold bad_route in Eb. cbn in Eb.
  rewrite bool_decide_eq_false_2 in Eb by (intros ->; done). exfalso. revert Eb. case_bool_decide as Hn; [| done]. intros _. apply not_elem_of_dom in Hn. apply Hn. rewrite Hd.
  apply elem_of_union_r, elem_of_list_to_set, list_elem_of_fmap. exists (id, d). by rewrite elem_of_map_to_list.
Qed.

(** Composite models are registered all or none.  A failed registration leaves the store
    as it was; a successful one gives each of the configured models exactly one provider,
    which nothing replaces, and touches no other model.  A configuration that passed the
    validation registers, unless a deployment or an alias that is not in it has the name
    of a composite model. *)
Theorem registration_exact (c : Config.Config E) (s : DeploymentStore D) aliases :
  exclusive_ok s ->
  let models := Config.workflow_names c in
  let r := register_fusion_providers (Config.workflow_settings c) s aliases in
  match r.2 with
  | inl _ => r.1 = s
  | inr _ => forall m, deployments r.1 !! m = (if decide (m ∈ models) then Some [fusion_provider] else deployments s !! m)
             /\ is_exclusive_model r.1 m = bool_decide (m ∈ models) || is_exclusive_model s m
  end
  /\ (Config.validate_workflow c = None -> (forall m, m ∈ models -> deployments s !! m = None /\ resolve aliases m = None) -> r.2 = inr tt).
Proof.
  intros Hs models r. subst r. split.
  - destruct (register_cases (Config.workflow_settings c) s aliases) as [[e ->] | [[reg Er] Hf]]; [done |].
    destruct (register_ok _ _ _ _ Hs Er Hf) as (s' & -> & Hd & Hx). cbn. intros m. split; [apply Hd |].
    unfold is_exclusive_model. rewrite Hx. fold (Config.workflow_names c). fold models. by destruct (decide (m ∈ models)); [rewrite bool_decide_eq_true_2 | rewrite bool_decide_eq_false_2].
  - intros Hv Hc. destruct (build_registry_valid c Hv) as [reg Er]. by destruct (register_ok _ _ _ _ Hs Er Hc) as (s' & -> & _).
Qed.

End validated.

(** ** Examples *)

#[local] Existing Instance whole_decimal.
#[local] Instance whole_sub : DecimalSub Z := {| dec_sub := Z.sub |}.
#[local] Instance whole_sub_laws : DecimalSubLaws Z.
Proof. split; intros; cbn; lia. Defined.

(** A panel that used ten tokens and five, and the stream of an Anthropic aggregator: the
    prompt at its start, the answer at its end. *)
Definition demo_panel : Usage := mkUsage 10 5 15 None None None.
Definition demo_items : Items := Some <$> [AnthropicStream.role_chunk 100; AnthropicStream.end_chunk "stop" 7].

Lemma fusion_stream_settled_witness :
  ChatStream.settled_tokens (ChatStream.preferred_stream_usage (observed demo_panel demo_items)
    (actual_usage (sb_billing (bill_stream (mkModelCostRate 2 0 3) (mkBilling (Some (1, 1, 1)) (Some demo_panel)) demo_items)))) = (110, 0, 12)
  /\ actual_cost (sb_billing (bill_stream (mkModelCostRate 2 0 3) (mkBilling (Some (1, 1, 1)) (Some demo_panel)) demo_items)) = Some (201, 1, 22).
Proof.
  refine (fusion_stream_settled (mkModelCostRate 2 0 3) (1, 1, 1) demo_panel demo_items _ _ _ _).
  - split; cbn; try lia; intros ? [=].
  - intros item u Hi. unfold demo_items in Hi. cbn in Hi. apply elem_of_cons in Hi as [-> | [-> | []%elem_of_nil]%elem_of_cons]; intros [= <-]; intros ? [=].
  - vm_compute. intuition discriminate.
  - vm_compute. intuition reflexivity.
Defined.

Lemma registration_exact_witness :
  match Config.demo_load Config.demo_doc with
  | inr c => (register_fusion_providers (D := Z) (Config.workflow_settings c) new_deployment_store new_alias_store).2 = inr tt
  | inl _ => False
  end.
Proof.
  assert (match Config.demo_load Config.demo_doc with inr c => Config.validate_workflow c = None | inl _ => False end) as E by (vm_compute; reflexivity).
  destruct (Config.demo_load Config.demo_doc) as [e | c]; [destruct E |].
  refine (proj2 (registration_exact c new_deployment_store new_alias_store _) _ _).
  - intros m [? Hm]. cbn in Hm. rewrite lookup_empty in Hm. discriminate Hm.
  - exact E.
  - intros m _. split; apply lookup_empty.
Defined.

End FusionRoute.
