(* ===== verification/RequestLife.v ===== *)
(** * RequestLife: the running gateway (boom-main)

    The step relation over the handlers of [Requests]: the live requests, the calls that
    composite providers have running, the admission queue of [FlowSystem], clients that
    leave, clean-ups and reconfigurations, in any order.  The theorems say that guards are never lost or dropped twice on any path, that
    each request ends with one log entry, and that the log and the quotas agree. *)

From S2P Require Import Prelude FlowControl FlowSystem Core Text SlidingWindow PlanStore Stores InFlight PlanCharge Rebalance Float64 KvIndex Policy.
From S2P Require Import Messages Router Json Config Deployments Transcoder Chat Anthropic Sse AnthropicProvider AnthropicStream ChatStream Auth Access.
From S2P Require Import AgentStats Requests Fusion FusionRoute.

Module RequestLife.
Import Core SlidingWindow PlanStore Stores InFlight PlanCharge Policy Messages HybridRouter Router Auth Access Requests.

Definition opt_list {A} (o : option A) : list A := match o with Some x => [x] | None => [] end.

(** ** Lemmas: who holds a concurrency slot *)

Implicit Types (K : list (string * Z)).

(** The table counts the guards of the list. *)
Definition Owned (c : Counters) K : Prop := ConcInv (mkConcSys c K []) /\ forall cell, is_u32 (load c cell).

#[export] Instance owned_proper c : Proper ((≡ₚ) ==> iff) (Owned c).
Proof.
  assert (forall K K', K ≡ₚ K' -> Owned c K -> Owned c K') as Hi.
  { intros K K' Hp [[Hc Hj Hf Hv Ho Hs] Hu]. split; [| done]. split; simpl in *; try done.
    - intros g. rewrite <- Hp. apply Hc.
    - intros id cell Hl. rewrite (Hv _ _ Hl). unfold count_id, retain. by rewrite Hp.
    - by rewrite <- Hp. }
  intros K K' Hp. split; by apply Hi.
Qed.

Lemma owned_init : Owned new_counters [].
Proof. split; [apply inv_init |]. intros cell. unfold load. simpl. by rewrite lookup_empty. Qed.

Lemma owned_ok c K : Owned c K -> counters_ok c.
Proof. intros [[Hc Hj Hf Hv _ Hs] Hu]. by split. Qed.

(** The count that the table shows. *)
Lemma owned_count c K id : Owned c K -> get_concurrency c id = count_id id K.
Proof.
  intros [[Hc Hj Hf Hv _ Hs] _]. simpl in *. unfold get_concurrency. destruct (entries c !! id) as [cell |] eqn:El.
  - rewrite (Hv _ _ El). simpl. unfold count_id at 2. simpl. lia.
  - symmetry. apply count_id_zero. intros (g & -> & Hg)%list_elem_of_fmap. rewrite Hc in El by set_solver. done.
Qed.

Lemma owned_acquire c K id lim c' out :
  Owned c K -> Z.of_nat (length K) + 1 < 2 ^ 32 -> try_acquire_inner c id lim = (c', out) ->
  Owned c' (opt_list ((id,.) <$> out) ++ K).
Proof.
  intros HO Hn E. destruct (acquire_spec _ _ _ _ _ (owned_ok _ _ HO) E) as [Hok _]. split; [| apply Hok].
  unfold try_acquire_inner in E. destruct (try_acquire_begin c id lim) as [c1 o] eqn:Eb.
  destruct (inv_begin _ _ _ _ _ (proj1 HO) (not_elem_of_nil id) Hn Eb) as [HI _]. destruct o as [cell | cell]; simplify_eq; [| exact HI].
  assert (entries c1 !! id = Some cell) as Hl by (apply (ci_cells _ HI (id, cell)); simpl; set_solver).
  apply (inv_sub _ _ _ _ _ HI Hl); simpl.
  - set_solver.
  - intros id'. rewrite count_id_cons. replace (count_id id' []) with 0 by done. simpl. lia.
  - intros id' Hne. rewrite count_id_cons. simpl. rewrite bool_decide_eq_false_2 by done. done.
  - constructor.
  - apply (ci_small _ HI).
Qed.

Lemma owned_drop c K id cell : Owned c ((id, cell) :: K) -> Owned (fetch_sub c cell) K.
Proof.
  intros HO. split.
  - destruct HO as [HI _]. assert (entries c !! id = Some cell) as Hl by (apply (ci_cells _ HI (id, cell)); simpl; set_solver).
    apply (inv_sub _ _ _ _ _ HI Hl); simpl.
    + set_solver.
    + intros id'. rewrite count_id_cons. simpl. lia.
    + intros id' Hne. rewrite count_id_cons. simpl. by rewrite bool_decide_eq_false_2.
    + constructor.
    + pose proof (ci_small _ HI) as Hs. simpl in *. lia.
  - apply owned_ok in HO. unfold fetch_sub. apply store_ok; [done | apply u32_sub_range].
Qed.

Lemma owned_give_back c K id o : Owned c (opt_list ((id,.) <$> o) ++ K) -> Owned (give_back c o) K.
Proof. destruct o as [cell |]; [apply owned_drop | done]. Qed.

Lemma owned_cleanup c K id : Owned c K -> Owned (cleanup_entry c id) K.
Proof.
  intros [HI Hu]. split; [by eapply (inv_step (fun _ => 0)), (cs_cleanup _ (mkConcSys c K [])); [exact HI | apply not_elem_of_nil] |].
  intros cell. unfold cleanup_entry. repeat case_match; apply Hu.
Qed.

(** ** Lemmas: the admission *)

Section admission.
Context {D : Type} `{DecimalOps D}.

Definition charge_keys (kh : string) (ch : PlanCharge D) : list (string * Z) := opt_list ((kh,.) <$> concurrency_guard ch).
Definition charge_teams (team : option string) (ch : PlanCharge D) : list (string * Z) :=
  opt_list ((default "" team,.) <$> team_concurrency_guard ch).

Record Slots (g : Gateway D) (K Te : list (string * Z)) : Prop := {
  sl_keys : Owned (key_counters g) K;
  sl_teams : Owned (team_counters g) Te;
}.

#[export] Instance slots_proper g : Proper ((≡ₚ) ==> (≡ₚ) ==> iff) (Slots g).
Proof. intros K K' E T T' E'. split; intros [H1 H2]; split; first [by rewrite E | by rewrite E' | by rewrite <- E | by rewrite <- E']. Qed.

Lemma slots_limiter g K Te l : Slots g K Te -> Slots (with_limiter g l) K Te.
Proof. intros [H1 H2]. by split. Qed.

Lemma check_team_slots now g tid tp rm weight g' r K Te :
  Slots g K Te -> Z.of_nat (length Te) + 1 < 2 ^ 32 -> check_team now g tid tp rm weight = (g', r) ->
  Slots g' K (match r with inl _ => [] | inr (guard, _) => opt_list ((tid,.) <$> guard) end ++ Te).
Proof.
  intros [Hk Ht] Hn. unfold check_team. destruct (effective_limits now tp) as [[tc ws] stale].
  destruct tc as [lim |]; [destruct (try_acquire_inner (team_counters g) tid lim) as [c cell] eqn:Ea; pose proof (owned_acquire _ _ _ _ _ _ Ht Hn Ea) as Ha;
    destruct cell as [cell |]; [| intros Heq; simplify_eq; by split] |];
    destruct (peek_plan _ _ _ _ _ _ _ _ _ _ _ _) as [d [e |]]; intros; simplify_eq; split; try done;
    exact (owned_drop _ _ _ _ Ha).
Qed.

Lemma check_key_slots now g kh rm kp legacy weight g' r K Te :
  Slots g K Te -> Z.of_nat (length K) + 1 < 2 ^ 32 -> check_key now g kh rm kp legacy weight = (g', r) ->
  Slots g' (match r with inl _ => [] | inr (guard, _, _, _) => opt_list ((kh,.) <$> guard) end ++ K) Te.
Proof.
  intros [Hk Ht] Hn. unfold check_key. destruct kp as [p |].
  2: { simpl. destruct (allowed _); simpl; intros; simplify_eq; by split. }
  destruct (effective_limits now p) as [[tc ws] stale].
  destruct tc as [lim |]; [destruct (try_acquire_inner (key_counters g) kh lim) as [c cell] eqn:Ea; pose proof (owned_acquire _ _ _ _ _ _ Hk Hn Ea) as Ha;
    destruct cell as [cell |]; [| intros Heq; simplify_eq; by split] |];
    destruct (peek_plan _ _ _ _ _ _ _ _ _ _ _ _) as [d [e |]]; intros; simplify_eq; split; try done;
    exact (owned_drop _ _ _ _ Ha).
Qed.

Lemma drop_team_slots g K Te id o : Slots g K (opt_list ((id,.) <$> o) ++ Te) -> Slots (drop_team_guard g o) K Te.
Proof. intros [H1 H2]. destruct o as [cell |]; [| by split]. split; [done | exact (owned_drop _ _ _ _ H2)]. Qed.
Lemma drop_key_slots g K Te id o : Slots g (opt_list ((id,.) <$> o) ++ K) Te -> Slots (drop_key_guard g o) K Te.
Proof. intros [H1 H2]. destruct o as [cell |]; [| by split]. split; [exact (owned_drop _ _ _ _ H1) | done]. Qed.

Lemma drop_charge_slots g K Te kh team ch :
  Slots g (charge_keys kh ch ++ K) (charge_teams team ch ++ Te) -> Slots (charge_drop g ch) K Te.
Proof. intros Hs. unfold charge_drop. eapply drop_team_slots. by eapply drop_key_slots. Qed.

(** A refusal holds nothing, and a charge holds its guards. *)
Lemma check_slots now g kh team rm rsm rpm tpm ws weight g' r K Te :
  Slots g K Te -> Z.of_nat (length K) + 1 < 2 ^ 32 -> Z.of_nat (length Te) + 1 < 2 ^ 32 ->
  check_plan_limits now g kh team rm rsm rpm tpm ws weight = (g', r) ->
  match r with
  | inl _ => Slots g' K Te
  | inr ch => Slots g' (charge_keys kh ch ++ K) (charge_teams team ch ++ Te)
  end.
Proof.
  intros Hs HK HT. unfold check_plan_limits. set (legacy := fold_rpm_tpm_into_60s ws rpm tpm).
  destruct (team ≫= _) as [[tid tp] |] eqn:Et.
  - assert (team = Some tid) as ->.
    { destruct team as [tid0 |]; [| done]. simpl in Et. destruct (resolve_team_plan _ _); simpl in Et; [by simplify_eq | done]. }
    set (kp := resolve_key_plan (plan_store g) kh).
    replace (match kp with Some _ => _ | None => _ end)
      with (match (match check_team now g tid tp rm weight with
                   | (g1, inl e) => (g1, inl e)
                   | (g1, inr (guard, tw)) => (g1, inr (guard, Some (team_plan_key tid), Some tw, Some (ScopeTeam tid)))
                   end : Gateway D * (GatewayError + (option Z * option RateLimitKey * option (list (WindowLimit D)) * option QuotaScope)))
            with
            | (g1, inl e) => (g1, inl e)
            | (g1, inr (team_guard, tk, tw, ts)) =>
              match check_key now g1 kh rm kp legacy weight with
              | (g2, inl e) => (drop_team_guard g2 team_guard, inl e)
              | (g2, inr (guard, commit_windows, d, conc)) =>
                let commit_key := match kp with Some _ => plan_key kh | None => mkRateLimitKey kh rm end in
                (g2, inr (mkPlanCharge commit_key commit_windows weight guard team_guard tk tw (ScopeKey kh) ts (get_cost_rate (PlanCharge.deployment_store g) rsm)
                            (name <$> kp) ((fun tp => name tp.2) <$> Some (tid, tp))
                            (limit d) (get_concurrency (key_counters g2) kh) conc (remaining d) false false))
              end
            end) by (by destruct kp).
    destruct (check_team now g tid tp rm weight) as [g1 [e | [tg tw]]] eqn:Ec;
      pose proof (check_team_slots _ _ _ _ _ _ _ _ _ _ Hs HT Ec) as H1; [intros; by simplify_eq |].
    destruct (check_key now g1 kh rm kp legacy weight) as [g2 [e | [[[kg kw] d] conc]]] eqn:Ek;
      pose proof (check_key_slots _ _ _ _ _ _ _ _ _ _ _ H1 HK Ek) as H2; cbv zeta; intros; simplify_eq; [exact (drop_team_slots _ _ _ _ _ H2) | exact H2].
  - destruct (resolve_key_plan (plan_store g) kh) as [p |].
    + destruct (check_key now g kh rm (Some p) legacy weight) as [g2 [e | [[[kg kw] d] conc]]] eqn:Ek;
        pose proof (check_key_slots _ _ _ _ _ _ _ _ _ _ _ Hs HK Ek) as H2; cbv zeta; intros; simplify_eq; exact H2.
    + simpl. destruct (allowed _); simpl; intros; simplify_eq; done.
Qed.

(** Settling and committing leave the guards of a charge. *)
Definition same_guards (c c' : PlanCharge D) : Prop :=
  concurrency_guard c' = concurrency_guard c /\ team_concurrency_guard c' = team_concurrency_guard c.

Lemma commit_guards now t l (c : PlanCharge D) : same_guards c (commit now t l c).1.2.
Proof. by rewrite commit_flags. Qed.
Lemma settle_guards now t l (c : PlanCharge D) i k o cost : same_guards c (settle now t l c i k o cost).2.
Proof. unfold settle. destruct (_ || _); [done |]. by destruct (charge_micros c i k o cost) as [[? ?] ?]. Qed.
Lemma partial_guards now t l (c : PlanCharge D) u cost : same_guards c (settle_partial_provider_accounting now t l c u cost).2.
Proof.
  unfold settle_partial_provider_accounting. destruct (_ && _); [done |]. destruct (default _ _) as [[p cd] m].
  pose proof (commit_guards now t l c) as [H1 H2]. destruct (commit now t l c) as [[l1 c1] d]. simpl in *.
  destruct (settle_guards now t l1 c1 p (default 0 cd) m cost) as [H3 H4]. split; congruence.
Qed.

Lemma same_guards_keys kh (c c' : PlanCharge D) : same_guards c c' -> charge_keys kh c' = charge_keys kh c.
Proof. intros [E _]. unfold charge_keys. by rewrite E. Qed.
Lemma same_guards_teams team (c c' : PlanCharge D) : same_guards c c' -> charge_teams team c' = charge_teams team c.
Proof. intros [_ E]. unfold charge_teams. by rewrite E. Qed.

End admission.

(** ** Lemmas: the parts of a handler keep their guards *)

Section handlers.
Context {D P S T C : Type} `{DecimalOps D} `{SchedulePolicy FlowControl.FlowController P} `{ClassificationStrategy T S} `{DedupCache C}.
Implicit Types (Te : list (string * Z)) (s : Server D P S C) (req : Request T) (p : Phase D) (M : list InFlightGuard).

Definition phase_charge p : PlanCharge D := match p with Queued c _ | Calling c _ _ _ | Streaming c _ _ _ _ => c end.
Definition phase_keys req p : list (string * Z) :=
  charge_keys (id_key_hash (identity req)) (phase_charge p)
  ++ match p with Streaming _ _ _ _ kg => opt_list ((id_key_hash (identity req),.) <$> kg) | _ => [] end.
Definition phase_teams req p : list (string * Z) := charge_teams (id_team_id (identity req)) (phase_charge p).
Definition phase_metrics p : list InFlightGuard :=
  match p with Queued _ _ => [] | Calling _ _ _ m => opt_list m | Streaming _ _ _ m _ => [m] end.
Definition phase_slots p : list FlowSystem.Guard :=
  match p with Queued _ _ => [] | Calling _ _ slot _ | Streaming _ _ slot _ _ => opt_list slot end.

Definition next_list {A} (f : Phase D -> list A) (n : Next (D := D)) : list A := match n with inr p => f p | inl _ => [] end.

(** The server's counters are those of the guards. *)
Record Holds s K (Te : list (string * Z)) M : Prop := {
  ho_slots : Slots (gateway s) K Te;
  ho_metrics : InFlight.Inv (InFlight.mkSys (inflight s) M);
}.
Definition holds_after req (r : Server D P S C * Next (D := D)) K Te M : Prop :=
  Holds r.1 (next_list (phase_keys req) r.2 ++ K) (next_list (phase_teams req) r.2 ++ Te) (next_list phase_metrics r.2 ++ M).

#[export] Instance holds_proper s : Proper ((≡ₚ) ==> (≡ₚ) ==> (=) ==> iff) (Holds s).
Proof. intros K K' E Te Te' E' M ? <-. split; intros [Ha Hb]; (split; [| done]); revert Ha; by rewrite E, E'. Qed.

Lemma holds_same s s' K Te M :
  key_counters (gateway s') = key_counters (gateway s) -> team_counters (gateway s') = team_counters (gateway s) ->
  inflight s' = inflight s -> Holds s K Te M -> Holds s' K Te M.
Proof. intros E1 E2 E3 [[Ha Hb] Hx]. split; [split |]; congruence. Qed.

Lemma holds_drop_charge s req c K Te M :
  Holds s (charge_keys (id_key_hash (identity req)) c ++ K) (charge_teams (id_team_id (identity req)) c ++ Te) M -> Holds (drop_charge s c) K Te M.
Proof. intros [Ha Hb]. split; [| done]. by eapply drop_charge_slots. Qed.

Lemma holds_drop_key s kh o K Te M :
  Holds s (opt_list ((kh,.) <$> o) ++ K) Te M -> Holds (set_gateway s (drop_key_guard (gateway s) o)) K Te M.
Proof. intros [Ha Hb]. split; [| done]. by eapply drop_key_slots. Qed.

Lemma holds_drop_metric s o K Te M : Holds s K Te (opt_list o ++ M) -> Holds (drop_metric s o) K Te M.
Proof.
  intros [Ha Hb]. destruct o as [g |]; [| by split]. split; [done |].
  exact (inflight_inv_step _ _ Hb (InFlight.st_drop (InFlight.mkSys (inflight s) (g :: M)) [] g M eq_refl)).
Qed.

Lemma holds_new_metric s req target K Te M :
  0 <= input_chars req -> Holds s K Te M -> Holds (new_metric s req target).1 K Te ((new_metric s req target).2 :: M).
Proof.
  intros Hc [Ha Hb]. unfold new_metric. destruct (t_deployment_id target) as [did |].
  - pose proof (inflight_inv_step _ _ Hb (InFlight.st_new_deployment (InFlight.mkSys (inflight s) M) (inflight_model target) did _ Hc)) as Hx.
    by split.
  - pose proof (inflight_inv_step _ _ Hb (InFlight.st_new (InFlight.mkSys (inflight s) M) (inflight_model target) _ Hc)) as Hx. by split.
Qed.

Lemma begin_call_books s c o s' g : FusionRoute.begin_call s c o = (s', g) -> books s' = books s.
Proof. unfold FusionRoute.begin_call. intros. by repeat case_match; simplify_eq. Qed.
Lemma begin_call_gateway s c o s' g : FusionRoute.begin_call s c o = (s', g) -> gateway s' = gateway s.
Proof. unfold FusionRoute.begin_call. intros. by repeat case_match; simplify_eq. Qed.
Lemma holds_begin_call s c slot s' g K Te M :
  0 <= FusionRoute.pc_chars c -> FusionRoute.begin_call s c (Granted slot) = (s', inr g) -> Holds s K Te M -> Holds s' K Te (g :: M).
Proof.
  intros Hc Eb [Ha Hb]. unfold FusionRoute.begin_call in Eb. destruct (p_deployment_id (FusionRoute.pc_provider c)) as [did |].
  - pose proof (inflight_inv_step _ _ Hb (InFlight.st_new_deployment (InFlight.mkSys (inflight s) M) (FusionRoute.billing_model c) did _ Hc)) as Hx.
    cbn [tracker] in Hx. destruct (new_for_deployment _ _ _ _) as [t0 g0]. injection Eb as <- <-. by split.
  - pose proof (inflight_inv_step _ _ Hb (InFlight.st_new (InFlight.mkSys (inflight s) M) (FusionRoute.billing_model c) _ Hc)) as Hx.
    cbn [tracker] in Hx. destruct (inflight_new _ _ _) as [t0 g0]. injection Eb as <- <-. by split.
Qed.

Lemma holds_call s req c target slot K Te M :
  0 <= input_chars req ->
  Holds s (charge_keys (id_key_hash (identity req)) c ++ K) (charge_teams (id_team_id (identity req)) c ++ Te) M ->
  holds_after req (call s req c target slot) K Te M.
Proof.
  intros Hc Hh. unfold call. destruct (rq_stream req).
  - unfold holds_after, next_list, phase_keys. simpl. by rewrite app_nil_r.
  - pose proof (holds_new_metric s req target _ _ _ Hc Hh) as Hn. destruct (new_metric s req target) as [s1 g].
    unfold holds_after, next_list, phase_keys. simpl in *. by rewrite app_nil_r.
Qed.

(** Routing changes the policy and the tasks. *)
Record routed s s' : Prop := {
  rd_gateway : gateway s' = gateway s;
  rd_inflight : inflight s' = inflight s;
  rd_logs : logs (books s') = logs (books s);
}.

Lemma route_routed env index cfg s req resolved s' t : route env index cfg s req resolved = Some (s', t) -> routed s s'.
Proof.
  assert (forall b m pr bs, logs (spawn_record (C := C) b m pr bs) = logs b) as Hl.
  { intros. unfold spawn_record. by repeat case_match. }
  assert (forall cands s' t, kvc_route env index cfg s req resolved cands = Some (s', t) -> routed s s') as Hk.
  { intros cands s0 t0. unfold kvc_route. destruct (_ || _); [intros; simplify_eq; by split |]. destruct index; [| intros; simplify_eq; by split].
    destruct (select_with_candidates _ _ _ _ _ _ _) as [[r [sel |]] |]; intros; simplify_eq; split; try done. simpl. by rewrite Hl. }
  unfold route. destruct (kvc_route _ _ _ _ _ _ _) as [[s1 [t1 |]] |] eqn:E; [| | done]; apply Hk in E as [E1 E2 E3].
  - intros; simplify_eq; by split.
  - destruct (select_provider_with_prefix _ _ _ _ _ _) as [[r sel] |]; intros; simplify_eq; by split.
Qed.

Lemma log_error_holds now s req e did K Te M : Holds s K Te M -> Holds (log_error now s req e did) K Te M.
Proof. by apply holds_same. Qed.

Lemma with_monitor_holds f s K Te M : Holds s K Te M -> Holds (with_monitor f s) K Te M.
Proof. by apply holds_same. Qed.

Lemma arrive_holds now q index cfg s req K Te M :
  0 <= input_chars req -> Z.of_nat (length K) + 1 < 2 ^ 32 -> Z.of_nat (length Te) + 1 < 2 ^ 32 ->
  Holds s K Te M -> holds_after req (arrive now q index cfg s req) K Te M.
Proof.
  intros Hc HK HT Hh. unfold arrive. destruct (check_model_access _ _ _ _) as [e |]; [by apply log_error_holds |].
  destruct (effective_key_limits _ _ _) as [rpm tpm]. destruct (check_plan_limits _ _ _ _ _ _ _ _ _ _) as [g r] eqn:Eg.
  pose proof (check_slots _ _ _ _ _ _ _ _ _ _ _ _ _ _ (ho_slots _ _ _ _ Hh) HK HT Eg) as Hs. destruct r as [e | ch].
  { apply log_error_holds. split; [done | apply Hh]. }
  assert (Holds (set_gateway s g) (charge_keys (id_key_hash (identity req)) ch ++ K) (charge_teams (id_team_id (identity req)) ch ++ Te) M) as Hg
    by (split; [done | apply Hh]).
  destruct (route _ _ _ _ _ _) as [[s1 [t |]] |] eqn:Er.
  - apply route_routed in Er as [E1 E2 _].
    assert (Holds s1 (charge_keys (id_key_hash (identity req)) ch ++ K) (charge_teams (id_team_id (identity req)) ch ++ Te) M) as Hg1
      by (eapply holds_same; [.. | exact Hg]; congruence).
    destruct (t_deployment_id t); [| by apply holds_call].
    unfold holds_after, phase_keys. simpl. by rewrite app_nil_r.
  - apply route_routed in Er as [E1 E2 _]. apply (holds_drop_charge _ req), log_error_holds.
    eapply holds_same; [.. | exact Hg]; congruence.
  - by apply (holds_drop_charge _ req).
Qed.

Lemma flow_outcome_holds now s req c target o K Te M :
  0 <= input_chars req ->
  Holds s (phase_keys req (Queued c target) ++ K) (phase_teams req (Queued c target) ++ Te) M ->
  holds_after req (flow_outcome now s req c target o) K Te M.
Proof.
  unfold phase_keys. simpl. rewrite app_nil_r. intros Hc Hh.
  destruct o; [by apply holds_call | |]; by apply (holds_drop_charge _ req), log_error_holds.
Qed.

Lemma provider_failed_holds now t cfg s req c target slot metric e b K Te M :
  let p := Calling c target slot metric in
  Holds s (phase_keys req p ++ K) (phase_teams req p ++ Te) (phase_metrics p ++ M) ->
  holds_after req (provider_failed now t cfg s req c target metric e b) K Te M.
Proof.
  cbn zeta. unfold phase_keys, phase_teams. simpl. rewrite app_nil_r. intros Hh. unfold provider_failed.
  match goal with |- context [settle_partial_provider_accounting ?n ?t ?l ?c ?u ?k] =>
    pose proof (partial_guards n t l c u k) as Hg; destruct (settle_partial_provider_accounting n t l c u k) as [l1 c1] end.
  apply (holds_drop_charge _ req), holds_drop_metric, with_monitor_holds. simpl in Hg.
  rewrite (same_guards_keys _ _ _ Hg), (same_guards_teams _ _ _ Hg). by eapply holds_same; [.. | exact Hh].
Qed.

(** Committing, and taking the guard of the key out of the charge. *)
Lemma take_keys kh (c : PlanCharge D) :
  charge_keys kh (take_concurrency_guard c).1 = [] /\ opt_list ((kh,.) <$> (take_concurrency_guard c).2) = charge_keys kh c
  /\ forall team, charge_teams team (take_concurrency_guard c).1 = charge_teams team c.
Proof. done. Qed.

Lemma provider_answered_holds now t cfg s req c target slot metric u b K Te M :
  let p := Calling c target slot metric in
  Holds s (phase_keys req p ++ K) (phase_teams req p ++ Te) (phase_metrics p ++ M) ->
  holds_after req (provider_answered now t cfg s req c target metric u b) K Te M.
Proof.
  cbn zeta. unfold phase_keys, phase_teams. simpl. rewrite app_nil_r. intros Hh. unfold provider_answered.
  pose proof (commit_guards now t (limiter (gateway s)) c) as Hg.
  destruct (commit now t _ c) as [[l1 c1] d]. simpl in Hg.
  destruct (take_keys (id_key_hash (identity req)) c1) as (E1 & E2 & E3).
  destruct (take_concurrency_guard c1) as [c2 kg]. cbn [fst snd] in *.
  match goal with |- context [settle ?n ?t ?l ?c ?i ?k ?o ?x] =>
    pose proof (settle_guards n t l c i k o x) as Hg2; destruct (settle n t l c i k o x) as [l2 c3] end.
  apply (holds_drop_charge _ req), holds_drop_metric. simpl in Hg2.
  rewrite (same_guards_keys _ _ _ Hg2), (same_guards_teams _ _ _ Hg2), E1, E3, (same_guards_teams _ _ _ Hg). simpl.
  eapply (holds_same (set_gateway s (drop_key_guard (gateway s) kg))); [| | | eapply holds_drop_key].
  - by destruct kg.
  - by destruct kg.
  - done.
  - rewrite E2, (same_guards_keys _ _ _ Hg). exact Hh.
Qed.

Lemma stream_started_holds now t cfg s req c target slot K Te M :
  let p := Calling c target slot None in
  0 <= input_chars req -> Holds s (phase_keys req p ++ K) (phase_teams req p ++ Te) (phase_metrics p ++ M) ->
  holds_after req (stream_started now t cfg s req c target slot) K Te M.
Proof.
  cbn zeta. unfold phase_keys, phase_teams. simpl. rewrite app_nil_r. intros Hc Hh. unfold stream_started.
  pose proof (commit_guards now t (limiter (gateway s)) c) as Hg.
  destruct (commit now t _ c) as [[l1 c1] d]. simpl in Hg.
  destruct (take_keys (id_key_hash (identity req)) c1) as (E1 & E2 & E3).
  match goal with |- context [new_metric ?s0 req target] =>
    assert (Holds s0 (charge_keys (id_key_hash (identity req)) c ++ K) (charge_teams (id_team_id (identity req)) c ++ Te) M) as Hn
      by (by eapply holds_same; [.. | exact Hh]); pose proof (holds_new_metric s0 req target _ _ _ Hc Hn) as Hm;
    destruct (new_metric s0 req target) as [s1 m] end.
  destruct (take_concurrency_guard c1) as [c2 kg]. cbn [fst snd] in *.
  unfold holds_after, phase_keys, phase_teams. cbn [fst snd next_list phase_charge phase_metrics].
  rewrite E1, E2, E3, (same_guards_keys _ _ _ Hg), (same_guards_teams _ _ _ Hg). simpl. by eapply holds_same; [.. | exact Hm].
Qed.

Lemma stream_ended_holds now t s req c target slot metric kg observed b K Te M :
  let p := Streaming c target slot metric kg in
  Holds s (phase_keys req p ++ K) (phase_teams req p ++ Te) (phase_metrics p ++ M) ->
  holds_after req (stream_ended now t s req c target metric kg observed b) K Te M.
Proof.
  cbn zeta. unfold phase_keys, phase_teams. cbn [phase_charge phase_metrics app]. intros Hh. unfold stream_ended.
  destruct (ChatStream.preferred_stream_usage _ _) as [[i o] k].
  match goal with |- context [settle ?n ?t ?l ?c ?i ?k ?o ?x] =>
    pose proof (settle_guards n t l c i k o x) as Hg2; destruct (settle n t l c i k o x) as [l2 c3] end.
  apply holds_drop_metric. eapply (holds_drop_key _ (id_key_hash (identity req))), (holds_drop_charge _ req). simpl in Hg2.
  rewrite (same_guards_keys _ _ _ Hg2), (same_guards_teams _ _ _ Hg2), app_assoc. by eapply holds_same; [.. | exact Hh].
Qed.

Lemma cancelled_holds s req p K Te M :
  (forall c t sl m kg, p <> Streaming c t sl m kg) ->
  Holds s (phase_keys req p ++ K) (phase_teams req p ++ Te) (phase_metrics p ++ M) -> holds_after req (cancelled s p) K Te M.
Proof.
  intros Hp. unfold phase_keys, phase_teams. destruct p as [c t | c t slot m | c t slot m kg]; cbn [phase_charge phase_metrics]; rewrite ?app_nil_r; intros Hh.
  - by apply (holds_drop_charge _ req).
  - by apply (holds_drop_charge _ req), holds_drop_metric.
  - by destruct (Hp c t slot m kg).
Qed.

End handlers.

(** ** The running gateway *)

Section running.
Context {D P S T C : Type} `{DecimalOps D} `{SchedulePolicy FlowControl.FlowController P} `{ClassificationStrategy T S} `{DedupCache C}.
Implicit Types (Te : list (string * Z)) (req : Request T) (p : Phase D) (M : list InFlightGuard).

(** [live] are the requests that have no answer yet, [calls] the calls that composite
    providers have running, with their guards; the answers are kept, the latest first. *)
Record Sys := mkSys {
  server : Server D P S C;
  flow : FlowSystem.Sys;
  live : list (Request T * Phase D);
  calls : list (InFlightGuard * option FlowSystem.Guard);
  replies : list (string * Reply);
}.

Definition live_id (x : Request T * Phase D) : string := rq_id x.1.
(** Every request that has arrived. *)
Definition ids (s : Sys) : list string := (live_id <$> live s) ++ (replies s).*1.

(** The handler of a request runs to its next await, or to its end. *)
Definition resume (s : Sys) (others : list (Request T * Phase D)) (fl : FlowSystem.Sys) req (r : Server D P S C * Next (D := D)) : Sys :=
  match r.2 with
  | inr p => mkSys r.1 fl ((req, p) :: others) (calls s) (replies s)
  | inl a => mkSys r.1 fl others (calls s) ((rq_id req, a) :: replies s)
  end.

(** The guard of the admission queue is dropped. *)
Definition releases (slot : option FlowSystem.Guard) (fl fl' : FlowSystem.Sys) : Prop :=
  match slot with
  | None => fl' = fl
  | Some g => FlowSystem.any_step fl fl' /\ FlowSystem.guards fl ≡ₚ g :: FlowSystem.guards fl'
  end.
(** The queue answers a waiting request. *)
Definition queue_answers (o : FlowOutcome) (fl fl' : FlowSystem.Sys) : Prop :=
  match o with
  | Granted (Some g) => FlowSystem.any_step fl fl' /\ FlowSystem.guards fl' = g :: FlowSystem.guards fl
  | Granted None | TooLong _ _ => fl' = fl
  | TimedOut _ => FlowSystem.any_step fl fl' /\ FlowSystem.guards fl' = FlowSystem.guards fl
  end.

(** What the rest of the program may change: the plans, the deployments, the aliases, the
    policy, the windows, the counters of [Books]; not the guards, the totals or the log.
    The routing of a call of a composite provider, and its success, are of this kind. *)
Record unrelated (s s' : Server D P S C) : Prop := {
  un_keys : key_counters (gateway s') = key_counters (gateway s);
  un_teams : team_counters (gateway s') = team_counters (gateway s);
  un_totals : cumulative (limiter (gateway s')) = cumulative (limiter (gateway s));
  un_inflight : inflight s' = inflight s;
  un_logs : logs (books s') = logs (books s);
}.

Definition cleanup_counters (keys : bool) (id : string) (s : Server D P S C) : Server D P S C :=
  let g := gateway s in
  set_gateway s (if keys then with_keys g (cleanup_entry (key_counters g) id) else with_teams g (cleanup_entry (team_counters g) id)).

(** What a provider reports at the end of a call that is not a stream. *)
Inductive Report := Usage (u : Chat.Usage) | Partial (e : GatewayError) (usage : option Chat.Usage).

(** [ok] restricts the reports of the providers. *)
Inductive step (ok : Report -> Prop) : Sys -> Sys -> Prop :=
| st_arrive s now index cfg req :
    rq_id req ∉ ids s -> 0 <= input_chars req -> 2 * Z.of_nat (length (live s)) + 1 < 2 ^ 32 ->
    step ok s (resume s (live s) (flow s) req (arrive now (FlowSystem.controller (flow s)) index cfg (server s) req))
| st_queue s l1 req c target l2 now o fl :
    live s = l1 ++ (req, Queued c target) :: l2 -> queue_answers o (flow s) fl ->
    step ok s (resume s (l1 ++ l2) fl req (flow_outcome now (server s) req c target o))
| st_failed s l1 req c target slot metric l2 now t cfg e b fl :
    live s = l1 ++ (req, Calling c target slot metric) :: l2 -> releases slot (flow s) fl ->
    ok (Partial e (actual_usage (billing_of req b))) ->
    step ok s (resume s (l1 ++ l2) fl req (provider_failed now t cfg (server s) req c target metric e b))
| st_answered s l1 req c target slot metric l2 now t cfg u b fl :
    live s = l1 ++ (req, Calling c target slot metric) :: l2 -> rq_stream req = false -> releases slot (flow s) fl -> ok (Usage u) ->
    step ok s (resume s (l1 ++ l2) fl req (provider_answered now t cfg (server s) req c target metric u b))
| st_started s l1 req c target slot l2 now t cfg :
    live s = l1 ++ (req, Calling c target slot None) :: l2 -> rq_stream req = true ->
    step ok s (resume s (l1 ++ l2) (flow s) req (stream_started now t cfg (server s) req c target slot))
| st_ended s l1 req c target slot metric kg l2 now t observed b fl :
    live s = l1 ++ (req, Streaming c target slot metric kg) :: l2 -> releases slot (flow s) fl ->
    step ok s (resume s (l1 ++ l2) fl req (stream_ended now t (server s) req c target metric kg observed b))
| st_cancelled s l1 req p l2 fl :
    live s = l1 ++ (req, p) :: l2 -> (forall c t sl m kg, p <> Streaming c t sl m kg) ->
    match phase_slots p with [] => fl = flow s | g :: _ => releases (Some g) (flow s) fl end ->
    step ok s (resume s (l1 ++ l2) fl req (cancelled (server s) p))
| st_flow s fl : FlowSystem.any_step (flow s) fl -> FlowSystem.guards fl = FlowSystem.guards (flow s) ->
    step ok s (mkSys (server s) fl (live s) (calls s) (replies s))
| st_cleanup s keys id : step ok s (mkSys (cleanup_counters keys id (server s)) (flow s) (live s) (calls s) (replies s))
| st_other s srv : unrelated (server s) srv -> step ok s (mkSys srv (flow s) (live s) (calls s) (replies s))
| st_call_begins s c slot srv g fl :
    0 <= FusionRoute.pc_chars c -> FusionRoute.begin_call (server s) c (Granted slot) = (srv, inr g) -> queue_answers (Granted slot) (flow s) fl ->
    step ok s (mkSys srv fl (live s) ((g, slot) :: calls s) (replies s))
| st_call_ends s l1 g slot l2 fl :
    calls s = l1 ++ (g, slot) :: l2 -> releases slot (flow s) fl ->
    step ok s (mkSys (FusionRoute.call_dropped (server s) g) fl (live s) (l1 ++ l2) (replies s)).

(** A server before its first request. *)
Record fresh (s : Sys) : Prop := {
  fr_keys : key_counters (gateway (server s)) = new_counters;
  fr_teams : team_counters (gateway (server s)) = new_counters;
  fr_inflight : inflight (server s) = new_tracker;
  fr_guards : FlowSystem.guards (flow s) = [];
  fr_logs : logs (books (server s)) = [];
  fr_live : live s = [];
  fr_calls : calls s = [];
  fr_replies : replies s = [];
}.

(** ** Guards *)

Definition all_keys (l : list (Request T * Phase D)) : list (string * Z) := l ≫= fun x => phase_keys x.1 x.2.
Definition all_teams (l : list (Request T * Phase D)) : list (string * Z) := l ≫= fun x => phase_teams x.1 x.2.
Definition all_metrics (l : list (Request T * Phase D)) : list InFlightGuard := l ≫= fun x => phase_metrics x.2.
Definition all_slots (l : list (Request T * Phase D)) : list FlowSystem.Guard := l ≫= fun x => phase_slots x.2.

Definition calls_slots (l : list (InFlightGuard * option FlowSystem.Guard)) : list FlowSystem.Guard := l ≫= fun x => opt_list x.2.

Record Guarded (s : Sys) : Prop := {
  gd_holds : Holds (server s) (all_keys (live s)) (all_teams (live s)) (all_metrics (live s) ++ (calls s).*1);
  gd_slots : FlowSystem.guards (flow s) ≡ₚ all_slots (live s) ++ calls_slots (calls s);
  gd_chars : forall x, x ∈ live s -> 0 <= input_chars x.1;
}.

Lemma length_keys (l : list (Request T * Phase D)) :
  Z.of_nat (length (all_keys l)) <= 2 * Z.of_nat (length l) /\ Z.of_nat (length (all_teams l)) <= 2 * Z.of_nat (length l).
Proof.
  induction l as [| [req p] l [IH1 IH2]]; [done |]. unfold all_keys, all_teams in *. rewrite !bind_cons, !length_app. cbn [length fst snd].
  assert (length (phase_keys req p) <= 2)%nat.
  { unfold phase_keys, charge_keys. rewrite length_app. destruct (concurrency_guard _), p as [| | ? ? ? ? [|]]; simpl; lia. }
  assert (length (phase_teams req p) <= 1)%nat by (unfold phase_teams, charge_teams; destruct (team_concurrency_guard _); simpl; lia).
  lia.
Qed.

#[export] Instance inflight_inv_proper t : Proper ((≡ₚ) ==> iff) (fun M => InFlight.Inv (InFlight.mkSys t M)).
Proof.
  assert (forall M M', M ≡ₚ M' -> InFlight.Inv (InFlight.mkSys t M) -> InFlight.Inv (InFlight.mkSys t M')) as Hi.
  { intros M M' E (I1 & I2 & I3). split_and!; simpl in *.
    - intros k. destruct (I1 k) as (A & B & Hn). unfold requests_of, chars_of in *. rewrite <- E. split_and!; try done. intros ? g. rewrite <- E. auto.
    - intros k. destruct (I2 k) as (A & B & Hn). unfold requests_of, chars_of in *. rewrite <- E. split_and!; try done. intros ? g. rewrite <- E. auto.
    - intros g. rewrite <- E. auto. }
  intros M M' E. split; by apply Hi.
Qed.

Lemma holds_perm (s : Server D P S C) K K' Te Te' M M' : K ≡ₚ K' -> Te ≡ₚ Te' -> M ≡ₚ M' -> Holds s K Te M -> Holds s K' Te' M'.
Proof.
  intros E1 E2 E3 [Ha Hb]. split; [by rewrite <- E1, <- E2 |]. revert Hb. apply (inflight_inv_proper (inflight s)). by symmetry.
Qed.

(** A live request, with its guards apart from the others'. *)
Lemma live_holds s l1 req p l2 :
  Guarded s -> live s = l1 ++ (req, p) :: l2 ->
  0 <= input_chars req
  /\ Holds (server s) (phase_keys req p ++ all_keys (l1 ++ l2)) (phase_teams req p ++ all_teams (l1 ++ l2)) (phase_metrics p ++ all_metrics (l1 ++ l2) ++ (calls s).*1)
  /\ FlowSystem.guards (flow s) ≡ₚ phase_slots p ++ all_slots (l1 ++ l2) ++ calls_slots (calls s)
  /\ (forall x, x ∈ l1 ++ l2 -> 0 <= input_chars x.1).
Proof.
  intros [Hh Hs Hc] E. assert (forall A (f : Request T * Phase D -> list A), live s ≫= f ≡ₚ f (req, p) ++ ((l1 ++ l2) ≫= f)) as Hp.
  { intros A f. rewrite E, !bind_app, bind_cons. apply Permutation_app_swap_app. }
  split_and!.
  - apply (Hc (req, p)). rewrite E. set_solver.
  - eapply holds_perm; [| | | exact Hh]; [apply Hp | apply Hp |]. unfold all_metrics. by rewrite (Hp _ (fun x => phase_metrics x.2)), <- app_assoc.
  - rewrite Hs. unfold all_slots. by rewrite (Hp _ (fun x => phase_slots x.2)), <- app_assoc.
  - intros x Hx. apply Hc. rewrite E. set_solver.
Qed.

(** The guards of a request that goes on, or ends. *)
Lemma resume_guarded s others fl req r :
  0 <= input_chars req -> (forall x, x ∈ others -> 0 <= input_chars x.1) ->
  holds_after req r (all_keys others) (all_teams others) (all_metrics others ++ (calls s).*1) ->
  FlowSystem.guards fl ≡ₚ next_list phase_slots r.2 ++ all_slots others ++ calls_slots (calls s) ->
  Guarded (resume s others fl req r).
Proof.
  intros Hq Hc Hh Hs. unfold resume, holds_after in *. destruct r.2 as [a | p]; split; cbn [server flow live calls next_list app] in *; try done.
  - unfold all_metrics. rewrite bind_cons, <- app_assoc. exact Hh.
  - unfold all_slots. rewrite bind_cons, <- app_assoc. exact Hs.
  - intros x [-> | Hx]%elem_of_cons; [done | auto].
Qed.

Lemma releases_slots slot fl fl' A : releases slot fl fl' -> FlowSystem.guards fl ≡ₚ opt_list slot ++ A -> FlowSystem.guards fl' ≡ₚ A.
Proof.
  destruct slot as [g |]; simpl; [| by intros ->]. intros [_ ->] Hp. by apply Permutation_cons_inv in Hp.
Qed.

Lemma call_slots (s : Server D P S C) req c target slot : next_list phase_slots (call s req c target slot).2 = opt_list slot.
Proof. unfold call. destruct (rq_stream req); [done |]. by destruct (new_metric s req target). Qed.

Lemma arrive_slots now q index cfg (s : Server D P S C) req : next_list phase_slots (arrive now q index cfg s req).2 = [].
Proof.
  unfold arrive. destruct (check_model_access _ _ _ _); [done |]. destruct (effective_key_limits _ _ _) as [rpm tpm].
  destruct (check_plan_limits _ _ _ _ _ _ _ _ _ _) as [g [e | ch]]; [done |].
  destruct (route _ _ _ _ _ _) as [[s1 [t |]] |]; [| done | done]. destruct (t_deployment_id t); [done |]. apply call_slots.
Qed.

Lemma queue_slots o fl fl' (A : list FlowSystem.Guard) (s : Server D P S C) req c target now :
  queue_answers o fl fl' -> FlowSystem.guards fl ≡ₚ A ->
  FlowSystem.guards fl' ≡ₚ next_list phase_slots (flow_outcome now s req c target o).2 ++ A.
Proof.
  destruct o as [[g |] | w | a b]; cbn [queue_answers flow_outcome]; rewrite ?call_slots; simpl.
  - intros [_ ->] ->. done.
  - by intros ->.
  - by intros [_ ->].
  - by intros ->.
Qed.

(** A handler that ends leaves no guard of the queue. *)
Lemma failed_ends now t cfg (s : Server D P S C) req c target metric e b :
  (provider_failed now t cfg s req c target metric e b).2 = inl (Failed e (rq_stream req)).
Proof. unfold provider_failed. by destruct (settle_partial_provider_accounting _ _ _ _ _ _). Qed.
Lemma answered_ends now t cfg (s : Server D P S C) req c target metric u b : (provider_answered now t cfg s req c target metric u b).2 = inl Served.
Proof.
  unfold provider_answered. destruct (commit _ _ _ _) as [[l1 c1] d]. destruct (take_concurrency_guard c1).
  by destruct (settle _ _ _ _ _ _ _ _).
Qed.
Lemma ended_ends now t (s : Server D P S C) req c target metric kg observed b :
  (stream_ended now t s req c target metric kg observed b).2 = inl Served.
Proof. unfold stream_ended. destruct (ChatStream.preferred_stream_usage _ _) as [[i o] k]. by destruct (settle _ _ _ _ _ _ _ _). Qed.
Lemma started_goes_on now t cfg (s : Server D P S C) req c target slot :
  exists c' m kg, (stream_started now t cfg s req c target slot).2 = inr (Streaming c' target slot m kg).
Proof.
  unfold stream_started. destruct (commit _ _ _ _) as [[l1 c1] d]. destruct (new_metric _ _ _) as [s1 m].
  destruct (take_concurrency_guard c1) as [c2 kg]. by exists c2, m, kg.
Qed.
Lemma cancelled_ends (s : Server D P S C) p : (forall c t sl m kg, p <> Streaming c t sl m kg) -> (cancelled s p).2 = inl Cancelled.
Proof. destruct p as [| | c t sl m kg]; [done.. |]. intros Hp. by destruct (Hp c t sl m kg). Qed.

Lemma step_guarded ok s s' : Guarded s -> step ok s s' -> Guarded s'.
Proof.
  intros HG Hst. destruct Hst as [s now index cfg req Hid Hc Hn | s l1 req c target l2 now o fl E Hq
    | s l1 req c target slot metric l2 now t cfg e b fl E Hr Hok | s l1 req c target slot metric l2 now t cfg u b fl E Hs Hr Hok
    | s l1 req c target slot l2 now t cfg E Hs | s l1 req c target slot metric kg l2 now t observed b fl E Hr
    | s l1 req p l2 fl E Hp Hr | s fl Hf Hg | s keys id | s srv Hu | s c slot srv g fl Hc Eb Hq | s l1 g slot l2 fl E Hr].
  - destruct HG as [Hh Hs Hcs]. destruct (length_keys (live s)). apply resume_guarded; [done | done | |].
    + apply arrive_holds; [done | lia | lia | done].
    + by rewrite arrive_slots.
  - destruct (live_holds _ _ _ _ _ HG E) as (Hc & Hh & Hs & Hcs). apply resume_guarded; [done | done | by apply flow_outcome_holds |].
    by eapply queue_slots.
  - destruct (live_holds _ _ _ _ _ HG E) as (Hc & Hh & Hs & Hcs). apply resume_guarded; [done | done | by eapply provider_failed_holds |].
    rewrite failed_ends. by eapply releases_slots.
  - destruct (live_holds _ _ _ _ _ HG E) as (Hc & Hh & Hsl & Hcs). apply resume_guarded; [done | done | by eapply provider_answered_holds |].
    rewrite answered_ends. by eapply releases_slots.
  - destruct (live_holds _ _ _ _ _ HG E) as (Hc & Hh & Hsl & Hcs). apply resume_guarded; [done | done | by eapply stream_started_holds |].
    destruct (started_goes_on now t cfg (server s) req c target slot) as (c' & m & kg & ->). done.
  - destruct (live_holds _ _ _ _ _ HG E) as (Hc & Hh & Hsl & Hcs). apply resume_guarded; [done | done | by eapply stream_ended_holds |].
    rewrite ended_ends. by eapply releases_slots.
  - destruct (live_holds _ _ _ _ _ HG E) as (Hc & Hh & Hsl & Hcs). apply resume_guarded; [done | done | by apply cancelled_holds |].
    rewrite cancelled_ends by done. destruct p as [| c t [g |] m |]; simpl in *; subst; try done; [by eapply (releases_slots (Some g)) |].
    by destruct (Hp charge target slot metric key_guard).
  - destruct HG as [Hh Hs Hcs]. split; simpl; [done | by rewrite Hg | done].
  - destruct HG as [[[Hk Ht] Hm] Hs Hcs]. split; simpl; [| done | done]. split; [| done].
    destruct keys; split; simpl; try done; by apply owned_cleanup.
  - destruct HG as [Hh Hs Hcs]. destruct Hu. split; simpl; [| done | done]. by eapply holds_same.
  - destruct HG as [Hh Hs Hcs]. split; cbn [server flow live calls fmap list_fmap]; [| | done].
    + eapply holds_perm; [| | | by eapply holds_begin_call]; [done | done | apply Permutation_middle].
    + unfold calls_slots. rewrite bind_cons. destruct slot as [sl |]; cbn [queue_answers opt_list snd app] in *; [| by subst].
      destruct Hq as [_ ->]. rewrite Hs. apply Permutation_middle.
  - destruct HG as [Hh Hs Hcs]. rewrite E in Hh, Hs. split; cbn [server flow live calls]; [| | done].
    + apply (holds_drop_metric _ (Some g)). eapply holds_perm; [| | | exact Hh]; [done | done |]. rewrite !fmap_app. cbn. by rewrite <- !Permutation_middle.
    + eapply releases_slots; [exact Hr |]. rewrite Hs. unfold calls_slots. rewrite !bind_app, bind_cons. cbn [snd].
      rewrite (Permutation_app_swap_app (l1 ≫= _) (opt_list slot)). apply Permutation_app_swap_app.
Qed.

Lemma fresh_guarded s : fresh s -> Guarded s.
Proof.
  intros [E1 E2 E3 E4 E5 E6 E7 E8]. split; rewrite ?E6, ?E7; [| by rewrite E4 | set_solver]. split.
  - split; rewrite ?E1, ?E2; apply owned_init.
  - rewrite E3. split_and!; simpl; try set_solver; intros k; split_and!; (done || set_solver).
Qed.

(** C1: guards are neither lost nor dropped twice, on any path of any interleaving.  In
    every reachable state the concurrency count of a key or a team is the number of guards
    that the live requests hold for it, the in-flight counters are those of their
    metrics and of the calls of composite providers, and the slots of the admission queue
    are theirs; with no live request and no such call everything has been given back. *)
Theorem guards_follow_requests ok s0 s :
  fresh s0 -> rtc (step ok) s0 s ->
  (forall kh, get_concurrency (key_counters (gateway (server s))) kh = count_id kh (all_keys (live s)))
  /\ (forall tid, get_concurrency (team_counters (gateway (server s))) tid = count_id tid (all_teams (live s)))
  /\ (forall model d, get_deployment_count (inflight (server s)) model d
       = wrap64 (requests_of (of_deployment (deployment_key model d)) (all_metrics (live s) ++ (calls s).*1)))
  /\ FlowSystem.guards (flow s) ≡ₚ all_slots (live s) ++ calls_slots (calls s)
  /\ (live s = [] -> calls s = [] -> (forall id, get_concurrency (key_counters (gateway (server s))) id = 0 /\ get_concurrency (team_counters (gateway (server s))) id = 0)
       /\ (forall model d, get_deployment_count (inflight (server s)) model d = 0) /\ FlowSystem.guards (flow s) = []).
Proof.
  intros Hf Hr. assert (Guarded s) as [[[Hk Ht] (I1 & I2 & I3)] Hs Hc].
  { revert Hr. apply (reachable_invariant (step ok) Guarded); [by apply fresh_guarded |]. intros s1 s2. apply step_guarded. }
  assert (forall model d, get_deployment_count (inflight (server s)) model d
       = wrap64 (requests_of (of_deployment (deployment_key model d)) (all_metrics (live s) ++ (calls s).*1))) as Hm.
  { intros model d. destruct (I2 (deployment_key model d)) as (E & _ & _). unfold get_deployment_count. simpl in E. rewrite <- E. by destruct (_ !! _). }
  split_and!; [intros; by apply owned_count | intros; by apply owned_count | done | done |].
  intros El Ec. rewrite El, Ec in *. split_and!.
  - intros id. by rewrite (owned_count _ _ _ Hk), (owned_count _ _ _ Ht).
  - intros model d. by rewrite Hm.
  - by apply Permutation_nil_r in Hs.
Qed.

(** ** One log entry per request *)

Definition entry_of req (l : RequestLog) : Prop := lg_request_id l = rq_id req /\ lg_key_hash l = id_key_hash (identity req).

(** What the answer of a request leaves in the log. *)
Definition logged_after req (s : Server D P S C) (r : Server D P S C * Next (D := D)) : Prop :=
  match r.2 with
  | inr _ | inl Cancelled | inl Panicked => logs (books r.1) = logs (books s)
  | inl Served => exists l, logs (books r.1) = l :: logs (books s) /\ entry_of req l /\ lg_status_code l = 200
  | inl (Refused e _) | inl (Failed e _) =>
    (exists l, logs (books r.1) = l :: logs (books s) /\ entry_of req l /\ lg_status_code l = status_code e)
    \/ (should_dedup_log e = true /\ logs (books r.1) = logs (books s))
  end.

Lemma error_logged now b req e did u :
  (exists l, logs (log_error_with_usage (C := C) now b req e did u) = l :: logs b /\ entry_of req l /\ lg_status_code l = status_code e)
  \/ (should_dedup_log e = true /\ logs (log_error_with_usage (C := C) now b req e did u) = logs b).
Proof.
  unfold log_error_with_usage. destruct (should_dedup_log e); [destruct (dedup_seen _ _ _); [by right |] |]; left; by eexists.
Qed.

Lemma call_logged s req c target slot : logged_after req s (call s req c target slot).
Proof. unfold call. destruct (rq_stream req); [done |]. unfold new_metric. by destruct (t_deployment_id target). Qed.

Lemma arrive_logged now q index cfg s req : logged_after req s (arrive now q index cfg s req).
Proof.
  unfold arrive. destruct (check_model_access _ _ _ _) as [e |]; [apply error_logged |]. destruct (effective_key_limits _ _ _) as [rpm tpm].
  destruct (check_plan_limits _ _ _ _ _ _ _ _ _ _) as [g [e | ch]]; [apply (error_logged now (books s)) |].
  destruct (route _ _ _ _ _ _) as [[s1 [t |]] |] eqn:Er; [| | done]; apply route_routed in Er as [_ _ El]; simpl in El.
  - destruct (t_deployment_id t); [done |]. pose proof (call_logged s1 req ch t None) as Hc. unfold logged_after in *. by rewrite El in Hc.
  - pose proof (error_logged now (books s1) req (ModelNotFound (resolve_request_model (router_of s) (rq_model req) (rq_messages req) (rq_tools req))) None None) as Hc.
    by rewrite El in Hc.
Qed.

Lemma flow_logged now s req c target o : logged_after req s (flow_outcome now s req c target o).
Proof. destruct o; [apply call_logged | |]; apply (error_logged now (books s)). Qed.

Lemma failed_logged now t cfg s req c target metric e b : logged_after req s (provider_failed now t cfg s req c target metric e b).
Proof.
  unfold provider_failed. destruct (settle_partial_provider_accounting _ _ _ _ _ _) as [l1 c1].
  destruct metric; apply (error_logged now (books s)).
Qed.

Lemma answered_logged now t cfg s req c target metric u b : logged_after req s (provider_answered now t cfg s req c target metric u b).
Proof.
  unfold provider_answered. destruct (commit _ _ _ _) as [[l1 c1] d]. destruct (take_concurrency_guard c1).
  destruct (settle _ _ _ _ _ _ _ _). destruct metric; (eexists; split; [reflexivity | done]).
Qed.

Lemma started_logged now t cfg s req c target slot : logged_after req s (stream_started now t cfg s req c target slot).
Proof.
  unfold stream_started. destruct (commit _ _ _ _) as [[l1 c1] d]. unfold new_metric.
  by destruct (t_deployment_id target), (take_concurrency_guard c1).
Qed.

Lemma ended_logged now t s req c target metric kg observed b : logged_after req s (stream_ended now t s req c target metric kg observed b).
Proof.
  unfold stream_ended. destruct (ChatStream.preferred_stream_usage _ _) as [[i o] k]. destruct (settle _ _ _ _ _ _ _ _).
  destruct (_ || _); (eexists; split; [reflexivity | done]).
Qed.

Lemma cancelled_logged s req p : logged_after req s (cancelled s p).
Proof. destruct p as [| c t sl [m |] |]; done. Qed.

Definition log_ids (s : Sys) : list string := lg_request_id <$> logs (books (server s)).

(** The answer that is kept for a request agrees with the log. *)
Definition reply_logged (s : Sys) (x : string * Reply) : Prop :=
  match x.2 with
  | Served => exists l, l ∈ logs (books (server s)) /\ lg_request_id l = x.1 /\ lg_status_code l = 200
  | Refused e _ | Failed e _ =>
    (exists l, l ∈ logs (books (server s)) /\ lg_request_id l = x.1 /\ lg_status_code l = status_code e)
    \/ (should_dedup_log e = true /\ x.1 ∉ log_ids s)
  | Cancelled | Panicked => x.1 ∉ log_ids s
  end.

Record Logged (s : Sys) : Prop := {
  lo_ids : NoDup (ids s);
  lo_logs : NoDup (log_ids s);
  lo_answered : forall l, l ∈ logs (books (server s)) -> lg_request_id l ∈ (replies s).*1;
  lo_replies : forall x, x ∈ replies s -> reply_logged s x;
}.

(** A request that is live, or new, has no entry; its handler runs once more. *)
Lemma resume_logged s others fl req r :
  Logged s -> NoDup (rq_id req :: (live_id <$> others) ++ (replies s).*1) -> logged_after req (server s) r -> Logged (resume s others fl req r).
Proof.
  intros [Hi Hl Ha Hr] Hnd Hafter. apply NoDup_cons in Hnd as [Hnew Hnd].
  assert (rq_id req ∉ log_ids s) as Hno.
  { intros (l & E & Hin)%list_elem_of_fmap. apply Hnew, elem_of_app. right. rewrite E. by apply Ha. }
  assert (exists new, logs (books r.1) = new ++ logs (books (server s)) /\ (forall l, l ∈ new -> lg_request_id l = rq_id req)
    /\ (length new <= 1)%nat /\ (new = [] \/ exists a, r.2 = inl a)) as (new & En & Hid & Hlen & Hend).
  { unfold logged_after in Hafter. destruct r.2 as [[e b | e b | | |] | p]; try (by exists []; split_and!; [done | set_solver | simpl; lia | left]).
    - destruct Hafter as [(l & E & [E1 _] & _) | [_ E]]; [exists [l] | exists []]; split_and!; simpl; eauto; (done || set_solver).
    - destruct Hafter as [(l & E & [E1 _] & _) | [_ E]]; [exists [l] | exists []]; split_and!; simpl; eauto; (done || set_solver).
    - destruct Hafter as (l & E & [E1 _] & _). exists [l]. split_and!; simpl; eauto. set_solver. }
  assert (forall w, logs (books (server w)) = logs (books r.1) -> NoDup (log_ids w)) as Hlogs.
  { intros w Ew. unfold log_ids. rewrite Ew, En, fmap_app. destruct new as [| l [| ]]; simpl in *; [done | | lia].
    apply NoDup_cons. split; [| done]. by rewrite (Hid l) by set_solver. }
  assert (forall w x, logs (books (server w)) = logs (books r.1) -> x.1 <> rq_id req -> reply_logged s x -> reply_logged w x) as Hold.
  { intros w x Ew Hne Hx. unfold reply_logged, log_ids in *. rewrite Ew, En.
    assert (forall l, l ∈ logs (books (server s)) -> l ∈ new ++ logs (books (server s))) as Hsub by (intros; apply elem_of_app; by right).
    assert (x.1 ∉ lg_request_id <$> logs (books (server s)) -> x.1 ∉ lg_request_id <$> new ++ logs (books (server s))) as Hnot.
    { intros Hn (l & E & Hin)%list_elem_of_fmap. apply elem_of_app in Hin as [Hin | Hin]; [apply Hid in Hin; congruence |].
      apply Hn. rewrite E. by apply list_elem_of_fmap_2. }
    destruct x.2; naive_solver. }
  assert (forall x, x ∈ replies s -> x.1 <> rq_id req) as Hne by (intros x Hx E; apply Hnew, elem_of_app; right; rewrite <- E; by apply list_elem_of_fmap_2).
  unfold resume. destruct r.2 as [a | p] eqn:Er2.
  - split; simpl.
    + unfold ids. simpl. rewrite <- Permutation_middle. by apply NoDup_cons.
    + by apply Hlogs.
    + intros l Hin. rewrite En in Hin. apply elem_of_cons. apply elem_of_app in Hin as [Hin | Hin]; [left; by apply Hid | right; by apply Ha].
    + intros x [-> | Hx]%elem_of_cons; [| by apply Hold; auto].
      unfold reply_logged, logged_after, log_ids in *. rewrite Er2 in Hafter. cbn [fst snd server].
      destruct a as [e b | e b | | |]; simpl in *.
      * destruct Hafter as [(l & E & [E1 _] & E2) | [Hd E]]; [left; exists l; rewrite E; split_and!; [by left | done | done] | right; by rewrite E].
      * destruct Hafter as [(l & E & [E1 _] & E2) | [Hd E]]; [left; exists l; rewrite E; split_and!; [by left | done | done] | right; by rewrite E].
      * destruct Hafter as (l & E & [E1 _] & E2). exists l. rewrite E. split_and!; [by left | done | done].
      * by rewrite Hafter.
      * by rewrite Hafter.
  - destruct Hend as [-> | [a Ea]]; [| done]. simpl in En. split; simpl.
    + unfold ids. simpl. by apply NoDup_cons.
    + by apply Hlogs.
    + intros l Hin. rewrite En in Hin. by apply Ha.
    + intros x Hx. by apply Hold; auto.
Qed.

Lemma logged_same s s' : ids s' = ids s -> replies s' = replies s -> logs (books (server s')) = logs (books (server s)) -> Logged s -> Logged s'.
Proof.
  intros E1 E2 E3 [Hi Hl Ha Hr]. split; unfold log_ids, reply_logged in *; rewrite ?E1, ?E2, ?E3; try done.
  unfold log_ids in *. by rewrite E3.
Qed.

Lemma live_ids s l1 req p l2 : Logged s -> live s = l1 ++ (req, p) :: l2 -> NoDup (rq_id req :: (live_id <$> l1 ++ l2) ++ (replies s).*1).
Proof.
  intros [Hi _ _ _] E. unfold ids in Hi. rewrite E, fmap_app, fmap_cons in Hi. rewrite fmap_app.
  by rewrite <- app_assoc, <- app_comm_cons, <- Permutation_middle, app_assoc in Hi.
Qed.

Lemma step_logged ok s s' : Logged s -> step ok s s' -> Logged s'.
Proof.
  intros HL Hst. destruct Hst as [s now index cfg req Hid Hc Hn | s l1 req c target l2 now o fl E Hq
    | s l1 req c target slot metric l2 now t cfg e b fl E Hr Hok | s l1 req c target slot metric l2 now t cfg u b fl E Hs Hr Hok
    | s l1 req c target slot l2 now t cfg E Hs | s l1 req c target slot metric kg l2 now t observed b fl E Hr
    | s l1 req p l2 fl E Hp Hr | s fl Hf Hg | s keys id | s srv Hu | s c slot srv g fl Hc Eb Hq | s l1 g slot l2 fl E Hr].
  - apply resume_logged; [done | | apply arrive_logged]. apply NoDup_cons. split; [done | apply HL].
  - apply resume_logged; [done | by eapply live_ids | apply flow_logged].
  - apply resume_logged; [done | by eapply live_ids | apply failed_logged].
  - apply resume_logged; [done | by eapply live_ids | apply answered_logged].
  - apply resume_logged; [done | by eapply live_ids | apply started_logged].
  - apply resume_logged; [done | by eapply live_ids | apply ended_logged].
  - apply resume_logged; [done | by eapply live_ids | apply cancelled_logged].
  - by eapply logged_same; [.. | exact HL].
  - eapply logged_same; [.. | exact HL]; [done.. |]. by destruct keys.
  - destruct Hu. by eapply logged_same; [.. | exact HL].
  - eapply logged_same; [.. | exact HL]; [done.. |]. cbn [server]. by rewrite (begin_call_books _ _ _ _ _ Eb).
  - by eapply logged_same; [.. | exact HL].
Qed.

Lemma fresh_logged s : fresh s -> Logged s.
Proof.
  intros [E1 E2 E3 E4 E5 E6 E7 E8]. split; unfold ids, log_ids; rewrite ?E5, ?E6, ?E8; try constructor; set_solver.
Qed.

(** C3: each request is answered once and has at most one entry in the log: a request that
    was served has one, with status 200; one that was refused or failed has one with the
    status of its error, unless the error is of the kinds that are logged once a minute; a
    request whose client left before its provider answered, and a live request, has none. *)
Theorem one_log_entry ok s0 s :
  fresh s0 -> rtc (step ok) s0 s ->
  NoDup (log_ids s) /\ NoDup (replies s).*1
  /\ (forall x, x ∈ live s -> rq_id x.1 ∉ log_ids s)
  /\ (forall id r, (id, r) ∈ replies s ->
       match r with
       | Served => exists l, l ∈ logs (books (server s)) /\ lg_request_id l = id /\ lg_status_code l = 200
       | Refused e _ | Failed e _ =>
         (exists l, l ∈ logs (books (server s)) /\ lg_request_id l = id /\ lg_status_code l = status_code e)
         \/ (should_dedup_log e = true /\ id ∉ log_ids s)
       | Cancelled | Panicked => id ∉ log_ids s
       end).
Proof.
  intros Hf Hr. assert (Logged s) as [Hi Hl Ha Hrep].
  { revert Hr. apply (reachable_invariant (step ok) Logged); [by apply fresh_logged |]. intros s1 s2. apply step_logged. }
  unfold ids in Hi. apply NoDup_app in Hi as (_ & Hdis & Hrn). split_and!; [done | done | |].
  - intros x Hx (l & E & Hin)%list_elem_of_fmap. apply (Hdis (rq_id x.1)); [by apply (list_elem_of_fmap_2 live_id) | rewrite E; by apply Ha].
  - intros id r Hx. apply (Hrep _ Hx).
Qed.

(** ** The log and the quotas *)

Definition logged_tokens (k : CumulativeKind) (l : RequestLog) : Z :=
  ChatStream.tokens (match k with TotalInputTokens => lg_input_tokens l | TotalOutputTokens => lg_output_tokens l | _ => None end).
(** What the log says that a key has used. *)
Definition logged_use (k : CumulativeKind) (kh : string) (ls : list RequestLog) : Z :=
  zsum (fun l => if bool_decide (lg_key_hash l = kh) then logged_tokens k l else 0) ls.

Definition token_kind (k : CumulativeKind) : Prop := k = TotalInputTokens \/ k = TotalOutputTokens.

(** The total of a key, less what the log says, modulo 2^64. *)
Definition balance (s : Server D P S C) (kh : string) (k : CumulativeKind) : Z :=
  wrap64 (counter (limiter (gateway s)) (ScopeKey kh) k - logged_use k kh (logs (books s))).

(** The charge of a live request is that of its key, committed once a stream has begun. *)
Record charge_of req (committed_ : bool) (c : PlanCharge D) : Prop := {
  cf_key : key_scope c = ScopeKey (id_key_hash (identity req));
  cf_team : forall ts, team_scope c = Some ts -> exists tid, ts = ScopeTeam tid;
  cf_settled : settled c = false;
  cf_committed : committed c = committed_;
}.
Definition phase_ok req p : Prop :=
  match p with Queued c _ | Calling c _ _ _ => charge_of req false c | Streaming c _ _ _ _ => charge_of req true c end.

Lemma wrap64_congr a b c : wrap64 a = wrap64 b -> wrap64 (a + c) = wrap64 (b + c).
Proof. unfold wrap64. intros E. by rewrite <- Zplus_mod_idemp_l, E, Zplus_mod_idemp_l. Qed.

Lemma as_i64_congr z : wrap64 (as_i64 z) = wrap64 z.
Proof.
  unfold as_i64. assert (wrap64 (wrap64 z) = wrap64 z) as E by (unfold wrap64; by rewrite Z.mod_mod).
  case_match; [done |]. unfold wrap64 in *. rewrite <- E at 2. replace (z mod 2 ^ 64 - 2 ^ 64) with (z mod 2 ^ 64 + (-1) * 2 ^ 64) by lia.
  by rewrite Z_mod_plus_full.
Qed.

Lemma add_cumulative_congr l scope k delta scope' k' :
  wrap64 (counter (add_cumulative l scope k delta) scope' k')
  = wrap64 (counter l scope' k' + (if bool_decide (scope' = scope /\ k' = k) then delta else 0)).
Proof.
  unfold add_cumulative, counter. destruct (Z.eqb_spec delta 0) as [-> |]; simpl; [by case_bool_decide; rewrite Z.add_0_r |].
  case_bool_decide as Hd.
  - destruct Hd as [-> ->]. rewrite lookup_insert_eq. simpl. unfold i64_add. rewrite as_i64_congr.
    rewrite (Z.add_comm _ (as_i64 delta)), (Z.add_comm _ delta). apply wrap64_congr, as_i64_congr.
  - rewrite lookup_insert_ne by (intros E%cumulative_cache_key_inj; naive_solver). by rewrite Z.add_0_r.
Qed.

Lemma settle_usage_congr now t l key scope (ws : list (WindowLimit D)) a b c d e scope' k :
  token_kind k ->
  wrap64 (counter (settle_usage now t l key scope ws a b c d e) scope' k)
  = wrap64 (counter l scope' k + (if bool_decide (scope' = scope) then settled_amount a b c d e k else 0)).
Proof.
  intros Hk. unfold settle_usage. rewrite !add_cumulative_congr.
  assert (forall l sc kd dl x, kd <> TotalInputTokens -> kd <> TotalOutputTokens ->
    wrap64 (counter (add_cumulative l sc kd dl) scope' k + x) = wrap64 (counter l scope' k + x)) as Hskip.
  { intros l0 sc kd dl x N1 N2. apply wrap64_congr. rewrite add_cumulative_congr, bool_decide_eq_false_2, Z.add_0_r by (destruct Hk; naive_solver). done. }
  rewrite (bool_decide_eq_false_2 (scope' = scope /\ k = TotalOutputCost)) by (destruct Hk; naive_solver).
  rewrite !Hskip by done. rewrite Z.add_0_r, !add_cumulative_congr.
  rewrite <- (counter_bumps l key (a +sat b) ((c +sat d) +sat e) now t (settle_secs ws)).
  set (l1 := foldl _ l (settle_secs ws)). destruct Hk as [-> | ->]; simpl.
  - rewrite (bool_decide_eq_false_2 (_ /\ TotalInputTokens = TotalOutputTokens)) by naive_solver.
    rewrite Z.add_0_r, add_cumulative_congr. f_equal. f_equal. repeat case_bool_decide; naive_solver.
  - erewrite wrap64_congr; [| rewrite add_cumulative_congr, (bool_decide_eq_false_2 (_ /\ TotalOutputTokens = TotalInputTokens)), Z.add_0_r by naive_solver; reflexivity].
    f_equal. f_equal. repeat case_bool_decide; naive_solver.
Qed.

Lemma balance_change (s s' : Server D P S C) kh k x :
  wrap64 (counter (limiter (gateway s')) (ScopeKey kh) k) = wrap64 (counter (limiter (gateway s)) (ScopeKey kh) k + x) ->
  logged_use k kh (logs (books s')) = logged_use k kh (logs (books s)) + x ->
  balance s' kh k = balance s kh k.
Proof.
  intros E1 E2. unfold balance. rewrite E2. unfold Z.sub. rewrite (wrap64_congr _ _ _ E1). f_equal. lia.
Qed.

Lemma logged_use_cons k kh l ls : logged_use k kh (l :: ls) = logged_use k kh ls + (if bool_decide (lg_key_hash l = kh) then logged_tokens k l else 0).
Proof. unfold logged_use. rewrite zsum_cons. lia. Qed.

(** What a settlement of these counts adds to a total. *)
Definition settled_tokens (k : CumulativeKind) (i o : Z) : Z := match k with TotalInputTokens => i | _ => o end.

Lemma settle_congr now t l req (c : PlanCharge D) i cd o cost kh k :
  charge_of req true c -> token_kind k ->
  wrap64 (counter (settle now t l c i cd o cost).1 (ScopeKey kh) k)
  = wrap64 (counter l (ScopeKey kh) k + (if bool_decide (id_key_hash (identity req) = kh) then settled_tokens k i o else 0)).
Proof.
  intros [Ek Et Es Ec] Hk. unfold settle. rewrite Es, Ec. simpl. destruct (charge_micros c i cd o cost) as [[a b] d].
  assert (forall l key (ws : list (WindowLimit D)) ts, team_scope c = Some ts ->
    wrap64 (counter (settle_usage now t l key ts ws i o a b d) (ScopeKey kh) k) = wrap64 (counter l (ScopeKey kh) k)) as Hteam.
  { intros l0 key ws ts Hts. destruct (Et _ Hts) as [tid ->]. rewrite settle_usage_congr by done.
    by rewrite bool_decide_eq_false_2, Z.add_0_r. }
  assert (wrap64 (counter (settle_usage now t l (pc_key c) (key_scope c) (pc_window_limits c) i o a b d) (ScopeKey kh) k)
    = wrap64 (counter l (ScopeKey kh) k + (if bool_decide (id_key_hash (identity req) = kh) then settled_tokens k i o else 0))) as Hkey.
  { rewrite settle_usage_congr, Ek by done. f_equal. f_equal. unfold token_kind in Hk. repeat case_bool_decide; destruct Hk as [-> | ->]; naive_solver. }
  destruct (team_key c), (team_window_limits c), (team_scope c) as [ts |] eqn:Ets; simpl; try exact Hkey. rewrite Hteam by done. exact Hkey.
Qed.

Lemma commit_charge_of now t l req (c : PlanCharge D) : charge_of req false c -> charge_of req true (commit now t l c).1.2.
Proof. intros [E1 E2 E3 E4]. rewrite commit_flags, E3. by split. Qed.

(** Each part of a handler keeps the balance of every key. *)
Definition balanced_after req (s : Server D P S C) (r : Server D P S C * Next (D := D)) : Prop :=
  (forall kh k, token_kind k -> balance r.1 kh k = balance s kh k) /\ match r.2 with inr p => phase_ok req p | inl _ => True end.

Lemma balance_same (s s' : Server D P S C) kh k :
  (forall k, counter (limiter (gateway s')) (ScopeKey kh) k = counter (limiter (gateway s)) (ScopeKey kh) k) ->
  logged_use k kh (logs (books s')) = logged_use k kh (logs (books s)) -> balance s' kh k = balance s kh k.
Proof. intros E1 E2. unfold balance. by rewrite E1, E2. Qed.

Lemma error_use now b req e did k kh :
  logged_use k kh (logs (log_error_with_usage (C := C) now b req e did None)) = logged_use k kh (logs b).
Proof.
  unfold log_error_with_usage. repeat case_match; try done; simpl; rewrite logged_use_cons;
    (replace (logged_tokens k _) with 0 by (by destruct k)); case_bool_decide; lia.
Qed.

Lemma drop_charge_limiter (s : Server D P S C) c : limiter (gateway (drop_charge s c)) = limiter (gateway s).
Proof. unfold drop_charge, charge_drop. simpl. by destruct (concurrency_guard c), (team_concurrency_guard c). Qed.

Lemma call_balanced (s : Server D P S C) req c target slot : charge_of req false c -> balanced_after req s (call s req c target slot).
Proof.
  intros Hc. unfold call. destruct (rq_stream req); [by split |]. unfold new_metric. by destruct (t_deployment_id target); split.
Qed.

Lemma arrive_balanced now q index cfg (s : Server D P S C) req K Te M :
  Holds s K Te M -> balanced_after req s (arrive now q index cfg s req).
Proof.
  intros [[Hk Ht] _]. apply owned_ok in Hk, Ht. unfold arrive. destruct (check_model_access _ _ _ _) as [e |].
  { split; [| done]. intros kh k _. apply balance_same; [done | apply error_use]. }
  destruct (effective_key_limits _ _ _) as [rpm tpm]. destruct (check_plan_limits _ _ _ _ _ _ _ _ _ _) as [g r] eqn:Eg.
  pose proof (check_plan_limits_spec _ _ _ _ _ _ _ _ _ _ _ _ Hk Ht Eg) as Hs. cbn zeta in Hs. destruct r as [e | ch].
  { destruct Hs as (_ & [_ _ [Hcum _] _ _]). split; [| done]. intros kh k _. apply balance_same; [| apply error_use].
    intros k'. unfold counter. simpl. by rewrite Hcum. }
  destruct Hs as (_ & [_ _ [Hcum _] _ _] & El & Ecm & Est & _ & _ & _ & Eks & Ets & _). rewrite El in Hcum.
  assert (charge_of req false ch) as Hch.
  { split; try done. intros ts Hts. rewrite Ets in Hts. apply fmap_Some in Hts as ([tid ?] & _ & ->). by exists tid. }
  assert (forall s1 : Server D P S C, gateway s1 = g -> logs (books s1) = logs (books s) -> forall kh k, balance s1 kh k = balance s kh k) as Hb.
  { intros s1 E1 E2 kh k. apply balance_same; [| by rewrite E2]. intros k'. unfold counter. by rewrite E1, Hcum. }
  destruct (route _ _ _ _ _ _) as [[s1 [t |]] |] eqn:Er.
  - apply route_routed in Er as [E1 _ E3]. simpl in E1, E3. destruct (t_deployment_id t).
    + split; [| done]. intros kh k _. by apply Hb.
    + destruct (call_balanced s1 req ch t None Hch) as [Hcb ?]. split; [| done]. intros kh k Hkd. rewrite Hcb by done. by apply Hb.
  - apply route_routed in Er as [E1 _ E3]. simpl in E1, E3. split; [| done]. intros kh k _. cbn [fst]. rewrite <- (Hb s1 E1 E3).
    apply balance_same; [intros ?; by rewrite drop_charge_limiter | apply error_use].
  - split; [| done]. intros kh k _. cbn [fst]. rewrite <- (Hb (set_gateway s g)) by done. apply balance_same; [intros ?; by rewrite drop_charge_limiter | done].
Qed.

Lemma flow_balanced now (s : Server D P S C) req c target o : charge_of req false c -> balanced_after req s (flow_outcome now s req c target o).
Proof.
  intros Hc. destruct o; [by apply call_balanced | |]; (split; [| done]); intros kh k _; cbn [fst flow_outcome];
    (apply balance_same; [intros ?; by rewrite drop_charge_limiter | apply error_use]).
Qed.

(** The reports of providers whose counts fit in 31 bits, and whose partial failures are
    logged. *)
Definition counts_fit (u : Chat.Usage) : Prop := 0 <= Chat.prompt_tokens u < 2 ^ 31 /\ 0 <= Chat.completion_tokens u < 2 ^ 31.
Definition report_fits (r : Report) : Prop :=
  match r with
  | Usage u => counts_fit u
  | Partial e u => match u with Some u => counts_fit u /\ should_dedup_log e = false | None => True end
  end.

Lemma failed_balanced now t cfg (s : Server D P S C) req c target metric e b :
  charge_of req false c -> report_fits (Partial e (actual_usage (billing_of req b))) ->
  balanced_after req s (provider_failed now t cfg s req c target metric e b).
Proof.
  intros Hc Hf. split; [| by rewrite failed_ends]. intros kh k Hk. unfold provider_failed. destruct (billing_of req b) as [cost usage]. cbn [actual_usage actual_cost] in *.
  set (u3 := (fun u => (Chat.prompt_tokens u, cached_of u, Chat.completion_tokens u)) <$> usage).
  assert (wrap64 (counter (settle_partial_provider_accounting now t (limiter (gateway s)) c u3 cost).1 (ScopeKey kh) k)
    = wrap64 (counter (limiter (gateway s)) (ScopeKey kh) k
        + (if bool_decide (id_key_hash (identity req) = kh)
           then match usage with Some u => settled_tokens k (Chat.prompt_tokens u) (Chat.completion_tokens u) | None => 0 end else 0))) as Hs.
  { unfold settle_partial_provider_accounting. destruct (is_none u3 && is_none cost) eqn:En.
    - assert (usage = None) as -> by (by destruct usage). by case_bool_decide; rewrite Z.add_0_r.
    - pose proof (commit_charge_of now t (limiter (gateway s)) req c Hc) as Hcc. pose proof (commit_counter now t (limiter (gateway s)) c (ScopeKey kh) k) as Hcount.
      destruct (commit now t _ c) as [[l1 c1] d]. cbn [fst snd] in *. destruct (default _ u3) as [[pt cd] ct] eqn:Ed.
      rewrite (settle_congr _ _ _ _ _ _ _ _ _ _ _ Hcc Hk), Hcount. f_equal. f_equal. destruct usage as [u |]; unfold u3 in Ed; simpl in Ed; simplify_eq; [done |].
      by destruct k. }
  destruct (settle_partial_provider_accounting _ _ _ _ _ _) as [l1 c1]. cbn [fst] in Hs |- *.
  eapply balance_change; [rewrite drop_charge_limiter; destruct metric; exact Hs |].
  replace (logs (books _)) with (logs (log_error_with_usage now (books s) req e (t_deployment_id target) usage)) by (by destruct metric).
  destruct usage as [u |].
  - destruct Hf as [[Hp Hcm] Hd]. unfold log_error_with_usage. rewrite Hd. simpl. rewrite logged_use_cons. f_equal. simpl.
    case_bool_decide; [| done]. unfold logged_tokens, ChatStream.tokens. destruct Hk as [-> | ->]; simpl; lia.
  - rewrite error_use. by case_bool_decide; rewrite Z.add_0_r.
Qed.

Lemma as_i32_small z : 0 <= z < 2 ^ 31 -> AnthropicProvider.as_i32 z = z /\ as_u64 z = z.
Proof.
  intros Hz. unfold AnthropicProvider.as_i32, as_u64. rewrite wrap32_small, wrap64_small by (unfold is_u32, is_u64; lia).
  by rewrite (proj2 (Z.ltb_lt _ _)) by lia.
Qed.

Lemma take_charge_of req b (c : PlanCharge D) : charge_of req b c -> charge_of req b (take_concurrency_guard c).1.
Proof. intros []. by split. Qed.

Lemma answered_balanced now t cfg (s : Server D P S C) req c target metric u b :
  charge_of req false c -> counts_fit u -> balanced_after req s (provider_answered now t cfg s req c target metric u b).
Proof.
  intros Hc [Hp Ho]. split; [| by rewrite answered_ends]. intros kh k Hk. unfold provider_answered.
  destruct (as_i32_small _ Hp) as [-> ->], (as_i32_small _ Ho) as [-> ->].
  pose proof (commit_charge_of now t (limiter (gateway s)) req c Hc) as Hcc. pose proof (commit_counter now t (limiter (gateway s)) c (ScopeKey kh) k) as Hcount.
  destruct (commit now t _ c) as [[l1 c1] d]. cbn [fst snd] in *. pose proof (take_charge_of _ _ _ Hcc) as Ht.
  destruct (take_concurrency_guard c1) as [c2 kg]. cbn [fst] in Ht. destruct (settle _ _ _ c2 _ _ _ _) as [l2 c3] eqn:Es.
  pose proof (settle_congr now t (limiter (gateway (no_failure cfg (t_deployment_id target) (set_gateway s (drop_key_guard (with_limiter (gateway s) l1) kg))))) req c2
    (Chat.prompt_tokens u) (default 0 (cached_of u)) (Chat.completion_tokens u) (actual_cost (billing_of req b)) kh k Ht Hk) as Hsc.
  rewrite Es in Hsc. cbn [fst] in Hsc |- *.
  assert (limiter (gateway (no_failure cfg (t_deployment_id target) (set_gateway s (drop_key_guard (with_limiter (gateway s) l1) kg)))) = l1) as El by (by destruct kg).
  rewrite El, Hcount in Hsc.
  eapply balance_change; [rewrite drop_charge_limiter; destruct metric; exact Hsc |].
  assert (forall l, logs (books s) = l -> logged_use k kh (served_log req target (Some (Chat.prompt_tokens u)) (Some (Chat.completion_tokens u)) (Some (default 0 (cached_of u))) :: l)
    = logged_use k kh l + (if bool_decide (id_key_hash (identity req) = kh) then settled_tokens k (Chat.prompt_tokens u) (Chat.completion_tokens u) else 0)) as Hl.
  { intros l _. rewrite logged_use_cons. f_equal. simpl. case_bool_decide; [| done].
    unfold logged_tokens, ChatStream.tokens. destruct Hk as [-> | ->]; simpl; lia. }
  rewrite <- (Hl _ eq_refl). by destruct metric.
Qed.

Lemma started_balanced now t cfg (s : Server D P S C) req c target slot :
  charge_of req false c -> balanced_after req s (stream_started now t cfg s req c target slot).
Proof.
  intros Hc. unfold stream_started.
  pose proof (commit_charge_of now t (limiter (gateway s)) req c Hc) as Hcc. pose proof (fun sc k => commit_counter now t (limiter (gateway s)) c sc k) as Hcount.
  destruct (commit now t _ c) as [[l1 c1] d]. cbn [fst snd] in *. pose proof (take_charge_of _ _ _ Hcc) as Ht.
  unfold new_metric. destruct (t_deployment_id target), (take_concurrency_guard c1) as [c2 kg]; (split; [| done]);
    intros kh k _; (apply balance_same; [intros k'; apply Hcount | done]).
Qed.

Lemma ended_balanced now t (s : Server D P S C) req c target metric kg observed b :
  charge_of req true c -> balanced_after req s (stream_ended now t s req c target metric kg observed b).
Proof.
  intros Hc. split; [| by rewrite ended_ends]. intros kh k Hk. unfold stream_ended.
  destruct (ChatStream.preferred_stream_usage _ _) as [[i o] cd].
  set (b0 := if (_ || _) : bool then _ else _). assert (logs b0 = logs (books s)) as Eb by (subst b0; by destruct (_ || _)).
  pose proof (settle_congr now t (limiter (gateway s)) req c (ChatStream.tokens i) (ChatStream.tokens cd) (ChatStream.tokens o)
    (actual_cost (billing_of req b)) kh k Hc Hk) as Hsc.
  cbn [set_books set_limiter set_gateway gateway limiter with_limiter] in *.
  destruct (settle _ _ _ c _ _ _ _) as [l2 c3]. cbn [fst] in Hsc |- *.
  eapply balance_change.
  - match goal with |- wrap64 (counter ?l _ _) = _ =>
      replace l with l2 by (simpl; unfold charge_drop; by destruct kg, (concurrency_guard c3), (team_concurrency_guard c3)) end. exact Hsc.
  - simpl. rewrite Eb, logged_use_cons. f_equal. simpl. case_bool_decide; [| done].
    unfold logged_tokens. destruct Hk as [-> | ->]; done.
Qed.

Lemma cancelled_balanced (s : Server D P S C) req p :
  (forall c t sl m kg, p <> Streaming c t sl m kg) -> balanced_after req s (cancelled s p).
Proof.
  intros Hp. split; [| by rewrite cancelled_ends]. intros kh k _.
  destruct p as [c t | c t sl m | c t sl m kg]; [| | by destruct (Hp c t sl m kg)]; cbn [cancelled fst];
    (apply balance_same; [intros k'; rewrite drop_charge_limiter; by try destruct m | by try destruct m]).
Qed.

(** ** The books balance *)

Record Balanced (s0 s : Sys) : Prop := {
  ba_guarded : Guarded s;
  ba_balance : forall kh k, token_kind k -> balance (server s) kh k = balance (server s0) kh k;
  ba_phases : forall x, x ∈ live s -> phase_ok x.1 x.2;
}.

Lemma resume_balanced s0 s others fl req r :
  Guarded (resume s others fl req r) -> (forall kh k, token_kind k -> balance (server s) kh k = balance (server s0) kh k) ->
  (forall x, x ∈ others -> phase_ok x.1 x.2) -> balanced_after req (server s) r -> Balanced s0 (resume s others fl req r).
Proof.
  intros HG Hb Hp [Ha Hx]. split; [done | |]; unfold resume in *; destruct r.2; simpl in *.
  - intros kh k Hk. rewrite Ha by done. auto.
  - intros kh k Hk. rewrite Ha by done. auto.
  - done.
  - intros x [-> | Hin]%elem_of_cons; auto.
Qed.

Lemma step_balanced s0 s s' : Balanced s0 s -> step report_fits s s' -> Balanced s0 s'.
Proof.
  intros [HG Hb Hp] Hst. pose proof (step_guarded _ _ _ HG Hst) as HG'.
  assert (forall l1 req p l2, live s = l1 ++ (req, p) :: l2 -> phase_ok req p /\ forall x, x ∈ l1 ++ l2 -> phase_ok x.1 x.2) as Hlive.
  { intros l1 req p l2 E. rewrite E in Hp. split; [apply (Hp (req, p)); set_solver | intros x Hx; apply Hp; set_solver]. }
  destruct Hst as [s now index cfg req Hid Hc Hn | s l1 req c target l2 now o fl E Hq
    | s l1 req c target slot metric l2 now t cfg e b fl E Hr Hok | s l1 req c target slot metric l2 now t cfg u b fl E Hs Hr Hok
    | s l1 req c target slot l2 now t cfg E Hs | s l1 req c target slot metric kg l2 now t observed b fl E Hr
    | s l1 req p l2 fl E Hq Hr | s fl Hf Hg | s keys id | s srv Hu | s c slot srv g fl Hc Eb Hq | s l1 g slot l2 fl E Hr].
  - apply resume_balanced; [done | done | done |]. by eapply arrive_balanced, HG.
  - apply Hlive in E as [? ?]. apply resume_balanced; [done.. |]. by apply flow_balanced.
  - apply Hlive in E as [? ?]. apply resume_balanced; [done.. |]. by apply failed_balanced.
  - apply Hlive in E as [? ?]. apply resume_balanced; [done.. |]. by apply answered_balanced.
  - apply Hlive in E as [? ?]. apply resume_balanced; [done.. |]. by apply started_balanced.
  - apply Hlive in E as [? ?]. apply resume_balanced; [done.. |]. by apply ended_balanced.
  - apply Hlive in E as [? ?]. apply resume_balanced; [done.. |]. by apply cancelled_balanced.
  - by split.
  - split; [done | | done]. intros kh k Hk. rewrite <- Hb by done. by destruct keys.
  - split; [done | | done]. intros kh k Hk. rewrite <- Hb by done. destruct Hu as [_ _ Ht _ El].
    apply balance_same; simpl; [| by rewrite El]. intros k'. unfold counter. by rewrite Ht.
  - split; [done | | done]. intros kh k Hk. rewrite <- Hb by done.
    apply balance_same; [intros k' | ]; cbn [server]; by rewrite ?(begin_call_books _ _ _ _ _ Eb), ?(begin_call_gateway _ _ _ _ _ Eb).
  - split; [done | | done]. intros kh k Hk. by rewrite <- Hb by done.
Qed.

(** C2: the request log and the quotas agree.  In every reachable state, the tokens that the
    entries of a key add up to are what its totals have grown by, modulo 2^64, whether its
    requests were answered, failed after some calls, streamed to the end or broke off;
    provided the counts of the providers fit in 31 bits and no failure with partial
    usage is of a kind whose log entry may be left out. *)
Theorem log_matches_quotas s0 s kh k :
  fresh s0 -> rtc (step report_fits) s0 s -> token_kind k ->
  wrap64 (counter (limiter (gateway (server s))) (ScopeKey kh) k)
  = wrap64 (counter (limiter (gateway (server s0))) (ScopeKey kh) k + logged_use k kh (logs (books (server s)))).
Proof.
  intros Hf Hr Hk. assert (Balanced s0 s) as [_ Hb _].
  { revert Hr. apply (reachable_invariant (step report_fits) (Balanced s0)); [| intros s1 s2; apply step_balanced].
    split; [by apply fresh_guarded | done |]. rewrite (fr_live _ Hf). set_solver. }
  specialize (Hb kh k Hk). unfold balance in Hb. rewrite (fr_logs _ Hf) in Hb.
  change (logged_use k kh []) with 0 in Hb. rewrite Z.sub_0_r in Hb.
  apply (wrap64_congr _ _ (logged_use k kh (logs (books (server s))))) in Hb. by rewrite Z.sub_add in Hb.
Qed.

(** ** What is charged *)

(** C4: a request is not charged before it is served.  Its wait, its refusal in the
    queue, its cancellation, and the failure of a provider that reports nothing, leave the
    limiter as it is.  Its arrival, refused or not, moves no total, and changes no window;
    it may remove windows, but only those that the schedule of the plan of its key, or of
    its team, lists as stale at the time. *)
Theorem unserved_uncharged (s : Server D P S C) req :
  (forall now q index cfg,
     only_removed (fun ck => key_stale now (gateway s) (id_key_hash (identity req)) ck \/ team_stale now (gateway s) (id_team_id (identity req)) ck)
       (limiter (gateway s)) (limiter (gateway (arrive now q index cfg s req).1)))
  /\ (forall now c target o, limiter (gateway (flow_outcome now s req c target o).1) = limiter (gateway s))
  /\ (forall p, limiter (gateway (cancelled s p).1) = limiter (gateway s))
  /\ (forall now t cfg c target metric e b, actual_usage (billing_of req b) = None -> actual_cost (billing_of req b) = None ->
       limiter (gateway (provider_failed now t cfg s req c target metric e b).1) = limiter (gateway s)).
Proof.
  assert (forall (s : Server D P S C) req c target slot, limiter (gateway (call s req c target slot).1) = limiter (gateway s)) as Ecall.
  { intros. unfold call, new_metric. destruct (rq_stream _); [done |]. by destruct (t_deployment_id _). }
  split_and!.
  - intros now q index cfg. unfold arrive. destruct (check_model_access _ _ _ _); [apply only_removed_refl |]. destruct (effective_key_limits _ _ _) as [rpm tpm].
    match goal with |- context [check_plan_limits ?n ?g ?kh ?tid ?rm ?rsm ?r ?tp ?ws ?w] =>
      pose proof (check_plan_limits_removes n g kh tid rm rsm r tp ws w) as Hr; destruct (check_plan_limits n g kh tid rm rsm r tp ws w) as [g' [e | ch]] end; [done |].
    cbn [fst] in Hr. destruct (route _ _ _ _ _ _) as [[s1 [tg |]] |] eqn:Er.
    + apply route_routed in Er as [E1 _ _]. destruct (t_deployment_id tg); cbn [fst]; [| rewrite Ecall]; by rewrite E1.
    + apply route_routed in Er as [E1 _ _]. cbn [fst]. rewrite drop_charge_limiter. simpl. by rewrite E1.
    + cbn [fst]. by rewrite drop_charge_limiter.
  - intros now c target o. destruct o; cbn [flow_outcome fst]; by rewrite ?Ecall, ?drop_charge_limiter.
  - intros p. destruct p as [c t | c t sl m | c t sl m kg]; cbn [cancelled fst]; rewrite ?drop_charge_limiter; by try destruct m.
  - intros now t cfg c target metric e b Eu Ec. unfold provider_failed. rewrite Eu, Ec.
    match goal with |- context [settle_partial_provider_accounting _ _ ?l ?c ?u ?k] =>
      change (settle_partial_provider_accounting now t l c u k) with (l, c) end.
    cbn [fst]. rewrite drop_charge_limiter. by destruct metric.
Qed.

(** The virtual model is charged under its own name.  The weight and the rate are those
    of the name that the client asked for, resolved by the aliases only, so a request for
    the virtual model is admitted with weight one and settled at the default rate,
    whatever the model of its tier costs. *)
Theorem virtual_model_unpriced now q index cfg (s : Server D P S C) req hr p :
  counters_ok (key_counters (gateway s)) -> counters_ok (team_counters (gateway s)) ->
  classifier s = Some hr -> rq_model req = HybridRouter.model_name hr -> resolve (alias_store s) (HybridRouter.model_name hr) = None ->
  cost_rates (PlanCharge.deployment_store (gateway s)) !! HybridRouter.model_name hr = None ->
  (arrive now q index cfg s req).2 = inr p ->
  cost_rate (phase_charge p) = default_rate
  /\ forall target, Some target = (tiers hr !! strategy_classify (strategy hr) (mkClassifyRequest (rq_messages req) (rq_tools req) (default_tier hr))) ->
     resolve_request_model (router_of s) (rq_model req) (rq_messages req) (rq_tools req) = target.
Proof.
  intros Hk Ht Ec Em Er Erate Ep. split.
  - unfold arrive in Ep. destruct (check_model_access _ _ _ _); [done |]. destruct (effective_key_limits _ _ _) as [rpm tpm].
    assert (quota_model s (rq_model req) = HybridRouter.model_name hr) as Eq by (unfold quota_model, resolve_model; simpl; by rewrite Em, Er).
    rewrite Eq in Ep. destruct (check_plan_limits _ _ _ _ _ _ _ _ _ _) as [g r] eqn:Eg.
    pose proof (check_plan_limits_spec _ _ _ _ _ _ _ _ _ _ _ _ Hk Ht Eg) as Hs. cbn zeta in Hs. destruct r as [e | ch]; [done |].
    destruct Hs as (_ & _ & _ & _ & _ & _ & _ & _ & _ & _ & Hrate).
    assert (cost_rate ch = default_rate) as Hd by (rewrite Hrate; unfold get_cost_rate; by rewrite Erate).
    destruct (route _ _ _ _ _ _) as [[s1 [tg |]] |]; [| done | done]. destruct (t_deployment_id tg); [by injection Ep as <- |].
    revert Ep. unfold call, new_metric. destruct (rq_stream req); [| destruct (t_deployment_id tg)]; intros [= <-]; done.
  - intros target Htg. unfold resolve_request_model. simpl. rewrite Ec. cbn [mbind option_bind]. unfold classify.
    rewrite (bool_decide_eq_true_2 (rq_model req = _)) by done. cbn [negb]. by rewrite <- Htg.
Qed.

(** The handler of Anthropic messages gives its provider no context for its bill, so
    neither a cost nor a usage reported there counts (the composite providers refuse these
    requests). *)
Theorem messages_drop_billing now t cfg (s : Server D P S C) req c target metric kg observed u e b :
  rq_path req = "/v1/messages" ->
  provider_answered now t cfg s req c target metric u b = provider_answered now t cfg s req c target metric u no_billing
  /\ provider_failed now t cfg s req c target metric e b = provider_failed now t cfg s req c target metric e no_billing
  /\ forall m, stream_ended now t s req c target m kg observed b = stream_ended now t s req c target m kg observed no_billing.
Proof.
  intros Hp. assert (forall b : ProviderBilling D, billing_of req b = no_billing) as Hb by (intros; unfold billing_of, is_messages; by rewrite bool_decide_eq_true_2).
  split_and!; [unfold provider_answered | unfold provider_failed | intros m; unfold stream_ended]; by rewrite !Hb.
Qed.

End running.
#[global] Arguments Sys : clear implicits.

(** ** The calls of a composite provider *)

Section composite.
Context {D P S C : Type} `{DecimalOps D} `{SchedulePolicy FlowControl.FlowController P} `{ClassificationStrategy Chat.FunctionTool S} `{DedupCache C}.

(** A call goes to a provider that is not composite itself, so there is no recursion, and it
    goes without the metadata of its request; its routing moves no guard and no total, and
    writes no log entry. *)
Lemma prepare_call_exact to_vec header env index cc (s : Server D P S C) r s' task res :
  FusionRoute.prepare_call to_vec header env index cc s r = Some (s', task, res) ->
  unrelated s s'
  /\ match res with
     | inr c => p_name (FusionRoute.pc_provider c) <> "fusion" /\ FusionRoute.pc_chars c = chat_chars (Chat.messages r)
                /\ FusionRoute.pc_cost_rate c = get_cost_rate (PlanCharge.deployment_store (gateway s)) (FusionRoute.billing_model c)
                /\ Chat.messages (FusionRoute.pc_request c) = Chat.messages r
                /\ forall v, ("metadata", v) ∉ Chat.extra (FusionRoute.pc_request c)
     | inl e => exists m, e = ModelNotFound m \/ e = ConfigError m
     end.
Proof.
  unfold FusionRoute.prepare_call. destruct (select_provider_with_prefix _ _ _ _ _ _) as [[rt [sel |]] |]; [| intros; simplify_eq; split; [done | eauto] | done].
  case_bool_decide as Hf; intros; simplify_eq; (split; [done |]); [eauto |]. split_and!; try done.
  intros v. cbn. unfold FusionRoute.obj_remove. rewrite elem_of_retain. by intros [? _].
Qed.

Lemma record_success_unrelated now (s : Server D P S C) did : unrelated s (FusionRoute.record_success now s did).
Proof. by destruct did. Qed.

End composite.

(** ** Examples *)

Section examples.
#[local] Existing Instance whole_decimal.
#[local] Existing Instance demo_strategy.
#[local] Instance list_dedup : DedupCache (list (string * Z)) := {|
  dedup_seen now c k := existsb (fun e => String.eqb e.1 k && (now <? e.2 + 60)) c;
  dedup_insert now c k := (k, now) :: c;
|}.

(** A plan with one slot, the router of [Access] (the virtual model "auto" is "big"), and
    nothing else. *)
Definition demo_plan : RateLimitPlan Z := mkRateLimitPlan "one" PlanKey None (Some 1) None None [] None None [].
Definition demo_server : Server Z RoundRobinPolicy TierClassifier (list (string * Z)) :=
  mkServer
    (mkGateway new_limiter (apply_key_assignment (upsert_plan new_store demo_plan) "master" "one") new_counters new_counters
       (Router.deployment_store demo_access_router))
    (Router.alias_store demo_access_router) (Router.policy demo_access_router) (Router.classifier demo_access_router) new_tracker
    (mkBooks ∅ (AgentStats.new_agents 0) ∅ [] [] [] []).
Notation DemoSys := (Sys Z RoundRobinPolicy TierClassifier unit (list (string * Z))).
Definition demo_settings : Settings := mkSettings [] (mkRateLimitSettings false 0 None) [] "round_robin" 0 Config.default_health_settings.
Definition demo_sys : DemoSys := mkSys demo_server FlowSystem.init_sys [] [] [].

Definition demo_request (id model path : string) : Request unit :=
  mkRequest id master_identity path model [mkMessage User (Messages.Text "hello") None None None None] None false "10.0.0.1" 5 [].
Definition demo_usage : Chat.Usage := Chat.mkUsage 12 34 46 None None None.

Lemma demo_fresh : fresh demo_sys.
Proof. by split. Qed.

(** What [arrive], [flow_outcome] and [provider_answered] make of a request. *)
Definition after_arrival (id model path : string) : DemoSys :=
  resume demo_sys [] FlowSystem.init_sys (demo_request id model path)
    (arrive 1000 FlowControl.new_controller None demo_settings demo_server (demo_request id model path)).
Definition charge_in (s : DemoSys) : option (PlanCharge Z * Target) :=
  match live s with (_, Queued c t) :: _ => Some (c, t) | _ => None end.

Lemma arrival_step ok id model path : rtc (step ok) demo_sys (after_arrival id model path).
Proof. apply rtc_once. apply (st_arrive ok demo_sys 1000 None demo_settings (demo_request id model path)); [set_solver | done | done]. Qed.

(** One request waits, and holds the slot of its key. *)
Lemma guards_follow_requests_witness :
  length (live (after_arrival "r1" "small" "/v1/chat/completions")) = 1%nat
  /\ get_concurrency (key_counters (gateway (server (after_arrival "r1" "small" "/v1/chat/completions")))) "master" = 1.
Proof.
  split; [vm_compute; reflexivity |].
  destruct (guards_follow_requests (fun _ => True) demo_sys (after_arrival "r1" "small" "/v1/chat/completions") demo_fresh (arrival_step _ _ _ _)) as [Hk _].
  rewrite Hk. vm_compute. reflexivity.
Defined.

(** The same request to its end. *)
Definition demo_end : DemoSys :=
  match charge_in (after_arrival "r1" "small" "/v1/chat/completions") with
  | Some (c, t) =>
    let s := after_arrival "r1" "small" "/v1/chat/completions" in
    let req := demo_request "r1" "small" "/v1/chat/completions" in
    let s := resume s [] FlowSystem.init_sys req (flow_outcome 1001 (server s) req c t (Granted None)) in
    match live s with
    | (_, Calling c t None m) :: _ => resume s [] FlowSystem.init_sys req (provider_answered 1002 1002 demo_settings (server s) req c t m demo_usage no_billing)
    | _ => s
    end
  | None => demo_sys
  end.

Lemma demo_end_reachable (ok : Report -> Prop) : ok (Usage demo_usage) -> rtc (step ok) demo_sys demo_end.
Proof.
  intros Hok. etransitivity; [apply (arrival_step ok "r1" "small" "/v1/chat/completions") |].
  unfold demo_end. destruct (charge_in _) as [[c t] |] eqn:Ec; [| by vm_compute in Ec].
  assert (live (after_arrival "r1" "small" "/v1/chat/completions") = [] ++ (demo_request "r1" "small" "/v1/chat/completions", Queued c t) :: []) as El.
  { revert Ec. unfold charge_in. vm_compute. intros [= <- <-]. reflexivity. }
  eapply rtc_l; [by apply (st_queue ok _ _ _ _ _ _ 1001 (Granted None) FlowSystem.init_sys El) |]. cbn [app].
  cbn zeta. set (s2 := resume _ _ _ _ _). assert (exists m, live s2 = [] ++ (demo_request "r1" "small" "/v1/chat/completions", Calling c t None m) :: []
    /\ flow s2 = FlowSystem.init_sys) as (m & E2 & Ef).
  { subst s2. unfold resume, flow_outcome, call, new_metric. cbn [rq_stream demo_request]. destruct (t_deployment_id t); eexists; by split. }
  rewrite E2. cbn [app]. apply rtc_once.
  exact (st_answered ok s2 _ _ _ _ _ _ _ 1002 1002 demo_settings demo_usage no_billing FlowSystem.init_sys E2 eq_refl (eq_sym Ef) Hok).
Qed.

Lemma one_log_entry_witness :
  replies demo_end = [("r1", Served)] /\ exists l, l ∈ logs (books (server demo_end)) /\ lg_request_id l = "r1" /\ lg_status_code l = 200.
Proof.
  split; [vm_compute; reflexivity |].
  destruct (one_log_entry (fun _ => True) demo_sys demo_end demo_fresh (demo_end_reachable _ I)) as (_ & _ & _ & Hr).
  refine (Hr "r1" Served _). assert (replies demo_end = [("r1", Served)]) as -> by (vm_compute; reflexivity). by left.
Defined.

(** Twelve tokens in the log, and twelve in the total. *)
Lemma log_matches_quotas_witness : wrap64 (counter (limiter (gateway (server demo_end))) (ScopeKey "master") TotalInputTokens) = 12.
Proof.
  rewrite (log_matches_quotas demo_sys demo_end "master" TotalInputTokens demo_fresh
             (demo_end_reachable report_fits ltac:(split; split; reflexivity || discriminate)) (or_introl eq_refl)).
  vm_compute. reflexivity.
Defined.

(** A request that waits has been charged nothing, and one whose provider fails without a
    word is charged nothing either. *)
Lemma unserved_uncharged_witness :
  let req := demo_request "r1" "small" "/v1/messages" in
  cumulative (limiter (gateway (server (after_arrival "r1" "small" "/v1/messages")))) = ∅
  /\ exists c t, charge_in (after_arrival "r1" "small" "/v1/messages") = Some (c, t)
     /\ limiter (gateway (provider_failed 1001 1001 demo_settings demo_server req c t None (InternalError "") (mkBilling None (Some demo_usage))).1) = new_limiter.
Proof.
  destruct (unserved_uncharged demo_server (demo_request "r1" "small" "/v1/messages")) as (Ha & _ & _ & Hf). split.
  - destruct (Ha 1000 FlowControl.new_controller None demo_settings) as [E _].
    transitivity (cumulative (limiter (gateway demo_server))); [| reflexivity]. rewrite <- E. vm_compute. reflexivity.
  - destruct (charge_in _) as [[c t] |] eqn:Ec; [| by vm_compute in Ec]. exists c, t. split; [done |].
    rewrite (Hf 1001 1001 demo_settings c t None (InternalError "") (mkBilling None (Some demo_usage)) eq_refl eq_refl). reflexivity.
Defined.

(** "big" costs 3 a token, and is charged nothing under the name "auto". *)
Definition priced_server : Server Z RoundRobinPolicy TierClassifier (list (string * Z)) :=
  set_gateway demo_server (mkGateway new_limiter (plan_store (gateway demo_server)) new_counters new_counters
    (set_cost_rate (PlanCharge.deployment_store (gateway demo_server)) "big" (mkModelCostRate 3 0 3))).

Lemma virtual_model_unpriced_witness : exists p,
  (arrive 1000 FlowControl.new_controller None demo_settings priced_server (demo_request "r1" "auto" "/v1/chat/completions")).2 = inr p
  /\ cost_rate (phase_charge p) = default_rate /\ get_cost_rate (PlanCharge.deployment_store (gateway priced_server)) "big" <> default_rate.
Proof.
  destruct (arrive 1000 FlowControl.new_controller None demo_settings priced_server (demo_request "r1" "auto" "/v1/chat/completions")).2 as [a | p] eqn:E;
    [by vm_compute in E |].
  exists p. split; [reflexivity |]. split; [| by vm_compute].
  refine (proj1 (virtual_model_unpriced 1000 FlowControl.new_controller None demo_settings priced_server (demo_request "r1" "auto" "/v1/chat/completions") _ p
    new_counters_ok new_counters_ok eq_refl eq_refl _ _ E)); vm_compute; reflexivity.
Defined.

Lemma messages_drop_billing_witness :
  let req := demo_request "r1" "small" "/v1/messages" in
  exists c t, charge_in (after_arrival "r1" "small" "/v1/messages") = Some (c, t)
  /\ provider_answered 0 0 demo_settings demo_server req c t None demo_usage (mkBilling (Some (7, 0, 7)) None)
     = provider_answered 0 0 demo_settings demo_server req c t None demo_usage no_billing.
Proof.
  intros req. destruct (charge_in (after_arrival "r1" "small" "/v1/messages")) as [[c t] |] eqn:E; [| by vm_compute in E].
  exists c, t. split; [reflexivity |].
  exact (proj1 (messages_drop_billing 0 0 demo_settings demo_server req c t None None ChatStream.no_usage demo_usage KeyExpired
    (mkBilling (Some (7, 0, 7)) None) eq_refl)).
Defined.

End examples.
End RequestLife.
